(* ===== verification/_CoqProject ===== *)
-Q . S2P
Prelude.v
Protocol.v
Words.v
Utf8.v
Codec.v
Inet.v
Schema.v
Identity.v
Throttle.v
Limiter.v
Validation.v
Program.v
Services.v
Client.v
Requests.v
Connection.v
Login.v
Registration.v
Frames.v
Password.v
EventLoop.v
WorkerPool.v
Configuration.v
FtapClient.v
ClientSpec.v
ClientCalls.v
ClientTiming.v
Interop.v
LegacyUserdb.v
FileSystem.v
LegacyNames.v
LegacyProvision.v
LegacyMarker.v
MarkerFile.v
UserdbScan.v
Coordinator.v
