(* ===== verification/Prelude.v ===== *)
(** * FortyTwo BBS: a verification development of the authentication stack

    FortyTwoBBS adds to the MBSE BBS a local authentication daemon
    ([fortytwo-authd]). A login or registration program connects to it through a
    Unix socket and speaks FTAP, a binary request/response protocol; the daemon
    keeps accounts in a database and hashes passwords in worker threads. A new
    account needs an entry in the user data base of the BBS as well, which the
    registration program adds in step with the daemon. This development models that
    stack, under [src/fortytwo-auth/], down to the bytes, and proves what it
    promises.

    ** The parts, and the files that model them

    - FTAP: [Protocol] ([include/ftap_protocol.h]) has the constants, [Words],
      [Utf8] and [Codec] ([src/ftap_codec.c]) the frames and their
      type-length-value fields, [Schema] ([src/ftap_schema.c]) which message with
      which fields is allowed in which state of a connection.
    - Names and policies: [Identity] ([src/authd_identity.c]), [Throttle]
      ([src/authd_throttle.c]), [Limiter] ([src/authd_registration_limit.c]),
      [Validation] ([src/authd_database_validation.c]), [Password]
      ([src/authd_password.c]).
    - The daemon, [src/authd_server.c]: [Client] has the state of a connection and
      the responses, [Requests] the parsers of the requests, [Connection] the end
      of a connection and the invariant of the daemon, [Login] and [Registration]
      the asynchronous requests, [Frames] the input and output buffers and the
      dispatch of a frame, [EventLoop] all connections, deadlines, completions,
      signals and [authd_server_run]. Its command line is read by [Configuration]
      ([src/authd_config.c]).
    - The worker threads: [WorkerPool] ([src/authd_worker_pool.c]).
    - The client, [src/ftap_client.c]: [FtapClient] has its definitions,
      [ClientSpec] the rules for its programs, [ClientCalls] what a call answers and
      [ClientTiming] that every call returns. [Interop] puts client and daemon
      together.
    - The user data base of the BBS: [LegacyUserdb] and [UserdbScan]
      ([src/legacy_userdb.c]) check names and read the file of users, [LegacyNames]
      compares these checks with those of the daemon, [LegacyProvision] has the
      record and the texts that [src/legacy_userdb_provision.c] writes,
      [LegacyMarker] and [MarkerFile] ([src/legacy_registration_marker.c]) the
      reader of the marker in a home directory. [FileSystem] has the system calls
      and the helpers that the readers share.
    - [Coordinator] ([src/registration_coordinator.c]) registers a user with the
      daemon, through the client, and in the user data base, as two parties of one
      transaction.

    [Prelude] (this file), [Program], [Services] and [Inet] hold what the parts
    share: lists as C arrays, the type of programs that call services, the
    services themselves, and the address functions of the C library.

    ** How C is represented

    A byte is a [Z] between 0 and 255; integers wrap around at their width ([u8],
    [u16], [u32], [u64]) where the code may exceed it. Memory is a list of bytes,
    and an access outside it has no result ([run], an [option]), so that a theorem
    that a function has a result says that it stays inside its objects. A pointer
    that the code compares with [NULL] is an [option]. A function that writes
    through a pointer returns the new contents. A C string is a list with a zero in
    it. Names are those of the source; a name that is not, is for a part of a
    function (the body of a loop, one case), and the function calls it where the
    source has its text.

    The handlers of the daemon change the state of a connection and call the
    database, the worker pool, the clock, the random generator, [send] and [recv].
    They are programs in the sense of [Program]: functions of the state and of the
    history of calls. The answers come from an [Environment], a function of the
    history, about which only [EnvironmentLaws] is assumed ([Connection]): what the
    interfaces document of the size and the form of an answer. The client, the
    readers of files, the coordinator and the command line are programs over
    environments of their own (the socket and the clock, [FileSystem], the writers
    of the user data base, [getopt_long]). For each of them an environment that
    meets its laws is given and runs in the witnesses.

    ** What is proved

    - Codec and schema: headers and fields round-trip, the readers accept exactly
      what the writers produce and never leave the buffer;
      [ftap_validate_message] accepts exactly the messages of a declarative
      specification and reports the first fault of the header, or a fault of the
      payload.
    - Names, UTF-8, Argon2id strings: the validators accept exactly the texts of
      their specification; a legacy name passes the checks of the daemon and of the
      user data base or neither, and display names of at most 35 bytes likewise.
    - Limiter: the table refines a partial map from addresses to counters; an
      address is never allowed more than the configured number of registrations
      in a window.
    - The daemon: every handler keeps the invariant of its connection ([inv] of
      [Connection]): the buffers and the state fit together, everything that is open
      in the database is held by a connection, and every call has its reason in the
      history ([justified]): a session is created only after a worker has verified
      the password of that account, a registration is committed or aborted only if
      it was begun here, a frame buffer is zero when it is freed. [EventLoop]
      carries this through all connections: whatever the peers, the database and the
      workers answer, [authd_server_run] is never stuck, and when it ends there is no
      session and no pending registration that it did not try to give back: the
      database has confirmed the end of a session, or the daemon has asked for it on
      its own account or a second time; a registration is committed, its abort is
      confirmed, or the daemon has asked for the abort itself.
    - Passwords: the calls of libsodium are recorded; a hash whose cost is not
      within the policy is never given to it ([Password]).
    - Configuration: the parser of the command line computes what a declarative
      reading of the options says, and what it accepts has the form and the bounds
      that the daemon relies on.
    - Workers: the queues are first-in first-out queues; in every interleaving the
      number of jobs is bounded, every completion belongs to one accepted job,
      no secret survives in a finished job, no wakeup of the condition variable is
      lost, and the pool comes to rest.
    - The client: every call returns once the clock moves, and reports success only
      for a well-formed response to its own request; when a commit fails after its
      request may have been sent, the outcome is reported as unknown. What a client
      sends, the daemon reads as it was meant, and what the daemon answers, the
      client reads as it was meant ([Interop]).
    - The user data base: inspection and audit of the file of users answer what a
      specification on the list of its records says, refuse a file that changes
      while it is read, name the record at which they fail, and leave no descriptor
      open; every byte of the record of a prepared registration is determined by the
      registration; the text of a marker is read back
      as it was written, its parser accepts exactly the specified texts, and a
      marker counts only if directories and file meet the policy before and after.
    - The coordinator: the calls to the daemon and to the user data base follow a
      protocol of preparation, commit and abort: the user data base is committed
      only after the daemon has confirmed the commit, what is prepared is taken back
      only if no commit has been requested, and if one was requested and not
      confirmed, the prepared data stay and the caller is told to have them
      repaired.

    ** Fuel

    Loops that the code itself bounds are structural, or get fuel that is proved
    to be enough ([frames_fuel], the loop of [payload_parse]). Loops that the
    environment can prolong ([send], [recv], [getrandom], [accept4], the main
    loop) take fuel as an argument; their theorems hold for every fuel and say
    what has been kept when it runs out ([Exhausted]). Where such a loop must end,
    that is proved under what makes it end: a client call ends within the fuel of
    its deadline if every round of waiting takes time ([ClientTiming]), and
    reading a file ends if the system interrupts at most so many reads and the fuel
    exceeds their number and the bytes of one reading together ([Undisturbed] of
    [FileSystem]).

    ** What is not modelled

    The texts of log messages, of usage and of the names of statuses; signal
    handlers and the creation of the listening socket, of threads and of files,
    which are events that succeed or fail; the SQL of [src/authd_database.c] and the
    functions of libsodium, libpq and the C library, which are parameters; the faults
    that the tests inject. Of [src/legacy_userdb_provision.c] the steps that change
    directories and files are not modelled: the coordinator is verified against
    them as an interface. The main function of the daemon ([src/fortytwo_authd.c])
    calls the modelled parts in order; the login program ([src/fortytwo_login.c] and
    [src/terminal_gate.c]) controls terminals and processes. The MBSE BBS itself
    ([mbcico], [mbfido], [mbsebbs], [mbsetup], [mbtask] and [lib]) is the program
    that the stack protects, and takes no part in it. *)

From Stdlib Require Import Ascii String.
From Stdlib Require Export ZArith Lia.
From stdpp Require Export base tactics numbers option list.

Export Ascii.AsciiSyntax String.StringSyntax.

#[global] Open Scope Z_scope.

(** ** Checked C computations

    A C function that reads or writes memory is modelled as a function into
    [run A], an [option]: [None] is a run that is stuck, because it accesses
    memory outside the object or because a loop exceeded its iteration bound.
    The [*_total] theorems of the components show that the functions are never
    stuck on the arguments their callers pass. *)

Declare Scope cmodel_scope.
Delimit Scope cmodel_scope with cm.

Abbreviation run := option (only parsing).

Notation "'let!' x ':=' c 'in' k" :=
  (match c with Some x => k | None => None end)
  (at level 10, x pattern, c at level 100, k at level 200) : cmodel_scope.

#[global] Open Scope cmodel_scope.

(** [a || b] where evaluating [b] may read memory. *)
Definition run_or (a b : run bool) : run bool :=
  let! x := a in if x then Some true else b.

Notation "a '||!' b" := (run_or a b)
  (at level 50, left associativity) : cmodel_scope.

(** *** Machine integers *)

(** The value stored by a conversion to an unsigned type of [w] bits. *)
Definition wrap (w z : Z) : Z := z mod 2 ^ w.

Definition u8 (z : Z) : Z := wrap 8 z.
Definition u16 (z : Z) : Z := wrap 16 z.
Definition u32 (z : Z) : Z := wrap 32 z.
Definition u64 (z : Z) : Z := wrap 64 z.

Definition UINT32_MAX : Z := 4294967295.
Definition UINT64_MAX : Z := 18446744073709551615.

(** [size_t] of the tested platform (x86_64) is 64 bits wide. *)
Definition SIZE_MAX : Z := UINT64_MAX.

(** The values of an unsigned type of [w] bits. *)
Definition fits (w z : Z) : Prop := 0 <= z < 2 ^ w.

Definition byte_ok (b : Z) : Prop := fits 8 b.

Definition bytes_ok (l : list Z) : Prop := Forall byte_ok l.

(** The length of a list as the [size_t] the code computes with. *)
Definition zlen {A} (l : list A) : Z := Z.of_nat (length l).
Arguments zlen : simpl never.

(** [b < lo || b > hi], and its negation. *)
Definition outside (lo hi b : Z) : bool := (b <? lo) || (hi <? b).
Definition between (lo hi b : Z) : bool := (lo <=? b) && (b <=? hi).

(** A [switch] label list. *)
Definition in_cases (x : Z) (cases : list Z) : bool := existsb (Z.eqb x) cases.

(** *** Memory objects

    The contents of an object is the list of its bytes; a read-only pointer is
    the list of the bytes from its target to the end of the object, [None]
    being the null pointer. *)

Abbreviation ptr := (option (list Z)) (only parsing).

Definition is_null {A} (p : option A) : bool :=
  match p with None => true | Some _ => false end.

(** [p[i]] *)
Definition buf_get (l : list Z) (i : Z) : run Z :=
  if 0 <=? i then l !! Z.to_nat i else None.

(** [p[i] = v] *)
Definition buf_set (l : list Z) (i v : Z) : run (list Z) :=
  if (0 <=? i) && (i <? zlen l) then Some (<[Z.to_nat i := v]> l) else None.

(** [p + off] as a pointer into the object of [p] *)
Definition buf_at (l : list Z) (off : Z) : run (list Z) :=
  if (0 <=? off) && (off <=? zlen l) then Some (drop (Z.to_nat off) l) else None.

(** The [n] bytes at [p + off]. *)
Definition buf_read (l : list Z) (off n : Z) : run (list Z) :=
  if (0 <=? off) && (0 <=? n) && (off + n <=? zlen l)
  then Some (take (Z.to_nat n) (drop (Z.to_nat off) l)) else None.

(** [memcpy (p + off, data, |data|)] *)
Definition buf_write (l : list Z) (off : Z) (data : list Z) : run (list Z) :=
  if (0 <=? off) && (off + zlen data <=? zlen l)
  then Some (take (Z.to_nat off) l ++ data ++ drop (Z.to_nat off + length data) l)
  else None.

(** Elements of an array of any type. *)
Definition arr_get {A} (l : list A) (i : Z) : run A :=
  if 0 <=? i then l !! Z.to_nat i else None.

Definition arr_set {A} (l : list A) (i : Z) (v : A) : run (list A) :=
  if (0 <=? i) && (i <? zlen l) then Some (<[Z.to_nat i := v]> l) else None.

(** The bytes of [text] from [i] on, within [length]. *)
Definition rest (text : list Z) (length i : Z) : list Z :=
  take (Z.to_nat (length - i)) (drop (Z.to_nat i) text).

(** Dereference of a pointer that the code does not test. *)
Definition deref {A} (p : option A) : run A := p.

(** *** C strings in character arrays: the bytes before the first zero. *)
Fixpoint cstr (l : list Z) : list Z :=
  match l with
  | [] => []
  | b :: l' => if b =? 0 then [] else b :: cstr l'
  end.

(** A string literal, without its terminating zero. *)
Definition lit (s : string) : list Z :=
  map (λ a, Z.of_N (N_of_ascii a)) (list_ascii_of_string s).
Arguments lit s%_string.

(** A character constant. *)
Definition chr (a : ascii) : Z := Z.of_N (N_of_ascii a).
Arguments chr a%_char.

Definition strlen (l : list Z) : Z := zlen (cstr l).

(** [strncmp(s, prefix, strlen(prefix)) == 0] *)
Fixpoint has_prefix (s prefix : list Z) {struct prefix} : run bool :=
  match prefix with
  | [] => Some true
  | p :: prefix =>
      match s with
      | [] => None
      | b :: s => if b =? p then has_prefix s prefix else Some false
      end
  end.

Fixpoint strnlen (s : list Z) (maximum : nat) {struct maximum} : run Z :=
  match maximum with
  | O => Some 0
  | Datatypes.S maximum =>
      match s with
      | [] => None
      | b :: s => if b =? 0 then Some 0 else let! n := strnlen s maximum in Some (1 + n)
      end
  end.

(** A pointer to the first occurrence, or null. *)
Fixpoint strchr (s : list Z) (c : Z) : run ptr :=
  match s with
  | [] => None
  | b :: s' => if b =? c then Some (Some s) else if b =? 0 then Some None else strchr s' c
  end.

(** A C string in memory. *)
Definition terminated (s tail : list Z) : list Z := s ++ 0 :: tail.

(** [strcmp(a, b) == 0] *)
Definition streq (a b : list Z) : bool := bool_decide (cstr a = cstr b).

(** [snprintf (dst, size, "%s", src)]: truncates to [size - 1] bytes and
    terminates; the rest of the array keeps its contents. *)
Definition snprintf_s (dst src : list Z) : list Z :=
  match length dst with
  | O => dst
  | S n =>
      let text := take n (cstr src) in
      text ++ 0 :: drop (length text + 1) dst
  end.

(** An array of zeros. *)
Definition zeros (n : Z) : list Z := replicate (Z.to_nat n) 0.

(** The digits that [printf] writes for an unsigned number. *)
Fixpoint decimal_digits (fuel : nat) (n : Z) : list Z :=
  match fuel with
  | O => []
  | S fuel => if n <? 10 then [chr "0" + n] else decimal_digits fuel (n / 10) ++ [chr "0" + n mod 10]
  end.

(** A [size_t] has at most 20 digits. *)
Definition decimal (n : Z) : list Z := decimal_digits 20 n.

(** The error numbers of Linux that the code names. *)
Module Errno.
Definition EINTR : Z := 4.
Definition EIO : Z := 5.
Definition EBADF : Z := 9.
Definition EAGAIN : Z := 11.
Definition EACCES : Z := 13.
Definition EINVAL : Z := 22.
Definition EPIPE : Z := 32.
Definition EPROTO : Z := 71.
Definition ENOTSOCK : Z := 88.
Definition ECONNRESET : Z := 104.
Definition ETIMEDOUT : Z := 110.
Definition EINPROGRESS : Z := 115.
End Errno.

(** *** Loops *)

Inductive ctl (S R : Type) : Type :=
| Continue (s : S)
| Break (s : S)
| Return (r : R).
Arguments Continue {S R} s.
Arguments Break {S R} s.
Arguments Return {S R} r.

(** [for (i = first; n more iterations; ++i) body] *)
Fixpoint for_range {S R} (n : nat) (i : Z)
    (body : Z → S → run (ctl S R)) (s : S) : run (ctl S R) :=
  match n with
  | O => Some (Break s)
  | S n' =>
      let! c := body i s in
      match c with
      | Continue s' => for_range n' (i + 1) body s'
      | Break s' => Some (Break s')
      | Return r => Some (Return r)
      end
  end.

(** [for (;;) body] for at most [fuel] iterations. *)
Fixpoint loop {S R} (fuel : nat) (body : S → run (ctl S R)) (s : S)
    : run (ctl S R) :=
  match fuel with
  | O => None
  | S fuel' =>
      let! c := body s in
      match c with
      | Continue s' => loop fuel' body s'
      | Break s' => Some (Break s')
      | Return r => Some (Return r)
      end
  end.

(** The final state of a loop without [return]. *)
Definition ctl_value {S} (c : ctl S Empty_set) : S :=
  match c with Continue s | Break s => s | Return r => match r with end end.

(** ** Tactics *)

(** Evaluate the binds of a run whose heads are known. *)
Ltac run_simpl := cbn [mbind option_bind]; cbv beta match.
Ltac run_simpl_in H := cbn [mbind option_bind] in H; cbv beta match in H.

(** Turn boolean comparisons in the context into propositions. *)
Ltac bools :=
  repeat match goal with
  | H : _ && _ = true |- _ => apply andb_true_iff in H; destruct H
  | H : _ || _ = false |- _ => apply orb_false_iff in H; destruct H
  | H : _ || _ = true |- _ => apply orb_true_iff in H
  | H : _ && _ = false |- _ => apply andb_false_iff in H
  | H : negb _ = true |- _ => apply negb_true_iff in H
  | H : negb _ = false |- _ => apply negb_false_iff in H
  | H : (_ <? _) = true |- _ => apply Z.ltb_lt in H
  | H : (_ <? _) = false |- _ => apply Z.ltb_ge in H
  | H : (_ <=? _) = true |- _ => apply Z.leb_le in H
  | H : (_ <=? _) = false |- _ => apply Z.leb_gt in H
  | H : (_ =? _) = true |- _ => apply Z.eqb_eq in H
  | H : (_ =? _) = false |- _ => apply Z.eqb_neq in H
  | H : bool_decide _ = true |- _ => apply bool_decide_eq_true in H
  | H : bool_decide _ = false |- _ => apply bool_decide_eq_false in H
  | H : is_null ?p = true |- _ => destruct p; [discriminate H | clear H]
  | H : is_null ?p = false |- _ =>
      let x := fresh p in destruct p as [x|]; [clear H | discriminate H]
  end.

(** Split on the condition of a conditional in the goal or a hypothesis. *)
Ltac case_if :=
  match goal with
  | |- context [if ?b then _ else _] => let E := fresh "E" in destruct b eqn:E
  | H : context [if ?b then _ else _] |- _ =>
      let E := fresh "E" in destruct b eqn:E
  end.

(** Arithmetic on tests of characters. *)
Ltac char_lia :=
  unfold outside, between in *;
  rewrite ?negb_true_iff, ?orb_true_iff, ?orb_false_iff, ?andb_true_iff, ?Z.leb_le, ?Z.leb_gt,
    ?Z.ltb_lt, ?Z.ltb_ge, ?Z.eqb_eq, ?Z.eqb_neq in *;
  repeat match goal with
  | |- context [chr ?a] => let n := eval vm_compute in (chr a) in change (chr a) with n
  | H : context [chr ?a] |- _ =>
      let n := eval vm_compute in (chr a) in change (chr a) with n in H
  end;
  lia.

Create HintDb cmodel.

(** ** Lemmas on integers *)

Lemma fits_wrap w z : 0 <= w → fits w (wrap w z).
Proof. intros. apply Z.mod_pos_bound. by apply Z.pow_pos_nonneg. Qed.

Lemma wrap_fits w z : fits w z → wrap w z = z.
Proof. apply Z.mod_small. Qed.

Lemma u8_byte z : byte_ok (u8 z).
Proof. by apply fits_wrap. Qed.

Lemma lor_shiftl_add a b n :
  0 <= n → 0 <= b < 2 ^ n → Z.lor (Z.shiftl a n) b = a * 2 ^ n + b.
Proof.
  intros Hn Hb. rewrite Z.shiftl_mul_pow2 by done.
  rewrite <- Z.lxor_lor, Z.add_nocarry_lxor; [done | |].
  all: apply Z.bits_inj'; intros k Hk; rewrite Z.land_spec, Z.bits_0.
  all: destruct (decide (k < n));
    [rewrite Z.mul_pow2_bits_low by lia; done |].
  all: rewrite <- (Z.mod_small b (2 ^ n)) by lia;
    rewrite Z.mod_pow2_bits_high by lia; by rewrite andb_false_r.
Qed.

Lemma in_cases_spec x cs : in_cases x cs = true ↔ x ∈ cs.
Proof.
  unfold in_cases. rewrite existsb_exists. split.
  - intros (y & Hy & E). apply Z.eqb_eq in E as ->. by apply list_elem_of_In.
  - intros Hx. exists x. split; [by apply list_elem_of_In | apply Z.eqb_refl].
Qed.

#[export] Hint Resolve u8_byte fits_wrap : cmodel.

Lemma outside_between lo hi b : outside lo hi b = negb (between lo hi b).
Proof. unfold outside, between. rewrite negb_andb. f_equal; lia. Qed.

Lemma between_spec lo hi b : between lo hi b = true ↔ lo <= b <= hi.
Proof. unfold between. rewrite andb_true_iff, !Z.leb_le. done. Qed.

Lemma forallb_Forall {A} (p : A → bool) l :
  forallb p l = true ↔ Forall (λ x, p x = true) l.
Proof. rewrite forallb_forall, Forall_forall. by setoid_rewrite list_elem_of_In. Qed.

(** ** Lemmas on memory objects *)

Section memory.
Context (l : list Z).

Lemma zlen_nonneg {A} (k : list A) : 0 <= zlen k.
Proof. unfold zlen. lia. Qed.

Lemma buf_get_in i : 0 <= i < zlen l → is_Some (buf_get l i).
Proof.
  unfold buf_get, zlen. intros Hi. destruct (Z.leb_spec 0 i); [|lia].
  apply lookup_lt_is_Some_2. lia.
Qed.

Lemma buf_get_Some i b : buf_get l i = Some b → 0 <= i < zlen l ∧ l !! Z.to_nat i = Some b.
Proof.
  unfold buf_get, zlen. destruct (Z.leb_spec 0 i); [|done].
  intros H0. apply lookup_lt_Some in H0 as Hl. split; [lia | done].
Qed.

Lemma buf_get_byte i b : bytes_ok l → buf_get l i = Some b → byte_ok b.
Proof.
  intros Hok [_ Hb]%buf_get_Some. by eapply (Forall_lookup_1 _ _ _ _ Hok).
Qed.

Lemma buf_read_in off n :
  0 <= off → 0 <= n → off + n <= zlen l →
  buf_read l off n = Some (take (Z.to_nat n) (drop (Z.to_nat off) l)).
Proof.
  intros ???. unfold buf_read.
  by rewrite (proj2 (Z.leb_le _ _)), (proj2 (Z.leb_le 0 n)), (proj2 (Z.leb_le (off + n) _)).
Qed.

Lemma buf_read_Some off n r :
  buf_read l off n = Some r →
  0 <= off ∧ 0 <= n ∧ off + n <= zlen l ∧ zlen r = n ∧
  r = take (Z.to_nat n) (drop (Z.to_nat off) l).
Proof.
  unfold buf_read. case_if; intros; simplify_eq. bools.
  unfold zlen in *. rewrite length_take, length_drop. repeat split; lia.
Qed.

Lemma buf_at_in off :
  0 <= off <= zlen l → buf_at l off = Some (drop (Z.to_nat off) l).
Proof.
  intros [? ?]. unfold buf_at. by rewrite !(proj2 (Z.leb_le _ _)).
Qed.

Lemma buf_set_in i v : 0 <= i < zlen l → buf_set l i v = Some (<[Z.to_nat i := v]> l).
Proof.
  intros [? ?]. unfold buf_set.
  by rewrite (proj2 (Z.leb_le _ _)), (proj2 (Z.ltb_lt _ _)).
Qed.

Lemma buf_write_in off d :
  0 <= off → off + zlen d <= zlen l →
  buf_write l off d =
    Some (take (Z.to_nat off) l ++ d ++ drop (Z.to_nat off + length d) l).
Proof.
  intros ??. unfold buf_write. by rewrite !(proj2 (Z.leb_le _ _)).
Qed.

Lemma buf_write_length off d r : buf_write l off d = Some r → zlen r = zlen l.
Proof.
  unfold buf_write, zlen. case_if; intros; simplify_eq. bools.
  rewrite !length_app, length_take, length_drop. lia.
Qed.

End memory.

Lemma zlen_app {A} (a b : list A) : zlen (a ++ b) = zlen a + zlen b.
Proof. unfold zlen. rewrite length_app. lia. Qed.

Lemma zlen_cons {A} (x : A) (b : list A) : zlen (x :: b) = 1 + zlen b.
Proof. unfold zlen. cbn [length]. lia. Qed.

Lemma buf_at_app pre s : buf_at (pre ++ s) (zlen pre) = Some s.
Proof.
  pose proof (zlen_nonneg pre). pose proof (zlen_nonneg s).
  rewrite buf_at_in by (rewrite zlen_app; lia). by rewrite drop_app_length' by (unfold zlen; lia).
Qed.

Lemma buf_set_app pre x rest v : buf_set (pre ++ x :: rest) (zlen pre) v = Some (pre ++ v :: rest).
Proof.
  pose proof (zlen_nonneg pre). pose proof (zlen_nonneg rest).
  rewrite buf_set_in by (rewrite zlen_app, zlen_cons; lia). unfold zlen. rewrite Nat2Z.id.
  rewrite insert_app_r_alt, Nat.sub_diag by lia. done.
Qed.

Lemma bytes_ok_app a b : bytes_ok (a ++ b) ↔ bytes_ok a ∧ bytes_ok b.
Proof. apply Forall_app. Qed.

Lemma bytes_ok_take n l : bytes_ok l → bytes_ok (take n l).
Proof. apply Forall_take. Qed.

Lemma bytes_ok_drop n l : bytes_ok l → bytes_ok (drop n l).
Proof. apply Forall_drop. Qed.

#[export] Hint Resolve bytes_ok_take bytes_ok_drop zlen_nonneg : cmodel.

Lemma rest_zlen text length i :
  0 <= i <= length → length <= zlen text → zlen (rest text length i) = length - i.
Proof. unfold rest, zlen. intros. rewrite length_take, length_drop. lia. Qed.

Lemma rest_get text length i k :
  0 <= i → 0 <= k → i + k < length →
  buf_get text (i + k) = rest text length i !! Z.to_nat k.
Proof.
  intros. unfold rest, buf_get. rewrite (proj2 (Z.leb_le _ _)) by lia.
  rewrite lookup_take_lt by lia. rewrite lookup_drop. f_equal. lia.
Qed.

Lemma rest_skip text length i n l :
  0 <= i → rest text length i = l → 0 <= n →
  rest text length (i + n) = drop (Z.to_nat n) l.
Proof.
  intros ? <- ?. unfold rest. rewrite skipn_firstn_comm, drop_drop.
  f_equal; [lia | f_equal; lia].
Qed.

Lemma rest_all text : rest text (zlen text) 0 = text.
Proof. unfold rest, zlen. rewrite Z.sub_0_r, Nat2Z.id. cbn. by rewrite take_ge. Qed.

Lemma rest_bytes_ok text length i : bytes_ok text → bytes_ok (rest text length i).
Proof. intros. by apply bytes_ok_take, bytes_ok_drop. Qed.

Lemma arr_get_nat {A} (l : list A) (i : nat) : arr_get l (Z.of_nat i) = l !! i.
Proof. unfold arr_get. rewrite (proj2 (Z.leb_le _ _)) by lia. by rewrite Nat2Z.id. Qed.

Lemma arr_set_nat {A} (l : list A) (i : nat) v :
  (i < length l)%nat → arr_set l (Z.of_nat i) v = Some (<[i := v]> l).
Proof.
  intros. unfold arr_set, zlen.
  rewrite (proj2 (Z.leb_le _ _)), (proj2 (Z.ltb_lt _ _)) by lia. by rewrite Nat2Z.id.
Qed.

(** Reading inside an object that is an append. *)
Lemma buf_get_app_r a b i :
  0 <= i → buf_get (a ++ b) (zlen a + i) = buf_get b i.
Proof.
  intros Hi. pose proof (zlen_nonneg a). unfold buf_get.
  rewrite !(proj2 (Z.leb_le _ _)) by lia.
  rewrite lookup_app_r by (unfold zlen; lia). f_equal. unfold zlen. lia.
Qed.

Lemma buf_get_app_first pre b rest : buf_get (pre ++ b :: rest) (zlen pre) = Some b.
Proof. rewrite <- (Z.add_0_r (zlen pre)). by rewrite buf_get_app_r. Qed.

Lemma buf_read_prefix v tail : buf_read (v ++ tail) 0 (zlen v) = Some v.
Proof.
  rewrite buf_read_in; [|lia|apply zlen_nonneg|].
  - cbn [drop Z.to_nat]. f_equal. apply take_app_length'. unfold zlen. lia.
  - rewrite zlen_app. pose proof (zlen_nonneg tail). lia.
Qed.

Lemma buf_get_head c l : buf_get (c :: l) 0 = Some c.
Proof. done. Qed.

Lemma buf_at_tail c l : buf_at (c :: l) 1 = Some l.
Proof. apply (buf_at_app [c]). Qed.

Lemma has_prefix_terminated s name tail :
  Forall (λ b, b ≠ 0) name →
  has_prefix (terminated s tail) name = Some (bool_decide (name `prefix_of` s)).
Proof.
  intros Hp. revert s. induction Hp as [|p name Hne _ IH]; intros s.
  - rewrite bool_decide_eq_true_2; [done|apply prefix_nil].
  - destruct s as [|b s]; cbn [terminated app has_prefix].
    + rewrite (proj2 (Z.eqb_neq _ _)) by congruence. rewrite bool_decide_eq_false_2; [done|apply prefix_nil_not].
    + destruct (Z.eqb_spec b p) as [->|].
      * change (s ++ 0 :: tail) with (terminated s tail). rewrite IH. f_equal. apply bool_decide_ext.
        split; [apply prefix_cons|apply prefix_cons_inv_2].
      * rewrite bool_decide_eq_false_2; [done|]. intros Hpre. by apply prefix_cons_inv_1 in Hpre.
Qed.

Lemma zlen_zeros n : 0 <= n → zlen (zeros n) = n.
Proof. intros Hn. unfold zeros, zlen. rewrite length_replicate. lia. Qed.

Lemma length_zeros n : length (zeros n) = Z.to_nat n.
Proof. apply length_replicate. Qed.

Lemma cstr_zeros n : cstr (zeros n) = [].
Proof. unfold zeros. by destruct (Z.to_nat n). Qed.

Lemma buf_get_drop l off i :
  0 <= off → 0 <= i → buf_get (drop (Z.to_nat off) l) i = buf_get l (off + i).
Proof.
  intros. unfold buf_get. rewrite !(proj2 (Z.leb_le _ _)) by lia.
  rewrite lookup_drop. f_equal. lia.
Qed.

(** ** Lemmas on C strings *)

Lemma cstr_nonzero l : Forall (λ b, b ≠ 0) (cstr l).
Proof.
  induction l as [|b l IH]; [done|]. cbn. case_if; [done|]. bools. by constructor.
Qed.

Lemma cstr_id l : Forall (λ b, b ≠ 0) l → cstr l = l.
Proof.
  induction 1 as [|b l Hb Hl IH]; [done|]. cbn.
  destruct (Z.eqb_spec b 0); [done|]. by rewrite IH.
Qed.

Lemma cstr_app_zero a b : Forall (λ x, x ≠ 0) a → cstr (a ++ 0 :: b) = a.
Proof.
  induction 1 as [|x a Hx Ha IH]; [done|]. cbn.
  destruct (Z.eqb_spec x 0); [done|]. by rewrite IH.
Qed.

Lemma cstr_idemp l : cstr (cstr l) = cstr l.
Proof. apply cstr_id, cstr_nonzero. Qed.

Lemma cstr_length l : zlen (cstr l) <= zlen l.
Proof.
  induction l as [|b l IH]; [done|]. cbn [cstr].
  pose proof (zlen_nonneg l). case_if; rewrite !zlen_cons; [change (zlen []) with 0|]; lia.
Qed.

Lemma cstr_bytes_ok l : bytes_ok l → bytes_ok (cstr l).
Proof.
  induction 1 as [|b l Hb Hl IH]; [constructor|]. cbn. case_if; by constructor.
Qed.

Lemma cstr_take_nonzero n l : Forall (λ b, b ≠ 0) (take n (cstr l)).
Proof. apply Forall_take, cstr_nonzero. Qed.

Lemma strchr_found a c rest : Forall (λ b, b ≠ 0 ∧ b ≠ c) a → strchr (a ++ c :: rest) c = Some (Some (c :: rest)).
Proof.
  induction 1 as [|b a [Hb Hc] _ IH]; cbn [app strchr]; [by rewrite Z.eqb_refl|].
  by rewrite (proj2 (Z.eqb_neq b c)), (proj2 (Z.eqb_neq b 0)).
Qed.

Lemma strchr_none a c rest : c ≠ 0 → Forall (λ b, b ≠ 0 ∧ b ≠ c) a → strchr (a ++ 0 :: rest) c = Some None.
Proof.
  intros Hc0. induction 1 as [|b a [Hb Hc] _ IH]; cbn [app strchr].
  - by rewrite (proj2 (Z.eqb_neq 0 c)).
  - by rewrite (proj2 (Z.eqb_neq b c)), (proj2 (Z.eqb_neq b 0)).
Qed.

Lemma strnlen_spec s tail maximum :
  Forall (λ x, x ≠ 0) s →
  strnlen (terminated s tail) maximum = Some (Z.min (zlen s) (Z.of_nat maximum)).
Proof.
  intros Hs. revert maximum. induction Hs as [|x s Hx _ IH]; intros [|maximum]; [done|done|..].
  - done.
  - cbn [terminated app strnlen]. rewrite (proj2 (Z.eqb_neq x 0)) by done.
    change (s ++ 0 :: tail) with (terminated s tail). rewrite IH. run_simpl. f_equal.
    rewrite zlen_cons. lia.
Qed.

Lemma strnlen_inv s maximum n :
  strnlen s maximum = Some n → n < Z.of_nat maximum →
  ∃ text tail, s = terminated text tail ∧ Forall (λ b, b ≠ 0) text ∧ n = zlen text.
Proof.
  revert s n. induction maximum as [|maximum IH]; intros s n; cbn [strnlen].
  { intros E Hn. injection E as <-. lia. }
  destruct s as [|b s]; [done|]. destruct (Z.eqb_spec b 0) as [->|Hb].
  { intros E _. injection E as <-. by exists [], s. }
  destruct (strnlen s maximum) as [k|] eqn:Ek; [|done]. run_simpl. intros E Hn. injection E as <-.
  destruct (IH s k Ek ltac:(lia)) as (text & tail & -> & Hnz & ->).
  exists (b :: text), tail. split_and!; [done|by constructor|by rewrite zlen_cons].
Qed.

(** A destination large enough receives the whole string. *)
Lemma cstr_snprintf dst src :
  strlen src < zlen dst → cstr (snprintf_s dst src) = cstr src.
Proof.
  unfold strlen, zlen, snprintf_s. intros Hlt.
  destruct (length dst) as [|n] eqn:En; [lia|].
  rewrite take_ge by lia. apply cstr_app_zero, cstr_nonzero.
Qed.

Lemma snprintf_length dst src : zlen (snprintf_s dst src) = zlen dst.
Proof.
  unfold snprintf_s, zlen. destruct (length dst) as [|n] eqn:En; [lia|].
  rewrite length_app. cbn [length]. rewrite length_drop, length_take. lia.
Qed.

Lemma lit_bytes_ok s : bytes_ok (lit s).
Proof.
  unfold lit. apply Forall_fmap, Forall_true. intros a. cbn.
  pose proof (N_ascii_bounded a). split; [lia | change (2 ^ 8) with 256; lia].
Qed.

#[export] Hint Resolve lit_bytes_ok : cmodel.

Lemma streq_spec a b : streq a b = true ↔ cstr a = cstr b.
Proof. apply bool_decide_eq_true. Qed.

(** ** Rules for loops *)

(** A bounded loop whose body keeps an invariant and is never stuck ends with
    the invariant after the last iteration, or returns. *)
Lemma for_range_inv {S R} (Inv : Z → S → Prop) (Q : R → Prop)
    (body : Z → S → run (ctl S R)) n i s :
  Inv i s →
  (∀ j t, i <= j < i + Z.of_nat n → Inv j t →
     (∃ t', body j t = Some (Continue t') ∧ Inv (j + 1) t') ∨
     (∃ r, body j t = Some (Return r) ∧ Q r)) →
  (∃ s', for_range n i body s = Some (Break s') ∧ Inv (i + Z.of_nat n) s') ∨
  (∃ r, for_range n i body s = Some (Return r) ∧ Q r).
Proof.
  revert i s. induction n as [|n IH]; intros i s Hi Hb; cbn [for_range].
  - left. exists s. by replace (i + Z.of_nat 0) with i by lia.
  - destruct (Hb i s) as [(t & -> & Ht)|(r & -> & Hr)]; [lia|done| |].
    + run_simpl. destruct (IH (i + 1) t) as [(s' & -> & Hs')|(r & -> & Hr)]; [done| | |].
      * intros j u Hj. apply Hb. lia.
      * left. exists s'. by replace (i + Z.of_nat (Datatypes.S n)) with (i + 1 + Z.of_nat n) by lia.
      * right. eauto.
    + right. eauto.
Qed.

(** A bounded loop whose body keeps an invariant, wherever the loop is left. *)
Lemma for_range_keeps {S R} (Inv : S → Prop) (Q : R → Prop)
    (body : Z → S → run (ctl S R)) n i s :
  Inv s →
  (∀ j t, i <= j < i + Z.of_nat n → Inv t →
     ∃ c, body j t = Some c ∧
       match c with Continue t' | Break t' => Inv t' | Return r => Q r end) →
  ∃ c, for_range n i body s = Some c ∧
    match c with Continue s' | Break s' => Inv s' | Return r => Q r end.
Proof.
  revert i s. induction n as [|n IH]; intros i s Hi Hb; cbn [for_range]; [by eexists|].
  destruct (Hb i s) as ([t|t|r] & -> & Ht); [lia|done|..]; run_simpl; [|by eexists..].
  apply IH; [done|]. intros j u Hj. apply Hb. lia.
Qed.

(** A loop that tests the elements of a list and returns at the first that
    fails. *)
Lemma for_range_forallb {A R} (ok : A → bool) (r : R) body (l : list A) i :
  (∀ k x, l !! k = Some x →
     body (i + Z.of_nat k) tt = Some (if ok x then Continue tt else Return r)) →
  for_range (length l) i body tt = Some (if forallb ok l then Break tt else Return r).
Proof.
  revert i. induction l as [|x l IH]; intros i Hb; cbn [for_range length forallb]; [done|].
  pose proof (Hb 0%nat x eq_refl) as H0. rewrite Z.add_0_r in H0. rewrite H0.
  destruct (ok x); [|done]. run_simpl. apply IH. intros k y Hk.
  replace (i + 1 + Z.of_nat k) with (i + Z.of_nat (Datatypes.S k)) by lia. by apply Hb.
Qed.

(** A loop that searches a list for the first element with a property. *)
Lemma for_range_find {A R} (P : A → Prop) `{!∀ x, Decision (P x)} (found : A → Z → R)
    body (l : list A) i :
  (∀ k x, l !! k = Some x →
     body (i + Z.of_nat k) tt =
       Some (if decide (P x) then Return (found x (i + Z.of_nat k)) else Continue tt)) →
  for_range (length l) i body tt =
    Some match list_find P l with
         | Some (k, x) => Return (found x (i + Z.of_nat k))
         | None => Break tt
         end.
Proof.
  revert i. induction l as [|x l IH]; intros i Hb; cbn [for_range length list_find]; [done|].
  pose proof (Hb 0%nat x eq_refl) as H0. rewrite Z.add_0_r in H0. rewrite H0.
  destruct (decide (P x)); run_simpl; [by rewrite Z.add_0_r|]. rewrite IH.
  - destruct (list_find P l) as [[k y]|]; cbn; [|done]. do 3 f_equal. lia.
  - intros k y Hk. replace (i + 1 + Z.of_nat k) with (i + Z.of_nat (Datatypes.S k)) by lia.
    by apply Hb.
Qed.

(** A loop whose measure decreases at every iteration that continues ends
    within [fuel] iterations. *)
Lemma loop_inv {S R} (Inv : S → Prop) (m : S → nat) (P : S → Prop) (Q : R → Prop)
    (body : S → run (ctl S R)) fuel s :
  Inv s → (m s < fuel)%nat →
  (∀ t, Inv t →
     (∃ t', body t = Some (Continue t') ∧ Inv t' ∧ (m t' < m t)%nat) ∨
     (∃ t', body t = Some (Break t') ∧ P t') ∨
     (∃ r, body t = Some (Return r) ∧ Q r)) →
  (∃ s', loop fuel body s = Some (Break s') ∧ P s') ∨
  (∃ r, loop fuel body s = Some (Return r) ∧ Q r).
Proof.
  revert s. induction fuel as [|fuel IH]; intros s Hs Hm Hb; [lia|].
  cbn [loop].
  destruct (Hb s Hs) as [(t & -> & Ht & Hlt)|[(t & -> & Ht)|(r & -> & Hr)]]; run_simpl.
  - apply IH; [done | lia | done].
  - left. eauto.
  - right. eauto.
Qed.

(** More fuel does not change the outcome of a loop that ends. *)
Lemma loop_fuel_mono {S R} (body : S → run (ctl S R)) fuel fuel' s c :
  (fuel <= fuel')%nat → loop fuel body s = Some c → loop fuel' body s = Some c.
Proof.
  revert fuel' s. induction fuel as [|fuel IH]; intros fuel' s Hle; [done|].
  destruct fuel' as [|fuel']; [lia|]. cbn [loop].
  destruct (body s) as [[t|t|r]|]; run_simpl; try done. apply IH. lia.
Qed.
