(* ===== verification/Protocol.v ===== *)
(** * The FTAP wire protocol

    The constants of [fortytwo-auth/include/ftap_protocol.h], under their names
    in the header: wire sizes and limits, normative strings, flags, message
    types, field types, error codes, and the connection states. *)

From S2P Require Import Prelude.

(** Wire identification and version. *)
Definition FTAP_VERSION_MAJOR : Z := 1.
Definition FTAP_VERSION_MINOR : Z := 3.

(** Fixed wire sizes and offsets. *)
Definition FTAP_FRAME_HEADER_SIZE : Z := 24.
Definition FTAP_TLV_HEADER_SIZE : Z := 8.
Definition FTAP_HEADER_MAGIC_OFFSET : Z := 0.
Definition FTAP_HEADER_MAJOR_OFFSET : Z := 4.
Definition FTAP_HEADER_MINOR_OFFSET : Z := 6.
Definition FTAP_HEADER_MESSAGE_TYPE_OFFSET : Z := 8.
Definition FTAP_HEADER_FLAGS_OFFSET : Z := 10.
Definition FTAP_HEADER_PAYLOAD_LENGTH_OFFSET : Z := 12.
Definition FTAP_HEADER_REQUEST_ID_OFFSET : Z := 16.

(** Global wire limits. *)
Definition FTAP_MAX_PAYLOAD_SIZE : Z := 65536.
Definition FTAP_MAX_FRAME_SIZE : Z := FTAP_FRAME_HEADER_SIZE + FTAP_MAX_PAYLOAD_SIZE.
Definition FTAP_UUID_SIZE : Z := 16.
Definition FTAP_BOOLEAN_SIZE : Z := 1.
Definition FTAP_SERVER_PUSH_REQUEST_ID : Z := 0.
Definition FTAP_FIRST_CLIENT_REQUEST_ID : Z := 1.

(** Text and byte-string limits from FTAP 1.3. *)
Definition FTAP_LOGIN_NAME_MAX : Z := 32.
Definition FTAP_DISPLAY_NAME_MAX : Z := 64.
Definition FTAP_LEGACY_NAME_MAX : Z := 8.
Definition FTAP_ACCOUNT_STATE_MAX : Z := 16.
Definition FTAP_CAPABILITY_NAME_MAX : Z := 96.
Definition FTAP_PROTOCOL_NAME_MAX : Z := 16.
Definition FTAP_AUTH_METHOD_MAX : Z := 32.
Definition FTAP_TTY_DEVICE_MAX : Z := 128.
Definition FTAP_NODE_ID_MAX : Z := 64.
Definition FTAP_IP_ADDRESS_MAX : Z := 45.
Definition FTAP_CLIENT_NAME_MAX : Z := 64.
Definition FTAP_CLIENT_VERSION_MAX : Z := 32.
Definition FTAP_SERVICE_NAME_MAX : Z := 64.
Definition FTAP_RESOURCE_TYPE_MAX : Z := 64.
Definition FTAP_RESOURCE_ID_MAX : Z := 128.
Definition FTAP_ENDED_REASON_MAX : Z := 64.
Definition FTAP_REVOKE_REASON_MAX : Z := 64.
Definition FTAP_REGISTRATION_STATE_MAX : Z := 24.
Definition FTAP_REGISTRATION_REASON_MAX : Z := 64.
Definition FTAP_ERROR_TEXT_MAX : Z := 256.
Definition FTAP_PASSWORD_MAX : Z := 1024.
Definition FTAP_ACCESS_TOKEN_MAX : Z := 512.

(** Normative string values for FTAP 1.3. *)
Definition FTAP_PROTOCOL_TELNET : list Z := lit "telnet".
Definition FTAP_PROTOCOL_SSH : list Z := lit "ssh".
Definition FTAP_PROTOCOL_LOCAL : list Z := lit "local".
Definition FTAP_AUTH_METHOD_PASSWORD : list Z := lit "password".
Definition FTAP_SERVICE_FORTYTWO_API : list Z := lit "fortytwo-api".
Definition FTAP_ACCOUNT_STATE_PENDING : list Z := lit "pending".
Definition FTAP_ACCOUNT_STATE_ACTIVE : list Z := lit "active".
Definition FTAP_REGISTRATION_STATE_PENDING_LEGACY : list Z := lit "pending_legacy".
Definition FTAP_REGISTRATION_STATE_COMPLETED : list Z := lit "completed".
Definition FTAP_REGISTRATION_STATE_ABORTED : list Z := lit "aborted".
Definition FTAP_REGISTRATION_STATE_FAILED : list Z := lit "failed".
Definition FTAP_REGISTRATION_REASON_CLIENT_CANCELLED : list Z := lit "client_cancelled".
Definition FTAP_REGISTRATION_REASON_CLIENT_DISCONNECTED : list Z := lit "client_disconnected".
Definition FTAP_REGISTRATION_REASON_LEGACY_WRITE_FAILED : list Z := lit "legacy_write_failed".
Definition FTAP_REGISTRATION_REASON_TIMEOUT : list Z := lit "registration_timeout".
Definition FTAP_REGISTRATION_REASON_DAEMON_SHUTDOWN : list Z := lit "daemon_shutdown".
Definition FTAP_REGISTRATION_REASON_DATABASE_FAILURE : list Z := lit "database_failure".
Definition FTAP_REGISTRATION_REASON_INTERNAL_ERROR : list Z := lit "internal_error".
Definition FTAP_FRAME_FLAG_RESPONSE : Z := Z.shiftl 1 0.
Definition FTAP_FRAME_FLAG_SERVER_PUSH : Z := Z.shiftl 1 1.
Definition FTAP_FRAME_FLAG_ERROR : Z := Z.shiftl 1 2.
Definition FTAP_FRAME_FLAG_KNOWN_MASK : Z :=
  u16 (Z.lor (Z.lor FTAP_FRAME_FLAG_RESPONSE FTAP_FRAME_FLAG_SERVER_PUSH) FTAP_FRAME_FLAG_ERROR).
Definition FTAP_FIELD_FLAG_CRITICAL : Z := Z.shiftl 1 0.
Definition FTAP_FIELD_FLAG_KNOWN_MASK : Z := u16 FTAP_FIELD_FLAG_CRITICAL.

(** FTAP message types. *)
Definition FTAP_MSG_HELLO : Z := 1.
Definition FTAP_MSG_HELLO_OK : Z := 2.
Definition FTAP_MSG_ERROR : Z := 3.
Definition FTAP_MSG_SERVICE_BIND_REQUEST : Z := 4.
Definition FTAP_MSG_SERVICE_BIND_RESULT : Z := 5.
Definition FTAP_MSG_AUTH_PASSWORD_REQUEST : Z := 100.
Definition FTAP_MSG_AUTH_PASSWORD_RESULT : Z := 101.
Definition FTAP_MSG_SESSION_CONTEXT_REQUEST : Z := 110.
Definition FTAP_MSG_SESSION_CONTEXT_RESULT : Z := 111.
Definition FTAP_MSG_SESSION_HEARTBEAT : Z := 112.
Definition FTAP_MSG_SESSION_AUTHZ_CHANGED : Z := 113.
Definition FTAP_MSG_AUTHZ_CHECK_REQUEST : Z := 120.
Definition FTAP_MSG_AUTHZ_CHECK_RESULT : Z := 121.
Definition FTAP_MSG_SESSION_CLOSE : Z := 130.
Definition FTAP_MSG_SESSION_REVOKED : Z := 131.
Definition FTAP_MSG_TOKEN_CONTEXT_REQUEST : Z := 140.
Definition FTAP_MSG_TOKEN_CONTEXT_RESULT : Z := 141.
Definition FTAP_MSG_REGISTRATION_BEGIN_REQUEST : Z := 150.
Definition FTAP_MSG_REGISTRATION_BEGIN_RESULT : Z := 151.
Definition FTAP_MSG_REGISTRATION_COMMIT_REQUEST : Z := 152.
Definition FTAP_MSG_REGISTRATION_COMMIT_RESULT : Z := 153.
Definition FTAP_MSG_REGISTRATION_ABORT_REQUEST : Z := 154.
Definition FTAP_MSG_REGISTRATION_ABORT_RESULT : Z := 155.

(** FTAP TLV field types. *)
Definition FTAP_FIELD_CLIENT_NAME : Z := 1.
Definition FTAP_FIELD_CLIENT_VERSION : Z := 2.
Definition FTAP_FIELD_SUPPORTED_MAJOR : Z := 3.
Definition FTAP_FIELD_SUPPORTED_MINOR : Z := 4.
Definition FTAP_FIELD_SERVICE_NAME : Z := 5.
Definition FTAP_FIELD_LOGIN_NAME : Z := 10.
Definition FTAP_FIELD_PASSWORD : Z := 11.
Definition FTAP_FIELD_PROTOCOL : Z := 12.
Definition FTAP_FIELD_SOURCE_IP : Z := 13.
Definition FTAP_FIELD_TTY_DEVICE : Z := 14.
Definition FTAP_FIELD_NODE_ID : Z := 15.
Definition FTAP_FIELD_AUTH_METHOD : Z := 16.
Definition FTAP_FIELD_USER_ID : Z := 20.
Definition FTAP_FIELD_SESSION_ID : Z := 21.
Definition FTAP_FIELD_DISPLAY_NAME : Z := 22.
Definition FTAP_FIELD_ACCOUNT_STATE : Z := 23.
Definition FTAP_FIELD_AUTH_EPOCH : Z := 24.
Definition FTAP_FIELD_AUTHZ_REVISION : Z := 25.
Definition FTAP_FIELD_CAPABILITY : Z := 26.
Definition FTAP_FIELD_LEGACY_NAME : Z := 27.
Definition FTAP_FIELD_RESOURCE_TYPE : Z := 30.
Definition FTAP_FIELD_RESOURCE_ID : Z := 31.
Definition FTAP_FIELD_AUTHZ_ALLOWED : Z := 32.
Definition FTAP_FIELD_ENDED_REASON : Z := 40.
Definition FTAP_FIELD_REVOKE_REASON : Z := 41.
Definition FTAP_FIELD_ERROR_CODE : Z := 50.
Definition FTAP_FIELD_ERROR_TEXT : Z := 51.
Definition FTAP_FIELD_RETRY_AFTER_MS : Z := 52.
Definition FTAP_FIELD_ACCESS_TOKEN : Z := 60.
Definition FTAP_FIELD_API_SESSION_ID : Z := 61.
Definition FTAP_FIELD_REGISTRATION_ID : Z := 62.
Definition FTAP_FIELD_REGISTRATION_STATE : Z := 63.
Definition FTAP_FIELD_REGISTRATION_REASON : Z := 64.

(** FTAP protocol error codes. *)
Definition FTAP_ERR_PROTOCOL : Z := 1.
Definition FTAP_ERR_UNSUPPORTED_VERSION : Z := 2.
Definition FTAP_ERR_UNSUPPORTED_FIELD : Z := 3.
Definition FTAP_ERR_INVALID_STATE : Z := 4.
Definition FTAP_ERR_MESSAGE_TOO_LARGE : Z := 5.
Definition FTAP_ERR_ACCESS_DENIED : Z := 6.
Definition FTAP_ERR_INVALID_CREDENTIALS : Z := 7.
Definition FTAP_ERR_ACCOUNT_UNAVAILABLE : Z := 8.
Definition FTAP_ERR_RATE_LIMITED : Z := 9.
Definition FTAP_ERR_SESSION_REVOKED : Z := 10.
Definition FTAP_ERR_DATABASE_UNAVAILABLE : Z := 11.
Definition FTAP_ERR_INTERNAL : Z := 12.
Definition FTAP_ERR_LOGIN_NAME_UNAVAILABLE : Z := 13.
Definition FTAP_ERR_PASSWORD_POLICY : Z := 14.

(** FTAP connection state machine. *)
Inductive ftap_connection_state :=
| FTAP_STATE_CONNECTED
| FTAP_STATE_HELLO_COMPLETE
| FTAP_STATE_REGISTERING
| FTAP_STATE_AUTHENTICATING
| FTAP_STATE_SESSION_BOUND
| FTAP_STATE_SERVICE_BOUND
| FTAP_STATE_CLOSING.

#[export] Instance ftap_connection_state_eq_dec : EqDecision ftap_connection_state.
Proof. solve_decision. Defined.

(** ** Automation: unfolding the constants *)

Create HintDb ftap_consts.
#[export] Hint Unfold FTAP_VERSION_MAJOR FTAP_VERSION_MINOR
  FTAP_FRAME_HEADER_SIZE FTAP_TLV_HEADER_SIZE FTAP_HEADER_MAGIC_OFFSET
  FTAP_HEADER_MAJOR_OFFSET FTAP_HEADER_MINOR_OFFSET
  FTAP_HEADER_MESSAGE_TYPE_OFFSET FTAP_HEADER_FLAGS_OFFSET
  FTAP_HEADER_PAYLOAD_LENGTH_OFFSET FTAP_HEADER_REQUEST_ID_OFFSET
  FTAP_MAX_PAYLOAD_SIZE FTAP_MAX_FRAME_SIZE FTAP_UUID_SIZE FTAP_BOOLEAN_SIZE
  FTAP_SERVER_PUSH_REQUEST_ID FTAP_FIRST_CLIENT_REQUEST_ID
  FTAP_LOGIN_NAME_MAX FTAP_DISPLAY_NAME_MAX FTAP_LEGACY_NAME_MAX
  FTAP_ACCOUNT_STATE_MAX FTAP_CAPABILITY_NAME_MAX FTAP_PROTOCOL_NAME_MAX
  FTAP_AUTH_METHOD_MAX FTAP_TTY_DEVICE_MAX FTAP_NODE_ID_MAX
  FTAP_IP_ADDRESS_MAX FTAP_CLIENT_NAME_MAX FTAP_CLIENT_VERSION_MAX
  FTAP_SERVICE_NAME_MAX FTAP_RESOURCE_TYPE_MAX FTAP_RESOURCE_ID_MAX
  FTAP_ENDED_REASON_MAX FTAP_REVOKE_REASON_MAX FTAP_REGISTRATION_STATE_MAX
  FTAP_REGISTRATION_REASON_MAX FTAP_ERROR_TEXT_MAX FTAP_PASSWORD_MAX
  FTAP_ACCESS_TOKEN_MAX FTAP_FRAME_FLAG_RESPONSE FTAP_FRAME_FLAG_SERVER_PUSH
  FTAP_FRAME_FLAG_ERROR FTAP_FRAME_FLAG_KNOWN_MASK FTAP_FIELD_FLAG_CRITICAL
  FTAP_FIELD_FLAG_KNOWN_MASK FTAP_MSG_HELLO FTAP_MSG_HELLO_OK FTAP_MSG_ERROR
  FTAP_MSG_SERVICE_BIND_REQUEST FTAP_MSG_SERVICE_BIND_RESULT
  FTAP_MSG_AUTH_PASSWORD_REQUEST FTAP_MSG_AUTH_PASSWORD_RESULT
  FTAP_MSG_SESSION_CONTEXT_REQUEST FTAP_MSG_SESSION_CONTEXT_RESULT
  FTAP_MSG_SESSION_HEARTBEAT FTAP_MSG_SESSION_AUTHZ_CHANGED
  FTAP_MSG_AUTHZ_CHECK_REQUEST FTAP_MSG_AUTHZ_CHECK_RESULT
  FTAP_MSG_SESSION_CLOSE FTAP_MSG_SESSION_REVOKED
  FTAP_MSG_TOKEN_CONTEXT_REQUEST FTAP_MSG_TOKEN_CONTEXT_RESULT
  FTAP_MSG_REGISTRATION_BEGIN_REQUEST FTAP_MSG_REGISTRATION_BEGIN_RESULT
  FTAP_MSG_REGISTRATION_COMMIT_REQUEST FTAP_MSG_REGISTRATION_COMMIT_RESULT
  FTAP_MSG_REGISTRATION_ABORT_REQUEST FTAP_MSG_REGISTRATION_ABORT_RESULT
  FTAP_FIELD_CLIENT_NAME FTAP_FIELD_CLIENT_VERSION
  FTAP_FIELD_SUPPORTED_MAJOR FTAP_FIELD_SUPPORTED_MINOR
  FTAP_FIELD_SERVICE_NAME FTAP_FIELD_LOGIN_NAME FTAP_FIELD_PASSWORD
  FTAP_FIELD_PROTOCOL FTAP_FIELD_SOURCE_IP FTAP_FIELD_TTY_DEVICE
  FTAP_FIELD_NODE_ID FTAP_FIELD_AUTH_METHOD FTAP_FIELD_USER_ID
  FTAP_FIELD_SESSION_ID FTAP_FIELD_DISPLAY_NAME FTAP_FIELD_AUTH_EPOCH
  FTAP_FIELD_AUTHZ_REVISION FTAP_FIELD_CAPABILITY FTAP_FIELD_LEGACY_NAME
  FTAP_FIELD_RESOURCE_TYPE FTAP_FIELD_RESOURCE_ID FTAP_FIELD_AUTHZ_ALLOWED
  FTAP_FIELD_ENDED_REASON FTAP_FIELD_REVOKE_REASON FTAP_FIELD_ERROR_CODE
  FTAP_FIELD_ERROR_TEXT FTAP_FIELD_RETRY_AFTER_MS FTAP_FIELD_ACCESS_TOKEN
  FTAP_FIELD_API_SESSION_ID FTAP_FIELD_REGISTRATION_ID
  FTAP_FIELD_REGISTRATION_REASON FTAP_ERR_PROTOCOL
  FTAP_ERR_UNSUPPORTED_VERSION FTAP_ERR_UNSUPPORTED_FIELD
  FTAP_ERR_MESSAGE_TOO_LARGE FTAP_ERR_ACCESS_DENIED
  FTAP_ERR_INVALID_CREDENTIALS FTAP_ERR_ACCOUNT_UNAVAILABLE
  FTAP_ERR_RATE_LIMITED FTAP_ERR_SESSION_REVOKED
  FTAP_ERR_DATABASE_UNAVAILABLE FTAP_ERR_INTERNAL
  FTAP_ERR_LOGIN_NAME_UNAVAILABLE FTAP_ERR_PASSWORD_POLICY : ftap_consts.
#[export] Hint Unfold FTAP_FIELD_ACCOUNT_STATE : ftap_consts.
#[export] Hint Unfold FTAP_FIELD_REGISTRATION_STATE : ftap_consts.
#[export] Hint Unfold FTAP_ERR_INVALID_STATE : ftap_consts.
#[export] Hint Unfold UINT32_MAX UINT64_MAX SIZE_MAX byte_ok fits : ftap_consts.

(** [lia] on goals that mention protocol constants. *)
Ltac ftap_lia := autounfold with ftap_consts in *; lia.
