(* ===== verification/Words.v ===== *)
(** * Big-endian words

    The six static helpers at the top of [fortytwo-auth/src/ftap_codec.c]
    ([read_u16_be] to [write_u64_be]), which every other byte access of the
    codec goes through, and their specification: reading is [be_val], writing
    stores [be_bytes]. *)

From S2P Require Import Prelude Protocol.

(** ** The code *)

Definition read_u16_be (p : list Z) : run Z :=
  let! p0 := buf_get p 0 in
  let! p1 := buf_get p 1 in
  Some (u16 (Z.lor (Z.shiftl p0 8) p1)).

Definition read_u32_be (p : list Z) : run Z :=
  let! p0 := buf_get p 0 in
  let! p1 := buf_get p 1 in
  let! p2 := buf_get p 2 in
  let! p3 := buf_get p 3 in
  Some (Z.lor (Z.lor (Z.lor (u32 (Z.shiftl p0 24)) (u32 (Z.shiftl p1 16)))
                     (u32 (Z.shiftl p2 8))) p3).

(** [for (i = 0; i < 8; ++i) value = (value << 8) | p[i];] *)
Definition read_u64_be (p : list Z) : run Z :=
  ctl_value <$> for_range 8 0
    (λ i value, let! b := buf_get p i in
                Some (Continue (Z.lor (u64 (Z.shiftl value 8)) b))) 0.

(** The writers take the object and the index in it that [p] points to. *)
Definition write_u16_be (b : list Z) (p value : Z) : run (list Z) :=
  let! b := buf_set b p (u8 (Z.shiftr value 8)) in
  buf_set b (p + 1) (u8 value).

Definition write_u32_be (b : list Z) (p value : Z) : run (list Z) :=
  let! b := buf_set b p (u8 (Z.shiftr value 24)) in
  let! b := buf_set b (p + 1) (u8 (Z.shiftr value 16)) in
  let! b := buf_set b (p + 2) (u8 (Z.shiftr value 8)) in
  buf_set b (p + 3) (u8 value).

(** [for (i = 0; i < 8; ++i) { p[7 - i] = (uint8_t)value; value >>= 8; }] *)
Definition write_u64_be (b : list Z) (p value : Z) : run (list Z) :=
  (fst ∘ ctl_value) <$> for_range 8 0
    (λ i '(b, value),
       let! b := buf_set b (p + (7 - i)) (u8 value) in
       Some (Continue (b, Z.shiftr value 8))) (b, value).

(** ** Specification: big-endian numerals *)

Definition be_val (l : list Z) : Z := fold_left (λ acc b, acc * 256 + b) l 0.

Fixpoint be_bytes (n : nat) (v : Z) : list Z :=
  match n with
  | O => []
  | S n' => be_bytes n' (v / 256) ++ [v mod 256]
  end.

Lemma be_val_snoc l b : be_val (l ++ [b]) = be_val l * 256 + b.
Proof. unfold be_val. by rewrite fold_left_app. Qed.

Lemma be_bytes_length n v : length (be_bytes n v) = n.
Proof.
  revert v. induction n as [|n IH]; intros v; [done|].
  cbn [be_bytes]. rewrite length_app, IH. cbn. lia.
Qed.

Lemma be_bytes_zlen n v : zlen (be_bytes n v) = Z.of_nat n.
Proof. unfold zlen. by rewrite be_bytes_length. Qed.

Lemma be_bytes_ok n v : bytes_ok (be_bytes n v).
Proof.
  revert v. induction n as [|n IH]; intros v; [constructor|].
  cbn [be_bytes]. apply bytes_ok_app. split; [apply IH|].
  constructor; [|constructor]. apply (Z.mod_pos_bound v 256). lia.
Qed.

Lemma be_val_bytes n v : be_val (be_bytes n v) = v mod 256 ^ Z.of_nat n.
Proof.
  revert v. induction n as [|n IH]; intros v.
  - cbn. by rewrite Z.mod_1_r.
  - cbn [be_bytes]. rewrite be_val_snoc, IH, Nat2Z.inj_succ, Z.pow_succ_r by lia.
    rewrite (Z.rem_mul_r v 256) by lia. lia.
Qed.

Lemma be_bytes_val l : bytes_ok l → be_bytes (length l) (be_val l) = l.
Proof.
  induction l as [|b l IH] using rev_ind; [done|].
  intros [Hl Hb]%bytes_ok_app. apply Forall_cons_1 in Hb as [Hb _].
  unfold byte_ok, fits in Hb. change (2 ^ 8) with 256 in Hb.
  rewrite length_app, Nat.add_comm. cbn [length Nat.add be_bytes].
  rewrite be_val_snoc, Z.div_add_l, (Z.div_small b), Z.add_0_r, IH by (done || lia).
  f_equal. f_equal. rewrite Z.add_comm, Z.mod_add by lia. apply Z.mod_small. lia.
Qed.

Lemma be_val_bound l : bytes_ok l → 0 <= be_val l < 256 ^ zlen l.
Proof.
  intros H. rewrite <- (be_bytes_val l H) at 1 2. rewrite be_val_bytes.
  apply Z.mod_pos_bound. apply Z.pow_pos_nonneg; unfold zlen; lia.
Qed.

Lemma be_val_inj a b :
  bytes_ok a → bytes_ok b → length a = length b → be_val a = be_val b → a = b.
Proof.
  intros Ha Hb Hl Hv. rewrite <- (be_bytes_val a Ha), <- (be_bytes_val b Hb).
  by rewrite Hl, Hv.
Qed.

(** One more digit, as the code combines it. *)
Lemma lor_digit acc b n :
  byte_ok b → 0 <= acc * 256 + b < 2 ^ n → 8 <= n →
  Z.lor (wrap n (Z.shiftl acc 8)) b = acc * 256 + b.
Proof.
  intros Hb Hr Hn. unfold byte_ok, fits in Hb. change (2 ^ 8) with 256 in *.
  rewrite wrap_fits.
  - rewrite lor_shiftl_add by (change (2 ^ 8) with 256; lia). done.
  - unfold fits. rewrite Z.shiftl_mul_pow2 by lia. change (2 ^ 8) with 256. lia.
Qed.

(** ** Reading *)

Lemma take_S_snoc (l : list Z) n b :
  l !! n = Some b → take (S n) l = take n l ++ [b].
Proof. apply take_S_r. Qed.

Lemma read_u16_be_spec p :
  bytes_ok p → 2 <= zlen p → read_u16_be p = Some (be_val (take 2 p)).
Proof.
  intros Hok Hlen. destruct p as [|a [|b p]]; [by cbn in Hlen..|].
  apply Forall_cons_1 in Hok as [Ha Hok]. apply Forall_cons_1 in Hok as [Hb _].
  unfold byte_ok, fits in *. change (2 ^ 8) with 256 in *.
  unfold read_u16_be. change (buf_get _ 0) with (Some a).
  change (buf_get _ 1) with (Some b). run_simpl.
  change (be_val _) with ((0 * 256 + a) * 256 + b). f_equal.
  rewrite lor_shiftl_add by (change (2 ^ 8) with 256; lia).
  change (2 ^ 8) with 256. unfold u16. rewrite wrap_fits; [lia|]. unfold fits. change (2 ^ 8) with 256. change (2 ^ 16) with 65536. lia.
Qed.

Lemma read_u32_be_spec p :
  bytes_ok p → 4 <= zlen p → read_u32_be p = Some (be_val (take 4 p)).
Proof.
  intros Hok Hlen. destruct p as [|a [|b [|c [|d p]]]]; [by cbn in Hlen..|].
  repeat (apply Forall_cons_1 in Hok as [? Hok]).
  unfold byte_ok, fits in *. change (2 ^ 8) with 256 in *.
  unfold read_u32_be. change (buf_get _ 0) with (Some a).
  change (buf_get _ 1) with (Some b). change (buf_get _ 2) with (Some c).
  change (buf_get _ 3) with (Some d). run_simpl.
  change (be_val _) with ((((0 * 256 + a) * 256 + b) * 256 + c) * 256 + d).
  f_equal. unfold u32. rewrite !wrap_fits by
    (unfold fits; rewrite Z.shiftl_mul_pow2 by lia;
     change (2 ^ 8) with 256; change (2 ^ 16) with 65536;
     change (2 ^ 24) with 16777216; change (2 ^ 32) with 4294967296; lia).
  change 24 with (8 + (8 + 8)) at 1. change 16 with (8 + 8) at 1.
  rewrite <- !Z.shiftl_shiftl, <- !Z.shiftl_lor by lia.
  rewrite !lor_shiftl_add by (change (2 ^ 8) with 256; lia).
  change (2 ^ 8) with 256. lia.
Qed.

(** The loop reads [n] more digits at [i] when the word does not overflow. *)
Lemma read_u64_loop p n i acc :
  bytes_ok p → 0 <= i → i + Z.of_nat n <= zlen p → bytes_ok acc →
  zlen acc + Z.of_nat n = 8 →
  for_range (R := Empty_set) n i
    (λ i value, let! b := buf_get p i in
                Some (Continue (Z.lor (u64 (Z.shiftl value 8)) b))) (be_val acc)
  = Some (Break (be_val (acc ++ take n (drop (Z.to_nat i) p)))).
Proof.
  intros Hok. revert i acc. induction n as [|n IH]; intros i acc Hi Hlen Hacc H8;
    cbn [for_range]; [by rewrite take_0, app_nil_r|].
  destruct (buf_get_in p i) as [b Hb]; [lia|].
  pose proof (buf_get_byte _ _ _ Hok Hb) as Hbyte.
  rewrite Hb. run_simpl.
  assert (bytes_ok (acc ++ [b])) as Hacc' by (apply bytes_ok_app; split; [done | by constructor; [|constructor]]).
  unfold u64. rewrite lor_digit; [|done| |lia].
  - rewrite <- be_val_snoc, IH; [|lia|lia|done|rewrite zlen_app; change (zlen [b]) with 1; lia].
    apply buf_get_Some in Hb as [_ Hb].
    rewrite <- app_assoc, (drop_S _ _ _ Hb).
    by replace (Z.to_nat (i + 1)) with (S (Z.to_nat i)) by lia.
  - rewrite <- be_val_snoc. pose proof (be_val_bound _ Hacc') as Hbd.
    rewrite zlen_app in Hbd. change (zlen [b]) with 1 in Hbd.
    change 64 with (8 * 8). rewrite Z.pow_mul_r by lia. change (2 ^ 8) with 256.
    assert (256 ^ (zlen acc + 1) <= 256 ^ 8); [apply Z.pow_le_mono_r; lia | lia].
Qed.

Lemma read_u64_be_spec p :
  bytes_ok p → 8 <= zlen p → read_u64_be p = Some (be_val (take 8 p)).
Proof.
  intros Hok Hlen. unfold read_u64_be. change 0 with (be_val []) at 2.
  rewrite (read_u64_loop p 8 0 []); [done|done|lia|lia|constructor|done].
Qed.

(** ** Writing *)

Lemma buf_write_nil l off : 0 <= off <= zlen l → buf_write l off [] = Some l.
Proof.
  intros H. rewrite buf_write_in by (change (zlen []) with 0; lia).
  cbn [length app]. by rewrite Nat.add_0_r, take_drop.
Qed.

Lemma buf_write_snoc l off d b :
  buf_write l off (d ++ [b]) =
    buf_set l (off + zlen d) b ≫= λ l', buf_write l' off d.
Proof.
  unfold buf_write, buf_set. rewrite zlen_app. change (zlen [b]) with 1.
  destruct (Z.leb_spec 0 off); cbn [andb].
  2: { by destruct (_ && _); run_simpl. }
  destruct (Z.ltb_spec (off + zlen d) (zlen l)).
  - pose proof (zlen_nonneg d). rewrite !(proj2 (Z.leb_le _ _)) by lia.
    cbn [andb]. run_simpl. unfold zlen in *. rewrite length_insert.
    rewrite !(proj2 (Z.leb_le _ _)) by lia. cbn [andb]. f_equal.
    rewrite take_insert_ge by lia.
    f_equal. rewrite <- app_assoc. f_equal.
    rewrite length_app. cbn [length app].
    replace (Z.to_nat (off + Z.of_nat (length d))) with (Z.to_nat off + length d)%nat by lia.
    rewrite (drop_S _ b (Z.to_nat off + length d)) by (apply list_lookup_insert_eq; lia).
    f_equal. rewrite drop_insert_lt by lia. f_equal. lia.
  - rewrite andb_false_r, (proj2 (Z.leb_gt _ _)) by lia. by run_simpl.
Qed.

Lemma u8_shiftr v k : 0 <= k → u8 (Z.shiftr v k) = v / 2 ^ k mod 256.
Proof. intros. unfold u8, wrap. by rewrite Z.shiftr_div_pow2. Qed.

Lemma buf_set_write b p v : buf_set b p v = buf_write b p [v].
Proof.
  change [v] with ([] ++ [v]). rewrite buf_write_snoc. change (zlen []) with 0. rewrite Z.add_0_r.
  unfold buf_set. case_if; [|done]. run_simpl. bools.
  rewrite buf_write_nil; [done|]. unfold zlen in *. rewrite length_insert. lia.
Qed.

Lemma buf_write_cons l off b d :
  buf_write l off (b :: d) =
    buf_set l off b ≫= λ l', buf_write l' (off + 1) d.
Proof.
  unfold buf_write, buf_set. rewrite zlen_cons.
  pose proof (zlen_nonneg d). destruct (Z.leb_spec 0 off); cbn [andb]; [|done].
  destruct (Z.ltb_spec off (zlen l)).
  - run_simpl. unfold zlen in *. rewrite length_insert.
    rewrite (proj2 (Z.leb_le 0 (off + 1))) by lia. cbn [andb].
    rewrite <- Z.add_assoc. case_if; [|done]. f_equal.
    replace (Z.to_nat (off + 1)) with (S (Z.to_nat off)) by lia.
    rewrite (take_S_r _ _ b) by (apply list_lookup_insert_eq; lia).
    rewrite take_insert_ge by lia. rewrite <- app_assoc. cbn [app length].
    do 3 f_equal. rewrite drop_insert_lt by lia. f_equal. lia.
  - rewrite (proj2 (Z.leb_gt _ _)) by lia. by run_simpl.
Qed.

Lemma write_u16_be_spec b p v : write_u16_be b p v = buf_write b p (be_bytes 2 v).
Proof.
  cbn [be_bytes app]. rewrite buf_write_cons. unfold write_u16_be.
  rewrite u8_shiftr by lia. change (2 ^ 8) with 256.
  destruct (buf_set b p _); run_simpl; [|done]. apply buf_set_write.
Qed.

Lemma write_u32_be_spec b p v : write_u32_be b p v = buf_write b p (be_bytes 4 v).
Proof.
  cbn [be_bytes app]. unfold write_u32_be. rewrite !u8_shiftr by lia.
  rewrite !Z.div_div by lia.
  change (2 ^ 24) with (256 * (256 * 256)). change (2 ^ 16) with (256 * 256).
  change (2 ^ 8) with 256.
  rewrite buf_write_cons. destruct (buf_set b p _) as [b1|]; run_simpl; [|done].
  rewrite buf_write_cons. destruct (buf_set b1 _ _) as [b2|]; run_simpl; [|done].
  replace (p + 1 + 1) with (p + 2) by lia. rewrite buf_write_cons.
  destruct (buf_set b2 _ _) as [b3|]; run_simpl; [|done].
  replace (p + 2 + 1) with (p + 3) by lia. apply buf_set_write.
Qed.

Lemma write_u64_loop b p n i v :
  i + Z.of_nat n = 8 → 0 <= p <= zlen b →
  (fst ∘ ctl_value) <$> for_range n i
    (λ i '(b, value),
       let! b := buf_set b (p + (7 - i)) (u8 value) in
       Some (Continue (b, Z.shiftr value 8))) (b, v)
  = buf_write b p (be_bytes n v).
Proof.
  revert b i v. induction n as [|n IH]; intros b i v Hi Hp; cbn [for_range be_bytes].
  - by rewrite buf_write_nil.
  - rewrite buf_write_snoc, be_bytes_zlen.
    replace (p + (7 - i)) with (p + Z.of_nat n) by lia. change (v mod 256) with (u8 v).
    destruct (buf_set b _ _) as [b'|] eqn:Hb; run_simpl; [|done].
    rewrite IH; [by rewrite Z.shiftr_div_pow2 | lia |].
    rewrite buf_set_write in Hb. apply buf_write_length in Hb. lia.
Qed.

Lemma write_u64_be_spec b p v :
  0 <= p <= zlen b → write_u64_be b p v = buf_write b p (be_bytes 8 v).
Proof. intros. by apply write_u64_loop. Qed.

(** Writing then reading a word. *)
Lemma be_val_bytes_fits n v : fits (8 * Z.of_nat n) v → be_val (be_bytes n v) = v.
Proof.
  unfold fits. intros Hv. rewrite be_val_bytes, Z.mod_small; [done|].
  rewrite Z.pow_mul_r in Hv by lia. exact Hv.
Qed.
