(* ===== verification/Utf8.v ===== *)
(** * UTF-8 text validation

    [ftap_utf8_text_is_valid] of [fortytwo-auth/src/ftap_codec.c], a structural
    reference function [utf8_ok], and the specification by RFC 3629: a text is
    accepted exactly when it is the encoding of a sequence of Unicode scalar
    values none of which is zero. *)

From S2P Require Import Prelude Protocol.

(** ** The code *)

(** One iteration of the loop [while (i < length)]. *)
Definition utf8_iteration (text : list Z) (length i : Z) : run (ctl Z bool) :=
  let get j := buf_get text j in
  let bad j lo hi := let! b := get j in Some (outside lo hi b) in
  let truncated k := Some (length <=? i + k) in
  let sequence (n : Z) (bad : run bool) :=
    let! b := bad in Some (if b then Return false else Continue (i + n)) in
  if i <? length then
    let! c := get i in
    if c =? 0 then Some (Return false)
    else if c <=? 0x7f then Some (Continue (i + 1))
    else if (0xc2 <=? c) && (c <=? 0xdf) then
      sequence 2 (truncated 1 ||! bad (i + 1) 0x80 0xbf)
    else if c =? 0xe0 then
      sequence 3 (truncated 2 ||! bad (i + 1) 0xa0 0xbf ||! bad (i + 2) 0x80 0xbf)
    else if ((0xe1 <=? c) && (c <=? 0xec)) || ((0xee <=? c) && (c <=? 0xef)) then
      sequence 3 (truncated 2 ||! bad (i + 1) 0x80 0xbf ||! bad (i + 2) 0x80 0xbf)
    else if c =? 0xed then
      sequence 3 (truncated 2 ||! bad (i + 1) 0x80 0x9f ||! bad (i + 2) 0x80 0xbf)
    else if c =? 0xf0 then
      sequence 4 (truncated 3 ||! bad (i + 1) 0x90 0xbf ||! bad (i + 2) 0x80 0xbf
                  ||! bad (i + 3) 0x80 0xbf)
    else if (0xf1 <=? c) && (c <=? 0xf3) then
      sequence 4 (truncated 3 ||! bad (i + 1) 0x80 0xbf ||! bad (i + 2) 0x80 0xbf
                  ||! bad (i + 3) 0x80 0xbf)
    else if c =? 0xf4 then
      sequence 4 (truncated 3 ||! bad (i + 1) 0x80 0x8f ||! bad (i + 2) 0x80 0xbf
                  ||! bad (i + 3) 0x80 0xbf)
    else Some (Return false)
  else Some (Break i).

(** At most one iteration per byte, and the one that ends the loop. *)
Definition ftap_utf8_text_is_valid (text : ptr) (length : Z) : run bool :=
  match text with
  | None =>
      if negb (length =? 0) then Some false else Some true
  | Some text =>
      let! c := loop (S (Z.to_nat length)) (utf8_iteration text length) 0 in
      match c with Return r => Some r | Break _ | Continue _ => Some true end
  end.

(** ** Reference function *)

Definition cont : Z → bool := between 0x80 0xbf.

Fixpoint utf8_ok (l : list Z) : bool :=
  match l with
  | [] => true
  | c :: l1 =>
      if c =? 0 then false
      else if c <=? 0x7f then utf8_ok l1
      else if (0xc2 <=? c) && (c <=? 0xdf) then
        match l1 with
        | b1 :: l2 => cont b1 && utf8_ok l2
        | _ => false
        end
      else if (0xe0 <=? c) && (c <=? 0xef) then
        match l1 with
        | b1 :: b2 :: l3 =>
            between (if c =? 0xe0 then 0xa0 else 0x80)
                    (if c =? 0xed then 0x9f else 0xbf) b1
            && cont b2 && utf8_ok l3
        | _ => false
        end
      else if (0xf0 <=? c) && (c <=? 0xf4) then
        match l1 with
        | b1 :: b2 :: b3 :: l4 =>
            between (if c =? 0xf0 then 0x90 else 0x80)
                    (if c =? 0xf4 then 0x8f else 0xbf) b1
            && cont b2 && cont b3 && utf8_ok l4
        | _ => false
        end
      else false
  end.

(** ** Unicode *)

(** The scalar values other than zero. *)
Definition scalar (cp : Z) : Prop := 1 <= cp < 0xd800 ∨ 0xe000 <= cp < 0x110000.

Definition utf8_encode (cp : Z) : list Z :=
  if cp <? 0x80 then [cp]
  else if cp <? 0x800 then [0xc0 + cp / 64; 0x80 + cp mod 64]
  else if cp <? 0x10000 then
    [0xe0 + cp / 4096; 0x80 + cp / 64 mod 64; 0x80 + cp mod 64]
  else
    [0xf0 + cp / 262144; 0x80 + cp / 4096 mod 64; 0x80 + cp / 64 mod 64;
     0x80 + cp mod 64].

Definition utf8_text (l : list Z) : Prop :=
  ∃ cps, Forall scalar cps ∧ l = concat (map utf8_encode cps).

(** ** The loop computes the reference function *)

(** Case analysis on the lead byte, by the conditions of the code and of the
    reference function. *)
Ltac utf8_lead c :=
  repeat match goal with
  | |- context [if (?a =? ?b) then _ else _] => destruct (Z.eqb_spec a b); try lia
  | |- context [if (?a <=? c) && (c <=? ?b) then _ else _] =>
      let E := fresh in
      destruct ((a <=? c) && (c <=? b)) eqn:E; bools; try lia
  | |- context [if ((?a <=? c) && (c <=? ?b)) || ((?d <=? c) && (c <=? ?e)) then _ else _] =>
      let E := fresh in
      destruct (((a <=? c) && (c <=? b)) || ((d <=? c) && (c <=? e))) eqn:E; bools; try lia
  end.

(** Read the continuation bytes of the sequence from the rest [l] of the text. *)
Ltac utf8_tail l :=
  try match goal with
  | Hget : ∀ k, _ → _ → _ → buf_get _ (_ + k) = _ |- context [Z.leb ?len (?i + ?k)] =>
      destruct (Z.leb_spec len (i + k));
      destruct l as [|? [|? [|? ?]]]; rewrite ?zlen_cons in *;
      repeat match goal with H : context [zlen []] |- _ => change (zlen []) with 0 in H end;
      try match goal with H : context [zlen ?k] |- _ => pose proof (zlen_nonneg k) end;
      try lia; run_simpl; rewrite ?Hget by lia;
      change (Z.to_nat 1) with 1%nat; change (Z.to_nat 2) with 2%nat;
      change (Z.to_nat 3) with 3%nat; cbn [lookup list_lookup];
      rewrite ?outside_between;
      repeat match goal with
      | |- context [between ?lo ?hi ?b] => destruct (between lo hi b); cbn [negb andb]; run_simpl
      end
  end.

(** What one iteration does, in terms of the bytes left. *)
Lemma utf8_iteration_spec text length i :
  0 <= i < length → length <= zlen text →
  (∃ n, 0 < n ∧ i + n <= length ∧
     utf8_iteration text length i = Some (Continue (i + n)) ∧
     utf8_ok (rest text length i) = utf8_ok (rest text length (i + n))) ∨
  utf8_iteration text length i = Some (Return false) ∧
  utf8_ok (rest text length i) = false.
Proof.
  intros Hi Hlen.
  pose proof (rest_zlen text length i ltac:(lia) Hlen) as Hz.
  pose proof (λ k, rest_get text length i k) as Hget.
  pose proof (λ n, rest_skip text length i n _ ltac:(lia) eq_refl) as Hskip.
  destruct (rest text length i) as [|c l]; [change (zlen []) with 0 in Hz; lia|].
  rewrite zlen_cons in Hz. pose proof (zlen_nonneg l).
  pose proof (Hget 0 ltac:(lia) ltac:(lia) ltac:(lia)) as H0. rewrite Z.add_0_r in H0.
  change (_ !! Z.to_nat 0) with (Some c) in H0.
  unfold utf8_iteration. rewrite (proj2 (Z.ltb_lt _ _)), H0 by lia. run_simpl.
  cbn [utf8_ok]. unfold run_or, cont.
  destruct (Z.eqb_spec c 0); [by right|].
  destruct (Z.leb_spec c 0x7f).
  { left. exists 1. rewrite Hskip by lia. repeat split; try done; lia. }
  utf8_lead c; utf8_tail l; try (right; split; done);
    left; eexists; (split; [|split; [|split; [reflexivity|]]]);
    first [lia | rewrite Hskip by lia; reflexivity].
Qed.

(** The function is never stuck, and computes [utf8_ok] on the text. *)
Lemma ftap_utf8_text_is_valid_spec text length :
  0 <= length <= zlen text →
  ftap_utf8_text_is_valid (Some text) length =
    Some (utf8_ok (take (Z.to_nat length) text)).
Proof.
  intros Hlen. unfold ftap_utf8_text_is_valid.
  change (take _ text) with (take (Z.to_nat length) (drop (Z.to_nat 0) text)).
  replace (Z.to_nat length) with (Z.to_nat (length - 0)) at 2 by (f_equal; lia).
  fold (rest text length 0).
  destruct (loop_inv (λ i, 0 <= i <= length ∧
                           utf8_ok (rest text length i) = utf8_ok (rest text length 0))
              (λ i, Z.to_nat (length - i)) (λ _, utf8_ok (rest text length 0) = true)
              (λ r, utf8_ok (rest text length 0) = r)
              (utf8_iteration text length) (S (Z.to_nat length)) 0)
    as [(i & -> & ->)|(r & -> & ->)]; [split; [lia|done] | lia | | done | done].
  intros i [Hi Heq]. destruct (Z.eq_dec i length) as [->|].
  { right. left. exists length. unfold utf8_iteration. rewrite Z.ltb_irrefl.
    split; [done|]. rewrite <- Heq. unfold rest. by rewrite Z.sub_diag. }
  destruct (utf8_iteration_spec text length i) as [(n' & ? & ? & -> & Hn)|[-> Hf]]; [lia|lia| |].
  - left. exists (i + n'). split; [done|]. split; [split; [lia|congruence]|lia].
  - right. right. exists false. split; [done|congruence].
Qed.

Lemma ftap_utf8_text_is_valid_all l :
  ftap_utf8_text_is_valid (Some l) (zlen l) = Some (utf8_ok l).
Proof.
  rewrite ftap_utf8_text_is_valid_spec by (pose proof (zlen_nonneg l); lia).
  unfold zlen. by rewrite Nat2Z.id, take_ge by lia.
Qed.

(** ** The reference function accepts exactly the UTF-8 texts *)

(** The base-64 digits of a code point. *)
Lemma digits64 cp :
  ∃ q r, cp / 64 = q ∧ cp mod 64 = r ∧ cp = 64 * q + r ∧ 0 <= r < 64.
Proof.
  exists (cp / 64), (cp mod 64). split; [done|split; [done|]].
  split; [by apply Z.div_mod | apply Z.mod_pos_bound; lia].
Qed.

Lemma div_4096 cp : cp / 4096 = cp / 64 / 64.
Proof. by rewrite Z.div_div. Qed.

Lemma div_262144 cp : cp / 262144 = cp / 64 / 64 / 64.
Proof. by rewrite !Z.div_div. Qed.

(** Name the digits that occur in the goal. *)
Ltac name_digits :=
  rewrite ?div_262144, ?div_4096;
  repeat match goal with
  | |- context [?x / 64] =>
      lazymatch x with context [_ / 64] => fail | _ => idtac end;
      destruct (digits64 x) as (? & ? & -> & Hm & ? & ?); rewrite ?Hm; clear Hm
  end.

(** Settle the comparisons of [utf8_encode]. *)
Ltac encode_cases :=
  unfold utf8_encode;
  repeat match goal with
  | |- context [?a <? ?b] => destruct (Z.ltb_spec a b); try lia
  end.

Lemma utf8_ok_encode cp l : scalar cp → utf8_ok (utf8_encode cp ++ l) = utf8_ok l.
Proof.
  intros Hcp. unfold scalar in Hcp. encode_cases; name_digits; cbn [app utf8_ok].
  all: repeat match goal with
    | |- context [if (?a =? ?b) then _ else _] => destruct (Z.eqb_spec a b); try lia
    | |- context [if (?a <=? 0x7f) then _ else _] => destruct (Z.leb_spec a 0x7f); try lia
    | |- context [(?a <=? ?b) && (?b <=? ?c)] =>
        destruct (Z.leb_spec a b), (Z.leb_spec b c); cbn [andb]; try lia
    end.
  all: unfold cont; rewrite ?(proj2 (between_spec _ _ _)) by lia; done.
Qed.

(** The bytes of an accepted sequence are the encoding of their code point. *)
Lemma utf8_encode_2 a b :
  0xc2 <= a <= 0xdf → 0x80 <= b <= 0xbf →
  let cp := (a - 0xc0) * 64 + (b - 0x80) in
  scalar cp ∧ utf8_encode cp = [a; b].
Proof.
  intros Ha Hb cp. unfold scalar. split; [lia|]. encode_cases; name_digits.
  repeat f_equal; lia.
Qed.

Lemma utf8_encode_3 a b c :
  0xe0 <= a <= 0xef →
  (if a =? 0xe0 then 0xa0 else 0x80) <= b <= (if a =? 0xed then 0x9f else 0xbf) →
  0x80 <= c <= 0xbf →
  let cp := (a - 0xe0) * 4096 + (b - 0x80) * 64 + (c - 0x80) in
  scalar cp ∧ utf8_encode cp = [a; b; c].
Proof.
  intros Ha Hb Hc cp. unfold scalar.
  destruct (Z.eqb_spec a 0xe0), (Z.eqb_spec a 0xed); try lia;
    (split; [lia|]; encode_cases; name_digits; repeat f_equal; lia).
Qed.

Lemma utf8_encode_4 a b c d :
  0xf0 <= a <= 0xf4 →
  (if a =? 0xf0 then 0x90 else 0x80) <= b <= (if a =? 0xf4 then 0x8f else 0xbf) →
  0x80 <= c <= 0xbf → 0x80 <= d <= 0xbf →
  let cp := (a - 0xf0) * 262144 + (b - 0x80) * 4096 + (c - 0x80) * 64 + (d - 0x80) in
  scalar cp ∧ utf8_encode cp = [a; b; c; d].
Proof.
  intros Ha Hb Hc Hd cp. unfold scalar.
  destruct (Z.eqb_spec a 0xf0), (Z.eqb_spec a 0xf4); try lia;
    (split; [lia|]; encode_cases; name_digits; repeat f_equal; lia).
Qed.

Lemma utf8_ok_decode c l :
  utf8_ok (c :: l) = true → byte_ok c →
  ∃ cp l', scalar cp ∧ c :: l = utf8_encode cp ++ l' ∧ utf8_ok l' = true.
Proof.
  unfold byte_ok, fits. cbn [utf8_ok]. unfold cont. intros Hok Hc.
  destruct (Z.eqb_spec c 0); [done|]. destruct (Z.leb_spec c 0x7f).
  { exists c, l. unfold scalar, utf8_encode.
    rewrite (proj2 (Z.ltb_lt _ _)) by lia. split; [lia|done]. }
  destruct ((0xc2 <=? c) && (c <=? 0xdf)) eqn:E2.
  { destruct l as [|b1 l]; [done|]. bools. rewrite between_spec in *.
    edestruct (utf8_encode_2 c b1) as [Hs He]; [lia..|].
    eexists _, l. split; [exact Hs|]. by rewrite He. }
  destruct ((0xe0 <=? c) && (c <=? 0xef)) eqn:E3.
  { destruct l as [|b1 [|b2 l]]; [done..|].
    apply andb_true_iff in Hok as [[Hb1 Hb2]%andb_true_iff Hok].
    rewrite between_spec in *. clear E2. bools.
    edestruct (utf8_encode_3 c b1 b2) as [Hs He]; [lia|done|done|].
    eexists _, l. split; [exact Hs|]. by rewrite He. }
  destruct ((0xf0 <=? c) && (c <=? 0xf4)) eqn:E4; [|done].
  destruct l as [|b1 [|b2 [|b3 l]]]; [done..|].
  apply andb_true_iff in Hok as [[[Hb1 Hb2]%andb_true_iff Hb3]%andb_true_iff Hok].
  rewrite between_spec in *. clear E2 E3. bools.
  edestruct (utf8_encode_4 c b1 b2 b3) as [Hs He]; [lia|done..|].
  eexists _, l. split; [exact Hs|]. by rewrite He.
Qed.

Lemma utf8_encode_nonempty cp : utf8_encode cp ≠ [].
Proof. unfold utf8_encode. repeat case_if; done. Qed.

Lemma utf8_ok_text l : bytes_ok l → utf8_ok l = true ↔ utf8_text l.
Proof.
  intros Hok. split.
  - remember (length l) as n eqn:Hn. revert l Hn Hok.
    induction n as [n IH] using lt_wf_ind. intros [|c l] Hn Hok H.
    + by exists [].
    + apply Forall_cons_1 in Hok as [Hc Hl].
      destruct (utf8_ok_decode c l H Hc) as (cp & l' & Hcp & Heq & Hl').
      destruct (IH (length l')) with (l := l') as (cps & Hcps & ->); try done.
      * rewrite Hn, Heq, length_app. pose proof (utf8_encode_nonempty cp).
        destruct (utf8_encode cp); [done|]. cbn. lia.
      * assert (bytes_ok (c :: l)) as Hb by by constructor.
        rewrite Heq in Hb. by apply bytes_ok_app in Hb as [_ ?].
      * exists (cp :: cps). split; [by constructor|]. by rewrite Heq.
  - intros (cps & Hcps & ->). clear Hok.
    induction Hcps as [|cp cps Hcp Hcps IH]; [done|].
    cbn [map concat]. by rewrite utf8_ok_encode.
Qed.

(** A valid text holds no zero byte: it is a C string. *)
Lemma utf8_ok_nonzero l : utf8_ok l = true → Forall (λ b, b ≠ 0) l.
Proof.
  remember (length l) as n eqn:Hn. revert l Hn.
  induction n as [n IH] using lt_wf_ind. intros [|c l] -> Hok; [constructor|].
  cbn [utf8_ok] in Hok. unfold cont, between in Hok.
  repeat match goal with
  | H : (if ?b then _ else _) = true |- _ => destruct b eqn:?; [try discriminate H|try discriminate H]
  | H : (match ?l with [] => _ | _ :: _ => _ end) = true |- _ =>
      destruct l; [try discriminate H|]
  end; bools.
  all: repeat constructor; first
    [ lia | match goal with |- Forall _ ?k => apply (IH (length k)); [cbn; lia|done|done] end
    | repeat case_if; lia ].
Qed.
