(* ===== verification/Codec.v ===== *)
(** * The FTAP codec

    [fortytwo-auth/src/ftap_codec.c]: frame headers and the type-length-value
    fields of a payload. Pointer arguments that the code compares with [NULL]
    are options; a function that writes through a pointer returns the new
    contents of the target. *)

From S2P Require Import Prelude Protocol Words Utf8.

(** ** Data *)

Inductive ftap_status :=
| FTAP_STATUS_OK
| FTAP_STATUS_DONE
| FTAP_STATUS_NEWER_MINOR
| FTAP_STATUS_ERR_ARGUMENT
| FTAP_STATUS_ERR_TRUNCATED
| FTAP_STATUS_ERR_MAGIC
| FTAP_STATUS_ERR_VERSION
| FTAP_STATUS_ERR_FLAGS
| FTAP_STATUS_ERR_LENGTH
| FTAP_STATUS_ERR_OVERFLOW
| FTAP_STATUS_ERR_ENCODING
| FTAP_STATUS_ERR_UNSUPPORTED_FIELD
| FTAP_STATUS_ERR_DUPLICATE_FIELD
| FTAP_STATUS_ERR_FORBIDDEN_FIELD
| FTAP_STATUS_ERR_MISSING_FIELD
| FTAP_STATUS_ERR_INVALID_STATE
| FTAP_STATUS_ERR_INVALID_MESSAGE
| FTAP_STATUS_ERR_INVALID_VALUE
| FTAP_STATUS_ERR_REQUEST_ID
| FTAP_STATUS_ERR_CAPACITY.

#[export] Instance ftap_status_eq_dec : EqDecision ftap_status.
Proof. solve_decision. Defined.

Definition status_ok (s : ftap_status) : bool := bool_decide (s = FTAP_STATUS_OK).

Record ftap_frame_header := FrameHeader {
  hdr_major : Z;
  hdr_minor : Z;
  hdr_message_type : Z;
  hdr_flags : Z;
  hdr_payload_length : Z;
  hdr_request_id : Z;
}.

Record ftap_tlv := Tlv {
  tlv_type : Z;
  tlv_flags : Z;
  tlv_value : ptr;
  tlv_length : Z;
}.

Record ftap_tlv_writer := TlvWriter {
  w_buffer : ptr;
  w_capacity : Z;
  w_length : Z;
}.

Record ftap_tlv_reader := TlvReader {
  r_buffer : ptr;
  r_length : Z;
  r_offset : Z;
}.

(** ** Frame headers *)

Definition flags_unknown (flags mask : Z) : bool :=
  negb (Z.land flags (u16 (Z.lnot mask)) =? 0).

Definition validate_header_common (header : option ftap_frame_header)
    (encoding : bool) : ftap_status :=
  match header with
  | None => FTAP_STATUS_ERR_ARGUMENT
  | Some h =>
      if flags_unknown (hdr_flags h) FTAP_FRAME_FLAG_KNOWN_MASK
      then FTAP_STATUS_ERR_FLAGS
      else if FTAP_MAX_PAYLOAD_SIZE <? hdr_payload_length h
      then FTAP_STATUS_ERR_LENGTH
      else if (if negb (Z.land (hdr_flags h) FTAP_FRAME_FLAG_SERVER_PUSH =? 0)
               then negb (hdr_request_id h =? FTAP_SERVER_PUSH_REQUEST_ID)
               else hdr_request_id h <? FTAP_FIRST_CLIENT_REQUEST_ID)
      then FTAP_STATUS_ERR_REQUEST_ID
      else if encoding && (negb (hdr_major h =? FTAP_VERSION_MAJOR)
                           || negb (hdr_minor h =? FTAP_VERSION_MINOR))
      then FTAP_STATUS_ERR_VERSION
      else FTAP_STATUS_OK
  end.

Definition ftap_frame_header_encode (output : ptr) (header : option ftap_frame_header)
    : run (ftap_status * ptr) :=
  match output with
  | None => Some (FTAP_STATUS_ERR_ARGUMENT, output)
  | Some out =>
      let status := validate_header_common header true in
      if negb (status_ok status) then Some (status, output)
      else
        let! h := deref header in
        let! out := buf_set out 0 (chr "F") in
        let! out := buf_set out 1 (chr "T") in
        let! out := buf_set out 2 (chr "A") in
        let! out := buf_set out 3 (chr "P") in
        let! out := write_u16_be out FTAP_HEADER_MAJOR_OFFSET (hdr_major h) in
        let! out := write_u16_be out FTAP_HEADER_MINOR_OFFSET (hdr_minor h) in
        let! out := write_u16_be out FTAP_HEADER_MESSAGE_TYPE_OFFSET (hdr_message_type h) in
        let! out := write_u16_be out FTAP_HEADER_FLAGS_OFFSET (hdr_flags h) in
        let! out := write_u32_be out FTAP_HEADER_PAYLOAD_LENGTH_OFFSET (hdr_payload_length h) in
        let! out := write_u64_be out FTAP_HEADER_REQUEST_ID_OFFSET (hdr_request_id h) in
        Some (FTAP_STATUS_OK, Some out)
  end.

(** [read_uN_be(p + off)] *)
Definition read_at (read : list Z → run Z) (p : list Z) (off : Z) : run Z :=
  let! q := buf_at p off in read q.

Definition ftap_frame_header_decode (input : ptr) (input_length : Z)
    (header : option ftap_frame_header)
    : run (ftap_status * option ftap_frame_header) :=
  match input, header with
  | Some input, Some _ =>
      if input_length <? FTAP_FRAME_HEADER_SIZE
      then Some (FTAP_STATUS_ERR_TRUNCATED, header)
      else
        let differs i c := let! b := buf_get input i in Some (negb (b =? c)) in
        let! bad := differs 0 (chr "F") ||! differs 1 (chr "T")
                    ||! differs 2 (chr "A") ||! differs 3 (chr "P") in
        if bad then Some (FTAP_STATUS_ERR_MAGIC, header)
        else
          let! major := read_at read_u16_be input FTAP_HEADER_MAJOR_OFFSET in
          let! minor := read_at read_u16_be input FTAP_HEADER_MINOR_OFFSET in
          let! message_type := read_at read_u16_be input FTAP_HEADER_MESSAGE_TYPE_OFFSET in
          let! flags := read_at read_u16_be input FTAP_HEADER_FLAGS_OFFSET in
          let! payload_length := read_at read_u32_be input FTAP_HEADER_PAYLOAD_LENGTH_OFFSET in
          let! request_id := read_at read_u64_be input FTAP_HEADER_REQUEST_ID_OFFSET in
          let h := FrameHeader major minor message_type flags payload_length request_id in
          let status := validate_header_common (Some h) false in
          if negb (status_ok status) then Some (status, Some h)
          else if negb (hdr_major h =? FTAP_VERSION_MAJOR)
          then Some (FTAP_STATUS_ERR_VERSION, Some h)
          else if FTAP_VERSION_MINOR <? hdr_minor h
          then Some (FTAP_STATUS_NEWER_MINOR, Some h)
          else Some (FTAP_STATUS_OK, Some h)
  | _, _ => Some (FTAP_STATUS_ERR_ARGUMENT, header)
  end.

(** ** Writing fields *)

Definition ftap_tlv_writer_init (writer : option ftap_tlv_writer) (buffer : ptr)
    (capacity : Z) : ftap_status * option ftap_tlv_writer :=
  if is_null writer || (is_null buffer && negb (capacity =? 0))
  then (FTAP_STATUS_ERR_ARGUMENT, writer)
  else (FTAP_STATUS_OK, Some (TlvWriter buffer capacity 0)).

Definition ftap_tlv_writer_put (writer : option ftap_tlv_writer) (type flags : Z)
    (value : ptr) (value_length : Z) : run (ftap_status * option ftap_tlv_writer) :=
  if is_null writer || (type =? 0) || (is_null value && negb (value_length =? 0))
  then Some (FTAP_STATUS_ERR_ARGUMENT, writer)
  else if flags_unknown flags FTAP_FIELD_FLAG_KNOWN_MASK
  then Some (FTAP_STATUS_ERR_FLAGS, writer)
  else if UINT32_MAX <? value_length then Some (FTAP_STATUS_ERR_LENGTH, writer)
  else if SIZE_MAX - FTAP_TLV_HEADER_SIZE <? value_length
  then Some (FTAP_STATUS_ERR_OVERFLOW, writer)
  else
    let! w := deref writer in
    let needed := FTAP_TLV_HEADER_SIZE + value_length in
    if (FTAP_MAX_PAYLOAD_SIZE <? w_length w)
       || (FTAP_MAX_PAYLOAD_SIZE - w_length w <? needed)
    then Some (FTAP_STATUS_ERR_LENGTH, writer)
    else if (w_capacity w <? w_length w) || (w_capacity w - w_length w <? needed)
    then Some (FTAP_STATUS_ERR_CAPACITY, writer)
    else
      let! buffer := deref (w_buffer w) in
      let destination := w_length w in
      let! buffer := write_u16_be buffer destination type in
      let! buffer := write_u16_be buffer (destination + 2) flags in
      let! buffer := write_u32_be buffer (destination + 4) (u32 value_length) in
      let! buffer :=
        if negb (value_length =? 0) then
          let! source := deref value in
          let! data := buf_read source 0 value_length in
          buf_write buffer (destination + FTAP_TLV_HEADER_SIZE) data
        else Some buffer in
      Some (FTAP_STATUS_OK,
            Some (TlvWriter (Some buffer) (w_capacity w) (w_length w + needed))).

Definition ftap_tlv_writer_put_text (writer : option ftap_tlv_writer) (type flags : Z)
    (text : ptr) (text_length maximum_length : Z)
    : run (ftap_status * option ftap_tlv_writer) :=
  if maximum_length <? text_length then Some (FTAP_STATUS_ERR_LENGTH, writer)
  else
    let! valid := ftap_utf8_text_is_valid text text_length in
    if negb valid then Some (FTAP_STATUS_ERR_ENCODING, writer)
    else ftap_tlv_writer_put writer type flags text text_length.

Definition ftap_tlv_writer_put_u16 (writer : option ftap_tlv_writer) (type flags value : Z)
    : run (ftap_status * option ftap_tlv_writer) :=
  let! encoded := write_u16_be [0; 0] 0 value in
  ftap_tlv_writer_put writer type flags (Some encoded) 2.

Definition ftap_tlv_writer_put_u32 (writer : option ftap_tlv_writer) (type flags value : Z)
    : run (ftap_status * option ftap_tlv_writer) :=
  let! encoded := write_u32_be [0; 0; 0; 0] 0 value in
  ftap_tlv_writer_put writer type flags (Some encoded) 4.

Definition ftap_tlv_writer_put_u64 (writer : option ftap_tlv_writer) (type flags value : Z)
    : run (ftap_status * option ftap_tlv_writer) :=
  let! encoded := write_u64_be [0; 0; 0; 0; 0; 0; 0; 0] 0 value in
  ftap_tlv_writer_put writer type flags (Some encoded) 8.

Definition ftap_tlv_writer_put_bool (writer : option ftap_tlv_writer) (type flags : Z)
    (value : bool) : run (ftap_status * option ftap_tlv_writer) :=
  ftap_tlv_writer_put writer type flags (Some [if value then 1 else 0]) 1.

Definition ftap_tlv_writer_put_uuid (writer : option ftap_tlv_writer) (type flags : Z)
    (uuid : ptr) : run (ftap_status * option ftap_tlv_writer) :=
  if is_null uuid then Some (FTAP_STATUS_ERR_ARGUMENT, writer)
  else ftap_tlv_writer_put writer type flags uuid FTAP_UUID_SIZE.

(** ** Reading fields *)

Definition ftap_tlv_reader_init (reader : option ftap_tlv_reader) (buffer : ptr)
    (length : Z) : ftap_status * option ftap_tlv_reader :=
  if is_null reader || (is_null buffer && negb (length =? 0))
  then (FTAP_STATUS_ERR_ARGUMENT, reader)
  else if FTAP_MAX_PAYLOAD_SIZE <? length then (FTAP_STATUS_ERR_LENGTH, reader)
  else (FTAP_STATUS_OK, Some (TlvReader buffer length 0)).

Definition ftap_tlv_reader_next (reader : option ftap_tlv_reader) (field : option ftap_tlv)
    : run (ftap_status * option ftap_tlv_reader * option ftap_tlv) :=
  match reader, field with
  | Some r, Some f =>
      if r_offset r =? r_length r then Some (FTAP_STATUS_DONE, reader, field)
      else if r_length r <? r_offset r then Some (FTAP_STATUS_ERR_OVERFLOW, reader, field)
      else
        let remaining := r_length r - r_offset r in
        if remaining <? FTAP_TLV_HEADER_SIZE
        then Some (FTAP_STATUS_ERR_TRUNCATED, reader, field)
        else
          let! buffer := deref (r_buffer r) in
          let! type := read_at read_u16_be buffer (r_offset r) in
          let! flags := read_at read_u16_be buffer (r_offset r + 2) in
          let! value_length := read_at read_u32_be buffer (r_offset r + 4) in
          let f := Tlv type flags (tlv_value f) value_length in
          if type =? 0 then Some (FTAP_STATUS_ERR_INVALID_VALUE, reader, Some f)
          else if flags_unknown flags FTAP_FIELD_FLAG_KNOWN_MASK
          then Some (FTAP_STATUS_ERR_FLAGS, reader, Some f)
          else if remaining - FTAP_TLV_HEADER_SIZE <? value_length
          then Some (FTAP_STATUS_ERR_TRUNCATED, reader, Some f)
          else
            let! value := buf_at buffer (r_offset r + FTAP_TLV_HEADER_SIZE) in
            Some (FTAP_STATUS_OK,
                  Some (TlvReader (r_buffer r) (r_length r)
                          (r_offset r + (FTAP_TLV_HEADER_SIZE + value_length))),
                  Some (Tlv type flags (Some value) value_length))
  | _, _ => Some (FTAP_STATUS_ERR_ARGUMENT, reader, field)
  end.

(** The loop with which every caller of the codec visits the fields of a
    payload: [for (;;)], [ftap_tlv_reader_next] into a local field, [break] on
    [DONE], an error return on any other status than [OK], and then the body. *)
Definition zero_tlv : ftap_tlv := Tlv 0 0 None 0.

Definition each_field {S R} (on_error : ftap_status → ftap_tlv → R)
    (body : ftap_tlv → S → run (ctl S R)) (state : ftap_tlv_reader * S)
    : run (ctl (ftap_tlv_reader * S) R) :=
  let (reader, s) := state in
  let! (status, reader, field) := ftap_tlv_reader_next (Some reader) (Some zero_tlv) in
  let! reader := deref reader in
  let! field := deref field in
  match status with
  | FTAP_STATUS_DONE => Some (Break (reader, s))
  | FTAP_STATUS_OK =>
      let! c := body field s in
      Some match c with
           | Continue s => Continue (reader, s)
           | Break s => Break (reader, s)
           | Return r => Return r
           end
  | _ => Some (Return (on_error status field))
  end.

(** Every field takes at least eight bytes: one iteration per byte is enough. *)
Definition field_loop {S R} (on_error : ftap_status → ftap_tlv → R)
    (body : ftap_tlv → S → run (ctl S R)) (reader : ftap_tlv_reader) (s : S)
    : run (ctl S R) :=
  let! c := loop (Datatypes.S (Z.to_nat (r_length reader))) (each_field on_error body) (reader, s) in
  Some match c with
       | Continue (_, s) => Continue s
       | Break (_, s) => Break s
       | Return r => Return r
       end.

Definition ftap_message_type_is_known (message_type : Z) : bool :=
  in_cases message_type
    [FTAP_MSG_HELLO; FTAP_MSG_HELLO_OK; FTAP_MSG_ERROR;
     FTAP_MSG_SERVICE_BIND_REQUEST; FTAP_MSG_SERVICE_BIND_RESULT;
     FTAP_MSG_AUTH_PASSWORD_REQUEST; FTAP_MSG_AUTH_PASSWORD_RESULT;
     FTAP_MSG_SESSION_CONTEXT_REQUEST; FTAP_MSG_SESSION_CONTEXT_RESULT;
     FTAP_MSG_SESSION_HEARTBEAT; FTAP_MSG_SESSION_AUTHZ_CHANGED;
     FTAP_MSG_AUTHZ_CHECK_REQUEST; FTAP_MSG_AUTHZ_CHECK_RESULT;
     FTAP_MSG_SESSION_CLOSE; FTAP_MSG_SESSION_REVOKED;
     FTAP_MSG_TOKEN_CONTEXT_REQUEST; FTAP_MSG_TOKEN_CONTEXT_RESULT;
     FTAP_MSG_REGISTRATION_BEGIN_REQUEST; FTAP_MSG_REGISTRATION_BEGIN_RESULT;
     FTAP_MSG_REGISTRATION_COMMIT_REQUEST; FTAP_MSG_REGISTRATION_COMMIT_RESULT;
     FTAP_MSG_REGISTRATION_ABORT_REQUEST; FTAP_MSG_REGISTRATION_ABORT_RESULT].

Definition ftap_field_type_is_known (field_type : Z) : bool :=
  in_cases field_type
    [FTAP_FIELD_CLIENT_NAME; FTAP_FIELD_CLIENT_VERSION; FTAP_FIELD_SUPPORTED_MAJOR;
     FTAP_FIELD_SUPPORTED_MINOR; FTAP_FIELD_SERVICE_NAME; FTAP_FIELD_LOGIN_NAME;
     FTAP_FIELD_PASSWORD; FTAP_FIELD_PROTOCOL; FTAP_FIELD_SOURCE_IP;
     FTAP_FIELD_TTY_DEVICE; FTAP_FIELD_NODE_ID; FTAP_FIELD_AUTH_METHOD;
     FTAP_FIELD_USER_ID; FTAP_FIELD_SESSION_ID; FTAP_FIELD_DISPLAY_NAME;
     FTAP_FIELD_ACCOUNT_STATE; FTAP_FIELD_AUTH_EPOCH; FTAP_FIELD_AUTHZ_REVISION;
     FTAP_FIELD_CAPABILITY; FTAP_FIELD_LEGACY_NAME; FTAP_FIELD_RESOURCE_TYPE;
     FTAP_FIELD_RESOURCE_ID; FTAP_FIELD_AUTHZ_ALLOWED; FTAP_FIELD_ENDED_REASON;
     FTAP_FIELD_REVOKE_REASON; FTAP_FIELD_ERROR_CODE; FTAP_FIELD_ERROR_TEXT;
     FTAP_FIELD_RETRY_AFTER_MS; FTAP_FIELD_ACCESS_TOKEN; FTAP_FIELD_API_SESSION_ID;
     FTAP_FIELD_REGISTRATION_ID; FTAP_FIELD_REGISTRATION_STATE;
     FTAP_FIELD_REGISTRATION_REASON].

Definition ftap_tlv_check_supported (field : option ftap_tlv) : ftap_status :=
  match field with
  | None => FTAP_STATUS_ERR_ARGUMENT
  | Some f =>
      if negb (ftap_field_type_is_known (tlv_type f))
         && negb (Z.land (tlv_flags f) FTAP_FIELD_FLAG_CRITICAL =? 0)
      then FTAP_STATUS_ERR_UNSUPPORTED_FIELD
      else FTAP_STATUS_OK
  end.

(** The common shape of [ftap_tlv_get_u16], [_u32] and [_u64]. *)
Definition tlv_get_word (size : Z) (read : list Z → run Z) (field : option ftap_tlv)
    (value : option Z) : run (ftap_status * option Z) :=
  match field, value with
  | Some f, Some _ =>
      match tlv_value f with
      | Some p =>
          if negb (tlv_length f =? size) then Some (FTAP_STATUS_ERR_LENGTH, value)
          else let! v := read p in Some (FTAP_STATUS_OK, Some v)
      | None => Some (FTAP_STATUS_ERR_ARGUMENT, value)
      end
  | _, _ => Some (FTAP_STATUS_ERR_ARGUMENT, value)
  end.

Definition ftap_tlv_get_u16 := tlv_get_word 2 read_u16_be.
Definition ftap_tlv_get_u32 := tlv_get_word 4 read_u32_be.
Definition ftap_tlv_get_u64 := tlv_get_word 8 read_u64_be.

Definition ftap_tlv_get_bool (field : option ftap_tlv) (value : option bool)
    : run (ftap_status * option bool) :=
  match field, value with
  | Some f, Some _ =>
      match tlv_value f with
      | Some p =>
          let! bad := Some (negb (tlv_length f =? FTAP_BOOLEAN_SIZE))
                      ||! (let! b := buf_get p 0 in
                           Some (negb (b =? 0) && negb (b =? 1))) in
          if bad then Some (FTAP_STATUS_ERR_INVALID_VALUE, value)
          else let! b := buf_get p 0 in Some (FTAP_STATUS_OK, Some (b =? 1))
      | None => Some (FTAP_STATUS_ERR_ARGUMENT, value)
      end
  | _, _ => Some (FTAP_STATUS_ERR_ARGUMENT, value)
  end.

Definition ftap_tlv_get_uuid (field : option ftap_tlv) (uuid : ptr)
    : run (ftap_status * ptr) :=
  match field, uuid with
  | Some f, Some out =>
      match tlv_value f with
      | Some p =>
          if negb (tlv_length f =? FTAP_UUID_SIZE) then Some (FTAP_STATUS_ERR_LENGTH, uuid)
          else
            let! data := buf_read p 0 FTAP_UUID_SIZE in
            let! out := buf_write out 0 data in
            Some (FTAP_STATUS_OK, Some out)
      | None => Some (FTAP_STATUS_ERR_ARGUMENT, uuid)
      end
  | _, _ => Some (FTAP_STATUS_ERR_ARGUMENT, uuid)
  end.

(** The two output parameters point to a pointer and to a [size_t]. *)
Definition ftap_tlv_get_text (field : option ftap_tlv) (text : option ptr)
    (text_length : option Z) (maximum_length : Z)
    : run (ftap_status * option ptr * option Z) :=
  match field, text, text_length with
  | Some f, Some _, Some _ =>
      if maximum_length <? tlv_length f
      then Some (FTAP_STATUS_ERR_LENGTH, text, text_length)
      else
        let! valid := ftap_utf8_text_is_valid (tlv_value f) (tlv_length f) in
        if negb valid then Some (FTAP_STATUS_ERR_ENCODING, text, text_length)
        else Some (FTAP_STATUS_OK, Some (tlv_value f), Some (tlv_length f))
  | _, _, _ => Some (FTAP_STATUS_ERR_ARGUMENT, text, text_length)
  end.

(** ** Specification of headers *)

(** The members of a header have the ranges of their C types. *)
Record header_ok (h : ftap_frame_header) : Prop := {
  ok_major : fits 16 (hdr_major h);
  ok_minor : fits 16 (hdr_minor h);
  ok_message_type : fits 16 (hdr_message_type h);
  ok_flags : fits 16 (hdr_flags h);
  ok_payload_length : fits 32 (hdr_payload_length h);
  ok_request_id : fits 64 (hdr_request_id h);
}.

(** The wire form of a header. *)
Definition header_bytes (h : ftap_frame_header) : list Z :=
  lit "FTAP" ++ be_bytes 2 (hdr_major h) ++ be_bytes 2 (hdr_minor h)
  ++ be_bytes 2 (hdr_message_type h) ++ be_bytes 2 (hdr_flags h)
  ++ be_bytes 4 (hdr_payload_length h) ++ be_bytes 8 (hdr_request_id h).

(** The header that a frame of at least 24 bytes carries. *)
Definition header_of_bytes (l : list Z) : ftap_frame_header :=
  let word n off := be_val (take n (drop off l)) in
  FrameHeader (word 2%nat 4%nat) (word 2%nat 6%nat) (word 2%nat 8%nat)
    (word 2%nat 10%nat) (word 4%nat 12%nat) (word 8%nat 16%nat).

(** What [ftap_frame_header_decode] answers for such a frame. *)
Definition decode_status (h : ftap_frame_header) : ftap_status :=
  let status := validate_header_common (Some h) false in
  if negb (status_ok status) then status
  else if negb (hdr_major h =? FTAP_VERSION_MAJOR) then FTAP_STATUS_ERR_VERSION
  else if FTAP_VERSION_MINOR <? hdr_minor h then FTAP_STATUS_NEWER_MINOR
  else FTAP_STATUS_OK.

(** ** Writing adjacent items into a buffer *)

(** [a] has been written; [r] is the rest of the object. *)
Lemma buf_write_next a r d off :
  off = zlen a → zlen d <= zlen r →
  buf_write (a ++ r) off d = Some ((a ++ d) ++ drop (length d) r).
Proof.
  intros -> Hd. rewrite buf_write_in by (rewrite ?zlen_app; pose proof (zlen_nonneg a); lia).
  unfold zlen. rewrite Nat2Z.id, take_app_length, drop_app_add.
  by rewrite app_assoc.
Qed.

Lemma zlen_drop {A} n (l : list A) : zlen (drop n l) = Z.max 0 (zlen l - Z.of_nat n).
Proof. unfold zlen. rewrite length_drop. lia. Qed.

Ltac zlen_simpl :=
  rewrite ?zlen_app, ?zlen_drop, ?be_bytes_zlen, ?be_bytes_length, ?zlen_cons;
  change (zlen []) with 0; cbn [length].

(** Perform the next write of a sequence of adjacent ones. *)
Ltac write_next :=
  rewrite ?buf_set_write, ?write_u16_be_spec, ?write_u32_be_spec;
  rewrite ?write_u64_be_spec by (zlen_simpl; ftap_lia);
  rewrite buf_write_next by (zlen_simpl; ftap_lia); run_simpl.

Lemma header_bytes_length h : length (header_bytes h) = 24%nat.
Proof. unfold header_bytes. by rewrite !length_app, !be_bytes_length. Qed.

Lemma header_bytes_ok h : bytes_ok (header_bytes h).
Proof.
  unfold header_bytes.
  repeat first [apply be_bytes_ok | apply lit_bytes_ok | apply bytes_ok_app; split].
Qed.

(** Encoding fills the first 24 bytes of the output and leaves the others. *)
Lemma header_encode_spec out h :
  FTAP_FRAME_HEADER_SIZE <= zlen out →
  validate_header_common (Some h) true = FTAP_STATUS_OK →
  ftap_frame_header_encode (Some out) (Some h) =
    Some (FTAP_STATUS_OK, Some (header_bytes h ++ drop 24 out)).
Proof.
  intros Hlen Hok. unfold ftap_frame_header_encode. rewrite Hok.
  change (negb (status_ok FTAP_STATUS_OK)) with false. unfold deref. run_simpl.
  unfold FTAP_FRAME_HEADER_SIZE in Hlen.
  change out with ([] ++ out) at 1.
  rewrite buf_set_write. repeat write_next.
  rewrite !drop_drop, <- !app_assoc. reflexivity.
Qed.

(** Reading a word at an offset within the object. *)
Lemma read_at_u16 p off :
  bytes_ok p → 0 <= off → off + 2 <= zlen p →
  read_at read_u16_be p off = Some (be_val (take 2 (drop (Z.to_nat off) p))).
Proof.
  intros Hok H0 Hlen. unfold read_at. rewrite buf_at_in by lia. run_simpl.
  apply read_u16_be_spec; [auto with cmodel | rewrite zlen_drop; lia].
Qed.

Lemma read_at_u32 p off :
  bytes_ok p → 0 <= off → off + 4 <= zlen p →
  read_at read_u32_be p off = Some (be_val (take 4 (drop (Z.to_nat off) p))).
Proof.
  intros Hok H0 Hlen. unfold read_at. rewrite buf_at_in by lia. run_simpl.
  apply read_u32_be_spec; [auto with cmodel | rewrite zlen_drop; lia].
Qed.

Lemma read_at_u64 p off :
  bytes_ok p → 0 <= off → off + 8 <= zlen p →
  read_at read_u64_be p off = Some (be_val (take 8 (drop (Z.to_nat off) p))).
Proof.
  intros Hok H0 Hlen. unfold read_at. rewrite buf_at_in by lia. run_simpl.
  apply read_u64_be_spec; [auto with cmodel | rewrite zlen_drop; lia].
Qed.

(** The answers of [ftap_frame_header_decode] on every input. *)
Definition decode_answer (input : list Z) (input_length : Z) (old : ftap_frame_header)
    : ftap_status * ftap_frame_header :=
  if input_length <? FTAP_FRAME_HEADER_SIZE then (FTAP_STATUS_ERR_TRUNCATED, old)
  else if bool_decide (take 4 input = lit "FTAP")
  then (decode_status (header_of_bytes input), header_of_bytes input)
  else (FTAP_STATUS_ERR_MAGIC, old).

Lemma header_decode_spec input input_length old :
  bytes_ok input → input_length <= zlen input →
  ftap_frame_header_decode (Some input) input_length (Some old) =
    Some (fst (decode_answer input input_length old),
          Some (snd (decode_answer input input_length old))).
Proof.
  intros Hok Hlen. unfold ftap_frame_header_decode, decode_answer, FTAP_FRAME_HEADER_SIZE.
  destruct (Z.ltb_spec input_length 24); [done|].
  assert (∀ c0 c1 c2 c3 tail, input = c0 :: c1 :: c2 :: c3 :: tail →
    (Some (negb (c0 =? chr "F")) ||! Some (negb (c1 =? chr "T"))
     ||! Some (negb (c2 =? chr "A")) ||! Some (negb (c3 =? chr "P")))
    = Some (negb (bool_decide (take 4 input = lit "FTAP")))) as Hmagic.
  { intros c0 c1 c2 c3 tail ->.
    change (take 4 _) with [c0; c1; c2; c3].
    change (lit "FTAP") with [chr "F"; chr "T"; chr "A"; chr "P"]. unfold run_or.
    destruct (Z.eqb_spec c0 (chr "F")), (Z.eqb_spec c1 (chr "T")),
      (Z.eqb_spec c2 (chr "A")), (Z.eqb_spec c3 (chr "P")); cbn [negb]; run_simpl;
      f_equal; symmetry; first [rewrite bool_decide_true by congruence; done
                                | rewrite bool_decide_false by congruence; done]. }
  rewrite !read_at_u16, read_at_u32, read_at_u64 by (done || ftap_lia).
  destruct input as [|c0 [|c1 [|c2 [|c3 tail]]]]; rewrite ?zlen_cons in Hlen;
    change (zlen []) with 0 in *; try lia.
  change (buf_get _ 0) with (Some c0). change (buf_get _ 1) with (Some c1).
  change (buf_get _ 2) with (Some c2). change (buf_get _ 3) with (Some c3). run_simpl.
  rewrite (Hmagic _ _ _ _ _ eq_refl). run_simpl.
  destruct (bool_decide _); cbn [negb]; [|done].
  unfold decode_status. change (header_of_bytes _) with
    (FrameHeader (be_val (take 2 (drop 4 (c0 :: c1 :: c2 :: c3 :: tail))))
       (be_val (take 2 (drop 6 (c0 :: c1 :: c2 :: c3 :: tail))))
       (be_val (take 2 (drop 8 (c0 :: c1 :: c2 :: c3 :: tail))))
       (be_val (take 2 (drop 10 (c0 :: c1 :: c2 :: c3 :: tail))))
       (be_val (take 4 (drop 12 (c0 :: c1 :: c2 :: c3 :: tail))))
       (be_val (take 8 (drop 16 (c0 :: c1 :: c2 :: c3 :: tail))))).
  change (Z.to_nat FTAP_HEADER_MAJOR_OFFSET) with 4%nat.
  change (Z.to_nat FTAP_HEADER_MINOR_OFFSET) with 6%nat.
  change (Z.to_nat FTAP_HEADER_MESSAGE_TYPE_OFFSET) with 8%nat.
  change (Z.to_nat FTAP_HEADER_FLAGS_OFFSET) with 10%nat.
  change (Z.to_nat FTAP_HEADER_PAYLOAD_LENGTH_OFFSET) with 12%nat.
  change (Z.to_nat FTAP_HEADER_REQUEST_ID_OFFSET) with 16%nat.
  by repeat case_if.
Qed.

(** Taking the words of an encoded header apart again. *)
Lemma word_first n v b : take n (drop 0 (be_bytes n v ++ b)) = be_bytes n v.
Proof. apply take_app_length'. by rewrite be_bytes_length. Qed.

Lemma word_start n v b : take n (be_bytes n v ++ b) = be_bytes n v.
Proof. exact (word_first n v b). Qed.

Lemma word_skip n off m v b :
  (m <= off)%nat →
  take n (drop off (be_bytes m v ++ b)) = take n (drop (off - m) b).
Proof.
  intros. by rewrite drop_app_ge, be_bytes_length by (rewrite be_bytes_length; lia).
Qed.

Lemma magic_skip n k b : take n (drop (4 + k) (lit "FTAP" ++ b)) = take n (drop k b).
Proof. reflexivity. Qed.

Lemma header_of_bytes_encoded h tail :
  header_ok h → header_of_bytes (header_bytes h ++ tail) = h.
Proof.
  intros []. unfold header_of_bytes, header_bytes. rewrite <- !app_assoc.
  destruct h; cbn [hdr_major hdr_minor hdr_message_type hdr_flags hdr_payload_length
    hdr_request_id] in *.
  rewrite (magic_skip 2 0), (magic_skip 2 2), (magic_skip 2 4), (magic_skip 2 6),
    (magic_skip 4 8), (magic_skip 8 12).
  f_equal; repeat (rewrite word_skip by lia; cbn [Nat.sub]);
    rewrite word_first; by apply be_val_bytes_fits.
Qed.

Lemma take_header_bytes h tail : take 24 (header_bytes h ++ tail) = header_bytes h.
Proof. apply take_app_length'. by rewrite header_bytes_length. Qed.

(** A checked frame determines the bytes of its header. *)
Lemma header_bytes_decoded input :
  bytes_ok input → FTAP_FRAME_HEADER_SIZE <= zlen input → take 4 input = lit "FTAP" →
  header_bytes (header_of_bytes input) = take 24 input.
Proof.
  unfold FTAP_FRAME_HEADER_SIZE. intros Hok Hlen Hmagic.
  unfold header_bytes, header_of_bytes. cbn [hdr_major hdr_minor hdr_message_type
    hdr_flags hdr_payload_length hdr_request_id].
  assert (∀ n off, (off + n <= 24)%nat →
    be_bytes n (be_val (take n (drop off input))) = take n (drop off input)) as Hw.
  { intros n off Hn. rewrite <- (be_bytes_val (take n (drop off input))) at 2.
    - f_equal. unfold zlen in Hlen. rewrite length_take, length_drop. lia.
    - auto with cmodel. }
  rewrite !Hw by lia. rewrite <- Hmagic.
  rewrite !app_assoc.
  do 6 (rewrite take_take_drop; cbn [Nat.add]). done.
Qed.

(** ** Specification of fields *)

(** A field as a value: type, flags and the bytes of its value. *)
Record field := Field {
  f_type : Z;
  f_flags : Z;
  f_value : list Z;
}.

(** What the wire format can carry. *)
Record wire_ok (f : field) : Prop := {
  wire_type : fits 16 (f_type f) ∧ f_type f ≠ 0;
  wire_flags : fits 16 (f_flags f) ∧
    flags_unknown (f_flags f) FTAP_FIELD_FLAG_KNOWN_MASK = false;
  wire_length : zlen (f_value f) <= UINT32_MAX;
  wire_value : bytes_ok (f_value f);
}.

Definition tlv_bytes (f : field) : list Z :=
  be_bytes 2 (f_type f) ++ be_bytes 2 (f_flags f) ++ be_bytes 4 (zlen (f_value f))
  ++ f_value f.

(** The payload that carries a sequence of fields. *)
Definition payload_of (fs : list field) : list Z := concat (map tlv_bytes fs).

(** A [ftap_tlv_t] whose value pointer leads to the bytes of the field. *)
Definition tlv_is (t : ftap_tlv) (f : field) : Prop :=
  tlv_type t = f_type f ∧ tlv_flags t = f_flags f ∧
  tlv_length t = zlen (f_value f) ∧ bytes_ok (f_value f) ∧
  ∃ tail, tlv_value t = Some (f_value f ++ tail) ∧ bytes_ok tail.

Lemma tlv_bytes_zlen f : zlen (tlv_bytes f) = 8 + zlen (f_value f).
Proof. unfold tlv_bytes. rewrite !zlen_app, !be_bytes_zlen. lia. Qed.

Lemma tlv_bytes_ok f : bytes_ok (f_value f) → bytes_ok (tlv_bytes f).
Proof.
  intros. unfold tlv_bytes.
  repeat first [apply be_bytes_ok | apply bytes_ok_app; split]. done.
Qed.

Lemma payload_of_app fs gs : payload_of (fs ++ gs) = payload_of fs ++ payload_of gs.
Proof. unfold payload_of. by rewrite map_app, concat_app. Qed.

(** *** The writer *)

Definition writer_ok (w : ftap_tlv_writer) : Prop :=
  ∃ b, w_buffer w = Some b ∧ w_capacity w <= zlen b ∧ 0 <= w_length w <= w_capacity w.

(** The payload written so far. *)
Definition contents (w : ftap_tlv_writer) : list Z :=
  match w_buffer w with
  | Some b => take (Z.to_nat (w_length w)) b
  | None => []
  end.

Definition put_status (w : ftap_tlv_writer) (f : field) : ftap_status :=
  if FTAP_MAX_PAYLOAD_SIZE <? w_length w + zlen (tlv_bytes f) then FTAP_STATUS_ERR_LENGTH
  else if w_capacity w <? w_length w + zlen (tlv_bytes f) then FTAP_STATUS_ERR_CAPACITY
  else FTAP_STATUS_OK.

(** The writer after appending a field: the object keeps its bytes outside the
    window that the field occupies. *)
Definition append (w : ftap_tlv_writer) (f : field) : ftap_tlv_writer :=
  TlvWriter
    (b ← w_buffer w;
     Some (contents w ++ tlv_bytes f
           ++ drop (Z.to_nat (w_length w) + length (tlv_bytes f)) b))
    (w_capacity w) (w_length w + zlen (tlv_bytes f)).

Definition put_writer (w : ftap_tlv_writer) (f : field) : ftap_tlv_writer :=
  if status_ok (put_status w f) then append w f else w.

Lemma status_ok_spec s : status_ok s = true ↔ s = FTAP_STATUS_OK.
Proof. apply bool_decide_eq_true. Qed.

(** The two tests the code makes to see whether [n] more bytes fit. *)
Lemma room_test max len n : 0 <= n → (max <? len) || (max - len <? n) = (max <? len + n).
Proof.
  intros. destruct (Z.ltb_spec max len), (Z.ltb_spec (max - len) n),
    (Z.ltb_spec max (len + n)); cbn [orb]; lia.
Qed.

(** The four writes of [ftap_tlv_writer_put] store the field. *)
Lemma put_writes a r f tail :
  bytes_ok (f_value f) → zlen (f_value f) <= UINT32_MAX → zlen (tlv_bytes f) <= zlen r →
  (let! b := write_u16_be (a ++ r) (zlen a) (f_type f) in
   let! b := write_u16_be b (zlen a + 2) (f_flags f) in
   let! b := write_u32_be b (zlen a + 4) (u32 (zlen (f_value f))) in
   if negb (zlen (f_value f) =? 0) then
     let! data := buf_read (f_value f ++ tail) 0 (zlen (f_value f)) in
     buf_write b (zlen a + 8) data
   else Some b) = Some ((a ++ tlv_bytes f) ++ drop (length (tlv_bytes f)) r).
Proof.
  intros Hv Hl Hr. rewrite tlv_bytes_zlen in Hr. pose proof (zlen_nonneg (f_value f)).
  do 3 write_next. unfold u32. rewrite wrap_fits by ftap_lia.
  assert (∀ b, (if negb (zlen (f_value f) =? 0)
    then let! data := buf_read (f_value f ++ tail) 0 (zlen (f_value f)) in
         buf_write ((((a ++ be_bytes 2 (f_type f)) ++ be_bytes 2 (f_flags f))
                      ++ be_bytes 4 (zlen (f_value f))) ++ b) (zlen a + 8) data
    else Some ((((a ++ be_bytes 2 (f_type f)) ++ be_bytes 2 (f_flags f))
                      ++ be_bytes 4 (zlen (f_value f))) ++ b)) =
    buf_write ((((a ++ be_bytes 2 (f_type f)) ++ be_bytes 2 (f_flags f))
                      ++ be_bytes 4 (zlen (f_value f))) ++ b) (zlen a + 8) (f_value f)) as ->.
  { intros b. rewrite buf_read_prefix. destruct (Z.eqb_spec (zlen (f_value f)) 0) as [H0|]; [|done].
    destruct (f_value f); [|unfold zlen in H0; cbn in H0; lia].
    cbn [negb]. rewrite buf_write_nil; [done|].
    rewrite !zlen_app, !be_bytes_zlen. pose proof (zlen_nonneg a); pose proof (zlen_nonneg b). lia. }
  rewrite buf_write_next by (zlen_simpl; lia).
  unfold tlv_bytes. by rewrite !drop_drop, <- !app_assoc.
Qed.

Lemma writer_put_spec w f tail :
  writer_ok w → wire_ok f →
  ftap_tlv_writer_put (Some w) (f_type f) (f_flags f) (Some (f_value f ++ tail))
    (zlen (f_value f)) = Some (put_status w f, Some (put_writer w f)).
Proof.
  intros (b & Hb & Hcap & Hlen) [[Hty Hty0] [_ Hfl] Hl Hv].
  pose proof (zlen_nonneg (f_value f)).
  unfold ftap_tlv_writer_put, put_writer, put_status, append, contents.
  rewrite Hfl, Hb, tlv_bytes_zlen. cbn [is_null orb andb].
  destruct (Z.eqb_spec (f_type f) 0); [done|]. cbn [orb]. unfold deref. run_simpl.
  rewrite ?Hb. run_simpl.
  rewrite (proj2 (Z.ltb_ge UINT32_MAX _)), (proj2 (Z.ltb_ge (SIZE_MAX - _) _)) by ftap_lia.
  rewrite !room_test by ftap_lia. unfold FTAP_TLV_HEADER_SIZE.
  destruct (Z.ltb_spec FTAP_MAX_PAYLOAD_SIZE (w_length w + (8 + zlen (f_value f)))); [done|].
  destruct (Z.ltb_spec (w_capacity w) (w_length w + (8 + zlen (f_value f)))); [done|].
  change (status_ok FTAP_STATUS_OK) with true. run_simpl.
  assert (w_length w = zlen (take (Z.to_nat (w_length w)) b)) as Hwl.
  { unfold zlen in *. rewrite length_take. lia. }
  pose proof (put_writes (take (Z.to_nat (w_length w)) b) (drop (Z.to_nat (w_length w)) b)
    f tail Hv Hl) as Hw.
  rewrite take_drop, <- Hwl in Hw. unfold FTAP_TLV_HEADER_SIZE. revert Hw.
  rewrite zlen_drop, tlv_bytes_zlen, drop_drop, <- app_assoc. intros Hw.
  specialize (Hw ltac:(lia)).
  destruct (write_u16_be b _ _) as [b1|]; run_simpl_in Hw; run_simpl; [|done].
  destruct (write_u16_be b1 _ _) as [b2|]; run_simpl_in Hw; run_simpl; [|done].
  destruct (write_u32_be b2 _ _) as [b3|]; run_simpl_in Hw; run_simpl; [|done].
  by rewrite Hw.
Qed.

Lemma contents_zlen w : writer_ok w → zlen (contents w) = w_length w.
Proof.
  intros (b & Hb & Hcap & Hlen). unfold contents. rewrite Hb.
  unfold zlen in *. rewrite length_take. lia.
Qed.

Lemma append_ok w f :
  writer_ok w → put_status w f = FTAP_STATUS_OK →
  writer_ok (append w f) ∧ contents (append w f) = contents w ++ tlv_bytes f.
Proof.
  intros Hw. pose proof (contents_zlen w Hw) as Hc.
  destruct Hw as (b & Hb & Hcap & Hlen). unfold put_status.
  pose proof (zlen_nonneg (tlv_bytes f)).
  destruct (Z.ltb_spec FTAP_MAX_PAYLOAD_SIZE (w_length w + zlen (tlv_bytes f))); [done|].
  destruct (Z.ltb_spec (w_capacity w) (w_length w + zlen (tlv_bytes f))); [done|]. intros _.
  split.
  - eexists. unfold append at 1. rewrite Hb. split; [reflexivity|].
    unfold append. cbn [w_capacity w_length]. rewrite !zlen_app, Hc, zlen_drop.
    unfold zlen in *. lia.
  - unfold contents at 1, append. rewrite Hb. cbn [w_buffer w_length mbind option_bind].
    rewrite app_assoc. apply take_app_length'. rewrite length_app. unfold zlen in *. lia.
Qed.

(** *** The reader *)

Definition reader_ok (r : ftap_tlv_reader) : Prop :=
  ∃ b, r_buffer r = Some b ∧ bytes_ok b ∧ 0 <= r_offset r <= r_length r ∧ r_length r <= zlen b.

(** The bytes the reader has not consumed. *)
Definition unread (r : ftap_tlv_reader) : list Z :=
  match r_buffer r with
  | Some b => rest b (r_length r) (r_offset r)
  | None => []
  end.

Definition advance (r : ftap_tlv_reader) (n : Z) : ftap_tlv_reader :=
  TlvReader (r_buffer r) (r_length r) (r_offset r + n).

Definition is_error (s : ftap_status) : Prop :=
  s = FTAP_STATUS_ERR_TRUNCATED ∨ s = FTAP_STATUS_ERR_INVALID_VALUE ∨ s = FTAP_STATUS_ERR_FLAGS.

Lemma unread_zlen r : reader_ok r → zlen (unread r) = r_length r - r_offset r.
Proof.
  intros (b & Hb & _ & Ho & Hl). unfold unread. rewrite Hb. by apply rest_zlen.
Qed.

Lemma unread_bytes_ok r : reader_ok r → bytes_ok (unread r).
Proof.
  intros (b & Hb & Hok & _). unfold unread. rewrite Hb. by apply rest_bytes_ok.
Qed.

(** The unread bytes begin an append of the object from the offset on. *)
Lemma unread_prefix r b :
  reader_ok r → r_buffer r = Some b →
  ∃ tail, drop (Z.to_nat (r_offset r)) b = unread r ++ tail ∧ bytes_ok tail.
Proof.
  intros (b' & Hb' & Hok & Ho & Hl) Hb. rewrite Hb in Hb'. injection Hb' as <-.
  unfold unread. rewrite Hb.
  exists (drop (Z.to_nat (r_length r - r_offset r)) (drop (Z.to_nat (r_offset r)) b)).
  unfold rest. rewrite take_drop. auto with cmodel.
Qed.

Lemma advance_ok r n rem :
  reader_ok r → unread r = n ++ rem →
  reader_ok (advance r (zlen n)) ∧ unread (advance r (zlen n)) = rem.
Proof.
  intros Hr Hu. pose proof (unread_zlen r Hr) as Hz. rewrite Hu, zlen_app in Hz.
  pose proof (zlen_nonneg n). pose proof (zlen_nonneg rem).
  destruct Hr as (b & Hb & Hok & Ho & Hl). unfold unread in *. rewrite Hb in Hu.
  unfold advance. cbn [r_buffer r_length r_offset]. rewrite Hb. split.
  - exists b. cbn [r_buffer r_length r_offset]. split; [done|]. split; [done|]. lia.
  - rewrite (rest_skip _ _ _ _ _ (proj1 Ho) Hu) by done.
    unfold zlen. by rewrite Nat2Z.id, drop_app_length.
Qed.

(** Splitting eight header bytes off the unread bytes. *)
Lemma word_of_prefix n off (u tail : list Z) :
  (off + n <= length u)%nat → take n (drop off (u ++ tail)) = take n (drop off u).
Proof.
  intros. rewrite drop_app_le by lia. apply take_app_le. rewrite length_drop. lia.
Qed.

Lemma be_bytes_take n l :
  bytes_ok l → (n <= length l)%nat → be_bytes n (be_val (take n l)) = take n l.
Proof.
  intros. rewrite <- (be_bytes_val (take n l)) at 2 by auto with cmodel.
  by rewrite length_take_le.
Qed.

(** The one decision procedure behind [ftap_tlv_reader_next]: is there a
    well-formed field at the start of [u]? *)
Definition first_field (u : list Z) : ftap_status + field * list Z :=
  if zlen u <? FTAP_TLV_HEADER_SIZE then inl FTAP_STATUS_ERR_TRUNCATED
  else
    let type := be_val (take 2 u) in
    let flags := be_val (take 2 (drop 2 u)) in
    let n := be_val (take 4 (drop 4 u)) in
    if type =? 0 then inl FTAP_STATUS_ERR_INVALID_VALUE
    else if flags_unknown flags FTAP_FIELD_FLAG_KNOWN_MASK then inl FTAP_STATUS_ERR_FLAGS
    else if zlen u - FTAP_TLV_HEADER_SIZE <? n then inl FTAP_STATUS_ERR_TRUNCATED
    else inr (Field type flags (take (Z.to_nat n) (drop 8 u)), drop (8 + Z.to_nat n) u).

Lemma field_chunks (u : list Z) n :
  take 2 u ++ take 2 (drop 2 u) ++ take 4 (drop 4 u) ++ take n (drop 8 u)
  ++ drop (8 + n) u = u.
Proof.
  rewrite !app_assoc. do 3 (rewrite take_take_drop; cbn [Nat.add]). apply take_drop.
Qed.

Lemma first_field_sound u f rem :
  bytes_ok u → first_field u = inr (f, rem) → u = tlv_bytes f ++ rem ∧ wire_ok f.
Proof.
  intros Hok. unfold first_field, FTAP_TLV_HEADER_SIZE.
  destruct (Z.ltb_spec (zlen u) 8) as [|Hu]; [done|].
  destruct (Z.eqb_spec (be_val (take 2 u)) 0) as [|Ht]; [done|].
  destruct (flags_unknown _ _) eqn:Hfl; [done|].
  destruct (Z.ltb_spec (zlen u - 8) (be_val (take 4 (drop 4 u)))) as [|Hn]; [done|].
  intros [= <- <-].
  assert (∀ n k, (n + k <= 8)%nat → fits (8 * Z.of_nat n) (be_val (take n (drop k u)))) as Hfit.
  { intros n k Hnk. unfold fits. rewrite Z.pow_mul_r by lia. change (2 ^ 8) with 256.
    replace (Z.of_nat n) with (zlen (take n (drop k u)));
      [apply be_val_bound; auto with cmodel|].
    unfold zlen in *. rewrite length_take, length_drop. lia. }
  pose proof (Hfit 4%nat 4%nat ltac:(lia)) as [Hn0 Hn1].
  assert (zlen (take (Z.to_nat (be_val (take 4 (drop 4 u)))) (drop 8 u))
          = be_val (take 4 (drop 4 u))) as Hz.
  { unfold zlen in *. rewrite length_take, length_drop. lia. }
  split.
  - unfold tlv_bytes. cbn [f_type f_flags f_value]. rewrite Hz.
    rewrite !be_bytes_take by (auto with cmodel; unfold zlen in *; rewrite ?length_drop; lia).
    rewrite <- !app_assoc. symmetry. apply field_chunks.
  - constructor; cbn [f_type f_flags f_value].
    + split; [apply (Hfit 2%nat 0%nat); lia | done].
    + split; [apply (Hfit 2%nat 2%nat); lia | done].
    + rewrite Hz. change (2 ^ (8 * Z.of_nat 4)) with 4294967296 in Hn1. ftap_lia.
    + auto with cmodel.
Qed.

Lemma first_field_complete f rem :
  wire_ok f → first_field (tlv_bytes f ++ rem) = inr (f, rem).
Proof.
  intros [[Hty Hty0] [Hfl Hfl'] Hl Hv]. unfold first_field, FTAP_TLV_HEADER_SIZE.
  pose proof (zlen_nonneg (f_value f)). pose proof (zlen_nonneg rem).
  rewrite zlen_app, tlv_bytes_zlen, (proj2 (Z.ltb_ge _ _)) by lia.
  unfold tlv_bytes. rewrite <- !app_assoc.
  rewrite (word_start 2 (f_type f)), (word_skip 2 2), (word_skip 4 4), (word_skip 4 _ 2) by lia.
  cbn [Nat.sub]. rewrite !word_first, !be_val_bytes_fits by (done || (unfold fits; ftap_lia)).
  rewrite (proj2 (Z.eqb_neq _ _)), Hfl', (proj2 (Z.ltb_ge _ _)) by (done || lia).
  assert (∀ k, drop (8 + k) (be_bytes 2 (f_type f) ++ be_bytes 2 (f_flags f)
     ++ be_bytes 4 (zlen (f_value f)) ++ f_value f ++ rem) = drop k (f_value f ++ rem)) as Hd.
  { intros k. rewrite !drop_app_ge by (rewrite !be_bytes_length; lia).
    rewrite !be_bytes_length. f_equal. lia. }
  rewrite Hd. pose proof (Hd 0%nat) as Hd0. cbn [Nat.add] in Hd0. rewrite Hd0.
  unfold zlen. rewrite Nat2Z.id, drop_0, take_app_length, drop_app_length. by destruct f.
Qed.

(** [ftap_tlv_reader_next] on a well-formed reader: it is never stuck, and it
    answers by the first field of the unread bytes. *)
Inductive next_outcome (r : ftap_tlv_reader) (old : ftap_tlv)
    : ftap_status → ftap_tlv_reader → ftap_tlv → Prop :=
| next_done :
    unread r = [] → next_outcome r old FTAP_STATUS_DONE r old
| next_field f rem t :
    unread r = tlv_bytes f ++ rem → wire_ok f → tlv_is t f →
    reader_ok (advance r (zlen (tlv_bytes f))) →
    unread (advance r (zlen (tlv_bytes f))) = rem →
    next_outcome r old FTAP_STATUS_OK (advance r (zlen (tlv_bytes f))) t
| next_error s t :
    unread r ≠ [] → first_field (unread r) = inl s → is_error s →
    tlv_type t = (if zlen (unread r) <? FTAP_TLV_HEADER_SIZE then tlv_type old
                  else be_val (take 2 (unread r))) →
    next_outcome r old s r t.

(** The three header words of a field, read from the object. *)
Lemma reader_words r b :
  reader_ok r → r_buffer r = Some b → 8 <= zlen (unread r) →
  read_at read_u16_be b (r_offset r) = Some (be_val (take 2 (unread r))) ∧
  read_at read_u16_be b (r_offset r + 2) = Some (be_val (take 2 (drop 2 (unread r)))) ∧
  read_at read_u32_be b (r_offset r + 4) = Some (be_val (take 4 (drop 4 (unread r)))).
Proof.
  intros Hr Hb Hs. pose proof (unread_zlen r Hr) as Hz.
  destruct (unread_prefix r b Hr Hb) as (tail & Hd & _).
  destruct Hr as (b' & Hb' & Hok & Ho & Hl). rewrite Hb in Hb'. injection Hb' as <-.
  assert (∀ n k, (k + n <= 8)%nat →
    take n (drop (Z.to_nat (r_offset r + Z.of_nat k)) b) = take n (drop k (unread r))) as Hw.
  { intros n k ?. rewrite <- (word_of_prefix n k (unread r) tail) by (unfold zlen in Hs; lia).
    rewrite <- Hd, drop_drop. do 2 f_equal. lia. }
  rewrite !read_at_u16, read_at_u32 by (done || lia).
  rewrite <- (Hw 2%nat 2%nat), <- (Hw 4%nat 4%nat) by lia.
  pose proof (Hw 2%nat 0%nat ltac:(lia)) as H0. rewrite Z.add_0_r, drop_0 in H0.
  by rewrite H0.
Qed.

(** The value pointer of a field that [first_field] found. *)
Lemma reader_value r b f rem :
  reader_ok r → r_buffer r = Some b → unread r = tlv_bytes f ++ rem →
  ∃ tail, buf_at b (r_offset r + 8) = Some (f_value f ++ tail) ∧ bytes_ok tail.
Proof.
  intros Hr Hb Hu. pose proof (unread_zlen r Hr) as Hz.
  pose proof (unread_bytes_ok r Hr) as Huok.
  destruct (unread_prefix r b Hr Hb) as (tail & Hd & Htail).
  destruct Hr as (b' & Hb' & Hok & Ho & Hl). rewrite Hb in Hb'. injection Hb' as <-.
  rewrite Hu in Hz, Huok, Hd. rewrite zlen_app, tlv_bytes_zlen in Hz.
  apply bytes_ok_app in Huok as [_ Hrem].
  pose proof (zlen_nonneg (f_value f)). pose proof (zlen_nonneg rem).
  exists (rem ++ tail). split; [|by apply bytes_ok_app].
  rewrite buf_at_in by lia. f_equal.
  replace (Z.to_nat (r_offset r + 8)) with (Z.to_nat (r_offset r) + 8)%nat by lia.
  rewrite <- drop_drop, Hd. unfold tlv_bytes. rewrite <- !app_assoc.
  by rewrite !drop_app_ge, !be_bytes_length by (rewrite !be_bytes_length; lia).
Qed.

Lemma reader_next_spec r old :
  reader_ok r →
  ∃ s r' t, ftap_tlv_reader_next (Some r) (Some old) = Some (s, Some r', Some t) ∧
            next_outcome r old s r' t.
Proof.
  intros Hr. pose proof (unread_zlen r Hr) as Hz.
  pose proof Hr as (b & Hb & Hok & Ho & Hl). pose proof (reader_words r b Hr Hb) as Hw.
  unfold ftap_tlv_reader_next. destruct (Z.eqb_spec (r_offset r) (r_length r)) as [He|He].
  { eexists _, _, _. split; [reflexivity|]. constructor.
    destruct (unread r); [done|]. rewrite zlen_cons in Hz. pose proof (zlen_nonneg l). lia. }
  rewrite (proj2 (Z.ltb_ge _ _)) by lia.
  assert (unread r ≠ []) as Hne by (intros Hn; rewrite Hn in Hz; change (zlen []) with 0 in Hz; lia).
  pose proof (first_field_sound (unread r)) as Hsound.
  pose proof (next_error r old) as Herr. unfold first_field, FTAP_TLV_HEADER_SIZE in *.
  rewrite <- Hz. destruct (Z.ltb_spec (zlen (unread r)) 8) as [Hs|Hs].
  { eexists _, _, _. split; [reflexivity|]. apply Herr; [done|done|by left|done]. }
  destruct (Hw Hs) as (H0 & H2 & H4). rewrite Hb. unfold deref. run_simpl.
  rewrite H0, H2, H4. run_simpl.
  destruct (be_val (take 2 (unread r)) =? 0).
  { eexists _, _, _. split; [reflexivity|]. apply Herr; [done|done|by right; left|done]. }
  destruct (flags_unknown _ _).
  { eexists _, _, _. split; [reflexivity|]. apply Herr; [done|done|by right; right|done]. }
  destruct (Z.ltb_spec (zlen (unread r) - 8) (be_val (take 4 (drop 4 (unread r))))) as [|Hn].
  { eexists _, _, _. split; [reflexivity|]. apply Herr; [done|done|by left|done]. }
  destruct (Hsound _ _ (unread_bytes_ok r Hr) eq_refl) as [Hu Hwire]. clear Hsound Herr.
  assert (0 <= be_val (take 4 (drop 4 (unread r)))) as Hpos
    by (apply be_val_bound; auto using unread_bytes_ok with cmodel).
  set (f := Field _ _ _) in *.
  assert (zlen (f_value f) = be_val (take 4 (drop 4 (unread r)))) as Hlen.
  { unfold f, zlen in *. cbn [f_value]. rewrite length_take, length_drop. lia. }
  destruct (reader_value r b f _ Hr Hb Hu) as (tail & -> & Htail). run_simpl.
  rewrite <- Hlen, <- tlv_bytes_zlen.
  destruct (advance_ok r _ _ Hr Hu) as [Hr' Hrem].
  eexists _, _, _. split; [by rewrite <- Hb|].
  eapply (next_field r old f); [exact Hu | exact Hwire | | exact Hr' | exact Hrem].
  do 3 (split; [done|]). split; [apply Hwire | by exists tail].
Qed.

(** ** The fields of a payload *)

Lemma tlv_bytes_length f : (8 <= length (tlv_bytes f))%nat.
Proof. unfold tlv_bytes. rewrite !length_app, !be_bytes_length. lia. Qed.

(** From here on only its length and [first_field] matter. *)
#[global] Opaque tlv_bytes.

(** Visiting a list of fields. *)
Fixpoint fold_fields {S R} (h : field → S → ctl S R) (fs : list field) (s : S) : ctl S R :=
  match fs with
  | [] => Break s
  | f :: fs =>
      match h f s with
      | Continue s => fold_fields h fs s
      | Break s => Break s
      | Return r => Return r
      end
  end.

(** Visiting the fields of arbitrary bytes. *)
Definition error_type (u : list Z) : Z :=
  if zlen u <? FTAP_TLV_HEADER_SIZE then 0 else be_val (take 2 u).

Fixpoint walk {S R} (h : field → S → ctl S R) (err : ftap_status → Z → R)
    (fuel : nat) (u : list Z) (s : S) : ctl S R :=
  match u, fuel with
  | [], _ | _, O => Break s
  | _, Datatypes.S fuel =>
      match first_field u with
      | inl status => Return (err status (error_type u))
      | inr (f, rem) =>
          match h f s with
          | Continue s => walk h err fuel rem s
          | Break s => Break s
          | Return r => Return r
          end
      end
  end.

Section field_loop.
Context {S R : Type} (h : field → S → ctl S R) (err : ftap_status → Z → R).
Context (on_error : ftap_status → ftap_tlv → R) (body : ftap_tlv → S → run (ctl S R)).
Context (Inv : S → Prop).
Context (Hbody : ∀ t f s, Inv s → tlv_is t f → wire_ok f → body t s = Some (h f s)).
Context (Hinv : ∀ f s s', Inv s → wire_ok f → h f s = Continue s' → Inv s').
Context (Herr : ∀ st t, on_error st t = err st (tlv_type t)).

Lemma each_field_loop fuel n r s :
  Inv s → reader_ok r → (length (unread r) < fuel)%nat → (length (unread r) <= n)%nat →
  ∃ r', loop fuel (each_field on_error body) (r, s) =
    Some match walk h err n (unread r) s with
         | Continue s => Continue (r', s)
         | Break s => Break (r', s)
         | Return x => Return x
         end.
Proof.
  revert n r s. induction fuel as [|fuel IH]; intros n r s Hs Hr Hfuel Hn; [lia|].
  cbn [loop]. unfold each_field at 1.
  destruct (reader_next_spec r zero_tlv Hr) as (st & r' & t & -> & Hout). unfold deref. run_simpl.
  destruct Hout as [Hu|f rem t Hu Hw Ht Hr' Hrem|st t Hne Hf Hst Hty].
  - exists r. rewrite Hu. by destruct n.
  - pose proof (tlv_bytes_length f).
    assert (length (unread r) = length (tlv_bytes f) + length rem)%nat as Hlen
      by by rewrite Hu, length_app.
    rewrite (Hbody t f s Hs Ht Hw). run_simpl.
    assert (walk h err n (unread r) s = match h f s with
       | Continue s => walk h err (n - 1) rem s | Break s => Break s | Return x => Return x end) as ->.
    { destruct n as [|n]; [lia|]. cbn [walk]. rewrite Hu, first_field_complete by done.
      destruct (tlv_bytes f) eqn:E; [cbn in *; lia|]. cbn [app Nat.sub]. by rewrite Nat.sub_0_r. }
    destruct (h f s) as [s'|s'|x] eqn:Eh; run_simpl; [|by eexists..].
    rewrite <- Hrem. apply IH; [by eapply Hinv|done|rewrite Hrem; lia..].
  - exists r. destruct (unread r) as [|b u] eqn:Eu; [done|].
    destruct n as [|n]; [cbn in Hn; lia|]. cbn [walk]. rewrite Hf.
    assert (on_error st t = err st (error_type (b :: u))) as <- by (rewrite Herr; by rewrite Hty).
    by destruct Hst as [->|[->| ->]].
Qed.

(** The loop of the code visits the fields of the unread bytes in order; it is
    never stuck. *)
Lemma field_loop_spec r s :
  Inv s → reader_ok r → r_offset r = 0 →
  field_loop on_error body r s = Some (walk h err (length (unread r)) (unread r) s).
Proof.
  intros Hs Hr H0. unfold field_loop. pose proof (unread_zlen r Hr) as Hz. rewrite H0 in Hz.
  destruct (each_field_loop (Datatypes.S (Z.to_nat (r_length r))) (length (unread r)) r s)
    as [r' ->]; [done|done|unfold zlen in Hz; lia|done|].
  run_simpl. by destruct (walk _ _ _ _ _).
Qed.

Lemma walk_payload n fs s :
  Forall wire_ok fs → (length (payload_of fs) <= n)%nat →
  walk h err n (payload_of fs) s = fold_fields h fs s.
Proof.
  intros Hfs. revert n s. induction Hfs as [|f fs Hf Hfs IH]; intros n s; [by destruct n|].
  change (payload_of (f :: fs)) with (tlv_bytes f ++ payload_of fs).
  rewrite length_app. pose proof (tlv_bytes_length f). intros Hn.
  destruct n as [|n]; [lia|]. cbn [walk fold_fields]. rewrite first_field_complete by done.
  destruct (tlv_bytes f) eqn:E; [cbn in *; lia|]. cbn [app].
  destruct (h f s); [|done..]. apply IH. cbn in *. lia.
Qed.

(** The fields that any bytes begin with, and what is left when no further
    field can be read. *)
Lemma bytes_split n u :
  bytes_ok u → (length u <= n)%nat →
  ∃ fs rem, u = payload_of fs ++ rem ∧ Forall wire_ok fs ∧
    (rem = [] ∨ rem ≠ [] ∧ ∃ st, first_field rem = inl st).
Proof.
  revert u. induction n as [|n IH]; intros u Hok Hn.
  { exists [], u. destruct u; [|cbn in Hn; lia]. split; [done|split; [done|by left]]. }
  destruct (decide (u = [])) as [->|Hu]; [exists [], []; split; [done|split; [done|by left]]|].
  destruct (first_field u) as [st|[f rem]] eqn:Hf.
  { exists [], u. split; [done|]. split; [done|]. right. eauto. }
  destruct (first_field_sound u f rem Hok Hf) as [-> Hw].
  apply bytes_ok_app in Hok as [_ Hrem]. rewrite length_app in Hn.
  pose proof (tlv_bytes_length f).
  destruct (IH rem Hrem ltac:(lia)) as (fs & rem' & -> & Hfs & Hend).
  exists (f :: fs), rem'. split; [by rewrite app_assoc|]. split; [by constructor|done].
Qed.

(** Visiting bytes that are not a payload. *)
Lemma walk_error n fs rem st s :
  Forall wire_ok fs → rem ≠ [] → first_field rem = inl st →
  (length (payload_of fs ++ rem) <= n)%nat →
  (∀ f s s', h f s ≠ Break s') →
  walk h err n (payload_of fs ++ rem) s =
    match fold_fields h fs s with
    | Return x => Return x
    | Break _ | Continue _ => Return (err st (error_type rem))
    end.
Proof.
  intros Hfs Hne Hrem Hn Hnb. revert n s Hn.
  induction Hfs as [|f fs Hf Hfs IH]; intros n s Hn.
  - change (payload_of [] ++ rem) with rem in *.
    destruct rem as [|b rem]; [done|]. destruct n as [|n]; [cbn in Hn; lia|].
    cbn [walk fold_fields]. by rewrite Hrem.
  - change (payload_of (f :: fs)) with (tlv_bytes f ++ payload_of fs) in *.
    pose proof (tlv_bytes_length f). rewrite <- app_assoc, length_app in Hn.
    rewrite <- app_assoc.
    destruct n as [|n]; [lia|]. cbn [walk fold_fields]. rewrite first_field_complete by done.
    destruct (tlv_bytes f) eqn:E; [cbn in *; lia|]. cbn [app].
    destruct (h f s) eqn:Eh; [|by destruct (Hnb _ _ _ Eh)|done]. apply IH. lia.
Qed.

End field_loop.

(** A payload determines its fields. *)
Lemma payload_of_inj fs gs :
  Forall wire_ok fs → Forall wire_ok gs → payload_of fs = payload_of gs → fs = gs.
Proof.
  intros Hfs. revert gs. induction Hfs as [|f fs Hf Hfs IH]; intros gs Hgs Heq.
  - destruct Hgs as [|g gs]; [done|]. cbn in Heq. pose proof (tlv_bytes_length g).
    destruct (tlv_bytes g); [cbn in *; lia|done].
  - destruct Hgs as [|g gs Hg Hgs].
    + cbn in Heq. pose proof (tlv_bytes_length f). destruct (tlv_bytes f); [cbn in *; lia|done].
    + change (tlv_bytes f ++ payload_of fs = tlv_bytes g ++ payload_of gs) in Heq.
      apply (f_equal first_field) in Heq.
      rewrite !first_field_complete in Heq by done. injection Heq as -> Heq.
      f_equal. by apply IH.
Qed.

(** A reader over a whole payload. *)
Lemma reader_init_ok b length :
  bytes_ok b → 0 <= length <= FTAP_MAX_PAYLOAD_SIZE → length <= zlen b →
  ftap_tlv_reader_init (Some (TlvReader None 0 0)) (Some b) length =
    (FTAP_STATUS_OK, Some (TlvReader (Some b) length 0)) ∧
  reader_ok (TlvReader (Some b) length 0) ∧
  unread (TlvReader (Some b) length 0) = take (Z.to_nat length) b.
Proof.
  intros Hok [H0 Hmax] Hl. unfold ftap_tlv_reader_init. cbn [is_null orb andb].
  rewrite (proj2 (Z.ltb_ge _ _)) by done. split; [done|]. split.
  - exists b. cbn. split; [done|]. split; [done|]. lia.
  - unfold unread, rest. cbn [r_buffer r_length r_offset]. by rewrite Z.sub_0_r.
Qed.

(** ** Properties of headers *)

Lemma validate_encoding h :
  validate_header_common (Some h) true = FTAP_STATUS_OK →
  validate_header_common (Some h) false = FTAP_STATUS_OK ∧
  hdr_major h = FTAP_VERSION_MAJOR ∧ hdr_minor h = FTAP_VERSION_MINOR.
Proof.
  unfold validate_header_common. cbn [andb].
  repeat case_if; intros; try done; bools; done.
Qed.

Lemma validate_decoding h :
  validate_header_common (Some h) false = FTAP_STATUS_OK →
  hdr_major h = FTAP_VERSION_MAJOR → hdr_minor h = FTAP_VERSION_MINOR →
  validate_header_common (Some h) true = FTAP_STATUS_OK.
Proof.
  unfold validate_header_common. cbn [andb]. intros H -> ->.
  rewrite !Z.eqb_refl. cbn [negb orb].
  repeat case_if; done.
Qed.

(** A header that [ftap_frame_header_encode] accepts is written to the first
    24 bytes of the output and nowhere else, and [ftap_frame_header_decode]
    reads the same header back from the result, whatever follows it. *)
Theorem header_roundtrip h old out :
  header_ok h → bytes_ok out → FTAP_FRAME_HEADER_SIZE <= zlen out →
  validate_header_common (Some h) true = FTAP_STATUS_OK →
  ∃ out', ftap_frame_header_encode (Some out) (Some h) = Some (FTAP_STATUS_OK, Some out') ∧
    zlen out' = zlen out ∧ drop 24 out' = drop 24 out ∧
    ftap_frame_header_decode (Some out') (zlen out') (Some old) =
      Some (FTAP_STATUS_OK, Some h).
Proof.
  unfold FTAP_FRAME_HEADER_SIZE. intros Hh Hout Hlen Hok.
  destruct (validate_encoding h Hok) as (Hdec & Hmaj & Hmin).
  exists (header_bytes h ++ drop 24 out).
  assert (zlen (header_bytes h ++ drop 24 out) = zlen out) as Hz.
  { rewrite zlen_app, zlen_drop. unfold zlen at 1. rewrite header_bytes_length. lia. }
  split; [by apply header_encode_spec|]. split; [done|].
  split; [apply drop_app_length'; by rewrite header_bytes_length|].
  rewrite header_decode_spec by
    (try apply bytes_ok_app; try split; auto using header_bytes_ok with cmodel; lia).
  unfold decode_answer, FTAP_FRAME_HEADER_SIZE. rewrite (proj2 (Z.ltb_ge _ _)) by lia.
  rewrite bool_decide_true by done. rewrite header_of_bytes_encoded by done.
  cbn [fst snd]. unfold decode_status. rewrite Hdec. change (status_ok _) with true.
  by rewrite Hmaj, Hmin.
Qed.

Lemma header_roundtrip_witness :
  let h := FrameHeader 1 3 FTAP_MSG_HELLO 0 42 (2 ^ 40 + 7) in
  header_ok h ∧ validate_header_common (Some h) true = FTAP_STATUS_OK ∧
  ∃ out', ftap_frame_header_encode (Some (replicate 30 9)) (Some h)
      = Some (FTAP_STATUS_OK, Some out') ∧
    zlen out' = 30 ∧ drop 24 out' = replicate 6 9 ∧
    ftap_frame_header_decode (Some out') (zlen out') (Some h) = Some (FTAP_STATUS_OK, Some h).
Proof.
  intros h.
  assert (header_ok h) as Hh by (split; vm_compute; split; congruence).
  split; [done|]. split; [reflexivity|].
  apply (header_roundtrip h h (replicate 30 9)); [done| |done|reflexivity].
  vm_compute. repeat constructor; discriminate.
Defined.

(** The header encoding is canonical: if [ftap_frame_header_decode] accepts
    a frame of the current minor version, encoding the decoded header gives the
    first 24 bytes of that frame. *)
Theorem header_canonical input input_length old h out :
  bytes_ok input → input_length <= zlen input → FTAP_FRAME_HEADER_SIZE <= zlen out →
  ftap_frame_header_decode (Some input) input_length (Some old) =
    Some (FTAP_STATUS_OK, Some h) →
  hdr_minor h = FTAP_VERSION_MINOR →
  ftap_frame_header_encode (Some out) (Some h) =
    Some (FTAP_STATUS_OK, Some (take 24 input ++ drop 24 out)).
Proof.
  intros Hok Hil Hout. rewrite header_decode_spec by done. unfold decode_answer.
  destruct (Z.ltb_spec input_length FTAP_FRAME_HEADER_SIZE); [done|].
  destruct (bool_decide _) eqn:Hmagic; [|done]. bools. cbn [fst snd].
  intros [= Hst <-] Hmin. revert Hst. unfold decode_status.
  destruct (status_ok _) eqn:Hv; cbn [negb]; [|intros Hst; rewrite Hst in Hv; done].
  destruct (Z.eqb_spec (hdr_major (header_of_bytes input)) FTAP_VERSION_MAJOR) as [Hmaj|];
    [|done]. intros _.
  apply status_ok_spec in Hv.
  rewrite header_encode_spec by (done || by apply validate_decoding).
  rewrite header_bytes_decoded by (done || lia). done.
Qed.

Lemma header_canonical_witness :
  let input := header_bytes (FrameHeader 1 3 FTAP_MSG_HELLO 0 42 7) ++ [1; 2; 3] in
  let old := FrameHeader 0 0 0 0 0 0 in
  ftap_frame_header_encode (Some (replicate 24 0)) (Some (FrameHeader 1 3 FTAP_MSG_HELLO 0 42 7))
  = Some (FTAP_STATUS_OK, Some (take 24 input ++ [])).
Proof.
  apply (header_canonical (header_bytes (FrameHeader 1 3 FTAP_MSG_HELLO 0 42 7) ++ [1; 2; 3])
    27 (FrameHeader 0 0 0 0 0 0) _ (replicate 24 0));
    [vm_compute; repeat constructor; discriminate | vm_compute; discriminate
    | vm_compute; discriminate | vm_compute; reflexivity | reflexivity].
Defined.

(** ** Property of text validation *)

(** [ftap_utf8_text_is_valid] never reads outside the text and always
    answers; it accepts a text exactly when the text is the UTF-8 encoding (RFC
    3629, no surrogates, no overlong forms) of scalar values other than zero. *)
Theorem utf8_text_is_valid_correct text length :
  bytes_ok text → 0 <= length <= zlen text →
  ∃ valid, ftap_utf8_text_is_valid (Some text) length = Some valid ∧
           (valid = true ↔ utf8_text (take (Z.to_nat length) text)).
Proof.
  intros Hok Hlen. rewrite ftap_utf8_text_is_valid_spec by done. eexists. split; [done|].
  apply utf8_ok_text. auto with cmodel.
Qed.

Lemma utf8_text_is_valid_correct_witness :
  let euro := [0xe2; 0x82; 0xac] in
  (∃ valid, ftap_utf8_text_is_valid (Some euro) 3 = Some valid ∧
            (valid = true ↔ utf8_text (take 3 euro))) ∧
  ftap_utf8_text_is_valid (Some euro) 3 = Some true ∧
  ftap_utf8_text_is_valid (Some [0xed; 0xa0; 0x80]) 3 = Some false.
Proof.
  split; [|split; reflexivity].
  apply (utf8_text_is_valid_correct [0xe2; 0x82; 0xac] 3);
    [repeat constructor; vm_compute; discriminate | split; vm_compute; discriminate].
Defined.

(** ** Properties of fields *)

(** Writing a list of fields, stopping at the first error. *)
Fixpoint put_all (w : ftap_tlv_writer) (fs : list field) : run (ftap_status * ftap_tlv_writer) :=
  match fs with
  | [] => Some (FTAP_STATUS_OK, w)
  | f :: fs =>
      let! (status, w) :=
        ftap_tlv_writer_put (Some w) (f_type f) (f_flags f) (Some (f_value f))
          (zlen (f_value f)) in
      let! w := deref w in
      if status_ok status then put_all w fs else Some (status, w)
  end.

(** Collecting the fields of a payload. *)
Definition collect (r : ftap_tlv_reader) : run (ctl (list field) ftap_status) :=
  field_loop (λ status _, status)
    (λ t acc,
       let! value := deref (tlv_value t) in
       let! data := buf_read value 0 (tlv_length t) in
       Some (Continue (acc ++ [Field (tlv_type t) (tlv_flags t) data])))
    r [].

Lemma put_all_spec fs w :
  writer_ok w → Forall wire_ok fs →
  w_length w + zlen (payload_of fs) <= FTAP_MAX_PAYLOAD_SIZE →
  w_length w + zlen (payload_of fs) <= w_capacity w →
  ∃ w', put_all w fs = Some (FTAP_STATUS_OK, w') ∧ writer_ok w' ∧
    contents w' = contents w ++ payload_of fs ∧
    w_length w' = w_length w + zlen (payload_of fs).
Proof.
  intros Hw Hfs. revert w Hw. induction Hfs as [|f fs Hf Hfs IH]; intros w Hw Hmax Hcap.
  { exists w. rewrite app_nil_r. change (zlen (payload_of [])) with 0. split; [done|].
    split; [done|split; [done|lia]]. }
  change (payload_of (f :: fs)) with (tlv_bytes f ++ payload_of fs) in *.
  rewrite zlen_app in *. pose proof (zlen_nonneg (payload_of fs)).
  pose proof (writer_put_spec w f [] Hw Hf) as Hput. rewrite app_nil_r in Hput.
  cbn [put_all]. rewrite Hput. unfold deref. run_simpl.
  assert (put_status w f = FTAP_STATUS_OK) as Hst
    by (unfold put_status; rewrite !(proj2 (Z.ltb_ge _ _)) by lia; done).
  destruct (append_ok w f Hw Hst) as [Hw' Hc].
  unfold put_writer. rewrite Hst. change (status_ok _) with true. cbv iota.
  destruct (IH (append w f) Hw') as (w' & -> & Hok & Hc' & Hl'); [cbn; lia..|].
  exists w'. split; [done|]. split; [done|]. rewrite Hc', Hc, Hl', <- app_assoc. cbn. split; [done|lia].
Qed.

Lemma collect_fold fs acc :
  fold_fields (R := ftap_status) (λ f acc, Continue (acc ++ [f])) fs acc = Break (acc ++ fs).
Proof.
  revert acc. induction fs as [|f fs IH]; intros acc; cbn; [by rewrite app_nil_r|].
  by rewrite IH, <- app_assoc.
Qed.

Lemma collect_walk r :
  reader_ok r → r_offset r = 0 →
  collect r = Some (walk (λ f acc, Continue (acc ++ [f])) (λ st _, st)
                      (length (unread r)) (unread r) []).
Proof.
  intros Hr H0. unfold collect. apply (field_loop_spec _ _ _ _ (λ _, True)); [|done..].
  intros t f s _ (Ht & Hfl & Hlen & Hv & tail & Hp & _) _.
  rewrite Hp, Hlen. unfold deref. run_simpl. rewrite buf_read_prefix, Ht, Hfl. by destruct f.
Qed.

(** What follows a list of fields in a payload is the payload of the others. *)
Lemma payload_suffix fs gs rem :
  Forall wire_ok fs → Forall wire_ok gs → payload_of fs ++ rem = payload_of gs →
  ∃ gs', rem = payload_of gs' ∧ Forall wire_ok gs'.
Proof.
  intros Hfs. revert gs. induction Hfs as [|f fs Hf Hfs IH]; intros gs Hgs Heq; [by exists gs|].
  change (payload_of (f :: fs)) with (tlv_bytes f ++ payload_of fs) in Heq.
  rewrite <- app_assoc in Heq. apply (f_equal first_field) in Heq.
  rewrite first_field_complete in Heq by done.
  destruct Hgs as [|g gs Hg Hgs]; [done|].
  change (payload_of (g :: gs)) with (tlv_bytes g ++ payload_of gs) in Heq.
  rewrite first_field_complete in Heq by done. injection Heq as _ Heq. by apply (IH gs).
Qed.

Lemma no_payload fs gs rem st :
  Forall wire_ok fs → Forall wire_ok gs → rem ≠ [] → first_field rem = inl st →
  payload_of fs ++ rem ≠ payload_of gs.
Proof.
  intros Hfs Hgs Hne Hst Heq.
  destruct (payload_suffix fs gs rem Hfs Hgs Heq) as (gs' & -> & Hgs').
  destruct Hgs' as [|g gs' Hg]; [done|].
  change (payload_of (g :: gs')) with (tlv_bytes g ++ payload_of gs') in Hst.
  by rewrite first_field_complete in Hst.
Qed.

Lemma first_field_error u st : first_field u = inl st → is_error st.
Proof. unfold first_field, is_error. repeat case_if; intros; simplify_eq; auto. Qed.

(** A reader over the bytes of a payload, whatever follows them. *)
Lemma payload_reader payload tail :
  bytes_ok (payload ++ tail) → zlen payload <= FTAP_MAX_PAYLOAD_SIZE →
  ftap_tlv_reader_init (Some (TlvReader None 0 0)) (Some (payload ++ tail)) (zlen payload) =
    (FTAP_STATUS_OK, Some (TlvReader (Some (payload ++ tail)) (zlen payload) 0)) ∧
  reader_ok (TlvReader (Some (payload ++ tail)) (zlen payload) 0) ∧
  unread (TlvReader (Some (payload ++ tail)) (zlen payload) 0) = payload.
Proof.
  intros Hok Hmax. pose proof (zlen_nonneg payload). pose proof (zlen_nonneg tail).
  destruct (reader_init_ok (payload ++ tail) (zlen payload)) as (Hi & Hr & Hu);
    [done|lia|rewrite zlen_app; lia|].
  split; [done|]. split; [done|]. rewrite Hu. apply take_app_length'. unfold zlen. lia.
Qed.

(** C32: Reading a payload field by field is never stuck on any bytes. It succeeds
    with the fields [fs] exactly when the payload is the encoding of [fs] and each
    of them is well formed (nonzero type, known flags, 32-bit length); otherwise
    it ends with one of the three parse errors. *)
Theorem payload_parse_correct payload :
  bytes_ok payload → zlen payload <= FTAP_MAX_PAYLOAD_SIZE →
  (∃ fs, collect (TlvReader (Some payload) (zlen payload) 0) = Some (Break fs) ∧
         payload = payload_of fs ∧ Forall wire_ok fs) ∨
  (∃ s, collect (TlvReader (Some payload) (zlen payload) 0) = Some (Return s) ∧ is_error s ∧
        ∀ fs, Forall wire_ok fs → payload ≠ payload_of fs).
Proof.
  intros Hok Hmax. pose proof (zlen_nonneg payload).
  destruct (payload_reader payload []) as (_ & Hr & Hu); rewrite ?app_nil_r in *; [done..|].
  rewrite collect_walk, Hu by done.
  destruct (bytes_split (length payload) payload Hok ltac:(lia))
    as (fs & rem & Heq & Hfs & [->|[Hne [st Hst]]]).
  - left. exists fs. rewrite app_nil_r in Heq. split; [|done].
    rewrite Heq, walk_payload by (done || lia). by rewrite collect_fold.
  - right. exists st. split; [|split; [by eapply first_field_error|]].
    + rewrite Heq, (walk_error _ _ _ _ _ st) by (done || lia). by rewrite collect_fold.
    + intros gs Hgs. rewrite Heq. by eapply no_payload.
Qed.

Lemma payload_parse_correct_witness :
  let payload := [0; 13; 0; 0; 0; 0; 0; 2; 65; 66; 0; 3; 0; 1; 0; 0; 0; 0] in
  ((∃ fs, collect (TlvReader (Some payload) (zlen payload) 0) = Some (Break fs) ∧
          payload = payload_of fs ∧ Forall wire_ok fs) ∨
   (∃ s, collect (TlvReader (Some payload) (zlen payload) 0) = Some (Return s) ∧ is_error s ∧
         ∀ fs, Forall wire_ok fs → payload ≠ payload_of fs)) ∧
  collect (TlvReader (Some payload) (zlen payload) 0)
    = Some (Break [Field 13 0 [65; 66]; Field 3 1 []]).
Proof.
  split; [|vm_compute; reflexivity].
  apply (payload_parse_correct [0; 13; 0; 0; 0; 0; 0; 2; 65; 66; 0; 3; 0; 1; 0; 0; 0; 0]);
    [vm_compute; repeat constructor; discriminate | vm_compute; discriminate].
Defined.

(** Fields written one after the other into a buffer that has room for them
    are read back unchanged and in order. *)
Theorem tlv_roundtrip fs buffer :
  Forall wire_ok fs → bytes_ok buffer →
  zlen (payload_of fs) <= FTAP_MAX_PAYLOAD_SIZE → zlen (payload_of fs) <= zlen buffer →
  ∃ w b, put_all (TlvWriter (Some buffer) (zlen buffer) 0) fs = Some (FTAP_STATUS_OK, w) ∧
    w_buffer w = Some b ∧ w_length w = zlen (payload_of fs) ∧ w_length w <= zlen b ∧
    collect (TlvReader (Some (take (Z.to_nat (w_length w)) b)) (w_length w) 0)
      = Some (Break fs).
Proof.
  intros Hfs Hok Hmax Hroom. pose proof (zlen_nonneg buffer).
  destruct (put_all_spec fs (TlvWriter (Some buffer) (zlen buffer) 0))
    as (w & Hput & (b & Hb & Hcap & Hlen) & Hc & Hl); [|done|done|done|].
  { exists buffer. cbn [w_buffer w_capacity w_length]. split; [done|lia]. }
  change (w_length (TlvWriter _ _ 0)) with 0 in Hl. rewrite Z.add_0_l in Hl.
  exists w, b. split; [done|]. split; [done|]. split; [done|]. split; [lia|].
  unfold contents in Hc. rewrite Hb in Hc. change (take (Z.to_nat 0) buffer) with (@nil Z) in Hc.
  cbn [w_buffer w_length app] in Hc. change (take (Z.to_nat 0) buffer) with (@nil Z) in Hc.
  rewrite app_nil_l in Hc. rewrite Hc, Hl.
  destruct (payload_reader (payload_of fs) []) as (_ & Hr & Hu); rewrite ?app_nil_r in *; [|done|].
  { unfold payload_of. apply Forall_concat, Forall_fmap. eapply List.Forall_impl; [|exact Hfs].
    intros f Hf. apply tlv_bytes_ok, Hf. }
  rewrite collect_walk, Hu by done. rewrite walk_payload by (done || lia).
  by rewrite collect_fold.
Qed.

Lemma tlv_roundtrip_witness :
  let fs := [Field FTAP_FIELD_LOGIN_NAME 0 (lit "neo"); Field 999 1 []] in
  ∃ w b, put_all (TlvWriter (Some (replicate 40 7)) (zlen (replicate 40 7)) 0) fs
      = Some (FTAP_STATUS_OK, w) ∧
    w_buffer w = Some b ∧ w_length w = zlen (payload_of fs) ∧ w_length w <= zlen b ∧
    collect (TlvReader (Some (take (Z.to_nat (w_length w)) b)) (w_length w) 0)
      = Some (Break fs).
Proof.
  apply (tlv_roundtrip [Field FTAP_FIELD_LOGIN_NAME 0 (lit "neo"); Field 999 1 []]);
    [|vm_compute; repeat constructor; discriminate
     |vm_compute; discriminate|vm_compute; discriminate].
  repeat constructor; vm_compute; try discriminate; repeat constructor; discriminate.
Defined.

(** [ftap_tlv_writer_put] keeps the writer inside its buffer: it appends the
    whole field and reports success exactly when the field fits both the
    capacity and the 65536-byte payload limit, and otherwise changes nothing;
    in no case does a byte outside the appended window change. *)
Theorem writer_put_bounds w f b :
  writer_ok w → wire_ok f → w_buffer w = Some b →
  let n := zlen (tlv_bytes f) in
  ∃ s w' b', ftap_tlv_writer_put (Some w) (f_type f) (f_flags f) (Some (f_value f))
      (zlen (f_value f)) = Some (s, Some w') ∧
    writer_ok w' ∧ w_buffer w' = Some b' ∧ zlen b' = zlen b ∧
    (s = FTAP_STATUS_OK ↔
       w_length w + n <= FTAP_MAX_PAYLOAD_SIZE ∧ w_length w + n <= w_capacity w) ∧
    (s = FTAP_STATUS_OK → contents w' = contents w ++ tlv_bytes f ∧
       drop (Z.to_nat (w_length w + n)) b' = drop (Z.to_nat (w_length w + n)) b) ∧
    (s ≠ FTAP_STATUS_OK → w' = w).
Proof.
  intros Hw Hf Hb n. pose proof (writer_put_spec w f [] Hw Hf) as Hput.
  rewrite app_nil_r in Hput. pose proof (contents_zlen w Hw) as Hc.
  assert (put_status w f = FTAP_STATUS_OK ↔
     w_length w + n <= FTAP_MAX_PAYLOAD_SIZE ∧ w_length w + n <= w_capacity w) as Hst.
  { unfold put_status. fold n. repeat case_if; bools; split; try done; lia. }
  pose proof (zlen_nonneg (tlv_bytes f)). fold n in H.
  unfold put_writer in Hput. destruct (status_ok (put_status w f)) eqn:Hs.
  - apply status_ok_spec in Hs. rewrite Hs in *.
    destruct (append_ok w f Hw Hs) as [Hw' Hc'].
    assert (w_length w + n <= zlen b) as Hroom.
    { destruct Hw as (b0 & Hb0 & ? & ?). rewrite Hb in Hb0. injection Hb0 as <-.
      pose proof (proj1 Hst eq_refl). lia. }
    eexists _, _, _. split; [exact Hput|]. split; [done|]. unfold append at 1. rewrite Hb.
    split; [reflexivity|]. split.
    { rewrite !zlen_app, zlen_drop, Hc. unfold n, zlen in *. destruct Hw as (?&?&?&?). lia. }
    split; [done|]. split; [|done]. intros _. split; [done|].
    destruct Hw as (?&?&?&?). rewrite app_assoc, drop_app_ge.
    + rewrite length_app, drop_drop. f_equal. unfold n, zlen in *. lia.
    + rewrite length_app. unfold n, zlen in *. lia.
  - eexists _, w, b. split; [exact Hput|]. split; [done|]. split; [done|]. split; [done|].
    split; [done|]. split; [|done]. intros Hok. rewrite Hok in Hs. done.
Qed.

Lemma writer_put_bounds_witness :
  let w := TlvWriter (Some (replicate 20 0)) 20 5 in
  let f := Field FTAP_FIELD_LOGIN_NAME 0 (lit "trinity") in
  ∃ s w' b', ftap_tlv_writer_put (Some w) (f_type f) (f_flags f) (Some (f_value f))
      (zlen (f_value f)) = Some (s, Some w') ∧
    writer_ok w' ∧ w_buffer w' = Some b' ∧ zlen b' = zlen (replicate 20 0) ∧
    (s = FTAP_STATUS_OK ↔ 5 + zlen (tlv_bytes f) <= FTAP_MAX_PAYLOAD_SIZE ∧
       5 + zlen (tlv_bytes f) <= 20) ∧
    (s = FTAP_STATUS_OK → contents w' = contents w ++ tlv_bytes f ∧
       drop (Z.to_nat (5 + zlen (tlv_bytes f))) b'
       = drop (Z.to_nat (5 + zlen (tlv_bytes f))) (replicate 20 0)) ∧
    (s ≠ FTAP_STATUS_OK → w' = w).
Proof.
  apply (writer_put_bounds (TlvWriter (Some (replicate 20 0)) 20 5)
    (Field FTAP_FIELD_LOGIN_NAME 0 (lit "trinity")) (replicate 20 0)); [| |reflexivity].
  - exists (replicate 20 0). vm_compute. repeat split; discriminate.
  - repeat constructor; vm_compute; try discriminate; repeat constructor; discriminate.
Defined.
