(* ===== verification/Inet.v ===== *)
(** * Address conversion

    [inet_pton] and [inet_ntop] of the C library, which the schema, the
    throttle and the registration limiter call. They are not part of the
    repository: the interface is a class, the documented facts that the
    limiter relies on are the class [InetLaws], and [dotted_quad] is one
    concrete instance, with which the theorems are tried out. *)

From S2P Require Import Prelude.

(** The address families of the tested platform. *)
Definition AF_INET : Z := 2.
Definition AF_INET6 : Z := 10.

(** [sizeof(struct in_addr)], [sizeof(struct in6_addr)] and [INET6_ADDRSTRLEN]. *)
Definition IN_ADDR_SIZE : Z := 4.
Definition IN6_ADDR_SIZE : Z := 16.
Definition INET6_ADDRSTRLEN : Z := 46.

(** [inet_pton family text] is the address stored when the call returns 1, and
    [None] for any other return value; the argument is the text before the
    terminating zero. [inet_ntop family address size] is the text stored, or
    [None] for a null result. *)
Class Inet := {
  inet_pton : Z → list Z → option (list Z);
  inet_ntop : Z → list Z → Z → option (list Z);
}.

Class InetLaws `{Inet} : Prop := {
  inet_pton_in_addr s a : inet_pton AF_INET s = Some a → zlen a = IN_ADDR_SIZE;
  inet_pton_in6_addr s a : inet_pton AF_INET6 s = Some a → zlen a = IN6_ADDR_SIZE;
}.

(** ** Dotted quads *)

Definition decimal_digit (d : Z) : Z := chr "0" + d.

Definition decimal_octet (n : Z) : list Z :=
  if n <? 10 then [decimal_digit n]
  else if n <? 100 then [decimal_digit (n / 10); decimal_digit (n mod 10)]
  else [decimal_digit (n / 100); decimal_digit (n / 10 mod 10); decimal_digit (n mod 10)].

Fixpoint dotted (octets : list Z) : list Z :=
  match octets with
  | [] => []
  | [n] => decimal_octet n
  | n :: octets => decimal_octet n ++ chr "." :: dotted octets
  end.

(** Parse octets: [current] is the one being read, [None] before its first digit. *)
Fixpoint undotted (text : list Z) (current : option Z) : option (list Z) :=
  match text with
  | [] => match current with Some n => Some [n] | None => None end
  | c :: text =>
      if c =? chr "." then
        match current, undotted text None with
        | Some n, Some octets => Some (n :: octets)
        | _, _ => None
        end
      else if between (chr "0") (chr "9") c then
        let n := 10 * default 0 current + (c - chr "0") in
        if (255 <? n) || bool_decide (current = Some 0) then None else undotted text (Some n)
      else None
  end.

Definition dotted_quad : Inet := {|
  inet_pton family text :=
    if family =? AF_INET then
      match undotted text None with
      | Some octets => if zlen octets =? IN_ADDR_SIZE then Some octets else None
      | None => None
      end
    else None;
  inet_ntop family address size :=
    if family =? AF_INET then Some (dotted address) else None;
|}.

#[export] Instance dotted_quad_laws : @InetLaws dotted_quad.
Proof.
  split; cbn; intros s a; [|done]. destruct (undotted s None); [|done].
  case_if; [|done]. intros [= <-]. by bools.
Qed.

Example dotted_quad_parse :
  @inet_pton dotted_quad AF_INET (lit "192.0.2.10") = Some [192; 0; 2; 10].
Proof. reflexivity. Qed.

Example dotted_quad_print :
  @inet_ntop dotted_quad AF_INET [192; 0; 2; 10] INET6_ADDRSTRLEN = Some (lit "192.0.2.10").
Proof. reflexivity. Qed.
