(* ===== verification/Schema.v ===== *)
(** * Message validation

    [fortytwo-auth/src/ftap_schema.c]: which frames a peer may send in which
    connection state, and which fields with which values they carry.
    [inet_pton] and [inet_ntop] come in through the class [Inet]. *)

From S2P Require Import Prelude Protocol Words Utf8 Codec Inet.

(** ** Data *)

Record ftap_validation_error := ValidationError {
  ve_status : ftap_status;
  ve_message_type : Z;
  ve_field_type : Z;
}.

Definition FTAP_SCHEMA_MAX_RULES_PER_MESSAGE : Z := 16.

Record ftap_field_rule := FieldRule {
  rule_type : Z;
  rule_required : bool;
  rule_repeatable : bool;
}.

(** [rules == NULL] is [None]. *)
Record ftap_message_schema := MessageSchema {
  sch_rules : option (list ftap_field_rule);
  sch_rule_count : Z;
}.

Definition RULE_REQUIRED (field : Z) : ftap_field_rule := FieldRule field true false.
Definition RULE_OPTIONAL (field : Z) : ftap_field_rule := FieldRule field false false.
Definition RULE_REPEATABLE (field : Z) : ftap_field_rule := FieldRule field false true.

Definition hello_rules : list ftap_field_rule :=
  [RULE_REQUIRED FTAP_FIELD_CLIENT_NAME;
   RULE_REQUIRED FTAP_FIELD_CLIENT_VERSION;
   RULE_REQUIRED FTAP_FIELD_SUPPORTED_MAJOR;
   RULE_REQUIRED FTAP_FIELD_SUPPORTED_MINOR].

Definition error_rules : list ftap_field_rule :=
  [RULE_REQUIRED FTAP_FIELD_ERROR_CODE;
   RULE_OPTIONAL FTAP_FIELD_ERROR_TEXT;
   RULE_OPTIONAL FTAP_FIELD_RETRY_AFTER_MS].

Definition service_bind_request_rules : list ftap_field_rule :=
  [RULE_REQUIRED FTAP_FIELD_SERVICE_NAME].

Definition auth_password_request_rules : list ftap_field_rule :=
  [RULE_REQUIRED FTAP_FIELD_LOGIN_NAME;
   RULE_REQUIRED FTAP_FIELD_PASSWORD;
   RULE_REQUIRED FTAP_FIELD_PROTOCOL;
   RULE_OPTIONAL FTAP_FIELD_SOURCE_IP;
   RULE_OPTIONAL FTAP_FIELD_TTY_DEVICE;
   RULE_OPTIONAL FTAP_FIELD_NODE_ID;
   RULE_REQUIRED FTAP_FIELD_AUTH_METHOD].

Definition auth_password_result_rules : list ftap_field_rule :=
  [RULE_REQUIRED FTAP_FIELD_USER_ID;
   RULE_REQUIRED FTAP_FIELD_SESSION_ID;
   RULE_REQUIRED FTAP_FIELD_LOGIN_NAME;
   RULE_REQUIRED FTAP_FIELD_DISPLAY_NAME;
   RULE_REQUIRED FTAP_FIELD_LEGACY_NAME;
   RULE_REQUIRED FTAP_FIELD_AUTH_EPOCH;
   RULE_REQUIRED FTAP_FIELD_AUTHZ_REVISION;
   RULE_REPEATABLE FTAP_FIELD_CAPABILITY].

Definition registration_begin_request_rules : list ftap_field_rule :=
  [RULE_REQUIRED FTAP_FIELD_LOGIN_NAME;
   RULE_REQUIRED FTAP_FIELD_DISPLAY_NAME;
   RULE_REQUIRED FTAP_FIELD_PASSWORD;
   RULE_REQUIRED FTAP_FIELD_PROTOCOL;
   RULE_REQUIRED FTAP_FIELD_SOURCE_IP;
   RULE_OPTIONAL FTAP_FIELD_TTY_DEVICE;
   RULE_OPTIONAL FTAP_FIELD_NODE_ID;
   RULE_REQUIRED FTAP_FIELD_AUTH_METHOD].

Definition registration_begin_result_rules : list ftap_field_rule :=
  [RULE_REQUIRED FTAP_FIELD_REGISTRATION_ID;
   RULE_REQUIRED FTAP_FIELD_REGISTRATION_STATE;
   RULE_REQUIRED FTAP_FIELD_USER_ID;
   RULE_REQUIRED FTAP_FIELD_LOGIN_NAME;
   RULE_REQUIRED FTAP_FIELD_DISPLAY_NAME;
   RULE_REQUIRED FTAP_FIELD_LEGACY_NAME;
   RULE_REQUIRED FTAP_FIELD_ACCOUNT_STATE].

Definition registration_commit_request_rules : list ftap_field_rule :=
  [RULE_REQUIRED FTAP_FIELD_REGISTRATION_ID].

Definition registration_commit_result_rules : list ftap_field_rule :=
  [RULE_REQUIRED FTAP_FIELD_REGISTRATION_ID;
   RULE_REQUIRED FTAP_FIELD_REGISTRATION_STATE;
   RULE_REQUIRED FTAP_FIELD_USER_ID;
   RULE_REQUIRED FTAP_FIELD_SESSION_ID;
   RULE_REQUIRED FTAP_FIELD_LOGIN_NAME;
   RULE_REQUIRED FTAP_FIELD_DISPLAY_NAME;
   RULE_REQUIRED FTAP_FIELD_LEGACY_NAME;
   RULE_REQUIRED FTAP_FIELD_ACCOUNT_STATE;
   RULE_REQUIRED FTAP_FIELD_PROTOCOL;
   RULE_REQUIRED FTAP_FIELD_AUTH_METHOD;
   RULE_REQUIRED FTAP_FIELD_AUTH_EPOCH;
   RULE_REQUIRED FTAP_FIELD_AUTHZ_REVISION;
   RULE_REPEATABLE FTAP_FIELD_CAPABILITY].

Definition registration_abort_request_rules : list ftap_field_rule :=
  [RULE_REQUIRED FTAP_FIELD_REGISTRATION_ID;
   RULE_OPTIONAL FTAP_FIELD_REGISTRATION_REASON].

Definition registration_abort_result_rules : list ftap_field_rule :=
  [RULE_REQUIRED FTAP_FIELD_REGISTRATION_ID;
   RULE_REQUIRED FTAP_FIELD_REGISTRATION_STATE;
   RULE_REQUIRED FTAP_FIELD_USER_ID].

Definition session_context_result_rules : list ftap_field_rule :=
  [RULE_REQUIRED FTAP_FIELD_USER_ID;
   RULE_REQUIRED FTAP_FIELD_SESSION_ID;
   RULE_REQUIRED FTAP_FIELD_LOGIN_NAME;
   RULE_REQUIRED FTAP_FIELD_DISPLAY_NAME;
   RULE_REQUIRED FTAP_FIELD_LEGACY_NAME;
   RULE_REQUIRED FTAP_FIELD_PROTOCOL;
   RULE_REQUIRED FTAP_FIELD_AUTH_METHOD;
   RULE_REQUIRED FTAP_FIELD_AUTH_EPOCH;
   RULE_REQUIRED FTAP_FIELD_AUTHZ_REVISION;
   RULE_REPEATABLE FTAP_FIELD_CAPABILITY].

Definition session_authz_changed_rules : list ftap_field_rule :=
  [RULE_REQUIRED FTAP_FIELD_AUTHZ_REVISION].

Definition session_authz_check_request_rules : list ftap_field_rule :=
  [RULE_REQUIRED FTAP_FIELD_CAPABILITY;
   RULE_OPTIONAL FTAP_FIELD_RESOURCE_TYPE;
   RULE_OPTIONAL FTAP_FIELD_RESOURCE_ID].

Definition service_authz_check_request_rules : list ftap_field_rule :=
  [RULE_REQUIRED FTAP_FIELD_ACCESS_TOKEN;
   RULE_REQUIRED FTAP_FIELD_CAPABILITY;
   RULE_OPTIONAL FTAP_FIELD_RESOURCE_TYPE;
   RULE_OPTIONAL FTAP_FIELD_RESOURCE_ID].

Definition authz_check_result_rules : list ftap_field_rule :=
  [RULE_REQUIRED FTAP_FIELD_AUTHZ_ALLOWED;
   RULE_REQUIRED FTAP_FIELD_AUTHZ_REVISION].

Definition session_close_rules : list ftap_field_rule :=
  [RULE_OPTIONAL FTAP_FIELD_ENDED_REASON].

Definition session_revoked_rules : list ftap_field_rule :=
  [RULE_REQUIRED FTAP_FIELD_REVOKE_REASON].

Definition token_context_request_rules : list ftap_field_rule :=
  [RULE_REQUIRED FTAP_FIELD_ACCESS_TOKEN].

Definition token_context_result_rules : list ftap_field_rule :=
  [RULE_REQUIRED FTAP_FIELD_USER_ID;
   RULE_REQUIRED FTAP_FIELD_API_SESSION_ID;
   RULE_REQUIRED FTAP_FIELD_LOGIN_NAME;
   RULE_REQUIRED FTAP_FIELD_DISPLAY_NAME;
   RULE_REQUIRED FTAP_FIELD_AUTH_EPOCH;
   RULE_REQUIRED FTAP_FIELD_AUTHZ_REVISION;
   RULE_REPEATABLE FTAP_FIELD_CAPABILITY].

Definition set_error (error : option ftap_validation_error) (status : ftap_status)
    (message_type field_type : Z) : option ftap_validation_error :=
  match error with
  | Some _ => Some (ValidationError status message_type field_type)
  | None => None
  end.

(** ** Values of fields *)

(** [if (status != OK) return status;] *)
Definition on_ok (status : run ftap_status) (k : run ftap_status) : run ftap_status :=
  let! s := status in if status_ok s then k else Some s.

(** [condition ? OK : ERR_INVALID_VALUE] *)
Definition ok_if (condition : run bool) : run ftap_status :=
  let! b := condition in
  Some (if b then FTAP_STATUS_OK else FTAP_STATUS_ERR_INVALID_VALUE).

(** [field->value[i]] *)
Definition value_at (field : ftap_tlv) (i : Z) : run Z :=
  let! p := deref (tlv_value field) in buf_get p i.

Definition text_equals (field : ftap_tlv) (expected : list Z) : run bool :=
  let expected_length := zlen expected in
  if tlv_length field =? expected_length then
    let! p := deref (tlv_value field) in
    let! data := buf_read p 0 expected_length in
    Some (bool_decide (data = expected))
  else Some false.

Definition validate_text (field : ftap_tlv) (maximum : Z) (allow_empty : bool)
    : run ftap_status :=
  let! (status, _, length) := ftap_tlv_get_text (Some field) (Some None) (Some 0) maximum in
  if negb (status_ok status) then Some status
  else
    let! length := deref length in
    if negb allow_empty && (length =? 0) then Some FTAP_STATUS_ERR_INVALID_VALUE
    else Some FTAP_STATUS_OK.

Definition is_reason_first_character (character : Z) : bool :=
  between (chr "a") (chr "z") character.

Definition is_reason_character (character : Z) : bool :=
  is_reason_first_character character || between (chr "0") (chr "9") character
  || (character =? chr ".") || (character =? chr "-") || (character =? chr "_").

Definition is_legacy_name_first_character (character : Z) : bool :=
  between (chr "a") (chr "z") character || between (chr "0") (chr "9") character.

Definition is_legacy_name_character (character : Z) : bool :=
  is_legacy_name_first_character character
  || (character =? chr ".") || (character =? chr "_") || (character =? chr "-").

(** The tests on the characters that [validate_legacy_name] and
    [validate_reason] make once the text is known not to be empty. *)
Definition check_characters (first other : Z → bool) (field : ftap_tlv) : run ftap_status :=
  let! c := value_at field 0 in
  if negb (first c) then Some FTAP_STATUS_ERR_INVALID_VALUE
  else
    let! r := for_range (Z.to_nat (tlv_length field - 1)) 1
      (λ i s, let! c := value_at field i in
              Some (if negb (other c) then Return FTAP_STATUS_ERR_INVALID_VALUE
                    else Continue s)) tt in
    match r with
    | Return status => Some status
    | _ => Some FTAP_STATUS_OK
    end.

Definition validate_legacy_name (field : ftap_tlv) : run ftap_status :=
  on_ok (validate_text field FTAP_LEGACY_NAME_MAX false)
    (check_characters is_legacy_name_first_character is_legacy_name_character field).

(** The body of the loop over the bytes of a display name. *)
Definition display_character (field : ftap_tlv) (i : Z) (s : unit)
    : run (ctl unit ftap_status) :=
  let! character := value_at field i in
  if (character <=? 0x1f) || (character =? 0x7f)
  then Some (Return FTAP_STATUS_ERR_INVALID_VALUE)
  else
    let! c1 :=
      if (character =? 0xc2) && (i + 1 <? tlv_length field) then
        let! next := value_at field (i + 1) in Some (between 0x80 0x9f next)
      else Some false in
    Some (if (c1 : bool) then Return FTAP_STATUS_ERR_INVALID_VALUE else Continue s).

Definition validate_registration_display_name (field : ftap_tlv) : run ftap_status :=
  on_ok (validate_text field FTAP_DISPLAY_NAME_MAX false)
   (let! blank := (let! c := value_at field 0 in Some (c =? chr " "))
                  ||! (let! c := value_at field (tlv_length field - 1) in
                       Some (c =? chr " ")) in
    if blank then Some FTAP_STATUS_ERR_INVALID_VALUE
    else
      let! r := for_range (Z.to_nat (tlv_length field)) 0 (display_character field) tt in
      match r with
      | Return status => Some status
      | _ => Some FTAP_STATUS_OK
      end).

Definition validate_account_state (field : ftap_tlv) : run ftap_status :=
  on_ok (validate_text field FTAP_ACCOUNT_STATE_MAX false)
    (ok_if (text_equals field FTAP_ACCOUNT_STATE_PENDING
            ||! text_equals field FTAP_ACCOUNT_STATE_ACTIVE)).

Definition validate_registration_state (field : ftap_tlv) : run ftap_status :=
  on_ok (validate_text field FTAP_REGISTRATION_STATE_MAX false)
    (ok_if (text_equals field FTAP_REGISTRATION_STATE_PENDING_LEGACY
            ||! text_equals field FTAP_REGISTRATION_STATE_COMPLETED
            ||! text_equals field FTAP_REGISTRATION_STATE_ABORTED
            ||! text_equals field FTAP_REGISTRATION_STATE_FAILED)).

Definition validate_reason (field : ftap_tlv) (maximum : Z) : run ftap_status :=
  on_ok (validate_text field maximum false)
    (check_characters is_reason_first_character is_reason_character field).

Definition validate_registration_reason (field : ftap_tlv) : run ftap_status :=
  on_ok (validate_reason field FTAP_REGISTRATION_REASON_MAX)
    (ok_if (text_equals field FTAP_REGISTRATION_REASON_CLIENT_CANCELLED
            ||! text_equals field FTAP_REGISTRATION_REASON_CLIENT_DISCONNECTED
            ||! text_equals field FTAP_REGISTRATION_REASON_LEGACY_WRITE_FAILED
            ||! text_equals field FTAP_REGISTRATION_REASON_TIMEOUT
            ||! text_equals field FTAP_REGISTRATION_REASON_DAEMON_SHUTDOWN
            ||! text_equals field FTAP_REGISTRATION_REASON_DATABASE_FAILURE
            ||! text_equals field FTAP_REGISTRATION_REASON_INTERNAL_ERROR)).

Section inet.
Context `{Inet}.

(** The comparison that follows a successful [inet_pton]. *)
Definition compare_canonical (family : Z) (address input : list Z) : ftap_status :=
  match inet_ntop family address INET6_ADDRSTRLEN with
  | None => FTAP_STATUS_ERR_INVALID_VALUE
  | Some canonical =>
      if streq input canonical then FTAP_STATUS_OK else FTAP_STATUS_ERR_INVALID_VALUE
  end.

Definition validate_canonical_ip (field : ftap_tlv) : run ftap_status :=
  if (tlv_length field =? 0) || (FTAP_IP_ADDRESS_MAX <? tlv_length field)
  then Some FTAP_STATUS_ERR_LENGTH
  else
    let! valid := ftap_utf8_text_is_valid (tlv_value field) (tlv_length field) in
    if negb valid then Some FTAP_STATUS_ERR_ENCODING
    else
      let input := replicate (Z.to_nat (FTAP_IP_ADDRESS_MAX + 1)) 0 in
      let! p := deref (tlv_value field) in
      let! data := buf_read p 0 (tlv_length field) in
      let! input := buf_write input 0 data in
      let! input := buf_set input (tlv_length field) 0 in
      match inet_pton AF_INET (cstr input) with
      | Some address4 => Some (compare_canonical AF_INET address4 input)
      | None =>
          match inet_pton AF_INET6 (cstr input) with
          | Some address6 => Some (compare_canonical AF_INET6 address6 input)
          | None => Some FTAP_STATUS_ERR_INVALID_VALUE
          end
      end.

(** [ftap_tlv_get_*] into a local that is not read afterwards. *)
Definition status_of {A} (r : run (ftap_status * A)) : run ftap_status :=
  let! (status, _) := r in Some status.

Definition validate_field_value (field : ftap_tlv) : run ftap_status :=
  let case types := in_cases (tlv_type field) types in
  if case [FTAP_FIELD_CLIENT_NAME] then validate_text field FTAP_CLIENT_NAME_MAX false
  else if case [FTAP_FIELD_CLIENT_VERSION]
  then validate_text field FTAP_CLIENT_VERSION_MAX false
  else if case [FTAP_FIELD_SUPPORTED_MAJOR; FTAP_FIELD_SUPPORTED_MINOR]
  then status_of (ftap_tlv_get_u16 (Some field) (Some 0))
  else if case [FTAP_FIELD_SERVICE_NAME]
  then on_ok (validate_text field FTAP_SERVICE_NAME_MAX false)
         (ok_if (text_equals field FTAP_SERVICE_FORTYTWO_API))
  else if case [FTAP_FIELD_LOGIN_NAME] then validate_text field FTAP_LOGIN_NAME_MAX false
  else if case [FTAP_FIELD_PASSWORD] then validate_text field FTAP_PASSWORD_MAX false
  else if case [FTAP_FIELD_PROTOCOL]
  then on_ok (validate_text field FTAP_PROTOCOL_NAME_MAX false)
         (ok_if (text_equals field FTAP_PROTOCOL_TELNET
                 ||! text_equals field FTAP_PROTOCOL_SSH
                 ||! text_equals field FTAP_PROTOCOL_LOCAL))
  else if case [FTAP_FIELD_SOURCE_IP] then validate_canonical_ip field
  else if case [FTAP_FIELD_TTY_DEVICE] then validate_text field FTAP_TTY_DEVICE_MAX false
  else if case [FTAP_FIELD_NODE_ID] then validate_text field FTAP_NODE_ID_MAX false
  else if case [FTAP_FIELD_AUTH_METHOD]
  then on_ok (validate_text field FTAP_AUTH_METHOD_MAX false)
         (ok_if (text_equals field FTAP_AUTH_METHOD_PASSWORD))
  else if case [FTAP_FIELD_USER_ID; FTAP_FIELD_SESSION_ID; FTAP_FIELD_API_SESSION_ID;
                FTAP_FIELD_REGISTRATION_ID]
  then status_of (ftap_tlv_get_uuid (Some field) (Some (replicate 16 0)))
  else if case [FTAP_FIELD_DISPLAY_NAME] then validate_text field FTAP_DISPLAY_NAME_MAX false
  else if case [FTAP_FIELD_ACCOUNT_STATE] then validate_account_state field
  else if case [FTAP_FIELD_LEGACY_NAME] then validate_legacy_name field
  else if case [FTAP_FIELD_AUTH_EPOCH; FTAP_FIELD_AUTHZ_REVISION]
  then status_of (ftap_tlv_get_u64 (Some field) (Some 0))
  else if case [FTAP_FIELD_CAPABILITY] then validate_text field FTAP_CAPABILITY_NAME_MAX false
  else if case [FTAP_FIELD_RESOURCE_TYPE]
  then validate_text field FTAP_RESOURCE_TYPE_MAX false
  else if case [FTAP_FIELD_RESOURCE_ID] then validate_text field FTAP_RESOURCE_ID_MAX false
  else if case [FTAP_FIELD_AUTHZ_ALLOWED]
  then status_of (ftap_tlv_get_bool (Some field) (Some false))
  else if case [FTAP_FIELD_ENDED_REASON] then validate_reason field FTAP_ENDED_REASON_MAX
  else if case [FTAP_FIELD_REVOKE_REASON] then validate_reason field FTAP_REVOKE_REASON_MAX
  else if case [FTAP_FIELD_REGISTRATION_STATE] then validate_registration_state field
  else if case [FTAP_FIELD_REGISTRATION_REASON] then validate_registration_reason field
  else if case [FTAP_FIELD_ERROR_CODE]
  then
    let! (status, u32_value) := ftap_tlv_get_u32 (Some field) (Some 0) in
    if negb (status_ok status) then Some status
    else
      let! u32_value := deref u32_value in
      Some (if between FTAP_ERR_PROTOCOL FTAP_ERR_PASSWORD_POLICY u32_value
            then FTAP_STATUS_OK else FTAP_STATUS_ERR_INVALID_VALUE)
  else if case [FTAP_FIELD_ERROR_TEXT] then validate_text field FTAP_ERROR_TEXT_MAX false
  else if case [FTAP_FIELD_RETRY_AFTER_MS]
  then status_of (ftap_tlv_get_u32 (Some field) (Some 0))
  else if case [FTAP_FIELD_ACCESS_TOKEN]
  then Some (if (tlv_length field =? 0) || (FTAP_ACCESS_TOKEN_MAX <? tlv_length field)
             then FTAP_STATUS_ERR_LENGTH else FTAP_STATUS_OK)
  else Some FTAP_STATUS_ERR_UNSUPPORTED_FIELD.

(** [if (field->type == type && !text_equals(field, expected)) return ERR_INVALID_VALUE;] *)
Definition require_text (field : ftap_tlv) (type : Z) (expected : list Z)
    (k : run ftap_status) : run ftap_status :=
  let! bad :=
    if tlv_type field =? type
    then let! same := text_equals field expected in Some (negb same)
    else Some false in
  if (bad : bool) then Some FTAP_STATUS_ERR_INVALID_VALUE else k.

Definition validate_message_field_value (message_type : Z) (field : ftap_tlv)
    : run ftap_status :=
  on_ok (validate_field_value field)
   (if (message_type =? FTAP_MSG_REGISTRATION_BEGIN_REQUEST)
       && (tlv_type field =? FTAP_FIELD_DISPLAY_NAME)
    then validate_registration_display_name field
    else
      let k5 :=
        if message_type =? FTAP_MSG_REGISTRATION_ABORT_RESULT
        then require_text field FTAP_FIELD_REGISTRATION_STATE
               FTAP_REGISTRATION_STATE_ABORTED (Some FTAP_STATUS_OK)
        else Some FTAP_STATUS_OK in
      let k4 :=
        let! bad :=
          if (message_type =? FTAP_MSG_REGISTRATION_ABORT_REQUEST)
             && (tlv_type field =? FTAP_FIELD_REGISTRATION_REASON)
          then
            let! cancelled := text_equals field FTAP_REGISTRATION_REASON_CLIENT_CANCELLED in
            if (cancelled : bool) then Some false
            else
              let! failed := text_equals field FTAP_REGISTRATION_REASON_LEGACY_WRITE_FAILED in
              Some (negb failed)
          else Some false in
        if (bad : bool) then Some FTAP_STATUS_ERR_INVALID_VALUE else k5 in
      let k3 :=
        if message_type =? FTAP_MSG_REGISTRATION_COMMIT_RESULT
        then require_text field FTAP_FIELD_REGISTRATION_STATE FTAP_REGISTRATION_STATE_COMPLETED
              (require_text field FTAP_FIELD_ACCOUNT_STATE FTAP_ACCOUNT_STATE_ACTIVE
                (require_text field FTAP_FIELD_PROTOCOL FTAP_PROTOCOL_TELNET k4))
        else k4 in
      let k2 :=
        if message_type =? FTAP_MSG_REGISTRATION_BEGIN_RESULT
        then require_text field FTAP_FIELD_REGISTRATION_STATE
               FTAP_REGISTRATION_STATE_PENDING_LEGACY
              (require_text field FTAP_FIELD_ACCOUNT_STATE FTAP_ACCOUNT_STATE_PENDING k3)
        else k3 in
      if message_type =? FTAP_MSG_REGISTRATION_BEGIN_REQUEST
      then require_text field FTAP_FIELD_PROTOCOL FTAP_PROTOCOL_TELNET k2
      else k2).

(** ** Messages *)

Definition expected_flags (message_type : Z) (flags : option Z) : ftap_status * option Z :=
  if is_null flags then (FTAP_STATUS_ERR_ARGUMENT, flags)
  else if in_cases message_type
    [FTAP_MSG_HELLO; FTAP_MSG_SERVICE_BIND_REQUEST; FTAP_MSG_AUTH_PASSWORD_REQUEST;
     FTAP_MSG_SESSION_CONTEXT_REQUEST; FTAP_MSG_SESSION_HEARTBEAT;
     FTAP_MSG_AUTHZ_CHECK_REQUEST; FTAP_MSG_SESSION_CLOSE; FTAP_MSG_TOKEN_CONTEXT_REQUEST;
     FTAP_MSG_REGISTRATION_BEGIN_REQUEST; FTAP_MSG_REGISTRATION_COMMIT_REQUEST;
     FTAP_MSG_REGISTRATION_ABORT_REQUEST]
  then (FTAP_STATUS_OK, Some 0)
  else if in_cases message_type
    [FTAP_MSG_HELLO_OK; FTAP_MSG_SERVICE_BIND_RESULT; FTAP_MSG_AUTH_PASSWORD_RESULT;
     FTAP_MSG_SESSION_CONTEXT_RESULT; FTAP_MSG_AUTHZ_CHECK_RESULT;
     FTAP_MSG_TOKEN_CONTEXT_RESULT; FTAP_MSG_REGISTRATION_BEGIN_RESULT;
     FTAP_MSG_REGISTRATION_COMMIT_RESULT; FTAP_MSG_REGISTRATION_ABORT_RESULT]
  then (FTAP_STATUS_OK, Some FTAP_FRAME_FLAG_RESPONSE)
  else if message_type =? FTAP_MSG_ERROR
  then (FTAP_STATUS_OK, Some (u16 (Z.lor FTAP_FRAME_FLAG_RESPONSE FTAP_FRAME_FLAG_ERROR)))
  else if in_cases message_type [FTAP_MSG_SESSION_AUTHZ_CHANGED; FTAP_MSG_SESSION_REVOKED]
  then (FTAP_STATUS_OK, Some FTAP_FRAME_FLAG_SERVER_PUSH)
  else (FTAP_STATUS_ERR_INVALID_MESSAGE, flags).

Definition state_allows_message (state : ftap_connection_state) (message_type : Z) : bool :=
  let in_state s := bool_decide (state = s) in
  let case types := in_cases message_type types in
  if message_type =? FTAP_MSG_ERROR then negb (in_state FTAP_STATE_CLOSING)
  else if case [FTAP_MSG_HELLO; FTAP_MSG_HELLO_OK] then in_state FTAP_STATE_CONNECTED
  else if case [FTAP_MSG_SERVICE_BIND_REQUEST; FTAP_MSG_SERVICE_BIND_RESULT]
  then in_state FTAP_STATE_HELLO_COMPLETE
  else if case [FTAP_MSG_AUTH_PASSWORD_REQUEST; FTAP_MSG_AUTH_PASSWORD_RESULT]
  then in_state FTAP_STATE_HELLO_COMPLETE || in_state FTAP_STATE_AUTHENTICATING
  else if case [FTAP_MSG_REGISTRATION_BEGIN_REQUEST] then in_state FTAP_STATE_HELLO_COMPLETE
  else if case [FTAP_MSG_REGISTRATION_BEGIN_RESULT; FTAP_MSG_REGISTRATION_COMMIT_REQUEST;
                FTAP_MSG_REGISTRATION_COMMIT_RESULT; FTAP_MSG_REGISTRATION_ABORT_REQUEST;
                FTAP_MSG_REGISTRATION_ABORT_RESULT]
  then in_state FTAP_STATE_REGISTERING
  else if case [FTAP_MSG_SESSION_CONTEXT_REQUEST; FTAP_MSG_SESSION_CONTEXT_RESULT;
                FTAP_MSG_SESSION_HEARTBEAT; FTAP_MSG_SESSION_AUTHZ_CHANGED;
                FTAP_MSG_SESSION_CLOSE; FTAP_MSG_SESSION_REVOKED]
  then in_state FTAP_STATE_SESSION_BOUND
  else if case [FTAP_MSG_AUTHZ_CHECK_REQUEST; FTAP_MSG_AUTHZ_CHECK_RESULT]
  then in_state FTAP_STATE_SESSION_BOUND || in_state FTAP_STATE_SERVICE_BOUND
  else if case [FTAP_MSG_TOKEN_CONTEXT_REQUEST; FTAP_MSG_TOKEN_CONTEXT_RESULT]
  then in_state FTAP_STATE_SERVICE_BOUND
  else false.

Definition rules_schema (rules : list ftap_field_rule) : ftap_message_schema :=
  MessageSchema (Some rules) (zlen rules).

Definition message_schema (state : ftap_connection_state) (message_type : Z)
    (schema : option ftap_message_schema) : ftap_status * option ftap_message_schema :=
  let type_is t := message_type =? t in
  let use rules := (FTAP_STATUS_OK, Some (rules_schema rules)) in
  if is_null schema then (FTAP_STATUS_ERR_ARGUMENT, schema)
  else if type_is FTAP_MSG_HELLO then use hello_rules
  else if in_cases message_type
    [FTAP_MSG_HELLO_OK; FTAP_MSG_SERVICE_BIND_RESULT; FTAP_MSG_SESSION_CONTEXT_REQUEST;
     FTAP_MSG_SESSION_HEARTBEAT]
  then (FTAP_STATUS_OK, Some (MessageSchema None 0))
  else if type_is FTAP_MSG_ERROR then use error_rules
  else if type_is FTAP_MSG_SERVICE_BIND_REQUEST then use service_bind_request_rules
  else if type_is FTAP_MSG_AUTH_PASSWORD_REQUEST then use auth_password_request_rules
  else if type_is FTAP_MSG_AUTH_PASSWORD_RESULT then use auth_password_result_rules
  else if type_is FTAP_MSG_REGISTRATION_BEGIN_REQUEST then use registration_begin_request_rules
  else if type_is FTAP_MSG_REGISTRATION_BEGIN_RESULT then use registration_begin_result_rules
  else if type_is FTAP_MSG_REGISTRATION_COMMIT_REQUEST then use registration_commit_request_rules
  else if type_is FTAP_MSG_REGISTRATION_COMMIT_RESULT then use registration_commit_result_rules
  else if type_is FTAP_MSG_REGISTRATION_ABORT_REQUEST then use registration_abort_request_rules
  else if type_is FTAP_MSG_REGISTRATION_ABORT_RESULT then use registration_abort_result_rules
  else if type_is FTAP_MSG_SESSION_CONTEXT_RESULT then use session_context_result_rules
  else if type_is FTAP_MSG_SESSION_AUTHZ_CHANGED then use session_authz_changed_rules
  else if type_is FTAP_MSG_AUTHZ_CHECK_REQUEST then
    if bool_decide (state = FTAP_STATE_SERVICE_BOUND)
    then use service_authz_check_request_rules else use session_authz_check_request_rules
  else if type_is FTAP_MSG_AUTHZ_CHECK_RESULT then use authz_check_result_rules
  else if type_is FTAP_MSG_SESSION_CLOSE then use session_close_rules
  else if type_is FTAP_MSG_SESSION_REVOKED then use session_revoked_rules
  else if type_is FTAP_MSG_TOKEN_CONTEXT_REQUEST then use token_context_request_rules
  else if type_is FTAP_MSG_TOKEN_CONTEXT_RESULT then use token_context_result_rules
  else (FTAP_STATUS_ERR_INVALID_MESSAGE, Some (MessageSchema None 0)).

(** The rule found and the value stored through [rule_index]. *)
Definition find_rule (schema : ftap_message_schema) (field_type : Z)
    : run (option (ftap_field_rule * Z)) :=
  match sch_rules schema with
  | None => Some None
  | Some rules =>
      let! c := for_range (Z.to_nat (sch_rule_count schema)) 0
        (λ i s, let! rule := arr_get rules i in
                Some (if rule_type rule =? field_type then Return (rule, i) else Continue s))
        tt in
      match c with
      | Return found => Some (Some found)
      | _ => Some None
      end
  end.

(** The body of the field loop; the loop state is the array [seen]. *)
Definition check_field (message_type : Z) (schema : ftap_message_schema)
    (error : option ftap_validation_error) (field : ftap_tlv) (seen : list bool)
    : run (ctl (list bool) (ftap_status * option ftap_validation_error)) :=
  let fail status := Some (Return (status, set_error error status message_type (tlv_type field))) in
  let status := ftap_tlv_check_supported (Some field) in
  if negb (status_ok status) then fail status
  else if negb (ftap_field_type_is_known (tlv_type field)) then Some (Continue seen)
  else
    let! found := find_rule schema (tlv_type field) in
    match found with
    | None => fail FTAP_STATUS_ERR_FORBIDDEN_FIELD
    | Some (rule, rule_index) =>
        let! already := arr_get seen rule_index in
        if (already : bool) && negb (rule_repeatable rule)
        then fail FTAP_STATUS_ERR_DUPLICATE_FIELD
        else
          let! status := validate_message_field_value message_type field in
          if negb (status_ok status) then fail status
          else
            let! seen := arr_set seen rule_index true in
            Some (Continue seen)
    end.

(** The final loop over the rules. *)
Definition check_required (message_type : Z) (schema : ftap_message_schema)
    (error : option ftap_validation_error) (seen : list bool)
    : run (ftap_status * option ftap_validation_error) :=
  let! c := for_range (Z.to_nat (sch_rule_count schema)) 0
    (λ i s,
       let! rules := deref (sch_rules schema) in
       let! rule := arr_get rules i in
       if rule_required rule then
         let! present := arr_get seen i in
         Some (if negb present
               then Return (FTAP_STATUS_ERR_MISSING_FIELD,
                            set_error error FTAP_STATUS_ERR_MISSING_FIELD message_type
                              (rule_type rule))
               else Continue s)
       else Some (Continue s)) tt in
  match c with
  | Return r => Some r
  | _ => Some (FTAP_STATUS_OK, error)
  end.

Definition ftap_validate_message (state : ftap_connection_state)
    (header : option ftap_frame_header) (payload : ptr) (payload_length : Z)
    (error : option ftap_validation_error)
    : run (ftap_status * option ftap_validation_error) :=
  let error := set_error error FTAP_STATUS_OK 0 0 in
  match header with
  | None => Some (FTAP_STATUS_ERR_ARGUMENT, set_error error FTAP_STATUS_ERR_ARGUMENT 0 0)
  | Some h =>
      let message_type := hdr_message_type h in
      let fail status := Some (status, set_error error status message_type 0) in
      if is_null payload && negb (payload_length =? 0)
      then Some (FTAP_STATUS_ERR_ARGUMENT, set_error error FTAP_STATUS_ERR_ARGUMENT 0 0)
      else if negb (ftap_message_type_is_known message_type)
      then fail FTAP_STATUS_ERR_INVALID_MESSAGE
      else if negb (hdr_major h =? FTAP_VERSION_MAJOR) || (FTAP_VERSION_MINOR <? hdr_minor h)
      then fail FTAP_STATUS_ERR_VERSION
      else if negb (hdr_payload_length h =? payload_length)
              || (FTAP_MAX_PAYLOAD_SIZE <? payload_length)
      then fail FTAP_STATUS_ERR_LENGTH
      else if flags_unknown (hdr_flags h) FTAP_FRAME_FLAG_KNOWN_MASK
      then fail FTAP_STATUS_ERR_FLAGS
      else
        let (status, flags) := expected_flags message_type (Some 0) in
        let! flags := deref flags in
        if negb (status_ok status) || negb (hdr_flags h =? flags)
        then fail FTAP_STATUS_ERR_FLAGS
        else if (if negb (Z.land (hdr_flags h) FTAP_FRAME_FLAG_SERVER_PUSH =? 0)
                 then negb (hdr_request_id h =? FTAP_SERVER_PUSH_REQUEST_ID)
                 else hdr_request_id h <? FTAP_FIRST_CLIENT_REQUEST_ID)
        then fail FTAP_STATUS_ERR_REQUEST_ID
        else if negb (state_allows_message state message_type)
        then fail FTAP_STATUS_ERR_INVALID_STATE
        else
          let (status, schema) := message_schema state message_type
                                    (Some (MessageSchema None 0)) in
          let! schema := deref schema in
          if negb (status_ok status) then fail status
          else
            let (status, reader) :=
              ftap_tlv_reader_init (Some (TlvReader None 0 0)) payload payload_length in
            let! reader := deref reader in
            if negb (status_ok status) then fail status
            else
              let seen := replicate (Z.to_nat FTAP_SCHEMA_MAX_RULES_PER_MESSAGE) false in
              let! c := field_loop
                (λ status field,
                   (status, set_error error status message_type (tlv_type field)))
                (check_field message_type schema error) reader seen in
              match c with
              | Return r => Some r
              | Continue seen | Break seen => check_required message_type schema error seen
              end
  end.

End inet.

(** ** Specification of field values *)

(** The kinds of values that fields have. *)
Inductive kind :=
| KText (maximum : Z)
| KFixed (size : Z)
| KBool
| KEnum (maximum : Z) (names : list (list Z))
| KName (maximum : Z) (first other : Z → bool)
| KReasonEnum (maximum : Z) (names : list (list Z))
| KAddress
| KErrorCode
| KToken (maximum : Z).

Definition field_kind (type : Z) : option kind :=
  let case types := in_cases type types in
  if case [FTAP_FIELD_CLIENT_NAME] then Some (KText FTAP_CLIENT_NAME_MAX)
  else if case [FTAP_FIELD_CLIENT_VERSION] then Some (KText FTAP_CLIENT_VERSION_MAX)
  else if case [FTAP_FIELD_SUPPORTED_MAJOR; FTAP_FIELD_SUPPORTED_MINOR] then Some (KFixed 2)
  else if case [FTAP_FIELD_SERVICE_NAME]
  then Some (KEnum FTAP_SERVICE_NAME_MAX [FTAP_SERVICE_FORTYTWO_API])
  else if case [FTAP_FIELD_LOGIN_NAME] then Some (KText FTAP_LOGIN_NAME_MAX)
  else if case [FTAP_FIELD_PASSWORD] then Some (KText FTAP_PASSWORD_MAX)
  else if case [FTAP_FIELD_PROTOCOL]
  then Some (KEnum FTAP_PROTOCOL_NAME_MAX
               [FTAP_PROTOCOL_TELNET; FTAP_PROTOCOL_SSH; FTAP_PROTOCOL_LOCAL])
  else if case [FTAP_FIELD_SOURCE_IP] then Some KAddress
  else if case [FTAP_FIELD_TTY_DEVICE] then Some (KText FTAP_TTY_DEVICE_MAX)
  else if case [FTAP_FIELD_NODE_ID] then Some (KText FTAP_NODE_ID_MAX)
  else if case [FTAP_FIELD_AUTH_METHOD]
  then Some (KEnum FTAP_AUTH_METHOD_MAX [FTAP_AUTH_METHOD_PASSWORD])
  else if case [FTAP_FIELD_USER_ID; FTAP_FIELD_SESSION_ID; FTAP_FIELD_API_SESSION_ID;
                FTAP_FIELD_REGISTRATION_ID]
  then Some (KFixed FTAP_UUID_SIZE)
  else if case [FTAP_FIELD_DISPLAY_NAME] then Some (KText FTAP_DISPLAY_NAME_MAX)
  else if case [FTAP_FIELD_ACCOUNT_STATE]
  then Some (KEnum FTAP_ACCOUNT_STATE_MAX [FTAP_ACCOUNT_STATE_PENDING; FTAP_ACCOUNT_STATE_ACTIVE])
  else if case [FTAP_FIELD_LEGACY_NAME]
  then Some (KName FTAP_LEGACY_NAME_MAX is_legacy_name_first_character is_legacy_name_character)
  else if case [FTAP_FIELD_AUTH_EPOCH; FTAP_FIELD_AUTHZ_REVISION] then Some (KFixed 8)
  else if case [FTAP_FIELD_CAPABILITY] then Some (KText FTAP_CAPABILITY_NAME_MAX)
  else if case [FTAP_FIELD_RESOURCE_TYPE] then Some (KText FTAP_RESOURCE_TYPE_MAX)
  else if case [FTAP_FIELD_RESOURCE_ID] then Some (KText FTAP_RESOURCE_ID_MAX)
  else if case [FTAP_FIELD_AUTHZ_ALLOWED] then Some KBool
  else if case [FTAP_FIELD_ENDED_REASON]
  then Some (KName FTAP_ENDED_REASON_MAX is_reason_first_character is_reason_character)
  else if case [FTAP_FIELD_REVOKE_REASON]
  then Some (KName FTAP_REVOKE_REASON_MAX is_reason_first_character is_reason_character)
  else if case [FTAP_FIELD_REGISTRATION_STATE]
  then Some (KEnum FTAP_REGISTRATION_STATE_MAX
               [FTAP_REGISTRATION_STATE_PENDING_LEGACY; FTAP_REGISTRATION_STATE_COMPLETED;
                FTAP_REGISTRATION_STATE_ABORTED; FTAP_REGISTRATION_STATE_FAILED])
  else if case [FTAP_FIELD_REGISTRATION_REASON]
  then Some (KReasonEnum FTAP_REGISTRATION_REASON_MAX
               [FTAP_REGISTRATION_REASON_CLIENT_CANCELLED;
                FTAP_REGISTRATION_REASON_CLIENT_DISCONNECTED;
                FTAP_REGISTRATION_REASON_LEGACY_WRITE_FAILED;
                FTAP_REGISTRATION_REASON_TIMEOUT;
                FTAP_REGISTRATION_REASON_DAEMON_SHUTDOWN;
                FTAP_REGISTRATION_REASON_DATABASE_FAILURE;
                FTAP_REGISTRATION_REASON_INTERNAL_ERROR])
  else if case [FTAP_FIELD_ERROR_CODE] then Some KErrorCode
  else if case [FTAP_FIELD_ERROR_TEXT] then Some (KText FTAP_ERROR_TEXT_MAX)
  else if case [FTAP_FIELD_RETRY_AFTER_MS] then Some (KFixed 4)
  else if case [FTAP_FIELD_ACCESS_TOKEN] then Some (KToken FTAP_ACCESS_TOKEN_MAX)
  else None.

Definition ok_or_invalid (b : bool) : ftap_status :=
  if b then FTAP_STATUS_OK else FTAP_STATUS_ERR_INVALID_VALUE.

Definition and_then (s1 s2 : ftap_status) : ftap_status := if status_ok s1 then s2 else s1.

Definition text_status (maximum : Z) (v : list Z) : ftap_status :=
  if maximum <? zlen v then FTAP_STATUS_ERR_LENGTH
  else if negb (utf8_ok v) then FTAP_STATUS_ERR_ENCODING
  else if zlen v =? 0 then FTAP_STATUS_ERR_INVALID_VALUE
  else FTAP_STATUS_OK.

Definition one_of (names : list (list Z)) (v : list Z) : bool := bool_decide (v ∈ names).

Definition name_ok (first other : Z → bool) (v : list Z) : bool :=
  match v with
  | [] => false
  | c :: cs => first c && forallb other cs
  end.

(** The bytes that [validate_registration_display_name] admits. *)
Fixpoint printable (l : list Z) : bool :=
  match l with
  | [] => true
  | c :: l =>
      if (c <=? 0x1f) || (c =? 0x7f) then false
      else if match l with d :: _ => (c =? 0xc2) && between 0x80 0x9f d | [] => false end
      then false
      else printable l
  end.

Definition display_status (v : list Z) : ftap_status :=
  and_then (text_status FTAP_DISPLAY_NAME_MAX v)
    (ok_or_invalid (negb (bool_decide (v !! 0%nat = Some (chr " "))
                          || bool_decide (v !! (length v - 1)%nat = Some (chr " "))) && printable v)).

Section spec.
Context `{Inet}.

Definition address_status (v : list Z) : ftap_status :=
  if (zlen v =? 0) || (FTAP_IP_ADDRESS_MAX <? zlen v) then FTAP_STATUS_ERR_LENGTH
  else if negb (utf8_ok v) then FTAP_STATUS_ERR_ENCODING
  else
    match inet_pton AF_INET v with
    | Some a => compare_canonical AF_INET a v
    | None =>
        match inet_pton AF_INET6 v with
        | Some a => compare_canonical AF_INET6 a v
        | None => FTAP_STATUS_ERR_INVALID_VALUE
        end
    end.

Definition kind_status (k : kind) (v : list Z) : ftap_status :=
  match k with
  | KText maximum => text_status maximum v
  | KFixed size => if zlen v =? size then FTAP_STATUS_OK else FTAP_STATUS_ERR_LENGTH
  | KBool => ok_or_invalid (one_of [[0]; [1]] v)
  | KEnum maximum names => and_then (text_status maximum v) (ok_or_invalid (one_of names v))
  | KName maximum first other =>
      and_then (text_status maximum v) (ok_or_invalid (name_ok first other v))
  | KReasonEnum maximum names =>
      and_then
        (and_then (text_status maximum v)
           (ok_or_invalid (name_ok is_reason_first_character is_reason_character v)))
        (ok_or_invalid (one_of names v))
  | KAddress => address_status v
  | KErrorCode =>
      if zlen v =? 4
      then ok_or_invalid (between FTAP_ERR_PROTOCOL FTAP_ERR_PASSWORD_POLICY (be_val v))
      else FTAP_STATUS_ERR_LENGTH
  | KToken maximum =>
      if (zlen v =? 0) || (maximum <? zlen v) then FTAP_STATUS_ERR_LENGTH else FTAP_STATUS_OK
  end.

Definition value_status (f : field) : ftap_status :=
  match field_kind (f_type f) with
  | Some k => kind_status k (f_value f)
  | None => FTAP_STATUS_ERR_UNSUPPORTED_FIELD
  end.

(** The registration messages admit fewer values of some fields. *)
Definition restrictions : list (Z * Z * list (list Z)) :=
  [(FTAP_MSG_REGISTRATION_BEGIN_REQUEST, FTAP_FIELD_PROTOCOL, [FTAP_PROTOCOL_TELNET]);
   (FTAP_MSG_REGISTRATION_BEGIN_RESULT, FTAP_FIELD_REGISTRATION_STATE,
     [FTAP_REGISTRATION_STATE_PENDING_LEGACY]);
   (FTAP_MSG_REGISTRATION_BEGIN_RESULT, FTAP_FIELD_ACCOUNT_STATE, [FTAP_ACCOUNT_STATE_PENDING]);
   (FTAP_MSG_REGISTRATION_COMMIT_RESULT, FTAP_FIELD_REGISTRATION_STATE,
     [FTAP_REGISTRATION_STATE_COMPLETED]);
   (FTAP_MSG_REGISTRATION_COMMIT_RESULT, FTAP_FIELD_ACCOUNT_STATE, [FTAP_ACCOUNT_STATE_ACTIVE]);
   (FTAP_MSG_REGISTRATION_COMMIT_RESULT, FTAP_FIELD_PROTOCOL, [FTAP_PROTOCOL_TELNET]);
   (FTAP_MSG_REGISTRATION_ABORT_REQUEST, FTAP_FIELD_REGISTRATION_REASON,
     [FTAP_REGISTRATION_REASON_CLIENT_CANCELLED; FTAP_REGISTRATION_REASON_LEGACY_WRITE_FAILED]);
   (FTAP_MSG_REGISTRATION_ABORT_RESULT, FTAP_FIELD_REGISTRATION_STATE,
     [FTAP_REGISTRATION_STATE_ABORTED])].

Definition restricted (message_type : Z) (f : field) : bool :=
  forallb (λ '(m, t, names),
             negb (message_type =? m) || negb (f_type f =? t) || one_of names (f_value f))
    restrictions.

Definition message_value_status (message_type : Z) (f : field) : ftap_status :=
  and_then (value_status f)
    (if (message_type =? FTAP_MSG_REGISTRATION_BEGIN_REQUEST)
        && (f_type f =? FTAP_FIELD_DISPLAY_NAME)
     then display_status (f_value f)
     else ok_or_invalid (restricted message_type f)).

Create Rewrite HintDb field_value.

(** ** The validators compute the specified status *)

Section value.
Context (t : ftap_tlv) (f : field) (Ht : tlv_is t f).

Lemma tlv_length_value : tlv_length t = zlen (f_value f).
Proof. apply Ht. Qed.

Lemma tlv_type_value : tlv_type t = f_type f.
Proof. apply Ht. Qed.

Lemma value_at_spec (i : nat) b : f_value f !! i = Some b → value_at t (Z.of_nat i) = Some b.
Proof.
  intros Hb. destruct Ht as (_ & _ & _ & _ & tail & Hp & _). unfold value_at, deref.
  rewrite Hp. unfold buf_get. rewrite (proj2 (Z.leb_le _ _)) by lia. rewrite Nat2Z.id.
  by apply lookup_app_l_Some.
Qed.

Lemma text_equals_spec e : text_equals t e = Some (bool_decide (f_value f = e)).
Proof.
  destruct Ht as (_ & _ & Hl & _ & tail & Hp & _). unfold text_equals. rewrite Hl.
  case_if; bools.
  - rewrite Hp. unfold deref. run_simpl. rewrite <- E, buf_read_prefix. done.
  - rewrite bool_decide_eq_false_2; [done|]. intros He. by rewrite He in E.
Qed.

Lemma text_is_valid_spec :
  ftap_utf8_text_is_valid (tlv_value t) (tlv_length t) = Some (utf8_ok (f_value f)).
Proof.
  destruct Ht as (_ & _ & Hl & _ & tail & Hp & _). rewrite Hp, Hl.
  pose proof (zlen_nonneg (f_value f)). pose proof (zlen_nonneg tail).
  rewrite ftap_utf8_text_is_valid_spec by (rewrite zlen_app; lia).
  unfold zlen. by rewrite Nat2Z.id, take_app_length.
Qed.

Lemma validate_text_spec maximum :
  validate_text t maximum false = Some (text_status maximum (f_value f)).
Proof.
  unfold validate_text, ftap_tlv_get_text, text_status. rewrite tlv_length_value.
  case_if; [done|]. rewrite <- tlv_length_value, text_is_valid_spec. run_simpl.
  destruct (utf8_ok (f_value f)); [|done]. cbn. destruct (tlv_length t =? 0); reflexivity.
Qed.

Lemma on_ok_spec s1 s2 : on_ok (Some s1) (Some s2) = Some (and_then s1 s2).
Proof. unfold on_ok, and_then. run_simpl. by case_if. Qed.
Lemma ok_if_spec b : ok_if (Some b) = Some (ok_or_invalid b).
Proof. done. Qed.

Lemma text_status_nonempty maximum v :
  text_status maximum v = FTAP_STATUS_OK → v ≠ [] ∧ zlen v <= maximum ∧ utf8_ok v = true.
Proof.
  unfold text_status. repeat case_if; try done. bools. intros _.
  split; [by intros ->|done].
Qed.

Lemma check_characters_spec first other :
  f_value f ≠ [] →
  check_characters first other t = Some (ok_or_invalid (name_ok first other (f_value f))).
Proof.
  intros Hne. unfold check_characters. destruct (f_value f) as [|c cs] eqn:Hv; [done|].
  assert (value_at t 0 = Some c) as -> by (apply (value_at_spec 0); by rewrite Hv).
  run_simpl. cbn [name_ok].
  destruct (first c); [|done]. cbn [negb andb]. rewrite tlv_length_value, Hv, zlen_cons.
  replace (Z.to_nat (1 + zlen cs - 1)) with (length cs) by (unfold zlen; lia).
  rewrite (for_range_forallb other FTAP_STATUS_ERR_INVALID_VALUE).
  - run_simpl. by destruct (forallb other cs).
  - intros k x Hk. replace (1 + Z.of_nat k) with (Z.of_nat (Datatypes.S k)) by lia.
    rewrite (value_at_spec _ x) by (by rewrite Hv). run_simpl. by destruct (other x).
Qed.

Lemma on_text_ok maximum k s :
  (f_value f ≠ [] → k = Some s) →
  on_ok (validate_text t maximum false) k =
    Some (and_then (text_status maximum (f_value f)) s).
Proof.
  intros Hk. rewrite validate_text_spec. unfold on_ok, and_then. run_simpl.
  case_if; [|done]. apply status_ok_spec, text_status_nonempty in E as [Hne _]. by apply Hk.
Qed.

Lemma validate_name_spec maximum first other :
  on_ok (validate_text t maximum false) (check_characters first other t) =
    Some (kind_status (KName maximum first other) (f_value f)).
Proof. apply on_text_ok, check_characters_spec. Qed.

(** The test [text_equals(f, a) || text_equals(f, b) || ...]. *)
Lemma one_of_nil v : one_of [] v = false.
Proof. done. Qed.

Lemma one_of_cons n names v : one_of (n :: names) v = bool_decide (v = n) || one_of names v.
Proof.
  unfold one_of. rewrite <- bool_decide_or. apply bool_decide_ext. by rewrite elem_of_cons.
Qed.

Lemma run_or_spec a b : Some a ||! Some b = Some (a || b).
Proof. by destruct a. Qed.

Hint Rewrite text_equals_spec run_or_spec one_of_cons one_of_nil orb_false_r orb_assoc
  ok_if_spec validate_text_spec on_ok_spec : field_value.

Lemma printable_loop s i :
  (∀ k, (k < length s)%nat → value_at t (Z.of_nat (i + k)) = s !! k) →
  zlen (f_value f) = Z.of_nat (i + length s) →
  for_range (length s) (Z.of_nat i) (display_character t) tt
  = Some (if printable s then Break tt else Return FTAP_STATUS_ERR_INVALID_VALUE).
Proof.
  revert i. induction s as [|c s IH]; intros i Hat Hlen; [done|].
  cbn [for_range length printable]. unfold display_character at 1.
  pose proof (Hat 0%nat ltac:(cbn; lia)) as H0.
  rewrite Nat.add_0_r in H0. rewrite H0. cbn [lookup list_lookup]. run_simpl.
  destruct ((c <=? 31) || (c =? 127)); [done|]. rewrite tlv_length_value, Hlen.
  assert (for_range (length s) (Z.of_nat i + 1) (display_character t) tt =
    Some (if printable s then Break tt else Return FTAP_STATUS_ERR_INVALID_VALUE)) as IH'.
  { replace (Z.of_nat i + 1) with (Z.of_nat (Datatypes.S i)) by lia. apply IH.
    - intros k Hk. replace (Datatypes.S i + k)%nat with (i + Datatypes.S k)%nat by lia.
      by rewrite Hat by (cbn; lia).
    - rewrite Hlen. cbn [length]. lia. }
  destruct s as [|d s].
  - rewrite (proj2 (Z.ltb_ge _ _)), andb_false_r by (cbn; lia). run_simpl. exact IH'.
  - rewrite (proj2 (Z.ltb_lt _ _)) by (cbn [length]; lia). rewrite andb_true_r.
    destruct (c =? 194); cbn [andb]; [|run_simpl; exact IH'].
    pose proof (Hat 1%nat ltac:(cbn; lia)) as H1.
    replace (Z.of_nat i + 1) with (Z.of_nat (i + 1)) by lia. rewrite H1.
    cbn [lookup list_lookup]. run_simpl. destruct (between 128 159 d); [done|].
    replace (Z.of_nat (i + 1)) with (Z.of_nat i + 1) by lia. exact IH'.
Qed.

Lemma validate_display_spec :
  validate_registration_display_name t = Some (display_status (f_value f)).
Proof.
  unfold validate_registration_display_name, display_status. apply on_text_ok. intros Hne.
  destruct (f_value f !! 0%nat) as [c|] eqn:Hc; [|by destruct (f_value f)].
  destruct (lookup_lt_is_Some_2 (f_value f) (length (f_value f) - 1)) as [d Hd].
  { destruct (f_value f); [done|]. cbn. lia. }
  assert (value_at t 0 = Some c) as -> by (by apply (value_at_spec 0)). run_simpl. rewrite tlv_length_value.
  replace (zlen (f_value f) - 1) with (Z.of_nat (length (f_value f) - 1)).
  2:{ destruct (f_value f); [done|]. unfold zlen. cbn [length]. lia. }
  rewrite (value_at_spec _ d) by done. run_simpl. rewrite run_or_spec, Hd.
  replace (bool_decide (Some c = Some (chr " "))) with (c =? chr " ")
    by (apply eq_true_iff_eq; rewrite Z.eqb_eq, bool_decide_eq_true; split; [by intros ->|congruence]).
  replace (bool_decide (Some d = Some (chr " "))) with (d =? chr " ")
    by (apply eq_true_iff_eq; rewrite Z.eqb_eq, bool_decide_eq_true; split; [by intros ->|congruence]).
  run_simpl. destruct ((c =? chr " ") || (d =? chr " ")); [done|]. cbn [negb andb].
  replace (Z.to_nat (zlen (f_value f))) with (length (f_value f)) by (unfold zlen; lia).
  change 0 with (Z.of_nat 0). rewrite (printable_loop (f_value f) 0).
  - run_simpl. by destruct (printable (f_value f)).
  - intros k Hk. destruct (lookup_lt_is_Some_2 _ _ Hk) as [b Hb]. rewrite Hb.
    by apply value_at_spec.
  - done.
Qed.

Lemma validate_address_spec : validate_canonical_ip t = Some (address_status (f_value f)).
Proof.
  unfold validate_canonical_ip, address_status. rewrite text_is_valid_spec, tlv_length_value.
  case_if; [done|]. run_simpl. destruct (utf8_ok (f_value f)) eqn:Hu; [|done]. cbn [negb].
  bools. change FTAP_IP_ADDRESS_MAX with 45 in *.
  destruct Ht as (_ & _ & _ & _ & tail & Hp & _). rewrite Hp. unfold deref. run_simpl.
  rewrite buf_read_prefix. run_simpl. pose proof (zlen_nonneg (f_value f)).
  rewrite buf_write_in by (unfold zlen in *; rewrite ?length_replicate; lia). run_simpl.
  change (Z.to_nat 0) with 0%nat. rewrite take_0, app_nil_l, Nat.add_0_l, drop_replicate.
  rewrite buf_set_in.
  2:{ unfold zlen in *. rewrite length_app, length_replicate. lia. }
  run_simpl. replace (Z.to_nat (zlen (f_value f))) with (length (f_value f)) by (unfold zlen; lia).
  replace (Z.to_nat (45 + 1) - length (f_value f))%nat with
    (Datatypes.S (45 - length (f_value f))) by (unfold zlen in *; lia).
  cbn [replicate].
  replace (<[length (f_value f):=0]> (f_value f ++ 0 :: replicate (45 - length (f_value f)) 0))
    with (f_value f ++ 0 :: replicate (45 - length (f_value f)) 0).
  2:{ rewrite insert_app_r_alt, Nat.sub_diag by lia. done. }
  rewrite cstr_app_zero by (by apply utf8_ok_nonzero).
  unfold compare_canonical, streq. rewrite cstr_app_zero by (by apply utf8_ok_nonzero).
  rewrite (cstr_id (f_value f)) by (by apply utf8_ok_nonzero).
  by destruct (inet_pton AF_INET (f_value f)), (inet_pton AF_INET6 (f_value f)).
Qed.

(** [read] reads the first [n] bytes of an object. *)
Definition reads_be (n : nat) (read : list Z → run Z) : Prop :=
  ∀ p, bytes_ok p → Z.of_nat n <= zlen p → read p = Some (be_val (take n p)).

Lemma get_word_spec n read old :
  reads_be n read →
  tlv_get_word (Z.of_nat n) read (Some t) (Some old) =
    Some (if zlen (f_value f) =? Z.of_nat n
          then (FTAP_STATUS_OK, Some (be_val (f_value f)))
          else (FTAP_STATUS_ERR_LENGTH, Some old)).
Proof.
  intros Hread. destruct Ht as (_ & _ & Hl & Hok & tail & Hp & Htail).
  unfold tlv_get_word. rewrite Hp, Hl.
  destruct (zlen (f_value f) =? Z.of_nat n) eqn:E; [|done]. bools. cbn [negb].
  rewrite Hread; [|by apply bytes_ok_app|rewrite zlen_app; pose proof (zlen_nonneg tail); lia].
  run_simpl. rewrite take_app_length' by (unfold zlen in E; lia). done.
Qed.

Lemma get_fixed_spec n read :
  reads_be n read →
  status_of (tlv_get_word (Z.of_nat n) read (Some t) (Some 0)) =
    Some (kind_status (KFixed (Z.of_nat n)) (f_value f)).
Proof. intros Hread. rewrite get_word_spec by done. cbn. by case_if. Qed.

Lemma get_uuid_spec :
  status_of (ftap_tlv_get_uuid (Some t) (Some (replicate 16 0))) =
    Some (kind_status (KFixed FTAP_UUID_SIZE) (f_value f)).
Proof.
  destruct Ht as (_ & _ & Hl & _ & tail & Hp & _). unfold ftap_tlv_get_uuid, status_of.
  rewrite Hp, Hl. cbn [kind_status].
  destruct (zlen (f_value f) =? FTAP_UUID_SIZE) eqn:E; [|done]. bools. cbn [negb].
  rewrite <- E, buf_read_prefix. run_simpl.
  rewrite buf_write_in; [done|lia|]. rewrite E. done.
Qed.

Lemma get_bool_spec :
  status_of (ftap_tlv_get_bool (Some t) (Some false)) = Some (kind_status KBool (f_value f)).
Proof.
  destruct Ht as (_ & _ & Hl & _ & tail & Hp & _). unfold ftap_tlv_get_bool, status_of.
  rewrite Hp, Hl. cbn [kind_status]. destruct (f_value f) as [|b [|c v]]; [done| |].
  - change (zlen [b]) with 1. cbn. rewrite !one_of_cons.
    destruct (Z.eqb_spec b 0) as [->|]; [done|]. destruct (Z.eqb_spec b 1) as [->|]; [done|].
    rewrite !bool_decide_eq_false_2 by congruence. cbn.
    change ((b :: tail) !! Z.to_nat 0) with (Some b). run_simpl.
    by rewrite (proj2 (Z.eqb_neq b 0)), (proj2 (Z.eqb_neq b 1)).
  - rewrite !zlen_cons. pose proof (zlen_nonneg v).
    rewrite (proj2 (Z.eqb_neq _ _)) by (change FTAP_BOOLEAN_SIZE with 1; lia). cbn.
    by rewrite !one_of_cons, !bool_decide_eq_false_2 by congruence.
Qed.
Lemma get_u16_spec :
  status_of (ftap_tlv_get_u16 (Some t) (Some 0)) = Some (kind_status (KFixed 2) (f_value f)).
Proof. apply (get_fixed_spec 2). exact read_u16_be_spec. Qed.

Lemma get_u32_spec :
  status_of (ftap_tlv_get_u32 (Some t) (Some 0)) = Some (kind_status (KFixed 4) (f_value f)).
Proof. apply (get_fixed_spec 4). exact read_u32_be_spec. Qed.

Lemma get_u64_spec :
  status_of (ftap_tlv_get_u64 (Some t) (Some 0)) = Some (kind_status (KFixed 8) (f_value f)).
Proof. apply (get_fixed_spec 8). exact read_u64_be_spec. Qed.

Lemma validate_account_state_spec :
  validate_account_state t =
    Some (kind_status (KEnum FTAP_ACCOUNT_STATE_MAX
            [FTAP_ACCOUNT_STATE_PENDING; FTAP_ACCOUNT_STATE_ACTIVE]) (f_value f)).
Proof. unfold validate_account_state. cbn [kind_status]. by autorewrite with field_value. Qed.

Lemma validate_registration_reason_spec maximum names :
  maximum = FTAP_REGISTRATION_REASON_MAX →
  names = [FTAP_REGISTRATION_REASON_CLIENT_CANCELLED;
           FTAP_REGISTRATION_REASON_CLIENT_DISCONNECTED;
           FTAP_REGISTRATION_REASON_LEGACY_WRITE_FAILED;
           FTAP_REGISTRATION_REASON_TIMEOUT;
           FTAP_REGISTRATION_REASON_DAEMON_SHUTDOWN;
           FTAP_REGISTRATION_REASON_DATABASE_FAILURE;
           FTAP_REGISTRATION_REASON_INTERNAL_ERROR] →
  validate_registration_reason t = Some (kind_status (KReasonEnum maximum names) (f_value f)).
Proof.
  intros -> ->. unfold validate_registration_reason, validate_reason.
  rewrite validate_name_spec. cbn [kind_status]. by autorewrite with field_value.
Qed.

Lemma validate_field_value_spec : validate_field_value t = Some (value_status f).
Proof.
  unfold validate_field_value, value_status, field_kind. rewrite tlv_type_value.
  repeat (case_if; [first
    [ apply validate_text_spec | apply get_u16_spec | apply get_u32_spec | apply get_u64_spec
    | apply get_uuid_spec | apply get_bool_spec | apply validate_address_spec
    | apply validate_name_spec | by apply validate_registration_reason_spec
    | by (unfold validate_registration_state; cbn [kind_status]; autorewrite with field_value)
    | apply validate_account_state_spec
    | rewrite tlv_length_value; reflexivity | idtac ] |]); [|reflexivity].
  unfold ftap_tlv_get_u32. rewrite (get_word_spec 4) by exact read_u32_be_spec.
  cbn [kind_status]. change (Z.of_nat 4) with 4. by case_if.
Qed.

Lemma require_text_spec type expected b :
  require_text t type expected (Some (ok_or_invalid b)) =
    Some (ok_or_invalid ((negb (f_type f =? type) || one_of [expected] (f_value f)) && b)).
Proof.
  unfold require_text. rewrite tlv_type_value, one_of_cons, one_of_nil, orb_false_r.
  destruct (f_type f =? type); cbn [negb orb]; [|done]. rewrite text_equals_spec. run_simpl.
  by destruct (bool_decide _).
Qed.

Lemma if_ok_or_invalid (c a b : bool) :
  (if c then Some (ok_or_invalid a) else Some (ok_or_invalid b)) =
    Some (ok_or_invalid (if c then a else b)).
Proof. by destruct c. Qed.

Lemma abort_reason_spec (m : bool) :
  (let! bad :=
     if m && (tlv_type t =? FTAP_FIELD_REGISTRATION_REASON)
     then
       let! cancelled := text_equals t FTAP_REGISTRATION_REASON_CLIENT_CANCELLED in
       if (cancelled : bool) then Some false
       else
         let! failed := text_equals t FTAP_REGISTRATION_REASON_LEGACY_WRITE_FAILED in
         Some (negb failed)
     else Some false in
   Some bad) =
  Some (negb (negb m || negb (f_type f =? FTAP_FIELD_REGISTRATION_REASON)
              || one_of [FTAP_REGISTRATION_REASON_CLIENT_CANCELLED;
                         FTAP_REGISTRATION_REASON_LEGACY_WRITE_FAILED] (f_value f))).
Proof.
  rewrite tlv_type_value, !text_equals_spec, !one_of_cons, one_of_nil, orb_false_r.
  by destruct m, (_ =? _), (bool_decide _).
Qed.

Lemma validate_message_value_spec message_type :
  validate_message_field_value message_type t = Some (message_value_status message_type f).
Proof.
  unfold validate_message_field_value, message_value_status.
  rewrite validate_field_value_spec. unfold on_ok, and_then. run_simpl.
  destruct (status_ok (value_status f)); [|done]. rewrite tlv_type_value, validate_display_spec.
  destruct ((message_type =? FTAP_MSG_REGISTRATION_BEGIN_REQUEST)
            && (f_type f =? FTAP_FIELD_DISPLAY_NAME)); [done|].
  pose proof (abort_reason_spec (message_type =? FTAP_MSG_REGISTRATION_ABORT_REQUEST)) as Habort.
  rewrite tlv_type_value in Habort.
  match type of Habort with (match ?c with _ => _ end) = Some ?b =>
    assert (c = Some b) as -> by (by destruct c) end.
  clear Habort. run_simpl. rewrite !if_negb.
  change (Some FTAP_STATUS_OK) with (Some (ok_or_invalid true)).
  change (Some FTAP_STATUS_ERR_INVALID_VALUE) with (Some (ok_or_invalid false)).
  repeat first [rewrite require_text_spec | rewrite if_ok_or_invalid].
  unfold restricted, restrictions, forallb. do 2 f_equal.
  do 5 (destruct (message_type =? _); cbn [negb orb andb]);
    rewrite ?andb_true_r, <- ?andb_assoc; repeat case_if; reflexivity.
Qed.
End value.

(** ** The loop over the fields *)

Definition rules_of (schema : ftap_message_schema) : list ftap_field_rule :=
  match sch_rules schema with Some rules => rules | None => [] end.

Record schema_ok (schema : ftap_message_schema) : Prop := {
  schema_count : sch_rule_count schema = zlen (rules_of schema);
  schema_bound : sch_rule_count schema <= FTAP_SCHEMA_MAX_RULES_PER_MESSAGE;
  schema_unique : NoDup (map rule_type (rules_of schema));
}.

Definition rule_for (rules : list ftap_field_rule) (type : Z) : option (nat * ftap_field_rule) :=
  list_find (λ r, rule_type r = type) rules.

Lemma find_rule_spec schema type :
  schema_ok schema →
  find_rule schema type =
    Some match rule_for (rules_of schema) type with
         | Some (k, rule) => Some (rule, Z.of_nat k)
         | None => None
         end.
Proof.
  intros [Hcount _ _]. unfold find_rule, rules_of in *. rewrite Hcount.
  destruct (sch_rules schema) as [rules|]; [|done].
  unfold zlen. rewrite Nat2Z.id.
  rewrite (for_range_find (λ r, rule_type r = type) (λ r i, (r, i))).
  - run_simpl. unfold rule_for. cbn. by destruct (list_find _ _) as [[k r]|].
  - intros k r Hr. rewrite Z.add_0_l, arr_get_nat, Hr. run_simpl. f_equal.
    destruct (decide _) as [->|]; [by rewrite Z.eqb_refl|]. by rewrite (proj2 (Z.eqb_neq _ _)).
Qed.

Definition critical (f : field) : bool :=
  negb (Z.land (f_flags f) FTAP_FIELD_FLAG_CRITICAL =? 0).

(** What the loop body does with a field; an error carries the field type. *)
Definition field_check (message_type : Z) (rules : list ftap_field_rule) (f : field)
    (seen : list bool) : ctl (list bool) (ftap_status * Z) :=
  let fail status := Return (status, f_type f) in
  if negb (ftap_field_type_is_known (f_type f)) then
    if critical f then fail FTAP_STATUS_ERR_UNSUPPORTED_FIELD else Continue seen
  else
    match rule_for rules (f_type f) with
    | None => fail FTAP_STATUS_ERR_FORBIDDEN_FIELD
    | Some (k, rule) =>
        if bool_decide (seen !! k = Some true) && negb (rule_repeatable rule)
        then fail FTAP_STATUS_ERR_DUPLICATE_FIELD
        else
          let status := message_value_status message_type f in
          if status_ok status then Continue (<[k := true]> seen) else fail status
    end.

(** How an error of the loops is reported. *)
Definition report (message_type : Z) (error : option ftap_validation_error)
    (e : ftap_status * Z) : ftap_status * option ftap_validation_error :=
  (e.1, set_error error e.1 message_type e.2).

Definition ctl_map {S R R'} (g : R → R') (c : ctl S R) : ctl S R' :=
  match c with
  | Continue s => Continue s
  | Break s => Break s
  | Return r => Return (g r)
  end.

Lemma check_field_spec message_type schema error t f seen :
  schema_ok schema → tlv_is t f →
  (length (rules_of schema) <= length seen)%nat →
  check_field message_type schema error t seen =
    Some (ctl_map (report message_type error)
            (field_check message_type (rules_of schema) f seen)).
Proof.
  intros Hs Ht Hlen. unfold check_field, field_check, report, ftap_tlv_check_supported.
  destruct Ht as (Hty & Hfl & Hrest). fold (critical f). rewrite Hty, Hfl. fold (critical f).
  destruct (ftap_field_type_is_known (f_type f)); cbn [negb andb].
  2:{ by destruct (critical f). }
  change (negb (status_ok FTAP_STATUS_OK)) with false. cbv iota.
  rewrite find_rule_spec by done. run_simpl.
  destruct (rule_for (rules_of schema) (f_type f)) as [[k rule]|] eqn:Hk; [|done].
  apply list_find_Some in Hk as (Hk & _ & _). apply lookup_lt_Some in Hk.
  destruct (lookup_lt_is_Some_2 seen k) as [b Hb]; [lia|].
  rewrite arr_get_nat, Hb. run_simpl.
  replace (bool_decide (Some b = Some true)) with b by (by destruct b).
  destruct (b && negb (rule_repeatable rule)); [done|].
  rewrite (validate_message_value_spec t f); [|done]. run_simpl.
  destruct (status_ok (message_value_status message_type f)); [|done]. cbn [negb].
  by rewrite arr_set_nat by lia.
Qed.

(** The first required rule whose field was not seen. *)
Definition absent : ftap_field_rule * bool → Prop := λ '(r, b), rule_required r = true ∧ b = false.

#[local] Instance absent_dec rb : Decision (absent rb).
Proof. destruct rb as [r b]. cbn. apply _. Defined.

Definition missing (rules : list ftap_field_rule) (seen : list bool) : option Z :=
  match list_find absent (zip rules seen) with
  | Some (_, (rule, _)) => Some (rule_type rule)
  | None => None
  end.

Lemma check_required_spec message_type schema error seen :
  schema_ok schema → (length (rules_of schema) <= length seen)%nat →
  check_required message_type schema error seen =
    Some match missing (rules_of schema) seen with
         | Some type => report message_type error (FTAP_STATUS_ERR_MISSING_FIELD, type)
         | None => (FTAP_STATUS_OK, error)
         end.
Proof.
  intros [Hcount _ _] Hlen. unfold check_required, missing, rules_of in *. rewrite Hcount.
  destruct (sch_rules schema) as [rules|]; [|done].
  replace (Z.to_nat (zlen rules)) with (length (zip rules seen))
    by (unfold zlen; rewrite length_zip_with_l by done; lia).
  rewrite (for_range_find absent
    (λ '(r, _) _, report message_type error (FTAP_STATUS_ERR_MISSING_FIELD, rule_type r))).
  - run_simpl. by destruct (list_find absent _) as [[k [r b]]|].
  - intros k [r b] Hk. apply lookup_zip_with_Some in Hk as (r' & b' & [= <- <-] & Hr & Hb).
    unfold deref. run_simpl. rewrite Z.add_0_l, !arr_get_nat, Hr, Hb. run_simpl.
    destruct (decide (absent (r, b))) as [[-> ->]|Hn]; [done|]. cbn in Hn.
    destruct (rule_required r); [|done]. destruct b; [done|]. by destruct Hn.
Qed.

(** *** The verdict on a list of fields *)

(** [f] is accepted after the fields [before]. *)
Inductive accepts (message_type : Z) (rules : list ftap_field_rule) (before : list field)
    (f : field) : Prop :=
| accepts_unknown :
    ftap_field_type_is_known (f_type f) = false → critical f = false →
    accepts message_type rules before f
| accepts_known rule :
    ftap_field_type_is_known (f_type f) = true → rule ∈ rules → rule_type rule = f_type f →
    rule_repeatable rule = true ∨ f_type f ∉ map f_type before →
    message_value_status message_type f = FTAP_STATUS_OK →
    accepts message_type rules before f.

(** [f] is rejected after the fields [before], and why. *)
Inductive rejects (message_type : Z) (rules : list ftap_field_rule) (before : list field)
    (f : field) : ftap_status → Prop :=
| rejects_unsupported :
    ftap_field_type_is_known (f_type f) = false → critical f = true →
    rejects message_type rules before f FTAP_STATUS_ERR_UNSUPPORTED_FIELD
| rejects_forbidden :
    ftap_field_type_is_known (f_type f) = true →
    (∀ rule, rule ∈ rules → rule_type rule ≠ f_type f) →
    rejects message_type rules before f FTAP_STATUS_ERR_FORBIDDEN_FIELD
| rejects_duplicate rule :
    ftap_field_type_is_known (f_type f) = true → rule ∈ rules → rule_type rule = f_type f →
    rule_repeatable rule = false → f_type f ∈ map f_type before →
    rejects message_type rules before f FTAP_STATUS_ERR_DUPLICATE_FIELD
| rejects_value rule s :
    ftap_field_type_is_known (f_type f) = true → rule ∈ rules → rule_type rule = f_type f →
    message_value_status message_type f = s → s ≠ FTAP_STATUS_OK →
    rejects message_type rules before f s.

(** [seen] tells which rules have a field among [before]. *)
Definition seen_by (rules : list ftap_field_rule) (before : list field) (seen : list bool) : Prop :=
  (length rules <= length seen)%nat ∧
  ∀ k rule, rules !! k = Some rule →
    seen !! k = Some (bool_decide (rule_type rule ∈ map f_type before)).

Lemma seen_by_nil rules :
  (length rules <= Z.to_nat FTAP_SCHEMA_MAX_RULES_PER_MESSAGE)%nat →
  seen_by rules [] (replicate (Z.to_nat FTAP_SCHEMA_MAX_RULES_PER_MESSAGE) false).
Proof.
  intros Hlen. split; [by rewrite length_replicate|]. intros k rule Hk.
  apply lookup_lt_Some in Hk. apply lookup_replicate_2. lia.
Qed.

Lemma rule_for_spec rules type :
  NoDup (map rule_type rules) →
  match rule_for rules type with
  | Some (k, rule) => rules !! k = Some rule ∧ rule_type rule = type ∧
      ∀ j r, rules !! j = Some r → rule_type r = type → j = k
  | None => ∀ rule, rule ∈ rules → rule_type rule ≠ type
  end.
Proof.
  intros Hnd. unfold rule_for. destruct (list_find _ rules) as [[k rule]|] eqn:Hf.
  - apply list_find_Some in Hf as (Hk & Hty & _). split; [done|]. split; [done|].
    intros j r Hj Hr. eapply NoDup_lookup; [exact Hnd| |].
    + rewrite list_lookup_fmap, Hj. cbn. by rewrite Hr.
    + rewrite list_lookup_fmap, Hk. cbn. by rewrite Hty.
  - apply list_find_None in Hf. by apply Forall_forall.
Qed.

(** A known field marks its rule. *)
Lemma seen_by_known rules before seen f k rule :
  seen_by rules before seen → NoDup (map rule_type rules) →
  rules !! k = Some rule → rule_type rule = f_type f →
  seen_by rules (before ++ [f]) (<[k := true]> seen).
Proof.
  intros [Hlen Hseen] Hnd Hk Hty. split; [by rewrite length_insert|].
  intros j r Hj. pose proof (lookup_lt_Some _ _ _ Hk).
  rewrite map_app. destruct (decide (j = k)) as [->|Hne].
  - rewrite list_lookup_insert_eq by lia. f_equal. symmetry. apply bool_decide_eq_true.
    rewrite Hk in Hj. injection Hj as <-. apply elem_of_app. right. rewrite Hty. by left.
  - rewrite list_lookup_insert_ne, (Hseen j r) by done. f_equal. apply bool_decide_ext.
    rewrite elem_of_app. split; [by left|]. intros [?|Hr]; [done|].
    apply list_elem_of_singleton in Hr. destruct Hne.
    eapply NoDup_lookup; [exact Hnd| |]; rewrite list_lookup_fmap.
    + rewrite Hj. cbn. by rewrite Hr.
    + rewrite Hk. cbn. by rewrite Hty.
Qed.

(** An unknown field marks no rule. *)
Lemma seen_by_unknown rules before seen f :
  seen_by rules before seen →
  Forall (λ r, ftap_field_type_is_known (rule_type r) = true) rules →
  ftap_field_type_is_known (f_type f) = false →
  seen_by rules (before ++ [f]) seen.
Proof.
  intros [Hlen Hseen] Hknown Hf. split; [done|]. intros k r Hk. rewrite (Hseen k r Hk). f_equal.
  apply bool_decide_ext. rewrite map_app, elem_of_app. split; [by left|]. intros [?|Hr]; [done|].
  apply list_elem_of_singleton in Hr. apply (Forall_lookup_1 _ _ _ _ Hknown) in Hk.
  by rewrite Hr, Hf in Hk.
Qed.

Lemma field_check_verdict message_type rules before f seen :
  seen_by rules before seen → NoDup (map rule_type rules) →
  Forall (λ r, ftap_field_type_is_known (rule_type r) = true) rules →
  match field_check message_type rules f seen with
  | Continue seen' => accepts message_type rules before f ∧ seen_by rules (before ++ [f]) seen'
  | Break _ => False
  | Return (s, type) => rejects message_type rules before f s ∧ type = f_type f
  end.
Proof.
  intros Hseen Hnd Hknown. unfold field_check.
  destruct (ftap_field_type_is_known (f_type f)) eqn:Hk; cbn [negb].
  2:{ destruct (critical f) eqn:Hc; [split; [by constructor|done]|].
      split; [by constructor|]. by apply seen_by_unknown. }
  pose proof (rule_for_spec rules (f_type f) Hnd) as Hrule.
  destruct (rule_for rules (f_type f)) as [[k rule]|]; [|split; [by constructor|done]].
  destruct Hrule as (Hlk & Hty & _). pose proof (list_elem_of_lookup_2 _ _ _ Hlk) as Hin.
  rewrite (proj2 Hseen k rule Hlk), Hty.
  destruct (bool_decide (_ = _)) eqn:Hb; bools; simplify_eq/=; bools.
  - destruct (rule_repeatable rule) eqn:Hrep; cbn [andb negb].
    2:{ split; [|done]. eapply rejects_duplicate; eauto. }
    destruct (status_ok _) eqn:Hs.
    + apply status_ok_spec in Hs. split; [eapply accepts_known; eauto|].
      by eapply seen_by_known.
    + split; [|done]. eapply rejects_value; eauto. intros Hok.
      apply status_ok_spec in Hok. congruence.
  - cbn [andb]. destruct (status_ok _) eqn:Hs.
    + apply status_ok_spec in Hs. split; [|by eapply seen_by_known].
      eapply accepts_known; eauto. right. intros Hin'. apply Hb. f_equal.
      by apply bool_decide_eq_true.
    + split; [|done]. eapply rejects_value; eauto. intros Hok.
      apply status_ok_spec in Hok. congruence.
Qed.

(** Every field of [fs] is accepted after those before it. *)
Definition all_accepted (message_type : Z) (rules : list ftap_field_rule)
    (before fs : list field) : Prop :=
  ∀ pre f post, fs = pre ++ f :: post → accepts message_type rules (before ++ pre) f.

Lemma fold_fields_map {S R R'} (g : R → R') (h : field → S → ctl S R) fs s :
  fold_fields (λ f s, ctl_map g (h f s)) fs s = ctl_map g (fold_fields h fs s).
Proof.
  revert s. induction fs as [|f fs IH]; intros s; cbn; [done|].
  destruct (h f s); cbn; [apply IH|done..].
Qed.

Lemma all_accepted_nil message_type rules before : all_accepted message_type rules before [].
Proof. intros [|g pre] f post; done. Qed.

Lemma all_accepted_cons message_type rules before f fs :
  accepts message_type rules before f → all_accepted message_type rules (before ++ [f]) fs →
  all_accepted message_type rules before (f :: fs).
Proof.
  intros Hf Hfs [|g pre] h post; cbn; intros [= -> Heq].
  - by rewrite app_nil_r.
  - rewrite cons_middle, app_assoc. by eapply Hfs.
Qed.

Lemma fold_check_verdict message_type rules fs before seen :
  seen_by rules before seen → NoDup (map rule_type rules) →
  Forall (λ r, ftap_field_type_is_known (rule_type r) = true) rules →
  match fold_fields (field_check message_type rules) fs seen with
  | Break seen' => seen_by rules (before ++ fs) seen' ∧ all_accepted message_type rules before fs
  | Continue _ => False
  | Return (s, type) => ∃ pre f post, fs = pre ++ f :: post ∧
      all_accepted message_type rules before pre ∧
      rejects message_type rules (before ++ pre) f s ∧ type = f_type f
  end.
Proof.
  intros Hseen Hnd Hknown. revert before seen Hseen.
  induction fs as [|f fs IH]; intros before seen Hseen; cbn [fold_fields].
  { rewrite app_nil_r. split; [done|apply all_accepted_nil]. }
  pose proof (field_check_verdict message_type rules before f seen Hseen Hnd Hknown) as Hf.
  destruct (field_check message_type rules f seen) as [seen'|seen'|[s type]]; [|done|].
  - destruct Hf as [Hacc Hseen']. specialize (IH _ _ Hseen').
    destruct (fold_fields _ fs seen') as [?|seen''|[s type]]; [done| |].
    + destruct IH as [IH1 IH2]. rewrite <- app_assoc in IH1. split; [done|].
      by apply all_accepted_cons.
    + destruct IH as (pre & g & post & -> & Hpre & Hrej & ->).
      exists (f :: pre), g, post. split; [done|]. split; [by apply all_accepted_cons|].
      by rewrite <- app_assoc in Hrej.
  - destruct Hf as [Hrej ->]. exists [], f, fs. rewrite app_nil_r.
    split; [done|]. split; [apply all_accepted_nil|done].
Qed.

(** ** Declarative specification of values *)

Definition canonical_address (v : list Z) : Prop :=
  v ≠ [] ∧ zlen v <= FTAP_IP_ADDRESS_MAX ∧ utf8_text v ∧
  ((∃ a s, inet_pton AF_INET v = Some a ∧
      inet_ntop AF_INET a INET6_ADDRSTRLEN = Some s ∧ cstr s = v) ∨
   (∃ a s, inet_pton AF_INET v = None ∧ inet_pton AF_INET6 v = Some a ∧
      inet_ntop AF_INET6 a INET6_ADDRSTRLEN = Some s ∧ cstr s = v)).

Definition short_text (maximum : Z) (v : list Z) : Prop :=
  v ≠ [] ∧ zlen v <= maximum ∧ utf8_text v.

Definition kind_ok (k : kind) (v : list Z) : Prop :=
  match k with
  | KText maximum => short_text maximum v
  | KFixed size => zlen v = size
  | KBool => v = [0] ∨ v = [1]
  | KEnum _ names | KReasonEnum _ names => v ∈ names
  | KName maximum first other =>
      zlen v <= maximum ∧ ∃ c cs, v = c :: cs ∧ first c = true ∧ Forall (λ c, other c = true) cs
  | KAddress => canonical_address v
  | KErrorCode => zlen v = 4 ∧ FTAP_ERR_PROTOCOL <= be_val v <= FTAP_ERR_PASSWORD_POLICY
  | KToken maximum => 1 <= zlen v <= maximum
  end.

(** A code point that a terminal shows: not a C0 or C1 control or DEL. *)
Definition visible (cp : Z) : Prop := 0x20 <= cp ∧ ¬ (0x7f <= cp <= 0x9f).

Definition display_name (v : list Z) : Prop :=
  zlen v <= FTAP_DISPLAY_NAME_MAX ∧
  ∃ cps, Forall scalar cps ∧ v = concat (map utf8_encode cps) ∧ Forall visible cps ∧
    ∃ c d, cps !! 0%nat = Some c ∧ cps !! (length cps - 1)%nat = Some d ∧
      c ≠ chr " " ∧ d ≠ chr " ".

Definition value_ok (message_type : Z) (f : field) : Prop :=
  (∃ k, field_kind (f_type f) = Some k ∧ kind_ok k (f_value f)) ∧
  (message_type = FTAP_MSG_REGISTRATION_BEGIN_REQUEST → f_type f = FTAP_FIELD_DISPLAY_NAME →
     display_name (f_value f)) ∧
  (∀ names, (message_type, f_type f, names) ∈ restrictions → f_value f ∈ names).

(** *** The statuses decide the specification *)

Lemma ok_or_invalid_ok b : ok_or_invalid b = FTAP_STATUS_OK ↔ b = true.
Proof. by destruct b. Qed.

Lemma and_then_ok s1 s2 :
  and_then s1 s2 = FTAP_STATUS_OK ↔ s1 = FTAP_STATUS_OK ∧ s2 = FTAP_STATUS_OK.
Proof.
  unfold and_then. destruct (status_ok s1) eqn:E.
  - apply status_ok_spec in E. split; [done|]. by intros [_ ?].
  - split; [intros ->; done|]. intros [-> _]. done.
Qed.

Lemma text_status_ok maximum v :
  bytes_ok v → text_status maximum v = FTAP_STATUS_OK ↔ short_text maximum v.
Proof.
  intros Hok. unfold text_status, short_text. rewrite <- (utf8_ok_text v Hok). split.
  - intros H1. by apply text_status_nonempty in H1.
  - intros (Hne & Hlen & ->). rewrite (proj2 (Z.ltb_ge _ _)) by done. cbn.
    rewrite (proj2 (Z.eqb_neq _ _)); [done|]. destruct v; [done|]. rewrite zlen_cons.
    pose proof (zlen_nonneg v). lia.
Qed.

(** What the kinds of [field_kind] have in common. *)
Definition ascii_class (p : Z → bool) : Prop := ∀ c, p c = true → 1 <= c <= 0x7f.

Definition kind_sane (k : kind) : Prop :=
  match k with
  | KEnum maximum names => Forall (λ n, text_status maximum n = FTAP_STATUS_OK) names
  | KReasonEnum maximum names =>
      Forall (λ n, text_status maximum n = FTAP_STATUS_OK ∧
                   name_ok is_reason_first_character is_reason_character n = true) names
  | KName _ first other => ascii_class first ∧ ascii_class other
  | _ => True
  end.

Lemma reason_classes :
  ascii_class is_reason_first_character ∧ ascii_class is_reason_character.
Proof. split; intros c; unfold is_reason_character, is_reason_first_character; char_lia. Qed.

Lemma legacy_name_classes :
  ascii_class is_legacy_name_first_character ∧ ascii_class is_legacy_name_character.
Proof.
  split; intros c; unfold is_legacy_name_character, is_legacy_name_first_character; char_lia.
Qed.

Lemma field_kind_sane type k : field_kind type = Some k → kind_sane k.
Proof.
  unfold field_kind. repeat case_if; intros [= <-]; cbn [kind_sane];
    first [ exact I | exact reason_classes | exact legacy_name_classes | idtac ].
  all: repeat first [apply Forall_nil_2 | apply Forall_cons_2];
    first [vm_compute; reflexivity | split; vm_compute; reflexivity].
Qed.

Lemma ascii_text v : Forall (λ c, 1 <= c <= 0x7f) v → utf8_ok v = true.
Proof.
  induction 1 as [|c v Hc Hv IH]; [done|]. cbn [utf8_ok].
  rewrite (proj2 (Z.eqb_neq _ _)), (proj2 (Z.leb_le _ _)) by lia. done.
Qed.

Lemma name_ok_ascii first other v :
  ascii_class first → ascii_class other → name_ok first other v = true → utf8_ok v = true.
Proof.
  intros Hf Ho Hv. apply ascii_text. destruct v as [|c v]; [done|]. cbn in Hv. bools.
  constructor; [by apply Hf|]. eapply Forall_impl; [by apply forallb_Forall|]. apply Ho.
Qed.

(** *** Display names *)

Lemma printable_encode cp l :
  scalar cp →
  printable (utf8_encode cp ++ l) = (0x20 <=? cp) && outside 0x7f 0x9f cp && printable l.
Proof.
  unfold scalar, outside. intros Hcp. encode_cases; name_digits; cbn [app printable].
  all: unfold between.
  all: repeat match goal with
  | |- context [?a <=? ?b] => destruct (Z.leb_spec a b); try lia
  | |- context [?a =? ?b] => destruct (Z.eqb_spec a b); try lia
  | |- context [?a <? ?b] => destruct (Z.ltb_spec a b); try lia
  end; cbn [andb orb]; try done; try lia.
  all: destruct l; reflexivity.
Qed.

Lemma printable_text cps :
  Forall scalar cps →
  printable (concat (map utf8_encode cps)) = true ↔ Forall visible cps.
Proof.
  induction 1 as [|cp cps Hcp Hcps IH]; [split; [constructor|done]|].
  cbn [map concat]. rewrite printable_encode by done. rewrite andb_true_iff, IH, Forall_cons.
  unfold visible. assert ((32 <=? cp) && outside 127 159 cp = true ↔
    32 <= cp ∧ ¬ (127 <= cp <= 159)) as -> by char_lia. done.
Qed.

(** The first and the last byte of an encoding are spaces only if it is one. *)
Lemma utf8_encode_ends cp :
  scalar cp →
  ∃ b mid e, (utf8_encode cp = [b] ∧ e = b ∨ utf8_encode cp = b :: mid ++ [e]) ∧
    (b = chr " " ↔ cp = chr " ") ∧ (e = chr " " ↔ cp = chr " ").
Proof.
  unfold scalar. change (chr " ") with 32. intros Hcp. encode_cases; name_digits.
  - exists cp, [], cp. split; [by left|done].
  - eexists _, [], _. split; [by right|]. lia.
  - eexists _, [_], _. split; [by right|]. lia.
  - eexists _, [_; _], _. split; [by right|]. lia.
Qed.

Lemma lookup_last_snoc {A} (l : list A) x : (l ++ [x]) !! (length (l ++ [x]) - 1)%nat = Some x.
Proof.
  rewrite length_app. cbn [length]. rewrite lookup_app_r by lia.
  by replace (length l + 1 - 1 - length l)%nat with 0%nat by lia.
Qed.

Lemma text_first cps :
  Forall scalar cps →
  concat (map utf8_encode cps) !! 0%nat = Some (chr " ") ↔ cps !! 0%nat = Some (chr " ").
Proof.
  intros [|cp cps' Hcp _]; [done|]. cbn [map concat].
  destruct (utf8_encode_ends cp Hcp) as (b & mid & e & [[-> _]| ->] & Hb & _);
    cbn; (split; [intros [= Hx]|intros [= Hx]]); f_equal; by apply Hb.
Qed.

Lemma text_last cps :
  Forall scalar cps →
  concat (map utf8_encode cps) !! (length (concat (map utf8_encode cps)) - 1)%nat
    = Some (chr " ") ↔
  cps !! (length cps - 1)%nat = Some (chr " ").
Proof.
  intros Hcps. destruct cps as [|cp cps' _] using rev_ind; [done|].
  apply Forall_app in Hcps as [_ Hcp]. apply Forall_cons_1 in Hcp as [Hcp _].
  rewrite lookup_last_snoc, map_app, concat_app. cbn [map concat]. rewrite app_nil_r.
  destruct (utf8_encode_ends cp Hcp) as (b & mid & e & Hform & _ & He).
  assert (∃ pre, utf8_encode cp = pre ++ [e]) as [pre ->].
  { destruct Hform as [[-> ->]| ->]; [by exists []|by exists (b :: mid)]. }
  rewrite app_assoc, lookup_last_snoc. split; intros [= Hx]; f_equal; by apply He.
Qed.

Lemma display_status_ok v :
  bytes_ok v → display_status v = FTAP_STATUS_OK ↔ display_name v.
Proof.
  intros Hok. unfold display_status, display_name.
  rewrite and_then_ok, ok_or_invalid_ok, text_status_ok by done. unfold short_text.
  rewrite andb_true_iff, negb_true_iff, orb_false_iff, !bool_decide_eq_false. split.
  - intros ((Hne & Hlen & cps & Hcps & ->) & [Hfirst Hlast] & Hpr). split; [done|]. exists cps.
    rewrite printable_text in Hpr by done. rewrite text_first in Hfirst by done.
    rewrite text_last in Hlast by done. split; [done|]. split; [done|]. split; [done|].
    destruct (lookup_lt_is_Some_2 cps 0) as [c Hc]; [destruct cps; [done|cbn; lia]|].
    destruct (lookup_lt_is_Some_2 cps (length cps - 1)) as [d Hd]; [destruct cps; [done|cbn; lia]|].
    exists c, d. split; [done|]. split; [done|]. split; congruence.
  - intros (Hlen & cps & Hcps & -> & Hvis & c & d & Hc & Hd & Hc' & Hd').
    rewrite printable_text, text_first, text_last by done. split; [|split; [|done]].
    + split; [|split; [done|by exists cps]]. destruct Hcps as [|cp cps' Hcp _]; [done|].
      cbn. pose proof (utf8_encode_nonempty cp). by destruct (utf8_encode cp).
    + split; congruence.
Qed.

(** *** All kinds *)

Lemma one_of_spec names v : one_of names v = true ↔ v ∈ names.
Proof. apply bool_decide_eq_true. Qed.

Lemma compare_canonical_ok family a v :
  Forall (λ b, b ≠ 0) v →
  compare_canonical family a v = FTAP_STATUS_OK ↔
  ∃ s, inet_ntop family a INET6_ADDRSTRLEN = Some s ∧ cstr s = v.
Proof.
  intros Hv. unfold compare_canonical. destruct (inet_ntop family a INET6_ADDRSTRLEN) as [s|].
  - destruct (streq v s) eqn:E.
    + apply streq_spec in E. rewrite (cstr_id v Hv) in E. split; [by exists s|done].
    + split; [done|]. intros (s' & [= <-] & Hs). rewrite <- Hs in E. exfalso.
      assert (streq (cstr s) s = true) by (apply streq_spec, cstr_idemp). congruence.
  - split; [done|]. by intros (s & ? & _).
Qed.

Lemma address_status_ok v :
  bytes_ok v → address_status v = FTAP_STATUS_OK ↔ canonical_address v.
Proof.
  intros Hok. unfold address_status, canonical_address. rewrite <- (utf8_ok_text v Hok).
  pose proof (zlen_nonneg v) as Hnn.
  destruct ((zlen v =? 0) || (FTAP_IP_ADDRESS_MAX <? zlen v)) eqn:E.
  { split; [done|]. intros (Hne & Hlen & _). destruct v; [done|].
    rewrite zlen_cons in *. pose proof (zlen_nonneg v). bools. destruct E; bools; lia. }
  bools. destruct (utf8_ok v) eqn:Hu; cbn [negb]; [|split; [done|by intros (_ & _ & ? & _)]].
  assert (v ≠ [] ∧ zlen v <= FTAP_IP_ADDRESS_MAX) as [Hne Hlen] by (split; [by intros ->|done]).
  apply utf8_ok_nonzero in Hu as Hnz.
  destruct (inet_pton AF_INET v) as [a|].
  - rewrite compare_canonical_ok by done. split.
    + intros (s & Hs & Hv). repeat split; [done..|]. left. by exists a, s.
    + intros (_ & _ & _ & [(a' & s & [= <-] & Hs)|(? & ? & ? & _)]); [by exists s|done].
  - destruct (inet_pton AF_INET6 v) as [a|].
    + rewrite compare_canonical_ok by done. split.
      * intros (s & Hs & Hv). repeat split; [done..|]. right. by exists a, s.
      * intros (_ & _ & _ & [(? & ? & ? & _)|(a' & s & _ & [= <-] & Hs)]); [done|by exists s].
    + split; [done|].
      intros (_ & _ & _ & [(? & ? & ? & _)|(? & ? & _ & ? & _)]); done.
Qed.

Lemma kind_status_ok k v :
  kind_sane k → bytes_ok v → kind_status k v = FTAP_STATUS_OK ↔ kind_ok k v.
Proof.
  intros Hk Hok. destruct k; cbn [kind_status kind_ok kind_sane] in *.
  - by apply text_status_ok.
  - case_if; bools; [done|]. split; [done|]. by intros.
  - rewrite ok_or_invalid_ok, one_of_spec, !elem_of_cons, elem_of_nil. tauto.
  - rewrite and_then_ok, ok_or_invalid_ok, one_of_spec. split; [by intros []|].
    intros Hv. split; [|done]. by eapply Forall_forall in Hk.
  - destruct Hk as [Hf Ho]. rewrite and_then_ok, ok_or_invalid_ok, text_status_ok by done.
    split.
    + intros [(_ & ? & _) Hn]. split; [done|]. destruct v as [|c cs]; [done|]. cbn in Hn. bools.
      exists c, cs. split; [done|]. split; [done|]. by apply forallb_Forall.
    + intros (Hlen & c & cs & -> & Hc & Hcs).
      assert (name_ok first other (c :: cs) = true) as Hn.
      { cbn. rewrite Hc. by apply forallb_Forall. }
      split; [|done]. split; [done|]. split; [done|]. apply utf8_ok_text; [done|].
      exact (name_ok_ascii first other (c :: cs) Hf Ho Hn).
  - rewrite !and_then_ok, !ok_or_invalid_ok, one_of_spec. split; [by intros []|].
    intros Hv. split; [|done]. by eapply Forall_forall in Hk.
  - by apply address_status_ok.
  - case_if; bools; [|split; [done|by intros []]].
    rewrite ok_or_invalid_ok, between_spec. tauto.
  - pose proof (zlen_nonneg v). case_if; bools; (split; [try done|]); intros; try lia; done.
Qed.

Lemma restricted_ok message_type f :
  restricted message_type f = true ↔
  ∀ names, (message_type, f_type f, names) ∈ restrictions → f_value f ∈ names.
Proof.
  unfold restricted. rewrite forallb_Forall, Forall_forall. split.
  - intros Hr names Hin. specialize (Hr _ Hin). cbn in Hr.
    rewrite !Z.eqb_refl in Hr. by apply one_of_spec in Hr.
  - intros Hr [[m t] names] Hin.
    destruct (Z.eqb_spec message_type m) as [<-|]; [|done].
    destruct (Z.eqb_spec (f_type f) t) as [<-|]; [|done]. cbn. apply one_of_spec. by apply Hr.
Qed.

Lemma no_display_restriction names :
  (FTAP_MSG_REGISTRATION_BEGIN_REQUEST, FTAP_FIELD_DISPLAY_NAME, names) ∉ restrictions.
Proof.
  unfold restrictions. rewrite !elem_of_cons, elem_of_nil.
  intros Hin; repeat destruct Hin as [[=]|Hin]; done.
Qed.

Lemma message_value_status_ok message_type f :
  bytes_ok (f_value f) →
  message_value_status message_type f = FTAP_STATUS_OK ↔ value_ok message_type f.
Proof.
  intros Hok. unfold message_value_status, value_ok. rewrite and_then_ok.
  assert (value_status f = FTAP_STATUS_OK ↔
    ∃ k, field_kind (f_type f) = Some k ∧ kind_ok k (f_value f)) as ->.
  { unfold value_status. destruct (field_kind (f_type f)) as [k|] eqn:Hk.
    - apply field_kind_sane in Hk as Hs. rewrite kind_status_ok by done.
      split; [by exists k|]. by intros (k' & [= <-] & ?).
    - split; [done|]. by intros (k' & ? & _). }
  case_if; bools.
  - rewrite display_status_ok by done. split.
    + intros [? ?]. split; [done|]. split; [done|]. intros names Hin. rewrite H0, H1 in Hin.
      by destruct (no_display_restriction names).
    + intros (? & Hd & _). split; [done|]. by apply Hd.
  - rewrite ok_or_invalid_ok, restricted_ok. split.
    + intros [? ?]. split; [done|]. split; [|done]. intros -> Hty.
      rewrite Hty in E. by destruct E.
    + by intros (? & _ & ?).
Qed.

(** ** Specification of messages *)

(** The fields of a message of this type, given the rules for its fields. *)
Record fields_ok (message_type : Z) (rules : list ftap_field_rule) (fs : list field) : Prop := {
  fields_unknown f :
    f ∈ fs → ftap_field_type_is_known (f_type f) = false → critical f = false;
  fields_known f :
    f ∈ fs → ftap_field_type_is_known (f_type f) = true →
    value_ok message_type f ∧ ∃ rule, rule ∈ rules ∧ rule_type rule = f_type f;
  fields_once rule i j f g :
    rule ∈ rules → rule_repeatable rule = false → fs !! i = Some f → fs !! j = Some g →
    f_type f = rule_type rule → f_type g = rule_type rule → i = j;
  fields_required rule :
    rule ∈ rules → rule_required rule = true → ∃ f, f ∈ fs ∧ f_type f = rule_type rule;
}.

(** A list of rules in which every known field type occurs at most once. *)
Record rules_ok (rules : list ftap_field_rule) : Prop := {
  rules_unique : NoDup (map rule_type rules);
  rules_known : Forall (λ r, ftap_field_type_is_known (rule_type r) = true) rules;
}.

Lemma rule_unique rules rule r :
  rules_ok rules → rule ∈ rules → r ∈ rules → rule_type rule = rule_type r → rule = r.
Proof.
  intros [Hnd _] [k Hk]%list_elem_of_lookup [j Hj]%list_elem_of_lookup Heq.
  assert (k = j) as ->; [|congruence].
  eapply NoDup_lookup; [exact Hnd|..]; rewrite list_lookup_fmap, ?Hk, ?Hj; cbn; by f_equal.
Qed.

Lemma accepted_once message_type rules fs rule i j f g :
  rules_ok rules → all_accepted message_type rules [] fs →
  rule ∈ rules → rule_repeatable rule = false → fs !! i = Some f → fs !! j = Some g →
  f_type f = rule_type rule → f_type g = rule_type rule → ¬ (i < j)%nat.
Proof.
  intros Hrules Hacc Hin Hrep Hi Hj Hf Hg Hij.
  assert (accepts message_type rules (take j fs) g) as Hat.
  { apply (Hacc (take j fs) g (drop (S j) fs)). by rewrite take_drop_middle. }
  destruct Hat as [Hk _|r Hk Hr Hty Hor _].
  - pose proof (rules_known _ Hrules) as Hknown.
    eapply Forall_forall in Hknown; [|exact Hin]. by rewrite <- Hg, Hk in Hknown.
  - rewrite (rule_unique rules r rule) in Hor by (done || congruence).
    destruct Hor as [|Hnin]; [congruence|]. apply Hnin. rewrite Hg, <- Hf.
    apply list_elem_of_fmap. exists f. split; [done|].
    apply list_elem_of_lookup. exists i. by rewrite lookup_take_lt.
Qed.

Lemma accepted_fields_ok message_type rules fs :
  rules_ok rules → Forall wire_ok fs → all_accepted message_type rules [] fs →
  (∀ rule, rule ∈ rules → rule_required rule = true → rule_type rule ∈ map f_type fs) →
  fields_ok message_type rules fs.
Proof.
  intros Hrules Hw Hacc Hreq.
  assert (∀ i f, fs !! i = Some f → accepts message_type rules (take i fs) f) as Hat.
  { intros i f Hi. apply (Hacc (take i fs) f (drop (S i) fs)). by rewrite take_drop_middle. }
  split.
  - intros f [i Hi]%list_elem_of_lookup Hk. destruct (Hat i f Hi); [done|congruence].
  - intros f [i Hi]%list_elem_of_lookup Hk. destruct (Hat i f Hi) as [|rule]; [congruence|].
    split; [|by exists rule]. apply message_value_status_ok; [|done].
    apply (Forall_lookup_1 _ _ _ _ Hw Hi).
  - intros rule i j f g Hin Hrep Hi Hj Hf Hg.
    destruct (lt_eq_lt_dec i j) as [[Hij|]|Hij]; [|done|];
      by eapply accepted_once in Hij.
  - intros rule Hin Hr. specialize (Hreq rule Hin Hr).
    apply list_elem_of_fmap in Hreq as (f & Hty & Hf). by exists f.
Qed.

Lemma fields_ok_accepted message_type rules fs :
  Forall wire_ok fs → fields_ok message_type rules fs →
  all_accepted message_type rules [] fs.
Proof.
  intros Hw [Hunk Hkn Honce _] pre f post Heq.
  assert (fs !! length pre = Some f) as Hi by (rewrite Heq; by apply list_lookup_middle).
  pose proof (list_elem_of_lookup_2 _ _ _ Hi) as Hin.
  destruct (ftap_field_type_is_known (f_type f)) eqn:Hk.
  - destruct (Hkn f Hin Hk) as (Hv & rule & Hr & Hty).
    eapply accepts_known; [done|exact Hr|done| |].
    + destruct (rule_repeatable rule) eqn:Hrep; [by left|]. right. cbn.
      intros (g & Hg & [k Hk']%list_elem_of_lookup)%list_elem_of_fmap.
      apply lookup_lt_Some in Hk' as Hlt.
      assert (k = length pre) as ->; [|lia].
      eapply Honce; [exact Hr|done| |exact Hi|by rewrite <- Hg|done].
      rewrite Heq. by apply lookup_app_l_Some.
    + apply message_value_status_ok; [|done]. apply (Forall_lookup_1 _ _ _ _ Hw Hi).
  - apply accepts_unknown; [done|]. by apply Hunk.
Qed.

(** The header conditions that [ftap_validate_message] checks. *)
Record header_accepted (state : ftap_connection_state) (h : ftap_frame_header)
    (payload_length : Z) : Prop := {
  ha_type : ftap_message_type_is_known (hdr_message_type h) = true;
  ha_version : hdr_major h = FTAP_VERSION_MAJOR ∧ hdr_minor h <= FTAP_VERSION_MINOR;
  ha_length : hdr_payload_length h = payload_length ∧ payload_length <= FTAP_MAX_PAYLOAD_SIZE;
  ha_flags : expected_flags (hdr_message_type h) (Some 0) = (FTAP_STATUS_OK, Some (hdr_flags h));
  ha_request : if bool_decide (hdr_flags h = FTAP_FRAME_FLAG_SERVER_PUSH)
               then hdr_request_id h = FTAP_SERVER_PUSH_REQUEST_ID
               else FTAP_FIRST_CLIENT_REQUEST_ID <= hdr_request_id h;
  ha_state : state_allows_message state (hdr_message_type h) = true;
}.

(** The parts of an accepted header. *)
Definition header_version_ok (h : ftap_frame_header) : Prop :=
  hdr_major h = FTAP_VERSION_MAJOR ∧ hdr_minor h <= FTAP_VERSION_MINOR.
Definition header_length_ok (h : ftap_frame_header) (payload_length : Z) : Prop :=
  hdr_payload_length h = payload_length ∧ payload_length <= FTAP_MAX_PAYLOAD_SIZE.
Definition header_flags_ok (h : ftap_frame_header) : Prop :=
  expected_flags (hdr_message_type h) (Some 0) = (FTAP_STATUS_OK, Some (hdr_flags h)).
Definition header_request_ok (h : ftap_frame_header) : Prop :=
  if bool_decide (hdr_flags h = FTAP_FRAME_FLAG_SERVER_PUSH)
  then hdr_request_id h = FTAP_SERVER_PUSH_REQUEST_ID
  else FTAP_FIRST_CLIENT_REQUEST_ID <= hdr_request_id h.

(** The first part of a header that is not accepted, with the status that names it. *)
Inductive header_fault (state : ftap_connection_state) (h : ftap_frame_header)
    (payload_length : Z) : ftap_status → Prop :=
| hf_type :
    ftap_message_type_is_known (hdr_message_type h) = false →
    header_fault state h payload_length FTAP_STATUS_ERR_INVALID_MESSAGE
| hf_version :
    ftap_message_type_is_known (hdr_message_type h) = true → ¬ header_version_ok h →
    header_fault state h payload_length FTAP_STATUS_ERR_VERSION
| hf_length :
    ftap_message_type_is_known (hdr_message_type h) = true → header_version_ok h →
    ¬ header_length_ok h payload_length → header_fault state h payload_length FTAP_STATUS_ERR_LENGTH
| hf_flags :
    ftap_message_type_is_known (hdr_message_type h) = true → header_version_ok h →
    header_length_ok h payload_length → ¬ header_flags_ok h → header_fault state h payload_length FTAP_STATUS_ERR_FLAGS
| hf_request :
    ftap_message_type_is_known (hdr_message_type h) = true → header_version_ok h →
    header_length_ok h payload_length → header_flags_ok h → ¬ header_request_ok h →
    header_fault state h payload_length FTAP_STATUS_ERR_REQUEST_ID
| hf_state :
    ftap_message_type_is_known (hdr_message_type h) = true → header_version_ok h →
    header_length_ok h payload_length → header_flags_ok h → header_request_ok h →
    state_allows_message state (hdr_message_type h) = false →
    header_fault state h payload_length FTAP_STATUS_ERR_INVALID_STATE.

Lemma header_fault_not_accepted state h payload_length s :
  header_fault state h payload_length s → ¬ header_accepted state h payload_length ∧ s ≠ FTAP_STATUS_OK.
Proof. by intros []; (split; [intros []|]); try congruence. Qed.

(** The rules for a message of this type in this state. *)
Definition message_rules (state : ftap_connection_state) (message_type : Z)
    : list ftap_field_rule :=
  match message_schema state message_type (Some (MessageSchema None 0)) with
  | (_, Some schema) => rules_of schema
  | _ => []
  end.

Definition message_ok (state : ftap_connection_state) (h : ftap_frame_header)
    (payload : list Z) : Prop :=
  header_accepted state h (zlen payload) ∧
  ∃ fs, payload = payload_of fs ∧ Forall wire_ok fs ∧
    fields_ok (hdr_message_type h) (message_rules state (hdr_message_type h)) fs.

(** What is wrong with a payload: its encoding, a field, or a field that is
    not there; and the field type that is reported with it. *)
Inductive field_fault (message_type : Z) (rules : list ftap_field_rule) (payload : list Z)
    : ftap_status → Z → Prop :=
| fault_encoding fs rem s :
    payload = payload_of fs ++ rem → Forall wire_ok fs →
    all_accepted message_type rules [] fs → rem ≠ [] → first_field rem = inl s →
    field_fault message_type rules payload s (error_type rem)
| fault_field pre f rem s :
    payload = payload_of (pre ++ [f]) ++ rem → Forall wire_ok (pre ++ [f]) →
    all_accepted message_type rules [] pre → rejects message_type rules pre f s →
    field_fault message_type rules payload s (f_type f)
| fault_missing fs rule :
    payload = payload_of fs → Forall wire_ok fs →
    all_accepted message_type rules [] fs →
    rule ∈ rules → rule_required rule = true → rule_type rule ∉ map f_type fs →
    field_fault message_type rules payload FTAP_STATUS_ERR_MISSING_FIELD (rule_type rule).

(** ** Properties *)

Lemma message_schema_ok state message_type s schema :
  message_schema state message_type (Some (MessageSchema None 0)) = (s, Some schema) →
  schema_ok schema ∧ rules_ok (rules_of schema).
Proof.
  intros Hs.
  assert (bool_decide (sch_rule_count schema = zlen (rules_of schema)) &&
    bool_decide (sch_rule_count schema <= FTAP_SCHEMA_MAX_RULES_PER_MESSAGE) &&
    bool_decide (NoDup (map rule_type (rules_of schema))) &&
    forallb (λ r, ftap_field_type_is_known (rule_type r)) (rules_of schema) = true) as Hb.
  { revert Hs. unfold message_schema. cbn [is_null].
    repeat case_if; intros [= <- <-]; vm_compute; reflexivity. }
  bools. split; [done|]. split; [done|]. by apply forallb_Forall.
Qed.

Lemma message_rules_ok state message_type : rules_ok (message_rules state message_type).
Proof.
  unfold message_rules. destruct (message_schema state message_type _) as [s [schema|]] eqn:Hs.
  - by destruct (message_schema_ok _ _ _ _ Hs).
  - split; constructor.
Qed.

Lemma message_schema_known state message_type :
  ftap_message_type_is_known message_type = true →
  ∃ schema, message_schema state message_type (Some (MessageSchema None 0)) =
    (FTAP_STATUS_OK, Some schema).
Proof.
  intros Hk. unfold ftap_message_type_is_known in Hk. apply in_cases_spec in Hk.
  unfold message_schema. cbn [is_null].
  repeat (case_if; [first [by eexists | by (case_if; eexists)]|]). exfalso.
  repeat match goal with
  | H : in_cases _ _ = false |- _ =>
      apply not_true_iff_false in H; rewrite in_cases_spec, !elem_of_cons, elem_of_nil in H
  | H : (_ =? _) = false |- _ => apply Z.eqb_neq in H
  end.
  rewrite !elem_of_cons, elem_of_nil in Hk. tauto.
Qed.

Lemma expected_flags_push message_type flags :
  expected_flags message_type (Some 0) = (FTAP_STATUS_OK, Some flags) →
  negb (Z.land flags FTAP_FRAME_FLAG_SERVER_PUSH =? 0) =
    bool_decide (flags = FTAP_FRAME_FLAG_SERVER_PUSH) ∧
  flags_unknown flags FTAP_FRAME_FLAG_KNOWN_MASK = false.
Proof. unfold expected_flags. repeat case_if; intros [= <-]; done. Qed.

Lemma field_check_no_break {R} (g : ftap_status * Z → R) message_type rules f seen seen' :
  ctl_map g (field_check message_type rules f seen) ≠ Break seen'.
Proof. unfold field_check. repeat case_match; done. Qed.

Lemma missing_spec rules fs seen :
  seen_by rules fs seen →
  match missing rules seen with
  | None => ∀ rule, rule ∈ rules → rule_required rule = true → rule_type rule ∈ map f_type fs
  | Some type => ∃ rule, rule ∈ rules ∧ rule_required rule = true ∧
      (rule_type rule ∉ map f_type fs) ∧ rule_type rule = type
  end.
Proof.
  intros [Hlen Hseen]. unfold missing.
  destruct (list_find absent (zip rules seen)) as [[k [r b]]|] eqn:Hf.
  - apply list_find_Some in Hf as (Hk & [Hreq ->] & _).
    apply lookup_zip_with_Some in Hk as (r' & b' & [= <- <-] & Hr & Hb).
    rewrite (Hseen k r Hr) in Hb. injection Hb as Hb. apply bool_decide_eq_false in Hb.
    exists r. split; [by eapply list_elem_of_lookup_2|done].
  - apply list_find_None in Hf. intros rule [k Hk]%list_elem_of_lookup Hreq.
    pose proof (Hseen k rule Hk) as Hb.
    assert (zip rules seen !! k =
      Some (rule, bool_decide (rule_type rule ∈ map f_type fs))) as Hz.
    { apply lookup_zip_with_Some. by eexists _, _. }
    pose proof (Forall_lookup_1 _ _ _ _ Hf Hz) as Hn. cbn in Hn.
    destruct (bool_decide _) eqn:E; [by apply bool_decide_eq_true in E|]. by destruct Hn.
Qed.

Lemma rejects_not_ok message_type rules before f s :
  rejects message_type rules before f s → s ≠ FTAP_STATUS_OK.
Proof. by destruct 1. Qed.

(** The field loop and the loop over the rules, for a schema of the table. *)
Lemma fields_verdict message_type schema error payload tail :
  schema_ok schema → rules_ok (rules_of schema) → bytes_ok (payload ++ tail) →
  zlen payload <= FTAP_MAX_PAYLOAD_SIZE →
  let rules := rules_of schema in
  let run_fields :=
    let! c := field_loop
      (λ status field, (status, set_error error status message_type (tlv_type field)))
      (check_field message_type schema error) (TlvReader (Some (payload ++ tail)) (zlen payload) 0)
      (replicate (Z.to_nat FTAP_SCHEMA_MAX_RULES_PER_MESSAGE) false) in
    match c with
    | Return r => Some r
    | Continue seen | Break seen => check_required message_type schema error seen
    end in
  (run_fields = Some (FTAP_STATUS_OK, error) ∧
    ∃ fs, payload = payload_of fs ∧ Forall wire_ok fs ∧ fields_ok message_type rules fs) ∨
  (∃ s t, run_fields = Some (report message_type error (s, t)) ∧
    field_fault message_type rules payload s t ∧ s ≠ FTAP_STATUS_OK).
Proof.
  intros Hs Hrules Hok Hmax rules run_fields.
  destruct (payload_reader payload tail Hok Hmax) as (_ & Hr & Hu).
  apply bytes_ok_app in Hok as [Hok _].
  set (seen0 := replicate (Z.to_nat FTAP_SCHEMA_MAX_RULES_PER_MESSAGE) false) in run_fields.
  assert (seen_by rules [] seen0) as Hseen0.
  { apply seen_by_nil. destruct Hs as [Hc Hb _]. unfold zlen, rules in *. lia. }
  set (h f seen := ctl_map (report message_type error) (field_check message_type rules f seen)).
  set (err st type := report message_type error (st, type)).
  assert (run_fields = match walk h err (length payload) payload seen0 with
                       | Return r => Some r
                       | Continue seen | Break seen =>
                           check_required message_type schema error seen
                       end) as ->.
  { unfold run_fields.
    rewrite (field_loop_spec h err _ _ (λ seen, (length rules <= length seen)%nat));
      rewrite ?Hu; [by destruct (walk _ _ _ _ _)| | |done|apply Hseen0|done|done].
    - intros t f seen Hlen Ht _. by apply check_field_spec.
    - intros f seen seen' Hlen _. unfold h, field_check.
      repeat case_match; cbn; intros [= <-]; rewrite ?length_insert; done. }
  destruct (bytes_split (length payload) payload Hok ltac:(lia))
    as (fs & rem & Heq & Hfs & Hend).
  pose proof (fold_check_verdict message_type rules fs [] seen0 Hseen0
                (rules_unique _ Hrules) (rules_known _ Hrules)) as Hfold.
  assert (fold_fields h fs seen0 =
    ctl_map (report message_type error) (fold_fields (field_check message_type rules) fs seen0))
    as Hmap by apply fold_fields_map.
  destruct (fold_fields (field_check message_type rules) fs seen0) as [?|seen|[s t]];
    [done| |]; cbn [ctl_map] in Hmap.
  - destruct Hfold as [Hseen Hacc]. destruct Hend as [->|[Hne [st Hst]]].
    + rewrite app_nil_r in Heq. rewrite Heq, walk_payload, Hmap by (done || lia).
      rewrite check_required_spec by (done || apply Hseen).
      pose proof (missing_spec rules fs seen Hseen) as Hmiss. fold rules.
      destruct (missing rules seen) as [type|].
      * right. destruct Hmiss as (rule & Hin & Hreq & Hnin & <-). eexists _, _.
        split; [done|]. split; [by eapply fault_missing|done].
      * left. split; [done|]. exists fs. split; [done|]. split; [done|].
        by apply accepted_fields_ok.
    + right. exists st, (error_type rem). split; [|split; [by eapply fault_encoding|]].
      * rewrite Heq, (walk_error _ _ _ _ _ st), Hmap by
          (done || lia || apply field_check_no_break).
        done.
      * intros ->. by apply first_field_error in Hst as [|[|]].
  - right. destruct Hfold as (pre & f & post & -> & Hpre & Hrej & ->).
    exists s, (f_type f). split; [|split; [|by eapply rejects_not_ok]].
    + destruct Hend as [->|[Hne [st Hst]]].
      * rewrite app_nil_r in Heq. by rewrite Heq, walk_payload, Hmap by (done || lia).
      * rewrite Heq, (walk_error _ _ _ _ _ st), Hmap by
          (done || lia || apply field_check_no_break).
        done.
    + rewrite cons_middle, app_assoc in Heq, Hfs. apply Forall_app in Hfs as [Hfs _].
      eapply (fault_field _ _ _ pre f (payload_of post ++ rem)); [|done..].
      by rewrite Heq, payload_of_app, app_assoc.
Qed.

Lemma accepts_rejects message_type rules before f s :
  rules_ok rules → accepts message_type rules before f → rejects message_type rules before f s →
  False.
Proof.
  intros Hrules [Hk Hc|rule Hk Hin Hty Hor Hv] [Hk' Hc'|Hk' Hnone|r Hk' Hr Hty' Hrep Hb|r s' Hk' _ _ Hs Hne];
    try congruence.
  - by apply (Hnone rule).
  - rewrite (rule_unique rules rule r) in Hor by (done || congruence).
    destruct Hor; congruence.
Qed.

Lemma fault_not_ok message_type rules payload s t fs :
  rules_ok rules → field_fault message_type rules payload s t →
  payload = payload_of fs → Forall wire_ok fs → ¬ fields_ok message_type rules fs.
Proof.
  intros Hrules Hfault Hp Hw Hok.
  destruct Hfault as [gs rem s Hp' Hgs _ Hne Hst|pre f rem s Hp' Hgs _ Hrej
                     |gs rule Hp' Hgs _ Hin Hreq Hnin].
  - rewrite Hp' in Hp. by eapply no_payload in Hp.
  - rewrite Hp' in Hp. destruct (payload_suffix _ _ _ Hgs Hw Hp) as (post & -> & Hpost).
    rewrite <- payload_of_app in Hp. apply payload_of_inj in Hp; [|by apply Forall_app|done].
    apply (accepts_rejects message_type rules pre f s); [done| |done].
    eapply (fields_ok_accepted _ _ fs); [done..|]. by rewrite <- Hp, <- app_assoc.
  - rewrite Hp' in Hp. apply payload_of_inj in Hp as ->; [|done..].
    destruct (fields_required _ _ _ Hok rule Hin Hreq) as (f & Hf & Hty).
    apply Hnin. rewrite <- Hty. by apply list_elem_of_fmap_2.
Qed.

(** The whole function, in the order of its checks. *)
Lemma validate_verdict state h payload tail e0 result :
  bytes_ok (payload ++ tail) →
  ftap_validate_message state (Some h) (Some (payload ++ tail)) (zlen payload) (Some e0) = result →
  let mt := hdr_message_type h in
  header_accepted state h (zlen payload) ∧
    ((result = Some (FTAP_STATUS_OK, Some (ValidationError FTAP_STATUS_OK 0 0)) ∧
      ∃ fs, payload = payload_of fs ∧ Forall wire_ok fs ∧
        fields_ok mt (message_rules state mt) fs) ∨
     (∃ s t, result = Some (s, Some (ValidationError s mt t)) ∧
        field_fault mt (message_rules state mt) payload s t ∧ s ≠ FTAP_STATUS_OK)) ∨
  ∃ s, result = Some (s, Some (ValidationError s mt 0)) ∧ header_fault state h (zlen payload) s.
Proof.
  intros Hok Hresult mt. unfold ftap_validate_message in Hresult.
  cbn [is_null andb] in Hresult. cbv zeta in Hresult.
  destruct (ftap_message_type_is_known (hdr_message_type h)) eqn:Hk; cbn [negb] in Hresult; [|subst result].
  2:{ right. eexists. split; [done|by constructor]. }
  destruct (negb (hdr_major h =? _) || _) eqn:Hv.
  { subst result. right. eexists. split; [done|]. constructor; [done|]. intros []. bools. destruct Hv; bools; lia. }
  assert (header_version_ok h) as Hversion by (bools; split; lia).
  destruct (negb (hdr_payload_length h =? _) || _) eqn:Hl.
  { subst result. right. eexists. split; [done|]. constructor; [done..|]. intros []. bools. destruct Hl; bools; lia. }
  assert (header_length_ok h (zlen payload)) as Hlength by (bools; split; lia).
  destruct (flags_unknown _ _) eqn:Hun.
  { subst result. right. eexists. split; [done|]. constructor; [done..|]. intros Hf.
    apply expected_flags_push in Hf as [_ Hf]. congruence. }
  destruct (expected_flags (hdr_message_type h) (Some 0)) as [st [fl|]] eqn:Hf.
  2:{ exfalso. revert Hf. unfold expected_flags. cbn [is_null]. by repeat case_if. }
  unfold deref at 1 in Hresult. run_simpl_in Hresult. destruct (negb (status_ok st) || _) eqn:Hfl.
  { subst result. right. eexists. split; [done|]. constructor; [done..|]. unfold header_flags_ok. rewrite Hf. intros [= -> ->].
    by rewrite Z.eqb_refl in Hfl. }
  bools. apply status_ok_spec in H0 as ->. subst fl.
  destruct (expected_flags_push _ _ Hf) as [Hpush _]. rewrite Hpush in Hresult.
  destruct (if bool_decide _ then _ else _) eqn:Hreq.
  { subst result. right. eexists. split; [done|]. constructor; [done..|]. unfold header_request_ok. intros Hr. revert Hreq Hr.
    case_if; intros; bools; lia. }
  assert (header_request_ok h) as Hrequest by (unfold header_request_ok; revert Hreq; case_if; intros; bools; lia).
  destruct (state_allows_message state (hdr_message_type h)) eqn:Hst; cbn [negb] in Hresult; [|subst result].
  2:{ right. eexists. split; [done|by constructor]. }
  destruct (message_schema_known state _ Hk) as [schema Hs].
  destruct (message_schema_ok _ _ _ _ Hs) as [Hschema Hrules].
  assert (message_rules state mt = rules_of schema) as -> by (unfold message_rules, mt; by rewrite Hs).
  rewrite Hs in Hresult. unfold deref at 1 in Hresult. run_simpl_in Hresult.
  change (negb (status_ok FTAP_STATUS_OK)) with false in Hresult. cbv iota in Hresult. bools.
  destruct (payload_reader payload tail) as [Hinit _]; [done|done|]. rewrite Hinit in Hresult.
  unfold deref at 1 in Hresult. run_simpl_in Hresult. change (negb (status_ok FTAP_STATUS_OK)) with false in Hresult. cbv iota in Hresult.
  left. split; [by split|].
  destruct (fields_verdict mt schema (set_error (Some e0) FTAP_STATUS_OK 0 0) payload tail)
    as [[Hrun Hfs]|(s & t & Hrun & Hfault & Hne)]; [done..|left|right].
  - split; [by rewrite <- Hresult|done].
  - exists s, t. split; [by rewrite <- Hresult|done].
Qed.

Lemma validate_correct state h payload tail e0 :
  bytes_ok (payload ++ tail) →
  ∃ s e, ftap_validate_message state (Some h) (Some (payload ++ tail)) (zlen payload) (Some e0)
    = Some (s, Some e) ∧ ve_status e = s ∧ (s = FTAP_STATUS_OK ↔ message_ok state h payload).
Proof.
  intros Hok. unfold message_ok.
  destruct (validate_verdict state h payload tail e0 _ Hok eq_refl)
    as [[Hh [[-> Hfs]|(s & t & -> & Hfault & Hne)]]|(s & -> & [Hh Hne]%header_fault_not_accepted)];
    eexists _, _; (split; [done|split; [done|]]); [done| |].
  - split; [done|]. intros [_ (fs & Hp & Hw & Hfs)]. by destruct (fault_not_ok _ _ _ _ _ fs (message_rules_ok _ _) Hfault).
  - split; [done|]. by intros [? _].
Qed.

(** C17: [ftap_validate_message] is never stuck on any payload bytes and whatever
    follows them in memory, the status it returns is the one it stores, and it
    accepts exactly the messages of the protocol: a header that may be sent in
    this state, and a payload that is the encoding of fields among which no
    unknown one is critical, every known one has a rule and a valid value, none
    without repetition occurs twice, and every required one occurs. *)
Theorem validate_message_correct state h payload tail e0 :
  bytes_ok (payload ++ tail) →
  ∃ s e, ftap_validate_message state (Some h) (Some (payload ++ tail)) (zlen payload) (Some e0)
    = Some (s, Some e) ∧ ve_status e = s ∧ (s = FTAP_STATUS_OK ↔ message_ok state h payload).
Proof. apply validate_correct. Qed.

(** C39: A rejection names its reason: the stored message type is the one of the
    header; when the header may be sent, the stored status and field type are
    those of an actual fault of the payload (undecodable bytes, the first field
    that is not accepted, or a required field that is absent); otherwise the
    stored status names the first part of the header that is wrong, in the order
    message type, version, length, flags, request identifier, state, and the
    stored field type is 0. *)
Theorem validate_message_fault state h payload tail e0 s e :
  bytes_ok (payload ++ tail) →
  ftap_validate_message state (Some h) (Some (payload ++ tail)) (zlen payload) (Some e0)
    = Some (s, Some e) →
  s ≠ FTAP_STATUS_OK →
  ve_status e = s ∧ ve_message_type e = hdr_message_type h ∧
  (header_accepted state h (zlen payload) ∧
     field_fault (hdr_message_type h) (message_rules state (hdr_message_type h)) payload
       s (ve_field_type e) ∨
   header_fault state h (zlen payload) s ∧ ¬ header_accepted state h (zlen payload) ∧ ve_field_type e = 0).
Proof.
  intros Hok Hrun Hs.
  destruct (validate_verdict state h payload tail e0 _ Hok Hrun)
    as [[Hh [[[= -> ->] Hfs]|(s' & t & [= -> ->] & Hfault & Hne)]]|(s' & [= -> ->] & Hfault)];
    [done| |]; (split; [done|]); (split; [done|]); [by left|right].
  by destruct (header_fault_not_accepted _ _ _ _ Hfault).
Qed.
End spec.

(** An authentication request as a terminal session sends it. *)
Definition example_request : list field :=
  [Field FTAP_FIELD_LOGIN_NAME 0 (lit "neo"); Field FTAP_FIELD_PASSWORD 0 (lit "trinity");
   Field FTAP_FIELD_PROTOCOL 0 (lit "ssh"); Field FTAP_FIELD_SOURCE_IP 0 (lit "192.0.2.10");
   Field FTAP_FIELD_AUTH_METHOD 0 (lit "password"); Field 4711 0 (lit "ignored")].

Definition example_header (payload : list Z) : ftap_frame_header :=
  FrameHeader FTAP_VERSION_MAJOR FTAP_VERSION_MINOR FTAP_MSG_AUTH_PASSWORD_REQUEST 0
    (zlen payload) 1.

Lemma validate_message_correct_witness :
  let payload := payload_of example_request in
  (∃ s e, @ftap_validate_message dotted_quad FTAP_STATE_HELLO_COMPLETE
      (Some (example_header payload)) (Some (payload ++ [9; 9])) (zlen payload)
      (Some (ValidationError FTAP_STATUS_DONE 9 9)) = Some (s, Some e) ∧ ve_status e = s ∧
    (s = FTAP_STATUS_OK ↔
       @message_ok dotted_quad FTAP_STATE_HELLO_COMPLETE (example_header payload) payload)) ∧
  @ftap_validate_message dotted_quad FTAP_STATE_HELLO_COMPLETE
      (Some (example_header payload)) (Some (payload ++ [9; 9])) (zlen payload)
      (Some (ValidationError FTAP_STATUS_DONE 9 9))
    = Some (FTAP_STATUS_OK, Some (ValidationError FTAP_STATUS_OK 0 0)).
Proof.
  split; [|vm_compute; reflexivity].
  apply (@validate_message_correct dotted_quad FTAP_STATE_HELLO_COMPLETE
           (example_header (payload_of example_request)) (payload_of example_request) [9; 9]
           (ValidationError FTAP_STATUS_DONE 9 9)).
  apply (bool_decide_unpack _). vm_compute. exact I.
Defined.

Lemma validate_message_fault_witness :
  let payload := payload_of (example_request ++ [Field FTAP_FIELD_PASSWORD 0 (lit "x")]) in
  let old := FrameHeader (FTAP_VERSION_MAJOR + 1) 0 FTAP_MSG_AUTH_PASSWORD_REQUEST 0 (zlen payload) 1 in
  let e := ValidationError FTAP_STATUS_ERR_DUPLICATE_FIELD FTAP_MSG_AUTH_PASSWORD_REQUEST
             FTAP_FIELD_PASSWORD in
  (ve_status e = FTAP_STATUS_ERR_DUPLICATE_FIELD ∧
   ve_message_type e = hdr_message_type (example_header payload) ∧
   (header_accepted FTAP_STATE_HELLO_COMPLETE (example_header payload) (zlen payload) ∧
      @field_fault dotted_quad FTAP_MSG_AUTH_PASSWORD_REQUEST
        (message_rules FTAP_STATE_HELLO_COMPLETE FTAP_MSG_AUTH_PASSWORD_REQUEST) payload
        FTAP_STATUS_ERR_DUPLICATE_FIELD (ve_field_type e) ∨
    header_fault FTAP_STATE_HELLO_COMPLETE (example_header payload) (zlen payload) FTAP_STATUS_ERR_DUPLICATE_FIELD ∧
      ¬ header_accepted FTAP_STATE_HELLO_COMPLETE (example_header payload) (zlen payload) ∧
      ve_field_type e = 0)) ∧
  @ftap_validate_message dotted_quad FTAP_STATE_HELLO_COMPLETE (Some old) (Some payload) (zlen payload)
      (Some (ValidationError FTAP_STATUS_DONE 9 9))
    = Some (FTAP_STATUS_ERR_VERSION, Some (ValidationError FTAP_STATUS_ERR_VERSION FTAP_MSG_AUTH_PASSWORD_REQUEST 0)) ∧
  header_fault FTAP_STATE_HELLO_COMPLETE old (zlen payload) FTAP_STATUS_ERR_VERSION.
Proof.
  split; [|split; [vm_compute; reflexivity|constructor; [reflexivity|by intros [? _]]]].
  apply (@validate_message_fault dotted_quad FTAP_STATE_HELLO_COMPLETE
           (example_header (payload_of (example_request ++ [Field FTAP_FIELD_PASSWORD 0 (lit "x")])))
           (payload_of (example_request ++ [Field FTAP_FIELD_PASSWORD 0 (lit "x")])) []
           (ValidationError FTAP_STATUS_DONE 9 9)).
  - apply (bool_decide_unpack _). vm_compute. exact I.
  - vm_compute. reflexivity.
  - discriminate.
Defined.
