(* ===== verification/Identity.v ===== *)
(** * Login names and legacy names

    [fortytwo-auth/src/authd_identity.c]: the canonical form of a login name and
    the names of legacy records. *)

From S2P Require Import Prelude Protocol Words Utf8 Codec Inet Schema.

Definition AUTHD_LOGIN_NAME_BUFFER_SIZE : Z := FTAP_LOGIN_NAME_MAX + 1.
Definition AUTHD_LEGACY_NAME_BUFFER_SIZE : Z := FTAP_LEGACY_NAME_MAX + 1.

Definition is_ascii_letter (character : Z) : bool :=
  between (chr "A") (chr "Z") character || between (chr "a") (chr "z") character.

Definition is_ascii_digit (character : Z) : bool := between (chr "0") (chr "9") character.

(** [memset(output, 0, AUTHD_LOGIN_NAME_BUFFER_SIZE)] *)
Definition clear_login_name (output : list Z) : run (list Z) :=
  buf_write output 0 (replicate (Z.to_nat AUTHD_LOGIN_NAME_BUFFER_SIZE) 0).

(** The loop body: the state is the output array, the value returned is it too. *)
Definition canonicalize_character (input : list Z) (index : Z) (output : list Z)
    : run (ctl (list Z) (bool * ptr)) :=
  let! character := buf_get input index in
  let reject := let! output := clear_login_name output in Some (Return (false, Some output)) in
  if character =? 0 then reject
  else
    let valid :=
      if index =? 0 then is_ascii_letter character || is_ascii_digit character
      else is_ascii_letter character || is_ascii_digit character
           || (character =? chr ".") || (character =? chr "_") || (character =? chr "-") in
    if negb valid then reject
    else
      let character :=
        if between (chr "A") (chr "Z") character
        then u8 (character - chr "A" + chr "a") else character in
      let! output := buf_set output index character in
      Some (Continue output).

Definition authd_login_name_canonicalize (input : ptr) (input_length : Z) (output : ptr)
    : run (bool * ptr) :=
  let! output :=
    match output with
    | Some out => let! out := clear_login_name out in Some (Some out)
    | None => Some None
    end in
  match input, output with
  | Some inp, Some out =>
      if (input_length =? 0) || (FTAP_LOGIN_NAME_MAX <? input_length)
      then Some (false, output)
      else
        let! c := for_range (Z.to_nat input_length) 0 (canonicalize_character inp) out in
        match c with
        | Return r => Some r
        | Continue out | Break out =>
            let! out := buf_set out input_length 0 in
            Some (true, Some out)
        end
  | _, _ => Some (false, output)
  end.

Definition authd_login_name_is_canonical (login_name : ptr) : run bool :=
  match login_name with
  | None => Some false
  | Some name =>
      let canonical := replicate (Z.to_nat AUTHD_LOGIN_NAME_BUFFER_SIZE) 0 in
      let length := strlen name in
      let! (valid, canonical) :=
        authd_login_name_canonicalize login_name length (Some canonical) in
      let! canonical := deref canonical in
      Some (valid && streq name canonical)
  end.

Definition legacy_name_character (name : list Z) (index : Z) (s : unit)
    : run (ctl unit bool) :=
  let! character := buf_get name index in
  let valid := is_ascii_digit character || between (chr "a") (chr "z") character in
  let valid :=
    if 0 <? index
    then valid || (character =? chr ".") || (character =? chr "_") || (character =? chr "-")
    else valid in
  Some (if negb valid then Return false else Continue s).

Definition authd_legacy_name_is_valid (legacy_name : ptr) : run bool :=
  match legacy_name with
  | None => Some false
  | Some name =>
      let length := strlen name in
      if (length =? 0) || (FTAP_LEGACY_NAME_MAX <? length) then Some false
      else
        let! c := for_range (Z.to_nat length) 0 (legacy_name_character name) tt in
        match c with
        | Return r => Some r
        | _ => Some true
        end
  end.

(** ** Specification *)

(** The characters of a login name: a letter or digit first. *)
Definition login_first (c : Z) : bool := is_ascii_letter c || is_ascii_digit c.

Definition login_other (c : Z) : bool :=
  login_first c || (c =? chr ".") || (c =? chr "_") || (c =? chr "-").

Definition login_text (text : list Z) : bool :=
  (1 <=? zlen text) && (zlen text <=? FTAP_LOGIN_NAME_MAX) && name_ok login_first login_other text.

Definition to_lower (c : Z) : Z := if between (chr "A") (chr "Z") c then c + 32 else c.

(** A canonical login name: no upper-case letter. *)
Definition canonical_name (text : list Z) : Prop :=
  login_text text = true ∧ Forall (λ c, between (chr "A") (chr "Z") c = false) text.

Lemma to_lower_code c :
  byte_ok c →
  (if between (chr "A") (chr "Z") c then u8 (c - chr "A" + chr "a") else c) = to_lower c.
Proof.
  unfold byte_ok, fits, to_lower. intros Hc. destruct (between (chr "A") (chr "Z") c) eqn:E; [|done].
  unfold u8. rewrite wrap_fits; [|unfold fits; change (2 ^ 8) with 256]; char_lia.
Qed.

Lemma login_first_lower c : login_first (to_lower c) = login_first c.
Proof.
  unfold to_lower. destruct (between (chr "A") (chr "Z") c) eqn:E; [|done].
  apply eq_true_iff_eq. unfold login_first, is_ascii_letter, is_ascii_digit. char_lia.
Qed.

Lemma login_other_lower c : login_other (to_lower c) = login_other c.
Proof.
  unfold to_lower. destruct (between (chr "A") (chr "Z") c) eqn:E; [|done].
  apply eq_true_iff_eq. unfold login_other, login_first, is_ascii_letter, is_ascii_digit. char_lia.
Qed.

Lemma to_lower_not_upper c : between (chr "A") (chr "Z") (to_lower c) = false.
Proof.
  unfold to_lower. destruct (between (chr "A") (chr "Z") c) eqn:E; [|done].
  apply not_true_iff_false. revert E. char_lia.
Qed.

Lemma to_lower_id c : between (chr "A") (chr "Z") c = false → to_lower c = c.
Proof. unfold to_lower. by intros ->. Qed.

Lemma login_text_lower text : login_text (map to_lower text) = login_text text.
Proof.
  unfold login_text, zlen. rewrite length_map. f_equal. destruct text as [|c cs]; [done|].
  cbn. rewrite login_first_lower. f_equal.
  induction cs as [|d cs IH]; [done|]. cbn. by rewrite login_other_lower, IH.
Qed.

Lemma map_lower_canonical text :
  login_text text = true → canonical_name (map to_lower text).
Proof.
  intros Ht. split; [by rewrite login_text_lower|].
  apply Forall_fmap, Forall_true. intros c. apply to_lower_not_upper.
Qed.

Lemma map_lower_id text :
  Forall (λ c, between (chr "A") (chr "Z") c = false) text → map to_lower text = text.
Proof.
  induction 1 as [|c cs Hc Hcs IH]; [done|]. cbn. by rewrite to_lower_id, IH.
Qed.

(** ** [authd_login_name_canonicalize] *)

(** The output array with [text] at its start, zeros up to the end of the
    buffer, and [tail] behind it. *)
Definition filled (text tail : list Z) : list Z :=
  text ++ replicate (Z.to_nat AUTHD_LOGIN_NAME_BUFFER_SIZE - length text) 0 ++ tail.

Definition class_at (i : nat) : Z → bool := if decide (i = 0%nat) then login_first else login_other.

Fixpoint classes_from (i : nat) (s : list Z) : bool :=
  match s with
  | [] => true
  | c :: s => class_at i c && classes_from (S i) s
  end.

Lemma classes_from_S i s : classes_from (S i) s = forallb login_other s.
Proof.
  revert i. induction s as [|c s IH]; intros i; [done|]. cbn.
  by rewrite IH.
Qed.

Lemma classes_from_0 s : s ≠ [] → classes_from 0 s = name_ok login_first login_other s.
Proof. destruct s as [|c s]; [done|]. intros _. cbn. by rewrite classes_from_S. Qed.

Lemma class_not_zero i : class_at i 0 = false.
Proof. unfold class_at. by destruct (decide _). Qed.

Lemma filled_zlen text tail :
  zlen text <= AUTHD_LOGIN_NAME_BUFFER_SIZE →
  zlen (filled text tail) = AUTHD_LOGIN_NAME_BUFFER_SIZE + zlen tail.
Proof.
  unfold filled, zlen. change AUTHD_LOGIN_NAME_BUFFER_SIZE with 33.
  rewrite !length_app, length_replicate. lia.
Qed.

Lemma clear_filled text tail :
  zlen text <= AUTHD_LOGIN_NAME_BUFFER_SIZE →
  clear_login_name (filled text tail) = Some (filled [] tail).
Proof.
  intros Hlen. unfold clear_login_name. pose proof (filled_zlen text tail Hlen) as Hz.
  pose proof (zlen_nonneg tail).
  change AUTHD_LOGIN_NAME_BUFFER_SIZE with 33 in *. change (Z.to_nat 33) with 33%nat.
  rewrite buf_write_in; [|lia|change (zlen (replicate 33 0)) with 33; lia].
  f_equal. unfold filled. change (Z.to_nat AUTHD_LOGIN_NAME_BUFFER_SIZE) with 33%nat.
  rewrite take_0, app_nil_l. cbn [length Nat.add Nat.sub app]. f_equal.
  rewrite length_replicate, app_assoc, drop_app_length'; [done|].
  rewrite length_app, length_replicate. unfold zlen in Hlen. cbn. lia.
Qed.

(** Setting the byte after the text makes the text longer. *)
Lemma set_filled text tail c :
  zlen text < AUTHD_LOGIN_NAME_BUFFER_SIZE →
  buf_set (filled text tail) (zlen text) c = Some (filled (text ++ [c]) tail).
Proof.
  intros Hlen. pose proof (filled_zlen text tail ltac:(lia)) as Hz.
  pose proof (zlen_nonneg text). pose proof (zlen_nonneg tail).
  rewrite buf_set_in by lia. f_equal. unfold filled, zlen in *.
  change AUTHD_LOGIN_NAME_BUFFER_SIZE with 33 in *. rewrite Nat2Z.id.
  rewrite insert_app_r_alt, Nat.sub_diag by lia. rewrite <- app_assoc. f_equal.
  rewrite length_app. change (Z.to_nat 33) with 33%nat. cbn [length].
  replace (33 - length text)%nat with (S (33 - (length text + 1))) by lia. done.
Qed.

Lemma terminate_filled text tail :
  zlen text < AUTHD_LOGIN_NAME_BUFFER_SIZE →
  buf_set (filled text tail) (zlen text) 0 = Some (filled text tail).
Proof.
  intros Hlen. rewrite set_filled by done. f_equal. unfold filled, zlen in *.
  change AUTHD_LOGIN_NAME_BUFFER_SIZE with 33 in *. rewrite <- app_assoc. f_equal.
  rewrite length_app. change (Z.to_nat 33) with 33%nat. cbn [length].
  replace (33 - length text)%nat with (S (33 - (length text + 1))) by lia. done.
Qed.

Lemma canonicalize_character_spec input pre c s tail :
  bytes_ok (c :: s) →
  (∃ rest, input = pre ++ c :: s ++ rest) → zlen pre < FTAP_LOGIN_NAME_MAX →
  canonicalize_character input (zlen pre) (filled (map to_lower pre) tail) =
    Some (if class_at (length pre) c
          then Continue (filled (map to_lower (pre ++ [c])) tail)
          else Return (false, Some (filled [] tail))).
Proof.
  intros [Hc _]%Forall_cons_1 [rest ->] Hlen. unfold canonicalize_character.
  change FTAP_LOGIN_NAME_MAX with 32 in Hlen. pose proof (zlen_nonneg pre).
  assert (zlen (map to_lower pre) = zlen pre) as Hzl by (unfold zlen; by rewrite length_map).
  assert (zlen (map to_lower pre) < AUTHD_LOGIN_NAME_BUFFER_SIZE) as Hz.
  { rewrite Hzl. change AUTHD_LOGIN_NAME_BUFFER_SIZE with 33. lia. }
  replace (buf_get _ _) with (Some c).
  2:{ rewrite <- (Z.add_0_r (zlen pre)), buf_get_app_r by lia. done. }
  run_simpl. rewrite clear_filled by lia. run_simpl.
  destruct (Z.eqb_spec c 0) as [->|Hc0]; [by rewrite class_not_zero|].
  replace (if zlen pre =? 0 then _ else _) with (class_at (length pre) c).
  2:{ unfold class_at, zlen. destruct (decide (length pre = 0%nat)) as [->|]; [done|].
      rewrite (proj2 (Z.eqb_neq _ _)) by lia. done. }
  destruct (class_at (length pre) c); [|done]. cbn [negb].
  rewrite to_lower_code by done. rewrite <- Hzl at 1. rewrite set_filled by done. run_simpl.
  by rewrite map_app.
Qed.

Lemma canonicalize_loop input s pre tail :
  bytes_ok s → (∃ rest, input = pre ++ s ++ rest) → zlen (pre ++ s) <= FTAP_LOGIN_NAME_MAX →
  for_range (length s) (zlen pre) (canonicalize_character input)
      (filled (map to_lower pre) tail) =
    Some (if classes_from (length pre) s
          then Break (filled (map to_lower (pre ++ s)) tail)
          else Return (false, Some (filled [] tail))).
Proof.
  revert pre. induction s as [|c s IH]; intros pre Hok Hin Hlen; cbn [for_range length].
  { by rewrite app_nil_r. }
  rewrite zlen_app, zlen_cons in Hlen. pose proof (zlen_nonneg s).
  rewrite (canonicalize_character_spec input pre c s tail) by (done || lia). run_simpl.
  cbn [classes_from]. destruct (class_at (length pre) c); [|done]. cbn [andb].
  replace (zlen pre + 1) with (zlen (pre ++ [c])) by (by rewrite zlen_app).
  rewrite IH.
  - rewrite length_app, <- app_assoc. cbn [length app]. by rewrite Nat.add_1_r.
  - by apply Forall_cons_1 in Hok as [_ ?].
  - destruct Hin as [rest ->]. exists rest. by rewrite <- app_assoc.
  - rewrite !zlen_app. change (zlen [c]) with 1. lia.
Qed.

(** Every branch, for an input with at least [input_length] readable bytes. *)
Lemma canonicalize_spec text rest buffer tail :
  bytes_ok text → zlen buffer = AUTHD_LOGIN_NAME_BUFFER_SIZE →
  authd_login_name_canonicalize (Some (text ++ rest)) (zlen text) (Some (buffer ++ tail)) =
    Some (login_text text,
          Some (filled (if login_text text then map to_lower text else []) tail)).
Proof.
  intros Hok Hb. unfold authd_login_name_canonicalize.
  assert (buffer ++ tail = filled buffer tail) as ->.
  { unfold filled. replace (Z.to_nat _ - length buffer)%nat with 0%nat; [done|].
    rewrite <- Hb. unfold zlen. lia. }
  rewrite clear_filled by lia. run_simpl. unfold login_text.
  pose proof (zlen_nonneg text). destruct ((zlen text =? 0) || _) eqn:E.
  { replace ((1 <=? zlen text) && (zlen text <=? FTAP_LOGIN_NAME_MAX)) with false; [done|].
    symmetry. apply not_true_iff_false. revert E. char_lia. }
  bools. rewrite !(proj2 (Z.leb_le _ _)) by lia. cbn [andb].
  assert (text ≠ []) as Hne by (by intros ->).
  replace (Z.to_nat (zlen text)) with (length text) by (unfold zlen; lia).
  change (filled [] tail) with (filled (map to_lower []) tail) at 1. change 0 with (zlen (@nil Z)) at 1.
  rewrite canonicalize_loop; [|done|by exists rest|done].
  cbn [length app]. rewrite classes_from_0 by done. run_simpl.
  destruct (name_ok login_first login_other text); [|done].
  replace (zlen text) with (zlen (map to_lower text)) by (unfold zlen; by rewrite length_map).
  rewrite terminate_filled; [done|]. unfold zlen in *. rewrite length_map.
  change AUTHD_LOGIN_NAME_BUFFER_SIZE with 33. change FTAP_LOGIN_NAME_MAX with 32 in *. lia.
Qed.

Lemma canonicalize_correct text rest buffer tail :
  bytes_ok text → zlen buffer = AUTHD_LOGIN_NAME_BUFFER_SIZE →
  ∃ b, authd_login_name_canonicalize (Some (text ++ rest)) (zlen text) (Some (buffer ++ tail))
      = Some (login_text text, Some (b ++ tail)) ∧
    zlen b = AUTHD_LOGIN_NAME_BUFFER_SIZE ∧
    cstr b = (if login_text text then map to_lower text else []) ∧
    (login_text text = true → canonical_name (cstr b)).
Proof.
  intros Hok Hb. rewrite canonicalize_spec by done.
  set (out := if login_text text then map to_lower text else []).
  assert (zlen out <= FTAP_LOGIN_NAME_MAX ∧ Forall (λ b, b ≠ 0) out) as [Hlen Hnz].
  { unfold out. destruct (login_text text) eqn:Ht; [|by split].
    apply map_lower_canonical in Ht as [Hc _]. unfold login_text in Hc. bools. split; [done|].
    apply utf8_ok_nonzero. eapply (name_ok_ascii login_first login_other); [| |done];
      intros c; unfold login_other, login_first, is_ascii_letter, is_ascii_digit; char_lia. }
  exists (filled out []). unfold filled. rewrite app_nil_r, <- app_assoc. split; [done|].
  change FTAP_LOGIN_NAME_MAX with 32 in Hlen.
  assert (cstr (out ++ replicate (Z.to_nat AUTHD_LOGIN_NAME_BUFFER_SIZE - length out) 0) = out) as Hc.
  { change (Z.to_nat AUTHD_LOGIN_NAME_BUFFER_SIZE) with 33%nat.
    replace (33 - length out)%nat with (S (32 - length out)) by (unfold zlen in Hlen; lia).
    cbn [replicate]. by apply cstr_app_zero. }
  rewrite Hc. split; [|split; [done|]].
  - rewrite zlen_app. unfold zlen in *. rewrite length_replicate.
    change AUTHD_LOGIN_NAME_BUFFER_SIZE with 33. lia.
  - unfold out. intros Ht. rewrite Ht. by apply map_lower_canonical.
Qed.

(** C34: [authd_login_name_canonicalize] is never stuck on an input with
    [input_length] readable bytes and an output of at least 33 bytes. It
    succeeds exactly on 1 to 32 letters, digits, dots, underscores and hyphens
    that begin with a letter or digit, and then stores the text with its letters
    in lower case, terminated by a zero; otherwise it stores the empty string.
    Bytes behind the 33-byte buffer keep their values. *)
Theorem login_name_canonicalize_correct text rest buffer tail :
  bytes_ok text → zlen buffer = AUTHD_LOGIN_NAME_BUFFER_SIZE →
  ∃ b, authd_login_name_canonicalize (Some (text ++ rest)) (zlen text) (Some (buffer ++ tail))
      = Some (login_text text, Some (b ++ tail)) ∧
    zlen b = AUTHD_LOGIN_NAME_BUFFER_SIZE ∧
    cstr b = (if login_text text then map to_lower text else []) ∧
    (login_text text = true → canonical_name (cstr b)).
Proof. apply canonicalize_correct. Qed.

Lemma login_name_canonicalize_correct_witness :
  let text := lit "Neo.42" in
  (∃ b, authd_login_name_canonicalize (Some (text ++ [33])) (zlen text)
         (Some (replicate 33 7 ++ [5; 6])) = Some (login_text text, Some (b ++ [5; 6])) ∧
    zlen b = AUTHD_LOGIN_NAME_BUFFER_SIZE ∧
    cstr b = (if login_text text then map to_lower text else []) ∧
    (login_text text = true → canonical_name (cstr b))) ∧
  login_text text = true ∧ map to_lower text = lit "neo.42".
Proof.
  split; [|split; vm_compute; reflexivity].
  apply (login_name_canonicalize_correct (lit "Neo.42") [33] (replicate 33 7) [5; 6]);
    [apply lit_bytes_ok|reflexivity].
Defined.

(** [authd_login_name_is_canonical] accepts exactly the C strings that are
    canonical login names, so every name that [authd_login_name_canonicalize]
    stores is accepted, and canonicalising it again changes nothing. *)
Theorem login_name_is_canonical_correct text rest :
  bytes_ok text → Forall (λ b, b ≠ 0) text →
  ∃ b, authd_login_name_is_canonical (Some (text ++ 0 :: rest)) = Some b ∧
    (b = true ↔ canonical_name text) ∧ (b = true → map to_lower text = text).
Proof.
  intros Hok Hnz. unfold authd_login_name_is_canonical, strlen.
  rewrite cstr_app_zero by done.
  destruct (canonicalize_correct text (0 :: rest)
    (replicate (Z.to_nat AUTHD_LOGIN_NAME_BUFFER_SIZE) 0) []) as (b & Hrun & _ & Hb & Hc); [done..|].
  rewrite !app_nil_r in Hrun. rewrite Hrun. unfold deref. run_simpl.
  eexists. split; [done|]. unfold streq. rewrite cstr_app_zero by done. rewrite Hb.
  destruct (login_text text) eqn:Ht; cbn [andb].
  - assert (bool_decide (text = map to_lower text) = true ↔ canonical_name text) as Heq.
    { rewrite bool_decide_eq_true. split.
      - intros ->. by apply map_lower_canonical.
      - intros [_ Hu]. by rewrite map_lower_id. }
    split; [done|]. rewrite Heq. intros [_ Hu]. by apply map_lower_id.
  - split; [|done]. split; [done|]. intros [? _]. congruence.
Qed.

Lemma login_name_is_canonical_correct_witness :
  (∃ b, authd_login_name_is_canonical (Some (lit "neo_42" ++ 0 :: [])) = Some b ∧
    (b = true ↔ canonical_name (lit "neo_42")) ∧
    (b = true → map to_lower (lit "neo_42") = lit "neo_42")) ∧
  authd_login_name_is_canonical (Some (lit "neo_42" ++ [0])) = Some true ∧
  authd_login_name_is_canonical (Some (lit "Neo_42" ++ [0])) = Some false.
Proof.
  split; [|split; vm_compute; reflexivity].
  apply (login_name_is_canonical_correct (lit "neo_42") []); [apply lit_bytes_ok|].
  apply (bool_decide_unpack _). vm_compute. exact I.
Defined.

(** ** [authd_legacy_name_is_valid] *)

Lemma legacy_loop s pre rest :
  Forall (λ b, b ≠ 0) s →
  for_range (length s) (zlen pre) (legacy_name_character (pre ++ s ++ rest)) tt =
    Some (if (if decide (pre = []) then
                match s with [] => true
                | c :: cs => is_legacy_name_first_character c && forallb is_legacy_name_character cs
                end
              else forallb is_legacy_name_character s)
          then Break tt else Return false).
Proof.
  revert pre. induction s as [|c s IH]; intros pre Hnz; cbn [for_range length].
  { by destruct (decide _). }
  apply Forall_cons_1 in Hnz as [Hc Hnz]. unfold legacy_name_character at 1.
  replace (buf_get _ _) with (Some c)
    by (rewrite <- (Z.add_0_r (zlen pre)), buf_get_app_r by lia; done).
  run_simpl. pose proof (zlen_nonneg pre).
  assert (pre ++ (c :: s) ++ rest = (pre ++ [c]) ++ s ++ rest) as -> by (by rewrite <- app_assoc).
  replace (zlen pre + 1) with (zlen (pre ++ [c])) by (by rewrite zlen_app).
  destruct (decide (pre = [])) as [->|Hne].
  - change (0 <? zlen []) with false.
    replace (is_ascii_digit c || between (chr "a") (chr "z") c)
      with (is_legacy_name_first_character c) by apply orb_comm.
    destruct (is_legacy_name_first_character c); [|done]. cbn [negb andb]. rewrite IH by done.
    by rewrite decide_False by done.
  - assert ((0 <? zlen pre) = true) as ->.
    { destruct pre; [done|]. rewrite zlen_cons. pose proof (zlen_nonneg pre).
      by rewrite (proj2 (Z.ltb_lt _ _)) by lia. }
    replace (_ || _) with (is_legacy_name_character c).
    2:{ unfold is_legacy_name_character, is_legacy_name_first_character, is_ascii_digit.
        by rewrite (orb_comm (between (chr "a") (chr "z") c)). }
    cbn [forallb]. destruct (is_legacy_name_character c); [|done]. cbn [negb andb].
    rewrite IH by done. rewrite decide_False; [done|]. by destruct pre.
Qed.

(** [authd_legacy_name_is_valid] accepts exactly the C strings that the
    message schema admits as the value of a LEGACY_NAME field: what the daemon
    stores can be sent, and what a client accepts is a valid record name. *)
Theorem legacy_name_is_valid_correct `{Inet} text rest :
  bytes_ok text → Forall (λ b, b ≠ 0) text →
  ∃ b, authd_legacy_name_is_valid (Some (text ++ 0 :: rest)) = Some b ∧
    (b = true ↔ message_value_status FTAP_MSG_AUTH_PASSWORD_RESULT
                  (Field FTAP_FIELD_LEGACY_NAME 0 text) = FTAP_STATUS_OK).
Proof.
  intros Hok Hnz.
  assert (message_value_status FTAP_MSG_AUTH_PASSWORD_RESULT
            (Field FTAP_FIELD_LEGACY_NAME 0 text) = FTAP_STATUS_OK ↔
    zlen text <= FTAP_LEGACY_NAME_MAX ∧
      name_ok is_legacy_name_first_character is_legacy_name_character text = true) as Hspec.
  { rewrite message_value_status_ok by done. unfold value_ok. cbn [f_type f_value].
    change (field_kind FTAP_FIELD_LEGACY_NAME) with
      (Some (KName FTAP_LEGACY_NAME_MAX is_legacy_name_first_character is_legacy_name_character)).
    split.
    - intros [(k & [= <-] & Hlen & c & cs & -> & Hc & Hcs) _]. split; [done|]. cbn.
      rewrite Hc. by apply forallb_Forall.
    - intros [Hlen Hn]. split; [|split; [done|]].
      + eexists. split; [done|]. split; [done|]. destruct text as [|c cs]; [done|]. cbn in Hn. bools.
        exists c, cs. split; [done|]. split; [done|]. by apply forallb_Forall.
      + intros names Hin. exfalso. revert Hin.
        unfold restrictions. rewrite !elem_of_cons, elem_of_nil.
        intros Hin; repeat destruct Hin as [[=]|Hin]; done. }
  unfold authd_legacy_name_is_valid, strlen. rewrite cstr_app_zero by done.
  pose proof (zlen_nonneg text). destruct ((zlen text =? 0) || _) eqn:E.
  { exists false. split; [done|]. rewrite Hspec. split; [done|]. intros [Hlen Hn]. bools.
    destruct E; bools; [|lia]. destruct text as [|c cs]; [done|].
    rewrite zlen_cons in *. pose proof (zlen_nonneg cs). lia. }
  bools. replace (Z.to_nat (zlen text)) with (length text) by (unfold zlen; lia).
  pose proof (legacy_loop text [] (0 :: rest) Hnz) as Hloop. cbn [app] in Hloop.
  change (zlen []) with 0 in Hloop. rewrite Hloop. run_simpl.
  assert (text ≠ []) as Hne by (by intros ->). rewrite decide_True by done.
  destruct text as [|c cs]; [done|].
  change (is_legacy_name_first_character c && forallb is_legacy_name_character cs)
    with (name_ok is_legacy_name_first_character is_legacy_name_character (c :: cs)).
  destruct (name_ok _ _ _); eexists; (split; [done|]); rewrite Hspec; (split; [done|]); [done|].
  by intros [_ ?].
Qed.

Lemma legacy_name_is_valid_correct_witness :
  (∃ b, authd_legacy_name_is_valid (Some (lit "ftab12cd" ++ 0 :: [9])) = Some b ∧
    (b = true ↔ @message_value_status dotted_quad FTAP_MSG_AUTH_PASSWORD_RESULT
                  (Field FTAP_FIELD_LEGACY_NAME 0 (lit "ftab12cd")) = FTAP_STATUS_OK)) ∧
  authd_legacy_name_is_valid (Some (lit "ftab12cd" ++ [0])) = Some true ∧
  authd_legacy_name_is_valid (Some (lit "-tab12cd" ++ [0])) = Some false.
Proof.
  split; [|split; vm_compute; reflexivity].
  apply (@legacy_name_is_valid_correct dotted_quad (lit "ftab12cd") [9]); [apply lit_bytes_ok|].
  apply (bool_decide_unpack _). vm_compute. exact I.
Defined.
