(* ===== verification/Throttle.v ===== *)
(** * Throttling policy

    [fortytwo-auth/src/authd_throttle.c]: the limits of the password-failure
    policy, and the two checks on what a client reports about a login. *)

From S2P Require Import Prelude Protocol Words Utf8 Codec Inet Schema.

Definition AUTHD_THROTTLE_MIN_FAILURE_THRESHOLD : Z := 1.
Definition AUTHD_THROTTLE_MAX_FAILURE_THRESHOLD : Z := 100.
Definition AUTHD_THROTTLE_DEFAULT_FAILURE_THRESHOLD : Z := 5.
Definition AUTHD_THROTTLE_MIN_WINDOW_SECONDS : Z := 1.
Definition AUTHD_THROTTLE_MAX_WINDOW_SECONDS : Z := 86400.
Definition AUTHD_THROTTLE_DEFAULT_WINDOW_SECONDS : Z := 900.
Definition AUTHD_THROTTLE_MIN_DURATION_SECONDS : Z := 1.
Definition AUTHD_THROTTLE_MAX_DURATION_SECONDS : Z := 86400.
Definition AUTHD_THROTTLE_DEFAULT_DURATION_SECONDS : Z := 900.

Record authd_throttle_policy := ThrottlePolicy {
  failure_threshold : Z;
  failure_window_seconds : Z;
  throttle_seconds : Z;
}.

Inductive authd_login_rejection_reason :=
| AUTHD_LOGIN_REJECTION_UNKNOWN_USER
| AUTHD_LOGIN_REJECTION_WRONG_PASSWORD
| AUTHD_LOGIN_REJECTION_PENDING
| AUTHD_LOGIN_REJECTION_DISABLED
| AUTHD_LOGIN_REJECTION_LOCKED
| AUTHD_LOGIN_REJECTION_DELETED
| AUTHD_LOGIN_REJECTION_THROTTLED
| AUTHD_LOGIN_REJECTION_PASSWORD_CHANGE_REQUIRED
| AUTHD_LOGIN_REJECTION_INVALID_RECORD
| AUTHD_LOGIN_REJECTION_OVERLOADED
| AUTHD_LOGIN_REJECTION_STALE_STATE
| AUTHD_LOGIN_REJECTION_TRANSPORT_NOT_AUTHORIZED
| AUTHD_LOGIN_REJECTION_INTERNAL_ERROR.

#[export] Instance authd_login_rejection_reason_eq_dec : EqDecision authd_login_rejection_reason.
Proof. solve_decision. Defined.

Definition authd_throttle_policy_defaults (policy : option authd_throttle_policy)
    : option authd_throttle_policy :=
  match policy with
  | None => None
  | Some _ =>
      Some (ThrottlePolicy AUTHD_THROTTLE_DEFAULT_FAILURE_THRESHOLD
              AUTHD_THROTTLE_DEFAULT_WINDOW_SECONDS AUTHD_THROTTLE_DEFAULT_DURATION_SECONDS)
  end.

Definition authd_throttle_policy_is_valid (policy : option authd_throttle_policy) : bool :=
  match policy with
  | None => false
  | Some p =>
      (AUTHD_THROTTLE_MIN_FAILURE_THRESHOLD <=? failure_threshold p)
      && (failure_threshold p <=? AUTHD_THROTTLE_MAX_FAILURE_THRESHOLD)
      && (AUTHD_THROTTLE_MIN_WINDOW_SECONDS <=? failure_window_seconds p)
      && (failure_window_seconds p <=? AUTHD_THROTTLE_MAX_WINDOW_SECONDS)
      && (AUTHD_THROTTLE_MIN_DURATION_SECONDS <=? throttle_seconds p)
      && (throttle_seconds p <=? AUTHD_THROTTLE_MAX_DURATION_SECONDS)
  end.

Definition authd_login_protocol_is_valid (protocol : ptr) : bool :=
  match protocol with
  | None => false
  | Some p =>
      streq p FTAP_PROTOCOL_TELNET || streq p FTAP_PROTOCOL_SSH || streq p FTAP_PROTOCOL_LOCAL
  end.

Definition authd_source_ip_is_valid `{Inet} (source_ip : ptr) : bool :=
  match source_ip with
  | None => true
  | Some s =>
      let length := strlen s in
      if (length =? 0) || (FTAP_IP_ADDRESS_MAX <? length) then false
      else negb (is_null (inet_pton AF_INET (cstr s)))
           || negb (is_null (inet_pton AF_INET6 (cstr s)))
  end.

Definition authd_login_rejection_reason_name (reason : authd_login_rejection_reason) : list Z :=
  match reason with
  | AUTHD_LOGIN_REJECTION_UNKNOWN_USER => lit "unknown_user"
  | AUTHD_LOGIN_REJECTION_WRONG_PASSWORD => lit "wrong_password"
  | AUTHD_LOGIN_REJECTION_PENDING => lit "account_pending"
  | AUTHD_LOGIN_REJECTION_DISABLED => lit "account_disabled"
  | AUTHD_LOGIN_REJECTION_LOCKED => lit "account_locked"
  | AUTHD_LOGIN_REJECTION_DELETED => lit "account_deleted"
  | AUTHD_LOGIN_REJECTION_THROTTLED => lit "temporarily_throttled"
  | AUTHD_LOGIN_REJECTION_PASSWORD_CHANGE_REQUIRED => lit "password_change_required"
  | AUTHD_LOGIN_REJECTION_INVALID_RECORD => lit "invalid_account_record"
  | AUTHD_LOGIN_REJECTION_OVERLOADED => lit "password_worker_overloaded"
  | AUTHD_LOGIN_REJECTION_STALE_STATE => lit "stale_login_state"
  | AUTHD_LOGIN_REJECTION_TRANSPORT_NOT_AUTHORIZED => lit "transport_not_authorized"
  | AUTHD_LOGIN_REJECTION_INTERNAL_ERROR => lit "internal_error"
  end.

(** The installed defaults are a policy that the daemon accepts. *)
Lemma throttle_defaults_valid p :
  authd_throttle_policy_is_valid (authd_throttle_policy_defaults (Some p)) = true.
Proof. done. Qed.

(** Audit records name every reason differently. *)
Lemma rejection_reason_name_inj r1 r2 :
  authd_login_rejection_reason_name r1 = authd_login_rejection_reason_name r2 → r1 = r2.
Proof. destruct r1, r2; intros E; first [reflexivity | by vm_compute in E]. Qed.

(** What the message schema admits as PROTOCOL and SOURCE_IP may enter the
    audit records: the daemon never rejects there what the schema let through. *)
Section agreement.
Context `{Inet}.

Lemma schema_protocol_valid v rest :
  v ∈ [FTAP_PROTOCOL_TELNET; FTAP_PROTOCOL_SSH; FTAP_PROTOCOL_LOCAL] →
  authd_login_protocol_is_valid (Some (v ++ 0 :: rest)) = true.
Proof.
  rewrite !elem_of_cons, elem_of_nil. intros [->|[->|[->|[]]]];
    unfold authd_login_protocol_is_valid, streq;
    rewrite cstr_app_zero by (apply (bool_decide_unpack _); vm_compute; exact I);
    vm_compute; reflexivity.
Qed.

Lemma schema_source_ip_valid v rest :
  bytes_ok v → canonical_address v → authd_source_ip_is_valid (Some (v ++ 0 :: rest)) = true.
Proof.
  intros Hok (Hne & Hlen & Htext & Hip). apply utf8_ok_text, utf8_ok_nonzero in Htext; [|done].
  unfold authd_source_ip_is_valid, strlen. rewrite cstr_app_zero by done.
  destruct v as [|c v]; [done|]. rewrite zlen_cons in *. pose proof (zlen_nonneg v).
  rewrite (proj2 (Z.eqb_neq _ _)), (proj2 (Z.ltb_ge _ _)) by lia. cbn [orb].
  destruct Hip as [(a & s & -> & _)|(a & s & _ & -> & _)]; [done|]. by rewrite orb_true_r.
Qed.
End agreement.
