(* ===== verification/Limiter.v ===== *)
(** * Registration limiter

    [fortytwo-auth/src/authd_registration_limit.c]: a table of at most 1024
    source addresses, each with the number of registration attempts in its
    current window. The theorems view the table as a partial map from
    addresses to counters. *)

From S2P Require Import Prelude Protocol Words Utf8 Codec Inet.

Definition AUTHD_REGISTRATION_MIN_IP_ATTEMPTS : Z := 1.
Definition AUTHD_REGISTRATION_MAX_IP_ATTEMPTS : Z := 100.
Definition AUTHD_REGISTRATION_DEFAULT_IP_ATTEMPTS : Z := 3.
Definition AUTHD_REGISTRATION_MIN_IP_WINDOW_SECONDS : Z := 1.
Definition AUTHD_REGISTRATION_MAX_IP_WINDOW_SECONDS : Z := 86400.
Definition AUTHD_REGISTRATION_DEFAULT_IP_WINDOW_SECONDS : Z := 900.
Definition AUTHD_REGISTRATION_IP_LIMIT_CAPACITY : Z := 1024.
Definition AUTHD_REGISTRATION_ADDRESS_BYTES : Z := 16.

Record authd_registration_limit_policy := LimitPolicy {
  attempts_max : Z;
  window_seconds : Z;
}.

Record authd_registration_limit_entry := LimitEntry {
  in_use : bool;
  address_family : Z;
  address : list Z;
  attempts : Z;
  window_started_seconds : Z;
}.

Record authd_registration_limiter := Limiter {
  policy : authd_registration_limit_policy;
  entries : list authd_registration_limit_entry;
}.

Inductive authd_registration_limit_result :=
| AUTHD_REGISTRATION_LIMIT_ALLOWED
| AUTHD_REGISTRATION_LIMIT_RATE_LIMITED
| AUTHD_REGISTRATION_LIMIT_CAPACITY
| AUTHD_REGISTRATION_LIMIT_INVALID_ARGUMENT.

#[export] Instance limit_result_eq_dec : EqDecision authd_registration_limit_result.
Proof. solve_decision. Defined.

Definition authd_registration_limit_policy_defaults
    (policy : option authd_registration_limit_policy) : option authd_registration_limit_policy :=
  match policy with
  | None => None
  | Some _ =>
      Some (LimitPolicy AUTHD_REGISTRATION_DEFAULT_IP_ATTEMPTS
              AUTHD_REGISTRATION_DEFAULT_IP_WINDOW_SECONDS)
  end.

Definition authd_registration_limit_policy_is_valid
    (policy : option authd_registration_limit_policy) : bool :=
  match policy with
  | None => false
  | Some p =>
      (AUTHD_REGISTRATION_MIN_IP_ATTEMPTS <=? attempts_max p)
      && (attempts_max p <=? AUTHD_REGISTRATION_MAX_IP_ATTEMPTS)
      && (AUTHD_REGISTRATION_MIN_IP_WINDOW_SECONDS <=? window_seconds p)
      && (window_seconds p <=? AUTHD_REGISTRATION_MAX_IP_WINDOW_SECONDS)
  end.

(** [memset] of an entry and of a limiter. *)
Definition zero_entry : authd_registration_limit_entry :=
  LimitEntry false 0 (replicate (Z.to_nat AUTHD_REGISTRATION_ADDRESS_BYTES) 0) 0 0.

Definition zero_limiter : authd_registration_limiter :=
  Limiter (LimitPolicy 0 0)
    (replicate (Z.to_nat AUTHD_REGISTRATION_IP_LIMIT_CAPACITY) zero_entry).

Definition authd_registration_limiter_init (limiter : option authd_registration_limiter)
    (policy : option authd_registration_limit_policy)
    : bool * option authd_registration_limiter :=
  match limiter, policy with
  | Some _, Some p =>
      if negb (authd_registration_limit_policy_is_valid policy) then (false, limiter)
      else (true, Some (Limiter p (entries zero_limiter)))
  | _, _ => (false, limiter)
  end.

Definition authd_registration_limiter_clear (limiter : option authd_registration_limiter)
    : option authd_registration_limiter :=
  match limiter with
  | Some _ => Some zero_limiter
  | None => None
  end.

Section inet.
Context `{Inet}.

(** A successful [inet_pton]: compare the printed form and copy [size] bytes. *)
Definition accept_address (family size : Z) (binary source_ip : list Z) (address : list Z)
    (address_family : option Z) : run (bool * option Z * ptr) :=
  match inet_ntop family binary INET6_ADDRSTRLEN with
  | None => Some (false, address_family, Some address)
  | Some canonical =>
      if negb (streq source_ip canonical) then Some (false, address_family, Some address)
      else
        let! data := buf_read binary 0 size in
        let! address := buf_write address 0 data in
        Some (true, Some family, Some address)
  end.

Definition parse_canonical_ip (source_ip : ptr) (address_family : option Z) (address : ptr)
    : run (bool * option Z * ptr) :=
  match source_ip with
  | None => Some (false, address_family, address)
  | Some source =>
      let! first := buf_get source 0 in
      match first =? 0, address_family, address with
      | false, Some _, Some out =>
          let! out := buf_write out 0
            (replicate (Z.to_nat AUTHD_REGISTRATION_ADDRESS_BYTES) 0) in
          match inet_pton AF_INET (cstr source) with
          | Some address4 =>
              accept_address AF_INET IN_ADDR_SIZE address4 source out address_family
          | None =>
              match inet_pton AF_INET6 (cstr source) with
              | Some address6 =>
                  accept_address AF_INET6 IN6_ADDR_SIZE address6 source out address_family
              | None => Some (false, address_family, Some out)
              end
          end
      | _, _, _ => Some (false, address_family, address)
      end
  end.

Definition entry_is_expired (entry : authd_registration_limit_entry)
    (now_seconds window_seconds : Z) : bool :=
  if negb (in_use entry) then false
  else if now_seconds <? window_started_seconds entry then true
  else window_seconds <=? now_seconds - window_started_seconds entry.

Definition entry_retry_after (entry : authd_registration_limit_entry)
    (now_seconds window_seconds : Z) : Z :=
  if now_seconds <? window_started_seconds entry then 1
  else
    let elapsed := now_seconds - window_started_seconds entry in
    if window_seconds <=? elapsed then 1
    else
      let remaining := window_seconds - elapsed in
      if remaining =? 0 then 1
      else if UINT32_MAX <? remaining then UINT32_MAX
      else u32 remaining.

(** The locals of the scan: pointers to entries are indices. *)
Record scan := Scan {
  sc_entries : list authd_registration_limit_entry;
  sc_matching : option Z;
  sc_free_entry : option Z;
  sc_earliest_retry : Z;
}.

Definition scan_entry (window_seconds now_seconds family : Z) (address' : list Z)
    (index : Z) (s : scan) : run (ctl scan Empty_set) :=
  let! entry := arr_get (sc_entries s) index in
  let entry :=
    if entry_is_expired entry now_seconds window_seconds then zero_entry else entry in
  let! es := arr_set (sc_entries s) index entry in
  if negb (in_use entry) then
    let free := match sc_free_entry s with None => Some index | Some f => Some f end in
    Some (Continue (Scan es (sc_matching s) free (sc_earliest_retry s)))
  else if (address_family entry =? family) && bool_decide (address entry = address') then
    Some (Break (Scan es (Some index) (sc_free_entry s) (sc_earliest_retry s)))
  else
    let retry := entry_retry_after entry now_seconds window_seconds in
    let earliest := if retry <? sc_earliest_retry s then retry else sc_earliest_retry s in
    Some (Continue (Scan es (sc_matching s) (sc_free_entry s) earliest)).

(** [if (retry_after_seconds != NULL) *retry_after_seconds = value;] *)
Definition store_retry (retry_after_seconds : option Z) (value : Z) : option Z :=
  match retry_after_seconds with Some _ => Some value | None => None end.

Definition authd_registration_limiter_record (limiter : option authd_registration_limiter)
    (source_ip : ptr) (now_seconds : Z) (retry_after_seconds : option Z)
    : run (authd_registration_limit_result * option authd_registration_limiter * option Z) :=
  let retry := store_retry retry_after_seconds 0 in
  match limiter with
  | None => Some (AUTHD_REGISTRATION_LIMIT_INVALID_ARGUMENT, limiter, retry)
  | Some l =>
      if negb (authd_registration_limit_policy_is_valid (Some (policy l)))
      then Some (AUTHD_REGISTRATION_LIMIT_INVALID_ARGUMENT, limiter, retry)
      else
        let! (parsed, family, address') :=
          parse_canonical_ip source_ip (Some 0)
            (Some (replicate (Z.to_nat AUTHD_REGISTRATION_ADDRESS_BYTES) 0)) in
        if negb parsed
        then Some (AUTHD_REGISTRATION_LIMIT_INVALID_ARGUMENT, limiter, retry)
        else
          let! family := deref family in
          let! address' := deref address' in
          let window := window_seconds (policy l) in
          let! c := for_range (Z.to_nat AUTHD_REGISTRATION_IP_LIMIT_CAPACITY) 0
            (scan_entry window now_seconds family address')
            (Scan (entries l) None None UINT32_MAX) in
          let s := ctl_value c in
          let es := sc_entries s in
          match sc_matching s with
          | Some m =>
              let! matching := arr_get es m in
              if attempts_max (policy l) <=? attempts matching then
                Some (AUTHD_REGISTRATION_LIMIT_RATE_LIMITED, Some (Limiter (policy l) es),
                      store_retry retry (entry_retry_after matching now_seconds window))
              else
                let! es := arr_set es m
                  (LimitEntry (in_use matching) (address_family matching) (address matching)
                     (u32 (attempts matching + 1)) (window_started_seconds matching)) in
                Some (AUTHD_REGISTRATION_LIMIT_ALLOWED, Some (Limiter (policy l) es), retry)
          | None =>
              match sc_free_entry s with
              | None =>
                  Some (AUTHD_REGISTRATION_LIMIT_CAPACITY, Some (Limiter (policy l) es),
                        store_retry retry
                          (if negb (sc_earliest_retry s =? UINT32_MAX)
                           then sc_earliest_retry s else 1))
              | Some f =>
                  let! es := arr_set es f (LimitEntry true family address' 1 now_seconds) in
                  Some (AUTHD_REGISTRATION_LIMIT_ALLOWED, Some (Limiter (policy l) es), retry)
              end
          end
  end.
End inet.

(** ** The table as a map *)

Abbreviation key := (Z * list Z)%type (only parsing).

Definition entry_key (e : authd_registration_limit_entry) : key :=
  (address_family e, address e).

Definition live (w now : Z) (e : authd_registration_limit_entry) : Prop :=
  in_use e = true ∧ entry_is_expired e now w = false.

#[export] Instance live_dec w now e : Decision (live w now e).
Proof. unfold live. apply _. Defined.

Definition counts (w now : Z) (k : key) (e : authd_registration_limit_entry) : Prop :=
  live w now e ∧ entry_key e = k.

#[export] Instance counts_dec w now k e : Decision (counts w now k e).
Proof. unfold counts. apply _. Defined.

(** The attempts and the start of the current window of an address. *)
Definition counter (l : authd_registration_limiter) (now : Z) (k : key) : option (Z * Z) :=
  match list_find (counts (window_seconds (policy l)) now k) (entries l) with
  | Some (_, e) => Some (attempts e, window_started_seconds e)
  | None => None
  end.

Record entry_ok (p : authd_registration_limit_policy) (now : Z)
    (e : authd_registration_limit_entry) : Prop := {
  entry_attempts : 1 <= attempts e <= attempts_max p;
  entry_started : 0 <= window_started_seconds e <= now;
}.

(** The invariant of a limiter whose last call was at [now] or before. *)
Record limiter_ok (now : Z) (l : authd_registration_limiter) : Prop := {
  limiter_policy : authd_registration_limit_policy_is_valid (Some (policy l)) = true;
  limiter_size : length (entries l) = Z.to_nat AUTHD_REGISTRATION_IP_LIMIT_CAPACITY;
  limiter_entries : ∀ i e, entries l !! i = Some e → in_use e = true → entry_ok (policy l) now e;
  limiter_unique : ∀ i j e f, entries l !! i = Some e → entries l !! j = Some f →
    in_use e = true → in_use f = true → entry_key e = entry_key f → i = j;
}.

(** A table full of other live addresses. *)
Definition full (l : authd_registration_limiter) (now : Z) : Prop :=
  Forall (live (window_seconds (policy l)) now) (entries l).

#[export] Instance full_dec l now : Decision (full l now).
Proof. unfold full. apply _. Defined.

(** ** The scan *)

Section scan.
Context (w now family : Z) (addr : list Z).

Definition clean (e : authd_registration_limit_entry) : authd_registration_limit_entry :=
  if entry_is_expired e now w then zero_entry else e.

Definition unused (e : authd_registration_limit_entry) : Prop := in_use e = false.

#[local] Instance unused_dec e : Decision (unused e).
Proof. unfold unused. apply _. Defined.

Definition shorter (acc : Z) (e : authd_registration_limit_entry) : Z :=
  if in_use e then Z.min (entry_retry_after e now w) acc else acc.

Definition earliest (es : list authd_registration_limit_entry) : Z :=
  fold_left shorter es UINT32_MAX.

Definition first_unused (es : list authd_registration_limit_entry) : option Z :=
  (λ f, Z.of_nat f.1) <$> list_find unused es.

Lemma clean_live e : live w now e ↔ in_use (clean e) = true.
Proof.
  unfold live, clean. destruct (entry_is_expired e now w) eqn:E; [|by split; [intros []|]].
  split; [by intros []|done].
Qed.

Lemma clean_id e : live w now e → clean e = e.
Proof. intros [_ He]. unfold clean. by rewrite He. Qed.

Lemma clean_unused e : in_use (clean e) = false ↔ ¬ live w now e.
Proof. rewrite clean_live. by rewrite not_true_iff_false. Qed.

Lemma first_unused_snoc es e :
  first_unused (es ++ [e]) =
    match first_unused es with
    | Some f => Some f
    | None => if in_use e then None else Some (zlen es)
    end.
Proof.
  unfold first_unused. destruct (list_find unused es) as [[i x]|] eqn:Hf.
  - by rewrite (list_find_app_l _ _ _ _ _ Hf).
  - rewrite list_find_app_r by done. cbn. destruct (decide (unused e)) as [Hu|Hu].
    + unfold unused in Hu. rewrite Hu. cbn. unfold zlen. do 2 f_equal.
    + apply not_false_iff_true in Hu. by rewrite Hu.
Qed.

Lemma earliest_snoc es e : earliest (es ++ [e]) = shorter (earliest es) e.
Proof. unfold earliest. by rewrite fold_left_app. Qed.

Lemma scan_entry_spec pre e rest :
  let es := map clean pre ++ e :: rest in
  let s := Scan es None (first_unused (map clean pre)) (earliest (map clean pre)) in
  let es' := map clean (pre ++ [e]) ++ rest in
  if decide (counts w now (family, addr) e) then
    ∃ s', scan_entry w now family addr (zlen pre) s = Some (Break s') ∧
      sc_entries s' = es' ∧ sc_matching s' = Some (zlen pre)
  else
    scan_entry w now family addr (zlen pre) s =
      Some (Continue (Scan es' None (first_unused (map clean (pre ++ [e])))
                        (earliest (map clean (pre ++ [e]))))).
Proof.
  intros es s es'. unfold scan_entry. cbn [sc_entries s].
  assert (length (map clean pre) = length pre) as Hlen by apply length_map.
  unfold es, zlen. rewrite arr_get_nat, lookup_app_r, Hlen, Nat.sub_diag by lia.
  cbn [lookup list_lookup]. run_simpl. fold (clean e).
  rewrite arr_set_nat by (rewrite length_app, Hlen; cbn; lia). run_simpl.
  assert (<[length pre:=clean e]> (map clean pre ++ e :: rest) = es') as ->.
  { rewrite insert_app_r_alt, Hlen, Nat.sub_diag by lia. unfold es'.
    by rewrite map_app, <- app_assoc. }
  rewrite map_app. cbn [map]. rewrite first_unused_snoc, earliest_snoc. unfold shorter.
  destruct (decide (counts w now (family, addr) e)) as [[Hl Hk]|Hn].
  - rewrite (clean_id e Hl). destruct Hl as [-> _]. cbn [negb]. injection Hk as -> ->.
    rewrite Z.eqb_refl, bool_decide_eq_true_2 by done. cbn [andb].
    eexists. split; [done|]. done.
  - destruct (in_use (clean e)) eqn:Hu; cbn [negb].
    + apply clean_live in Hu as Hl. rewrite (clean_id e Hl) in *.
      assert ((address_family e =? family) && bool_decide (address e = addr) = false) as ->.
      { apply not_true_iff_false. rewrite andb_true_iff, Z.eqb_eq, bool_decide_eq_true.
        intros [<- <-]. by destruct Hn. }
      do 3 f_equal; [by destruct (first_unused _)|].
      destruct (Z.ltb_spec (entry_retry_after e now w) (sc_earliest_retry s)); cbn in *; lia.
    + do 3 f_equal. rewrite <- Hlen. unfold zlen. by destruct (first_unused _).
Qed.

Lemma scan_loop rest pre :
  ∃ s, for_range (length rest) (zlen pre) (scan_entry w now family addr)
         (Scan (map clean pre ++ rest) None (first_unused (map clean pre))
            (earliest (map clean pre))) = Some (Break s) ∧
    match list_find (counts w now (family, addr)) rest with
    | Some (k, _) => sc_matching s = Some (zlen pre + Z.of_nat k) ∧
        sc_entries s = map clean (pre ++ take (S k) rest) ++ drop (S k) rest
    | None => s = Scan (map clean (pre ++ rest)) None (first_unused (map clean (pre ++ rest)))
                    (earliest (map clean (pre ++ rest)))
    end.
Proof.
  revert pre. induction rest as [|e rest IH]; intros pre; cbn [for_range length list_find].
  { eexists. split; [done|]. by rewrite !app_nil_r. }
  pose proof (scan_entry_spec pre e rest) as Hstep. cbv zeta in Hstep.
  destruct (decide (counts w now (family, addr) e)).
  - destruct Hstep as (s' & -> & He & Hm). run_simpl. exists s'. split; [done|].
    rewrite Hm, He, Z.add_0_r. done.
  - rewrite Hstep. run_simpl. replace (zlen pre + 1) with (zlen (pre ++ [e])) by (by rewrite zlen_app).
    destruct (IH (pre ++ [e])) as (s & -> & Hs). exists s. split; [done|].
    destruct (list_find _ rest) as [[k x]|]; cbn.
    + destruct Hs as [-> ->]. rewrite zlen_app. change (zlen [e]) with 1.
      rewrite <- app_assoc. split; [f_equal; lia|done].
    + by rewrite <- app_assoc in Hs.
Qed.
End scan.

(** ** Lemmas on the table *)

Section table.
Context (p : authd_registration_limit_policy).

#[local] Abbreviation counter_in es := (counter (Limiter p es)) (only parsing).

Lemma counter_Some es now t k n s :
  limiter_ok now (Limiter p es) →
  counter_in es t k = Some (n, s) ↔
  ∃ i e, es !! i = Some e ∧ counts (window_seconds p) t k e ∧
    attempts e = n ∧ window_started_seconds e = s.
Proof.
  intros Hok. unfold counter. cbn.
  destruct (list_find _ es) as [[i e]|] eqn:Hf.
  - apply list_find_Some in Hf as (Hi & He & _). split.
    + intros [= <- <-]. by exists i, e.
    + intros (j & f & Hj & Hc & <- & <-). destruct He as [[Hu _] Hk], Hc as [[Hu' _] Hk'].
      assert (i = j) as ->; [|congruence].
      eapply (limiter_unique _ _ Hok); [exact Hi|exact Hj|done..|congruence].
  - apply list_find_None in Hf. split; [done|]. intros (j & f & Hj & Hc & _).
    by apply (Forall_lookup_1 _ _ _ _ Hf) in Hj.
Qed.

Lemma counter_None es t k :
  counter_in es t k = None ↔
  ∀ i e, es !! i = Some e → ¬ counts (window_seconds p) t k e.
Proof.
  unfold counter. cbn. destruct (list_find _ es) as [[i e]|] eqn:Hf.
  - apply list_find_Some in Hf as (Hi & He & _). split; [done|]. intros Hn. by destruct (Hn i e).
  - apply list_find_None in Hf. split; [|done]. intros _ i e Hi.
    by apply (Forall_lookup_1 _ _ _ _ Hf) in Hi.
Qed.

(** Tables with the same live entries at [t] have the same counters. *)
Lemma counter_ext es es' now now' t k :
  limiter_ok now (Limiter p es) → limiter_ok now' (Limiter p es') →
  (∀ n s, (∃ i e, es !! i = Some e ∧ counts (window_seconds p) t k e ∧
             attempts e = n ∧ window_started_seconds e = s) ↔
          (∃ i e, es' !! i = Some e ∧ counts (window_seconds p) t k e ∧
             attempts e = n ∧ window_started_seconds e = s)) →
  counter_in es t k = counter_in es' t k.
Proof.
  intros H1 H2 Heq. apply option_eq. intros [n s].
  rewrite (counter_Some es now), (counter_Some es' now') by done. apply Heq.
Qed.

(** *** Cleaning *)

Definition partly_clean (now : Z) (es es' : list authd_registration_limit_entry) : Prop :=
  length es' = length es ∧
  ∀ i e, es !! i = Some e → es' !! i = Some (clean (window_seconds p) now e) ∨ es' !! i = Some e.

Lemma partly_clean_split now pre post :
  partly_clean now (pre ++ post) (map (clean (window_seconds p) now) pre ++ post).
Proof.
  split; [by rewrite !length_app, length_map|]. intros i e Hi.
  destruct (decide (i < length pre)%nat).
  - left. rewrite lookup_app_l in Hi by done. rewrite lookup_app_l by (by rewrite length_map).
    by rewrite list_lookup_fmap, Hi.
  - right. rewrite lookup_app_r in Hi by lia. rewrite lookup_app_r by (rewrite length_map; lia).
    by rewrite length_map.
Qed.

Lemma clean_zero now : clean (window_seconds p) now zero_entry = zero_entry.
Proof. done. Qed.

Lemma clean_in_use now e :
  in_use (clean (window_seconds p) now e) = true → clean (window_seconds p) now e = e.
Proof. unfold clean. by destruct (entry_is_expired _ _ _). Qed.

(** An entry that expired stays expired: the clock does not go back. *)
Lemma expired_later e now t :
  window_started_seconds e <= now → now <= t →
  entry_is_expired e now (window_seconds p) = true →
  entry_is_expired e t (window_seconds p) = true.
Proof. unfold entry_is_expired. repeat case_if; intros; bools; try done; lia. Qed.

Lemma counts_clean e now t k :
  (in_use e = true → window_started_seconds e <= now) → now <= t →
  counts (window_seconds p) t k (clean (window_seconds p) now e) ↔
  counts (window_seconds p) t k e.
Proof.
  intros Hs Ht. unfold clean. destruct (entry_is_expired e now (window_seconds p)) eqn:E; [|done].
  split; [by intros [[]]|]. intros [[Hu He] _]. by rewrite (expired_later e now t) in He by auto.
Qed.

Lemma partly_clean_lookup now es es' i e' :
  partly_clean now es es' → es' !! i = Some e' → in_use e' = true → es !! i = Some e'.
Proof.
  intros [Hlen Hc] Hi Hu. destruct (lookup_lt_is_Some_2 es i) as [e He].
  { rewrite <- Hlen. by eapply lookup_lt_Some. }
  destruct (Hc i e He) as [Hi'|Hi']; rewrite Hi in Hi'; injection Hi' as ->; [|done].
  by rewrite clean_in_use.
Qed.

Lemma partly_clean_ok now es es' :
  partly_clean now es es' → limiter_ok now (Limiter p es) → limiter_ok now (Limiter p es').
Proof.
  intros Hc [Hp Hs He Hu]. split; cbn in *; [done|by rewrite (proj1 Hc)| |].
  - intros i e Hi Hin. apply (He i); [|done]. by eapply partly_clean_lookup.
  - intros i j e f Hi Hj Hei Hfj Hk. eapply (Hu i j e f); try done; by eapply partly_clean_lookup.
Qed.

Lemma partly_clean_counter now es es' t k :
  partly_clean now es es' → limiter_ok now (Limiter p es) → now <= t →
  counter_in es' t k = counter_in es t k.
Proof.
  intros Hc Hok Ht. apply (counter_ext _ _ now now); [by eapply partly_clean_ok|done|].
  intros n s. split.
  - intros (i & e & Hi & Hcnt & Hr). exists i, e. split; [|done].
    eapply partly_clean_lookup; [done|done|apply Hcnt].
  - intros (i & e & Hi & Hcnt & Hr). exists i.
    assert (counts (window_seconds p) t k (clean (window_seconds p) now e)) as Hcnt'.
    { apply counts_clean; [|done|done]. intros Hin.
      apply (limiter_entries _ _ Hok i e Hi Hin). }
    destruct (proj2 Hc i e Hi) as [Hi'|Hi']; eexists; split; try exact Hi'; try done.
    rewrite clean_in_use in * by apply Hcnt'. done.
Qed.

(** *** Changing one entry *)

Lemma update_ok now es m old new :
  limiter_ok now (Limiter p es) → es !! m = Some old → entry_ok p now new →
  (∀ j e, es !! j = Some e → in_use e = true → entry_key e = entry_key new → j = m) →
  limiter_ok now (Limiter p (<[m := new]> es)).
Proof.
  intros [Hp Hs He Hu] Hm Hnew Hkey. apply lookup_lt_Some in Hm as Hlt.
  split; cbn in *; [done|by rewrite length_insert| |].
  - intros i e Hi Hin. destruct (decide (i = m)) as [->|Hne].
    + rewrite list_lookup_insert_eq in Hi by done. by injection Hi as <-.
    + rewrite list_lookup_insert_ne in Hi by done. by apply (He i).
  - intros i j e f Hi Hj Hei Hfj Hk.
    apply list_lookup_insert_Some in Hi as [(<- & <- & _)|[Hi' Hi]];
      apply list_lookup_insert_Some in Hj as [(<- & <- & _)|[Hj' Hj]]; [done|..].
    + symmetry. by eapply Hkey.
    + by eapply Hkey.
    + by eapply Hu.
Qed.

Lemma update_counter_same now es m old new t :
  limiter_ok now (Limiter p (<[m := new]> es)) → es !! m = Some old →
  live (window_seconds p) t new →
  counter_in (<[m := new]> es) t (entry_key new) =
    Some (attempts new, window_started_seconds new).
Proof.
  intros Hok Hm Hl. apply lookup_lt_Some in Hm. apply (counter_Some _ now); [done|].
  exists m, new. by rewrite list_lookup_insert_eq.
Qed.

Lemma update_counter_other now es m old new t k :
  limiter_ok now (Limiter p es) → limiter_ok now (Limiter p (<[m := new]> es)) →
  es !! m = Some old → in_use old = false ∨ entry_key old = entry_key new →
  k ≠ entry_key new → counter_in (<[m := new]> es) t k = counter_in es t k.
Proof.
  intros Hok Hok' Hm Hold Hk. apply lookup_lt_Some in Hm as Hlt.
  apply (counter_ext _ _ now now); [done|done|]. intros n s. split.
  - intros (i & e & Hi & Hcnt & Hr). exists i, e. split; [|done].
    destruct (decide (i = m)) as [->|Hne]; [|by rewrite list_lookup_insert_ne in Hi].
    rewrite list_lookup_insert_eq in Hi by done. injection Hi as <-. by destruct Hcnt as [_ <-].
  - intros (i & e & Hi & Hcnt & Hr). exists i, e. split; [|done].
    destruct (decide (i = m)) as [->|Hne]; [|by rewrite list_lookup_insert_ne].
    rewrite Hm in Hi. injection Hi as <-. destruct Hcnt as [[Hu _] <-].
    destruct Hold; congruence.
Qed.
End table.

(** ** Recording an attempt *)

Section record.
Context `{InetLaws}.

(** [text] is what [inet_ntop] prints for the address. *)
Definition printed_as (family : Z) (text a : list Z) : bool :=
  match inet_ntop family a INET6_ADDRSTRLEN with
  | Some s => bool_decide (cstr s = text)
  | None => false
  end.

(** The table key of a source address, if the text is the canonical form of one. *)
Definition canonical_key (text : list Z) : option key :=
  let padded a := a ++ replicate (Z.to_nat AUTHD_REGISTRATION_ADDRESS_BYTES - length a) 0 in
  if bool_decide (text = []) then None
  else
    match inet_pton AF_INET text with
    | Some a => if printed_as AF_INET text a then Some (AF_INET, padded a) else None
    | None =>
        match inet_pton AF_INET6 text with
        | Some a => if printed_as AF_INET6 text a then Some (AF_INET6, padded a) else None
        | None => None
        end
    end.

Lemma accept_address_spec family size a text rest fam0 :
  zlen a = size → size <= AUTHD_REGISTRATION_ADDRESS_BYTES → Forall (λ b, b ≠ 0) text →
  ∃ b fam addr,
    accept_address family size a (text ++ 0 :: rest)
      (replicate (Z.to_nat AUTHD_REGISTRATION_ADDRESS_BYTES) 0) fam0 = Some (b, fam, Some addr) ∧
    if printed_as family text a
    then b = true ∧ fam = Some family ∧
      addr = a ++ replicate (Z.to_nat AUTHD_REGISTRATION_ADDRESS_BYTES - length a) 0
    else b = false.
Proof.
  intros Hsize Hmax Hnz. unfold accept_address, printed_as. pose proof (zlen_nonneg a).
  destruct (inet_ntop family a INET6_ADDRSTRLEN) as [s|]; [|by eexists _, _, _].
  unfold streq. rewrite cstr_app_zero by done.
  destruct (bool_decide (cstr s = text)) eqn:E.
  - apply bool_decide_eq_true in E. rewrite bool_decide_eq_true_2 by done. cbn [negb].
    change AUTHD_REGISTRATION_ADDRESS_BYTES with 16 in *. change (Z.to_nat 16) with 16%nat.
    rewrite buf_read_in by lia. run_simpl. change (Z.to_nat 0) with 0%nat.
    rewrite drop_0, take_ge by (unfold zlen in Hsize; lia).
    rewrite buf_write_in; [|lia|change (zlen (replicate 16 0)) with 16; lia]. run_simpl.
    eexists _, _, _. split; [done|]. split; [done|]. split; [done|].
    change (Z.to_nat 0) with 0%nat. rewrite take_0, app_nil_l, Nat.add_0_l. f_equal.
    apply drop_replicate.
  - apply bool_decide_eq_false in E. rewrite bool_decide_eq_false_2 by congruence.
    by eexists _, _, _.
Qed.

Lemma parse_canonical_ip_spec text rest :
  Forall (λ b, b ≠ 0) text →
  ∃ b fam addr,
    parse_canonical_ip (Some (text ++ 0 :: rest)) (Some 0)
      (Some (replicate (Z.to_nat AUTHD_REGISTRATION_ADDRESS_BYTES) 0)) = Some (b, fam, Some addr) ∧
    match canonical_key text with
    | Some (f, a) => b = true ∧ fam = Some f ∧ addr = a
    | None => b = false
    end.
Proof.
  intros Hnz. unfold parse_canonical_ip, canonical_key.
  rewrite cstr_app_zero by done.
  destruct text as [|c text]; [by eexists _, _, _|].
  apply Forall_cons_1 in Hnz as Hc. destruct Hc as [Hc _].
  change (buf_get ((c :: text) ++ 0 :: rest) 0) with (Some c). run_simpl.
  rewrite (proj2 (Z.eqb_neq _ _)) by done.
  change AUTHD_REGISTRATION_ADDRESS_BYTES with 16. change (Z.to_nat 16) with 16%nat.
  change (buf_write (replicate 16 0) 0 (replicate 16 0)) with (Some (replicate 16 0)). run_simpl.
  rewrite bool_decide_eq_false_2 by done.
  destruct (inet_pton AF_INET (c :: text)) as [a|] eqn:Ha.
  - apply inet_pton_in_addr in Ha.
    destruct (accept_address_spec AF_INET IN_ADDR_SIZE a (c :: text) rest (Some 0))
      as (b & fam & addr & Hrun & Hres); [done|done|done|].
    exists b, fam, addr. split; [exact Hrun|]. by destruct (printed_as _ _ _).
  - destruct (inet_pton AF_INET6 (c :: text)) as [a|] eqn:Ha6; [|by eexists _, _, _].
    apply inet_pton_in6_addr in Ha6.
    destruct (accept_address_spec AF_INET6 IN6_ADDR_SIZE a (c :: text) rest (Some 0))
      as (b & fam & addr & Hrun & Hres); [done|done|done|].
    exists b, fam, addr. split; [exact Hrun|]. by destruct (printed_as _ _ _).
Qed.

(** *** The result of the scan *)

Lemma scan_result now l k :
  limiter_ok now l →
  let w := window_seconds (policy l) in
  ∃ s, for_range (R := Empty_set) (Z.to_nat AUTHD_REGISTRATION_IP_LIMIT_CAPACITY) 0
         (scan_entry w now k.1 k.2) (Scan (entries l) None None UINT32_MAX) = Some (Break s) ∧
    partly_clean (policy l) now (entries l) (sc_entries s) ∧
    match counter l now k with
    | Some (n, st) => ∃ m e, sc_matching s = Some (Z.of_nat m) ∧ sc_entries s !! m = Some e ∧
        counts w now k e ∧ attempts e = n ∧ window_started_seconds e = st
    | None => sc_matching s = None ∧
        sc_entries s = map (clean w now) (entries l) ∧
        sc_free_entry s = first_unused (map (clean w now) (entries l)) ∧
        sc_earliest_retry s = earliest w now (map (clean w now) (entries l))
    end.
Proof.
  intros Hok w. rewrite <- (limiter_size _ _ Hok). destruct k as [family addr]. cbn [fst snd].
  destruct (scan_loop w now family addr (entries l) []) as (s & Hrun & Hs).
  cbn [app map] in *. change (zlen []) with 0 in *.
  exists s. split; [exact Hrun|]. unfold counter. fold w.
  destruct (list_find _ (entries l)) as [[m e]|] eqn:Hf.
  - destruct Hs as [Hm He]. apply list_find_Some in Hf as (Hlk & Hc & _).
    rewrite He. split.
    + rewrite <- (take_drop (S m) (entries l)) at 1. apply partly_clean_split.
    + exists m, e. split; [rewrite Hm; f_equal; lia|]. apply lookup_lt_Some in Hlk as Hlt.
      rewrite lookup_app_l by (rewrite length_map, length_take; lia).
      rewrite list_lookup_fmap, lookup_take_lt, Hlk by lia. cbn.
      rewrite clean_id by apply Hc. done.
  - rewrite Hs. cbn. split; [|done].
    pose proof (partly_clean_split (policy l) now (entries l) []) as Hp.
    by rewrite !app_nil_r in Hp.
Qed.

Lemma retry_live w now e :
  live w now e → 1 <= w <= AUTHD_REGISTRATION_MAX_IP_WINDOW_SECONDS →
  0 <= window_started_seconds e <= now →
  entry_retry_after e now w = window_started_seconds e + w - now ∧
  1 <= entry_retry_after e now w <= w.
Proof.
  change AUTHD_REGISTRATION_MAX_IP_WINDOW_SECONDS with 86400. intros [Hu He] Hw Hst.
  revert He. unfold entry_is_expired, entry_retry_after. rewrite Hu. cbn [negb].
  repeat case_if; intros; bools; unfold UINT32_MAX in *; try lia.
  unfold u32. rewrite wrap_fits; unfold fits; change (2 ^ 32) with 4294967296; lia.
Qed.

(** Without an unused entry the table is full, and the earliest retry is the
    shortest remaining window. *)
Lemma earliest_live w now es acc :
  Forall (live w now) es → 1 <= w <= AUTHD_REGISTRATION_MAX_IP_WINDOW_SECONDS →
  Forall (λ e, 0 <= window_started_seconds e <= now) es →
  (es ≠ [] ∨ 1 <= acc <= w) →
  1 <= acc → 1 <= fold_left (shorter w now) es acc <= w.
Proof.
  change AUTHD_REGISTRATION_MAX_IP_WINDOW_SECONDS with 86400.
  intros Hl Hw. revert acc. induction Hl as [|e es [Hu He] Hes IH]; intros acc Hs Hor Hacc; cbn.
  { by destruct Hor. }
  apply Forall_cons_1 in Hs as [Hst Hs].
  destruct (retry_live w now e) as [_ Hr]; [done|done|done|].
  replace (shorter w now acc e) with (Z.min (entry_retry_after e now w) acc)
    by (unfold shorter; by rewrite Hu).
  apply IH; [done|right; lia|lia].
Qed.

Definition policy_range (p : authd_registration_limit_policy) : Prop :=
  1 <= attempts_max p <= 100 ∧ 1 <= window_seconds p <= 86400.

Lemma policy_valid_range p :
  authd_registration_limit_policy_is_valid (Some p) = true ↔ policy_range p.
Proof.
  unfold authd_registration_limit_policy_is_valid, policy_range.
  rewrite !andb_true_iff, !Z.leb_le. unfold AUTHD_REGISTRATION_MIN_IP_ATTEMPTS,
    AUTHD_REGISTRATION_MAX_IP_ATTEMPTS, AUTHD_REGISTRATION_MIN_IP_WINDOW_SECONDS,
    AUTHD_REGISTRATION_MAX_IP_WINDOW_SECONDS. lia.
Qed.

Lemma limiter_ok_later now now' l : limiter_ok now l → now <= now' → limiter_ok now' l.
Proof.
  intros [Hp Hs He Hu] Hle. split; [done|done| |done].
  intros i e Hi Hin. destruct (He i e Hi Hin). split; lia.
Qed.

(** What a call at [now] with the address [k] answers and stores. *)
Inductive recorded (now : Z) (l : authd_registration_limiter) (k : key)
    : authd_registration_limit_result → authd_registration_limiter → Z → Prop :=
| recorded_again n st l' :
    counter l now k = Some (n, st) → n < attempts_max (policy l) →
    counter l' now k = Some (n + 1, st) →
    recorded now l k AUTHD_REGISTRATION_LIMIT_ALLOWED l' 0
| recorded_first l' :
    counter l now k = None → ¬ full l now → counter l' now k = Some (1, now) →
    recorded now l k AUTHD_REGISTRATION_LIMIT_ALLOWED l' 0
| recorded_limited n st l' r :
    counter l now k = Some (n, st) → attempts_max (policy l) <= n →
    counter l' now k = Some (n, st) →
    r = st + window_seconds (policy l) - now → 1 <= r <= window_seconds (policy l) →
    recorded now l k AUTHD_REGISTRATION_LIMIT_RATE_LIMITED l' r
| recorded_full l' r :
    counter l now k = None → full l now → counter l' now k = None →
    1 <= r <= window_seconds (policy l) →
    recorded now l k AUTHD_REGISTRATION_LIMIT_CAPACITY l' r.

(** The table after the scan has an unused entry unless it is full. *)
Lemma first_unused_spec w now es :
  match first_unused (map (clean w now) es) with
  | Some f => ∃ m e, f = Z.of_nat m ∧ map (clean w now) es !! m = Some e ∧ in_use e = false ∧
      ¬ Forall (live w now) es
  | None => Forall (live w now) es
  end.
Proof.
  unfold first_unused. destruct (list_find unused _) as [[m e]|] eqn:Hf; cbn.
  - apply list_find_Some in Hf as (Hm & He & _). exists m, e.
    split; [done|]. split; [done|]. split; [done|]. intros Hall.
    rewrite list_lookup_fmap in Hm. destruct (es !! m) as [e'|] eqn:Hm'; [|done].
    injection Hm as <-. apply (Forall_lookup_1 _ _ _ _ Hall) in Hm'.
    apply clean_live in Hm'. unfold unused in He. congruence.
  - apply list_find_None in Hf. rewrite List.Forall_map in Hf. eapply Forall_impl; [exact Hf|].
    intros e He. apply clean_live. unfold unused in He. cbn in He. by destruct (in_use _).
Qed.

Lemma record_spec now l text rest k retry0 :
  limiter_ok now l → fits 64 now → Forall (λ b, b ≠ 0) text → canonical_key text = Some k →
  ∃ r l' retry,
    authd_registration_limiter_record (Some l) (Some (text ++ 0 :: rest)) now (Some retry0)
      = Some (r, Some l', Some retry) ∧
    policy l' = policy l ∧ limiter_ok now l' ∧ recorded now l k r l' retry ∧
    ∀ t k', now <= t → k' ≠ k → counter l' t k' = counter l t k'.
Proof.
  intros Hok Hnow Hnz Hk. unfold authd_registration_limiter_record.
  rewrite (limiter_policy _ _ Hok). cbn [negb].
  destruct (parse_canonical_ip_spec text rest Hnz) as (b & fam & addr & -> & Hparse).
  rewrite Hk in Hparse. destruct k as [f a]. destruct Hparse as (-> & -> & ->).
  run_simpl. cbn [negb]. unfold deref. run_simpl.
  destruct (scan_result now l (f, a) Hok) as (s & Hrun & Hclean & Hs). cbn [fst snd] in Hrun.
  rewrite Hrun. run_simpl. cbn [ctl_value].
  pose proof (limiter_policy _ _ Hok) as Hpol. apply policy_valid_range in Hpol as Hrange.
  unfold policy_range in Hrange.
  destruct l as [p es]. cbn [policy entries] in *.
  pose proof (partly_clean_ok p now _ _ Hclean Hok) as Hok'.
  assert (∀ t k', now <= t → counter (Limiter p (sc_entries s)) t k' = counter (Limiter p es) t k')
    as Hsame by (intros t k' Ht; by apply (partly_clean_counter p now)).
  destruct (counter (Limiter p es) now (f, a)) as [[n st]|] eqn:Hc.
  - destruct Hs as (m & e & -> & Hm & [Hlive Hkey] & <- & <-).
    rewrite arr_get_nat, Hm. run_simpl.
    destruct (limiter_entries _ _ Hok' m e Hm (proj1 Hlive)) as [Hatt Hst]. cbn in Hatt.
    destruct (attempts_max p <=? attempts e) eqn:Hmax; bools.
    + eexists _, (Limiter p (sc_entries s)), _. split; [done|]. split; [done|]. split; [done|].
      split; [|intros t k' Ht _; by apply Hsame].
      destruct (retry_live (window_seconds p) now e) as [Hr1 Hr2]; [done|apply Hrange|done|].
      eapply recorded_limited; [done|done|by rewrite Hsame by lia|cbn; lia|done].
    + set (e' := LimitEntry (in_use e) (address_family e) (address e) (u32 (attempts e + 1))
                   (window_started_seconds e)).
      assert (attempts e' = attempts e + 1) as Hatt'.
      { cbn. apply wrap_fits. unfold fits. destruct Hrange as [? _].
        change (2 ^ 32) with 4294967296. lia. }
      assert (limiter_ok now (Limiter p (<[m := e']> (sc_entries s)))) as Hnew.
      { eapply update_ok; [exact Hok'|exact Hm|split; [rewrite Hatt'; lia|done]|].
        intros j g Hj Hg Hkg. eapply (limiter_unique _ _ Hok'); [exact Hj|exact Hm|done|apply Hlive|done]. }
      rewrite arr_set_nat by (by eapply lookup_lt_Some). run_simpl.
      eexists _, (Limiter p (<[m := e']> (sc_entries s))), _.
      split; [done|]. split; [done|]. split; [done|]. split.
      * eapply recorded_again; [done|done|]. rewrite <- Hatt', <- Hkey.
        exact (update_counter_same p now (sc_entries s) m e e' now Hnew Hm Hlive).
      * intros t k' Ht Hne. rewrite <- Hsame by done.
        apply (update_counter_other p now _ m e); [done|done|done|by right|].
        by rewrite <- Hkey in Hne.
  - destruct Hs as (-> & Hes & Hfree & Hearly). rewrite Hfree, Hearly.
    pose proof (first_unused_spec (window_seconds p) now es) as Hunused.
    destruct (first_unused _) as [fr|].
    + destruct Hunused as (m & e & -> & Hm & He & Hnfull). rewrite <- Hes in Hm.
      rewrite arr_set_nat by (by eapply lookup_lt_Some). run_simpl.
      set (e' := LimitEntry true f a 1 now).
      assert (limiter_ok now (Limiter p (<[m := e']> (sc_entries s)))) as Hnew.
      { eapply update_ok; [exact Hok'|exact Hm|split; cbn; unfold fits in Hnow; lia|].
        intros j g Hj Hg Hkg. exfalso.
        assert (counter (Limiter p (sc_entries s)) now (f, a) = None) as Hnone by (by rewrite Hsame).
        eapply (counter_None p); [exact Hnone|exact Hj|]. split; [|done]. split; [done|].
        rewrite Hes in Hj. rewrite list_lookup_fmap in Hj.
        destruct (es !! j) as [g'|]; [|done]. injection Hj as <-.
        apply (clean_live (window_seconds p)) in Hg. rewrite clean_id by done. apply Hg. }
      eexists _, (Limiter p (<[m := e']> (sc_entries s))), _.
      split; [done|]. split; [done|]. split; [done|]. split.
      * apply recorded_first; [done|done|].
        apply (update_counter_same p now _ m e); [done|done|].
        split; [done|]. unfold entry_is_expired. cbn. rewrite Z.ltb_irrefl.
        apply Z.leb_gt. lia.
      * intros t k' Ht Hne. rewrite <- Hsame by done.
        by apply (update_counter_other p now _ m e); [| | |left|].
    + eexists _, (Limiter p (sc_entries s)), _.
      split; [done|]. split; [done|]. split; [done|].
      split; [|intros t k' Ht _; by apply Hsame].
      apply recorded_full; [done|done|by rewrite Hsame by lia|].
      assert (1 <= earliest (window_seconds p) now (map (clean (window_seconds p) now) es)
                <= window_seconds p) as Hb.
      { replace (map (clean (window_seconds p) now) es) with es.
        2:{ clear -Hunused. induction Hunused as [|e es He Hes IH]; [done|]. cbn.
            by rewrite clean_id, <- IH. }
        apply earliest_live; [done|apply Hrange| |left|done].
        - apply Forall_lookup_2. intros i e Hi.
          apply (limiter_entries _ _ Hok i e Hi). by apply (Forall_lookup_1 _ _ _ _ Hunused Hi).
        - intros ->. by pose proof (limiter_size _ _ Hok). }
      rewrite (proj2 (Z.eqb_neq _ _)); [done|]. unfold UINT32_MAX. cbn [policy] in *. lia.
Qed.

(** Of a counter, a later time leaves what has not expired. *)
Lemma counter_later now t l k :
  limiter_ok now l → now <= t →
  counter l t k =
    match counter l now k with
    | Some (n, st) => if st + window_seconds (policy l) <=? t then None else Some (n, st)
    | None => None
    end.
Proof.
  intros Hok Ht. destruct l as [p es].
  destruct (counter (Limiter p es) now k) as [[n st]|] eqn:Hc.
  - apply (counter_Some p es now) in Hc as (i & e & Hi & [[Hu He] Hk] & <- & <-); [|done].
    pose proof (limiter_entries _ _ Hok i e Hi Hu) as [_ Hst].
    assert (entry_is_expired e t (window_seconds p) =
            (window_started_seconds e + window_seconds p <=? t)) as Hexp.
    { unfold entry_is_expired. rewrite Hu, (proj2 (Z.ltb_ge _ _)) by lia. cbn [negb].
      apply eq_true_iff_eq. rewrite !Z.leb_le. lia. }
    cbn [policy]. destruct (_ <=? t).
    + apply (counter_None p). intros j f Hj [[Hfu Hfe] Hfk].
      assert (j = i) as -> by (eapply (limiter_unique _ _ Hok); [exact Hj|exact Hi|done..|congruence]).
      congruence.
    + apply (counter_Some p es t); [by eapply limiter_ok_later|].
      exists i, e. split; [done|]. by split.
  - apply (counter_None p). intros i e Hi [[Hu He] Hk].
    eapply (counter_None p) in Hc; [|exact Hi]. apply Hc. split; [|done]. split; [done|].
    destruct (entry_is_expired e now (window_seconds p)) eqn:E; [|done].
    rewrite (expired_later p e now t) in He; [done|apply (limiter_entries _ _ Hok i e Hi Hu)|done|done].
Qed.

Lemma record_invalid now l text rest retry0 :
  limiter_ok now l → Forall (λ b, b ≠ 0) text → canonical_key text = None →
  authd_registration_limiter_record (Some l) (Some (text ++ 0 :: rest)) now (Some retry0)
    = Some (AUTHD_REGISTRATION_LIMIT_INVALID_ARGUMENT, Some l, Some 0).
Proof.
  intros Hok Hnz Hk. unfold authd_registration_limiter_record.
  rewrite (limiter_policy _ _ Hok). cbn [negb].
  destruct (parse_canonical_ip_spec text rest Hnz) as (b & fam & addr & -> & Hparse).
  rewrite Hk in Hparse. by rewrite Hparse.
Qed.

(** *** Calls on any table *)

(** The pointers of a scan lead into the table. *)
Definition scan_in_range (s : scan) : Prop :=
  length (sc_entries s) = Z.to_nat AUTHD_REGISTRATION_IP_LIMIT_CAPACITY ∧
  (∀ m, sc_matching s = Some m → 0 <= m < AUTHD_REGISTRATION_IP_LIMIT_CAPACITY) ∧
  (∀ f, sc_free_entry s = Some f → 0 <= f < AUTHD_REGISTRATION_IP_LIMIT_CAPACITY).

Lemma arr_get_size {A} (l : list A) i :
  length l = Z.to_nat AUTHD_REGISTRATION_IP_LIMIT_CAPACITY →
  0 <= i < AUTHD_REGISTRATION_IP_LIMIT_CAPACITY → is_Some (arr_get l i).
Proof.
  intros Hl Hi. replace i with (Z.of_nat (Z.to_nat i)) by lia. rewrite arr_get_nat.
  apply lookup_lt_is_Some. lia.
Qed.

Lemma arr_set_size {A} (l : list A) i v :
  length l = Z.to_nat AUTHD_REGISTRATION_IP_LIMIT_CAPACITY →
  0 <= i < AUTHD_REGISTRATION_IP_LIMIT_CAPACITY →
  ∃ l', arr_set l i v = Some l' ∧ length l' = Z.to_nat AUTHD_REGISTRATION_IP_LIMIT_CAPACITY.
Proof.
  intros Hl Hi. replace i with (Z.of_nat (Z.to_nat i)) by lia. rewrite arr_set_nat by lia.
  eexists. split; [done|]. by rewrite length_insert.
Qed.

Lemma scan_entry_in_range w now f a i s :
  scan_in_range s → 0 <= i < AUTHD_REGISTRATION_IP_LIMIT_CAPACITY →
  ∃ c, scan_entry w now f a i s = Some c ∧
    match c with Continue s | Break s => scan_in_range s | Return _ => False end.
Proof.
  intros (Hl & Hm & Hf) Hi. unfold scan_entry.
  destruct (arr_get_size (sc_entries s) i Hl Hi) as [e ->]. run_simpl.
  set (e' := if entry_is_expired e now w then zero_entry else e).
  destruct (arr_set_size (sc_entries s) i e' Hl Hi) as (es & -> & Hes). run_simpl.
  repeat case_if; (eexists; split; [reflexivity|]); split_and!; try done; cbn.
  - intros f'. destruct (sc_free_entry s); intros [= <-]; auto.
  - by intros m [= <-].
Qed.

Lemma parse_runs text :
  0 < zlen text →
  ∃ b fam addr, parse_canonical_ip (Some text) (Some 0)
    (Some (replicate (Z.to_nat AUTHD_REGISTRATION_ADDRESS_BYTES) 0)) = Some (b, Some fam, Some addr).
Proof.
  intros Htext. unfold parse_canonical_ip.
  change AUTHD_REGISTRATION_ADDRESS_BYTES with 16. change (Z.to_nat 16) with 16%nat.
  destruct (buf_get_in text 0) as [c ->]; [lia|]. run_simpl.
  destruct (c =? 0); [by eexists _, _, _|].
  change (buf_write (replicate 16 0) 0 (replicate 16 0)) with (Some (replicate 16 0)). run_simpl.
  assert (∀ family size a, zlen a = size → size <= 16 →
    ∃ b fam addr, accept_address family size a text (replicate 16 0) (Some 0)
      = Some (b, Some fam, Some addr)) as Haccept.
  { intros family size a Ha Hmax. unfold accept_address. pose proof (zlen_nonneg a).
    destruct (inet_ntop _ _ _); [|by eexists _, _, _]. case_if; [by eexists _, _, _|].
    rewrite buf_read_in by lia. run_simpl. rewrite buf_write_in; [|lia|].
    - by eexists _, _, _.
    - rewrite Z.add_0_l. unfold zlen in *. rewrite length_take. change (length (replicate 16 0)) with 16%nat. lia. }
  destruct (inet_pton AF_INET _) as [a|] eqn:Ha.
  - by apply inet_pton_in_addr in Ha; apply Haccept.
  - destruct (inet_pton AF_INET6 _) as [a|] eqn:Ha6; [|by eexists _, _, _].
    by apply inet_pton_in6_addr in Ha6; apply Haccept.
Qed.

(** [authd_registration_limiter_record] stays in its table whatever the table
    and the source address contain. *)
Lemma record_runs l text now retry0 :
  length (entries l) = Z.to_nat AUTHD_REGISTRATION_IP_LIMIT_CAPACITY → 0 < zlen text →
  ∃ r l' retry,
    authd_registration_limiter_record (Some l) (Some text) now (Some retry0)
      = Some (r, Some l', Some retry) ∧
    length (entries l') = Z.to_nat AUTHD_REGISTRATION_IP_LIMIT_CAPACITY ∧ policy l' = policy l.
Proof.
  intros Hl Htext. unfold authd_registration_limiter_record.
  destruct (negb _); [by eexists _, _, _|].
  destruct (parse_runs text Htext) as (b & fam & addr & ->).
  run_simpl. destruct (negb b); [by eexists _, _, _|]. unfold deref. run_simpl.
  destruct (for_range_keeps (R := Empty_set) scan_in_range (λ _, False)
    (scan_entry (window_seconds (policy l)) now fam addr)
    (Z.to_nat AUTHD_REGISTRATION_IP_LIMIT_CAPACITY) 0
    (Scan (entries l) None None UINT32_MAX)) as (c & -> & Hc).
  { by split_and!. }
  { intros j s Hj Hs.
    destruct (scan_entry_in_range (window_seconds (policy l)) now fam addr j s) as (c & -> & Hc);
      [done|lia|]. eexists. split; [done|]. by destruct c. }
  run_simpl. destruct c as [s|s|[]]; cbn [ctl_value]; destruct Hc as (Hes & Hm & Hf).
  all: destruct (sc_matching s) as [m|]; [|destruct (sc_free_entry s) as [f|]].
  all: try (destruct (arr_get_size (sc_entries s) m Hes) as [e ->]; [auto|]; run_simpl; case_if).
  all: try (edestruct (arr_set_size (sc_entries s)) as (es & -> & Hes'); [done|eauto|]; run_simpl).
  all: by eexists _, _, _.
Qed.

Definition fresh (p : authd_registration_limit_policy) : authd_registration_limiter :=
  Limiter p (entries zero_limiter).

Lemma fresh_ok now p :
  0 <= now → policy_range p → limiter_ok now (fresh p) ∧ ∀ t k, counter (fresh p) t k = None.
Proof.
  intros Hnow Hp.
  assert (∀ i e, replicate (Z.to_nat AUTHD_REGISTRATION_IP_LIMIT_CAPACITY) zero_entry !! i
    = Some e → in_use e = false) as Hz by (by intros i e [-> _]%lookup_replicate).
  split.
  - split; cbn; [by apply policy_valid_range|apply length_replicate| |].
    + intros i e Hi Hu. apply Hz in Hi. congruence.
    + intros i j e f Hi _ Hu. apply Hz in Hi. congruence.
  - intros t k. apply (counter_None p). intros i e Hi [[Hu _] _]. apply Hz in Hi. congruence.
Qed.

(** ** Properties *)

(** C27: A limiter set up with a valid policy satisfies the invariant and knows no
    address. Every call of [authd_registration_limiter_record] at the same or a
    later time is never stuck, keeps the invariant, and behaves as a map from
    addresses to counters: within the window it counts up to the limit and then
    refuses, an unknown or expired address starts a new window unless the table
    is full of live addresses, and no other address is affected, now or later. *)
Theorem limiter_record_correct now l text rest retry0 :
  limiter_ok now l → fits 64 now → Forall (λ b, b ≠ 0) text →
  (∀ p l0, authd_registration_limit_policy_is_valid (Some p) = true →
     ∃ l1, authd_registration_limiter_init (Some l0) (Some p) = (true, Some l1) ∧
       policy l1 = p ∧ limiter_ok 0 l1 ∧ ∀ t k, counter l1 t k = None) ∧
  ∃ r l' retry,
    authd_registration_limiter_record (Some l) (Some (text ++ 0 :: rest)) now (Some retry0)
      = Some (r, Some l', Some retry) ∧
    policy l' = policy l ∧ limiter_ok now l' ∧
    match canonical_key text with
    | Some k => recorded now l k r l' retry ∧
        ∀ t k', now <= t → k' ≠ k → counter l' t k' = counter l t k'
    | None => r = AUTHD_REGISTRATION_LIMIT_INVALID_ARGUMENT ∧ l' = l
    end.
Proof.
  intros Hok Hnow Hnz. split.
  - intros p l0 Hp. unfold authd_registration_limiter_init. rewrite Hp. cbn [negb].
    exists (fresh p). split; [done|]. split; [done|].
    apply fresh_ok; [done|]. by apply policy_valid_range.
  - destruct (canonical_key text) as [k|] eqn:Hk.
    + destruct (record_spec now l text rest k retry0) as (r & l' & retry & Hrun & Hpol & Hok' & Hrec & Hother);
        [done..|]. by exists r, l', retry.
    + eexists _, l, _. rewrite record_invalid by done. done.
Qed.

(** The waiting time that a refused client is told is exact: after a refusal at
    [now] with [r] seconds, the address is refused at every time before
    [now + r] and admitted at every time from [now + r] on. *)
Theorem limiter_retry_exact now l text rest retry0 l' r t :
  limiter_ok now l → fits 64 now → Forall (λ b, b ≠ 0) text →
  authd_registration_limiter_record (Some l) (Some (text ++ 0 :: rest)) now (Some retry0)
    = Some (AUTHD_REGISTRATION_LIMIT_RATE_LIMITED, Some l', Some r) →
  now <= t → fits 64 t →
  1 <= r <= window_seconds (policy l) ∧
  ∃ l'' r',
    authd_registration_limiter_record (Some l') (Some (text ++ 0 :: rest)) t (Some retry0)
      = Some (if t <? now + r then AUTHD_REGISTRATION_LIMIT_RATE_LIMITED
              else AUTHD_REGISTRATION_LIMIT_ALLOWED, Some l'', Some r').
Proof.
  intros Hok Hnow Hnz Hrun Ht Hfits.
  destruct (canonical_key text) as [k|] eqn:Hk.
  2:{ rewrite record_invalid in Hrun by done. discriminate. }
  destruct (record_spec now l text rest k retry0) as (r1 & l1 & retry & Hrun1 & Hpol & Hok1 & Hrec & _);
    [done..|].
  rewrite Hrun1 in Hrun. injection Hrun as -> -> ->.
  inversion Hrec as [| |n st l2 r2 Hc Hmax Hc' Hr Hbounds|]; subst. split; [done|].
  assert (counter l' t k = if t <? now + (st + window_seconds (policy l) - now)
                           then Some (n, st) else None) as Hct.
  { rewrite (counter_later now t l' k Hok1 Ht), Hc', Hpol.
    destruct (Z.leb_spec (st + window_seconds (policy l)) t), (Z.ltb_spec t (now + (st + window_seconds (policy l) - now)));
      done || lia. }
  pose proof (limiter_ok_later now t l' Hok1 Ht) as Hokt.
  destruct (record_spec t l' text rest k retry0) as (r3 & l3 & retry3 & Hrun3 & _ & _ & Hrec3 & _);
    [done..|].
  exists l3, retry3. rewrite Hrun3. destruct (t <? _) eqn:E.
  - inversion Hrec3; subst; try done; rewrite Hct in *; simplify_eq. rewrite Hpol in *. lia.
  - inversion Hrec3 as [| | |l4 r4 Hn Hfull]; subst; try done; exfalso.
    + rewrite Hct in *. simplify_eq.
    + apply (counter_Some (policy l') (entries l') now) in Hc'; [|by destruct l'].
      destruct Hc' as (i & e & Hi & [_ Hek] & _).
      apply (Forall_lookup_1 _ _ _ _ Hfull) in Hi as Hlive.
      assert (counter l' t k ≠ None) as Hne; [|done].
      intros Hnone. destruct l' as [p es]. eapply (counter_None p) in Hnone; [|exact Hi].
      by apply Hnone.
Qed.

(** A sequence of calls: the time and the source address of each. *)
Fixpoint record_all (l : authd_registration_limiter) (calls : list (Z * list Z))
    : run (list (list Z * authd_registration_limit_result) * authd_registration_limiter) :=
  match calls with
  | [] => Some ([], l)
  | (now, text) :: calls =>
      let! (r, l, _) :=
        authd_registration_limiter_record (Some l) (Some (text ++ [0])) now (Some 0) in
      let! l := deref l in
      let! (rs, l) := record_all l calls in
      Some ((text, r) :: rs, l)
  end.

(** The number of attempts that were admitted for an address. *)
Definition admitted (text : list Z) (rs : list (list Z * authd_registration_limit_result)) : Z :=
  zlen (filter (λ c, c = (text, AUTHD_REGISTRATION_LIMIT_ALLOWED)) rs).

(** Calls at times between [from] and [to] that do not go back. *)
Fixpoint in_order (from to : Z) (calls : list (Z * list Z)) : Prop :=
  match calls with
  | [] => True
  | (now, text) :: calls =>
      from <= now < to ∧ fits 64 now ∧ Forall (λ b, b ≠ 0) text ∧ in_order now to calls
  end.

(** What an address can still be admitted before [start + window]: its current
    window and, if that began before [start], one more. *)
Definition budget (l : authd_registration_limiter) (start now : Z) (k : key) : Z :=
  let a := attempts_max (policy l) in
  match counter l now k with
  | Some (n, st) => if start <=? st then a - n else 2 * a - n
  | None => a
  end.

Lemma counter_attempts now l k n st :
  limiter_ok now l → counter l now k = Some (n, st) →
  1 <= n <= attempts_max (policy l) ∧ 0 <= st <= now.
Proof.
  intros Hok Hc. destruct l as [p es]. apply (counter_Some p es now) in Hc; [|done].
  destruct Hc as (i & e & Hi & [[Hu _] _] & <- & <-).
  destruct (limiter_entries _ _ Hok i e Hi Hu). done.
Qed.

Lemma budget_later now t l start k :
  limiter_ok now l → now <= t < start + window_seconds (policy l) →
  budget l start t k <= budget l start now k.
Proof.
  intros Hok Ht. unfold budget. rewrite (counter_later now t l k) by (done || lia).
  destruct (counter l now k) as [[n st]|] eqn:Hc; [|lia].
  destruct (counter_attempts now l k n st Hok Hc).
  destruct (Z.leb_spec (st + window_seconds (policy l)) t), (Z.leb_spec start st); lia.
Qed.

Lemma budget_nonneg now l start k : limiter_ok now l → 0 <= budget l start now k.
Proof.
  intros Hok. unfold budget. pose proof (limiter_policy _ _ Hok) as Hp.
  apply policy_valid_range in Hp. destruct Hp as [Hp _].
  destruct (counter l now k) as [[n st]|] eqn:Hc; [|lia].
  destruct (counter_attempts now l k n st Hok Hc). case_if; lia.
Qed.

Lemma recorded_budget now l k r l' retry start :
  limiter_ok now l → policy l' = policy l → start <= now → recorded now l k r l' retry →
  (if bool_decide (r = AUTHD_REGISTRATION_LIMIT_ALLOWED) then 1 else 0) + budget l' start now k
    <= budget l start now k.
Proof.
  intros Hok Hpol Hs Hrec. unfold budget. rewrite Hpol.
  destruct Hrec as [n st l' Hc Hn Hc'|l' Hc Hnf Hc'|n st l' r Hc Hn Hc' Hr Hb|l' r Hc Hf Hc' Hb];
    rewrite Hc, Hc'; case_bool_decide; try done; repeat case_if; bools; lia.
Qed.

Lemma record_all_budget calls from l start text k :
  limiter_ok from l → start <= from → Forall (λ b, b ≠ 0) text → canonical_key text = Some k →
  in_order from (start + window_seconds (policy l)) calls →
  ∃ rs l', record_all l calls = Some (rs, l') ∧ policy l' = policy l ∧
    admitted text rs <= budget l start from k.
Proof.
  intros Hok Hstart Hnz Hk. revert from l Hok Hstart.
  induction calls as [|[now txt] calls IH]; intros from l Hok Hstart Hord.
  { exists [], l. split; [done|]. split; [done|]. by apply budget_nonneg. }
  destruct Hord as (Hnow & Hfits & Htxt & Hord). cbn [record_all].
  pose proof (limiter_ok_later from now l Hok ltac:(lia)) as Hok'.
  pose proof (budget_later from now l start k Hok Hnow) as Hlater.
  destruct (canonical_key txt) as [k'|] eqn:Hk'.
  - destruct (record_spec now l txt [] k' 0) as (r & l1 & retry & -> & Hpol & Hok1 & Hrec & Hother);
      [done..|]. unfold deref. run_simpl.
    destruct (IH now l1) as (rs & l2 & -> & Hpol2 & Hadm); [done|lia|by rewrite Hpol|].
    run_simpl. eexists _, l2. split; [done|]. split; [congruence|].
    assert ((if bool_decide ((txt, r) = (text, AUTHD_REGISTRATION_LIMIT_ALLOWED)) then 1 else 0)
            + budget l1 start now k <= budget l start now k) as Hstep.
    { destruct (decide (k' = k)) as [->|Hne].
      - pose proof (recorded_budget now l k r l1 retry start Hok' Hpol ltac:(lia) Hrec) as Hb.
        revert Hb. repeat case_bool_decide; simplify_eq; try lia; done.
      - rewrite bool_decide_eq_false_2 by (intros [= -> ->]; congruence).
        unfold budget. rewrite Hother, Hpol by (done || lia). lia. }
    unfold admitted in *. rewrite filter_cons. case_bool_decide as Hd.
    + rewrite decide_True by done. rewrite zlen_cons. lia.
    + rewrite decide_False by done. lia.
  - rewrite record_invalid by done. unfold deref. run_simpl.
    destruct (IH now l) as (rs & l2 & -> & Hpol2 & Hadm); [done|lia|done|].
    run_simpl. eexists _, l2. split; [done|]. split; [done|].
    unfold admitted in *. rewrite filter_cons, decide_False by (by intros [=]). lia.
Qed.

(** C40: The limiter limits: however calls from any addresses are interleaved, within
    any period as long as the window at most twice the configured number of
    attempts is admitted for an address (one window may end and one begin in
    it), and at most the configured number if the address was not yet counted
    when the period began. *)
Theorem limiter_bound l start calls text k :
  limiter_ok start l → Forall (λ b, b ≠ 0) text → canonical_key text = Some k →
  in_order start (start + window_seconds (policy l)) calls →
  ∃ rs l', record_all l calls = Some (rs, l') ∧
    admitted text rs <= 2 * attempts_max (policy l) ∧
    (counter l start k = None → admitted text rs <= attempts_max (policy l)).
Proof.
  intros Hok Hnz Hk Hord.
  destruct (record_all_budget calls start l start text k) as (rs & l' & Hrun & _ & Hb); [done..|].
  exists rs, l'. split; [done|]. unfold budget in Hb.
  pose proof (limiter_policy _ _ Hok) as Hp. apply policy_valid_range in Hp. destruct Hp as [Hp _].
  destruct (counter l start k) as [[n st]|] eqn:Hc.
  - destruct (counter_attempts start l k n st Hok Hc). split; [|done]. revert Hb. case_if; lia.
  - split; [lia|done].
Qed.
End record.

(** ** Concrete limiters *)

Definition one_attempt : authd_registration_limit_policy := LimitPolicy 1 900.

Definition one_entry : authd_registration_limit_entry :=
  LimitEntry true AF_INET ([192; 0; 2; 10] ++ replicate 12 0) 1 100.

Definition one_limiter : authd_registration_limiter :=
  Limiter one_attempt (<[0%nat := one_entry]> (entries zero_limiter)).

Lemma one_attempt_range : policy_range one_attempt.
Proof. unfold policy_range. cbn. lia. Qed.

Lemma one_limiter_ok now : 100 <= now → limiter_ok now one_limiter.
Proof.
  intros Hnow. destruct (fresh_ok now one_attempt) as [Hok _]; [lia|apply one_attempt_range|].
  eapply (update_ok one_attempt now _ 0%nat zero_entry); [exact Hok|done|split; cbn; lia|].
  intros j e [-> _]%lookup_replicate Hu. done.
Qed.

Lemma limiter_record_correct_witness :
  (∀ p l0, authd_registration_limit_policy_is_valid (Some p) = true →
     ∃ l1, authd_registration_limiter_init (Some l0) (Some p) = (true, Some l1) ∧
       policy l1 = p ∧ limiter_ok 0 l1 ∧ ∀ t k, counter l1 t k = None) ∧
  ∃ r l' retry,
    @authd_registration_limiter_record dotted_quad (Some one_limiter)
      (Some (lit "192.0.2.77" ++ 0 :: [])) 150 (Some 9) = Some (r, Some l', Some retry) ∧
    policy l' = one_attempt ∧ limiter_ok 150 l' ∧
    match @canonical_key dotted_quad (lit "192.0.2.77") with
    | Some k => recorded 150 one_limiter k r l' retry ∧
        ∀ t k', 150 <= t → k' ≠ k → counter l' t k' = counter one_limiter t k'
    | None => r = AUTHD_REGISTRATION_LIMIT_INVALID_ARGUMENT ∧ l' = one_limiter
    end.
Proof.
  apply (@limiter_record_correct dotted_quad dotted_quad_laws 150 one_limiter
           (lit "192.0.2.77") [] 9).
  - apply one_limiter_ok. lia.
  - by unfold fits.
  - apply (bool_decide_unpack _). vm_compute. exact I.
Defined.

Lemma limiter_retry_exact_witness :
  1 <= 850 <= 900 ∧
  ∃ l'' r',
    @authd_registration_limiter_record dotted_quad (Some one_limiter)
      (Some (lit "192.0.2.10" ++ 0 :: [])) 1000 (Some 9)
    = Some (if 1000 <? 150 + 850 then AUTHD_REGISTRATION_LIMIT_RATE_LIMITED
            else AUTHD_REGISTRATION_LIMIT_ALLOWED, Some l'', Some r').
Proof.
  apply (@limiter_retry_exact dotted_quad dotted_quad_laws 150 one_limiter
           (lit "192.0.2.10") [] 9 one_limiter 850 1000).
  - apply one_limiter_ok. lia.
  - by unfold fits.
  - apply (bool_decide_unpack _). vm_compute. exact I.
  - vm_compute. reflexivity.
  - lia.
  - by unfold fits.
Defined.

Lemma limiter_bound_witness :
  let calls := [(150, lit "192.0.2.10"); (200, lit "192.0.2.77"); (1000, lit "192.0.2.10");
                (1049, lit "192.0.2.10")] in
  ∃ rs l', @record_all dotted_quad one_limiter calls = Some (rs, l') ∧
    admitted (lit "192.0.2.10") rs <= 2 * 1 ∧
    (counter one_limiter 150 (AF_INET, [192; 0; 2; 10] ++ replicate 12 0) = None →
     admitted (lit "192.0.2.10") rs <= 1).
Proof.
  apply (@limiter_bound dotted_quad dotted_quad_laws one_limiter 150
    [(150, lit "192.0.2.10"); (200, lit "192.0.2.77"); (1000, lit "192.0.2.10");
     (1049, lit "192.0.2.10")] (lit "192.0.2.10") (AF_INET, [192; 0; 2; 10] ++ replicate 12 0)).
  - apply one_limiter_ok. lia.
  - apply (bool_decide_unpack _). vm_compute. exact I.
  - vm_compute. reflexivity.
  - cbn. unfold fits.
    repeat split; try lia; apply (bool_decide_unpack _); vm_compute; exact I.
Defined.
