(* ===== verification/Validation.v ===== *)
(** * Database validation

    [fortytwo-auth/src/authd_database_validation.c]: the migrations the binary
    requires and the identity of the connection. The text written to the error
    buffer is represented by its format and arguments. *)

From S2P Require Import Prelude Protocol.

Definition AUTHD_DATABASE_REQUIRED_ROLE : list Z := lit "fortytwo_authd".
Definition AUTHD_DATABASE_MIN_SERVER_VERSION_NUM : Z := 170000.
Definition AUTHD_DATABASE_REQUIRED_MIGRATION_COUNT : Z := 9.
Definition AUTHD_DATABASE_REQUIRED_HIGHEST_MIGRATION : Z := 9.

Record authd_migration_record := MigrationRecord {
  mig_version : Z;
  mig_name : ptr;
  mig_checksum : ptr;
}.

Definition required_migrations : list authd_migration_record :=
  [MigrationRecord 1 (Some (lit "0001_identity_and_terminal_sessions.sql"))
     (Some (lit "6b019da94bb5bb48ba90d8ba9f2be1bff1c72781e41b332b63cee482c4851b37"));
   MigrationRecord 2 (Some (lit "0002_runtime_privileges.sql"))
     (Some (lit "14ba5df3fe9563ba919d248c82fd0ae765686bbe0bff93bf1b8a475480bb6314"));
   MigrationRecord 3 (Some (lit "0003_schema_migration_history.sql"))
     (Some (lit "320e49d6a0750a866ffba83c88e8b9f6c649f30ac7eb03ed2314705c22bba00b"));
   MigrationRecord 4 (Some (lit "0004_authd_schema_history_read.sql"))
     (Some (lit "5e6bd5fe7bf2ebaaffa49674185d6d3b3b613f7047a47041806ec3b16a9c2f9c"));
   MigrationRecord 5 (Some (lit "0005_login_name_policy.sql"))
     (Some (lit "8a272139d18764ad7ec75a91e1aab841047059610886bfd3429b0f6198551002"));
   MigrationRecord 6 (Some (lit "0006_authorization_revision.sql"))
     (Some (lit "0492f1763633aa87737cbea1b0456c9521e35adce9257af86534ef84896b1d1c"));
   MigrationRecord 7 (Some (lit "0007_legacy_mbse_binding.sql"))
     (Some (lit "e52dda0b652b47c93faeeb31a7cf4f0b467f0a3136241b5888641929e470fda3"));
   MigrationRecord 8 (Some (lit "0008_transport_capabilities.sql"))
     (Some (lit "59fd903315fa67bbeb5d6357c4aa48b1d0d29a396d3b54598768368f267fe4b2"));
   MigrationRecord 9 (Some (lit "0009_telnet_registration.sql"))
     (Some (lit "e6a2c4f44460de538e6d6846bae333228793c539776ed6112d06993e4a060547"))].

(** The messages of [set_error]: one constructor per format string. *)
Inductive message :=
| IDENTITY_INCOMPLETE
| ROLE_MISMATCH (current_user : list Z)
| DATABASE_MISMATCH (current expected : list Z)
| SERVER_TOO_OLD (server_version_num : Z)
| CONNECTION_READ_ONLY
| MIGRATIONS_MISSING
| MIGRATION_COUNT (actual_count expected_count : Z)
| MIGRATION_INCOMPLETE (row : Z)
| MIGRATION_VERSION (row actual expected : Z)
| MIGRATION_NAME (version : Z) (actual expected : list Z)
| MIGRATION_CHECKSUM (version : Z).

(** The error buffer: its size and the text in it, [None] being the empty string. *)
Record error_buffer := ErrorBuffer {
  error_size : Z;
  error_text : option message;
}.

Definition set_error (error : option error_buffer) (text : message) : option error_buffer :=
  match error with
  | Some e => if error_size e =? 0 then error else Some (ErrorBuffer (error_size e) (Some text))
  | None => None
  end.

(** [if (error != NULL && error_size > 0) error[0] = '\0';] *)
Definition clear_error (error : option error_buffer) : option error_buffer :=
  match error with
  | Some e => if 0 <? error_size e then Some (ErrorBuffer (error_size e) None) else error
  | None => None
  end.

Definition authd_database_required_migrations (count : option Z)
    : list authd_migration_record * option Z :=
  (required_migrations,
   match count with Some _ => Some (zlen required_migrations) | None => None end).

Definition authd_database_validate_identity (current_user current_database : ptr)
    (server_version_num : Z) (transaction_read_only : bool) (expected_database : ptr)
    (error : option error_buffer) : bool * option error_buffer :=
  let error := clear_error error in
  match current_user, current_database, expected_database with
  | Some user, Some database, Some expected =>
      if negb (streq user AUTHD_DATABASE_REQUIRED_ROLE)
      then (false, set_error error (ROLE_MISMATCH (cstr user)))
      else if negb (streq database expected)
      then (false, set_error error (DATABASE_MISMATCH (cstr database) (cstr expected)))
      else if server_version_num <? AUTHD_DATABASE_MIN_SERVER_VERSION_NUM
      then (false, set_error error (SERVER_TOO_OLD server_version_num))
      else if transaction_read_only
      then (false, set_error error CONNECTION_READ_ONLY)
      else (true, error)
  | _, _, _ => (false, set_error error IDENTITY_INCOMPLETE)
  end.

(** The loop body of [authd_database_validate_migrations]. *)
Definition validate_migration (actual expected : list authd_migration_record)
    (error : option error_buffer) (index : Z) (s : unit)
    : run (ctl unit (bool * option error_buffer)) :=
  let! a := arr_get actual index in
  let! e := arr_get expected index in
  let fail text := Some (Return (false, set_error error text)) in
  match mig_name a, mig_checksum a with
  | Some a_name, Some a_checksum =>
      if negb (mig_version a =? mig_version e)
      then fail (MIGRATION_VERSION (index + 1) (mig_version a) (mig_version e))
      else
        let! e_name := deref (mig_name e) in
        if negb (streq a_name e_name)
        then fail (MIGRATION_NAME (mig_version e) (cstr a_name) (cstr e_name))
        else
          let! e_checksum := deref (mig_checksum e) in
          if negb (streq a_checksum e_checksum)
          then fail (MIGRATION_CHECKSUM (mig_version e))
          else Some (Continue s)
  | _, _ => fail (MIGRATION_INCOMPLETE (index + 1))
  end.

Definition authd_database_validate_migrations (actual : option (list authd_migration_record))
    (actual_count : Z) (error : option error_buffer) : run (bool * option error_buffer) :=
  let error := clear_error error in
  let (expected, expected_count) := authd_database_required_migrations (Some 0) in
  let! expected_count := deref expected_count in
  if is_null actual && negb (actual_count =? 0)
  then Some (false, set_error error MIGRATIONS_MISSING)
  else if negb (actual_count =? expected_count)
  then Some (false, set_error error (MIGRATION_COUNT actual_count expected_count))
  else
    let! actual := deref actual in
    let! c := for_range (Z.to_nat expected_count) 0 (validate_migration actual expected error) tt in
    match c with
    | Return r => Some r
    | _ => Some (true, error)
    end.

(** ** Properties *)

(** A row as a database stores it: the C strings before their terminators. *)
Definition row_of (r : authd_migration_record) : Z * option (list Z) * option (list Z) :=
  (mig_version r, cstr <$> mig_name r, cstr <$> mig_checksum r).

Lemma validate_migration_spec actual expected error (k : nat) a e :
  actual !! k = Some a → expected !! k = Some e →
  is_Some (mig_name e) → is_Some (mig_checksum e) →
  ∃ text, validate_migration actual expected error (Z.of_nat k) tt =
    Some (if bool_decide (row_of a = row_of e) then Continue tt
          else Return (false, set_error error text)).
Proof.
  intros Ha He [n Hn] [c Hc]. unfold validate_migration, row_of.
  rewrite !arr_get_nat, Ha, He. run_simpl. rewrite Hn, Hc. unfold deref. run_simpl. cbn [fmap option_fmap option_map].
  destruct (mig_name a) as [an|]; [|eexists; by rewrite bool_decide_eq_false_2 by done].
  destruct (mig_checksum a) as [ac|]; [|eexists; by rewrite bool_decide_eq_false_2 by done].
  cbn [fmap option_fmap option_map].
  destruct (Z.eqb_spec (mig_version a) (mig_version e)) as [Hv|Hv]; cbn [negb].
  2:{ eexists. by rewrite bool_decide_eq_false_2 by congruence. }
  destruct (streq an n) eqn:En; cbn [negb].
  2:{ eexists. rewrite bool_decide_eq_false_2; [done|]. intros [= ? Hs ?].
      apply streq_spec in Hs. congruence. }
  destruct (streq ac c) eqn:Ec; cbn [negb].
  2:{ eexists. rewrite bool_decide_eq_false_2; [done|]. intros [= ? ? Hs].
      apply streq_spec in Hs. congruence. }
  exists IDENTITY_INCOMPLETE. apply streq_spec in En, Ec.
  rewrite bool_decide_eq_true_2 by congruence. done.
Qed.

Lemma validate_migration_loop actual expected error n k :
  length actual = length expected → (k + n = length expected)%nat →
  (∀ e, e ∈ expected → is_Some (mig_name e) ∧ is_Some (mig_checksum e)) →
  ∃ text, for_range n (Z.of_nat k) (validate_migration actual expected error) tt =
    Some (if bool_decide (map row_of (drop k actual) = map row_of (drop k expected)) then Break tt
          else Return (false, set_error error text)).
Proof.
  intros Hlen Hk Hsome. revert k Hk. induction n as [|n IH]; intros k Hk; cbn [for_range].
  { exists IDENTITY_INCOMPLETE. rewrite !drop_ge by lia. by rewrite bool_decide_eq_true_2. }
  destruct (lookup_lt_is_Some_2 actual k) as [a Ha]; [lia|].
  destruct (lookup_lt_is_Some_2 expected k) as [e He]; [lia|].
  destruct (Hsome e (list_elem_of_lookup_2 _ _ _ He)) as [Hn Hc].
  destruct (validate_migration_spec actual expected error k a e Ha He Hn Hc) as [text ->].
  rewrite (drop_S _ _ _ Ha), (drop_S _ _ _ He). cbn [map].
  destruct (bool_decide_reflect (row_of a = row_of e)) as [Heq|Hne]; run_simpl.
  - replace (Z.of_nat k + 1) with (Z.of_nat (S k)) by lia.
    destruct (IH (S k) ltac:(lia)) as [text' ->]. exists text'. rewrite Heq.
    by rewrite (bool_decide_ext (row_of e :: _ = _ :: _) (map row_of (drop (S k) actual)
      = map row_of (drop (S k) expected))) by (split; congruence).
  - exists text. rewrite bool_decide_eq_false_2; [done|]. congruence.
Qed.

(** [authd_database_validate_migrations] is never stuck on [actual_count] rows
    and accepts exactly the nine registered migrations, in order, with their
    versions, names and checksums; a rejection leaves a message in a buffer of
    nonzero size. *)
Theorem validate_migrations_correct actual error :
  ∃ b error', authd_database_validate_migrations (Some actual) (zlen actual) error
      = Some (b, error') ∧
    (b = true ↔ map row_of actual = map row_of required_migrations) ∧
    (b = true → error' = clear_error error) ∧
    (b = false → ∀ e, error = Some e → 0 < error_size e → ∃ e' text,
       error' = Some e' ∧ error_text e' = Some text).
Proof.
  assert (∀ text e, error = Some e → 0 < error_size e → ∃ e' text',
    set_error (clear_error error) text = Some e' ∧ error_text e' = Some text') as Hset.
  { intros text e -> He. unfold clear_error. rewrite (proj2 (Z.ltb_lt _ _)) by done. cbn.
    rewrite (proj2 (Z.eqb_neq _ _)) by lia. by eexists _, _. }
  unfold authd_database_validate_migrations. cbn [authd_database_required_migrations deref].
  unfold deref. run_simpl. cbn [is_null andb].
  destruct (Z.eqb_spec (zlen actual) (zlen required_migrations)) as [Hlen|Hne]; cbn [negb].
  - apply Nat2Z.inj in Hlen.
    destruct (validate_migration_loop actual required_migrations (clear_error error) 9 0)
      as [text Hloop]; [done|done| |].
    { unfold required_migrations. intros e. rewrite !elem_of_cons, elem_of_nil.
      intros Hin; repeat destruct Hin as [->|Hin]; done. }
    change (Z.of_nat 0) with 0 in Hloop. change (Z.to_nat (zlen required_migrations)) with 9%nat.
    rewrite Hloop, !drop_0. run_simpl.
    destruct (bool_decide_reflect (map row_of actual = map row_of required_migrations)).
    + by eexists _, _.
    + eexists _, _. split; [done|]. split; [done|]. split; [done|]. intros _. apply Hset.
  - eexists _, _. split; [done|]. split; [split; [done|]|split; [done|intros _; apply Hset]].
    intros Heq. apply (f_equal length) in Heq. rewrite !length_map in Heq. unfold zlen in Hne. lia.
Qed.

(** [authd_database_validate_identity] accepts exactly the daemon's role on the
    configured database of a writable server of at least version 17. *)
Theorem validate_identity_correct user database version read_only expected error :
  (authd_database_validate_identity user database version read_only expected error).1 = true ↔
  ∃ u d e, user = Some u ∧ database = Some d ∧ expected = Some e ∧
    cstr u = AUTHD_DATABASE_REQUIRED_ROLE ∧ cstr d = cstr e ∧ 170000 <= version ∧
    read_only = false.
Proof.
  unfold authd_database_validate_identity, AUTHD_DATABASE_MIN_SERVER_VERSION_NUM.
  destruct user as [u|], database as [d|], expected as [e|];
    try (split; [done|intros (?&?&?&?&?&?&_); done]).
  assert (cstr AUTHD_DATABASE_REQUIRED_ROLE = AUTHD_DATABASE_REQUIRED_ROLE) as Hrole
    by reflexivity.
  pose proof (streq_spec u AUTHD_DATABASE_REQUIRED_ROLE) as Hspec. rewrite Hrole in Hspec.
  destruct (streq u AUTHD_DATABASE_REQUIRED_ROLE) eqn:Eu; cbn [negb].
  2:{ split; [done|]. intros (?&?&?&[= <-]&_&_&Hu&_). apply Hspec in Hu. congruence. }
  destruct (streq d e) eqn:Ed; cbn [negb].
  2:{ split; [done|]. intros (?&?&?&_&[= <-]&[= <-]&_&Hd&_). apply streq_spec in Hd. congruence. }
  destruct (Z.ltb_spec version 170000).
  { split; [done|]. intros (?&?&?&_&_&_&_&_&?&_). lia. }
  pose proof (proj1 Hspec eq_refl) as Hu. apply streq_spec in Ed. destruct read_only; cbn.
  - split; [done|]. by intros (?&?&?&_&_&_&_&_&_&?).
  - split; [|done]. intros _. by exists u, d, e.
Qed.
