(* ===== verification/Program.v ===== *)
(** * Programs that interact

    The daemon's handlers change a state and call services: the database, the
    password workers, the clock, sockets. A program of the model is a function
    of its state and of the history of service calls. It is executable, it is
    stuck ([None]) where the code would access memory outside an object, and a
    loop that the environment can prolong without limit takes fuel and ends in
    [Exhausted] when that runs out. [wp] is the weakest precondition that the
    theorems about programs are stated with. *)

From S2P Require Import Prelude.

Section program.
Context {event : Type}.

Inductive outcome (S A : Type) : Type :=
| Done (a : A) (s : S) (h : list event)
| Exhausted (h : list event).
#[global] Arguments Done {S A} a s h.
#[global] Arguments Exhausted {S A} h.

(** The history has the newest event first. *)
Definition prog (S A : Type) : Type := S → list event → run (outcome S A).

Definition ret {S A} (a : A) : prog S A := λ s h, Some (Done a s h).

Definition bind {S A B} (m : prog S A) (k : A → prog S B) : prog S B :=
  λ s h,
    let! o := m s h in
    match o with
    | Done a s h => k a s h
    | Exhausted h => Some (Exhausted h)
    end.

Definition get {S} : prog S S := λ s h, Some (Done s s h).
Definition gets {S A} (f : S → A) : prog S A := λ s h, Some (Done (f s) s h).
Definition modify {S} (f : S → S) : prog S unit := λ s h, Some (Done tt (f s) h).

(** A computation that reads memory only. *)
Definition lift {S A} (r : run A) : prog S A := λ s h, let! a := r in Some (Done a s h).

(** A service call: the environment answers knowing everything that happened
    before, and the call is recorded. *)
Definition service {S A} (answer : list event → A) (record : A → event) : prog S A :=
  λ s h, let a := answer h in Some (Done a s (record a :: h)).

(** Running a program on a part of the state. *)
Definition focus {S T A} (view : S → run T) (update : T → S → S) (m : prog T A) : prog S A :=
  λ s h,
    let! t := view s in
    let! o := m t h in
    Some match o with
         | Done a t h => Done a (update t s) h
         | Exhausted h => Exhausted h
         end.

(** [for (;;) body], [while]: at most [fuel] iterations. *)
Fixpoint repeat_ {S R} (fuel : nat) (body : prog S (option R)) : prog S R :=
  match fuel with
  | O => λ s h, Some (Exhausted h)
  | Datatypes.S fuel => bind body (λ r, match r with
                                        | Some r => ret r
                                        | None => repeat_ fuel body
                                        end)
  end.

(** A loop with locals. *)
Fixpoint iterate {S L R} (fuel : nat) (body : L → prog S (L + R)) (l : L) : prog S R :=
  match fuel with
  | O => λ s h, Some (Exhausted h)
  | Datatypes.S fuel => bind (body l) (λ r, match r with
                                            | inl l => iterate fuel body l
                                            | inr r => ret r
                                            end)
  end.

(** [for (index = first; n more iterations; ++index) body] *)
Fixpoint each {S} (n : nat) (index : Z) (body : Z → prog S unit) : prog S unit :=
  match n with
  | O => ret tt
  | Datatypes.S n => bind (body index) (λ _, each n (index + 1) body)
  end.

(** ** Weakest preconditions

    [wp E m Q s h]: the program is not stuck, it ends in a state with [Q], and
    if its fuel runs out the history has [E]. With [E := λ _, False] it ends. *)
Definition wp {S A} (E : list event → Prop) (m : prog S A)
    (Q : A → S → list event → Prop) (s : S) (h : list event) : Prop :=
  match m s h with
  | Some (Done a s h) => Q a s h
  | Some (Exhausted h) => E h
  | None => False
  end.

Context (E : list event → Prop).

Lemma wp_ret {S A} (a : A) Q (s : S) h : Q a s h → wp E (ret a) Q s h.
Proof. done. Qed.

Lemma wp_bind {S A B} (m : prog S A) (k : A → prog S B) Q s h :
  wp E m (λ a, wp E (k a) Q) s h → wp E (bind m k) Q s h.
Proof. unfold wp, bind. by destruct (m s h) as [[]|]. Qed.

Lemma wp_bind_inv {S A B} (m : prog S A) (k : A → prog S B) Q s h :
  wp E (bind m k) Q s h → wp E m (λ a, wp E (k a) Q) s h.
Proof. unfold wp, bind. by destruct (m s h) as [[]|]. Qed.

Lemma wp_get {S} Q (s : S) h : Q s s h → wp E get Q s h.
Proof. done. Qed.

Lemma wp_gets {S A} (f : S → A) Q s h : Q (f s) s h → wp E (gets f) Q s h.
Proof. done. Qed.

Lemma wp_modify {S} (f : S → S) Q s h : Q tt (f s) h → wp E (modify f) Q s h.
Proof. done. Qed.

Lemma wp_lift {S A} (r : run A) a Q (s : S) h : r = Some a → Q a s h → wp E (lift r) Q s h.
Proof. unfold wp, lift. by intros ->. Qed.

Lemma wp_service {S A} (answer : list event → A) record Q (s : S) h :
  (∀ a, a = answer h → Q a s (record a :: h)) → wp E (service answer record) Q s h.
Proof. unfold wp, service. eauto. Qed.

Lemma wp_mono {S A} (m : prog S A) (P Q : A → S → list event → Prop) s h :
  wp E m P s h → (∀ a s h, P a s h → Q a s h) → wp E m Q s h.
Proof. unfold wp. destruct (m s h) as [[]|]; eauto. Qed.

Lemma wp_and {S A} (m : prog S A) (P Q : A → S → list event → Prop) s h :
  wp E m P s h → wp E m Q s h → wp E m (λ a s h, P a s h ∧ Q a s h) s h.
Proof. unfold wp. destruct (m s h) as [[]|]; eauto. Qed.

Lemma wp_focus {S T A} (view : S → run T) (update : T → S → S) (m : prog T A) t Q s h :
  view s = Some t → wp E m (λ a t, Q a (update t s)) t h → wp E (focus view update m) Q s h.
Proof. unfold wp, focus. intros ->. by destruct (m t h) as [[]|]. Qed.

(** A loop whose invariant holds whenever its fuel runs out. *)
Lemma wp_repeat {S R} (Inv : S → list event → Prop) fuel (body : prog S (option R)) Q s h :
  Inv s h → (∀ s h, Inv s h → E h) →
  (∀ s h, Inv s h →
     wp E body (λ r s h, match r with Some r => Q r s h | None => Inv s h end) s h) →
  wp E (repeat_ fuel body) Q s h.
Proof.
  intros Hi HE Hb. revert s h Hi. induction fuel as [|fuel IH]; intros s h Hi; [by eapply HE|].
  cbn [repeat_]. apply wp_bind. eapply wp_mono; [by apply Hb|]. intros [r|] s' h' H; [done|].
  by apply IH.
Qed.

Lemma wp_iterate {S L R} (Inv : L → S → list event → Prop) fuel (body : L → prog S (L + R)) l Q s h :
  Inv l s h → (∀ l s h, Inv l s h → E h) →
  (∀ l s h, Inv l s h →
     wp E (body l) (λ r s h, match r with inl l => Inv l s h | inr r => Q r s h end) s h) →
  wp E (iterate fuel body l) Q s h.
Proof.
  intros Hi HE Hb. revert l s h Hi. induction fuel as [|fuel IH]; intros l s h Hi; [by eapply HE|].
  cbn [iterate]. apply wp_bind. eapply wp_mono; [by apply Hb|]. intros [l'|r] s' h' H; [|done].
  by apply IH.
Qed.

(** A loop whose measure decreases does not exhaust its fuel. *)
Lemma wp_repeat_measure {S R} (Inv : S → list event → Prop) (measure : S → nat)
    fuel (body : prog S (option R)) Q s h :
  Inv s h → (measure s < fuel)%nat →
  (∀ s h, Inv s h →
     wp E body (λ r s' h', match r with
                           | Some r => Q r s' h'
                           | None => Inv s' h' ∧ (measure s' < measure s)%nat
                           end) s h) →
  wp E (repeat_ fuel body) Q s h.
Proof.
  intros Hi Hm Hb. revert s h Hi Hm. induction fuel as [|fuel IH]; intros s h Hi Hm; [lia|].
  cbn [repeat_]. apply wp_bind. eapply wp_mono; [by apply Hb|].
  intros [r|] s' h'; [done|]. intros [Hi' Hlt]. apply IH; [done|lia].
Qed.

Lemma wp_iterate_measure {S L R} (Inv : L → S → list event → Prop) (measure : L → nat)
    fuel (body : L → prog S (L + R)) l Q s h :
  Inv l s h → (measure l < fuel)%nat →
  (∀ l s h, Inv l s h →
     wp E (body l) (λ r s' h', match r with
                               | inl l' => Inv l' s' h' ∧ (measure l' < measure l)%nat
                               | inr r => Q r s' h'
                               end) s h) →
  wp E (iterate fuel body l) Q s h.
Proof.
  intros Hi Hm Hb. revert l s h Hi Hm. induction fuel as [|fuel IH]; intros l s h Hi Hm; [lia|].
  cbn [iterate]. apply wp_bind. eapply wp_mono; [by apply Hb|].
  intros [l'|r] s' h'; [|done]. intros [Hi' Hlt]. apply IH; [done|lia].
Qed.

(** A loop with a measure of its locals, its state and its history. *)
Lemma wp_iterate_decreasing {S L R} (Inv : L → S → list event → Prop) (measure : L → S → list event → nat)
    fuel (body : L → prog S (L + R)) l Q s h :
  Inv l s h → (measure l s h < fuel)%nat →
  (∀ l s h, Inv l s h →
     wp E (body l) (λ r s' h', match r with
                               | inl l' => Inv l' s' h' ∧ (measure l' s' h' < measure l s h)%nat
                               | inr r => Q r s' h'
                               end) s h) →
  wp E (iterate fuel body l) Q s h.
Proof.
  intros Hi Hm Hb. revert l s h Hi Hm. induction fuel as [|fuel IH]; intros l s h Hi Hm; [lia|].
  cbn [iterate]. apply wp_bind. eapply wp_mono; [by apply Hb|].
  intros [l'|r] s' h'; [|done]. intros [Hi' Hlt]. apply IH; [done|lia].
Qed.

Lemma wp_each {S} (Inv : Z → S → list event → Prop) n i (body : Z → prog S unit) Q s h :
  Inv i s h →
  (∀ j s h, i <= j < i + Z.of_nat n → Inv j s h → wp E (body j) (λ _, Inv (j + 1)) s h) →
  (∀ s h, Inv (i + Z.of_nat n) s h → Q tt s h) →
  wp E (each n i body) Q s h.
Proof.
  revert i s h. induction n as [|n IH]; intros i s h Hi Hb HQ.
  - cbn [each]. apply wp_ret, HQ. by replace (i + Z.of_nat 0) with i by lia.
  - cbn [each]. apply wp_bind. eapply wp_mono; [apply Hb; [lia|done]|].
    intros [] s' h' H. apply IH; [done| |].
    + intros j s'' h'' Hj. apply Hb. lia.
    + intros s'' h'' H'. apply HQ.
      by replace (i + Z.of_nat (Datatypes.S n)) with (i + 1 + Z.of_nat n) by lia.
Qed.
End program.

#[global] Arguments prog : clear implicits.

(** A program that ends whatever [E] is, ends. *)
Lemma wp_never_exhausted {event S A} (E : list event → Prop) (m : prog event S A) Q s h :
  wp (λ _, False) m Q s h → wp E m Q s h.
Proof. unfold wp. by destruct (m s h) as [[]|]. Qed.

(** A program that ends has an outcome. *)
Lemma wp_ends {event S A} (m : prog event S A) Q s h :
  wp (λ _, False) m Q s h → ∃ a s' h', m s h = Some (Done a s' h') ∧ Q a s' h'.
Proof. unfold wp. destruct (m s h) as [[a s' h'|]|]; [|done..]. intros HQ. by exists a, s', h'. Qed.

(** What a weakest precondition says about the outcome. *)
Lemma wp_outcome {event S A} (E : list event → Prop) (m : prog event S A) Q s h :
  wp E m Q s h →
  match m s h with
  | Some (Done a s' h') => Q a s' h'
  | Some (Exhausted h') => E h'
  | None => False
  end.
Proof. done. Qed.

(** ** Ending

    [ends m Q s h]: the fuel of the program does not run out, and it ends in a state
    with [Q] unless it is stuck. It adds what a weakest precondition that allows
    fuel to run out leaves open. *)
Definition ends {event S A} (m : prog event S A) (Q : A → S → list event → Prop)
    (s : S) (h : list event) : Prop :=
  match m s h with
  | Some (Done a s h) => Q a s h
  | Some (Exhausted _) => False
  | None => True
  end.

Section ends.
Context {event : Type}.

Lemma ends_wp {S A} (E : list event → Prop) (m : prog event S A) P Q s h :
  wp E m P s h → ends m Q s h → wp (λ _, False) m P s h.
Proof. unfold wp, ends. by destruct (m s h) as [[]|]. Qed.

Lemma ends_ret {S A} (a : A) Q (s : S) (h : list event) : Q a s h → ends (ret a) Q s h.
Proof. done. Qed.

Lemma ends_bind {S A B} (m : prog event S A) (k : A → prog event S B) Q s h :
  ends m (λ a, ends (k a) Q) s h → ends (bind m k) Q s h.
Proof. unfold ends, bind. by destruct (m s h) as [[]|]. Qed.

Lemma ends_get {S} Q (s : S) (h : list event) : Q s s h → ends get Q s h.
Proof. done. Qed.

Lemma ends_modify {S} (f : S → S) Q s (h : list event) : Q tt (f s) h → ends (modify f) Q s h.
Proof. done. Qed.

Lemma ends_lift {S A} (r : run A) Q (s : S) (h : list event) :
  (∀ a, Q a s h) → ends (lift r) Q s h.
Proof. unfold ends, lift. destruct r; cbn; auto. Qed.

Lemma ends_service {S A} (answer : list event → A) record Q (s : S) h :
  Q (answer h) s (record (answer h) :: h) → ends (service answer record) Q s h.
Proof. done. Qed.

Lemma ends_mono {S A} (m : prog event S A) (P Q : A → S → list event → Prop) s h :
  ends m P s h → (∀ a s h, P a s h → Q a s h) → ends m Q s h.
Proof. unfold ends. destruct (m s h) as [[]|]; eauto. Qed.

(** A loop with a measure of its history. *)
Lemma ends_iterate {S L R} (Inv : L → S → list event → Prop) (measure : list event → nat)
    (Q : R → S → list event → Prop) fuel (body : L → prog event S (L + R)) l s h :
  Inv l s h → (measure h < fuel)%nat →
  (∀ l s h, Inv l s h →
     ends (body l) (λ r s' h', match r with
                               | inl l => Inv l s' h' ∧ (measure h' < measure h)%nat
                               | inr r => Q r s' h'
                               end) s h) →
  ends (iterate fuel body l) Q s h.
Proof.
  intros Hi Hm Hb. revert l s h Hi Hm. induction fuel as [|fuel IH]; intros l s h Hi Hm; [lia|].
  cbn [iterate]. apply ends_bind. eapply ends_mono; [by apply Hb|].
  intros [l'|r] s' h'; [|done]. intros [Hi' Hlt]. apply IH; [done|lia].
Qed.

Lemma ends_repeat {S R} (Inv : S → list event → Prop) (measure : list event → nat)
    (Q : R → S → list event → Prop) fuel (body : prog event S (option R)) s h :
  Inv s h → (measure h < fuel)%nat →
  (∀ s h, Inv s h →
     ends body (λ r s' h', match r with
                           | None => Inv s' h' ∧ (measure h' < measure h)%nat
                           | Some r => Q r s' h'
                           end) s h) →
  ends (repeat_ fuel body) Q s h.
Proof.
  intros Hi Hm Hb. revert s h Hi Hm. induction fuel as [|fuel IH]; intros s h Hi Hm; [lia|].
  cbn [repeat_]. apply ends_bind. eapply ends_mono; [by apply Hb|].
  intros [r|] s' h'; [done|]. intros [Hi' Hlt]. apply IH; [done|lia].
Qed.
End ends.

Notation "'let*' x ':=' c 'in' k" := (bind c (λ x, k))
  (at level 10, x pattern, c at level 100, k at level 200) : cmodel_scope.

Notation "'do*' c 'in' k" := (bind c (λ _, k))
  (at level 10, c at level 100, k at level 200) : cmodel_scope.

(** One step of a program. *)
Ltac wp_step :=
  match goal with
  | |- wp _ (bind _ _) _ _ _ => apply wp_bind
  | |- wp _ (ret _) _ _ _ => apply wp_ret
  | |- wp _ get _ _ _ => apply wp_get
  | |- wp _ (gets _) _ _ _ => apply wp_gets
  | |- wp _ (modify _) _ _ _ => apply wp_modify
  end; cbv beta.

(** One step of a program that ends. *)
Ltac ends_step :=
  match goal with
  | |- ends (bind _ _) _ _ _ => apply ends_bind
  | |- ends (ret _) _ _ _ => apply ends_ret
  | |- ends get _ _ _ => apply ends_get
  | |- ends (modify _) _ _ _ => apply ends_modify
  | |- ends (service _ _) _ _ _ => apply ends_service
  | |- ends (lift _) _ _ _ => apply ends_lift; intros ?
  end; cbv beta.
