(* ===== verification/Services.v ===== *)
(** * Services of the daemon

    The data of [authd_config.h], [authd_database.h], [authd_worker_pool.h],
    [authd_password.h] and [authd_peer.h] that the server uses, the events of
    the history of a run, and the calls the server makes. What a call answers
    is a function of the history ([Environment]): the database, the password
    workers, the clock, the random generator and the peers may answer anything. *)

From S2P Require Import Prelude Protocol Words Utf8 Codec Inet Schema Identity Throttle Limiter Program.

(** ** Data *)

Definition AUTHD_DATABASE_PASSWORD_HASH_MAX : Z := 255.
Definition AUTHD_PASSWORD_MAX_BYTES : Z := 1024.
Definition AUTHD_PASSWORD_MAX_BUFFER_BYTES : Z := AUTHD_PASSWORD_MAX_BYTES + 1.
Definition AUTHD_WORKER_HASH_MAX_BYTES : Z := 255.
Definition AUTHD_WORKER_MIN_THREADS : Z := 1.
Definition AUTHD_WORKER_MAX_THREADS : Z := 8.
Definition AUTHD_WORKER_MIN_CAPACITY : Z := 1.
Definition AUTHD_WORKER_MAX_CAPACITY : Z := 64.
Definition AUTHD_MIN_CLIENTS : Z := 1.
Definition AUTHD_MAX_CLIENTS : Z := 256.
Definition AUTHD_DB_MIN_HEALTH_INTERVAL_MS : Z := 100.
Definition AUTHD_DB_MAX_HEALTH_INTERVAL_MS : Z := 300000.
Definition AUTHD_REGISTRATION_MIN_PASSWORD_BYTES : Z := 12.
Definition AUTHD_REGISTRATION_MAX_PASSWORD_BYTES : Z := 1024.
Definition AUTHD_REGISTRATION_MIN_TIMEOUT_SECONDS : Z := 60.
Definition AUTHD_REGISTRATION_MAX_TIMEOUT_SECONDS : Z := 86400.
Definition AUTHD_REGISTRATION_MIN_PENDING : Z := 1.
Definition AUTHD_REGISTRATION_MAX_PENDING : Z := 1024.

(** The members that the server reads while it runs. *)
Record authd_config := Config {
  cfg_allowed_uids : list Z;
  cfg_allowed_uid_count : Z;
  cfg_max_clients : Z;
  cfg_hello_timeout_ms : Z;
  cfg_password_workers : Z;
  cfg_password_queue_capacity : Z;
  cfg_password_failure_threshold : Z;
  cfg_password_failure_window_seconds : Z;
  cfg_password_throttle_seconds : Z;
  cfg_registration_enabled : bool;
  cfg_registration_min_password_bytes : Z;
  cfg_registration_timeout_seconds : Z;
  cfg_registration_max_pending : Z;
  cfg_registration_ip_attempts : Z;
  cfg_registration_ip_window_seconds : Z;
  cfg_db_health_interval_ms : Z;
}.

Definition authd_config_uid_is_allowed (config : option authd_config) (uid : Z) : run bool :=
  match config with
  | None => Some false
  | Some c =>
      let! r := for_range (Z.to_nat (cfg_allowed_uid_count c)) 0
        (λ index s,
           let! allowed := arr_get (cfg_allowed_uids c) index in
           Some (if allowed =? uid then Return true else Continue s)) tt in
      match r with
      | Return found => Some found
      | _ => Some false
      end
  end.

Record authd_peer_credentials := PeerCredentials {
  peer_pid : Z;
  peer_uid : Z;
  peer_gid : Z;
}.

Definition authd_peer_credentials_are_allowed (config : option authd_config)
    (credentials : option authd_peer_credentials) : run bool :=
  match config, credentials with
  | Some _, Some c =>
      if 0 <? peer_pid c then authd_config_uid_is_allowed config (peer_uid c) else Some false
  | _, _ => Some false
  end.

Inductive authd_account_state :=
| AUTHD_ACCOUNT_STATE_PENDING
| AUTHD_ACCOUNT_STATE_ACTIVE
| AUTHD_ACCOUNT_STATE_DISABLED
| AUTHD_ACCOUNT_STATE_LOCKED
| AUTHD_ACCOUNT_STATE_DELETED.

#[export] Instance account_state_eq_dec : EqDecision authd_account_state.
Proof. solve_decision. Defined.

Record authd_login_record := LoginRecord {
  lr_user_id : list Z;
  lr_login_name : list Z;
  lr_display_name : list Z;
  lr_legacy_name : list Z;
  lr_password_hash : list Z;
  lr_account_state : authd_account_state;
  lr_auth_epoch : Z;
  lr_authz_revision : Z;
  lr_deleted : bool;
  lr_throttled : bool;
  lr_retry_after_ms : Z;
  lr_must_change : bool;
  lr_failed_count : Z;
  lr_last_failed_at_set : bool;
  lr_last_failed_at_epoch_ms : Z;
}.

Inductive authd_database_lookup_result :=
| AUTHD_DATABASE_LOOKUP_OK
| AUTHD_DATABASE_LOOKUP_NOT_FOUND
| AUTHD_DATABASE_LOOKUP_INVALID_RECORD
| AUTHD_DATABASE_LOOKUP_ERROR.

#[export] Instance lookup_result_eq_dec : EqDecision authd_database_lookup_result.
Proof. solve_decision. Defined.

Inductive authd_database_write_result :=
| AUTHD_DATABASE_WRITE_OK
| AUTHD_DATABASE_WRITE_NOT_FOUND
| AUTHD_DATABASE_WRITE_STALE_STATE
| AUTHD_DATABASE_WRITE_ACCESS_DENIED
| AUTHD_DATABASE_WRITE_INVALID_ARGUMENT
| AUTHD_DATABASE_WRITE_INVALID_RECORD
| AUTHD_DATABASE_WRITE_ERROR.

#[export] Instance write_result_eq_dec : EqDecision authd_database_write_result.
Proof. solve_decision. Defined.

Record authd_terminal_session_result := TerminalSession {
  ts_user_id : list Z;
  ts_session_id : list Z;
  ts_auth_epoch : Z;
  ts_authz_revision : Z;
}.

Inductive authd_database_registration_result :=
| AUTHD_DATABASE_REGISTRATION_OK
| AUTHD_DATABASE_REGISTRATION_NAME_UNAVAILABLE
| AUTHD_DATABASE_REGISTRATION_LEGACY_CONFLICT
| AUTHD_DATABASE_REGISTRATION_LIMIT_REACHED
| AUTHD_DATABASE_REGISTRATION_NOT_FOUND
| AUTHD_DATABASE_REGISTRATION_STALE_STATE
| AUTHD_DATABASE_REGISTRATION_INVALID_ARGUMENT
| AUTHD_DATABASE_REGISTRATION_INVALID_RECORD
| AUTHD_DATABASE_REGISTRATION_ERROR.

#[export] Instance registration_result_eq_dec : EqDecision authd_database_registration_result.
Proof. solve_decision. Defined.

Record authd_registration_begin_result := RegistrationBegin {
  rb_registration_id : list Z;
  rb_user_id : list Z;
  rb_login_name : list Z;
  rb_display_name : list Z;
  rb_legacy_name : list Z;
  rb_auth_epoch : Z;
  rb_authz_revision : Z;
}.

Record authd_registration_commit_result := RegistrationCommit {
  rc_registration_id : list Z;
  rc_session : authd_terminal_session_result;
  rc_login_name : list Z;
  rc_display_name : list Z;
  rc_legacy_name : list Z;
}.

Inductive authd_login_availability :=
| AUTHD_LOGIN_AVAILABLE
| AUTHD_LOGIN_PENDING
| AUTHD_LOGIN_DISABLED
| AUTHD_LOGIN_LOCKED
| AUTHD_LOGIN_DELETED
| AUTHD_LOGIN_THROTTLED
| AUTHD_LOGIN_PASSWORD_CHANGE_REQUIRED
| AUTHD_LOGIN_INVALID_RECORD.

#[export] Instance availability_eq_dec : EqDecision authd_login_availability.
Proof. solve_decision. Defined.

Definition authd_login_record_availability (record : option authd_login_record)
    : run authd_login_availability :=
  match record with
  | None => Some AUTHD_LOGIN_INVALID_RECORD
  | Some r =>
      let empty s := let! c := buf_get s 0 in Some (c =? 0) in
      let! invalid :=
        Some (lr_auth_epoch r =? 0) ||! Some (lr_authz_revision r =? 0)
        ||! empty (lr_login_name r) ||! empty (lr_display_name r)
        ||! (let! valid := authd_legacy_name_is_valid (Some (lr_legacy_name r)) in
             Some (negb valid))
        ||! empty (lr_password_hash r)
        ||! Some (lr_throttled r && (lr_retry_after_ms r =? 0))
        ||! Some (negb (lr_throttled r) && negb (lr_retry_after_ms r =? 0)) in
      if invalid then Some AUTHD_LOGIN_INVALID_RECORD
      else if lr_deleted r || bool_decide (lr_account_state r = AUTHD_ACCOUNT_STATE_DELETED)
      then Some AUTHD_LOGIN_DELETED
      else
        Some match lr_account_state r with
             | AUTHD_ACCOUNT_STATE_PENDING => AUTHD_LOGIN_PENDING
             | AUTHD_ACCOUNT_STATE_DISABLED => AUTHD_LOGIN_DISABLED
             | AUTHD_ACCOUNT_STATE_LOCKED => AUTHD_LOGIN_LOCKED
             | AUTHD_ACCOUNT_STATE_DELETED => AUTHD_LOGIN_DELETED
             | AUTHD_ACCOUNT_STATE_ACTIVE =>
                 if lr_throttled r then AUTHD_LOGIN_THROTTLED
                 else if lr_must_change r then AUTHD_LOGIN_PASSWORD_CHANGE_REQUIRED
                 else AUTHD_LOGIN_AVAILABLE
             end
  end.

Inductive authd_password_result :=
| AUTHD_PASSWORD_OK
| AUTHD_PASSWORD_MISMATCH
| AUTHD_PASSWORD_INVALID_INPUT
| AUTHD_PASSWORD_INVALID_HASH
| AUTHD_PASSWORD_RESOURCE_LIMIT
| AUTHD_PASSWORD_INTERNAL_ERROR.

#[export] Instance password_result_eq_dec : EqDecision authd_password_result.
Proof. solve_decision. Defined.

Record authd_worker_token := WorkerToken {
  tk_connection_id : Z;
  tk_connection_generation : Z;
  tk_request_id : Z;
}.

Inductive authd_worker_job_type :=
| AUTHD_WORKER_JOB_VERIFY_PASSWORD
| AUTHD_WORKER_JOB_GENERATE_PASSWORD_HASH.

#[export] Instance job_type_eq_dec : EqDecision authd_worker_job_type.
Proof. solve_decision. Defined.

Record authd_worker_completion := WorkerCompletion {
  wc_job_id : Z;
  wc_token : authd_worker_token;
  wc_job_type : authd_worker_job_type;
  wc_password_result : authd_password_result;
  wc_needs_rehash : bool;
  wc_encoded_hash : list Z;
}.

Inductive authd_worker_submit_result :=
| AUTHD_WORKER_SUBMIT_OK
| AUTHD_WORKER_SUBMIT_FULL
| AUTHD_WORKER_SUBMIT_STOPPING
| AUTHD_WORKER_SUBMIT_INVALID
| AUTHD_WORKER_SUBMIT_INTERNAL_ERROR.

#[export] Instance submit_result_eq_dec : EqDecision authd_worker_submit_result.
Proof. solve_decision. Defined.

(** What a read or write of a file descriptor, or [getrandom], answers: some
    bytes or a number of bytes, the end of the stream, or an error. *)
Inductive io_error := EINTR | EAGAIN | EOTHER.

#[export] Instance io_error_eq_dec : EqDecision io_error.
Proof. solve_decision. Defined.

(** The system calls and library calls of the start of the daemon that only
    succeed or fail. *)
Inductive startup_step :=
| WORKER_POOL_CREATE (workers capacity : Z)
| CALLOC (count : Z)
| SIGNAL_STATE_INSTALL
| CREATE_LISTENER.

(** ** The history *)

Inductive event :=
| ClockGettime (answer : option (Z * Z))
| Getrandom (size : Z) (answer : list Z + io_error)
| LookupLogin (login_name : list Z) (answer : authd_database_lookup_result * authd_login_record)
| RecordPasswordFailure (user_id : list Z) (policy : authd_throttle_policy) (source_ip : ptr)
    (protocol : list Z) (answer : authd_database_write_result)
| AuditLoginRejection (user_id : ptr) (login_name : list Z)
    (reason : authd_login_rejection_reason) (source_ip : ptr) (protocol : list Z)
    (answer : authd_database_write_result)
| CreatePasswordSession (record : authd_login_record) (source_ip : ptr) (protocol : list Z)
    (tty_device node_id : ptr)
    (answer : authd_database_write_result * authd_terminal_session_result)
| CloseTerminalSession (session_id ended_reason : list Z) (answer : authd_database_write_result)
| BeginRegistration (login_name display_name password_hash legacy_name source_ip : list Z)
    (tty_device node_id : ptr) (timeout_seconds max_pending : Z)
    (answer : authd_database_registration_result * authd_registration_begin_result)
| CommitRegistration (registration : authd_registration_begin_result) (source_ip : list Z)
    (tty_device node_id : ptr)
    (answer : authd_database_registration_result * authd_registration_commit_result)
| AbortRegistration (registration_id user_id reason : list Z)
    (answer : authd_database_registration_result)
| ExpireRegistrations (batch_limit : Z) (answer : authd_database_registration_result)
| HealthCheck (answer : Z)
| SubmitVerify (token : authd_worker_token) (encoded_hash password : list Z)
    (answer : authd_worker_submit_result * Z)
| SubmitGenerate (token : authd_worker_token) (password : list Z)
    (answer : authd_worker_submit_result * Z)
| TakeCompletion (answer : option authd_worker_completion)
| Recv (fd capacity : Z) (answer : list Z + io_error)
| Send (fd : Z) (data : list Z) (answer : Z + io_error)
| Accept (answer : Z + io_error)
| PeerRead (fd : Z) (answer : option authd_peer_credentials)
| Malloc (answer : option (list Z))
| Free (contents : list Z)
| Close (fd : Z)
| Poll (fds : list (Z * Z)) (timeout : Z) (answer : list Z + io_error)
| SignalRead (answer : list Z + io_error)
| GeneratePassword (answer : authd_password_result * list Z)
| Startup (step : startup_step) (answer : bool).

Abbreviation history := (list event) (only parsing).

Class Environment := {
  env_clock : history → option (Z * Z);
  env_random : history → Z → list Z + io_error;
  env_lookup_login : history → list Z → authd_database_lookup_result * authd_login_record;
  env_record_failure : history → list Z → authd_throttle_policy → ptr → list Z →
    authd_database_write_result;
  env_audit : history → ptr → list Z → authd_login_rejection_reason → ptr → list Z →
    authd_database_write_result;
  env_create_session : history → authd_login_record → ptr → list Z → ptr → ptr →
    authd_database_write_result * authd_terminal_session_result;
  env_close_session : history → list Z → list Z → authd_database_write_result;
  env_begin : history → list Z → list Z → list Z → list Z → list Z → ptr → ptr → Z → Z →
    authd_database_registration_result * authd_registration_begin_result;
  env_commit : history → authd_registration_begin_result → list Z → ptr → ptr →
    authd_database_registration_result * authd_registration_commit_result;
  env_abort : history → list Z → list Z → list Z → authd_database_registration_result;
  env_expire : history → Z → authd_database_registration_result;
  env_health : history → Z;
  env_submit_verify : history → authd_worker_token → list Z → list Z →
    authd_worker_submit_result * Z;
  env_submit_generate : history → authd_worker_token → list Z → authd_worker_submit_result * Z;
  env_take_completion : history → option authd_worker_completion;
  env_recv : history → Z → Z → list Z + io_error;
  env_send : history → Z → list Z → Z + io_error;
  env_accept : history → Z + io_error;
  env_peer : history → Z → option authd_peer_credentials;
  env_malloc : history → option (list Z);
  env_poll : history → list (Z * Z) → Z → list Z + io_error;
  env_signal : history → list Z + io_error;
  env_generate : history → authd_password_result * list Z;
  env_startup : history → startup_step → bool;
}.

(** ** Calls

    Strings are passed as the text before their terminating zero. The text of
    an error that a database call stores is only logged and is left out. *)

Section calls.
Context `{Environment} {S : Type}.
Abbreviation program := (prog event S) (only parsing).

Definition text_of (p : ptr) : ptr := cstr <$> p.

Definition clock_gettime : program (option (Z * Z)) := service env_clock ClockGettime.

Definition getrandom (size : Z) : program (list Z + io_error) :=
  service (λ h, env_random h size) (Getrandom size).

Definition authd_database_lookup_login (login_name : list Z)
    : program (authd_database_lookup_result * authd_login_record) :=
  service (λ h, env_lookup_login h (cstr login_name)) (LookupLogin (cstr login_name)).

Definition authd_database_record_password_failure (user_id : list Z)
    (policy : authd_throttle_policy) (source_ip : ptr) (protocol : list Z)
    : program authd_database_write_result :=
  service (λ h, env_record_failure h user_id policy (text_of source_ip) (cstr protocol))
    (RecordPasswordFailure user_id policy (text_of source_ip) (cstr protocol)).

Definition authd_database_audit_login_rejection (user_id : ptr) (login_name : list Z)
    (reason : authd_login_rejection_reason) (source_ip : ptr) (protocol : list Z)
    : program authd_database_write_result :=
  service
    (λ h, env_audit h user_id (cstr login_name) reason (text_of source_ip) (cstr protocol))
    (AuditLoginRejection user_id (cstr login_name) reason (text_of source_ip) (cstr protocol)).

Definition authd_database_create_password_session (record : authd_login_record)
    (source_ip : ptr) (protocol : list Z) (tty_device node_id : ptr)
    : program (authd_database_write_result * authd_terminal_session_result) :=
  service
    (λ h, env_create_session h record (text_of source_ip) (cstr protocol)
            (text_of tty_device) (text_of node_id))
    (CreatePasswordSession record (text_of source_ip) (cstr protocol)
       (text_of tty_device) (text_of node_id)).

Definition authd_database_close_terminal_session (session_id ended_reason : list Z)
    : program authd_database_write_result :=
  service (λ h, env_close_session h session_id (cstr ended_reason))
    (CloseTerminalSession session_id (cstr ended_reason)).

Definition authd_database_begin_registration
    (login_name display_name password_hash legacy_name source_ip : list Z)
    (tty_device node_id : ptr) (timeout_seconds max_pending : Z)
    : program (authd_database_registration_result * authd_registration_begin_result) :=
  service
    (λ h, env_begin h (cstr login_name) (cstr display_name) (cstr password_hash)
            (cstr legacy_name) (cstr source_ip) (text_of tty_device) (text_of node_id)
            timeout_seconds max_pending)
    (BeginRegistration (cstr login_name) (cstr display_name) (cstr password_hash)
       (cstr legacy_name) (cstr source_ip) (text_of tty_device) (text_of node_id)
       timeout_seconds max_pending).

Definition authd_database_commit_registration (registration : authd_registration_begin_result)
    (source_ip : list Z) (tty_device node_id : ptr)
    : program (authd_database_registration_result * authd_registration_commit_result) :=
  service
    (λ h, env_commit h registration (cstr source_ip) (text_of tty_device) (text_of node_id))
    (CommitRegistration registration (cstr source_ip) (text_of tty_device) (text_of node_id)).

Definition authd_database_abort_registration (registration_id user_id reason : list Z)
    : program authd_database_registration_result :=
  service (λ h, env_abort h registration_id user_id (cstr reason))
    (AbortRegistration registration_id user_id (cstr reason)).

Definition authd_database_expire_registrations (batch_limit : Z)
    : program authd_database_registration_result :=
  service (λ h, env_expire h batch_limit) (ExpireRegistrations batch_limit).

Definition authd_database_health_check : program Z := service env_health HealthCheck.

(** The first [password_length] bytes of the buffer are the password. *)
Definition authd_worker_pool_submit_verify (token : authd_worker_token)
    (encoded_hash password : list Z) (password_length : Z)
    : program (authd_worker_submit_result * Z) :=
  let* text := lift (buf_read password 0 password_length) in
  service (λ h, env_submit_verify h token (cstr encoded_hash) text)
    (SubmitVerify token (cstr encoded_hash) text).

Definition authd_worker_pool_submit_generate (token : authd_worker_token)
    (password : list Z) (password_length : Z) : program (authd_worker_submit_result * Z) :=
  let* text := lift (buf_read password 0 password_length) in
  service (λ h, env_submit_generate h token text) (SubmitGenerate token text).

Definition authd_worker_pool_take_completion : program (option authd_worker_completion) :=
  service env_take_completion TakeCompletion.

Definition recv (fd capacity : Z) : program (list Z + io_error) :=
  service (λ h, env_recv h fd capacity) (Recv fd capacity).

Definition send (fd : Z) (data : list Z) : program (Z + io_error) :=
  service (λ h, env_send h fd data) (Send fd data).

Definition accept4 : program (Z + io_error) := service env_accept Accept.

Definition authd_peer_credentials_read (fd : Z) : program (option authd_peer_credentials) :=
  service (λ h, env_peer h fd) (PeerRead fd).

(** [malloc(FTAP_MAX_FRAME_SIZE)] *)
Definition malloc_frame : program (option (list Z)) := service env_malloc Malloc.

Definition free (contents : list Z) : program unit := service (λ _, tt) (λ _, Free contents).

Definition close (fd : Z) : program unit := service (λ _, tt) (λ _, Close fd).

(** The file descriptors with the events they wait for; the answer has what
    occurred on each. *)
Definition poll (fds : list (Z * Z)) (timeout : Z) : program (list Z + io_error) :=
  service (λ h, env_poll h fds timeout) (Poll fds timeout).

(** [read(signals.read_fd, buffer, sizeof(buffer))] *)
Definition signal_read : program (list Z + io_error) := service env_signal SignalRead.

(** The password is random and the hash, for the policy of the daemon, is all
    that the rest of the code sees. *)
Definition authd_password_generate : program (authd_password_result * list Z) :=
  service env_generate GeneratePassword.

Definition startup (step : startup_step) : program bool :=
  service (λ h, env_startup h step) (Startup step).
End calls.
