(* ===== verification/Client.v ===== *)
(** * Connections and responses

    [fortytwo-auth/src/authd_server.c]: the state of a connection and the
    functions that put a response into its output buffer. A client pointer of
    the code always leads to an element of the array of clients, so the tests
    of it against [NULL] have no counterpart. [errno] and log output are left
    out. *)

From S2P Require Import Prelude Protocol Words Utf8 Codec Inet Schema Identity Throttle Limiter Program Services.

(** ** Data *)

Definition AUTHD_RESPONSE_BUFFER_SIZE : Z := 512.
Definition AUTHD_POLL_MAXIMUM_MS : Z := 1000.
Definition AUTHD_LEGACY_RANDOM_ATTEMPTS : Z := 16.
Definition AUTHD_LEGACY_RANDOM_LENGTH : Z := 8.
Definition AUTHD_LEGACY_RANDOM_ALPHABET : list Z := lit "abcdefghjkmnpqrstuvwxyz23456789".
Definition AUTHD_REGISTRATION_EXPIRY_BATCH : Z := 64.

Record authd_login_attempt := LoginAttempt {
  la_active : bool;
  la_request_id : Z;
  la_worker_job_id : Z;
  la_login_name : list Z;
  la_protocol : list Z;
  la_source_ip : list Z;
  la_tty_device : list Z;
  la_node_id : list Z;
  la_source_ip_set : bool;
  la_tty_device_set : bool;
  la_node_id_set : bool;
  la_record_loaded : bool;
  la_record : authd_login_record;
  la_deferred_rejection : bool;
  la_rejection_reason : authd_login_rejection_reason;
}.

Record authd_registration_attempt := RegistrationAttempt {
  ra_active : bool;
  ra_database_pending : bool;
  ra_request_id : Z;
  ra_worker_job_id : Z;
  ra_login_name : list Z;
  ra_display_name : list Z;
  ra_protocol : list Z;
  ra_source_ip : list Z;
  ra_tty_device : list Z;
  ra_node_id : list Z;
  ra_tty_device_set : bool;
  ra_node_id_set : bool;
  ra_deadline_ms : Z;
  ra_record : authd_registration_begin_result;
}.

Record authd_bound_session_context := BoundSession {
  bs_login_name : list Z;
  bs_display_name : list Z;
  bs_legacy_name : list Z;
  bs_protocol : list Z;
  bs_auth_method : list Z;
}.

Record authd_client := Client {
  fd : Z;
  connection_id : Z;
  connection_generation : Z;
  state : ftap_connection_state;
  peer : authd_peer_credentials;
  input : ptr;
  input_used : Z;
  expected_frame_size : Z;
  output : list Z;
  output_length : Z;
  output_offset : Z;
  close_after_write : bool;
  hello_deadline_ms : Z;
  login : authd_login_attempt;
  registration : authd_registration_attempt;
  session_open : bool;
  session : authd_terminal_session_result;
  session_context : authd_bound_session_context;
  pending_end_reason : list Z;
}.

(** Assignments to the members of a client. *)
Definition set_fd v (c : authd_client) : authd_client :=
  Client v (connection_id c) (connection_generation c) (state c) (peer c) (input c)
    (input_used c) (expected_frame_size c) (output c) (output_length c) (output_offset c)
    (close_after_write c) (hello_deadline_ms c) (login c) (registration c) (session_open c)
    (session c) (session_context c) (pending_end_reason c).
Definition set_connection_generation v (c : authd_client) : authd_client :=
  Client (fd c) (connection_id c) v (state c) (peer c) (input c) (input_used c)
    (expected_frame_size c) (output c) (output_length c) (output_offset c)
    (close_after_write c) (hello_deadline_ms c) (login c) (registration c) (session_open c)
    (session c) (session_context c) (pending_end_reason c).
Definition set_state v (c : authd_client) : authd_client :=
  Client (fd c) (connection_id c) (connection_generation c) v (peer c) (input c) (input_used
    c) (expected_frame_size c) (output c) (output_length c) (output_offset c)
    (close_after_write c) (hello_deadline_ms c) (login c) (registration c) (session_open c)
    (session c) (session_context c) (pending_end_reason c).
Definition set_peer v (c : authd_client) : authd_client :=
  Client (fd c) (connection_id c) (connection_generation c) (state c) v (input c)
    (input_used c) (expected_frame_size c) (output c) (output_length c) (output_offset c)
    (close_after_write c) (hello_deadline_ms c) (login c) (registration c) (session_open c)
    (session c) (session_context c) (pending_end_reason c).
Definition set_input v (c : authd_client) : authd_client :=
  Client (fd c) (connection_id c) (connection_generation c) (state c) (peer c) v (input_used
    c) (expected_frame_size c) (output c) (output_length c) (output_offset c)
    (close_after_write c) (hello_deadline_ms c) (login c) (registration c) (session_open c)
    (session c) (session_context c) (pending_end_reason c).
Definition set_input_used v (c : authd_client) : authd_client :=
  Client (fd c) (connection_id c) (connection_generation c) (state c) (peer c) (input c) v
    (expected_frame_size c) (output c) (output_length c) (output_offset c)
    (close_after_write c) (hello_deadline_ms c) (login c) (registration c) (session_open c)
    (session c) (session_context c) (pending_end_reason c).
Definition set_expected_frame_size v (c : authd_client) : authd_client :=
  Client (fd c) (connection_id c) (connection_generation c) (state c) (peer c) (input c)
    (input_used c) v (output c) (output_length c) (output_offset c) (close_after_write c)
    (hello_deadline_ms c) (login c) (registration c) (session_open c) (session c)
    (session_context c) (pending_end_reason c).
Definition set_output v (c : authd_client) : authd_client :=
  Client (fd c) (connection_id c) (connection_generation c) (state c) (peer c) (input c)
    (input_used c) (expected_frame_size c) v (output_length c) (output_offset c)
    (close_after_write c) (hello_deadline_ms c) (login c) (registration c) (session_open c)
    (session c) (session_context c) (pending_end_reason c).
Definition set_output_length v (c : authd_client) : authd_client :=
  Client (fd c) (connection_id c) (connection_generation c) (state c) (peer c) (input c)
    (input_used c) (expected_frame_size c) (output c) v (output_offset c) (close_after_write
    c) (hello_deadline_ms c) (login c) (registration c) (session_open c) (session c)
    (session_context c) (pending_end_reason c).
Definition set_output_offset v (c : authd_client) : authd_client :=
  Client (fd c) (connection_id c) (connection_generation c) (state c) (peer c) (input c)
    (input_used c) (expected_frame_size c) (output c) (output_length c) v (close_after_write
    c) (hello_deadline_ms c) (login c) (registration c) (session_open c) (session c)
    (session_context c) (pending_end_reason c).
Definition set_close_after_write v (c : authd_client) : authd_client :=
  Client (fd c) (connection_id c) (connection_generation c) (state c) (peer c) (input c)
    (input_used c) (expected_frame_size c) (output c) (output_length c) (output_offset c) v
    (hello_deadline_ms c) (login c) (registration c) (session_open c) (session c)
    (session_context c) (pending_end_reason c).
Definition set_hello_deadline_ms v (c : authd_client) : authd_client :=
  Client (fd c) (connection_id c) (connection_generation c) (state c) (peer c) (input c)
    (input_used c) (expected_frame_size c) (output c) (output_length c) (output_offset c)
    (close_after_write c) v (login c) (registration c) (session_open c) (session c)
    (session_context c) (pending_end_reason c).
Definition set_login v (c : authd_client) : authd_client :=
  Client (fd c) (connection_id c) (connection_generation c) (state c) (peer c) (input c)
    (input_used c) (expected_frame_size c) (output c) (output_length c) (output_offset c)
    (close_after_write c) (hello_deadline_ms c) v (registration c) (session_open c) (session
    c) (session_context c) (pending_end_reason c).
Definition set_registration v (c : authd_client) : authd_client :=
  Client (fd c) (connection_id c) (connection_generation c) (state c) (peer c) (input c)
    (input_used c) (expected_frame_size c) (output c) (output_length c) (output_offset c)
    (close_after_write c) (hello_deadline_ms c) (login c) v (session_open c) (session c)
    (session_context c) (pending_end_reason c).
Definition set_session_open v (c : authd_client) : authd_client :=
  Client (fd c) (connection_id c) (connection_generation c) (state c) (peer c) (input c)
    (input_used c) (expected_frame_size c) (output c) (output_length c) (output_offset c)
    (close_after_write c) (hello_deadline_ms c) (login c) (registration c) v (session c)
    (session_context c) (pending_end_reason c).
Definition set_session v (c : authd_client) : authd_client :=
  Client (fd c) (connection_id c) (connection_generation c) (state c) (peer c) (input c)
    (input_used c) (expected_frame_size c) (output c) (output_length c) (output_offset c)
    (close_after_write c) (hello_deadline_ms c) (login c) (registration c) (session_open c)
    v (session_context c) (pending_end_reason c).
Definition set_session_context v (c : authd_client) : authd_client :=
  Client (fd c) (connection_id c) (connection_generation c) (state c) (peer c) (input c)
    (input_used c) (expected_frame_size c) (output c) (output_length c) (output_offset c)
    (close_after_write c) (hello_deadline_ms c) (login c) (registration c) (session_open c)
    (session c) v (pending_end_reason c).
Definition set_pending_end_reason v (c : authd_client) : authd_client :=
  Client (fd c) (connection_id c) (connection_generation c) (state c) (peer c) (input c)
    (input_used c) (expected_frame_size c) (output c) (output_length c) (output_offset c)
    (close_after_write c) (hello_deadline_ms c) (login c) (registration c) (session_open c)
    (session c) (session_context c) v.

(** The daemon's constants: [authd_server_context_t] without the handles of the
    services and the registration limiter, which is the part that changes. *)
Record authd_server_context := ServerContext {
  ctx_config : authd_config;
  ctx_throttle_policy : authd_throttle_policy;
  ctx_registration_limiter : authd_registration_limiter;
  ctx_dummy_password_hash : list Z;
}.

(** *** Cleared memory: [memset] and [authd_password_wipe] *)

Definition zero_login_record : authd_login_record :=
  LoginRecord (zeros FTAP_UUID_SIZE) (zeros (FTAP_LOGIN_NAME_MAX + 1))
    (zeros (FTAP_DISPLAY_NAME_MAX + 1)) (zeros (FTAP_LEGACY_NAME_MAX + 1))
    (zeros (AUTHD_DATABASE_PASSWORD_HASH_MAX + 1)) AUTHD_ACCOUNT_STATE_PENDING
    0 0 false false 0 false 0 false 0.

Definition zero_login_attempt : authd_login_attempt :=
  LoginAttempt false 0 0 (zeros AUTHD_LOGIN_NAME_BUFFER_SIZE) (zeros (FTAP_PROTOCOL_NAME_MAX + 1))
    (zeros (FTAP_IP_ADDRESS_MAX + 1)) (zeros (FTAP_TTY_DEVICE_MAX + 1))
    (zeros (FTAP_NODE_ID_MAX + 1)) false false false false zero_login_record false
    AUTHD_LOGIN_REJECTION_UNKNOWN_USER.

Definition zero_registration_begin : authd_registration_begin_result :=
  RegistrationBegin (zeros FTAP_UUID_SIZE) (zeros FTAP_UUID_SIZE)
    (zeros (FTAP_LOGIN_NAME_MAX + 1)) (zeros (FTAP_DISPLAY_NAME_MAX + 1))
    (zeros (FTAP_LEGACY_NAME_MAX + 1)) 0 0.

Definition zero_registration_attempt : authd_registration_attempt :=
  RegistrationAttempt false false 0 0 (zeros (FTAP_LOGIN_NAME_MAX + 1))
    (zeros (FTAP_DISPLAY_NAME_MAX + 1)) (zeros (FTAP_PROTOCOL_NAME_MAX + 1))
    (zeros (FTAP_IP_ADDRESS_MAX + 1)) (zeros (FTAP_TTY_DEVICE_MAX + 1))
    (zeros (FTAP_NODE_ID_MAX + 1)) false false 0 zero_registration_begin.

Definition zero_terminal_session : authd_terminal_session_result :=
  TerminalSession (zeros FTAP_UUID_SIZE) (zeros FTAP_UUID_SIZE) 0 0.

Definition zero_bound_session : authd_bound_session_context :=
  BoundSession (zeros (FTAP_LOGIN_NAME_MAX + 1)) (zeros (FTAP_DISPLAY_NAME_MAX + 1))
    (zeros (FTAP_LEGACY_NAME_MAX + 1)) (zeros (FTAP_PROTOCOL_NAME_MAX + 1))
    (zeros (FTAP_AUTH_METHOD_MAX + 1)).

(** [memset] of a whole client. *)
Definition zero_client : authd_client :=
  Client 0 0 0 FTAP_STATE_CONNECTED (PeerCredentials 0 0 0) None 0 0
    (zeros AUTHD_RESPONSE_BUFFER_SIZE) 0 0 false 0 zero_login_attempt zero_registration_attempt
    false zero_terminal_session zero_bound_session (zeros (FTAP_ENDED_REASON_MAX + 1)).

Definition login_attempt_clear (c : authd_client) : authd_client :=
  set_login zero_login_attempt c.

Definition registration_attempt_clear (c : authd_client) : authd_client :=
  set_registration zero_registration_attempt c.

(** ** Frames *)

Definition queue_frame (client : authd_client) (message_type flags request_id : Z)
    (payload : ptr) (payload_length : Z) (close_after : bool) : run (Z * authd_client) :=
  if (is_null payload && negb (payload_length =? 0))
     || negb (output_length client =? output_offset client)
     || (AUTHD_RESPONSE_BUFFER_SIZE - FTAP_FRAME_HEADER_SIZE <? payload_length)
  then Some (-1, client)
  else
    let frame_length := FTAP_FRAME_HEADER_SIZE + payload_length in
    let header := FrameHeader FTAP_VERSION_MAJOR FTAP_VERSION_MINOR message_type flags
                    (u32 payload_length) request_id in
    let! (status, out) := ftap_frame_header_encode (Some (output client)) (Some header) in
    let! out := deref out in
    let client := set_output out client in
    if negb (status_ok status) then Some (-1, client)
    else
      let! out :=
        if 0 <? payload_length then
          let! source := deref payload in
          let! data := buf_read source 0 payload_length in
          buf_write out FTAP_FRAME_HEADER_SIZE data
        else Some out in
      let client := set_output out client in
      let client := set_output_offset 0 client in
      let client := set_output_length frame_length client in
      let client := set_close_after_write close_after client in
      Some (0, client).

Definition error_text (error_code : Z) : list Z :=
  let case code := error_code =? code in
  if case FTAP_ERR_UNSUPPORTED_VERSION then lit "unsupported FTAP version"
  else if case FTAP_ERR_UNSUPPORTED_FIELD then lit "unsupported critical field"
  else if case FTAP_ERR_INVALID_STATE then lit "message not allowed in current state"
  else if case FTAP_ERR_MESSAGE_TOO_LARGE then lit "FTAP frame is too large"
  else if case FTAP_ERR_ACCESS_DENIED then lit "access denied"
  else if in_cases error_code [FTAP_ERR_INVALID_CREDENTIALS; FTAP_ERR_ACCOUNT_UNAVAILABLE]
  then lit "authentication failed"
  else if case FTAP_ERR_RATE_LIMITED then lit "authentication temporarily rate limited"
  else if case FTAP_ERR_DATABASE_UNAVAILABLE then lit "database unavailable"
  else if case FTAP_ERR_LOGIN_NAME_UNAVAILABLE then lit "login name unavailable"
  else if case FTAP_ERR_PASSWORD_POLICY
  then lit "password does not satisfy registration policy"
  else if case FTAP_ERR_INTERNAL then lit "internal service error"
  else lit "invalid FTAP message".

Definition map_status_to_error (status : ftap_status) : Z :=
  match status with
  | FTAP_STATUS_ERR_VERSION | FTAP_STATUS_NEWER_MINOR => FTAP_ERR_UNSUPPORTED_VERSION
  | FTAP_STATUS_ERR_UNSUPPORTED_FIELD => FTAP_ERR_UNSUPPORTED_FIELD
  | FTAP_STATUS_ERR_INVALID_STATE => FTAP_ERR_INVALID_STATE
  | FTAP_STATUS_ERR_CAPACITY => FTAP_ERR_MESSAGE_TOO_LARGE
  | FTAP_STATUS_ERR_LENGTH => FTAP_ERR_PROTOCOL
  | _ => FTAP_ERR_PROTOCOL
  end.

(** ** Payloads *)

(** [if (status == FTAP_STATUS_OK) status = put(&writer, ...)] *)
Definition and_put (before : run (ftap_status * option ftap_tlv_writer))
    (put : option ftap_tlv_writer → run (ftap_status * option ftap_tlv_writer))
    : run (ftap_status * option ftap_tlv_writer) :=
  let! (status, writer) := before in
  if status_ok status then put writer else Some (status, writer).

Notation "m '>>?' put" := (and_put m put) (at level 58, left associativity) : cmodel_scope.

(** The local [payload] and its writer; the uninitialised bytes are zeros. *)
Definition response_writer : run (ftap_status * option ftap_tlv_writer) :=
  Some (ftap_tlv_writer_init (Some (TlvWriter None 0 0))
          (Some (zeros (AUTHD_RESPONSE_BUFFER_SIZE - FTAP_FRAME_HEADER_SIZE)))
          (AUTHD_RESPONSE_BUFFER_SIZE - FTAP_FRAME_HEADER_SIZE)).

Definition put_uuid (field : Z) (uuid : list Z) (writer : option ftap_tlv_writer) :=
  ftap_tlv_writer_put_uuid writer field 0 (Some uuid).

(** [ftap_tlv_writer_put_text(&writer, field, 0, text, strlen(text), maximum)] *)
Definition put_text (field maximum : Z) (text : list Z) (writer : option ftap_tlv_writer) :=
  ftap_tlv_writer_put_text writer field 0 (Some text) (strlen text) maximum.

Definition put_u32 (field value : Z) (writer : option ftap_tlv_writer) :=
  ftap_tlv_writer_put_u32 writer field 0 value.

Definition put_u64 (field value : Z) (writer : option ftap_tlv_writer) :=
  ftap_tlv_writer_put_u64 writer field 0 value.

(** The end of every response: [queue_frame] unless a field was refused. *)
Definition queue_payload (client : authd_client) (message_type flags request_id : Z)
    (close_after : bool) (payload : run (ftap_status * option ftap_tlv_writer))
    : run (Z * authd_client) :=
  let! (status, writer) := payload in
  if negb (status_ok status) then Some (-1, client)
  else
    let! writer := deref writer in
    queue_frame client message_type flags request_id (w_buffer writer) (w_length writer)
      close_after.

Definition queue_error_with_retry (client : authd_client) (request_id error_code retry_after_ms : Z)
    : run (Z * authd_client) :=
  if request_id <? FTAP_FIRST_CLIENT_REQUEST_ID then Some (-1, client)
  else
    queue_payload client FTAP_MSG_ERROR
      (u16 (Z.lor FTAP_FRAME_FLAG_RESPONSE FTAP_FRAME_FLAG_ERROR)) request_id true
      (response_writer
       >>? put_u32 FTAP_FIELD_ERROR_CODE error_code
       >>? put_text FTAP_FIELD_ERROR_TEXT FTAP_ERROR_TEXT_MAX (error_text error_code)
       >>? (λ w,
              if 0 <? retry_after_ms then
                put_u32 FTAP_FIELD_RETRY_AFTER_MS
                  (if UINT32_MAX <? retry_after_ms then UINT32_MAX else u32 retry_after_ms) w
              else Some (FTAP_STATUS_OK, w))).

Definition queue_error (client : authd_client) (request_id error_code : Z)
    : run (Z * authd_client) :=
  queue_error_with_retry client request_id error_code 0.

Definition queue_authentication_result (client : authd_client) (request_id : Z)
    (attempt : authd_login_attempt) (session : authd_terminal_session_result)
    : run (Z * authd_client) :=
  let record := la_record attempt in
  queue_payload client FTAP_MSG_AUTH_PASSWORD_RESULT FTAP_FRAME_FLAG_RESPONSE request_id false
    (response_writer
     >>? put_uuid FTAP_FIELD_USER_ID (ts_user_id session)
     >>? put_uuid FTAP_FIELD_SESSION_ID (ts_session_id session)
     >>? put_text FTAP_FIELD_LOGIN_NAME FTAP_LOGIN_NAME_MAX (lr_login_name record)
     >>? put_text FTAP_FIELD_DISPLAY_NAME FTAP_DISPLAY_NAME_MAX (lr_display_name record)
     >>? put_text FTAP_FIELD_LEGACY_NAME FTAP_LEGACY_NAME_MAX (lr_legacy_name record)
     >>? put_u64 FTAP_FIELD_AUTH_EPOCH (ts_auth_epoch session)
     >>? put_u64 FTAP_FIELD_AUTHZ_REVISION (ts_authz_revision session)).

Definition queue_session_context_result (client : authd_client) (request_id : Z)
    : run (Z * authd_client) :=
  if negb (session_open client) then Some (-1, client)
  else
    let s := session client in
    let context := session_context client in
    queue_payload client FTAP_MSG_SESSION_CONTEXT_RESULT FTAP_FRAME_FLAG_RESPONSE request_id false
      (response_writer
       >>? put_uuid FTAP_FIELD_USER_ID (ts_user_id s)
       >>? put_uuid FTAP_FIELD_SESSION_ID (ts_session_id s)
       >>? put_text FTAP_FIELD_LOGIN_NAME FTAP_LOGIN_NAME_MAX (bs_login_name context)
       >>? put_text FTAP_FIELD_DISPLAY_NAME FTAP_DISPLAY_NAME_MAX (bs_display_name context)
       >>? put_text FTAP_FIELD_LEGACY_NAME FTAP_LEGACY_NAME_MAX (bs_legacy_name context)
       >>? put_text FTAP_FIELD_PROTOCOL FTAP_PROTOCOL_NAME_MAX (bs_protocol context)
       >>? put_text FTAP_FIELD_AUTH_METHOD FTAP_AUTH_METHOD_MAX (bs_auth_method context)
       >>? put_u64 FTAP_FIELD_AUTH_EPOCH (ts_auth_epoch s)
       >>? put_u64 FTAP_FIELD_AUTHZ_REVISION (ts_authz_revision s)).

Definition queue_registration_begin_result (client : authd_client) (request_id : Z)
    (registration : authd_registration_begin_result) : run (Z * authd_client) :=
  queue_payload client FTAP_MSG_REGISTRATION_BEGIN_RESULT FTAP_FRAME_FLAG_RESPONSE request_id false
    (response_writer
     >>? put_uuid FTAP_FIELD_REGISTRATION_ID (rb_registration_id registration)
     >>? put_text FTAP_FIELD_REGISTRATION_STATE FTAP_REGISTRATION_STATE_MAX
           FTAP_REGISTRATION_STATE_PENDING_LEGACY
     >>? put_uuid FTAP_FIELD_USER_ID (rb_user_id registration)
     >>? put_text FTAP_FIELD_LOGIN_NAME FTAP_LOGIN_NAME_MAX (rb_login_name registration)
     >>? put_text FTAP_FIELD_DISPLAY_NAME FTAP_DISPLAY_NAME_MAX (rb_display_name registration)
     >>? put_text FTAP_FIELD_LEGACY_NAME FTAP_LEGACY_NAME_MAX (rb_legacy_name registration)
     >>? put_text FTAP_FIELD_ACCOUNT_STATE FTAP_ACCOUNT_STATE_MAX FTAP_ACCOUNT_STATE_PENDING).

Definition queue_registration_abort_result (client : authd_client) (request_id : Z)
    (registration : authd_registration_begin_result) : run (Z * authd_client) :=
  queue_payload client FTAP_MSG_REGISTRATION_ABORT_RESULT FTAP_FRAME_FLAG_RESPONSE request_id false
    (response_writer
     >>? put_uuid FTAP_FIELD_REGISTRATION_ID (rb_registration_id registration)
     >>? put_text FTAP_FIELD_REGISTRATION_STATE FTAP_REGISTRATION_STATE_MAX
           FTAP_REGISTRATION_STATE_ABORTED
     >>? put_uuid FTAP_FIELD_USER_ID (rb_user_id registration)).

Definition queue_registration_commit_result (client : authd_client) (request_id : Z)
    (commit : authd_registration_commit_result) : run (Z * authd_client) :=
  let s := rc_session commit in
  queue_payload client FTAP_MSG_REGISTRATION_COMMIT_RESULT FTAP_FRAME_FLAG_RESPONSE request_id
    false
    (response_writer
     >>? put_uuid FTAP_FIELD_REGISTRATION_ID (rc_registration_id commit)
     >>? put_text FTAP_FIELD_REGISTRATION_STATE FTAP_REGISTRATION_STATE_MAX
           FTAP_REGISTRATION_STATE_COMPLETED
     >>? put_uuid FTAP_FIELD_USER_ID (ts_user_id s)
     >>? put_uuid FTAP_FIELD_SESSION_ID (ts_session_id s)
     >>? put_text FTAP_FIELD_LOGIN_NAME FTAP_LOGIN_NAME_MAX (rc_login_name commit)
     >>? put_text FTAP_FIELD_DISPLAY_NAME FTAP_DISPLAY_NAME_MAX (rc_display_name commit)
     >>? put_text FTAP_FIELD_LEGACY_NAME FTAP_LEGACY_NAME_MAX (rc_legacy_name commit)
     >>? put_text FTAP_FIELD_ACCOUNT_STATE FTAP_ACCOUNT_STATE_MAX FTAP_ACCOUNT_STATE_ACTIVE
     >>? put_text FTAP_FIELD_PROTOCOL FTAP_PROTOCOL_NAME_MAX FTAP_PROTOCOL_TELNET
     >>? put_text FTAP_FIELD_AUTH_METHOD FTAP_AUTH_METHOD_MAX FTAP_AUTH_METHOD_PASSWORD
     >>? put_u64 FTAP_FIELD_AUTH_EPOCH (ts_auth_epoch s)
     >>? put_u64 FTAP_FIELD_AUTHZ_REVISION (ts_authz_revision s)).

(** ** Sending *)

(** The bytes that are still to be sent, and a queued frame. *)
Definition outgoing (c : authd_client) : list Z :=
  rest (output c) (output_length c) (output_offset c).

Definition drained (c : authd_client) : Prop := output_length c = output_offset c.

#[export] Instance drained_dec c : Decision (drained c).
Proof. unfold drained. apply _. Defined.

Definition queued (out : list Z) (length : Z) (close_after : bool) (c : authd_client)
    : authd_client :=
  set_close_after_write close_after
    (set_output_length length (set_output_offset 0 (set_output out c))).

Definition output_ok (c : authd_client) : Prop := zlen (output c) = AUTHD_RESPONSE_BUFFER_SIZE.

Definition response_header (message_type flags request_id length : Z) : ftap_frame_header :=
  FrameHeader FTAP_VERSION_MAJOR FTAP_VERSION_MINOR message_type flags length request_id.

(** What [queue_frame] refuses. *)
Definition can_queue (c : authd_client) (message_type flags request_id length : Z) : bool :=
  bool_decide (drained c) && (length <=? AUTHD_RESPONSE_BUFFER_SIZE - FTAP_FRAME_HEADER_SIZE)
  && status_ok (validate_header_common
                  (Some (response_header message_type flags request_id length)) true).

Lemma set_output_id c : set_output (output c) c = c.
Proof. by destruct c. Qed.

Lemma encode_refused out h :
  status_ok (validate_header_common (Some h) true) = false →
  ftap_frame_header_encode (Some out) (Some h) =
    Some (validate_header_common (Some h) true, Some out).
Proof. unfold ftap_frame_header_encode. by intros ->. Qed.

Lemma header_bytes_zlen h : zlen (header_bytes h) = FTAP_FRAME_HEADER_SIZE.
Proof. unfold zlen. by rewrite header_bytes_length. Qed.

(** [queue_frame], for a payload pointer with as many readable bytes as it says. *)
Lemma queue_frame_spec c message_type flags request_id data (payload : ptr) close_after :
  output_ok c → (payload = None ∧ data = [] ∨ ∃ tail, payload = Some (data ++ tail)) →
  queue_frame c message_type flags request_id payload (zlen data) close_after =
    Some (if can_queue c message_type flags request_id (zlen data)
          then (0, queued (header_bytes (response_header message_type flags request_id (zlen data))
                           ++ data ++ drop (24 + length data) (output c))
                     (FTAP_FRAME_HEADER_SIZE + zlen data) close_after c)
          else (-1, c)).
Proof.
  unfold output_ok, AUTHD_RESPONSE_BUFFER_SIZE. intros Ho Hp. unfold queue_frame, can_queue.
  assert (is_null payload && negb (zlen data =? 0) = false) as ->.
  { destruct Hp as [[-> ->]|[tail ->]]; done. }
  cbn [orb]. unfold drained.
  destruct (Z.eqb_spec (output_length c) (output_offset c)) as [Hd|Hd].
  2:{ by rewrite bool_decide_eq_false_2. }
  rewrite bool_decide_eq_true_2 by done. cbn [negb orb andb]. rewrite Z.leb_antisym.
  pose proof (zlen_nonneg data). unfold AUTHD_RESPONSE_BUFFER_SIZE, FTAP_FRAME_HEADER_SIZE in *.
  destruct (Z.ltb_spec (512 - 24) (zlen data)); [done|]. cbn [negb andb].
  unfold u32. rewrite wrap_fits by (unfold fits; lia).
  change (FrameHeader _ _ _ _ _ _) with (response_header message_type flags request_id (zlen data)).
  destruct (status_ok (validate_header_common _ true)) eqn:Hs.
  2:{ rewrite encode_refused by done. unfold deref. run_simpl. rewrite Hs. cbn [negb].
      by rewrite set_output_id. }
  rewrite header_encode_spec by (try apply status_ok_spec; done || (unfold FTAP_FRAME_HEADER_SIZE; lia)).
  unfold deref. run_simpl. change (status_ok FTAP_STATUS_OK) with true. cbn [negb].
  set (h := header_bytes _).
  assert (zlen h = 24) as Hh by apply header_bytes_zlen.
  destruct (Z.ltb_spec 0 (zlen data)) as [Hpos|Hnil].
  - destruct Hp as [[-> ->]|[tail ->]]; [change (zlen []) with 0 in Hpos; lia|]. run_simpl.
    rewrite buf_read_prefix. run_simpl.
    assert (length h = 24%nat) as Hhl by apply header_bytes_length.
    rewrite buf_write_in by (rewrite ?zlen_app, ?zlen_drop, ?Hh; lia).
    change (Z.to_nat 24) with 24%nat. run_simpl.
    rewrite take_app_length' by done. rewrite drop_app_ge by lia.
    rewrite Hhl, drop_drop, Nat.add_sub_assoc by lia. rewrite (Nat.add_comm 24 (24 + _)), Nat.add_sub.
    by destruct c.
  - destruct data as [|x data]; [|rewrite zlen_cons in Hnil; pose proof (zlen_nonneg data); lia].
    run_simpl. unfold queued. destruct c; done.
Qed.

(** Nothing but the output buffer changes. *)
Lemma queue_frame_frame c message_type flags request_id data (payload : ptr) close_after :
  output_ok c → (payload = None ∧ data = [] ∨ ∃ tail, payload = Some (data ++ tail)) →
  queue_frame c message_type flags request_id payload (zlen data) close_after = Some (-1, c) ∨
  ∃ out length, zlen out = AUTHD_RESPONSE_BUFFER_SIZE ∧ drained c ∧
    0 < length <= AUTHD_RESPONSE_BUFFER_SIZE ∧
    queue_frame c message_type flags request_id payload (zlen data) close_after =
      Some (0, queued out length close_after c).
Proof.
  intros Ho Hp. rewrite queue_frame_spec by done.
  destruct (can_queue _ _ _ _ _) eqn:Hq; [right|by left].
  unfold can_queue in Hq. bools.
  unfold output_ok, AUTHD_RESPONSE_BUFFER_SIZE, FTAP_FRAME_HEADER_SIZE in *.
  pose proof (zlen_nonneg data).
  eexists _, _. split; [|split; [done|split; [|done]]]; [|lia].
  rewrite !zlen_app, zlen_drop, header_bytes_zlen. unfold FTAP_FRAME_HEADER_SIZE, zlen in *. lia.
Qed.

(** ** Building payloads *)

Definition payload_capacity : Z := AUTHD_RESPONSE_BUFFER_SIZE - FTAP_FRAME_HEADER_SIZE.

(** The fields written so far into a payload of this capacity. *)
Definition writes_in (capacity : Z) (st : run (ftap_status * option ftap_tlv_writer))
    (fs : list field) : Prop :=
  ∃ w, st = Some (FTAP_STATUS_OK, Some w) ∧ writer_ok w ∧ w_capacity w = capacity ∧
    contents w = payload_of fs.

Abbreviation writes := (writes_in payload_capacity).

(** A run of puts that is not stuck, whatever the values. *)
Definition writing (st : run (ftap_status * option ftap_tlv_writer)) : Prop :=
  ∃ s w, st = Some (s, Some w) ∧ writer_ok w ∧ w_capacity w = payload_capacity.

Lemma writes_start : writes response_writer [].
Proof.
  eexists. split; [reflexivity|]. split; [|done].
  eexists. split; [reflexivity|]. vm_compute. split; [done|]. by split.
Qed.

Lemma writing_start : writing response_writer.
Proof. destruct writes_start as (w & ? & ? & ? & _). by eexists _, w. Qed.

(** [put] appends the field [f]. *)
Definition puts (put : option ftap_tlv_writer → run (ftap_status * option ftap_tlv_writer))
    (f : field) : Prop :=
  wire_ok f ∧ ∀ w, writer_ok w → put (Some w) = Some (put_status w f, Some (put_writer w f)).

Lemma writes_put capacity st fs put f :
  writes_in capacity st fs → puts put f →
  zlen (payload_of (fs ++ [f])) <= capacity <= FTAP_MAX_PAYLOAD_SIZE →
  writes_in capacity (st >>? put) (fs ++ [f]).
Proof.
  intros (w & -> & Hw & Hcap & Hc) [Hf Hput] [Hlen Hmax]. unfold and_put. run_simpl.
  change (status_ok FTAP_STATUS_OK) with true. cbv iota. rewrite Hput by done.
  assert (put_status w f = FTAP_STATUS_OK) as Hst.
  { revert Hlen. rewrite payload_of_app, <- Hc, zlen_app, contents_zlen by done.
    change (payload_of [f]) with (tlv_bytes f ++ []). rewrite app_nil_r, <- Hcap.
    unfold put_status. intros Hlen. rewrite (proj2 (Z.ltb_ge (w_capacity w) _)) by done.
    rewrite (proj2 (Z.ltb_ge _ _)); [done|]. lia. }
  exists (append w f). unfold put_writer. rewrite Hst. split; [done|].
  destruct (append_ok w f Hw Hst) as [Hok Hcont]. split; [done|]. split; [done|].
  rewrite Hcont, Hc, payload_of_app. f_equal. cbn. by rewrite app_nil_r.
Qed.

(** [put] appends some field or refuses, and is not stuck. *)
Definition putting (put : option ftap_tlv_writer → run (ftap_status * option ftap_tlv_writer))
    : Prop :=
  ∀ w, writer_ok w → ∃ s w', put (Some w) = Some (s, Some w') ∧ writer_ok w' ∧
    w_capacity w' = w_capacity w.

Lemma puts_putting put f : puts put f → putting put.
Proof.
  intros [Hf Hput] w Hw. eexists _, _. split; [by apply Hput|]. unfold put_writer.
  destruct (status_ok (put_status w f)) eqn:E; [|done].
  apply status_ok_spec in E. split; [|done]. by apply append_ok.
Qed.

Lemma writing_put st put : writing st → putting put → writing (st >>? put).
Proof.
  intros (s & w & -> & Hw & Hcap) Hput. unfold and_put. run_simpl.
  destruct (status_ok s); [|by eexists _, w].
  destruct (Hput w Hw) as (s' & w' & -> & Hw' & Hc). eexists _, w'. by rewrite Hc.
Qed.

Definition field_number (n : Z) : Prop := fits 16 n ∧ n ≠ 0.

Lemma plain_wire_ok n v :
  field_number n → bytes_ok v → zlen v <= UINT32_MAX → wire_ok (Field n 0 v).
Proof. intros Hn Hv Hl. split; [done| |done..]. by split. Qed.

Lemma puts_uuid n uuid :
  field_number n → bytes_ok uuid → zlen uuid = FTAP_UUID_SIZE → puts (put_uuid n uuid) (Field n 0 uuid).
Proof.
  intros Hn Hok Hl. split; [apply plain_wire_ok; [done..|by rewrite Hl]|].
  intros w Hw. unfold put_uuid, ftap_tlv_writer_put_uuid. cbn [is_null]. rewrite <- Hl.
  rewrite <- (app_nil_r uuid) at 1.
  apply (writer_put_spec w (Field n 0 uuid) []); [done|].
  apply plain_wire_ok; [done..|by rewrite Hl].
Qed.

Lemma puts_word n v k bytes put :
  field_number n → bytes = be_bytes k v → Z.of_nat k <= 8 →
  (∀ w, put w = ftap_tlv_writer_put w n 0 (Some bytes) (Z.of_nat k)) →
  puts put (Field n 0 bytes).
Proof.
  intros Hn -> Hk Hput.
  assert (wire_ok (Field n 0 (be_bytes k v))) as Hf.
  { apply plain_wire_ok; [done|apply be_bytes_ok|]. rewrite be_bytes_zlen.
    unfold UINT32_MAX. lia. }
  split; [done|]. intros w Hw. rewrite Hput. pose proof (writer_put_spec w _ [] Hw Hf) as H.
  cbn [f_type f_flags f_value] in H. by rewrite app_nil_r, be_bytes_zlen in H.
Qed.

Lemma puts_u32 n v : field_number n → puts (put_u32 n v) (Field n 0 (be_bytes 4 v)).
Proof.
  intros Hn. eapply puts_word; [done|reflexivity|lia|]. intros w. unfold put_u32, ftap_tlv_writer_put_u32.
  rewrite write_u32_be_spec, (buf_write_in [0; 0; 0; 0]) by (vm_compute; done). run_simpl.
  cbn [length Nat.add drop take Z.to_nat]. rewrite be_bytes_length. done.
Qed.

Lemma puts_u64 n v : field_number n → puts (put_u64 n v) (Field n 0 (be_bytes 8 v)).
Proof.
  intros Hn. eapply puts_word; [done|reflexivity|lia|]. intros w. unfold put_u64, ftap_tlv_writer_put_u64.
  rewrite write_u64_be_spec by (vm_compute; done). rewrite (buf_write_in [0; 0; 0; 0; 0; 0; 0; 0]) by (vm_compute; done).
  run_simpl. cbn [length Nat.add drop take Z.to_nat]. rewrite be_bytes_length. done.
Qed.

Lemma cstr_split l : ∃ tail, l = cstr l ++ tail.
Proof.
  induction l as [|b l [tail IH]]; [by exists []|]. cbn. case_if; [by exists (b :: l)|].
  exists tail. cbn. by f_equal.
Qed.

(** A text of any contents is written or refused. *)
Lemma put_data_cases n maximum data tail w :
  field_number n → bytes_ok (data ++ tail) → maximum <= UINT32_MAX → writer_ok w →
  if (zlen data <=? maximum) && utf8_ok data
  then wire_ok (Field n 0 data) ∧
    ftap_tlv_writer_put_text (Some w) n 0 (Some (data ++ tail)) (zlen data) maximum =
      Some (put_status w (Field n 0 data), Some (put_writer w (Field n 0 data)))
  else ∃ s, status_ok s = false ∧
    ftap_tlv_writer_put_text (Some w) n 0 (Some (data ++ tail)) (zlen data) maximum = Some (s, Some w).
Proof.
  intros Hn [Hok Htail]%bytes_ok_app Hmax Hw. unfold ftap_tlv_writer_put_text.
  rewrite Z.leb_antisym. destruct (Z.ltb_spec maximum (zlen data)).
  { by exists FTAP_STATUS_ERR_LENGTH. }
  pose proof (zlen_nonneg data). pose proof (zlen_nonneg tail).
  rewrite ftap_utf8_text_is_valid_spec by (rewrite ?zlen_app; lia).
  rewrite take_app_length' by (unfold zlen; lia). run_simpl. cbn [negb andb].
  destruct (utf8_ok data); [|by exists FTAP_STATUS_ERR_ENCODING]. cbn [negb].
  assert (wire_ok (Field n 0 data)) as Hf by (apply plain_wire_ok; [done|done|lia]).
  split; [done|]. exact (writer_put_spec w _ tail Hw Hf).
Qed.

Lemma put_text_cases n maximum text w :
  field_number n → bytes_ok text → maximum <= UINT32_MAX → writer_ok w →
  if (strlen text <=? maximum) && utf8_ok (cstr text)
  then wire_ok (Field n 0 (cstr text)) ∧
    put_text n maximum text (Some w) =
      Some (put_status w (Field n 0 (cstr text)), Some (put_writer w (Field n 0 (cstr text))))
  else ∃ s, status_ok s = false ∧ put_text n maximum text (Some w) = Some (s, Some w).
Proof.
  intros Hn Hok. destruct (cstr_split text) as [tail Ht]. unfold put_text, strlen.
  rewrite Ht in Hok. pose proof (put_data_cases n maximum (cstr text) tail w Hn Hok) as Hput.
  rewrite <- Ht in Hput. exact Hput.
Qed.

Lemma puts_text n maximum text :
  field_number n → bytes_ok text → strlen text <= maximum → maximum <= UINT32_MAX →
  utf8_ok (cstr text) = true →
  puts (put_text n maximum text) (Field n 0 (cstr text)).
Proof.
  intros Hn Hok Hlen Hmax Hu. split.
  - apply plain_wire_ok; [done|by apply cstr_bytes_ok|]. unfold strlen in Hlen. lia.
  - intros w Hw. pose proof (put_text_cases n maximum text w Hn Hok Hmax Hw) as H.
    rewrite (proj2 (Z.leb_le _ _)), Hu in H by done. apply H.
Qed.

Lemma putting_text n maximum text :
  field_number n → bytes_ok text → maximum <= UINT32_MAX → putting (put_text n maximum text).
Proof.
  intros Hn Hok Hmax w Hw. pose proof (put_text_cases n maximum text w Hn Hok Hmax Hw) as H.
  destruct (_ && _).
  - destruct H as [Hf ->]. eexists _, _. split; [done|]. unfold put_writer.
    destruct (status_ok (put_status w _)) eqn:E; [|done].
    apply status_ok_spec in E. split; [|done]. by apply append_ok.
  - destruct H as (s & _ & ->). by eexists _, w.
Qed.

Lemma writes_fold capacity st fs ps gs :
  writes_in capacity st fs → Forall2 puts ps gs →
  zlen (payload_of (fs ++ gs)) <= capacity <= FTAP_MAX_PAYLOAD_SIZE →
  writes_in capacity (fold_left and_put ps st) (fs ++ gs).
Proof.
  intros Hst Hps. revert st fs Hst. induction Hps as [|p g ps gs Hp Hps IH]; intros st fs Hst Hlen.
  { by rewrite app_nil_r. }
  cbn [fold_left]. change (g :: gs) with ([g] ++ gs) in *. rewrite app_assoc in *.
  apply IH; [|done]. apply writes_put; [done..|].
  revert Hlen. rewrite payload_of_app, zlen_app. pose proof (zlen_nonneg (payload_of gs)). lia.
Qed.

Lemma payload_zlen_cons f fs :
  zlen (payload_of (f :: fs)) = 8 + zlen (f_value f) + zlen (payload_of fs).
Proof.
  change (payload_of (f :: fs)) with (tlv_bytes f ++ payload_of fs).
  by rewrite zlen_app, tlv_bytes_zlen.
Qed.

Lemma puts_wire ps fs : Forall2 puts ps fs → Forall wire_ok fs.
Proof. induction 1 as [|p f ps fs [? _]]; by constructor. Qed.

(** ** Responses *)

(** A response is put into the output buffer or refused; nothing else changes. *)
Definition responds (c : authd_client) (r : run (Z * authd_client)) : Prop :=
  r = Some (-1, c) ∨
  ∃ out length close_after, zlen out = AUTHD_RESPONSE_BUFFER_SIZE ∧ drained c ∧
    0 < length <= AUTHD_RESPONSE_BUFFER_SIZE ∧
    r = Some (0, queued out length close_after c).

Lemma queue_frame_responds c message_type flags request_id data (payload : ptr) close_after :
  output_ok c → (payload = None ∧ data = [] ∨ ∃ tail, payload = Some (data ++ tail)) →
  responds c (queue_frame c message_type flags request_id payload (zlen data) close_after).
Proof.
  intros Ho Hp. destruct (queue_frame_frame c message_type flags request_id data payload close_after Ho Hp)
    as [H|(out & l & ? & ? & ? & H)]; [by left|right]. by exists out, l, close_after.
Qed.

Lemma writer_payload w :
  writer_ok w → ∃ tail, w_buffer w = Some (contents w ++ tail).
Proof.
  intros (b & Hb & _ & _). exists (drop (Z.to_nat (w_length w)) b).
  unfold contents. by rewrite Hb, take_drop.
Qed.

Lemma queue_payload_writes c message_type flags request_id close_after st fs :
  output_ok c → writes st fs →
  queue_payload c message_type flags request_id close_after st =
    queue_frame c message_type flags request_id (Some (payload_of fs)) (zlen (payload_of fs))
      close_after.
Proof.
  intros Ho (w & -> & Hw & _ & Hc). unfold queue_payload. run_simpl.
  change (status_ok FTAP_STATUS_OK) with true. cbn [negb]. unfold deref. run_simpl.
  rewrite <- (contents_zlen w Hw), Hc. destruct (writer_payload w Hw) as [tail Ht].
  rewrite Ht, Hc. rewrite !queue_frame_spec; try done.
  - right. exists []. by rewrite app_nil_r.
  - right. by exists tail.
Qed.

Lemma queue_payload_responds c message_type flags request_id close_after st :
  output_ok c → writing st →
  responds c (queue_payload c message_type flags request_id close_after st).
Proof.
  intros Ho (s & w & -> & Hw & _). unfold queue_payload. run_simpl.
  destruct (status_ok s); [|by left]. cbn [negb]. unfold deref. run_simpl.
  rewrite <- (contents_zlen w Hw). destruct (writer_payload w Hw) as [tail Ht].
  apply queue_frame_responds; [done|]. right. exists tail. exact Ht.
Qed.

(** The message that a client sends on: it fills the output buffer, and a peer
    that is in state [st] accepts it. *)
Record delivers `{Inet} (st : ftap_connection_state) (c c' : authd_client)
    (message_type flags request_id : Z) (fs : list field) (close_after : bool) : Prop := {
  deliver_bytes : outgoing c' =
    header_bytes (response_header message_type flags request_id (zlen (payload_of fs)))
    ++ payload_of fs;
  deliver_valid : message_ok st
    (response_header message_type flags request_id (zlen (payload_of fs))) (payload_of fs);
  deliver_wire : Forall wire_ok fs;
  deliver_frame : ∃ out,
    c' = queued out (FTAP_FRAME_HEADER_SIZE + zlen (payload_of fs)) close_after c ∧ output_ok c';
}.

Section delivery.
Context `{Inet}.

(** The parts of [fields_ok] that depend on the field types only. *)
Definition shape_ok (rules : list ftap_field_rule) (types : list Z) : bool :=
  forallb ftap_field_type_is_known types
  && bool_decide (NoDup types)
  && forallb (λ t, existsb (λ r, rule_type r =? t) rules) types
  && forallb (λ r, negb (rule_required r) || existsb (Z.eqb (rule_type r)) types) rules.

Lemma fields_ok_by_shape message_type rules fs :
  shape_ok rules (map f_type fs) = true → Forall (value_ok message_type) fs →
  fields_ok message_type rules fs.
Proof.
  unfold shape_ok. intros Hs Hv. bools. rewrite !forallb_forall in *.
  assert (∀ f, f ∈ fs → In (f_type f) (map f_type fs)) as Hin.
  { intros f Hf. apply in_map. by apply list_elem_of_In. }
  split.
  - intros f Hf%Hin Hk. match goal with H : ∀ x, _ → ftap_field_type_is_known x = true |- _ =>
      by rewrite (H _ Hf) in Hk end.
  - intros f Hf _. split; [by apply (Forall_forall (value_ok message_type) fs)|].
    match goal with H : ∀ x, _ → existsb _ rules = true |- _ =>
      pose proof (H _ (Hin f Hf)) as (r & Hr & Heq)%existsb_exists end.
    exists r. split; [by apply list_elem_of_In|]. by apply Z.eqb_eq.
  - intros rule i j f g _ _ Hi Hj Hf Hg.
    match goal with H : NoDup _ |- _ => eapply (NoDup_lookup _ _ _ (f_type f) H) end;
      rewrite list_lookup_fmap, ?Hi, ?Hj; cbn; [done|]. by rewrite Hf, Hg.
  - intros rule Hr Hreq. apply list_elem_of_In in Hr.
    match goal with H : ∀ x, In x rules → _ |- _ => pose proof (H rule Hr) as Hex end.
    rewrite Hreq in Hex. cbn [negb orb] in Hex.
    apply existsb_exists in Hex as (t & Ht & Heq). apply Z.eqb_eq in Heq.
    apply in_map_iff in Ht as (f & Hf & Hin'). exists f. rewrite list_elem_of_In. split; [done|].
    by rewrite Hf.
Qed.

Definition unrestricted (message_type n : Z) : bool :=
  negb (message_type =? FTAP_MSG_REGISTRATION_BEGIN_REQUEST)
  && forallb (λ '(m, t, _), negb ((message_type =? m) && (n =? t))) restrictions.

Lemma value_ok_unrestricted message_type n v k :
  unrestricted message_type n = true → field_kind n = Some k → kind_ok k v →
  value_ok message_type (Field n 0 v).
Proof.
  unfold unrestricted. intros Hu Hk Hv. bools. rewrite forallb_forall in *. split; [|split].
  - by exists k.
  - done.
  - intros names Hin%list_elem_of_In. cbn [f_type f_value] in *.
    match goal with H : ∀ x, _ |- _ => specialize (H _ Hin); cbn in H;
      by rewrite !Z.eqb_refl in H end.
Qed.

Lemma value_ok_constant message_type n v :
  field_number n → bytes_ok v → zlen v <= UINT32_MAX →
  message_value_status message_type (Field n 0 v) = FTAP_STATUS_OK →
  value_ok message_type (Field n 0 v).
Proof. intros. apply message_value_status_ok; done. Qed.

(** Whatever is queued with valid fields is delivered. *)
Lemma delivered st c message_type flags request_id close_after ps fs :
  output_ok c → drained c → Forall2 puts ps fs → zlen (payload_of fs) <= payload_capacity →
  fits 64 request_id → FTAP_FIRST_CLIENT_REQUEST_ID <= request_id →
  expected_flags message_type (Some 0) = (FTAP_STATUS_OK, Some flags) →
  Z.land flags FTAP_FRAME_FLAG_SERVER_PUSH = 0 →
  flags_unknown flags FTAP_FRAME_FLAG_KNOWN_MASK = false →
  ftap_message_type_is_known message_type = true →
  state_allows_message st message_type = true →
  shape_ok (message_rules st message_type) (map f_type fs) = true →
  Forall (value_ok message_type) fs →
  ∃ c', queue_payload c message_type flags request_id close_after
          (fold_left and_put ps response_writer) = Some (0, c') ∧
    delivers st c c' message_type flags request_id fs close_after.
Proof.
  intros Ho Hd Hps Hcap Hfits Hreq Hexp Hpush Hknown Htype Hstate Hshape Hvalue.
  pose proof (puts_wire _ _ Hps) as Hw.
  assert (payload_capacity <= FTAP_MAX_PAYLOAD_SIZE) as Hmax by (vm_compute; congruence).
  pose proof (writes_fold payload_capacity response_writer [] ps fs writes_start Hps
    (conj Hcap Hmax)) as Hputs.
  cbn [app] in Hputs. rewrite (queue_payload_writes c message_type flags request_id close_after _ _ Ho Hputs).
  rewrite queue_frame_spec; [|done|right; exists []; by rewrite app_nil_r].
  unfold payload_capacity, AUTHD_RESPONSE_BUFFER_SIZE, FTAP_FRAME_HEADER_SIZE in Hcap.
  pose proof (zlen_nonneg (payload_of fs)).
  assert (can_queue c message_type flags request_id (zlen (payload_of fs)) = true) as ->.
  { unfold can_queue, response_header, validate_header_common. cbn [hdr_flags hdr_payload_length hdr_request_id
      hdr_major hdr_minor andb].
    rewrite bool_decide_true by done. rewrite (proj2 (Z.leb_le _ _)) by (vm_compute; done || (unfold AUTHD_RESPONSE_BUFFER_SIZE, FTAP_FRAME_HEADER_SIZE; lia)).
    rewrite Hknown, Hpush. rewrite (proj2 (Z.ltb_ge _ _)) by (unfold FTAP_MAX_PAYLOAD_SIZE; lia).
    cbn [Z.eqb negb]. rewrite (proj2 (Z.ltb_ge _ _)) by done. done. }
  eexists. split; [reflexivity|]. split.
  - unfold outgoing, rest, queued. cbn [output output_length output_offset set_close_after_write
      set_output_length set_output_offset set_output]. rewrite Z.sub_0_r.
    change (Z.to_nat 0) with 0%nat. rewrite drop_0, app_assoc. apply take_app_length'.
    rewrite length_app, header_bytes_length. unfold FTAP_FRAME_HEADER_SIZE, zlen. lia.
  - split.
    + split; cbn [response_header hdr_message_type hdr_major hdr_minor hdr_payload_length hdr_flags hdr_request_id];
        try done; [split; [done|unfold FTAP_MAX_PAYLOAD_SIZE; lia]|].
      case_bool_decide as Hf; [|done]. by rewrite Hf in Hpush.
    + exists fs. split; [done|]. split; [done|]. by apply fields_ok_by_shape.
  - done.
  - eexists. split; [reflexivity|]. unfold output_ok. cbn [output queued set_close_after_write
      set_output_length set_output_offset set_output].
    rewrite !zlen_app, zlen_drop, header_bytes_zlen. unfold output_ok, AUTHD_RESPONSE_BUFFER_SIZE,
      FTAP_FRAME_HEADER_SIZE, zlen in *. lia.
Qed.
End delivery.

(** ** What the database hands out *)

(** A [char] array of [maximum + 1] elements with a text in it. *)
Record text_array (maximum : Z) (l : list Z) : Prop := {
  ta_bytes : bytes_ok l;
  ta_length : zlen l = maximum + 1;
  ta_text : short_text maximum (cstr l);
}.

Record uuid_ok (l : list Z) : Prop := {
  uuid_bytes : bytes_ok l;
  uuid_length : zlen l = FTAP_UUID_SIZE;
}.

Definition legacy_array (l : list Z) : Prop :=
  text_array FTAP_LEGACY_NAME_MAX l ∧
  name_ok is_legacy_name_first_character is_legacy_name_character (cstr l) = true.

Record session_ok (s : authd_terminal_session_result) : Prop := {
  so_user : uuid_ok (ts_user_id s);
  so_session : uuid_ok (ts_session_id s);
}.

(** The names that every response about an account carries. *)
Record names_ok (login_name display_name legacy_name : list Z) : Prop := {
  no_login : text_array FTAP_LOGIN_NAME_MAX login_name;
  no_display : text_array FTAP_DISPLAY_NAME_MAX display_name;
  no_legacy : legacy_array legacy_name;
}.

Lemma text_strlen maximum l : text_array maximum l → strlen l <= maximum.
Proof. intros [_ _ (_ & ? & _)]. done. Qed.

Lemma puts_array n maximum l :
  field_number n → maximum <= UINT32_MAX → text_array maximum l →
  puts (put_text n maximum l) (Field n 0 (cstr l)).
Proof.
  intros Hn Hmax Ht. pose proof (text_strlen _ _ Ht). destruct Ht as [Hok _ (_ & _ & Hu)].
  apply puts_text; try done. apply utf8_ok_text; [by apply cstr_bytes_ok|done].
Qed.

Lemma puts_legacy n l :
  field_number n → legacy_array l → puts (put_text n FTAP_LEGACY_NAME_MAX l) (Field n 0 (cstr l)).
Proof. intros Hn [Hl _]. by apply puts_array. Qed.

Lemma puts_literal n maximum l :
  field_number n → maximum <= UINT32_MAX → bytes_ok l → zlen l <= maximum → utf8_ok l = true →
  puts (put_text n maximum l) (Field n 0 l).
Proof.
  intros Hn Hmax Hok Hl Hu. pose proof (utf8_ok_nonzero l Hu) as Hnz.
  rewrite <- (cstr_id l Hnz) at 2. apply puts_text; [done|done| |done|by rewrite cstr_id].
  unfold strlen. by rewrite cstr_id.
Qed.

(** View a chain of puts as a list of them. *)
Ltac chain_puts st acc :=
  lazymatch st with
  | and_put ?a ?p => chain_puts a constr:(p :: acc)
  | _ => constr:((st, acc))
  end.

Ltac by_delivered :=
  lazymatch goal with
  | |- ∃ c', queue_payload ?c ?m ?f ?r ?cl ?st = Some (0, c') ∧ _ =>
      let l := chain_puts st
        (@nil (option ftap_tlv_writer → run (ftap_status * option ftap_tlv_writer))) in
      lazymatch l with
      | (?start, ?ps) =>
          change (queue_payload c m f r cl st) with
            (queue_payload c m f r cl (fold_left and_put ps start));
          apply delivered; try done
      end
  end.

Ltac field_number := split; [split; vm_compute; congruence | vm_compute; congruence].

(** The puts of the responses. *)
Ltac solve_puts :=
  repeat (constructor;
    [first
      [ apply puts_uuid; [field_number | apply uuid_bytes; assumption | apply uuid_length; assumption]
      | apply puts_legacy; [field_number | assumption]
      | apply puts_array; [field_number | vm_compute; congruence | assumption]
      | apply puts_literal;
          [field_number | vm_compute; congruence | apply lit_bytes_ok
          | vm_compute; congruence | vm_compute; reflexivity]
      | apply puts_u64; field_number
      | apply puts_u32; field_number ] |]); constructor.

(** The length of a payload of known fields. *)
Ltac payload_fits :=
  rewrite !payload_zlen_cons; cbn [f_value];
  repeat match goal with
  | H : text_array _ _ |- _ => apply text_strlen in H
  | H : legacy_array _ |- _ => destruct H as [H _]
  | H : uuid_ok _ |- _ => apply uuid_length in H
  end;
  rewrite ?be_bytes_zlen; unfold strlen in *;
  change payload_capacity with 488; change (zlen (payload_of [])) with 0;
  unfold FTAP_LOGIN_NAME_MAX, FTAP_DISPLAY_NAME_MAX, FTAP_LEGACY_NAME_MAX, FTAP_UUID_SIZE,
    FTAP_PROTOCOL_NAME_MAX, FTAP_AUTH_METHOD_MAX in *;
  repeat match goal with
  | |- context [zlen ?l] =>
      let n := eval vm_compute in (zlen l) in
      lazymatch n with Zpos _ => change (zlen l) with n end
  end;
  lia.

(** A constant among the names that a field admits. *)
Record constant_array (maximum : Z) (names : list (list Z)) (l : list Z) : Prop := {
  ca_text : text_array maximum l;
  ca_name : cstr l ∈ names;
}.

Record bound_names_ok (b : authd_bound_session_context) : Prop := {
  bn_names : names_ok (bs_login_name b) (bs_display_name b) (bs_legacy_name b);
  bn_protocol : constant_array FTAP_PROTOCOL_NAME_MAX
    [FTAP_PROTOCOL_TELNET; FTAP_PROTOCOL_SSH; FTAP_PROTOCOL_LOCAL] (bs_protocol b);
  bn_method : constant_array FTAP_AUTH_METHOD_MAX [FTAP_AUTH_METHOD_PASSWORD] (bs_auth_method b);
}.

Record registration_ok (r : authd_registration_begin_result) : Prop := {
  ro_id : uuid_ok (rb_registration_id r);
  ro_user : uuid_ok (rb_user_id r);
  ro_names : names_ok (rb_login_name r) (rb_display_name r) (rb_legacy_name r);
}.

Record commit_ok (r : authd_registration_commit_result) : Prop := {
  co_id : uuid_ok (rc_registration_id r);
  co_session : session_ok (rc_session r);
  co_names : names_ok (rc_login_name r) (rc_display_name r) (rc_legacy_name r);
}.

Section responses.
Context `{Inet}.

Lemma kind_ok_legacy l :
  legacy_array l →
  kind_ok (KName FTAP_LEGACY_NAME_MAX is_legacy_name_first_character is_legacy_name_character)
    (cstr l).
Proof.
  intros [[_ _ (_ & Hl & _)] Hn]. split; [done|]. destruct (cstr l) as [|c cs]; [done|].
  cbn in Hn. bools. exists c, cs. split; [done|]. split; [done|]. by apply forallb_Forall.
Qed.

Lemma kind_ok_array maximum l : text_array maximum l → kind_ok (KText maximum) (cstr l).
Proof. by intros [_ _ ?]. Qed.

Lemma kind_ok_uuid l : uuid_ok l → kind_ok (KFixed FTAP_UUID_SIZE) l.
Proof. by intros [_ ?]. Qed.

Lemma kind_ok_u64 v : kind_ok (KFixed 8) (be_bytes 8 v).
Proof. apply be_bytes_zlen. Qed.

Lemma kind_ok_u32 v : kind_ok (KFixed 4) (be_bytes 4 v).
Proof. apply be_bytes_zlen. Qed.

(** The values of the fields of the responses. *)
Ltac solve_values :=
  repeat (constructor;
    [first
      [ eapply value_ok_unrestricted;
          [reflexivity | reflexivity
          | first [ apply kind_ok_uuid; assumption | apply kind_ok_legacy; assumption
                  | apply kind_ok_array; assumption | assumption | apply kind_ok_u64 | apply kind_ok_u32 ]]
      | apply value_ok_constant;
          [field_number | apply lit_bytes_ok | vm_compute; congruence | vm_compute; reflexivity] ] |]);
  constructor.

Lemma queue_authentication_result_delivers c request_id attempt s st :
  output_ok c → drained c → session_ok s →
  names_ok (lr_login_name (la_record attempt)) (lr_display_name (la_record attempt))
    (lr_legacy_name (la_record attempt)) →
  fits 64 request_id → FTAP_FIRST_CLIENT_REQUEST_ID <= request_id →
  state_allows_message st FTAP_MSG_AUTH_PASSWORD_RESULT = true →
  ∃ c', queue_authentication_result c request_id attempt s = Some (0, c') ∧
    delivers st c c' FTAP_MSG_AUTH_PASSWORD_RESULT FTAP_FRAME_FLAG_RESPONSE request_id
      [Field FTAP_FIELD_USER_ID 0 (ts_user_id s);
       Field FTAP_FIELD_SESSION_ID 0 (ts_session_id s);
       Field FTAP_FIELD_LOGIN_NAME 0 (cstr (lr_login_name (la_record attempt)));
       Field FTAP_FIELD_DISPLAY_NAME 0 (cstr (lr_display_name (la_record attempt)));
       Field FTAP_FIELD_LEGACY_NAME 0 (cstr (lr_legacy_name (la_record attempt)));
       Field FTAP_FIELD_AUTH_EPOCH 0 (be_bytes 8 (ts_auth_epoch s));
       Field FTAP_FIELD_AUTHZ_REVISION 0 (be_bytes 8 (ts_authz_revision s))] false.
Proof.
  intros Ho Hd [Hu Hs] [Hl Hn Hg] Hfits Hreq Hst.
  unfold queue_authentication_result. by_delivered.
  - solve_puts.
  - payload_fits.
  - solve_values.
Qed.

Lemma queue_session_context_result_delivers c request_id st :
  output_ok c → drained c → session_open c = true → session_ok (session c) →
  bound_names_ok (session_context c) →
  fits 64 request_id → FTAP_FIRST_CLIENT_REQUEST_ID <= request_id →
  state_allows_message st FTAP_MSG_SESSION_CONTEXT_RESULT = true →
  ∃ c', queue_session_context_result c request_id = Some (0, c') ∧
    delivers st c c' FTAP_MSG_SESSION_CONTEXT_RESULT FTAP_FRAME_FLAG_RESPONSE request_id
      [Field FTAP_FIELD_USER_ID 0 (ts_user_id (session c));
       Field FTAP_FIELD_SESSION_ID 0 (ts_session_id (session c));
       Field FTAP_FIELD_LOGIN_NAME 0 (cstr (bs_login_name (session_context c)));
       Field FTAP_FIELD_DISPLAY_NAME 0 (cstr (bs_display_name (session_context c)));
       Field FTAP_FIELD_LEGACY_NAME 0 (cstr (bs_legacy_name (session_context c)));
       Field FTAP_FIELD_PROTOCOL 0 (cstr (bs_protocol (session_context c)));
       Field FTAP_FIELD_AUTH_METHOD 0 (cstr (bs_auth_method (session_context c)));
       Field FTAP_FIELD_AUTH_EPOCH 0 (be_bytes 8 (ts_auth_epoch (session c)));
       Field FTAP_FIELD_AUTHZ_REVISION 0 (be_bytes 8 (ts_authz_revision (session c)))] false.
Proof.
  intros Ho Hd Hopen [Hu Hs] [[Hl Hn Hg] [Hp Hpe] [Hm Hme]] Hfits Hreq Hst.
  unfold queue_session_context_result. rewrite Hopen. cbn [negb]. by_delivered.
  - solve_puts.
  - payload_fits.
  - solve_values.
Qed.

Lemma queue_registration_begin_result_delivers c request_id r st :
  output_ok c → drained c → registration_ok r →
  fits 64 request_id → FTAP_FIRST_CLIENT_REQUEST_ID <= request_id →
  state_allows_message st FTAP_MSG_REGISTRATION_BEGIN_RESULT = true →
  ∃ c', queue_registration_begin_result c request_id r = Some (0, c') ∧
    delivers st c c' FTAP_MSG_REGISTRATION_BEGIN_RESULT FTAP_FRAME_FLAG_RESPONSE request_id
      [Field FTAP_FIELD_REGISTRATION_ID 0 (rb_registration_id r);
       Field FTAP_FIELD_REGISTRATION_STATE 0 FTAP_REGISTRATION_STATE_PENDING_LEGACY;
       Field FTAP_FIELD_USER_ID 0 (rb_user_id r);
       Field FTAP_FIELD_LOGIN_NAME 0 (cstr (rb_login_name r));
       Field FTAP_FIELD_DISPLAY_NAME 0 (cstr (rb_display_name r));
       Field FTAP_FIELD_LEGACY_NAME 0 (cstr (rb_legacy_name r));
       Field FTAP_FIELD_ACCOUNT_STATE 0 FTAP_ACCOUNT_STATE_PENDING] false.
Proof.
  intros Ho Hd [Hi Hu [Hl Hn Hg]] Hfits Hreq Hst.
  unfold queue_registration_begin_result. by_delivered.
  - solve_puts.
  - payload_fits.
  - solve_values.
Qed.

Lemma queue_registration_abort_result_delivers c request_id r st :
  output_ok c → drained c → registration_ok r →
  fits 64 request_id → FTAP_FIRST_CLIENT_REQUEST_ID <= request_id →
  state_allows_message st FTAP_MSG_REGISTRATION_ABORT_RESULT = true →
  ∃ c', queue_registration_abort_result c request_id r = Some (0, c') ∧
    delivers st c c' FTAP_MSG_REGISTRATION_ABORT_RESULT FTAP_FRAME_FLAG_RESPONSE request_id
      [Field FTAP_FIELD_REGISTRATION_ID 0 (rb_registration_id r);
       Field FTAP_FIELD_REGISTRATION_STATE 0 FTAP_REGISTRATION_STATE_ABORTED;
       Field FTAP_FIELD_USER_ID 0 (rb_user_id r)] false.
Proof.
  intros Ho Hd [Hi Hu _] Hfits Hreq Hst.
  unfold queue_registration_abort_result. by_delivered.
  - solve_puts.
  - payload_fits.
  - solve_values.
Qed.

Lemma queue_registration_commit_result_delivers c request_id r st :
  output_ok c → drained c → commit_ok r →
  fits 64 request_id → FTAP_FIRST_CLIENT_REQUEST_ID <= request_id →
  state_allows_message st FTAP_MSG_REGISTRATION_COMMIT_RESULT = true →
  ∃ c', queue_registration_commit_result c request_id r = Some (0, c') ∧
    delivers st c c' FTAP_MSG_REGISTRATION_COMMIT_RESULT FTAP_FRAME_FLAG_RESPONSE request_id
      [Field FTAP_FIELD_REGISTRATION_ID 0 (rc_registration_id r);
       Field FTAP_FIELD_REGISTRATION_STATE 0 FTAP_REGISTRATION_STATE_COMPLETED;
       Field FTAP_FIELD_USER_ID 0 (ts_user_id (rc_session r));
       Field FTAP_FIELD_SESSION_ID 0 (ts_session_id (rc_session r));
       Field FTAP_FIELD_LOGIN_NAME 0 (cstr (rc_login_name r));
       Field FTAP_FIELD_DISPLAY_NAME 0 (cstr (rc_display_name r));
       Field FTAP_FIELD_LEGACY_NAME 0 (cstr (rc_legacy_name r));
       Field FTAP_FIELD_ACCOUNT_STATE 0 FTAP_ACCOUNT_STATE_ACTIVE;
       Field FTAP_FIELD_PROTOCOL 0 FTAP_PROTOCOL_TELNET;
       Field FTAP_FIELD_AUTH_METHOD 0 FTAP_AUTH_METHOD_PASSWORD;
       Field FTAP_FIELD_AUTH_EPOCH 0 (be_bytes 8 (ts_auth_epoch (rc_session r)));
       Field FTAP_FIELD_AUTHZ_REVISION 0 (be_bytes 8 (ts_authz_revision (rc_session r)))] false.
Proof.
  intros Ho Hd [Hi [Hu Hs] [Hl Hn Hg]] Hfits Hreq Hst.
  unfold queue_registration_commit_result. by_delivered.
  - solve_puts.
  - payload_fits.
  - solve_values.
Qed.

(** The codes that the protocol has for errors. *)
Definition error_code_ok (code : Z) : Prop := FTAP_ERR_PROTOCOL <= code <= FTAP_ERR_PASSWORD_POLICY.

Lemma error_text_ok code :
  bytes_ok (error_text code) ∧ 1 <= zlen (error_text code) <= 100 ∧ utf8_ok (error_text code) = true.
Proof.
  unfold error_text. repeat case_if;
    (split; [apply lit_bytes_ok|split; [vm_compute; by split|vm_compute; reflexivity]]).
Qed.

Lemma and_put_nothing st fs : writes st fs → (st >>? (λ w, Some (FTAP_STATUS_OK, w))) = st.
Proof. by intros (w & -> & _). Qed.

Lemma queue_error_with_retry_delivers c request_id code retry st :
  output_ok c → drained c → error_code_ok code → 0 <= retry →
  fits 64 request_id → FTAP_FIRST_CLIENT_REQUEST_ID <= request_id →
  st ≠ FTAP_STATE_CLOSING →
  ∃ c', queue_error_with_retry c request_id code retry = Some (0, c') ∧
    delivers st c c' FTAP_MSG_ERROR (FTAP_FRAME_FLAG_RESPONSE + FTAP_FRAME_FLAG_ERROR) request_id
      ([Field FTAP_FIELD_ERROR_CODE 0 (be_bytes 4 code);
        Field FTAP_FIELD_ERROR_TEXT 0 (error_text code)]
       ++ if 0 <? retry
          then [Field FTAP_FIELD_RETRY_AFTER_MS 0 (be_bytes 4 (Z.min retry UINT32_MAX))] else [])
      true.
Proof.
  intros Ho Hd Hcode Hretry Hfits Hreq Hst. destruct (error_text_ok code) as (Hok & Hlen & Hu).
  unfold queue_error_with_retry. rewrite (proj2 (Z.ltb_ge _ _)) by done.
  change (u16 _) with (FTAP_FRAME_FLAG_RESPONSE + FTAP_FRAME_FLAG_ERROR).
  assert (puts (put_text FTAP_FIELD_ERROR_TEXT FTAP_ERROR_TEXT_MAX (error_text code))
            (Field FTAP_FIELD_ERROR_TEXT 0 (error_text code))) as Htext.
  { apply puts_literal; [field_number|vm_compute; congruence|done| |done].
    unfold FTAP_ERROR_TEXT_MAX. lia. }
  assert (value_ok FTAP_MSG_ERROR (Field FTAP_FIELD_ERROR_CODE 0 (be_bytes 4 code))) as Hvc.
  { eapply value_ok_unrestricted; [done|reflexivity|]. split; [apply be_bytes_zlen|].
    rewrite be_val_bytes_fits; [done|]. destruct Hcode.
    unfold FTAP_ERR_PROTOCOL, FTAP_ERR_PASSWORD_POLICY, fits in *. change (2 ^ _) with 4294967296. lia. }
  assert (value_ok FTAP_MSG_ERROR (Field FTAP_FIELD_ERROR_TEXT 0 (error_text code))) as Hvt.
  { eapply value_ok_unrestricted; [done|reflexivity|]. split; [|split].
    - intros Hnil. rewrite Hnil in Hlen. by destruct Hlen.
    - unfold FTAP_ERROR_TEXT_MAX. lia.
    - by apply utf8_ok_text. }
  assert (state_allows_message st FTAP_MSG_ERROR = true) as Hall by (by destruct st).
  destruct (Z.ltb_spec 0 retry) as [Hpos|Hzero]; cbn [app].
  - assert ((if UINT32_MAX <? retry then UINT32_MAX else u32 retry) = Z.min retry UINT32_MAX) as ->.
    { destruct (Z.ltb_spec UINT32_MAX retry); [lia|]. unfold u32. rewrite wrap_fits; [lia|].
      unfold fits, UINT32_MAX in *. lia. }
    by_delivered.
    + constructor; [apply puts_u32; field_number|]. constructor; [done|].
      constructor; [|constructor]. apply puts_u32. field_number.
    + payload_fits.
    + constructor; [done|]. constructor; [done|]. solve_values.
  - rewrite and_put_nothing with (fs := [Field FTAP_FIELD_ERROR_CODE 0 (be_bytes 4 code);
      Field FTAP_FIELD_ERROR_TEXT 0 (error_text code)]).
    + by_delivered.
      * constructor; [apply puts_u32; field_number|]. by constructor.
      * payload_fits.
      * constructor; [done|]. by constructor.
    + apply (writes_fold _ response_writer []  [put_u32 FTAP_FIELD_ERROR_CODE code;
        put_text FTAP_FIELD_ERROR_TEXT FTAP_ERROR_TEXT_MAX (error_text code)]); [exact writes_start| |].
      * constructor; [apply puts_u32; field_number|]. by constructor.
      * cbn [app]. split; [payload_fits|vm_compute; congruence].
Qed.
End responses.

(** ** Responses are never stuck *)

(** What the C types guarantee about arrays. *)
Record array_ok (size : Z) (l : list Z) : Prop := {
  array_bytes : bytes_ok l;
  array_length : zlen l = size;
}.

Record names_typed (login_name display_name legacy_name : list Z) : Prop := {
  nt_login : array_ok (FTAP_LOGIN_NAME_MAX + 1) login_name;
  nt_display : array_ok (FTAP_DISPLAY_NAME_MAX + 1) display_name;
  nt_legacy : array_ok (FTAP_LEGACY_NAME_MAX + 1) legacy_name;
}.

Record bound_names_typed (b : authd_bound_session_context) : Prop := {
  bt_names : names_typed (bs_login_name b) (bs_display_name b) (bs_legacy_name b);
  bt_protocol : array_ok (FTAP_PROTOCOL_NAME_MAX + 1) (bs_protocol b);
  bt_method : array_ok (FTAP_AUTH_METHOD_MAX + 1) (bs_auth_method b);
}.

Record registration_typed (r : authd_registration_begin_result) : Prop := {
  rt_id : uuid_ok (rb_registration_id r);
  rt_user : uuid_ok (rb_user_id r);
  rt_names : names_typed (rb_login_name r) (rb_display_name r) (rb_legacy_name r);
}.

Record commit_typed (r : authd_registration_commit_result) : Prop := {
  ct_id : uuid_ok (rc_registration_id r);
  ct_session : session_ok (rc_session r);
  ct_names : names_typed (rc_login_name r) (rc_display_name r) (rc_legacy_name r);
}.

Lemma putting_uuid n uuid : field_number n → uuid_ok uuid → putting (put_uuid n uuid).
Proof. intros Hn [Hok Hl]. by eapply puts_putting, puts_uuid. Qed.

Lemma putting_array n maximum size l :
  field_number n → maximum <= UINT32_MAX → array_ok size l → putting (put_text n maximum l).
Proof. intros Hn Hmax [Hok _]. by apply putting_text. Qed.

Lemma putting_literal n maximum s :
  field_number n → maximum <= UINT32_MAX → putting (put_text n maximum (lit s)).
Proof. intros Hn Hmax. apply putting_text; [done|apply lit_bytes_ok|done]. Qed.

Lemma putting_u64 n v : field_number n → putting (put_u64 n v).
Proof. intros Hn. by eapply puts_putting, puts_u64. Qed.

Ltac solve_responds :=
  apply queue_payload_responds; [assumption|];
  repeat first
    [ exact writing_start
    | apply writing_put;
      [| first
        [ apply putting_uuid; [field_number | assumption]
        | eapply putting_array; [field_number | vm_compute; congruence | eassumption]
        | apply putting_literal; [field_number | vm_compute; congruence]
        | apply putting_u64; field_number ]] ].

Lemma queue_error_with_retry_responds c request_id code retry :
  output_ok c → responds c (queue_error_with_retry c request_id code retry).
Proof.
  intros Ho. unfold queue_error_with_retry. case_if; [by left|].
  apply queue_payload_responds; [done|]. apply writing_put; [apply writing_put; [apply writing_put|]|].
  - exact writing_start.
  - eapply puts_putting, puts_u32. field_number.
  - apply putting_text; [field_number|apply error_text_ok|vm_compute; congruence].
  - case_if; [eapply puts_putting, puts_u32; field_number|]. intros w Hw. by eexists _, w.
Qed.

Lemma queue_error_responds c request_id code :
  output_ok c → responds c (queue_error c request_id code).
Proof. apply queue_error_with_retry_responds. Qed.

Lemma queue_authentication_result_responds c request_id attempt s :
  output_ok c → session_ok s →
  names_typed (lr_login_name (la_record attempt)) (lr_display_name (la_record attempt))
    (lr_legacy_name (la_record attempt)) →
  responds c (queue_authentication_result c request_id attempt s).
Proof. intros Ho [Hu Hs] [Hl Hn Hg]. solve_responds. Qed.

Lemma queue_session_context_result_responds c request_id :
  output_ok c → session_ok (session c) → bound_names_typed (session_context c) →
  responds c (queue_session_context_result c request_id).
Proof.
  intros Ho [Hu Hs] [[Hl Hn Hg] Hp Hm]. unfold queue_session_context_result.
  case_if; [by left|]. solve_responds.
Qed.

Lemma queue_registration_begin_result_responds c request_id r :
  output_ok c → registration_typed r → responds c (queue_registration_begin_result c request_id r).
Proof. intros Ho [Hi Hu [Hl Hn Hg]]. solve_responds. Qed.

Lemma queue_registration_abort_result_responds c request_id r :
  output_ok c → registration_typed r → responds c (queue_registration_abort_result c request_id r).
Proof. intros Ho [Hi Hu _]. solve_responds. Qed.

Lemma queue_registration_commit_result_responds c request_id r :
  output_ok c → commit_typed r → responds c (queue_registration_commit_result c request_id r).
Proof. intros Ho [Hi [Hu Hs] [Hl Hn Hg]]. solve_responds. Qed.

(** ** Properties *)

(** [queue_frame] accepts a payload exactly when the last response has been
    sent completely, the payload fits into the output buffer behind a header and
    the header may be encoded; then the bytes to send are a frame that decodes to
    the header and payload given. Otherwise it changes nothing. *)
Theorem queue_frame_correct c message_type flags request_id data tail close_after old :
  output_ok c → bytes_ok data →
  fits 16 message_type → fits 16 flags → fits 64 request_id →
  let h := response_header message_type flags request_id (zlen data) in
  ∃ r c', queue_frame c message_type flags request_id (Some (data ++ tail)) (zlen data) close_after
      = Some (r, c') ∧
    if can_queue c message_type flags request_id (zlen data)
    then r = 0 ∧ close_after_write c' = close_after ∧
      ftap_frame_header_decode (Some (outgoing c')) (zlen (outgoing c')) (Some old) =
        Some (FTAP_STATUS_OK, Some h) ∧
      drop 24 (outgoing c') = data
    else r = -1 ∧ c' = c.
Proof.
  intros Ho Hdata Hmt Hfl Hrid h. rewrite queue_frame_spec; [|done|right; by exists tail].
  fold h. destruct (can_queue _ _ _ _ _) eqn:Hq; eexists _, _; (split; [reflexivity|]); [|done].
  split; [done|]. split; [done|].
  assert (outgoing (queued (header_bytes h ++ data ++ drop (24 + length data) (output c))
      (FTAP_FRAME_HEADER_SIZE + zlen data) close_after c) = header_bytes h ++ data) as ->.
  { unfold outgoing, rest, queued. cbn [output output_length output_offset set_close_after_write
      set_output_length set_output_offset set_output]. rewrite Z.sub_0_r.
    change (Z.to_nat 0) with 0%nat. rewrite drop_0, app_assoc. apply take_app_length'.
    rewrite length_app, header_bytes_length. unfold FTAP_FRAME_HEADER_SIZE, zlen. lia. }
  split; [|apply drop_app_length'; by rewrite header_bytes_length].
  unfold can_queue in Hq. bools. rename select (status_ok _ = true) into Hs. apply status_ok_spec in Hs.
  fold h in Hs. pose proof (zlen_nonneg data).
  rewrite header_decode_spec.
  - unfold decode_answer. rewrite zlen_app, header_bytes_zlen.
    rewrite (proj2 (Z.ltb_ge _ _)) by (unfold FTAP_FRAME_HEADER_SIZE; lia).
    rewrite bool_decide_true by done. rewrite header_of_bytes_encoded.
    + cbn [fst snd]. destruct (validate_encoding h Hs) as (Hd & Hmaj & Hmin).
      unfold decode_status. rewrite Hd. by rewrite Hmaj, Hmin.
    + unfold AUTHD_RESPONSE_BUFFER_SIZE, FTAP_FRAME_HEADER_SIZE in *.
      split; cbn; try done. unfold fits. lia.
  - apply bytes_ok_app. split; [apply header_bytes_ok|done].
  - rewrite zlen_app, header_bytes_zlen. unfold FTAP_FRAME_HEADER_SIZE. lia.
Qed.

Lemma queue_frame_correct_witness :
  let h := response_header FTAP_MSG_HELLO_OK FTAP_FRAME_FLAG_RESPONSE 7 0 in
  (∃ r c', queue_frame zero_client FTAP_MSG_HELLO_OK FTAP_FRAME_FLAG_RESPONSE 7 (Some ([] ++ [])) 0 false
      = Some (r, c') ∧
    if can_queue zero_client FTAP_MSG_HELLO_OK FTAP_FRAME_FLAG_RESPONSE 7 0
    then r = 0 ∧ close_after_write c' = false ∧
      ftap_frame_header_decode (Some (outgoing c')) (zlen (outgoing c'))
        (Some (FrameHeader 0 0 0 0 0 0)) = Some (FTAP_STATUS_OK, Some h) ∧
      drop 24 (outgoing c') = []
    else r = -1 ∧ c' = zero_client) ∧
  can_queue zero_client FTAP_MSG_HELLO_OK FTAP_FRAME_FLAG_RESPONSE 7 0 = true.
Proof.
  split; [|vm_compute; reflexivity].
  apply (queue_frame_correct zero_client FTAP_MSG_HELLO_OK FTAP_FRAME_FLAG_RESPONSE 7 [] [] false
    (FrameHeader 0 0 0 0 0 0)).
  - reflexivity.
  - constructor.
  - split; vm_compute; congruence.
  - split; vm_compute; congruence.
  - split; vm_compute; congruence.
Defined.

Section properties.
Context `{Inet}.

(** A request that fails is always answered: every status of the codec and of
    the validator is mapped to an error code of the protocol, and
    [queue_error_with_retry] then queues an ERROR message with this code, its
    text and the retry delay, capped to 32 bits, that a peer in any state but
    CLOSING accepts, and has the connection closed after it. *)
Theorem error_response_valid c request_id code status retry st :
  output_ok c → drained c → 0 <= retry →
  (error_code_ok code ∨ code = map_status_to_error status) →
  fits 64 request_id → FTAP_FIRST_CLIENT_REQUEST_ID <= request_id → st ≠ FTAP_STATE_CLOSING →
  ∃ c', queue_error_with_retry c request_id code retry = Some (0, c') ∧
    delivers st c c' FTAP_MSG_ERROR (FTAP_FRAME_FLAG_RESPONSE + FTAP_FRAME_FLAG_ERROR) request_id
      ([Field FTAP_FIELD_ERROR_CODE 0 (be_bytes 4 code);
        Field FTAP_FIELD_ERROR_TEXT 0 (error_text code)]
       ++ if 0 <? retry
          then [Field FTAP_FIELD_RETRY_AFTER_MS 0 (be_bytes 4 (Z.min retry UINT32_MAX))] else [])
      true.
Proof.
  intros Ho Hd Hr Hcode ???. apply queue_error_with_retry_delivers; try done.
  destruct Hcode as [|Hc]; [done|]. subst code. destruct status; vm_compute; split; congruence.
Qed.

(** The response to a successful password login and the answer to a session
    context request carry the identity in the record and session they are built
    from, and a client accepts them: for every user, session and name that the
    database may hold, the message fits into the output buffer and passes the
    protocol's validation in the states in which it is expected. *)
Theorem session_responses_valid c request_id attempt s st st' :
  output_ok c → drained c → session_ok s →
  names_ok (lr_login_name (la_record attempt)) (lr_display_name (la_record attempt))
    (lr_legacy_name (la_record attempt)) →
  fits 64 request_id → FTAP_FIRST_CLIENT_REQUEST_ID <= request_id →
  state_allows_message st FTAP_MSG_AUTH_PASSWORD_RESULT = true →
  state_allows_message st' FTAP_MSG_SESSION_CONTEXT_RESULT = true →
  (∃ c', queue_authentication_result c request_id attempt s = Some (0, c') ∧
    delivers st c c' FTAP_MSG_AUTH_PASSWORD_RESULT FTAP_FRAME_FLAG_RESPONSE request_id
      [Field FTAP_FIELD_USER_ID 0 (ts_user_id s);
       Field FTAP_FIELD_SESSION_ID 0 (ts_session_id s);
       Field FTAP_FIELD_LOGIN_NAME 0 (cstr (lr_login_name (la_record attempt)));
       Field FTAP_FIELD_DISPLAY_NAME 0 (cstr (lr_display_name (la_record attempt)));
       Field FTAP_FIELD_LEGACY_NAME 0 (cstr (lr_legacy_name (la_record attempt)));
       Field FTAP_FIELD_AUTH_EPOCH 0 (be_bytes 8 (ts_auth_epoch s));
       Field FTAP_FIELD_AUTHZ_REVISION 0 (be_bytes 8 (ts_authz_revision s))] false) ∧
  (session_open c = true → session c = s → bound_names_ok (session_context c) →
   ∃ c', queue_session_context_result c request_id = Some (0, c') ∧
    delivers st' c c' FTAP_MSG_SESSION_CONTEXT_RESULT FTAP_FRAME_FLAG_RESPONSE request_id
      [Field FTAP_FIELD_USER_ID 0 (ts_user_id s);
       Field FTAP_FIELD_SESSION_ID 0 (ts_session_id s);
       Field FTAP_FIELD_LOGIN_NAME 0 (cstr (bs_login_name (session_context c)));
       Field FTAP_FIELD_DISPLAY_NAME 0 (cstr (bs_display_name (session_context c)));
       Field FTAP_FIELD_LEGACY_NAME 0 (cstr (bs_legacy_name (session_context c)));
       Field FTAP_FIELD_PROTOCOL 0 (cstr (bs_protocol (session_context c)));
       Field FTAP_FIELD_AUTH_METHOD 0 (cstr (bs_auth_method (session_context c)));
       Field FTAP_FIELD_AUTH_EPOCH 0 (be_bytes 8 (ts_auth_epoch s));
       Field FTAP_FIELD_AUTHZ_REVISION 0 (be_bytes 8 (ts_authz_revision s))] false).
Proof.
  intros Ho Hd Hs Hn Hf Hr Hst Hst'. split; [by apply queue_authentication_result_delivers|].
  intros Hopen <- Hb. by apply queue_session_context_result_delivers.
Qed.

(** The three registration responses are accepted by a client that is
    registering, and state what the database did: a pending registration, an
    aborted one, or an active account with its session. *)
Theorem registration_responses_valid c request_id r commit :
  output_ok c → drained c → registration_ok r → commit_ok commit →
  fits 64 request_id → FTAP_FIRST_CLIENT_REQUEST_ID <= request_id →
  (∃ c', queue_registration_begin_result c request_id r = Some (0, c') ∧
    delivers FTAP_STATE_REGISTERING c c' FTAP_MSG_REGISTRATION_BEGIN_RESULT
      FTAP_FRAME_FLAG_RESPONSE request_id
      [Field FTAP_FIELD_REGISTRATION_ID 0 (rb_registration_id r);
       Field FTAP_FIELD_REGISTRATION_STATE 0 FTAP_REGISTRATION_STATE_PENDING_LEGACY;
       Field FTAP_FIELD_USER_ID 0 (rb_user_id r);
       Field FTAP_FIELD_LOGIN_NAME 0 (cstr (rb_login_name r));
       Field FTAP_FIELD_DISPLAY_NAME 0 (cstr (rb_display_name r));
       Field FTAP_FIELD_LEGACY_NAME 0 (cstr (rb_legacy_name r));
       Field FTAP_FIELD_ACCOUNT_STATE 0 FTAP_ACCOUNT_STATE_PENDING] false) ∧
  (∃ c', queue_registration_abort_result c request_id r = Some (0, c') ∧
    delivers FTAP_STATE_REGISTERING c c' FTAP_MSG_REGISTRATION_ABORT_RESULT
      FTAP_FRAME_FLAG_RESPONSE request_id
      [Field FTAP_FIELD_REGISTRATION_ID 0 (rb_registration_id r);
       Field FTAP_FIELD_REGISTRATION_STATE 0 FTAP_REGISTRATION_STATE_ABORTED;
       Field FTAP_FIELD_USER_ID 0 (rb_user_id r)] false) ∧
  (∃ c', queue_registration_commit_result c request_id commit = Some (0, c') ∧
    delivers FTAP_STATE_REGISTERING c c' FTAP_MSG_REGISTRATION_COMMIT_RESULT
      FTAP_FRAME_FLAG_RESPONSE request_id
      [Field FTAP_FIELD_REGISTRATION_ID 0 (rc_registration_id commit);
       Field FTAP_FIELD_REGISTRATION_STATE 0 FTAP_REGISTRATION_STATE_COMPLETED;
       Field FTAP_FIELD_USER_ID 0 (ts_user_id (rc_session commit));
       Field FTAP_FIELD_SESSION_ID 0 (ts_session_id (rc_session commit));
       Field FTAP_FIELD_LOGIN_NAME 0 (cstr (rc_login_name commit));
       Field FTAP_FIELD_DISPLAY_NAME 0 (cstr (rc_display_name commit));
       Field FTAP_FIELD_LEGACY_NAME 0 (cstr (rc_legacy_name commit));
       Field FTAP_FIELD_ACCOUNT_STATE 0 FTAP_ACCOUNT_STATE_ACTIVE;
       Field FTAP_FIELD_PROTOCOL 0 FTAP_PROTOCOL_TELNET;
       Field FTAP_FIELD_AUTH_METHOD 0 FTAP_AUTH_METHOD_PASSWORD;
       Field FTAP_FIELD_AUTH_EPOCH 0 (be_bytes 8 (ts_auth_epoch (rc_session commit)));
       Field FTAP_FIELD_AUTHZ_REVISION 0 (be_bytes 8 (ts_authz_revision (rc_session commit)))] false).
Proof.
  intros Ho Hd Hr Hc Hf Hreq. split; [|split].
  - by apply queue_registration_begin_result_delivers.
  - by apply queue_registration_abort_result_delivers.
  - by apply queue_registration_commit_result_delivers.
Qed.
End properties.

(** *** Witnesses *)

Definition example_array (size : Z) (s : list Z) : list Z :=
  s ++ zeros (size - zlen s).

Definition example_uuid : list Z := map Z.of_nat (seq 1 16).

Definition example_session : authd_terminal_session_result :=
  TerminalSession example_uuid example_uuid 1 (2 ^ 40).

Definition example_login_name : list Z := example_array 33 (lit "neo.42").
Definition example_display_name : list Z := example_array 65 (lit "Neo 42").
Definition example_legacy_name : list Z := example_array 9 (lit "neo42").

Definition example_registration : authd_registration_begin_result :=
  RegistrationBegin example_uuid example_uuid example_login_name example_display_name
    example_legacy_name 1 1.

Definition example_commit : authd_registration_commit_result :=
  RegistrationCommit example_uuid example_session example_login_name example_display_name
    example_legacy_name.

Lemma bytes_ok_decide l : forallb (between 0 255) l = true → bytes_ok l.
Proof.
  rewrite forallb_Forall. intros Hl. eapply Forall_impl; [exact Hl|].
  intros b [? ?]%between_spec. split; [done|]. change (2 ^ 8) with 256. lia.
Qed.

Lemma text_array_decide maximum l :
  (forallb (between 0 255) l && (zlen l =? maximum + 1) && negb (zlen (cstr l) =? 0)
   && (zlen (cstr l) <=? maximum) && utf8_ok (cstr l)) = true → text_array maximum l.
Proof.
  intros Ht. bools. assert (bytes_ok l) as Hok by by apply bytes_ok_decide.
  split; [done|done|]. split; [|split].
  - intros Hn. by rewrite Hn in *.
  - done.
  - apply utf8_ok_text; [by apply cstr_bytes_ok|done].
Qed.

Lemma example_uuid_ok : uuid_ok example_uuid.
Proof. split; [by apply bytes_ok_decide|reflexivity]. Qed.

Lemma example_session_ok : session_ok example_session.
Proof. split; apply example_uuid_ok. Qed.

Lemma example_names_ok : names_ok example_login_name example_display_name example_legacy_name.
Proof. split; [by apply text_array_decide..|]. split; [by apply text_array_decide|reflexivity]. Qed.

Lemma error_response_valid_witness :
  ∃ c', queue_error_with_retry zero_client 9 FTAP_ERR_RATE_LIMITED (2 ^ 40) = Some (0, c') ∧
    @delivers dotted_quad FTAP_STATE_AUTHENTICATING zero_client c' FTAP_MSG_ERROR
      (FTAP_FRAME_FLAG_RESPONSE + FTAP_FRAME_FLAG_ERROR) 9
      ([Field FTAP_FIELD_ERROR_CODE 0 (be_bytes 4 FTAP_ERR_RATE_LIMITED);
        Field FTAP_FIELD_ERROR_TEXT 0 (error_text FTAP_ERR_RATE_LIMITED)]
       ++ if 0 <? 2 ^ 40
          then [Field FTAP_FIELD_RETRY_AFTER_MS 0 (be_bytes 4 (Z.min (2 ^ 40) UINT32_MAX))] else [])
      true.
Proof.
  apply (@error_response_valid dotted_quad zero_client 9 FTAP_ERR_RATE_LIMITED FTAP_STATUS_OK);
    [reflexivity|reflexivity|vm_compute; congruence|left; split; vm_compute; congruence
    |split; vm_compute; congruence|vm_compute; congruence|discriminate].
Defined.

Definition example_attempt : authd_login_attempt :=
  LoginAttempt true 1 1 example_login_name (example_array 17 (lit "telnet")) (zeros 46) (zeros 129)
    (zeros 65) false false false true
    (LoginRecord example_uuid example_login_name example_display_name example_legacy_name
       (example_array 256 (lit "$argon2id$")) AUTHD_ACCOUNT_STATE_ACTIVE 1 1 false false 0 false 0
       false 0) false AUTHD_LOGIN_REJECTION_UNKNOWN_USER.

Definition example_client : authd_client :=
  set_session_open true (set_session example_session
    (set_session_context (BoundSession example_login_name example_display_name example_legacy_name
       (example_array 17 (lit "telnet")) (example_array 33 (lit "password"))) zero_client)).

Lemma example_bound_names : bound_names_ok (session_context example_client).
Proof.
  split; [apply example_names_ok| |]; (split; [by apply text_array_decide|]);
    vm_compute; by repeat constructor.
Qed.

Lemma session_responses_valid_witness :
  (∃ c', queue_authentication_result example_client 5 example_attempt example_session = Some (0, c') ∧
    @delivers dotted_quad FTAP_STATE_AUTHENTICATING example_client c' FTAP_MSG_AUTH_PASSWORD_RESULT
      FTAP_FRAME_FLAG_RESPONSE 5
      [Field FTAP_FIELD_USER_ID 0 (ts_user_id example_session);
       Field FTAP_FIELD_SESSION_ID 0 (ts_session_id example_session);
       Field FTAP_FIELD_LOGIN_NAME 0 (cstr (lr_login_name (la_record example_attempt)));
       Field FTAP_FIELD_DISPLAY_NAME 0 (cstr (lr_display_name (la_record example_attempt)));
       Field FTAP_FIELD_LEGACY_NAME 0 (cstr (lr_legacy_name (la_record example_attempt)));
       Field FTAP_FIELD_AUTH_EPOCH 0 (be_bytes 8 (ts_auth_epoch example_session));
       Field FTAP_FIELD_AUTHZ_REVISION 0 (be_bytes 8 (ts_authz_revision example_session))] false) ∧
  ∃ c', queue_session_context_result example_client 5 = Some (0, c').
Proof.
  destruct (@session_responses_valid dotted_quad example_client 5 example_attempt example_session
    FTAP_STATE_AUTHENTICATING FTAP_STATE_SESSION_BOUND) as [H1 H2];
    [reflexivity|reflexivity|apply example_session_ok|apply example_names_ok
    |split; vm_compute; congruence|vm_compute; congruence|reflexivity|reflexivity|].
  split; [exact H1|].
  destruct (H2 eq_refl eq_refl example_bound_names) as (c' & Hc & _). exists c'. exact Hc.
Defined.

Lemma registration_responses_valid_witness :
  (∃ c', queue_registration_begin_result zero_client 5 example_registration = Some (0, c')) ∧
  (∃ c', queue_registration_abort_result zero_client 5 example_registration = Some (0, c')) ∧
  (∃ c', queue_registration_commit_result zero_client 5 example_commit = Some (0, c')).
Proof.
  destruct (@registration_responses_valid dotted_quad zero_client 5 example_registration example_commit)
    as ((c1 & H1 & _) & (c2 & H2 & _) & (c3 & H3 & _)).
  - reflexivity.
  - reflexivity.
  - split; [apply example_uuid_ok|apply example_uuid_ok|apply example_names_ok].
  - split; [apply example_uuid_ok|apply example_session_ok|apply example_names_ok].
  - split; vm_compute; congruence.
  - vm_compute; congruence.
  - split; [|split]; [exists c1; exact H1|exists c2; exact H2|exists c3; exact H3].
Defined.
