(* ===== verification/Requests.v ===== *)
(** * Requests

    [fortytwo-auth/src/authd_server.c]: the functions that read the fields of a
    request into the memory of the daemon. They do not keep pointers into the
    payload. When one of them fails its callers clear everything that it has
    written, so a failure has no result here. *)

From S2P Require Import Prelude Protocol Words Utf8 Codec Inet Schema Identity Throttle Limiter Program Services Client.

(** ** Definitions *)

(** A field loop that fails on any malformed payload. *)
Definition parse_fields {S} (payload : ptr) (payload_length : Z)
    (body : ftap_tlv → S → run (ctl S unit)) (s : S) : run (option S) :=
  let (status, reader) := ftap_tlv_reader_init (Some (TlvReader None 0 0)) payload payload_length in
  if negb (status_ok status) then Some None
  else
    let! reader := deref reader in
    let! c := field_loop (λ _ _, tt) body reader s in
    Some match c with
         | Continue s | Break s => Some s
         | Return _ => None
         end.

Definition hello_field (field : ftap_tlv) (versions : Z * Z) : run (ctl (Z * Z) unit) :=
  let (major, minor) := versions in
  if tlv_type field =? FTAP_FIELD_SUPPORTED_MAJOR then
    let! (status, value) := ftap_tlv_get_u16 (Some field) (Some major) in
    let! value := deref value in
    Some (if negb (status_ok status) then Return tt else Continue (value, minor))
  else if tlv_type field =? FTAP_FIELD_SUPPORTED_MINOR then
    let! (status, value) := ftap_tlv_get_u16 (Some field) (Some minor) in
    let! value := deref value in
    Some (if negb (status_ok status) then Return tt else Continue (major, value))
  else Some (Continue versions).

Definition hello_versions_are_supported (payload : ptr) (payload_length : Z) : run bool :=
  let! c := parse_fields payload payload_length hello_field (0, 0) in
  Some match c with
       | None => false
       | Some (major, minor) => (major =? FTAP_VERSION_MAJOR) && (FTAP_VERSION_MINOR <=? minor)
       end.

(** [output_size] is the size of the array [output]. *)
Definition copy_field_text (field : ftap_tlv) (output : list Z) : run (option (list Z)) :=
  if (zlen output =? 0) || (zlen output <=? tlv_length field) then Some None
  else
    let! value := deref (tlv_value field) in
    let! data := buf_read value 0 (tlv_length field) in
    let! output := buf_write output 0 data in
    let! output := buf_set output (tlv_length field) 0 in
    Some (Some output).

(** Assignments to members of an attempt. *)
Definition la_set_login_name v (a : authd_login_attempt) : authd_login_attempt :=
  LoginAttempt (la_active a) (la_request_id a) (la_worker_job_id a) v (la_protocol a)
    (la_source_ip a) (la_tty_device a) (la_node_id a) (la_source_ip_set a) (la_tty_device_set a)
    (la_node_id_set a) (la_record_loaded a) (la_record a) (la_deferred_rejection a)
    (la_rejection_reason a).
Definition la_set_protocol v (a : authd_login_attempt) : authd_login_attempt :=
  LoginAttempt (la_active a) (la_request_id a) (la_worker_job_id a) (la_login_name a) v
    (la_source_ip a) (la_tty_device a) (la_node_id a) (la_source_ip_set a) (la_tty_device_set a)
    (la_node_id_set a) (la_record_loaded a) (la_record a) (la_deferred_rejection a)
    (la_rejection_reason a).
Definition la_set_source_ip v (a : authd_login_attempt) : authd_login_attempt :=
  LoginAttempt (la_active a) (la_request_id a) (la_worker_job_id a) (la_login_name a)
    (la_protocol a) v (la_tty_device a) (la_node_id a) true (la_tty_device_set a)
    (la_node_id_set a) (la_record_loaded a) (la_record a) (la_deferred_rejection a)
    (la_rejection_reason a).
Definition la_set_tty_device v (a : authd_login_attempt) : authd_login_attempt :=
  LoginAttempt (la_active a) (la_request_id a) (la_worker_job_id a) (la_login_name a)
    (la_protocol a) (la_source_ip a) v (la_node_id a) (la_source_ip_set a) true
    (la_node_id_set a) (la_record_loaded a) (la_record a) (la_deferred_rejection a)
    (la_rejection_reason a).
Definition la_set_node_id v (a : authd_login_attempt) : authd_login_attempt :=
  LoginAttempt (la_active a) (la_request_id a) (la_worker_job_id a) (la_login_name a)
    (la_protocol a) (la_source_ip a) (la_tty_device a) v (la_source_ip_set a)
    (la_tty_device_set a) true (la_record_loaded a) (la_record a) (la_deferred_rejection a)
    (la_rejection_reason a).

(** The locals of [parse_password_request]. *)
Record password_request := PasswordRequest {
  pr_attempt : authd_login_attempt;
  pr_password : list Z;
  pr_password_length : Z;
  pr_login_seen : bool;
  pr_password_seen : bool;
}.

Definition set_attempt (r : password_request) (a : authd_login_attempt) : password_request :=
  PasswordRequest a (pr_password r) (pr_password_length r) (pr_login_seen r) (pr_password_seen r).

(** [if (!copy_field_text(&field, array, sizeof(array))) return false;] *)
Definition copy_or_fail {S} (field : ftap_tlv) (array : list Z) (store : list Z → S)
    : run (ctl S unit) :=
  let! text := copy_field_text field array in
  Some match text with
       | Some text => Continue (store text)
       | None => Return tt
       end.

(** [case FTAP_FIELD_LOGIN_NAME], [case FTAP_FIELD_PASSWORD] *)
Definition canonicalize_or_fail {S} (field : ftap_tlv) (array : list Z) (store : list Z → S)
    : run (ctl S unit) :=
  let! (ok, name) := authd_login_name_canonicalize (tlv_value field) (tlv_length field) (Some array) in
  let! name := deref name in
  Some (if negb ok then Return tt else Continue (store name)).

Definition password_or_fail {S} (field : ftap_tlv) (password : list Z) (store : list Z → Z → S)
    : run (ctl S unit) :=
  if AUTHD_PASSWORD_MAX_BYTES <? tlv_length field then Some (Return tt)
  else
    let! value := deref (tlv_value field) in
    let! data := buf_read value 0 (tlv_length field) in
    let! password := buf_write password 0 data in
    Some (Continue (store password (tlv_length field))).

Definition password_request_field (field : ftap_tlv) (r : password_request)
    : run (ctl password_request unit) :=
  let a := pr_attempt r in
  let case type := tlv_type field =? type in
  if case FTAP_FIELD_LOGIN_NAME then
    canonicalize_or_fail field (la_login_name a) (λ name,
      PasswordRequest (la_set_login_name name a) (pr_password r) (pr_password_length r) true
        (pr_password_seen r))
  else if case FTAP_FIELD_PASSWORD then
    password_or_fail field (pr_password r) (λ password length,
      PasswordRequest a password length (pr_login_seen r) true)
  else if case FTAP_FIELD_PROTOCOL then
    copy_or_fail field (la_protocol a) (λ v, set_attempt r (la_set_protocol v a))
  else if case FTAP_FIELD_SOURCE_IP then
    copy_or_fail field (la_source_ip a) (λ v, set_attempt r (la_set_source_ip v a))
  else if case FTAP_FIELD_TTY_DEVICE then
    copy_or_fail field (la_tty_device a) (λ v, set_attempt r (la_set_tty_device v a))
  else if case FTAP_FIELD_NODE_ID then
    copy_or_fail field (la_node_id a) (λ v, set_attempt r (la_set_node_id v a))
  else if case FTAP_FIELD_AUTH_METHOD then Some (Continue r)
  else Some (Return tt).

(** The attempt, the password buffer and the password length. *)
Definition parse_password_request (payload : ptr) (payload_length : Z)
    : run (option (authd_login_attempt * list Z * Z)) :=
  let! c := parse_fields payload payload_length password_request_field
    (PasswordRequest zero_login_attempt (zeros AUTHD_PASSWORD_MAX_BUFFER_BYTES) 0 false false) in
  match c with
  | None => Some None
  | Some r =>
      let! first := buf_get (la_protocol (pr_attempt r)) 0 in
      Some (if pr_login_seen r && pr_password_seen r && negb (first =? 0)
            then Some (pr_attempt r, pr_password r, pr_password_length r) else None)
  end.

Definition ra_set_login_name v (a : authd_registration_attempt) : authd_registration_attempt :=
  RegistrationAttempt (ra_active a) (ra_database_pending a) (ra_request_id a) (ra_worker_job_id a)
    v (ra_display_name a) (ra_protocol a) (ra_source_ip a) (ra_tty_device a) (ra_node_id a)
    (ra_tty_device_set a) (ra_node_id_set a) (ra_deadline_ms a) (ra_record a).
Definition ra_set_display_name v (a : authd_registration_attempt) : authd_registration_attempt :=
  RegistrationAttempt (ra_active a) (ra_database_pending a) (ra_request_id a) (ra_worker_job_id a)
    (ra_login_name a) v (ra_protocol a) (ra_source_ip a) (ra_tty_device a) (ra_node_id a)
    (ra_tty_device_set a) (ra_node_id_set a) (ra_deadline_ms a) (ra_record a).
Definition ra_set_protocol v (a : authd_registration_attempt) : authd_registration_attempt :=
  RegistrationAttempt (ra_active a) (ra_database_pending a) (ra_request_id a) (ra_worker_job_id a)
    (ra_login_name a) (ra_display_name a) v (ra_source_ip a) (ra_tty_device a) (ra_node_id a)
    (ra_tty_device_set a) (ra_node_id_set a) (ra_deadline_ms a) (ra_record a).
Definition ra_set_source_ip v (a : authd_registration_attempt) : authd_registration_attempt :=
  RegistrationAttempt (ra_active a) (ra_database_pending a) (ra_request_id a) (ra_worker_job_id a)
    (ra_login_name a) (ra_display_name a) (ra_protocol a) v (ra_tty_device a) (ra_node_id a)
    (ra_tty_device_set a) (ra_node_id_set a) (ra_deadline_ms a) (ra_record a).
Definition ra_set_tty_device v (a : authd_registration_attempt) : authd_registration_attempt :=
  RegistrationAttempt (ra_active a) (ra_database_pending a) (ra_request_id a) (ra_worker_job_id a)
    (ra_login_name a) (ra_display_name a) (ra_protocol a) (ra_source_ip a) v (ra_node_id a)
    true (ra_node_id_set a) (ra_deadline_ms a) (ra_record a).
Definition ra_set_node_id v (a : authd_registration_attempt) : authd_registration_attempt :=
  RegistrationAttempt (ra_active a) (ra_database_pending a) (ra_request_id a) (ra_worker_job_id a)
    (ra_login_name a) (ra_display_name a) (ra_protocol a) (ra_source_ip a) (ra_tty_device a) v
    (ra_tty_device_set a) true (ra_deadline_ms a) (ra_record a).

(** The locals of [parse_registration_begin_request]. *)
Record registration_request := RegistrationRequest {
  rr_attempt : authd_registration_attempt;
  rr_password : list Z;
  rr_password_length : Z;
  rr_login_seen : bool;
  rr_display_seen : bool;
  rr_password_seen : bool;
  rr_protocol_seen : bool;
  rr_source_ip_seen : bool;
}.

Definition registration_request_field (field : ftap_tlv) (r : registration_request)
    : run (ctl registration_request unit) :=
  let '(RegistrationRequest a password length login display pass protocol source_ip) := r in
  let case type := tlv_type field =? type in
  if case FTAP_FIELD_LOGIN_NAME then
    canonicalize_or_fail field (ra_login_name a) (λ name,
      RegistrationRequest (ra_set_login_name name a) password length true display pass protocol
        source_ip)
  else if case FTAP_FIELD_DISPLAY_NAME then
    copy_or_fail field (ra_display_name a) (λ v,
      RegistrationRequest (ra_set_display_name v a) password length login true pass protocol
        source_ip)
  else if case FTAP_FIELD_PASSWORD then
    password_or_fail field password (λ password length,
      RegistrationRequest a password length login display true protocol source_ip)
  else if case FTAP_FIELD_PROTOCOL then
    copy_or_fail field (ra_protocol a) (λ v,
      RegistrationRequest (ra_set_protocol v a) password length login display pass true source_ip)
  else if case FTAP_FIELD_SOURCE_IP then
    copy_or_fail field (ra_source_ip a) (λ v,
      RegistrationRequest (ra_set_source_ip v a) password length login display pass protocol true)
  else if case FTAP_FIELD_TTY_DEVICE then
    copy_or_fail field (ra_tty_device a) (λ v,
      RegistrationRequest (ra_set_tty_device v a) password length login display pass protocol
        source_ip)
  else if case FTAP_FIELD_NODE_ID then
    copy_or_fail field (ra_node_id a) (λ v,
      RegistrationRequest (ra_set_node_id v a) password length login display pass protocol
        source_ip)
  else if case FTAP_FIELD_AUTH_METHOD then Some (Continue r)
  else Some (Return tt).

Definition parse_registration_begin_request (payload : ptr) (payload_length : Z)
    : run (option (authd_registration_attempt * list Z * Z)) :=
  let! c := parse_fields payload payload_length registration_request_field
    (RegistrationRequest zero_registration_attempt (zeros AUTHD_PASSWORD_MAX_BUFFER_BYTES) 0
       false false false false false) in
  Some match c with
       | None => None
       | Some r =>
           if rr_login_seen r && rr_display_seen r && rr_password_seen r && rr_protocol_seen r
              && rr_source_ip_seen r
           then Some (rr_attempt r, rr_password r, rr_password_length r) else None
       end.

Definition close_reason_field (field : ftap_tlv) (reason : list Z) : run (ctl (list Z) unit) :=
  if negb (tlv_type field =? FTAP_FIELD_ENDED_REASON) then Some (Return tt)
  else copy_or_fail field reason (λ v, v).

(** [reason] is the array of the caller, whatever it contains. *)
Definition parse_session_close_reason (payload : ptr) (payload_length : Z) (reason : list Z)
    : run (option (list Z)) :=
  parse_fields payload payload_length close_reason_field
    (snprintf_s reason (lit "normal_logout")).

(** The locals and outputs: the identifier, [id_seen], the reason, [reason_set]. *)
Definition registration_id_field (field : ftap_tlv) (s : list Z * bool * ptr * bool)
    : run (ctl (list Z * bool * ptr * bool) unit) :=
  let '(id, id_seen, reason, reason_set) := s in
  if tlv_type field =? FTAP_FIELD_REGISTRATION_ID then
    let! (status, value) := ftap_tlv_get_uuid (Some field) (Some id) in
    let! id := deref value in
    Some (if negb (status_ok status) then Return tt else Continue (id, true, reason, reason_set))
  else if (tlv_type field =? FTAP_FIELD_REGISTRATION_REASON) && negb (is_null reason) then
    let! array := deref reason in
    copy_or_fail field array (λ v, (id, id_seen, Some v, true))
  else Some (Return tt).

(** [reason] is [None] where the code passes null pointers; the result is the
    identifier and the reason if it was set. *)
Definition parse_registration_id (payload : ptr) (payload_length : Z) (reason : ptr)
    : run (option (list Z * ptr)) :=
  let! reason :=
    match reason with
    | Some array => let! array := buf_set array 0 0 in Some (Some array)
    | None => Some None
    end in
  let! c := parse_fields payload payload_length registration_id_field
    (zeros FTAP_UUID_SIZE, false, reason, false) in
  Some match c with
       | Some (id, true, reason, reason_set) =>
           Some (id, if (reason_set : bool) then reason else None)
       | _ => None
       end.

(** ** Field loops that store *)

Section parse.
Context {S : Type} (body : ftap_tlv → S → run (ctl S unit)).
Context (ok : field → bool) (store : field → S → S) (Inv : S → Prop).
Context (Hbody : ∀ t f s, Inv s → tlv_is t f → wire_ok f →
  body t s = Some (if ok f then Continue (store f s) else Return tt)).
Context (Hinv : ∀ f s, Inv s → wire_ok f → ok f = true → Inv (store f s)).

Definition stored (fs : list field) (s : S) : S := foldl (λ s f, store f s) s fs.

Lemma fold_stored fs s :
  fold_fields (R := unit) (λ f s, if ok f then Continue (store f s) else Return tt) fs s =
    if forallb ok fs then Break (stored fs s) else Return tt.
Proof.
  revert s. induction fs as [|f fs IH]; intros s; [done|]. cbn. destruct (ok f); [|done].
  apply IH.
Qed.

Lemma stored_inv fs s :
  Inv s → Forall wire_ok fs → forallb ok fs = true → Inv (stored fs s).
Proof.
  revert s. induction fs as [|f fs IH]; intros s Hs Hw Hok; [done|]. cbn in Hok. bools.
  apply Forall_cons_1 in Hw as [Hf Hw]. apply IH; [by apply Hinv|done|done].
Qed.

(** What a parse function makes of any bytes: it fails unless they are the
    encoding of acceptable fields, and stores these in order. *)
Inductive parsed (payload : list Z) (s : S) : option S → Prop :=
| parsed_ok fs :
    payload = payload_of fs → Forall wire_ok fs → forallb ok fs = true →
    Inv (stored fs s) → parsed payload s (Some (stored fs s))
| parsed_fail :
    (∀ fs, Forall wire_ok fs → payload = payload_of fs → forallb ok fs = false) →
    parsed payload s None.

Lemma parse_fields_spec payload tail s :
  Inv s → bytes_ok (payload ++ tail) → zlen payload <= FTAP_MAX_PAYLOAD_SIZE →
  ∃ r, parse_fields (Some (payload ++ tail)) (zlen payload) body s = Some r ∧ parsed payload s r.
Proof.
  intros Hs Hok Hmax. unfold parse_fields.
  destruct (payload_reader payload tail Hok Hmax) as (-> & Hr & Hu).
  change (negb (status_ok FTAP_STATUS_OK)) with false. cbv iota. unfold deref. run_simpl.
  rewrite (field_loop_spec (λ f s, if ok f then Continue (store f s) else Return tt) (λ _ _, tt)
             _ _ Inv); [|done| |done|done|done|done].
  2:{ intros f s1 s2 Hs1 Hf. destruct (ok f) eqn:E; [|done]. intros [= <-]. by apply Hinv. }
  run_simpl. rewrite Hu. eexists. split; [reflexivity|].
  apply bytes_ok_app in Hok as [Hok _].
  destruct (bytes_split (length payload) payload Hok ltac:(lia))
    as (fs & rem & Heq & Hfs & [->|[Hne [st Hst]]]).
  - rewrite app_nil_r in Heq. rewrite Heq, walk_payload, fold_stored by (done || lia).
    destruct (forallb ok fs) eqn:E.
    + apply parsed_ok; [done|done|done|by apply stored_inv].
    + apply parsed_fail. intros gs Hgs Hp.
      by rewrite <- (payload_of_inj fs gs) by done.
  - rewrite Heq, (walk_error _ _ _ _ _ st), fold_stored by
      (done || lia || (intros ? ? ?; by case_if)).
    assert (parsed (payload_of fs ++ rem) s None) as Hfail.
    { apply parsed_fail. intros gs Hgs Hp. by apply no_payload with (st := st) in Hp. }
    by destruct (forallb ok fs).
Qed.
End parse.

(** ** The pieces of the loop bodies *)

(** A text stored at the front of an array, with its terminating zero. *)
Definition put_string (v array : list Z) : list Z := v ++ 0 :: drop (length v + 1) array.

Lemma cstr_put_string v array : cstr (put_string v array) = cstr v.
Proof.
  unfold put_string. generalize (drop (length v + 1) array). intros tail.
  induction v as [|b v IH]; [done|]. cbn. case_if; [done|]. by f_equal.
Qed.

Lemma put_string_ok size v array :
  array_ok size array → bytes_ok v → zlen v < size → array_ok size (put_string v array).
Proof.
  intros [Hok Hlen] Hv Hsize. split.
  - apply bytes_ok_app. split; [done|]. constructor; [done|]. by apply bytes_ok_drop.
  - unfold put_string. rewrite zlen_app, zlen_cons, zlen_drop. unfold zlen in *. lia.
Qed.

Lemma zeros_ok n : 0 <= n → array_ok n (zeros n).
Proof.
  intros Hn. split; [by apply Forall_replicate|]. unfold zeros, zlen. rewrite length_replicate. lia.
Qed.

Section bodies.
Context (t : ftap_tlv) (f : field) (Ht : tlv_is t f) {S : Type}.

Lemma copy_field_text_spec array :
  copy_field_text t array =
    Some (if zlen (f_value f) <? zlen array then Some (put_string (f_value f) array) else None).
Proof.
  destruct Ht as (_ & _ & Hl & _ & tail & Hp & _). unfold copy_field_text. rewrite Hl, Hp.
  pose proof (zlen_nonneg (f_value f)). rewrite Z.leb_antisym.
  destruct (Z.ltb_spec (zlen (f_value f)) (zlen array)); cbn [negb].
  2:{ by rewrite orb_true_r. }
  rewrite orb_false_r. destruct (Z.eqb_spec (zlen array) 0); [lia|]. unfold deref. run_simpl.
  rewrite buf_read_prefix. run_simpl. rewrite buf_write_in by lia. run_simpl.
  change (Z.to_nat 0) with 0%nat. rewrite take_0, app_nil_l, Nat.add_0_l.
  rewrite buf_set_in by (rewrite zlen_app, zlen_drop; unfold zlen in *; lia). run_simpl.
  unfold put_string, zlen. rewrite Nat2Z.id, insert_app_r_alt, Nat.sub_diag by lia.
  do 2 f_equal. destruct (drop (length (f_value f)) array) as [|b rest] eqn:E.
  - apply (f_equal length) in E. rewrite length_drop in E. unfold zlen in *. cbn in E. lia.
  - rewrite <- drop_drop, E. done.
Qed.

Lemma copy_or_fail_spec array (store : list Z → S) :
  copy_or_fail t array store =
    Some (if zlen (f_value f) <? zlen array
          then Continue (store (put_string (f_value f) array)) else Return tt).
Proof. unfold copy_or_fail. rewrite copy_field_text_spec. run_simpl. by case_if. Qed.

Lemma canonicalize_or_fail_spec array (store : list Z → S) :
  zlen array = AUTHD_LOGIN_NAME_BUFFER_SIZE →
  canonicalize_or_fail t array store =
    Some (if login_text (f_value f)
          then Continue (store (filled (map to_lower (f_value f)) [])) else Return tt).
Proof.
  destruct Ht as (_ & _ & Hl & Hok & tail & Hp & _). intros Ha. unfold canonicalize_or_fail.
  rewrite Hl, Hp. pose proof (canonicalize_spec (f_value f) tail array [] Hok Ha) as Hc.
  rewrite app_nil_r in Hc. rewrite Hc. unfold deref. run_simpl.
  by destruct (login_text (f_value f)).
Qed.

Lemma password_or_fail_spec password (store : list Z → Z → S) :
  zlen password = AUTHD_PASSWORD_MAX_BUFFER_BYTES →
  password_or_fail t password store =
    Some (if zlen (f_value f) <=? AUTHD_PASSWORD_MAX_BYTES
          then Continue (store (f_value f ++ drop (length (f_value f)) password) (zlen (f_value f)))
          else Return tt).
Proof.
  destruct Ht as (_ & _ & Hl & _ & tail & Hp & _). intros Ha. unfold password_or_fail.
  rewrite Hl, Hp, Z.leb_antisym. destruct (Z.ltb_spec AUTHD_PASSWORD_MAX_BYTES (zlen (f_value f))); [done|].
  unfold deref. run_simpl. rewrite buf_read_prefix. run_simpl. cbn [negb].
  rewrite buf_write_in; [|lia|].
  2:{ rewrite Ha. unfold AUTHD_PASSWORD_MAX_BUFFER_BYTES. lia. }
  run_simpl. change (Z.to_nat 0) with 0%nat. by rewrite take_0.
Qed.
End bodies.

(** ** The values of a request *)

(** The value of the last field of a type. *)
Definition value_of (type : Z) (fs : list field) : option (list Z) :=
  f_value <$> last (filter (λ f, f_type f = type) fs).

Lemma value_of_snoc type fs f :
  value_of type (fs ++ [f]) = if f_type f =? type then Some (f_value f) else value_of type fs.
Proof.
  unfold value_of. rewrite filter_app. destruct (Z.eqb_spec (f_type f) type) as [E|E].
  - rewrite (filter_cons_True _ f) by done. by rewrite filter_nil, last_snoc.
  - rewrite (filter_cons_False _ f) by done. by rewrite filter_nil, app_nil_r.
Qed.

Definition present (type : Z) (fs : list field) : bool := negb (is_null (value_of type fs)).

Lemma present_snoc type fs f :
  present type (fs ++ [f]) = (f_type f =? type) || present type fs.
Proof. unfold present. rewrite value_of_snoc. by case_if. Qed.

(** An array with the text of a field of this type, empty if there is none. *)
Definition holds (type : Z) (fs : list field) (array : list Z) : Prop :=
  cstr array = cstr (default [] (value_of type fs)).

(** An array with the canonical form of the login name. *)
Definition holds_login (fs : list field) (array : list Z) : Prop :=
  cstr array = map to_lower (default [] (value_of FTAP_FIELD_LOGIN_NAME fs)).

(** A buffer with the password. *)
Definition holds_password (fs : list field) (password : list Z) (length : Z) : Prop :=
  buf_read password 0 length = Some (default [] (value_of FTAP_FIELD_PASSWORD fs)).

Lemma filled_login_cstr v :
  login_text v = true → cstr (filled (map to_lower v) []) = map to_lower v.
Proof.
  intros Hv. unfold filled. rewrite app_nil_r.
  pose proof (proj1 (map_lower_canonical v Hv)) as Hc. unfold login_text in Hc. bools.
  assert (Forall (λ b, b ≠ 0) (map to_lower v)) as Hnz.
  { apply utf8_ok_nonzero. eapply (name_ok_ascii login_first login_other); [| |done];
      intros c; unfold login_other, login_first, is_ascii_letter, is_ascii_digit; char_lia. }
  change FTAP_LOGIN_NAME_MAX with 32 in *. change (Z.to_nat AUTHD_LOGIN_NAME_BUFFER_SIZE) with 33%nat.
  replace (33 - length (map to_lower v))%nat with (S (32 - length (map to_lower v)))
    by (unfold zlen in *; lia).
  cbn [replicate]. by apply cstr_app_zero.
Qed.

Lemma filled_login_ok v :
  bytes_ok v → login_text v = true →
  array_ok AUTHD_LOGIN_NAME_BUFFER_SIZE (filled (map to_lower v) []).
Proof.
  intros Hok Hv. pose proof (proj1 (map_lower_canonical v Hv)) as Hc. unfold login_text in Hc. bools.
  change FTAP_LOGIN_NAME_MAX with 32 in *. unfold filled. rewrite app_nil_r. split.
  - apply bytes_ok_app. split; [|by apply Forall_replicate].
    apply Forall_fmap. eapply Forall_impl; [exact Hok|]. intros c Hb. cbn.
    rewrite <- (to_lower_code c Hb). case_if; [apply u8_byte|done].
  - rewrite zlen_app. unfold zlen in *. rewrite length_replicate.
    change (Z.to_nat AUTHD_LOGIN_NAME_BUFFER_SIZE) with 33%nat.
    change AUTHD_LOGIN_NAME_BUFFER_SIZE with 33. lia.
Qed.

(** ** Password requests *)

Definition password_field_ok (f : field) : bool :=
  let case type := f_type f =? type in
  let fits maximum := zlen (f_value f) <=? maximum in
  if case FTAP_FIELD_LOGIN_NAME then login_text (f_value f)
  else if case FTAP_FIELD_PASSWORD then fits AUTHD_PASSWORD_MAX_BYTES
  else if case FTAP_FIELD_PROTOCOL then fits FTAP_PROTOCOL_NAME_MAX
  else if case FTAP_FIELD_SOURCE_IP then fits FTAP_IP_ADDRESS_MAX
  else if case FTAP_FIELD_TTY_DEVICE then fits FTAP_TTY_DEVICE_MAX
  else if case FTAP_FIELD_NODE_ID then fits FTAP_NODE_ID_MAX
  else case FTAP_FIELD_AUTH_METHOD.

Definition store_password_field (f : field) (r : password_request) : password_request :=
  let a := pr_attempt r in
  let v := f_value f in
  let case type := f_type f =? type in
  if case FTAP_FIELD_LOGIN_NAME then
    PasswordRequest (la_set_login_name (filled (map to_lower v) []) a) (pr_password r)
      (pr_password_length r) true (pr_password_seen r)
  else if case FTAP_FIELD_PASSWORD then
    PasswordRequest a (v ++ drop (length v) (pr_password r)) (zlen v) (pr_login_seen r) true
  else if case FTAP_FIELD_PROTOCOL then
    set_attempt r (la_set_protocol (put_string v (la_protocol a)) a)
  else if case FTAP_FIELD_SOURCE_IP then
    set_attempt r (la_set_source_ip (put_string v (la_source_ip a)) a)
  else if case FTAP_FIELD_TTY_DEVICE then
    set_attempt r (la_set_tty_device (put_string v (la_tty_device a)) a)
  else if case FTAP_FIELD_NODE_ID then
    set_attempt r (la_set_node_id (put_string v (la_node_id a)) a)
  else r.

Record login_arrays_ok (a : authd_login_attempt) : Prop := {
  lo_login : array_ok AUTHD_LOGIN_NAME_BUFFER_SIZE (la_login_name a);
  lo_protocol : array_ok (FTAP_PROTOCOL_NAME_MAX + 1) (la_protocol a);
  lo_source_ip : array_ok (FTAP_IP_ADDRESS_MAX + 1) (la_source_ip a);
  lo_tty : array_ok (FTAP_TTY_DEVICE_MAX + 1) (la_tty_device a);
  lo_node : array_ok (FTAP_NODE_ID_MAX + 1) (la_node_id a);
}.

Record password_request_ok (r : password_request) : Prop := {
  pq_arrays : login_arrays_ok (pr_attempt r);
  pq_password : array_ok AUTHD_PASSWORD_MAX_BUFFER_BYTES (pr_password r);
}.

(** Case analysis on the type of a field. *)
Ltac field_case f n :=
  let E := fresh "E" in
  destruct (Z.eqb_spec (f_type f) n) as [E|E].

Lemma fits_array (v array : list Z) maximum :
  zlen array = maximum + 1 → (zlen v <? zlen array) = (zlen v <=? maximum).
Proof. intros ->. lia. Qed.

Lemma put_password_ok v password :
  array_ok AUTHD_PASSWORD_MAX_BUFFER_BYTES password → bytes_ok v →
  zlen v <= AUTHD_PASSWORD_MAX_BYTES →
  array_ok AUTHD_PASSWORD_MAX_BUFFER_BYTES (v ++ drop (length v) password).
Proof.
  intros [Hok Hl] Hv Hm. split.
  - apply bytes_ok_app. split; [done|]. by apply bytes_ok_drop.
  - rewrite zlen_app, zlen_drop, Hl. unfold AUTHD_PASSWORD_MAX_BUFFER_BYTES. unfold zlen in *. lia.
Qed.

Lemma password_request_field_spec t f r :
  password_request_ok r → tlv_is t f → wire_ok f →
  password_request_field t r =
    Some (if password_field_ok f then Continue (store_password_field f r) else Return tt).
Proof.
  intros [[Hl Hp Hs Ht Hn] Hpw] Hf _.
  unfold password_request_field, password_field_ok, store_password_field.
  rewrite (tlv_type_value t f Hf).
  case_if; [apply (canonicalize_or_fail_spec t f Hf), (array_length _ _ Hl)|].
  case_if; [apply (password_or_fail_spec t f Hf), (array_length _ _ Hpw)|].
  do 4 (case_if; [rewrite (copy_or_fail_spec t f Hf); by erewrite fits_array by (eapply array_length; eassumption)|]).
  by case_if.
Qed.

Lemma store_password_field_ok f r :
  password_request_ok r → wire_ok f → password_field_ok f = true →
  password_request_ok (store_password_field f r).
Proof.
  intros Hr [_ _ _ Hv] Hok. pose proof Hr as [[Hl Hp Hs Ht Hn] Hpw].
  revert Hok. unfold password_field_ok, store_password_field.
  repeat case_if; intros Hok; try done; apply Z.leb_le in Hok || idtac; split;
    try (split; try assumption; cbn;
         first [by apply filled_login_ok | apply put_string_ok; [assumption|done|lia]]); try done.
  by apply put_password_ok.
Qed.

(** What the locals contain after the fields [fs]. *)
Record password_request_of (fs : list field) (r : password_request) : Prop := {
  po_login : holds_login fs (la_login_name (pr_attempt r));
  po_protocol : holds FTAP_FIELD_PROTOCOL fs (la_protocol (pr_attempt r));
  po_source_ip : holds FTAP_FIELD_SOURCE_IP fs (la_source_ip (pr_attempt r));
  po_tty : holds FTAP_FIELD_TTY_DEVICE fs (la_tty_device (pr_attempt r));
  po_node : holds FTAP_FIELD_NODE_ID fs (la_node_id (pr_attempt r));
  po_source_ip_set : la_source_ip_set (pr_attempt r) = present FTAP_FIELD_SOURCE_IP fs;
  po_tty_set : la_tty_device_set (pr_attempt r) = present FTAP_FIELD_TTY_DEVICE fs;
  po_node_set : la_node_id_set (pr_attempt r) = present FTAP_FIELD_NODE_ID fs;
  po_password : holds_password fs (pr_password r) (pr_password_length r);
  po_login_seen : pr_login_seen r = present FTAP_FIELD_LOGIN_NAME fs;
  po_password_seen : pr_password_seen r = present FTAP_FIELD_PASSWORD fs;
  po_fresh : la_active (pr_attempt r) = false ∧ la_record_loaded (pr_attempt r) = false ∧
    la_record (pr_attempt r) = zero_login_record ∧ la_deferred_rejection (pr_attempt r) = false;
}.

Lemma holds_snoc_same type fs f array :
  f_type f = type → holds type (fs ++ [f]) (put_string (f_value f) array).
Proof. intros E. unfold holds. by rewrite value_of_snoc, E, Z.eqb_refl, cstr_put_string. Qed.

Lemma holds_login_same fs f :
  f_type f = FTAP_FIELD_LOGIN_NAME → login_text (f_value f) = true →
  holds_login (fs ++ [f]) (filled (map to_lower (f_value f)) []).
Proof.
  intros E Hl. unfold holds_login. rewrite value_of_snoc, E, Z.eqb_refl. by apply filled_login_cstr.
Qed.

Lemma holds_password_same fs f password :
  f_type f = FTAP_FIELD_PASSWORD →
  holds_password (fs ++ [f]) (f_value f ++ drop (length (f_value f)) password) (zlen (f_value f)).
Proof.
  intros E. unfold holds_password. rewrite value_of_snoc, E, Z.eqb_refl. apply buf_read_prefix.
Qed.

Lemma value_of_other type fs f : f_type f ≠ type → value_of type (fs ++ [f]) = value_of type fs.
Proof. intros E. rewrite value_of_snoc. by rewrite (proj2 (Z.eqb_neq _ _)). Qed.

Lemma holds_other type fs f array :
  f_type f ≠ type → holds type fs array → holds type (fs ++ [f]) array.
Proof. intros E. unfold holds. by rewrite value_of_other. Qed.

Lemma holds_login_other fs f array :
  f_type f ≠ FTAP_FIELD_LOGIN_NAME → holds_login fs array → holds_login (fs ++ [f]) array.
Proof. intros E. unfold holds_login. by rewrite value_of_other. Qed.

Lemma holds_password_other fs f password length :
  f_type f ≠ FTAP_FIELD_PASSWORD → holds_password fs password length →
  holds_password (fs ++ [f]) password length.
Proof. intros E. unfold holds_password. by rewrite value_of_other. Qed.

Lemma present_same type fs f : f_type f = type → true = present type (fs ++ [f]).
Proof. intros E. by rewrite present_snoc, E, Z.eqb_refl. Qed.

Lemma present_other type fs f b :
  f_type f ≠ type → b = present type fs → b = present type (fs ++ [f]).
Proof. intros E ->. rewrite present_snoc. by rewrite (proj2 (Z.eqb_neq _ _)). Qed.

(** The types of fields are different numbers. *)
Ltac other_type :=
  match goal with E : f_type _ = _ |- _ ≠ _ => rewrite E; vm_compute; congruence end.

Ltac solve_stored :=
  first
    [ assumption
    | by apply holds_login_same | by apply holds_snoc_same | by apply holds_password_same
    | by apply present_same
    | apply holds_login_other; [first [assumption | other_type]|assumption]
    | apply holds_other; [first [assumption | other_type]|assumption]
    | apply holds_password_other; [first [assumption | other_type]|assumption]
    | apply present_other; [first [assumption | other_type]|assumption] ].

Lemma store_password_field_of fs r f :
  password_request_of fs r → password_field_ok f = true →
  password_request_of (fs ++ [f]) (store_password_field f r).
Proof.
  intros [] Hok. revert Hok. unfold password_field_ok, store_password_field.
  repeat case_if; intros Hok; bools; split; cbn; solve_stored.
Qed.

Definition password_request_start : password_request :=
  PasswordRequest zero_login_attempt (zeros AUTHD_PASSWORD_MAX_BUFFER_BYTES) 0 false false.

Lemma password_request_start_ok : password_request_ok password_request_start.
Proof. split; [split|]; cbn; apply zeros_ok; vm_compute; congruence. Qed.

Lemma password_request_start_of : password_request_of [] password_request_start.
Proof. split; try done; cbn; vm_compute; reflexivity. Qed.

Lemma stored_password_request fs :
  forallb password_field_ok fs = true →
  password_request_of fs (stored store_password_field fs password_request_start).
Proof.
  induction fs as [|f fs IH] using rev_ind; [intros _; apply password_request_start_of|].
  rewrite forallb_app. cbn [forallb]. rewrite andb_true_r. intros Hok. bools.
  unfold stored. rewrite foldl_app. cbn [foldl]. apply store_password_field_of; [|done]. by apply IH.
Qed.

(** What [parse_password_request] returns for any payload. *)
Lemma parse_password_request_spec payload tail :
  bytes_ok (payload ++ tail) → zlen payload <= FTAP_MAX_PAYLOAD_SIZE →
  ∃ r, parse_password_request (Some (payload ++ tail)) (zlen payload) = Some r ∧
    match r with
    | Some (a, password, length) => ∃ fs,
        payload = payload_of fs ∧ Forall wire_ok fs ∧ forallb password_field_ok fs = true ∧
        present FTAP_FIELD_LOGIN_NAME fs = true ∧ present FTAP_FIELD_PASSWORD fs = true ∧
        password_request_of fs (PasswordRequest a password length true true) ∧
        login_arrays_ok a ∧ cstr (la_protocol a) ≠ []
    | None => ∀ fs, payload = payload_of fs → Forall wire_ok fs →
        forallb password_field_ok fs = true → present FTAP_FIELD_LOGIN_NAME fs = true →
        present FTAP_FIELD_PASSWORD fs = true →
        cstr (default [] (value_of FTAP_FIELD_PROTOCOL fs)) = []
    end.
Proof.
  intros Hok Hmax. unfold parse_password_request. fold password_request_start.
  destruct (parse_fields_spec password_request_field password_field_ok store_password_field
    password_request_ok) with (payload := payload) (tail := tail) (s := password_request_start)
    as (r & -> & Hr);
    [intros; by apply password_request_field_spec|intros; by apply store_password_field_ok
    |apply password_request_start_ok|done|done|].
  run_simpl. destruct Hr as [fs Hp Hw Hf Hinv|Hno].
  2:{ eexists. split; [done|]. intros fs Hp Hw Hf. by rewrite (Hno fs) in Hf. }
  pose proof (stored_password_request fs Hf) as Hof.
  set (q := stored _ _ _) in *. destruct Hinv as [[Hal Hap Has Hat Han] Hpw].
  destruct (la_protocol (pr_attempt q)) as [|b bs] eqn:Hproto.
  { by destruct Hap. }
  run_simpl. change (buf_get (b :: bs) 0) with (Some b). run_simpl.
  pose proof (po_protocol _ _ Hof) as Hh. unfold holds in Hh. rewrite Hproto in Hh.
  rewrite (po_login_seen _ _ Hof), (po_password_seen _ _ Hof).
  destruct (present FTAP_FIELD_LOGIN_NAME fs) eqn:Hpl; cbn [andb].
  2:{ eexists. split; [done|]. intros gs Hp' Hw'.
      rewrite (payload_of_inj gs fs) by (done || congruence). congruence. }
  destruct (present FTAP_FIELD_PASSWORD fs) eqn:Hpp; cbn [andb].
  2:{ eexists. split; [done|]. intros gs Hp' Hw'.
      rewrite (payload_of_inj gs fs) by (done || congruence). congruence. }
  destruct (Z.eqb_spec b 0) as [Hb|Hb]; cbn [negb].
  - eexists. split; [done|]. intros gs Hp' Hw'.
    rewrite (payload_of_inj gs fs) by (done || congruence). intros _ _ _. rewrite <- Hh.
    cbn. by rewrite Hb.
  - eexists. split; [done|]. exists fs. split; [done|]. split; [done|]. split; [done|].
    split; [done|]. split; [done|]. split; [|split].
    + destruct q as [a pw n l p]. destruct Hof. cbn in *. subst. by split.
    + by split; try rewrite Hproto.
    + rewrite Hproto. cbn. by destruct (Z.eqb_spec b 0).
Qed.

(** ** Registration requests *)

Definition registration_field_ok (f : field) : bool :=
  let case type := f_type f =? type in
  let fits maximum := zlen (f_value f) <=? maximum in
  if case FTAP_FIELD_LOGIN_NAME then login_text (f_value f)
  else if case FTAP_FIELD_DISPLAY_NAME then fits FTAP_DISPLAY_NAME_MAX
  else if case FTAP_FIELD_PASSWORD then fits AUTHD_PASSWORD_MAX_BYTES
  else if case FTAP_FIELD_PROTOCOL then fits FTAP_PROTOCOL_NAME_MAX
  else if case FTAP_FIELD_SOURCE_IP then fits FTAP_IP_ADDRESS_MAX
  else if case FTAP_FIELD_TTY_DEVICE then fits FTAP_TTY_DEVICE_MAX
  else if case FTAP_FIELD_NODE_ID then fits FTAP_NODE_ID_MAX
  else case FTAP_FIELD_AUTH_METHOD.

Definition store_registration_field (f : field) (r : registration_request)
    : registration_request :=
  let '(RegistrationRequest a password length login display pass protocol source_ip) := r in
  let v := f_value f in
  let case type := f_type f =? type in
  if case FTAP_FIELD_LOGIN_NAME then
    RegistrationRequest (ra_set_login_name (filled (map to_lower v) []) a) password length true
      display pass protocol source_ip
  else if case FTAP_FIELD_DISPLAY_NAME then
    RegistrationRequest (ra_set_display_name (put_string v (ra_display_name a)) a) password length
      login true pass protocol source_ip
  else if case FTAP_FIELD_PASSWORD then
    RegistrationRequest a (v ++ drop (Datatypes.length v) password) (zlen v) login display true
      protocol source_ip
  else if case FTAP_FIELD_PROTOCOL then
    RegistrationRequest (ra_set_protocol (put_string v (ra_protocol a)) a) password length login
      display pass true source_ip
  else if case FTAP_FIELD_SOURCE_IP then
    RegistrationRequest (ra_set_source_ip (put_string v (ra_source_ip a)) a) password length login
      display pass protocol true
  else if case FTAP_FIELD_TTY_DEVICE then
    RegistrationRequest (ra_set_tty_device (put_string v (ra_tty_device a)) a) password length
      login display pass protocol source_ip
  else if case FTAP_FIELD_NODE_ID then
    RegistrationRequest (ra_set_node_id (put_string v (ra_node_id a)) a) password length
      login display pass protocol source_ip
  else r.

Record registration_arrays_ok (a : authd_registration_attempt) : Prop := {
  go_login : array_ok AUTHD_LOGIN_NAME_BUFFER_SIZE (ra_login_name a);
  go_display : array_ok (FTAP_DISPLAY_NAME_MAX + 1) (ra_display_name a);
  go_protocol : array_ok (FTAP_PROTOCOL_NAME_MAX + 1) (ra_protocol a);
  go_source_ip : array_ok (FTAP_IP_ADDRESS_MAX + 1) (ra_source_ip a);
  go_tty : array_ok (FTAP_TTY_DEVICE_MAX + 1) (ra_tty_device a);
  go_node : array_ok (FTAP_NODE_ID_MAX + 1) (ra_node_id a);
}.

Record registration_request_ok (r : registration_request) : Prop := {
  rq_arrays : registration_arrays_ok (rr_attempt r);
  rq_password : array_ok AUTHD_PASSWORD_MAX_BUFFER_BYTES (rr_password r);
}.

Lemma registration_request_field_spec t f r :
  registration_request_ok r → tlv_is t f → wire_ok f →
  registration_request_field t r =
    Some (if registration_field_ok f then Continue (store_registration_field f r) else Return tt).
Proof.
  intros [Ha Hpw] Hf _. destruct r as [a password length login display pass protocol source_ip].
  cbn [rr_attempt rr_password] in *. destruct Ha as [Hl Hd Hp Hs Ht Hn].
  unfold registration_request_field, registration_field_ok, store_registration_field.
  rewrite (tlv_type_value t f Hf).
  case_if; [apply (canonicalize_or_fail_spec t f Hf), (array_length _ _ Hl)|].
  case_if; [rewrite (copy_or_fail_spec t f Hf); by erewrite fits_array by (eapply array_length; eassumption)|].
  case_if; [apply (password_or_fail_spec t f Hf), (array_length _ _ Hpw)|].
  do 4 (case_if; [rewrite (copy_or_fail_spec t f Hf); by erewrite fits_array by (eapply array_length; eassumption)|]).
  by case_if.
Qed.

Lemma store_registration_field_ok f r :
  registration_request_ok r → wire_ok f → registration_field_ok f = true →
  registration_request_ok (store_registration_field f r).
Proof.
  intros [Ha Hpw] [_ _ _ Hv] Hok. destruct r as [a password length login display pass protocol source_ip].
  cbn [rr_attempt rr_password] in *. pose proof Ha as [Hl Hd Hp Hs Ht Hn]. revert Hok.
  unfold registration_field_ok, store_registration_field.
  repeat case_if; intros Hok; try done; apply Z.leb_le in Hok || idtac; split;
    try (split; try assumption; cbn;
         first [by apply filled_login_ok | apply put_string_ok; [assumption|done|lia]]); try done.
  by apply put_password_ok.
Qed.

Record registration_request_of (fs : list field) (r : registration_request) : Prop := {
  ro_login : holds_login fs (ra_login_name (rr_attempt r));
  ro_display : holds FTAP_FIELD_DISPLAY_NAME fs (ra_display_name (rr_attempt r));
  ro_protocol : holds FTAP_FIELD_PROTOCOL fs (ra_protocol (rr_attempt r));
  ro_source_ip : holds FTAP_FIELD_SOURCE_IP fs (ra_source_ip (rr_attempt r));
  ro_tty : holds FTAP_FIELD_TTY_DEVICE fs (ra_tty_device (rr_attempt r));
  ro_node : holds FTAP_FIELD_NODE_ID fs (ra_node_id (rr_attempt r));
  ro_tty_set : ra_tty_device_set (rr_attempt r) = present FTAP_FIELD_TTY_DEVICE fs;
  ro_node_set : ra_node_id_set (rr_attempt r) = present FTAP_FIELD_NODE_ID fs;
  ro_password : holds_password fs (rr_password r) (rr_password_length r);
  ro_login_seen : rr_login_seen r = present FTAP_FIELD_LOGIN_NAME fs;
  ro_display_seen : rr_display_seen r = present FTAP_FIELD_DISPLAY_NAME fs;
  ro_password_seen : rr_password_seen r = present FTAP_FIELD_PASSWORD fs;
  ro_protocol_seen : rr_protocol_seen r = present FTAP_FIELD_PROTOCOL fs;
  ro_source_ip_seen : rr_source_ip_seen r = present FTAP_FIELD_SOURCE_IP fs;
  ro_fresh : ra_active (rr_attempt r) = false ∧ ra_database_pending (rr_attempt r) = false ∧
    ra_record (rr_attempt r) = zero_registration_begin;
}.

Lemma store_registration_field_of fs r f :
  registration_request_of fs r → registration_field_ok f = true →
  registration_request_of (fs ++ [f]) (store_registration_field f r).
Proof.
  intros [] Hok. revert Hok. destruct r. cbn in *.
  unfold registration_field_ok, store_registration_field.
  repeat case_if; intros Hok; bools; split; cbn; solve_stored.
Qed.

Definition registration_request_start : registration_request :=
  RegistrationRequest zero_registration_attempt (zeros AUTHD_PASSWORD_MAX_BUFFER_BYTES) 0
    false false false false false.

Lemma registration_request_start_ok : registration_request_ok registration_request_start.
Proof. split; [split|]; cbn; apply zeros_ok; vm_compute; congruence. Qed.

Lemma registration_request_start_of : registration_request_of [] registration_request_start.
Proof. split; try done; cbn; vm_compute; reflexivity. Qed.

Lemma stored_registration_request fs :
  forallb registration_field_ok fs = true →
  registration_request_of fs (stored store_registration_field fs registration_request_start).
Proof.
  induction fs as [|f fs IH] using rev_ind; [intros _; apply registration_request_start_of|].
  rewrite forallb_app. cbn [forallb]. rewrite andb_true_r. intros Hok. bools.
  unfold stored. rewrite foldl_app. cbn [foldl]. apply store_registration_field_of; [|done].
  by apply IH.
Qed.

(** The fields that a registration must have. *)
Definition registration_fields : list Z :=
  [FTAP_FIELD_LOGIN_NAME; FTAP_FIELD_DISPLAY_NAME; FTAP_FIELD_PASSWORD; FTAP_FIELD_PROTOCOL;
   FTAP_FIELD_SOURCE_IP].

Lemma parse_registration_begin_request_spec payload tail :
  bytes_ok (payload ++ tail) → zlen payload <= FTAP_MAX_PAYLOAD_SIZE →
  ∃ r, parse_registration_begin_request (Some (payload ++ tail)) (zlen payload) = Some r ∧
    match r with
    | Some (a, password, length) => ∃ fs,
        payload = payload_of fs ∧ Forall wire_ok fs ∧ forallb registration_field_ok fs = true ∧
        forallb (λ type, present type fs) registration_fields = true ∧
        registration_request_of fs (RegistrationRequest a password length true true true true true) ∧
        registration_arrays_ok a
    | None => ∀ fs, payload = payload_of fs → Forall wire_ok fs →
        forallb registration_field_ok fs = true →
        forallb (λ type, present type fs) registration_fields = false
    end.
Proof.
  intros Hok Hmax. unfold parse_registration_begin_request. fold registration_request_start.
  destruct (parse_fields_spec registration_request_field registration_field_ok
    store_registration_field registration_request_ok)
    with (payload := payload) (tail := tail) (s := registration_request_start)
    as (r & -> & Hr);
    [intros; by apply registration_request_field_spec|intros; by apply store_registration_field_ok
    |apply registration_request_start_ok|done|done|].
  run_simpl. destruct Hr as [fs Hp Hw Hf Hinv|Hno].
  2:{ eexists. split; [done|]. intros fs Hp Hw Hf. by rewrite (Hno fs) in Hf. }
  pose proof (stored_registration_request fs Hf) as Hof.
  set (q := stored _ _ _) in *. eexists. split; [reflexivity|].
  rewrite (ro_login_seen _ _ Hof), (ro_display_seen _ _ Hof), (ro_password_seen _ _ Hof),
    (ro_protocol_seen _ _ Hof), (ro_source_ip_seen _ _ Hof).
  destruct (forallb (λ type, present type fs) registration_fields) eqn:Hall;
    pose proof Hall as Hall'; cbn [forallb registration_fields] in Hall';
    rewrite andb_true_r, !andb_assoc in Hall'; rewrite Hall'.
  - exists fs. split; [done|]. split; [done|]. split; [done|]. split; [done|]. bools.
    destruct Hinv as [Ha _]. split; [|done].
    destruct q as [a pw n l d p pr s]. destruct Hof. cbn in *. by split.
  - intros gs Hp' Hw' _. by rewrite (payload_of_inj gs fs) by (done || congruence).
Qed.

(** ** Session ends, registration identifiers, protocol versions *)

Definition reason_field_ok (size : Z) (f : field) : bool :=
  (f_type f =? FTAP_FIELD_ENDED_REASON) && (zlen (f_value f) <? size).

(** The reason of a SESSION_CLOSE request. *)
Definition close_reason (fs : list field) : list Z :=
  match value_of FTAP_FIELD_ENDED_REASON fs with
  | Some v => cstr v
  | None => lit "normal_logout"
  end.

Lemma parse_session_close_reason_spec payload tail reason :
  bytes_ok (payload ++ tail) → zlen payload <= FTAP_MAX_PAYLOAD_SIZE →
  array_ok (FTAP_ENDED_REASON_MAX + 1) reason →
  ∃ r, parse_session_close_reason (Some (payload ++ tail)) (zlen payload) reason = Some r ∧
    match r with
    | Some text => ∃ fs, payload = payload_of fs ∧ Forall wire_ok fs ∧
        forallb (reason_field_ok (FTAP_ENDED_REASON_MAX + 1)) fs = true ∧
        cstr text = close_reason fs ∧ array_ok (FTAP_ENDED_REASON_MAX + 1) text
    | None => ∀ fs, payload = payload_of fs → Forall wire_ok fs →
        forallb (reason_field_ok (FTAP_ENDED_REASON_MAX + 1)) fs = false
    end.
Proof.
  intros Hok Hmax [Hr Hlen]. unfold parse_session_close_reason.
  set (start := snprintf_s reason _).
  assert (array_ok (FTAP_ENDED_REASON_MAX + 1) start) as Hstart.
  { split; [|by rewrite <- Hlen; apply snprintf_length].
    unfold start, snprintf_s. destruct (length reason); [done|].
    apply bytes_ok_app. split; [|constructor; [done|by apply bytes_ok_drop]].
    apply bytes_ok_take, cstr_bytes_ok, lit_bytes_ok. }
  destruct (parse_fields_spec
    close_reason_field (reason_field_ok (FTAP_ENDED_REASON_MAX + 1)) (λ f array, put_string (f_value f) array)
    (array_ok (FTAP_ENDED_REASON_MAX + 1))) with (payload := payload) (tail := tail) (s := start)
    as (r & -> & Hp); [| |done..|].
  - intros t f s [_ Hs] Ht _. unfold close_reason_field, reason_field_ok. rewrite (tlv_type_value t f Ht).
    destruct (f_type f =? _); [|done]. cbn [negb andb]. rewrite (copy_or_fail_spec t f Ht). by rewrite Hs.
  - intros f s Hs [_ _ _ Hv] Hf. unfold reason_field_ok in Hf. bools. by apply put_string_ok.
  - exists r. split; [done|]. destruct Hp as [fs Hp Hw Hf Hinv|Hno]; [|intros; by eapply Hno].
    exists fs. split; [done|]. split; [done|]. split; [done|]. split; [|done].
    clear Hp Hw Hinv. induction fs as [|f fs IH] using rev_ind.
    + unfold start, close_reason. cbn. apply cstr_snprintf. rewrite Hlen. vm_compute. done.
    + rewrite forallb_app in Hf. cbn [forallb] in Hf. bools. unfold reason_field_ok in *. bools.
      unfold stored, close_reason. rewrite foldl_app, value_of_snoc. cbn [foldl].
      rewrite cstr_put_string. by case_if; bools.
Qed.

Definition id_field_ok (with_reason : bool) (f : field) : bool :=
  if f_type f =? FTAP_FIELD_REGISTRATION_ID then zlen (f_value f) =? FTAP_UUID_SIZE
  else (f_type f =? FTAP_FIELD_REGISTRATION_REASON) && with_reason
       && (zlen (f_value f) <=? FTAP_REGISTRATION_REASON_MAX).

Lemma get_uuid_value t f id :
  tlv_is t f → zlen id = FTAP_UUID_SIZE →
  ftap_tlv_get_uuid (Some t) (Some id) =
    Some (if zlen (f_value f) =? FTAP_UUID_SIZE then (FTAP_STATUS_OK, Some (f_value f))
          else (FTAP_STATUS_ERR_LENGTH, Some id)).
Proof.
  intros (_ & _ & Hl & _ & tail & Hp & _) Hid. unfold ftap_tlv_get_uuid. rewrite Hp, Hl.
  destruct (zlen (f_value f) =? FTAP_UUID_SIZE) eqn:E; [|done]. bools. cbn [negb].
  rewrite <- E at 1. rewrite buf_read_prefix. run_simpl. rewrite buf_write_in; [|lia|rewrite E, Hid; lia].
  run_simpl. change (Z.to_nat 0) with 0%nat. rewrite take_0, app_nil_l, Nat.add_0_l.
  rewrite drop_ge; [by rewrite app_nil_r|]. unfold zlen in *. lia.
Qed.

(** A reason array is passed or not. *)
Definition reason_array (with_reason : bool) (reason : ptr) : Prop :=
  match reason with
  | Some array => with_reason = true ∧ array_ok (FTAP_REGISTRATION_REASON_MAX + 1) array
  | None => with_reason = false
  end.

Record id_state_ok (with_reason : bool) (s : list Z * bool * ptr * bool) : Prop := {
  is_id : array_ok FTAP_UUID_SIZE (fst (fst (fst s)));
  is_reason : reason_array with_reason (snd (fst s));
}.

Definition store_id_field (f : field) (s : list Z * bool * ptr * bool)
    : list Z * bool * ptr * bool :=
  let '(id, id_seen, reason, reason_set) := s in
  if f_type f =? FTAP_FIELD_REGISTRATION_ID then (f_value f, true, reason, reason_set)
  else (id, id_seen, put_string (f_value f) <$> reason, true).

Lemma registration_id_field_spec with_reason t f s :
  id_state_ok with_reason s → tlv_is t f → wire_ok f →
  registration_id_field t s =
    Some (if id_field_ok with_reason f then Continue (store_id_field f s) else Return tt).
Proof.
  destruct s as [[[id seen] reason] set]. intros [[_ Hid] Hr] Ht _. cbn in Hid, Hr.
  unfold registration_id_field, id_field_ok, store_id_field. rewrite (tlv_type_value t f Ht).
  case_if.
  - rewrite (get_uuid_value t f id Ht Hid). unfold deref. by destruct (zlen _ =? _).
  - destruct reason as [array|]; cbn [is_null negb].
    + destruct Hr as [-> [_ Ha]]. rewrite !andb_true_r. case_if; [|done]. unfold deref. run_simpl.
      rewrite (copy_or_fail_spec t f Ht), Ha. cbn [fmap option_fmap option_map].
      replace (zlen (f_value f) <? FTAP_REGISTRATION_REASON_MAX + 1) with
        (zlen (f_value f) <=? FTAP_REGISTRATION_REASON_MAX) by lia. done.
    + cbn in Hr. subst with_reason. by rewrite !andb_false_r.
Qed.

Lemma store_id_field_ok with_reason f s :
  id_state_ok with_reason s → wire_ok f → id_field_ok with_reason f = true →
  id_state_ok with_reason (store_id_field f s).
Proof.
  destruct s as [[[id seen] reason] set]. intros [Hid Hr] [_ _ _ Hv] Hok. cbn in Hid, Hr.
  revert Hok. unfold id_field_ok, store_id_field. case_if; intros Hok; bools; split; cbn; try done.
  destruct reason as [array|]; [|done]. destruct Hr as [-> Ha]. split; [done|].
  apply put_string_ok; [done|done|lia].
Qed.

Definition reason_null (a b : ptr) : Prop := is_null a = is_null b.

(** What the outputs contain after the fields [fs]. *)
Lemma stored_id_fields with_reason fs reason :
  forallb (id_field_ok with_reason) fs = true → reason_array with_reason reason →
  let '(id, seen, reason', set) := stored store_id_field fs (zeros FTAP_UUID_SIZE, false, reason, false) in
  seen = present FTAP_FIELD_REGISTRATION_ID fs ∧
  (∀ v, value_of FTAP_FIELD_REGISTRATION_ID fs = Some v → id = v) ∧
  set = present FTAP_FIELD_REGISTRATION_REASON fs ∧
  (∀ v, value_of FTAP_FIELD_REGISTRATION_REASON fs = Some v →
     ∃ array, reason' = Some array ∧ cstr array = cstr v) ∧
  reason_null reason' reason.
Proof.
  intros Hok Hr. induction fs as [|f fs IH] using rev_ind; [done|].
  rewrite forallb_app in Hok. cbn [forallb] in Hok. bools. unfold stored in *. rewrite foldl_app.
  cbn [foldl]. destruct (foldl _ _ fs) as [[[id seen] reason'] set].
  destruct IH as (Hs & Hid & Hset & Htext & Hn); [done|]. unfold store_id_field, id_field_ok in *.
  destruct (f_type f =? FTAP_FIELD_REGISTRATION_ID) eqn:E.
  - bools. rewrite !value_of_snoc, !present_snoc, E. change (_ =? FTAP_FIELD_REGISTRATION_ID) with true.
    change (_ =? FTAP_FIELD_REGISTRATION_REASON) with false. cbn [orb].
    split; [done|]. split; [by intros v [= ->]|]. done.
  - bools. rewrite !value_of_snoc, !present_snoc. rewrite (proj2 (Z.eqb_neq _ _)) by done.
    match goal with H : f_type f = _ |- _ => rewrite H end. rewrite Z.eqb_refl. cbn [orb].
    split; [done|]. split; [done|]. split; [done|]. split.
    + intros v [= ->]. destruct reason' as [array|]; cbn in Hn.
      * eexists. split; [reflexivity|]. apply cstr_put_string.
      * destruct reason; [done|]. cbn in Hr. congruence.
    + by destruct reason', reason.
Qed.

Lemma parse_registration_id_spec payload tail (reason : ptr) :
  bytes_ok (payload ++ tail) → zlen payload <= FTAP_MAX_PAYLOAD_SIZE →
  (∀ array, reason = Some array → array_ok (FTAP_REGISTRATION_REASON_MAX + 1) array) →
  ∃ r, parse_registration_id (Some (payload ++ tail)) (zlen payload) reason = Some r ∧
    match r with
    | Some (id, set) => ∃ fs, payload = payload_of fs ∧ Forall wire_ok fs ∧
        forallb (id_field_ok (negb (is_null reason))) fs = true ∧
        value_of FTAP_FIELD_REGISTRATION_ID fs = Some id ∧ uuid_ok id ∧
        cstr <$> set = cstr <$> value_of FTAP_FIELD_REGISTRATION_REASON fs
    | None => ∀ fs, payload = payload_of fs → Forall wire_ok fs →
        forallb (id_field_ok (negb (is_null reason))) fs = true →
        value_of FTAP_FIELD_REGISTRATION_ID fs = None
    end.
Proof.
  intros Hok Hmax Hreason. unfold parse_registration_id.
  set (cleared := (λ array, <[0%nat := 0]> array) <$> reason).
  assert (match reason with
          | Some array => let! array := buf_set array 0 0 in Some (Some array)
          | None => Some None
          end = Some cleared) as ->.
  { unfold cleared. destruct reason as [array|]; [|done]. cbn.
    destruct (Hreason array eq_refl) as [_ Hl]. by rewrite buf_set_in by (rewrite Hl; vm_compute; done). }
  assert (reason_array (negb (is_null reason)) cleared) as Hclear.
  { unfold cleared, reason_array. destruct reason as [array|]; [|done]. cbn.
    destruct (Hreason array eq_refl) as [Ho Hl]. split; [done|]. split; [by apply Forall_insert|].
    unfold zlen in *. by rewrite length_insert. }
  destruct (parse_fields_spec registration_id_field (id_field_ok (negb (is_null reason)))
    store_id_field (id_state_ok (negb (is_null reason))))
    with (payload := payload) (tail := tail) (s := (zeros FTAP_UUID_SIZE, false, cleared, false))
    as (r & -> & Hp);
    [intros; by apply registration_id_field_spec|intros; by apply store_id_field_ok
    |split; [by apply zeros_ok|done]|done|done|].
  run_simpl. destruct Hp as [fs Hp Hw Hf Hinv|Hno].
  2:{ eexists. split; [done|]. intros fs Hp Hw Hf. by rewrite (Hno fs) in Hf. }
  pose proof (stored_id_fields (negb (is_null reason)) fs cleared Hf Hclear) as Hstored.
  destruct (stored _ _ _) as [[[id seen] reason'] set] eqn:Hst.
  destruct Hstored as (-> & Hid & -> & Htext & _).
  destruct Hinv as [Hu _]. unfold present in *.
  destruct (value_of FTAP_FIELD_REGISTRATION_ID fs) as [v|] eqn:Hv; cbn [is_null negb];
    (eexists; split; [reflexivity|]).
  - exists fs. split; [done|]. split; [done|]. split; [done|]. rewrite (Hid v eq_refl) in *.
    split; [done|]. split; [by destruct Hu|].
    destruct (value_of FTAP_FIELD_REGISTRATION_REASON fs) as [w|] eqn:Hw'; [|done]. cbn.
    destruct (Htext w eq_refl) as (array & -> & Ha). cbn. by rewrite Ha.
  - intros gs Hp' Hw' _. by rewrite (payload_of_inj gs fs) by (done || congruence).
Qed.

(** The version test: the last values of the two version fields. *)
Definition version_field_ok (f : field) : bool :=
  if (f_type f =? FTAP_FIELD_SUPPORTED_MAJOR) || (f_type f =? FTAP_FIELD_SUPPORTED_MINOR)
  then zlen (f_value f) =? 2 else true.

Definition versions_of (fs : list field) : bool :=
  forallb version_field_ok fs
  && (be_val (default [] (value_of FTAP_FIELD_SUPPORTED_MAJOR fs)) =? FTAP_VERSION_MAJOR)
  && (FTAP_VERSION_MINOR <=? be_val (default [] (value_of FTAP_FIELD_SUPPORTED_MINOR fs))).

Definition store_version (f : field) (v : Z * Z) : Z * Z :=
  if f_type f =? FTAP_FIELD_SUPPORTED_MAJOR then (be_val (f_value f), snd v)
  else if f_type f =? FTAP_FIELD_SUPPORTED_MINOR then (fst v, be_val (f_value f)) else v.

Lemma hello_versions_spec payload tail :
  bytes_ok (payload ++ tail) → zlen payload <= FTAP_MAX_PAYLOAD_SIZE →
  ∃ b, hello_versions_are_supported (Some (payload ++ tail)) (zlen payload) = Some b ∧
    ∀ fs, payload = payload_of fs → Forall wire_ok fs → b = versions_of fs.
Proof.
  intros Hok Hmax. unfold hello_versions_are_supported.
  destruct (parse_fields_spec hello_field version_field_ok store_version (λ _, True))
    with (payload := payload) (tail := tail) (s := (0, 0)) as (r & -> & Hp); [| |done..|].
  - intros t f [major minor] _ Ht _. unfold hello_field, version_field_ok, store_version.
    rewrite (tlv_type_value t f Ht). unfold ftap_tlv_get_u16.
    rewrite !(get_word_spec t f Ht 2) by exact read_u16_be_spec. change (Z.of_nat 2) with 2.
    destruct (f_type f =? FTAP_FIELD_SUPPORTED_MAJOR); cbn [orb]; [by destruct (zlen _ =? 2)|].
    destruct (f_type f =? FTAP_FIELD_SUPPORTED_MINOR); [by destruct (zlen _ =? 2)|done].
  - done.
  - run_simpl. destruct Hp as [fs Hp Hw Hf _|Hno]; (eexists; split; [reflexivity|]);
      intros gs Hp' Hw'; unfold versions_of; [|by rewrite Hno].
    rewrite (payload_of_inj gs fs) by (done || congruence). rewrite Hf. cbn [andb].
    assert (stored store_version fs (0, 0) =
      (be_val (default [] (value_of FTAP_FIELD_SUPPORTED_MAJOR fs)),
       be_val (default [] (value_of FTAP_FIELD_SUPPORTED_MINOR fs)))) as ->; [|done].
    clear. induction fs as [|f fs IH] using rev_ind; [done|].
    unfold stored in *. rewrite foldl_app, !value_of_snoc. cbn [foldl]. rewrite IH.
    unfold store_version. case_if; cbn; [bools; by rewrite E|]. by case_if.
Qed.

(** ** Validated requests *)

Section validated.
Context `{Inet}.

Definition text_kind (k : kind) : option Z :=
  match k with
  | KText maximum | KEnum maximum _ => Some maximum
  | KAddress => Some FTAP_IP_ADDRESS_MAX
  | _ => None
  end.

Lemma validated_text message_type f k maximum :
  wire_ok f → value_ok message_type f →
  field_kind (f_type f) = Some k → text_kind k = Some maximum →
  f_value f ≠ [] ∧ zlen (f_value f) <= maximum ∧ cstr (f_value f) = f_value f.
Proof.
  intros [_ _ _ Hok] [(k' & Hk' & Hv) _] Hk Htext. rewrite Hk in Hk'. injection Hk' as <-.
  assert (text_status maximum (f_value f) = FTAP_STATUS_OK ∨
    k = KAddress ∧ canonical_address (f_value f)) as [Hs|[-> Ha]].
  { apply field_kind_sane in Hk as Hs. destruct k; try done; cbn in *; simplify_eq.
    - left. by apply text_status_ok.
    - left. by eapply Forall_forall in Hs.
    - by right. }
  - apply text_status_nonempty in Hs as (? & ? & Hu). split; [done|]. split; [done|].
    by apply cstr_id, utf8_ok_nonzero.
  - cbn in Htext. injection Htext as <-. destruct Ha as (? & ? & Hu & _). split; [done|].
    split; [done|]. apply cstr_id, utf8_ok_nonzero. by apply utf8_ok_text.
Qed.

Lemma value_of_in type fs v :
  value_of type fs = Some v → ∃ f, f ∈ fs ∧ f_type f = type ∧ f_value f = v.
Proof.
  unfold value_of. destruct (last _) as [f|] eqn:Hl; [|done]. intros [= <-].
  apply last_Some_elem_of, list_elem_of_filter in Hl as [Ht Hin]. by exists f.
Qed.

Lemma present_in type fs : present type fs = true ↔ ∃ f, f ∈ fs ∧ f_type f = type.
Proof.
  unfold present. destruct (value_of type fs) as [v|] eqn:Hv; cbn.
  - split; [intros _|done]. apply value_of_in in Hv as (f & ? & ? & _). by exists f.
  - split; [done|]. intros (f & Hin & Ht). exfalso. unfold value_of in Hv.
    destruct (filter (λ f, f_type f = type) fs) as [|g gs] eqn:Hf.
    + assert (f ∈ filter (λ f, f_type f = type) fs) as Hin' by by apply list_elem_of_filter.
      rewrite Hf in Hin'. by apply not_elem_of_nil in Hin'.
    + destruct (last (g :: gs)) eqn:Hl; [done|]. by apply last_None in Hl.
Qed.

(** The text of a validated field is in the array as it is. *)
Lemma holds_validated message_type type fs array k maximum :
  field_kind type = Some k → text_kind k = Some maximum →
  Forall wire_ok fs → (∀ f, f ∈ fs → f_type f = type → value_ok message_type f) →
  holds type fs array →
  (if present type fs then Some (cstr array) else None) = value_of type fs.
Proof.
  intros Hk Htext Hw Hv Hh. unfold holds in Hh. unfold present.
  destruct (value_of type fs) as [v|] eqn:Hval; [|done]. cbn. rewrite Hh. cbn. f_equal.
  apply value_of_in in Hval as (f & Hin & Ht & <-).
  apply (validated_text message_type f k maximum);
    [by eapply Forall_forall|by apply Hv|by rewrite Ht|done].
Qed.

Definition known_fields (fs : list field) : bool :=
  forallb (λ f, ftap_field_type_is_known (f_type f)) fs.

(** The value of a field that has to be there. *)
Definition required_value (type : Z) (fs : list field) : list Z := default [] (value_of type fs).

Lemma fields_ok_value message_type rules fs type f :
  fields_ok message_type rules fs → ftap_field_type_is_known type = true →
  f ∈ fs → f_type f = type → value_ok message_type f.
Proof. intros [_ Hk _ _] Hkn Hin <-. by apply Hk. Qed.

Lemma fields_ok_present message_type rules fs type :
  fields_ok message_type rules fs → RULE_REQUIRED type ∈ rules → present type fs = true.
Proof.
  intros [_ _ _ Hreq] Hin. apply present_in. by apply (Hreq (RULE_REQUIRED type) Hin).
Qed.

Lemma required_same fs f message_type rules type :
  fields_ok message_type rules fs → RULE_REQUIRED type ∈ rules → f ∈ fs → f_type f = type →
  f_value f = required_value type fs.
Proof.
  intros Hfs Hr Hin Ht. pose proof (fields_ok_present _ _ _ _ Hfs Hr) as Hp.
  unfold present in Hp. unfold required_value.
  destruct (value_of type fs) as [v|] eqn:Hv; [|done]. cbn.
  apply value_of_in in Hv as (g & Hg & Htg & <-).
  apply list_elem_of_lookup in Hin as [i Hi], Hg as [j Hj].
  assert (i = j) as ->; [|congruence].
  by apply (fields_once _ _ _ Hfs (RULE_REQUIRED type) i j f g).
Qed.

(** A validated field is acceptable unless it is unknown or a login name of
    other characters. *)
Lemma validated_password_field f rule :
  wire_ok f → value_ok FTAP_MSG_AUTH_PASSWORD_REQUEST f →
  rule ∈ auth_password_request_rules → rule_type rule = f_type f →
  password_field_ok f =
    (negb (f_type f =? FTAP_FIELD_LOGIN_NAME) || login_text (f_value f)).
Proof.
  intros Hw Hv Hr Ht. pose proof (λ k m, validated_text FTAP_MSG_AUTH_PASSWORD_REQUEST f k m Hw Hv) as Htext. unfold password_field_ok.
  unfold auth_password_request_rules in Hr. rewrite !elem_of_cons, elem_of_nil in Hr.
  repeat destruct Hr as [->|Hr]; try done; cbn [rule_type] in Ht; rewrite <- Ht in *; try done;
    (edestruct Htext as (_ & Hlen & _); [reflexivity|reflexivity|]);
    apply Z.leb_le; exact Hlen.
Qed.

Lemma forallb_false {A} (p : A → bool) l : forallb p l = false → ∃ x, x ∈ l ∧ p x = false.
Proof.
  induction l as [|x l IH]; [done|]. cbn. intros Hf. destruct (p x) eqn:E.
  - destruct (IH Hf) as (y & Hy & Hpy). exists y. split; [by right|done].
  - exists x. split; [by left|done].
Qed.

(** The members that are read from a text that the peer may leave out. *)
Lemma validated_optional fs type array k maximum :
  fields_ok FTAP_MSG_AUTH_PASSWORD_REQUEST auth_password_request_rules fs → Forall wire_ok fs →
  ftap_field_type_is_known type = true → field_kind type = Some k → text_kind k = Some maximum →
  holds type fs array → (if present type fs then Some (cstr array) else None) = value_of type fs.
Proof.
  intros Hfs Hw Hkn Hk Ht Hh. eapply (holds_validated FTAP_MSG_AUTH_PASSWORD_REQUEST); try done.
  intros f Hin Htype. by eapply fields_ok_value.
Qed.

Lemma login_text_stored fs :
  fields_ok FTAP_MSG_AUTH_PASSWORD_REQUEST auth_password_request_rules fs →
  forallb password_field_ok fs = true →
  login_text (required_value FTAP_FIELD_LOGIN_NAME fs) = true.
Proof.
  intros Hfs Hf.
  assert (present FTAP_FIELD_LOGIN_NAME fs = true) as (f & Hin & Ht)%present_in
    by (eapply fields_ok_present; [exact Hfs|by repeat constructor]).
  erewrite <- (required_same fs f) by (done || by repeat constructor).
  rewrite forallb_Forall, Forall_forall in Hf. specialize (Hf f Hin).
  unfold password_field_ok in Hf. by rewrite Ht in Hf.
Qed.

(** Validated fields are acceptable unless one is unknown or the login name has
    other characters. *)
Lemma validated_password_fields fs :
  fields_ok FTAP_MSG_AUTH_PASSWORD_REQUEST auth_password_request_rules fs → Forall wire_ok fs →
  known_fields fs = true → login_text (required_value FTAP_FIELD_LOGIN_NAME fs) = true →
  forallb password_field_ok fs = true.
Proof.
  intros Hfs Hw Hkn Hlt. apply forallb_Forall, Forall_forall. intros f Hin.
  unfold known_fields in Hkn. rewrite forallb_Forall, Forall_forall in Hkn.
  destruct (fields_known _ _ _ Hfs f Hin (Hkn f Hin)) as [Hv (rule & Hrule & Hty)].
  rewrite (validated_password_field f rule) by (done || by eapply Forall_forall).
  destruct (Z.eqb_spec (f_type f) FTAP_FIELD_LOGIN_NAME) as [Ht|]; [|done]. cbn.
  by erewrite (required_same fs f) by (done || by repeat constructor).
Qed.

Lemma validated_protocol fs :
  fields_ok FTAP_MSG_AUTH_PASSWORD_REQUEST auth_password_request_rules fs → Forall wire_ok fs →
  cstr (required_value FTAP_FIELD_PROTOCOL fs) ≠ [].
Proof.
  intros Hfs Hw.
  assert (present FTAP_FIELD_PROTOCOL fs = true) as (f & Hin & Ht)%present_in
    by (eapply fields_ok_present; [exact Hfs|by repeat constructor]).
  erewrite <- (required_same fs f) by (done || by repeat constructor).
  destruct (validated_text FTAP_MSG_AUTH_PASSWORD_REQUEST f
    (KEnum FTAP_PROTOCOL_NAME_MAX [FTAP_PROTOCOL_TELNET; FTAP_PROTOCOL_SSH; FTAP_PROTOCOL_LOCAL])
    FTAP_PROTOCOL_NAME_MAX) as (Hne & _ & ->);
    [by eapply Forall_forall|by apply (fields_ok_value _ auth_password_request_rules fs FTAP_FIELD_PROTOCOL f)|by rewrite Ht|done|done].
Qed.

(** What [parse_password_request] makes of a validated request. *)
Lemma parse_validated_password_request h fs tail :
  message_ok FTAP_STATE_HELLO_COMPLETE h (payload_of fs) →
  hdr_message_type h = FTAP_MSG_AUTH_PASSWORD_REQUEST →
  Forall wire_ok fs → bytes_ok tail →
  ∃ r, parse_password_request (Some (payload_of fs ++ tail)) (zlen (payload_of fs)) = Some r ∧
    match r with
    | Some (a, password, length) =>
        cstr (la_login_name a) = map to_lower (required_value FTAP_FIELD_LOGIN_NAME fs) ∧
        canonical_name (cstr (la_login_name a)) ∧
        cstr (la_protocol a) = required_value FTAP_FIELD_PROTOCOL fs ∧
        (if la_source_ip_set a then Some (cstr (la_source_ip a)) else None)
          = value_of FTAP_FIELD_SOURCE_IP fs ∧
        (if la_tty_device_set a then Some (cstr (la_tty_device a)) else None)
          = value_of FTAP_FIELD_TTY_DEVICE fs ∧
        (if la_node_id_set a then Some (cstr (la_node_id a)) else None)
          = value_of FTAP_FIELD_NODE_ID fs ∧
        buf_read password 0 length = Some (required_value FTAP_FIELD_PASSWORD fs)
    | None => login_text (required_value FTAP_FIELD_LOGIN_NAME fs) = false ∨ known_fields fs = false
    end.
Proof.
  intros [Hh (fs' & Hp & Hw' & Hfs)] Hmt Hw Htail.
  apply payload_of_inj in Hp as <-; [|done..]. rewrite Hmt in Hfs.
  change (message_rules _ _) with auth_password_request_rules in Hfs.
  assert (bytes_ok (payload_of fs ++ tail)) as Hok.
  { apply bytes_ok_app. split; [|done]. unfold payload_of. apply Forall_concat, Forall_fmap.
    eapply Forall_impl; [exact Hw|]. intros f [_ _ _ ?]. by apply tlv_bytes_ok. }
  destruct (parse_password_request_spec (payload_of fs) tail Hok) as (r & Hr & Hres); [by apply Hh|].
  exists r. split; [done|].
  assert (∀ type, RULE_REQUIRED type ∈ auth_password_request_rules → present type fs = true) as Hpresent
    by (intros; by eapply fields_ok_present).
  destruct r as [[[a pw] n]|].
  - destruct Hres as (fs' & Hp & Hw'' & Hf & _ & _ & [Ho1 Ho2 Ho3 Ho4 Ho5 Ho6 Ho7 Ho8 Ho9 _ _ _] & _ & _).
    apply payload_of_inj in Hp as <-; [|done..]. cbn [pr_attempt pr_password pr_password_length] in *.
    pose proof (login_text_stored fs Hfs Hf) as Hlt.
    unfold holds_login, holds_password in *. rewrite Ho1, Ho6, Ho7, Ho8, Ho9.
    split; [done|]. split; [by apply map_lower_canonical|].
    split; [|split_and!; [by eapply validated_optional..|done]].
    assert ((if present FTAP_FIELD_PROTOCOL fs then Some (cstr (la_protocol a)) else None)
      = value_of FTAP_FIELD_PROTOCOL fs) as Hproto by (by eapply validated_optional).
    rewrite (Hpresent FTAP_FIELD_PROTOCOL) in Hproto by by repeat constructor.
    unfold required_value. by rewrite <- Hproto.
  - destruct (known_fields fs) eqn:Hkn; [|by right]. left.
    destruct (login_text (required_value FTAP_FIELD_LOGIN_NAME fs)) eqn:Hlt; [exfalso|done].
    apply (validated_protocol fs Hfs Hw), Hres; try done; [by apply validated_password_fields|..];
      apply Hpresent; by repeat constructor.
Qed.

(** Of every validated AUTH_PASSWORD_REQUEST, [parse_password_request] reads
    exactly what the peer sent: the login name in lower case, protocol, source
    address, device and node as they are (or that they are absent), and the
    password in the buffer. It fails only on a login name with other characters
    than the account names have, or on fields that the protocol does not know. *)
Theorem parse_password_request_correct h fs tail :
  message_ok FTAP_STATE_HELLO_COMPLETE h (payload_of fs) →
  hdr_message_type h = FTAP_MSG_AUTH_PASSWORD_REQUEST →
  Forall wire_ok fs → bytes_ok tail →
  ∃ r, parse_password_request (Some (payload_of fs ++ tail)) (zlen (payload_of fs)) = Some r ∧
    match r with
    | Some (a, password, length) =>
        cstr (la_login_name a) = map to_lower (required_value FTAP_FIELD_LOGIN_NAME fs) ∧
        canonical_name (cstr (la_login_name a)) ∧
        cstr (la_protocol a) = required_value FTAP_FIELD_PROTOCOL fs ∧
        (if la_source_ip_set a then Some (cstr (la_source_ip a)) else None)
          = value_of FTAP_FIELD_SOURCE_IP fs ∧
        (if la_tty_device_set a then Some (cstr (la_tty_device a)) else None)
          = value_of FTAP_FIELD_TTY_DEVICE fs ∧
        (if la_node_id_set a then Some (cstr (la_node_id a)) else None)
          = value_of FTAP_FIELD_NODE_ID fs ∧
        buf_read password 0 length = Some (required_value FTAP_FIELD_PASSWORD fs)
    | None => login_text (required_value FTAP_FIELD_LOGIN_NAME fs) = false ∨ known_fields fs = false
    end.
Proof. apply parse_validated_password_request. Qed.
End validated.

(** A login as a terminal session sends it, with every field known. *)
Definition example_login : list field :=
  [Field FTAP_FIELD_LOGIN_NAME 0 (lit "Neo_42"); Field FTAP_FIELD_PASSWORD 0 (lit "trinity");
   Field FTAP_FIELD_PROTOCOL 0 (lit "ssh"); Field FTAP_FIELD_SOURCE_IP 0 (lit "192.0.2.10");
   Field FTAP_FIELD_AUTH_METHOD 0 (lit "password")].

Lemma example_login_ok :
  @message_ok dotted_quad FTAP_STATE_HELLO_COMPLETE (example_header (payload_of example_login))
    (payload_of example_login).
Proof.
  edestruct (@validate_correct dotted_quad FTAP_STATE_HELLO_COMPLETE
    (example_header (payload_of example_login)) (payload_of example_login) []
    (ValidationError FTAP_STATUS_OK 0 0)) as (s & e & Hrun & _ & Hok).
  - apply (bool_decide_unpack _). vm_compute. exact I.
  - apply Hok. vm_compute in Hrun. congruence.
Qed.

Lemma parse_password_request_correct_witness :
  Forall wire_ok example_login ∧
  ∃ a password length,
    parse_password_request (Some (payload_of example_login ++ [7])) (zlen (payload_of example_login))
      = Some (Some (a, password, length)) ∧
    cstr (la_login_name a) = lit "neo_42" ∧ canonical_name (cstr (la_login_name a)) ∧
    (if la_source_ip_set a then Some (cstr (la_source_ip a)) else None) = Some (lit "192.0.2.10") ∧
    la_node_id_set a = false ∧ buf_read password 0 length = Some (lit "trinity").
Proof.
  assert (Forall wire_ok example_login) as Hw.
  { repeat constructor; try done; apply (bool_decide_unpack _); vm_compute; exact I. }
  split; [done|].
  destruct (@parse_password_request_correct dotted_quad (example_header (payload_of example_login))
    example_login [7]) as (r & Hr & Hres).
  - apply example_login_ok.
  - reflexivity.
  - done.
  - apply (bool_decide_unpack _). vm_compute. exact I.
  - destruct r as [[[a password] length]|].
    + destruct Hres as (Hl & Hc & _ & Hs & _ & Hn & Hp). exists a, password, length.
      split; [done|]. split; [exact Hl|]. split; [done|]. split; [exact Hs|]. split; [|exact Hp].
      destruct (la_node_id_set a); [|done]. vm_compute in Hn. discriminate.
    + exfalso. destruct Hres as [Hres|Hres]; vm_compute in Hres; discriminate.
Defined.
