(* ===== verification/Connection.v ===== *)
(** * Connections: teardown and accounting

    [fortytwo-auth/src/authd_server.c]: the end of a connection
    ([client_reset], [close_bound_session]), and the invariant that every
    function of the daemon keeps: what a connection contains, what it holds in
    the database, and why each call of the history was made. *)

From S2P Require Import Prelude Protocol Words Utf8 Codec Inet Schema Identity Throttle Limiter Program Services Client Requests.
From stdpp Require Export gmap.

#[global] Open Scope Z_scope.

(** ** Programs on a connection

    The state of a handler is its client and the context of the daemon. *)

Abbreviation conn := (authd_client * authd_server_context)%type (only parsing).
Abbreviation handler := (prog event conn) (only parsing).

Definition client : handler authd_client := gets fst.
Definition context : handler authd_server_context := gets snd.
Definition assign (f : authd_client → authd_client) : handler unit :=
  modify (λ s, (f (fst s), snd s)).
Definition assign_context (f : authd_server_context → authd_server_context) : handler unit :=
  modify (λ s, (fst s, f (snd s))).

(** Queue a frame; the result is the one of the queue function. *)
Definition respond (queue : authd_client → run (Z * authd_client)) : handler Z :=
  λ s h, let! (result, c) := queue (fst s) in Some (Done result (c, snd s) h).

(** Output is waiting, or the connection is at its end. *)
Definition busy (c : authd_client) : bool :=
  (output_offset c <? output_length c) || close_after_write c.

Definition enter (s : ftap_connection_state) : handler unit := assign (set_state s).

(** [client->state = FTAP_STATE_CLOSING; return queue_error(...)] *)
Definition reject (request_id error_code : Z) : handler Z :=
  do* enter FTAP_STATE_CLOSING in
  respond (λ c, queue_error c request_id error_code).

(** [authd_password_wipe(buffer + offset, size)] *)
Definition wipe (buffer : list Z) (offset size : Z) : run (list Z) :=
  buf_write buffer offset (zeros size).

Section connection.
Context `{Environment}.

(** ** The end of a connection *)

Definition registration_disconnect_reason (ended_reason : ptr) : list Z :=
  match ended_reason with
  | None => FTAP_REGISTRATION_REASON_INTERNAL_ERROR
  | Some reason =>
      if streq reason (lit "authd_shutdown") then FTAP_REGISTRATION_REASON_DAEMON_SHUTDOWN
      else if streq reason (lit "database_failure")
      then FTAP_REGISTRATION_REASON_DATABASE_FAILURE
      else if streq reason (lit "authd_failure") then FTAP_REGISTRATION_REASON_INTERNAL_ERROR
      else if streq reason (lit "peer_disconnected")
      then FTAP_REGISTRATION_REASON_CLIENT_DISCONNECTED
      else if streq reason (lit "registration_timeout") then FTAP_REGISTRATION_REASON_TIMEOUT
      else FTAP_REGISTRATION_REASON_INTERNAL_ERROR
  end.

Definition abort_registration_on_reset (ended_reason : ptr) : handler unit :=
  let* c := client in
  if negb (ra_active (registration c)) || negb (ra_database_pending (registration c))
  then ret tt
  else
    let* _ := authd_database_abort_registration
      (rb_registration_id (ra_record (registration c))) (rb_user_id (ra_record (registration c)))
      (registration_disconnect_reason ended_reason) in
    ret tt.

Definition close_session_on_reset (ended_reason : ptr) : handler unit :=
  let* c := client in
  match session_open c, ended_reason with
  | true, Some reason =>
      let* _ := authd_database_close_terminal_session (ts_session_id (session c)) reason in
      ret tt
  | _, _ => ret tt
  end.

Definition release_input : handler unit :=
  let* c := client in
  match input c with
  | None => ret tt
  | Some buffer =>
      let* buffer := lift (wipe buffer 0 FTAP_MAX_FRAME_SIZE) in
      free buffer
  end.

(** The last lines of [client_reset]: everything but the slot's number and
    generation is cleared. *)
Definition cleared (c : authd_client) : authd_client :=
  let connection_id := connection_id c in
  let connection_generation := connection_generation c in
  set_fd (-1)
    (Client 0 connection_id connection_generation (state zero_client) (peer zero_client)
       (input zero_client) 0 0 (output zero_client) 0 0 false 0 (login zero_client)
       (registration zero_client) false (session zero_client) (session_context zero_client)
       (pending_end_reason zero_client)).

Definition client_reset (ended_reason : ptr) : handler unit :=
  do* abort_registration_on_reset ended_reason in
  do* close_session_on_reset ended_reason in
  let* c := client in
  do* (if 0 <=? fd c then close (fd c) else ret tt) in
  do* release_input in
  assign cleared.

(** [client->session_open = false] with the session wiped. *)
Definition release_session (c : authd_client) : authd_client :=
  set_session_context zero_bound_session (set_session zero_terminal_session
    (set_session_open false c)).

Definition close_bound_session (payload : ptr) (payload_length : Z) : handler Z :=
  let* c := client in
  let* reason :=
    if negb (session_open c) then ret None
    else lift (parse_session_close_reason payload payload_length
                 (zeros (FTAP_ENDED_REASON_MAX + 1))) in
  match reason with
  | None => do* enter FTAP_STATE_CLOSING in ret (-1)
  | Some reason =>
      let* result := authd_database_close_terminal_session (ts_session_id (session c)) reason in
      do* (match result with
           | AUTHD_DATABASE_WRITE_OK | AUTHD_DATABASE_WRITE_NOT_FOUND => assign release_session
           | _ => assign (λ c, set_pending_end_reason (snprintf_s (pending_end_reason c) reason) c)
           end) in
      do* enter FTAP_STATE_CLOSING in
      ret (-1)
  end.
End connection.

(** ** What the environment promises

    Answers have the C types of the results and the sizes that the calls
    document. *)

Record record_typed (r : authd_login_record) : Prop := {
  lt_user : uuid_ok (lr_user_id r);
  lt_names : names_typed (lr_login_name r) (lr_display_name r) (lr_legacy_name r);
  lt_hash : array_ok (AUTHD_DATABASE_PASSWORD_HASH_MAX + 1) (lr_password_hash r);
}.

Class EnvironmentLaws `{Environment} : Prop := {
  law_lookup h name : record_typed (snd (env_lookup_login h name));
  law_session h record ip protocol tty node :
    session_ok (snd (env_create_session h record ip protocol tty node));
  law_begin h login display hash legacy ip tty node timeout pending :
    registration_typed (snd (env_begin h login display hash legacy ip tty node timeout pending));
  law_commit h registration ip tty node :
    commit_typed (snd (env_commit h registration ip tty node));
  law_completion h completion :
    env_take_completion h = Some completion →
    array_ok (AUTHD_WORKER_HASH_MAX_BYTES + 1) (wc_encoded_hash completion) ∧
    fits 64 (tk_connection_id (wc_token completion));
  law_random h size bytes :
    env_random h size = inl bytes → bytes_ok bytes ∧ zlen bytes <= size;
  law_recv h fd capacity bytes :
    0 <= capacity → env_recv h fd capacity = inl bytes → bytes_ok bytes ∧ zlen bytes <= capacity;
  law_send h fd data count : env_send h fd data = inl count → 0 <= count <= zlen data;
  law_accept h fd : env_accept h = inl fd → 0 <= fd;
  law_malloc h buffer : env_malloc h = Some buffer → array_ok FTAP_MAX_FRAME_SIZE buffer;
  law_poll h fds timeout revents :
    env_poll h fds timeout = inl revents → length revents = length fds;
}.

(** ** What the daemon holds in the database *)

(** The reasons that the daemon itself gives when a connection ends; another reason
    of a session is one that the peer has ordered. *)
Definition daemon_reasons : list (list Z) :=
  [lit "auth_response_failed"; lit "registration_commit_response_failed"; lit "hello_timeout";
   lit "registration_timeout"; lit "protocol_error"; lit "peer_disconnected";
   lit "authd_shutdown"; lit "database_failure"; lit "authd_failure"].
Definition daemon_reason (reason : list Z) : bool := bool_decide (reason ∈ daemon_reasons).

Definition daemon_abort_reasons : list (list Z) :=
  [FTAP_REGISTRATION_REASON_CLIENT_DISCONNECTED; FTAP_REGISTRATION_REASON_TIMEOUT;
   FTAP_REGISTRATION_REASON_DAEMON_SHUTDOWN; FTAP_REGISTRATION_REASON_DATABASE_FAILURE;
   FTAP_REGISTRATION_REASON_INTERNAL_ERROR].
Definition daemon_abort_reason (reason : list Z) : bool := bool_decide (reason ∈ daemon_abort_reasons).

(** The database says that the session is closed, or that the registration is no
    longer pending. *)
Definition close_confirmed (answer : authd_database_write_result) : bool :=
  match answer with AUTHD_DATABASE_WRITE_OK | AUTHD_DATABASE_WRITE_NOT_FOUND => true | _ => false end.
Definition abort_confirmed (answer : authd_database_registration_result) : bool :=
  match answer with
  | AUTHD_DATABASE_REGISTRATION_OK | AUTHD_DATABASE_REGISTRATION_NOT_FOUND
  | AUTHD_DATABASE_REGISTRATION_STALE_STATE => true
  | _ => false
  end.

(** The database was asked to close this session before. *)
Definition asked_to_close (session_id : list Z) (h : list event) : bool :=
  existsb (λ e, match e with
                | CloseTerminalSession id _ _ => bool_decide (id = session_id)
                | _ => false
                end) h.

(** The sessions that the daemon has opened and is still responsible for: the
    database has not confirmed that they are closed, and there was no last request
    to close them. The last request is the one with which the daemon ends a
    connection, for a reason of its own, or the repetition of a request; a request
    that the peer has ordered and that fails is not the last one. *)
Fixpoint open_sessions (h : list event) : gset (list Z) :=
  match h with
  | [] => ∅
  | CreatePasswordSession _ _ _ _ _ (AUTHD_DATABASE_WRITE_OK, s) :: h =>
      {[ts_session_id s]} ∪ open_sessions h
  | CommitRegistration _ _ _ _ (AUTHD_DATABASE_REGISTRATION_OK, commit) :: h =>
      {[ts_session_id (rc_session commit)]} ∪ open_sessions h
  | CloseTerminalSession session_id reason answer :: h =>
      if close_confirmed answer || daemon_reason reason || asked_to_close session_id h
      then open_sessions h ∖ {[session_id]} else open_sessions h
  | _ :: h => open_sessions h
  end.

(** The registrations that are reserved and not committed since, and neither was
    their abort confirmed nor did the daemon ask for it for a reason of its own; an
    abort that the peer has ordered and that fails leaves them pending. *)
Fixpoint pending_registrations (h : list event) : gset (list Z) :=
  match h with
  | [] => ∅
  | BeginRegistration _ _ _ _ _ _ _ _ _ (AUTHD_DATABASE_REGISTRATION_OK, r) :: h =>
      {[rb_registration_id r]} ∪ pending_registrations h
  | CommitRegistration r _ _ _ (AUTHD_DATABASE_REGISTRATION_OK, _) :: h =>
      pending_registrations h ∖ {[rb_registration_id r]}
  | AbortRegistration registration_id _ reason answer :: h =>
      if abort_confirmed answer || daemon_abort_reason reason
      then pending_registrations h ∖ {[registration_id]} else pending_registrations h
  | _ :: h => pending_registrations h
  end.

(** A reason for the end of a session that is not one of the peer. *)
Definition reason_settled (buffer : list Z) : Prop :=
  cstr buffer = [] ∨ daemon_reason (cstr buffer) = true.

Definition held_session (c : authd_client) : gset (list Z) :=
  if session_open c then {[ts_session_id (session c)]} else ∅.

Definition held_registration (c : authd_client) : gset (list Z) :=
  if ra_active (registration c) && ra_database_pending (registration c)
  then {[rb_registration_id (ra_record (registration c))]} else ∅.

(** The place of a connection in the daemon: its number, and what all the other
    connections hold. *)
Record frame := Frame {
  fr_slot : Z;
  fr_sessions : gset (list Z);
  fr_registrations : gset (list Z);
}.

(** Whatever is open is held by this connection or by another one. *)
Definition accounted (F : frame) (c : authd_client) (h : list event) : Prop :=
  open_sessions h ⊆ fr_sessions F ∪ held_session c ∧
  pending_registrations h ⊆ fr_registrations F ∪ held_registration c.

Lemma acquire_subset (x : list Z) (X Y : gset (list Z)) : X ⊆ Y ∪ ∅ → {[x]} ∪ X ⊆ Y ∪ {[x]}.
Proof. set_solver. Qed.

Lemma release_subset (x : list Z) (X Y : gset (list Z)) : X ⊆ Y ∪ {[x]} → X ∖ {[x]} ⊆ Y.
Proof. set_solver. Qed.

(** ** Why the daemon made its calls *)

(** The daemon looked up the record of a name, found that it may log in, and
    gave the hash of that record to the workers next. *)
Definition verification (token : authd_worker_token) (job : Z) (name : list Z)
    (record : authd_login_record) (h : list event) : Prop :=
  authd_login_record_availability (Some record) = Some AUTHD_LOGIN_AVAILABLE ∧
  ∃ newer password older,
    h = newer
        ++ SubmitVerify token (cstr (lr_password_hash record)) password
             (AUTHD_WORKER_SUBMIT_OK, job)
        :: LookupLogin name (AUTHD_DATABASE_LOOKUP_OK, record) :: older.

(** The newest event is the completion of such a verification. *)
Definition verified (result : authd_password_result) (record : authd_login_record)
    (h : list event) : Prop :=
  ∃ completion older name,
    h = TakeCompletion (Some completion) :: older ∧
    wc_job_type completion = AUTHD_WORKER_JOB_VERIFY_PASSWORD ∧
    wc_password_result completion = result ∧
    verification (wc_token completion) (wc_job_id completion) name record older.

(** The audit of a name concerns the account that was found under that name. *)
Definition looked_up (name : list Z) (user_id : ptr) (h : list event) : Prop :=
  ∃ answer, LookupLogin name answer ∈ h ∧
    ∀ id, user_id = Some id →
      fst answer = AUTHD_DATABASE_LOOKUP_OK ∧ id = lr_user_id (snd answer).

Definition hashing (min_length : Z) (token : authd_worker_token) (job : Z) (h : list event) : Prop :=
  ∃ password, min_length <= zlen password ∧
    SubmitGenerate token password (AUTHD_WORKER_SUBMIT_OK, job) ∈ h.

Definition hashed (min_length : Z) (hash : list Z) (h : list event) : Prop :=
  hash ≠ [] ∧ ∃ completion,
    TakeCompletion (Some completion) ∈ h ∧
    wc_job_type completion = AUTHD_WORKER_JOB_GENERATE_PASSWORD_HASH ∧
    wc_password_result completion = AUTHD_PASSWORD_OK ∧
    cstr (wc_encoded_hash completion) = hash ∧
    hashing min_length (wc_token completion) (wc_job_id completion) h.

Definition begun (r : authd_registration_begin_result) (h : list event) : Prop :=
  ∃ login display hash legacy ip tty node timeout pending,
    BeginRegistration login display hash legacy ip tty node timeout pending
      (AUTHD_DATABASE_REGISTRATION_OK, r) ∈ h.

Definition opened (session_id : list Z) (h : list event) : Prop :=
  (∃ record ip protocol tty node s,
     CreatePasswordSession record ip protocol tty node (AUTHD_DATABASE_WRITE_OK, s) ∈ h ∧
     ts_session_id s = session_id) ∨
  (∃ r ip tty node commit,
     CommitRegistration r ip tty node (AUTHD_DATABASE_REGISTRATION_OK, commit) ∈ h ∧
     ts_session_id (rc_session commit) = session_id).

Section invariant.
Context (config : authd_config).

(** The reason for a call, from what happened before it. *)
Definition justified (e : event) (h : list event) : Prop :=
  match e with
  | CreatePasswordSession record _ _ _ _ _ => verified AUTHD_PASSWORD_OK record h
  | RecordPasswordFailure user_id _ _ _ _ =>
      ∃ record, user_id = lr_user_id record ∧ verified AUTHD_PASSWORD_MISMATCH record h
  | AuditLoginRejection user_id login_name _ _ _ _ => looked_up login_name user_id h
  | BeginRegistration _ _ hash _ _ _ _ timeout pending _ =>
      timeout = cfg_registration_timeout_seconds config ∧
      pending = cfg_registration_max_pending config ∧
      hashed (cfg_registration_min_password_bytes config) hash h
  | CommitRegistration r _ _ _ _ => begun r h
  | AbortRegistration registration_id user_id _ _ =>
      ∃ r, registration_id = rb_registration_id r ∧ user_id = rb_user_id r ∧ begun r h
  | CloseTerminalSession session_id _ _ => opened session_id h
  | Free contents => contents = zeros FTAP_MAX_FRAME_SIZE
  | _ => True
  end.

Fixpoint authorised (h : list event) : Prop :=
  match h with
  | [] => True
  | e :: h => justified e h ∧ authorised h
  end.

(** What the history has about the requests and the session of a connection. *)
Definition token_of (c : authd_client) (request_id : Z) : authd_worker_token :=
  WorkerToken (connection_id c) (connection_generation c) request_id.

Definition attempt_user (a : authd_login_attempt) : ptr :=
  if la_record_loaded a then Some (lr_user_id (la_record a)) else None.

Record tracked (c : authd_client) (h : list event) : Prop := {
  tr_login : la_active (login c) = true →
    looked_up (cstr (la_login_name (login c))) (attempt_user (login c)) h ∧
    (la_deferred_rejection (login c) = false →
     verification (token_of c (la_request_id (login c))) (la_worker_job_id (login c))
       (cstr (la_login_name (login c))) (la_record (login c)) h);
  tr_hashing : ra_active (registration c) = true →
    ra_database_pending (registration c) = false →
    hashing (cfg_registration_min_password_bytes config)
      (token_of c (ra_request_id (registration c))) (ra_worker_job_id (registration c)) h;
  tr_begun : ra_active (registration c) = true →
    ra_database_pending (registration c) = true → begun (ra_record (registration c)) h;
  tr_session : session_open c = true → opened (ts_session_id (session c)) h;
  tr_reason : session_open c = true →
    reason_settled (pending_end_reason c) ∨ asked_to_close (ts_session_id (session c)) h = true;
}.

(** ** The contents of a connection *)

(** The input buffer exists as long as the socket. *)
Definition input_ok (c : authd_client) : Prop :=
  match input c with
  | Some buffer => array_ok FTAP_MAX_FRAME_SIZE buffer ∧ 0 <= fd c ∧
      0 <= input_used c <= FTAP_MAX_FRAME_SIZE
  | None => fd c < 0
  end.

(** Which activities are possible in which state. *)
Record phases_ok (c : authd_client) : Prop := {
  ph_login : la_active (login c) = true →
    session_open c = false ∧ ra_active (registration c) = false ∧
    (state c = FTAP_STATE_AUTHENTICATING ∨ state c = FTAP_STATE_CLOSING);
  ph_registration : ra_active (registration c) = true →
    session_open c = false ∧
    (state c = FTAP_STATE_REGISTERING ∨ state c = FTAP_STATE_CLOSING);
  ph_session : session_open c = true →
    state c = FTAP_STATE_SESSION_BOUND ∨ state c = FTAP_STATE_CLOSING;
  ph_free : fd c < 0 → cleared c = c;
  ph_reason : session_open c = false ∨ state c = FTAP_STATE_SESSION_BOUND →
    reason_settled (pending_end_reason c);
}.

Record attempt_typed (a : authd_login_attempt) : Prop := {
  at_record : record_typed (la_record a);
  at_protocol : bytes_ok (la_protocol a);
}.

Record client_ok (c : authd_client) : Prop := {
  ok_output : output_ok c;
  ok_offsets : 0 <= output_offset c <= output_length c ∧
    output_length c <= AUTHD_RESPONSE_BUFFER_SIZE;
  ok_input : input_ok c;
  ok_login : attempt_typed (login c);
  ok_registration_name : array_ok (FTAP_LOGIN_NAME_MAX + 1) (ra_login_name (registration c));
  ok_registration : registration_typed (ra_record (registration c));
  ok_session : session_ok (session c);
  ok_context : bound_names_typed (session_context c);
  ok_end_reason : array_ok (FTAP_ENDED_REASON_MAX + 1) (pending_end_reason c);
  ok_phases : phases_ok c;
}.

Definition context_ok (x : authd_server_context) : Prop :=
  ctx_config x = config ∧
  length (entries (ctx_registration_limiter x)) = Z.to_nat AUTHD_REGISTRATION_IP_LIMIT_CAPACITY.

Record inv (F : frame) (s : conn) (h : list event) : Prop := {
  inv_client : client_ok (fst s);
  inv_context : context_ok (snd s);
  inv_slot : connection_id (fst s) = fr_slot F;
  inv_accounted : accounted F (fst s) h;
  inv_tracked : tracked (fst s) h;
  inv_authorised : authorised h;
}.

(** ** The history grows *)

Lemma verification_cons e token job name record h :
  verification token job name record h → verification token job name record (e :: h).
Proof.
  intros [Ha (newer & password & older & ->)]. split; [done|]. by exists (e :: newer), password, older.
Qed.

Lemma looked_up_cons e name user_id h : looked_up name user_id h → looked_up name user_id (e :: h).
Proof. intros (answer & ? & ?). exists answer. split; [by right|done]. Qed.

Lemma hashing_cons e min_length token job h :
  hashing min_length token job h → hashing min_length token job (e :: h).
Proof. intros (password & ? & ?). exists password. split; [done|by right]. Qed.

Lemma hashed_cons e min_length hash h : hashed min_length hash h → hashed min_length hash (e :: h).
Proof.
  intros [? (completion & ? & ? & ? & ? & ?)]. split; [done|]. exists completion.
  split; [by right|]. split; [done|]. split; [done|]. split; [done|]. by apply hashing_cons.
Qed.

Lemma begun_cons e r h : begun r h → begun r (e :: h).
Proof. intros (l & d & ha & le & ip & tty & n & t & p & ?). exists l, d, ha, le, ip, tty, n, t, p. by right. Qed.

Lemma opened_cons e session_id h : opened session_id h → opened session_id (e :: h).
Proof.
  intros [(r & ip & p & t & n & s & ? & ?)|(r & ip & t & n & c & ? & ?)]; [left|right].
  - exists r, ip, p, t, n, s. split; [by right|done].
  - exists r, ip, t, n, c. split; [by right|done].
Qed.

Lemma tracked_cons e c h : tracked c h → tracked c (e :: h).
Proof.
  intros [Hl Hh Hb Hs Hr]. split.
  - intros Ha. destruct (Hl Ha) as [? Hv]. split; [by apply looked_up_cons|].
    intros Hd. by apply verification_cons, Hv.
  - intros Ha Hp. by apply hashing_cons, Hh.
  - intros Ha Hp. by apply begun_cons, Hb.
  - intros Ho. by apply opened_cons, Hs.
  - intros Ho. destruct (Hr Ho) as [|Hask]; [by left|right]. unfold asked_to_close in *. cbn [existsb].
    by rewrite Hask, orb_true_r.
Qed.

(** The calls that open a session or reserve a registration. *)
Definition acquires (e : event) : bool :=
  match e with
  | CreatePasswordSession _ _ _ _ _ (AUTHD_DATABASE_WRITE_OK, _)
  | CommitRegistration _ _ _ _ (AUTHD_DATABASE_REGISTRATION_OK, _)
  | BeginRegistration _ _ _ _ _ _ _ _ _ (AUTHD_DATABASE_REGISTRATION_OK, _) => true
  | _ => false
  end.

Lemma quiet_subset e h :
  acquires e = false →
  open_sessions (e :: h) ⊆ open_sessions h ∧
  pending_registrations (e :: h) ⊆ pending_registrations h.
Proof.
  intros Hq. destruct e; try (split; cbn; set_solver); try (split; cbn; try case_match; set_solver);
    destruct answer as [[] ?]; try done; split; cbn; set_solver.
Qed.

(** A call that acquires nothing. *)
Lemma inv_event F s h e : inv F s h → acquires e = false → justified e h → inv F s (e :: h).
Proof.
  intros [Hc Hx Hi [Ho Hp] Ht Ha] Hq Hj. destruct (quiet_subset e h Hq) as [Ho' Hp'].
  split; [done|done|done| |by apply tracked_cons|by split]. split; etrans; eassumption.
Qed.

(** A change of the client that keeps what it holds. *)
Lemma inv_update F s h c :
  inv F s h → client_ok c → connection_id c = connection_id (fst s) → tracked c h →
  held_session (fst s) ⊆ held_session c → held_registration (fst s) ⊆ held_registration c →
  inv F (c, snd s) h.
Proof.
  intros [Hc Hx Hi [Ho Hp] Ht Ha] Hc' Hid Ht' Hs Hr. split; [done|done| | |done|done].
  - cbn. congruence.
  - cbn. split; (etrans; [eassumption|]); set_solver.
Qed.
End invariant.

(** ** Steps that change nothing that is held *)

(** What [tracked] and [accounted] look at. *)
Definition grip (c : authd_client) :=
  (login c, registration c, session_open c, session c, connection_id c, connection_generation c,
   pending_end_reason c).

Lemma held_grip c c' :
  grip c = grip c' → held_session c = held_session c' ∧ held_registration c = held_registration c'.
Proof.
  unfold grip, held_session, held_registration. intros [= _ Er Eo Es _ _ _].
  by rewrite Er, Eo, Es.
Qed.

Lemma tracked_grip config c c' h : grip c = grip c' → tracked config c h → tracked config c' h.
Proof.
  unfold grip. intros [= El Er Eo Es Ei Eg Ee] [Hl Hh Hb Hs Hr].
  split; unfold token_of in *; rewrite <- ?El, <- ?Er, <- ?Eo, <- ?Es, <- ?Ei, <- ?Eg, <- ?Ee; done.
Qed.

Section steps.
Context (config : authd_config).

Lemma inv_same_grip F s h c :
  inv config F s h → client_ok c → grip (fst s) = grip c → inv config F (c, snd s) h.
Proof.
  intros Hi Hc Hg. destruct (held_grip _ _ Hg) as [Hs Hr].
  apply inv_update; [done|done| | |by rewrite Hs|by rewrite Hr].
  - by injection Hg.
  - eapply tracked_grip; [exact Hg|]. apply Hi.
Qed.

(** The invariant of a connection whose socket is open. *)
Definition working (F : frame) (s : conn) (h : list event) : Prop :=
  inv config F s h ∧ 0 <= fd (fst s).

Lemma working_event F s h e :
  working F s h → acquires e = false → justified config e h → working F s (e :: h).
Proof. intros [Hi Hf] Hq Hj. split; [by apply inv_event|done]. Qed.

Lemma working_authorised F s h : working F s h → authorised config h.
Proof. intros [Hi _]. apply Hi. Qed.

Lemma queued_ok out length close_after c :
  client_ok c → 0 <= fd c → zlen out = AUTHD_RESPONSE_BUFFER_SIZE →
  0 < length <= AUTHD_RESPONSE_BUFFER_SIZE → client_ok (queued out length close_after c).
Proof.
  intros [Ho Hl Hi Hr Hn Hg Hs Hc He Hp] Hfd Hout Hlen. split; try done; cbn; [lia|].
  destruct Hp. split; try done. cbn. lia.
Qed.

Lemma closing_ok c :
  client_ok c → 0 <= fd c → client_ok (set_state FTAP_STATE_CLOSING c).
Proof.
  intros [Ho Hl Hi Hr Hn Hg Hs Hc He Hp] Hfd. split; try done. destruct Hp as [Hl' Hg' Hs' _ Hr'].
  split; cbn; [| |by right|lia|intros [Ha|Ha]; [auto|done]]; intros Ha.
  - destruct (Hl' Ha) as (? & ? & _). split_and!; [done|done|by right].
  - destruct (Hg' Ha). split; [done|by right].
Qed.

Lemma zero_record_typed : record_typed zero_login_record.
Proof. split; [| |by apply zeros_ok]; split; by apply zeros_ok. Qed.

Lemma zero_attempt_typed : attempt_typed zero_login_attempt.
Proof. split; [apply zero_record_typed|by apply zeros_ok]. Qed.

Lemma login_clear_ok c : client_ok c → 0 <= fd c → client_ok (login_attempt_clear c).
Proof.
  intros [Ho Hl Hi Hr Hn Hg Hs Hc He Hp] Hfd. split; try done; [apply zero_attempt_typed|].
  destruct Hp as [Hl' Hg' Hs' _ Hr']. split; cbn; done || lia.
Qed.

Lemma zero_registration_typed : registration_typed zero_registration_begin.
Proof. split; [| |]; split; by apply zeros_ok. Qed.

Lemma registration_clear_ok c : client_ok c → 0 <= fd c → client_ok (registration_attempt_clear c).
Proof.
  intros [Ho Hl Hi Hr Hn Hg Hs Hc He Hp] Hfd.
  split; try done; [by apply zeros_ok|apply zero_registration_typed|].
  destruct Hp as [Hl' Hg' Hs' _ Hr']. split; cbn; [|done|done|lia|done]. intros Ha.
  by destruct (Hl' Ha) as (? & _ & ?).
Qed.

Lemma wp_respond E (queue : authd_client → run (Z * authd_client)) Q s h :
  responds (fst s) (queue (fst s)) →
  Q (-1) s h →
  (∀ out length close_after, zlen out = AUTHD_RESPONSE_BUFFER_SIZE → drained (fst s) →
     0 < length <= AUTHD_RESPONSE_BUFFER_SIZE →
     Q 0 (queued out length close_after (fst s), snd s) h) →
  wp E (respond queue) Q s h.
Proof.
  intros Hr Hfail Hok. unfold wp, respond. destruct s as [c x]. cbn [fst snd] in *.
  destruct Hr as [->|(out & length & close_after & ? & ? & ? & ->)]; [done|]. by apply Hok.
Qed.

(** Queueing a frame keeps the invariant. *)
Lemma working_respond_spec E F (queue : authd_client → run (Z * authd_client)) s h :
  working F s h → responds (fst s) (queue (fst s)) →
  wp E (respond queue)
    (λ r s' h', working F s' h' ∧ h' = h ∧ queue (fst s) = Some (r, fst s')) s h.
Proof.
  intros [Hi Hfd] Hr. unfold wp, respond. destruct s as [c x]. cbn [fst snd] in *.
  destruct Hr as [->|(out & length & close_after & Hout & _ & Hlen & ->)]; [done|].
  split; [|done]. split; [|done].
  apply (inv_same_grip F (c, x)); [done|by apply queued_ok; [apply Hi|..]|done].
Qed.

Lemma working_respond E F (queue : authd_client → run (Z * authd_client)) s h :
  working F s h → responds (fst s) (queue (fst s)) →
  wp E (respond queue) (λ _, working F) s h.
Proof.
  intros Hw Hr. eapply wp_mono; [by apply working_respond_spec|]. by intros r s' h' [? _].
Qed.

Lemma working_client F s h : working F s h → client_ok (fst s).
Proof. intros [[] _]. done. Qed.

Lemma working_same_grip F s h c :
  working F s h → client_ok c → grip (fst s) = grip c → fd c = fd (fst s) →
  working F (c, snd s) h.
Proof. intros [Hi Hf] Hc Hg Hfd. split; [by apply inv_same_grip|cbn; congruence]. Qed.

(** Queueing a frame leaves alone what the connection holds. *)
Lemma respond_grip E (queue : authd_client → run (Z * authd_client)) s h :
  responds (fst s) (queue (fst s)) →
  wp E (respond queue) (λ _ s' _, grip (fst s') = grip (fst s)) s h.
Proof. intros Hr. by apply wp_respond. Qed.

Lemma reject_grip E request_id code s h :
  client_ok (fst s) → wp E (reject request_id code) (λ _ s' _, grip (fst s') = grip (fst s)) s h.
Proof.
  intros Hc. apply wp_bind, wp_modify.
  apply (respond_grip E _ (set_state FTAP_STATE_CLOSING (fst s), snd s)).
  apply queue_error_responds, (ok_output _ Hc).
Qed.

(** Nor does an error change the context of the daemon. *)
Lemma respond_context E (queue : authd_client → run (Z * authd_client)) s h :
  responds (fst s) (queue (fst s)) → wp E (respond queue) (λ _ s' _, snd s' = snd s) s h.
Proof. intros Hr. by apply wp_respond. Qed.

Lemma reject_context E request_id code s h :
  client_ok (fst s) → wp E (reject request_id code) (λ _ s' _, snd s' = snd s) s h.
Proof.
  intros Hc. apply wp_bind, wp_modify. apply (respond_context _ _ (_, _)), queue_error_responds, (ok_output _ Hc).
Qed.

Lemma queued_busy out length close_after c : 0 < length → busy (queued out length close_after c) = true.
Proof. intros Hl. unfold busy. cbn. by rewrite (proj2 (Z.ltb_lt 0 length)). Qed.

(** The connection ends with this error. *)
Definition refuses (request_id code retry r : Z) (c : authd_client) : Prop :=
  ∃ c0, output_ok c0 ∧ la_active (login c0) = false ∧ state c0 = FTAP_STATE_CLOSING ∧
    queue_error_with_retry c0 request_id code retry = Some (r, c).

Lemma refuses_busy request_id code retry c : refuses request_id code retry 0 c → busy c = true.
Proof.
  intros (c0 & Ho & _ & _ & Hq). destruct (queue_error_with_retry_responds c0 request_id code retry Ho)
    as [E|(out & length & close_after & _ & _ & Hl & E)]; rewrite E in Hq; [done|].
  injection Hq as <-. apply queued_busy. lia.
Qed.

(** [reject], which needs that no login is active. *)
Lemma working_reject_spec E F request_id code s h :
  working F s h → la_active (login (fst s)) = false →
  wp E (reject request_id code)
    (λ r s' h', working F s' h' ∧ h' = h ∧ refuses request_id code 0 r (fst s')) s h.
Proof.
  intros Hw Hl. apply wp_bind, wp_modify.
  eapply wp_mono; [apply working_respond_spec|].
  - apply (working_same_grip F s); [done| |done|done].
    apply closing_ok; [by eapply working_client|apply Hw].
  - apply queue_error_responds. apply (ok_output _ (working_client _ _ _ Hw)).
  - intros r s' h' (Hw' & -> & Hq). split; [done|]. split; [done|].
    eexists. split; [|split; [|split; [|exact Hq]]]; [|done..].
    apply (ok_output _ (working_client _ _ _ Hw)).
Qed.

Lemma working_reject E F request_id code s h :
  working F s h → wp E (reject request_id code) (λ _, working F) s h.
Proof.
  intros Hw. apply wp_bind, wp_modify. apply working_respond.
  - apply (working_same_grip F s); [done| |done|done].
    apply closing_ok; [by eapply working_client|apply Hw].
  - apply queue_error_responds. apply (ok_output _ (working_client _ _ _ Hw)).
Qed.

(** Dropping a login attempt. *)
Lemma working_login_clear F s h :
  working F s h → working F (login_attempt_clear (fst s), snd s) h.
Proof.
  intros [Hi Hf]. split; [|done]. pose proof (inv_tracked _ _ _ _ Hi) as Ht.
  apply inv_update; [done|apply login_clear_ok; [apply Hi|done]|done| |done|done].
  destruct Ht as [_ Hh Hb Hs Hr]. by split.
Qed.

Lemma working_update F s h c :
  working F s h → client_ok c → connection_id c = connection_id (fst s) → fd c = fd (fst s) →
  tracked config c h → held_session (fst s) ⊆ held_session c →
  held_registration (fst s) ⊆ held_registration c → working F (c, snd s) h.
Proof. intros [Hi Hf] ??????. split; [by apply inv_update|cbn; congruence]. Qed.
End steps.

(** One step of a handler. *)
Ltac conn_step :=
  match goal with
  | |- wp _ client _ _ _ => apply wp_gets
  | |- wp _ context _ _ _ => apply wp_gets
  | |- wp _ (assign _) _ _ _ => apply wp_modify
  | |- wp _ (enter _) _ _ _ => apply wp_modify
  | |- _ => wp_step
  end; cbv beta.

(** ** Records *)

Lemma legacy_name_is_valid_runs size l :
  0 < size → array_ok size l → size = FTAP_LEGACY_NAME_MAX + 1 →
  is_Some (authd_legacy_name_is_valid (Some l)).
Proof.
  intros Hpos [Hok Hl] Hsize. unfold authd_legacy_name_is_valid.
  destruct ((strlen l =? 0) || _) eqn:E; [done|]. bools.
  destruct (cstr_split l) as [tail Ht].
  pose proof (legacy_loop (cstr l) [] tail (cstr_nonzero l)) as Hloop. cbn [app] in Hloop.
  rewrite <- Ht in Hloop. change (zlen []) with 0 in Hloop.
  replace (Z.to_nat (strlen l)) with (length (cstr l)) by (unfold strlen, zlen; lia).
  rewrite Hloop. by case_if.
Qed.

Lemma array_first size l : 0 < size → array_ok size l → is_Some (buf_get l 0).
Proof. intros Hs [_ Hl]. apply buf_get_in. lia. Qed.

Lemma availability_runs r :
  record_typed r → is_Some (authd_login_record_availability (Some r)).
Proof.
  intros [_ [Hl Hd Hg] Hh]. unfold authd_login_record_availability.
  destruct (array_first (FTAP_LOGIN_NAME_MAX + 1) _ eq_refl Hl) as [b ->].
  destruct (array_first (FTAP_DISPLAY_NAME_MAX + 1) _ eq_refl Hd) as [b' ->].
  destruct (array_first (AUTHD_DATABASE_PASSWORD_HASH_MAX + 1) _ eq_refl Hh) as [b'' ->].
  destruct (legacy_name_is_valid_runs (FTAP_LEGACY_NAME_MAX + 1) _ eq_refl Hg eq_refl) as [v ->].
  unfold run_or. repeat case_if; try done; eauto.
Qed.

(** ** The end of a connection *)

Section reset.
Context `{Environment} (config : authd_config).

Lemma disconnect_reason_own reason :
  daemon_abort_reason (cstr (registration_disconnect_reason reason)) = true.
Proof. unfold registration_disconnect_reason. destruct reason; repeat case_if; vm_compute; reflexivity. Qed.

(** A reason for which a connection ends: one of the daemon, or one of the peer for
    which the database was asked before. *)
Definition ends_with (reason : list Z) (c : authd_client) (h : list event) : Prop :=
  session_open c = true →
  daemon_reason (cstr reason) = true ∨ asked_to_close (ts_session_id (session c)) h = true.

Lemma own_reason reason c h : daemon_reason (cstr reason) = true → ends_with reason c h.
Proof. by left. Qed.

Lemma asked_grows session_id new h :
  asked_to_close session_id h = true → asked_to_close session_id (new ++ h) = true.
Proof. intros Ha. unfold asked_to_close in *. by rewrite existsb_app, Ha, orb_true_r. Qed.

Lemma abort_on_reset_spec E F s h reason :
  inv config F s h →
  wp E (abort_registration_on_reset reason)
    (λ _ s' h', s' = s ∧ inv config F s h' ∧ pending_registrations h' ⊆ fr_registrations F ∧
       ∃ new, h' = new ++ h) s h.
Proof.
  intros Hi. pose proof (inv_accounted _ _ _ _ Hi) as [Ho Hp].
  unfold abort_registration_on_reset. conn_step. conn_step.
  destruct (negb _ || negb _) eqn:Ea.
  - conn_step. split; [done|]. split; [done|]. split; [|by exists []]. revert Hp. unfold held_registration.
    rewrite <- negb_andb in Ea. apply negb_true_iff in Ea. rewrite Ea. set_solver.
  - bools. conn_step. apply wp_service. intros answer _. conn_step. split; [done|]. split; [|split; [|by eexists [_]]].
    + apply inv_event; [done|done|]. cbn. eexists. split; [done|]. split; [done|].
      apply (tr_begun _ _ _ (inv_tracked _ _ _ _ Hi)); done.
    + revert Hp. unfold held_registration. cbn. rewrite disconnect_reason_own, orb_true_r.
      repeat match goal with E : _ = true |- _ => rewrite E end. cbn. set_solver.
Qed.

Lemma close_on_reset_spec E F s h reason :
  inv config F s h → ends_with reason (fst s) h →
  wp E (close_session_on_reset (Some reason))
    (λ _ s' h', s' = s ∧ inv config F s h' ∧ open_sessions h' ⊆ fr_sessions F ∧
       pending_registrations h' = pending_registrations h) s h.
Proof.
  intros Hi Hend. pose proof (inv_accounted _ _ _ _ Hi) as [Ho Hp].
  unfold close_session_on_reset. conn_step. conn_step. revert Ho. unfold held_session.
  destruct (session_open (fst s)) eqn:Eo; intros Ho.
  - conn_step. apply wp_service. intros answer _. conn_step. split; [done|]. split; [|split; [|done]].
    + apply inv_event; [done|done|]. cbn. by apply (tr_session _ _ _ (inv_tracked _ _ _ _ Hi)).
    + cbn. destruct (Hend Eo) as [-> | ->]; rewrite !orb_true_r; set_solver.
  - conn_step. split; [done|]. split; [done|]. split; [set_solver|done].
Qed.

Lemma wiped_buffer buffer :
  array_ok FTAP_MAX_FRAME_SIZE buffer → wipe buffer 0 FTAP_MAX_FRAME_SIZE = Some (zeros FTAP_MAX_FRAME_SIZE).
Proof.
  intros [_ Hl]. unfold wipe.
  assert (zlen (zeros FTAP_MAX_FRAME_SIZE) = FTAP_MAX_FRAME_SIZE) as Hz by (apply zeros_ok; done).
  rewrite buf_write_in by (rewrite ?Hz; lia). change (Z.to_nat 0) with 0%nat.
  rewrite take_0, app_nil_l, Nat.add_0_l, drop_ge; [by rewrite app_nil_r|]. unfold zlen in *. lia.
Qed.

Lemma release_input_spec E F s h :
  inv config F s h →
  wp E release_input
    (λ _ s' h', s' = s ∧ inv config F s h' ∧ open_sessions h' = open_sessions h ∧
       pending_registrations h' = pending_registrations h) s h.
Proof.
  intros Hi. unfold release_input. conn_step. conn_step.
  pose proof (ok_input _ (inv_client _ _ _ _ Hi)) as Hin. unfold input_ok in Hin.
  destruct (input (fst s)) as [buffer|]; [|by apply wp_ret].
  conn_step. eapply wp_lift; [apply wiped_buffer, Hin|]. apply wp_service. intros [] _.
  split; [done|]. split; [|done]. by apply inv_event.
Qed.

Lemma zero_session_ok : session_ok zero_terminal_session.
Proof. split; split; by apply zeros_ok. Qed.

Lemma zero_bound_typed : bound_names_typed zero_bound_session.
Proof. split; [split|..]; by apply zeros_ok. Qed.

Lemma cleared_ok c : client_ok (cleared c).
Proof.
  split; cbn; try (by apply zeros_ok); try done; [..|split; cbn; try done; by left].
  - apply zero_attempt_typed.
  - apply zero_registration_typed.
  - apply zero_session_ok.
  - apply zero_bound_typed.
Qed.

(** After [client_reset] the slot is free and the connection holds nothing. *)
Lemma client_reset_spec E F s h reason :
  inv config F s h → ends_with reason (fst s) h →
  wp E (client_reset (Some reason))
    (λ _ s' h', s' = (cleared (fst s), snd s) ∧ inv config F s' h') s h.
Proof.
  intros Hi Hend. unfold client_reset. conn_step.
  eapply wp_mono; [by apply abort_on_reset_spec|]. intros [] s1 h1 (-> & Hi1 & Hp1 & new & ->). conn_step.
  eapply wp_mono; [apply close_on_reset_spec; [done|]|].
  { intros Ho. destruct (Hend Ho); [by left|right; by apply asked_grows]. } intros [] s2 h2 (-> & Hi2 & Ho2 & Hp2).
  conn_step. conn_step. conn_step.
  assert (∀ h3, inv config F s h3 → open_sessions h3 ⊆ fr_sessions F →
    pending_registrations h3 ⊆ fr_registrations F →
    wp E (do* release_input in assign cleared)
      (λ _ s' h', s' = (cleared (fst s), snd s) ∧ inv config F s' h') s h3) as Hrest.
  { intros h3 Hi3 Ho3 Hp3. conn_step. eapply wp_mono; [by apply release_input_spec|].
    intros [] s4 h4 (-> & Hi4 & Ho4 & Hp4). apply wp_modify. split; [done|].
    destruct Hi4 as [Hc Hx Hid Hacc Ht Ha]. split; try done; [apply cleared_ok|].
    split; cbn; rewrite ?Ho4, ?Hp4; set_solver. }
  destruct (0 <=? fd (fst s)).
  - apply wp_service. intros [] _. apply Hrest; [by apply inv_event|done|by cbn; rewrite Hp2].
  - conn_step. apply Hrest; [done|done|by rewrite Hp2].
Qed.

Lemma snprintf_ok size dst src :
  array_ok size dst → bytes_ok src → array_ok size (snprintf_s dst src).
Proof.
  intros [Hok Hl] Hs. split; [|by rewrite snprintf_length].
  unfold snprintf_s. destruct (length dst); [done|]. apply bytes_ok_app.
  split; [by apply bytes_ok_take, cstr_bytes_ok|]. constructor; [done|by apply bytes_ok_drop].
Qed.

Lemma pending_reason_ok c text :
  client_ok c → 0 <= fd c → bytes_ok text →
  (session_open c = false ∨ state c = FTAP_STATE_SESSION_BOUND →
   reason_settled (snprintf_s (pending_end_reason c) text)) →
  client_ok (set_pending_end_reason (snprintf_s (pending_end_reason c) text) c).
Proof.
  intros [Ho Hl Hi Hr Hn Hg Hs Hc He Hp] Hfd Ht Hset. split; try done; [by apply snprintf_ok|].
  destruct Hp. split; cbn; done || lia.
Qed.

(** The daemon notes one of its own reasons. *)
Lemma settled_own c text :
  client_ok c → daemon_reason (cstr text) = true → zlen (cstr text) <= FTAP_ENDED_REASON_MAX →
  reason_settled (snprintf_s (pending_end_reason c) text).
Proof.
  intros Hc Hd Hl. right. rewrite cstr_snprintf; [done|].
  destruct (ok_end_reason _ Hc) as [_ ->]. unfold strlen. fold (zlen (cstr text)). lia.
Qed.

Lemma working_own_reason F s h text :
  working config F s h → bytes_ok text → daemon_reason (cstr text) = true →
  zlen (cstr text) <= FTAP_ENDED_REASON_MAX →
  working config F (set_pending_end_reason (snprintf_s (pending_end_reason (fst s)) text) (fst s), snd s) h.
Proof.
  intros Hw Ht Hd Hl. pose proof (working_client _ _ _ _ Hw) as Hc.
  pose proof (settled_own _ _ Hc Hd Hl) as Hset.
  apply (working_update config F s); try done.
  - apply pending_reason_ok; [done|apply Hw|done|done].
  - destruct (inv_tracked _ _ _ _ (proj1 Hw)). split; try done. by left.
Qed.

Lemma release_session_ok c :
  client_ok c → 0 <= fd c → state c = FTAP_STATE_SESSION_BOUND → client_ok (release_session c).
Proof.
  intros [Ho Hl Hi Hr Hn Hg Hs Hc He Hp] Hfd Hset.
  split; try done; [apply zero_session_ok|apply zero_bound_typed|].
  destruct Hp as [Hl' Hg' Hs' _ Hr']. split; cbn; [| |done|lia|auto]; intros Ha.
  - by destruct (Hl' Ha) as (_ & ? & ?).
  - by destruct (Hg' Ha).
Qed.

(** A session may be forgotten once it is closed. *)
Lemma working_release F s h :
  working config F s h → state (fst s) = FTAP_STATE_SESSION_BOUND → open_sessions h ⊆ fr_sessions F →
  working config F (release_session (fst s), snd s) h.
Proof.
  intros [[Hc Hx Hi [Ho Hp] [Hl Hh Hb Hs Hr] Ha] Hfd] Hst Hopen.
  split; [|done]. split; try done; [by apply release_session_ok|].
  split; cbn; [set_solver|done].
Qed.

(** Closing a bound session, or failing to: the connection is at its end. *)
Lemma close_bound_session_spec E F s h payload tail :
  working config F s h → bytes_ok (payload ++ tail) → zlen payload <= FTAP_MAX_PAYLOAD_SIZE →
  la_active (login (fst s)) = false → state (fst s) = FTAP_STATE_SESSION_BOUND →
  wp E (close_bound_session (Some (payload ++ tail)) (zlen payload))
    (λ r s' h', r = -1 ∧ working config F s' h' ∧ state (fst s') = FTAP_STATE_CLOSING) s h.
Proof.
  intros Hw Hok Hlen Hl Hbound. unfold close_bound_session. conn_step. conn_step. conn_step.
  assert (∀ s h, working config F s h → la_active (login (fst s)) = false →
    wp E (do* enter FTAP_STATE_CLOSING in ret (-1)) (λ r s' h', r = -1 ∧ working config F s' h' ∧ state (fst s') = FTAP_STATE_CLOSING) s h)
    as Hclose.
  { intros s' h' Hw' Hl'. apply wp_bind, wp_modify, wp_ret. split; [done|]. split; [|done].
    apply (working_same_grip _ _ s'); [done| |done|done].
    apply closing_ok; [by eapply working_client|apply Hw']. }
  destruct (session_open (fst s)) eqn:Eo; cbn [negb].
  2:{ conn_step. by apply Hclose. }
  destruct (parse_session_close_reason_spec payload tail (zeros (FTAP_ENDED_REASON_MAX + 1)))
    as (r & Hr & Hres); [done|done|by apply zeros_ok|].
  eapply wp_lift; [exact Hr|]. destruct r as [reason|]; [|by apply Hclose].
  conn_step. apply wp_service. intros result _.
  pose proof (inv_accounted _ _ _ _ (proj1 Hw)) as [Ho Hp].
  assert (working config F s
    (CloseTerminalSession (ts_session_id (session (fst s))) (cstr reason) result :: h)) as Hw1.
  { apply working_event; [done|done|]. cbn. by apply (tr_session _ _ _ (inv_tracked _ _ _ _ (proj1 Hw))). }
  conn_step. destruct Hres as (fs & _ & _ & _ & _ & Harray).
  destruct (close_confirmed result) eqn:Econf.
  - assert (open_sessions (CloseTerminalSession (ts_session_id (session (fst s))) (cstr reason) result :: h)
      ⊆ fr_sessions F) as Hrel.
    { cbn. rewrite Econf. revert Ho. unfold held_session. rewrite Eo. set_solver. }
    destruct result; try done; apply wp_modify; apply Hclose; try done; by apply working_release.
  - assert (wp E (assign (λ c, set_pending_end_reason (snprintf_s (pending_end_reason c) reason) c))
      (λ _ s' h', working config F (set_state FTAP_STATE_CLOSING (fst s'), snd s') h') s
      (CloseTerminalSession (ts_session_id (session (fst s))) (cstr reason) result :: h)) as Hkeep.
    { apply wp_modify. cbn [fst snd].
      pose proof (working_client _ _ _ _ Hw) as Hc.
      set (c := set_pending_end_reason (snprintf_s (pending_end_reason (fst s)) reason)
        (set_state FTAP_STATE_CLOSING (fst s))).
      apply (working_update config F s _ c Hw1); try done.
      - refine (pending_reason_ok (set_state FTAP_STATE_CLOSING (fst s)) reason
          (closing_ok _ Hc (proj2 Hw)) (proj2 Hw) _ _); [apply Harray|]. cbn. rewrite Eo. by intros [].
      - destruct (inv_tracked _ _ _ _ (proj1 Hw1)). split; try done. intros _. right. cbn.
        by rewrite bool_decide_eq_true_2. }
    by destruct result.
Qed.
End reset.

(** ** A sample environment

    One account, one registration; input, completions and what [poll] reports
    are chosen by the history. *)

Definition example_record : authd_login_record := la_record example_attempt.

Record sample := Sample {
  sm_lookup : authd_database_lookup_result;
  sm_completion : list event → option authd_worker_completion;
  sm_input : list event → list Z;
  sm_poll : list event → list Z;
}.

Definition is_accept (e : event) : bool := match e with Accept _ => true | _ => false end.

Definition sample_environment (m : sample) : Environment := {|
  env_clock _ := Some (100, 0);
  env_random _ size := if size <? 0 then inr EOTHER else inl (replicate (Z.to_nat size) 7);
  env_lookup_login _ _ :=
    (sm_lookup m, match sm_lookup m with
                  | AUTHD_DATABASE_LOOKUP_OK => example_record
                  | _ => zero_login_record
                  end);
  env_record_failure _ _ _ _ _ := AUTHD_DATABASE_WRITE_OK;
  env_audit _ _ _ _ _ _ := AUTHD_DATABASE_WRITE_OK;
  env_create_session _ _ _ _ _ _ := (AUTHD_DATABASE_WRITE_OK, example_session);
  env_close_session _ _ _ := AUTHD_DATABASE_WRITE_OK;
  env_begin _ _ _ _ _ _ _ _ _ _ := (AUTHD_DATABASE_REGISTRATION_OK, example_registration);
  env_commit _ _ _ _ _ := (AUTHD_DATABASE_REGISTRATION_OK, example_commit);
  env_abort _ _ _ _ := AUTHD_DATABASE_REGISTRATION_OK;
  env_expire _ _ := AUTHD_DATABASE_REGISTRATION_OK;
  env_health _ := 0;
  env_submit_verify _ _ _ _ := (AUTHD_WORKER_SUBMIT_OK, 1);
  env_submit_generate _ _ _ := (AUTHD_WORKER_SUBMIT_OK, 1);
  env_take_completion := sm_completion m;
  env_recv h _ capacity :=
    match sm_input m h with
    | [] => inr EAGAIN
    | bytes => inl (take (Z.to_nat capacity) bytes)
    end;
  env_send _ _ data := inl (zlen data);
  env_accept h := if existsb is_accept h then inr EAGAIN else inl 5;
  env_peer _ _ := Some (PeerCredentials 1 1000 1000);
  env_malloc _ := Some (zeros FTAP_MAX_FRAME_SIZE);
  env_poll h fds _ := inl (take (length fds) (sm_poll m h ++ replicate (length fds) 0));
  env_signal h := match h with SignalRead _ :: _ => inr EAGAIN | _ => inl [15] end;
  env_generate _ := (AUTHD_PASSWORD_OK, example_array 256 (lit "$argon2id$dummy"));
  env_startup _ _ := true;
|}.

Definition names_typed_decide (login display legacy : list Z) : bool :=
  forallb (Prelude.between 0 255) (login ++ display ++ legacy)
  && (zlen login =? FTAP_LOGIN_NAME_MAX + 1) && (zlen display =? FTAP_DISPLAY_NAME_MAX + 1)
  && (zlen legacy =? FTAP_LEGACY_NAME_MAX + 1).

Lemma names_typed_decided login display legacy :
  names_typed_decide login display legacy = true → names_typed login display legacy.
Proof.
  unfold names_typed_decide. rewrite !forallb_app. intros Hn. bools.
  split; (split; [by apply bytes_ok_decide|done]).
Qed.

Lemma example_record_typed : record_typed example_record.
Proof.
  split; [apply example_uuid_ok|by apply names_typed_decided|].
  split; [by apply bytes_ok_decide|reflexivity].
Qed.

Lemma example_registration_typed : registration_typed example_registration.
Proof. split; [apply example_uuid_ok..|by apply names_typed_decided]. Qed.

Lemma sample_laws m :
  (∀ h completion, sm_completion m h = Some completion →
     array_ok (AUTHD_WORKER_HASH_MAX_BYTES + 1) (wc_encoded_hash completion) ∧
     fits 64 (tk_connection_id (wc_token completion))) →
  (∀ h, bytes_ok (sm_input m h)) →
  @EnvironmentLaws (sample_environment m).
Proof.
  intros Hc Hin. split.
  - intros h name. cbn. destruct (sm_lookup m); first [apply example_record_typed|apply zero_record_typed].
  - intros. apply example_session_ok.
  - intros. apply example_registration_typed.
  - intros. cbn. split; [apply example_uuid_ok|apply example_session_ok|by apply names_typed_decided].
  - exact Hc.
  - intros h size bytes. cbn. destruct (Z.ltb_spec size 0); [done|]. intros [= <-].
    split; [by apply Forall_replicate|]. unfold zlen. rewrite length_replicate. lia.
  - intros h fd capacity bytes Hcap. cbn. pose proof (Hin h) as Hok.
    destruct (sm_input m h) as [|b l]; [done|]. intros [= <-].
    split; [by apply bytes_ok_take|]. unfold zlen. rewrite length_take. lia.
  - intros h fd data count. cbn. intros [= <-]. pose proof (zlen_nonneg data). lia.
  - intros h fd. cbn. by case_if; intros [= <-].
  - intros h buffer. cbn. intros [= <-]. by apply zeros_ok.
  - intros h fds timeout revents. cbn. intros [= <-]. rewrite length_take, length_app, length_replicate. lia.
Qed.
