(* ===== verification/Login.v ===== *)
(** * Password logins

    [fortytwo-auth/src/authd_server.c]: [start_password_login] and
    [complete_password_login], the two halves of an asynchronous login. *)

From S2P Require Import Prelude Protocol Words Utf8 Codec Inet Schema Identity Throttle Limiter Program Services Client Requests Connection.

(** ** Definitions *)

(** Assignments to members of an attempt. *)
Definition la_set_request_id v (a : authd_login_attempt) : authd_login_attempt :=
  LoginAttempt (la_active a) v (la_worker_job_id a) (la_login_name a) (la_protocol a)
    (la_source_ip a) (la_tty_device a) (la_node_id a) (la_source_ip_set a) (la_tty_device_set a)
    (la_node_id_set a) (la_record_loaded a) (la_record a) (la_deferred_rejection a)
    (la_rejection_reason a).
Definition la_set_record v (a : authd_login_attempt) : authd_login_attempt :=
  LoginAttempt (la_active a) (la_request_id a) (la_worker_job_id a) (la_login_name a)
    (la_protocol a) (la_source_ip a) (la_tty_device a) (la_node_id a) (la_source_ip_set a)
    (la_tty_device_set a) (la_node_id_set a) (la_record_loaded a) v (la_deferred_rejection a)
    (la_rejection_reason a).
Definition la_set_record_loaded v (a : authd_login_attempt) : authd_login_attempt :=
  LoginAttempt (la_active a) (la_request_id a) (la_worker_job_id a) (la_login_name a)
    (la_protocol a) (la_source_ip a) (la_tty_device a) (la_node_id a) (la_source_ip_set a)
    (la_tty_device_set a) (la_node_id_set a) v (la_record a) (la_deferred_rejection a)
    (la_rejection_reason a).
Definition la_defer reason (a : authd_login_attempt) : authd_login_attempt :=
  LoginAttempt (la_active a) (la_request_id a) (la_worker_job_id a) (la_login_name a)
    (la_protocol a) (la_source_ip a) (la_tty_device a) (la_node_id a) (la_source_ip_set a)
    (la_tty_device_set a) (la_node_id_set a) (la_record_loaded a) (la_record a) true reason.
Definition la_activate job_id (a : authd_login_attempt) : authd_login_attempt :=
  LoginAttempt true (la_request_id a) job_id (la_login_name a) (la_protocol a)
    (la_source_ip a) (la_tty_device a) (la_node_id a) (la_source_ip_set a)
    (la_tty_device_set a) (la_node_id_set a) (la_record_loaded a) (la_record a)
    (la_deferred_rejection a) (la_rejection_reason a).

Definition login_source_ip (attempt : authd_login_attempt) : ptr :=
  if la_source_ip_set attempt then Some (la_source_ip attempt) else None.

Definition login_tty_device (attempt : authd_login_attempt) : ptr :=
  if la_tty_device_set attempt then Some (la_tty_device attempt) else None.

Definition login_node_id (attempt : authd_login_attempt) : ptr :=
  if la_node_id_set attempt then Some (la_node_id attempt) else None.

Definition availability_rejection_reason (availability : authd_login_availability)
    : authd_login_rejection_reason :=
  match availability with
  | AUTHD_LOGIN_PENDING => AUTHD_LOGIN_REJECTION_PENDING
  | AUTHD_LOGIN_DISABLED => AUTHD_LOGIN_REJECTION_DISABLED
  | AUTHD_LOGIN_LOCKED => AUTHD_LOGIN_REJECTION_LOCKED
  | AUTHD_LOGIN_DELETED => AUTHD_LOGIN_REJECTION_DELETED
  | AUTHD_LOGIN_THROTTLED => AUTHD_LOGIN_REJECTION_THROTTLED
  | AUTHD_LOGIN_PASSWORD_CHANGE_REQUIRED => AUTHD_LOGIN_REJECTION_PASSWORD_CHANGE_REQUIRED
  | _ => AUTHD_LOGIN_REJECTION_INVALID_RECORD
  end.

(** The tests of the availability and of the result of the lookup that decide
    how an attempt goes on. *)
Definition lookup_rejection_reason (lookup_result : authd_database_lookup_result)
    (availability : authd_login_availability) : authd_login_rejection_reason :=
  match lookup_result with
  | AUTHD_DATABASE_LOOKUP_NOT_FOUND => AUTHD_LOGIN_REJECTION_UNKNOWN_USER
  | AUTHD_DATABASE_LOOKUP_INVALID_RECORD => AUTHD_LOGIN_REJECTION_INVALID_RECORD
  | _ => availability_rejection_reason availability
  end.

Section login.
Context `{Environment}.

(** 0 if the audit was written, -1 if not. *)
Definition audit_login_rejection (attempt : authd_login_attempt)
    (reason : authd_login_rejection_reason) : handler Z :=
  let user_id :=
    if la_record_loaded attempt && negb (bool_decide (reason = AUTHD_LOGIN_REJECTION_UNKNOWN_USER))
    then Some (lr_user_id (la_record attempt)) else None in
  let* result := authd_database_audit_login_rejection user_id (la_login_name attempt) reason
    (login_source_ip attempt) (la_protocol attempt) in
  ret (if bool_decide (result = AUTHD_DATABASE_WRITE_OK) then 0 else -1).

(** [return audit_result == 0 ? queue(...) : queue_error(..., DATABASE_UNAVAILABLE)] *)
Definition respond_audited (audit_result request_id : Z)
    (queue : authd_client → run (Z * authd_client)) : handler Z :=
  respond (λ c, if negb (audit_result =? 0)
                then queue_error c request_id FTAP_ERR_DATABASE_UNAVAILABLE else queue c).

(** The end of [start_password_login]: the verification is given to the workers. *)
Definition submit_login (attempt : authd_login_attempt) (lookup_result : authd_database_lookup_result)
    (verification_hash password : list Z) (password_length request_id : Z) : handler Z :=
  let* c := client in
  let* (submit_result, job_id) := authd_worker_pool_submit_verify
    (WorkerToken (connection_id c) (connection_generation c) request_id)
    verification_hash password password_length in
  if negb (bool_decide (submit_result = AUTHD_WORKER_SUBMIT_OK)) then
    let attempt :=
      la_set_record_loaded (bool_decide (lookup_result = AUTHD_DATABASE_LOOKUP_OK)) attempt in
    let* audit_result := audit_login_rejection attempt AUTHD_LOGIN_REJECTION_OVERLOADED in
    do* enter FTAP_STATE_CLOSING in
    respond_audited audit_result request_id (λ c, queue_error c request_id FTAP_ERR_INTERNAL)
  else
    do* assign (set_login (la_activate job_id attempt)) in
    do* enter FTAP_STATE_AUTHENTICATING in
    ret 0.

Definition start_password_login (header : ftap_frame_header) (payload : ptr)
    (payload_length : Z) : handler Z :=
  let request_id := hdr_request_id header in
  let* c := client in
  if la_active (login c) || negb (bool_decide (state c = FTAP_STATE_HELLO_COMPLETE)) then
    do* assign login_attempt_clear in
    reject request_id FTAP_ERR_INVALID_STATE
  else
    let* parsed := lift (parse_password_request payload payload_length) in
    match parsed with
    | None => reject request_id FTAP_ERR_PROTOCOL
    | Some (attempt, password, password_length) =>
        let attempt := la_set_request_id request_id attempt in
        let* (lookup_result, record) := authd_database_lookup_login (la_login_name attempt) in
        let attempt := la_set_record record attempt in
        if bool_decide (lookup_result = AUTHD_DATABASE_LOOKUP_ERROR)
        then reject request_id FTAP_ERR_DATABASE_UNAVAILABLE
        else
          let found := bool_decide (lookup_result = AUTHD_DATABASE_LOOKUP_OK) in
          let attempt := if found then la_set_record_loaded true attempt else attempt in
          let* availability :=
            if found then lift (authd_login_record_availability (Some record))
            else ret AUTHD_LOGIN_INVALID_RECORD in
          if found && bool_decide (availability = AUTHD_LOGIN_THROTTLED) then
            let* audit_result := audit_login_rejection attempt AUTHD_LOGIN_REJECTION_THROTTLED in
            do* enter FTAP_STATE_CLOSING in
            respond_audited audit_result request_id (λ c,
              queue_error_with_retry c request_id FTAP_ERR_RATE_LIMITED (lr_retry_after_ms record))
          else if found && bool_decide (availability = AUTHD_LOGIN_AVAILABLE) then
            submit_login attempt lookup_result (lr_password_hash record) password
              password_length request_id
          else
            let* x := context in
            let attempt := la_defer (lookup_rejection_reason lookup_result availability) attempt in
            submit_login attempt lookup_result (ctx_dummy_password_hash x) password
              password_length request_id
    end.

(** The session of a login is stored and its names are copied. *)
Definition bind_login_session (attempt : authd_login_attempt)
    (s : authd_terminal_session_result) (c : authd_client) : authd_client :=
  let context := session_context c in
  let record := la_record attempt in
  set_session_context
    (BoundSession (snprintf_s (bs_login_name context) (lr_login_name record))
       (snprintf_s (bs_display_name context) (lr_display_name record))
       (snprintf_s (bs_legacy_name context) (lr_legacy_name record))
       (snprintf_s (bs_protocol context) (la_protocol attempt))
       (snprintf_s (bs_auth_method context) FTAP_AUTH_METHOD_PASSWORD))
    (set_session_open true (set_session s c)).

(** Every branch but the successful one: the attempt is cleared and the
    connection ends with an error. *)
Definition end_login (audit_result request_id error_code : Z) : handler Z :=
  do* assign login_attempt_clear in
  do* enter FTAP_STATE_CLOSING in
  respond_audited audit_result request_id (λ c, queue_error c request_id error_code).

Definition complete_verified_login (attempt : authd_login_attempt) : handler Z :=
  let request_id := la_request_id attempt in
  let* (result, s) := authd_database_create_password_session (la_record attempt)
    (login_source_ip attempt) (la_protocol attempt) (login_tty_device attempt)
    (login_node_id attempt) in
  match result with
  | AUTHD_DATABASE_WRITE_OK =>
      do* assign (bind_login_session attempt s) in
      do* enter FTAP_STATE_SESSION_BOUND in
      let* queued := respond (λ c, queue_authentication_result c request_id attempt s) in
      if negb (queued =? 0) then
        do* assign (λ c,
          set_pending_end_reason (snprintf_s (pending_end_reason c) (lit "auth_response_failed")) c) in
        do* assign login_attempt_clear in
        ret (-1)
      else
        do* assign login_attempt_clear in
        ret 0
  | AUTHD_DATABASE_WRITE_ACCESS_DENIED => end_login 0 request_id FTAP_ERR_ACCESS_DENIED
  | AUTHD_DATABASE_WRITE_STALE_STATE =>
      let* audit_result := audit_login_rejection attempt AUTHD_LOGIN_REJECTION_STALE_STATE in
      end_login audit_result request_id FTAP_ERR_INVALID_CREDENTIALS
  | _ => end_login 0 request_id FTAP_ERR_DATABASE_UNAVAILABLE
  end.

Definition complete_password_login (completion : authd_worker_completion) : handler Z :=
  let* c := client in
  let attempt := login c in
  let request_id := la_request_id attempt in
  if la_deferred_rejection attempt then
    let* audit_result := audit_login_rejection attempt (la_rejection_reason attempt) in
    end_login audit_result request_id FTAP_ERR_INVALID_CREDENTIALS
  else
    match wc_password_result completion with
    | AUTHD_PASSWORD_MISMATCH =>
        let* x := context in
        let* result := authd_database_record_password_failure (lr_user_id (la_record attempt))
          (ctx_throttle_policy x) (login_source_ip attempt) (la_protocol attempt) in
        end_login 0 request_id
          (if negb (bool_decide (result = AUTHD_DATABASE_WRITE_OK))
           then FTAP_ERR_DATABASE_UNAVAILABLE else FTAP_ERR_INVALID_CREDENTIALS)
    | AUTHD_PASSWORD_OK => complete_verified_login attempt
    | password_result =>
        let reason :=
          if bool_decide (password_result = AUTHD_PASSWORD_INVALID_HASH)
             || bool_decide (password_result = AUTHD_PASSWORD_RESOURCE_LIMIT)
          then AUTHD_LOGIN_REJECTION_INVALID_RECORD else AUTHD_LOGIN_REJECTION_INTERNAL_ERROR in
        let* audit_result := audit_login_rejection attempt reason in
        end_login audit_result request_id FTAP_ERR_INTERNAL
    end.
End login.

(** ** What a login comes to *)

(** The calls that leave a record of a rejected login. *)
Definition recorded (e : event) : bool :=
  match e with
  | AuditLoginRejection _ _ _ _ _ AUTHD_DATABASE_WRITE_OK
  | RecordPasswordFailure _ _ _ _ AUTHD_DATABASE_WRITE_OK
  | CreatePasswordSession _ _ _ _ _ (AUTHD_DATABASE_WRITE_ACCESS_DENIED, _) => true
  | _ => false
  end.

(** The login is refused, which is on record unless the database failed or the
    request was not one. *)
Definition refusal (request_id r : Z) (c : authd_client) (h h' : list event) : Prop :=
  ∃ code retry, refuses request_id code retry r c ∧
    (code = FTAP_ERR_DATABASE_UNAVAILABLE ∨
     (∃ e older, h' = e :: older ∧ recorded e = true) ∨
     (h' = h ∧ (code = FTAP_ERR_PROTOCOL ∨ code = FTAP_ERR_INVALID_STATE))).

(** The login has the session that the database made for the record. *)
Definition granted (attempt : authd_login_attempt) (r : Z) (c : authd_client)
    (h h' : list event) : Prop :=
  state c = FTAP_STATE_SESSION_BOUND ∧ session_open c = true ∧ la_active (login c) = false ∧
  (r = 0 → busy c = true) ∧
  ∃ ip protocol tty node s,
    h' = CreatePasswordSession (la_record attempt) ip protocol tty node
           (AUTHD_DATABASE_WRITE_OK, s) :: h ∧ session c = s.

(** The password is with the workers. *)
Definition started (r : Z) (c : authd_client) (h h' : list event) : Prop :=
  r = 0 ∧ la_active (login c) = true ∧ state c = FTAP_STATE_AUTHENTICATING ∧
  ∃ hash password job,
    h' = SubmitVerify
           (WorkerToken (connection_id c) (connection_generation c) (la_request_id (login c)))
           hash password (AUTHD_WORKER_SUBMIT_OK, job) :: h.

(** ** The invariant *)

Section login_invariant.
Context `{EnvironmentLaws} (config : authd_config).

Lemma audit_spec E F s h attempt reason :
  working config F s h → looked_up (cstr (la_login_name attempt)) (attempt_user attempt) h →
  wp E (audit_login_rejection attempt reason)
    (λ r s' h', s' = s ∧ working config F s h' ∧
       ∃ e, h' = e :: h ∧ (r = 0 → recorded e = true)) s h.
Proof.
  intros Hw (answer & Hin & Huser). unfold audit_login_rejection. conn_step.
  apply wp_service. intros result _. conn_step. split; [done|]. split.
  - apply working_event; [done|done|]. exists answer. split; [done|]. intros id.
    unfold attempt_user in Huser. destruct (la_record_loaded attempt); [|done]. case_if; [|done]. apply Huser.
  - eexists. split; [done|]. by destruct result.
Qed.

Lemma respond_audited_spec E F audit_result request_id code retry s h :
  working config F s h → la_active (login (fst s)) = false →
  state (fst s) = FTAP_STATE_CLOSING →
  wp E (respond_audited audit_result request_id
          (λ c, queue_error_with_retry c request_id code retry))
    (λ r s' h', working config F s' h' ∧ h' = h ∧ ∃ code' retry',
       refuses request_id code' retry' r (fst s') ∧
       (audit_result ≠ 0 → code' = FTAP_ERR_DATABASE_UNAVAILABLE) ∧
       (audit_result = 0 → code' = code)) s h.
Proof.
  intros Hw Hl Hst. pose proof (ok_output _ (working_client _ _ _ _ Hw)).
  eapply wp_mono; [apply working_respond_spec; [done|]|].
  - case_if; by apply queue_error_with_retry_responds.
  - intros r s' h' (Hw' & -> & Hq). split; [done|]. split; [done|].
    destruct (Z.eqb_spec audit_result 0); cbn [negb] in Hq.
    + exists code, retry. split; [by exists (fst s)|]. done.
    + exists FTAP_ERR_DATABASE_UNAVAILABLE, 0. split; [by exists (fst s)|]. done.
Qed.

Lemma working_enter_closing F s h :
  working config F s h → la_active (login (fst s)) = false →
  working config F (set_state FTAP_STATE_CLOSING (fst s), snd s) h.
Proof.
  intros Hw Hl. apply (working_same_grip _ _ s); [done| |done|done].
  apply closing_ok; [by eapply working_client|apply Hw].
Qed.

Lemma end_login_spec E F audit_result request_id code h0 s h :
  working config F s h →
  (audit_result = 0 → code = FTAP_ERR_DATABASE_UNAVAILABLE ∨
     ∃ e older, h = e :: older ∧ recorded e = true) →
  wp E (end_login audit_result request_id code)
    (λ r s' h', working config F s' h' ∧ refusal request_id r (fst s') h0 h') s h.
Proof.
  intros Hw Hcode. unfold end_login. conn_step. conn_step. conn_step. conn_step.
  assert (working config F (set_state FTAP_STATE_CLOSING (login_attempt_clear (fst s)), snd s) h) as Hw'
    by (by apply (working_enter_closing F (login_attempt_clear (fst s), snd s)); [apply working_login_clear|]).
  eapply wp_mono; [by apply (respond_audited_spec E F _ _ _ 0)|].
  intros r s' h' (Hw2 & -> & code' & retry & Href & Hbad & Hgood). split; [done|].
  exists code', retry. split; [done|]. destruct (decide (audit_result = 0)) as [E0|E0].
  - rewrite (Hgood E0). destruct (Hcode E0) as [?|?]; [by left|right; by left].
  - left. auto.
Qed.

(** An attempt whose record is the newest answer of the database. *)
Record fresh_attempt (attempt : authd_login_attempt) (lookup_result : authd_database_lookup_result)
    (hash : list Z) (h : list event) : Prop := {
  fa_lookup : ∃ older, h =
    LookupLogin (cstr (la_login_name attempt)) (lookup_result, la_record attempt) :: older;
  fa_typed : attempt_typed attempt;
  fa_loaded : la_record_loaded attempt = true → lookup_result = AUTHD_DATABASE_LOOKUP_OK;
  fa_hash : la_deferred_rejection attempt = false →
    lookup_result = AUTHD_DATABASE_LOOKUP_OK ∧ hash = lr_password_hash (la_record attempt) ∧
    authd_login_record_availability (Some (la_record attempt)) = Some AUTHD_LOGIN_AVAILABLE;
}.

Lemma fresh_looked_up attempt lookup_result hash h :
  fresh_attempt attempt lookup_result hash h →
  looked_up (cstr (la_login_name attempt)) (attempt_user attempt) h.
Proof.
  intros [(older & ->) _ Hl _]. eexists. split; [by left|]. unfold attempt_user.
  destruct (la_record_loaded attempt); [|done]. intros id [= <-]. cbn. by rewrite Hl.
Qed.

Lemma idle_hello c :
  client_ok c → state c = FTAP_STATE_HELLO_COMPLETE →
  session_open c = false ∧ ra_active (registration c) = false.
Proof.
  intros Hc Hs. destruct (ok_phases _ Hc) as [_ Hr Ho _ _]. rewrite Hs in *. split.
  - destruct (session_open c); [|done]. by destruct Ho.
  - destruct (ra_active _); [|done]. by destruct Hr as [_ []].
Qed.

Lemma submit_login_spec E F s h attempt lookup_result hash password length text request_id :
  working config F s h → la_active (login (fst s)) = false →
  state (fst s) = FTAP_STATE_HELLO_COMPLETE →
  fresh_attempt attempt lookup_result hash h → la_request_id attempt = request_id →
  buf_read password 0 length = Some text →
  wp E (submit_login attempt lookup_result hash password length request_id)
    (λ r s' h', working config F s' h' ∧
       (started r (fst s') h h' ∨ ∀ h0, refusal request_id r (fst s') h0 h')) s h.
Proof.
  intros Hw Hl Hst Hf Hreq Hread. unfold submit_login. conn_step. conn_step. conn_step.
  unfold authd_worker_pool_submit_verify. conn_step. eapply wp_lift; [exact Hread|].
  apply wp_service. intros [submit_result job] _.
  assert (∀ e, acquires e = false → justified config e h → working config F s (e :: h)) as Hev
    by (intros; by apply working_event).
  case_if.
  - conn_step. eapply wp_mono; [apply audit_spec; [by apply Hev|]|].
    + apply looked_up_cons. destruct Hf as [(older & ->) _ _ _]. eexists. split; [by left|].
      unfold attempt_user. cbn. destruct (decide (lookup_result = AUTHD_DATABASE_LOOKUP_OK)) as [->|Hne].
      * intros id [= <-]. done.
      * rewrite bool_decide_eq_false_2 by done. done.
    + intros audit s1 h1 (-> & Hw1 & e & -> & Hrec). conn_step. conn_step.
      eapply wp_mono; [apply (respond_audited_spec E F _ _ _ 0);
        [by apply working_enter_closing|done|done]|].
      intros r s' h' (Hw2 & -> & code & retry & Href & Hbad & _). split; [done|]. right. intros h0.
      exists code, retry. split; [done|]. destruct (decide (audit = 0)); [|left; auto].
      right. left. eexists _, _. split; [done|auto].
  - bools. subst submit_result. conn_step. conn_step. conn_step. conn_step. conn_step.
    pose proof (working_client _ _ _ _ Hw) as Hc.
    destruct (idle_hello _ Hc Hst) as [Ho Hg].
    split; [|left; split_and!; try done; cbn; rewrite Hreq; by eexists _, _, _].
    eapply (working_update config F s); [by apply Hev| |done|done| |done|done].
    + destruct Hc as [Hc1 Hc2 Hc3 Hc4 Hc5 Hc6 Hc7 Hc8 Hc9 [Hp1 Hp2 Hp3 Hp4 Hp5]].
      destruct Hw as [_ Hfd]. split; try done; [by destruct (fa_typed _ _ _ _ Hf)|].
      split; cbn; [intros _; split_and!; [exact Ho|exact Hg|by left]|congruence|congruence|lia|auto].
    + destruct (inv_tracked _ _ _ _ (proj1 Hw)) as [_ Hh Hb Hs Hend].
      split; [|cbn; congruence..]. intros _. cbn. split.
      * apply looked_up_cons. eapply fresh_looked_up in Hf. exact Hf.
      * intros Hd. destruct (fa_hash _ _ _ _ Hf Hd) as (-> & -> & Hav). split; [done|].
        destruct (fa_lookup _ _ _ _ Hf) as (older & ->). exists [], text, older.
        unfold token_of. cbn. by rewrite Hreq.
Qed.

Lemma start_password_login_spec E F s h header payload tail :
  working config F s h → bytes_ok (payload ++ tail) → zlen payload <= FTAP_MAX_PAYLOAD_SIZE →
  wp E (start_password_login header (Some (payload ++ tail)) (zlen payload))
    (λ r s' h', working config F s' h' ∧
       ((∃ name answer, started r (fst s') (LookupLogin name answer :: h) h') ∨
        refusal (hdr_request_id header) r (fst s') h h')) s h.
Proof.
  intros Hw Hok Hlen.
  assert (∀ code s, working config F s h → la_active (login (fst s)) = false →
    code = FTAP_ERR_PROTOCOL ∨ code = FTAP_ERR_INVALID_STATE →
    wp E (reject (hdr_request_id header) code)
      (λ r s' h', working config F s' h' ∧
         ((∃ name answer, started r (fst s') (LookupLogin name answer :: h) h') ∨
          refusal (hdr_request_id header) r (fst s') h h')) s h) as Hreject.
  { intros code s' Hw' Hl' Hcode. eapply wp_mono; [by apply working_reject_spec|].
    intros r s1 h1 (Hw1 & -> & Href). split; [done|]. right. exists code, 0. split; [done|].
    right. right. by split. }
  unfold start_password_login. conn_step. conn_step.
  destruct (la_active (login (fst s)) || _) eqn:Eg.
  { conn_step. conn_step. by apply Hreject; [apply working_login_clear| |right]. }
  bools. match goal with H : state _ = _ |- _ => rename H into Hst end. conn_step.
  destruct (parse_password_request_spec payload tail) as (r & Hr & Hres); [done..|].
  eapply wp_lift; [exact Hr|]. destruct r as [[[attempt password] length]|]; [|by apply Hreject; [| |left]].
  destruct Hres as (fs & _ & _ & _ & _ & _ & Hof & [_ [Hproto _] _ _ _] & _).
  pose proof (po_fresh _ _ Hof) as (_ & Hunloaded & _ & _). cbn in Hunloaded.
  pose proof (po_password _ _ Hof) as Hread. unfold holds_password in Hread. cbn in Hread.
  conn_step. apply wp_service. intros [lookup_result record] Ha.
  set (attempt1 := la_set_record record (la_set_request_id (hdr_request_id header) attempt)).
  assert (record_typed record) as Htyped.
  { pose proof (law_lookup h (cstr (la_login_name attempt))) as Ht. cbn in Ha. by rewrite <- Ha in Ht. }
  set (h1 := LookupLogin _ _ :: h).
  assert (working config F s h1) as Hw1 by by apply working_event.
  cbv beta iota. destruct (bool_decide (lookup_result = AUTHD_DATABASE_LOOKUP_ERROR)).
  { eapply wp_mono; [by apply working_reject_spec|]. intros r s' h' (Hw2 & -> & Href).
    split; [done|]. right. eexists _, _. split; [exact Href|]. by left. }
  assert (∀ attempt' hash, fresh_attempt attempt' lookup_result hash h1 →
    la_request_id attempt' = hdr_request_id header →
    wp E (submit_login attempt' lookup_result hash password length (hdr_request_id header))
      (λ r s' h', working config F s' h' ∧
         ((∃ name answer, started r (fst s') (LookupLogin name answer :: h) h') ∨
          refusal (hdr_request_id header) r (fst s') h h')) s h1) as Hsubmit.
  { intros attempt' hash Hf Hreq. eapply wp_mono; [by eapply submit_login_spec|].
    intros r s' h' [Hw2 [Hs|Hr']]; (split; [done|]); [left|right; auto]. eexists _, _. exact Hs. }
  assert (∀ loaded hash deferral, (loaded = true → lookup_result = AUTHD_DATABASE_LOOKUP_OK) →
    (deferral = None → lookup_result = AUTHD_DATABASE_LOOKUP_OK ∧ hash = lr_password_hash record ∧
       authd_login_record_availability (Some record) = Some AUTHD_LOGIN_AVAILABLE) →
    let a := if loaded : bool then la_set_record_loaded true attempt1 else attempt1 in
    fresh_attempt (if deferral is Some reason then la_defer reason a else a) lookup_result hash h1)
    as Hfresh.
  { intros loaded hash deferral Hload Hdefer. split.
    - exists h. by destruct deferral, loaded.
    - destruct deferral, loaded; by split.
    - destruct deferral, loaded; cbn; try done; congruence.
    - destruct deferral; [by destruct loaded|]. by destruct loaded; auto. }
  conn_step. destruct (bool_decide (lookup_result = AUTHD_DATABASE_LOOKUP_OK)) eqn:Eok; bools.
  - destruct (availability_runs record Htyped) as [availability Hav].
    eapply wp_lift; [exact Hav|]. cbn [andb].
    destruct (bool_decide (availability = AUTHD_LOGIN_THROTTLED)) eqn:Et.
    + conn_step. eapply wp_mono; [apply audit_spec; [done|]|].
      * exists (lookup_result, record). split; [by left|]. by intros id [= <-].
      * intros audit s2 h2 (-> & Hw2 & e & -> & Hrec). conn_step. conn_step.
        eapply wp_mono; [apply respond_audited_spec; [by apply working_enter_closing|done|done]|].
        intros r s' h' (Hw3 & -> & code & retry & Href & Hbad & _). split; [done|]. right.
        exists code, retry. split; [done|]. destruct (decide (audit = 0)); [|left; auto].
        right. left. eexists _, _. split; [done|auto].
    + destruct (bool_decide (availability = AUTHD_LOGIN_AVAILABLE)) eqn:Eav; bools.
      * apply Hsubmit; [|done]. apply (Hfresh true _ None); [done|]. by subst availability.
      * conn_step. conn_step. apply Hsubmit; [|done].
        by apply (Hfresh true _ (Some (lookup_rejection_reason lookup_result availability))).
  - conn_step. cbn [andb]. conn_step. conn_step. apply Hsubmit; [|done].
    by apply (Hfresh false _ (Some (lookup_rejection_reason lookup_result AUTHD_LOGIN_INVALID_RECORD))).
Qed.

(** *** Completion *)

Lemma bind_names_typed b login display legacy protocol method :
  bound_names_typed b → bytes_ok login → bytes_ok display → bytes_ok legacy → bytes_ok protocol →
  bytes_ok method →
  bound_names_typed (BoundSession (snprintf_s (bs_login_name b) login)
    (snprintf_s (bs_display_name b) display) (snprintf_s (bs_legacy_name b) legacy)
    (snprintf_s (bs_protocol b) protocol) (snprintf_s (bs_auth_method b) method)).
Proof. intros [[Hl Hd Hg] Hp Hm] ?????. split; [split|..]; by apply snprintf_ok. Qed.

(** The connection once the session of its login is open. *)
Definition bound_client (s : authd_terminal_session_result) (c : authd_client) : authd_client :=
  login_attempt_clear (set_state FTAP_STATE_SESSION_BOUND (bind_login_session (login c) s c)).

Lemma working_bound F s h session_result ip protocol tty node :
  working config F s h → la_active (login (fst s)) = true → session_ok session_result →
  verified AUTHD_PASSWORD_OK (la_record (login (fst s))) h →
  working config F (bound_client session_result (fst s), snd s)
    (CreatePasswordSession (la_record (login (fst s))) ip protocol tty node
       (AUTHD_DATABASE_WRITE_OK, session_result) :: h).
Proof.
  intros [[Hc Hx Hi [Ho Hp] Ht Ha] Hfd] Hl Hs Hv. destruct s as [c x]. cbn [fst snd] in *.
  destruct Hc as [Hc1 Hc2 Hc3 [[Hc4u [Hn1 Hn2 Hn3] Hc4h] Hc4p] Hc5 Hc6 Hc7 Hc8 Hc9 [Hp1 Hp2 Hp3 Hp4 Hp5]].
  destruct (Hp1 Hl) as (Hso & Hra & _).
  split; [|done]. split; cbn [fst snd]; try done.
  - split; try done.
    + apply zero_attempt_typed.
    + apply bind_names_typed; try done; [apply Hn1|apply Hn2|apply Hn3|apply lit_bytes_ok].
    + split; cbn; [done|congruence|by left|lia|auto].
  - split; cbn.
    + revert Ho. unfold held_session. rewrite Hso. apply acquire_subset.
    + by revert Hp.
  - split; cbn; [done|congruence|congruence| |intros _; left; auto]. intros _. left.
    eexists _, _, _, _, _, _. split; [by left|done].
Qed.

Lemma complete_verified_login_spec E F s h :
  working config F s h → la_active (login (fst s)) = true →
  verified AUTHD_PASSWORD_OK (la_record (login (fst s))) h →
  looked_up (cstr (la_login_name (login (fst s)))) (attempt_user (login (fst s))) h →
  wp E (complete_verified_login (login (fst s)))
    (λ r s' h', working config F s' h' ∧
       (granted (login (fst s)) r (fst s') h h' ∨
        refusal (la_request_id (login (fst s))) r (fst s') h h')) s h.
Proof.
  intros Hw Hl Hv Hlook. unfold complete_verified_login. conn_step. apply wp_service.
  intros [result session_result] Ha. cbv beta iota.
  assert (session_ok session_result) as Hs.
  { match type of Ha with _ = env_create_session ?h ?r ?i ?p ?t ?n =>
      pose proof (law_session h r i p t n) as Hs end. by rewrite <- Ha in Hs. }
  set (e := CreatePasswordSession _ _ _ _ _ _).
  assert (result ≠ AUTHD_DATABASE_WRITE_OK → working config F s (e :: h)) as Hother.
  { intros Hne. apply working_event; [done|by destruct result|done]. }
  pose proof (working_client _ _ _ _ Hw) as Hc. destruct Hw as [Hi Hfd].
  assert (∀ audit_result code s h1, working config F s h1 →
    (audit_result = 0 → code = FTAP_ERR_DATABASE_UNAVAILABLE ∨
       ∃ e older, h1 = e :: older ∧ recorded e = true) →
    wp E (end_login audit_result (la_request_id (login (fst s))) code)
      (λ r s' h', working config F s' h' ∧
         (granted (login (fst s)) r (fst s') h h' ∨
          refusal (la_request_id (login (fst s))) r (fst s') h h')) s h1) as Hend.
  { intros audit_result code s0 h1 Hw1 Hcode. eapply wp_mono; [by apply (end_login_spec E F _ _ _ h)|].
    intros r s' h' [? ?]. split; [done|]. by right. }
  assert (∀ code, result ≠ AUTHD_DATABASE_WRITE_OK →
    code = FTAP_ERR_DATABASE_UNAVAILABLE ∨ recorded e = true →
    wp E (end_login 0 (la_request_id (login (fst s))) code)
      (λ r s' h', working config F s' h' ∧
         (granted (login (fst s)) r (fst s') h h' ∨
          refusal (la_request_id (login (fst s))) r (fst s') h h')) s (e :: h)) as Hstop.
  { intros code Hne [->|Hrec]; apply Hend; auto. intros _. right. by exists e, h. }
  destruct result; try (apply Hstop; [discriminate|by left]).
  - clear Hother. conn_step. conn_step. conn_step. conn_step. conn_step.
    assert (working config F (bound_client session_result (fst s), snd s) (e :: h)) as Hb
      by (by apply working_bound).
    apply wp_respond.
    + apply queue_authentication_result_responds; [apply (ok_output _ Hc)|done|].
      apply (ok_login _ Hc).
    + cbn [Z.eqb negb]. conn_step. conn_step. conn_step. conn_step. conn_step.
      split; [|left; split_and!; try done; cbn; by eexists _, _, _, _, _].
      by apply (working_own_reason config F (bound_client session_result (fst s), snd s) _
        (lit "auth_response_failed")); [apply Hb|apply lit_bytes_ok|..].
    + intros out length close_after Hout Hd Hlen. cbn [Z.eqb negb]. conn_step. conn_step. conn_step.
      split; [|left; split_and!; try done; [intros _; apply queued_busy; lia|cbn; by eexists _, _, _, _, _]].
      apply (working_same_grip config F (bound_client session_result (fst s), snd s)
        (e :: h) (queued out length close_after (bound_client session_result (fst s))));
        [apply Hb| |done|done].
      apply queued_ok; [exact (working_client _ _ _ _ Hb)|done..].
  - conn_step. eapply wp_mono; [apply audit_spec; [by apply Hother|by apply looked_up_cons]|].
    intros audit s1 h1 (-> & Hw1 & e' & -> & Hrec). apply Hend; [done|]. intros ->. right.
    eexists _, _. split; [done|auto].
  - apply Hstop; [discriminate|by right].
Qed.

(** The completion that the newest event reports belongs to the login. *)
Record completes_login (completion : authd_worker_completion) (c : authd_client)
    (h : list event) : Prop := {
  cl_active : la_active (login c) = true;
  cl_type : wc_job_type completion = AUTHD_WORKER_JOB_VERIFY_PASSWORD;
  cl_token : wc_token completion = token_of c (la_request_id (login c));
  cl_job : wc_job_id completion = la_worker_job_id (login c);
  cl_newest : ∃ older, h = TakeCompletion (Some completion) :: older ∧ tracked config c older;
}.

Lemma complete_password_login_spec E F s h completion :
  working config F s h → completes_login completion (fst s) h →
  wp E (complete_password_login completion)
    (λ r s' h', working config F s' h' ∧
       (granted (login (fst s)) r (fst s') h h' ∨
        refusal (la_request_id (login (fst s))) r (fst s') h h')) s h.
Proof.
  intros Hw [Hl Hty Htok Hjob (older & Hh & Ht)]. unfold complete_password_login. conn_step. conn_step.
  destruct (tr_login _ _ _ (inv_tracked _ _ _ _ (proj1 Hw)) Hl) as [Hlook _].
  assert (la_deferred_rejection (login (fst s)) = false →
    verified (wc_password_result completion) (la_record (login (fst s))) h) as Hv.
  { intros Hd. exists completion, older, (cstr (la_login_name (login (fst s)))).
    split; [done|]. split; [done|]. split; [done|]. rewrite Htok, Hjob.
    by apply (tr_login _ _ _ Ht Hl). }
  assert (∀ reason code,
    wp E (let* audit_result := audit_login_rejection (login (fst s)) reason in
          end_login audit_result (la_request_id (login (fst s))) code)
      (λ r s' h', working config F s' h' ∧
         (granted (login (fst s)) r (fst s') h h' ∨
          refusal (la_request_id (login (fst s))) r (fst s') h h')) s h) as Haudit.
  { intros reason code. conn_step. eapply wp_mono; [by apply audit_spec|].
    intros audit s1 h1 (-> & Hw1 & e & -> & Hrec).
    eapply wp_mono; [apply (end_login_spec E F _ _ _ h); [done|]|].
    - intros ->. right. eexists _, _. split; [done|auto].
    - intros r s' h' [? ?]. split; [done|]. by right. }
  destruct (la_deferred_rejection (login (fst s))); [apply Haudit|].
  destruct (wc_password_result completion); try apply Haudit.
  - apply complete_verified_login_spec; auto.
  - conn_step. conn_step. conn_step. apply wp_service. intros result _.
    eapply wp_mono; [apply (end_login_spec E F _ _ _ h)|].
    + apply working_event; [done|done|]. eexists. split; [done|]. auto.
    + intros _. destruct result; try (by left). right. by eexists _, _.
    + intros r s' h' [? ?]. split; [done|]. by right.
Qed.
End login_invariant.

(** ** Unknown names, other accounts and wrong passwords look alike *)

(** The database knows more than it may tell: the name does not exist, or an
    account under that name that is not throttled. *)
Definition undisclosed (lookup : authd_database_lookup_result * authd_login_record) : Prop :=
  record_typed (snd lookup) ∧ fst lookup ≠ AUTHD_DATABASE_LOOKUP_ERROR ∧
  (fst lookup = AUTHD_DATABASE_LOOKUP_OK →
   authd_login_record_availability (Some (snd lookup)) ≠ Some AUTHD_LOGIN_THROTTLED).

Section start_alike.
Context `{Environment} (job : Z).
Context (Hsubmit : ∀ h token hash password,
  env_submit_verify h token hash password = (AUTHD_WORKER_SUBMIT_OK, job)).

Lemma submit_login_runs attempt lookup_result hash password length text request_id c x h :
  buf_read password 0 length = Some text →
  submit_login attempt lookup_result hash password length request_id (c, x) h =
    Some (Done 0 (set_state FTAP_STATE_AUTHENTICATING (set_login (la_activate job attempt) c), x)
      (SubmitVerify (WorkerToken (connection_id c) (connection_generation c) request_id)
         (cstr hash) text (AUTHD_WORKER_SUBMIT_OK, job) :: h)).
Proof.
  intros Hread. unfold submit_login, authd_worker_pool_submit_verify, bind, client, gets, lift, service.
  cbn [fst snd]. rewrite Hread, Hsubmit. reflexivity.
Qed.

(** What [start_password_login] does when the lookup may not be told. *)
Lemma start_undisclosed header payload length c x h attempt password password_length text :
  la_active (login c) = false → state c = FTAP_STATE_HELLO_COMPLETE →
  parse_password_request payload length = Some (Some (attempt, password, password_length)) →
  buf_read password 0 password_length = Some text →
  undisclosed (env_lookup_login h (cstr (la_login_name attempt))) →
  ∃ attempt' hash,
    la_request_id attempt' = hdr_request_id header ∧
    start_password_login header payload length (c, x) h =
      Some (Done 0 (set_state FTAP_STATE_AUTHENTICATING (set_login (la_activate job attempt') c), x)
        (SubmitVerify (token_of c (hdr_request_id header)) hash text (AUTHD_WORKER_SUBMIT_OK, job)
         :: LookupLogin (cstr (la_login_name attempt))
              (env_lookup_login h (cstr (la_login_name attempt))) :: h)).
Proof.
  intros Hl Hst Hparse Hread (Htyped & Hne & Hth). unfold start_password_login.
  unfold bind at 1. unfold client, gets. cbn [fst snd]. rewrite Hl, Hst.
  rewrite bool_decide_eq_true_2 by done. cbn [negb orb]. unfold bind at 1, lift at 1. rewrite Hparse.
  unfold bind at 1, authd_database_lookup_login, service. cbn [la_login_name la_set_request_id].
  destruct (env_lookup_login h (cstr (la_login_name attempt))) as [lookup_result record].
  cbn [fst snd] in *. rewrite bool_decide_eq_false_2 by done.
  destruct (decide (lookup_result = AUTHD_DATABASE_LOOKUP_OK)) as [->|Hnok].
  - rewrite bool_decide_eq_true_2 by done. destruct (availability_runs record Htyped) as [availability Hav].
    rewrite Hav in Hth. unfold bind at 1, lift at 1. rewrite Hav. cbn [andb].
    rewrite (bool_decide_eq_false_2 (availability = _)) by (intros ->; by apply Hth).
    destruct (bool_decide (availability = AUTHD_LOGIN_AVAILABLE)).
    + rewrite (submit_login_runs _ _ _ _ _ text) by done.
      eexists _, _. split; [|reflexivity]. done.
    + unfold bind at 1, context, gets. rewrite (submit_login_runs _ _ _ _ _ text) by done.
      eexists _, _. split; [|reflexivity]. done.
  - rewrite bool_decide_eq_false_2 by done. unfold bind at 1, ret at 1. cbn [andb].
    unfold bind at 1, context, gets. rewrite (submit_login_runs _ _ _ _ _ text) by done.
      eexists _, _. split; [|reflexivity]. done.
Qed.
End start_alike.

(** Every branch of a failed login that is on record ends the same way. *)
Lemma end_login_runs request_id code c x h :
  output_ok c →
  ∃ r c', queue_error (set_state FTAP_STATE_CLOSING (login_attempt_clear c)) request_id code
      = Some (r, c') ∧
    end_login 0 request_id code (c, x) h = Some (Done r (c', x) h).
Proof.
  intros Ho.
  assert (∀ r c', queue_error (set_state FTAP_STATE_CLOSING (login_attempt_clear c)) request_id code
      = Some (r, c') → end_login 0 request_id code (c, x) h = Some (Done r (c', x) h)) as Hrun.
  { intros r c' Hq. unfold end_login, enter, respond_audited, respond, bind, assign, modify.
    cbn [fst snd negb Z.eqb]. rewrite Hq. done. }
  destruct (queue_error_responds (set_state FTAP_STATE_CLOSING (login_attempt_clear c)) request_id code)
    as [Hq|(out & l & close & _ & _ & _ & Hq)]; [done| |]; eexists _, _; (split; [exact Hq|by apply Hrun]).
Qed.

(** C38: Who asks cannot tell an unknown name, an account that may not log in and a
    wrong password apart. Whatever the database answers, as long as it answers
    and the account is not throttled, a request leads to one lookup and one job
    for the workers with the same password, and to the same connection but for
    the attempt; and when the attempt fails, be it for the account or for the
    password, the connection is the same to the last byte. *)
Theorem login_failures_alike (E1 E2 : Environment) job header payload length c x h
    attempt password password_length text attempt1 attempt2 completion1 completion2 h1 h2 :
  (* the two environments *)
  (∀ h token hash password,
    @env_submit_verify E1 h token hash password = (AUTHD_WORKER_SUBMIT_OK, job) ∧
    @env_submit_verify E2 h token hash password = (AUTHD_WORKER_SUBMIT_OK, job)) →
  undisclosed (@env_lookup_login E1 h (cstr (la_login_name attempt))) →
  undisclosed (@env_lookup_login E2 h (cstr (la_login_name attempt))) →
  (∀ h user name reason ip protocol,
    @env_audit E1 h user name reason ip protocol = AUTHD_DATABASE_WRITE_OK) →
  (∀ h user policy ip protocol,
    @env_record_failure E2 h user policy ip protocol = AUTHD_DATABASE_WRITE_OK) →
  (* the request *)
  output_ok c → la_active (login c) = false → state c = FTAP_STATE_HELLO_COMPLETE →
  parse_password_request payload length = Some (Some (attempt, password, password_length)) →
  buf_read password 0 password_length = Some text →
  (* the two failures *)
  la_request_id attempt1 = la_request_id attempt2 → la_deferred_rejection attempt1 = true →
  la_deferred_rejection attempt2 = false → wc_password_result completion2 = AUTHD_PASSWORD_MISMATCH →
  (∃ c1 c2 hash1 hash2 name answer1 answer2,
     @start_password_login E1 header payload length (c, x) h =
       Some (Done 0 (c1, x) (SubmitVerify (token_of c (hdr_request_id header)) hash1 text
         (AUTHD_WORKER_SUBMIT_OK, job) :: LookupLogin name answer1 :: h)) ∧
     @start_password_login E2 header payload length (c, x) h =
       Some (Done 0 (c2, x) (SubmitVerify (token_of c (hdr_request_id header)) hash2 text
         (AUTHD_WORKER_SUBMIT_OK, job) :: LookupLogin name answer2 :: h)) ∧
     login_attempt_clear c1 = login_attempt_clear c2 ∧
     la_request_id (login c1) = la_request_id (login c2)) ∧
  (∃ r c' e1 e2,
     @complete_password_login E1 completion1 (set_login attempt1 c, x) h1 =
       Some (Done r (c', x) (e1 :: h1)) ∧
     @complete_password_login E2 completion2 (set_login attempt2 c, x) h2 =
       Some (Done r (c', x) (e2 :: h2)) ∧
     recorded e1 = true ∧ recorded e2 = true).
Proof.
  intros Hsub Hu1 Hu2 Haudit Hrecord Ho Hl Hst Hparse Hread Hreq Hd1 Hd2 Hmis. split.
  - destruct (@start_undisclosed E1 job (λ h t ha p, proj1 (Hsub h t ha p)) header payload length c x h
      attempt password password_length text) as (a1 & hash1 & Hq1 & Hr1); [done..|].
    destruct (@start_undisclosed E2 job (λ h t ha p, proj2 (Hsub h t ha p)) header payload length c x h
      attempt password password_length text) as (a2 & hash2 & Hq2 & Hr2); [done..|].
    eexists _, _, _, _, _, _, _. split; [exact Hr1|]. split; [exact Hr2|]. split; [done|].
    cbn. congruence.
  - destruct (end_login_runs (la_request_id attempt1) FTAP_ERR_INVALID_CREDENTIALS
      (set_login attempt1 c) x
      (AuditLoginRejection (if la_record_loaded attempt1 && negb (bool_decide
           (la_rejection_reason attempt1 = AUTHD_LOGIN_REJECTION_UNKNOWN_USER))
         then Some (lr_user_id (la_record attempt1)) else None) (cstr (la_login_name attempt1))
         (la_rejection_reason attempt1) (text_of (login_source_ip attempt1))
         (cstr (la_protocol attempt1)) AUTHD_DATABASE_WRITE_OK :: h1)) as (r & c' & Hq & Hrun); [done|].
    destruct (end_login_runs (la_request_id attempt2) FTAP_ERR_INVALID_CREDENTIALS
      (set_login attempt2 c) x
      (RecordPasswordFailure (lr_user_id (la_record attempt2)) (ctx_throttle_policy x)
         (text_of (login_source_ip attempt2)) (cstr (la_protocol attempt2))
         AUTHD_DATABASE_WRITE_OK :: h2)) as (r2 & c2 & Hq2 & Hrun2); [done|].
    change (login_attempt_clear (set_login attempt2 c)) with (login_attempt_clear (set_login attempt1 c)) in Hq2.
    rewrite <- Hreq, Hq in Hq2. injection Hq2 as <- <-.
    exists r, c'. eexists _, _. split; [|split; [|split]].
    + unfold complete_password_login. unfold bind at 1, client, gets. cbn [fst snd login set_login].
      rewrite Hd1. unfold audit_login_rejection, authd_database_audit_login_rejection, bind, service, ret.
      rewrite Haudit. exact Hrun.
    + unfold complete_password_login. unfold bind at 1, client, gets. cbn [fst snd login set_login].
      rewrite Hd2, Hmis. unfold authd_database_record_password_failure, bind, service, context, gets.
      rewrite Hrecord. exact Hrun2.
    + done.
    + done.
Qed.

(** ** The two halves of a login *)

(** C23: [start_password_login] is never stuck, keeps the invariant of the daemon,
    and either hands the password to the workers right after it looked the
    name up, or refuses the login; every refusal after a successful lookup is
    on record in the database, unless the database failed. *)
Theorem start_password_login_correct `{EnvironmentLaws} config F s h header payload tail :
  working config F s h → bytes_ok (payload ++ tail) → zlen payload <= FTAP_MAX_PAYLOAD_SIZE →
  wp (λ _, False) (start_password_login header (Some (payload ++ tail)) (zlen payload))
    (λ r s' h', working config F s' h' ∧
       ((∃ name answer, started r (fst s') (LookupLogin name answer :: h) h') ∨
        refusal (hdr_request_id header) r (fst s') h h')) s h.
Proof. apply start_password_login_spec. Qed.

(** C5: [complete_password_login], for the completion of the job of an active
    login, is never stuck and keeps the invariant of the daemon: the only
    sessions it asks for are those of accounts that may log in and whose hash
    the workers found to match. Either the connection is bound to the session
    that the database made, or the login is refused; a refusal is on record
    unless the database failed. *)
Theorem complete_password_login_correct `{EnvironmentLaws} config F s h completion :
  working config F s h → completes_login config completion (fst s) h →
  wp (λ _, False) (complete_password_login completion)
    (λ r s' h', working config F s' h' ∧
       (granted (login (fst s)) r (fst s') h h' ∨
        refusal (la_request_id (login (fst s))) r (fst s') h h')) s h.
Proof. apply complete_password_login_spec. Qed.

(** ** Sample runs *)

Definition sample_config : authd_config := Config [1000] 1 4 5000 1 8 5 900 900 true 12 600 8 3 900 30000.

Definition sample_context : authd_server_context :=
  ServerContext sample_config (ThrottlePolicy 5 900 900) one_limiter
    (example_array 256 (lit "$argon2id$dummy")).

(** A connection in slot 1 that has said HELLO. *)
Definition sample_client : authd_client :=
  Client 5 1 1 FTAP_STATE_HELLO_COMPLETE (PeerCredentials 1 1000 1000)
    (Some (zeros FTAP_MAX_FRAME_SIZE)) 0 0 (zeros AUTHD_RESPONSE_BUFFER_SIZE) 0 0 false 0
    zero_login_attempt zero_registration_attempt false zero_terminal_session zero_bound_session
    (zeros (FTAP_ENDED_REASON_MAX + 1)).

Definition sample_frame : frame := Frame 1 ∅ ∅.

Lemma sample_client_ok : client_ok sample_client.
Proof.
  split.
  - apply zeros_ok. vm_compute. congruence.
  - cbn [sample_client output_offset output_length]. unfold AUTHD_RESPONSE_BUFFER_SIZE. lia.
  - split; [apply zeros_ok; vm_compute; congruence|].
    cbn [sample_client fd input_used]. unfold FTAP_MAX_FRAME_SIZE, FTAP_FRAME_HEADER_SIZE, FTAP_MAX_PAYLOAD_SIZE. lia.
  - exact zero_attempt_typed.
  - apply zeros_ok. vm_compute. congruence.
  - exact zero_registration_typed.
  - exact zero_session_ok.
  - exact zero_bound_typed.
  - apply zeros_ok. vm_compute. congruence.
  - split; cbn [sample_client login registration session_open fd la_active ra_active
      zero_login_attempt zero_registration_attempt]; [discriminate|discriminate|discriminate|lia|].
    intros _. left. reflexivity.
Qed.

Lemma sample_working : working sample_config sample_frame (sample_client, sample_context) [].
Proof.
  split; [|vm_compute; congruence]. split.
  - exact sample_client_ok.
  - split; reflexivity.
  - reflexivity.
  - split; apply empty_subseteq.
  - split; discriminate.
  - exact I.
Qed.

Definition quiet_sample (lookup : authd_database_lookup_result) : sample :=
  Sample lookup (λ _, None) (λ _, []) (λ _, []).

Lemma quiet_sample_laws lookup : @EnvironmentLaws (sample_environment (quiet_sample lookup)).
Proof. apply sample_laws; [discriminate|constructor]. Qed.

Definition known := sample_environment (quiet_sample AUTHD_DATABASE_LOOKUP_OK).
Definition unknown := sample_environment (quiet_sample AUTHD_DATABASE_LOOKUP_NOT_FOUND).

Lemma start_password_login_correct_witness :
  working sample_config sample_frame (sample_client, sample_context) [] ∧
  ∃ s h, @start_password_login known (example_header (payload_of example_login))
      (Some (payload_of example_login ++ [])) (zlen (payload_of example_login))
      (sample_client, sample_context) [] = Some (Done 0 s h) ∧
    state (fst s) = FTAP_STATE_AUTHENTICATING ∧ authorised sample_config h.
Proof.
  split; [exact sample_working|].
  assert (match @start_password_login known (example_header (payload_of example_login))
      (Some (payload_of example_login ++ [])) (zlen (payload_of example_login))
      (sample_client, sample_context) [] with
    | Some (Done r s h) => Some (r, state (fst s)) | _ => None end
    = Some (0, FTAP_STATE_AUTHENTICATING)) as Hrun by (vm_compute; reflexivity).
  destruct (wp_ends _ _ _ _ (@start_password_login_correct known (quiet_sample_laws _) sample_config
    sample_frame (sample_client, sample_context) [] (example_header (payload_of example_login))
    (payload_of example_login) [] sample_working
    ltac:(apply (bool_decide_unpack _); vm_compute; exact I) ltac:(vm_compute; congruence)))
    as (r & s & h & E & Hw & _).
  rewrite E in Hrun. injection Hrun as -> Hst. exists s, h. split; [exact E|]. split; [exact Hst|].
  exact (working_authorised _ _ _ _ Hw).
Defined.

(** The workers found the password to match. *)
Definition sample_completion : authd_worker_completion :=
  WorkerCompletion 1 (WorkerToken 1 1 1) AUTHD_WORKER_JOB_VERIFY_PASSWORD AUTHD_PASSWORD_OK false
    (zeros (AUTHD_WORKER_HASH_MAX_BYTES + 1)).

Definition sample_attempt : authd_login_attempt :=
  la_activate 1 (la_set_record_loaded true (la_set_record example_record
    (la_set_request_id 1 example_attempt))).

(** The connection of [sample_client] while its password is checked. *)
Definition sample_authenticating : conn :=
  (set_state FTAP_STATE_AUTHENTICATING (set_login sample_attempt sample_client), sample_context).

Definition sample_history : list event :=
  [TakeCompletion (Some sample_completion);
   SubmitVerify (WorkerToken 1 1 1) (cstr (lr_password_hash example_record)) (lit "trinity")
     (AUTHD_WORKER_SUBMIT_OK, 1);
   LookupLogin (lit "neo.42") (AUTHD_DATABASE_LOOKUP_OK, example_record)].

Lemma sample_tracked_at h :
  h = [] ∨ h = [TakeCompletion (Some sample_completion)] →
  tracked sample_config (fst sample_authenticating) (h ++ drop 1 sample_history).
Proof.
  intros Hh. split; [|discriminate..]. intros _. split.
  - exists (AUTHD_DATABASE_LOOKUP_OK, example_record). split.
    + apply elem_of_app. right. right. left.
    + intros id [= <-]. split; reflexivity.
  - intros _. split; [vm_compute; reflexivity|]. exists h, (lit "trinity"), []. reflexivity.
Qed.

Lemma sample_authenticating_working :
  working sample_config sample_frame sample_authenticating sample_history.
Proof.
  destruct sample_working as [[[Hc1 Hc2 Hc3 _ Hc5 Hc6 Hc7 Hc8 Hc9 _] Hx Hi _ _ _] Hfd].
  split; [|exact Hfd]. split.
  - split; try assumption; [split; [exact example_record_typed|by apply bytes_ok_decide]|].
    split; [intros _; split; [reflexivity|split; [reflexivity|by left]]|discriminate|discriminate|cbn; lia|].
    intros _. left. reflexivity.
  - exact Hx.
  - exact Hi.
  - split; apply empty_subseteq.
  - apply (sample_tracked_at [TakeCompletion (Some sample_completion)]). by right.
  - split; [exact I|]. split; [exact I|]. split; exact I.
Qed.

Lemma sample_completes :
  completes_login sample_config sample_completion (fst sample_authenticating) sample_history.
Proof.
  split; try reflexivity. eexists. split; [reflexivity|]. apply (sample_tracked_at []). by left.
Qed.

Lemma complete_password_login_correct_witness :
  working sample_config sample_frame sample_authenticating sample_history ∧
  ∃ r s h, @complete_password_login known sample_completion sample_authenticating sample_history
      = Some (Done r s h) ∧
    authorised sample_config h ∧ session_open (fst s) = true ∧ zlen (outgoing (fst s)) = 145.
Proof.
  split; [exact sample_authenticating_working|].
  assert (match @complete_password_login known sample_completion sample_authenticating
      sample_history with
    | Some (Done r s h) => Some (session_open (fst s), zlen (outgoing (fst s))) | _ => None end
    = Some (true, 145)) as Hrun by (vm_compute; reflexivity).
  destruct (wp_ends _ _ _ _ (@complete_password_login_correct known (quiet_sample_laws _) sample_config
    sample_frame sample_authenticating sample_history sample_completion sample_authenticating_working
    sample_completes)) as (r & s & h & E & Hw & _).
  rewrite E in Hrun. injection Hrun as Hopen Hout. exists r, s, h. split; [exact E|].
  split; [exact (working_authorised _ _ _ _ Hw)|]. split; [exact Hopen|exact Hout].
Defined.

(** What the request of [example_login] is parsed to. *)
Definition parsed_example : authd_login_attempt * list Z * Z :=
  match parse_password_request (Some (payload_of example_login)) (zlen (payload_of example_login)) with
  | Some (Some r) => r
  | _ => (zero_login_attempt, [], 0)
  end.

Lemma login_failures_alike_witness :
  let deferred := la_defer AUTHD_LOGIN_REJECTION_UNKNOWN_USER zero_login_attempt in
  let mismatch := WorkerCompletion 1 (WorkerToken 1 1 1) AUTHD_WORKER_JOB_VERIFY_PASSWORD
    AUTHD_PASSWORD_MISMATCH false [] in
  ∃ r c' e1 e2,
    @complete_password_login unknown sample_completion (set_login deferred sample_client, sample_context) []
      = Some (Done r (c', sample_context) [e1]) ∧
    @complete_password_login known mismatch (set_login zero_login_attempt sample_client, sample_context) []
      = Some (Done r (c', sample_context) [e2]) ∧ recorded e1 = true ∧ recorded e2 = true.
Proof.
  intros deferred mismatch. unshelve refine (proj2 (@login_failures_alike unknown known 1
    (example_header (payload_of example_login)) (Some (payload_of example_login))
    (zlen (payload_of example_login)) sample_client sample_context [] (fst (fst parsed_example))
    (snd (fst parsed_example)) (snd parsed_example) (lit "trinity") deferred zero_login_attempt
    sample_completion mismatch [] [] _ _ _ _ _ _ _ _ _ _ _ _ _ _)); try reflexivity.
  - intros. split; reflexivity.
  - split; [exact zero_record_typed|]. split; discriminate.
  - split; [exact example_record_typed|]. split; [discriminate|]. intros _.
    assert (authd_login_record_availability (Some example_record) = Some AUTHD_LOGIN_AVAILABLE) as Ha
      by (vm_compute; reflexivity). cbn [snd]. change (snd _) with example_record. rewrite Ha. discriminate.
Defined.
