(* ===== verification/Registration.v ===== *)
(** * Registrations

    [fortytwo-auth/src/authd_server.c]: the clock, the random generator, and
    the registration of an account over a connection: [start_registration] and
    [complete_registration_hash], the two halves of the asynchronous begin, and
    [commit_registration] and [abort_registration].

    The loops of the random generator go on as long as the system interrupts
    the call or delivers bytes that are not accepted: they take fuel. *)

From S2P Require Import Prelude Protocol Words Utf8 Codec Inet Schema Identity Throttle Limiter Program Services Client Requests Connection Login.

(** ** Definitions *)

Section system.
Context `{Environment} {S : Type}.
Abbreviation program := (prog event S) (only parsing).

(** The milliseconds, or [None] for the result -1. *)
Definition monotonic_milliseconds : program (option Z) :=
  let* now := clock_gettime in
  match now with
  | None => ret None
  | Some (tv_sec, tv_nsec) =>
      if (tv_sec <? 0) || (tv_nsec <? 0) then ret None
      else
        let seconds := u64 tv_sec in
        let nanos := u64 tv_nsec in
        if (UINT64_MAX - nanos / 1000000) / 1000 <? seconds then ret None
        else ret (Some (u64 (u64 (seconds * 1000) + nanos / 1000000)))
  end.

(** One iteration of [random_bytes]; the locals are the buffer and how far it is
    filled. [None] is the result -1. *)
Definition random_bytes_step (l : list Z * Z) : program (list Z * Z + option (list Z)) :=
  let (buffer, position) := l in
  let remaining := zlen buffer - position in
  if remaining <=? 0 then ret (inr (Some buffer))
  else
    let* count := getrandom remaining in
    match count with
    | inl bytes =>
        if 0 <? zlen bytes then
          let* buffer := lift (buf_write buffer position bytes) in
          ret (inl (buffer, position + zlen bytes))
        else ret (inr None)
    | inr EINTR => ret (inl (buffer, position))
    | inr _ => ret (inr None)
    end.

Definition random_bytes (fuel : nat) (buffer : list Z) : program (option (list Z)) :=
  iterate fuel random_bytes_step (buffer, 0).

Definition alphabet_size : Z := zlen AUTHD_LEGACY_RANDOM_ALPHABET.
Definition accepted_limit : Z := 256 - 256 mod alphabet_size.

(** The inner loop of [generate_random_legacy_name]; its locals are the name and
    [produced]. *)
Definition random_letter (random_buffer : list Z) (index : Z) (l : list Z * Z)
    : run (ctl (list Z * Z) Empty_set) :=
  let (legacy_name, produced) := l in
  if AUTHD_LEGACY_RANDOM_LENGTH <=? produced then Some (Break l)
  else
    let! value := buf_get random_buffer index in
    if accepted_limit <=? value then Some (Continue l)
    else
      let! letter := buf_get AUTHD_LEGACY_RANDOM_ALPHABET (value mod alphabet_size) in
      let! legacy_name := buf_set legacy_name produced letter in
      Some (Continue (legacy_name, produced + 1)).

Definition random_letters (random_buffer legacy_name : list Z) (produced : Z) : run (list Z * Z) :=
  let! c := for_range 32 0 (random_letter random_buffer) (legacy_name, produced) in
  Some (ctl_value c).

Definition random_name_step (fuel : nat) (l : list Z * Z) : program (list Z * Z + option (list Z)) :=
  let (legacy_name, produced) := l in
  if produced <? AUTHD_LEGACY_RANDOM_LENGTH then
    let* random_buffer := random_bytes fuel (zeros 32) in
    match random_buffer with
    | None => ret (inr None)
    | Some random_buffer =>
        let* l := lift (random_letters random_buffer legacy_name produced) in
        ret (inl l)
    end
  else
    let* legacy_name := lift (buf_set legacy_name produced 0) in
    ret (inr (Some legacy_name)).

(** The array that holds the name, or [None] for the result -1. *)
Definition generate_random_legacy_name (fuel : nat) (legacy_name : list Z) : program (option (list Z)) :=
  iterate fuel (random_name_step fuel) (legacy_name, 0).
End system.

(** Assignments to members of an attempt. *)
Definition ra_activate request_id job_id (a : authd_registration_attempt) : authd_registration_attempt :=
  RegistrationAttempt true (ra_database_pending a) request_id job_id
    (ra_login_name a) (ra_display_name a) (ra_protocol a) (ra_source_ip a) (ra_tty_device a)
    (ra_node_id a) (ra_tty_device_set a) (ra_node_id_set a) (ra_deadline_ms a) (ra_record a).
Definition ra_set_pending record (a : authd_registration_attempt) : authd_registration_attempt :=
  RegistrationAttempt (ra_active a) true (ra_request_id a) 0
    (ra_login_name a) (ra_display_name a) (ra_protocol a) (ra_source_ip a) (ra_tty_device a)
    (ra_node_id a) (ra_tty_device_set a) (ra_node_id_set a) (ra_deadline_ms a) record.
Definition ra_set_deadline v (a : authd_registration_attempt) : authd_registration_attempt :=
  RegistrationAttempt (ra_active a) (ra_database_pending a) (ra_request_id a) (ra_worker_job_id a)
    (ra_login_name a) (ra_display_name a) (ra_protocol a) (ra_source_ip a) (ra_tty_device a)
    (ra_node_id a) (ra_tty_device_set a) (ra_node_id_set a) v (ra_record a).

Definition registration_tty_device (attempt : authd_registration_attempt) : ptr :=
  if ra_tty_device_set attempt then Some (ra_tty_device attempt) else None.

Definition registration_node_id (attempt : authd_registration_attempt) : ptr :=
  if ra_node_id_set attempt then Some (ra_node_id attempt) else None.

Definition login_name_fits_legacy_key (login_name : ptr) : bool :=
  match login_name with
  | None => false
  | Some name => (0 <? strlen name) && (strlen name <=? FTAP_LEGACY_NAME_MAX)
  end.

Section registration.
Context `{Environment} `{Inet} (fuel : nat).

(** The limiter of the daemon counts the attempt. *)
Definition limit_registration (source_ip : list Z) (now_ms : Z)
    : handler (authd_registration_limit_result * Z) :=
  let* x := context in
  let* (limit_result, limiter, retry_after_seconds) :=
    lift (authd_registration_limiter_record (Some (ctx_registration_limiter x)) (Some source_ip)
            (now_ms / 1000) (Some 0)) in
  let* limiter := lift (deref limiter) in
  let* retry_after_seconds := lift (deref retry_after_seconds) in
  do* assign_context (λ x, ServerContext (ctx_config x) (ctx_throttle_policy x) limiter
                             (ctx_dummy_password_hash x)) in
  ret (limit_result, retry_after_seconds).

Definition submit_registration (attempt : authd_registration_attempt) (password : list Z)
    (password_length request_id : Z) : handler Z :=
  let* c := client in
  let* (submit_result, job_id) := authd_worker_pool_submit_generate
    (WorkerToken (connection_id c) (connection_generation c) request_id) password password_length in
  if negb (bool_decide (submit_result = AUTHD_WORKER_SUBMIT_OK))
  then reject request_id FTAP_ERR_INTERNAL
  else
    do* assign (set_registration (ra_activate request_id job_id attempt)) in
    do* enter FTAP_STATE_REGISTERING in
    ret 0.

Definition start_registration (header : ftap_frame_header) (payload : ptr) (payload_length : Z)
    : handler Z :=
  let request_id := hdr_request_id header in
  let* c := client in
  let* x := context in
  if ra_active (registration c) || la_active (login c)
     || negb (bool_decide (state c = FTAP_STATE_HELLO_COMPLETE))
  then reject request_id FTAP_ERR_INVALID_STATE
  else if negb (cfg_registration_enabled (ctx_config x))
  then reject request_id FTAP_ERR_ACCESS_DENIED
  else
    let* parsed := lift (parse_registration_begin_request payload payload_length) in
    match parsed with
    | None => reject request_id FTAP_ERR_PROTOCOL
    | Some (attempt, password, password_length) =>
        let* now_ms := monotonic_milliseconds in
        match now_ms with
        | None => reject request_id FTAP_ERR_INTERNAL
        | Some now_ms =>
            let* (limit_result, retry_after_seconds) :=
              limit_registration (ra_source_ip attempt) now_ms in
            if negb (bool_decide (limit_result = AUTHD_REGISTRATION_LIMIT_ALLOWED)) then
              do* enter FTAP_STATE_CLOSING in
              respond (λ c, queue_error_with_retry c request_id FTAP_ERR_RATE_LIMITED
                              (u64 (u64 retry_after_seconds * 1000)))
            else if password_length <? cfg_registration_min_password_bytes (ctx_config x)
            then reject request_id FTAP_ERR_PASSWORD_POLICY
            else submit_registration attempt password password_length request_id
        end
    end.

(** The loop over the candidates for the legacy name; its locals are the index,
    the name, the result and the registration. *)
Definition candidate_locals : Type :=
  Z * list Z * authd_database_registration_result * authd_registration_begin_result.

Definition candidate_step (attempt : authd_registration_attempt) (encoded_hash : list Z)
    (direct_candidate : bool) (l : candidate_locals)
    : handler (candidate_locals +
               authd_database_registration_result * authd_registration_begin_result) :=
  let '(candidate_index, legacy_name, result, registration) := l in
  if candidate_index <? AUTHD_LEGACY_RANDOM_ATTEMPTS + (if direct_candidate then 1 else 0) then
    let* candidate :=
      if (candidate_index =? 0) && direct_candidate then
        let* name := lift (buf_read (ra_login_name attempt) 0 (strlen (ra_login_name attempt) + 1)) in
        let* legacy_name := lift (buf_write legacy_name 0 name) in
        ret (Some legacy_name)
      else generate_random_legacy_name fuel legacy_name in
    match candidate with
    | None => ret (inr (AUTHD_DATABASE_REGISTRATION_ERROR, registration))
    | Some legacy_name =>
        let* x := context in
        let* (result, registration) :=
          authd_database_begin_registration (ra_login_name attempt) (ra_display_name attempt)
            encoded_hash legacy_name (ra_source_ip attempt) (registration_tty_device attempt)
            (registration_node_id attempt) (cfg_registration_timeout_seconds (ctx_config x))
            (cfg_registration_max_pending (ctx_config x)) in
        if negb (bool_decide (result = AUTHD_DATABASE_REGISTRATION_LEGACY_CONFLICT))
        then ret (inr (result, registration))
        else ret (inl (candidate_index + 1, legacy_name, result, registration))
    end
  else ret (inr (result, registration)).

(** At most 16 random names and the login name: the fuel of this loop is never
    used up. *)
Definition begin_registration (attempt : authd_registration_attempt) (encoded_hash : list Z)
    : handler (authd_database_registration_result * authd_registration_begin_result) :=
  iterate 18
    (candidate_step attempt encoded_hash (login_name_fits_legacy_key (Some (ra_login_name attempt))))
    (0, zeros (FTAP_LEGACY_NAME_MAX + 1), AUTHD_DATABASE_REGISTRATION_ERROR, zero_registration_begin).

(** [registration_attempt_clear(attempt); client->state = FTAP_STATE_CLOSING;
    return queue_error(...)] *)
Definition end_registration (request_id error_code : Z) : handler Z :=
  do* assign registration_attempt_clear in
  reject request_id error_code.

(** The branch of [complete_registration_hash] for a registration that the
    database has reserved. *)
Definition bind_registration (request_id : Z) (r : authd_registration_begin_result) : handler Z :=
  do* assign (λ c, set_registration (ra_set_pending r (registration c)) c) in
  let* now_ms := monotonic_milliseconds in
  let* x := context in
  let timeout_ms := u64 (u64 (cfg_registration_timeout_seconds (ctx_config x)) * 1000) in
  match now_ms with
  | Some now_ms =>
      if UINT64_MAX - now_ms <? timeout_ms then
        let* _ := authd_database_abort_registration (rb_registration_id r) (rb_user_id r)
          FTAP_REGISTRATION_REASON_INTERNAL_ERROR in
        end_registration request_id FTAP_ERR_INTERNAL
      else
        do* assign (λ c, set_registration (ra_set_deadline (u64 (now_ms + timeout_ms)) (registration c)) c) in
        let* queued := respond (λ c, queue_registration_begin_result c request_id r) in
        if negb (queued =? 0) then ret (-1)
        else
          do* enter FTAP_STATE_REGISTERING in
          ret 0
  | None =>
      let* _ := authd_database_abort_registration (rb_registration_id r) (rb_user_id r)
        FTAP_REGISTRATION_REASON_INTERNAL_ERROR in
      end_registration request_id FTAP_ERR_INTERNAL
  end.

Definition complete_registration_hash (completion : authd_worker_completion) : handler Z :=
  let* c := client in
  let attempt := registration c in
  let request_id := ra_request_id attempt in
  let* first :=
    if negb (bool_decide (wc_password_result completion = AUTHD_PASSWORD_OK)) then ret 0
    else lift (buf_get (wc_encoded_hash completion) 0) in
  if first =? 0 then end_registration request_id FTAP_ERR_INTERNAL
  else
    let* (result, r) := begin_registration attempt (wc_encoded_hash completion) in
    match result with
    | AUTHD_DATABASE_REGISTRATION_OK => bind_registration request_id r
    | AUTHD_DATABASE_REGISTRATION_NAME_UNAVAILABLE =>
        end_registration request_id FTAP_ERR_LOGIN_NAME_UNAVAILABLE
    | AUTHD_DATABASE_REGISTRATION_LIMIT_REACHED => end_registration request_id FTAP_ERR_RATE_LIMITED
    | AUTHD_DATABASE_REGISTRATION_ERROR => end_registration request_id FTAP_ERR_DATABASE_UNAVAILABLE
    | _ => end_registration request_id FTAP_ERR_INTERNAL
    end.

(** [parse_registration_id(...) && memcmp(registration_id, ..., FTAP_UUID_SIZE) == 0]
    for the registration of the connection; the result has the reason. *)
Definition requested_registration (payload : ptr) (payload_length : Z) (reason : ptr)
    : handler (option ptr) :=
  let* c := client in
  if negb (ra_active (registration c)) || negb (ra_database_pending (registration c)) then ret None
  else
    let* parsed := lift (parse_registration_id payload payload_length reason) in
    match parsed with
    | None => ret None
    | Some (registration_id, reason) =>
        if bool_decide (registration_id = rb_registration_id (ra_record (registration c)))
        then ret (Some reason) else ret None
    end.

(** The errors of a failed commit or abort. *)
Definition registration_error_code (result : authd_database_registration_result) : Z :=
  match result with
  | AUTHD_DATABASE_REGISTRATION_ERROR => FTAP_ERR_DATABASE_UNAVAILABLE
  | AUTHD_DATABASE_REGISTRATION_NOT_FOUND | AUTHD_DATABASE_REGISTRATION_STALE_STATE =>
      FTAP_ERR_ACCOUNT_UNAVAILABLE
  | _ => FTAP_ERR_INTERNAL
  end.

(** The session of a commit is stored and its names are copied. *)
Definition bind_registration_session (commit : authd_registration_commit_result)
    (c : authd_client) : authd_client :=
  let context := session_context c in
  set_session_context
    (BoundSession (snprintf_s (bs_login_name context) (rc_login_name commit))
       (snprintf_s (bs_display_name context) (rc_display_name commit))
       (snprintf_s (bs_legacy_name context) (rc_legacy_name commit))
       (snprintf_s (bs_protocol context) FTAP_PROTOCOL_TELNET)
       (snprintf_s (bs_auth_method context) FTAP_AUTH_METHOD_PASSWORD))
    (set_session_open true (set_session (rc_session commit) c)).

Definition commit_registration (header : ftap_frame_header) (payload : ptr) (payload_length : Z)
    : handler Z :=
  let request_id := hdr_request_id header in
  let* requested := requested_registration payload payload_length None in
  if is_null requested then reject request_id FTAP_ERR_INVALID_STATE
  else
    let* c := client in
    let attempt := registration c in
    let* (result, commit) := authd_database_commit_registration (ra_record attempt)
      (ra_source_ip attempt) (registration_tty_device attempt) (registration_node_id attempt) in
    if negb (bool_decide (result = AUTHD_DATABASE_REGISTRATION_OK))
    then reject request_id (registration_error_code result)
    else
      do* assign (bind_registration_session commit) in
      do* assign registration_attempt_clear in
      do* enter FTAP_STATE_SESSION_BOUND in
      let* queued := respond (λ c, queue_registration_commit_result c request_id commit) in
      if negb (queued =? 0) then
        do* assign (λ c, set_pending_end_reason
          (snprintf_s (pending_end_reason c) (lit "registration_commit_response_failed")) c) in
        ret (-1)
      else ret 0.

Definition abort_registration (header : ftap_frame_header) (payload : ptr) (payload_length : Z)
    : handler Z :=
  let request_id := hdr_request_id header in
  let* requested := requested_registration payload payload_length
    (Some (zeros (FTAP_REGISTRATION_REASON_MAX + 1))) in
  match requested with
  | None => reject request_id FTAP_ERR_INVALID_STATE
  | Some reason =>
      let reason := default FTAP_REGISTRATION_REASON_CLIENT_CANCELLED reason in
      let* c := client in
      let r := ra_record (registration c) in
      let* result := authd_database_abort_registration (rb_registration_id r) (rb_user_id r) reason in
      if negb (bool_decide (result = AUTHD_DATABASE_REGISTRATION_OK))
      then reject request_id (registration_error_code result)
      else
        do* assign registration_attempt_clear in
        do* enter FTAP_STATE_HELLO_COMPLETE in
        respond (λ c, queue_registration_abort_result c request_id r)
  end.
End registration.

(** ** The clock *)

Section system_specs.
Context `{Environment} {S : Type}.

(** The calls of these functions only look at the world. *)
Definition kept_by (ask : event → Prop) (I : list event → Prop) : Prop :=
  ∀ e h, ask e → I h → I (e :: h).

Definition clock_call (e : event) : Prop := ∃ answer, e = ClockGettime answer.
Definition random_call (e : event) : Prop := ∃ size answer, e = Getrandom size answer.

Lemma monotonic_spec E (I : list event → Prop) (s : S) h :
  I h → kept_by clock_call I →
  wp E monotonic_milliseconds
    (λ r s' h', s' = s ∧ I h' ∧ (∃ answer, h' = ClockGettime answer :: h) ∧
       ∀ ms, r = Some ms → fits 64 ms) s h.
Proof.
  intros Hi Hk. unfold monotonic_milliseconds. wp_step. apply wp_service. intros now _.
  assert (I (ClockGettime now :: h)) as Hi' by (apply Hk; [by eexists|done]).
  destruct now as [[sec nsec]|]; [|wp_step; split_and!; eauto; done].
  repeat case_if; wp_step; split_and!; eauto; try done.
  intros ms [= <-]. by apply fits_wrap.
Qed.

(** The milliseconds of an answer of the clock, if they have 64 bits. *)
Definition now_at (answer : option (Z * Z)) (ms : Z) : Prop :=
  ∃ sec nsec, answer = Some (sec, nsec) ∧ 0 <= sec ∧ 0 <= nsec ∧
    ms = u64 sec * 1000 + u64 nsec / 1000000 ∧ ms <= UINT64_MAX.

Lemma milliseconds_fit seconds milliseconds :
  0 <= seconds → 0 <= milliseconds <= UINT64_MAX →
  if (UINT64_MAX - milliseconds) / 1000 <? seconds then UINT64_MAX < seconds * 1000 + milliseconds
  else seconds * 1000 + milliseconds <= UINT64_MAX ∧
       u64 (u64 (seconds * 1000) + milliseconds) = seconds * 1000 + milliseconds.
Proof.
  intros Hs Hn. unfold UINT64_MAX in *. set (rest := _ - milliseconds).
  pose proof (Z.div_mod rest 1000 ltac:(done)). pose proof (Z.mod_pos_bound rest 1000 ltac:(done)).
  destruct (Z.ltb_spec (rest / 1000) seconds); [lia|]. split; [lia|].
  unfold u64. rewrite !wrap_fits; [done|unfold fits; change (2 ^ 64) with 18446744073709551616; lia|].
  rewrite wrap_fits; unfold fits; change (2 ^ 64) with 18446744073709551616; lia.
Qed.

Lemma monotonic_now_spec E (s : S) h :
  wp E monotonic_milliseconds
    (λ r s' h', s' = s ∧ ∃ answer, h' = ClockGettime answer :: h ∧ ∀ ms, r = Some ms ↔ now_at answer ms) s h.
Proof.
  unfold monotonic_milliseconds. wp_step. apply wp_service. intros now _.
  destruct now as [[sec nsec]|].
  2:{ wp_step. split; [done|]. eexists. split; [done|]. intros ms. split; [done|]. by intros (? & ? & [=] & _). }
  destruct (_ || _) eqn:Hneg.
  { wp_step. split; [done|]. eexists. split; [done|]. intros ms. split; [done|].
    intros (? & ? & [= <- <-] & ? & ? & _). bools. destruct Hneg; bools; lia. }
  bools. destruct (fits_wrap 64 sec ltac:(done)) as [Hs0 _]. destruct (fits_wrap 64 nsec ltac:(done)) as [Hn0 Hn].
  change (wrap 64) with u64 in *. cbv zeta.
  assert (0 <= u64 nsec / 1000000 <= UINT64_MAX) as Hms.
  { split; [by apply Z.div_pos|]. apply Z.div_le_upper_bound; [done|]. unfold UINT64_MAX.
    change (2 ^ 64) with 18446744073709551616 in Hn. lia. }
  pose proof (milliseconds_fit (u64 sec) (u64 nsec / 1000000) Hs0 Hms) as Hfit. revert Hfit.
  destruct (_ <? u64 sec); intros Hfit; (wp_step; split; [done|]; eexists; split; [done|]); intros ms;
    (split; [intros [= <-]|intros (? & ? & [= <- <-] & ? & ? & -> & ?)]).
  - lia.
  - destruct Hfit as [Hle ->]. exists sec, nsec. by split_and!.
  - by destruct Hfit as [_ ->].
Qed.

(** The result is exact: no step of the conversion wraps around, and the call
    fails when the milliseconds do not fit. *)
Lemma monotonic_exact (s : S) h sec nsec :
  env_clock h = Some (sec, nsec) → fits 63 sec → fits 63 nsec →
  let ms := sec * 1000 + nsec / 1000000 in
  monotonic_milliseconds s h =
    Some (Done (if ms <=? UINT64_MAX then Some ms else None) s
            (ClockGettime (Some (sec, nsec)) :: h)).
Proof.
  intros Hc [Hs0 Hs] [Hn0 Hn] ms. unfold monotonic_milliseconds, bind, clock_gettime, service, ret.
  rewrite Hc. cbv beta iota.
  assert (u64 sec = sec) as -> by (apply wrap_fits; split; lia).
  assert (u64 nsec = nsec) as -> by (apply wrap_fits; split; lia).
  rewrite !(proj2 (Z.ltb_ge _ 0)) by lia. cbn [orb].
  assert (0 <= nsec / 1000000) by (apply Z.div_pos; lia).
  pose proof (Z.div_mod (UINT64_MAX - nsec / 1000000) 1000 ltac:(lia)) as Hd.
  pose proof (Z.mod_pos_bound (UINT64_MAX - nsec / 1000000) 1000 ltac:(lia)) as Hm.
  destruct (Z.ltb_spec ((UINT64_MAX - nsec / 1000000) / 1000) sec) as [Hlt|Hge];
    destruct (Z.leb_spec ms UINT64_MAX) as [Hle|Hgt]; unfold ms in *; try lia; [done|].
  unfold UINT64_MAX, u64 in *. rewrite (wrap_fits 64 (sec * 1000)) by (split; lia).
  by rewrite (wrap_fits 64) by (split; lia).
Qed.

(** ** The random generator *)

(** What the system delivered, in order. *)
Fixpoint entropy (h : list event) : list Z :=
  match h with
  | [] => []
  | Getrandom _ (inl bytes) :: h => entropy h ++ bytes
  | _ :: h => entropy h
  end.

Context (Hrandom : ∀ h size bytes, env_random h size = inl bytes → bytes_ok bytes ∧ zlen bytes <= size).

(** The history since [h0] has the first [position] bytes of the buffer. *)
Definition filled (h0 : list event) (I : list event → Prop) (size : Z)
    (l : list Z * Z) (h : list event) : Prop :=
  I h ∧ ∃ new, h = new ++ h0 ∧ 0 <= snd l <= size ∧ zlen (fst l) = size ∧
    take (Z.to_nat (snd l)) (fst l) = entropy new ∧ bytes_ok (fst l).

Lemma random_bytes_spec (E I : list event → Prop) fuel buffer (s : S) h :
  I h → (∀ h, I h → E h) → kept_by random_call I → bytes_ok buffer →
  wp E (random_bytes fuel buffer)
    (λ r s' h', s' = s ∧ I h' ∧ ∃ new, h' = new ++ h ∧
       ∀ b, r = Some b → b = entropy new ∧ array_ok (zlen buffer) b) s h.
Proof.
  intros Hi HE Hk Hok. unfold random_bytes. pose proof (zlen_nonneg buffer).
  apply (wp_iterate E (λ l s' h', s' = s ∧ filled h I (zlen buffer) l h')).
  - split; [done|]. split; [done|]. exists []. split_and!; done || (cbn; lia).
  - intros l s' h' (_ & Hf & _). auto.
  - intros [b position] s' h' (-> & Hi' & new & -> & Hp & Hl & Htake & Hb). cbn [fst snd] in *.
    unfold random_bytes_step. case_if.
    { bools. wp_step. split; [done|]. split; [done|]. exists new. split; [done|].
      intros b' [= <-]. split; [|by split].
      rewrite <- Htake, take_ge; [done|]. unfold zlen in *. lia. }
    bools. wp_step. apply wp_service. intros answer Ha.
    assert (I (Getrandom (zlen b - position) answer :: new ++ h)) as Hi2
      by (apply Hk; [by eexists _, _|done]).
    destruct answer as [bytes|[]].
    + destruct (Hrandom _ _ _ (eq_sym Ha)) as [Hbytes Hlen]. case_if; bools.
      * wp_step. eapply wp_lift; [apply buf_write_in; lia|]. wp_step.
        split; [done|]. split; [done|]. exists (Getrandom (zlen b - position) (inl bytes) :: new).
        cbn [fst snd entropy]. split; [done|]. split; [lia|].
        split; [rewrite !zlen_app; unfold zlen in *; rewrite length_take, length_drop; lia|].
        split.
        -- rewrite <- Htake, app_assoc, take_app_le by (rewrite length_app, length_take; unfold zlen in *; lia).
           rewrite take_ge; [done|]. rewrite length_app, length_take. unfold zlen in *. lia.
        -- apply bytes_ok_app. split; [by apply bytes_ok_take|]. apply bytes_ok_app.
           split; [done|by apply bytes_ok_drop].
      * wp_step. split; [done|]. split; [done|]. eexists (_ :: new). split; [done|]. done.
    + wp_step. split; [done|]. split; [done|]. exists (Getrandom (zlen b - position) (inr EINTR) :: new).
      done.
    + wp_step. split; [done|]. split; [done|]. eexists (_ :: new). split; [done|]. done.
    + wp_step. split; [done|]. split; [done|]. eexists (_ :: new). split; [done|]. done.
Qed.

(** ** Random legacy names

    The reference: the bytes below 248 select a letter each. *)

Definition letter_of (b : Z) : Z := nth (Z.to_nat (b mod alphabet_size)) AUTHD_LEGACY_RANDOM_ALPHABET 0.

Definition accepted_letters (bytes : list Z) : list Z :=
  map letter_of (filter (λ b, b < accepted_limit) bytes).

Lemma accepted_letters_app a b : accepted_letters (a ++ b) = accepted_letters a ++ accepted_letters b.
Proof. unfold accepted_letters. by rewrite filter_app, map_app. Qed.

Lemma alphabet_letter b :
  buf_get AUTHD_LEGACY_RANDOM_ALPHABET (b mod alphabet_size) = Some (letter_of b).
Proof.
  assert (0 <= b mod alphabet_size < alphabet_size) as Hm by (by apply Z.mod_pos_bound).
  unfold buf_get, letter_of. rewrite (proj2 (Z.leb_le _ _)) by lia.
  rewrite nth_lookup. destruct (AUTHD_LEGACY_RANDOM_ALPHABET !! _) eqn:E; [done|].
  apply lookup_ge_None_1 in E. change (length AUTHD_LEGACY_RANDOM_ALPHABET) with 31%nat in E.
  change alphabet_size with 31 in *. lia.
Qed.

(** The letters so far are a prefix of the letters that the bytes select. *)
Definition lettered (letters : list Z) (l : list Z * Z) : Prop :=
  snd l = Z.of_nat (length (take 8 letters)) ∧
  array_ok (FTAP_LEGACY_NAME_MAX + 1) (fst l) ∧
  take (Z.to_nat (snd l)) (fst l) = take 8 letters.

Lemma letter_of_byte b : byte_ok (letter_of b).
Proof.
  unfold letter_of. rewrite nth_lookup. destruct (AUTHD_LEGACY_RANDOM_ALPHABET !! _) eqn:E; [|done].
  apply list_elem_of_lookup_2 in E. cbn [default]. pose proof (lit_bytes_ok "abcdefghjkmnpqrstuvwxyz23456789") as Hok.
  unfold bytes_ok in Hok. rewrite Forall_forall in Hok. by apply Hok.
Qed.

Lemma random_letter_spec buffer i b letters l :
  buffer !! Z.to_nat i = Some b → 0 <= i → lettered letters l →
  ∃ c, random_letter buffer i l = Some c ∧
    match c with
    | Continue l' => lettered (letters ++ accepted_letters [b]) l'
    | Break l' => l' = l ∧ (8 <= length letters)%nat
    | Return _ => False
    end.
Proof.
  intros Hb Hi (Hn & [Hok Hlen] & Htake). destruct l as [name produced]. cbn [fst snd] in *.
  rewrite length_take in Hn. unfold random_letter. change AUTHD_LEGACY_RANDOM_LENGTH with 8.
  destruct (Z.leb_spec 8 produced).
  { eexists. split; [done|]. split; [done|]. lia. }
  unfold buf_get at 1. rewrite (proj2 (Z.leb_le _ _)) by done. rewrite Hb. run_simpl.
  unfold accepted_letters. rewrite filter_cons, filter_nil.
  destruct (Z.leb_spec accepted_limit b).
  { rewrite decide_False by lia. eexists. split; [done|]. cbn [map]. rewrite app_nil_r.
    split_and!; try done. cbn. rewrite length_take. lia. }
  rewrite decide_True by lia. rewrite alphabet_letter. run_simpl.
  change (FTAP_LEGACY_NAME_MAX + 1) with 9 in Hlen.
  rewrite buf_set_in by lia. run_simpl. eexists. split; [done|]. cbn [map].
  unfold lettered. cbn [fst snd]. rewrite length_take, length_app. cbn [length].
  assert (length letters < 8)%nat by lia. split; [lia|]. split.
  - split; [apply Forall_insert; [done|apply letter_of_byte]|].
    unfold zlen in *. by rewrite length_insert.
  - replace (Z.to_nat (produced + 1)) with (Datatypes.S (Z.to_nat produced)) by lia.
    rewrite (take_S_r _ _ (letter_of b)) by (apply list_lookup_insert_eq; unfold zlen in *; lia).
    rewrite take_insert_ge by lia. rewrite Htake.
    rewrite (take_ge letters) by lia. by rewrite take_ge by (rewrite length_app; cbn; lia).
Qed.

Lemma lettered_more letters more l :
  lettered letters l → (8 <= length letters)%nat → lettered (letters ++ more) l.
Proof. unfold lettered. intros Hl Hge. by rewrite take_app_le. Qed.

Lemma random_letters_spec buffer letters name produced :
  array_ok 32 buffer → lettered letters (name, produced) →
  ∃ l, random_letters buffer name produced = Some l ∧ lettered (letters ++ accepted_letters buffer) l.
Proof.
  intros [Hok Hlen] Hl. unfold random_letters.
  assert (∀ n i l, (i + n = 32)%nat → lettered (letters ++ accepted_letters (take i buffer)) l →
    ∃ c, for_range n (Z.of_nat i) (random_letter buffer) l = Some c ∧
      lettered (letters ++ accepted_letters buffer) (ctl_value c)) as Hloop.
  { induction n as [|n IH]; intros i l' Hin Hl'; cbn [for_range].
    - eexists. split; [done|]. rewrite take_ge in Hl' by (unfold zlen in *; lia). done.
    - destruct (lookup_lt_is_Some_2 buffer i) as [b Hb]; [unfold zlen in *; lia|].
      assert (take (Datatypes.S i) buffer = take i buffer ++ [b]) as Htake by by apply take_S_r.
      destruct (random_letter_spec buffer (Z.of_nat i) b (letters ++ accepted_letters (take i buffer)) l')
        as (c & -> & Hc); [by rewrite Nat2Z.id|lia|done|].
      run_simpl. destruct c as [l2|l2|[]].
      + rewrite <- app_assoc, <- accepted_letters_app, <- Htake in Hc.
        replace (Z.of_nat i + 1) with (Z.of_nat (Datatypes.S i)) by lia. apply IH; [lia|done].
      + eexists. split; [done|]. destruct Hc as [-> Hge]. cbn [ctl_value].
        rewrite <- (take_drop i buffer), accepted_letters_app, app_assoc. by apply lettered_more. }
  destruct (Hloop 32%nat 0%nat (name, produced)) as (c & Hc & Hres); [done|by rewrite take_0, app_nil_r|].
  change (Z.of_nat 0) with 0 in Hc. rewrite Hc. run_simpl. by eexists.
Qed.

(** The array holds these letters and their terminating zero. *)
Definition random_name (letters name : list Z) : Prop :=
  array_ok (FTAP_LEGACY_NAME_MAX + 1) name ∧ name = take 8 letters ++ [0] ∧ (8 <= length letters)%nat.

Lemma entropy_app a b : entropy (a ++ b) = entropy b ++ entropy a.
Proof.
  induction a as [|e a IH]; [by rewrite app_nil_r|].
  destruct e; try done. destruct answer; [|done]. cbn. by rewrite IH, app_assoc.
Qed.

Lemma generate_spec (E I : list event → Prop) fuel name (s : S) h :
  I h → (∀ h, I h → E h) → kept_by random_call I → array_ok (FTAP_LEGACY_NAME_MAX + 1) name →
  wp E (generate_random_legacy_name fuel name)
    (λ r s' h', s' = s ∧ I h' ∧ ∃ new, h' = new ++ h ∧
       ∀ name', r = Some name' → random_name (accepted_letters (entropy new)) name') s h.
Proof.
  intros Hi HE Hk Hname. unfold generate_random_legacy_name.
  apply (wp_iterate E (λ l s' h', s' = s ∧ I h' ∧ ∃ new, h' = new ++ h ∧
    lettered (accepted_letters (entropy new)) l)).
  - split; [done|]. split; [done|]. exists []. by split_and!.
  - intros l s' h' (_ & Hi' & _). auto.
  - intros [n produced] s' h' (-> & Hi' & new & -> & Hl). unfold random_name_step.
    change AUTHD_LEGACY_RANDOM_LENGTH with 8. destruct (Z.ltb_spec produced 8) as [Hlt|Hge].
    + wp_step. eapply wp_mono; [apply (random_bytes_spec E I); try done; apply zeros_ok; done|].
      intros r s' h' (-> & Hi2 & new2 & -> & Hr). destruct r as [buffer|].
      * destruct (Hr buffer eq_refl) as [Hb Hok]. wp_step.
        change (zlen (zeros 32)) with 32 in Hok.
        destruct (random_letters_spec buffer _ n produced Hok Hl) as (l & Hrun & Hl').
        eapply wp_lift; [exact Hrun|]. wp_step. split; [done|]. split; [done|].
        exists (new2 ++ new). split; [by rewrite app_assoc|].
        by rewrite entropy_app, accepted_letters_app, <- Hb.
      * wp_step. split; [done|]. split; [done|]. exists (new2 ++ new). by rewrite app_assoc.
    + destruct Hl as (Hn & [Hok Hlen] & Htake). cbn [fst snd] in *. rewrite length_take in Hn.
      change (FTAP_LEGACY_NAME_MAX + 1) with 9 in Hlen. assert (produced = 8) as -> by lia.
      wp_step. eapply wp_lift; [apply buf_set_in; lia|]. wp_step. split; [done|]. split; [done|].
      exists new. split; [done|]. intros name' [= <-]. split; [split|split].
      * by apply Forall_insert.
      * unfold zlen in *. by rewrite length_insert.
      * change (Z.to_nat 8) with 8%nat in *. rewrite <- Htake.
        rewrite <- (take_drop 8%nat n) at 1. unfold zlen in Hlen.
        rewrite insert_app_r_alt by (rewrite length_take; lia). rewrite length_take.
        replace (8 - _)%nat with 0%nat by lia. f_equal.
        pose proof (length_drop n 8%nat) as Hd. destruct (drop 8%nat n) as [|x [|y l]]; cbn in Hd; try lia. done.
      * lia.
Qed.

(** A source that delivers what it is asked for, never without a byte that selects
    a letter, ends the loops: eight blocks are enough. *)
Lemma generate_ends fuel name (s : S) h :
  array_ok (FTAP_LEGACY_NAME_MAX + 1) name → (9 <= fuel)%nat →
  (∀ h size, 0 < size → ∃ bytes, env_random h size = inl bytes ∧ zlen bytes = size ∧
     accepted_letters bytes ≠ []) →
  ∃ name' h', generate_random_legacy_name fuel name s h = Some (Done (Some name') s h').
Proof.
  intros Hname Hfuel Hfull.
  assert (wp (λ _, False) (generate_random_legacy_name fuel name)
    (λ r s' h', s' = s ∧ is_Some r) s h) as Hwp.
  2:{ apply wp_ends in Hwp as (r & s' & h' & Hrun & -> & name' & ->). by exists name', h'. }
  unfold generate_random_legacy_name.
  apply (wp_iterate_measure _
    (λ l s' h', s' = s ∧ ∃ letters, lettered letters l ∧ snd l = Z.of_nat (length (take 8 letters)))
    (λ l, (8 - Z.to_nat (snd l))%nat)).
  - split; [done|]. exists []. by split_and!.
  - cbn. lia.
  - intros [n produced] s' h' (-> & letters & Hl & Hp). cbn [snd] in *. unfold random_name_step.
    rewrite length_take in Hp. change AUTHD_LEGACY_RANDOM_LENGTH with 8.
    destruct (Z.ltb_spec produced 8) as [Hlt|Hge].
    + destruct (Hfull h' 32 ltac:(lia)) as (bytes & Hb & Hlen & Hne).
      destruct (Hrandom _ _ _ Hb) as [Hok _]. wp_step.
      assert (random_bytes fuel (zeros 32) s h' =
        Some (Done (Some bytes) s (Getrandom 32 (inl bytes) :: h'))) as Hrun.
      { unfold random_bytes. destruct fuel as [|[|fuel]]; [lia..|]. cbn [iterate].
        unfold bind at 1. unfold random_bytes_step at 1. change (zlen (zeros 32)) with 32.
        change (32 - 0 <=? 0) with false. cbv iota. unfold bind at 1, getrandom, service.
        change (32 - 0) with 32. rewrite Hb. rewrite (proj2 (Z.ltb_lt _ _)) by lia.
        unfold bind at 1, lift. rewrite buf_write_in by (change (zlen (zeros 32)) with 32; lia).
        change (Z.to_nat 0) with 0%nat. rewrite take_0, app_nil_l, drop_ge, app_nil_r
          by (change (length (zeros 32)) with 32%nat; unfold zlen in *; lia).
        unfold ret at 1, bind at 1, random_bytes_step at 1. rewrite Hlen. done. }
      unfold wp at 1. rewrite Hrun. wp_step.
      destruct (random_letters_spec bytes letters n produced) as (l & Hrl & Hl'); [by split|done|].
      eapply wp_lift; [exact Hrl|]. wp_step. split.
      * split; [done|]. eexists. split; [exact Hl'|]. apply Hl'.
      * destruct Hl' as (-> & _). rewrite length_take, length_app.
        destruct (accepted_letters bytes); [done|]. cbn [length]. lia.
    + destruct Hl as (_ & [_ Hlen] & _). cbn [fst] in Hlen. change (FTAP_LEGACY_NAME_MAX + 1) with 9 in Hlen.
      wp_step. eapply wp_lift; [apply buf_set_in; lia|]. wp_step. by split.
Qed.
End system_specs.

(** ** What a registration comes to *)

Section registration_invariant.
Context `{EnvironmentLaws} (config : authd_config).

Lemma working_clock F s h : working config F s h → kept_by clock_call (working config F s).
Proof. intros _ e h' [answer ->] Hw. by apply working_event. Qed.

Lemma working_random F s : kept_by random_call (working config F s).
Proof. intros e h' (size & answer & ->) Hw. by apply working_event. Qed.

Lemma working_context F s h x :
  working config F s h → context_ok config x → working config F (fst s, x) h.
Proof. intros [[Hc Hx Hi Ha Ht Hau] Hfd] Hx'. by split. Qed.

(** The payload has these fields, all that a registration needs, and they say what
    the attempt holds. *)
Definition requested (payload : list Z) (fs : list field) (attempt : authd_registration_attempt) : Prop :=
  payload = payload_of fs ∧ Forall wire_ok fs ∧ forallb registration_field_ok fs = true ∧
  forallb (λ type, present type fs) registration_fields = true ∧
  ∃ password length,
    registration_request_of fs (RegistrationRequest attempt password length true true true true true).

(** The connection has nothing to do. *)
Definition idle (s : conn) : Prop :=
  ra_active (registration (fst s)) = false ∧ state (fst s) = FTAP_STATE_HELLO_COMPLETE.

(** An idle connection asks for a registration where registrations are enabled. *)
Definition asks (s : conn) (payload : list Z) (fs : list field) (attempt : authd_registration_attempt) : Prop :=
  idle s ∧ cfg_registration_enabled config = true ∧ requested payload fs attempt.

(** What the limiter of the daemon says, after it has counted the source address of
    the request at the time that the clock has told. *)
Definition counted `{Inet} (x x' : authd_server_context) (attempt : authd_registration_attempt)
    (now : option (Z * Z)) (verdict : authd_registration_limit_result) (retry : Z) : Prop :=
  ∃ ms, now_at now ms ∧
    authd_registration_limiter_record (Some (ctx_registration_limiter x)) (Some (ra_source_ip attempt))
      (ms / 1000) (Some 0) = Some (verdict, Some (ctx_registration_limiter x'), Some retry).

(** The password of the request is with the workers, and the attempt waits for it. *)
Definition hash_started `{Inet} (s s' : conn) (request_id : Z) (payload : list Z) (r : Z)
    (h h' : list event) : Prop :=
  r = 0 ∧ state (fst s') = FTAP_STATE_REGISTERING ∧
  ∃ fs attempt now retry job,
    asks s payload fs attempt ∧
    counted (snd s) (snd s') attempt now AUTHD_REGISTRATION_LIMIT_ALLOWED retry ∧
    cfg_registration_min_password_bytes config <= zlen (required_value FTAP_FIELD_PASSWORD fs) ∧
    registration (fst s') = ra_activate request_id job attempt ∧
    h' = SubmitGenerate (token_of (fst s') request_id) (required_value FTAP_FIELD_PASSWORD fs)
           (AUTHD_WORKER_SUBMIT_OK, job) :: ClockGettime now :: h.

(** Why the request is refused: the error and its delay, and what was asked for. *)
Inductive start_refusal `{Inet} (s s' : conn) (request_id : Z) (payload : list Z)
    : Z → Z → list event → Prop :=
| start_busy :
    ¬ idle s →
    snd s' = snd s → start_refusal s s' request_id payload FTAP_ERR_INVALID_STATE 0 []
| start_disabled :
    idle s → cfg_registration_enabled config = false →
    snd s' = snd s → start_refusal s s' request_id payload FTAP_ERR_ACCESS_DENIED 0 []
| start_malformed :
    idle s → cfg_registration_enabled config = true → (∀ fs attempt, ¬ requested payload fs attempt) →
    snd s' = snd s → start_refusal s s' request_id payload FTAP_ERR_PROTOCOL 0 []
| start_no_clock fs attempt now :
    asks s payload fs attempt → (∀ ms, ¬ now_at now ms) →
    snd s' = snd s → start_refusal s s' request_id payload FTAP_ERR_INTERNAL 0 [ClockGettime now]
| start_limited fs attempt now verdict retry :
    asks s payload fs attempt → counted (snd s) (snd s') attempt now verdict retry →
    verdict ≠ AUTHD_REGISTRATION_LIMIT_ALLOWED →
    start_refusal s s' request_id payload FTAP_ERR_RATE_LIMITED (u64 (u64 retry * 1000)) [ClockGettime now]
| start_short fs attempt now retry :
    asks s payload fs attempt →
    counted (snd s) (snd s') attempt now AUTHD_REGISTRATION_LIMIT_ALLOWED retry →
    zlen (required_value FTAP_FIELD_PASSWORD fs) < cfg_registration_min_password_bytes config →
    start_refusal s s' request_id payload FTAP_ERR_PASSWORD_POLICY 0 [ClockGettime now]
| start_no_worker fs attempt now retry result job :
    asks s payload fs attempt →
    counted (snd s) (snd s') attempt now AUTHD_REGISTRATION_LIMIT_ALLOWED retry →
    cfg_registration_min_password_bytes config <= zlen (required_value FTAP_FIELD_PASSWORD fs) →
    result ≠ AUTHD_WORKER_SUBMIT_OK →
    start_refusal s s' request_id payload FTAP_ERR_INTERNAL 0
      [SubmitGenerate (token_of (fst s) request_id) (required_value FTAP_FIELD_PASSWORD fs) (result, job);
       ClockGettime now].

(** The connection ends with an error. *)
Definition registration_refused `{Inet} (s s' : conn) (request_id : Z) (payload : list Z) (r : Z)
    (h h' : list event) : Prop :=
  ∃ code retry, refuses request_id code retry r (fst s') ∧
    ∃ new, start_refusal s s' request_id payload code retry new ∧ h' = new ++ h.

Lemma limit_registration_spec `{InetLaws} E F attempt now now_ms s h :
  working config F s h → 0 < zlen (ra_source_ip attempt) → now_at now now_ms →
  wp E (limit_registration (ra_source_ip attempt) now_ms)
    (λ r s' h', working config F s' h' ∧ h' = h ∧ fst s' = fst s ∧
       counted (snd s) (snd s') attempt now (fst r) (snd r)) s h.
Proof.
  intros Hw Hip Hnow. unfold limit_registration. conn_step. conn_step.
  pose proof (inv_context _ _ _ _ (proj1 Hw)) as [Hcfg Hsize].
  destruct (record_runs (ctx_registration_limiter (snd s)) (ra_source_ip attempt) (now_ms / 1000) 0 Hsize Hip)
    as (r & l' & retry & Hrun & Hl & _).
  conn_step. eapply wp_lift; [exact Hrun|]. cbv beta iota.
  conn_step. eapply wp_lift; [done|]. conn_step. eapply wp_lift; [done|].
  conn_step. apply wp_modify. conn_step. split; [|split; [done|split; [done|]]].
  - by apply (working_context F s).
  - by exists now_ms.
Qed.

(** The refusal of a request, once its reason is known. *)
Lemma refuse_registration `{InetLaws} E F s s1 h h1 request_id payload code new :
  working config F s1 h1 → la_active (login (fst s1)) = false → h1 = new ++ h →
  (∀ s', snd s' = snd s1 → start_refusal s s' request_id payload code 0 new) →
  wp E (reject request_id code)
    (λ r s' h', working config F s' h' ∧
       (hash_started s s' request_id payload r h h' ∨
        registration_refused s s' request_id payload r h h')) s1 h1.
Proof.
  intros Hw Hl -> Hwhy. pose proof (working_client _ _ _ _ Hw) as Hc.
  eapply wp_mono; [apply wp_and; [by apply (working_reject_spec config E F)|by apply reject_context]|].
  intros r s' h' [(Hw' & -> & Href) Hx]. split; [done|]. right.
  exists code, 0. split; [done|]. exists new. auto.
Qed.

(** An admitted request: its password goes to the workers. *)
Lemma submit_registration_spec `{InetLaws} E F s s1 h now request_id payload fs attempt password length retry :
  working config F s1 (ClockGettime now :: h) → fst s1 = fst s → la_active (login (fst s)) = false →
  asks s payload fs attempt → registration_arrays_ok attempt →
  holds_password fs password length →
  counted (snd s) (snd s1) attempt now AUTHD_REGISTRATION_LIMIT_ALLOWED retry →
  cfg_registration_min_password_bytes config <= length →
  wp E (submit_registration attempt password length request_id)
    (λ r s' h', working config F s' h' ∧
       (hash_started s s' request_id payload r h h' ∨
        registration_refused s s' request_id payload r h h')) s1 (ClockGettime now :: h).
Proof.
  intros Hw Hs1 Hl Hask Harr Hread Hcount Hge.
  pose proof Hask as ([_ Hst] & _ & _ & _ & _ & _ & password0 & length0 & Hof).
  destruct (ro_fresh _ _ Hof) as (_ & Hpend & Hrec). cbn in Hpend, Hrec.
  assert (zlen (required_value FTAP_FIELD_PASSWORD fs) = length) as <-.
  { apply buf_read_Some in Hread. tauto. }
  unfold submit_registration. conn_step. conn_step. conn_step.
  unfold authd_worker_pool_submit_generate. conn_step. eapply wp_lift; [exact Hread|].
  fold (required_value FTAP_FIELD_PASSWORD fs). fold (token_of (fst s1) request_id).
  apply wp_service. intros [submit_result job] _.
  destruct (bool_decide (submit_result = AUTHD_WORKER_SUBMIT_OK)) eqn:Esub; bools; cbn [negb].
  2:{ eapply (refuse_registration E F s _ h _ _ _ _ [_; _]); [by apply working_event|congruence|done|].
      intros s' Hx. rewrite Hs1. eapply start_no_worker; [done|by rewrite Hx|done|done]. }
  subst submit_result. conn_step. conn_step. conn_step. conn_step. conn_step.
  pose proof (working_client _ _ _ _ Hw) as Hc.
  assert (state (fst s1) = FTAP_STATE_HELLO_COMPLETE) as Hst1 by congruence.
  destruct (idle_hello _ Hc Hst1) as [Ho Hg]. split.
  - eapply (working_update config F s1); [by apply working_event| |done|done| |done|].
    + destruct Hc as [Hc1 Hc2 Hc3 Hc4 Hc5 Hc6 Hc7 Hc8 Hc9 [Hp1 Hp2 Hp3 Hp4 Hp5]].
      destruct Hw as [_ Hfd]. split; try done; [apply Harr|cbn; rewrite Hrec; apply zero_registration_typed|].
      split; cbn; [congruence|by intros _; split; [|left]|congruence|lia|auto].
    + destruct (inv_tracked _ _ _ _ (proj1 Hw)) as [Ht1 Ht2 Ht3 Ht4].
      split; cbn; [congruence| |congruence..]. intros _ _. eexists. by split; [|left].
    + unfold held_registration at 1. rewrite Hg. apply empty_subseteq.
  - left. split_and!; try done. by exists fs, attempt, now, retry, job.
Qed.

Lemma start_registration_spec `{InetLaws} E F s h header payload tail :
  working config F s h → bytes_ok (payload ++ tail) → zlen payload <= FTAP_MAX_PAYLOAD_SIZE →
  la_active (login (fst s)) = false →
  wp E (start_registration header (Some (payload ++ tail)) (zlen payload))
    (λ r s' h', working config F s' h' ∧
       (hash_started s s' (hdr_request_id header) payload r h h' ∨
        registration_refused s s' (hdr_request_id header) payload r h h')) s h.
Proof.
  intros Hw Hok Hlen Hl. unfold start_registration. conn_step. conn_step. conn_step. conn_step.
  destruct (_ || _) eqn:Eg.
  { eapply (refuse_registration E F s s h h _ _ _ []); try done.
    intros s' Hx. apply start_busy; [|done]. intros [Hra Hst]. rewrite Hra, Hl, Hst in Eg. done. }
  bools. match goal with Hs : state _ = _ |- _ => rename Hs into Hst end.
  pose proof (inv_context _ _ _ _ (proj1 Hw)) as [Hcfg _]. rewrite Hcfg.
  destruct (cfg_registration_enabled config) eqn:Een; cbn [negb];
    [|eapply (refuse_registration E F s s h h _ _ _ []); try done; intros; by apply start_disabled].
  conn_step. destruct (parse_registration_begin_request_spec payload tail) as (r & Hr & Hres); [done..|].
  eapply wp_lift; [exact Hr|]. destruct r as [[[attempt password] length]|].
  2:{ eapply (refuse_registration E F s s h h _ _ _ []); try done. intros. apply start_malformed; [done..| |done].
      intros fs attempt (Hp & Hwire & Hf & Hall & _). by rewrite (Hres fs) in Hall. }
  destruct Hres as (fs & Hp & Hwire & Hf & Hall & Hof & Harr).
  assert (asks s payload fs attempt) as Hreq by (do 2 (split; [done|]); unfold requested; split_and!; [done..|by eexists _, _]).
  conn_step. eapply wp_mono; [apply wp_and; [|apply monotonic_now_spec]|];
    [apply (monotonic_spec E (working config F s)); [done|by eapply working_clock]|].
  intros now_ms s1 h1 [(-> & Hw1 & _) (_ & now & -> & Hms)]. destruct now_ms as [now_ms|].
  2:{ eapply (refuse_registration E F s s h _ _ _ _ [_]); try done. intros. eapply start_no_clock; [done| |done].
      intros ms Hat. by apply Hms in Hat. }
  assert (now_at now now_ms) as Hat by by apply Hms.
  conn_step. eapply wp_mono; [apply (limit_registration_spec E F _ now); [done| |done]|].
  { by rewrite (array_length _ _ (go_source_ip _ Harr)). }
  intros [verdict retry] s1 h1 (Hw2 & -> & Hs1 & Hcount). cbn [fst snd] in Hcount. cbv beta iota.
  destruct (bool_decide (verdict = AUTHD_REGISTRATION_LIMIT_ALLOWED)) eqn:Elim; bools; cbn [negb].
  2:{ conn_step. conn_step.
      assert (working config F (set_state FTAP_STATE_CLOSING (fst s1), snd s1) (ClockGettime now :: h)) as Hw3
        by (apply working_enter_closing; [done|congruence]).
      pose proof (ok_output _ (working_client _ _ _ _ Hw3)) as Hout.
      eapply wp_mono; [apply wp_and; [|apply (respond_context E)]; [apply working_respond_spec; [exact Hw3|]|]|];
        [by apply queue_error_with_retry_responds..|].
      intros r s' h' [(Hw4 & -> & Hq) Hx]. split; [done|]. right. eexists FTAP_ERR_RATE_LIMITED, _.
      split; [exists (set_state FTAP_STATE_CLOSING (fst s1)); split;
        [exact Hout|split; [cbn; congruence|split; [done|exact Hq]]]|].
      exists [ClockGettime now]. split; [|done]. eapply start_limited; [done| |done]. by rewrite Hx. }
  subst verdict. destruct (Z.ltb_spec length (cfg_registration_min_password_bytes config)) as [Hlt|Hge].
  - eapply (refuse_registration E F s _ h _ _ _ _ [_]); [done|congruence|done|].
    intros s' Hx. eapply start_short; [done|by rewrite Hx|].
    pose proof (ro_password _ _ Hof) as Hread. apply buf_read_Some in Hread. cbn in Hread.
    assert (zlen (required_value FTAP_FIELD_PASSWORD fs) = length) as -> by tauto. lia.
  - eapply submit_registration_spec; try done. apply (ro_password _ _ Hof).
Qed.

(** *** The candidates *)

Definition is_begin (e : event) : bool :=
  match e with BeginRegistration _ _ _ _ _ _ _ _ _ _ => true | _ => false end.

(** How often the database was asked to reserve a registration. *)
Definition begins (h : list event) : nat := length (filter is_begin h).

Lemma begins_app a b : begins (a ++ b) = (begins a + begins b)%nat.
Proof. unfold begins. by rewrite filter_app, length_app. Qed.

(** The newest event reserved the registration for the hash of the workers. *)
Definition just_begun (F : frame) (s : conn) (r : authd_registration_begin_result)
    (h : list event) : Prop :=
  registration_typed r ∧ ∃ login display hash legacy ip tty node timeout pending older,
    h = BeginRegistration login display hash legacy ip tty node timeout pending
          (AUTHD_DATABASE_REGISTRATION_OK, r) :: older ∧
    working config F s older ∧ hashed (cfg_registration_min_password_bytes config) hash older ∧
    timeout = cfg_registration_timeout_seconds config ∧
    pending = cfg_registration_max_pending config.

Lemma candidate_array (name legacy : list Z) :
  array_ok (FTAP_LOGIN_NAME_MAX + 1) name → array_ok (FTAP_LEGACY_NAME_MAX + 1) legacy →
  strlen name <= FTAP_LEGACY_NAME_MAX →
  ∃ data legacy', buf_read name 0 (strlen name + 1) = Some data ∧
    buf_write legacy 0 data = Some legacy' ∧ array_ok (FTAP_LEGACY_NAME_MAX + 1) legacy'.
Proof.
  intros [Hok Hlen] [Hok' Hlen'] Hs. pose proof (zlen_nonneg (cstr name)).
  unfold FTAP_LOGIN_NAME_MAX, FTAP_LEGACY_NAME_MAX in *. unfold strlen in *.
  destruct (buf_read name 0 (zlen (cstr name) + 1)) as [data|] eqn:Hr.
  2:{ rewrite buf_read_in in Hr by lia. done. }
  pose proof (buf_read_Some name 0 _ _ Hr) as (_ & _ & _ & Hdata & Hd).
  destruct (buf_write legacy 0 data) as [legacy'|] eqn:Hw.
  2:{ rewrite buf_write_in in Hw by lia. done. }
  eexists _, _. split; [done|]. split; [done|]. split.
  - rewrite buf_write_in in Hw by lia. injection Hw as <-.
    apply bytes_ok_app. split; [rewrite Hd; by apply bytes_ok_take, bytes_ok_drop|by apply bytes_ok_drop].
  - by rewrite (buf_write_length _ _ _ _ Hw).
Qed.

Lemma begin_registration_spec E F fuel s h attempt hash :
  (∀ h, authorised config h → E h) →
  working config F s h → hashed (cfg_registration_min_password_bytes config) (cstr hash) h →
  array_ok (FTAP_LOGIN_NAME_MAX + 1) (ra_login_name attempt) →
  wp E (begin_registration fuel attempt hash)
    (λ r s' h', s' = s ∧ (∃ new, h' = new ++ h ∧ (begins new <= 17)%nat) ∧
       match fst r with
       | AUTHD_DATABASE_REGISTRATION_OK => just_begun F s (snd r) h'
       | _ => working config F s h'
       end) s h.
Proof.
  intros HE Hw Hhash Hname. unfold begin_registration.
  set (direct := login_name_fits_legacy_key _).
  set (bound := AUTHD_LEGACY_RANDOM_ATTEMPTS + (if direct then 1 else 0)).
  assert (bound <= 17) as Hbound by (unfold bound, AUTHD_LEGACY_RANDOM_ATTEMPTS; destruct direct; lia).
  set (I i h' := working config F s h' ∧
    hashed (cfg_registration_min_password_bytes config) (cstr hash) h' ∧
    ∃ new, h' = new ++ h ∧ Z.of_nat (begins new) <= Z.min i 17).
  assert (∀ i, kept_by random_call (I i)) as HkI.
  { intros i e h' He (Hw' & Hh' & new & -> & Hn). split; [by apply working_random|].
    split; [by apply hashed_cons|]. exists (e :: new). split; [done|].
    by destruct He as (size & answer & ->). }
  apply (wp_iterate_measure _
    (λ (l : candidate_locals) s' h', let '(i, name, result, _) := l in
       s' = s ∧ I i h' ∧ 0 <= i ∧ array_ok (FTAP_LEGACY_NAME_MAX + 1) name ∧
       result ≠ AUTHD_DATABASE_REGISTRATION_OK)
    (λ (l : candidate_locals), let '(i, _, _, _) := l in Z.to_nat (17 - i))).
  { split_and!; try done; [|by apply zeros_ok]. split; [done|]. split; [done|]. exists []. done. }
  { cbn. lia. }
  intros [[[i name] result] registration] s' h' (-> & HI & Hi & Harr & Hres).
  unfold candidate_step. fold bound. destruct (Z.ltb_spec i bound) as [Hlt|Hge].
  2:{ conn_step. destruct HI as (Hw' & _ & new & -> & Hn). split; [done|].
      split; [exists new; split; [done|lia]|]. cbn [fst]. by destruct result. }
  conn_step. eapply (wp_mono _ _ (λ r s' h', s' = s ∧ I i h' ∧
    ∀ name', r = Some name' → array_ok (FTAP_LEGACY_NAME_MAX + 1) name')).
  { destruct ((i =? 0) && direct) eqn:Ed.
    - bools. unfold direct in *.
      match goal with Hd : login_name_fits_legacy_key _ = true |- _ => cbn in Hd end. bools.
      destruct (candidate_array (ra_login_name attempt) name) as (data & name' & Hr & Hwr & Hok'); [done..|].
      conn_step. eapply wp_lift; [exact Hr|]. conn_step. eapply wp_lift; [exact Hwr|]. conn_step.
      split; [done|]. split; [done|]. by intros ? [= <-].
    - eapply wp_mono; [apply (generate_spec law_random E (I i)); [done| |done|done]|].
      { intros h1 [Hw' _]. by eapply HE, working_authorised. }
      intros r s' h1 (-> & HI' & new & _ & Hr). split; [done|]. split; [done|].
      intros name' Hname'. by apply Hr. }
  intros candidate s' h1 (-> & (Hw1 & Hh1 & new & -> & Hn) & Hcand).
  destruct candidate as [legacy|].
  2:{ conn_step. split; [done|]. split; [|done]. exists new. split; [done|lia]. }
  conn_step. conn_step. conn_step. apply wp_service. intros [result' r] Ha. cbv beta iota.
  pose proof (inv_context _ _ _ _ (proj1 Hw1)) as [Hcfg _]. rewrite Hcfg in *.
  assert (registration_typed r) as Htyped.
  { match type of Ha with _ = env_begin ?h ?l ?d ?p ?g ?i ?t ?n ?s ?m =>
      pose proof (law_begin h l d p g i t n s m) as Ht end. by rewrite <- Ha in Ht. }
  set (e := BeginRegistration _ _ _ _ _ _ _ _ _ _).
  assert (∃ new', e :: new ++ h = new' ++ h ∧ Z.of_nat (begins new') <= Z.min (i + 1) 17) as Hcount.
  { exists (e :: new). split; [done|]. change (begins (e :: new)) with (Datatypes.S (begins new)). lia. }
  assert (result' ≠ AUTHD_DATABASE_REGISTRATION_OK → working config F s (e :: new ++ h)) as Hother.
  { intros Hne. apply working_event; [done|by destruct result'|done]. }
  destruct (bool_decide (result' = AUTHD_DATABASE_REGISTRATION_LEGACY_CONFLICT)) eqn:Ec; bools; cbn [negb].
  - subst result'. conn_step. split; [|lia]. split; [done|]. split; [|split; [lia|by split; [apply Hcand|]]].
    split; [by apply Hother|]. split; [by apply hashed_cons|done].
  - conn_step. split; [done|]. split.
    { destruct Hcount as (new' & Hq & Hle). exists new'. split; [done|lia]. }
    cbn [fst snd]. destruct result'; try by apply Hother. split; [done|].
    by eexists _, _, _, _, _, _, _, _, _, _.
Qed.

(** *** Changes of a registration *)

Lemma active_registration c :
  client_ok c → ra_active (registration c) = true →
  la_active (login c) = false ∧ session_open c = false ∧
  (state c = FTAP_STATE_REGISTERING ∨ state c = FTAP_STATE_CLOSING).
Proof.
  intros Hc Ha. destruct (ok_phases _ Hc) as [Hl Hr _ _ _]. destruct (Hr Ha) as [Ho Hs].
  split; [|done]. destruct (la_active (login c)); [|done]. destruct (Hl eq_refl) as (_ & ? & _). congruence.
Qed.

(** The reserved registration is bound to its connection. *)
Lemma working_pending F s r h :
  just_begun F s r h → ra_active (registration (fst s)) = true →
  ra_database_pending (registration (fst s)) = false →
  working config F (set_registration (ra_set_pending r (registration (fst s))) (fst s), snd s) h.
Proof.
  intros (Htyped & login & display & hash & legacy & ip & tty & node & timeout & pending & older & -> &
    [[Hc Hx Hi [Ho Hp] [Ht1 Ht2 Ht3 Ht4 Ht5] Hau] Hfd] & Hhash & -> & ->) Ha Hpend.
  destruct (active_registration _ Hc Ha) as (Hl & Hso & Hst).
  destruct Hc as [Hc1 Hc2 Hc3 Hc4 Hc5 Hc6 Hc7 Hc8 Hc9 [Hp1 Hp2 Hp3 Hp4 Hp5]].
  split; [|done]. split; try done.
  - split; try done. split; cbn; done || (intros; lia) || auto.
  - split; [exact Ho|]. unfold held_registration in *. cbn. rewrite Ha. cbn [andb].
    apply acquire_subset. revert Hp. by rewrite Ha, Hpend.
  - split; cbn; [congruence|done| |congruence..]. intros _ _.
    eexists _, _, _, _, _, _, _, _, _. by left.
Qed.

(** A registration may be forgotten when the database does not keep it. *)
Lemma working_registration_clear F s h :
  working config F s h → pending_registrations h ⊆ fr_registrations F →
  working config F (registration_attempt_clear (fst s), snd s) h.
Proof.
  intros [[Hc Hx Hi [Ho Hp] [Ht1 Ht2 Ht3 Ht4 Ht5] Hau] Hfd] Hfree.
  split; [|done]. split; try done; [by apply registration_clear_ok|].
  split; [exact Ho|]. etrans; [exact Hfree|]. apply union_subseteq_l.
Qed.

Lemma unbound_pending F s h :
  working config F s h → ra_database_pending (registration (fst s)) = false →
  pending_registrations h ⊆ fr_registrations F.
Proof.
  intros [[_ _ _ [_ Hp] _ _] _] Hpend. revert Hp. unfold held_registration.
  rewrite Hpend, andb_false_r. intros Hp. etrans; [exact Hp|]. by rewrite union_empty_r_L.
Qed.

Lemma aborted_pending F s h user_id reason result :
  working config F s h → abort_confirmed result || daemon_abort_reason reason = true →
  pending_registrations (AbortRegistration (rb_registration_id (ra_record (registration (fst s))))
    user_id reason result :: h) ⊆ fr_registrations F.
Proof.
  intros [[_ _ _ [_ Hp] _ _] _] Hd. cbn. rewrite Hd. apply release_subset. etrans; [exact Hp|].
  unfold held_registration. case_if; set_solver.
Qed.

Lemma working_abort F s h reason result :
  working config F s h → ra_active (registration (fst s)) = true →
  ra_database_pending (registration (fst s)) = true →
  working config F s (AbortRegistration (rb_registration_id (ra_record (registration (fst s))))
    (rb_user_id (ra_record (registration (fst s)))) reason result :: h).
Proof.
  intros Hw Ha Hp. apply working_event; [done|done|]. eexists. split; [done|]. split; [done|].
  by apply (tr_begun _ _ _ (inv_tracked _ _ _ _ (proj1 Hw))).
Qed.

(** The connection ends with an error and holds no registration. *)
Definition registration_ended (request_id code r : Z) (c : authd_client) : Prop :=
  refuses request_id code 0 r c ∧ ra_active (registration c) = false.

Lemma end_registration_spec E F s h request_id code :
  working config F s h → pending_registrations h ⊆ fr_registrations F →
  la_active (login (fst s)) = false →
  wp E (end_registration request_id code)
    (λ r s' h', working config F s' h' ∧ h' = h ∧ registration_ended request_id code r (fst s')) s h.
Proof.
  intros Hw Hp Hl. unfold end_registration. conn_step. conn_step.
  assert (working config F (registration_attempt_clear (fst s), snd s) h) as Hw'
    by by apply working_registration_clear.
  eapply wp_mono; [apply wp_and; [by apply working_reject_spec|]|].
  - apply reject_grip. by eapply working_client.
  - intros r s' h' [(Hw2 & -> & Href) Hgrip]. split; [done|]. split; [done|]. split; [done|].
    injection Hgrip as _ Hreg _ _ _ _ _. rewrite Hreg. done.
Qed.

(** The peer may commit or abort the registration until the deadline. *)
Definition registration_bound (r : Z) (c : authd_client) (h' : list event) : Prop :=
  r = 0 ∧ busy c = true ∧ state c = FTAP_STATE_REGISTERING ∧ ra_active (registration c) = true ∧
  ra_database_pending (registration c) = true ∧
  ∃ now now_ms e older, h' = ClockGettime now :: e :: older ∧ is_begin e = true ∧
    begun (ra_record (registration c)) (e :: older) ∧
    ra_deadline_ms (registration c) = now_ms + cfg_registration_timeout_seconds config * 1000 ∧
    fits 64 (ra_deadline_ms (registration c)).

Lemma registering_ok c :
  client_ok c → 0 <= fd c → la_active (login c) = false → session_open c = false →
  client_ok (set_state FTAP_STATE_REGISTERING c).
Proof.
  intros [Ho Hl Hi Hr Hn Hg Hs Hc He Hp] Hfd Hlogin Hopen. split; try done.
  split; cbn; [congruence| |congruence|lia|intros _; apply (ph_reason _ Hp); by left].
  intros _. split; [done|by left].
Qed.

Lemma deadline_working F s h deadline :
  working config F s h →
  working config F (set_registration (ra_set_deadline deadline (registration (fst s))) (fst s), snd s) h.
Proof.
  intros [[[Hc1 Hc2 Hc3 Hc4 Hc5 Hc6 Hc7 Hc8 Hc9 [Hp1 Hp2 Hp3 Hp4 Hp5]] Hx Hi Hacc [Ht1 Ht2 Ht3 Ht4 Ht5] Hau] Hfd].
  split; [|done]. split; try done. split; try done. split; cbn; done || lia.
Qed.

Lemma working_registering F s h :
  working config F s h → la_active (login (fst s)) = false → session_open (fst s) = false →
  working config F (set_state FTAP_STATE_REGISTERING (fst s), snd s) h.
Proof.
  intros Hw Hl Ho. apply (working_same_grip config F s); [done| |done|done].
  apply registering_ok; [by eapply working_client|apply Hw|done|done].
Qed.

Lemma working_queued F s h out length close_after :
  working config F s h → zlen out = AUTHD_RESPONSE_BUFFER_SIZE →
  0 < length <= AUTHD_RESPONSE_BUFFER_SIZE →
  working config F (queued out length close_after (fst s), snd s) h.
Proof.
  intros Hw Hout Hlen. apply (working_same_grip config F s); [done| |done|done].
  apply queued_ok; [by eapply working_client|apply Hw|done|done].
Qed.

(** What the second half of a begin comes to. *)
Definition registration_result (request_id r : Z) (c : authd_client) (h' : list event) : Prop :=
  registration_bound r c h' ∨ r = -1 ∨ ∃ code, registration_ended request_id code r c.

Lemma bind_registration_spec E F s h r request_id :
  just_begun F s r h → ra_active (registration (fst s)) = true →
  ra_database_pending (registration (fst s)) = false →
  fits 32 (cfg_registration_timeout_seconds config) →
  wp E (bind_registration request_id r)
    (λ res s' h', working config F s' h' ∧ registration_result request_id res (fst s') h' ∧
       ∃ new, h' = new ++ h ∧ begins new = 0%nat) s h.
Proof.
  intros Hj Ha Hp [Ht0 Ht1]. pose proof Hj as (Htyped & l & d & ha & g & ip & tty & n & t & m & older & Hh & _).
  pose proof (working_pending F s r h Hj Ha Hp) as Hw. unfold bind_registration.
  set (s1 := (set_registration (ra_set_pending r (registration (fst s))) (fst s), snd s)) in *.
  assert (la_active (login (fst s1)) = false) as Hl
    by (by apply (active_registration _ (working_client _ _ _ _ Hw))).
  conn_step. conn_step. change (set_registration _ _, _) with s1. conn_step.
  eapply wp_mono; [apply (monotonic_spec E (working config F s1)); [done|by eapply working_clock]|].
  intros now_ms s' h' (-> & Hw1 & (now & ->) & Hms). conn_step. conn_step.
  pose proof (inv_context _ _ _ _ (proj1 Hw1)) as [Hcfg _]. rewrite Hcfg.
  set (timeout := cfg_registration_timeout_seconds config) in *.
  assert (u64 (u64 timeout * 1000) = timeout * 1000) as ->.
  { unfold u64. rewrite (wrap_fits 64 timeout) by (split; lia). apply wrap_fits. split; lia. }
  assert (∀ result, working config F s1
    (AbortRegistration (rb_registration_id r) (rb_user_id r)
      (cstr FTAP_REGISTRATION_REASON_INTERNAL_ERROR) result :: ClockGettime now :: h)) as Hw2.
  { intros result. apply (working_abort F s1 _ _ result Hw1); [exact Ha|done]. }
  assert (wp E (let* _ := authd_database_abort_registration (rb_registration_id r) (rb_user_id r)
          FTAP_REGISTRATION_REASON_INTERNAL_ERROR in
        end_registration request_id FTAP_ERR_INTERNAL)
    (λ res s' h', working config F s' h' ∧ registration_result request_id res (fst s') h' ∧
       ∃ new, h' = new ++ h ∧ begins new = 0%nat)
    s1 (ClockGettime now :: h)) as Habort.
  { conn_step. apply wp_service. intros result _.
    eapply wp_mono; [apply (end_registration_spec E F); [apply Hw2|apply (aborted_pending F s1); [done|by rewrite orb_comm]|done]|].
    intros res s' h' (Hw3 & -> & Hend). split; [done|]. split; [right; right; by eexists|].
    by exists [AbortRegistration (rb_registration_id r) (rb_user_id r)
      (cstr FTAP_REGISTRATION_REASON_INTERNAL_ERROR) result; ClockGettime now]. }
  destruct now_ms as [now_ms|]; [|exact Habort].
  destruct (Z.ltb_spec (UINT64_MAX - now_ms) (timeout * 1000)) as [Hlt|Hge]; [exact Habort|].
  destruct (Hms now_ms eq_refl) as [Hn0 Hn1]. unfold UINT64_MAX in Hge. unfold u64.
  rewrite (wrap_fits 64) by (split; lia). conn_step. conn_step. cbn [registration set_registration s1 fst snd].
  pose proof (deadline_working F s1 _ (now_ms + timeout * 1000) Hw1) as Hw3.
  set (s2 := (set_registration _ _, _)) in Hw3. change (set_registration _ _, _) with s2.
  conn_step. apply wp_respond.
  - apply queue_registration_begin_result_responds; [|done]. apply (ok_output _ (working_client _ _ _ _ Hw3)).
  - cbn [Z.eqb negb]. conn_step. split; [done|]. split; [right; by left|by exists [ClockGettime now]].
  - intros out length close Hout Hd Hlen. cbn [Z.eqb negb]. conn_step. conn_step. conn_step. split; [|split; [|by exists [ClockGettime now]]].
    + apply (working_registering F (queued out length close (fst s2), snd s2)).
      * by apply working_queued.
      * exact Hl.
      * by apply (active_registration _ (working_client _ _ _ _ Hw)).
    + left. split_and!; try done; [apply (queued_busy out length close (fst s2)); lia|]. eexists now, now_ms, _, older. split; [by rewrite Hh|]. split; [done|].
      split; [|split; [done|cbn; split; lia]]. cbn. eexists _, _, _, _, _, _, _, _, _. by left.
Qed.

(** The completion that the newest event reports belongs to the registration. *)
Record completes_registration (completion : authd_worker_completion) (c : authd_client)
    (h : list event) : Prop := {
  cr_active : ra_active (registration c) = true;
  cr_unbound : ra_database_pending (registration c) = false;
  cr_type : wc_job_type completion = AUTHD_WORKER_JOB_GENERATE_PASSWORD_HASH;
  cr_token : wc_token completion = token_of c (ra_request_id (registration c));
  cr_job : wc_job_id completion = ra_worker_job_id (registration c);
  cr_hash : array_ok (AUTHD_WORKER_HASH_MAX_BYTES + 1) (wc_encoded_hash completion);
  cr_newest : ∃ older, h = TakeCompletion (Some completion) :: older ∧ tracked config c older;
}.

Lemma completed_hash completion c h first :
  completes_registration completion c h → wc_password_result completion = AUTHD_PASSWORD_OK →
  buf_get (wc_encoded_hash completion) 0 = Some first → first ≠ 0 →
  hashed (cfg_registration_min_password_bytes config) (cstr (wc_encoded_hash completion)) h.
Proof.
  intros [Ha Hp Hty Htok Hjob _ (older & -> & Ht)] Hok Hfirst Hne. split.
  - destruct (wc_encoded_hash completion) as [|b l]; [done|]. cbn in Hfirst. injection Hfirst as ->.
    cbn. by rewrite (proj2 (Z.eqb_neq _ _)).
  - exists completion. split; [by left|]. split_and!; try done. rewrite Htok, Hjob.
    apply hashing_cons. by apply (tr_hashing _ _ _ Ht).
Qed.

Lemma complete_registration_hash_spec E F fuel s h completion :
  (∀ h, authorised config h → E h) → fits 32 (cfg_registration_timeout_seconds config) →
  working config F s h → completes_registration completion (fst s) h →
  wp E (complete_registration_hash fuel completion)
    (λ r s' h', working config F s' h' ∧
       registration_result (ra_request_id (registration (fst s))) r (fst s') h' ∧
       ∃ new, h' = new ++ h ∧ (begins new <= 17)%nat) s h.
Proof.
  intros HE Htimeout Hw Hcr. pose proof Hcr as [Ha Hp Hty Htok Hjob Harr _].
  pose proof (working_client _ _ _ _ Hw) as Hc.
  destruct (active_registration _ Hc Ha) as (Hl & _). unfold complete_registration_hash.
  conn_step. conn_step.
  assert (∀ code new, working config F s (new ++ h) → (begins new <= 17)%nat →
    wp E (end_registration (ra_request_id (registration (fst s))) code)
      (λ r s' h', working config F s' h' ∧
         registration_result (ra_request_id (registration (fst s))) r (fst s') h' ∧
         ∃ new, h' = new ++ h ∧ (begins new <= 17)%nat) s (new ++ h)) as Hend.
  { intros code new Hw1 Hn. eapply wp_mono.
    - apply (end_registration_spec E F); [done|by apply (unbound_pending F s)|done].
    - intros r s' h' (Hw2 & -> & Hr). split; [done|]. split; [right; right; by eexists|by exists new]. }
  conn_step. eapply (wp_mono _ _ (λ first s' h', s' = s ∧ h' = h ∧
    (first ≠ 0 → hashed (cfg_registration_min_password_bytes config) (cstr (wc_encoded_hash completion)) h))).
  { destruct (bool_decide (wc_password_result completion = AUTHD_PASSWORD_OK)) eqn:Eok; bools; cbn [negb].
    - destruct (array_first (AUTHD_WORKER_HASH_MAX_BYTES + 1) _ eq_refl Harr) as [first Hfirst].
      eapply wp_lift; [exact Hfirst|]. split; [done|]. split; [done|]. by eapply completed_hash.
    - conn_step. done. }
  intros first s' h' (-> & -> & Hhash). destruct (Z.eqb_spec first 0) as [->|Hne].
  { apply (Hend FTAP_ERR_INTERNAL []); [done|cbn; lia]. }
  conn_step. eapply wp_mono; [apply (begin_registration_spec E F); auto|].
  { apply Hc. }
  intros [result r] s' h' (-> & (new & -> & Hn) & Hres). cbn [fst snd] in Hres.
  destruct result; try by apply Hend.
  eapply wp_mono; [by apply (bind_registration_spec E F)|].
  intros res s' h' (Hw2 & Hres2 & new2 & -> & Hn2). split; [done|]. split; [done|].
  exists (new2 ++ new). rewrite app_assoc, begins_app. split; [done|lia].
Qed.

(** *** Commit and abort *)

(** The request names the registration of the connection. *)
Lemma requested_registration_spec E F s h payload tail reason :
  working config F s h → bytes_ok (payload ++ tail) → zlen payload <= FTAP_MAX_PAYLOAD_SIZE →
  (∀ array, reason = Some array → array_ok (FTAP_REGISTRATION_REASON_MAX + 1) array) →
  wp E (requested_registration (Some (payload ++ tail)) (zlen payload) reason)
    (λ r s' h', s' = s ∧ h' = h ∧ (is_null r = false →
       ra_active (registration (fst s)) = true ∧ ra_database_pending (registration (fst s)) = true ∧
       ∃ fs, payload = payload_of fs ∧ value_of FTAP_FIELD_REGISTRATION_ID fs =
         Some (rb_registration_id (ra_record (registration (fst s)))))) s h.
Proof.
  intros Hw Hok Hlen Hreason. unfold requested_registration. conn_step. conn_step.
  destruct (ra_active (registration (fst s))) eqn:Ea; cbn [negb orb]; [|conn_step; done].
  destruct (ra_database_pending (registration (fst s))) eqn:Ep; cbn [negb orb]; [|conn_step; done].
  conn_step. destruct (parse_registration_id_spec payload tail reason) as (r & Hr & Hres); [done..|].
  eapply wp_lift; [exact Hr|]. destruct r as [[id set]|]; [|conn_step; done].
  destruct Hres as (fs & Hp & _ & _ & Hid & _). case_if; conn_step; [|done].
  bools. split; [done|]. split; [done|]. intros _. split; [done|]. split; [done|].
  exists fs. split; [done|congruence].
Qed.

(** The database refused, and the connection still holds its registration. *)
Definition still_held (request_id r : Z) (c c' : authd_client)
    (result : authd_database_registration_result) : Prop :=
  result ≠ AUTHD_DATABASE_REGISTRATION_OK ∧
  refuses request_id (registration_error_code result) 0 r c' ∧ registration c' = registration c.

(** The request names another registration, or none is bound. *)
Definition not_bound (request_id r : Z) (c' : authd_client) (h h' : list event) : Prop :=
  h' = h ∧ refuses request_id FTAP_ERR_INVALID_STATE 0 r c'.

Definition committed (r : Z) (c c' : authd_client) (h h' : list event) : Prop :=
  state c' = FTAP_STATE_SESSION_BOUND ∧ session_open c' = true ∧ ra_active (registration c') = false ∧
  ∃ ip tty node commit,
    h' = CommitRegistration (ra_record (registration c)) ip tty node
           (AUTHD_DATABASE_REGISTRATION_OK, commit) :: h ∧ session c' = rc_session commit.

Definition aborted (r : Z) (c c' : authd_client) (h h' : list event) : Prop :=
  state c' = FTAP_STATE_HELLO_COMPLETE ∧ ra_active (registration c') = false ∧
  ∃ reason, h' = AbortRegistration (rb_registration_id (ra_record (registration c)))
    (rb_user_id (ra_record (registration c))) reason AUTHD_DATABASE_REGISTRATION_OK :: h.

Definition committed_client (commit : authd_registration_commit_result) (c : authd_client) : authd_client :=
  set_state FTAP_STATE_SESSION_BOUND (registration_attempt_clear (bind_registration_session commit c)).

Lemma working_committed F s h commit ip tty node :
  working config F s h → ra_active (registration (fst s)) = true →
  ra_database_pending (registration (fst s)) = true → commit_typed commit →
  working config F (committed_client commit (fst s), snd s)
    (CommitRegistration (ra_record (registration (fst s))) ip tty node
       (AUTHD_DATABASE_REGISTRATION_OK, commit) :: h).
Proof.
  intros [[Hc Hx Hi [Ho Hp] [Ht1 Ht2 Ht3 Ht4 Ht5] Ha] Hfd] Hact Hpend [Hcid Hcs [Hn1 Hn2 Hn3]].
  destruct s as [c x]. cbn [fst snd] in *.
  destruct (active_registration c Hc Hact) as (Hl & Hso & _).
  destruct Hc as [Hc1 Hc2 Hc3 Hc4 Hc5 Hc6 Hc7 Hc8 Hc9 [Hp1 Hp2 Hp3 Hp4 Hp5]].
  split; [|done]. split; cbn [fst snd].
  - split; try done.
    + by apply zeros_ok.
    + apply zero_registration_typed.
    + apply bind_names_typed; try done; [apply Hn1|apply Hn2|apply Hn3|apply lit_bytes_ok..].
    + split; cbn; [congruence|congruence|by left|lia|auto].
  - done.
  - done.
  - split; cbn.
    + revert Ho. unfold held_session. rewrite Hso. apply acquire_subset.
    + revert Hp. unfold held_registration. rewrite Hact, Hpend. cbn.
      rewrite union_empty_r_L. apply release_subset.
  - split; cbn; [congruence..| |intros _; left; auto]. intros _. right.
    eexists _, _, _, _, _. split; [by left|done].
  - split; [|done]. by apply Ht3.
Qed.

Lemma commit_registration_spec E F s h header payload tail :
  working config F s h → bytes_ok (payload ++ tail) → zlen payload <= FTAP_MAX_PAYLOAD_SIZE →
  la_active (login (fst s)) = false →
  wp E (commit_registration header (Some (payload ++ tail)) (zlen payload))
    (λ r s' h', working config F s' h' ∧
       (committed r (fst s) (fst s') h h' ∨ not_bound (hdr_request_id header) r (fst s') h h' ∨
        ∃ ip tty node result commit,
          h' = CommitRegistration (ra_record (registration (fst s))) ip tty node (result, commit) :: h ∧
          still_held (hdr_request_id header) r (fst s) (fst s') result)) s h.
Proof.
  intros Hw Hok Hlen Hl. unfold commit_registration. conn_step.
  eapply wp_mono; [by apply (requested_registration_spec E F)|].
  intros requested s' h' (-> & -> & Hreq). destruct (is_null requested).
  { eapply wp_mono; [by apply working_reject_spec|]. intros r s' h' (Hw' & -> & Href).
    split; [done|]. right. by left. }
  destruct (Hreq eq_refl) as (Ha & Hp & _). conn_step. conn_step. conn_step. apply wp_service.
  intros [result commit] Hans. cbv beta iota. set (e := CommitRegistration _ _ _ _ _).
  pose proof (tr_begun _ _ _ (inv_tracked _ _ _ _ (proj1 Hw)) Ha Hp) as Hbegun.
  assert (commit_typed commit) as Hct.
  { match type of Hans with _ = env_commit ?h ?r ?i ?t ?n =>
      pose proof (law_commit h r i t n) as Ht end. by rewrite <- Hans in Ht. }
  destruct (bool_decide (result = AUTHD_DATABASE_REGISTRATION_OK)) eqn:Eok; bools; cbn [negb].
  2:{ assert (working config F s (e :: h)) as Hw1
        by (apply working_event; [done|by destruct result|done]).
      eapply wp_mono; [apply wp_and; [by apply working_reject_spec|]|].
      - apply reject_grip. by eapply working_client.
      - intros r s' h' [(Hw2 & -> & Href) Hgrip]. split; [done|]. right. right.
        eexists _, _, _, result, commit. split; [done|]. split; [done|]. split; [done|].
        by injection Hgrip. }
  subst result. conn_step. conn_step. conn_step. conn_step. conn_step. conn_step.
  assert (working config F (committed_client commit (fst s), snd s) (e :: h)) as Hb
    by (by apply working_committed).
  pose proof (working_client _ _ _ _ Hw) as Hc. conn_step. apply wp_respond.
  - apply queue_registration_commit_result_responds; [apply (ok_output _ Hc)|done].
  - cbn [Z.eqb negb]. conn_step. conn_step. conn_step.
    split; [|left; split_and!; try done; cbn; by eexists _, _, _, _].
    by apply (working_own_reason config F (committed_client commit (fst s), snd s) _
      (lit "registration_commit_response_failed")); [apply Hb|apply lit_bytes_ok|..].
  - intros out length close_after Hout Hd Hlen'. cbn [Z.eqb negb]. conn_step.
    split; [|left; split_and!; try done; cbn; by eexists _, _, _, _].
    by apply (working_queued F (committed_client commit (fst s), snd s)).
Qed.

Lemma hello_complete_ok c :
  client_ok c → 0 <= fd c → la_active (login c) = false → ra_active (registration c) = false →
  session_open c = false → client_ok (set_state FTAP_STATE_HELLO_COMPLETE c).
Proof.
  intros [Ho Hl Hi Hr Hn Hg Hs Hc He Hp] Hfd Hlogin Hra Hopen. split; try done.
  split; cbn; [congruence|congruence|congruence|lia|intros _; apply (ph_reason _ Hp); by left].
Qed.

Lemma abort_registration_spec E F s h header payload tail :
  working config F s h → bytes_ok (payload ++ tail) → zlen payload <= FTAP_MAX_PAYLOAD_SIZE →
  la_active (login (fst s)) = false →
  wp E (abort_registration header (Some (payload ++ tail)) (zlen payload))
    (λ r s' h', working config F s' h' ∧
       (aborted r (fst s) (fst s') h h' ∨ not_bound (hdr_request_id header) r (fst s') h h' ∨
        ∃ reason result,
          h' = AbortRegistration (rb_registration_id (ra_record (registration (fst s))))
                 (rb_user_id (ra_record (registration (fst s)))) reason result :: h ∧
          still_held (hdr_request_id header) r (fst s) (fst s') result)) s h.
Proof.
  intros Hw Hok Hlen Hl. unfold abort_registration. conn_step.
  eapply wp_mono; [apply (requested_registration_spec E F); [done..|]|].
  { intros array [= <-]. by apply zeros_ok. }
  intros requested s' h' (-> & -> & Hreq). destruct requested as [reason|].
  2:{ eapply wp_mono; [by apply working_reject_spec|]. intros r s' h' (Hw' & -> & Href).
      split; [done|]. right. by left. }
  destruct (Hreq eq_refl) as (Ha & Hp & _). conn_step. conn_step. conn_step. apply wp_service.
  intros result _. pose proof (working_abort F s h (cstr (default FTAP_REGISTRATION_REASON_CLIENT_CANCELLED reason))
    result Hw Ha Hp) as Hw1. pose proof (working_client _ _ _ _ Hw) as Hc.
  destruct (bool_decide (result = AUTHD_DATABASE_REGISTRATION_OK)) eqn:Eok; bools; cbn [negb].
  2:{ eapply wp_mono; [apply wp_and; [by apply working_reject_spec|by apply reject_grip]|].
      intros r s' h' [(Hw2 & -> & Href) Hgrip]. split; [done|]. right. right.
      eexists _, result. split; [done|]. split; [done|]. split; [done|]. by injection Hgrip. }
  subst result. conn_step. conn_step. conn_step. conn_step.
  pose proof (working_registration_clear F s _ Hw1 (aborted_pending F s h _ _
    AUTHD_DATABASE_REGISTRATION_OK Hw eq_refl)) as Hw2.
  assert (working config F (set_state FTAP_STATE_HELLO_COMPLETE (registration_attempt_clear (fst s)), snd s)
    (AbortRegistration (rb_registration_id (ra_record (registration (fst s))))
      (rb_user_id (ra_record (registration (fst s))))
      (cstr (default FTAP_REGISTRATION_REASON_CLIENT_CANCELLED reason))
      AUTHD_DATABASE_REGISTRATION_OK :: h)) as Hw3.
  { apply (working_same_grip config F (registration_attempt_clear (fst s), snd s)); [done| |done|done].
    apply hello_complete_ok; [by apply (working_client _ _ _ _ Hw2)|apply Hw|done|done|].
    by apply (active_registration _ Hc). }
  apply wp_respond.
  - apply queue_registration_abort_result_responds; [apply (ok_output _ Hc)|apply (ok_registration _ Hc)].
  - split; [done|]. left. split_and!; try done; by eexists.
  - intros out length close_after Hout Hd Hlen'.
    split; [|left; split_and!; try done; by eexists]. by apply (working_queued F (_, snd s)).
Qed.
End registration_invariant.

(** ** Properties *)

Lemma alphabet_valid :
  forallb (λ c, is_legacy_name_first_character c && is_legacy_name_character c && negb (c =? 0))
    AUTHD_LEGACY_RANDOM_ALPHABET = true.
Proof. vm_compute. reflexivity. Qed.

Lemma random_name_valid letters name :
  Forall (λ c, c ∈ AUTHD_LEGACY_RANDOM_ALPHABET) letters → random_name letters name →
  authd_legacy_name_is_valid (Some name) = Some true.
Proof.
  intros Hin (_ & -> & Hlen).
  assert (Forall (λ c, is_legacy_name_first_character c = true ∧ is_legacy_name_character c = true ∧ c ≠ 0)
    (take 8 letters)) as Hall.
  { apply Forall_take. eapply Forall_impl; [exact Hin|]. intros c Hc.
    pose proof alphabet_valid as Ha. rewrite forallb_Forall, Forall_forall in Ha.
    specialize (Ha c Hc). bools. done. }
  assert (length (take 8 letters) = 8%nat) as Htake by (rewrite length_take; lia).
  revert Hall Htake. generalize (take 8 letters). intros text Hall Hl.
  assert (Forall (λ b, b ≠ 0) text) as Hnz by (eapply Forall_impl; [exact Hall|]; by intros c (? & ? & ?)).
  unfold authd_legacy_name_is_valid, strlen. rewrite cstr_app_zero by done.
  unfold zlen. rewrite Hl. change (_ || _) with false. cbv iota.
  pose proof (legacy_loop text [] [0] Hnz) as Hloop. cbn [app] in Hloop. rewrite Hl in Hloop.
  change (zlen []) with 0 in Hloop. change (Z.to_nat (Z.of_nat 8)) with 8%nat. rewrite Hloop.
  rewrite decide_True by done. destruct text as [|c cs]; [done|].
  apply Forall_cons_1 in Hall as [(Hc & _) Hcs]. rewrite Hc. cbn [andb].
  replace (forallb is_legacy_name_character cs) with true; [done|]. symmetry.
  apply forallb_Forall. eapply Forall_impl; [exact Hcs|]. by intros c' (? & ? & ?).
Qed.

Lemma accepted_in_alphabet bytes :
  Forall (λ c, c ∈ AUTHD_LEGACY_RANDOM_ALPHABET) (accepted_letters bytes).
Proof.
  unfold accepted_letters. apply Forall_fmap, Forall_true. intros b. cbn.
  pose proof (alphabet_letter b) as Hl. apply buf_get_Some in Hl as [_ Hl].
  by eapply list_elem_of_lookup_2.
Qed.

(** A name from [generate_random_legacy_name] has the first eight of the letters
    that the bytes of the system's generator select, and is a valid legacy name.
    No letter is more likely than another: of the 256 values of a byte, each
    letter is selected by eight, and the other values are passed over. *)
Theorem generate_random_legacy_name_correct `{EnvironmentLaws} {S} fuel name (s : S) h :
  array_ok (FTAP_LEGACY_NAME_MAX + 1) name →
  wp (λ _, True) (generate_random_legacy_name fuel name)
    (λ r s' h', s' = s ∧ ∃ new, h' = new ++ h ∧
       ∀ name', r = Some name' →
         cstr name' = take 8 (accepted_letters (entropy new)) ∧ zlen name' = FTAP_LEGACY_NAME_MAX + 1 ∧
         authd_legacy_name_is_valid (Some name') = Some true) s h ∧
  (∀ letter, letter ∈ AUTHD_LEGACY_RANDOM_ALPHABET →
     length (filter (λ b, accepted_letters [b] = [letter]) (seqZ 0 256)) = 8%nat).
Proof.
  intros Hname. split.
  - eapply wp_mono; [apply (generate_spec law_random _ (λ _, True)); done|].
    intros r s' h' (-> & _ & new & -> & Hr). split; [done|]. exists new. split; [done|].
    intros name' Hn. pose proof (Hr name' Hn) as Hname'.
    assert (authd_legacy_name_is_valid (Some name') = Some true) as Hv
      by (eapply random_name_valid; [apply accepted_in_alphabet|done]).
    destruct Hname' as ([_ Hlen] & Hq & _). split; [|done]. rewrite Hq. apply cstr_app_zero.
    apply Forall_take. eapply Forall_impl; [apply accepted_in_alphabet|]. intros c Hc.
    pose proof alphabet_valid as Ha. rewrite forallb_Forall, Forall_forall in Ha.
    specialize (Ha c Hc). by bools.
  - apply Forall_forall. apply (bool_decide_unpack _). vm_compute. exact I.
Qed.

(** The loops of [generate_random_legacy_name] end: a generator that delivers
    what it is asked for, with at least one byte in each block that selects a
    letter, gives a name. *)
Theorem generate_random_legacy_name_ends `{EnvironmentLaws} {S} fuel name (s : S) h :
  array_ok (FTAP_LEGACY_NAME_MAX + 1) name → (9 <= fuel)%nat →
  (∀ h size, 0 < size → ∃ bytes, env_random h size = inl bytes ∧ zlen bytes = size ∧
     accepted_letters bytes ≠ []) →
  ∃ name' h', generate_random_legacy_name fuel name s h = Some (Done (Some name') s h').
Proof. intros. by apply (generate_ends law_random). Qed.

(** C24: [start_registration] is never stuck and keeps the invariant of the daemon.
    It gives the password of the request to the workers exactly when the connection
    is idle, registrations are enabled, the request is complete and well formed, the
    limiter has admitted and counted the source address of the request at the time
    of the clock, and that password has the configured length; the attempt that then
    waits holds what the request says. Otherwise the connection ends with the error
    of the first of these conditions that fails, and with nothing submitted, unless
    it is the submission that fails. *)
Theorem start_registration_correct `{EnvironmentLaws} `{InetLaws} config F s h header payload tail :
  working config F s h → bytes_ok (payload ++ tail) → zlen payload <= FTAP_MAX_PAYLOAD_SIZE →
  la_active (login (fst s)) = false →
  wp (λ _, False) (start_registration header (Some (payload ++ tail)) (zlen payload))
    (λ r s' h', working config F s' h' ∧
       (hash_started config s s' (hdr_request_id header) payload r h h' ∨
        registration_refused config s s' (hdr_request_id header) payload r h h')) s h.
Proof. intros. by apply start_registration_spec. Qed.

(** C6: [complete_registration_hash], for the completion of the job of a
    registration, is never stuck and keeps the invariant of the daemon: it asks
    at most 17 times for a registration, with a hash that the workers made. If
    one is reserved the connection is bound to it until the configured deadline,
    or has to be reset; if not, or if there is no deadline, the connection ends
    with an error and holds no registration. *)
Theorem complete_registration_hash_correct `{EnvironmentLaws} config F fuel s h completion :
  fits 32 (cfg_registration_timeout_seconds config) →
  working config F s h → completes_registration config completion (fst s) h →
  wp (authorised config) (complete_registration_hash fuel completion)
    (λ r s' h', working config F s' h' ∧
       registration_result config (ra_request_id (registration (fst s))) r (fst s') h' ∧
       ∃ new, h' = new ++ h ∧ (begins new <= 17)%nat) s h.
Proof. intros. by apply complete_registration_hash_spec. Qed.

(** [commit_registration] and [abort_registration] are never stuck and keep the
    invariant of the daemon. They ask the database to commit or abort exactly
    the registration of their connection, and only if the request names it. A
    commit binds the connection to the new session; an abort lets the peer start
    over; a failure ends the connection, which still holds its registration. *)
Theorem registration_requests_correct `{EnvironmentLaws} config F s h header payload tail :
  working config F s h → bytes_ok (payload ++ tail) → zlen payload <= FTAP_MAX_PAYLOAD_SIZE →
  la_active (login (fst s)) = false →
  wp (λ _, False) (commit_registration header (Some (payload ++ tail)) (zlen payload))
    (λ r s' h', working config F s' h' ∧
       (committed r (fst s) (fst s') h h' ∨ not_bound (hdr_request_id header) r (fst s') h h' ∨
        ∃ ip tty node result commit,
          h' = CommitRegistration (ra_record (registration (fst s))) ip tty node (result, commit) :: h ∧
          still_held (hdr_request_id header) r (fst s) (fst s') result)) s h ∧
  wp (λ _, False) (abort_registration header (Some (payload ++ tail)) (zlen payload))
    (λ r s' h', working config F s' h' ∧
       (aborted r (fst s) (fst s') h h' ∨ not_bound (hdr_request_id header) r (fst s') h h' ∨
        ∃ reason result,
          h' = AbortRegistration (rb_registration_id (ra_record (registration (fst s))))
                 (rb_user_id (ra_record (registration (fst s)))) reason result :: h ∧
          still_held (hdr_request_id header) r (fst s) (fst s') result)) s h.
Proof. split; [by apply commit_registration_spec|by apply abort_registration_spec]. Qed.

(** ** Sample runs *)

Lemma sample_random h size :
  0 < size → ∃ bytes, @env_random known h size = inl bytes ∧ zlen bytes = size ∧
    accepted_letters bytes ≠ [].
Proof.
  intros Hs. cbn. rewrite (proj2 (Z.ltb_ge _ _)) by lia. eexists. split; [done|]. split.
  - unfold zlen. rewrite length_replicate. lia.
  - destruct (Z.to_nat size) eqn:E; [lia|]. discriminate.
Qed.

Lemma sample_zeros : array_ok (FTAP_LEGACY_NAME_MAX + 1) (zeros 9).
Proof. by apply zeros_ok. Qed.

Lemma generate_random_legacy_name_ends_witness :
  array_ok (FTAP_LEGACY_NAME_MAX + 1) (zeros 9) ∧
  ∃ name h, @generate_random_legacy_name known unit 9 (zeros 9) tt [] = Some (Done (Some name) tt h).
Proof.
  split; [exact sample_zeros|].
  apply (@generate_random_legacy_name_ends known (quiet_sample_laws _) unit 9 (zeros 9) tt []);
    [exact sample_zeros|lia|exact sample_random].
Defined.

Lemma generate_random_legacy_name_correct_witness :
  ∃ name h, @generate_random_legacy_name known unit 9 (zeros 9) tt [] = Some (Done (Some name) tt h) ∧
    authd_legacy_name_is_valid (Some name) = Some true ∧ cstr name = lit "hhhhhhhh".
Proof.
  destruct (@generate_random_legacy_name_correct known (quiet_sample_laws _) unit 9 (zeros 9) tt []
    sample_zeros) as [Hwp _].
  assert (match @generate_random_legacy_name known unit 9 (zeros 9) tt [] with
    | Some (Done (Some name) _ _) => Some (cstr name) | _ => None end = Some (lit "hhhhhhhh")) as Hrun
    by (vm_compute; reflexivity).
  unfold wp in Hwp. destruct (@generate_random_legacy_name known unit 9 (zeros 9) tt []) as [[r s h|]|];
    [|discriminate..]. destruct r as [name|]; [|discriminate]. destruct Hwp as (-> & new & _ & Hr).
  exists name, h. split; [done|]. split; [apply (Hr name eq_refl)|congruence].
Defined.

(** A registration as a terminal sends it. *)
Definition example_registration_request : list field :=
  [Field FTAP_FIELD_LOGIN_NAME 0 (lit "Neo_42"); Field FTAP_FIELD_DISPLAY_NAME 0 (lit "Neo");
   Field FTAP_FIELD_PASSWORD 0 (lit "follow-the-rabbit"); Field FTAP_FIELD_PROTOCOL 0 (lit "telnet");
   Field FTAP_FIELD_SOURCE_IP 0 (lit "192.0.2.11"); Field FTAP_FIELD_AUTH_METHOD 0 (lit "password")].

Lemma start_registration_correct_witness :
  working sample_config sample_frame (sample_client, sample_context) [] ∧
  ∃ s h, @start_registration known dotted_quad
      (example_header (payload_of example_registration_request))
      (Some (payload_of example_registration_request ++ []))
      (zlen (payload_of example_registration_request))
      (sample_client, sample_context) [] = Some (Done 0 s h) ∧
    state (fst s) = FTAP_STATE_REGISTERING ∧ authorised sample_config h.
Proof.
  split; [exact sample_working|].
  assert (match @start_registration known dotted_quad
      (example_header (payload_of example_registration_request))
      (Some (payload_of example_registration_request ++ []))
      (zlen (payload_of example_registration_request)) (sample_client, sample_context) [] with
    | Some (Done r s h) => Some (r, state (fst s)) | _ => None end
    = Some (0, FTAP_STATE_REGISTERING)) as Hrun by (vm_compute; reflexivity).
  destruct (wp_ends _ _ _ _ (@start_registration_correct known (quiet_sample_laws _) dotted_quad _
    sample_config sample_frame (sample_client, sample_context) []
    (example_header (payload_of example_registration_request))
    (payload_of example_registration_request) [] sample_working
    ltac:(apply (bool_decide_unpack _); vm_compute; exact I) ltac:(vm_compute; congruence) eq_refl))
    as (r & s & h & E & Hw & _).
  rewrite E in Hrun. injection Hrun as -> Hst. exists s, h. split; [exact E|]. split; [exact Hst|].
  exact (working_authorised _ _ _ _ Hw).
Defined.

(** The connection of [sample_client] while its password is hashed. *)
Definition sample_registration : authd_registration_attempt :=
  ra_activate 1 1 (ra_set_login_name (example_array 33 (lit "neo_42")) zero_registration_attempt).

Definition sample_registering : conn :=
  (set_state FTAP_STATE_REGISTERING (set_registration sample_registration sample_client), sample_context).

Definition sample_hash : authd_worker_completion :=
  WorkerCompletion 1 (WorkerToken 1 1 1) AUTHD_WORKER_JOB_GENERATE_PASSWORD_HASH AUTHD_PASSWORD_OK
    false (example_array 256 (lit "$argon2id$hash")).

Definition sample_hash_history : list event :=
  [TakeCompletion (Some sample_hash);
   SubmitGenerate (WorkerToken 1 1 1) (lit "follow-the-rabbit") (AUTHD_WORKER_SUBMIT_OK, 1)].

Lemma sample_registering_ok a h :
  array_ok (FTAP_LOGIN_NAME_MAX + 1) (ra_login_name a) → registration_typed (ra_record a) →
  let c := set_state FTAP_STATE_REGISTERING (set_registration a sample_client) in
  accounted sample_frame c h → tracked sample_config c h → authorised sample_config h →
  working sample_config sample_frame (c, sample_context) h.
Proof.
  intros Hname Htyped c Hacc Ht Hau.
  destruct sample_working as [[[Hc1 Hc2 Hc3 Hc4 _ _ Hc7 Hc8 Hc9 _] Hx Hi _ _ _] Hfd].
  split; [|exact Hfd]. split; try assumption. split; try assumption.
  split; [discriminate| |discriminate|cbn; lia|intros _; left; reflexivity]. intros _. split; [reflexivity|by left].
Qed.

Lemma sample_hash_tracked older :
  tracked sample_config (fst sample_registering) (older ++ drop 1 sample_hash_history).
Proof.
  split; [discriminate| |discriminate..]. intros _ _. exists (lit "follow-the-rabbit").
  split; [vm_compute; congruence|]. apply elem_of_app. right. by left.
Qed.

Lemma sample_hash_array : array_ok (AUTHD_WORKER_HASH_MAX_BYTES + 1) (wc_encoded_hash sample_hash).
Proof. split; [by apply bytes_ok_decide|reflexivity]. Qed.

Lemma sample_login_array : array_ok (FTAP_LOGIN_NAME_MAX + 1) (ra_login_name sample_registration).
Proof. split; [by apply bytes_ok_decide|reflexivity]. Qed.

Lemma sample_registering_working :
  working sample_config sample_frame sample_registering sample_hash_history.
Proof.
  apply sample_registering_ok; [exact sample_login_array|exact zero_registration_typed| | |].
  - split; apply empty_subseteq.
  - apply (sample_hash_tracked [TakeCompletion (Some sample_hash)]).
  - split; [exact I|]. split; exact I.
Qed.

Lemma sample_completes_registration :
  completes_registration sample_config sample_hash (fst sample_registering) sample_hash_history.
Proof.
  split; try reflexivity; [exact sample_hash_array|].
  eexists. split; [reflexivity|]. apply (sample_hash_tracked []).
Qed.

Lemma complete_registration_hash_correct_witness :
  working sample_config sample_frame sample_registering sample_hash_history ∧
  ∃ s h, @complete_registration_hash known 9 sample_hash sample_registering sample_hash_history
      = Some (Done 0 s h) ∧
    authorised sample_config h ∧ ra_deadline_ms (registration (fst s)) = 700000.
Proof.
  split; [exact sample_registering_working|].
  assert (match @complete_registration_hash known 9 sample_hash sample_registering
      sample_hash_history with
    | Some (Done r s h) => Some (r, ra_deadline_ms (registration (fst s))) | _ => None end
    = Some (0, 700000)) as Hrun by (vm_compute; reflexivity).
  pose proof (@complete_registration_hash_correct known (quiet_sample_laws _) sample_config
    sample_frame 9 sample_registering sample_hash_history sample_hash
    ltac:(split; vm_compute; congruence) sample_registering_working sample_completes_registration) as Hwp.
  apply wp_outcome in Hwp.
  destruct (@complete_registration_hash known 9 sample_hash sample_registering sample_hash_history)
    as [[r s h|]|]; [|discriminate..].
  destruct Hwp as [Hw _]. injection Hrun as -> Hd. exists s, h. split; [reflexivity|].
  split; [exact (working_authorised _ _ _ _ Hw)|exact Hd].
Defined.

(** The connection of [sample_client] with a reserved registration. *)
Definition sample_bound : conn :=
  (set_state FTAP_STATE_REGISTERING
     (set_registration (ra_set_deadline 700000 (ra_set_pending example_registration sample_registration))
        sample_client), sample_context).

Definition sample_begin : event :=
  BeginRegistration (lit "neo_42") (lit "Neo") (lit "$argon2id$hash") (lit "neo_42") (lit "192.0.2.11")
    None None 600 8 (AUTHD_DATABASE_REGISTRATION_OK, example_registration).

Definition sample_bound_history : list event := sample_begin :: sample_hash_history.

Lemma sample_bound_working :
  working sample_config sample_frame sample_bound sample_bound_history.
Proof.
  apply sample_registering_ok; [exact sample_login_array|apply example_registration_typed| | |].
  - split; [apply empty_subseteq|]. cbn. set_solver.
  - split; [discriminate|discriminate| |discriminate..]. intros _ _.
    eexists _, _, _, _, _, _, _, _, _. by left.
  - split; [|split; [exact I|split; exact I]]. split; [reflexivity|]. split; [reflexivity|].
    split; [discriminate|]. exists sample_hash. split; [by left|]. split_and!; try reflexivity.
    exists (lit "follow-the-rabbit"). split; [vm_compute; congruence|]. right. by left.
Qed.

Definition example_registration_id : list field :=
  [Field FTAP_FIELD_REGISTRATION_ID 0 (rb_registration_id example_registration)].

Lemma registration_requests_correct_witness :
  working sample_config sample_frame sample_bound sample_bound_history ∧
  (∃ s h, @commit_registration known (example_header (payload_of example_registration_id))
      (Some (payload_of example_registration_id ++ [])) (zlen (payload_of example_registration_id))
      sample_bound sample_bound_history = Some (Done 0 s h) ∧
    authorised sample_config h ∧ session_open (fst s) = true) ∧
  (∃ s h, @abort_registration known (example_header (payload_of example_registration_id))
      (Some (payload_of example_registration_id ++ [])) (zlen (payload_of example_registration_id))
      sample_bound sample_bound_history = Some (Done 0 s h) ∧
    authorised sample_config h ∧ state (fst s) = FTAP_STATE_HELLO_COMPLETE).
Proof.
  split; [exact sample_bound_working|].
  pose proof (@registration_requests_correct known (quiet_sample_laws _) sample_config sample_frame
    sample_bound sample_bound_history (example_header (payload_of example_registration_id))
    (payload_of example_registration_id) [] sample_bound_working
    ltac:(apply (bool_decide_unpack _); vm_compute; exact I) ltac:(vm_compute; congruence) eq_refl) as [Hc Ha].
  apply wp_ends in Hc as (r & s & h & Ec & Hwc & _), Ha as (r' & s' & h' & Ea & Hwa & _). split.
  - assert (match @commit_registration known (example_header (payload_of example_registration_id))
        (Some (payload_of example_registration_id ++ [])) (zlen (payload_of example_registration_id))
        sample_bound sample_bound_history with
      | Some (Done r s h) => Some (r, session_open (fst s)) | _ => None end
      = Some (0, true)) as Hrun by (vm_compute; reflexivity).
    rewrite Ec in Hrun. injection Hrun as -> Hs. exists s, h. split; [exact Ec|].
    split; [exact (working_authorised _ _ _ _ Hwc)|exact Hs].
  - assert (match @abort_registration known (example_header (payload_of example_registration_id))
        (Some (payload_of example_registration_id ++ [])) (zlen (payload_of example_registration_id))
        sample_bound sample_bound_history with
      | Some (Done r s h) => Some (r, state (fst s)) | _ => None end
      = Some (0, FTAP_STATE_HELLO_COMPLETE)) as Hrun by (vm_compute; reflexivity).
    rewrite Ea in Hrun. injection Hrun as -> Hs. exists s', h'. split; [exact Ea|].
    split; [exact (working_authorised _ _ _ _ Hwa)|exact Hs].
Defined.
