(* ===== verification/Frames.v ===== *)
(** * Frames

    [fortytwo-auth/src/authd_server.c]: what the daemon does with the bytes of
    a connection. [handle_complete_frame] dispatches a request,
    [process_client_input] takes the frames out of the input buffer one by one,
    [read_client] and [write_client] move bytes between the buffers and the
    socket. The loop of [process_client_input] ends by itself; those around
    [recv] and [send] end when the socket would block, and take fuel. *)

From S2P Require Import Prelude Protocol Words Utf8 Codec Inet Schema Identity Throttle Limiter Program Services Client Requests Connection Login Registration.

(** ** Definitions *)

Section frames.
Context `{Environment} `{Inet}.

Definition zero_header : ftap_frame_header := FrameHeader 0 0 0 0 0 0.

(** A frame that the schema refuses. *)
Definition refuse_frame (request_id error_code : Z) : handler Z :=
  let* c := client in
  do* (if la_active (login c) then
         do* assign login_attempt_clear in
         enter FTAP_STATE_CLOSING
       else ret tt) in
  respond (λ c, queue_error c request_id error_code).

Definition handle_complete_frame (header : ftap_frame_header) (payload : ptr)
    (payload_length : Z) : handler Z :=
  let request_id := hdr_request_id header in
  let message type := hdr_message_type header =? type in
  let* c := client in
  let* (status, _) := lift (ftap_validate_message (state c) (Some header) payload payload_length
    (Some (ValidationError FTAP_STATUS_OK 0 0))) in
  if negb (status_ok status) then refuse_frame request_id (map_status_to_error status)
  else if bool_decide (state c = FTAP_STATE_CONNECTED) && message FTAP_MSG_HELLO then
    let* supported := lift (hello_versions_are_supported payload payload_length) in
    if negb supported
    then respond (λ c, queue_error c request_id FTAP_ERR_UNSUPPORTED_VERSION)
    else
      let* queued := respond (λ c,
        queue_frame c FTAP_MSG_HELLO_OK FTAP_FRAME_FLAG_RESPONSE request_id None 0 false) in
      if negb (queued =? 0) then ret (-1)
      else
        do* enter FTAP_STATE_HELLO_COMPLETE in
        do* assign (set_hello_deadline_ms 0) in
        ret 0
  else if message FTAP_MSG_AUTH_PASSWORD_REQUEST
  then start_password_login header payload payload_length
  else if message FTAP_MSG_REGISTRATION_BEGIN_REQUEST
  then start_registration header payload payload_length
  else if message FTAP_MSG_REGISTRATION_COMMIT_REQUEST
  then commit_registration header payload payload_length
  else if message FTAP_MSG_REGISTRATION_ABORT_REQUEST
  then abort_registration header payload payload_length
  else if message FTAP_MSG_SESSION_CONTEXT_REQUEST && bool_decide (state c = FTAP_STATE_SESSION_BOUND)
  then respond (λ c, queue_session_context_result c request_id)
  else if message FTAP_MSG_SESSION_CLOSE && bool_decide (state c = FTAP_STATE_SESSION_BOUND)
  then close_bound_session payload payload_length
  else reject request_id FTAP_ERR_INTERNAL.

(** [memmove(input, input + consumed, remaining)] between two wipes; the result is
    the buffer. *)
Definition shift_input (buffer : list Z) (consumed remaining : Z) (sensitive : bool) : run (list Z) :=
  let! buffer := if sensitive then wipe buffer 0 consumed else Some buffer in
  let! buffer :=
    if 0 <? remaining then
      let! data := buf_read buffer consumed remaining in
      buf_write buffer 0 data
    else Some buffer in
  if sensitive then wipe buffer remaining consumed else Some buffer.

Definition consume_input (consumed : Z) (sensitive : bool) : handler unit :=
  let* c := client in
  if input_used c <? consumed then ret tt
  else
    let remaining := input_used c - consumed in
    let* buffer := lift (deref (input c)) in
    let* buffer := lift (shift_input buffer consumed remaining sensitive) in
    assign (λ c, set_expected_frame_size 0 (set_input_used remaining (set_input (Some buffer) c))).

(** The requests with a password. *)
Definition is_sensitive (header : ftap_frame_header) : bool :=
  (hdr_message_type header =? FTAP_MSG_AUTH_PASSWORD_REQUEST)
  || (hdr_message_type header =? FTAP_MSG_REGISTRATION_BEGIN_REQUEST).

(** One iteration of [process_client_input]. *)
Definition process_step : handler (option Z) :=
  let* c := client in
  if busy c then ret (Some 0)
  else if input_used c <? FTAP_FRAME_HEADER_SIZE then ret (Some 0)
  else
    let* (status, header) :=
      lift (ftap_frame_header_decode (input c) (input_used c) (Some zero_header)) in
    let* header := lift (deref header) in
    if negb (status_ok status) then
      if bool_decide (status = FTAP_STATUS_ERR_MAGIC)
         || (hdr_request_id header <? FTAP_FIRST_CLIENT_REQUEST_ID)
      then ret (Some (-1))
      else
        let* queued := refuse_frame (hdr_request_id header)
          (if bool_decide (status = FTAP_STATUS_ERR_LENGTH)
           then FTAP_ERR_MESSAGE_TOO_LARGE else map_status_to_error status) in
        ret (Some (if negb (queued =? 0) then -1 else 0))
    else
      let frame_size := FTAP_FRAME_HEADER_SIZE + hdr_payload_length header in
      do* assign (set_expected_frame_size frame_size) in
      if input_used c <? frame_size then ret (Some 0)
      else
        let* buffer := lift (deref (input c)) in
        let* payload := lift (buf_at buffer FTAP_FRAME_HEADER_SIZE) in
        let* result := handle_complete_frame header (Some payload) (hdr_payload_length header) in
        if negb (result =? 0) then ret (Some (-1))
        else
          do* consume_input frame_size (is_sensitive header) in
          ret None.

(** Every frame has at least the size of a header. *)
Definition frames_fuel : nat := Z.to_nat (FTAP_MAX_FRAME_SIZE / FTAP_FRAME_HEADER_SIZE + 1).

Definition process_client_input : handler Z := repeat_ frames_fuel process_step.

(** Received bytes are appended to the input. *)
Definition store_input (bytes : list Z) : handler unit :=
  let* c := client in
  let* buffer := lift (deref (input c)) in
  let* buffer := lift (buf_write buffer (input_used c) bytes) in
  assign (λ c, set_input_used (input_used c + zlen bytes) (set_input (Some buffer) c)).

Definition read_step : handler (option Z) :=
  let* c := client in
  if busy c then ret (Some 0)
  else if FTAP_MAX_FRAME_SIZE <=? input_used c then ret (Some (-1))
  else
    let* received := recv (fd c) (FTAP_MAX_FRAME_SIZE - input_used c) in
    match received with
    | inl bytes =>
        if 0 <? zlen bytes then
          do* store_input bytes in
          let* result := process_client_input in
          if negb (result =? 0) then ret (Some (-1))
          else
            let* c := client in
            ret (if output_offset c <? output_length c then Some 0 else None)
        else ret (Some (-1))
    | inr EINTR => ret None
    | inr EAGAIN => ret (Some 0)
    | inr EOTHER => ret (Some (-1))
    end.

Definition read_client (fuel : nat) : handler Z := repeat_ fuel read_step.

Definition send_client_bytes (fd : Z) (data : list Z) : handler (Z + io_error) := send fd data.

(** One iteration of the loop of [write_client]: a result, [Some None] at its end. *)
Definition write_step : handler (option (option Z)) :=
  let* c := client in
  if output_offset c <? output_length c then
    let* data := lift (buf_read (output c) (output_offset c) (output_length c - output_offset c)) in
    let* sent := send_client_bytes (fd c) data in
    match sent with
    | inl count =>
        if 0 <? count then
          do* assign (λ c, set_output_offset (output_offset c + count) c) in
          ret None
        else ret (Some (Some (-1)))
    | inr EINTR => ret None
    | inr EAGAIN => ret (Some (Some 0))
    | inr EOTHER => ret (Some (Some (-1)))
    end
  else ret (Some None).

Definition send_output (fuel : nat) : handler (option Z) := repeat_ fuel write_step.

Definition write_client (fuel : nat) : handler Z :=
  let* finished := send_output fuel in
  match finished with
  | Some result => ret result
  | None =>
      do* assign (λ c, set_output_offset 0 (set_output_length 0 c)) in
      let* c := client in
      if close_after_write c then ret (-1) else process_client_input
  end.

(** Why a connection whose input or output failed ends. *)
Definition client_io_end_reason (c : authd_client) : run (list Z) :=
  if session_open c then
    let! first := buf_get (pending_end_reason c) 0 in
    Some
      (if negb (first =? 0) then pending_end_reason c
       else if bool_decide (state c = FTAP_STATE_SESSION_BOUND)
               && (output_offset c <? output_length c) && negb (close_after_write c)
       then lit "auth_response_failed"
       else if close_after_write c then lit "protocol_error"
       else lit "peer_disconnected")
  else Some (lit "peer_disconnected").
End frames.

(** ** What the handlers leave alone

    The socket and the identity of a connection change only when it is accepted
    and when it ends, its input buffer only where bytes are moved; and a handler
    adds to the history and does not change it. *)

Definition identity (c : authd_client) := (fd c, connection_id c, connection_generation c, peer c).

Definition place (c : authd_client) := (identity c, input c, input_used c).

(** The history [h'] goes on from [h]. *)
Definition extends (h h' : list event) : Prop := ∃ new, h' = new ++ h.

#[export] Instance extends_preorder : PreOrder extends.
Proof.
  split; [by intros h; exists []|]. intros h1 h2 h3 [n1 ->] [n2 ->]. exists (n2 ++ n1).
  by rewrite app_assoc.
Qed.

Section keeps.
Context {A : Type} (view : authd_client → A).

Definition keeps {B} (m : handler B) : Prop :=
  ∀ s h, match m s h with
         | Some (Done _ s' h') => view (fst s') = view (fst s) ∧ extends h h'
         | Some (Exhausted h') => extends h h'
         | None => True
         end.

Lemma keeps_bind {B C} (m : handler B) (k : B → handler C) :
  keeps m → (∀ b, keeps (k b)) → keeps (bind m k).
Proof.
  intros Hm Hk s h. unfold bind. specialize (Hm s h). destruct (m s h) as [[b s' h'|h']|]; try done.
  run_simpl. destruct Hm as [Hv Hh]. specialize (Hk b s' h').
  destruct (k b s' h') as [[c s2 h2|h2]|]; [|by etrans|done].
  destruct Hk as [Hv2 Hh2]. split; [congruence|by etrans].
Qed.

Lemma keeps_ret {B} (b : B) : keeps (ret b).
Proof. by intros s h. Qed.

Lemma keeps_gets {B} (f : conn → B) : keeps (gets f).
Proof. by intros s h. Qed.

Lemma keeps_assign f : (∀ c, view (f c) = view c) → keeps (assign f).
Proof. intros Hf s h. split; [apply Hf|done]. Qed.

Lemma keeps_assign_context f : keeps (assign_context f).
Proof. by intros s h. Qed.

Lemma keeps_lift {B} (r : run B) : keeps (lift r).
Proof. intros s h. unfold lift. by destruct r. Qed.

Lemma keeps_service {B} (answer : list event → B) record : keeps (service answer record).
Proof. intros s h. split; [done|]. by exists [record (answer h)]. Qed.

Definition queue_keeps (queue : authd_client → run (Z * authd_client)) : Prop :=
  ∀ c r c', queue c = Some (r, c') → view c' = view c.

Lemma keeps_respond queue : queue_keeps queue → keeps (respond queue).
Proof.
  intros Hq [c x] h. unfold respond. cbn [fst snd].
  destruct (queue c) as [[r c']|] eqn:E; [|done]. run_simpl. by apply Hq in E.
Qed.

Lemma keeps_exhausted {B} : keeps (λ _ h, Some (Exhausted (A := B) h)).
Proof. by intros s h. Qed.

Lemma keeps_iterate {L R} fuel (body : L → handler (L + R)) l :
  (∀ l, keeps (body l)) → keeps (iterate fuel body l).
Proof.
  intros Hb. revert l. induction fuel as [|fuel IH]; intros l; [apply keeps_exhausted|].
  cbn [iterate]. apply keeps_bind; [done|]. intros [l'|r]; [apply IH|apply keeps_ret].
Qed.

Lemma keeps_repeat {R} fuel (body : handler (option R)) : keeps body → keeps (repeat_ fuel body).
Proof.
  intros Hb. induction fuel as [|fuel IH]; [apply keeps_exhausted|].
  cbn [repeat_]. apply keeps_bind; [done|]. intros [r|]; [apply keeps_ret|apply IH].
Qed.

Lemma wp_keeps {B} E (m : handler B) Q s h :
  keeps m → wp E m Q s h →
  wp E m (λ b s' h', Q b s' h' ∧ view (fst s') = view (fst s)) s h.
Proof. intros Hm. specialize (Hm s h). unfold wp. destruct (m s h) as [[]|]; tauto. Qed.

Lemma wp_grows {B} E (m : handler B) Q s h :
  keeps m → wp E m Q s h → wp E m (λ b s' h', Q b s' h' ∧ view (fst s') = view (fst s) ∧ extends h h') s h.
Proof. intros Hm. specialize (Hm s h). unfold wp. destruct (m s h) as [[]|]; tauto. Qed.
End keeps.

Create HintDb keeps.
#[export] Hint Resolve keeps_ret keeps_gets keeps_assign_context keeps_lift keeps_service : keeps.

(** Only the output of a connection changes when a frame is queued. *)
Definition beside_output (c : authd_client) := (place c, state c, grip c).

Lemma queue_frame_keeps message_type flags request_id (payload : ptr) length close_after :
  queue_keeps beside_output
    (λ c, queue_frame c message_type flags request_id payload length close_after).
Proof.
  intros c r c'. unfold queue_frame. case_if; [by intros [= <- <-]|].
  destruct (ftap_frame_header_encode _ _) as [[status out]|]; [|done]. run_simpl.
  destruct out as [out|]; [|done]. cbn [deref]. run_simpl. case_if; [by intros [= <- <-]|].
  destruct (if 0 <? length then _ else _) as [out'|]; [|done]. run_simpl. by intros [= <- <-].
Qed.

Lemma queue_payload_keeps message_type flags request_id close_after st :
  queue_keeps beside_output (λ c, queue_payload c message_type flags request_id close_after st).
Proof.
  intros c r c'. unfold queue_payload. destruct st as [[status writer]|]; [|done]. run_simpl.
  case_if; [by intros [= <- <-]|]. destruct writer as [w|]; [|done]. cbn [deref]. run_simpl.
  apply queue_frame_keeps.
Qed.

Lemma queue_error_with_retry_keeps request_id code retry :
  queue_keeps beside_output (λ c, queue_error_with_retry c request_id code retry).
Proof.
  intros c r c'. unfold queue_error_with_retry. case_if; [by intros [= <- <-]|].
  apply queue_payload_keeps.
Qed.

Lemma queue_error_keeps request_id code : queue_keeps beside_output (λ c, queue_error c request_id code).
Proof. apply queue_error_with_retry_keeps. Qed.

Lemma queue_authentication_result_keeps request_id attempt s :
  queue_keeps beside_output (λ c, queue_authentication_result c request_id attempt s).
Proof. apply queue_payload_keeps. Qed.

Lemma queue_begin_keeps request_id r :
  queue_keeps beside_output (λ c, queue_registration_begin_result c request_id r).
Proof. apply queue_payload_keeps. Qed.

Lemma queue_abort_keeps request_id r :
  queue_keeps beside_output (λ c, queue_registration_abort_result c request_id r).
Proof. apply queue_payload_keeps. Qed.

Lemma queue_commit_keeps request_id commit :
  queue_keeps beside_output (λ c, queue_registration_commit_result c request_id commit).
Proof. apply queue_payload_keeps. Qed.

Lemma queue_session_context_result_keeps request_id :
  queue_keeps beside_output (λ c, queue_session_context_result c request_id).
Proof.
  intros c r c'. unfold queue_session_context_result. case_if; [by intros [= <- <-]|].
  apply queue_payload_keeps.
Qed.

Lemma queue_keeps_place queue : queue_keeps beside_output queue → queue_keeps place queue.
Proof. intros Hq c r c' E. exact (f_equal (λ x, fst (fst x)) (Hq c r c' E)). Qed.

Lemma keeps_queue {A} (view : authd_client → A) (queue : authd_client → run (Z * authd_client)) :
  queue_keeps beside_output queue → (∀ c c', beside_output c = beside_output c' → view c = view c') →
  keeps view (respond queue).
Proof. intros Hq Hv. apply keeps_respond. intros c r c' E. apply Hv, (Hq c r c' E). Qed.

Lemma beside_place c c' : beside_output c = beside_output c' → place c = place c'.
Proof. apply (f_equal (λ x, fst (fst x))). Qed.

Lemma place_identity c c' : place c = place c' → identity c = identity c'.
Proof. apply (f_equal (λ x, fst (fst x))). Qed.

Lemma beside_identity c c' : beside_output c = beside_output c' → identity c = identity c'.
Proof. intros E. by apply place_identity, beside_place. Qed.

Lemma beside_state c c' : beside_output c = beside_output c' → state c = state c'.
Proof. apply (f_equal (λ x, snd (fst x))). Qed.

(** The queue functions of the daemon. *)
Ltac solve_queue :=
  lazymatch goal with
  | |- queue_keeps _ (λ c, if ?b then _ else _) => destruct b; solve_queue
  | |- queue_keeps _ (λ c, queue_error_with_retry _ _ _ _) => apply queue_error_with_retry_keeps
  | |- queue_keeps _ (λ c, queue_error _ _ _) => apply queue_error_keeps
  | |- queue_keeps _ (λ c, queue_authentication_result _ _ _ _) =>
      apply queue_authentication_result_keeps
  | |- queue_keeps _ (λ c, queue_session_context_result _ _) =>
      apply queue_session_context_result_keeps
  | |- queue_keeps _ (λ c, queue_registration_begin_result _ _ _) => apply queue_begin_keeps
  | |- queue_keeps _ (λ c, queue_registration_abort_result _ _ _) => apply queue_abort_keeps
  | |- queue_keeps _ (λ c, queue_registration_commit_result _ _ _) => apply queue_commit_keeps
  | |- queue_keeps _ (λ c, queue_frame _ _ _ _ _ _ _) => apply queue_frame_keeps
  end.

(** Walk through a handler. *)
Ltac solve_keeps :=
  repeat match goal with
    | |- keeps _ (bind _ _) => apply keeps_bind; [|intros ?]
    | |- keeps _ (ret _) => apply keeps_ret
    | |- keeps _ (lift _) => apply keeps_lift
    | |- keeps _ (service _ _) => apply keeps_service
    | |- keeps _ (assign_context _) => apply keeps_assign_context
    | |- keeps _ (enter _) => apply keeps_assign; intros; reflexivity
    | |- keeps _ (assign _) => apply keeps_assign; intros; reflexivity
    | |- keeps _ (respond _) => apply keeps_queue; [solve_queue|apply beside_place || apply beside_state || apply beside_identity]
    | |- keeps _ (gets _) => apply keeps_gets
    | |- keeps _ (iterate _ _ _) => apply keeps_iterate; intros ?
    | |- keeps _ (repeat_ _ _) => apply keeps_repeat
    | |- keeps _ client => apply keeps_gets
    | |- keeps _ context => apply keeps_gets
    | |- keeps _ (match ?x with _ => _ end) => destruct x
    | |- keeps _ (if ?x then _ else _) => destruct x
    | |- _ => solve [auto 1 with keeps nocore]
    | |- keeps _ _ => solve [apply keeps_service]
    end.

Section place.
Context `{Environment} `{Inet}.

Lemma keeps_reject request_id code : keeps place (reject request_id code).
Proof. unfold reject. solve_keeps. Qed.

Lemma keeps_audit attempt reason : keeps place (audit_login_rejection attempt reason).
Proof. unfold audit_login_rejection. solve_keeps. Qed.
#[local] Hint Resolve keeps_reject keeps_audit : keeps.

Lemma keeps_respond_audited audit_result request_id code retry :
  keeps place (respond_audited audit_result request_id
    (λ c, queue_error_with_retry c request_id code retry)).
Proof. unfold respond_audited. solve_keeps. Qed.

Lemma keeps_respond_error audit_result request_id code :
  keeps place (respond_audited audit_result request_id (λ c, queue_error c request_id code)).
Proof. unfold respond_audited. solve_keeps. Qed.
#[local] Hint Resolve keeps_respond_audited keeps_respond_error : keeps.

Lemma keeps_end_login audit_result request_id code : keeps place (end_login audit_result request_id code).
Proof. unfold end_login. solve_keeps. Qed.
#[local] Hint Resolve keeps_end_login : keeps.

Lemma keeps_submit_login attempt lookup hash password length request_id :
  keeps place (submit_login attempt lookup hash password length request_id).
Proof. unfold submit_login, authd_worker_pool_submit_verify. solve_keeps. Qed.
#[local] Hint Resolve keeps_submit_login : keeps.

Lemma keeps_start_password_login header payload length :
  keeps place (start_password_login header payload length).
Proof. unfold start_password_login. solve_keeps. Qed.

Lemma keeps_complete_password_login completion : keeps place (complete_password_login completion).
Proof. unfold complete_password_login, complete_verified_login. solve_keeps. Qed.

Lemma keeps_start_registration header payload length :
  keeps place (start_registration header payload length).
Proof.
  unfold start_registration, monotonic_milliseconds, limit_registration, submit_registration,
    authd_worker_pool_submit_generate. solve_keeps.
Qed.

Lemma keeps_generate fuel name : keeps place (generate_random_legacy_name fuel name).
Proof.
  unfold generate_random_legacy_name, random_name_step, random_bytes, random_bytes_step.
  solve_keeps.
Qed.
#[local] Hint Resolve keeps_generate : keeps.

Lemma keeps_end_registration request_id code : keeps place (end_registration request_id code).
Proof. unfold end_registration. solve_keeps. Qed.
#[local] Hint Resolve keeps_end_registration : keeps.

Lemma keeps_begin_registration fuel attempt hash : keeps place (begin_registration fuel attempt hash).
Proof. unfold begin_registration, candidate_step. solve_keeps. Qed.

Lemma keeps_monotonic : keeps place monotonic_milliseconds.
Proof. unfold monotonic_milliseconds. solve_keeps. Qed.
#[local] Hint Resolve keeps_monotonic : keeps.

Lemma keeps_bind_registration request_id r : keeps place (bind_registration request_id r).
Proof. unfold bind_registration. solve_keeps. Qed.
#[local] Hint Resolve keeps_begin_registration keeps_bind_registration : keeps.

Lemma keeps_complete_registration_hash fuel completion :
  keeps place (complete_registration_hash fuel completion).
Proof. unfold complete_registration_hash. solve_keeps. Qed.

Lemma keeps_commit_registration header payload length :
  keeps place (commit_registration header payload length).
Proof. unfold commit_registration, requested_registration. solve_keeps. Qed.

Lemma keeps_abort_registration header payload length :
  keeps place (abort_registration header payload length).
Proof. unfold abort_registration, requested_registration. solve_keeps. Qed.

Lemma keeps_close_bound_session payload length : keeps place (close_bound_session payload length).
Proof. unfold close_bound_session. solve_keeps. Qed.

Lemma keeps_refuse_frame request_id code : keeps place (refuse_frame request_id code).
Proof. unfold refuse_frame. solve_keeps. Qed.

#[local] Hint Resolve keeps_refuse_frame keeps_start_password_login keeps_start_registration
  keeps_commit_registration keeps_abort_registration keeps_close_bound_session : keeps.

Lemma keeps_handle_complete_frame header payload length :
  keeps place (handle_complete_frame header payload length).
Proof. unfold handle_complete_frame. solve_keeps. Qed.

Lemma keeps_identity {B} (m : handler B) : keeps place m → keeps identity m.
Proof.
  intros Hm s h. specialize (Hm s h). destruct (m s h) as [[b s' h'|h']|]; try done.
  destruct Hm as [Hp Hh]. split; [by apply place_identity|done].
Qed.

Lemma keeps_process_client_input : keeps identity process_client_input.
Proof.
  pose proof (λ header payload length, keeps_identity _ (keeps_handle_complete_frame header payload length)).
  pose proof (λ request_id code, keeps_identity _ (keeps_refuse_frame request_id code)).
  unfold process_client_input, process_step, consume_input. solve_keeps.
Qed.
#[local] Hint Resolve keeps_process_client_input : keeps.

Lemma keeps_read_client fuel : keeps identity (read_client fuel).
Proof. unfold read_client, read_step, store_input. solve_keeps. Qed.

Lemma keeps_write_client fuel : keeps identity (write_client fuel).
Proof. unfold write_client, send_output, write_step. solve_keeps. Qed.
End place.

(** ** The protocol as a state machine *)

(** How a valid request may advance a connection. *)
Inductive advances : ftap_connection_state → Z → ftap_connection_state → Prop :=
| advance_hello : advances FTAP_STATE_CONNECTED FTAP_MSG_HELLO FTAP_STATE_HELLO_COMPLETE
| advance_login :
    advances FTAP_STATE_HELLO_COMPLETE FTAP_MSG_AUTH_PASSWORD_REQUEST FTAP_STATE_AUTHENTICATING
| advance_register :
    advances FTAP_STATE_HELLO_COMPLETE FTAP_MSG_REGISTRATION_BEGIN_REQUEST FTAP_STATE_REGISTERING
| advance_commit :
    advances FTAP_STATE_REGISTERING FTAP_MSG_REGISTRATION_COMMIT_REQUEST FTAP_STATE_SESSION_BOUND
| advance_abort :
    advances FTAP_STATE_REGISTERING FTAP_MSG_REGISTRATION_ABORT_REQUEST FTAP_STATE_HELLO_COMPLETE.

Section handled.
Context `{EnvironmentLaws} `{InetLaws} (config : authd_config).

(** What a frame does to the state of its connection and to the world. *)
Record handled (header : ftap_frame_header) (payload : list Z) (s s' : conn)
    (h h' : list event) : Prop := {
  hd_state : state (fst s') = state (fst s) ∨ state (fst s') = FTAP_STATE_CLOSING ∨
    message_ok (state (fst s)) header payload ∧
    advances (state (fst s)) (hdr_message_type header) (state (fst s'));
  hd_quiet : ¬ message_ok (state (fst s)) header payload → h' = h;
}.

Lemma refuses_closing request_id code retry r c :
  refuses request_id code retry r c → state c = FTAP_STATE_CLOSING.
Proof.
  intros (c0 & _ & _ & Hs & Hq). by rewrite (beside_state _ _ (queue_error_with_retry_keeps _ _ _ _ _ _ Hq)).
Qed.

Lemma refuse_frame_spec E F request_id code s h :
  working config F s h →
  wp E (refuse_frame request_id code)
    (λ r s' h', working config F s' h' ∧ h' = h ∧ (r = 0 → busy (fst s') = true) ∧
       (state (fst s') = state (fst s) ∨ state (fst s') = FTAP_STATE_CLOSING)) s h.
Proof.
  intros Hw. unfold refuse_frame.
  assert (∀ s1, working config F s1 h →
    state (fst s1) = state (fst s) ∨ state (fst s1) = FTAP_STATE_CLOSING →
    wp E (respond (λ c, queue_error c request_id code))
      (λ r s' h', working config F s' h' ∧ h' = h ∧ (r = 0 → busy (fst s') = true) ∧
         (state (fst s') = state (fst s) ∨ state (fst s') = FTAP_STATE_CLOSING)) s1 h) as Hrespond.
  { intros s1 Hw1 Hs1. apply wp_respond; [|done|].
    - apply queue_error_responds, (ok_output _ (working_client _ _ _ _ Hw1)).
    - intros out length close_after Hout Hd Hlen. split; [by apply working_queued|].
      split; [done|]. split; [|done]. intros _. apply queued_busy; lia. }
  conn_step. conn_step. conn_step. destruct (la_active (login (fst s))).
  - conn_step. conn_step. conn_step. apply Hrespond; [|by right].
    by apply (working_enter_closing config F (login_attempt_clear (fst s), snd s));
      [apply working_login_clear|].
  - conn_step. apply Hrespond; [done|by left].
Qed.

Lemma hello_working F s h :
  working config F s h → state (fst s) = FTAP_STATE_CONNECTED →
  working config F (set_hello_deadline_ms 0 (set_state FTAP_STATE_HELLO_COMPLETE (fst s)), snd s) h.
Proof.
  intros Hw Hst. apply (working_same_grip config F s); [done| |done|done].
  destruct (working_client _ _ _ _ Hw) as [Hc1 Hc2 Hc3 Hc4 Hc5 Hc6 Hc7 Hc8 Hc9 [Hp1 Hp2 Hp3 Hp4 Hp5]].
  destruct Hw as [_ Hfd].
  assert (session_open (fst s) = false) as Hopen.
  { destruct (session_open _); [|done]. destruct (Hp3 eq_refl); congruence. }
  split; try done. rewrite Hst in *. split; cbn; [| | |lia|auto].
  - intros Ha. destruct (Hp1 Ha) as (_ & _ & []); congruence.
  - intros Ha. destruct (Hp2 Ha) as (_ & []); congruence.
  - intros Ha. destruct (Hp3 Ha); congruence.
Qed.

(** Which states admit a request. *)
Lemma allowed_state st message_type :
  state_allows_message st message_type = true →
  (message_type = FTAP_MSG_AUTH_PASSWORD_REQUEST →
     st = FTAP_STATE_HELLO_COMPLETE ∨ st = FTAP_STATE_AUTHENTICATING) ∧
  (message_type = FTAP_MSG_REGISTRATION_BEGIN_REQUEST → st = FTAP_STATE_HELLO_COMPLETE) ∧
  (message_type = FTAP_MSG_REGISTRATION_COMMIT_REQUEST ∨
   message_type = FTAP_MSG_REGISTRATION_ABORT_REQUEST → st = FTAP_STATE_REGISTERING).
Proof.
  intros Ha. split_and!.
  - intros ->. destruct st; try discriminate; auto.
  - intros ->. destruct st; try discriminate; auto.
  - intros [-> | ->]; destruct st; try discriminate; auto.
Qed.

Lemma idle_login c :
  client_ok c → state c ≠ FTAP_STATE_AUTHENTICATING → state c ≠ FTAP_STATE_CLOSING →
  la_active (login c) = false.
Proof.
  intros Hc Ha Hcl. destruct (la_active (login c)) eqn:E; [|done].
  destruct (ph_login _ (ok_phases _ Hc) E) as (_ & _ & []); congruence.
Qed.

Lemma handle_complete_frame_spec E F s h header payload tail :
  working config F s h → bytes_ok (payload ++ tail) → zlen payload <= FTAP_MAX_PAYLOAD_SIZE →
  wp E (handle_complete_frame header (Some (payload ++ tail)) (zlen payload))
    (λ r s' h', working config F s' h' ∧ handled header payload s s' h h') s h.
Proof.
  intros Hw Hok Hlen. unfold handle_complete_frame. conn_step. conn_step. conn_step.
  destruct (validate_correct (state (fst s)) header payload tail (ValidationError FTAP_STATUS_OK 0 0) Hok)
    as (status & e & Hrun & _ & Hvalid).
  eapply wp_lift; [exact Hrun|]. cbv beta iota. clear Hrun.
  destruct (status_ok status) eqn:Estatus; cbn [negb].
  2:{ assert (¬ message_ok (state (fst s)) header payload) as Hno.
      { intros Hm. apply Hvalid in Hm as ->. done. }
      eapply wp_mono; [by apply (refuse_frame_spec E F)|]. intros r s' h' (Hw' & -> & _ & Hs).
      split; [done|]. split; [tauto|done]. }
  apply status_ok_spec in Estatus. apply Hvalid in Estatus as Hm. clear Hvalid.
  pose proof (ha_state _ _ _ (proj1 Hm)) as Hallow.
  assert (∀ s' h', state (fst s') = state (fst s) ∨ state (fst s') = FTAP_STATE_CLOSING ∨
    advances (state (fst s)) (hdr_message_type header) (state (fst s')) →
    handled header payload s s' h h') as Hhandled.
  { intros s' h' Hs. split; [|done]. destruct Hs as [?|[?|?]]; auto. }
  pose proof (working_client _ _ _ _ Hw) as Hc. pose proof (ok_output _ Hc) as Hout.
  assert (∀ st, st ≠ FTAP_STATE_AUTHENTICATING → st ≠ FTAP_STATE_CLOSING →
    state (fst s) = st → la_active (login (fst s)) = false) as Hidle
    by (intros st ? ? Hst; apply idle_login; congruence).
  destruct (allowed_state _ _ Hallow) as (Hlogin & Hbegin & Hend).
  destruct (bool_decide (state (fst s) = FTAP_STATE_CONNECTED) && _) eqn:Ehello.
  { bools. match goal with E : hdr_message_type header = FTAP_MSG_HELLO |- _ => rename E into Emt end.
    match goal with E : state (fst s) = FTAP_STATE_CONNECTED |- _ => rename E into Est end.
    conn_step. destruct (hello_versions_spec payload tail Hok Hlen) as (b & Hb & _).
    eapply wp_lift; [exact Hb|]. destruct b; cbn [negb].
    - conn_step. apply wp_respond.
      + apply (queue_frame_responds _ _ _ _ []); [done|by left].
      + cbn [Z.eqb negb]. conn_step. split; [done|]. apply Hhandled. by left.
      + intros out length close_after Ho Hd Hl. cbn [Z.eqb negb].
        conn_step. conn_step. conn_step. conn_step. conn_step. split.
        * apply (hello_working F (queued out length close_after (fst s), snd s)); [|done].
          by apply working_queued.
        * apply Hhandled. right. right. rewrite Est, Emt. constructor.
    - eapply wp_mono.
      + apply (wp_keeps state); [apply keeps_queue; [solve_queue|apply beside_state]|].
        apply working_respond_spec; [exact Hw|]. by apply queue_error_responds.
      + intros r s' h' [(Hw2 & -> & _) Hs]. split; [done|]. apply Hhandled. by left. }
  case_if.
  { bools. eapply wp_mono; [by apply (start_password_login_spec config E F)|].
    intros r s' h' [Hw' [(name & answer & Hst)|(code & retry & Href & _)]]; (split; [done|]); apply Hhandled.
    - destruct Hst as (_ & _ & -> & _). rewrite E0. destruct (Hlogin E0) as [-> | ->]; [|by left].
      right. right. constructor.
    - right. left. by eapply refuses_closing. }
  case_if.
  { bools. assert (state (fst s) = FTAP_STATE_HELLO_COMPLETE) as Est by auto.
    eapply wp_mono; [apply (start_registration_spec config E F); [done..|by apply (Hidle FTAP_STATE_HELLO_COMPLETE)]|].
    intros r s' h' [Hw' [(_ & Hst & _)|(code & retry & Href & _)]]; (split; [done|]); apply Hhandled.
    - rewrite Hst, Est, E1. right. right. constructor.
    - right. left. by eapply refuses_closing. }
  case_if.
  { bools. assert (state (fst s) = FTAP_STATE_REGISTERING) as Est by auto.
    eapply wp_mono; [apply (commit_registration_spec config E F); [done..|by apply (Hidle FTAP_STATE_REGISTERING)]|].
    intros r s' h' [Hw' [(Hst & _)|[[_ Href]|(ip & tty & n & res & cm & _ & _ & Href & _)]]];
      (split; [done|]); apply Hhandled.
    - rewrite Hst, Est, E2. right. right. constructor.
    - right. left. by eapply refuses_closing.
    - right. left. by eapply refuses_closing. }
  case_if.
  { bools. assert (state (fst s) = FTAP_STATE_REGISTERING) as Est by auto.
    eapply wp_mono; [apply (abort_registration_spec config E F); [done..|by apply (Hidle FTAP_STATE_REGISTERING)]|].
    intros r s' h' [Hw' [(Hst & _)|[[_ Href]|(reason & res & _ & _ & Href & _)]]];
      (split; [done|]); apply Hhandled.
    - rewrite Hst, Est, E3. right. right. constructor.
    - right. left. by eapply refuses_closing.
    - right. left. by eapply refuses_closing. }
  case_if.
  { eapply wp_mono.
    - apply (wp_keeps state); [apply keeps_queue; [solve_queue|apply beside_state]|].
      apply working_respond_spec; [exact Hw|].
      apply queue_session_context_result_responds; [done|apply (ok_session _ Hc)|apply (ok_context _ Hc)].
    - intros r s' h' [(Hw2 & -> & _) Hs]. split; [done|]. apply Hhandled. by left. }
  case_if.
  { bools. eapply wp_mono; [apply (close_bound_session_spec config E F); [done..| |]|].
    - by apply (Hidle FTAP_STATE_SESSION_BOUND).
    - done.
    - intros r s' h' (_ & Hw' & Hst). split; [done|]. apply Hhandled. auto. }
  apply wp_bind, wp_modify. assert (working config F (set_state FTAP_STATE_CLOSING (fst s), snd s) h) as Hw1.
  { apply (working_same_grip config F s); [done| |done|done]. apply closing_ok; [done|apply Hw]. }
  eapply wp_mono.
  - apply (wp_keeps state); [apply keeps_queue; [solve_queue|apply beside_state]|].
    apply working_respond_spec; [exact Hw1|]. by apply queue_error_responds.
  - intros r s' h' [(Hw2 & -> & _) Hs]. split; [done|]. apply Hhandled. auto.
Qed.
End handled.

(** ** The input buffer *)

(** A buffer with [used] bytes of input after its first [consumed] bytes are
    taken out. *)
Definition shifted (buffer : list Z) (consumed used : Z) (sensitive : bool) : list Z :=
  take (Z.to_nat (used - consumed)) (drop (Z.to_nat consumed) buffer)
  ++ (if sensitive
      then zeros consumed ++ drop (Z.to_nat used) buffer
      else drop (Z.to_nat (used - consumed)) buffer).

Lemma shift_input_spec buffer consumed used sensitive :
  0 <= consumed <= used → used <= zlen buffer →
  shift_input buffer consumed (used - consumed) sensitive = Some (shifted buffer consumed used sensitive).
Proof.
  intros Hc Hu. unfold shift_input, shifted.
  assert (∀ b, zlen b = zlen buffer → drop (Z.to_nat consumed) b = drop (Z.to_nat consumed) buffer →
    (if 0 <? used - consumed then let! data := buf_read b consumed (used - consumed) in buf_write b 0 data
     else Some b) =
    Some (take (Z.to_nat (used - consumed)) (drop (Z.to_nat consumed) buffer)
          ++ drop (Z.to_nat (used - consumed)) b)) as Hmove.
  { intros b Hb Hdrop. destruct (Z.ltb_spec 0 (used - consumed)).
    - rewrite buf_read_in by lia. run_simpl. rewrite Hdrop.
      set (data := take _ _). assert (zlen data = used - consumed) as Hdata.
      { unfold data, zlen in *. rewrite length_take, length_drop. lia. }
      rewrite buf_write_in by lia. change (Z.to_nat 0) with 0%nat.
      rewrite take_0, app_nil_l, Nat.add_0_l. do 3 f_equal. unfold zlen in Hdata. lia.
    - replace (Z.to_nat (used - consumed)) with 0%nat by lia. by rewrite take_0, drop_0. }
  destruct sensitive.
  - unfold wipe at 1. rewrite buf_write_in; [|lia|rewrite zlen_zeros by lia; lia]. run_simpl.
    change (Z.to_nat 0) with 0%nat. rewrite take_0, app_nil_l, Nat.add_0_l, length_zeros.
    rewrite Hmove.
    + run_simpl. unfold wipe. set (data := take _ _).
      assert (zlen data = used - consumed) as Hdata.
      { unfold data, zlen in *. rewrite length_take, length_drop. lia. }
      set (b := zeros consumed ++ drop (Z.to_nat consumed) buffer).
      assert (zlen b = zlen buffer) as Hb.
      { unfold b. rewrite zlen_app, zlen_zeros by lia. unfold zlen in *. rewrite length_drop. lia. }
      rewrite buf_write_next; [|lia|rewrite zlen_zeros, zlen_drop by lia; lia].
      rewrite length_zeros, drop_drop, <- app_assoc. do 3 f_equal. unfold b.
      rewrite drop_app_ge by (rewrite length_zeros; lia). rewrite length_zeros, drop_drop. f_equal. lia.
    + rewrite zlen_app, zlen_zeros by lia. unfold zlen in *. rewrite length_drop. lia.
    + by rewrite drop_app_length' by (by rewrite length_zeros).
  - run_simpl. by rewrite Hmove.
Qed.

Lemma shifted_ok size buffer consumed used sensitive :
  array_ok size buffer → 0 <= consumed <= used → used <= size →
  array_ok size (shifted buffer consumed used sensitive).
Proof.
  intros [Hok Hlen] Hc Hu. unfold shifted. split.
  - apply bytes_ok_app. split; [by apply bytes_ok_take, bytes_ok_drop|].
    destruct sensitive; [|by apply bytes_ok_drop]. apply bytes_ok_app.
    split; [apply zeros_ok; lia|by apply bytes_ok_drop].
  - unfold zlen in *. rewrite length_app, length_take, length_drop.
    destruct sensitive; rewrite ?length_app, ?length_zeros, ?length_drop; lia.
Qed.

Section input.
Context `{EnvironmentLaws} (config : authd_config).

Lemma working_input F s h buffer used expected :
  working config F s h → array_ok FTAP_MAX_FRAME_SIZE buffer → 0 <= used <= FTAP_MAX_FRAME_SIZE →
  working config F (set_expected_frame_size expected (set_input_used used (set_input (Some buffer) (fst s))),
    snd s) h.
Proof.
  intros Hw Hb Hu. apply (working_same_grip config F s); [done| |done|done].
  destruct (working_client _ _ _ _ Hw) as [Hc1 Hc2 Hc3 Hc4 Hc5 Hc6 Hc7 Hc8 Hc9 [Hp1 Hp2 Hp3 Hp4]].
  destruct Hw as [_ Hfd]. split; try done. split; cbn; done || lia.
Qed.

Lemma working_expected F s h expected :
  working config F s h → working config F (set_expected_frame_size expected (fst s), snd s) h.
Proof.
  intros Hw. apply (working_same_grip config F s); [done| |done|done].
  destruct (working_client _ _ _ _ Hw) as [Hc1 Hc2 Hc3 Hc4 Hc5 Hc6 Hc7 Hc8 Hc9 [Hp1 Hp2 Hp3 Hp4]].
  destruct Hw as [_ Hfd]. split; try done. split; cbn; done || lia.
Qed.

(** The buffer of a connection whose socket is open. *)
Lemma working_buffer F s h :
  working config F s h → ∃ buffer, input (fst s) = Some buffer ∧ array_ok FTAP_MAX_FRAME_SIZE buffer ∧
    0 <= input_used (fst s) <= FTAP_MAX_FRAME_SIZE.
Proof.
  intros Hw. pose proof (ok_input _ (working_client _ _ _ _ Hw)) as Hi. destruct Hw as [_ Hfd].
  unfold input_ok in Hi. destruct (input (fst s)) as [buffer|]; [|lia]. exists buffer. tauto.
Qed.

Lemma consume_input_spec E F s h buffer consumed sensitive :
  working config F s h → input (fst s) = Some buffer → 0 <= consumed <= input_used (fst s) →
  wp E (consume_input consumed sensitive)
    (λ _ s' h', working config F s' h' ∧ h' = h ∧
       fst s' = set_expected_frame_size 0 (set_input_used (input_used (fst s) - consumed)
         (set_input (Some (shifted buffer consumed (input_used (fst s)) sensitive)) (fst s)))) s h.
Proof.
  intros Hw Hb Hc. destruct (working_buffer F s h Hw) as (buffer' & Hb' & Hok & Hu).
  assert (buffer' = buffer) as -> by congruence.
  unfold consume_input. conn_step. conn_step. rewrite (proj2 (Z.ltb_ge _ _)) by lia.
  conn_step. eapply wp_lift; [exact Hb|]. conn_step. eapply wp_lift.
  - apply shift_input_spec; [done|]. rewrite (array_length _ _ Hok). lia.
  - conn_step. split; [|done]. apply working_input; [done| |lia]. by apply shifted_ok; [| |lia].
Qed.
End input.

(** ** Taking frames out of the input *)

Lemma decoded_header buffer used status header :
  bytes_ok buffer → used <= zlen buffer → FTAP_FRAME_HEADER_SIZE <= used →
  ftap_frame_header_decode (Some buffer) used (Some zero_header) = Some (status, Some header) →
  status = FTAP_STATUS_OK → 0 <= hdr_payload_length header <= FTAP_MAX_PAYLOAD_SIZE.
Proof.
  intros Hok Hlen Hused Hrun ->. rewrite header_decode_spec in Hrun by done. revert Hrun.
  unfold decode_answer. rewrite (proj2 (Z.ltb_ge _ _)) by done. case_if; [|done].
  cbn [fst snd]. intros [= Hst <-]. revert Hst. unfold decode_status.
  destruct (status_ok (validate_header_common _ false)) eqn:Ev; cbn [negb]; [|intros Hq; by rewrite Hq in Ev].
  intros _. apply status_ok_spec in Ev. revert Ev. unfold validate_header_common.
  cbn [header_of_bytes hdr_payload_length]. repeat case_if; try done; intros _; bools;
    (split; [|lia]); apply be_val_bound; by apply bytes_ok_take, bytes_ok_drop.
Qed.

Section process.
Context `{EnvironmentLaws} `{InetLaws} (config : authd_config).

(** No complete frame waits, or a response has to be sent first. *)
Definition waiting (c : authd_client) : Prop :=
  busy c = true ∨ input_used c < FTAP_FRAME_HEADER_SIZE ∨
  ∃ header,
    ftap_frame_header_decode (input c) (input_used c) (Some zero_header)
      = Some (FTAP_STATUS_OK, Some header) ∧
    input_used c < FTAP_FRAME_HEADER_SIZE + hdr_payload_length header.

Definition processed (r : Z) (c : authd_client) : Prop := (r = 0 ∧ waiting c) ∨ r = -1.

Lemma process_step_spec E F s h :
  working config F s h →
  wp E process_step
    (λ r s' h', working config F s' h' ∧
       match r with
       | Some r => processed r (fst s')
       | None => input_used (fst s') + FTAP_FRAME_HEADER_SIZE <= input_used (fst s)
       end) s h.
Proof.
  intros Hw. unfold process_step. conn_step. conn_step.
  destruct (busy (fst s)) eqn:Eb; [conn_step; split; [done|]; left; by split; [|left]|].
  destruct (Z.ltb_spec (input_used (fst s)) FTAP_FRAME_HEADER_SIZE) as [Hlt|Hge];
    [conn_step; split; [done|]; left; by split; [|right; left]|].
  destruct (working_buffer config F s h Hw) as (buffer & Hbuf & [Hok Hlen] & Hu).
  conn_step. eapply wp_lift; [rewrite Hbuf; apply header_decode_spec; [done|lia]|]. cbv beta iota.
  set (status := fst (decode_answer _ _ _)). set (header := snd (decode_answer _ _ _)).
  assert (ftap_frame_header_decode (Some buffer) (input_used (fst s)) (Some zero_header)
    = Some (status, Some header)) as Hdec by (apply header_decode_spec; [done|lia]).
  conn_step. eapply wp_lift; [done|]. cbv beta.
  destruct (status_ok status) eqn:Est; cbn [negb].
  2:{ case_if; [conn_step; split; [done|by right]|]. conn_step.
      eapply wp_mono; [by apply (refuse_frame_spec config E F)|].
      intros r s' h' (Hw' & -> & Hbusy & _). conn_step. split; [done|].
      destruct (Z.eqb_spec r 0); cbn [negb]; [left|by right]. split; [done|]. left. auto. }
  apply status_ok_spec in Est.
  pose proof (decoded_header buffer (input_used (fst s)) status header Hok ltac:(lia) Hge Hdec Est) as Hpl.
  set (frame_size := FTAP_FRAME_HEADER_SIZE + hdr_payload_length header).
  conn_step. conn_step.
  pose proof (working_expected config F s h frame_size Hw) as Hw1.
  destruct (Z.ltb_spec (input_used (fst s)) frame_size) as [Hsmall|Hbig].
  { conn_step. split; [done|]. left. split; [done|]. right. right. exists header.
    split; [|done]. cbn. by rewrite Hbuf, Hdec, Est. }
  conn_step. eapply wp_lift; [exact Hbuf|]. conn_step.
  eapply wp_lift; [apply buf_at_in; unfold frame_size, FTAP_FRAME_HEADER_SIZE in *; lia|].
  change (Z.to_nat FTAP_FRAME_HEADER_SIZE) with 24%nat. conn_step.
  set (rest := drop 24 buffer). set (n := hdr_payload_length header) in *.
  assert (∃ payload tail, rest = payload ++ tail ∧ n = zlen payload) as (payload & tail & Hsplit & Hn).
  { exists (take (Z.to_nat n) rest), (drop (Z.to_nat n) rest). rewrite take_drop. split; [done|].
    unfold rest, frame_size, FTAP_FRAME_HEADER_SIZE, zlen in *. rewrite length_take, length_drop. lia. }
  rewrite Hsplit, Hn. eapply wp_mono.
  { apply (wp_keeps place); [apply keeps_handle_complete_frame|].
    apply (handle_complete_frame_spec config E F); [exact Hw1| |lia].
    rewrite <- Hsplit. by apply bytes_ok_drop. }
  intros r s' h' [[Hw2 _] Hplace]. injection Hplace as _ _ _ _ Hin Husd.
  destruct (negb (r =? 0)); [conn_step; split; [done|by right]|]. conn_step.
  eapply wp_mono; [apply (consume_input_spec config E F s' h' buffer); [done|congruence|]|].
  { rewrite Husd. unfold frame_size, FTAP_FRAME_HEADER_SIZE in *. lia. }
  intros [] s2 h2 (Hw3 & -> & Hc2). conn_step. split; [done|]. rewrite Hc2. cbn. rewrite Husd.
  unfold frame_size, FTAP_FRAME_HEADER_SIZE in *. lia.
Qed.

Lemma process_client_input_spec E F s h :
  working config F s h →
  wp E process_client_input (λ r s' h', working config F s' h' ∧ processed r (fst s')) s h.
Proof.
  intros Hw. unfold process_client_input.
  apply (wp_repeat_measure _ (working config F) (λ s, Z.to_nat (input_used (fst s) / FTAP_FRAME_HEADER_SIZE))).
  - done.
  - destruct (working_buffer config F s h Hw) as (_ & _ & _ & Hu). unfold frames_fuel.
    change (FTAP_MAX_FRAME_SIZE / FTAP_FRAME_HEADER_SIZE + 1) with 2732.
    unfold FTAP_FRAME_HEADER_SIZE. change FTAP_MAX_FRAME_SIZE with 65560 in Hu.
    assert (0 <= input_used (fst s) / 24 < 2732) by (split; [apply Z.div_pos|apply Z.div_lt_upper_bound]; lia).
    lia.
  - intros s1 h1 Hw1. eapply wp_mono; [by apply (process_step_spec E F)|].
    intros r s2 h2 [Hw2 Hr]. destruct r as [r|]; [done|]. split; [done|].
    destruct (working_buffer config F s2 h2 Hw2) as (_ & _ & _ & Hu2).
    unfold FTAP_FRAME_HEADER_SIZE in *.
    assert (0 <= input_used (fst s2) / 24) by (apply Z.div_pos; lia).
    assert ((input_used (fst s2) + 1 * 24) / 24 <= input_used (fst s1) / 24) as Hle
      by (apply Z.div_le_mono; lia).
    rewrite Z.div_add in Hle by done. lia.
Qed.
End process.

(** ** Moving bytes *)

Section moving.
Context `{EnvironmentLaws} `{InetLaws} (config : authd_config).
Context (E : list event → Prop) (HE : ∀ h, authorised config h → E h).

(** The result of [read_client] and [write_client]. *)
Definition moved (F : frame) (r : Z) (s : conn) (h : list event) : Prop :=
  working config F s h ∧ processed r (fst s).

Lemma busy_processed c : busy c = true → processed 0 c.
Proof. intros Hb. left. split; [done|by left]. Qed.

Lemma store_input_spec F bytes s h :
  working config F s h → bytes_ok bytes → zlen bytes <= FTAP_MAX_FRAME_SIZE - input_used (fst s) →
  wp E (store_input bytes) (λ _ s' h', working config F s' h') s h.
Proof.
  intros Hw Hok Hlen. destruct (working_buffer config F s h Hw) as (buffer & Hbuf & [Hbok Hblen] & Hu).
  unfold store_input. conn_step. conn_step. conn_step. eapply wp_lift; [exact Hbuf|]. conn_step.
  pose proof (zlen_nonneg bytes).
  destruct (buf_write buffer (input_used (fst s)) bytes) as [buffer'|] eqn:Hwr.
  2:{ rewrite buf_write_in in Hwr by lia. done. }
  pose proof (buf_write_length _ _ _ _ Hwr) as Hlen'.
  eapply wp_lift; [reflexivity|]. conn_step.
  assert (bytes_ok buffer') as Hok'.
  { rewrite buf_write_in in Hwr by lia. injection Hwr as <-. apply bytes_ok_app.
    split; [by apply bytes_ok_take|]. apply bytes_ok_app. split; [done|by apply bytes_ok_drop]. }
  exact (working_input config F s h buffer' (input_used (fst s) + zlen bytes) (expected_frame_size (fst s))
    Hw (Build_array_ok _ _ Hok' (eq_trans Hlen' Hblen)) ltac:(lia)).
Qed.

Lemma read_step_spec F s h :
  working config F s h → waiting (fst s) →
  wp E read_step
    (λ r s' h', match r with
                | Some r => moved F r s' h'
                | None => working config F s' h' ∧ waiting (fst s')
                end) s h.
Proof.
  intros Hw Hwait. unfold read_step. conn_step. conn_step.
  destruct (busy (fst s)) eqn:Eb; [conn_step; split; [done|by apply busy_processed]|].
  destruct (Z.leb_spec FTAP_MAX_FRAME_SIZE (input_used (fst s))); [conn_step; split; [done|by right]|].
  conn_step. apply wp_service. intros received Ha.
  assert (working config F s (Recv (fd (fst s)) (FTAP_MAX_FRAME_SIZE - input_used (fst s)) received :: h))
    as Hw1 by by apply working_event.
  destruct received as [bytes|[]].
  - destruct (law_recv h (fd (fst s)) (FTAP_MAX_FRAME_SIZE - input_used (fst s)) bytes) as [Hok Hlen];
      [lia|done|].
    case_if; [|conn_step; split; [done|by right]].
    conn_step. eapply wp_mono; [by apply (store_input_spec F)|]. intros [] s1 h1 Hw2. conn_step.
    eapply wp_mono; [by apply (process_client_input_spec config E F)|].
    intros r s2 h2 [Hw3 Hr]. destruct (Z.eqb_spec r 0) as [->|]; cbn [negb].
    + conn_step. conn_step. conn_step. destruct Hr as [[_ Hr]|]; [|done].
      case_if; [|by split]. split; [done|]. apply busy_processed. unfold busy. by rewrite E1.
    + conn_step. split; [done|]. by right.
  - conn_step. by split.
  - conn_step. split; [done|]. by left.
  - conn_step. split; [done|]. by right.
Qed.

Lemma read_client_spec F fuel s h :
  working config F s h → waiting (fst s) →
  wp E (read_client fuel) (λ r s' h', moved F r s' h') s h.
Proof.
  intros Hw Hwait. unfold read_client.
  apply (wp_repeat E (λ s h, working config F s h ∧ waiting (fst s))); [done| |].
  - intros s1 h1 [Hw1 _]. by eapply HE, working_authorised.
  - intros s1 h1 [Hw1 Hwait1]. eapply wp_mono; [by apply (read_step_spec F)|]. intros [] s2 h2; auto.
Qed.

Lemma working_output F s h offset length :
  working config F s h → 0 <= offset <= length → length <= AUTHD_RESPONSE_BUFFER_SIZE →
  working config F (set_output_offset offset (set_output_length length (fst s)), snd s) h.
Proof.
  intros Hw Ho Hl. apply (working_same_grip config F s); [done| |done|done].
  destruct (working_client _ _ _ _ Hw) as [Hc1 Hc2 Hc3 Hc4 Hc5 Hc6 Hc7 Hc8 Hc9 [Hp1 Hp2 Hp3 Hp4]].
  destruct Hw as [_ Hfd]. split; try done. split; cbn; done || lia.
Qed.

Lemma write_step_spec F s h :
  working config F s h →
  wp E write_step
    (λ r s' h', working config F s' h' ∧
       match r with
       | Some (Some r) => processed r (fst s')
       | Some None | None => True
       end) s h.
Proof.
  intros Hw. pose proof (working_client _ _ _ _ Hw) as Hc. unfold write_step. conn_step. conn_step.
  destruct (ok_offsets _ Hc) as [Hoff Hmax]. pose proof (ok_output _ Hc) as Hout. unfold output_ok in Hout.
  destruct (Z.ltb_spec (output_offset (fst s)) (output_length (fst s))) as [Hlt|Hge]; [|by conn_step].
  conn_step. destruct (buf_read (output (fst s)) (output_offset (fst s))
    (output_length (fst s) - output_offset (fst s))) as [data|] eqn:Hread.
  2:{ rewrite buf_read_in in Hread by lia. done. }
  pose proof (buf_read_Some _ _ _ _ Hread) as (_ & _ & _ & Hlen & _).
  eapply wp_lift; [reflexivity|]. conn_step. apply wp_service. intros sent Ha.
  assert (working config F s (Send (fd (fst s)) data sent :: h)) as Hw1 by by apply working_event.
  destruct sent as [count|[]].
  - pose proof (law_send h (fd (fst s)) data count (eq_sym Ha)) as Hcount.
    case_if; [|conn_step; split; [done|by right]]. conn_step. conn_step. conn_step. split; [|done].
    exact (working_output F s _ (output_offset (fst s) + count) (output_length (fst s)) Hw1
      ltac:(lia) ltac:(lia)).
  - conn_step. by split.
  - conn_step. split; [done|]. apply busy_processed. unfold busy. by rewrite (proj2 (Z.ltb_lt _ _)).
  - conn_step. split; [done|]. by right.
Qed.

Lemma write_client_spec F fuel s h :
  working config F s h → wp E (write_client fuel) (λ r s' h', moved F r s' h') s h.
Proof.
  intros Hw. unfold write_client. conn_step.
  eapply (wp_mono _ _ (λ r s' h', working config F s' h' ∧
    match r with Some r => processed r (fst s') | None => True end)).
  { apply (wp_repeat E (working config F)); [done| |].
    - intros s1 h1 Hw1. by eapply HE, working_authorised.
    - intros s1 h1 Hw1. eapply wp_mono; [by apply (write_step_spec F)|].
      intros [[r|]|] s2 h2 [Hw2 Hr]; [by split|by split|done]. }
  intros r s1 h1 [Hw1 Hr]. destruct r as [r|]; [by conn_step|].
  conn_step. conn_step. conn_step. conn_step.
  assert (working config F (set_output_offset 0 (set_output_length 0 (fst s1)), snd s1) h1) as Hw2
    by (apply working_output; [done|lia|vm_compute; congruence]).
  case_if; [conn_step; split; [done|by right]|].
  by apply (process_client_input_spec config E F).
Qed.

(** It is a reason of the daemon, unless the peer has ordered the end and the
    database was asked for it. *)
Lemma client_io_end_reason_spec c h :
  client_ok c → tracked config c h →
  ∃ reason, client_io_end_reason c = Some reason ∧ ends_with reason c h.
Proof.
  intros Hc Ht. unfold client_io_end_reason. case_if.
  2:{ eexists. split; [done|]. by apply own_reason. }
  destruct (array_first (FTAP_ENDED_REASON_MAX + 1) _ eq_refl (ok_end_reason _ Hc)) as [b Hb].
  rewrite Hb. run_simpl. eexists. split; [done|]. destruct (Z.eqb_spec b 0) as [->|Hne]; cbn [negb].
  { apply own_reason. by repeat case_if. }
  intros Ho. destruct (tr_reason _ _ _ Ht Ho) as [[Hnone|]|]; [exfalso|by left|by right].
  destruct (pending_end_reason c) as [|b' l]; [done|]. cbn in Hb. injection Hb as ->.
  cbn in Hnone. by rewrite (proj2 (Z.eqb_neq _ _) Hne) in Hnone.
Qed.
End moving.

(** ** Properties *)

(** What the socket has accepted, in order. *)
Fixpoint sent_bytes (h : list event) : list Z :=
  match h with
  | [] => []
  | Send _ data (inl count) :: h => sent_bytes h ++ take (Z.to_nat count) data
  | _ :: h => sent_bytes h
  end.

Lemma outgoing_sent c count data :
  0 <= output_offset c → 0 <= count <= output_length c - output_offset c →
  buf_read (output c) (output_offset c) (output_length c - output_offset c) = Some data →
  take (Z.to_nat count) data ++ outgoing (set_output_offset (output_offset c + count) c) = outgoing c.
Proof.
  intros Ho Hc Hread. apply buf_read_Some in Hread as (_ & _ & Hlen & _ & ->).
  unfold outgoing, rest. cbn [output output_offset output_length set_output_offset].
  rewrite take_take, Nat.min_l by lia.
  replace (drop (Z.to_nat (output_offset c + count)) (output c))
    with (drop (Z.to_nat count) (drop (Z.to_nat (output_offset c)) (output c)))
    by (rewrite drop_drop; f_equal; lia).
  set (l := drop (Z.to_nat (output_offset c)) (output c)).
  replace (Z.to_nat (output_length c - output_offset c))
    with (Z.to_nat count + Z.to_nat (output_length c - (output_offset c + count)))%nat by lia.
  by rewrite take_take_drop.
Qed.

(** Whatever the socket accepts at a time, [write_client] sends the bytes of the
    queued response in order, each of them once: what has been sent and what is
    left make up the response. When it goes on to the next request nothing is
    left. *)
Theorem send_output_correct `{EnvironmentLaws} config F fuel s h :
  working config F s h →
  wp (authorised config) (send_output fuel)
    (λ r s' h', working config F s' h' ∧
       (∃ new, h' = new ++ h ∧ sent_bytes new ++ outgoing (fst s') = outgoing (fst s)) ∧
       (r = None → outgoing (fst s') = [])) s h.
Proof.
  intros Hw. unfold send_output.
  apply (wp_repeat _ (λ s' h', working config F s' h' ∧
    ∃ new, h' = new ++ h ∧ sent_bytes new ++ outgoing (fst s') = outgoing (fst s))).
  { split; [done|]. by exists []. }
  { intros s1 h1 [Hw1 _]. by eapply working_authorised. }
  intros s1 h1 (Hw1 & new & -> & Hnew). pose proof (working_client _ _ _ _ Hw1) as Hc.
  unfold write_step. conn_step. conn_step.
  destruct (ok_offsets _ Hc) as [Hoff Hmax]. pose proof (ok_output _ Hc) as Hout. unfold output_ok in Hout.
  destruct (Z.ltb_spec (output_offset (fst s1)) (output_length (fst s1))) as [Hlt|Hge].
  2:{ conn_step. split; [done|]. split; [by exists new|]. intros _. unfold outgoing, rest.
      by replace (Z.to_nat (output_length (fst s1) - output_offset (fst s1))) with 0%nat by lia. }
  conn_step. destruct (buf_read (output (fst s1)) (output_offset (fst s1))
    (output_length (fst s1) - output_offset (fst s1))) as [data|] eqn:Hread.
  2:{ rewrite buf_read_in in Hread by lia. done. }
  pose proof (buf_read_Some _ _ _ _ Hread) as (_ & _ & _ & Hlen & _).
  eapply wp_lift; [reflexivity|]. conn_step. apply wp_service. intros sent Ha.
  set (e := Send (fd (fst s1)) data sent).
  assert (working config F s1 (e :: new ++ h)) as Hw2 by by apply working_event.
  destruct sent as [count|[]].
  - pose proof (law_send _ (fd (fst s1)) data count (eq_sym Ha)) as Hcount.
    assert (take (Z.to_nat count) data ++ outgoing (set_output_offset (output_offset (fst s1) + count)
      (fst s1)) = outgoing (fst s1)) as Hsent by (apply outgoing_sent; done || lia).
    case_if; bools.
    + conn_step. conn_step. conn_step. split.
      * exact (working_output config F s1 _ (output_offset (fst s1) + count) (output_length (fst s1)) Hw2
          ltac:(lia) ltac:(lia)).
      * exists (e :: new). split; [done|]. cbn [sent_bytes e fst snd]. by rewrite <- app_assoc, Hsent.
    + conn_step. split; [done|]. split; [|done]. exists (e :: new). split; [done|].
      cbn [sent_bytes e]. assert (count = 0) as -> by lia. change (Z.to_nat 0) with 0%nat.
      by rewrite take_0, app_nil_r.
  - conn_step. split; [done|]. by exists (e :: new).
  - conn_step. split; [done|]. split; [by exists (e :: new)|done].
  - conn_step. split; [done|]. split; [by exists (e :: new)|done].
Qed.

(** C15: [handle_complete_frame] follows the protocol: it is never stuck and keeps
    the invariant of the daemon, and a connection stays in its state, comes to
    its end, or advances by a step of the protocol for a valid request. A frame
    that is not valid in the state of its connection reaches neither the
    database nor the workers. *)
Theorem handle_complete_frame_correct `{EnvironmentLaws} `{InetLaws} config F s h header payload tail :
  working config F s h → bytes_ok (payload ++ tail) → zlen payload <= FTAP_MAX_PAYLOAD_SIZE →
  wp (λ _, False) (handle_complete_frame header (Some (payload ++ tail)) (zlen payload))
    (λ r s' h', working config F s' h' ∧ handled header payload s s' h h') s h.
Proof. apply handle_complete_frame_spec. Qed.

(** C33: [process_client_input] ends whatever the peer has sent: it is never stuck,
    keeps the invariant of the daemon and takes frame after frame from the
    input. When it succeeds there is a response to send, or no complete frame
    is left. *)
Theorem process_client_input_correct `{EnvironmentLaws} `{InetLaws} config F s h :
  working config F s h →
  wp (λ _, False) process_client_input
    (λ r s' h', working config F s' h' ∧ processed r (fst s')) s h.
Proof. apply process_client_input_spec. Qed.

(** [consume_input] takes exactly one frame out of the input, and nothing of a
    frame with a password stays in memory: its place is overwritten with zeros. *)
Theorem consume_input_correct `{EnvironmentLaws} config F s h frame next beyond sensitive :
  working config F s h → input (fst s) = Some (frame ++ next ++ beyond) →
  input_used (fst s) = zlen (frame ++ next) →
  wp (λ _, False) (consume_input (zlen frame) sensitive)
    (λ _ s' h', working config F s' h' ∧ h' = h ∧ input_used (fst s') = zlen next ∧
       ∃ old, input (fst s') = Some (next ++ old ++ beyond) ∧ zlen old = zlen frame ∧
         (sensitive = true → old = zeros (zlen frame))) s h.
Proof.
  intros Hw Hin Hused. pose proof (zlen_nonneg frame). pose proof (zlen_nonneg next).
  rewrite zlen_app in Hused.
  eapply wp_mono; [apply (consume_input_spec config _ F s h _ (zlen frame) sensitive Hw Hin); lia|].
  intros [] s' h' (Hw' & -> & Hs'). split; [done|]. split; [done|]. rewrite Hs', Hused. cbn.
  split; [lia|]. unfold shifted. replace (zlen frame + zlen next - zlen frame) with (zlen next) by lia.
  replace (Z.to_nat (zlen frame)) with (length frame) by (unfold zlen; lia).
  replace (Z.to_nat (zlen next)) with (length next) by (unfold zlen; lia).
  replace (Z.to_nat (zlen frame + zlen next)) with (length frame + length next)%nat by (unfold zlen; lia).
  rewrite drop_app_length, take_app_length. destruct sensitive.
  - exists (zeros (zlen frame)). split; [|split; [by apply zlen_zeros|done]].
    rewrite <- drop_drop, !drop_app_length. done.
  - exists (drop (length next) (frame ++ next)). split; [|split; [|done]].
    + do 2 f_equal. rewrite app_assoc. by rewrite drop_app_le by (rewrite length_app; lia).
    + unfold zlen. rewrite length_drop, length_app. lia.
Qed.

(** ** Sample runs *)

(** The connection of [sample_client] after the peer has sent [bytes]. *)
Definition sample_received (bytes : list Z) (c : authd_client) : authd_client :=
  set_expected_frame_size 0 (set_input_used (zlen bytes)
    (set_input (Some (bytes ++ zeros (FTAP_MAX_FRAME_SIZE - zlen bytes))) c)).

Lemma sample_received_working bytes :
  bytes_ok bytes → zlen bytes <= FTAP_MAX_FRAME_SIZE →
  working sample_config sample_frame (sample_received bytes sample_client, sample_context) [].
Proof.
  intros Hok Hlen. pose proof (zlen_nonneg bytes).
  apply (working_input sample_config sample_frame (sample_client, sample_context));
    [exact sample_working| |lia]. split.
  - apply bytes_ok_app. split; [done|]. apply zeros_ok. lia.
  - rewrite zlen_app, zlen_zeros by lia. lia.
Qed.

Definition sample_login_frame : list Z :=
  header_bytes (example_header (payload_of example_login)) ++ payload_of example_login.

Definition sample_logging_in : conn :=
  (sample_received (sample_login_frame ++ lit "FTAP") sample_client, sample_context).

Lemma sample_logging_in_working : working sample_config sample_frame sample_logging_in [].
Proof.
  apply sample_received_working.
  - apply (bool_decide_unpack _). vm_compute. exact I.
  - vm_compute. congruence.
Qed.

Lemma handle_complete_frame_correct_witness :
  working sample_config sample_frame (sample_client, sample_context) [] ∧
  ∃ s h, @handle_complete_frame known dotted_quad (example_header (payload_of example_login))
      (Some (payload_of example_login ++ [])) (zlen (payload_of example_login))
      (sample_client, sample_context) [] = Some (Done 0 s h) ∧
    authorised sample_config h ∧ state (fst s) = FTAP_STATE_AUTHENTICATING.
Proof.
  split; [exact sample_working|].
  assert (match @handle_complete_frame known dotted_quad (example_header (payload_of example_login))
      (Some (payload_of example_login ++ [])) (zlen (payload_of example_login))
      (sample_client, sample_context) [] with
    | Some (Done r s h) => Some (r, state (fst s)) | _ => None end
    = Some (0, FTAP_STATE_AUTHENTICATING)) as Hrun by (vm_compute; reflexivity).
  destruct (wp_ends _ _ _ _ (@handle_complete_frame_correct known (quiet_sample_laws _) dotted_quad _
    sample_config sample_frame (sample_client, sample_context) []
    (example_header (payload_of example_login)) (payload_of example_login) [] sample_working
    ltac:(apply (bool_decide_unpack _); vm_compute; exact I) ltac:(vm_compute; congruence)))
    as (r & s & h & E & Hw & _).
  rewrite E in Hrun. injection Hrun as -> Hst. exists s, h. split; [exact E|].
  split; [exact (working_authorised _ _ _ _ Hw)|exact Hst].
Defined.

Lemma process_client_input_correct_witness :
  working sample_config sample_frame sample_logging_in [] ∧
  ∃ s h, @process_client_input known dotted_quad sample_logging_in [] = Some (Done 0 s h) ∧
    authorised sample_config h ∧ state (fst s) = FTAP_STATE_AUTHENTICATING ∧
    input_used (fst s) = 4.
Proof.
  split; [exact sample_logging_in_working|].
  assert (match @process_client_input known dotted_quad sample_logging_in [] with
    | Some (Done r s h) => Some (r, state (fst s), input_used (fst s)) | _ => None end
    = Some (0, FTAP_STATE_AUTHENTICATING, 4)) as Hrun by (vm_compute; reflexivity).
  pose proof (@process_client_input_correct known (quiet_sample_laws _) dotted_quad _
    sample_config sample_frame sample_logging_in [] sample_logging_in_working) as Hwp.
  apply wp_outcome in Hwp.
  destruct (@process_client_input known dotted_quad sample_logging_in []) as [[r s h|]|]; [|discriminate..].
  destruct Hwp as [Hw _]. injection Hrun as -> Hst Hu. exists s, h. split; [reflexivity|].
  split; [exact (working_authorised _ _ _ _ Hw)|]. split; [exact Hst|exact Hu].
Defined.

Lemma consume_input_correct_witness :
  working sample_config sample_frame sample_logging_in [] ∧
  ∃ s h old, @consume_input (zlen sample_login_frame) true sample_logging_in [] = Some (Done tt s h) ∧
    input (fst s) = Some (lit "FTAP" ++ old
      ++ zeros (FTAP_MAX_FRAME_SIZE - zlen (sample_login_frame ++ lit "FTAP"))) ∧
    old = zeros (zlen sample_login_frame).
Proof.
  split; [exact sample_logging_in_working|].
  destruct (wp_ends _ _ _ _ (@consume_input_correct known (quiet_sample_laws _) sample_config sample_frame
    sample_logging_in [] sample_login_frame (lit "FTAP")
    (zeros (FTAP_MAX_FRAME_SIZE - zlen (sample_login_frame ++ lit "FTAP"))) true
    sample_logging_in_working
    ltac:(cbn [fst sample_logging_in sample_received input set_input set_expected_frame_size set_input_used];
          rewrite app_assoc; reflexivity) eq_refl))
    as ([] & s & h & E & _ & _ & _ & old & Hin & _ & Hold).
  exists s, h, old. split; [exact E|]. split; [exact Hin|]. by apply Hold.
Defined.

(** A response of which the first bytes have been sent. *)
Definition sample_responding : conn :=
  (set_output_offset 2 (set_output_length 30 sample_client), sample_context).

Lemma sample_responding_working : working sample_config sample_frame sample_responding [].
Proof.
  apply (working_output sample_config sample_frame (sample_client, sample_context));
    [exact sample_working|lia|vm_compute; congruence].
Qed.

Lemma send_output_correct_witness :
  working sample_config sample_frame sample_responding [] ∧
  ∃ s h, @send_output known 3 sample_responding [] = Some (Done None s h) ∧
    sent_bytes h = outgoing (fst sample_responding).
Proof.
  split; [exact sample_responding_working|].
  assert (match @send_output known 3 sample_responding [] with
    | Some (Done None _ _) => true | _ => false end = true) as Hrun by (vm_compute; reflexivity).
  pose proof (@send_output_correct known (quiet_sample_laws _) sample_config sample_frame 3
    sample_responding [] sample_responding_working) as Hwp. apply wp_outcome in Hwp.
  destruct (@send_output known 3 sample_responding []) as [[[r|] s h|]|]; [discriminate| |discriminate..].
  destruct Hwp as (_ & (new & -> & Hsent) & Hnil). exists s, new. rewrite app_nil_r.
  split; [reflexivity|]. rewrite <- Hsent, (Hnil eq_refl). by rewrite app_nil_r.
Defined.
