(* ===== verification/Password.v ===== *)
(** * Passwords

    [fortytwo-auth/src/authd_password.c]: the limits of the password hashes, the
    parser of encoded Argon2id hashes, generation and verification. The
    functions of libsodium are the class [Sodium], its documented behaviour the
    class [SodiumLaws]. Generation and verification are programs whose calls of
    libsodium with a hash or a password are recorded ([sodium_call]). *)

From S2P Require Import Prelude Protocol Words Utf8 Codec Inet Schema Identity Throttle Limiter Program Services Client Requests Connection.

(** ** Definitions *)

Definition AUTHD_PASSWORD_ARGON2_VERSION : Z := 19.
Definition AUTHD_PASSWORD_DEFAULT_OPSLIMIT : Z := 3.
Definition AUTHD_PASSWORD_DEFAULT_MEMLIMIT_BYTES : Z := 268435456.
Definition AUTHD_PASSWORD_DEFAULT_MAX_OPSLIMIT : Z := 3.
Definition AUTHD_PASSWORD_DEFAULT_MAX_MEMLIMIT_BYTES : Z := 268435456.
Definition AUTHD_PASSWORD_DEFAULT_MAX_PARALLELISM : Z := 1.

Record authd_password_policy := PasswordPolicy {
  opslimit : Z;
  memlimit_bytes : Z;
  max_verify_opslimit : Z;
  max_verify_memlimit_bytes : Z;
  max_verify_parallelism : Z;
}.

Record authd_password_hash_info := HashInfo {
  hi_version : Z;
  hi_memory_kib : Z;
  hi_time_cost : Z;
  hi_parallelism : Z;
}.

(** What libsodium answers in the course of one operation. *)
Class Sodium := {
  crypto_pwhash_OPSLIMIT_MIN : Z;
  crypto_pwhash_OPSLIMIT_MAX : Z;
  crypto_pwhash_MEMLIMIT_MIN : Z;
  crypto_pwhash_MEMLIMIT_MAX : Z;
  crypto_pwhash_STRBYTES : Z;
  sodium_init : Z;
  sodium_mlock : list Z → Z;
  sodium_munlock : list Z → list Z;
  sodium_memzero : list Z → list Z;
  (** The result and the string that is stored, for a password and its limits. *)
  crypto_pwhash_str_alg : list Z → Z → Z → Z * list Z;
  crypto_pwhash_str_needs_rehash : list Z → Z → Z → Z;
  crypto_pwhash_str_verify : list Z → list Z → Z;
}.

(** The calls that make, look at and verify a hash, with their answers. *)
Inductive sodium_call :=
| PwhashStrAlg (password : list Z) (ops mem : Z) (answer : Z * list Z)
| PwhashStrNeedsRehash (hash : list Z) (ops mem answer : Z)
| PwhashStrVerify (hash password : list Z) (answer : Z).

Abbreviation hashing_program := (prog sodium_call unit) (only parsing).

Definition pwhash_str_alg `{Sodium} (password : list Z) (ops mem : Z) : hashing_program (Z * list Z) :=
  service (λ _, crypto_pwhash_str_alg password ops mem) (PwhashStrAlg password ops mem).
Definition pwhash_str_needs_rehash `{Sodium} (hash : list Z) (ops mem : Z) : hashing_program Z :=
  service (λ _, crypto_pwhash_str_needs_rehash hash ops mem) (PwhashStrNeedsRehash hash ops mem).
Definition pwhash_str_verify `{Sodium} (hash password : list Z) : hashing_program Z :=
  service (λ _, crypto_pwhash_str_verify hash password) (PwhashStrVerify hash password).

(** What a program returns. *)
Definition answer_of {A} (m : hashing_program A) : run A :=
  let! o := m tt [] in
  match o with Done a _ _ => Some a | Exhausted _ => None end.

(** *** Encoded hashes *)

(** The loop over the digits: where it ends, the number, and whether there was a
    digit; [None] if the number is too large. *)
Fixpoint parse_digits (position : list Z) (parsed : Z) (saw_digit : bool)
    : run (option (list Z * Z * bool)) :=
  match position with
  | [] => None
  | b :: next =>
      if Prelude.between (chr "0") (chr "9") b then
        let digit := b - chr "0" in
        if (UINT64_MAX - digit) / 10 <? parsed then Some None
        else parse_digits next (u64 (parsed * 10 + digit)) true
      else Some (Some (position, parsed, saw_digit))
  end.

(** The cursor after the delimiter and the number. *)
Definition parse_u64_component (cursor : ptr) (delimiter : Z) : run (option (list Z * Z)) :=
  match cursor with
  | None => Some None
  | Some cursor =>
      let! digits := parse_digits cursor 0 false in
      match digits with
      | None => Some None
      | Some (position, parsed, saw_digit) =>
          let! c := buf_get position 0 in
          if negb saw_digit || negb (c =? delimiter) then Some None
          else
            let! next := buf_at position 1 in
            Some (Some (next, parsed))
      end
  end.

Definition hash_character (c : Z) : bool :=
  Prelude.between (chr "A") (chr "Z") c || Prelude.between (chr "a") (chr "z") c || Prelude.between (chr "0") (chr "9") c
  || (c =? chr "+") || (c =? chr "/") || (c =? chr "$").

Fixpoint hash_characters (position : list Z) : run bool :=
  match position with
  | [] => None
  | c :: next =>
      if c =? 0 then Some true
      else if negb (hash_character c) then Some false else hash_characters next
  end.

Definition hash_tail_is_well_formed (cursor : ptr) : run bool :=
  match cursor with
  | None => Some false
  | Some cursor =>
      let! first := buf_get cursor 0 in
      if first =? 0 then Some false
      else
        let! separator := strchr cursor (chr "$") in
        match separator with
        | None => Some false
        | Some separator =>
            if zlen separator =? zlen cursor then Some false
            else
              let! after := buf_get separator 1 in
              if after =? 0 then Some false
              else
                let! next := buf_at separator 1 in
                let! second := strchr next (chr "$") in
                if negb (is_null second) then Some false else hash_characters cursor
        end
  end.

Definition hash_prefix : list Z := lit "$argon2id$v=".

(** One parameter and the name of the next one. *)
Definition parse_parameter (cursor : list Z) (delimiter : Z) (name : list Z)
    : run (option (list Z * Z)) :=
  let! parsed := parse_u64_component (Some cursor) delimiter in
  match parsed with
  | None => Some None
  | Some (cursor, value) =>
      let! named := has_prefix cursor name in
      if negb named then Some None
      else
        let! cursor := buf_at cursor (zlen name) in
        Some (Some (cursor, value))
  end.

Section sodium.
Context `{Sodium}.

Definition authd_password_policy_defaults (policy : option authd_password_policy)
    : option authd_password_policy :=
  match policy with
  | None => None
  | Some _ =>
      Some (PasswordPolicy AUTHD_PASSWORD_DEFAULT_OPSLIMIT AUTHD_PASSWORD_DEFAULT_MEMLIMIT_BYTES
              AUTHD_PASSWORD_DEFAULT_MAX_OPSLIMIT AUTHD_PASSWORD_DEFAULT_MAX_MEMLIMIT_BYTES
              AUTHD_PASSWORD_DEFAULT_MAX_PARALLELISM)
  end.

Definition authd_password_policy_is_valid (policy : option authd_password_policy) : bool :=
  match policy with
  | None => false
  | Some p =>
      (crypto_pwhash_OPSLIMIT_MIN <=? opslimit p) && (opslimit p <=? crypto_pwhash_OPSLIMIT_MAX)
      && (crypto_pwhash_MEMLIMIT_MIN <=? memlimit_bytes p)
      && (memlimit_bytes p <=? crypto_pwhash_MEMLIMIT_MAX)
      && (opslimit p <=? max_verify_opslimit p)
      && (max_verify_opslimit p <=? crypto_pwhash_OPSLIMIT_MAX)
      && (memlimit_bytes p <=? max_verify_memlimit_bytes p)
      && (max_verify_memlimit_bytes p <=? crypto_pwhash_MEMLIMIT_MAX)
      && (max_verify_parallelism p =? 1)
  end.

(** The numbers of a hash, before their ranges are checked. *)
Definition parse_hash (encoded_hash : list Z) : run (option (Z * Z * Z * Z)) :=
  let! cursor := buf_at encoded_hash (zlen hash_prefix) in
  let! r := parse_parameter cursor (chr "$") (lit "m=") in
  match r with
  | None => Some None
  | Some (cursor, version) =>
      let! r := parse_parameter cursor (chr ",") (lit "t=") in
      match r with
      | None => Some None
      | Some (cursor, memory_kib) =>
          let! r := parse_parameter cursor (chr ",") (lit "p=") in
          match r with
          | None => Some None
          | Some (cursor, time_cost) =>
              let! r := parse_u64_component (Some cursor) (chr "$") in
              match r with
              | None => Some None
              | Some (cursor, parallelism) =>
                  let! tail := hash_tail_is_well_formed (Some cursor) in
                  Some (if tail then Some (version, memory_kib, time_cost, parallelism) else None)
              end
          end
      end
  end.

Definition authd_password_inspect_hash (encoded_hash : ptr) (info : option authd_password_hash_info)
    : run (bool * option authd_password_hash_info) :=
  match encoded_hash, info with
  | Some encoded_hash, Some _ =>
      let! length := strnlen encoded_hash (Z.to_nat crypto_pwhash_STRBYTES) in
      if (length =? 0) || (crypto_pwhash_STRBYTES <=? length) then Some (false, info)
      else
        let! prefixed := has_prefix encoded_hash hash_prefix in
        if negb prefixed then Some (false, info)
        else
          let! parsed := parse_hash encoded_hash in
          match parsed with
          | None => Some (false, info)
          | Some (version, memory_kib, time_cost, parallelism) =>
              if (UINT32_MAX <? version) || (time_cost =? 0) || (UINT32_MAX <? time_cost)
                 || (parallelism =? 0) || (UINT32_MAX <? parallelism) || (memory_kib =? 0)
                 || (SIZE_MAX / 1024 <? memory_kib)
              then Some (false, info)
              else Some (true, Some (HashInfo (u32 version) memory_kib (u32 time_cost) (u32 parallelism)))
          end
  | _, _ => Some (false, info)
  end.

Definition hash_is_allowed (policy : option authd_password_policy) (encoded_hash : ptr)
    (info : authd_password_hash_info) : run (authd_password_result * authd_password_hash_info) :=
  match policy with
  | Some p =>
      if negb (authd_password_policy_is_valid policy) then Some (AUTHD_PASSWORD_INVALID_HASH, info)
      else
        let! (known, info) := authd_password_inspect_hash encoded_hash (Some info) in
        let! info := deref info in
        if negb known then Some (AUTHD_PASSWORD_INVALID_HASH, info)
        else if negb (hi_version info =? AUTHD_PASSWORD_ARGON2_VERSION)
        then Some (AUTHD_PASSWORD_INVALID_HASH, info)
        else
          let memory_bytes := u64 (hi_memory_kib info * 1024) in
          if (max_verify_opslimit p <? hi_time_cost info)
             || (max_verify_memlimit_bytes p <? memory_bytes)
             || (max_verify_parallelism p <? hi_parallelism info)
          then Some (AUTHD_PASSWORD_RESOURCE_LIMIT, info)
          else Some (AUTHD_PASSWORD_OK, info)
  | None => Some (AUTHD_PASSWORD_INVALID_HASH, info)
  end.

(** *** Passwords *)

Definition password_arguments_are_valid (password : ptr) (password_length password_capacity : Z)
    : bool :=
  negb (is_null password) && (1 <=? password_length) && (password_length <=? AUTHD_PASSWORD_MAX_BYTES)
  && (password_length <=? password_capacity) && (password_capacity <=? AUTHD_PASSWORD_MAX_BUFFER_BYTES).

(** The buffer afterwards. *)
Definition wipe_locked_or_plain (password : ptr) (password_capacity : Z) (locked : bool) : run ptr :=
  match password with
  | None => Some None
  | Some buffer =>
      if password_capacity =? 0 then Some password
      else
        let! region := buf_read buffer 0 password_capacity in
        let! buffer :=
          buf_write buffer 0 (if locked then sodium_munlock region else sodium_memzero region) in
        Some (Some buffer)
  end.

Definition lock_password (password : ptr) (password_capacity : Z) : run bool :=
  let! buffer := deref password in
  let! region := buf_read buffer 0 password_capacity in
  Some (sodium_mlock region =? 0).

(** [encoded_hash[0] = 0] *)
Definition clear_hash (encoded_hash : ptr) (encoded_hash_size : Z) : run ptr :=
  match encoded_hash with
  | Some buffer =>
      if 0 <? encoded_hash_size then let! buffer := buf_set buffer 0 0 in Some (Some buffer)
      else Some encoded_hash
  | None => Some None
  end.

(** The result and the contents of [password] and [encoded_hash]. *)
Definition authd_password_generate (policy : option authd_password_policy) (password : ptr)
    (password_length password_capacity : Z) (encoded_hash : ptr) (encoded_hash_size : Z)
    : hashing_program (authd_password_result * ptr * ptr) :=
  let finish result locked encoded_hash :=
    let* password := lift (wipe_locked_or_plain password password_capacity locked) in
    ret (result, password, encoded_hash) in
  let* encoded_hash := lift (clear_hash encoded_hash encoded_hash_size) in
  match policy with
  | Some p =>
      if negb (password_arguments_are_valid password password_length password_capacity)
         || negb (authd_password_policy_is_valid policy) || is_null encoded_hash
         || (encoded_hash_size <? crypto_pwhash_STRBYTES)
      then finish AUTHD_PASSWORD_INVALID_INPUT false encoded_hash
      else if sodium_init <? 0 then finish AUTHD_PASSWORD_INTERNAL_ERROR false encoded_hash
      else
        let* locked := lift (lock_password password password_capacity) in
        let* buffer := lift (deref password) in
        let* text := lift (buf_read buffer 0 password_length) in
        let* (status, hash) := pwhash_str_alg text (opslimit p) (memlimit_bytes p) in
        let* target := lift (deref encoded_hash) in
        let* target := lift (buf_write target 0 hash) in
        if negb (status =? 0) then
          let* target := lift (buf_set target 0 0) in
          finish AUTHD_PASSWORD_RESOURCE_LIMIT locked (Some target)
        else finish AUTHD_PASSWORD_OK locked (Some target)
  | None => finish AUTHD_PASSWORD_INVALID_INPUT false encoded_hash
  end.

(** The result and the contents of [password] and [needs_rehash]. *)
Definition authd_password_verify (policy : option authd_password_policy) (encoded_hash password : ptr)
    (password_length password_capacity : Z) (needs_rehash : option bool)
    : hashing_program (authd_password_result * ptr * option bool) :=
  let needs_rehash := match needs_rehash with Some _ => Some false | None => None end in
  let finish result locked needs_rehash :=
    let* password := lift (wipe_locked_or_plain password password_capacity locked) in
    ret (result, password, needs_rehash) in
  match policy, encoded_hash, needs_rehash with
  | Some p, Some hash, Some _ =>
      if negb (password_arguments_are_valid password password_length password_capacity)
         || negb (authd_password_policy_is_valid policy)
      then finish AUTHD_PASSWORD_INVALID_INPUT false needs_rehash
      else if sodium_init <? 0 then finish AUTHD_PASSWORD_INTERNAL_ERROR false needs_rehash
      else
        let* (result, _) := lift (hash_is_allowed policy encoded_hash (HashInfo 0 0 0 0)) in
        if negb (bool_decide (result = AUTHD_PASSWORD_OK)) then finish result false needs_rehash
        else
          let* rehash_result := pwhash_str_needs_rehash (cstr hash) (opslimit p) (memlimit_bytes p) in
          if rehash_result <? 0 then finish AUTHD_PASSWORD_INVALID_HASH false needs_rehash
          else
            let* locked := lift (lock_password password password_capacity) in
            let* buffer := lift (deref password) in
            let* text := lift (buf_read buffer 0 password_length) in
            let* verified := pwhash_str_verify (cstr hash) text in
            if negb (verified =? 0)
            then finish AUTHD_PASSWORD_MISMATCH locked needs_rehash
            else finish AUTHD_PASSWORD_OK locked (Some (negb (rehash_result =? 0)))
  | _, _, _ => finish AUTHD_PASSWORD_INVALID_INPUT false needs_rehash
  end.
End sodium.

Definition authd_password_result_name (result : authd_password_result) : list Z :=
  match result with
  | AUTHD_PASSWORD_OK => lit "ok"
  | AUTHD_PASSWORD_MISMATCH => lit "mismatch"
  | AUTHD_PASSWORD_INVALID_INPUT => lit "invalid_input"
  | AUTHD_PASSWORD_INVALID_HASH => lit "invalid_hash"
  | AUTHD_PASSWORD_RESOURCE_LIMIT => lit "resource_limit"
  | AUTHD_PASSWORD_INTERNAL_ERROR => lit "internal_error"
  end.

(** ** The texts of the parser *)

Definition digit (b : Z) : Prop := chr "0" <= b <= chr "9".

Definition decimal_from (start : Z) (ds : list Z) : Z := fold_left (λ n d, n * 10 + (d - chr "0")) ds start.

Definition decimal (ds : list Z) : Z := decimal_from 0 ds.

(** [s] begins with a number and [delimiter], [s'] follows. *)
Definition number_field (s : list Z) (delimiter n : Z) (s' : list Z) : Prop :=
  ∃ ds, s = ds ++ delimiter :: s' ∧ ds ≠ [] ∧ Forall digit ds ∧ decimal ds = n ∧ n <= UINT64_MAX.

(** The salt and the hash. *)
Definition hash_tail (s : list Z) : Prop :=
  ∃ salt hash, s = salt ++ chr "$" :: hash ∧ salt ≠ [] ∧ hash ≠ [] ∧
    Forall (λ c, hash_character c = true ∧ c ≠ chr "$") (salt ++ hash).

(** [$argon2id$v=VERSION$m=MEMORY,t=TIME,p=PARALLELISM$SALT$HASH] *)
Definition hash_text (text : list Z) (version memory_kib time_cost parallelism : Z) : Prop :=
  ∃ s0 s1 s2 s3 s4, text = hash_prefix ++ s0 ∧
    number_field s0 (chr "$") version (lit "m=" ++ s1) ∧
    number_field s1 (chr ",") memory_kib (lit "t=" ++ s2) ∧
    number_field s2 (chr ",") time_cost (lit "p=" ++ s3) ∧
    number_field s3 (chr "$") parallelism s4 ∧ hash_tail s4.

Lemma terminated_first s tail : buf_get (terminated s tail) 0 = Some (hd 0 s).
Proof. by destruct s. Qed.

Lemma terminated_at s tail n :
  0 <= n <= zlen s → buf_at (terminated s tail) n = Some (terminated (drop (Z.to_nat n) s) tail).
Proof.
  intros Hn. rewrite buf_at_in.
  - unfold terminated. rewrite drop_app_le; [done|]. unfold zlen in Hn. lia.
  - unfold terminated. rewrite zlen_app, zlen_cons. pose proof (zlen_nonneg tail). lia.
Qed.

Lemma decimal_grows n ds : 0 <= n → Forall digit ds → n <= decimal_from n ds.
Proof.
  intros Hn Hds. revert n Hn. induction Hds as [|d ds Hd _ IH]; intros n Hn; [done|].
  cbn. unfold digit in Hd. etrans; [|apply IH; lia]. lia.
Qed.

(** The digits are read to the first byte that is not one. *)
Lemma parse_digits_spec ds b s n saw :
  0 <= n <= UINT64_MAX → Forall digit ds → ¬ digit b →
  parse_digits (ds ++ b :: s) n saw
    = Some (if decimal_from n ds <=? UINT64_MAX
            then Some (b :: s, decimal_from n ds, saw || negb (bool_decide (ds = []))) else None).
Proof.
  intros Hn Hds Hb. revert n saw Hn. induction Hds as [|d ds Hd Hds IH]; intros n saw Hn.
  - cbn. replace (Prelude.between (chr "0") (chr "9") b) with false.
    + rewrite orb_false_r, (proj2 (Z.leb_le _ _)) by lia. done.
    + symmetry. apply not_true_iff_false. by rewrite between_spec.
  - cbn [app parse_digits]. rewrite (proj2 (between_spec _ _ _)) by done.
    assert (Prelude.between 0 9 (d - chr "0") = true) as Hdig
      by (apply between_spec; unfold digit in Hd; change (chr "0") with 48 in *; change (chr "9") with 57 in *; lia).
    apply between_spec in Hdig. cbn [decimal_from fold_left].
    change (fold_left _ ds ?m) with (decimal_from m ds).
    destruct (Z.ltb_spec ((UINT64_MAX - (d - chr "0")) / 10) n) as [Hlt|Hge].
    + pose proof (decimal_grows (n * 10 + (d - chr "0")) ds ltac:(lia) Hds).
      pose proof (Z.div_mod (UINT64_MAX - (d - chr "0")) 10 ltac:(done)).
      pose proof (Z.mod_pos_bound (UINT64_MAX - (d - chr "0")) 10 ltac:(done)).
      by rewrite (proj2 (Z.leb_gt _ _)) by lia.
    + assert (n * 10 + (d - chr "0") <= UINT64_MAX) as Hle.
      { pose proof (Z.mul_div_le (UINT64_MAX - (d - chr "0")) 10 ltac:(lia)). lia. }
      unfold u64. rewrite wrap_fits by (unfold fits, UINT64_MAX in *; lia).
      rewrite IH by lia. by rewrite orb_true_r.
Qed.

(** A text up to its first byte that is not a digit. *)
Lemma digits_split s tail :
  ∃ ds b s', terminated s tail = ds ++ b :: s' ∧ Forall digit ds ∧ ¬ digit b ∧
    (b = 0 ∨ ∃ next, s = ds ++ b :: next ∧ s' = terminated next tail).
Proof.
  induction s as [|c s (ds & b & s' & E & Hds & Hb & Hs)].
  - exists [], 0, tail. split; [done|]. split; [done|]. split; [unfold digit; char_lia|by left].
  - destruct (decide (chr "0" <= c <= chr "9")) as [Hc|Hc].
    + exists (c :: ds), b, s'. unfold terminated in *. cbn. rewrite E. split; [done|].
      split; [by constructor|]. split; [done|]. destruct Hs as [|(next & -> & ->)]; [by left|right].
      by exists next.
    + exists [], c, (terminated s tail). split; [done|]. split; [done|]. split; [done|].
      right. by exists s.
Qed.

(** Where the digits of a text end is unique. *)
Lemma digits_unique ds1 b1 s1 ds2 b2 s2 :
  ds1 ++ b1 :: s1 = ds2 ++ b2 :: s2 → Forall digit ds1 → Forall digit ds2 →
  ¬ digit b1 → ¬ digit b2 → ds1 = ds2 ∧ b1 = b2 ∧ s1 = s2.
Proof.
  revert ds2. induction ds1 as [|d ds1 IH]; intros [|d2 ds2] E H1 H2 Hb1 Hb2; cbn in E.
  - by injection E as -> ->.
  - injection E as -> E. by inversion H2.
  - injection E as <- E. by inversion H1.
  - injection E as -> E. inversion H1. inversion H2. by destruct (IH ds2 E) as (-> & -> & ->).
Qed.

Lemma number_field_unique s delimiter n s' m s'' :
  ¬ digit delimiter → number_field s delimiter n s' → number_field s delimiter m s'' →
  n = m ∧ s' = s''.
Proof.
  intros Hd (ds & -> & _ & Hds & <- & _) (ds' & E & _ & Hds' & <- & _).
  by destruct (digits_unique _ _ _ _ _ _ E Hds Hds' Hd Hd) as (-> & _ & ->).
Qed.

Lemma parse_u64_component_spec s tail delimiter :
  ¬ digit delimiter → delimiter ≠ 0 →
  ∃ r, parse_u64_component (Some (terminated s tail)) delimiter = Some r ∧
    match r with
    | Some (cursor, n) => ∃ s', cursor = terminated s' tail ∧ number_field s delimiter n s'
    | None => ∀ n s', ¬ number_field s delimiter n s'
    end.
Proof.
  intros Hd H0. unfold parse_u64_component.
  destruct (digits_split s tail) as (ds & b & s' & E & Hds & Hb & Hs). rewrite E.
  rewrite parse_digits_spec by (done || by vm_compute). run_simpl. fold (decimal ds).
  assert (∀ n next, number_field s delimiter n next →
    ds ≠ [] ∧ b = delimiter ∧ decimal ds = n ∧ n <= UINT64_MAX) as Honly.
  { intros n next (ds' & -> & Hne & Hds' & Hn & Hle). unfold terminated in E. rewrite <- app_assoc in E.
    cbn in E. by destruct (digits_unique _ _ _ _ _ _ E Hds' Hds Hd Hb) as (-> & -> & _). }
  destruct (Z.leb_spec (decimal ds) UINT64_MAX) as [Hle|Hgt].
  2:{ eexists. split; [done|]. intros n next Hf. destruct (Honly n next Hf) as (_ & _ & <- & ?). lia. }
  cbn [buf_get]. change (buf_get (b :: s') 0) with (Some b). run_simpl. cbn [orb].
  destruct (bool_decide (ds = [])) eqn:Ene; bools; cbn [negb orb].
  { eexists. split; [done|]. intros n next Hf. by destruct (Honly n next Hf). }
  destruct (Z.eqb_spec b delimiter) as [->|Hne]; cbn [negb].
  2:{ eexists. split; [done|]. intros n next Hf. by destruct (Honly n next Hf) as (_ & ? & _). }
  destruct Hs as [|(next & -> & ->)]; [done|].
  rewrite (buf_at_in (delimiter :: terminated next tail) 1)
    by (rewrite zlen_cons; pose proof (zlen_nonneg (terminated next tail)); lia).
  change (Z.to_nat 1) with 1%nat. cbn [drop]. run_simpl.
  eexists. split; [done|]. exists next. split; [done|]. by exists ds.
Qed.

Lemma parse_parameter_spec s tail delimiter name :
  ¬ digit delimiter → delimiter ≠ 0 → Forall (λ b, b ≠ 0) name →
  ∃ r, parse_parameter (terminated s tail) delimiter name = Some r ∧
    match r with
    | Some (cursor, n) => ∃ s', cursor = terminated s' tail ∧ number_field s delimiter n (name ++ s')
    | None => ∀ n s', ¬ number_field s delimiter n (name ++ s')
    end.
Proof.
  intros Hd H0 Hname. unfold parse_parameter.
  destruct (parse_u64_component_spec s tail delimiter Hd H0) as ([[cursor n]|] & -> & Hr); run_simpl.
  2:{ eexists. split; [done|]. intros n s'. apply Hr. }
  destruct Hr as (s' & -> & Hf). rewrite has_prefix_terminated by done. run_simpl.
  destruct (bool_decide (name `prefix_of` s')) eqn:Ep; bools; cbn [negb].
  - destruct Ep as [s'' ->]. rewrite terminated_at.
    2:{ rewrite zlen_app. pose proof (zlen_nonneg name). pose proof (zlen_nonneg s''). lia. }
    run_simpl. eexists. split; [done|]. exists s''. split; [|done]. f_equal.
    unfold zlen. by rewrite Nat2Z.id, drop_app_length.
  - eexists. split; [done|]. intros m s'' Hf'.
    destruct (number_field_unique _ _ _ _ _ _ Hd Hf Hf') as [_ ->]. apply Ep. by exists s''.
Qed.

(** *** The salt and the hash *)

Lemma strchr_spec s tail c :
  c ≠ 0 →
  (∃ a b, s = a ++ c :: b ∧ c ∉ a ∧ strchr (terminated s tail) c = Some (Some (terminated (c :: b) tail))) ∨
  (c ∉ cstr s ∧ (Forall (λ x, x ≠ 0) s → c ∉ s) ∧ strchr (terminated s tail) c = Some None) ∨
  ¬ Forall (λ x, x ≠ 0) s.
Proof.
  intros Hc. destruct (decide (Forall (λ x, x ≠ 0) s)) as [Hs|]; [|by right; right].
  induction s as [|x s IH].
  - right. left. cbn [terminated app strchr cstr]. rewrite (proj2 (Z.eqb_neq _ _)) by congruence.
    split; [set_solver|]. split; [set_solver|done].
  - inversion Hs as [|? ? Hx Hs']; subst. cbn [terminated app strchr].
    change (s ++ 0 :: tail) with (terminated s tail). destruct (Z.eqb_spec x c) as [->|Hne].
    + left. exists [], s. split; [done|]. split; [set_solver|done].
    + rewrite (proj2 (Z.eqb_neq x 0)) by done.
      destruct (IH Hs') as [(a & b & -> & Ha & ->)|[(Hn & Hn' & ->)|]]; [left|right; left|done].
      * exists (x :: a), b. split; [done|]. split; [set_solver|done].
      * cbn [cstr]. rewrite (proj2 (Z.eqb_neq x 0)) by done. split; [set_solver|]. split; [|done].
        intros _. specialize (Hn' Hs'). set_solver.
Qed.

Lemma hash_characters_spec s tail :
  Forall (λ x, x ≠ 0) s →
  hash_characters (terminated s tail) = Some (forallb hash_character s).
Proof.
  induction 1 as [|x s Hx _ IH]; [done|]. cbn [terminated app hash_characters forallb].
  rewrite (proj2 (Z.eqb_neq x 0)) by done. change (s ++ 0 :: tail) with (terminated s tail).
  destruct (hash_character x); [exact IH|done].
Qed.

Lemma terminated_length s tail : zlen (terminated s tail) = zlen s + 1 + zlen tail.
Proof. unfold terminated. rewrite zlen_app, zlen_cons. lia. Qed.

Lemma hash_tail_spec s tail :
  Forall (λ x, x ≠ 0) s →
  ∃ b, hash_tail_is_well_formed (Some (terminated s tail)) = Some b ∧ (b = true ↔ hash_tail s).
Proof.
  intros Hs. unfold hash_tail_is_well_formed. rewrite terminated_first. run_simpl.
  assert (∀ salt hash, s = salt ++ chr "$" :: hash → chr "$" ∉ salt →
    hash_tail s → salt ≠ [] ∧ hash ≠ [] ∧ chr "$" ∉ hash ∧ forallb hash_character s = true) as Honly.
  { intros salt hash -> Hsalt (salt' & hash' & E & Hne & Hne' & Hall).
    rewrite Forall_app in Hall. destruct Hall as [Hall Hall'].
    assert (salt = salt' ∧ hash = hash') as [-> ->].
    { clear Hne. revert salt' E Hall. clear - Hsalt. induction salt as [|x salt IH]; intros [|x' salt'] E Hall.
      - by injection E.
      - injection E as <- _. by inversion Hall as [|? ? [_ ?] _].
      - injection E as -> _. set_solver.
      - injection E as <- E. inversion Hall. by destruct (IH ltac:(set_solver) salt' E) as [-> ->]. }
    split; [done|]. split; [done|]. split.
    - intros Hin. rewrite Forall_forall in Hall'. by destruct (Hall' _ Hin).
    - rewrite forallb_app. apply andb_true_iff. split.
      + apply forallb_Forall. eapply Forall_impl; [exact Hall|]. by intros ? [? _].
      + cbn. apply forallb_Forall. eapply Forall_impl; [exact Hall'|]. by intros ? [? _]. }
  destruct (Z.eqb_spec (hd 0 s) 0) as [Hz|Hz].
  { eexists. split; [done|]. split; [done|]. destruct s as [|x s].
    - intros (salt & hash & E & _). by destruct salt.
    - inversion Hs. cbn in Hz. congruence. }
  destruct (strchr_spec s tail (chr "$") ltac:(done)) as [(salt & hash & -> & Hsalt & ->)|[(_ & Hno & ->)|]];
    [| |done]; run_simpl.
  2:{ eexists. split; [done|]. split; [done|]. intros (salt & hash & -> & _). exfalso.
      apply (Hno Hs). set_solver. }
  pose proof (Honly salt hash eq_refl Hsalt) as Honly'. clear Honly.
  rewrite !terminated_length, zlen_app, zlen_cons.
  destruct (Z.eqb_spec (1 + zlen hash + 1 + zlen tail) (zlen salt + (1 + zlen hash) + 1 + zlen tail)) as [E|E].
  { eexists. split; [done|]. split; [done|]. intros Ht. destruct (Honly' Ht) as (Hne & _).
    destruct salt; [done|]. rewrite zlen_cons in E. pose proof (zlen_nonneg salt). lia. }
  change (buf_get (terminated (chr "$" :: hash) tail) 1) with (buf_get (terminated hash tail) 0).
  rewrite terminated_first. run_simpl.
  rewrite terminated_at by (rewrite zlen_cons; pose proof (zlen_nonneg hash); lia).
  change (Z.to_nat 1) with 1%nat. cbn [drop]. rewrite drop_0. run_simpl.
  apply Forall_app in Hs as Hs'. destruct Hs' as [Hs1 Hs2]. inversion Hs2 as [|? ? _ Hs3]; subst.
  destruct (Z.eqb_spec (hd 0 hash) 0) as [Hz'|Hz'].
  { eexists. split; [done|]. split; [done|]. intros Ht. destruct (Honly' Ht) as (_ & Hne & _).
    destruct hash as [|y hash]; [done|]. inversion Hs3. cbn in Hz'. congruence. }
  destruct (strchr_spec hash tail (chr "$") ltac:(done)) as [(a & b & -> & _ & ->)|[(_ & Hno & ->)|]];
    [| |done]; run_simpl; cbn [is_null negb].
  { eexists. split; [done|]. split; [done|]. intros Ht. destruct (Honly' Ht) as (_ & _ & Hin & _).
    exfalso. set_solver. }
  rewrite hash_characters_spec by done. eexists. split; [done|]. split; [|intros Ht; apply (Honly' Ht)].
  intros Hall. exists salt, hash. split; [done|]. split.
  { destruct salt; [|done]. change (zlen (@nil Z)) with 0 in E. lia. }
  split; [by destruct hash|]. rewrite forallb_app in Hall. cbn in Hall. bools. apply Forall_app. split.
  - apply Forall_forall. intros x Hx. split; [|by intros ->].
    rewrite forallb_Forall, Forall_forall in H. auto.
  - apply Forall_forall. intros x Hx. split; [|intros ->; by apply (Hno Hs3)].
    rewrite forallb_Forall, Forall_forall in H1. auto.
Qed.

(** *** Whole hashes *)

Lemma number_field_nonzero s delimiter n s' :
  Forall (λ x, x ≠ 0) s → number_field s delimiter n s' → Forall (λ x, x ≠ 0) s' ∧ 0 <= n <= UINT64_MAX.
Proof.
  intros Hs (ds & -> & _ & Hds & <- & Hle). apply Forall_app in Hs as [_ Hs]. inversion Hs; subst.
  split; [done|]. split; [|done]. by apply decimal_grows.
Qed.

(** Two readings of the same field leave the same text. *)
Ltac same_field Hd F G :=
  let E := fresh "E" in
  destruct (number_field_unique _ _ _ _ _ _ Hd F G) as [_ E]; apply app_inv_head in E as <-.

Lemma parse_hash_spec s tail :
  Forall (λ x, x ≠ 0) (hash_prefix ++ s) →
  ∃ r, parse_hash (terminated (hash_prefix ++ s) tail) = Some r ∧
    match r with
    | Some (version, memory_kib, time_cost, parallelism) =>
        hash_text (hash_prefix ++ s) version memory_kib time_cost parallelism ∧
        0 <= version <= UINT64_MAX ∧ 0 <= memory_kib <= UINT64_MAX ∧
        0 <= time_cost <= UINT64_MAX ∧ 0 <= parallelism <= UINT64_MAX
    | None => ∀ v m t p, ¬ hash_text (hash_prefix ++ s) v m t p
    end.
Proof.
  intros Hs. unfold parse_hash.
  rewrite terminated_at by (rewrite zlen_app; pose proof (zlen_nonneg s); pose proof (zlen_nonneg hash_prefix); lia).
  unfold zlen at 1. rewrite Nat2Z.id, drop_app_length. run_simpl.
  apply Forall_app in Hs as [_ Hs].
  assert (∀ c, c = chr "$" ∨ c = chr "," → ¬ digit c ∧ c ≠ 0) as Hdel
    by (intros c [-> | ->]; unfold digit; split; char_lia).
  destruct (Hdel (chr "$")) as [Hd1 Hd1']; [by left|]. destruct (Hdel (chr ",")) as [Hd2 Hd2']; [by right|].
  assert (∀ v m t p, hash_text (hash_prefix ++ s) v m t p → ∃ s1 s2 s3 s4,
    number_field s (chr "$") v (lit "m=" ++ s1) ∧ number_field s1 (chr ",") m (lit "t=" ++ s2) ∧
    number_field s2 (chr ",") t (lit "p=" ++ s3) ∧ number_field s3 (chr "$") p s4 ∧ hash_tail s4) as Hinv.
  { intros v m t p (s0 & s1 & s2 & s3 & s4 & E & ?). apply app_inv_head in E as <-. by exists s1, s2, s3, s4. }
  destruct (parse_parameter_spec s tail (chr "$") (lit "m=")) as ([[cursor version]|] & -> & H1);
    [done|done|by repeat constructor|..]; run_simpl.
  2:{ eexists. split; [done|]. intros v m t p Ht. destruct (Hinv v m t p Ht) as (s1 & s2 & s3 & s4 & Hf & _).
      by eapply H1. }
  destruct H1 as (s1 & -> & F1). destruct (number_field_nonzero _ _ _ _ Hs F1) as [Hn1 B1].
  apply Forall_app in Hn1 as [_ Hn1].
  destruct (parse_parameter_spec s1 tail (chr ",") (lit "t=")) as ([[cursor memory]|] & -> & H2);
    [done|done|by repeat constructor|..]; run_simpl.
  2:{ eexists. split; [done|]. intros v m t p Ht. destruct (Hinv v m t p Ht) as (s1' & s2 & s3 & s4 & G1 & G2 & _).
      same_field Hd1 F1 G1. by eapply H2. }
  destruct H2 as (s2 & -> & F2). destruct (number_field_nonzero _ _ _ _ Hn1 F2) as [Hn2 B2].
  apply Forall_app in Hn2 as [_ Hn2].
  destruct (parse_parameter_spec s2 tail (chr ",") (lit "p=")) as ([[cursor time]|] & -> & H3);
    [done|done|by repeat constructor|..]; run_simpl.
  2:{ eexists. split; [done|]. intros v m t p Ht.
      destruct (Hinv v m t p Ht) as (s1' & s2' & s3 & s4 & G1 & G2 & G3 & _).
      same_field Hd1 F1 G1.
      same_field Hd2 F2 G2. by eapply H3. }
  destruct H3 as (s3 & -> & F3). destruct (number_field_nonzero _ _ _ _ Hn2 F3) as [Hn3 B3].
  apply Forall_app in Hn3 as [_ Hn3].
  destruct (parse_u64_component_spec s3 tail (chr "$")) as ([[cursor par]|] & -> & H4); [done|done|..]; run_simpl.
  2:{ eexists. split; [done|]. intros v m t p Ht.
      destruct (Hinv v m t p Ht) as (s1' & s2' & s3' & s4 & G1 & G2 & G3 & G4 & _).
      same_field Hd1 F1 G1.
      same_field Hd2 F2 G2.
      same_field Hd2 F3 G3. by eapply H4. }
  destruct H4 as (s4 & -> & F4). destruct (number_field_nonzero _ _ _ _ Hn3 F4) as [Hn4 B4].
  destruct (hash_tail_spec s4 tail Hn4) as ([|] & -> & Htail); run_simpl; (eexists; split; [done|]).
  - split; [|done]. exists s, s1, s2, s3, s4. split_and!; try done. by apply Htail.
  - intros v m t p Ht. destruct (Hinv v m t p Ht) as (s1' & s2' & s3' & s4' & G1 & G2 & G3 & G4 & G5).
    same_field Hd1 F1 G1.
    same_field Hd2 F2 G2.
    same_field Hd2 F3 G3.
    destruct (number_field_unique _ _ _ _ _ _ Hd1 F4 G4) as [_ <-]. apply Htail in G5. done.
Qed.

(** ** What libsodium promises *)

Class SodiumLaws `{Sodium} : Prop := {
  law_memzero l : sodium_memzero l = zeros (zlen l);
  law_munlock l : sodium_munlock l = zeros (zlen l);
  law_strbytes : 0 < crypto_pwhash_STRBYTES;
  law_opslimit : 1 <= crypto_pwhash_OPSLIMIT_MIN ∧ crypto_pwhash_OPSLIMIT_MAX <= UINT32_MAX;
  law_memlimit : 1024 <= crypto_pwhash_MEMLIMIT_MIN ∧ crypto_pwhash_MEMLIMIT_MAX <= SIZE_MAX;
  law_str_length password ops mem :
    array_ok crypto_pwhash_STRBYTES (snd (crypto_pwhash_str_alg password ops mem));
  (** A stored string has the limits it was made with and verifies its password. *)
  law_str password ops mem :
    crypto_pwhash_OPSLIMIT_MIN <= ops <= crypto_pwhash_OPSLIMIT_MAX →
    crypto_pwhash_MEMLIMIT_MIN <= mem <= crypto_pwhash_MEMLIMIT_MAX →
    fst (crypto_pwhash_str_alg password ops mem) = 0 →
    ∃ text tail, snd (crypto_pwhash_str_alg password ops mem) = terminated text tail ∧
      Forall (λ b, b ≠ 0) text ∧ hash_text text 19 (mem / 1024) ops 1 ∧
      crypto_pwhash_str_verify text password = 0 ∧
      crypto_pwhash_str_needs_rehash text ops mem = 0;
}.

Section password.
Context `{SodiumLaws}.

(** The numbers of a hash that the daemon reads. *)
Record describes (text : list Z) (i : authd_password_hash_info) : Prop := {
  de_text : hash_text text (hi_version i) (hi_memory_kib i) (hi_time_cost i) (hi_parallelism i);
  de_length : zlen text < crypto_pwhash_STRBYTES;
  de_version : hi_version i <= UINT32_MAX;
  de_memory : 0 < hi_memory_kib i <= SIZE_MAX / 1024;
  de_time : 0 < hi_time_cost i <= UINT32_MAX;
  de_parallelism : 0 < hi_parallelism i <= UINT32_MAX;
}.

Lemma hash_text_unique text v m t p v' m' t' p' :
  hash_text text v m t p → hash_text text v' m' t' p' → (v, m, t, p) = (v', m', t', p').
Proof.
  intros (s0 & s1 & s2 & s3 & s4 & -> & F1 & F2 & F3 & F4 & _)
    (s0' & s1' & s2' & s3' & s4' & E & G1 & G2 & G3 & G4 & _).
  apply app_inv_head in E as <-.
  assert (∀ c, c = chr "$" ∨ c = chr "," → ¬ digit c) as Hd
    by (intros c [-> | ->]; unfold digit; char_lia).
  destruct (number_field_unique _ _ _ _ _ _ (Hd _ ltac:(by left)) F1 G1) as [-> E].
  apply app_inv_head in E as <-.
  destruct (number_field_unique _ _ _ _ _ _ (Hd _ ltac:(by right)) F2 G2) as [-> E].
  apply app_inv_head in E as <-.
  destruct (number_field_unique _ _ _ _ _ _ (Hd _ ltac:(by right)) F3 G3) as [-> E].
  apply app_inv_head in E as <-.
  by destruct (number_field_unique _ _ _ _ _ _ (Hd _ ltac:(by left)) F4 G4) as [-> _].
Qed.

Lemma describes_unique text i j : describes text i → describes text j → i = j.
Proof.
  intros [Hi _ _ _ _ _] [Hj _ _ _ _ _]. destruct i, j; cbn in *.
  by injection (hash_text_unique _ _ _ _ _ _ _ _ _ Hi Hj) as -> -> -> ->.
Qed.

Lemma inspect_hash_spec text tail info :
  Forall (λ b, b ≠ 0) text →
  ∃ b info', authd_password_inspect_hash (Some (terminated text tail)) (Some info)
      = Some (b, Some info') ∧
    (if b then describes text info' else info' = info ∧ ∀ i, ¬ describes text i).
Proof.
  intros Htext. unfold authd_password_inspect_hash. pose proof law_strbytes.
  rewrite strnlen_spec, Z2Nat.id by (done || lia). run_simpl. pose proof (zlen_nonneg text).
  destruct ((Z.min _ _ =? 0) || _) eqn:Elen.
  { exists false, info. split; [done|]. split; [done|]. intros i [Ht Hlen _ _ _ _].
    destruct Ht as (s0 & _ & _ & _ & _ & -> & _). rewrite zlen_app in *.
    pose proof (zlen_nonneg s0). change (zlen hash_prefix) with 12 in *.
    bools. destruct Elen as [E|E]; bools; lia. }
  bools. assert (zlen text < crypto_pwhash_STRBYTES) as Hlen by lia. clear - Htext Hlen.
  rewrite has_prefix_terminated by (by repeat constructor). run_simpl.
  destruct (bool_decide (hash_prefix `prefix_of` text)) eqn:Ep; bools; cbn [negb].
  2:{ exists false, info. split; [done|]. split; [done|]. intros i [Ht _ _ _ _ _].
      destruct Ht as (s0 & _ & _ & _ & _ & -> & _). apply Ep. by exists s0. }
  destruct Ep as [s ->]. destruct (parse_hash_spec s tail Htext) as ([[[[v m] t] p]|] & -> & Hr); run_simpl.
  2:{ exists false, info. split; [done|]. split; [done|]. intros i [Ht _ _ _ _ _]. by eapply Hr. }
  destruct Hr as (Ht & Hv & Hm & Htc & Hp).
  destruct ((UINT32_MAX <? v) || _ || _ || _ || _ || _ || _) eqn:Erange.
  - exists false, info. split; [done|]. split; [done|]. intros i [Hi _ H1 H2 H3 H4].
    injection (hash_text_unique _ _ _ _ _ _ _ _ _ Ht Hi) as -> -> -> ->.
    repeat (bools; destruct Erange as [Erange|Erange]); bools; lia.
  - exists true. eexists. split; [done|]. bools. unfold u32, UINT32_MAX, UINT64_MAX in *.
    rewrite (wrap_fits 32 v), (wrap_fits 32 t), (wrap_fits 32 p) by (split; lia). split; cbn; done || (unfold UINT32_MAX; lia).
Qed.

(** The hash is one that the daemon makes and is within the limits of [p]. *)
Definition admitted_hash (p : authd_password_policy) (text : list Z) : Prop :=
  ∃ i, describes text i ∧ hi_version i = AUTHD_PASSWORD_ARGON2_VERSION ∧
    hi_time_cost i <= max_verify_opslimit p ∧
    hi_memory_kib i * 1024 <= max_verify_memlimit_bytes p ∧
    hi_parallelism i <= max_verify_parallelism p.

Lemma hash_is_allowed_spec p text tail info :
  Forall (λ b, b ≠ 0) text → authd_password_policy_is_valid (Some p) = true →
  ∃ result info', hash_is_allowed (Some p) (Some (terminated text tail)) info = Some (result, info') ∧
    (result = AUTHD_PASSWORD_OK ↔ admitted_hash p text) ∧
    (result = AUTHD_PASSWORD_OK ∨ result = AUTHD_PASSWORD_INVALID_HASH ∨
     result = AUTHD_PASSWORD_RESOURCE_LIMIT).
Proof.
  intros Htext Hp. unfold hash_is_allowed. rewrite Hp. cbn [negb].
  destruct (inspect_hash_spec text tail info Htext) as (b & info' & -> & Hb). run_simpl. cbn [deref]. run_simpl.
  destruct b; cbn [negb].
  2:{ eexists _, _. split; [done|]. split; [|auto]. split; [done|].
      intros (i & Hi & _). by destruct Hb as [_ Hb]; destruct (Hb i). }
  assert (∀ i, describes text i → i = info') as Hu by (intros; by eapply describes_unique).
  destruct (Z.eqb_spec (hi_version info') AUTHD_PASSWORD_ARGON2_VERSION); cbn [negb].
  2:{ eexists _, _. split; [done|]. split; [|auto]. split; [done|].
      intros (i & Hi & Hv & _). by rewrite (Hu i Hi) in Hv. }
  assert (u64 (hi_memory_kib info' * 1024) = hi_memory_kib info' * 1024) as ->.
  { apply wrap_fits. pose proof (de_memory _ _ Hb) as [H1 H2]. change (SIZE_MAX / 1024) with 18014398509481983 in *.
    unfold fits. change (2 ^ 64) with 18446744073709551616. lia. }
  destruct ((max_verify_opslimit p <? _) || _ || _) eqn:El.
  - eexists _, _. split; [done|]. split; [|auto]. split; [done|].
    intros (i & Hi & _ & Hlim). rewrite (Hu i Hi) in Hlim.
    repeat (bools; destruct El as [El|El]); bools; lia.
  - eexists _, _. split; [done|]. split; [|auto]. split; [|done]. intros _. bools. by exists info'.
Qed.

(** *** The buffer of the password *)

Lemma wipe_locked_or_plain_spec buffer locked :
  wipe_locked_or_plain (Some buffer) (zlen buffer) locked = Some (Some (zeros (zlen buffer))).
Proof.
  unfold wipe_locked_or_plain. pose proof (zlen_nonneg buffer).
  destruct (Z.eqb_spec (zlen buffer) 0) as [E|E].
  { rewrite E. by destruct buffer. }
  rewrite buf_read_in by lia. run_simpl. change (Z.to_nat 0) with 0%nat. rewrite drop_0.
  rewrite (take_ge buffer) by (unfold zlen; lia). rewrite law_memzero, law_munlock.
  replace (if locked then zeros (zlen buffer) else zeros (zlen buffer)) with (zeros (zlen buffer)) by (by destruct locked).
  rewrite buf_write_in by (rewrite ?zlen_zeros; lia). run_simpl. change (Z.to_nat 0) with 0%nat.
  rewrite take_0, drop_ge; [by rewrite app_nil_r|].
  pose proof (zlen_zeros (zlen buffer) ltac:(lia)) as Hz. unfold zlen in *. lia.
Qed.

Lemma lock_password_runs buffer :
  lock_password (Some buffer) (zlen buffer) = Some (sodium_mlock buffer =? 0).
Proof.
  unfold lock_password. pose proof (zlen_nonneg buffer). cbn [deref]. run_simpl.
  rewrite buf_read_in by lia. run_simpl. change (Z.to_nat 0) with 0%nat. rewrite drop_0.
  by rewrite (take_ge buffer) by (unfold zlen; lia).
Qed.

Lemma password_text buffer length :
  0 <= length <= zlen buffer → buf_read buffer 0 length = Some (take (Z.to_nat length) buffer).
Proof. intros Hl. rewrite buf_read_in by lia. change (Z.to_nat 0) with 0%nat. by rewrite drop_0. Qed.

(** The lengths that the functions accept. *)
Definition lengths_ok (length capacity : Z) : Prop :=
  1 <= length <= AUTHD_PASSWORD_MAX_BYTES ∧ length <= capacity <= AUTHD_PASSWORD_MAX_BUFFER_BYTES.

Lemma arguments_valid buffer length capacity :
  password_arguments_are_valid (Some buffer) length capacity = true ↔ lengths_ok length capacity.
Proof.
  unfold password_arguments_are_valid, lengths_ok. cbn [is_null negb andb].
  rewrite !andb_true_iff, !Z.leb_le. lia.
Qed.

(** The end of an operation on a password. *)
Lemma wp_finish {A} (result : authd_password_result) buffer locked (x : A) Q (s : unit) (h : list sodium_call) :
  Q (result, Some (zeros (zlen buffer)), x) s h →
  wp (λ _, False) (let* password := lift (wipe_locked_or_plain (Some buffer) (zlen buffer) locked) in
                   ret (result, password, x)) Q s h.
Proof. intros HQ. apply wp_bind. eapply wp_lift; [apply wipe_locked_or_plain_spec|]. by apply wp_ret. Qed.

(** What has to hold before a hash is given to libsodium, and before the password
    is. *)
Definition allowed (p : authd_password_policy) (text : list Z) (length capacity : Z) : Prop :=
  lengths_ok length capacity ∧ authd_password_policy_is_valid (Some p) = true ∧ 0 <= sodium_init ∧
  admitted_hash p text.

Definition comparable (p : authd_password_policy) (text : list Z) (length capacity : Z) : Prop :=
  allowed p text length capacity ∧ 0 <= crypto_pwhash_str_needs_rehash text (opslimit p) (memlimit_bytes p).

(** What libsodium is asked about a hash: nothing unless the hash is allowed, and
    for the password only after it has understood the hash. *)
Inductive asked (p : authd_password_policy) (text password : list Z) (length capacity : Z)
    : list sodium_call → Prop :=
| asked_nothing :
    ¬ allowed p text length capacity → asked p text password length capacity []
| asked_rehash :
    allowed p text length capacity → ¬ comparable p text length capacity →
    asked p text password length capacity
      [PwhashStrNeedsRehash text (opslimit p) (memlimit_bytes p)
         (crypto_pwhash_str_needs_rehash text (opslimit p) (memlimit_bytes p))]
| asked_verify :
    comparable p text length capacity →
    asked p text password length capacity
      [PwhashStrVerify text password (crypto_pwhash_str_verify text password);
       PwhashStrNeedsRehash text (opslimit p) (memlimit_bytes p)
         (crypto_pwhash_str_needs_rehash text (opslimit p) (memlimit_bytes p))].

(** The answer of a verification. *)
Definition verification_says (p : authd_password_policy) (text password : list Z) (length capacity : Z)
    (result : authd_password_result) (rehash : bool) : Prop :=
  (result = AUTHD_PASSWORD_OK ↔
     comparable p text length capacity ∧ crypto_pwhash_str_verify text password = 0) ∧
  (result = AUTHD_PASSWORD_MISMATCH ↔
     comparable p text length capacity ∧ crypto_pwhash_str_verify text password ≠ 0) ∧
  rehash = bool_decide (result = AUTHD_PASSWORD_OK)
    && negb (crypto_pwhash_str_needs_rehash text (opslimit p) (memlimit_bytes p) =? 0).

Lemma not_comparable_says p text password length capacity result :
  ¬ comparable p text length capacity → result ≠ AUTHD_PASSWORD_OK → result ≠ AUTHD_PASSWORD_MISMATCH →
  verification_says p text password length capacity result false.
Proof. intros Hno Hok Hmis. split; [tauto|]. split; [tauto|]. by rewrite bool_decide_eq_false_2. Qed.

Lemma verify_spec p text tail buffer length rehash s h :
  Forall (λ b, b ≠ 0) text →
  wp (λ _, False) (authd_password_verify (Some p) (Some (terminated text tail)) (Some buffer) length
                     (zlen buffer) (Some rehash))
    (λ '(result, password, rehash') s' h', password = Some (zeros (zlen buffer)) ∧
       (∃ r, rehash' = Some r ∧
          verification_says p text (take (Z.to_nat length) buffer) length (zlen buffer) result r) ∧
       ∃ calls, h' = calls ++ h ∧
         asked p text (take (Z.to_nat length) buffer) length (zlen buffer) calls) s h.
Proof.
  intros Htext. unfold authd_password_verify.
  assert (∀ result calls, ¬ comparable p text length (zlen buffer) →
    asked p text (take (Z.to_nat length) buffer) length (zlen buffer) calls →
    result ≠ AUTHD_PASSWORD_OK → result ≠ AUTHD_PASSWORD_MISMATCH →
    wp (λ _, False) (let* password := lift (wipe_locked_or_plain (Some buffer) (zlen buffer) false) in
                     ret (result, password, Some false))
      (λ '(result, password, rehash') s' h', password = Some (zeros (zlen buffer)) ∧
         (∃ r, rehash' = Some r ∧
            verification_says p text (take (Z.to_nat length) buffer) length (zlen buffer) result r) ∧
         ∃ calls, h' = calls ++ h ∧
           asked p text (take (Z.to_nat length) buffer) length (zlen buffer) calls) s (calls ++ h)) as Hfail.
  { intros result calls Hno Hasked Hok Hmis. apply wp_finish. split; [done|]. split; [|by exists calls].
    exists false. split; [done|]. by apply not_comparable_says. }
  destruct (negb (password_arguments_are_valid _ _ _) || _) eqn:Eargs.
  { assert (¬ allowed p text length (zlen buffer)) as Hno.
    { intros (Hl & Hp & _). apply (arguments_valid buffer) in Hl. by rewrite Hl, Hp in Eargs. }
    apply (Hfail _ []); try done; [by intros [? _]|by constructor]. }
  bools. match goal with E : password_arguments_are_valid _ _ _ = true |- _ =>
    apply arguments_valid in E; rename E into Hlen end.
  match goal with E : authd_password_policy_is_valid _ = true |- _ => rename E into Hp end.
  destruct (Z.ltb_spec sodium_init 0) as [Hinit|Hinit].
  { assert (¬ allowed p text length (zlen buffer)) as Hno by (intros (_ & _ & Hi & _); lia).
    apply (Hfail _ []); try done; [by intros [? _]|by constructor]. }
  destruct (hash_is_allowed_spec p text tail (HashInfo 0 0 0 0) Htext Hp) as (r & info & Hrun & Hok & Hcases).
  wp_step. eapply wp_lift; [exact Hrun|]. cbv beta iota.
  destruct (bool_decide (r = AUTHD_PASSWORD_OK)) eqn:Er; bools; cbn [negb].
  2:{ assert (¬ allowed p text length (zlen buffer)) as Hno by (intros (_ & _ & _ & Ha); by apply Hok in Ha).
      apply (Hfail _ []); [by intros [? _]|by constructor|done|]. destruct Hcases as [|[|]]; congruence. }
  apply Hok in Er. assert (cstr (terminated text tail) = text) as -> by by apply cstr_app_zero.
  assert (allowed p text length (zlen buffer)) as Hallowed by done.
  wp_step. apply wp_service. intros rehash_result ->.
  set (needs := crypto_pwhash_str_needs_rehash _ _ _). set (call := PwhashStrNeedsRehash _ _ _ _).
  destruct (Z.ltb_spec needs 0) as [Hre|Hre].
  { assert (¬ comparable p text length (zlen buffer)) as Hno by (intros [_ Hn]; unfold needs in Hre; lia).
    apply (Hfail _ [call]); try done. by apply asked_rehash. }
  assert (comparable p text length (zlen buffer)) as Hcomp by done.
  wp_step. eapply wp_lift; [apply lock_password_runs|]. wp_step. eapply wp_lift; [done|].
  wp_step. eapply wp_lift; [apply password_text; destruct Hlen; lia|].
  wp_step. apply wp_service. intros verified ->. set (answer := crypto_pwhash_str_verify _ _).
  assert (asked p text (take (Z.to_nat length) buffer) length (zlen buffer)
    [PwhashStrVerify text (take (Z.to_nat length) buffer) answer; call]) as Hasked by by apply asked_verify.
  destruct (Z.eqb_spec answer 0) as [Hv|Hv]; cbn [negb]; apply wp_finish; (split; [done|]);
    (split; [|by eexists [_; _]]); eexists; (split; [reflexivity|]); unfold verification_says;
    split_and!; try done; intuition congruence.
Qed.
End password.

Section generate.
Context `{SodiumLaws}.

Lemma generated_admitted p text tail :
  authd_password_policy_is_valid (Some p) = true →
  array_ok crypto_pwhash_STRBYTES (terminated text tail) →
  hash_text text 19 (memlimit_bytes p / 1024) (opslimit p) 1 → admitted_hash p text.
Proof.
  intros Hp [_ Hlen] Htext. unfold authd_password_policy_is_valid in Hp. bools.
  destruct law_opslimit, law_memlimit. rewrite terminated_length in Hlen. pose proof (zlen_nonneg tail).
  exists (HashInfo 19 (memlimit_bytes p / 1024) (opslimit p) 1). cbn.
  pose proof (Z.mul_div_le (memlimit_bytes p) 1024 ltac:(done)).
  split; [split; cbn; try done; try lia|split_and!; done || lia].
  - split; [apply Z.div_str_pos; lia|apply Z.div_le_mono; lia].
Qed.

(** What a generation leaves in the array for the hash. *)
Definition generated (p : authd_password_policy) (buffer : list Z) (length : Z)
    (result : authd_password_result) (target : list Z) : Prop :=
  (result ≠ AUTHD_PASSWORD_OK → cstr target = []) ∧
  (result = AUTHD_PASSWORD_OK →
     lengths_ok length (zlen buffer) ∧ authd_password_policy_is_valid (Some p) = true ∧
     0 <= sodium_init ∧
     ∃ text tail, target = terminated text tail ∧ Forall (λ b, b ≠ 0) text ∧ admitted_hash p text ∧
       crypto_pwhash_str_verify text (take (Z.to_nat length) buffer) = 0 ∧
       crypto_pwhash_str_needs_rehash text (opslimit p) (memlimit_bytes p) = 0).

Lemma password_generate_spec p buffer length target s h :
  0 < zlen target →
  wp (λ _, False) (authd_password_generate (Some p) (Some buffer) length (zlen buffer) (Some target) (zlen target))
    (λ '(result, password, hash) _ _, password = Some (zeros (zlen buffer)) ∧
       ∃ target', hash = Some target' ∧ zlen target' = zlen target ∧ generated p buffer length result target')
    s h.
Proof.
  intros Ht. unfold authd_password_generate.
  assert (∀ t, zlen t = zlen target → ∃ t0, buf_set t 0 0 = Some t0 ∧ zlen t0 = zlen target ∧ cstr t0 = [])
    as Hclear.
  { intros t Hlen. rewrite buf_set_in by lia. eexists. split; [done|]. split.
    - unfold zlen in *. by rewrite length_insert.
    - destruct t; [done|]. done. }
  destruct (Hclear target eq_refl) as (t0 & Hset & Ht0 & Hcstr).
  wp_step. eapply wp_lift.
  { unfold clear_hash. rewrite (proj2 (Z.ltb_lt _ _)) by done. rewrite Hset. run_simpl. reflexivity. }
  destruct (negb (password_arguments_are_valid _ _ _) || _ || _ || _) eqn:Eargs.
  { apply wp_finish. split; [done|]. by exists t0. }
  bools. match goal with E : password_arguments_are_valid _ _ _ = true |- _ =>
    apply arguments_valid in E; rename E into Hlen end.
  match goal with E : authd_password_policy_is_valid _ = true |- _ => rename E into Hp end.
  destruct (Z.ltb_spec sodium_init 0) as [Hinit|Hinit].
  { apply wp_finish. split; [done|]. by exists t0. }
  wp_step. eapply wp_lift; [apply lock_password_runs|]. wp_step. eapply wp_lift; [done|].
  wp_step. eapply wp_lift; [apply password_text; destruct Hlen; lia|].
  set (secret := take (Z.to_nat length) buffer).
  wp_step. apply wp_service. intros answer ->.
  pose proof (law_str_length secret (opslimit p) (memlimit_bytes p)) as Harr.
  assert (crypto_pwhash_OPSLIMIT_MIN <= opslimit p <= crypto_pwhash_OPSLIMIT_MAX ∧
    crypto_pwhash_MEMLIMIT_MIN <= memlimit_bytes p <= crypto_pwhash_MEMLIMIT_MAX) as [Hops Hmem]
    by (unfold authd_password_policy_is_valid in Hp; bools; lia).
  pose proof (law_str secret (opslimit p) (memlimit_bytes p) Hops Hmem) as Hstr.
  destruct (crypto_pwhash_str_alg secret (opslimit p) (memlimit_bytes p)) as [status hash]. cbn [fst snd] in *.
  assert (zlen hash <= zlen t0) as Hfit by (rewrite (array_length _ _ Harr); lia).
  destruct (buf_write t0 0 hash) as [t1|] eqn:Hw.
  2:{ rewrite buf_write_in in Hw by (done || (pose proof (zlen_nonneg hash); lia)). done. }
  pose proof (buf_write_length _ _ _ _ Hw) as Ht1.
  wp_step. eapply wp_lift; [done|]. wp_step. eapply wp_lift; [exact Hw|].
  destruct (Z.eqb_spec status 0) as [->|]; cbn [negb].
  - apply wp_finish. split; [done|]. exists t1. split; [done|]. split; [lia|].
    split; [done|]. intros _. split; [done|]. split; [done|]. split; [done|].
    destruct (Hstr eq_refl) as (text & tail & -> & Hnz & Hhash & Hv & Hre).
    exists text, (tail ++ drop (Datatypes.length (terminated text tail)) t0).
    split_and!; try done; [|by eapply generated_admitted].
    rewrite buf_write_in in Hw by (done || (pose proof (zlen_nonneg (terminated text tail)); lia)).
    change (Z.to_nat 0) with 0%nat in Hw. rewrite take_0, app_nil_l, Nat.add_0_l in Hw.
    apply (inj Some) in Hw as <-. unfold terminated. by rewrite <- app_assoc.
  - destruct (Hclear t1 ltac:(lia)) as (t2 & Hset2 & Ht2 & Hcstr2).
    wp_step. eapply wp_lift; [exact Hset2|]. apply wp_finish. split; [done|]. by exists t2.
Qed.

(** What a program that ends returns. *)
Lemma answer_of_spec {A} (m : hashing_program A) Q :
  wp (λ _, False) m Q tt [] → ∃ a h, answer_of m = Some a ∧ Q a tt h.
Proof.
  intros Hwp. destruct (wp_ends _ _ _ _ Hwp) as (a & [] & h & Hrun & HQ).
  exists a, h. unfold answer_of. by rewrite Hrun.
Qed.
End generate.

(** ** Properties *)

(** [authd_password_inspect_hash] never leaves the string, accepts exactly the
    encoded Argon2id hashes of fewer than [crypto_pwhash_STRBYTES] bytes with
    numbers in range, and then stores their numbers; a number that does not fit
    64 bits is not taken for another one. *)
Theorem inspect_hash_correct `{SodiumLaws} text tail info :
  Forall (λ b, b ≠ 0) text →
  ∃ b info', authd_password_inspect_hash (Some (terminated text tail)) (Some info)
      = Some (b, Some info') ∧
    (if b then describes text info' else info' = info ∧ ∀ i, ¬ describes text i).
Proof. apply inspect_hash_spec. Qed.

(** C16: [authd_password_verify] is never stuck and always overwrites the whole
    password with zeros. It accepts exactly if the lengths, the policy and the
    hash are within their limits and libsodium verifies the password. What it asks
    libsodium is determined: nothing at all about a hash whose cost exceeds the
    policy or that is not of the known form, and it gives the password to libsodium,
    all [length] bytes of it, exactly if the hash may be compared. *)
Theorem password_verify_correct `{SodiumLaws} p text tail buffer length rehash h :
  Forall (λ b, b ≠ 0) text →
  wp (λ _, False) (authd_password_verify (Some p) (Some (terminated text tail)) (Some buffer) length
                     (zlen buffer) (Some rehash))
    (λ '(result, password, rehash') _ h', password = Some (zeros (zlen buffer)) ∧
       (∃ r, rehash' = Some r ∧
          verification_says p text (take (Z.to_nat length) buffer) length (zlen buffer) result r) ∧
       ∃ calls, h' = calls ++ h ∧
         asked p text (take (Z.to_nat length) buffer) length (zlen buffer) calls) tt h.
Proof. apply verify_spec. Qed.

(** C35: A hash from [authd_password_generate] is accepted by
    [authd_password_verify] with the same password and policy and needs no new
    hash; a failed generation leaves an empty string. Both wipe the password. *)
Theorem password_roundtrip `{SodiumLaws} p buffer length target h :
  0 < zlen target →
  wp (λ _, False) (authd_password_generate (Some p) (Some buffer) length (zlen buffer) (Some target) (zlen target))
    (λ '(result, password, hash) _ _, password = Some (zeros (zlen buffer)) ∧
       ∃ target', hash = Some target' ∧ zlen target' = zlen target ∧
       if bool_decide (result = AUTHD_PASSWORD_OK) then
         ∀ rehash h', wp (λ _, False)
           (authd_password_verify (Some p) (Some target') (Some buffer) length (zlen buffer) (Some rehash))
           (λ answer _ _, answer = (AUTHD_PASSWORD_OK, Some (zeros (zlen buffer)), Some false)) tt h'
       else cstr target' = []) tt h.
Proof.
  intros Ht. eapply wp_mono; [by apply password_generate_spec|].
  intros [[result password] hash] [] h1 (-> & target' & -> & Hlen & Hfail & Hok).
  split; [done|]. exists target'. split; [done|]. split; [done|].
  destruct (bool_decide _) eqn:Er; bools; [|by apply Hfail]. intros rehash h'.
  destruct (Hok Er) as (Hl & Hp & Hinit & text & tail & -> & Hnz & Hadm & Hv & Hre).
  eapply wp_mono; [by apply verify_spec|].
  intros [[r password] rehash'] [] h2 (-> & (again & -> & Hrok & _ & ->) & _).
  assert (r = AUTHD_PASSWORD_OK) as ->.
  { apply Hrok. split; [|done]. split; [done|lia]. }
  by rewrite Hre.
Qed.

(** ** A sample library

    One set of limits, and a check sum for a hash. *)

Definition sample_letter (password : list Z) : Z := chr "A" + foldr Z.add 0 password mod 26.

Definition sample_hash_text (password : list Z) : list Z :=
  lit "$argon2id$v=19$m=262144,t=3,p=1$c2FsdA$" ++ [sample_letter password].

#[local] Instance sample_sodium : Sodium := {|
  crypto_pwhash_OPSLIMIT_MIN := 3;
  crypto_pwhash_OPSLIMIT_MAX := 3;
  crypto_pwhash_MEMLIMIT_MIN := 268435456;
  crypto_pwhash_MEMLIMIT_MAX := 268435456;
  crypto_pwhash_STRBYTES := 128;
  sodium_init := 0;
  sodium_mlock _ := 0;
  sodium_munlock l := zeros (zlen l);
  sodium_memzero l := zeros (zlen l);
  crypto_pwhash_str_alg password _ _ :=
    (0, sample_hash_text password ++ zeros (128 - zlen (sample_hash_text password)));
  crypto_pwhash_str_needs_rehash _ _ _ := 0;
  crypto_pwhash_str_verify text password :=
    if bool_decide (text = sample_hash_text password) then 0 else -1;
|}.

Lemma sample_letter_range password : chr "A" <= sample_letter password <= chr "Z".
Proof.
  unfold sample_letter. pose proof (Z.mod_pos_bound (foldr Z.add 0 password) 26 ltac:(done)).
  change (chr "Z") with 90. change (chr "A") with 65. lia.
Qed.

Lemma sample_hash_text_ok password :
  Forall (λ b, b ≠ 0) (sample_hash_text password) ∧ hash_text (sample_hash_text password) 19 262144 3 1.
Proof.
  pose proof (sample_letter_range password) as Hl. unfold sample_hash_text.
  set (c := sample_letter password) in *. change (chr "Z") with 90 in Hl. change (chr "A") with 65 in Hl. split.
  - apply Forall_app. split; [by repeat constructor|]. repeat constructor. lia.
  - exists (lit "19$m=262144,t=3,p=1$c2FsdA$" ++ [c]), (lit "262144,t=3,p=1$c2FsdA$" ++ [c]),
      (lit "3,p=1$c2FsdA$" ++ [c]), (lit "1$c2FsdA$" ++ [c]), (lit "c2FsdA$" ++ [c]).
    split; [reflexivity|]. split_and!.
    + exists (lit "19"). split_and!; try done. repeat constructor; vm_compute; congruence.
    + exists (lit "262144"). split_and!; try done. repeat constructor; vm_compute; congruence.
    + exists (lit "3"). split_and!; try done. repeat constructor; vm_compute; congruence.
    + exists (lit "1"). split_and!; try done. repeat constructor; vm_compute; congruence.
    + exists (lit "c2FsdA"), [c]. split_and!; try done. apply Forall_app. split.
      * repeat constructor; vm_compute; congruence.
      * repeat constructor; [|change (chr "$") with 36; lia].
        unfold hash_character. rewrite (proj2 (between_spec _ _ _)) by (change (chr "A") with 65; change (chr "Z") with 90; lia).
        done.
Qed.

Lemma sample_hash_length password : zlen (sample_hash_text password) = 40.
Proof. unfold sample_hash_text. by rewrite zlen_app. Qed.

#[local] Instance sample_sodium_laws : SodiumLaws.
Proof.
  split; try done.
  - intros password ops mem.
    change (array_ok 128 (sample_hash_text password ++ zeros (128 - zlen (sample_hash_text password)))).
    pose proof (sample_letter_range password) as Hl. pose proof (sample_hash_length password) as Hlen. split.
    + apply bytes_ok_app. split; [|apply zeros_ok; lia].
      unfold sample_hash_text. apply bytes_ok_app. split; [apply lit_bytes_ok|].
      constructor; [|done]. unfold byte_ok, fits.
      change (chr "A") with 65 in *; change (chr "Z") with 90 in *; lia.
    + rewrite zlen_app, zlen_zeros; lia.
  - intros password ops mem Hops Hmem _. destruct (sample_hash_text_ok password) as [Hnz Ht].
    exists (sample_hash_text password), (zeros (127 - zlen (sample_hash_text password))).
    change (3 <= ops <= 3) in Hops. change (268435456 <= mem <= 268435456) in Hmem.
    assert (mem = 268435456 ∧ ops = 3) as [-> ->] by lia. split; [by rewrite sample_hash_length|].
    split; [exact Hnz|]. split; [exact Ht|]. split; [|done].
    change ((if bool_decide (sample_hash_text password = sample_hash_text password) then 0 else -1) = 0).
    by rewrite bool_decide_eq_true_2.
Qed.

Definition sample_policy : authd_password_policy := PasswordPolicy 3 268435456 3 268435456 1.

Definition sample_secret : list Z := lit "correct horse".

Lemma inspect_hash_correct_witness :
  Forall (λ b, b ≠ 0) (sample_hash_text sample_secret) ∧
  ∃ info, authd_password_inspect_hash (Some (terminated (sample_hash_text sample_secret) []))
      (Some (HashInfo 0 0 0 0)) = Some (true, Some info) ∧ info = HashInfo 19 262144 3 1 ∧
    describes (sample_hash_text sample_secret) info.
Proof.
  split; [apply sample_hash_text_ok|].
  destruct (inspect_hash_correct (sample_hash_text sample_secret) [] (HashInfo 0 0 0 0)
    (proj1 (sample_hash_text_ok sample_secret))) as (b & info & E & Hb).
  assert (authd_password_inspect_hash (Some (terminated (sample_hash_text sample_secret) []))
    (Some (HashInfo 0 0 0 0)) = Some (true, Some (HashInfo 19 262144 3 1))) as Hrun by (vm_compute; reflexivity).
  rewrite E in Hrun. injection Hrun as -> ->. eexists. split; [exact E|]. split; [reflexivity|exact Hb].
Defined.

Lemma password_verify_correct_witness :
  Forall (λ b, b ≠ 0) (sample_hash_text sample_secret) ∧
  ∃ calls, authd_password_verify (Some sample_policy) (Some (terminated (sample_hash_text sample_secret) []))
      (Some (lit "wrong horse")) 11 11 (Some true) tt []
    = Some (Done (AUTHD_PASSWORD_MISMATCH, Some (zeros 11), Some false) tt calls) ∧
  calls = [PwhashStrVerify (sample_hash_text sample_secret) (lit "wrong horse") (-1);
           PwhashStrNeedsRehash (sample_hash_text sample_secret) 3 268435456 0] ∧
  comparable sample_policy (sample_hash_text sample_secret) 11 11.
Proof.
  split; [apply sample_hash_text_ok|].
  pose proof (password_verify_correct sample_policy (sample_hash_text sample_secret) [] (lit "wrong horse") 11
    true [] (proj1 (sample_hash_text_ok sample_secret))) as Hwp.
  change (zlen (lit "wrong horse")) with 11 in *. apply wp_outcome in Hwp.
  assert (authd_password_verify (Some sample_policy) (Some (terminated (sample_hash_text sample_secret) []))
      (Some (lit "wrong horse")) 11 11 (Some true) tt []
    = Some (Done (AUTHD_PASSWORD_MISMATCH, Some (zeros 11), Some false) tt
        [PwhashStrVerify (sample_hash_text sample_secret) (lit "wrong horse") (-1);
         PwhashStrNeedsRehash (sample_hash_text sample_secret) 3 268435456 0])) as Hrun by (vm_compute; reflexivity).
  rewrite Hrun in Hwp. destruct Hwp as (_ & (r & _ & Hsays) & _). eexists. split; [exact Hrun|].
  split; [reflexivity|]. by apply Hsays.
Defined.

Lemma password_roundtrip_witness :
  0 < zlen (zeros 128) ∧
  ∃ hash calls, authd_password_generate (Some sample_policy) (Some sample_secret) 13 13 (Some (zeros 128)) 128 tt []
      = Some (Done (AUTHD_PASSWORD_OK, Some (zeros 13), Some hash) tt calls) ∧
    wp (λ _, False)
      (authd_password_verify (Some sample_policy) (Some hash) (Some sample_secret) 13 13 (Some true))
      (λ answer _ _, answer = (AUTHD_PASSWORD_OK, Some (zeros 13), Some false)) tt calls.
Proof.
  split; [reflexivity|].
  pose proof (password_roundtrip sample_policy sample_secret 13 (zeros 128) [] eq_refl) as Hwp.
  change (zlen sample_secret) with 13 in *. change (zlen (zeros 128)) with 128 in *. apply wp_outcome in Hwp.
  assert (match authd_password_generate (Some sample_policy) (Some sample_secret) 13 13 (Some (zeros 128)) 128 tt [] with
    | Some (Done (AUTHD_PASSWORD_OK, _, _) _ _) => true | _ => false end = true) as Hrun by (vm_compute; reflexivity).
  destruct (authd_password_generate (Some sample_policy) (Some sample_secret) 13 13 (Some (zeros 128)) 128 tt [])
    as [[[[r password] hash] [] calls|]|]; [|discriminate..].
  destruct Hwp as (-> & target & -> & _ & Hok). destruct r; try discriminate. exists target, calls.
  split; [reflexivity|]. apply (Hok true calls).
Defined.
