(* ===== verification/EventLoop.v ===== *)
(** * The event loop

    [fortytwo-auth/src/authd_server.c]: the connections of the daemon, the
    completions of the password workers, deadlines, and [authd_server_run] from
    the checks of its configuration to the release of every connection. The
    daemon stops when a signal arrives or a service fails, so the main loop and
    the loops around [accept4], [read] and the completions take fuel. *)

From S2P Require Import Prelude Protocol Words Utf8 Codec Inet Schema Identity Throttle Limiter Program Services Client Requests Connection Login Registration Frames Password.

(** ** State *)

(** [authd_client_t *clients], of which [[]] is the null pointer, and the context. *)
Record server := Server {
  sv_clients : list authd_client;
  sv_context : authd_server_context;
}.

Abbreviation daemon := (prog event server) (only parsing).

Definition set_clients cs (sv : server) : server := Server cs (sv_context sv).
Definition set_context x (sv : server) : server := Server (sv_clients sv) x.

Definition clients : daemon (list authd_client) := gets sv_clients.

(** A handler of the connection [clients[slot]]. *)
Definition at_slot {A} (slot : Z) (m : handler A) : daemon A :=
  focus (λ sv, let! c := arr_get (sv_clients sv) slot in Some (c, sv_context sv))
        (λ s sv, Server (<[Z.to_nat slot := fst s]> (sv_clients sv)) (snd s)) m.

(** [for (index = 0; index < client_count; ++index)] with a handler of each
    connection. *)
Definition each_client (client_count : Z) (body : handler unit) : daemon unit :=
  each (Z.to_nat client_count) 0 (λ index, at_slot index body).

(** *** Constants of the C library *)

Definition POLLIN : Z := 1.
Definition POLLOUT : Z := 4.
Definition POLLERR : Z := 8.
Definition POLLHUP : Z := 16.
Definition POLLNVAL : Z := 32.
Definition SIGINT : Z := 2.
Definition SIGTERM : Z := 15.

(** [(events & mask) != 0] *)
Definition has (events mask : Z) : bool := negb (Z.land events mask =? 0).

(** ** Connections *)

(** A cleared connection without a socket. *)
Definition initial_client (connection_id : Z) : authd_client :=
  set_fd (-1)
    (Client (fd zero_client) connection_id 0 (state zero_client) (peer zero_client)
       (input zero_client) 0 0 (output zero_client) 0 0 false 0 (login zero_client)
       (registration zero_client) false (session zero_client) (session_context zero_client)
       (pending_end_reason zero_client)).

Definition client_array_initialize (clients : list authd_client) (count : Z)
    : run (list authd_client) :=
  let! c := for_range (Z.to_nat count) 0
    (λ index clients,
       let! clients := arr_set clients index (initial_client (u64 (u64 index + 1))) in
       Some (Continue (R := Empty_set) clients)) clients in
  Some (ctl_value c).

(** The slot of the first free connection. *)
Definition find_free_client (clients : list authd_client) (count : Z) : run (option Z) :=
  let! r := for_range (Z.to_nat count) 0
    (λ index s,
       let! c := arr_get clients index in
       Some (if fd c <? 0 then Return index else Continue s)) tt in
  match r with
  | Return index => Some (Some index)
  | _ => Some None
  end.

(** *** Deadlines *)

(** The loop body of [compute_poll_timeout]. *)
Definition nearest_deadline (clients : list authd_client) (index nearest : Z)
    : run (ctl Z Empty_set) :=
  let! c := arr_get clients index in
  let nearest :=
    if (0 <=? fd c) && bool_decide (state c = FTAP_STATE_CONNECTED)
       && (hello_deadline_ms c <? nearest)
    then hello_deadline_ms c else nearest in
  let nearest :=
    if (0 <=? fd c) && ra_active (registration c) && ra_database_pending (registration c)
       && (ra_deadline_ms (registration c) <? nearest)
    then ra_deadline_ms (registration c) else nearest in
  Some (Continue nearest).

Definition compute_poll_timeout (clients : list authd_client) (client_count now_ms : Z) : run Z :=
  let! c := for_range (Z.to_nat client_count) 0 (nearest_deadline clients) UINT64_MAX in
  let nearest := ctl_value c in
  Some
    (if nearest =? UINT64_MAX then AUTHD_POLL_MAXIMUM_MS
     else if nearest <=? now_ms then 0
     else if AUTHD_POLL_MAXIMUM_MS <? nearest - now_ms then AUTHD_POLL_MAXIMUM_MS
     else nearest - now_ms).

(** The fuel is for the loops that the environment can prolong; the descriptors
    are those of the signal pipe, of the listener and of the worker pool. *)
Section loop.
Context `{Environment} `{Inet} `{Sodium} (fuel : nat) (signal_fd listener completion_fd : Z).

(** The loop body of [expire_hello_deadlines]. *)
Definition expire_hello (now_ms : Z) : handler unit :=
  let* c := client in
  if (0 <=? fd c) && bool_decide (state c = FTAP_STATE_CONNECTED) && (hello_deadline_ms c <=? now_ms)
  then client_reset (Some (lit "hello_timeout"))
  else ret tt.

Definition expire_hello_deadlines (client_count now_ms : Z) : daemon unit :=
  each_client client_count (expire_hello now_ms).

(** The loop body of [expire_registration_deadlines]. *)
Definition expire_registration (now_ms : Z) : handler unit :=
  let* c := client in
  if (fd c <? 0) || negb (ra_active (registration c)) || negb (ra_database_pending (registration c))
     || (now_ms <? ra_deadline_ms (registration c))
  then ret tt
  else
    let* result := authd_database_abort_registration
      (rb_registration_id (ra_record (registration c))) (rb_user_id (ra_record (registration c)))
      FTAP_REGISTRATION_REASON_TIMEOUT in
    do* match result with
        | AUTHD_DATABASE_REGISTRATION_OK | AUTHD_DATABASE_REGISTRATION_NOT_FOUND
        | AUTHD_DATABASE_REGISTRATION_STALE_STATE => assign registration_attempt_clear
        | _ => ret tt
        end in
    do* enter FTAP_STATE_CLOSING in
    client_reset (Some (lit "registration_timeout")).

Definition expire_registration_deadlines (client_count now_ms : Z) : daemon unit :=
  each_client client_count (expire_registration now_ms).

(** *** Accepting connections *)

(** The members that a new connection starts with. *)
Definition accepted_client (config : authd_config) (now_ms new_fd : Z)
    (credentials : authd_peer_credentials) (c : authd_client) : authd_client :=
  let generation := u64 (connection_generation c + 1) in
  let c := set_connection_generation (if generation =? 0 then 1 else generation) c in
  set_hello_deadline_ms (u64 (now_ms + u64 (cfg_hello_timeout_ms config)))
    (set_peer credentials (set_state FTAP_STATE_CONNECTED (set_fd new_fd c))).

Definition refuse_peer (new_fd : Z) : daemon (option Z) := do* close new_fd in ret None.

(** One iteration of [accept_clients]. *)
Definition accept_step (config : authd_config) (client_count now_ms : Z) : daemon (option Z) :=
  let* accepted := accept4 in
  match accepted with
  | inr EINTR => ret None
  | inr EAGAIN => ret (Some 0)
  | inr EOTHER => ret (Some (-1))
  | inl new_fd =>
      let* credentials := authd_peer_credentials_read new_fd in
      match credentials with
      | None => refuse_peer new_fd
      | Some credentials =>
          let* allowed := lift (authd_peer_credentials_are_allowed (Some config) (Some credentials)) in
          if negb allowed then refuse_peer new_fd
          else
            let* cs := clients in
            let* slot := lift (find_free_client cs client_count) in
            match slot with
            | None => refuse_peer new_fd
            | Some slot =>
                let* buffer := malloc_frame in
                do* at_slot slot (assign (set_input buffer)) in
                match buffer with
                | None => do* close new_fd in ret (Some (-1))
                | Some _ =>
                    do* at_slot slot (assign (accepted_client config now_ms new_fd credentials)) in
                    ret None
                end
            end
      end
  end.

Definition accept_clients (config : authd_config) (client_count now_ms : Z) : daemon Z :=
  repeat_ fuel (accept_step config client_count now_ms).

(** *** Completions *)

(** A completion for the connection, if it still is the one that asked for it. *)
Definition complete_client (completion : authd_worker_completion) : handler unit :=
  let* c := client in
  let token := wc_token completion in
  let* result :=
    if (0 <=? fd c) && (connection_generation c =? tk_connection_generation token) then
      if bool_decide (wc_job_type completion = AUTHD_WORKER_JOB_VERIFY_PASSWORD)
         && la_active (login c) && (la_request_id (login c) =? tk_request_id token)
         && (la_worker_job_id (login c) =? wc_job_id completion)
      then complete_password_login completion
      else if bool_decide (wc_job_type completion = AUTHD_WORKER_JOB_GENERATE_PASSWORD_HASH)
         && ra_active (registration c) && negb (ra_database_pending (registration c))
         && (ra_request_id (registration c) =? tk_request_id token)
         && (ra_worker_job_id (registration c) =? wc_job_id completion)
      then complete_registration_hash fuel completion
      else ret 0
    else ret 0 in
  if negb (result =? 0) then client_reset (Some (lit "auth_response_failed")) else ret tt.

(** One iteration of [process_worker_completions]. *)
Definition completion_step (client_count : Z) : daemon (option unit) :=
  let* completion := authd_worker_pool_take_completion in
  match completion with
  | None => ret (Some tt)
  | Some completion =>
      let id := tk_connection_id (wc_token completion) in
      if (id =? 0) || (client_count <? id) then ret None
      else
        do* at_slot (id - 1) (complete_client completion) in
        ret None
  end.

Definition process_worker_completions (client_count : Z) : daemon unit :=
  repeat_ fuel (completion_step client_count).

(** *** Signals *)

(** One iteration of [drain_signal_pipe]; the local is [stop]. *)
Definition drain_step (stop : bool) : daemon (bool + bool) :=
  let* count := signal_read in
  match count with
  | inl bytes =>
      if 0 <? zlen bytes
      then ret (inl (stop || existsb (λ b, (b =? SIGINT) || (b =? SIGTERM)) bytes))
      else ret (inr stop)
  | inr EINTR => ret (inl stop)
  | inr _ => ret (inr stop)
  end.

Definition drain_signal_pipe : daemon bool := iterate fuel drain_step false.

(** *** Input and output of a connection *)

Definition end_client : handler unit :=
  let* c := client in
  let* reason := lift (client_io_end_reason c) in
  client_reset (Some reason).

(** What the main loop does for one polled connection. *)
Definition serve_client (polled_fd revents : Z) : handler unit :=
  let* c := client in
  if (fd c <? 0) || negb (fd c =? polled_fd) then ret tt
  else
    let* written := if has revents POLLOUT then write_client fuel else ret 0 in
    if negb (written =? 0) then end_client
    else
      let* c := client in
      let* received := if (0 <=? fd c) && has revents POLLIN then read_client fuel else ret 0 in
      if negb (received =? 0) then end_client
      else
        let* c := client in
        if (0 <=? fd c) && has revents (Z.lor POLLERR (Z.lor POLLHUP POLLNVAL))
        then end_client else ret tt.

(** *** The polled descriptors *)

Definition poll_events (c : authd_client) : Z :=
  if output_offset c <? output_length c then POLLOUT
  else if negb (close_after_write c) then POLLIN else 0.

(** The slot, the descriptor and the events of each open connection. *)
Fixpoint poll_clients (clients : list authd_client) (index : Z) : list (Z * (Z * Z)) :=
  match clients with
  | [] => []
  | c :: clients =>
      if fd c <? 0 then poll_clients clients (index + 1)
      else (index, (fd c, poll_events c)) :: poll_clients clients (index + 1)
  end.

(** ** The main loop *)

(** The result -1 and the reason the connections are given. *)
Abbreviation failed reason := (-1, lit reason) (only parsing).

(** The health of the database, at most once in an interval; the answer is the
    time of the next check, or a failure. *)
Definition check_database (config : authd_config) (now_ms next_database_health_ms : Z)
    : daemon (Z + Z * list Z) :=
  if next_database_health_ms <=? now_ms then
    let* healthy := authd_database_health_check in
    if negb (healthy =? 0) then ret (inr (failed "database_failure"))
    else
      let* expired := authd_database_expire_registrations AUTHD_REGISTRATION_EXPIRY_BATCH in
      if negb (bool_decide (expired = AUTHD_DATABASE_REGISTRATION_OK))
      then ret (inr (failed "database_failure"))
      else if UINT64_MAX - now_ms <? cfg_db_health_interval_ms config
      then ret (inr (failed "authd_failure"))
      else ret (inl (now_ms + cfg_db_health_interval_ms config))
  else ret (inl next_database_health_ms).

(** The events of one round after [poll]. *)
Definition serve_round (config : authd_config) (entries : list (Z * (Z * Z))) (revents : list Z)
    : daemon (option (Z * list Z)) :=
  let max_clients := cfg_max_clients config in
  let* signalled := lift (arr_get revents 0) in
  let* listening := lift (arr_get revents 1) in
  let* completed := lift (arr_get revents 2) in
  let* stopping := if has signalled POLLIN then drain_signal_pipe else ret false in
  if stopping then ret (Some (0, lit "authd_shutdown"))
  else
    let* accepted :=
      if has listening POLLIN then
        let* now_ms := monotonic_milliseconds in
        match now_ms with
        | None => ret (-1)
        | Some now_ms => accept_clients config max_clients now_ms
        end
      else ret 0 in
    if negb (accepted =? 0) then ret (Some (failed "authd_failure"))
    else if has listening (Z.lor POLLERR POLLNVAL) then ret (Some (failed "authd_failure"))
    else if has completed (Z.lor POLLERR (Z.lor POLLHUP POLLNVAL))
    then ret (Some (failed "authd_failure"))
    else
      do* each (length entries) 3 (λ index,
        let* (slot, (polled_fd, _)) := lift (arr_get entries (index - 3)) in
        let* events := lift (arr_get revents index) in
        if (max_clients <=? slot) || (events =? 0) then ret tt
        else at_slot slot (serve_client polled_fd events)) in
      do* (if has completed POLLIN then process_worker_completions max_clients else ret tt) in
      ret None.

(** One iteration of the main loop; the local is [next_database_health_ms]. *)
Definition loop_step (config : authd_config) (next_database_health_ms : Z)
    : daemon (Z + Z * list Z) :=
  let max_clients := cfg_max_clients config in
  let* now_ms := monotonic_milliseconds in
  match now_ms with
  | None => ret (inr (failed "authd_failure"))
  | Some now_ms =>
      let* checked := check_database config now_ms next_database_health_ms in
      match checked with
      | inr failure => ret (inr failure)
      | inl next_database_health_ms =>
          do* expire_hello_deadlines max_clients now_ms in
          do* expire_registration_deadlines max_clients now_ms in
          let* cs := clients in
          let entries := poll_clients cs 0 in
          let* timeout := lift (compute_poll_timeout cs max_clients now_ms) in
          let timeout :=
            if next_database_health_ms <=? now_ms then 0
            else if next_database_health_ms - now_ms <? timeout
            then next_database_health_ms - now_ms else timeout in
          let* polled := poll ((signal_fd, POLLIN) :: (listener, POLLIN) :: (completion_fd, POLLIN)
                                 :: map snd entries) timeout in
          match polled with
          | inr EINTR => ret (inl next_database_health_ms)
          | inr _ => ret (inr (failed "authd_failure"))
          | inl revents =>
              let* ended := serve_round config entries revents in
              ret (match ended with
                   | Some ended => inr ended
                   | None => inl next_database_health_ms
                   end)
          end
      end
  end.

(** The result of [authd_server_run] and the reason for the connections that are
    still open. *)
Definition main_loop (config : authd_config) : daemon (Z * list Z) :=
  let* now_ms := monotonic_milliseconds in
  match now_ms with
  | None => ret (failed "authd_failure")
  | Some now_ms =>
      if UINT64_MAX - now_ms <? cfg_db_health_interval_ms config then ret (failed "authd_failure")
      else iterate fuel (loop_step config) (now_ms + cfg_db_health_interval_ms config)
  end.

(** ** Start and end *)

Definition config_is_valid (c : authd_config) : bool :=
  let inside lo hi x := (lo <=? x) && (x <=? hi) in
  inside AUTHD_MIN_CLIENTS AUTHD_MAX_CLIENTS (cfg_max_clients c)
  && inside AUTHD_WORKER_MIN_THREADS AUTHD_WORKER_MAX_THREADS (cfg_password_workers c)
  && inside AUTHD_WORKER_MIN_CAPACITY AUTHD_WORKER_MAX_CAPACITY (cfg_password_queue_capacity c)
  && inside AUTHD_DB_MIN_HEALTH_INTERVAL_MS AUTHD_DB_MAX_HEALTH_INTERVAL_MS
       (cfg_db_health_interval_ms c)
  && inside AUTHD_REGISTRATION_MIN_PASSWORD_BYTES AUTHD_REGISTRATION_MAX_PASSWORD_BYTES
       (cfg_registration_min_password_bytes c)
  && inside AUTHD_REGISTRATION_MIN_TIMEOUT_SECONDS AUTHD_REGISTRATION_MAX_TIMEOUT_SECONDS
       (cfg_registration_timeout_seconds c)
  && inside AUTHD_REGISTRATION_MIN_PENDING AUTHD_REGISTRATION_MAX_PENDING
       (cfg_registration_max_pending c).

(** [context.dummy_password_hash] is made from 32 random bytes. *)
Definition prepare_dummy_password_hash : daemon bool :=
  let* random_password := random_bytes fuel (zeros 32) in
  match random_password with
  | None => ret false
  | Some _ =>
      let* (result, encoded_hash) := Services.authd_password_generate in
      do* modify (λ sv, set_context
        (ServerContext (ctx_config (sv_context sv)) (ctx_throttle_policy (sv_context sv))
           (ctx_registration_limiter (sv_context sv)) encoded_hash) sv) in
      ret (bool_decide (result = AUTHD_PASSWORD_OK))
  end.

(** The cleared context with the policy of the configuration. *)
Definition new_context (config : authd_config) : authd_server_context :=
  ServerContext config
    (ThrottlePolicy (cfg_password_failure_threshold config)
       (cfg_password_failure_window_seconds config) (cfg_password_throttle_seconds config))
    zero_limiter (zeros (AUTHD_DATABASE_PASSWORD_HASH_MAX + 1)).

(** The context with its limiter, unless a policy is not valid. *)
Definition check_policies (config : authd_config) : daemon bool :=
  let* sv := get in
  let x := sv_context sv in
  if negb (authd_throttle_policy_is_valid (Some (ctx_throttle_policy x))) then ret false
  else
    let (initialized, limiter) :=
      authd_registration_limiter_init (Some (ctx_registration_limiter x))
        (Some (LimitPolicy (cfg_registration_ip_attempts config)
                 (cfg_registration_ip_window_seconds config))) in
    if negb initialized then ret false
    else
      let* limiter := lift (deref limiter) in
      do* modify (set_context
        (ServerContext (ctx_config x) (ctx_throttle_policy x) limiter (ctx_dummy_password_hash x))) in
      ret (authd_password_policy_is_valid
             (authd_password_policy_defaults (Some (PasswordPolicy 0 0 0 0 0)))).

(** The cleared array of connections. *)
Definition allocate_clients (config : authd_config) : daemon bool :=
  let count := cfg_max_clients config in
  let* allocated := startup (CALLOC count) in
  if negb allocated then ret false
  else
    let* cs := lift (client_array_initialize (replicate (Z.to_nat count) zero_client) count) in
    do* modify (set_clients cs) in
    ret true.

(** [a && b] where evaluating [b] has effects. *)
Definition and_then (a b : daemon bool) : daemon bool :=
  let* x := a in if x then b else ret false.

(** Everything before the main loop; the answer is whether the daemon listens. *)
Definition prepare_server (config : authd_config) : daemon bool :=
  and_then (check_policies config)
  (and_then prepare_dummy_password_hash
  (and_then (startup (WORKER_POOL_CREATE (cfg_password_workers config)
                        (cfg_password_queue_capacity config)))
  (and_then (let* expired := authd_database_expire_registrations AUTHD_REGISTRATION_EXPIRY_BATCH in
             ret (bool_decide (expired = AUTHD_DATABASE_REGISTRATION_OK)))
  (and_then (allocate_clients config)
  (and_then (let* poll_fds := startup (CALLOC (cfg_max_clients config + 3)) in
             let* poll_slots := startup (CALLOC (cfg_max_clients config + 3)) in
             ret (poll_fds && poll_slots))
  (and_then (startup SIGNAL_STATE_INSTALL)
            (startup CREATE_LISTENER))))))).

(** The end of [authd_server_run]: every connection is reset, the limiter and
    the hash are cleared. *)
Definition release_server (config : authd_config) (reason : list Z) : daemon unit :=
  let* cs := clients in
  do* (match cs with
       | [] => ret tt
       | _ => each_client (cfg_max_clients config) (client_reset (Some reason))
       end) in
  let* sv := get in
  let x := sv_context sv in
  let* limiter := lift (deref (authd_registration_limiter_clear (Some (ctx_registration_limiter x)))) in
  modify (set_context
    (ServerContext (ctx_config x) (ctx_throttle_policy x) limiter
       (zeros (AUTHD_DATABASE_PASSWORD_HASH_MAX + 1)))).

Definition authd_server_run (config : option authd_config) (database_open : bool) : daemon Z :=
  match config with
  | None => ret (-1)
  | Some config =>
      if negb database_open || negb (config_is_valid config) then ret (-1)
      else
        do* modify (λ _, Server [] (new_context config)) in
        let* listening := prepare_server config in
        let* (result, reason) :=
          if listening then main_loop config else ret (failed "authd_failure") in
        do* release_server config reason in
        do* (if listening then close listener else ret tt) in
        ret result
  end.
End loop.

(** ** What the connections hold together *)

Definition held (f : authd_client → gset (list Z)) (cs : list authd_client) : gset (list Z) :=
  ⋃ (f <$> cs).

(** What the connections hold, one slot aside. *)
Definition others (f : authd_client → gset (list Z)) (cs : list authd_client) (i : nat) : gset (list Z) :=
  held f (delete i cs).

Lemma held_split f cs i c : cs !! i = Some c → held f cs = others f cs i ∪ f c.
Proof.
  intros Hc. unfold others, held. rewrite (comm_L (∪)), <- union_list_cons.
  change (f c :: (f <$> delete i cs)) with (f <$> (c :: delete i cs)).
  apply leibniz_equiv, union_list_permutation_proper, Permutation_map. by apply delete_Permutation.
Qed.

Lemma others_update f cs i c : others f (<[i:=c]> cs) i = others f cs i.
Proof.
  unfold others. f_equal. revert i. induction cs as [|d cs IH]; intros [|i]; [done..|].
  change (d :: delete i (<[i:=c]> cs) = d :: delete i cs). by rewrite IH.
Qed.

Lemma held_empty f cs : (∀ c, c ∈ cs → f c = ∅) → held f cs = ∅.
Proof.
  intros Hf. unfold held. apply empty_union_list_L, Forall_fmap, Forall_forall. exact Hf.
Qed.

(** The place of the connection in slot [i]. *)
Definition frame_of (cs : list authd_client) (i : nat) : frame :=
  Frame (Z.of_nat i + 1) (others held_session cs i) (others held_registration cs i).

(** ** The invariant of the daemon *)

(** What [authd_config_parse] guarantees ([Configuration]). *)
Definition configured (config : authd_config) : Prop :=
  config_is_valid config = true ∧ 0 <= cfg_allowed_uid_count config <= zlen (cfg_allowed_uids config).

Definition allowed_peer (config : authd_config) (credentials : authd_peer_credentials) : Prop :=
  0 < peer_pid credentials ∧
  peer_uid credentials ∈ take (Z.to_nat (cfg_allowed_uid_count config)) (cfg_allowed_uids config).

Section server.
Context (config : authd_config).

(** Between two events an open connection waits for its peer. *)
Definition settled (c : authd_client) : Prop :=
  0 <= fd c → waiting c ∧ allowed_peer config (peer c).

Record slot_ok (i : nat) (c : authd_client) (h : list event) : Prop := {
  sl_client : client_ok c;
  sl_id : connection_id c = Z.of_nat i + 1;
  sl_tracked : tracked config c h;
  sl_settled : settled c;
}.

Record running (sv : server) (h : list event) : Prop := {
  rn_count : length (sv_clients sv) = Z.to_nat (cfg_max_clients config);
  rn_slots : ∀ i c, sv_clients sv !! i = Some c → slot_ok i c h;
  rn_context : context_ok config (sv_context sv);
  rn_open : open_sessions h ⊆ held held_session (sv_clients sv);
  rn_pending : pending_registrations h ⊆ held held_registration (sv_clients sv);
  rn_authorised : authorised config h;
}.

Lemma running_inv sv h i c :
  running sv h → sv_clients sv !! i = Some c →
  inv config (frame_of (sv_clients sv) i) (c, sv_context sv) h ∧ settled c.
Proof.
  intros [Hn Hs Hx Ho Hp Ha] Hc. destruct (Hs i c Hc) as [Hok Hid Ht Hset]. split; [|done].
  split; cbn; [done|done|done| |done|done]. unfold accounted. cbn.
  by rewrite <- !(held_split _ _ _ _ Hc).
Qed.

Lemma tracked_extends c h h' : extends h h' → tracked config c h → tracked config c h'.
Proof. intros [new ->] Ht. induction new as [|e new IH]; [done|]. by apply tracked_cons. Qed.

Lemma slot_extends i c h h' : extends h h' → slot_ok i c h → slot_ok i c h'.
Proof. intros Hh [Hok Hid Ht Hset]. split; [done|done|by eapply tracked_extends|done]. Qed.

(** A handler of one connection, which keeps the invariant of its connection. *)
Lemma running_update sv h h' i c s :
  running sv h → sv_clients sv !! i = Some c → extends h h' →
  inv config (frame_of (sv_clients sv) i) s h' → settled (fst s) →
  running (Server (<[i := fst s]> (sv_clients sv)) (snd s)) h'.
Proof.
  intros [Hn Hs Hx Ho Hp Ha] Hc Hh [Hok Hx' Hid [Ho' Hp'] Ht' Ha'] Hset.
  pose proof (lookup_lt_Some _ _ _ Hc) as Hi.
  assert (<[i := fst s]> (sv_clients sv) !! i = Some (fst s)) as Hnew by by apply list_lookup_insert_eq.
  split; cbn [sv_clients sv_context].
  - by rewrite length_insert.
  - intros j d Hd. destruct (decide (i = j)) as [<-|Hne].
    + rewrite Hnew in Hd. injection Hd as <-. by split.
    + rewrite list_lookup_insert_ne in Hd by done. eapply slot_extends; eauto.
  - done.
  - by rewrite (held_split _ _ _ _ Hnew), others_update.
  - by rewrite (held_split _ _ _ _ Hnew), others_update.
  - done.
Qed.

(** A call that acquires nothing. *)
Lemma running_event sv h e :
  running sv h → acquires e = false → justified config e h → running sv (e :: h).
Proof.
  intros [Hn Hs Hx Ho Hp Ha] Hq Hj. destruct (quiet_subset e h Hq) as [Ho' Hp'].
  split; [done| |done| | |by split].
  - intros i c Hc. eapply slot_extends; [by exists [e]|by apply Hs].
  - etrans; eassumption.
  - etrans; eassumption.
Qed.

(** ** Handlers of one connection *)

(** A handler adds to the history. *)
Definition grows {A} (m : handler A) : Prop := keeps (λ _, tt) m.

Lemma keeps_grows {A B} (view : authd_client → B) (m : handler A) : keeps view m → grows m.
Proof.
  intros Hm s h. specialize (Hm s h). destruct (m s h) as [[]|]; [|done..]. by destruct Hm.
Qed.

Lemma at_slot_spec {A} E (m : handler A) (Q : A → conn → list event → Prop) sv h i c :
  running sv h → sv_clients sv !! i = Some c → grows m →
  wp E m (λ a s' h', inv config (frame_of (sv_clients sv) i) s' h' ∧ settled (fst s') ∧ Q a s' h')
    (c, sv_context sv) h →
  wp E (at_slot (Z.of_nat i) m)
    (λ a sv' h', running sv' h' ∧ ∃ s', sv' = Server (<[i := fst s']> (sv_clients sv)) (snd s') ∧
       Q a s' h') sv h.
Proof.
  intros Hr Hc Hg Hm. unfold at_slot. eapply wp_focus.
  { rewrite arr_get_nat, Hc. reflexivity. }
  eapply wp_mono; [apply (wp_grows _ _ _ _ _ _ Hg Hm)|].
  intros a s' h' [(Hi & Hset & HQ) [_ Hh]]. rewrite Nat2Z.id. split; [by eapply running_update|].
  by exists s'.
Qed.

(** A handler of every connection: it finds each with [Pre] and leaves it with [P]. *)
Lemma each_client_spec E (m : handler unit) (Pre P : authd_client → Prop) sv h :
  (∀ F s h, inv config F s h → settled (fst s) → Pre (fst s) →
     wp E m (λ _ s' h', inv config F s' h' ∧ settled (fst s') ∧ P (fst s')) s h) →
  grows m → running sv h → (∀ c, c ∈ sv_clients sv → Pre c) →
  wp E (each_client (cfg_max_clients config) m)
    (λ _ sv' h', running sv' h' ∧ ∀ c, c ∈ sv_clients sv' → P c) sv h.
Proof.
  intros Hm Hg Hr Hpre. unfold each_client.
  apply (wp_each E (λ j sv h, running sv h ∧
    (∀ i c, Z.of_nat i < j → sv_clients sv !! i = Some c → P c) ∧
    ∀ i c, j <= Z.of_nat i → sv_clients sv !! i = Some c → Pre c)).
  - split; [done|]. split; [lia|]. intros i c _ Hc. apply Hpre. by eapply list_elem_of_lookup_2.
  - intros j sv1 h1 Hj (Hr1 & HP1 & Hpre1).
    destruct (lookup_lt_is_Some_2 (sv_clients sv1) (Z.to_nat j)) as [c Hc].
    { rewrite (rn_count _ _ Hr1). lia. }
    destruct (running_inv _ _ _ _ Hr1 Hc) as [Hi Hset].
    assert (Pre c) as HPre by (apply (Hpre1 (Z.to_nat j)); [lia|done]).
    replace j with (Z.of_nat (Z.to_nat j)) at 1 by lia.
    eapply wp_mono; [apply (at_slot_spec E m (λ _ s' _, P (fst s')) sv1 h1 (Z.to_nat j) c); auto|].
    intros [] sv2 h2 (Hr2 & s' & -> & HPc). split; [done|]. cbn [sv_clients]. split; intros i d Hij Hd.
    + destruct (decide (i = Z.to_nat j)) as [->|Hne].
      * rewrite list_lookup_insert_eq in Hd by (by eapply lookup_lt_Some). by injection Hd as <-.
      * rewrite list_lookup_insert_ne in Hd by done. apply (HP1 i d); [lia|done].
    + rewrite list_lookup_insert_ne in Hd by lia. apply (Hpre1 i d); [lia|done].
  - intros sv1 h1 (Hr1 & HP1 & _). split; [done|]. intros c Hc.
    apply list_elem_of_lookup in Hc as [i Hc]. apply (HP1 i c); [|done].
    pose proof (lookup_lt_Some _ _ _ Hc). rewrite (rn_count _ _ Hr1) in *. lia.
Qed.
End server.

Section handlers.
Context `{EnvironmentLaws} `{InetLaws} (config : authd_config) (Hconfig : configured config).
Context (E : list event → Prop) (HE : ∀ h, authorised config h → E h).

Lemma grows_reset reason : grows (client_reset reason).
Proof.
  unfold client_reset, abort_registration_on_reset, close_session_on_reset, release_input.
  apply (keeps_grows (λ _, tt)). solve_keeps.
Qed.
#[local] Hint Resolve grows_reset : keeps.

Definition reset_result (F : frame) (s : conn) (h : list event) : Prop :=
  inv config F s h ∧ settled config (fst s) ∧ fd (fst s) < 0.

Lemma reset_spec F s h reason :
  inv config F s h → ends_with reason (fst s) h →
  wp E (client_reset (Some reason)) (λ _ s' h', reset_result F s' h') s h.
Proof.
  intros Hi Hend. eapply wp_mono; [by apply (client_reset_spec config E F)|].
  intros [] s' h' [-> Hi']. split; [done|]. split; [intros Hfd; cbn in Hfd; lia|cbn; lia].
Qed.

Lemma reset_settled F s h reason :
  inv config F s h → daemon_reason (cstr reason) = true →
  wp E (client_reset (Some reason)) (λ _ s' h', inv config F s' h' ∧ settled config (fst s')) s h.
Proof.
  intros Hi Hown. eapply wp_mono; [apply reset_spec; [done|by apply own_reason]|].
  intros [] s' h' (? & ? & _). done.
Qed.

(** *** Deadlines *)

Lemma grows_expire_hello now_ms : grows (expire_hello now_ms).
Proof. unfold expire_hello, grows. solve_keeps. apply grows_reset. Qed.

Lemma expire_hello_spec F s h now_ms :
  inv config F s h → settled config (fst s) →
  wp E (expire_hello now_ms)
    (λ _ s' h', inv config F s' h' ∧ settled config (fst s') ∧
       (0 <= fd (fst s') → state (fst s') = FTAP_STATE_CONNECTED →
          now_ms < hello_deadline_ms (fst s'))) s h.
Proof.
  intros Hi Hs. unfold expire_hello. conn_step. conn_step. case_if.
  - eapply wp_mono; [apply reset_spec; [done|by apply own_reason]|].
    intros [] s' h' (? & ? & ?). split_and!; [done|done|lia].
  - conn_step. split_and!; [done|done|]. intros Hfd Hst. rewrite (proj2 (Z.leb_le _ _)), Hst in E0 by done.
    rewrite bool_decide_eq_true_2 in E0 by done. cbn in E0. by bools.
Qed.

Lemma grows_expire_registration now_ms : grows (expire_registration now_ms).
Proof. unfold expire_registration, grows. solve_keeps. apply grows_reset. Qed.

Lemma expire_registration_spec F s h now_ms :
  inv config F s h → settled config (fst s) →
  wp E (expire_registration now_ms)
    (λ _ s' h', inv config F s' h' ∧ settled config (fst s') ∧
       (fd (fst s') < 0 ∨ fst s' = fst s ∧
        (ra_active (registration (fst s')) = true →
         ra_database_pending (registration (fst s')) = true →
         now_ms < ra_deadline_ms (registration (fst s'))))) s h.
Proof.
  intros Hi Hs. unfold expire_registration. conn_step. conn_step.
  destruct ((fd (fst s) <? 0) || _ || _ || _) eqn:E0.
  - conn_step. split_and!; [done|done|]. destruct (Z.ltb_spec (fd (fst s)) 0) as [Hfd|Hfd]; [by left|right].
    split; [done|]. intros Ha Hp. rewrite Ha, Hp in E0. cbn in E0. by bools.
  - bools. conn_step. apply wp_service. intros result _.
    match goal with E : ra_active _ = true |- _ => rename E into Ha end.
    match goal with E : ra_database_pending _ = true |- _ => rename E into Hp end.
    assert (working config F s h) as Hw0 by by split.
    pose proof (working_abort config F s h (cstr FTAP_REGISTRATION_REASON_TIMEOUT) result Hw0 Ha Hp) as Hw.
    pose proof (aborted_pending config F s h (rb_user_id (ra_record (registration (fst s))))
      (cstr FTAP_REGISTRATION_REASON_TIMEOUT) result Hw0 (orb_true_r _)) as Hfree.
    conn_step.
    eapply (wp_mono _ _ (λ _ s' h', working config F s' h')).
    { destruct result; first [conn_step; exact Hw|apply wp_modify; by apply working_registration_clear]. }
    intros [] s1 h1 Hw1. conn_step. conn_step.
    eapply wp_mono; [apply (reset_spec F)|].
    + apply (inv_same_grip config F s1); [apply Hw1| |done].
      apply closing_ok; [by eapply working_client|apply Hw1].
    + by apply own_reason.
    + intros [] s' h' (? & ? & ?). split_and!; [done|done|by left].
Qed.

(** *** Input and output *)

Lemma grows_end_client : grows end_client.
Proof. unfold end_client, grows. solve_keeps. apply grows_reset. Qed.

Lemma end_client_spec F s h :
  inv config F s h →
  wp E end_client (λ _ s' h', reset_result F s' h') s h.
Proof.
  intros Hi. unfold end_client. conn_step. conn_step. conn_step.
  destruct (client_io_end_reason_spec config (fst s) h (inv_client _ _ _ _ Hi) (inv_tracked _ _ _ _ Hi))
    as (reason & Hr & Hend).
  eapply wp_lift; [exact Hr|]. by apply reset_spec.
Qed.

Lemma grows_serve_client fuel polled_fd revents : grows (serve_client fuel polled_fd revents).
Proof.
  pose proof grows_end_client. pose proof (keeps_grows identity (write_client fuel) (keeps_write_client fuel)).
  pose proof (keeps_grows identity (read_client fuel) (keeps_read_client fuel)).
  unfold serve_client, grows. solve_keeps.
Qed.

Lemma reset_running F s h : reset_result F s h → inv config F s h ∧ settled config (fst s).
Proof. by intros (? & ? & _). Qed.

(** The peer of a connection stays the same while bytes are moved. *)
Lemma moved_settled F r c s h :
  moved config F r s h → identity (fst s) = identity c → settled config c → 0 <= fd c → r = 0 →
  inv config F s h ∧ settled config (fst s).
Proof.
  intros [Hw Hr] [= Hfd _ _ Hpeer] Hs Hopen ->. split; [apply Hw|]. intros _.
  rewrite Hpeer. split; [|by apply Hs]. by destruct Hr as [[_ ?]|].
Qed.

Lemma serve_client_spec fuel F s h polled_fd revents :
  inv config F s h → settled config (fst s) →
  wp E (serve_client fuel polled_fd revents)
    (λ _ s' h', inv config F s' h' ∧ settled config (fst s')) s h.
Proof.
  intros Hi Hs. unfold serve_client. conn_step. conn_step.
  destruct ((fd (fst s) <? 0) || _) eqn:Eopen; [by conn_step|]. bools. conn_step.
  assert (∀ s h, inv config F s h →
    wp E end_client (λ _ s' h', inv config F s' h' ∧ settled config (fst s')) s h) as Hend.
  { intros s1 h1 Hi1. eapply wp_mono; [by apply (end_client_spec F)|]. intros [] s' h'. apply reset_running. }
  eapply (wp_mono _ _ (λ r s' h', moved config F r s' h' ∧ identity (fst s') = identity (fst s))).
  { case_if.
    - apply (wp_keeps identity); [apply keeps_write_client|]. by apply write_client_spec.
    - conn_step. split; [|done]. split; [by split|]. left. split; [done|]. by apply Hs. }
  intros r s1 h1 [Hm1 Hid1]. destruct (Z.eqb_spec r 0) as [->|]; cbn [negb]; [|by apply Hend, Hm1].
  destruct (moved_settled F 0 (fst s) s1 h1 Hm1 Hid1 Hs ltac:(done) eq_refl) as [Hi1 Hs1].
  assert (0 <= fd (fst s1)) as Hopen1 by apply Hm1.
  conn_step. conn_step. conn_step.
  eapply (wp_mono _ _ (λ r s' h', moved config F r s' h' ∧ identity (fst s') = identity (fst s1))).
  { case_if.
    - apply (wp_keeps identity); [apply keeps_read_client|]. apply read_client_spec; [done|by split|by apply Hs1].
    - conn_step. split; [|done]. split; [by split|]. left. split; [done|]. by apply Hs1. }
  intros r s2 h2 [Hm2 Hid2]. destruct (Z.eqb_spec r 0) as [->|]; cbn [negb]; [|by apply Hend, Hm2].
  destruct (moved_settled F 0 (fst s1) s2 h2 Hm2 Hid2 Hs1 Hopen1 eq_refl) as [Hi2 Hs2].
  conn_step. conn_step. case_if; [by apply Hend|]. by conn_step.
Qed.

(** *** Completions *)

Lemma grows_complete_client fuel completion : grows (complete_client fuel completion).
Proof.
  pose proof (λ r, grows_reset r).
  pose proof (keeps_grows place _ (keeps_complete_password_login completion)).
  pose proof (keeps_grows place _ (keeps_complete_registration_hash fuel completion)).
  unfold complete_client, grows. solve_keeps. apply grows_reset.
Qed.

Lemma complete_client_spec fuel F s h completion :
  inv config F s (TakeCompletion (Some completion) :: h) → settled config (fst s) →
  tracked config (fst s) h → connection_id (fst s) = tk_connection_id (wc_token completion) →
  array_ok (AUTHD_WORKER_HASH_MAX_BYTES + 1) (wc_encoded_hash completion) →
  wp E (complete_client fuel completion)
    (λ _ s' h', inv config F s' h' ∧ settled config (fst s')) s (TakeCompletion (Some completion) :: h).
Proof.
  intros Hi Hs Ht Hid Harr. unfold complete_client. conn_step. conn_step. conn_step.
  set (h0 := TakeCompletion (Some completion) :: h) in *.
  eapply (wp_mono _ _ (λ r s' h', inv config F s' h' ∧ (r = 0 → settled config (fst s')))).
  - destruct ((0 <=? fd (fst s)) && _) eqn:Eopen; [|by conn_step]. bools.
    assert (working config F s h0) as Hw by by split.
    assert (∀ r s' h', working config F s' h' → place (fst s') = place (fst s) →
      (r = 0 → busy (fst s') = true) → inv config F s' h' ∧ (r = 0 → settled config (fst s'))) as Hdone.
    { intros r s' h' Hw' [= Hfd _ _ Hpeer _ _] Hb. split; [apply Hw'|]. intros Hr _. rewrite Hpeer.
      split; [left; auto|]. by apply Hs. }
    assert (∀ request_id, request_id = tk_request_id (wc_token completion) →
      wc_token completion = token_of (fst s) request_id) as Htok.
    { intros request_id ->. unfold token_of. destruct (wc_token completion). cbn in *. congruence. }
    case_if.
    + bools. eapply wp_mono.
      * apply (wp_keeps place); [apply keeps_complete_password_login|].
        apply (complete_password_login_spec config E F); [exact Hw|]. split; [done|done| |done|by exists h].
        by apply Htok.
      * intros r s' h' [(Hw' & Hres) Hp]. apply Hdone; [done|done|]. intros ->.
        destruct Hres as [(_ & _ & _ & Hb & _)|(code & retry & Href & _)]; [by apply Hb|].
        by eapply refuses_busy.
    + case_if; [|by conn_step]. bools. eapply wp_mono.
      * apply (wp_keeps place); [apply keeps_complete_registration_hash|].
        apply (complete_registration_hash_spec config E F); [done| |exact Hw|].
        -- destruct Hconfig as [Hvalid _]. unfold config_is_valid in Hvalid. bools.
           unfold AUTHD_REGISTRATION_MIN_TIMEOUT_SECONDS, AUTHD_REGISTRATION_MAX_TIMEOUT_SECONDS in *.
           split; lia.
        -- split; [done|done|done| |done|done|by exists h]. by apply Htok.
      * intros r s' h' [(Hw' & Hres & _) Hp]. apply Hdone; [done|done|]. intros ->.
        destruct Hres as [(_ & Hb & _)|[Hr|(code & Href & _)]]; [done|discriminate|by eapply refuses_busy].
  - intros r s1 h1 [Hi1 Hs1]. destruct (Z.eqb_spec r 0) as [->|]; cbn [negb].
    + conn_step. auto.
    + by apply reset_settled.
Qed.
End handlers.

(** One step of the daemon. *)
Ltac daemon_step :=
  match goal with
  | |- wp _ clients _ _ _ => apply wp_gets; cbv beta
  | |- _ => conn_step
  end.

(** ** Peers *)

Lemma find_free_client_spec cs count :
  length cs = Z.to_nat count →
  ∃ r, find_free_client cs count = Some r ∧
    match r with
    | Some slot => ∃ i c, slot = Z.of_nat i ∧ cs !! i = Some c ∧ fd c < 0
    | None => ∀ c, c ∈ cs → 0 <= fd c
    end.
Proof.
  intros Hlen. unfold find_free_client. rewrite <- Hlen.
  rewrite (for_range_find (λ c, fd c < 0) (λ _ index, index)).
  - destruct (list_find _ cs) as [[i c]|] eqn:Ef; run_simpl; (eexists; split; [done|]).
    + apply list_find_Some in Ef as (Hc & Hfd & _). by exists i, c.
    + intros c Hc. apply list_find_None in Ef. rewrite Forall_forall in Ef. specialize (Ef c Hc). cbn in Ef. lia.
  - intros k c Hc. change (0 + Z.of_nat k) with (Z.of_nat k). rewrite arr_get_nat, Hc. run_simpl.
    destruct (Z.ltb_spec (fd c) 0); [by rewrite decide_True|by rewrite decide_False by lia].
Qed.

Lemma uid_is_allowed_spec config uid :
  0 <= cfg_allowed_uid_count config <= zlen (cfg_allowed_uids config) →
  ∃ b, authd_config_uid_is_allowed (Some config) uid = Some b ∧
    (b = true ↔ uid ∈ take (Z.to_nat (cfg_allowed_uid_count config)) (cfg_allowed_uids config)).
Proof.
  intros Hn. unfold authd_config_uid_is_allowed.
  set (uids := take (Z.to_nat (cfg_allowed_uid_count config)) (cfg_allowed_uids config)).
  assert (length uids = Z.to_nat (cfg_allowed_uid_count config)) as Hlen.
  { unfold uids, zlen in *. rewrite length_take. lia. }
  rewrite <- Hlen. rewrite (for_range_find (λ x, x = uid) (λ _ _, true)).
  - destruct (list_find _ uids) as [[i x]|] eqn:Ef; run_simpl; (eexists; split; [done|]).
    + apply list_find_Some in Ef as (Hx & -> & _). split; [|done]. intros _. by eapply list_elem_of_lookup_2.
    + split; [done|]. intros Hin. apply list_find_None in Ef. rewrite Forall_forall in Ef. by destruct (Ef uid Hin).
  - intros k x Hx. change (0 + Z.of_nat k) with (Z.of_nat k). rewrite arr_get_nat.
    apply lookup_take_Some in Hx as [-> Hk]. run_simpl.
    destruct (Z.eqb_spec x uid); [by rewrite decide_True|by rewrite decide_False].
Qed.

Lemma peer_allowed_spec config credentials :
  configured config →
  ∃ b, authd_peer_credentials_are_allowed (Some config) (Some credentials) = Some b ∧
    (b = true ↔ allowed_peer config credentials).
Proof.
  intros [_ Hn]. unfold authd_peer_credentials_are_allowed, allowed_peer.
  destruct (Z.ltb_spec 0 (peer_pid credentials)); [|eexists; split; [done|]; split; [done|lia]].
  destruct (uid_is_allowed_spec config (peer_uid credentials) Hn) as (b & -> & Hb). exists b. split; [done|].
  tauto.
Qed.

Section accept.
Context `{EnvironmentLaws} (config : authd_config) (Hconfig : configured config).

(** A free slot holds nothing. *)
Lemma free_slot c : client_ok c → fd c < 0 → cleared c = c ∧ input c = None.
Proof.
  intros Hc Hfd. split; [by apply (ph_free _ (ok_phases _ Hc))|].
  pose proof (ok_input _ Hc) as Hi. unfold input_ok in Hi. destruct (input c); [lia|done].
Qed.

Lemma accepted_ok sv h i c now_ms new_fd credentials buffer :
  running config sv h → sv_clients sv !! i = Some c → fd c < 0 → 0 <= new_fd →
  array_ok FTAP_MAX_FRAME_SIZE buffer → allowed_peer config credentials →
  running config (Server (<[i := accepted_client config now_ms new_fd credentials
    (set_input (Some buffer) c)]> (sv_clients sv)) (sv_context sv)) h.
Proof.
  intros Hr Hc Hfd Hnew Hb Hpeer. destruct (running_inv _ _ _ _ _ Hr Hc) as [Hi _].
  destruct Hi as [[Hc1 Hc2 Hc3 Hc4 Hc5 Hc6 Hc7 Hc8 Hc9 Hc10] Hx Hid Hacc Ht Ha]. cbn [fst snd] in *.
  pose proof (ph_free _ Hc10 Hfd) as Hfree.
  assert (la_active (login c) = false) as Hl by (by rewrite <- Hfree).
  assert (ra_active (registration c) = false) as Hg by (by rewrite <- Hfree).
  assert (session_open c = false) as Hso by (by rewrite <- Hfree).
  assert (input_used c = 0) as Hu by (by rewrite <- Hfree).
  apply (running_update config sv h h i c (accepted_client config now_ms new_fd credentials
    (set_input (Some buffer) c), sv_context sv)); [done|done|done| |].
  - split; cbn [fst snd]; [|done|done|exact Hacc| |done].
    + split; cbn; try done; [split; [done|]; split; [done|]; rewrite Hu; vm_compute; split; congruence|].
      split; cbn; [congruence..|lia|]. intros _. apply (ph_reason _ Hc10). by left.
    + split; cbn; congruence.
  - intros _. split; [|done]. right. left. cbn. rewrite Hu. done.
Qed.

Definition accept_result (r : option Z) : Prop := r = None ∨ r = Some 0 ∨ r = Some (-1).

(** What became of the connection that the newest events accepted. *)
Definition accepted (sv sv' : server) (h h' : list event) (now_ms : Z) : Prop :=
  ∃ new_fd credentials buffer i c,
    h' = Malloc (Some buffer) :: PeerRead new_fd (Some credentials) :: Accept (inl new_fd) :: h ∧
    allowed_peer config credentials ∧ sv_clients sv !! i = Some c ∧ fd c < 0 ∧
    sv' = Server (<[i := accepted_client config now_ms new_fd credentials
                       (set_input (Some buffer) c)]> (sv_clients sv)) (sv_context sv).

(** A connection that is not taken is closed. *)
Definition not_accepted (sv sv' : server) (h h' : list event) : Prop :=
  sv' = sv ∧
  ((∃ e, e ≠ EINTR ∧ h' = Accept (inr e) :: h) ∨ h' = Accept (inr EINTR) :: h ∨
   ∃ new_fd more, h' = Close new_fd :: more ++ Accept (inl new_fd) :: h ∧
     (more = [PeerRead new_fd None] ∨ ∃ credentials,
        more = [PeerRead new_fd (Some credentials)] ∧
        (¬ allowed_peer config credentials ∨ ∀ c, c ∈ sv_clients sv → 0 <= fd c) ∨
        more = [Malloc None; PeerRead new_fd (Some credentials)])).

Lemma wp_at_slot_assign E f (Q : unit → server → list event → Prop) sv h i c :
  sv_clients sv !! i = Some c →
  Q tt (Server (<[i := f c]> (sv_clients sv)) (sv_context sv)) h →
  wp E (at_slot (Z.of_nat i) (assign f)) Q sv h.
Proof.
  intros Hc HQ. unfold at_slot. eapply wp_focus; [rewrite arr_get_nat, Hc; reflexivity|].
  apply wp_modify. by rewrite Nat2Z.id.
Qed.

Lemma accept_step_spec E sv h now_ms :
  running config sv h →
  wp E (accept_step config (cfg_max_clients config) now_ms)
    (λ r sv' h', accept_result r ∧ running config sv' h' ∧
       (accepted sv sv' h h' now_ms ∨ not_accepted sv sv' h h')) sv h.
Proof.
  intros Hr. unfold accept_step. conn_step. apply wp_service. intros new Ha.
  assert (running config sv (Accept new :: h)) as Hr1 by by apply running_event.
  destruct new as [new_fd|[]].
  2:{ conn_step. split; [by left|]. split; [done|]. right. split; [done|]. by right; left. }
  2:{ conn_step. split; [right; by left|]. split; [done|]. right. split; [done|]. left. by exists EAGAIN. }
  2:{ conn_step. split; [right; by right|]. split; [done|]. right. split; [done|]. left. by exists EOTHER. }
  pose proof (law_accept h new_fd (eq_sym Ha)) as Hnew.
  conn_step. apply wp_service. intros credentials _.
  assert (running config sv (PeerRead new_fd credentials :: Accept (inl new_fd) :: h)) as Hr2
    by by apply running_event.
  assert (∀ more, running config sv (more ++ Accept (inl new_fd) :: h) →
    (more = [PeerRead new_fd None] ∨ ∃ credentials,
        more = [PeerRead new_fd (Some credentials)] ∧
        (¬ allowed_peer config credentials ∨ ∀ c, c ∈ sv_clients sv → 0 <= fd c) ∨
        more = [Malloc None; PeerRead new_fd (Some credentials)]) →
    ∀ r, accept_result r →
    wp E (do* close new_fd in ret r) (λ r sv' h', accept_result r ∧ running config sv' h' ∧
       (accepted sv sv' h h' now_ms ∨ not_accepted sv sv' h h')) sv (more ++ Accept (inl new_fd) :: h)) as Hclose.
  { intros more Hr3 Hmore r Hres. conn_step. apply wp_service. intros [] _. conn_step.
    split; [done|]. split; [by apply running_event|]. right. split; [done|]. right. right.
    by exists new_fd, more. }
  destruct credentials as [credentials|].
  2:{ apply (Hclose [PeerRead new_fd None]); [done|by left|by left]. }
  destruct (peer_allowed_spec config credentials Hconfig) as (b & Hb & Hallow).
  conn_step. eapply wp_lift; [exact Hb|].
  destruct b; cbn [negb].
  2:{ apply (Hclose [PeerRead new_fd (Some credentials)]); [done| |by left].
      right. exists credentials. left. split; [done|]. left. intros Hp. by apply Hallow in Hp. }
  conn_step. daemon_step. conn_step.
  destruct (find_free_client_spec (sv_clients sv) (cfg_max_clients config) (rn_count _ _ _ Hr))
    as (slot & Hslot & Hfree). eapply wp_lift; [exact Hslot|]. destruct slot as [slot|].
  2:{ apply (Hclose [PeerRead new_fd (Some credentials)]); [done| |by left].
      right. exists credentials. left. by split; [|right]. }
  destruct Hfree as (i & c & -> & Hc & Hfd).
  conn_step. apply wp_service. intros buffer Hbuf.
  assert (running config sv (Malloc buffer :: PeerRead new_fd (Some credentials) :: Accept (inl new_fd) :: h))
    as Hr3 by by apply running_event.
  destruct (free_slot c (sl_client _ _ _ _ (rn_slots _ _ _ Hr i c Hc)) Hfd) as [Hclear Hin].
  conn_step. apply (wp_at_slot_assign _ _ _ _ _ i c); [done|]. destruct buffer as [buffer|].
  - conn_step. eapply (wp_at_slot_assign _ _ _ _ _ i).
    { cbn [sv_clients]. apply list_lookup_insert_eq. by eapply lookup_lt_Some. }
    conn_step. cbn [sv_clients sv_context]. rewrite list_insert_insert_eq.
    split; [by left|]. split.
    + apply accepted_ok; try done; [|by apply Hallow]. by eapply law_malloc.
    + left. exists new_fd, credentials, buffer, i, c. split_and!; try done. by apply Hallow.
  - assert (set_input None c = c) as Hsame by (destruct c; cbn in Hin |- *; by rewrite Hin).
    rewrite Hsame, list_insert_id by done. destruct sv as [cs x].
    apply (Hclose [Malloc None; PeerRead new_fd (Some credentials)]); [done| |right; by right].
    right. exists credentials. by right.
Qed.
End accept.

(** ** Deadlines *)

(** The deadlines of a connection. *)
Definition deadlines (c : authd_client) : list Z :=
  (if (0 <=? fd c) && bool_decide (state c = FTAP_STATE_CONNECTED) then [hello_deadline_ms c] else [])
  ++ (if (0 <=? fd c) && ra_active (registration c) && ra_database_pending (registration c)
      then [ra_deadline_ms (registration c)] else []).

Definition earliest (start : Z) (ds : list Z) : Z := foldl Z.min start ds.

Lemma earliest_spec start ds :
  earliest start ds <= start ∧ (∀ d, d ∈ ds → earliest start ds <= d) ∧
  (earliest start ds = start ∨ earliest start ds ∈ ds).
Proof.
  revert start. induction ds as [|d ds IH]; intros start; cbn.
  - split; [done|]. split; [set_solver|by left].
  - destruct (IH (Z.min start d)) as (H1 & H2 & H3). unfold earliest in *. split; [lia|]. split.
    + intros x [->|Hx]%elem_of_cons; [lia|auto].
    + destruct H3 as [H3|H3]; [|right; by right]. rewrite H3.
      destruct (Z.min_spec start d) as [[_ ->]|[_ ->]]; [by left|right; by left].
Qed.

Lemma nearest_deadline_spec cs i c nearest :
  cs !! i = Some c →
  nearest_deadline cs (Z.of_nat i) nearest = Some (Continue (earliest nearest (deadlines c))).
Proof.
  intros Hc. unfold nearest_deadline, deadlines, earliest. rewrite arr_get_nat, Hc. run_simpl.
  assert (∀ (x y : Z), (if x <? y then x else y) = Z.min y x) as Hmin.
  { intros x y. destruct (Z.ltb_spec x y); lia. }
  destruct ((0 <=? fd c) && bool_decide _); cbn [andb app foldl];
    (destruct ((0 <=? fd c) && ra_active _ && _); cbn [andb app foldl]); by rewrite ?Hmin.
Qed.

Lemma compute_poll_timeout_spec cs count now_ms :
  length cs = Z.to_nat count →
  ∃ timeout, compute_poll_timeout cs count now_ms = Some timeout ∧
    0 <= timeout <= AUTHD_POLL_MAXIMUM_MS ∧
    (∀ d, d ∈ cs ≫= deadlines → d < UINT64_MAX → timeout <= Z.max 0 (d - now_ms)) ∧
    (timeout < AUTHD_POLL_MAXIMUM_MS →
       ∃ d, d ∈ cs ≫= deadlines ∧ timeout = Z.max 0 (d - now_ms)).
Proof.
  intros Hlen. unfold compute_poll_timeout. rewrite <- Hlen.
  destruct (for_range_inv (R := Empty_set)
    (λ j t, t = earliest UINT64_MAX (take (Z.to_nat j) cs ≫= deadlines)) (λ _, False)
    (nearest_deadline cs) (length cs) 0 UINT64_MAX) as [(t & -> & ->)|([] & _)].
  - done.
  - intros j t Hj ->. left. destruct (lookup_lt_is_Some_2 cs (Z.to_nat j)) as [c Hc]; [lia|].
    pose proof (nearest_deadline_spec cs (Z.to_nat j) c
      (earliest UINT64_MAX (take (Z.to_nat j) cs ≫= deadlines)) Hc) as Hn.
    rewrite Z2Nat.id in Hn by lia. eexists. split; [exact Hn|]. replace (Z.to_nat (j + 1)) with (Datatypes.S (Z.to_nat j)) by lia.
    rewrite (take_S_r _ _ _ Hc), bind_app. cbn. rewrite app_nil_r. unfold earliest. by rewrite foldl_app.
  - run_simpl. cbn [ctl_value]. rewrite Z.add_0_l, Nat2Z.id, take_ge by lia.
    set (ds := cs ≫= deadlines). destruct (earliest_spec UINT64_MAX ds) as (H1 & H2 & H3).
    set (nearest := earliest UINT64_MAX ds) in *. unfold AUTHD_POLL_MAXIMUM_MS.
    eexists. split; [done|].
    destruct (Z.eqb_spec nearest UINT64_MAX) as [E|E].
    { split; [lia|]. split; [|lia]. intros d Hd Hlt. specialize (H2 d Hd). lia. }
    assert (nearest ∈ ds) as Hin by (by destruct H3).
    destruct (Z.leb_spec nearest now_ms).
    { split; [lia|]. split; [lia|]. intros _. exists nearest. split; [done|lia]. }
    destruct (Z.ltb_spec 1000 (nearest - now_ms)).
    { split; [lia|]. split; [|lia]. intros d Hd Hlt. specialize (H2 d Hd). lia. }
    split; [lia|]. split; [|intros _; exists nearest; split; [done|lia]].
    intros d Hd Hlt. specialize (H2 d Hd). lia.
Qed.

(** ** Polling *)

Lemma poll_clients_slots cs k slot polled events :
  (slot, (polled, events)) ∈ poll_clients cs k → k <= slot < k + zlen cs.
Proof.
  revert k. induction cs as [|c cs IH]; intros k; cbn [poll_clients]; [set_solver|].
  rewrite zlen_cons. pose proof (zlen_nonneg cs). case_if.
  - intros Hin. specialize (IH _ Hin). lia.
  - intros [E1|Hin]%elem_of_cons; [injection E1 as -> _ _; lia|]. specialize (IH _ Hin). lia.
Qed.

Section round.
Context `{EnvironmentLaws} `{InetLaws} `{Sodium} (config : authd_config) (Hconfig : configured config).
Context (E : list event → Prop) (HE : ∀ h, authorised config h → E h).

Abbreviation kept := (λ _ sv' h', running config sv' h') (only parsing).

(** The reason with which the main loop ends is one of the daemon's own. *)
Definition owned (ended : option (Z * list Z)) : Prop :=
  ∀ r, ended = Some r → daemon_reason (cstr (snd r)) = true.

Lemma owned_none : owned None.
Proof. done. Qed.

Lemma owned_some result reason : daemon_reason (cstr reason) = true → owned (Some (result, reason)).
Proof. by intros Hr r [= <-]. Qed.

Lemma accept_clients_spec fuel sv h now_ms :
  running config sv h →
  wp E (accept_clients fuel config (cfg_max_clients config) now_ms) kept sv h.
Proof.
  intros Hr. unfold accept_clients. apply (wp_repeat E (running config)); [done| |].
  - intros sv1 h1 Hr1. by apply HE, Hr1.
  - intros sv1 h1 Hr1. eapply wp_mono; [by apply accept_step_spec|].
    intros [r|] sv2 h2 (_ & Hr2 & _); done.
Qed.

Lemma completion_step_spec fuel sv h :
  running config sv h →
  wp E (completion_step fuel (cfg_max_clients config)) kept sv h.
Proof.
  intros Hr. unfold completion_step. conn_step. apply wp_service. intros completion Ha.
  assert (running config sv (TakeCompletion completion :: h)) as Hr1 by by apply running_event.
  destruct completion as [completion|]; [|by conn_step].
  destruct (law_completion h completion (eq_sym Ha)) as [Harr [Hid0 _]].
  destruct ((_ =? 0) || _) eqn:Eid; [by conn_step|]. bools. conn_step.
  set (id := tk_connection_id (wc_token completion)) in *.
  destruct (lookup_lt_is_Some_2 (sv_clients sv) (Z.to_nat (id - 1))) as [c Hc].
  { rewrite (rn_count _ _ _ Hr). lia. }
  destruct (running_inv _ _ _ _ _ Hr1 Hc) as [Hi Hset].
  replace (id - 1) with (Z.of_nat (Z.to_nat (id - 1))) by lia.
  destruct (rn_slots _ _ _ Hr _ _ Hc) as [_ Hcid Ht _].
  eapply wp_mono; [apply (at_slot_spec config E _ (λ _ _ _, True) sv _ (Z.to_nat (id - 1)) c);
    [done|done|apply grows_complete_client|]|].
  - eapply wp_mono; [apply (complete_client_spec config Hconfig E HE fuel); try done; cbn [fst]; fold id; lia|].
    intros [] s' h' [Hi' Hs']. done.
  - intros [] sv' h' [Hr' _]. by conn_step.
Qed.

Lemma process_completions_spec fuel sv h :
  running config sv h →
  wp E (process_worker_completions fuel (cfg_max_clients config)) kept sv h.
Proof.
  intros Hr. unfold process_worker_completions. apply (wp_repeat E (running config)); [done| |].
  - intros sv1 h1 Hr1. by apply HE, Hr1.
  - intros sv1 h1 Hr1. eapply wp_mono; [by apply completion_step_spec|]. by intros [r|] sv2 h2 Hr2.
Qed.

(** What reads memory or asks the environment, but changes no connection. *)
Lemma drain_spec fuel sv h :
  running config sv h →
  wp E (drain_signal_pipe fuel) (λ _ sv' h', sv' = sv ∧ running config sv' h') sv h.
Proof.
  intros Hr. unfold drain_signal_pipe.
  apply (wp_iterate E (λ _ sv' h', sv' = sv ∧ running config sv' h')); [done| |].
  - intros stop sv1 h1 [-> Hr1]. by apply HE, Hr1.
  - intros stop sv1 h1 [-> Hr1]. unfold drain_step. conn_step. apply wp_service. intros count _.
    assert (running config sv (SignalRead count :: h1)) as Hr2 by by apply running_event.
    destruct count as [bytes|[]]; [case_if|..]; by conn_step.
Qed.

Lemma monotonic_running sv h :
  running config sv h →
  wp E monotonic_milliseconds (λ now_ms sv' h', sv' = sv ∧ running config sv' h' ∧
    ∀ t, now_ms = Some t → fits 64 t) sv h.
Proof.
  intros Hr. eapply wp_mono; [apply (monotonic_spec E (running config sv)); [done|]|].
  - intros e h1 [answer ->] Hr1. by apply running_event.
  - intros now_ms sv' h' (-> & Hr' & _ & Hms). done.
Qed.

(** What one round leaves behind. *)
Lemma serve_round_spec fuel cs0 sv h revents :
  length cs0 = Z.to_nat (cfg_max_clients config) →
  length revents = (3 + length (poll_clients cs0 0))%nat →
  running config sv h →
  wp E (serve_round fuel config (poll_clients cs0 0) revents)
    (λ ended sv' h', running config sv' h' ∧ owned ended) sv h.
Proof.
  intros Hcs0 Hrev Hr. unfold serve_round.
  assert (∀ j, 0 <= j < 3 + zlen (poll_clients cs0 0) → is_Some (arr_get revents j)) as Hget.
  { intros j Hj. unfold arr_get. rewrite (proj2 (Z.leb_le _ _)) by lia. apply lookup_lt_is_Some_2.
    unfold zlen in Hj. lia. }
  pose proof (zlen_nonneg (poll_clients cs0 0)).
  destruct (Hget 0) as [signalled E0]; [lia|]. destruct (Hget 1) as [listening E1]; [lia|].
  destruct (Hget 2) as [completed E2]; [lia|].
  conn_step. eapply wp_lift; [exact E0|]. conn_step. eapply wp_lift; [exact E1|].
  conn_step. eapply wp_lift; [exact E2|]. conn_step.
  eapply (wp_mono _ _ (λ _ sv' h', sv' = sv ∧ running config sv' h')).
  { case_if; [by apply drain_spec|by conn_step]. }
  intros stopping sv1 h1 [-> Hr1].
  destruct stopping; [conn_step; split; [done|by apply owned_some]|]. conn_step.
  eapply (wp_mono _ _ kept).
  { case_if; [|by conn_step]. conn_step. eapply wp_mono; [by apply monotonic_running|].
    intros [now_ms|] sv2 h2 (-> & Hr2 & _); [by apply accept_clients_spec|by conn_step]. }
  intros result sv2 h2 Hr2.
  do 3 (case_if; [conn_step; split; [done|by apply owned_some]|]). conn_step.
  eapply (wp_mono _ _ kept).
  { apply (wp_each E (λ _ sv h, running config sv h)); [done| |done].
    intros j sv3 h3 Hj Hr3.
    destruct (lookup_lt_is_Some_2 (poll_clients cs0 0) (Z.to_nat (j - 3))) as [[slot [polled events]] Hentry].
    { lia. }
    conn_step. eapply wp_lift.
    { unfold arr_get. rewrite (proj2 (Z.leb_le _ _)) by lia. exact Hentry. }
    cbv beta iota. conn_step. destruct (Hget j) as [happened Ej]; [unfold zlen; lia|].
    eapply wp_lift; [exact Ej|]. destruct ((_ <=? slot) || _) eqn:Eslot; [by conn_step|]. bools.
    apply list_elem_of_lookup_2 in Hentry. apply poll_clients_slots in Hentry as [Hslot0 Hslot].
    destruct (lookup_lt_is_Some_2 (sv_clients sv3) (Z.to_nat slot)) as [c Hc].
    { rewrite (rn_count _ _ _ Hr3). lia. }
    destruct (running_inv _ _ _ _ _ Hr3 Hc) as [Hi Hset].
    replace slot with (Z.of_nat (Z.to_nat slot)) by lia.
    eapply wp_mono; [apply (at_slot_spec config E _ (λ _ _ _, True) sv3 _ (Z.to_nat slot) c);
      [done|done|apply grows_serve_client|]|].
    - eapply wp_mono; [by apply (serve_client_spec config E HE fuel)|].
      intros [] s' h' [Hi' Hs']. done.
    - by intros [] sv' h' [Hr' _]. }
  intros [] sv3 h3 Hr3. conn_step. eapply (wp_mono _ _ kept).
  { case_if; [by apply process_completions_spec|by conn_step]. }
  intros [] sv4 h4 Hr4. conn_step. split; [done|apply owned_none].
Qed.
End round.

(** ** The main loop *)

Section main.
Context `{EnvironmentLaws} `{InetLaws} `{Sodium} (config : authd_config) (Hconfig : configured config).
Context (E : list event → Prop) (HE : ∀ h, authorised config h → E h).
Context (fuel : nat) (signal_fd listener completion_fd : Z).

Abbreviation kept := (λ _ sv' h', running config sv' h') (only parsing).

(** A step of the loop that is its last one gives a reason of the daemon. *)
Definition last_step (r : Z + Z * list Z) : option (Z * list Z) :=
  match r with inl _ => None | inr ended => Some ended end.

Abbreviation stepped := (λ r sv' h', running config sv' h' ∧ owned (last_step r)) (only parsing).

Lemma check_database_spec now_ms next sv h :
  running config sv h →
  wp E (check_database config now_ms next) stepped sv h.
Proof.
  intros Hr. unfold check_database. case_if; [|conn_step; split; [done|apply owned_none]].
  conn_step. apply wp_service. intros healthy _.
  assert (running config sv (HealthCheck healthy :: h)) as Hr1 by by apply running_event.
  case_if; [conn_step; split; [done|by apply owned_some]|]. conn_step. apply wp_service. intros expired _.
  assert (running config sv (ExpireRegistrations AUTHD_REGISTRATION_EXPIRY_BATCH expired
    :: HealthCheck healthy :: h)) as Hr2 by by apply running_event.
  do 2 (case_if; [conn_step; split; [done|by apply owned_some]|]).
  conn_step. split; [done|apply owned_none].
Qed.

(** No connection survives its deadline. *)
Lemma expire_spec now_ms sv h :
  running config sv h →
  wp E (do* expire_hello_deadlines (cfg_max_clients config) now_ms in
        expire_registration_deadlines (cfg_max_clients config) now_ms)
    (λ _ sv' h', running config sv' h' ∧
       ∀ c d, c ∈ sv_clients sv' → d ∈ deadlines c → now_ms < d) sv h.
Proof.
  clear Hconfig HE. intros Hr. conn_step.
  set (P1 := λ c, 0 <= fd c → state c = FTAP_STATE_CONNECTED → now_ms < hello_deadline_ms c).
  set (P2 := λ c, ∀ d, d ∈ deadlines c → now_ms < d).
  eapply wp_mono.
  - apply (each_client_spec config E _ (λ _, True) P1 sv h); [|apply grows_expire_hello|done|done].
    intros F s h1 Hi Hs _. by apply expire_hello_spec.
  - intros [] sv1 h1 [Hr1 HP1]. eapply wp_mono.
    + apply (each_client_spec config E _ P1 P2 sv1 h1); [|apply grows_expire_registration|done|done].
      intros F s h2 Hi Hs Hhello. eapply wp_mono; [by apply expire_registration_spec|].
      intros [] s' h' (Hi' & Hs' & Hres). split; [done|]. split; [done|]. intros d. unfold deadlines.
      destruct (Z.leb_spec 0 (fd (fst s'))) as [Hfd|Hfd]; cbn [andb]; [|set_solver].
      destruct Hres as [|[Heq Hpend]]; [lia|]. rewrite Heq in *. intros [Hd|Hd]%elem_of_app.
      * destruct (bool_decide _) eqn:Est in Hd; bools; [|set_solver].
        apply list_elem_of_singleton in Hd as ->. by apply Hhello.
      * destruct (ra_active _ && _) eqn:Ereg in Hd; bools; [|set_solver].
        apply list_elem_of_singleton in Hd as ->. by apply Hpend.
    + intros [] sv2 h2 [Hr2 HP2]. split; [done|]. intros c d Hc. by apply HP2.
Qed.

Lemma loop_step_spec next sv h :
  running config sv h →
  wp E (loop_step fuel signal_fd listener completion_fd config next) stepped sv h.
Proof.
  intros Hr. unfold loop_step. conn_step. eapply wp_mono; [by apply (monotonic_running config E)|].
  intros [now_ms|] sv1 h1 (-> & Hr1 & _); [|conn_step; split; [done|by apply owned_some]]. conn_step.
  eapply wp_mono; [by apply check_database_spec|].
  intros [next'|failure] sv2 h2 [Hr2 Hown]; [|by conn_step].
  apply wp_bind. pose proof (expire_spec now_ms sv2 h2 Hr2) as Hexp. apply wp_bind_inv in Hexp.
  eapply wp_mono; [exact Hexp|]. intros [] sv3 h3 Hexp3. clear Hexp. conn_step.
  eapply wp_mono; [exact Hexp3|]. intros [] sv4 h4 [Hr4 _]. clear Hexp3.
  conn_step. daemon_step. conn_step.
  destruct (compute_poll_timeout_spec (sv_clients sv4) (cfg_max_clients config) now_ms (rn_count _ _ _ Hr4))
    as (timeout & Ht & _). eapply wp_lift; [exact Ht|]. conn_step. apply wp_service. intros polled Ha.
  assert (∀ e, running config sv4 (Poll ((signal_fd, POLLIN) :: (listener, POLLIN)
    :: (completion_fd, POLLIN) :: map snd (poll_clients (sv_clients sv4) 0)) e polled :: h4)) as Hr5
    by (intros e; by apply running_event).
  destruct polled as [revents|[]];
    [|conn_step; split; [by apply Hr5|first [apply owned_none|by apply owned_some]]..]. conn_step.
  eapply wp_mono; [apply (serve_round_spec config Hconfig E HE fuel (sv_clients sv4))|].
  - apply Hr4.
  - rewrite (law_poll _ _ _ _ (eq_sym Ha)). cbn. by rewrite length_map.
  - apply Hr5.
  - intros ended sv6 h6 [Hr6 Howned]. conn_step. split; [exact Hr6|]. by destruct ended.
Qed.

Lemma main_loop_spec sv h :
  running config sv h →
  wp E (main_loop fuel signal_fd listener completion_fd config)
    (λ r sv' h', running config sv' h' ∧ owned (Some r)) sv h.
Proof.
  intros Hr. unfold main_loop. conn_step. eapply wp_mono; [by apply (monotonic_running config E)|].
  intros [now_ms|] sv1 h1 (-> & Hr1 & _); [|conn_step; split; [done|by apply owned_some]].
  case_if; [conn_step; split; [done|by apply owned_some]|].
  apply (wp_iterate E (λ _, running config)); [done| |].
  - intros next sv2 h2 Hr2. by apply HE, Hr2.
  - intros next sv2 h2 Hr2. eapply wp_mono; [by apply loop_step_spec|].
    intros [next'|r] sv3 h3 [Hr3 Hown]; [done|by split].
Qed.
End main.

(** ** Start and end *)

Section startup.
Context `{EnvironmentLaws} `{InetLaws} `{Sodium} (config : authd_config) (Hconfig : configured config).
Context (E : list event → Prop) (HE : ∀ h, authorised config h → E h).

(** Before there are connections. *)
Record starting (sv : server) (h : list event) : Prop := {
  st_clients : sv_clients sv = [];
  st_context : context_ok config (sv_context sv);
  st_open : open_sessions h ⊆ ∅;
  st_pending : pending_registrations h ⊆ ∅;
  st_authorised : authorised config h;
}.

Lemma starting_event sv h e :
  starting sv h → acquires e = false → justified config e h → starting sv (e :: h).
Proof.
  intros [Hc Hx Ho Hp Ha] Hq Hj. destruct (quiet_subset e h Hq) as [Ho' Hp'].
  split; try done; [by etrans|by etrans].
Qed.

Lemma starting_context sv h x :
  starting sv h → context_ok config x → starting (set_context x sv) h.
Proof. intros [Hc _ Ho Hp Ha] Hx. by split. Qed.

Lemma wp_and_then (a b : daemon bool) Q sv h :
  wp E a (λ x sv h, if x then wp E b Q sv h else Q false sv h) sv h → wp E (and_then a b) Q sv h.
Proof. intros Ha. unfold and_then. apply wp_bind. eapply wp_mono; [exact Ha|]. intros [] sv' h'; auto. Qed.

Lemma check_policies_spec sv h :
  starting sv h → wp E (check_policies config) (λ _, starting) sv h.
Proof.
  intros Hs. unfold check_policies. conn_step. conn_step. case_if; [by conn_step|].
  pose proof (st_context _ _ Hs) as [Hcfg Hlim].
  unfold authd_registration_limiter_init.
  destruct (negb (authd_registration_limit_policy_is_valid _)); cbv beta iota; cbn [negb]; [by conn_step|].
  conn_step. eapply wp_lift; [reflexivity|]. conn_step. conn_step. conn_step.
  apply starting_context; [done|]. by split.
Qed.

Lemma prepare_dummy_spec fuel sv h :
  starting sv h → wp E (prepare_dummy_password_hash fuel) (λ _, starting) sv h.
Proof.
  intros Hs. unfold prepare_dummy_password_hash. conn_step.
  eapply wp_mono; [apply (random_bytes_spec law_random E (starting sv)); [done| | |]|].
  - intros h1 Hs1. by apply HE, Hs1.
  - intros e h1 (size & answer & ->) Hs1. by apply starting_event.
  - by apply zeros_ok.
  - intros [bytes|] sv1 h1 (-> & Hs1 & _); [|by conn_step]. conn_step. apply wp_service. intros [result hash] _.
    conn_step. conn_step. conn_step. apply starting_context; [by apply starting_event|]. apply Hs.
Qed.

Lemma initial_client_ok id : client_ok (initial_client id).
Proof. change (initial_client id) with (cleared (initial_client id)). apply cleared_ok. Qed.

Lemma array_initialized cs count :
  length cs = Z.to_nat count → 0 <= count <= AUTHD_MAX_CLIENTS →
  ∃ cs', client_array_initialize cs count = Some cs' ∧ length cs' = Z.to_nat count ∧
    ∀ i c, cs' !! i = Some c → c = initial_client (Z.of_nat i + 1).
Proof.
  intros Hlen Hcount. unfold client_array_initialize.
  destruct (for_range_inv (R := Empty_set)
    (λ j cs, length cs = Z.to_nat count ∧
       ∀ i c, Z.of_nat i < j → cs !! i = Some c → c = initial_client (Z.of_nat i + 1)) (λ _, False)
    (λ index cs, let! cs := arr_set cs index (initial_client (u64 (u64 index + 1))) in Some (Continue cs))
    (Z.to_nat count) 0 cs) as [(cs' & -> & Hl & Hall)|([] & _)].
  - split; [done|]. lia.
  - intros j l Hj [Hl Hall]. left.
    replace j with (Z.of_nat (Z.to_nat j)) by lia. rewrite arr_set_nat by lia. run_simpl. eexists. split; [done|].
    assert (u64 (u64 (Z.of_nat (Z.to_nat j)) + 1) = j + 1) as ->.
    { unfold u64, AUTHD_MAX_CLIENTS in *. rewrite (wrap_fits 64 (Z.of_nat _)) by (split; lia).
      rewrite wrap_fits by (split; lia). lia. }
    split; [by rewrite length_insert|]. intros i c Hi Hc.
    destruct (decide (i = Z.to_nat j)) as [->|Hne].
    + rewrite list_lookup_insert_eq in Hc by lia. injection Hc as <-. f_equal. lia.
    + rewrite list_lookup_insert_ne in Hc by done. apply Hall; [lia|done].
  - run_simpl. exists cs'. split; [done|]. split; [done|]. intros i c Hc. apply Hall; [|done].
    apply lookup_lt_Some in Hc. lia.
Qed.

Lemma allocate_clients_spec sv h :
  starting sv h →
  wp E (allocate_clients config)
    (λ b sv' h', if b then running config sv' h' else starting sv' h') sv h.
Proof.
  intros Hs. unfold allocate_clients. conn_step. apply wp_service. intros allocated _.
  assert (starting sv (Startup (CALLOC (cfg_max_clients config)) allocated :: h)) as Hs1
    by by apply starting_event.
  destruct allocated; cbn [negb]; [|by conn_step]. conn_step.
  assert (0 <= cfg_max_clients config <= AUTHD_MAX_CLIENTS) as Hn.
  { destruct Hconfig as [Hvalid _]. unfold config_is_valid in Hvalid. bools.
    unfold AUTHD_MIN_CLIENTS in *. lia. }
  destruct (array_initialized (replicate (Z.to_nat (cfg_max_clients config)) zero_client)
    (cfg_max_clients config)) as (cs & Hcs & Hlen & Hall); [by rewrite length_replicate|done|].
  eapply wp_lift; [exact Hcs|]. conn_step. conn_step. conn_step.
  destruct Hs1 as [_ Hx Ho Hp Ha]. split; [done| |done| | |done].
  - intros i c Hc. cbn [sv_clients set_clients] in Hc. rewrite (Hall i c Hc).
    split; [apply initial_client_ok|done|by split|]. intros Hfd. cbn in Hfd. lia.
  - etrans; [exact Ho|]. apply empty_subseteq.
  - etrans; [exact Hp|]. apply empty_subseteq.
Qed.

(** The daemon before its main loop. *)
Definition prepared (b : bool) (sv : server) (h : list event) : Prop :=
  running config sv h ∨ b = false ∧ starting sv h.

Lemma startup_starting step sv h :
  starting sv h → wp E (startup step) (λ _, starting) sv h.
Proof. intros Hs. apply wp_service. intros answer _. by apply starting_event. Qed.

Lemma startup_running step sv h :
  running config sv h → wp E (startup step) (λ _, running config) sv h.
Proof. intros Hs. apply wp_service. intros answer _. by apply running_event. Qed.

Lemma prepare_server_spec fuel sv h :
  starting sv h → wp E (prepare_server fuel config) prepared sv h.
Proof.
  intros Hs. assert (∀ (b : bool) sv h, starting sv h → b = false → prepared b sv h) as Hno by (by right).
  unfold prepare_server.
  apply wp_and_then. eapply wp_mono; [by apply check_policies_spec|]. intros [] sv1 h1 Hs1; [|by apply Hno].
  apply wp_and_then. eapply wp_mono; [by apply prepare_dummy_spec|]. intros [] sv2 h2 Hs2; [|by apply Hno].
  apply wp_and_then. eapply wp_mono; [by apply startup_starting|]. intros [] sv3 h3 Hs3; [|by apply Hno].
  apply wp_and_then. conn_step. apply wp_service. intros expired _. conn_step.
  assert (starting sv3 (ExpireRegistrations AUTHD_REGISTRATION_EXPIRY_BATCH expired :: h3)) as Hs4
    by by apply starting_event.
  case_if; [|by apply Hno].
  apply wp_and_then. eapply wp_mono; [by apply allocate_clients_spec|]. intros [] sv5 h5 Hs5; [|by apply Hno].
  apply wp_and_then. conn_step. eapply wp_mono; [by apply startup_running|]. intros poll_fds sv6 h6 Hs6.
  conn_step. eapply wp_mono; [by apply startup_running|]. intros poll_slots sv7 h7 Hs7. conn_step.
  case_if; [|by left].
  apply wp_and_then. eapply wp_mono; [by apply startup_running|]. intros [] sv8 h8 Hs8; [|by left].
  eapply wp_mono; [by apply startup_running|]. intros b sv9 h9 Hs9. by left.
Qed.

(** *** The end *)

(** The daemon holds nothing in the database any more. *)
Definition ended (h : list event) : Prop :=
  open_sessions h = ∅ ∧ pending_registrations h = ∅ ∧ authorised config h.

Lemma running_ended sv h :
  running config sv h → (∀ c, c ∈ sv_clients sv → fd c < 0) → ended h.
Proof.
  intros Hr Hfree.
  assert (∀ c, c ∈ sv_clients sv → held_session c = ∅ ∧ held_registration c = ∅) as Hempty.
  { intros c Hc. pose proof Hc as [i Hi]%list_elem_of_lookup_1.
    destruct (free_slot c (sl_client _ _ _ _ (rn_slots _ _ _ Hr i c Hi)) (Hfree c Hc)) as [<- _].
    by split. }
  pose proof (rn_open _ _ _ Hr) as Ho. pose proof (rn_pending _ _ _ Hr) as Hp.
  rewrite held_empty in Ho by apply Hempty. rewrite held_empty in Hp by apply Hempty.
  split_and!; [set_solver|set_solver|apply Hr].
Qed.

Lemma release_server_spec reason b sv h :
  prepared b sv h → daemon_reason (cstr reason) = true →
  wp E (release_server config reason) (λ _ _ h', ended h') sv h.
Proof.
  intros Hprep Hown. unfold release_server. conn_step. daemon_step. conn_step.
  assert (∀ sv h, ended h →
    wp E (let* sv := get in
          let* limiter := lift (deref (authd_registration_limiter_clear
            (Some (ctx_registration_limiter (sv_context sv))))) in
          modify (set_context (ServerContext (ctx_config (sv_context sv)) (ctx_throttle_policy (sv_context sv))
            limiter (zeros (AUTHD_DATABASE_PASSWORD_HASH_MAX + 1)))))
      (λ _ _ h', ended h') sv h) as Hrest.
  { intros sv' h' He. conn_step. conn_step. conn_step. eapply wp_lift; [reflexivity|]. by conn_step. }
  eapply (wp_mono _ _ (λ _ _ h', ended h')); [|intros [] sv' h' He; by apply Hrest].
  destruct Hprep as [Hr|[_ [Hc Hx Ho Hp Ha]]].
  - destruct (sv_clients sv) as [|c0 cs] eqn:Ecs.
    + conn_step. apply (running_ended sv); [done|]. rewrite Ecs. set_solver.
    + eapply wp_mono.
      * apply (each_client_spec config E _ (λ _, True) (λ c, fd c < 0)); [|apply grows_reset|exact Hr|done].
        intros F s h1 Hi _ _.
        eapply wp_mono; [apply (reset_spec config E F); [done|by apply own_reason]|].
        intros [] s' h' (? & ? & ?). done.
      * intros [] sv' h' [Hr' Hfree]. by eapply running_ended.
  - rewrite Hc. conn_step. split_and!; [set_solver|set_solver|done].
Qed.

Lemma authd_server_run_spec fuel signal_fd listener completion_fd database_open sv :
  wp E (authd_server_run fuel signal_fd listener completion_fd (Some config) database_open)
    (λ _ _ h', ended h') sv [].
Proof.
  unfold authd_server_run. case_if; [by conn_step|]. conn_step. conn_step.
  assert (starting (Server [] (new_context config)) []) as Hs.
  { split; [done| |done|done|done]. split; [done|]. vm_compute. reflexivity. }
  conn_step. eapply wp_mono; [by apply prepare_server_spec|]. intros listening sv1 h1 Hprep. conn_step.
  eapply (wp_mono _ _ (λ r sv' h', prepared listening sv' h' ∧ owned (Some r))).
  { destruct listening; [|conn_step; split; [done|by apply owned_some]]. destruct Hprep as [Hr|[? _]]; [|done].
    eapply wp_mono; [by apply (main_loop_spec config Hconfig E HE)|].
    intros r sv' h' [Hr' Hown]. split; [by left|done]. }
  intros [result reason] sv2 h2 [Hprep2 Hown]. conn_step.
  eapply wp_mono; [eapply release_server_spec; [done|exact (Hown _ eq_refl)]|]. intros [] sv3 h3 (Ho & Hp & Ha). conn_step.
  destruct listening; [|conn_step; conn_step; done]. apply wp_service. intros [] _. by conn_step.
Qed.
End startup.

(** ** Properties *)

(** C1: Whatever the database, the workers, the system and the peers answer,
    [authd_server_run] is never stuck, and at any time every call it has made
    is authorised by what happened before: a session is only opened after the
    password of an account that may log in was verified, a registration only
    begun with a hash of a long enough password, and only what was opened or
    begun is closed or aborted. When it ends, nothing is left that it did not try to
    give back: the database has confirmed the end of each session, or the daemon has
    asked for it for a reason of its own or a second time, so that a failed request
    of the peer is repeated; and each registration is committed, its abort is
    confirmed, or the daemon has asked for the abort itself. *)
Theorem authd_server_run_correct `{EnvironmentLaws} `{InetLaws} `{Sodium}
    config fuel signal_fd listener completion_fd database_open sv :
  0 <= cfg_allowed_uid_count config <= zlen (cfg_allowed_uids config) →
  wp (authorised config)
    (authd_server_run fuel signal_fd listener completion_fd (Some config) database_open)
    (λ _ _ h, open_sessions h = ∅ ∧ pending_registrations h = ∅ ∧ authorised config h) sv [].
Proof.
  intros Hn. destruct (config_is_valid config) eqn:Hvalid.
  - apply authd_server_run_spec; [by split|done].
  - unfold authd_server_run. rewrite Hvalid, orb_true_r. by apply wp_ret.
Qed.

(** C2: One round of the main loop is never stuck and keeps the invariant of the
    daemon: every slot has its number, is free and empty or has an open socket
    of an allowed peer with a well-formed state that waits for input or has
    output to send, and whatever is open in the database belongs to a slot. *)
Theorem loop_step_correct `{EnvironmentLaws} `{InetLaws} `{Sodium}
    config fuel signal_fd listener completion_fd next_database_health_ms sv h :
  configured config → running config sv h →
  wp (authorised config)
    (loop_step fuel signal_fd listener completion_fd config next_database_health_ms)
    (λ _, running config) sv h.
Proof.
  intros Hc Hr. eapply wp_mono; [by apply loop_step_spec|]. by intros r sv' h' [Hr' _].
Qed.

(** [compute_poll_timeout] never waits past a deadline of an open connection
    nor longer than a second, and if it waits less, a deadline is due at the end
    of the wait. *)
Theorem compute_poll_timeout_correct cs count now_ms :
  length cs = Z.to_nat count →
  ∃ timeout, compute_poll_timeout cs count now_ms = Some timeout ∧
    0 <= timeout <= AUTHD_POLL_MAXIMUM_MS ∧
    (∀ d, d ∈ cs ≫= deadlines → d < UINT64_MAX → timeout <= Z.max 0 (d - now_ms)) ∧
    (timeout < AUTHD_POLL_MAXIMUM_MS →
       ∃ d, d ∈ cs ≫= deadlines ∧ timeout = Z.max 0 (d - now_ms)).
Proof. apply compute_poll_timeout_spec. Qed.

(** C29: After [expire_hello_deadlines] and [expire_registration_deadlines] no open
    connection is past a deadline, and the invariant of the daemon holds: what
    an expired connection held has been given back. *)
Theorem expire_deadlines_correct `{EnvironmentLaws} `{InetLaws} config now_ms sv h :
  running config sv h →
  wp (λ _, False)
    (do* expire_hello_deadlines (cfg_max_clients config) now_ms in
     expire_registration_deadlines (cfg_max_clients config) now_ms)
    (λ _ sv' h', running config sv' h' ∧
       ∀ c d, c ∈ sv_clients sv' → d ∈ deadlines c → now_ms < d) sv h.
Proof. intros Hr. by apply expire_spec. Qed.

(** C28: An iteration of [accept_clients] puts a connection into a free slot only
    if its peer is allowed and memory is left, with a new generation and its
    deadline; any other connection is closed at once, and no other slot changes. *)
Theorem accept_step_correct `{EnvironmentLaws} config now_ms sv h :
  configured config → running config sv h →
  wp (λ _, False) (accept_step config (cfg_max_clients config) now_ms)
    (λ r sv' h', accept_result r ∧ running config sv' h' ∧
       (accepted config sv sv' h h' now_ms ∨ not_accepted config sv sv' h h')) sv h.
Proof. intros Hc Hr. by apply accept_step_spec. Qed.

(** The connection that asked for the work still waits for it. *)
Definition awaited (completion : authd_worker_completion) (sv : server) : Prop :=
  let token := wc_token completion in
  ∃ i c, sv_clients sv !! i = Some c ∧ tk_connection_id token = Z.of_nat i + 1 ∧ 0 <= fd c ∧
    connection_generation c = tk_connection_generation token ∧
    (wc_job_type completion = AUTHD_WORKER_JOB_VERIFY_PASSWORD ∧ la_active (login c) = true ∧
       la_request_id (login c) = tk_request_id token ∧
       la_worker_job_id (login c) = wc_job_id completion ∨
     wc_job_type completion = AUTHD_WORKER_JOB_GENERATE_PASSWORD_HASH ∧
       ra_active (registration c) = true ∧ ra_database_pending (registration c) = false ∧
       ra_request_id (registration c) = tk_request_id token ∧
       ra_worker_job_id (registration c) = wc_job_id completion).

(** C30: A completion that no connection awaits any more, because its connection was
    closed, its slot reused or its request ended, changes nothing. *)
Theorem stale_completion_ignored `{EnvironmentLaws} `{InetLaws} config fuel sv h completion :
  running config sv h → env_take_completion h = Some completion → ¬ awaited completion sv →
  completion_step fuel (cfg_max_clients config) sv h
    = Some (Done None sv (TakeCompletion (Some completion) :: h)).
Proof.
  intros Hr Ht Hno. destruct (law_completion h completion Ht) as [_ [Hid0 _]].
  unfold completion_step, bind, authd_worker_pool_take_completion, service. rewrite Ht. run_simpl.
  set (id := tk_connection_id (wc_token completion)) in *.
  destruct ((id =? 0) || _) eqn:Eid; [done|]. bools.
  destruct (lookup_lt_is_Some_2 (sv_clients sv) (Z.to_nat (id - 1))) as [c Hc].
  { rewrite (rn_count _ _ _ Hr). lia. }
  unfold at_slot, focus, arr_get. rewrite (proj2 (Z.leb_le _ _)) by lia. rewrite Hc. run_simpl.
  assert (complete_client fuel completion (c, sv_context sv) (TakeCompletion (Some completion) :: h)
    = Some (Done tt (c, sv_context sv) (TakeCompletion (Some completion) :: h))) as Hsame.
  { unfold complete_client, bind, client, gets. cbn [fst].
    destruct ((0 <=? fd c) && (connection_generation c =? _)) eqn:Eopen; [|done]. bools.
    destruct (bool_decide (wc_job_type completion = AUTHD_WORKER_JOB_VERIFY_PASSWORD) && _ && _ && _) eqn:Elogin.
    - bools. exfalso. apply Hno. exists (Z.to_nat (id - 1)), c. fold id. split_and!; try done; [lia|by left].
    - destruct (bool_decide (wc_job_type completion = AUTHD_WORKER_JOB_GENERATE_PASSWORD_HASH)
        && _ && _ && _ && _) eqn:Ereg; [|done].
      bools. exfalso. apply Hno. exists (Z.to_nat (id - 1)), c. fold id. split_and!; try done; [lia|by right]. }
  rewrite Hsame. run_simpl. cbn [fst snd]. rewrite list_insert_id by done. by destruct sv.
Qed.

(** The daemon stops when it is told to: once [poll] reports the signal pipe
    and it delivers a SIGINT or SIGTERM, the round ends the main loop with
    result 0 before it touches a connection. *)
Theorem shutdown_on_signal `{Environment} `{Inet} config fuel entries revents sv h signalled bytes :
  arr_get revents 0 = Some signalled → has signalled POLLIN = true →
  (3 <= length revents)%nat →
  env_signal h = inl bytes → SIGINT ∈ bytes ∨ SIGTERM ∈ bytes →
  env_signal (SignalRead (inl bytes) :: h) = inr EAGAIN → (2 <= fuel)%nat →
  serve_round fuel config entries revents sv h
    = Some (Done (Some (0, lit "authd_shutdown")) sv
             (SignalRead (inr EAGAIN) :: SignalRead (inl bytes) :: h)).
Proof.
  intros Hfirst Hin Hlen Hb Hsig Hdrained Hfuel. destruct fuel as [|[|fuel]]; [lia..|].
  destruct revents as [|r0 [|r1 [|r2 revents]]]; [cbn in Hlen; lia..|]. cbn in Hfirst. injection Hfirst as ->.
  unfold serve_round, bind, lift. change (arr_get (signalled :: r1 :: r2 :: revents) 0) with (Some signalled).
  change (arr_get (signalled :: r1 :: r2 :: revents) 1) with (Some r1).
  change (arr_get (signalled :: r1 :: r2 :: revents) 2) with (Some r2). run_simpl. rewrite Hin.
  unfold drain_signal_pipe. cbn [iterate]. unfold bind, drain_step, signal_read, service, bind.
  rewrite Hb. assert (existsb (λ b, (b =? SIGINT) || (b =? SIGTERM)) bytes = true) as Hstop.
  { apply existsb_exists. destruct Hsig as [Hs|Hs]; [exists SIGINT|exists SIGTERM];
      (split; [by apply list_elem_of_In|done]). }
  assert (0 <? zlen bytes = true) as Hne.
  { apply Z.ltb_lt. destruct bytes; [by destruct Hsig as [Hs|Hs]; inversion Hs|]. rewrite zlen_cons.
    pose proof (zlen_nonneg bytes). lia. }
  rewrite Hne. run_simpl. rewrite Hstop. unfold ret. run_simpl. cbn [orb]. rewrite Hdrained. done.
Qed.

(** ** A sample session

    A peer connects, says HELLO and logs in; then the daemon gets a SIGTERM. *)

Definition example_hello : list field :=
  [Field FTAP_FIELD_CLIENT_NAME 0 (lit "fortytwo-login"); Field FTAP_FIELD_CLIENT_VERSION 0 (lit "1.0");
   Field FTAP_FIELD_SUPPORTED_MAJOR 0 [0; 1]; Field FTAP_FIELD_SUPPORTED_MINOR 0 [0; 3]].

Definition sample_hello_frame : list Z :=
  header_bytes (FrameHeader FTAP_VERSION_MAJOR FTAP_VERSION_MINOR FTAP_MSG_HELLO 0
    (zlen (payload_of example_hello)) 1) ++ payload_of example_hello.

Definition count_events (p : event → bool) (h : list event) : nat := length (filter (λ e, Is_true (p e)) h).

Definition is_poll (e : event) : bool := match e with Poll _ _ _ => true | _ => false end.
Definition is_input (e : event) : bool := match e with Recv _ _ (inl _) => true | _ => false end.
Definition is_completion (e : event) : bool := match e with TakeCompletion (Some _) => true | _ => false end.

Definition session_sample : sample := Sample AUTHD_DATABASE_LOOKUP_OK
  (λ h, if existsb is_completion h then None else Some sample_completion)
  (λ h, nth (count_events is_input h) [sample_hello_frame; sample_login_frame] [])
  (λ h, nth (count_events is_poll h)
     [[0; POLLIN]; [0; 0; 0; POLLIN]; [0; 0; 0; POLLOUT]; [0; 0; 0; POLLIN]; [0; 0; POLLIN]] [POLLIN]).

Definition session_environment : Environment := sample_environment session_sample.

Lemma session_laws : @EnvironmentLaws session_environment.
Proof.
  apply sample_laws.
  - intros h completion. cbn. case_if; [done|]. intros [= <-]. split; [by apply zeros_ok|].
    split; vm_compute; congruence.
  - intros h. unfold session_sample. cbn [sm_input].
    destruct (count_events is_input h) as [|[|[|n]]]; cbn [nth]; try done;
      apply bytes_ok_decide; vm_compute; reflexivity.
Qed.

Definition opens_session (e : event) : bool :=
  match e with CreatePasswordSession _ _ _ _ _ (AUTHD_DATABASE_WRITE_OK, _) => true | _ => false end.

Lemma authd_server_run_correct_witness :
  0 <= cfg_allowed_uid_count sample_config <= zlen (cfg_allowed_uids sample_config) ∧
  ∃ sv h, @authd_server_run session_environment dotted_quad sample_sodium 9 3 4 6 (Some sample_config) true
      (Server [] sample_context) [] = Some (Done 0 sv h) ∧
    existsb opens_session h = true ∧ open_sessions h = ∅ ∧ authorised sample_config h.
Proof.
  split; [split; vm_compute; congruence|].
  assert (match @authd_server_run session_environment dotted_quad sample_sodium 9 3 4 6 (Some sample_config)
      true (Server [] sample_context) [] with
    | Some (Done r _ h) => Some (r, existsb opens_session h) | _ => None end = Some (0, true)) as Hrun
    by (vm_compute; reflexivity).
  pose proof (@authd_server_run_correct session_environment session_laws dotted_quad _ sample_sodium
    sample_config 9 3 4 6 true (Server [] sample_context) ltac:(split; vm_compute; congruence)) as Hwp.
  apply wp_outcome in Hwp.
  destruct (@authd_server_run session_environment dotted_quad sample_sodium 9 3 4 6 (Some sample_config)
    true (Server [] sample_context) []) as [[r sv h|]|]; [|discriminate..].
  injection Hrun as -> Hopen. destruct Hwp as (Ho & _ & Ha). exists sv, h.
  split; [reflexivity|]. split; [exact Hopen|]. split; [exact Ho|exact Ha].
Defined.

(** A connection that has said HELLO, and three free slots. *)
Definition sample_server : server :=
  Server [sample_client; initial_client 2; initial_client 3; initial_client 4] sample_context.

Lemma sample_configured : configured sample_config.
Proof. split; [reflexivity|split; vm_compute; congruence]. Qed.

Lemma sample_slot : slot_ok sample_config 0 sample_client [].
Proof.
  split; [exact sample_client_ok|reflexivity|split; discriminate|]. intros _. split.
  - right. left. vm_compute. reflexivity.
  - split; [vm_compute; reflexivity|]. left.
Qed.

Lemma initial_slot i h : slot_ok sample_config i (initial_client (Z.of_nat i + 1)) h.
Proof.
  split; [apply initial_client_ok|done|by split|]. intros Hfd. cbn in Hfd. lia.
Qed.

Lemma sample_running : running sample_config sample_server [].
Proof.
  split; [reflexivity| |by split|apply empty_subseteq|apply empty_subseteq|exact I].
  intros [|[|[|[|i]]]] c Hc; cbn in Hc; try discriminate; injection Hc as <-.
  - exact sample_slot.
  - exact (initial_slot 1 []).
  - exact (initial_slot 2 []).
  - exact (initial_slot 3 []).
Qed.

Lemma loop_step_correct_witness :
  configured sample_config ∧ running sample_config sample_server [] ∧
  ∃ sv h, @loop_step session_environment dotted_quad 9 3 4 6 sample_config 200000 sample_server []
      = Some (Done (inl 200000) sv h) ∧ running sample_config sv h.
Proof.
  split; [exact sample_configured|]. split; [exact sample_running|].
  assert (match @loop_step session_environment dotted_quad 9 3 4 6 sample_config 200000 sample_server [] with
    | Some (Done r _ _) => Some r | _ => None end = Some (inl 200000)) as Hrun by (vm_compute; reflexivity).
  pose proof (@loop_step_correct session_environment session_laws dotted_quad _ sample_sodium sample_config
    9 3 4 6 200000 sample_server [] sample_configured sample_running) as Hwp. apply wp_outcome in Hwp.
  destruct (@loop_step session_environment dotted_quad 9 3 4 6 sample_config 200000 sample_server [])
    as [[r sv h|]|]; [|discriminate..].
  injection Hrun as ->. exists sv, h. split; [reflexivity|exact Hwp].
Defined.

(** A connection that has not said HELLO. *)
Definition sample_silent : authd_client :=
  set_hello_deadline_ms 5000 (set_state FTAP_STATE_CONNECTED sample_client).

Lemma compute_poll_timeout_correct_witness :
  length [sample_silent; initial_client 2] = Z.to_nat 2 ∧
  compute_poll_timeout [sample_silent; initial_client 2] 2 4300 = Some 700.
Proof.
  split; [reflexivity|].
  destruct (compute_poll_timeout_correct [sample_silent; initial_client 2] 2 4300 eq_refl)
    as (timeout & E & Hb & _ & Hdue). rewrite E. f_equal.
  assert ([sample_silent; initial_client 2] ≫= deadlines = [5000]) as Hd by (vm_compute; reflexivity).
  rewrite Hd in Hdue.
  assert (compute_poll_timeout [sample_silent; initial_client 2] 2 4300 = Some 700) as Hrun
    by (vm_compute; reflexivity).
  rewrite E in Hrun. injection Hrun as ->. reflexivity.
Defined.

Lemma expire_deadlines_correct_witness :
  running sample_config sample_server [] ∧
  ∃ sv h, (do* @expire_hello_deadlines session_environment (cfg_max_clients sample_config) 200000 in
    @expire_registration_deadlines session_environment (cfg_max_clients sample_config) 200000)
      sample_server [] = Some (Done tt sv h) ∧ running sample_config sv h.
Proof.
  split; [exact sample_running|].
  destruct (wp_ends _ _ _ _ (@expire_deadlines_correct session_environment session_laws dotted_quad _
    sample_config 200000 sample_server [] sample_running)) as ([] & sv & h & E & Hr & _).
  exists sv, h. split; [exact E|exact Hr].
Defined.

Lemma accept_step_correct_witness :
  configured sample_config ∧ running sample_config sample_server [] ∧
  ∃ sv h, @accept_step session_environment sample_config 4 100000 sample_server []
      = Some (Done None sv h) ∧ running sample_config sv h ∧
    (accepted sample_config sample_server sv [] h 100000 ∨ not_accepted sample_config sample_server sv [] h).
Proof.
  split; [exact sample_configured|]. split; [exact sample_running|].
  assert (match @accept_step session_environment sample_config 4 100000 sample_server [] with
    | Some (Done None _ _) => true | _ => false end = true) as Hrun by (vm_compute; reflexivity).
  pose proof (@accept_step_correct session_environment session_laws sample_config 100000 sample_server []
    sample_configured sample_running) as Hwp. apply wp_outcome in Hwp.
  change (cfg_max_clients sample_config) with 4 in Hwp.
  destruct (@accept_step session_environment sample_config 4 100000 sample_server []) as [[[r|] sv h|]|];
    [discriminate| |discriminate..].
  destruct Hwp as (_ & Hr & Ha). exists sv, h. split; [reflexivity|]. split; [exact Hr|exact Ha].
Defined.

Lemma stale_completion_ignored_witness :
  running sample_config sample_server [] ∧
  @env_take_completion session_environment [] = Some sample_completion ∧
  ¬ awaited sample_completion sample_server ∧
  @completion_step session_environment 9 4 sample_server []
    = Some (Done None sample_server [TakeCompletion (Some sample_completion)]).
Proof.
  assert (¬ awaited sample_completion sample_server) as Hno.
  { intros (i & c & Hc & Hid & _ & _ & Hw). destruct i as [|[|[|[|i]]]]; cbn in Hc; try discriminate;
      injection Hc as <-; destruct Hw as [(_ & Ha & _)|(_ & Ha & _)]; discriminate. }
  split; [exact sample_running|]. split; [reflexivity|]. split; [exact Hno|].
  exact (@stale_completion_ignored session_environment session_laws dotted_quad _ sample_config 9 sample_server []
    sample_completion sample_running eq_refl Hno).
Defined.

Lemma shutdown_on_signal_witness :
  arr_get [POLLIN; 0; 0] 0 = Some POLLIN ∧ has POLLIN POLLIN = true ∧
  @env_signal session_environment [] = inl [SIGTERM] ∧
  @serve_round session_environment dotted_quad 2 sample_config [] [POLLIN; 0; 0] sample_server []
    = Some (Done (Some (0, lit "authd_shutdown")) sample_server
             [SignalRead (inr EAGAIN); SignalRead (inl [SIGTERM])]).
Proof.
  split; [reflexivity|]. split; [reflexivity|]. split; [reflexivity|].
  apply (@shutdown_on_signal session_environment dotted_quad sample_config 2 [] [POLLIN; 0; 0] sample_server []
    POLLIN [SIGTERM]); try reflexivity. right. left.
Defined.
