(* ===== verification/WorkerPool.v ===== *)
(** * The password workers

    [fortytwo-auth/src/authd_worker_pool.c]: the event loop submits jobs and takes
    completions, threads hash the passwords. What a thread does under the mutex
    is one function of the state of the pool and says whom it wakes; the
    interleavings of the threads and the event loop are the step relation [step],
    in which a thread that finds no job sleeps on the condition variable until a
    signal, a broadcast or a spurious wakeup, and the theorems hold for every
    reachable state. The queues are lists; that the linked lists of the
    code are first-in first-out queues is shown in the section [queue]. *)

From S2P Require Import Prelude Protocol Words Utf8 Codec Inet Schema Identity Throttle Limiter Program Services Client Requests Connection Password.

(** ** Linked queues *)

Section queue.
Context {J : Type}.

(** A job in memory with its [next] pointer. *)
Record node := Node {
  nd_job : J;
  nd_next : option positive;
}.

Abbreviation store := (gmap positive node) (only parsing).

(** The popped job, and [*head], [*tail] and the memory afterwards. *)
Definition queue_pop (head tail : option positive) (memory : store)
    : run (option positive * option positive * option positive * store) :=
  match head with
  | None => Some (None, head, tail, memory)
  | Some job =>
      let! n := memory !! job in
      let head := nd_next n in
      let tail := if is_null head then None else tail in
      Some (Some job, head, tail, <[job := Node (nd_job n) None]> memory)
  end.

Definition queue_push (head tail : option positive) (job : positive) (memory : store)
    : run (option positive * option positive * store) :=
  let! n := memory !! job in
  let memory := <[job := Node (nd_job n) None]> memory in
  match tail with
  | None => Some (Some job, Some job, memory)
  | Some last =>
      let! n := memory !! last in
      Some (head, Some job, <[last := Node (nd_job n) (Some job)]> memory)
  end.

(** The queue from [head] on consists of these jobs. *)
Fixpoint linked (memory : store) (head : option positive) (jobs : list positive) : Prop :=
  match jobs with
  | [] => head = None
  | job :: jobs => head = Some job ∧ ∃ n, memory !! job = Some n ∧ linked memory (nd_next n) jobs
  end.

Definition is_queue (memory : store) (head tail : option positive) (jobs : list positive) : Prop :=
  linked memory head jobs ∧ tail = last jobs ∧ NoDup jobs.
End queue.
Arguments node : clear implicits.

(** ** Jobs *)

Record authd_worker_job := WorkerJob {
  jb_job_id : Z;
  jb_token : authd_worker_token;
  jb_job_type : authd_worker_job_type;
  jb_encoded_hash : list Z;
  jb_password : list Z;
  jb_password_length : Z;
  jb_password_result : authd_password_result;
  jb_needs_rehash : bool;
}.

Definition set_job_id v (j : authd_worker_job) : authd_worker_job :=
  WorkerJob v (jb_token j) (jb_job_type j) (jb_encoded_hash j) (jb_password j) (jb_password_length j)
    (jb_password_result j) (jb_needs_rehash j).

(** The fields that a worker writes. *)
Definition set_outcome (hash password : list Z) (result : authd_password_result) (needs_rehash : bool)
    (j : authd_worker_job) : authd_worker_job :=
  WorkerJob (jb_job_id j) (jb_token j) (jb_job_type j) hash password (jb_password_length j) result
    needs_rehash.

(** [calloc] of a job. *)
Definition zero_job : authd_worker_job :=
  WorkerJob 0 (WorkerToken 0 0 0) AUTHD_WORKER_JOB_VERIFY_PASSWORD
    (zeros (AUTHD_WORKER_HASH_MAX_BYTES + 1)) (zeros AUTHD_PASSWORD_MAX_BUFFER_BYTES) 0
    AUTHD_PASSWORD_OK false.

Definition execute_job `{Sodium} (policy : authd_password_policy) (j : authd_worker_job)
    : run authd_worker_job :=
  match jb_job_type j with
  | AUTHD_WORKER_JOB_VERIFY_PASSWORD =>
      let! (result, password, needs_rehash) :=
        answer_of (authd_password_verify (Some policy) (Some (jb_encoded_hash j)) (Some (jb_password j))
                     (jb_password_length j) (zlen (jb_password j)) (Some (jb_needs_rehash j))) in
      let! password := deref password in
      let! needs_rehash := deref needs_rehash in
      let! hash := wipe (jb_encoded_hash j) 0 (zlen (jb_encoded_hash j)) in
      Some (set_outcome hash password result needs_rehash j)
  | AUTHD_WORKER_JOB_GENERATE_PASSWORD_HASH =>
      let! (result, password, hash) :=
        answer_of (authd_password_generate (Some policy) (Some (jb_password j)) (jb_password_length j)
                     (zlen (jb_password j)) (Some (jb_encoded_hash j)) (zlen (jb_encoded_hash j))) in
      let! password := deref password in
      let! hash := deref hash in
      Some (set_outcome hash password result false j)
  end.

(** ** The pool *)

Record authd_worker_pool := WorkerPool {
  wp_policy : authd_password_policy;
  wp_capacity : Z;
  wp_outstanding : Z;
  wp_next_job_id : Z;
  wp_pending : list authd_worker_job;
  wp_completed : list authd_worker_job;
  (** The counter of the [eventfd]. *)
  wp_completion_fd : Z;
  wp_stopping : bool;
}.

Definition set_outstanding v (p : authd_worker_pool) : authd_worker_pool :=
  WorkerPool (wp_policy p) (wp_capacity p) v (wp_next_job_id p) (wp_pending p) (wp_completed p)
    (wp_completion_fd p) (wp_stopping p).
Definition set_next_job_id v (p : authd_worker_pool) : authd_worker_pool :=
  WorkerPool (wp_policy p) (wp_capacity p) (wp_outstanding p) v (wp_pending p) (wp_completed p)
    (wp_completion_fd p) (wp_stopping p).
Definition set_pending v (p : authd_worker_pool) : authd_worker_pool :=
  WorkerPool (wp_policy p) (wp_capacity p) (wp_outstanding p) (wp_next_job_id p) v (wp_completed p)
    (wp_completion_fd p) (wp_stopping p).
Definition set_completed v (p : authd_worker_pool) : authd_worker_pool :=
  WorkerPool (wp_policy p) (wp_capacity p) (wp_outstanding p) (wp_next_job_id p) (wp_pending p) v
    (wp_completion_fd p) (wp_stopping p).
Definition set_completion_fd v (p : authd_worker_pool) : authd_worker_pool :=
  WorkerPool (wp_policy p) (wp_capacity p) (wp_outstanding p) (wp_next_job_id p) (wp_pending p)
    (wp_completed p) v (wp_stopping p).
Definition set_stopping (p : authd_worker_pool) : authd_worker_pool :=
  WorkerPool (wp_policy p) (wp_capacity p) (wp_outstanding p) (wp_next_job_id p) (wp_pending p)
    (wp_completed p) (wp_completion_fd p) true.

(** [if (pool->outstanding > 0) --pool->outstanding;] *)
Definition release_outstanding (p : authd_worker_pool) : authd_worker_pool :=
  if 0 <? wp_outstanding p then set_outstanding (wp_outstanding p - 1) p else p.

(** The identifier, and the pool afterwards. *)
Definition next_job_id_locked (p : authd_worker_pool) : Z * authd_worker_pool :=
  let next := u64 (wp_next_job_id p + 1) in
  (wp_next_job_id p, set_next_job_id (if next =? 0 then 1 else next) p).

(** What a critical section does to [pending_condition]: nothing,
    [pthread_cond_signal] or [pthread_cond_broadcast]. *)
Inductive wakeup := Silent | Signal | Broadcast.

(** *** Submission *)

(** The checks of [submit_job]; the answer is the length of the hash. *)
Definition check_submission (job_type : authd_worker_job_type) (encoded_hash password : ptr)
    (password_length password_capacity : Z) : run (option Z) :=
  if is_null password || (password_length =? 0) || (AUTHD_PASSWORD_MAX_BYTES <? password_length)
     || (password_capacity <? password_length)
     || (AUTHD_PASSWORD_MAX_BUFFER_BYTES <? password_capacity)
  then Some None
  else
    match job_type, encoded_hash with
    | AUTHD_WORKER_JOB_VERIFY_PASSWORD, None => Some None
    | AUTHD_WORKER_JOB_VERIFY_PASSWORD, Some hash =>
        let! hash_length := strnlen hash (Z.to_nat (AUTHD_WORKER_HASH_MAX_BYTES + 1)) in
        Some (if (hash_length =? 0) || (AUTHD_WORKER_HASH_MAX_BYTES <? hash_length)
              then None else Some hash_length)
    | AUTHD_WORKER_JOB_GENERATE_PASSWORD_HASH, None => Some (Some 0)
    | AUTHD_WORKER_JOB_GENERATE_PASSWORD_HASH, Some _ => Some None
    end.

(** The job before it has an identifier. *)
Definition build_job (token : authd_worker_token) (job_type : authd_worker_job_type)
    (encoded_hash password : ptr) (password_length hash_length : Z) : run authd_worker_job :=
  let! hash :=
    if 0 <? hash_length then
      let! source := deref encoded_hash in
      let! data := buf_read source 0 (hash_length + 1) in
      buf_write (jb_encoded_hash zero_job) 0 data
    else Some (jb_encoded_hash zero_job) in
  let! source := deref password in
  let! data := buf_read source 0 password_length in
  let! secret := buf_write (jb_password zero_job) 0 data in
  Some (WorkerJob 0 token job_type hash secret password_length AUTHD_PASSWORD_OK false).

(** The critical section: the result, the identifier, the pool and the wakeup. *)
Definition enqueue_job (p : authd_worker_pool) (j : authd_worker_job)
    : authd_worker_submit_result * Z * authd_worker_pool * wakeup :=
  if wp_stopping p then (AUTHD_WORKER_SUBMIT_STOPPING, 0, p, Silent)
  else if wp_capacity p <=? wp_outstanding p then (AUTHD_WORKER_SUBMIT_FULL, 0, p, Silent)
  else
    let (job_id, p) := next_job_id_locked p in
    let p := set_pending (wp_pending p ++ [set_job_id job_id j]) p in
    (AUTHD_WORKER_SUBMIT_OK, job_id, set_outstanding (wp_outstanding p + 1) p, Signal).

(** The end of [submit_job]: the password of the caller is wiped. *)
Definition wipe_submitted (password : ptr) (password_capacity : Z) : run ptr :=
  match password with
  | Some buffer =>
      if (0 <? password_capacity) && (password_capacity <=? AUTHD_PASSWORD_MAX_BUFFER_BYTES) then
        let! buffer := wipe buffer 0 password_capacity in Some (Some buffer)
      else Some password
  | None => Some None
  end.

(** [allocated] is whether [calloc] finds memory. The result, the identifier, the
    password buffer, the pool and the wakeup. *)
Definition submit_job (allocated : bool) (p : option authd_worker_pool)
    (token : option authd_worker_token) (job_type : authd_worker_job_type)
    (encoded_hash password : ptr) (password_length password_capacity : Z)
    : run (authd_worker_submit_result * Z * ptr * option authd_worker_pool * wakeup) :=
  let! (result, job_id, p, wakeup) :=
    match p, token with
    | Some pool, Some token =>
        let! checked := check_submission job_type encoded_hash password password_length password_capacity in
        match checked with
        | None => Some (AUTHD_WORKER_SUBMIT_INVALID, 0, p, Silent)
        | Some hash_length =>
            if negb allocated then Some (AUTHD_WORKER_SUBMIT_INTERNAL_ERROR, 0, p, Silent)
            else
              let! j := build_job token job_type encoded_hash password password_length hash_length in
              let '(result, job_id, pool, wakeup) := enqueue_job pool j in
              Some (result, job_id, Some pool, wakeup)
        end
    | _, _ => Some (AUTHD_WORKER_SUBMIT_INVALID, 0, p, Silent)
    end in
  let! password := wipe_submitted password password_capacity in
  Some (result, job_id, password, p, wakeup).

(** *** Workers *)

(** The first critical section of [worker_main], for a worker that is not to stop;
    without a pending job it waits. *)
Definition worker_take (p : authd_worker_pool) : option (authd_worker_job * authd_worker_pool) :=
  match wp_pending p with
  | [] => None
  | j :: pending => Some (j, set_pending pending p)
  end.

(** The second critical section: whether the job is discarded. *)
Definition worker_finish (p : authd_worker_pool) (j : authd_worker_job) : bool * authd_worker_pool :=
  if wp_stopping p then (true, release_outstanding p)
  else (false, set_completed (wp_completed p ++ [j]) p).

(** The third one, after a notification that failed. *)
Definition notification_failed (p : authd_worker_pool) : authd_worker_pool * wakeup :=
  (set_stopping p, Broadcast).

(** *** Completions *)

(** [authd_worker_pool_take_completion] after the counter was decremented. *)
Definition pop_completion (p : authd_worker_pool) : option authd_worker_completion * authd_worker_pool :=
  match wp_completed p with
  | [] => (None, p)
  | j :: completed =>
      (Some (WorkerCompletion (jb_job_id j) (jb_token j) (jb_job_type j) (jb_password_result j)
               (jb_needs_rehash j) (jb_encoded_hash j)),
       release_outstanding (set_completed completed p))
  end.

(** *** Start and end *)

(** The checks of [authd_worker_pool_create]. *)
Definition pool_arguments_are_valid `{Sodium} (policy : option authd_password_policy)
    (worker_count capacity : Z) : bool :=
  authd_password_policy_is_valid policy
  && (AUTHD_WORKER_MIN_THREADS <=? worker_count) && (worker_count <=? AUTHD_WORKER_MAX_THREADS)
  && (AUTHD_WORKER_MIN_CAPACITY <=? capacity) && (capacity <=? AUTHD_WORKER_MAX_CAPACITY)
  && (worker_count <=? capacity).

Definition created_pool (policy : authd_password_policy) (capacity : Z) : authd_worker_pool :=
  WorkerPool policy capacity 0 1 [] [] 0 false.

(** The first critical section of [authd_worker_pool_destroy]. *)
Definition stop_pool (p : authd_worker_pool) : authd_worker_pool * wakeup :=
  let stopped := set_pending [] (set_stopping p) in
  (foldl (λ p _, release_outstanding p) stopped (wp_pending p), Broadcast).

(** The second one, after every thread has ended. *)
Definition drop_completed (p : authd_worker_pool) : authd_worker_pool :=
  set_outstanding 0 (set_completed [] p).

Definition authd_worker_pool_outstanding (p : option authd_worker_pool) : Z :=
  match p with None => 0 | Some p => wp_outstanding p end.

Definition authd_worker_submit_result_name (result : authd_worker_submit_result) : list Z :=
  match result with
  | AUTHD_WORKER_SUBMIT_OK => lit "ok"
  | AUTHD_WORKER_SUBMIT_FULL => lit "full"
  | AUTHD_WORKER_SUBMIT_STOPPING => lit "stopping"
  | AUTHD_WORKER_SUBMIT_INVALID => lit "invalid"
  | AUTHD_WORKER_SUBMIT_INTERNAL_ERROR => lit "internal_error"
  end.

(** ** Threads *)

(** Where a thread of [worker_main] is: about to enter its first critical section
    (or to look again after [pthread_cond_wait] has returned), in
    [pthread_cond_wait], with a job, with a job that has been executed, before the
    notification, or at its end. *)
Inductive worker :=
| Waiting
| Sleeping
| Working (job : authd_worker_job)
| Finished (job : authd_worker_job)
| Notifying
| Exited.

(** The threads that a wakeup reaches: a signal wakes one sleeping thread and is
    lost if there is none, a broadcast wakes them all. *)
Definition awake (w : worker) : worker :=
  match w with Sleeping => Waiting | _ => w end.

Inductive woken : wakeup → list worker → list worker → Prop :=
| woken_silent ws : woken Silent ws ws
| woken_signal ws i : ws !! i = Some Sleeping → woken Signal ws (<[i := Waiting]> ws)
| woken_nobody ws : Sleeping ∉ ws → woken Signal ws ws
| woken_broadcast ws : woken Broadcast ws (awake <$> ws).

(** Where the event loop is: outside of the pool, between the read of the counter
    and the critical section of [authd_worker_pool_take_completion], or in
    [authd_worker_pool_destroy]. *)
Inductive loop_state := Outside | Consumed | Destroying | Destroyed.

(** The pool, its threads and the event loop, with the jobs that were accepted
    (newest last) and the completions that were taken. *)
Record system := System {
  sy_pool : authd_worker_pool;
  sy_workers : list worker;
  sy_loop : loop_state;
  sy_submitted : list authd_worker_job;
  sy_delivered : list authd_worker_completion;
}.

Inductive label := Submission | Work | Delivery | Spurious | Failure | Destruction.

Inductive step : label → system → system → Prop :=
| step_submit p ws ws' submitted delivered token job_type hash password length capacity result job_id
    password' p' wakeup :
    submit_job true (Some p) (Some token) job_type hash password length capacity
      = Some (result, job_id, password', Some p', wakeup) →
    woken wakeup ws ws' →
    step Submission (System p ws Outside submitted delivered)
      (System p' ws' Outside (submitted ++ drop (List.length (wp_pending p)) (wp_pending p')) delivered)
| step_take p ws l submitted delivered i j p' :
    ws !! i = Some Waiting → wp_stopping p = false → worker_take p = Some (j, p') →
    step Work (System p ws l submitted delivered)
      (System p' (<[i := Working j]> ws) l submitted delivered)
| step_sleep p ws l submitted delivered i :
    ws !! i = Some Waiting → wp_stopping p = false → worker_take p = None →
    step Work (System p ws l submitted delivered) (System p (<[i := Sleeping]> ws) l submitted delivered)
| step_spurious p ws l submitted delivered i :
    ws !! i = Some Sleeping →
    step Spurious (System p ws l submitted delivered) (System p (<[i := Waiting]> ws) l submitted delivered)
| step_execute p ws l submitted delivered i j j' (L : Sodium) :
    ws !! i = Some (Working j) → SodiumLaws → execute_job (wp_policy p) j = Some j' →
    step Work (System p ws l submitted delivered)
      (System p (<[i := Finished j']> ws) l submitted delivered)
| step_finish p ws l submitted delivered i j discard p' :
    ws !! i = Some (Finished j) → worker_finish p j = (discard, p') →
    step Work (System p ws l submitted delivered)
      (System p' (<[i := if discard then Waiting else Notifying]> ws) l submitted delivered)
| step_notify p ws l submitted delivered i :
    ws !! i = Some Notifying →
    step Work (System p ws l submitted delivered)
      (System (set_completion_fd (wp_completion_fd p + 1) p) (<[i := Waiting]> ws) l submitted delivered)
| step_notify_fails p ws ws' l submitted delivered i p' wakeup :
    ws !! i = Some Notifying → notification_failed p = (p', wakeup) → woken wakeup (<[i := Exited]> ws) ws' →
    step Failure (System p ws l submitted delivered) (System p' ws' l submitted delivered)
| step_exit p ws l submitted delivered i :
    ws !! i = Some Waiting → wp_stopping p = true →
    step Work (System p ws l submitted delivered) (System p (<[i := Exited]> ws) l submitted delivered)
| step_consume p ws submitted delivered :
    0 < wp_completion_fd p →
    step Delivery (System p ws Outside submitted delivered)
      (System (set_completion_fd (wp_completion_fd p - 1) p) ws Consumed submitted delivered)
| step_pop p ws submitted delivered completion p' :
    pop_completion p = (completion, p') →
    step Delivery (System p ws Consumed submitted delivered)
      (System p' ws Outside submitted (delivered ++ from_option (λ c, [c]) [] completion))
| step_destroy p ws ws' submitted delivered p' wakeup :
    stop_pool p = (p', wakeup) → woken wakeup ws ws' →
    step Destruction (System p ws Outside submitted delivered)
      (System p' ws' Destroying submitted delivered)
| step_destroyed p ws submitted delivered :
    (∀ w, w ∈ ws → w = Exited) →
    step Destruction (System p ws Destroying submitted delivered)
      (System (drop_completed p) ws Destroyed submitted delivered).

(** The states that a pool can reach. *)
Inductive reachable (policy : authd_password_policy) (worker_count : nat) (capacity : Z) : system → Prop :=
| reach_created :
    reachable policy worker_count capacity
      (System (created_pool policy capacity) (replicate worker_count Waiting) Outside [] [])
| reach_step l s s' :
    reachable policy worker_count capacity s → step l s s' → reachable policy worker_count capacity s'.

(** *** Linked queues *)

Section queue_lemmas.
Context {J : Type}.
Implicit Types (memory : gmap positive (node J)) (jobs : list positive).

Lemma linked_frame memory memory' head jobs :
  linked memory head jobs → (∀ l, l ∈ jobs → memory' !! l = memory !! l) → linked memory' head jobs.
Proof.
  revert head. induction jobs as [|job jobs IH]; intros head Hl Hsame; [done|].
  destruct Hl as (-> & n & Hn & Hl). split; [done|]. exists n. split.
  - rewrite Hsame; [done|]. apply elem_of_cons. by left.
  - apply IH; [done|]. intros l Hin. apply Hsame. apply elem_of_cons. by right.
Qed.

Lemma linked_elem memory head jobs job :
  linked memory head jobs → job ∈ jobs → is_Some (memory !! job).
Proof.
  revert head. induction jobs as [|j jobs IH]; intros head Hl Hin; [by apply elem_of_nil in Hin|].
  destruct Hl as (-> & n & Hn & Hl). apply elem_of_cons in Hin as [->|Hin]; [by rewrite Hn|by eapply IH].
Qed.

Lemma is_queue_frame memory memory' head tail jobs :
  is_queue memory head tail jobs → (∀ l, l ∈ jobs → memory' !! l = memory !! l) →
  is_queue memory' head tail jobs.
Proof. intros (Hl & -> & Hnd) Hsame. split_and!; try done. by eapply linked_frame. Qed.

(** Appending behind the last node. *)
Lemma linked_snoc memory head jobs last_job job n :
  linked memory head (jobs ++ [last_job]) → NoDup (jobs ++ [last_job]) → job ∉ jobs ++ [last_job] →
  memory !! job = Some n → nd_next n = None → is_Some (memory !! last_job) →
  ∃ m, memory !! last_job = Some m ∧
    linked (<[last_job := Node (nd_job m) (Some job)]> memory) head (jobs ++ [last_job; job]).
Proof.
  intros Hl Hnd Hnew Hjob Hnext [m Hm]. exists m. split; [done|].
  revert head Hl. induction jobs as [|j jobs IH]; intros head Hl.
  - destruct Hl as (-> & k & Hk & _). split; [done|]. eexists.
    split; [by rewrite lookup_insert_eq|]. cbn. split; [done|]. exists n. split; [|done].
    rewrite lookup_insert_ne; [done|]. intros ->. apply Hnew. by left.
  - destruct Hl as (-> & k & Hk & Hl). cbn in Hnd. apply NoDup_cons in Hnd as [Hj Hnd].
    split; [done|]. exists k. split.
    + rewrite lookup_insert_ne; [done|]. intros ->. apply Hj. apply elem_of_app. right. by left.
    + apply IH; try done. intros Hin. apply Hnew. by right.
Qed.

Lemma queue_pop_spec memory head tail jobs :
  is_queue memory head tail jobs →
  ∃ head' tail' memory',
    queue_pop head tail memory = Some (hd_error jobs, head', tail', memory') ∧
    is_queue memory' head' tail' (List.tl jobs) ∧
    ∀ l, hd_error jobs ≠ Some l → memory' !! l = memory !! l.
Proof.
  intros (Hl & -> & Hnd). destruct jobs as [|job jobs].
  - cbn in Hl. subst head. by eexists _, _, _.
  - destruct Hl as (-> & n & Hn & Hl). unfold queue_pop. rewrite Hn. run_simpl.
    eexists _, _, _. split; [done|]. cbn [List.tl hd_error]. apply NoDup_cons in Hnd as [Hj Hnd].
    split; [|intros l Hne; apply lookup_insert_ne; congruence]. split_and!; [|..|done].
    + eapply linked_frame; [done|]. intros l Hin. rewrite lookup_insert_ne; [done|]. by intros ->.
    + destruct jobs as [|job' jobs]; cbn in Hl; [by rewrite Hl|]. destruct Hl as (-> & _). done.
Qed.

Lemma queue_push_spec memory head tail jobs job n :
  is_queue memory head tail jobs → memory !! job = Some n → job ∉ jobs →
  ∃ head' tail' memory',
    queue_push head tail job memory = Some (head', tail', memory') ∧
    is_queue memory' head' tail' (jobs ++ [job]) ∧
    ∀ l, l ≠ job → l ∉ jobs → memory' !! l = memory !! l.
Proof.
  intros (Hl & -> & Hnd) Hn Hnew. unfold queue_push. rewrite Hn. run_simpl.
  set (memory1 := <[job := _]> memory).
  assert (linked memory1 head jobs) as Hl1.
  { eapply linked_frame; [done|]. intros l Hin. apply lookup_insert_ne. by intros ->. }
  assert (memory1 !! job = Some (Node (nd_job n) None)) as Hn1 by apply lookup_insert_eq.
  assert (NoDup (jobs ++ [job])) as Hnd'.
  { apply NoDup_app. split_and!; [done| |apply NoDup_singleton]. intros x Hx Hin.
    apply list_elem_of_singleton in Hin as ->. done. }
  destruct jobs as [|last_job jobs _] using rev_ind.
  - cbn in Hl. subst head. cbn. eexists _, _, _. split; [done|]. split.
    + split_and!; [|done|done]. split; [done|]. by eexists.
    + intros l Hne _. by apply lookup_insert_ne.
  - rewrite last_snoc.
    destruct (linked_elem memory1 head (jobs ++ [last_job]) last_job Hl1) as [m0 Hm0];
      [apply elem_of_app; right; by left|].
    destruct (linked_snoc memory1 head jobs last_job job _ Hl1 Hnd Hnew Hn1 eq_refl ltac:(by eexists))
      as (m & Hm & Hlinked). rewrite Hm. run_simpl.
    eexists _, _, _. split; [done|]. split.
    + split_and!; [|by rewrite last_snoc|done]. by rewrite <- app_assoc.
    + intros l Hne Hl'. rewrite lookup_insert_ne; [by apply lookup_insert_ne|].
      intros ->. apply Hl'. apply elem_of_app. right. by left.
Qed.

(** The job in a node is never changed. *)
Lemma queue_pop_jobs memory head tail l :
  ∀ job head' tail' memory', queue_pop head tail memory = Some (job, head', tail', memory') →
  nd_job <$> memory' !! l = nd_job <$> memory !! l.
Proof.
  intros job head' tail' memory'. unfold queue_pop. destruct head as [h|]; [|intros E; by injection E as <- <- <- <-].
  destruct (memory !! h) as [n|] eqn:En; [|done]. run_simpl. intros E.
  injection E as <- <- <- <-. destruct (decide (l = h)) as [->|].
  - by rewrite lookup_insert_eq, En.
  - by rewrite lookup_insert_ne.
Qed.

Lemma queue_push_jobs memory head tail job l :
  ∀ head' tail' memory', queue_push head tail job memory = Some (head', tail', memory') →
  nd_job <$> memory' !! l = nd_job <$> memory !! l.
Proof.
  intros head' tail' memory'. unfold queue_push. destruct (memory !! job) as [n|] eqn:En; [|done]. run_simpl.
  assert (∀ l, nd_job <$> <[job := Node (nd_job n) None]> memory !! l = nd_job <$> memory !! l) as Hset.
  { intros x. destruct (decide (x = job)) as [->|]; [by rewrite lookup_insert_eq, En|by rewrite lookup_insert_ne]. }
  destruct tail as [t|]; [|intros E; by injection E as <- <- <-].
  destruct (_ !! t) as [m|] eqn:Em; [|done]. run_simpl. intros E. injection E as <- <- <-.
  rewrite <- (Hset l). destruct (decide (l = t)) as [->|].
  - by rewrite lookup_insert_eq, Em.
  - by rewrite lookup_insert_ne.
Qed.
End queue_lemmas.

(** *** Jobs *)

(** A job before it is executed. *)
Record job_ok (j : authd_worker_job) : Prop := JobOk {
  jo_password : zlen (jb_password j) = AUTHD_PASSWORD_MAX_BUFFER_BYTES;
  jo_length : 1 <= jb_password_length j <= AUTHD_PASSWORD_MAX_BYTES;
  jo_hash : zlen (jb_encoded_hash j) = AUTHD_WORKER_HASH_MAX_BYTES + 1;
  jo_text : jb_job_type j = AUTHD_WORKER_JOB_VERIFY_PASSWORD →
    ∃ text tail, jb_encoded_hash j = terminated text tail ∧ Forall (λ b, b ≠ 0) text;
}.

(** A job after it: nothing secret is left. *)
Record job_wiped (j : authd_worker_job) : Prop := JobWiped {
  jw_password : jb_password j = zeros AUTHD_PASSWORD_MAX_BUFFER_BYTES;
  jw_hash : zlen (jb_encoded_hash j) = AUTHD_WORKER_HASH_MAX_BYTES + 1;
  jw_text : jb_job_type j = AUTHD_WORKER_JOB_VERIFY_PASSWORD →
    jb_encoded_hash j = zeros (AUTHD_WORKER_HASH_MAX_BYTES + 1);
}.

(** What identifies a job. *)
Definition job_key (j : authd_worker_job) : Z * authd_worker_token * authd_worker_job_type :=
  (jb_job_id j, jb_token j, jb_job_type j).

Definition completion_key (c : authd_worker_completion) : Z * authd_worker_token * authd_worker_job_type :=
  (wc_job_id c, wc_token c, wc_job_type c).

Definition completion_of (j : authd_worker_job) : authd_worker_completion :=
  WorkerCompletion (jb_job_id j) (jb_token j) (jb_job_type j) (jb_password_result j)
    (jb_needs_rehash j) (jb_encoded_hash j).

Lemma wipe_all buffer : wipe buffer 0 (zlen buffer) = Some (zeros (zlen buffer)).
Proof.
  unfold wipe. pose proof (zlen_nonneg buffer).
  rewrite buf_write_in by (rewrite ?zlen_zeros; lia). change (Z.to_nat 0) with 0%nat.
  rewrite take_0, drop_ge; [by rewrite app_nil_r|].
  pose proof (zlen_zeros (zlen buffer) ltac:(lia)) as Hz. unfold zlen in *. lia.
Qed.

Lemma execute_job_spec `{SodiumLaws} policy j :
  job_ok j → ∃ j', execute_job policy j = Some j' ∧ job_wiped j' ∧ job_key j' = job_key j.
Proof.
  intros [Hpassword _ Hhash Htext]. unfold execute_job.
  destruct (jb_job_type j) eqn:Ej.
  - destruct (Htext eq_refl) as (text & tail & Eh & Hnz).
    destruct (answer_of_spec _ _ (verify_spec policy text tail (jb_password j) (jb_password_length j)
      (jb_needs_rehash j) tt [] Hnz)) as ([[result password] rehash] & h & E & -> & (r & -> & _) & _).
    rewrite Eh, E. run_simpl. cbn [deref]. run_simpl.
    rewrite wipe_all, <- Eh, Hhash, Hpassword. run_simpl. eexists. split; [done|].
    split; [|done]. split; [done| |done]. cbn [jb_encoded_hash set_outcome]. by rewrite zlen_zeros.
  - destruct (answer_of_spec _ _ (password_generate_spec policy (jb_password j) (jb_password_length j)
      (jb_encoded_hash j) tt [] ltac:(rewrite Hhash; done)))
      as ([[result password] hash] & h & E & -> & target & -> & Hlen & _). rewrite E. run_simpl. cbn [deref].
    run_simpl. rewrite Hpassword. eexists. split; [done|]. split; [|done].
    split; [done| |by cbn; rewrite Ej]. by cbn [jb_encoded_hash set_outcome]; rewrite Hlen.
Qed.

(** *** Submission *)

(** The job that [submit_job] builds for arguments that it accepts. *)
Definition built_job (token : authd_worker_token) (job_type : authd_worker_job_type) (text password : list Z)
    : authd_worker_job :=
  WorkerJob 0 token job_type (text ++ zeros (AUTHD_WORKER_HASH_MAX_BYTES + 1 - zlen text))
    (password ++ zeros (AUTHD_PASSWORD_MAX_BUFFER_BYTES - zlen password)) (zlen password)
    AUTHD_PASSWORD_OK false.

(** The hash that belongs to a type of job. *)
Definition hash_argument (job_type : authd_worker_job_type) (encoded_hash : ptr) (text : list Z) : Prop :=
  match job_type with
  | AUTHD_WORKER_JOB_VERIFY_PASSWORD =>
      text ≠ [] ∧ Forall (λ b, b ≠ 0) text ∧ ∃ tail, encoded_hash = Some (terminated text tail)
  | AUTHD_WORKER_JOB_GENERATE_PASSWORD_HASH => text = [] ∧ encoded_hash = None
  end.

Definition submission_ok (text : list Z) (length capacity : Z) : bool :=
  (1 <=? length) && (length <=? AUTHD_PASSWORD_MAX_BYTES) && (length <=? capacity)
  && (zlen text <=? AUTHD_WORKER_HASH_MAX_BYTES).

Lemma zeros_drop m n : 0 <= m <= n → drop (Z.to_nat m) (zeros n) = zeros (n - m).
Proof.
  intros Hm. unfold zeros. rewrite drop_replicate. f_equal. lia.
Qed.

Lemma write_zeros n data :
  zlen data <= n → buf_write (zeros n) 0 data = Some (data ++ zeros (n - zlen data)).
Proof.
  intros Hd. pose proof (zlen_nonneg data). rewrite buf_write_in by (rewrite ?zlen_zeros; lia).
  change (Z.to_nat 0) with 0%nat. rewrite take_0, app_nil_l, Nat.add_0_l. do 2 f_equal.
  replace (length data) with (Z.to_nat (zlen data)) by (unfold zlen; lia). apply zeros_drop. lia.
Qed.

Lemma terminated_read text tail : buf_read (terminated text tail) 0 (zlen text + 1) = Some (text ++ [0]).
Proof.
  unfold terminated. change (0 :: tail) with ([0] ++ tail). rewrite app_assoc.
  rewrite <- (zlen_app text [0] : _ = zlen text + 1). apply buf_read_prefix.
Qed.

Lemma check_submission_spec job_type encoded_hash buffer text length :
  hash_argument job_type encoded_hash text → 0 <= length → zlen buffer <= AUTHD_PASSWORD_MAX_BUFFER_BYTES →
  check_submission job_type encoded_hash (Some buffer) length (zlen buffer)
    = Some (if submission_ok text length (zlen buffer) then Some (zlen text) else None).
Proof.
  intros Hhash Hlen Hcap. unfold check_submission, submission_ok. cbn [is_null].
  destruct (_ || _ || _ || _ || _) eqn:Eargs.
  { replace ((1 <=? length) && (length <=? AUTHD_PASSWORD_MAX_BYTES) && (length <=? zlen buffer)) with false;
      [done|]. symmetry. apply not_true_iff_false. rewrite !andb_true_iff, !Z.leb_le. intros [[H1 H2] H3].
    repeat (bools; destruct Eargs as [Eargs|Eargs]); bools; lia. }
  bools. rewrite (proj2 (Z.leb_le 1 length)), (proj2 (Z.leb_le length _)), (proj2 (Z.leb_le length _)) by lia.
  cbn [andb]. destruct job_type.
  - destruct Hhash as (Hne & Hnz & tail & ->). rewrite strnlen_spec by done. run_simpl.
    rewrite Z2Nat.id by done. destruct text as [|b text]; [done|]. rewrite zlen_cons. pose proof (zlen_nonneg text).
    rewrite (proj2 (Z.eqb_neq _ _)) by (change AUTHD_WORKER_HASH_MAX_BYTES with 255; lia). cbn [orb].
    destruct (Z.leb_spec (1 + zlen text) AUTHD_WORKER_HASH_MAX_BYTES) as [Hle|Hle].
    + rewrite Z.min_l by lia. by rewrite (proj2 (Z.ltb_ge _ _)).
    + rewrite Z.min_r by lia. by rewrite (proj2 (Z.ltb_lt _ _)) by lia.
  - destruct Hhash as [-> ->]. done.
Qed.

Lemma build_job_spec token job_type encoded_hash buffer text length :
  hash_argument job_type encoded_hash text → submission_ok text length (zlen buffer) = true →
  build_job token job_type encoded_hash (Some buffer) length (zlen text)
    = Some (built_job token job_type text (take (Z.to_nat length) buffer)).
Proof.
  intros Hhash Hok. unfold submission_ok in Hok. bools. unfold build_job.
  assert ((if 0 <? zlen text then
      let! source := deref encoded_hash in
      let! data := buf_read source 0 (zlen text + 1) in
      buf_write (jb_encoded_hash zero_job) 0 data
    else Some (jb_encoded_hash zero_job))
    = Some (text ++ zeros (AUTHD_WORKER_HASH_MAX_BYTES + 1 - zlen text))) as ->.
  { destruct job_type.
    - destruct Hhash as (Hne & _ & tail & ->). destruct text as [|b text]; [done|].
      rewrite (proj2 (Z.ltb_lt _ _)) by (rewrite zlen_cons; pose proof (zlen_nonneg text); lia).
      cbn [deref]. run_simpl. rewrite terminated_read. run_simpl.
      unfold zero_job. cbn [jb_encoded_hash]. rewrite write_zeros by (rewrite zlen_app; change (zlen [0]) with 1; lia).
      rewrite <- app_assoc, zlen_app. change (zlen [0]) with 1. do 2 f_equal.
      set (n := AUTHD_WORKER_HASH_MAX_BYTES + 1 - zlen (b :: text)).
      replace (AUTHD_WORKER_HASH_MAX_BYTES + 1 - (zlen (b :: text) + 1)) with (n - 1) by lia.
      unfold zeros. replace (Z.to_nat n) with (S (Z.to_nat (n - 1))) by lia. done.
    - destruct Hhash as [-> _]. done. }
  run_simpl. cbn [deref]. run_simpl. rewrite password_text by lia. run_simpl.
  assert (zlen (take (Z.to_nat length) buffer) = length) as Htake
    by (unfold zlen in *; rewrite length_take; lia).
  unfold zero_job at 1. cbn [jb_password]. rewrite write_zeros by (rewrite Htake; unfold AUTHD_PASSWORD_MAX_BUFFER_BYTES; lia).
  run_simpl. unfold built_job. by rewrite Htake.
Qed.

Lemma wipe_submitted_spec buffer :
  0 < zlen buffer <= AUTHD_PASSWORD_MAX_BUFFER_BYTES →
  wipe_submitted (Some buffer) (zlen buffer) = Some (Some (zeros (zlen buffer))).
Proof.
  intros [H1 H2]. unfold wipe_submitted.
  rewrite (proj2 (Z.ltb_lt _ _)), (proj2 (Z.leb_le _ _)) by done. cbn [andb].
  by rewrite wipe_all.
Qed.

Lemma submit_job_spec allocated p token job_type encoded_hash buffer text length :
  hash_argument job_type encoded_hash text → 0 <= length →
  0 < zlen buffer <= AUTHD_PASSWORD_MAX_BUFFER_BYTES →
  submit_job allocated (Some p) (Some token) job_type encoded_hash (Some buffer) length (zlen buffer)
    = Some (
        let '(result, job_id, p', wakeup) :=
          if negb (submission_ok text length (zlen buffer)) then (AUTHD_WORKER_SUBMIT_INVALID, 0, p, Silent)
          else if negb allocated then (AUTHD_WORKER_SUBMIT_INTERNAL_ERROR, 0, p, Silent)
          else enqueue_job p (built_job token job_type text (take (Z.to_nat length) buffer)) in
        (result, job_id, Some (zeros (zlen buffer)), Some p', wakeup)).
Proof.
  intros Hhash Hlen Hcap. unfold submit_job.
  rewrite (check_submission_spec _ _ _ text) by (done || lia). run_simpl.
  destruct (submission_ok text length (zlen buffer)) eqn:Eok; cbn [negb].
  - destruct allocated; cbn [negb].
    + rewrite (build_job_spec _ _ _ _ text) by done. run_simpl.
      destruct (enqueue_job p _) as [[[result job_id] p'] wakeup]. by rewrite wipe_submitted_spec.
    + by rewrite wipe_submitted_spec.
  - by rewrite wipe_submitted_spec.
Qed.

(** Whatever the arguments, an accepted job is well-formed. *)
Lemma checked_job_ok token job_type encoded_hash password length capacity hash_length j :
  check_submission job_type encoded_hash password length capacity = Some (Some hash_length) →
  build_job token job_type encoded_hash password length hash_length = Some j → job_ok j.
Proof.
  unfold check_submission, build_job. destruct password as [buffer|]; [|done]. cbn [is_null orb deref].
  destruct (_ || _ || _ || _) eqn:Eargs; [done|]. bools. intros Echeck.
  destruct (if 0 <? hash_length then _ else _) as [hash|] eqn:Ehash; [|done]. run_simpl.
  destruct (buf_read buffer 0 length) as [data|] eqn:Eread; [|done]. run_simpl.
  destruct (buf_write _ 0 data) as [secret|] eqn:Esecret; [|done]. run_simpl.
  intros E. apply (inj Some) in E as <-. apply buf_read_Some in Eread as (_ & Hlength & _).
  apply buf_write_length in Esecret.
  assert (zlen hash = AUTHD_WORKER_HASH_MAX_BYTES + 1 ∧
    (job_type = AUTHD_WORKER_JOB_VERIFY_PASSWORD →
      ∃ text tail, hash = terminated text tail ∧ Forall (λ b, b ≠ 0) text)) as [Hhash Htext].
  { destruct job_type.
    - destruct encoded_hash as [source|]; [|done].
      destruct (strnlen source _) as [n|] eqn:En; [|done]. run_simpl_in Echeck.
      destruct ((n =? 0) || _) eqn:Ebad; [done|]. apply (inj Some), (inj Some) in Echeck as ->. bools.
      destruct (strnlen_inv _ _ _ En ltac:(unfold AUTHD_WORKER_HASH_MAX_BYTES in *; lia)) as (text & tail & -> & Hnz & ->).
      pose proof (zlen_nonneg text). rewrite (proj2 (Z.ltb_lt _ _)) in Ehash by lia. cbn [deref] in Ehash.
      run_simpl_in Ehash.
      rewrite terminated_read in Ehash. run_simpl_in Ehash. unfold zero_job in Ehash. cbn [jb_encoded_hash] in Ehash.
      rewrite write_zeros in Ehash by (rewrite zlen_app; change (zlen [0]) with 1; lia).
      apply (inj Some) in Ehash as <-. rewrite <- app_assoc. split; [|by eexists _, _].
      rewrite !zlen_app. change (zlen [0]) with 1. rewrite zlen_zeros by lia. lia.
    - destruct encoded_hash; [done|]. apply (inj Some), (inj Some) in Echeck as <-. cbn in Ehash.
      apply (inj Some) in Ehash as <-. by split. }
  split; cbn [jb_password jb_password_length jb_encoded_hash jb_job_type]; [|lia|done|done].
  rewrite Esecret. by apply zlen_zeros.
Qed.

Lemma enqueue_job_inv p j result job_id p' wakeup :
  enqueue_job p j = (result, job_id, p', wakeup) →
  (result ≠ AUTHD_WORKER_SUBMIT_OK ∧ p' = p ∧ wakeup = Silent) ∨ result = AUTHD_WORKER_SUBMIT_OK.
Proof.
  unfold enqueue_job. destruct (wp_stopping p); [intros E; injection E as <- _ <- <-; by left|].
  destruct (_ <=? _); [intros E; injection E as <- _ <- <-; by left|]. cbn. intros E. injection E as <- _ _ _.
  by right.
Qed.

Lemma submit_job_inv p token job_type encoded_hash password length capacity result job_id password' p' wakeup :
  submit_job true (Some p) (Some token) job_type encoded_hash password length capacity
    = Some (result, job_id, password', Some p', wakeup) →
  (result ≠ AUTHD_WORKER_SUBMIT_OK ∧ p' = p ∧ wakeup = Silent) ∨
  ∃ j, job_ok j ∧ enqueue_job p j = (AUTHD_WORKER_SUBMIT_OK, job_id, p', wakeup).
Proof.
  unfold submit_job. destruct (check_submission _ _ _ _ _) as [[hash_length|]|] eqn:Echeck; [|..|done]; run_simpl.
  2:{ destruct (wipe_submitted _ _); [|done]. run_simpl. intros E. injection E as <- _ _ <- <-. by left. }
  cbn [negb]. destruct (build_job _ _ _ _ _ _) as [j|] eqn:Ebuild; [|done]. run_simpl.
  destruct (enqueue_job p j) as [[[r i] q] w] eqn:Eq. destruct (wipe_submitted _ _); [|done]. run_simpl.
  intros E. injection E as <- <- _ <- <-. destruct (enqueue_job_inv _ _ _ _ _ _ Eq) as [?| ->]; [by left|].
  right. exists j. split; [|done]. by eapply checked_job_ok.
Qed.

(** *** Reachable states *)

(** The jobs that a thread holds, and the notifications that it owes. *)
Definition carried (w : worker) : list authd_worker_job :=
  match w with Working j | Finished j => [j] | _ => [] end.
Definition owed (w : worker) : list unit :=
  match w with Notifying => [tt] | _ => [] end.
Definition consumed (l : loop_state) : Z := match l with Consumed => 1 | _ => 0 end.

(** Every job that was accepted and whose completion was not taken. *)
Definition in_flight (s : system) : list authd_worker_job :=
  wp_pending (sy_pool s) ++ (sy_workers s ≫= carried) ++ wp_completed (sy_pool s).

Lemma delete_insert_same {A} (l : list A) i x : delete i (<[i := x]> l) = delete i l.
Proof. revert i. induction l as [|y l IH]; intros [|i]; [done|done|done|]. cbn. f_equal. apply IH. Qed.

(** One thread moves, the others stay. *)
Lemma worker_move (ws : list worker) i w w' :
  ws !! i = Some w → ∃ rest, ws ≡ₚ w :: rest ∧ <[i := w']> ws ≡ₚ w' :: rest.
Proof.
  intros Hi. exists (delete i ws). split; [by apply delete_Permutation|].
  rewrite (delete_Permutation (<[i := w']> ws) i w').
  - by rewrite delete_insert_same.
  - apply list_lookup_insert_eq. by eapply lookup_lt_Some.
Qed.

Lemma carried_move (ws : list worker) i w w' :
  ws !! i = Some w → ∃ rest, (ws ≫= carried) ≡ₚ carried w ++ rest ∧ (<[i := w']> ws ≫= carried) ≡ₚ carried w' ++ rest.
Proof.
  intros Hi. destruct (worker_move ws i w w' Hi) as (rest & H1 & H2). exists (rest ≫= carried).
  split; [by rewrite H1|by rewrite H2].
Qed.

Lemma bind_length {A} (f : worker → list A) (ws : list worker) i w w' :
  ws !! i = Some w →
  zlen (<[i := w']> ws ≫= f) = zlen (ws ≫= f) - zlen (f w) + zlen (f w').
Proof.
  intros Hi. destruct (worker_move ws i w w' Hi) as (rest & H1 & H2). unfold zlen.
  rewrite H2, H1. rewrite !bind_cons, !length_app. lia.
Qed.

(** *** Wakeups *)

(** Threads that differ at most in whether they sleep. *)
Definition alike (ws ws' : list worker) : Prop := awake <$> ws = awake <$> ws'.

Lemma bind_awake {A} (f : worker → list A) ws : f Sleeping = f Waiting → (awake <$> ws) ≫= f = ws ≫= f.
Proof.
  intros Hf. induction ws as [|w ws IH]; [done|]. rewrite fmap_cons, !bind_cons, IH.
  destruct w; cbn [awake]; by rewrite ?Hf.
Qed.

Lemma alike_bind {A} (f : worker → list A) ws ws' :
  f Sleeping = f Waiting → alike ws ws' → ws ≫= f = ws' ≫= f.
Proof. intros Hf E. by rewrite <- (bind_awake f ws), <- (bind_awake f ws'), E. Qed.

Lemma alike_elem ws ws' w : alike ws ws' → w ∈ ws' → ∃ w0, w0 ∈ ws ∧ awake w0 = awake w.
Proof.
  intros E Hw. apply (list_elem_of_fmap_2 awake) in Hw. rewrite <- E in Hw.
  apply list_elem_of_fmap_1 in Hw as (w0 & ? & ?). by exists w0.
Qed.

Lemma alike_move ws i w w' : ws !! i = Some w → awake w' = awake w → alike ws (<[i := w']> ws).
Proof.
  intros Hi Hw. unfold alike. rewrite list_fmap_insert, list_insert_id; [done|].
  by rewrite list_lookup_fmap, Hi, Hw.
Qed.

Lemma woken_alike wakeup ws ws' : woken wakeup ws ws' → alike ws ws'.
Proof.
  intros [|? i Hi| |]; try done.
  - by apply (alike_move _ i Sleeping).
  - unfold alike. rewrite <- list_fmap_compose. apply list_fmap_ext. by intros _ [] _.
Qed.

Lemma all_exited (ws : list worker) : (∀ w, w ∈ ws → w = Exited) → (ws ≫= carried) = [] ∧ (ws ≫= owed) = [].
Proof.
  induction ws as [|w ws IH]; [done|]. intros Hall.
  rewrite (Hall w) by by left. destruct IH as [H1 H2]; [intros; apply Hall; by right|].
  by rewrite !bind_cons, H1, H2.
Qed.

Lemma moved_elem (ws : list worker) i w w' : w ∈ <[i := w']> ws → w = w' ∨ w ∈ ws.
Proof.
  intros [k Hk]%list_elem_of_lookup_1. apply list_lookup_insert_Some in Hk as [(-> & -> & _)|[_ Hk]]; [by left|].
  right. by eapply list_elem_of_lookup_2.
Qed.

(** The numbers of a pool: a job counts as outstanding from its submission until
    its completion is taken, the counter never announces more completions than
    there are, and, until the pool stops, announces every one. *)
Record counts (worker_count : nat) (capacity : Z) (s : system) : Prop := Counts {
  ct_workers : length (sy_workers s) = worker_count;
  ct_capacity : wp_capacity (sy_pool s) = capacity;
  ct_outstanding : wp_outstanding (sy_pool s) = zlen (in_flight s);
  ct_bound : wp_outstanding (sy_pool s) <= capacity;
  ct_counter : 0 <= wp_completion_fd (sy_pool s) <= capacity;
  ct_notices : sy_loop s ≠ Destroyed →
    wp_completion_fd (sy_pool s) + zlen (sy_workers s ≫= owed) + consumed (sy_loop s)
      <= zlen (wp_completed (sy_pool s));
  ct_announced : wp_stopping (sy_pool s) = false →
    zlen (wp_completed (sy_pool s))
      <= wp_completion_fd (sy_pool s) + zlen (sy_workers s ≫= owed) + consumed (sy_loop s);
  ct_running : wp_stopping (sy_pool s) = false →
    (sy_loop s = Outside ∨ sy_loop s = Consumed) ∧ ∀ w, w ∈ sy_workers s → w ≠ Exited;
  ct_drained : sy_loop s = Destroying ∨ sy_loop s = Destroyed → wp_pending (sy_pool s) = [];
  ct_ended : sy_loop s = Destroyed →
    wp_completed (sy_pool s) = [] ∧ ∀ w, w ∈ sy_workers s → w = Exited;
}.

Lemma enqueue_job_OK p j job_id p' wakeup :
  enqueue_job p j = (AUTHD_WORKER_SUBMIT_OK, job_id, p', wakeup) →
  wp_stopping p = false ∧ wp_outstanding p < wp_capacity p ∧ job_id = wp_next_job_id p ∧ wakeup = Signal ∧
  p' = set_outstanding (wp_outstanding p + 1)
         (set_pending (wp_pending p ++ [set_job_id job_id j]) (snd (next_job_id_locked p))).
Proof.
  unfold enqueue_job. destruct (wp_stopping p); [done|].
  destruct (Z.leb_spec (wp_capacity p) (wp_outstanding p)); [done|].
  cbn [next_job_id_locked]. intros E. injection E as <- <- <-. done.
Qed.

Lemma release_outstanding_count p :
  0 < wp_outstanding p → release_outstanding p = set_outstanding (wp_outstanding p - 1) p.
Proof. intros Hp. unfold release_outstanding. by rewrite (proj2 (Z.ltb_lt _ _)). Qed.

Lemma stop_pool_count p :
  zlen (wp_pending p) <= wp_outstanding p →
  stop_pool p
    = (set_outstanding (wp_outstanding p - zlen (wp_pending p)) (set_pending [] (set_stopping p)), Broadcast).
Proof.
  unfold stop_pool. intros Hp.
  assert (∀ (js : list authd_worker_job) q, zlen js <= wp_outstanding q →
    foldl (λ p _, release_outstanding p) q js = set_outstanding (wp_outstanding q - zlen js) q) as Hfold.
  { induction js as [|j js IH]; intros q Hq; cbn [foldl].
    - change (zlen (@nil authd_worker_job)) with 0. rewrite Z.sub_0_r. by destruct q.
    - rewrite zlen_cons in *. pose proof (zlen_nonneg js).
      rewrite release_outstanding_count by lia. rewrite IH by (cbn; lia). cbn.
      unfold set_outstanding. cbn. f_equal. lia. }
  rewrite Hfold; done.
Qed.

Lemma zlen_nil {A} : zlen (@nil A) = 0.
Proof. done. Qed.

Lemma in_flight_length p ws l submitted delivered :
  zlen (in_flight (System p ws l submitted delivered))
    = zlen (wp_pending p) + zlen (ws ≫= carried) + zlen (wp_completed p).
Proof. unfold in_flight. cbn [sy_pool sy_workers]. rewrite !zlen_app. lia. Qed.

Ltac pool_simpl :=
  cbn [sy_pool sy_workers sy_loop sy_submitted sy_delivered wp_policy wp_capacity wp_outstanding
       wp_next_job_id wp_pending wp_completed wp_completion_fd wp_stopping set_outstanding
       set_next_job_id set_pending set_completed set_completion_fd set_stopping next_job_id_locked
       consumed fst snd] in *.

(** The lengths after a thread has moved. *)
Ltac moved Hi :=
  match goal with
  | |- context [<[?i := ?w']> ?ws] =>
      pose proof (bind_length carried ws i _ w' Hi) as Hcarried;
      pose proof (bind_length owed ws i _ w' Hi) as Howed;
      cbn [carried owed] in Hcarried, Howed;
      rewrite ?zlen_cons, ?zlen_nil in Hcarried; rewrite ?zlen_cons, ?zlen_nil in Howed
  end.

Ltac split_counts :=
  split; pool_simpl; rewrite ?in_flight_length in *; rewrite ?length_insert; pool_simpl;
  rewrite ?zlen_app, ?zlen_cons, ?zlen_nil in *; try done; try lia;
  try (let H := fresh in intros H; repeat match goal with F : _ → _ |- _ => specialize (F H) end; lia).

Lemma set_stopping_true p : wp_stopping p = true → set_stopping p = p.
Proof. destruct p. cbn. by intros ->. Qed.

(** A thread that moves does not exit, and the pool is not at its end. *)
Ltac still_running :=
  match goal with
  | H : wp_stopping _ = false → _ |- wp_stopping _ = false → _ =>
      let Hs := fresh "Hs" in let Hl := fresh "Hl" in let Hw := fresh "Hw" in
      intros Hs; destruct (H Hs) as [Hl Hw]; split; [exact Hl|];
      intros w [->|?]%moved_elem; [done|by apply Hw]
  end.
Ltac not_ended Hi :=
  match goal with
  | H : ?l = Destroyed → _ |- ?l = Destroyed → _ =>
      let Hw := fresh "Hw" in
      intros ->; destruct (H eq_refl) as [_ Hw]; exfalso;
      apply list_elem_of_lookup_2, Hw in Hi; done
  end.

Section counts_steps.
Context (worker_count : nat) (capacity : Z).
Implicit Types (p : authd_worker_pool) (ws : list worker) (submitted : list authd_worker_job)
  (delivered : list authd_worker_completion).
Notation counts := (counts worker_count capacity).

(** The numbers do not depend on which threads sleep. *)
Lemma counts_alike p ws ws' l submitted delivered :
  alike ws ws' → counts (System p ws l submitted delivered) → counts (System p ws' l submitted delivered).
Proof.
  intros Ha []. split; pool_simpl; unfold in_flight in *; pool_simpl;
    rewrite <- ?(alike_bind carried ws ws' eq_refl Ha), <- ?(alike_bind owed ws ws' eq_refl Ha); try done.
  - apply (f_equal length) in Ha. by rewrite !length_fmap in Ha; congruence.
  - intros Hs. destruct (ct_running0 Hs) as [Hl Hw]. split; [done|].
    intros w (w0 & Hin & E)%(alike_elem _ _ _ Ha) ->. specialize (Hw _ Hin). by destruct w0.
  - intros Hl. destruct (ct_ended0 Hl) as [Hc Hw]. split; [done|].
    intros w (w0 & Hin & E)%(alike_elem _ _ _ Ha). rewrite (Hw _ Hin) in E. by destruct w.
Qed.

Lemma counts_submit p ws submitted submitted' delivered job_id j p' wakeup :
  counts (System p ws Outside submitted delivered) →
  enqueue_job p j = (AUTHD_WORKER_SUBMIT_OK, job_id, p', wakeup) →
  counts (System p' ws Outside submitted' delivered).
Proof.
  intros [] E. apply enqueue_job_OK in E as (Hstop & Hfull & _ & _ & ->). split_counts. by intros [].
Qed.

Lemma counts_take p ws l submitted delivered i j p' :
  counts (System p ws l submitted delivered) →
  ws !! i = Some Waiting → wp_stopping p = false → worker_take p = Some (j, p') →
  counts (System p' (<[i := Working j]> ws) l submitted delivered).
Proof.
  intros [] Hi Hstop E. unfold worker_take in E. destruct (wp_pending p) as [|j' pending] eqn:Ep; [done|].
  injection E as -> <-. moved Hi. split_counts.
  - rewrite Ep, zlen_cons in *. lia.
  - intros _. destruct ct_running0 as [Hl Hw]; [done|]. split; [done|].
    intros w [->|?]%moved_elem; [done|by apply Hw].
  - intros Hl. specialize (ct_drained0 Hl). by rewrite Ep in ct_drained0.
  - intros ->. destruct ct_running0 as [[|] _]; done.
Qed.

Lemma counts_execute p ws l submitted delivered i j j' :
  counts (System p ws l submitted delivered) → ws !! i = Some (Working j) →
  counts (System p (<[i := Finished j']> ws) l submitted delivered).
Proof.
  intros [] Hi. moved Hi. split_counts.
  - still_running.
  - not_ended Hi.
Qed.

Lemma counts_finish p ws l submitted delivered i j discard p' :
  counts (System p ws l submitted delivered) → ws !! i = Some (Finished j) →
  worker_finish p j = (discard, p') →
  counts (System p' (<[i := if discard then Waiting else Notifying]> ws) l submitted delivered).
Proof.
  intros [] Hi. unfold worker_finish. destruct (wp_stopping p) eqn:Hstop; intros E; injection E as <- <-.
  - pose proof (zlen_nonneg (wp_pending p)). pose proof (zlen_nonneg (wp_completed p)).
    cbv beta match. moved Hi. pose proof (zlen_nonneg (<[i := Waiting]> ws ≫= carried)).
    pool_simpl. rewrite in_flight_length in *. rewrite release_outstanding_count by lia.
    split_counts; try (intros; congruence). not_ended Hi.
  - cbv beta match. moved Hi. split_counts.
    + still_running.
    + not_ended Hi.
Qed.

Lemma counts_notify p ws l submitted delivered i :
  counts (System p ws l submitted delivered) → ws !! i = Some Notifying →
  counts (System (set_completion_fd (wp_completion_fd p + 1) p) (<[i := Waiting]> ws) l submitted delivered).
Proof.
  intros [] Hi. pose proof (zlen_nonneg (wp_pending p)).
  moved Hi. pose proof (zlen_nonneg (<[i := Waiting]> ws ≫= carried)).
  pose proof (zlen_nonneg (<[i := Waiting]> ws ≫= owed)).
  assert (0 <= consumed l) by (destruct l; done).
  assert (l ≠ Destroyed) as Hl.
  { intros ->. destruct ct_ended0 as [_ Hw]; [done|]. apply list_elem_of_lookup_2, Hw in Hi. done. }
  split_counts.
  - specialize (ct_notices0 Hl). lia.
  - still_running.
Qed.

Lemma counts_notify_fails p ws l submitted delivered i w :
  counts (System p ws l submitted delivered) → ws !! i = Some w → carried w = [] →
  w = Notifying ∨ wp_stopping p = true ∧ w = Waiting →
  counts (System (set_stopping p) (<[i := Exited]> ws) l submitted delivered).
Proof.
  intros [] Hi Hw Hcase. moved Hi. rewrite Hw in Hcarried.
  assert (zlen (owed w) >= 0) by (pose proof (zlen_nonneg (owed w)); lia). split_counts.
  intros Hl. destruct (ct_ended0 Hl) as [Hc Hall]. split; [done|].
  intros w' [->|?]%moved_elem; [done|by apply Hall].
Qed.

Lemma counts_consume p ws submitted delivered :
  counts (System p ws Outside submitted delivered) → 0 < wp_completion_fd p →
  counts (System (set_completion_fd (wp_completion_fd p - 1) p) ws Consumed submitted delivered).
Proof.
  intros [] Hfd. specialize (ct_notices0 ltac:(done)). split_counts.
  - intros Hs. destruct (ct_running0 Hs) as [_ Hw]. split; [by right|done].
  - by intros [].
Qed.

Lemma counts_pop p ws submitted delivered delivered' completion p' :
  counts (System p ws Consumed submitted delivered) → pop_completion p = (completion, p') →
  is_Some completion ∧ counts (System p' ws Outside submitted delivered').
Proof.
  intros [] E. unfold pop_completion in E. pool_simpl. rewrite in_flight_length in *.
  pose proof (zlen_nonneg (wp_pending p)). pose proof (zlen_nonneg (ws ≫= carried)).
  pose proof (zlen_nonneg (ws ≫= owed)). specialize (ct_notices0 ltac:(done)). cbn [consumed] in *.
  destruct (wp_completed p) as [|j completed] eqn:Ec; rewrite ?zlen_nil, ?zlen_cons in *; [lia|].
  pose proof (zlen_nonneg completed). rewrite release_outstanding_count in E by (cbn; lia).
  injection E as <- <-. split; [by eexists|]. split_counts.
  - intros Hs. destruct (ct_running0 Hs) as [_ Hw]. split; [by left|done].
  - by intros [].
Qed.

Lemma counts_destroy p ws submitted delivered :
  counts (System p ws Outside submitted delivered) →
  counts (System (stop_pool p).1 ws Destroying submitted delivered).
Proof.
  intros []. pool_simpl. rewrite in_flight_length in *.
  pose proof (zlen_nonneg (wp_pending p)). pose proof (zlen_nonneg (ws ≫= carried)).
  pose proof (zlen_nonneg (wp_completed p)). rewrite stop_pool_count by lia.
  specialize (ct_notices0 ltac:(done)). split_counts.
Qed.

Lemma counts_destroyed p ws submitted delivered :
  counts (System p ws Destroying submitted delivered) → (∀ w, w ∈ ws → w = Exited) →
  counts (System (drop_completed p) ws Destroyed submitted delivered).
Proof.
  intros [] Hall. destruct (all_exited ws Hall) as [Hc Ho]. unfold drop_completed.
  assert (wp_pending p = []) as Hp by (apply ct_drained0; by left). pool_simpl.
  rewrite in_flight_length in *. rewrite Hp, Hc in *. pose proof (zlen_nonneg (wp_completed p)).
  split_counts; rewrite ?in_flight_length, ?Hp, ?Hc, ?zlen_nil in *; pool_simpl; try done; try lia.
  intros Hs. by destruct (ct_running0 Hs) as [[|] _].
Qed.
End counts_steps.

Theorem counts_step worker_count capacity lab s s' :
  counts worker_count capacity s → step lab s s' → counts worker_count capacity s'.
Proof.
  intros Hc Hstep. destruct Hstep.
  - match goal with H : woken _ _ _ |- _ => apply woken_alike in H as Ha end.
    apply (counts_alike _ _ _ _ _ _ _ _ Ha).
    match goal with E : submit_job _ _ _ _ _ _ _ _ = _ |- _ => apply submit_job_inv in E as [(_ & -> & _)|(j & _ & E)] end.
    + destruct Hc. split_counts.
    + by eapply counts_submit.
  - by eapply counts_take.
  - eapply counts_alike; [by eapply alike_move|done].
  - eapply counts_alike; [by eapply alike_move|done].
  - by eapply counts_execute.
  - by eapply counts_finish.
  - by apply counts_notify.
  - match goal with E : notification_failed _ = _ |- _ => injection E as <- <- end.
    eapply counts_alike; [by eapply woken_alike|]. eapply counts_notify_fails; [done..|by left].
  - rewrite <- (set_stopping_true p) by done. eapply counts_notify_fails; [done..|by right].
  - by apply counts_consume.
  - by eapply counts_pop.
  - eapply counts_alike; [by eapply woken_alike|].
    match goal with E : stop_pool _ = (?p', _) |- _ => apply (f_equal fst) in E; cbn in E; subst p' end.
    by apply counts_destroy.
  - by apply counts_destroyed.
Qed.

(** *** Where completions come from *)

Definition executed (policy : authd_password_policy) (j j' : authd_worker_job) : Prop :=
  ∃ L : Sodium, SodiumLaws ∧ execute_job policy j = Some j'.

(** A well-formed job that was accepted, and a job that is the result of one. *)
Definition accepted (submitted : list authd_worker_job) (j : authd_worker_job) : Prop :=
  job_ok j ∧ j ∈ submitted.
Definition outcome (policy : authd_password_policy) (submitted : list authd_worker_job)
    (j' : authd_worker_job) : Prop :=
  ∃ j, accepted submitted j ∧ executed policy j j'.

Definition worker_provenance (policy : authd_password_policy) (submitted : list authd_worker_job)
    (w : worker) : Prop :=
  match w with
  | Working j => accepted submitted j
  | Finished j => outcome policy submitted j
  | _ => True
  end.

Record provenance (policy : authd_password_policy) (s : system) : Prop := Provenance {
  pv_policy : wp_policy (sy_pool s) = policy;
  pv_pending : Forall (accepted (sy_submitted s)) (wp_pending (sy_pool s));
  pv_workers : Forall (worker_provenance policy (sy_submitted s)) (sy_workers s);
  pv_completed : Forall (outcome policy (sy_submitted s)) (wp_completed (sy_pool s));
  pv_delivered : Forall (λ c, ∃ j, outcome policy (sy_submitted s) j ∧ c = completion_of j) (sy_delivered s);
}.

Lemma outcome_wiped policy submitted j : outcome policy submitted j → job_wiped j.
Proof.
  intros (j0 & [Hok _] & L & HL & E). destruct (execute_job_spec policy j0 Hok) as (j' & E' & Hw & _).
  rewrite E in E'. by injection E' as ->.
Qed.

Lemma executed_key policy j j' : job_ok j → executed policy j j' → job_key j' = job_key j.
Proof.
  intros Hok (L & HL & E). destruct (execute_job_spec policy j Hok) as (j0 & E' & _ & Hk).
  rewrite E in E'. by injection E' as ->.
Qed.

Lemma provenance_submitted policy p ws l submitted more delivered :
  provenance policy (System p ws l submitted delivered) →
  provenance policy (System p ws l (submitted ++ more) delivered).
Proof.
  assert (∀ j, accepted submitted j → accepted (submitted ++ more) j) as Ha
    by (intros j [H1 H2]; split; [done|apply elem_of_app; by left]).
  assert (∀ j, outcome policy submitted j → outcome policy (submitted ++ more) j) as Ho
    by (intros j (j0 & H1 & H2); exists j0; auto).
  intros [H1 H2 H3 H4 H5]. split; cbn in *; [done|eapply Forall_impl..]; try done.
  - intros [] Hw; cbn in *; auto.
  - intros c (j & Hj & ->). eauto.
Qed.

Lemma release_outstanding_fields p :
  wp_policy (release_outstanding p) = wp_policy p ∧ wp_pending (release_outstanding p) = wp_pending p ∧
  wp_completed (release_outstanding p) = wp_completed p ∧
  wp_next_job_id (release_outstanding p) = wp_next_job_id p ∧
  wp_stopping (release_outstanding p) = wp_stopping p.
Proof. unfold release_outstanding. by case_match. Qed.

Lemma stop_pool_fields p p' wakeup :
  stop_pool p = (p', wakeup) →
  wp_policy p' = wp_policy p ∧ wp_pending p' = [] ∧ wp_completed p' = wp_completed p ∧
  wp_next_job_id p' = wp_next_job_id p ∧ wp_stopping p' = true ∧ wakeup = Broadcast.
Proof.
  unfold stop_pool. intros E. injection E as <- <-. assert (∀ (js : list authd_worker_job) q,
    let r := foldl (λ p _, release_outstanding p) q js in
    wp_policy r = wp_policy q ∧ wp_pending r = wp_pending q ∧ wp_completed r = wp_completed q ∧
    wp_next_job_id r = wp_next_job_id q ∧ wp_stopping r = wp_stopping q) as Hfold.
  { induction js as [|j js IH]; intros q; [done|]. cbn [foldl]. cbv zeta.
    destruct (IH (release_outstanding q)) as (-> & -> & -> & -> & ->). apply release_outstanding_fields. }
  destruct (Hfold (wp_pending p) (set_pending [] (set_stopping p))) as (-> & -> & -> & -> & ->). done.
Qed.

Lemma worker_provenance_move policy submitted (ws : list worker) i w :
  Forall (worker_provenance policy submitted) ws → worker_provenance policy submitted w →
  Forall (worker_provenance policy submitted) (<[i := w]> ws).
Proof. intros. by apply Forall_insert. Qed.

Lemma worker_finish_fields p j discard p' :
  worker_finish p j = (discard, p') →
  discard = wp_stopping p ∧ wp_policy p' = wp_policy p ∧ wp_pending p' = wp_pending p ∧
  wp_completed p' = wp_completed p ++ (if discard then [] else [j]) ∧
  wp_next_job_id p' = wp_next_job_id p ∧ wp_stopping p' = wp_stopping p.
Proof.
  unfold worker_finish. destruct (wp_stopping p) eqn:Hs; intros E; injection E as <- <-.
  - destruct (release_outstanding_fields p) as (-> & -> & -> & -> & ->). by rewrite app_nil_r.
  - done.
Qed.

Lemma pop_completion_fields p completion p' :
  pop_completion p = (completion, p') →
  wp_policy p' = wp_policy p ∧ wp_pending p' = wp_pending p ∧ wp_next_job_id p' = wp_next_job_id p ∧
  wp_stopping p' = wp_stopping p ∧
  (completion = None ∧ wp_completed p = [] ∧ p' = p ∨
   ∃ j, wp_completed p = j :: wp_completed p' ∧ completion = Some (completion_of j)).
Proof.
  unfold pop_completion. destruct (wp_completed p) as [|j completed] eqn:Ec; intros E; injection E as <- <-.
  - split_and!; try done. by left.
  - destruct (release_outstanding_fields (set_completed completed p)) as (-> & -> & -> & -> & ->).
    split_and!; try done. right. by exists j.
Qed.

Lemma provenance_alike policy p ws ws' l submitted delivered :
  alike ws ws' → provenance policy (System p ws l submitted delivered) →
  provenance policy (System p ws' l submitted delivered).
Proof.
  intros Ha [H1 H2 H3 H4 H5]. split; cbn in *; try done. rewrite Forall_forall in *.
  intros w (w0 & Hin & E)%(alike_elem _ _ _ Ha). specialize (H3 _ Hin). by destruct w, w0; cbn in E; simplify_eq.
Qed.

Lemma provenance_step policy lab s s' :
  provenance policy s → step lab s s' → provenance policy s'.
Proof.
  intros Hp Hstep. destruct Hstep as
    [p ws ws' submitted delivered ? ? ? ? ? ? ? ? ? p' wakeup E Hw|p ws l submitted delivered i j p' Hi _ E
    |p ws l submitted delivered i Hi _ _|p ws l submitted delivered i Hi
    |p ws l submitted delivered i j j' L Hi HL E|p ws l submitted delivered i j discard p' Hi E
    |p ws l submitted delivered i Hi|p ws ws' l submitted delivered i p' wakeup Hi E Hw
    |p ws l submitted delivered i Hi _
    |p ws submitted delivered _|p ws submitted delivered completion p' E
    |p ws ws' submitted delivered p' wakeup E Hw|p ws submitted delivered Hall]; pose proof Hp as [H1 H2 H3 H4 H5]; cbn in *.
  - apply (provenance_alike _ _ _ _ _ _ _ (woken_alike _ _ _ Hw)).
    apply submit_job_inv in E as [(_ & -> & _)|(j & Hj & E)]; [by apply provenance_submitted|].
    apply enqueue_job_OK in E as (_ & _ & -> & _ & ->). cbn. rewrite drop_app_length.
    apply (provenance_submitted _ _ _ _ _ [set_job_id (wp_next_job_id p) j]) in Hp as [? ? ? ? ?]; cbn in *.
    split; try done. cbn. apply Forall_app. split; [done|]. constructor; [|done].
    split; [|apply elem_of_app; right; by left]. by destruct Hj.
  - unfold worker_take in E. destruct (wp_pending p) as [|j0 pending] eqn:Ep; [done|]. injection E as -> <-.
    inversion H2; subst. split; cbn; try done. by apply worker_provenance_move.
  - by apply (provenance_alike _ _ _ _ _ _ _ (alike_move _ _ _ Sleeping Hi eq_refl)).
  - by apply (provenance_alike _ _ _ _ _ _ _ (alike_move _ _ _ Waiting Hi eq_refl)).
  - split; cbn; try done. apply worker_provenance_move; [done|]. cbn. rewrite Forall_lookup in H3.
    specialize (H3 i _ Hi). cbn in H3. exists j. split; [done|]. exists L. by rewrite <- H1.
  - apply worker_finish_fields in E as (_ & E1 & E2 & E3 & _). split; cbn; rewrite ?E1, ?E2, ?E3; try done.
    + apply worker_provenance_move; [done|]. by destruct discard.
    + apply Forall_app. split; [done|]. destruct discard; constructor; [|done].
      rewrite Forall_lookup in H3. by specialize (H3 i _ Hi).
  - split; cbn; try done. by apply worker_provenance_move.
  - injection E as <- <-. apply (provenance_alike _ _ _ _ _ _ _ (woken_alike _ _ _ Hw)).
    split; cbn; try done. by apply worker_provenance_move.
  - split; cbn; try done. by apply worker_provenance_move.
  - by split.
  - apply pop_completion_fields in E as (E1 & E2 & _ & _ & [(-> & _ & ->)|(j & E3 & ->)]).
    + cbn. rewrite app_nil_r. by split.
    + rewrite E3 in H4. inversion H4; subst. split; cbn; rewrite ?E1, ?E2; try done.
      apply Forall_app. split; [done|]. constructor; [|done]. by exists j.
  - apply (provenance_alike _ _ _ _ _ _ _ (woken_alike _ _ _ Hw)).
    destruct (stop_pool_fields _ _ _ E) as (E1 & E2 & E3 & _). split; cbn; rewrite ?E1, ?E2, ?E3; done.
  - by split.
Qed.

(** *** Identifiers *)

(** The identifier of the [n]th job; it is never zero. *)
Definition job_id_at (n : nat) : Z := 1 + Z.of_nat n mod (2 ^ 64 - 1).

Lemma job_id_next n : (let next := u64 (job_id_at n + 1) in if next =? 0 then 1 else next) = job_id_at (S n).
Proof.
  unfold job_id_at. set (M := 2 ^ 64 - 1). assert (0 < M) as HM by done.
  pose proof (Z.mod_pos_bound (Z.of_nat n) M HM) as Hb. rewrite Nat2Z.inj_succ.
  replace (Z.succ (Z.of_nat n)) with (Z.of_nat n + 1) by lia.
  rewrite <- (Z.add_mod_idemp_l (Z.of_nat n)) by lia. set (r := Z.of_nat n mod M) in *. cbv zeta.
  destruct (Z.eq_dec r (M - 1)) as [->|].
  - replace (M - 1 + 1) with M by lia. rewrite Z.mod_same by lia. reflexivity.
  - rewrite (Z.mod_small (r + 1)) by lia. unfold u64. rewrite wrap_fits.
    + rewrite (proj2 (Z.eqb_neq _ _)) by lia. lia.
    + unfold fits. change (2 ^ 64) with (M + 1). lia.
Qed.

Lemma job_id_inj n m :
  Z.of_nat n < 2 ^ 64 - 1 → Z.of_nat m < 2 ^ 64 - 1 → job_id_at n = job_id_at m → n = m.
Proof. unfold job_id_at. intros Hn Hm. rewrite !Z.mod_small by lia. lia. Qed.

Definition all_keys (s : system) : list (Z * authd_worker_token * authd_worker_job_type) :=
  (job_key <$> in_flight s) ++ (completion_key <$> sy_delivered s).

(** Jobs are numbered in the order of their submission. No job is delivered or in
    flight twice, and until the pool stops none is lost. *)
Record numbered (s : system) : Prop := Numbered {
  nb_next : wp_next_job_id (sy_pool s) = job_id_at (length (sy_submitted s));
  nb_ids : jb_job_id <$> sy_submitted s = job_id_at <$> seq 0 (length (sy_submitted s));
  nb_once : all_keys s ⊆+ job_key <$> sy_submitted s;
  nb_all : wp_stopping (sy_pool s) = false → all_keys s ≡ₚ job_key <$> sy_submitted s;
}.

(** A step that only moves jobs. *)
Lemma numbered_moved s s' :
  numbered s → sy_submitted s' = sy_submitted s →
  wp_next_job_id (sy_pool s') = wp_next_job_id (sy_pool s) →
  all_keys s' ⊆+ all_keys s →
  (wp_stopping (sy_pool s') = false → wp_stopping (sy_pool s) = false ∧ all_keys s' ≡ₚ all_keys s) →
  numbered s'.
Proof.
  intros [H1 H2 H3 H4] Es En Hsub Hall. split; rewrite ?Es, ?En; try done.
  - by etrans.
  - intros Hs. destruct (Hall Hs) as [? ->]. by apply H4.
Qed.

Lemma all_keys_app p ws l submitted delivered :
  all_keys (System p ws l submitted delivered)
    = (job_key <$> wp_pending p) ++ (job_key <$> (ws ≫= carried)) ++ (job_key <$> wp_completed p)
      ++ (completion_key <$> delivered).
Proof. unfold all_keys, in_flight. cbn. rewrite !fmap_app, <- !app_assoc. done. Qed.

(** A thread moves and the keys of its job stay with it. *)
Lemma carried_keys (ws : list worker) i w w' :
  ws !! i = Some w →
  ∃ rest, (job_key <$> (ws ≫= carried)) ≡ₚ (job_key <$> carried w) ++ rest ∧
    (job_key <$> (<[i := w']> ws ≫= carried)) ≡ₚ (job_key <$> carried w') ++ rest.
Proof.
  intros Hi. destruct (carried_move ws i w w' Hi) as (rest & H1 & H2). exists (job_key <$> rest).
  rewrite <- !fmap_app. split; [by rewrite H1|by rewrite H2].
Qed.

Lemma numbered_alike p ws ws' l submitted delivered :
  alike ws ws' → numbered (System p ws l submitted delivered) → numbered (System p ws' l submitted delivered).
Proof.
  intros Ha [H1 H2 H3 H4]. rewrite all_keys_app in *. split; cbn in *; rewrite ?all_keys_app;
    by rewrite <- ?(alike_bind carried ws ws' eq_refl Ha).
Qed.

Lemma numbered_submit p ws submitted delivered j job_id p' wakeup :
  numbered (System p ws Outside submitted delivered) →
  enqueue_job p j = (AUTHD_WORKER_SUBMIT_OK, job_id, p', wakeup) →
  numbered (System p' ws Outside (submitted ++ [set_job_id job_id j]) delivered).
Proof.
  intros [H1 H2 H3 H4] E. apply enqueue_job_OK in E as (Hs & _ & -> & _ & ->). rewrite all_keys_app in *. cbn in *.
  specialize (H4 Hs).
  assert (all_keys (System (set_outstanding (wp_outstanding p + 1)
      (set_pending (wp_pending p ++ [set_job_id (wp_next_job_id p) j]) (snd (next_job_id_locked p)))) ws Outside
      (submitted ++ [set_job_id (wp_next_job_id p) j]) delivered)
    ≡ₚ job_key <$> submitted ++ [set_job_id (wp_next_job_id p) j]) as Hall.
  { rewrite all_keys_app. cbn. rewrite !fmap_app, <- H4. rewrite <- !app_assoc.
    apply Permutation_app_head. cbn. by rewrite Permutation_cons_append, <- !app_assoc. }
  split; cbn.
  - rewrite length_app, H1. cbn. rewrite Nat.add_1_r. apply job_id_next.
  - rewrite fmap_app, H2, length_app, seq_app, fmap_app. cbn. by rewrite H1.
  - by rewrite Hall.
  - done.
Qed.

Lemma numbered_worker p p' ws l submitted delivered i w w' lost :
  numbered (System p ws l submitted delivered) → ws !! i = Some w →
  wp_next_job_id p' = wp_next_job_id p → (wp_stopping p' = false → wp_stopping p = false ∧ lost = []) →
  (job_key <$> wp_pending p) ++ (job_key <$> carried w) ++ (job_key <$> wp_completed p)
    ≡ₚ (job_key <$> wp_pending p') ++ (job_key <$> carried w') ++ (job_key <$> wp_completed p') ++ lost →
  numbered (System p' (<[i := w']> ws) l submitted delivered).
Proof.
  intros Hn Hi Hnext Hs Hkeys. destruct (carried_keys ws i w w' Hi) as (rest & H1 & H2).
  assert (all_keys (System p ws l submitted delivered)
    ≡ₚ all_keys (System p' (<[i := w']> ws) l submitted delivered) ++ lost) as Hall.
  { rewrite !all_keys_app, H1, H2. rewrite <- !app_assoc.
    transitivity (((job_key <$> wp_pending p) ++ (job_key <$> carried w) ++ (job_key <$> wp_completed p))
      ++ rest ++ (completion_key <$> delivered)); [|rewrite Hkeys]; solve_Permutation. }
  apply (numbered_moved _ _ Hn); [done|done| |].
  - rewrite Hall. by apply submseteq_inserts_r.
  - intros Hs'. destruct (Hs Hs') as [? ->]. split; [done|]. by rewrite Hall, app_nil_r.
Qed.

Lemma numbered_step worker_count capacity policy lab s s' :
  counts worker_count capacity s → provenance policy s → numbered s → step lab s s' → numbered s'.
Proof.
  intros Hc Hp Hn Hstep. destruct Hstep as
    [p ws ws' submitted delivered ? ? ? ? ? ? ? ? ? p' wakeup E Hw|p ws l submitted delivered i j p' Hi _ E
    |p ws l submitted delivered i Hi _ _|p ws l submitted delivered i Hi
    |p ws l submitted delivered i j j' L Hi HL E|p ws l submitted delivered i j discard p' Hi E
    |p ws l submitted delivered i Hi|p ws ws' l submitted delivered i p' wakeup Hi E Hw
    |p ws l submitted delivered i Hi Hs
    |p ws submitted delivered _|p ws submitted delivered completion p' E
    |p ws ws' submitted delivered p' wakeup E Hw|p ws submitted delivered Hall].
  - apply (numbered_alike _ _ _ _ _ _ (woken_alike _ _ _ Hw)).
    apply submit_job_inv in E as [(_ & -> & _)|(j & Hj & E)].
    + by rewrite drop_all, app_nil_r.
    + pose proof E as E'. apply enqueue_job_OK in E' as (_ & _ & -> & _ & E'). rewrite E' at 2. cbn.
      rewrite drop_app_length. by eapply numbered_submit.
  - unfold worker_take in E. destruct (wp_pending p) as [|j0 pending] eqn:Ep; [done|]. injection E as -> <-.
    apply (numbered_worker p _ ws l _ _ i Waiting _ []); try done. rewrite Ep. cbn. solve_Permutation.
  - by apply (numbered_alike _ _ _ _ _ _ (alike_move _ _ _ Sleeping Hi eq_refl)).
  - by apply (numbered_alike _ _ _ _ _ _ (alike_move _ _ _ Waiting Hi eq_refl)).
  - assert (job_key j' = job_key j) as Hkey.
    { destruct Hp as [Hpol _ Hw _ _]. cbn in *. rewrite Forall_lookup in Hw. destruct (Hw i _ Hi) as [Hok _].
      eapply executed_key; [done|]. exists L. by rewrite <- Hpol. }
    apply (numbered_worker p _ ws l _ _ i (Working j) _ []); try done. cbn. rewrite Hkey. solve_Permutation.
  - apply worker_finish_fields in E as (E0 & _ & E2 & E3 & E4 & E5).
    apply (numbered_worker p _ ws l _ _ i (Finished j) _ (if discard then [job_key j] else [])); try done.
    + rewrite E5, <- E0. intros ->. done.
    + rewrite E2, E3, fmap_app. destruct discard; cbn; solve_Permutation.
  - apply (numbered_worker p _ ws l _ _ i Notifying _ []); (by intros) || (cbn; solve_Permutation).
  - injection E as <- <-. apply (numbered_alike _ _ _ _ _ _ (woken_alike _ _ _ Hw)).
    apply (numbered_worker p _ ws l _ _ i Notifying _ []); (by intros) || (cbn; solve_Permutation).
  - apply (numbered_worker p _ ws l _ _ i Waiting _ []); (by intros) || (cbn; solve_Permutation).
  - apply (numbered_moved _ _ Hn); done.
  - apply pop_completion_fields in E as (_ & E1 & E2 & E3 & E4).
    assert (all_keys (System p' ws Outside submitted (delivered ++ from_option (λ c, [c]) [] completion))
      ≡ₚ all_keys (System p ws Consumed submitted delivered)) as Hkeys.
    { rewrite !all_keys_app, E1, fmap_app. destruct E4 as [(-> & _ & ->)|(j & -> & ->)]; cbn; solve_Permutation. }
    apply (numbered_moved _ _ Hn); cbn; [done|done|by rewrite Hkeys|]. rewrite E3. done.
  - apply (numbered_alike _ _ _ _ _ _ (woken_alike _ _ _ Hw)).
    destruct (stop_pool_fields _ _ _ E) as (_ & E1 & E2 & E3 & E4 & _).
    apply (numbered_moved _ _ Hn); cbn; [done|done| |].
    + rewrite !all_keys_app, E1, E2. cbn. by apply submseteq_inserts_l.
    + by rewrite E4.
  - apply (numbered_moved _ _ Hn); [done|done| |].
    + rewrite !all_keys_app. apply submseteq_app; [reflexivity|].
      apply submseteq_app; [reflexivity|]. by apply submseteq_inserts_l.
    + intros Hs. by destruct (ct_running _ _ _ Hc Hs) as [[|] _].
Qed.

(** *** No wakeup is lost *)

(** The threads that are about to look for a job. *)
Definition looking (w : worker) : list unit :=
  match w with Waiting => [tt] | _ => [] end.

(** While a thread sleeps, every pending job has a thread of its own that is about
    to look for it; no thread sleeps once the pool stops. *)
Record attended (s : system) : Prop := Attended {
  at_jobs : wp_stopping (sy_pool s) = false → Sleeping ∈ sy_workers s →
    zlen (wp_pending (sy_pool s)) <= zlen (sy_workers s ≫= looking);
  at_stopping : wp_stopping (sy_pool s) = true → Sleeping ∉ sy_workers s;
}.

Lemma awake_all (ws : list worker) : Sleeping ∉ awake <$> ws.
Proof. intros (w & E & _)%list_elem_of_fmap_1. by destruct w. Qed.

(** A thread that does not fall asleep moves: it may leave, if it takes its job
    with it. *)
Lemma attended_worker p p' ws l l' submitted submitted' delivered delivered' i w w' :
  attended (System p ws l submitted delivered) → ws !! i = Some w → w' ≠ Sleeping →
  wp_stopping p' = wp_stopping p →
  (wp_stopping p = false → zlen (wp_pending p') + zlen (looking w) <= zlen (wp_pending p) + zlen (looking w')) →
  attended (System p' (<[i := w']> ws) l' submitted' delivered').
Proof.
  intros [H1 H2] Hi Hw Hs Hle. split; cbn in *; rewrite Hs.
  - intros Hrun [E|Hin]%moved_elem; [congruence|]. specialize (H1 Hrun Hin). specialize (Hle Hrun).
    rewrite (bind_length looking ws i _ w' Hi). lia.
  - intros Hstop [E|Hin]%moved_elem; [congruence|]. by apply (H2 Hstop).
Qed.

Lemma attended_loop p p' ws l l' submitted submitted' delivered delivered' :
  attended (System p ws l submitted delivered) →
  wp_stopping p' = wp_stopping p → wp_pending p' = wp_pending p →
  attended (System p' ws l' submitted' delivered').
Proof. intros [H1 H2] Hs Hp. split; cbn in *; by rewrite Hs, ?Hp. Qed.

Lemma attended_stopped p ws ws' l submitted delivered :
  wp_stopping p = true → woken Broadcast ws ws' → attended (System p ws' l submitted delivered).
Proof.
  intros Hs Hw. inversion Hw; subst. split; cbn; [by rewrite Hs|]. intros _. apply awake_all.
Qed.

(** A submission wakes a thread for its job. *)
Lemma attended_submit p ws ws' submitted submitted' delivered j job_id p' wakeup :
  attended (System p ws Outside submitted delivered) →
  enqueue_job p j = (AUTHD_WORKER_SUBMIT_OK, job_id, p', wakeup) → woken wakeup ws ws' →
  attended (System p' ws' Outside submitted' delivered).
Proof.
  intros [H1 _] (Hs & _ & _ & -> & ->)%enqueue_job_OK Hw. specialize (H1 Hs). cbn in H1. split; cbn; [|congruence].
  intros _ Hin. inversion Hw as [|? i Hi| |]; subst; [|done].
  rewrite zlen_app, (bind_length looking ws i _ Waiting Hi). cbn [looking]. rewrite !zlen_cons, !zlen_nil.
  apply moved_elem in Hin as [|Hin]; [done|]. specialize (H1 Hin). lia.
Qed.

Lemma attended_step lab s s' : attended s → step lab s s' → attended s'.
Proof.
  intros Ha Hstep. destruct Hstep as
    [p ws ws' submitted delivered ? ? ? ? ? ? ? ? ? p' wakeup E Hw|p ws l submitted delivered i j p' Hi _ E
    |p ws l submitted delivered i Hi Hs E|p ws l submitted delivered i Hi
    |p ws l submitted delivered i j j' L Hi HL E|p ws l submitted delivered i j discard p' Hi E
    |p ws l submitted delivered i Hi|p ws ws' l submitted delivered i p' wakeup Hi E Hw
    |p ws l submitted delivered i Hi Hs
    |p ws submitted delivered _|p ws submitted delivered completion p' E
    |p ws ws' submitted delivered p' wakeup E Hw|p ws submitted delivered Hall].
  - apply submit_job_inv in E as [(_ & -> & ->)|(j & _ & E)]; [|by eapply attended_submit].
    inversion Hw; subst. by eapply attended_loop.
  - unfold worker_take in E. destruct (wp_pending p) as [|j0 pending] eqn:Ep; [done|]. injection E as -> <-.
    eapply attended_worker; [done..|]. intros _. cbn [set_pending wp_pending looking].
    rewrite Ep, !zlen_cons, !zlen_nil. lia.
  - unfold worker_take in E. destruct (wp_pending p) eqn:Ep; [|done]. split; cbn; rewrite Hs, ?Ep; [|done].
    intros _ _. apply zlen_nonneg.
  - eapply attended_worker; [done..|]. intros _. cbn [looking]. rewrite zlen_cons, !zlen_nil. lia.
  - by eapply attended_worker.
  - apply worker_finish_fields in E as (_ & _ & E1 & _ & _ & E2). eapply attended_worker; try done; [by destruct discard|].
    intros _. rewrite E1. destruct discard; cbn [looking]; rewrite ?zlen_cons, ?zlen_nil; lia.
  - eapply attended_worker; [done..|]. intros _. cbn [looking set_completion_fd wp_pending].
    rewrite zlen_cons, !zlen_nil. lia.
  - injection E as <- <-. by eapply attended_stopped.
  - eapply attended_worker; [done..|]. congruence.
  - by eapply attended_loop.
  - apply pop_completion_fields in E as (_ & E1 & _ & E2 & _). by eapply attended_loop.
  - destruct (stop_pool_fields _ _ _ E) as (_ & _ & _ & _ & E1 & ->). by eapply attended_stopped.
  - by eapply attended_loop.
Qed.

(** *** Everything that is reachable *)

Record invariant (policy : authd_password_policy) (worker_count : nat) (capacity : Z) (s : system) : Prop :=
  Invariant {
    iv_counts : counts worker_count capacity s;
    iv_provenance : provenance policy s;
    iv_numbered : numbered s;
    iv_attended : attended s;
  }.

Lemma reachable_invariant policy worker_count capacity s :
  0 <= capacity → reachable policy worker_count capacity s → invariant policy worker_count capacity s.
Proof.
  intros Hcap. induction 1 as [|lab s s' _ [Hc Hp Hn Ha] Hstep].
  - assert (∀ w, w ∈ replicate worker_count Waiting → w = Waiting) as Hw
      by (intros w Hin; by apply elem_of_replicate in Hin as [-> _]).
    assert ((replicate worker_count Waiting ≫= carried) = [] ∧ (replicate worker_count Waiting ≫= owed) = [])
      as [Hcar How] by (clear; induction worker_count; done).
    split; (split; cbn; rewrite ?length_replicate; try done; unfold all_keys, in_flight; cbn;
      rewrite ?Hcar, ?How; try done; try lia).
    + intros _. split; [by left|]. intros w Hin. by rewrite (Hw w Hin).
    + apply Forall_forall. intros w Hin. by rewrite (Hw w Hin).
    + intros _ Hin. by specialize (Hw _ Hin).
  - split; [by eapply counts_step|by eapply provenance_step|by eapply numbered_step|by eapply attended_step].
Qed.

(** *** Progress *)

(** How many steps of its own a thread has left before it sleeps or ends. *)
Definition work_left (w : worker) : list unit :=
  replicate (match w with
             | Waiting => 1 | Sleeping => 0 | Working _ => 6 | Finished _ => 5 | Notifying => 4 | Exited => 0
             end)%nat tt.

Definition measure (s : system) : Z :=
  6 * zlen (wp_pending (sy_pool s)) + zlen (sy_workers s ≫= work_left)
    + 2 * wp_completion_fd (sy_pool s) + consumed (sy_loop s).

(** A step of a thread, or of the event loop that takes a completion. *)
Definition quiet (s s' : system) : Prop := step Work s s' ∨ step Delivery s s'.

Definition quiescent (s : system) : Prop := ∀ s', ¬ quiet s s'.

(** A run of [n] such steps, with [k] spurious wakeups between them. *)
Inductive settling : nat → nat → system → system → Prop :=
| settling_done s : settling 0 0 s s
| settling_quiet n k s s' s'' : quiet s s' → settling n k s' s'' → settling (S n) k s s''
| settling_spurious n k s s' s'' : step Spurious s s' → settling n k s' s'' → settling n (S k) s s''.

Ltac less_work Hi :=
  match goal with
  | |- context [<[?i := ?w']> ?ws] =>
      pose proof (bind_length work_left ws i _ w' Hi) as Hwork;
      cbn [work_left replicate] in Hwork; rewrite ?zlen_cons, ?zlen_nil in Hwork
  end.

Lemma release_outstanding_fd p : wp_completion_fd (release_outstanding p) = wp_completion_fd p.
Proof. unfold release_outstanding. by case_match. Qed.

Lemma worker_finish_fd p j discard p' :
  worker_finish p j = (discard, p') → wp_completion_fd p' = wp_completion_fd p.
Proof.
  unfold worker_finish. destruct (wp_stopping p); intros E; injection E as _ <-; [|done].
  apply release_outstanding_fd.
Qed.

Lemma pop_completion_fd p completion p' :
  pop_completion p = (completion, p') → wp_completion_fd p' = wp_completion_fd p.
Proof.
  unfold pop_completion. destruct (wp_completed p); intros E; injection E as _ <-; [done|].
  by rewrite release_outstanding_fd.
Qed.

Lemma quiet_measure s s' : quiet s s' → measure s' < measure s.
Proof.
  unfold measure.
  intros [Hstep|Hstep]; inversion Hstep as
    [|p ws l submitted delivered i j p' Hi _ E|p ws l submitted delivered i Hi _ _|
    |p ws l submitted delivered i j j' L Hi HL E
    |p ws l submitted delivered i j discard p' Hi E|p ws l submitted delivered i Hi| |p ws l submitted delivered i Hi Hs
    |p ws submitted delivered|p ws submitted delivered completion p' E| |]; subst;
    cbn [sy_pool sy_workers sy_loop].
  - unfold worker_take in E. destruct (wp_pending p) as [|j0 pending] eqn:Ep; [done|]. injection E as -> <-.
    less_work Hi. cbn [set_pending wp_pending wp_completion_fd]. rewrite zlen_cons. lia.
  - less_work Hi. lia.
  - less_work Hi. lia.
  - pose proof (worker_finish_fd _ _ _ _ E) as ->. apply worker_finish_fields in E as (_ & _ & -> & _).
    destruct discard; less_work Hi; lia.
  - less_work Hi. cbn [set_completion_fd wp_pending wp_completion_fd]. lia.
  - less_work Hi. lia.
  - cbn [set_completion_fd wp_pending wp_completion_fd consumed]. lia.
  - pose proof (pop_completion_fd _ _ _ E) as ->. apply pop_completion_fields in E as (_ & -> & _).
    cbn [consumed]. lia.
Qed.

Lemma spurious_measure s s' : step Spurious s s' → measure s' = measure s + 1.
Proof.
  unfold measure. intros Hstep. inversion Hstep as [| | |p ws l submitted delivered i Hi| | | | | | | | |]; subst.
  cbn [sy_pool sy_workers sy_loop]. less_work Hi. lia.
Qed.

Lemma quiet_kept s s' :
  quiet s s' → sy_submitted s' = sy_submitted s ∧ wp_stopping (sy_pool s') = wp_stopping (sy_pool s).
Proof.
  intros [Hstep|Hstep]; inversion Hstep; subst; cbn; (split; [done|]); try done.
  - unfold worker_take in *. destruct (wp_pending p); [done|]. by simplify_eq.
  - by match goal with E : worker_finish _ _ = _ |- _ => apply worker_finish_fields in E as (_ & _ & _ & _ & _ & ?) end.
  - by match goal with E : pop_completion _ = _ |- _ => apply pop_completion_fields in E as (_ & _ & _ & ? & _) end.
Qed.

Lemma measure_nonneg worker_count capacity s : counts worker_count capacity s → 0 <= measure s.
Proof.
  intros Hc. pose proof (ct_counter _ _ _ Hc). unfold measure.
  pose proof (zlen_nonneg (wp_pending (sy_pool s))). pose proof (zlen_nonneg (sy_workers s ≫= work_left)).
  assert (0 <= consumed (sy_loop s)) by (destruct (sy_loop s); done). lia.
Qed.

(** A pool without an enabled step has only threads that sleep or have ended. *)
Lemma quiescent_workers `{HL : SodiumLaws} policy s w :
  provenance policy s → quiescent s → w ∈ sy_workers s → w = Sleeping ∨ w = Exited.
Proof.
  intros Hp Hq [i Hi]%list_elem_of_lookup_1. destruct s as [p ws l submitted delivered]. cbn in Hi.
  destruct w as [| |j|j| |]; [|by left| | | |by right]; exfalso.
  - destruct (wp_stopping p) eqn:Hs; [eapply Hq; left; by eapply step_exit|].
    destruct (worker_take p) as [[j p']|] eqn:E; eapply Hq; left; [by eapply step_take|by eapply step_sleep].
  - destruct Hp as [_ _ Hw _ _]. cbn in Hw. rewrite Forall_lookup in Hw. destruct (Hw i _ Hi) as [Hok _].
    destruct (execute_job_spec (wp_policy p) j Hok) as (j' & E & _).
    eapply Hq. left. by eapply step_execute.
  - destruct (worker_finish p j) as [discard p'] eqn:E. eapply Hq. left. by eapply step_finish.
  - eapply Hq. left. by eapply step_notify.
Qed.

Lemma quiescent_delivered `{HL : SodiumLaws} policy worker_count capacity s :
  (0 < worker_count)%nat → invariant policy worker_count capacity s → quiescent s →
  wp_stopping (sy_pool s) = false →
  in_flight s = [] ∧ completion_key <$> sy_delivered s ≡ₚ job_key <$> sy_submitted s.
Proof.
  intros Hn [Hc Hp Hnb Hat] Hq Hs.
  destruct (ct_running _ _ _ Hc Hs) as [Hl Hlive].
  assert (∀ w, w ∈ sy_workers s → w = Sleeping) as Hw.
  { intros w Hin. destruct (quiescent_workers policy s w Hp Hq Hin) as [|Hex]; [done|]. by destruct (Hlive w Hin). }
  assert ((sy_workers s ≫= carried) = [] ∧ (sy_workers s ≫= owed) = [] ∧ (sy_workers s ≫= looking) = [])
    as (Hcar & How & Hlook).
  { clear -Hw. induction (sy_workers s) as [|w ws IH]; [done|]. rewrite (Hw w) by by left.
    destruct IH as (H1 & H2 & H3); [intros; apply Hw; by right|]. by rewrite !bind_cons, H1, H2, H3. }
  pose proof (ct_announced _ _ _ Hc Hs) as Hann. pose proof (ct_counter _ _ _ Hc) as Hfd.
  pose proof (ct_workers _ _ _ Hc) as Hlen.
  destruct s as [p ws l submitted delivered]. cbn in *.
  assert (wp_pending p = []) as Hpending.
  { destruct ws as [|w ws]; [cbn in Hlen; lia|]. pose proof (at_jobs _ Hat Hs) as Hjobs. cbn in Hjobs, Hlook.
    rewrite Hlook in Hjobs. rewrite <- (Hw w) in Hjobs at 1 by by left. specialize (Hjobs ltac:(by left)).
    destruct (wp_pending p) as [|j pending]; [done|]. rewrite zlen_cons in Hjobs.
    pose proof (zlen_nonneg pending). change (zlen []) with 0 in Hjobs. lia. }
  assert (l = Outside) as ->.
  { destruct Hl as [|Hl]; [done|]. subst l. destruct (pop_completion p) as [completion p'] eqn:E.
    exfalso. eapply Hq. right. by eapply step_pop. }
  assert (wp_completion_fd p = 0) as Hzero.
  { destruct (Z_lt_le_dec 0 (wp_completion_fd p)); [|lia]. exfalso. eapply Hq. right. by eapply step_consume. }
  rewrite Hzero, How in Hann. cbn [consumed] in Hann.
  rewrite (zlen_nil (A := unit)) in Hann.
  assert (wp_completed p = []) as Hcompleted.
  { destruct (wp_completed p) as [|j completed]; [done|]. rewrite zlen_cons in Hann.
    pose proof (zlen_nonneg completed). lia. }
  assert (in_flight (System p ws Outside submitted delivered) = []) as Hnone
    by (unfold in_flight; cbn; by rewrite Hpending, Hcar, Hcompleted).
  split; [done|]. pose proof (nb_all _ Hnb Hs) as Hall. unfold all_keys in Hall. by rewrite Hnone in Hall.
Qed.

Lemma spurious_kept s s' :
  step Spurious s s' → sy_submitted s' = sy_submitted s ∧ wp_stopping (sy_pool s') = wp_stopping (sy_pool s).
Proof. intros Hstep. by inversion Hstep; subst. Qed.

Lemma settling_kept policy worker_count capacity n k s s' :
  reachable policy worker_count capacity s → settling n k s s' →
  reachable policy worker_count capacity s' ∧ sy_submitted s' = sy_submitted s ∧
  wp_stopping (sy_pool s') = wp_stopping (sy_pool s).
Proof.
  intros Hr Hsteps. induction Hsteps as [|n k s s1 s' Hstep _ IH|n k s s1 s' Hstep _ IH]; [done|..].
  - destruct (quiet_kept _ _ Hstep) as [<- <-]. apply IH.
    destruct Hstep as [Hstep|Hstep]; by eapply reach_step.
  - destruct (spurious_kept _ _ Hstep) as [<- <-]. apply IH. by eapply reach_step.
Qed.

Lemma settling_measure n k s s' : settling n k s s' → Z.of_nat n + measure s' <= measure s + Z.of_nat k.
Proof.
  induction 1 as [|n k s s1 s' Hstep _ IH|n k s s1 s' Hstep _ IH]; [lia|..].
  - pose proof (quiet_measure _ _ Hstep). lia.
  - pose proof (spurious_measure _ _ Hstep). lia.
Qed.

(** The identifiers of the jobs are distinct. *)
Lemma submitted_ids_distinct s :
  numbered s → zlen (sy_submitted s) < 2 ^ 64 - 1 → NoDup (jb_job_id <$> sy_submitted s).
Proof.
  intros Hn Hsmall. rewrite (nb_ids _ Hn). unfold zlen in Hsmall.
  apply NoDup_fmap_2_strong; [|apply NoDup_seq].
  intros n m Hin1%elem_of_seq Hin2%elem_of_seq. apply job_id_inj; lia.
Qed.

Lemma delivered_once s :
  numbered s → zlen (sy_submitted s) < 2 ^ 64 - 1 → NoDup (wc_job_id <$> sy_delivered s).
Proof.
  intros Hn Hsmall. pose proof (submitted_ids_distinct s Hn Hsmall) as Hnd.
  pose proof (nb_once _ Hn) as Hsub. unfold all_keys in Hsub.
  assert (NoDup ((λ k, k.1.1) <$> (job_key <$> sy_submitted s))) as Hkeys.
  { rewrite <- list_fmap_compose. exact Hnd. }
  assert (((λ k : Z * authd_worker_token * authd_worker_job_type, k.1.1) <$> (completion_key <$> sy_delivered s))
    ⊆+ ((λ k, k.1.1) <$> (job_key <$> sy_submitted s))) as Hids.
  { apply fmap_submseteq. etrans; [|exact Hsub]. by apply submseteq_inserts_l. }
  rewrite <- list_fmap_compose in Hids. apply submseteq_Permutation in Hids as [rest Hperm]. rewrite Hperm in Hkeys.
  by apply NoDup_app in Hkeys as [? _].
Qed.

(** ** Properties *)

(** [queue_pop] and [queue_push] implement a first-in first-out queue on the
    linked nodes: on a queue of any length they are never stuck, the first removes
    the oldest job and the second appends behind the newest, the head and tail
    pointers stay consistent, no job is changed, and a queue of other nodes is
    left as it is. *)
Theorem queue_correct {J} (memory : gmap positive (node J)) head tail jobs :
  is_queue memory head tail jobs →
  (∃ head' tail' memory',
     queue_pop head tail memory = Some (hd_error jobs, head', tail', memory') ∧
     is_queue memory' head' tail' (List.tl jobs) ∧
     (∀ l, nd_job <$> memory' !! l = nd_job <$> memory !! l) ∧
     ∀ head2 tail2 others, is_queue memory head2 tail2 others → (∀ l, l ∈ others → l ∉ jobs) →
       is_queue memory' head2 tail2 others) ∧
  (∀ job n, memory !! job = Some n → job ∉ jobs → ∃ head' tail' memory',
     queue_push head tail job memory = Some (head', tail', memory') ∧
     is_queue memory' head' tail' (jobs ++ [job]) ∧
     (∀ l, nd_job <$> memory' !! l = nd_job <$> memory !! l) ∧
     ∀ head2 tail2 others, is_queue memory head2 tail2 others → (∀ l, l ∈ others → l ∉ jobs ∧ l ≠ job) →
       is_queue memory' head2 tail2 others).
Proof.
  intros Hq. split.
  - destruct (queue_pop_spec _ _ _ _ Hq) as (head' & tail' & memory' & E & Hq' & Hframe).
    exists head', tail', memory'. split_and!; try done.
    + intros l. by eapply queue_pop_jobs.
    + intros head2 tail2 others Ho Hdisj. eapply is_queue_frame; [done|]. intros l Hl. apply Hframe.
      intros Hhd. apply (Hdisj l Hl). destruct jobs; [done|]. injection Hhd as ->. by left.
  - intros job n Hn Hnew.
    destruct (queue_push_spec _ _ _ _ _ _ Hq Hn Hnew) as (head' & tail' & memory' & E & Hq' & Hframe).
    exists head', tail', memory'. split_and!; try done.
    + intros l. by eapply queue_push_jobs.
    + intros head2 tail2 others Ho Hdisj. eapply is_queue_frame; [done|]. intros l Hl.
      destruct (Hdisj l Hl). by apply Hframe.
Qed.

(** [submit_job] is never stuck on a password buffer and a terminated hash, and
    always overwrites the whole buffer of the caller with zeros, also when it
    refuses the job. The job that it queues holds exactly the password, and the hash
    with its terminator; the identifier, the queue and the number of outstanding
    jobs change, and a worker is signalled, exactly if the result is
    [AUTHD_WORKER_SUBMIT_OK]. *)
Theorem submit_job_correct allocated p token job_type encoded_hash buffer text length :
  hash_argument job_type encoded_hash text → 0 <= length →
  0 < zlen buffer <= AUTHD_PASSWORD_MAX_BUFFER_BYTES →
  ∃ result job_id p' wakeup,
    submit_job allocated (Some p) (Some token) job_type encoded_hash (Some buffer) length (zlen buffer)
      = Some (result, job_id, Some (zeros (zlen buffer)), Some p', wakeup) ∧
    (result = AUTHD_WORKER_SUBMIT_INVALID ↔ submission_ok text length (zlen buffer) = false) ∧
    (result = AUTHD_WORKER_SUBMIT_OK ↔
       submission_ok text length (zlen buffer) = true ∧ allocated = true ∧
       wp_stopping p = false ∧ wp_outstanding p < wp_capacity p) ∧
    if bool_decide (result = AUTHD_WORKER_SUBMIT_OK) then
      job_id = wp_next_job_id p ∧ wakeup = Signal ∧
      p' = set_outstanding (wp_outstanding p + 1)
             (set_pending
                (wp_pending p ++
                   [set_job_id job_id (built_job token job_type text (take (Z.to_nat length) buffer))])
                (snd (next_job_id_locked p)))
    else job_id = 0 ∧ p' = p ∧ wakeup = Silent.
Proof.
  intros Hhash Hlen Hcap. rewrite (submit_job_spec _ _ _ _ _ _ text) by done.
  destruct (submission_ok text length (zlen buffer)); cbn [negb].
  2:{ eexists _, _, _, _. split; [done|]. split; [done|]. split; [|done]. by split; [|intros (? & _)]. }
  destruct allocated; cbn [negb].
  2:{ eexists _, _, _, _. split; [done|]. split; [done|]. split; [|done]. by split; [|intros (_ & ? & _)]. }
  unfold enqueue_job. destruct (wp_stopping p).
  { eexists _, _, _, _. split; [done|]. split; [done|]. split; [|done]. by split; [|intros (_ & _ & ? & _)]. }
  destruct (Z.leb_spec (wp_capacity p) (wp_outstanding p)).
  { eexists _, _, _, _. split; [done|]. split; [done|]. split; [|done]. split; [done|]. intros (_ & _ & _ & ?). lia. }
  cbn [next_job_id_locked]. eexists _, _, _, _. split; [done|]. split; [done|]. by split.
Qed.

(** C7: In every reachable state, whatever the interleaving of the event loop and
    the threads, and also while the pool stops: the number of outstanding jobs is
    the number of the accepted jobs whose completion was not taken and stays within
    the capacity; the counter that wakes the event loop never exceeds the number
    of completed jobs (so a read of it always finds one, and it cannot overflow);
    a job that a thread has executed holds no byte of the password, nor of the
    stored hash; and a thread that holds a job is never stuck on it. *)
Theorem worker_pool_safe `{SodiumLaws} policy worker_count capacity s :
  0 <= capacity → reachable policy worker_count capacity s →
  wp_outstanding (sy_pool s) = zlen (in_flight s) ∧ wp_outstanding (sy_pool s) <= capacity ∧
  0 <= wp_completion_fd (sy_pool s) <= capacity ∧
  (sy_loop s = Consumed → wp_completed (sy_pool s) ≠ []) ∧
  (∀ j, j ∈ wp_completed (sy_pool s) ∨ Finished j ∈ sy_workers s → job_wiped j) ∧
  (∀ j, Working j ∈ sy_workers s → is_Some (execute_job policy j)).
Proof.
  intros Hcap Hr. destruct (reachable_invariant _ _ _ _ Hcap Hr) as [Hc [Hpol Hp Hw Hcomp Hd] Hn].
  split_and!; [apply Hc|apply Hc|apply Hc|apply Hc| | |].
  - intros Hl E. pose proof (ct_notices _ _ _ Hc ltac:(by rewrite Hl)) as Hnot. rewrite Hl, E in Hnot.
    pose proof (ct_counter _ _ _ Hc). cbn [consumed] in Hnot. rewrite (zlen_nil (A := authd_worker_job)) in Hnot.
    pose proof (zlen_nonneg (sy_workers s ≫= owed)). lia.
  - intros j [Hj|Hj]; (eapply outcome_wiped).
    + rewrite Forall_forall in Hcomp. by apply Hcomp.
    + rewrite Forall_forall in Hw. by apply (Hw (Finished j)).
  - intros j Hj. rewrite Forall_forall in Hw. destruct (Hw _ Hj) as [Hok _].
    destruct (execute_job_spec policy j Hok) as (j' & -> & _). by eexists.
Qed.

(** C8: The completions that the event loop takes are the results of accepted
    jobs, each with the identifier, the token and the type of its job, and no job
    is delivered twice; a completion of a verification carries no hash. Until the
    pool stops, every accepted job is either delivered or still in flight. *)
Theorem worker_completions_correct policy worker_count capacity s :
  0 <= capacity → reachable policy worker_count capacity s →
  zlen (sy_submitted s) < 2 ^ 64 - 1 →
  NoDup (wc_job_id <$> sy_delivered s) ∧
  (∀ c, c ∈ sy_delivered s → ∃ j j', j ∈ sy_submitted s ∧ executed policy j j' ∧ c = completion_of j' ∧
     completion_key c = job_key j ∧
     (wc_job_type c = AUTHD_WORKER_JOB_VERIFY_PASSWORD →
      wc_encoded_hash c = zeros (AUTHD_WORKER_HASH_MAX_BYTES + 1))) ∧
  (wp_stopping (sy_pool s) = false →
     (job_key <$> in_flight s) ++ (completion_key <$> sy_delivered s) ≡ₚ job_key <$> sy_submitted s).
Proof.
  intros Hcap Hr Hsmall. destruct (reachable_invariant _ _ _ _ Hcap Hr) as [Hc [Hpol Hp Hw Hcomp Hd] Hn].
  split_and!; [| |by apply Hn].
  - by apply delivered_once.
  - intros c Hin. rewrite Forall_forall in Hd. destruct (Hd c Hin) as (j' & Ho & ->).
    pose proof (outcome_wiped _ _ _ Ho) as Hwiped. destruct Ho as (j & [Hok Hj] & Hex).
    exists j, j'. split_and!; try done; [by apply (executed_key _ _ _ Hok Hex)|]. apply (jw_text _ Hwiped).
Qed.

(** C31: No wakeup is lost: in every reachable state of a pool that does not stop,
    as long as some thread sleeps in [pthread_cond_wait], there are at least as many
    threads awake and about to look for a job as there are pending jobs; in a pool
    that stops no thread sleeps. So without new submissions the pool comes to rest:
    every interleaving of the threads and the loop that takes completions, in which
    [k] sleeping threads wake up for no reason, has at most [measure s + k] steps of
    theirs. A pool at rest that does not stop has delivered every accepted job
    exactly once; at a pool at rest that stops every thread has ended, so
    [authd_worker_pool_destroy] does not wait for ever. *)
Theorem worker_pool_progress `{SodiumLaws} policy worker_count capacity s :
  (0 < worker_count)%nat → 0 <= capacity → reachable policy worker_count capacity s →
  (Sleeping ∈ sy_workers s →
     wp_stopping (sy_pool s) = false ∧
     zlen (wp_pending (sy_pool s)) <= zlen (sy_workers s ≫= looking)) ∧
  ∀ n k s', settling n k s s' →
    Z.of_nat n <= measure s + Z.of_nat k ∧
    (quiescent s' →
     if wp_stopping (sy_pool s) then ∀ w, w ∈ sy_workers s' → w = Exited
     else completion_key <$> sy_delivered s' ≡ₚ job_key <$> sy_submitted s).
Proof.
  intros Hn Hcap Hr. pose proof (reachable_invariant _ _ _ _ Hcap Hr) as [_ _ _ [Hjobs Hstop]]. split.
  { intros Hin. destruct (wp_stopping (sy_pool s)); [by destruct (Hstop eq_refl)|]. auto. }
  intros n k s' Hsteps. destruct (settling_kept _ _ _ _ _ _ _ Hr Hsteps) as (Hr' & Es & Estop).
  pose proof (reachable_invariant _ _ _ _ Hcap Hr') as Hinv. split.
  - pose proof (settling_measure _ _ _ _ Hsteps). pose proof (measure_nonneg _ _ _ (iv_counts _ _ _ _ Hinv)). lia.
  - intros Hq. rewrite <- Estop, <- Es. destruct (wp_stopping (sy_pool s')) eqn:Hs.
    + intros w Hin. destruct (quiescent_workers policy s' w (iv_provenance _ _ _ _ Hinv) Hq Hin) as [->|]; [|done].
      by destruct (at_stopping _ (iv_attended _ _ _ _ Hinv) Hs).
    + by eapply quiescent_delivered.
Qed.

(** *** A sample run *)

#[local] Existing Instance sample_sodium.
#[local] Existing Instance sample_sodium_laws.

Definition sample_token : authd_worker_token := WorkerToken 7 1 42.
Definition sample_pool : authd_worker_pool := created_pool sample_policy 4.
Definition sample_buffer : list Z := sample_secret ++ zeros 5.

(** The submission of a password to hash, and what one of two threads and the event
    loop make of it. *)
Definition sample_submission : run (authd_worker_submit_result * Z * ptr * option authd_worker_pool * wakeup) :=
  submit_job true (Some sample_pool) (Some sample_token) AUTHD_WORKER_JOB_GENERATE_PASSWORD_HASH None
    (Some sample_buffer) 13 18.

Definition sample_job : authd_worker_job :=
  set_job_id 1 (built_job sample_token AUTHD_WORKER_JOB_GENERATE_PASSWORD_HASH [] sample_secret).
Definition sample_result : authd_worker_job := default zero_job (execute_job sample_policy sample_job).

Definition sample_working : system :=
  System (set_outstanding 1 (set_next_job_id 2 sample_pool)) [Sleeping; Working sample_job] Outside
    [sample_job] [].
Definition sample_end : system :=
  System (set_next_job_id 2 sample_pool) [Sleeping; Sleeping] Outside [sample_job] [completion_of sample_result].

Lemma sample_submission_ok :
  sample_submission
    = Some (AUTHD_WORKER_SUBMIT_OK, 1, Some (zeros 18),
            Some (set_outstanding 1 (set_pending [sample_job] (set_next_job_id 2 sample_pool))), Signal).
Proof. vm_compute. reflexivity. Qed.

(** Both threads sleep before the submission, and its signal wakes the second. *)
Lemma sample_working_reachable : reachable sample_policy 2 4 sample_working.
Proof.
  set (p := set_outstanding 1 (set_pending [sample_job] (set_next_job_id 2 sample_pool))).
  eapply reach_step; [eapply reach_step; [eapply reach_step; [eapply reach_step; [apply reach_created|]|]|]|].
  - apply (step_sleep _ [Waiting; Waiting] Outside [] [] 0); reflexivity.
  - apply (step_sleep _ [Sleeping; Waiting] Outside [] [] 1); reflexivity.
  - eapply step_submit; [exact sample_submission_ok|]. by apply (woken_signal [Sleeping; Sleeping] 1).
  - apply (step_take p [Sleeping; Waiting] Outside [sample_job] [] 1 sample_job); reflexivity.
Qed.

Lemma sample_execution : execute_job sample_policy sample_job = Some sample_result.
Proof. vm_compute. reflexivity. Qed.

Lemma sample_run : settling 6 0 sample_working sample_end.
Proof.
  set (p := set_outstanding 1 (set_next_job_id 2 sample_pool)).
  eapply settling_quiet; [left; apply (step_execute p [Sleeping; Working sample_job] Outside [sample_job] [] 1
    sample_job sample_result _ eq_refl _ sample_execution)|].
  eapply settling_quiet; [left; eapply (step_finish p _ Outside [sample_job] [] 1 sample_result); reflexivity|].
  eapply settling_quiet; [left; eapply (step_notify _ _ Outside [sample_job] [] 1); reflexivity|].
  eapply settling_quiet; [left; eapply (step_sleep _ _ Outside [sample_job] [] 1); reflexivity|].
  eapply settling_quiet; [right; eapply step_consume; reflexivity|].
  eapply settling_quiet; [right; eapply step_pop; reflexivity|]. apply settling_done.
Qed.

Lemma sample_end_reachable : reachable sample_policy 2 4 sample_end.
Proof. apply (settling_kept _ _ _ _ _ _ _ sample_working_reachable sample_run). Qed.

Lemma sample_end_quiescent : quiescent sample_end.
Proof.
  intros s [Hstep|Hstep]; inversion Hstep; subst; try discriminate;
    repeat match goal with E : [Sleeping; Sleeping] !! ?i = Some _ |- _ => destruct i as [|[|?]]; discriminate E end.
Qed.

Lemma queue_correct_witness :
  let memory : gmap positive (node Z) := {[1%positive := Node 10 (Some 2%positive); 2%positive := Node 20 None; 3%positive := Node 30 None]} in
  is_queue memory (Some 1%positive) (Some 2%positive) [1%positive; 2%positive] ∧
  ∃ head tail memory', queue_push (Some 1%positive) (Some 2%positive) 3%positive memory = Some (head, tail, memory') ∧
    is_queue memory' head tail [1%positive; 2%positive; 3%positive].
Proof.
  intros memory.
  assert (is_queue memory (Some 1%positive) (Some 2%positive) [1%positive; 2%positive]) as Hq.
  { split_and!; [|reflexivity|].
    - split; [reflexivity|]. eexists. split; [reflexivity|]. split; [reflexivity|]. eexists. split; reflexivity.
    - apply (bool_decide_unpack _). vm_compute. exact I. }
  split; [exact Hq|].
  destruct (queue_correct memory _ _ _ Hq) as [_ Hpush].
  destruct (Hpush 3%positive (Node 30 None) eq_refl) as (head & tail & memory' & E & Hq' & _).
  - intros [?|[?|[]%elem_of_nil]%elem_of_cons]%elem_of_cons; discriminate.
  - exists head, tail, memory'. split; [exact E|exact Hq'].
Defined.

Lemma submit_job_correct_witness :
  hash_argument AUTHD_WORKER_JOB_GENERATE_PASSWORD_HASH None [] ∧
  0 < zlen sample_buffer <= AUTHD_PASSWORD_MAX_BUFFER_BYTES ∧
  ∃ p', sample_submission = Some (AUTHD_WORKER_SUBMIT_OK, 1, Some (zeros 18), Some p', Signal) ∧
    wp_pending p' = [sample_job].
Proof.
  assert (0 < zlen sample_buffer <= AUTHD_PASSWORD_MAX_BUFFER_BYTES) as Hcap by (split; vm_compute; congruence).
  split; [split; reflexivity|]. split; [exact Hcap|].
  destruct (submit_job_correct true sample_pool sample_token AUTHD_WORKER_JOB_GENERATE_PASSWORD_HASH None
    sample_buffer [] 13 (conj eq_refl eq_refl) ltac:(done) Hcap) as (result & job_id & p' & wakeup & E & _ & Hok & Hp).
  assert (result = AUTHD_WORKER_SUBMIT_OK) as ->.
  { apply Hok. split_and!; reflexivity. }
  destruct Hp as (-> & -> & ->). eexists. split; [exact E|]. vm_compute. reflexivity.
Defined.

Lemma worker_pool_safe_witness :
  reachable sample_policy 2 4 sample_working ∧ wp_outstanding (sy_pool sample_working) = 1 ∧
  is_Some (execute_job sample_policy sample_job).
Proof.
  split; [exact sample_working_reachable|].
  destruct (worker_pool_safe sample_policy 2 4 sample_working ltac:(done) sample_working_reachable)
    as (E & _ & _ & _ & _ & Hwork). split; [exact E|]. apply Hwork. right. by left.
Defined.

Lemma worker_completions_correct_witness :
  reachable sample_policy 2 4 sample_end ∧ zlen (sy_submitted sample_end) < 2 ^ 64 - 1 ∧
  completion_key (completion_of sample_result) = (1, sample_token, AUTHD_WORKER_JOB_GENERATE_PASSWORD_HASH).
Proof.
  split; [exact sample_end_reachable|]. split; [reflexivity|].
  destruct (worker_completions_correct sample_policy 2 4 sample_end ltac:(done) sample_end_reachable eq_refl)
    as (_ & Hc & _). destruct (Hc (completion_of sample_result) ltac:(by left)) as (j & j' & Hj & _ & _ & E & _).
  rewrite E. by apply list_elem_of_singleton in Hj as ->.
Defined.

Lemma worker_pool_progress_witness :
  reachable sample_policy 2 4 sample_working ∧ settling 6 0 sample_working sample_end ∧ quiescent sample_end ∧
  completion_key <$> sy_delivered sample_end ≡ₚ job_key <$> sy_submitted sample_working.
Proof.
  split; [exact sample_working_reachable|]. split; [exact sample_run|]. split; [exact sample_end_quiescent|].
  destruct (worker_pool_progress sample_policy 2 4 sample_working ltac:(lia) ltac:(done) sample_working_reachable)
    as [_ Hend]. destruct (Hend 6%nat 0%nat sample_end sample_run) as [_ Hrest].
  exact (Hrest sample_end_quiescent).
Defined.
