(* ===== verification/Configuration.v ===== *)
(** * The configuration of the daemon

    [fortytwo-auth/src/authd_config.c]: the command line is parsed into the
    structure that the daemon runs with. The calls of [getopt_long] are an
    interface; what they answer is judged and stored here. *)

From S2P Require Import Prelude Protocol Throttle Limiter Program Services Client EventLoop.

(** ** Constants *)

Definition AUTHD_MAX_ALLOWED_UIDS : Z := 32.
Definition AUTHD_MIN_BACKLOG : Z := 1.
Definition AUTHD_MAX_BACKLOG : Z := 4096.
Definition AUTHD_MIN_HELLO_TIMEOUT_MS : Z := 100.
Definition AUTHD_MAX_HELLO_TIMEOUT_MS : Z := 300000.
Definition AUTHD_MIN_PASSWORD_WORKERS : Z := 1.
Definition AUTHD_MAX_PASSWORD_WORKERS : Z := 8.
Definition AUTHD_DEFAULT_PASSWORD_WORKERS : Z := 2.
Definition AUTHD_MIN_PASSWORD_QUEUE_CAPACITY : Z := 1.
Definition AUTHD_MAX_PASSWORD_QUEUE_CAPACITY : Z := 64.
Definition AUTHD_DEFAULT_PASSWORD_QUEUE_CAPACITY : Z := 16.
Definition AUTHD_DB_HOST_MAX : Z := 255.
Definition AUTHD_DB_NAME_MAX : Z := 63.
Definition AUTHD_DB_MIN_PORT : Z := 1.
Definition AUTHD_DB_MAX_PORT : Z := 65535.
Definition AUTHD_DB_MIN_CONNECT_TIMEOUT_SECONDS : Z := 1.
Definition AUTHD_DB_MAX_CONNECT_TIMEOUT_SECONDS : Z := 60.
Definition AUTHD_REGISTRATION_DEFAULT_MIN_PASSWORD_BYTES : Z := 12.
Definition AUTHD_REGISTRATION_DEFAULT_TIMEOUT_SECONDS : Z := 600.
Definition AUTHD_REGISTRATION_DEFAULT_MAX_PENDING : Z := 16.
Definition FTAP_DEFAULT_SOCKET_PATH : list Z := lit "/run/fortytwo/auth.sock".

(** [sizeof(((struct sockaddr_un * )0)->sun_path)] *)
Definition SOCKET_PATH_SIZE : Z := 108.
Definition INT_MAX : Z := 2147483647.
Definition UINT16_MAX : Z := 65535.

(** ** Data *)

(** The members that are numbers with a range. *)
Inductive numeric_member :=
| max_clients
| backlog
| hello_timeout_ms
| password_workers
| password_queue_capacity
| password_failure_threshold
| password_failure_window_seconds
| password_throttle_seconds
| registration_min_password_bytes
| registration_timeout_seconds
| registration_max_pending
| registration_ip_attempts
| registration_ip_window_seconds
| db_port
| db_connect_timeout_seconds
| db_health_interval_ms.

#[export] Instance numeric_member_eq_dec : EqDecision numeric_member.
Proof. solve_decision. Defined.

(** [authd_config_t] *)
Record authd_options := Options {
  op_socket_path : list Z;
  op_socket_mode : Z;
  op_socket_gid : Z;
  op_socket_gid_set : bool;
  op_allowed_uids : list Z;
  op_allowed_uid_count : Z;
  op_number : numeric_member → Z;
  op_registration_enabled : bool;
  op_db_host : list Z;
  op_db_name : list Z;
  op_verbose : bool;
  op_check_config : bool;
  op_check_database : bool;
}.

(** The members that the server reads, as [Services] has them. *)
Definition server_config (c : authd_options) : authd_config :=
  let n := op_number c in
  Config (op_allowed_uids c) (op_allowed_uid_count c) (n max_clients) (n hello_timeout_ms)
    (n password_workers) (n password_queue_capacity) (n password_failure_threshold)
    (n password_failure_window_seconds) (n password_throttle_seconds) (op_registration_enabled c)
    (n registration_min_password_bytes) (n registration_timeout_seconds) (n registration_max_pending)
    (n registration_ip_attempts) (n registration_ip_window_seconds) (n db_health_interval_ms).

Definition set_op_socket_path v (c : authd_options) : authd_options :=
  Options v (op_socket_mode c) (op_socket_gid c) (op_socket_gid_set c) (op_allowed_uids c)
    (op_allowed_uid_count c) (op_number c) (op_registration_enabled c) (op_db_host c) (op_db_name c)
    (op_verbose c) (op_check_config c) (op_check_database c).
Definition set_op_socket_mode v (c : authd_options) : authd_options :=
  Options (op_socket_path c) v (op_socket_gid c) (op_socket_gid_set c) (op_allowed_uids c)
    (op_allowed_uid_count c) (op_number c) (op_registration_enabled c) (op_db_host c) (op_db_name c)
    (op_verbose c) (op_check_config c) (op_check_database c).
(** [socket_gid], and [socket_gid_set = true] *)
Definition set_op_socket_gid v (c : authd_options) : authd_options :=
  Options (op_socket_path c) (op_socket_mode c) v true (op_allowed_uids c)
    (op_allowed_uid_count c) (op_number c) (op_registration_enabled c) (op_db_host c) (op_db_name c)
    (op_verbose c) (op_check_config c) (op_check_database c).
Definition set_op_allowed_uids uids count (c : authd_options) : authd_options :=
  Options (op_socket_path c) (op_socket_mode c) (op_socket_gid c) (op_socket_gid_set c) uids
    count (op_number c) (op_registration_enabled c) (op_db_host c) (op_db_name c)
    (op_verbose c) (op_check_config c) (op_check_database c).
Definition set_op_number (m : numeric_member) v (c : authd_options) : authd_options :=
  Options (op_socket_path c) (op_socket_mode c) (op_socket_gid c) (op_socket_gid_set c) (op_allowed_uids c)
    (op_allowed_uid_count c) (λ m', if decide (m' = m) then v else op_number c m')
    (op_registration_enabled c) (op_db_host c) (op_db_name c)
    (op_verbose c) (op_check_config c) (op_check_database c).
Definition set_op_registration_enabled v (c : authd_options) : authd_options :=
  Options (op_socket_path c) (op_socket_mode c) (op_socket_gid c) (op_socket_gid_set c) (op_allowed_uids c)
    (op_allowed_uid_count c) (op_number c) v (op_db_host c) (op_db_name c)
    (op_verbose c) (op_check_config c) (op_check_database c).
Definition set_op_db_host v (c : authd_options) : authd_options :=
  Options (op_socket_path c) (op_socket_mode c) (op_socket_gid c) (op_socket_gid_set c) (op_allowed_uids c)
    (op_allowed_uid_count c) (op_number c) (op_registration_enabled c) v (op_db_name c)
    (op_verbose c) (op_check_config c) (op_check_database c).
Definition set_op_db_name v (c : authd_options) : authd_options :=
  Options (op_socket_path c) (op_socket_mode c) (op_socket_gid c) (op_socket_gid_set c) (op_allowed_uids c)
    (op_allowed_uid_count c) (op_number c) (op_registration_enabled c) (op_db_host c) v
    (op_verbose c) (op_check_config c) (op_check_database c).
Definition set_op_verbose v (c : authd_options) : authd_options :=
  Options (op_socket_path c) (op_socket_mode c) (op_socket_gid c) (op_socket_gid_set c) (op_allowed_uids c)
    (op_allowed_uid_count c) (op_number c) (op_registration_enabled c) (op_db_host c) (op_db_name c)
    v (op_check_config c) (op_check_database c).
Definition set_op_check_config v (c : authd_options) : authd_options :=
  Options (op_socket_path c) (op_socket_mode c) (op_socket_gid c) (op_socket_gid_set c) (op_allowed_uids c)
    (op_allowed_uid_count c) (op_number c) (op_registration_enabled c) (op_db_host c) (op_db_name c)
    (op_verbose c) v (op_check_database c).
Definition set_op_check_database v (c : authd_options) : authd_options :=
  Options (op_socket_path c) (op_socket_mode c) (op_socket_gid c) (op_socket_gid_set c) (op_allowed_uids c)
    (op_allowed_uid_count c) (op_number c) (op_registration_enabled c) (op_db_host c) (op_db_name c)
    (op_verbose c) (op_check_config c) v.

Inductive authd_config_result :=
| AUTHD_CONFIG_OK
| AUTHD_CONFIG_HELP
| AUTHD_CONFIG_VERSION
| AUTHD_CONFIG_ERROR.

(** The options: [h], [s] and the long ones, and [?] with [optopt]. An option that
    sets a member with a range is named by the member. *)
Inductive config_option :=
| OPTION_HELP
| OPTION_SOCKET
| OPTION_SOCKET_MODE
| OPTION_SOCKET_GID
| OPTION_ALLOW_UID
| OPTION_NUMBER (m : numeric_member)
| OPTION_REGISTRATION_ENABLED
| OPTION_DB_HOST
| OPTION_DB_NAME
| OPTION_CHECK_CONFIG
| OPTION_CHECK_DATABASE
| OPTION_VERBOSE
| OPTION_VERSION
| OPTION_UNKNOWN (optopt : Z).

#[export] Instance config_option_eq_dec : EqDecision config_option.
Proof. solve_decision. Defined.

(** The name of the option in the table and in the messages. *)
Definition option_name (m : numeric_member) : list Z :=
  match m with
  | max_clients => lit "max-clients"
  | backlog => lit "backlog"
  | hello_timeout_ms => lit "hello-timeout-ms"
  | password_workers => lit "password-workers"
  | password_queue_capacity => lit "password-queue-capacity"
  | password_failure_threshold => lit "password-failure-threshold"
  | password_failure_window_seconds => lit "password-failure-window-seconds"
  | password_throttle_seconds => lit "password-throttle-seconds"
  | registration_min_password_bytes => lit "registration-min-password-bytes"
  | registration_timeout_seconds => lit "registration-timeout-seconds"
  | registration_max_pending => lit "registration-max-pending"
  | registration_ip_attempts => lit "registration-ip-attempts"
  | registration_ip_window_seconds => lit "registration-ip-window-seconds"
  | db_port => lit "db-port"
  | db_connect_timeout_seconds => lit "db-connect-timeout-seconds"
  | db_health_interval_ms => lit "db-health-interval-ms"
  end.

(** The options of the table with [required_argument]. *)
Definition has_argument (o : config_option) : bool :=
  match o with
  | OPTION_SOCKET | OPTION_SOCKET_MODE | OPTION_SOCKET_GID | OPTION_ALLOW_UID | OPTION_NUMBER _
  | OPTION_DB_HOST | OPTION_DB_NAME => true
  | _ => false
  end.

(** A call of [getopt_long] that finds an option, and [optarg] after it. *)
Record getopt_answer := Answer {
  ga_option : config_option;
  ga_optarg : ptr;
}.

(** What the calls answer until they return -1, [optind] then, and the arguments in
    the order that the calls leave. *)
Class Getopt := getopt_long : Z → list ptr → list getopt_answer * Z * list ptr.

(** ** Numbers *)

Definition isspace (c : Z) : bool := (c =? 32) || between 9 13 c.

Fixpoint skip_space (text : list Z) : run (list Z) :=
  match text with
  | [] => None
  | c :: text' => if isspace c then skip_space text' else Some text
  end.

Definition digit_of (base c : Z) : bool := between (chr "0") (chr "0" + base - 1) c.

(** The value of the digits from here on, and what follows them. *)
Fixpoint scan_digits (base acc : Z) (text : list Z) : run (Z * list Z) :=
  match text with
  | [] => None
  | c :: text' => if digit_of base c then scan_digits base (acc * base + (c - chr "0")) text' else Some (acc, text)
  end.

(** Whether there is a minus sign, and what follows the sign. *)
Definition read_sign (text : list Z) : run (bool * list Z) :=
  let! first := buf_get text 0 in
  if (first =? chr "-") || (first =? chr "+") then
    let! digits := buf_at text 1 in Some (first =? chr "-", digits)
  else Some (false, text).

(** [strtoumax] for a base up to 10: the value, whether it is out of range, and [end]. *)
Definition strtoumax (text : list Z) (base : Z) : run (Z * bool * list Z) :=
  let! digits := skip_space text in
  let! (negative, digits) := read_sign digits in
  let! (value, rest) := scan_digits base 0 digits in
  Some (if (length rest =? length digits)%nat then (0, false, text)
        else if UINT64_MAX <? value then (UINT64_MAX, true, rest)
        else (if negative then u64 (- value) else value, false, rest)).

Definition parse_uintmax_value (text : ptr) (base : Z) : run (option Z) :=
  match text with
  | None => Some None
  | Some text =>
      let! first := buf_get text 0 in
      if (first =? 0) || (first =? chr "-") then Some None
      else
        let! (parsed, range_error, rest) := strtoumax text base in
        if range_error || (length rest =? length text)%nat then Some None
        else
          let! last := buf_get rest 0 in
          Some (if negb (last =? 0) then None else Some parsed)
  end.

(** The parsers of a number that must pass a test and is then converted. *)
Definition parse_checked (text : ptr) (base : Z) (valid : Z → bool) : run (option Z) :=
  let! parsed := parse_uintmax_value text base in
  Some (let! v := parsed in if valid v then Some v else None).

(** [uid_t] and [gid_t] have 32 bits. *)
Definition parse_uid_value (text : ptr) : run (option Z) :=
  parse_checked text 10 (λ parsed, (u32 parsed =? parsed) && negb (u32 parsed =? u32 (-1))).
Definition parse_gid_value (text : ptr) : run (option Z) :=
  parse_checked text 10 (λ parsed, (u32 parsed =? parsed) && negb (u32 parsed =? u32 (-1))).
Definition parse_size_value (text : ptr) (minimum maximum : Z) : run (option Z) :=
  parse_checked text 10 (λ parsed, (minimum <=? parsed) && (parsed <=? maximum) && (parsed <=? SIZE_MAX)).
Definition parse_int_value (text : ptr) (minimum maximum : Z) : run (option Z) :=
  parse_checked text 10 (λ parsed, (u64 minimum <=? parsed) && (parsed <=? u64 maximum) && (parsed <=? INT_MAX)).
Definition parse_u32_value (text : ptr) (minimum maximum : Z) : run (option Z) :=
  parse_checked text 10 (λ parsed, (minimum <=? parsed) && (parsed <=? maximum) && (parsed <=? UINT32_MAX)).
Definition parse_u16_value (text : ptr) (minimum maximum : Z) : run (option Z) :=
  parse_checked text 10 (λ parsed, (minimum <=? parsed) && (parsed <=? maximum) && (parsed <=? UINT16_MAX)).
Definition parse_mode_value (text : ptr) : run (option Z) :=
  parse_checked text 8 (λ parsed, parsed <=? 0x1ff).

(** ** The members *)

(** The range of a member. *)
Definition limits (m : numeric_member) : Z * Z :=
  match m with
  | max_clients => (AUTHD_MIN_CLIENTS, AUTHD_MAX_CLIENTS)
  | backlog => (AUTHD_MIN_BACKLOG, AUTHD_MAX_BACKLOG)
  | hello_timeout_ms => (AUTHD_MIN_HELLO_TIMEOUT_MS, AUTHD_MAX_HELLO_TIMEOUT_MS)
  | password_workers => (AUTHD_MIN_PASSWORD_WORKERS, AUTHD_MAX_PASSWORD_WORKERS)
  | password_queue_capacity => (AUTHD_MIN_PASSWORD_QUEUE_CAPACITY, AUTHD_MAX_PASSWORD_QUEUE_CAPACITY)
  | password_failure_threshold => (AUTHD_THROTTLE_MIN_FAILURE_THRESHOLD, AUTHD_THROTTLE_MAX_FAILURE_THRESHOLD)
  | password_failure_window_seconds => (AUTHD_THROTTLE_MIN_WINDOW_SECONDS, AUTHD_THROTTLE_MAX_WINDOW_SECONDS)
  | password_throttle_seconds => (AUTHD_THROTTLE_MIN_DURATION_SECONDS, AUTHD_THROTTLE_MAX_DURATION_SECONDS)
  | registration_min_password_bytes =>
      (AUTHD_REGISTRATION_MIN_PASSWORD_BYTES, AUTHD_REGISTRATION_MAX_PASSWORD_BYTES)
  | registration_timeout_seconds =>
      (AUTHD_REGISTRATION_MIN_TIMEOUT_SECONDS, AUTHD_REGISTRATION_MAX_TIMEOUT_SECONDS)
  | registration_max_pending => (AUTHD_REGISTRATION_MIN_PENDING, AUTHD_REGISTRATION_MAX_PENDING)
  | registration_ip_attempts => (AUTHD_REGISTRATION_MIN_IP_ATTEMPTS, AUTHD_REGISTRATION_MAX_IP_ATTEMPTS)
  | registration_ip_window_seconds =>
      (AUTHD_REGISTRATION_MIN_IP_WINDOW_SECONDS, AUTHD_REGISTRATION_MAX_IP_WINDOW_SECONDS)
  | db_port => (AUTHD_DB_MIN_PORT, AUTHD_DB_MAX_PORT)
  | db_connect_timeout_seconds => (AUTHD_DB_MIN_CONNECT_TIMEOUT_SECONDS, AUTHD_DB_MAX_CONNECT_TIMEOUT_SECONDS)
  | db_health_interval_ms => (AUTHD_DB_MIN_HEALTH_INTERVAL_MS, AUTHD_DB_MAX_HEALTH_INTERVAL_MS)
  end.

(** The call that parses a member, by its type. *)
Definition parse_member (m : numeric_member) (optarg : ptr) : run (option Z) :=
  let (minimum, maximum) := limits m in
  match m with
  | max_clients | password_workers | password_queue_capacity | registration_max_pending =>
      parse_size_value optarg minimum maximum
  | backlog => parse_int_value optarg minimum maximum
  | db_port => parse_u16_value optarg minimum maximum
  | _ => parse_u32_value optarg minimum maximum
  end.

Definition range_message (m : numeric_member) : list Z :=
  let (minimum, maximum) := limits m in
  lit "--" ++ option_name m ++ lit " must be between " ++ decimal minimum ++ lit " and " ++ decimal maximum.

(** The loop body of [copy_database_name]. *)
Definition database_name_letter (source : list Z) (index : Z) (s : unit) : run (ctl unit bool) :=
  let! character := buf_get source index in
  let valid :=
    between (chr "A") (chr "Z") character || between (chr "a") (chr "z") character
    || between (chr "0") (chr "9") character || (character =? chr "_") || (character =? chr "-") in
  Some (if negb valid then Return false else Continue s).

(** [*destination], or [None] where the code returns false. *)
Definition copy_database_name (destination : list Z) (source : ptr) : run (option (list Z)) :=
  match source with
  | None => Some None
  | Some source =>
      let length := strlen source in
      if (length =? 0) || (AUTHD_DB_NAME_MAX <? length) then Some None
      else
        let! c := for_range (Z.to_nat length) 0 (database_name_letter source) tt in
        match c with
        | Return _ => Some None
        | _ =>
            let! data := buf_read source 0 (length + 1) in
            let! destination := buf_write destination 0 data in
            Some (Some destination)
        end
  end.

(** The array with the path, or the message. *)
Definition copy_path (array : list Z) (maximum : Z) (optarg : ptr) (bad_length relative : list Z)
    : run (list Z + list Z) :=
  let! optarg := deref optarg in
  let length := strlen optarg in
  if (length =? 0) || (maximum <? length) then Some (inr bad_length)
  else
    let! first := buf_get optarg 0 in
    if negb (first =? chr "/") then Some (inr relative)
    else
      let! data := buf_read optarg 0 (length + 1) in
      let! array := buf_write array 0 data in
      Some (inl array).

Definition default_number (m : numeric_member) : Z :=
  match m with
  | max_clients => 64
  | backlog => 64
  | hello_timeout_ms => 5000
  | password_workers => AUTHD_DEFAULT_PASSWORD_WORKERS
  | password_queue_capacity => AUTHD_DEFAULT_PASSWORD_QUEUE_CAPACITY
  | password_failure_threshold => AUTHD_THROTTLE_DEFAULT_FAILURE_THRESHOLD
  | password_failure_window_seconds => AUTHD_THROTTLE_DEFAULT_WINDOW_SECONDS
  | password_throttle_seconds => AUTHD_THROTTLE_DEFAULT_DURATION_SECONDS
  | registration_min_password_bytes => AUTHD_REGISTRATION_DEFAULT_MIN_PASSWORD_BYTES
  | registration_timeout_seconds => AUTHD_REGISTRATION_DEFAULT_TIMEOUT_SECONDS
  | registration_max_pending => AUTHD_REGISTRATION_DEFAULT_MAX_PENDING
  | registration_ip_attempts => AUTHD_REGISTRATION_DEFAULT_IP_ATTEMPTS
  | registration_ip_window_seconds => AUTHD_REGISTRATION_DEFAULT_IP_WINDOW_SECONDS
  | db_port => 5432
  | db_connect_timeout_seconds => 5
  | db_health_interval_ms => 5000
  end.

(** [geteuid] is the user of the process. *)
Definition authd_config_defaults (geteuid : Z) : authd_options :=
  Options (snprintf_s (zeros SOCKET_PATH_SIZE) (FTAP_DEFAULT_SOCKET_PATH ++ [0])) 0x1b0 0 false
    (<[0%nat := geteuid]> (zeros AUTHD_MAX_ALLOWED_UIDS)) 1 default_number false
    (snprintf_s (zeros (AUTHD_DB_HOST_MAX + 1)) (lit "/var/run/postgresql" ++ [0]))
    (snprintf_s (zeros (AUTHD_DB_NAME_MAX + 1)) (lit "fortytwo" ++ [0])) false false false.

(** ** Parsing *)

(** [vsnprintf] of [error_size] bytes, for a message as it is formatted. *)
Definition set_error (error : ptr) (error_size : Z) (message : list Z) : run ptr :=
  match error with
  | None => Some None
  | Some buffer =>
      if error_size =? 0 then Some error
      else
        let! buffer := buf_write buffer 0 (take (Z.to_nat (error_size - 1)) message ++ [0]) in
        Some (Some buffer)
  end.

(** The structure and [explicit_uids]. *)
Record parse_state := ParseState {
  ps_config : authd_options;
  ps_explicit_uids : bool;
}.

(** What the switch does: the loop goes on, or the function returns, with a message. *)
Abbreviation switch_result := (ctl parse_state (authd_config_result * option (list Z) * parse_state)) (only parsing).

Definition set_config (s : parse_state) (c : authd_options) : parse_state := ParseState c (ps_explicit_uids s).

Definition allow_uid (s : parse_state) (optarg : ptr) : run switch_result :=
  let! uid := parse_uid_value optarg in
  match uid with
  | None => Some (Return (AUTHD_CONFIG_ERROR, Some (lit "--allow-uid must be a valid numeric UID"), s))
  | Some uid =>
      let c := ps_config s in
      let count := if negb (ps_explicit_uids s) then 0 else op_allowed_uid_count c in
      let c := set_op_allowed_uids (op_allowed_uids c) count c in
      if AUTHD_MAX_ALLOWED_UIDS <=? count then
        Some (Return (AUTHD_CONFIG_ERROR,
                      Some (lit "at most " ++ decimal AUTHD_MAX_ALLOWED_UIDS
                              ++ lit " --allow-uid options are supported"),
                      ParseState c true))
      else
        let! allowed := authd_config_uid_is_allowed (Some (server_config c)) uid in
        if allowed then Some (Continue (ParseState c true))
        else
          let! uids := arr_set (op_allowed_uids c) count uid in
          Some (Continue (ParseState (set_op_allowed_uids uids (count + 1) c) true))
  end.

Definition config_switch (s : parse_state) (a : getopt_answer) : run switch_result :=
  let c := ps_config s in
  let go c := Continue (set_config s c) in
  let fail message := Return (AUTHD_CONFIG_ERROR, Some message, s) in
  let optarg := ga_optarg a in
  match ga_option a with
  | OPTION_HELP => Some (Return (AUTHD_CONFIG_HELP, None, s))
  | OPTION_SOCKET =>
      let! path :=
        copy_path (op_socket_path c) (SOCKET_PATH_SIZE - 1) optarg
          (lit "--socket path must contain 1.." ++ decimal (SOCKET_PATH_SIZE - 1) ++ lit " bytes")
          (lit "--socket path must be absolute") in
      Some match path with inl path => go (set_op_socket_path path c) | inr message => fail message end
  | OPTION_SOCKET_MODE =>
      let! mode := parse_mode_value optarg in
      Some match mode with
           | None => fail (lit "--socket-mode must be octal between 0000 and 0777")
           | Some mode => go (set_op_socket_mode mode c)
           end
  | OPTION_SOCKET_GID =>
      let! gid := parse_gid_value optarg in
      Some match gid with
           | None => fail (lit "--socket-gid must be a valid numeric GID")
           | Some gid => go (set_op_socket_gid gid c)
           end
  | OPTION_ALLOW_UID => allow_uid s optarg
  | OPTION_NUMBER m =>
      let! v := parse_member m optarg in
      Some match v with None => fail (range_message m) | Some v => go (set_op_number m v c) end
  | OPTION_REGISTRATION_ENABLED => Some (go (set_op_registration_enabled true c))
  | OPTION_DB_HOST =>
      let! host :=
        copy_path (op_db_host c) AUTHD_DB_HOST_MAX optarg
          (lit "--db-host must contain 1.." ++ decimal AUTHD_DB_HOST_MAX ++ lit " bytes")
          (lit "--db-host must be an absolute Unix-socket directory") in
      Some match host with inl host => go (set_op_db_host host c) | inr message => fail message end
  | OPTION_DB_NAME =>
      let! name := copy_database_name (op_db_name c) optarg in
      Some match name with
           | None => fail (lit "--db-name must contain 1.." ++ decimal AUTHD_DB_NAME_MAX
                             ++ lit " ASCII letters, digits, '_' or '-'")
           | Some name => go (set_op_db_name name c)
           end
  | OPTION_CHECK_CONFIG => Some (go (set_op_check_config true c))
  | OPTION_CHECK_DATABASE => Some (go (set_op_check_database true c))
  | OPTION_VERBOSE => Some (go (set_op_verbose true c))
  | OPTION_VERSION => Some (Return (AUTHD_CONFIG_VERSION, None, s))
  | OPTION_UNKNOWN optopt =>
      (** The character is [(unsigned char)optopt]. *)
      Some (fail (if negb (optopt =? 0) then lit "unknown or incomplete option -" ++ [u8 optopt]
                  else lit "unknown or incomplete option"))
  end.

(** The loop. *)
Fixpoint parse_answers (answers : list getopt_answer) (s : parse_state) : run switch_result :=
  match answers with
  | [] => Some (Break s)
  | a :: answers =>
      let! c := config_switch s a in
      match c with
      | Continue s => parse_answers answers s
      | Break s => Some (Break s)
      | Return r => Some (Return r)
      end
  end.

(** The checks after the loop: a message, or none. *)
Definition check_parsed (c : authd_options) (argc optind : Z) (argv : list ptr) : run (option (list Z)) :=
  if negb (optind =? argc) then
    let! argument := arr_get argv optind in
    let! argument := deref argument in
    Some (Some (lit "unexpected positional argument: " ++ cstr argument))
  else if op_allowed_uid_count c =? 0 then Some (Some (lit "at least one allowed UID is required"))
  else if op_number c password_queue_capacity <? op_number c password_workers
  then Some (Some (lit "--password-queue-capacity must be at least --password-workers"))
  else Some None.

(** [config] points to something that is overwritten, or is null; the results are
    the value, [*config] and [*error]. *)
Definition authd_config_parse `{Getopt} (geteuid : Z) (config : option authd_options) (argc : Z)
    (argv : option (list ptr)) (error : ptr) (error_size : Z)
    : run (authd_config_result * option authd_options * ptr) :=
  match config, argv with
  | Some _, Some argv =>
      if argc <? 1 then
        let! error := set_error error error_size (lit "invalid configuration arguments") in
        Some (AUTHD_CONFIG_ERROR, config, error)
      else
        let! error :=
          match error with
          | Some buffer =>
              if 0 <? error_size then let! buffer := buf_set buffer 0 0 in Some (Some buffer) else Some error
          | None => Some None
          end in
        let '(answers, optind, argv) := getopt_long argc argv in
        let! c := parse_answers answers (ParseState (authd_config_defaults geteuid) false) in
        match c with
        | Return (result, message, s) =>
            let! error :=
              match message with Some message => set_error error error_size message | None => Some error end in
            Some (result, Some (ps_config s), error)
        | Continue s | Break s =>
            let! message := check_parsed (ps_config s) argc optind argv in
            match message with
            | Some message =>
                let! error := set_error error error_size message in
                Some (AUTHD_CONFIG_ERROR, Some (ps_config s), error)
            | None => Some (AUTHD_CONFIG_OK, Some (ps_config s), error)
            end
        end
  | _, _ =>
      let! error := set_error error error_size (lit "invalid configuration arguments") in
      Some (AUTHD_CONFIG_ERROR, config, error)
  end.

(** ** Numbers *)

Definition place_value (base : Z) (ds : list Z) : Z := foldl (λ v c, v * base + (c - chr "0")) 0 ds.

(** The texts that denote a number: white space, a sign and digits. The check of the
    first character keeps a minus sign out only where there is no white space; the
    number after it is negated as an unsigned one. *)
Inductive numeral (base : Z) : list Z → Z → Prop :=
| numeral_intro spaces sign ds :
    Forall (λ c, isspace c = true) spaces → ds ≠ [] → Forall (λ c, digit_of base c = true) ds →
    place_value base ds <= UINT64_MAX →
    sign = [] ∨ sign = [chr "+"] ∨ sign = [chr "-"] ∧ spaces ≠ [] →
    numeral base (spaces ++ sign ++ ds)
      (if bool_decide (sign = [chr "-"]) then u64 (- place_value base ds) else place_value base ds).

(** The longest prefix of such elements. *)
Lemma span_split {A} (p : A → bool) l :
  ∃ a b, l = a ++ b ∧ Forall (λ x, p x = true) a ∧ match b with x :: _ => p x = false | [] => True end.
Proof.
  induction l as [|x l IH]; [by exists [], []|]. destruct (p x) eqn:E; [|by exists [], (x :: l)].
  destruct IH as (a & b & -> & Ha & Hb). exists (x :: a), b. split_and!; [done|by constructor|done].
Qed.

(** What a scan stops at. *)
Definition stops (p : Z → bool) (l : list Z) : Prop := match l with c :: _ => p c = false | [] => True end.

Lemma skip_space_spec spaces text tail :
  Forall (λ c, isspace c = true) spaces → stops isspace text →
  skip_space (terminated (spaces ++ text) tail) = Some (terminated text tail).
Proof.
  intros Hs Ht. unfold terminated. induction Hs as [|c spaces Hc _ IH]; cbn [app skip_space].
  - destruct text as [|c text]; cbn [app skip_space]; [done|]. cbn in Ht. by rewrite Ht.
  - by rewrite Hc.
Qed.

Lemma scan_digits_spec base acc ds text tail :
  base <= 10 → Forall (λ c, digit_of base c = true) ds → stops (digit_of base) text →
  scan_digits base acc (terminated (ds ++ text) tail) =
    Some (foldl (λ v c, v * base + (c - chr "0")) acc ds, terminated text tail).
Proof.
  intros Hb Hd Ht. unfold terminated. revert acc. induction Hd as [|c ds Hc _ IH]; intros acc; cbn [app scan_digits foldl].
  - destruct text as [|c text]; cbn [app scan_digits]; [done|]. cbn in Ht. by rewrite Ht.
  - rewrite Hc. apply IH.
Qed.

Definition sign_ok (sign rest : list Z) : Prop :=
  sign = [] ∧ stops (λ c, isspace c || (c =? chr "-") || (c =? chr "+")) rest
  ∨ sign = [chr "+"] ∨ sign = [chr "-"].

Lemma read_sign_spec sign rest tail :
  sign_ok sign rest →
  read_sign (terminated (sign ++ rest) tail) = Some (bool_decide (sign = [chr "-"]), terminated rest tail).
Proof.
  intros [[-> H]|[->| ->]].
  - destruct rest as [|c rest]; [done|]. cbn in H. apply orb_false_iff in H as [H Hp]. apply orb_false_iff in H as [_ Hm].
    unfold read_sign, terminated. cbn [app]. rewrite buf_get_head. run_simpl. by rewrite Hm, Hp.
  - unfold read_sign, terminated. cbn [app]. rewrite buf_get_head. run_simpl. cbn [Z.eqb].
    change (chr "+" =? chr "-") with false. rewrite Z.eqb_refl. cbn [orb]. by rewrite buf_at_tail.
  - unfold read_sign, terminated. cbn [app]. rewrite buf_get_head. run_simpl.
    rewrite Z.eqb_refl. cbn [orb]. by rewrite buf_at_tail.
Qed.

(** The number that a text begins with. *)
Lemma strtoumax_spec base spaces sign ds text tail :
  base <= 10 → Forall (λ c, isspace c = true) spaces → Forall (λ c, digit_of base c = true) ds →
  stops (digit_of base) text → sign_ok sign (ds ++ text) →
  strtoumax (terminated (spaces ++ sign ++ ds ++ text) tail) base =
    Some (if bool_decide (ds = []) then (0, false, terminated (spaces ++ sign ++ ds ++ text) tail)
          else if UINT64_MAX <? place_value base ds then (UINT64_MAX, true, terminated text tail)
          else (if bool_decide (sign = [chr "-"]) then u64 (- place_value base ds) else place_value base ds,
                false, terminated text tail)).
Proof.
  intros Hb Hs Hd Ht Hsign. unfold strtoumax.
  rewrite skip_space_spec; [|done|].
  2: { destruct Hsign as [[-> H]|[->| ->]]; [|done..]. cbn [app]. destruct (ds ++ text) as [|c l]; [done|].
       cbn in H. cbn. by destruct (isspace c). }
  run_simpl. rewrite read_sign_spec by done. run_simpl. rewrite scan_digits_spec by done. run_simpl.
  change (foldl _ 0 ds) with (place_value base ds). do 2 f_equal.
  destruct ds as [|c ds]; [by rewrite Nat.eqb_refl|]. rewrite (proj2 (Nat.eqb_neq _ _)); [done|].
  unfold terminated. rewrite !length_app. cbn [length]. lia.
Qed.

(** The parts of any text. *)
Record split_number (base : Z) (text spaces sign ds rest : list Z) : Prop := {
  sn_text : text = spaces ++ sign ++ ds ++ rest;
  sn_spaces : Forall (λ c, isspace c = true) spaces;
  sn_digits : Forall (λ c, digit_of base c = true) ds;
  sn_rest : stops (digit_of base) rest;
  sn_sign : sign_ok sign (ds ++ rest);
}.

Lemma split_number_exists base text : ∃ spaces sign ds rest, split_number base text spaces sign ds rest.
Proof.
  destruct (span_split isspace text) as (spaces & t & -> & Hs & Ht).
  assert (∃ sign u, t = sign ++ u ∧ sign_ok sign u) as (sign & u & -> & Hsign).
  { destruct t as [|c t]; [by exists [], []; split; [|left]|].
    destruct (c =? chr "-") eqn:Em; [apply Z.eqb_eq in Em as ->; exists [chr "-"], t; by split; [|right; right]|].
    destruct (c =? chr "+") eqn:Ep; [apply Z.eqb_eq in Ep as ->; exists [chr "+"], t; by split; [|right; left]|].
    exists [], (c :: t). split; [done|]. left. split; [done|]. cbn. by rewrite Ht, Em, Ep. }
  destruct (span_split (digit_of base) u) as (ds & rest & -> & Hd & Hr).
  by exists spaces, sign, ds, rest.
Qed.

Lemma digit_range base c : base <= 10 → digit_of base c = true → 48 <= c <= 57.
Proof. intros Hb. unfold digit_of. char_lia. Qed.

(** [text[0] == 0 || text[0] == '-'] *)
Definition refused_start (text : list Z) : bool := match text with c :: _ => c =? chr "-" | [] => true end.

Lemma parse_uintmax_split base text spaces sign ds rest tail :
  base <= 10 → Forall (λ c, c ≠ 0) text → split_number base text spaces sign ds rest →
  parse_uintmax_value (Some (terminated text tail)) base =
    Some (if refused_start text || bool_decide (ds = []) || bool_decide (rest ≠ [])
             || (UINT64_MAX <? place_value base ds) then None
          else Some (if bool_decide (sign = [chr "-"]) then u64 (- place_value base ds) else place_value base ds)).
Proof.
  intros Hb Hnz [-> Hs Hd Hr Hsign]. unfold parse_uintmax_value.
  set (text := spaces ++ sign ++ ds ++ rest) in *.
  assert (buf_get (terminated text tail) 0 = Some (default 0 (head text))) as -> by (clearbody text; by destruct text).
  run_simpl.
  replace ((default 0 (head text) =? 0) || (default 0 (head text) =? chr "-")) with (refused_start text).
  2: { unfold refused_start. clearbody text. destruct Hnz as [|c l Hc _]; [done|].
       cbn [head from_option id]. by rewrite (proj2 (Z.eqb_neq c 0)). }
  destruct (refused_start text); [done|]. cbn [orb].
  unfold text. rewrite strtoumax_spec by done. run_simpl.
  destruct (bool_decide_reflect (ds = [])) as [->|Hne]; [cbn [orb]; by rewrite Nat.eqb_refl|].
  assert (length (terminated rest tail) ≠ length (terminated (spaces ++ sign ++ ds ++ rest) tail)) as Hlen.
  { unfold terminated. rewrite !length_app. destruct ds; [done|]. cbn [length]. lia. }
  destruct (UINT64_MAX <? place_value base ds); cbn [orb]; [by rewrite orb_true_r|].
  rewrite orb_false_r. rewrite (proj2 (Nat.eqb_neq _ _) Hlen). cbn [orb].
  assert (Forall (λ c, c ≠ 0) rest) as Hrest .
  { unfold text in Hnz. rewrite !Forall_app in Hnz. by destruct Hnz as (_ & _ & _ & ?). }
  destruct Hrest as [|c rest Hc _]; unfold terminated; cbn [app]; rewrite buf_get_head; [done|].
  run_simpl. rewrite (proj2 (Z.eqb_neq c 0)) by done. by rewrite (bool_decide_true (c :: rest ≠ [])).
Qed.

(** [parse_uintmax_value] accepts exactly the numerals. *)
Lemma parse_uintmax_spec base text tail :
  base <= 10 → Forall (λ c, c ≠ 0) text →
  ∃ r, parse_uintmax_value (Some (terminated text tail)) base = Some r ∧ ∀ v, r = Some v ↔ numeral base text v.
Proof.
  intros Hb Hnz. destruct (split_number_exists base text) as (spaces & sign & ds & rest & Hsplit).
  pose proof (parse_uintmax_split _ _ _ _ _ _ tail Hb Hnz Hsplit) as Hp. rewrite Hp. eexists. split; [done|].
  intros v. split.
  - case_if; [done|]. intros [= <-]. apply orb_false_iff in E as [E Emax%Z.ltb_ge].
    apply orb_false_iff in E as [E Erest%bool_decide_eq_false]. apply orb_false_iff in E as [Estart Eds%bool_decide_eq_false].
    destruct Hsplit as [-> Hs Hd Hr Hsign]. destruct rest as [|c rest]; [|by destruct Erest]. rewrite app_nil_r in *.
    apply numeral_intro; try done. destruct Hsign as [[-> _]|[->| ->]]; [by left|by right; left|right; right].
    split; [done|]. intros ->. done.
  - intros Hn. inversion Hn as [spaces' sign' ds' Hs Hne Hd Hmax Hsign Htext Hv]. subst v.
    assert (split_number base text spaces' sign' ds' []) as Hsplit'.
    { split; [by rewrite app_nil_r|done..| |].
      - done.
      - rewrite app_nil_r. destruct Hsign as [->|[->|[-> _]]]; [left|by right; left|by right; right].
        split; [done|]. destruct ds' as [|c ds']; [done|]. inversion Hd as [|? ? Hc]; subst.
        apply (digit_range base c Hb) in Hc. unfold stops, isspace. char_lia. }
    pose proof (parse_uintmax_split _ _ _ _ _ _ tail Hb Hnz Hsplit') as Hp'. rewrite Hp in Hp'. apply (inj Some) in Hp'.
    rewrite Htext. etrans; [exact Hp'|]. clear Hp'.
    rewrite (bool_decide_false (ds' = [])) by done. rewrite bool_decide_false by (by intros []).
    rewrite (proj2 (Z.ltb_ge _ _)) by done.
    replace (refused_start text) with false; [done|]. rewrite <- Htext. symmetry. unfold refused_start.
    destruct spaces' as [|c spaces']; cbn [app].
    + destruct Hsign as [->|[->|[_ Hno]]]; [|done..]. cbn [app]. destruct ds' as [|c ds']; [done|].
      inversion Hd as [|? ? Hc]; subst. apply (digit_range base c Hb) in Hc. char_lia.
    + inversion Hs as [|? ? Hc]; subst. revert Hc. unfold isspace. char_lia.
Qed.

Lemma numeral_range base text v : base <= 10 → numeral base text v → 0 <= v <= UINT64_MAX.
Proof.
  intros Hb [spaces sign ds Hs Hne Hd Hmax Hsign].
  assert (∀ acc, 0 <= acc → 0 <= base → 0 <= foldl (λ v c, v * base + (c - chr "0")) acc ds) as Hpos.
  { clear Hmax Hne. induction Hd as [|c ds Hc _ IH]; intros acc Hacc Hbase; cbn [foldl]; [done|]. apply IH; [|done].
    apply (digit_range base c Hb) in Hc. change (chr "0") with 48. nia. }
  assert (0 <= base) as Hbase.
  { destruct ds as [|c ds]; [done|]. inversion Hd as [|? ? Hc]; subst. revert Hc. unfold digit_of. char_lia. }
  specialize (Hpos 0 ltac:(done) Hbase). change (foldl _ 0 ds) with (place_value base ds) in Hpos.
  case_bool_decide; [|done]. pose proof (fits_wrap 64 (- place_value base ds) ltac:(done)) as [? ?].
  unfold u64. change UINT64_MAX with (2 ^ 64 - 1). lia.
Qed.

(** ** Arguments *)

Definition c_string (p : ptr) : Prop := ∃ text tail, p = Some (terminated text tail) ∧ Forall (λ c, c ≠ 0) text.

(** The text of an argument. *)
Definition argument (optarg : ptr) : list Z := cstr (default [] optarg).

Definition number_for (m : numeric_member) (text : list Z) (v : Z) : Prop :=
  numeral 10 text v ∧ (limits m).1 <= v <= (limits m).2.
Definition id_for (text : list Z) (v : Z) : Prop := numeral 10 text v ∧ v < UINT32_MAX.
Definition mode_for (text : list Z) (v : Z) : Prop := numeral 8 text v ∧ v <= 0x1ff.

Definition path_text (maximum : Z) (text : list Z) : Prop := zlen text <= maximum ∧ head text = Some (chr "/").

Definition name_letter (c : Z) : bool :=
  between (chr "A") (chr "Z") c || between (chr "a") (chr "z") c || between (chr "0") (chr "9") c
  || (c =? chr "_") || (c =? chr "-").
Definition name_text (text : list Z) : Prop :=
  text ≠ [] ∧ zlen text <= AUTHD_DB_NAME_MAX ∧ Forall (λ c, name_letter c = true) text.

(** An array of this size with a string. *)
Definition holds (size : Z) (array text : list Z) : Prop :=
  zlen array = size ∧ cstr array = text ∧ zlen text < size.

Lemma argument_text text tail : Forall (λ c, c ≠ 0) text → argument (Some (terminated text tail)) = text.
Proof. intros H. unfold argument, terminated. by apply cstr_app_zero. Qed.

Lemma parse_checked_spec arg base valid :
  c_string arg → base <= 10 →
  ∃ r, parse_checked arg base valid = Some r ∧ ∀ v, r = Some v ↔ numeral base (argument arg) v ∧ valid v = true.
Proof.
  intros (text & tail & -> & Hnz) Hb. unfold parse_checked. rewrite argument_text by done.
  destruct (parse_uintmax_spec base text tail Hb Hnz) as (r & -> & Hr). run_simpl. eexists. split; [done|].
  intros v. rewrite <- Hr. destruct r as [u|]; [|by split; [|intros []]]. destruct (valid u) eqn:E.
  - split; [by intros [= <-]|by intros []].
  - split; [done|]. intros [[= ->] H]. congruence.
Qed.

Lemma checked_iff arg base valid (P : Z → Prop) :
  c_string arg → base <= 10 → (∀ v, 0 <= v <= UINT64_MAX → valid v = true ↔ P v) →
  ∃ r, parse_checked arg base valid = Some r ∧ ∀ v, r = Some v ↔ numeral base (argument arg) v ∧ P v.
Proof.
  intros Harg Hb Hv. destruct (parse_checked_spec arg base valid Harg Hb) as (r & -> & Hr). exists r. split; [done|].
  intros v. rewrite Hr. split; intros [Hn H]; (split; [done|]); apply Hv; eauto using numeral_range.
Qed.

Lemma parse_member_spec m arg :
  c_string arg →
  ∃ r, parse_member m arg = Some r ∧ ∀ v, r = Some v ↔ number_for m (argument arg) v.
Proof.
  intros Harg. unfold parse_member, number_for, parse_size_value, parse_int_value, parse_u16_value, parse_u32_value.
  destruct m;
    match goal with |- context [limits ?m] => let p := eval vm_compute in (limits m) in change (limits m) with p end;
    cbv beta iota; cbn [fst snd]; apply checked_iff; try done; intros v Hv;
    repeat match goal with |- context [u64 ?z] => change (u64 z) with z end;
    rewrite !andb_true_iff, !Z.leb_le; unfold SIZE_MAX, UINT64_MAX, UINT32_MAX, UINT16_MAX, INT_MAX in *; lia.
Qed.

Lemma parse_uid_spec arg :
  c_string arg → ∃ r, parse_uid_value arg = Some r ∧ ∀ v, r = Some v ↔ id_for (argument arg) v.
Proof.
  intros Harg. apply checked_iff; [done..|]. intros v Hv.
  assert (u32 v = v ↔ v < 2 ^ 32) as Hu.
  { split; intros H; [|apply wrap_fits; split; [lia|done]].
    rewrite <- H. by apply (fits_wrap 32). }
  rewrite andb_true_iff, negb_true_iff, Z.eqb_eq, Z.eqb_neq, Hu. change (u32 (-1)) with UINT32_MAX.
  change (2 ^ 32) with 4294967296. unfold UINT32_MAX. split.
  - intros [H1 H2]. rewrite (proj2 Hu) in H2 by done. lia.
  - intros H. split; [lia|]. rewrite (proj2 Hu) by (change (2 ^ 32) with 4294967296; lia). lia.
Qed.

Lemma parse_mode_spec arg :
  c_string arg → ∃ r, parse_mode_value arg = Some r ∧ ∀ v, r = Some v ↔ mode_for (argument arg) v.
Proof. intros Harg. apply checked_iff; [done..|]. intros v _. apply Z.leb_le. Qed.

(** A string is copied over the beginning of an array. *)
Lemma copy_holds array text tail :
  Forall (λ c, c ≠ 0) text → zlen text < zlen array →
  ∃ data array', buf_read (terminated text tail) 0 (zlen text + 1) = Some data ∧ buf_write array 0 data = Some array' ∧
    holds (zlen array) array' text.
Proof.
  intros Hnz Hlen. pose proof (zlen_nonneg text).
  exists (text ++ [0]). unfold terminated. replace (text ++ 0 :: tail) with ((text ++ [0]) ++ tail) by by rewrite <- app_assoc.
  replace (zlen text + 1) with (zlen (text ++ [0])) by by rewrite zlen_app.
  rewrite buf_read_prefix.
  rewrite buf_write_in by (rewrite ?zlen_app; change (zlen [0]) with 1; lia).
  eexists. split_and!; [done..|].
  split_and!; [|by cbn [take app]; rewrite <- app_assoc; apply cstr_app_zero|done].
  eapply buf_write_length. apply buf_write_in; rewrite ?zlen_app; change (zlen [0]) with 1; lia.
Qed.

Lemma strlen_terminated text tail : Forall (λ c, c ≠ 0) text → strlen (terminated text tail) = zlen text.
Proof. intros H. unfold strlen, terminated. by rewrite cstr_app_zero. Qed.

Lemma copy_path_spec array maximum arg bad_length relative :
  c_string arg → zlen array = maximum + 1 →
  ∃ r, copy_path array maximum arg bad_length relative = Some r ∧
    match r with
    | inl array' => path_text maximum (argument arg) ∧ holds (maximum + 1) array' (argument arg)
    | inr message => ¬ path_text maximum (argument arg) ∧ (message = bad_length ∨ message = relative)
    end.
Proof.
  intros (text & tail & -> & Hnz) Hlen. unfold copy_path. rewrite argument_text by done. run_simpl. cbn [deref].
  rewrite strlen_terminated by done. unfold path_text.
  destruct text as [|c text]; [eexists; split; [done|]; split; [by intros []|by left]|].
  rewrite (proj2 (Z.eqb_neq (zlen (c :: text)) 0)) by (rewrite zlen_cons; pose proof (zlen_nonneg text); lia). cbn [orb].
  destruct (Z.ltb_spec maximum (zlen (c :: text))) as [Hm|Hm]; [eexists; split; [done|]; split; [lia|by left]|].
  unfold terminated at 1. cbn [app]. rewrite buf_get_head. run_simpl.
  destruct (Z.eqb_spec c (chr "/")) as [->|Hc]; cbn [negb].
  - destruct (copy_holds array (chr "/" :: text) tail Hnz ltac:(lia)) as (data & array' & -> & -> & Hh).
    eexists. split; [done|]. rewrite Hlen in Hh. done.
  - eexists. split; [done|]. split; [|by right]. cbn. intros [_ [= ->]]. done.
Qed.

Lemma copy_database_name_spec array arg :
  c_string arg → zlen array = AUTHD_DB_NAME_MAX + 1 →
  ∃ r, copy_database_name array arg = Some r ∧
    match r with
    | Some array' => name_text (argument arg) ∧ holds (AUTHD_DB_NAME_MAX + 1) array' (argument arg)
    | None => ¬ name_text (argument arg)
    end.
Proof.
  intros (text & tail & -> & Hnz) Hlen. unfold copy_database_name. rewrite argument_text by done.
  rewrite strlen_terminated by done. unfold name_text.
  destruct (decide (text = [])) as [->|Hne]; [eexists; split; [done|]; by intros []|].
  assert (0 < zlen text) by (destruct text; [done|]; rewrite zlen_cons; pose proof (zlen_nonneg text); lia).
  rewrite (proj2 (Z.eqb_neq (zlen text) 0)) by lia. cbn [orb].
  destruct (Z.ltb_spec AUTHD_DB_NAME_MAX (zlen text)) as [Hm|Hm]; [eexists; split; [done|]; intros (_ & ? & _); lia|].
  replace (Z.to_nat (zlen text)) with (length text) by (unfold zlen; lia).
  rewrite (for_range_forallb name_letter false).
  - destruct (forallb name_letter text) eqn:E; run_simpl.
    + destruct (copy_holds array text tail Hnz ltac:(lia)) as (data & array' & -> & -> & Hh).
      eexists. split; [done|]. rewrite Hlen in Hh. apply forallb_Forall in E. done.
    + eexists. split; [done|]. intros (_ & _ & Hall). apply forallb_Forall in Hall. congruence.
  - intros k c Hc. unfold database_name_letter, terminated. rewrite Z.add_0_l. unfold buf_get.
    rewrite (proj2 (Z.leb_le _ _)), Nat2Z.id, lookup_app_l, Hc by (apply lookup_lt_Some in Hc; lia).
    run_simpl. by destruct (name_letter c) eqn:E; unfold name_letter in E; rewrite E.
Qed.

(** ** What has been given *)

Definition last_argument (o : config_option) (answers : list getopt_answer) : option ptr :=
  last (omap (λ a, if decide (ga_option a = o) then Some (ga_optarg a) else None) answers).

(** The last argument of an option has this property, or the default holds. *)
Definition setting (o : config_option) (answers : list getopt_answer) (default : Prop) (given : list Z → Prop) : Prop :=
  match last_argument o answers with None => default | Some arg => given (argument arg) end.

Definition gives_uid (answers : list getopt_answer) (uid : Z) : Prop :=
  ∃ a, a ∈ answers ∧ ga_option a = OPTION_ALLOW_UID ∧ id_for (argument (ga_optarg a)) uid.

Definition occurs (o : config_option) (answers : list getopt_answer) : Prop := o ∈ map ga_option answers.

Definition allowed_uids (c : authd_options) : list Z := take (Z.to_nat (op_allowed_uid_count c)) (op_allowed_uids c).

(** The structure is what these options say. *)
Record described (geteuid : Z) (answers : list getopt_answer) (c : authd_options) : Prop := {
  ds_number m :
    setting (OPTION_NUMBER m) answers (op_number c m = default_number m) (λ text, number_for m text (op_number c m));
  ds_socket_path :
    setting OPTION_SOCKET answers (holds SOCKET_PATH_SIZE (op_socket_path c) FTAP_DEFAULT_SOCKET_PATH)
      (λ text, path_text (SOCKET_PATH_SIZE - 1) text ∧ holds SOCKET_PATH_SIZE (op_socket_path c) text);
  ds_socket_mode :
    setting OPTION_SOCKET_MODE answers (op_socket_mode c = 0x1b0) (λ text, mode_for text (op_socket_mode c));
  ds_socket_gid :
    setting OPTION_SOCKET_GID answers (op_socket_gid_set c = false)
      (λ text, op_socket_gid_set c = true ∧ id_for text (op_socket_gid c));
  ds_db_host :
    setting OPTION_DB_HOST answers (holds (AUTHD_DB_HOST_MAX + 1) (op_db_host c) (lit "/var/run/postgresql"))
      (λ text, path_text AUTHD_DB_HOST_MAX text ∧ holds (AUTHD_DB_HOST_MAX + 1) (op_db_host c) text);
  ds_db_name :
    setting OPTION_DB_NAME answers (holds (AUTHD_DB_NAME_MAX + 1) (op_db_name c) (lit "fortytwo"))
      (λ text, name_text text ∧ holds (AUTHD_DB_NAME_MAX + 1) (op_db_name c) text);
  ds_registration_enabled : op_registration_enabled c = true ↔ occurs OPTION_REGISTRATION_ENABLED answers;
  ds_verbose : op_verbose c = true ↔ occurs OPTION_VERBOSE answers;
  ds_check_config : op_check_config c = true ↔ occurs OPTION_CHECK_CONFIG answers;
  ds_check_database : op_check_database c = true ↔ occurs OPTION_CHECK_DATABASE answers;
  ds_uid_array : zlen (op_allowed_uids c) = AUTHD_MAX_ALLOWED_UIDS;
  ds_uid_count : 1 <= op_allowed_uid_count c <= AUTHD_MAX_ALLOWED_UIDS;
  ds_uid_distinct : NoDup (allowed_uids c);
  ds_uids uid : uid ∈ allowed_uids c ↔ gives_uid answers uid ∨ ¬ occurs OPTION_ALLOW_UID answers ∧ uid = geteuid;
}.

(** All places for users are taken. *)
Definition crowded (answers : list getopt_answer) : Prop :=
  ∃ uids, NoDup uids ∧ zlen uids = AUTHD_MAX_ALLOWED_UIDS ∧ Forall (gives_uid answers) uids.

(** The option can follow these. *)
Definition acceptable (before : list getopt_answer) (a : getopt_answer) : Prop :=
  let text := argument (ga_optarg a) in
  match ga_option a with
  | OPTION_HELP | OPTION_VERSION | OPTION_UNKNOWN _ => False
  | OPTION_SOCKET => path_text (SOCKET_PATH_SIZE - 1) text
  | OPTION_SOCKET_MODE => ∃ v, mode_for text v
  | OPTION_SOCKET_GID => ∃ v, id_for text v
  | OPTION_ALLOW_UID => (∃ v, id_for text v) ∧ ¬ crowded before
  | OPTION_NUMBER m => ∃ v, number_for m text v
  | OPTION_DB_HOST => path_text AUTHD_DB_HOST_MAX text
  | OPTION_DB_NAME => name_text text
  | OPTION_REGISTRATION_ENABLED | OPTION_CHECK_CONFIG | OPTION_CHECK_DATABASE | OPTION_VERBOSE => True
  end.

Lemma setting_snoc o answers a D G :
  setting o (answers ++ [a]) D G ↔
  if decide (ga_option a = o) then G (argument (ga_optarg a)) else setting o answers D G.
Proof.
  unfold setting, last_argument. rewrite omap_app. cbn [omap list_omap]. destruct (decide (ga_option a = o)).
  - by rewrite last_snoc.
  - by rewrite app_nil_r.
Qed.

Lemma occurs_snoc o answers a : occurs o (answers ++ [a]) ↔ occurs o answers ∨ ga_option a = o.
Proof.
  unfold occurs. rewrite map_app, elem_of_app. cbn [map]. rewrite list_elem_of_singleton.
  by split; intros [|]; auto.
Qed.

Lemma gives_uid_snoc answers a uid :
  gives_uid (answers ++ [a]) uid ↔
  gives_uid answers uid ∨ ga_option a = OPTION_ALLOW_UID ∧ id_for (argument (ga_optarg a)) uid.
Proof.
  unfold gives_uid. setoid_rewrite elem_of_app. setoid_rewrite list_elem_of_singleton. naive_solver.
Qed.


(** ** The switch *)

(** What a round of the loop does with the next option. *)
Definition switched (geteuid : Z) (before : list getopt_answer) (a : getopt_answer) (s : parse_state)
    (c : switch_result) : Prop :=
  match c with
  | Continue s' =>
      acceptable before a ∧ described geteuid (before ++ [a]) (ps_config s') ∧
      (ps_explicit_uids s' = true ↔ occurs OPTION_ALLOW_UID (before ++ [a]))
  | Break _ => False
  | Return (result, message, s') =>
      ¬ acceptable before a ∧ ps_config s' = ps_config s ∧
      match ga_option a with
      | OPTION_HELP => result = AUTHD_CONFIG_HELP ∧ message = None
      | OPTION_VERSION => result = AUTHD_CONFIG_VERSION ∧ message = None
      | _ => result = AUTHD_CONFIG_ERROR ∧ ∃ m, message = Some m ∧ m ≠ []
      end
  end.

Section switch.
Context (geteuid : Z) (before : list getopt_answer) (a : getopt_answer) (s : parse_state).
Context (Hd : described geteuid before (ps_config s))
  (He : ps_explicit_uids s = true ↔ occurs OPTION_ALLOW_UID before)
  (Harg : has_argument (ga_option a) = true → c_string (ga_optarg a)).

Lemma uids_unchanged :
  ga_option a ≠ OPTION_ALLOW_UID →
  (∀ uid, gives_uid (before ++ [a]) uid ↔ gives_uid before uid) ∧
  (occurs OPTION_ALLOW_UID (before ++ [a]) ↔ occurs OPTION_ALLOW_UID before).
Proof.
  intros Hne. split; [intros uid; rewrite gives_uid_snoc|rewrite occurs_snoc]; naive_solver.
Qed.

(** The members that the option does not concern, and the one that it sets. *)
Ltac describe Ho :=
  let Hg := fresh in let Hc := fresh in
  destruct (uids_unchanged ltac:(by rewrite Ho)) as [Hg Hc]; destruct Hd; split; cbn;
  try done;
  try (intros; rewrite setting_snoc, decide_False by (by rewrite Ho); done);
  try (rewrite setting_snoc, decide_True by done; done);
  try (rewrite occurs_snoc, Ho; naive_solver);
  try (intros uid; rewrite Hg, Hc; done).

Lemma described_number m v :
  ga_option a = OPTION_NUMBER m → number_for m (argument (ga_optarg a)) v →
  described geteuid (before ++ [a]) (set_op_number m v (ps_config s)).
Proof.
  intros Ho Hv. describe Ho. intros m'. rewrite setting_snoc, Ho. destruct (decide (m' = m)) as [->|Hm].
  - by rewrite decide_True.
  - rewrite decide_False by (by intros [= ->]). apply ds_number0.
Qed.

Lemma described_socket_path path :
  ga_option a = OPTION_SOCKET → path_text (SOCKET_PATH_SIZE - 1) (argument (ga_optarg a)) →
  holds SOCKET_PATH_SIZE path (argument (ga_optarg a)) →
  described geteuid (before ++ [a]) (set_op_socket_path path (ps_config s)).
Proof. intros Ho Hv Hh. describe Ho. Qed.

Lemma described_socket_mode v :
  ga_option a = OPTION_SOCKET_MODE → mode_for (argument (ga_optarg a)) v →
  described geteuid (before ++ [a]) (set_op_socket_mode v (ps_config s)).
Proof. intros Ho Hv. describe Ho. Qed.

Lemma described_socket_gid v :
  ga_option a = OPTION_SOCKET_GID → id_for (argument (ga_optarg a)) v →
  described geteuid (before ++ [a]) (set_op_socket_gid v (ps_config s)).
Proof. intros Ho Hv. describe Ho. Qed.

Lemma described_db_host path :
  ga_option a = OPTION_DB_HOST → path_text AUTHD_DB_HOST_MAX (argument (ga_optarg a)) →
  holds (AUTHD_DB_HOST_MAX + 1) path (argument (ga_optarg a)) →
  described geteuid (before ++ [a]) (set_op_db_host path (ps_config s)).
Proof. intros Ho Hv Hh. describe Ho. Qed.

Lemma described_db_name name :
  ga_option a = OPTION_DB_NAME → name_text (argument (ga_optarg a)) →
  holds (AUTHD_DB_NAME_MAX + 1) name (argument (ga_optarg a)) →
  described geteuid (before ++ [a]) (set_op_db_name name (ps_config s)).
Proof. intros Ho Hv Hh. describe Ho. Qed.

Lemma described_flags c :
  (ga_option a = OPTION_REGISTRATION_ENABLED ∧ c = set_op_registration_enabled true (ps_config s) ∨
   ga_option a = OPTION_VERBOSE ∧ c = set_op_verbose true (ps_config s) ∨
   ga_option a = OPTION_CHECK_CONFIG ∧ c = set_op_check_config true (ps_config s) ∨
   ga_option a = OPTION_CHECK_DATABASE ∧ c = set_op_check_database true (ps_config s)) →
  described geteuid (before ++ [a]) c.
Proof. intros [[Ho ->]|[[Ho ->]|[[Ho ->]|[Ho ->]]]]; describe Ho. Qed.

Lemma described_uids uids count :
  ga_option a = OPTION_ALLOW_UID → zlen uids = AUTHD_MAX_ALLOWED_UIDS → 1 <= count <= AUTHD_MAX_ALLOWED_UIDS →
  NoDup (take (Z.to_nat count) uids) →
  (∀ uid, uid ∈ take (Z.to_nat count) uids ↔ gives_uid (before ++ [a]) uid) →
  described geteuid (before ++ [a]) (set_op_allowed_uids uids count (ps_config s)).
Proof.
  intros Ho Hlen Hcount Hnd Huids. destruct Hd; split; cbn; try done;
    try (intros; rewrite setting_snoc, decide_False by (by rewrite Ho); done);
    try (rewrite occurs_snoc, Ho; naive_solver).
  intros uid. unfold allowed_uids. cbn. rewrite Huids, occurs_snoc. naive_solver.
Qed.

(** The users that the options have named so far. *)
Lemma uids_so_far :
  let count := if negb (ps_explicit_uids s) then 0 else op_allowed_uid_count (ps_config s) in
  let named := take (Z.to_nat count) (op_allowed_uids (ps_config s)) in
  0 <= count <= AUTHD_MAX_ALLOWED_UIDS ∧ zlen named = count ∧ NoDup named ∧ ∀ uid, uid ∈ named ↔ gives_uid before uid.
Proof.
  destruct Hd. unfold AUTHD_MAX_ALLOWED_UIDS in *. destruct (ps_explicit_uids s); cbn [negb].
  - split; [lia|]. split; [unfold zlen in *; rewrite length_take; lia|]. split; [done|]. intros uid.
    etrans; [apply ds_uids0|]. assert (occurs OPTION_ALLOW_UID before) by tauto. tauto.
  - split; [lia|]. split; [done|]. split; [constructor|]. intros uid. split; [by intros ?%not_elem_of_nil|].
    intros (b & Hb & Ho & _). exfalso. assert (occurs OPTION_ALLOW_UID before) as Hocc; [|by apply He in Hocc].
    unfold occurs. apply list_elem_of_In, in_map_iff. exists b. by rewrite <- list_elem_of_In.
Qed.

Lemma allow_uid_spec :
  ga_option a = OPTION_ALLOW_UID → ∃ c, allow_uid s (ga_optarg a) = Some c ∧ switched geteuid before a s c.
Proof.
  intros Ho. unfold allow_uid, switched, acceptable. rewrite Ho.
  destruct (parse_uid_spec (ga_optarg a) (Harg ltac:(by rewrite Ho))) as (r & -> & Hr). run_simpl.
  destruct r as [uid|].
  2: { eexists. split; [done|]. split_and!; [|done..|by eexists]. intros [[v Hv] _]. by apply Hr in Hv. }
  assert (id_for (argument (ga_optarg a)) uid) as Hid by by apply Hr.
  destruct uids_so_far as (Hcount & Hlen & Hnd & Huids).
  pose proof (ds_uid_array _ _ _ Hd) as Harray.
  set (count := if negb (ps_explicit_uids s) then 0 else op_allowed_uid_count (ps_config s)) in *.
  set (named := take (Z.to_nat count) (op_allowed_uids (ps_config s))) in *.
  assert (crowded before ↔ count = AUTHD_MAX_ALLOWED_UIDS) as Hcrowded.
  { split.
    - intros (uids & Hnd' & Hlen' & Hgiven). assert (uids ⊆+ named) as Hsub%submseteq_length.
      { apply NoDup_submseteq; [done|]. intros u Hu. apply Huids. rewrite Forall_forall in Hgiven. by apply Hgiven. }
      unfold zlen in *. lia.
    - intros Hfull. exists named. split_and!; [done|by rewrite Hlen|]. apply Forall_forall. intros u Hu. by apply Huids. }
  destruct (Z.leb_spec AUTHD_MAX_ALLOWED_UIDS count) as [Hfull|Hroom].
  { eexists. split; [done|]. split; [intros [_ Hno]; apply Hno, Hcrowded; lia|]. split; [|split; [done|by eexists]].
    cbn [ps_config]. unfold count in *. destruct (ps_explicit_uids s); cbn [negb] in *; [|done].
    by destruct (ps_config s). }
  assert ((∃ v, id_for (argument (ga_optarg a)) v) ∧ ¬ crowded before) as Hacc.
  { split; [by exists uid|]. rewrite Hcrowded. lia. }
  destruct (uid_is_allowed_spec (server_config (set_op_allowed_uids (op_allowed_uids (ps_config s)) count (ps_config s))) uid)
    as (b & -> & Hb); [cbn; rewrite Harray; lia|]. run_simpl.
  cbn [server_config set_op_allowed_uids op_allowed_uids op_allowed_uid_count cfg_allowed_uid_count cfg_allowed_uids] in Hb.
  change (uid ∈ _) with (uid ∈ named) in Hb. destruct b.
  - eexists. split; [done|]. split; [done|]. cbn [ps_config ps_explicit_uids].
    split; [|rewrite occurs_snoc; naive_solver]. assert (uid ∈ named) as Hin by tauto.
    apply described_uids; [done..| |done|].
    + apply list_elem_of_In, in_split in Hin as (l1 & l2 & Heq). rewrite Heq, zlen_app, zlen_cons in Hlen.
      pose proof (zlen_nonneg l1). pose proof (zlen_nonneg l2). lia.
    + intros u. rewrite gives_uid_snoc. etrans; [apply Huids|]. split; [by left|]. intros [|[_ Hu]]; [done|].
      apply Huids. apply Hr in Hu. congruence.
  - assert (uid ∉ named) as Hnew by (intros ?%Hb; done).
    unfold arr_set at 1. cbn [op_allowed_uids set_op_allowed_uids]. rewrite Harray, (proj2 (Z.leb_le _ _)), (proj2 (Z.ltb_lt _ _)) by lia. cbn [andb]. run_simpl. cbn [op_allowed_uids set_op_allowed_uids].
    eexists. split; [done|]. split; [done|]. cbn [ps_config ps_explicit_uids].
    split; [|rewrite occurs_snoc; naive_solver].
    change (set_op_allowed_uids ?u ?n (set_op_allowed_uids _ _ ?c)) with (set_op_allowed_uids u n c).
    assert (take (Z.to_nat (count + 1)) (<[Z.to_nat count:=uid]> (op_allowed_uids (ps_config s))) = named ++ [uid]) as Htake.
    { replace (Z.to_nat (count + 1)) with (S (Z.to_nat count)) by lia.
      rewrite (take_S_r _ _ uid) by (rewrite list_lookup_insert_eq; [done|unfold zlen in *; lia]).
      by rewrite take_insert_ge. }
    apply described_uids; [done|by unfold zlen in *; rewrite length_insert|lia|rewrite Htake..].
    + apply NoDup_app. split_and!; [done| |apply NoDup_singleton]. intros u Hu Hu'%list_elem_of_singleton. congruence.
    + intros u. rewrite elem_of_app, list_elem_of_singleton, gives_uid_snoc, Huids.
      split; [by intros [Hu|Hu]; [left|subst u; right]|]. intros [Hu|[_ Hu%Hr]]; [by left|right; congruence].
Qed.

(** The arrays have their sizes. *)
Lemma described_sizes :
  zlen (op_socket_path (ps_config s)) = SOCKET_PATH_SIZE ∧ zlen (op_db_host (ps_config s)) = AUTHD_DB_HOST_MAX + 1 ∧
  zlen (op_db_name (ps_config s)) = AUTHD_DB_NAME_MAX + 1.
Proof.
  destruct Hd. unfold setting, holds in *.
  destruct (last_argument OPTION_SOCKET before), (last_argument OPTION_DB_HOST before),
    (last_argument OPTION_DB_NAME before); tauto.
Qed.

Lemma explicit_unchanged c :
  ga_option a ≠ OPTION_ALLOW_UID →
  ps_explicit_uids (set_config s c) = true ↔ occurs OPTION_ALLOW_UID (before ++ [a]).
Proof. intros Hne. cbn. rewrite He. symmetry. apply uids_unchanged; done. Qed.

Lemma config_switch_spec : ∃ c, config_switch s a = Some c ∧ switched geteuid before a s c.
Proof.
  pose proof described_sizes as (Hsp & Hdh & Hdn). pose proof allow_uid_spec as Huid.
  assert (has_argument (ga_option a) = true → c_string (ga_optarg a)) as Hstr by exact Harg.
  destruct (ga_option a) as [| | | | |m| | | | | | | |optopt] eqn:Ho; try specialize (Hstr eq_refl); unfold config_switch; rewrite ?Ho;
    try (apply Huid; done);
    try (eexists; split; [done|]; unfold switched, acceptable; rewrite Ho;
         first [by split_and!; [intros []|..] | split; [done|]; split; [apply described_flags; tauto|apply explicit_unchanged; by rewrite Ho]]).
  - destruct (copy_path_spec (op_socket_path (ps_config s)) (SOCKET_PATH_SIZE - 1) (ga_optarg a)
      (lit "--socket path must contain 1.." ++ decimal (SOCKET_PATH_SIZE - 1) ++ lit " bytes")
      (lit "--socket path must be absolute") Hstr) as (r & -> & Hr); [done|].
    run_simpl. eexists. split; [done|]. unfold switched, acceptable. rewrite Ho. destruct r as [path|message].
    + destruct Hr. split; [done|]. split; [by apply described_socket_path|apply explicit_unchanged; by rewrite Ho].
    + destruct Hr as [Hno Hm]. split; [done|]. split; [done|]. split; [done|]. exists message. by destruct Hm as [->| ->].
  - destruct (parse_mode_spec (ga_optarg a) Hstr) as (r & -> & Hr).
    run_simpl. eexists. split; [done|]. unfold switched, acceptable. rewrite Ho. destruct r as [mode|].
    + assert (mode_for (argument (ga_optarg a)) mode) by by apply Hr.
      split; [by exists mode|]. split; [by apply described_socket_mode|apply explicit_unchanged; by rewrite Ho].
    + split; [by intros [v Hv%Hr]|]. split; [done|]. split; [done|]. by eexists.
  - destruct (parse_uid_spec (ga_optarg a) Hstr) as (r & Hp & Hr).
    unfold parse_uid_value in Hp. unfold parse_gid_value. rewrite Hp.
    run_simpl. eexists. split; [done|]. unfold switched, acceptable. rewrite Ho. destruct r as [gid|].
    + assert (id_for (argument (ga_optarg a)) gid) by by apply Hr.
      split; [by exists gid|]. split; [by apply described_socket_gid|apply explicit_unchanged; by rewrite Ho].
    + split; [by intros [v Hv%Hr]|]. split; [done|]. split; [done|]. by eexists.
  - destruct (parse_member_spec m (ga_optarg a) Hstr) as (r & -> & Hr).
    run_simpl. eexists. split; [done|]. unfold switched, acceptable. rewrite Ho. destruct r as [v|].
    + assert (number_for m (argument (ga_optarg a)) v) by by apply Hr.
      split; [by exists v|]. split; [by apply described_number|apply explicit_unchanged; by rewrite Ho].
    + split; [by intros [v Hv%Hr]|]. split; [done|]. split; [done|]. eexists. split; [done|]. by destruct m.
  - destruct (copy_path_spec (op_db_host (ps_config s)) AUTHD_DB_HOST_MAX (ga_optarg a)
      (lit "--db-host must contain 1.." ++ decimal AUTHD_DB_HOST_MAX ++ lit " bytes")
      (lit "--db-host must be an absolute Unix-socket directory") Hstr) as (r & -> & Hr); [done|].
    run_simpl. eexists. split; [done|]. unfold switched, acceptable. rewrite Ho. destruct r as [path|message].
    + destruct Hr. split; [done|]. split; [by apply described_db_host|apply explicit_unchanged; by rewrite Ho].
    + destruct Hr as [Hno Hm]. split; [done|]. split; [done|]. split; [done|]. exists message. by destruct Hm as [->| ->].
  - destruct (copy_database_name_spec (op_db_name (ps_config s)) (ga_optarg a) Hstr) as (r & -> & Hr); [done|].
    run_simpl. eexists. split; [done|]. unfold switched, acceptable. rewrite Ho. destruct r as [name|].
    + destruct Hr. split; [done|]. split; [by apply described_db_name|apply explicit_unchanged; by rewrite Ho].
    + split; [done|]. split; [done|]. split; [done|]. by eexists.
  - eexists. split; [done|]. unfold switched, acceptable. rewrite Ho. split; [by intros []|]. split; [done|].
    split; [done|]. eexists. split; [done|]. by case_if.
Qed.
End switch.

(** ** The command line *)

(** Every option can follow those before it. *)
Fixpoint accepted (before answers : list getopt_answer) : Prop :=
  match answers with
  | [] => True
  | a :: answers => acceptable before a ∧ accepted (before ++ [a]) answers
  end.

Definition arguments_given (answers : list getopt_answer) : Prop :=
  Forall (λ a, has_argument (ga_option a) = true → c_string (ga_optarg a)) answers.

Lemma parse_answers_spec geteuid answers before s :
  arguments_given answers → described geteuid before (ps_config s) →
  (ps_explicit_uids s = true ↔ occurs OPTION_ALLOW_UID before) →
  ∃ c done rest, parse_answers answers s = Some c ∧ answers = done ++ rest ∧ accepted before done ∧
    match c with
    | Continue _ => False
    | Break s' => rest = [] ∧ described geteuid (before ++ done) (ps_config s')
    | Return (result, message, s') =>
        described geteuid (before ++ done) (ps_config s') ∧
        ∃ a rest', rest = a :: rest' ∧ ¬ acceptable (before ++ done) a ∧
          match ga_option a with
          | OPTION_HELP => result = AUTHD_CONFIG_HELP ∧ message = None
          | OPTION_VERSION => result = AUTHD_CONFIG_VERSION ∧ message = None
          | _ => result = AUTHD_CONFIG_ERROR ∧ ∃ m, message = Some m ∧ m ≠ []
          end
    end.
Proof.
  intros Hargs. revert before s. induction Hargs as [|a answers Ha _ IH]; intros before s Hd He; cbn [parse_answers].
  { exists (Break s), [], []. by rewrite (app_nil_r before). }
  destruct (config_switch_spec geteuid before a s Hd He Ha) as (c & -> & Hc). run_simpl.
  destruct c as [s'|s'|[[result message] s']]; cbn [switched] in Hc; [|done|].
  - destruct Hc as (Hacc & Hd' & He'). destruct (IH _ _ Hd' He') as (c & done & rest & -> & -> & Hdone & Hend).
    exists c, (a :: done), rest. split_and!; [done..|]. by rewrite <- app_assoc in Hend.
  - destruct Hc as (Hno & Hs' & Hend). eexists _, [], (a :: answers). split_and!; [done..|].
    rewrite (app_nil_r before), Hs'. split; [done|]. by exists a, answers.
Qed.

Lemma described_defaults geteuid : described geteuid [] (authd_config_defaults geteuid).
Proof.
  split; try done; try (split; [done|by intros ?%not_elem_of_nil]);
    try (split_and!; vm_compute; congruence).
  - apply NoDup_singleton.
  - intros uid. change (allowed_uids _) with [geteuid]. rewrite list_elem_of_singleton. split; [right|by intros [(? & ?%not_elem_of_nil & _)|[_ ?]]].
    split; [|done]. by intros ?%not_elem_of_nil.
Qed.

(** A number of a described structure is in its range. *)
Lemma described_limits geteuid answers c m :
  described geteuid answers c → (limits m).1 <= op_number c m <= (limits m).2.
Proof.
  intros Hd. pose proof (ds_number _ _ _ Hd m) as Hm. unfold setting in Hm. destruct last_argument; [apply Hm|].
  rewrite Hm. destruct m; vm_compute; split; discriminate.
Qed.

(** The message that is left in [error]. *)
Definition reports (error : ptr) (error_size : Z) (message : list Z) (error' : ptr) : Prop :=
  match error, error' with
  | None, None => True
  | Some buffer, Some buffer' =>
      zlen buffer' = zlen buffer ∧
      (0 < error_size → cstr buffer' = cstr (take (Z.to_nat (error_size - 1)) message ++ [0]))
  | _, _ => False
  end.

Definition error_memory (error : ptr) (error_size : Z) : Prop :=
  match error with None => True | Some buffer => 0 <= error_size <= zlen buffer end.

Lemma cstr_prefix a b : cstr (a ++ 0 :: b) = cstr (a ++ [0]).
Proof. induction a as [|x a IH]; cbn; [done|]. by rewrite IH. Qed.

Lemma set_error_spec error error_size message :
  error_memory error error_size →
  ∃ error', set_error error error_size message = Some error' ∧ reports error error_size message error' ∧
    error_memory error' error_size.
Proof.
  intros He. destruct error as [buffer|]; [|by exists None]. cbn in He. unfold set_error.
  destruct (Z.eqb_spec error_size 0) as [->|Hn]; [exists (Some buffer); cbn; split_and!; (done || lia)|].
  set (text := take (Z.to_nat (error_size - 1)) message).
  assert (zlen (text ++ [0]) <= error_size) as Hlen.
  { unfold text, zlen. rewrite length_app, length_take. cbn. lia. }
  assert (is_Some (buf_write buffer 0 (text ++ [0]))) as [buffer' Hw] by (rewrite buf_write_in by lia; done).
  rewrite Hw. run_simpl. exists (Some buffer'). pose proof (buf_write_length _ _ _ _ Hw) as Hl.
  rewrite buf_write_in in Hw by lia. injection Hw as <-. cbn [reports error_memory]. rewrite Hl.
  split; [done|]. split; [|done]. split; [done|]. intros _.
  change (take (Z.to_nat 0) buffer) with (@nil Z). cbn [app]. rewrite <- app_assoc. apply cstr_prefix.
Qed.

Lemma clear_error_spec error error_size :
  error_memory error error_size →
  ∃ error',
    match error with
    | Some buffer => if 0 <? error_size then let! buffer := buf_set buffer 0 0 in Some (Some buffer) else Some error
    | None => Some None
    end = Some error' ∧ reports error error_size [] error' ∧ error_memory error' error_size.
Proof.
  intros He. destruct error as [buffer|]; [|by exists None]. cbn in He.
  destruct (Z.ltb_spec 0 error_size) as [Hn|Hn]; [|exists (Some buffer); cbn; split_and!; (done || lia)].
  rewrite buf_set_in by lia. run_simpl. eexists. split; [done|]. cbn [reports error_memory].
  unfold zlen in *. rewrite length_insert. split; [|done]. split; [done|]. intros _.
  rewrite take_nil. destruct buffer as [|c buffer]; [cbn in He; lia|]. done.
Qed.

(** Nothing is reported twice. *)
Lemma reports_after error error1 error2 error_size message :
  reports error error_size [] error1 → reports error1 error_size message error2 → reports error error_size message error2.
Proof.
  destruct error as [b|], error1 as [b1|], error2 as [b2|]; cbn; try done.
  intros [Hl _] [Hl' Ht]. split; [lia|done].
Qed.

(** The standard's promises on [getopt_long]: an option that requires an argument
    has one, which is one of the arguments or a part of it; the arguments are only
    permuted. *)
Class GetoptLaws `{Getopt} : Prop := law_getopt argc argv answers optind argv' :
  zlen argv = argc → Forall c_string argv → getopt_long argc argv = (answers, optind, argv') →
  arguments_given answers ∧ Forall c_string argv' ∧ zlen argv' = argc ∧ 0 <= optind <= argc.

(** ** Properties *)

Section properties.
Context `{GetoptLaws} (geteuid : Z) (config : authd_options) (argc : Z) (argv : list ptr) (error : ptr) (error_size : Z).

(** The options that are taken, and what is said of the others. *)
Definition parse_outcome (answers : list getopt_answer) (optind : Z) (result : authd_config_result)
    (c : authd_options) (error' : ptr) : Prop :=
  ∃ done rest,
    answers = done ++ rest ∧ accepted [] done ∧ described geteuid done c ∧
    let fits := op_number c password_workers <= op_number c password_queue_capacity in
    match result with
    | AUTHD_CONFIG_OK => rest = [] ∧ optind = argc ∧ fits ∧ reports error error_size [] error'
    | AUTHD_CONFIG_HELP => head (map ga_option rest) = Some OPTION_HELP ∧ reports error error_size [] error'
    | AUTHD_CONFIG_VERSION => head (map ga_option rest) = Some OPTION_VERSION ∧ reports error error_size [] error'
    | AUTHD_CONFIG_ERROR =>
        (∃ message, message ≠ [] ∧ reports error error_size message error') ∧
        match rest with
        | [] => optind ≠ argc ∨ ¬ fits
        | a :: _ => ga_option a ≠ OPTION_HELP ∧ ga_option a ≠ OPTION_VERSION ∧ ¬ acceptable done a
        end
    end.

(** C13: the parser of the command line returns on every command line. It takes the
    options in order as long as each is acceptable after those before it. If all are,
    nothing else is on the command line and the queue has a place for every worker,
    the result is success; otherwise it is an error with a message, or the request
    for help or for the version. In each case the structure says exactly what the
    accepted options say: the last value of a number, path, name or mode, each flag
    that occurs, and the set of the named users, which is the own user if none is
    named. *)
Theorem config_parse_correct answers optind argv' :
  1 <= argc → zlen argv = argc → Forall c_string argv → error_memory error error_size →
  getopt_long argc argv = (answers, optind, argv') →
  ∃ result c error',
    authd_config_parse geteuid (Some config) argc (Some argv) error error_size = Some (result, Some c, error') ∧
    parse_outcome answers optind result c error'.
Proof.
  intros Hargc Hargv Hstrings Herror Hgetopt. destruct (law_getopt _ _ _ _ _ Hargv Hstrings Hgetopt)
    as (Hargs & Hstrings' & Hargv' & Hoptind).
  destruct (parse_answers_spec geteuid answers [] (ParseState (authd_config_defaults geteuid) false) Hargs
    (described_defaults geteuid)) as (c & done & rest & Hparse & -> & Hacc & Hend).
  { split; [done|]. by intros ?%not_elem_of_nil. }
  unfold authd_config_parse. rewrite (proj2 (Z.ltb_ge argc 1)) by lia.
  destruct (clear_error_spec error error_size Herror) as (error1 & -> & Hrep1 & Hmem1). run_simpl.
  rewrite Hgetopt. cbv beta iota. rewrite Hparse. run_simpl.
  destruct c as [s|s|[[result message] s]]; [done| |]; cbn [app] in Hend.
  - destruct Hend as [-> Hd]. rewrite app_nil_r. unfold check_parsed.
    destruct (Z.eqb_spec optind argc) as [->|Hopt]; cbn [negb].
    + pose proof (ds_uid_count _ _ _ Hd). rewrite (proj2 (Z.eqb_neq _ 0)) by lia.
      destruct (Z.ltb_spec (op_number (ps_config s) password_queue_capacity) (op_number (ps_config s) password_workers)) as [Hq|Hq];
        run_simpl.
      * destruct (set_error_spec error1 error_size
          (lit "--password-queue-capacity must be at least --password-workers") Hmem1) as (error2 & -> & Hrep2 & _). run_simpl.
        eexists _, _, error2. split; [done|]. exists done, []. rewrite app_nil_r. cbv zeta. split_and!; [done..| |right; lia].
        eexists. split; [|by eapply reports_after]. done.
      * eexists _, _, error1. split; [done|]. exists done, []. by rewrite app_nil_r.
    + assert (∃ text tail, arr_get argv' optind = Some (Some (terminated text tail))) as (text & tail & ->).
      { destruct (lookup_lt_is_Some_2 argv' (Z.to_nat optind)) as [p Hp]; [unfold zlen in *; lia|].
        rewrite Forall_lookup in Hstrings'. destruct (Hstrings' _ _ Hp) as (text & tail & -> & _). exists text, tail.
        unfold arr_get. by rewrite (proj2 (Z.leb_le 0 optind)) by lia. }
      run_simpl. cbn [deref]. run_simpl.
      destruct (set_error_spec error1 error_size
        (lit "unexpected positional argument: " ++ cstr (terminated text tail)) Hmem1) as (error2 & -> & Hrep2 & _). run_simpl.
      eexists _, _, error2. split; [done|]. exists done, []. rewrite app_nil_r. cbv zeta. split_and!; [done..| |by left].
      eexists. split; [|by eapply reports_after]. done.
  - destruct Hend as (Hd & a & rest' & -> & Hno & Hend).
    assert (∃ error2, match message with Some message => set_error error1 error_size message | None => Some error1 end = Some error2 ∧
      match message with Some message => reports error error_size message error2 | None => error2 = error1 end)
      as (error2 & -> & Hrep2).
    { destruct message as [message|]; [|by eexists].
      destruct (set_error_spec error1 error_size message Hmem1) as (error2 & -> & Hrep2 & _). eexists. split; [done|].
      by eapply reports_after. }
    run_simpl. eexists _, _, error2. split; [done|]. exists done, (a :: rest'). cbv zeta. split_and!; [done..|].
    destruct (ga_option a) eqn:Ho; destruct Hend as [-> Hend];
      first [destruct Hend as (said & -> & Hm); by split; [exists said|split_and!] | subst message; cbv beta iota in Hrep2; subst error2; cbn [map head]; by rewrite ?Ho].
Qed.

(** C14: a structure that the parser accepts is one that the daemon starts with and
    that its loop relies on: every number is in its range, the queue has a place for
    every worker, the policies of throttling and of registrations are valid, one to 32
    different users are allowed, and the paths and names are strings that end within
    their arrays. *)
Theorem parsed_config_valid c error' :
  1 <= argc → zlen argv = argc → Forall c_string argv → error_memory error error_size →
  authd_config_parse geteuid (Some config) argc (Some argv) error error_size = Some (AUTHD_CONFIG_OK, Some c, error') →
  configured (server_config c) ∧
  authd_throttle_policy_is_valid (Some (ctx_throttle_policy (new_context (server_config c)))) = true ∧
  authd_registration_limit_policy_is_valid
    (Some (LimitPolicy (op_number c registration_ip_attempts) (op_number c registration_ip_window_seconds))) = true ∧
  (∀ m, (limits m).1 <= op_number c m <= (limits m).2) ∧
  op_number c password_workers <= op_number c password_queue_capacity ∧
  1 <= zlen (allowed_uids c) <= AUTHD_MAX_ALLOWED_UIDS ∧ NoDup (allowed_uids c) ∧
  (∃ text, path_text (SOCKET_PATH_SIZE - 1) text ∧ holds SOCKET_PATH_SIZE (op_socket_path c) text) ∧
  (∃ text, path_text AUTHD_DB_HOST_MAX text ∧ holds (AUTHD_DB_HOST_MAX + 1) (op_db_host c) text) ∧
  (∃ text, name_text text ∧ holds (AUTHD_DB_NAME_MAX + 1) (op_db_name c) text).
Proof.
  intros Hargc Hargv Hstrings Herror Hparsed.
  destruct (getopt_long argc argv) as [[answers optind] argv'] eqn:Hgetopt.
  destruct (law_getopt _ _ _ _ _ Hargv Hstrings Hgetopt) as (Hargs & _).
  destruct (parse_answers_spec geteuid answers [] (ParseState (authd_config_defaults geteuid) false) Hargs
    (described_defaults geteuid)) as (r & done & rest & Hparse & -> & Hacc & Hend).
  { split; [done|]. by intros ?%not_elem_of_nil. }
  unfold authd_config_parse in Hparsed. rewrite (proj2 (Z.ltb_ge argc 1)) in Hparsed by lia.
  destruct (clear_error_spec error error_size Herror) as (error1 & Hclear & _). rewrite Hclear in Hparsed.
  rewrite Hgetopt in Hparsed. cbv beta iota in Hparsed. rewrite Hparse in Hparsed.
  assert (described geteuid done c ∧ op_number c password_workers <= op_number c password_queue_capacity) as [Hd Hfits].
  { destruct r as [s|s|[[result message] s]]; [done| |]; cbn [app] in Hend.
    - destruct Hend as [_ Hd]. destruct (check_parsed (ps_config s) argc optind argv') as [[m|]|] eqn:Hcheck; [by destruct (set_error error1 error_size m)| |done].
      injection Hparsed as <- _. split; [done|]. unfold check_parsed in Hcheck.
      destruct (negb (optind =? argc)); [by destruct (arr_get argv' optind) as [[p|]|]|].
      destruct (op_allowed_uid_count (ps_config s) =? 0); [done|]. destruct (Z.ltb_spec (op_number (ps_config s) password_queue_capacity) (op_number (ps_config s) password_workers)); [done|lia].
    - destruct Hend as (_ & a & rest' & _ & _ & Hend).
      destruct (match message with Some m => set_error error1 error_size m | None => Some error1 end); [|done].
      injection Hparsed as -> _ _. by destruct (ga_option a), Hend. }
  assert (∀ m, (limits m).1 <= op_number c m <= (limits m).2) as Hlimits by (intros m; by eapply described_limits).
  destruct Hd.
  assert (zlen (allowed_uids c) = op_allowed_uid_count c) as Hcount.
  { unfold allowed_uids, zlen, AUTHD_MAX_ALLOWED_UIDS in *. rewrite length_take. lia. }
  split_and!; try done.
  - split; [|cbn; rewrite ds_uid_array0; lia].
    unfold config_is_valid. cbv zeta. cbn [server_config cfg_max_clients cfg_password_workers cfg_password_queue_capacity
      cfg_db_health_interval_ms cfg_registration_min_password_bytes cfg_registration_timeout_seconds cfg_registration_max_pending].
    rewrite !andb_true_iff, !Z.leb_le.
    pose proof (Hlimits max_clients). pose proof (Hlimits password_workers). pose proof (Hlimits password_queue_capacity).
    pose proof (Hlimits db_health_interval_ms). pose proof (Hlimits registration_min_password_bytes).
    pose proof (Hlimits registration_timeout_seconds). pose proof (Hlimits registration_max_pending).
    cbn [limits fst snd] in *. tauto.
  - pose proof (Hlimits password_failure_threshold). pose proof (Hlimits password_failure_window_seconds).
    pose proof (Hlimits password_throttle_seconds). unfold authd_throttle_policy_is_valid. cbn.
    rewrite !andb_true_iff, !Z.leb_le. cbn [limits fst snd] in *. tauto.
  - pose proof (Hlimits registration_ip_attempts). pose proof (Hlimits registration_ip_window_seconds).
    unfold authd_registration_limit_policy_is_valid. cbn [attempts_max window_seconds].
    rewrite !andb_true_iff, !Z.leb_le. cbn [limits fst snd] in *. tauto.
  - rewrite Hcount. lia.
  - rewrite Hcount. lia.
  - unfold setting in ds_socket_path0. destruct last_argument; [by eexists|]. by exists FTAP_DEFAULT_SOCKET_PATH.
  - unfold setting in ds_db_host0. destruct last_argument; [by eexists|]. by exists (lit "/var/run/postgresql").
  - unfold setting in ds_db_name0. destruct last_argument; [by eexists|]. exists (lit "fortytwo"). split; [|done].
    split_and!; [done..|]. by apply forallb_Forall.
Qed.
End properties.

(** ** Examples *)

(** White space before the minus sign lets a negative number pass the test for one;
    it is taken as the unsigned number of the same bits. *)
Example negative_number_accepted :
  parse_uid_value (Some (lit "-1" ++ [0])) = Some None ∧
  parse_uid_value (Some (lit " -18446744073709551615" ++ [0])) = Some (Some 1).
Proof. vm_compute. done. Qed.

Definition sample_answers : list getopt_answer :=
  [Answer (OPTION_NUMBER max_clients) (Some (lit "128" ++ [0])); Answer OPTION_ALLOW_UID (Some (lit "1000" ++ [0]));
   Answer OPTION_SOCKET (Some (lit "/run/a" ++ [0])); Answer OPTION_ALLOW_UID (Some (lit "1001" ++ [0]));
   Answer OPTION_ALLOW_UID (Some (lit "1000" ++ [0])); Answer OPTION_VERBOSE None].

Definition sample_argv : list ptr :=
  map (λ word, Some (word ++ [0]))
    [lit "fortytwo-authd"; lit "--max-clients=128"; lit "--allow-uid"; lit "1000"; lit "-s/run/a"; lit "--allow-uid=1001";
     lit "--allow-uid"; lit "1000"; lit "--verbose"].

(** It knows one command line, and takes others for one without options. *)
Definition sample_getopt : Getopt :=
  λ argc argv, if decide (argv = sample_argv) then (sample_answers, argc, argv) else ([], argc, argv).

Definition is_c_string (p : ptr) : bool :=
  match p with Some l => bool_decide (l = terminated (cstr l) []) | None => false end.

Lemma is_c_string_spec p : is_c_string p = true → c_string p.
Proof.
  destruct p as [l|]; [|done]. intros H%bool_decide_eq_true. exists (cstr l), []. rewrite <- H. split; [done|].
  apply cstr_nonzero.
Qed.

Lemma sample_getopt_laws : @GetoptLaws sample_getopt.
Proof.
  intros argc argv answers optind argv' Hlen Hstrings. unfold getopt_long, sample_getopt.
  pose proof (zlen_nonneg argv). case_decide; intros [= <- <- <-]; (split_and!; [|done|done|lia|done]).
  - unfold sample_answers, arguments_given. repeat (apply Forall_cons; split); [..|constructor];
      intros Ha; first [discriminate Ha | apply is_c_string_spec; vm_compute; reflexivity].
  - constructor.
Qed.

Lemma sample_strings : Forall c_string sample_argv.
Proof. repeat constructor; apply is_c_string_spec; vm_compute; reflexivity. Qed.

Definition sample_parse : run (authd_config_result * option authd_options * ptr) :=
  @authd_config_parse sample_getopt 0 (Some (authd_config_defaults 0)) 9 (Some sample_argv) (Some (zeros 80)) 80.

Lemma config_parse_correct_witness :
  (match sample_parse with
   | Some (AUTHD_CONFIG_OK, Some c, _) =>
       op_number c max_clients = 128 ∧ allowed_uids c = [1000; 1001] ∧ cstr (op_socket_path c) = lit "/run/a"
   | _ => False
   end) ∧
  ∃ result c error', sample_parse = Some (result, Some c, error') ∧
    parse_outcome 0 9 (Some (zeros 80)) 80 sample_answers 9 result c error'.
Proof.
  split; [vm_compute; done|].
  apply (@config_parse_correct sample_getopt sample_getopt_laws 0 (authd_config_defaults 0) 9 sample_argv (Some (zeros 80)) 80
    sample_answers 9 sample_argv).
  - lia.
  - reflexivity.
  - apply sample_strings.
  - vm_compute. split; discriminate.
  - vm_compute. reflexivity.
Defined.

Lemma parsed_config_valid_witness :
  match sample_parse with
  | Some (AUTHD_CONFIG_OK, Some c, _) => configured (server_config c)
  | _ => False
  end.
Proof.
  unfold sample_parse. destruct authd_config_parse as [[[[] [c|]] e]|] eqn:Hp; try (exfalso; revert Hp; vm_compute; discriminate).
  refine (proj1 (@parsed_config_valid sample_getopt sample_getopt_laws 0 (authd_config_defaults 0) 9 sample_argv
    (Some (zeros 80)) 80 c e _ _ _ _ Hp)).
  - lia.
  - reflexivity.
  - apply sample_strings.
  - vm_compute. split; discriminate.
Defined.
