(* ===== verification/FtapClient.v ===== *)
(** * The FTAP client

    [fortytwo-auth/src/ftap_client.c]: the blocking client that the login program
    and the registration coordinator use. It sends one request at a time, waits for
    its response until a deadline, and checks everything that it receives with the
    schema. The socket, the clock and the other system calls are an environment
    that may answer anything; an answer that fails has an [errno]. The client
    pointer always leads to a client, so the tests of it against [NULL] have no
    counterpart, and wiping a local array has none, because the array is gone. *)

From S2P Require Import Prelude Protocol Words Utf8 Codec Inet Schema Program Client Requests.

(** ** System calls *)

(** The events of [poll]. *)
Definition POLLIN : Z := 1.
Definition POLLOUT : Z := 4.
Definition POLLERR : Z := 8.
Definition POLLHUP : Z := 16.
Definition POLLNVAL : Z := 32.
Definition SOCK_STREAM : Z := 1.
Definition O_NONBLOCK : Z := 2048.
Definition FD_CLOEXEC : Z := 1.
Definition INT32_MAX : Z := 2147483647.
(** [sizeof(address.sun_path)] *)
Definition SUN_PATH_SIZE : Z := 108.
Definition FTAP_INHERITED_SESSION_FD : Z := 3.

(** The calls that set up a descriptor: they answer with a number, or fail with an
    [errno]. *)
Inductive descriptor_call :=
| CreateSocket
| Connect (fd : Z) (path : list Z)
| SocketError (fd : Z)
| SocketType (fd : Z)
| GetFileFlags (fd : Z)
| SetFileFlags (fd flags : Z)
| Duplicate (fd new_fd : Z)
| GetDescriptorFlags (fd : Z)
| SetDescriptorFlags (fd flags : Z).

(** What happened, with the answer; [poll] without an event is a timeout. *)
Inductive client_event :=
| ReadClock (answer : (Z * Z) + Z)
| PollSocket (fd events timeout : Z) (answer : option Z + Z)
| SendBytes (fd : Z) (data : list Z) (answer : Z + Z)
| ReceiveBytes (fd capacity : Z) (answer : list Z + Z)
| CallDescriptor (call : descriptor_call) (answer : Z + Z)
| CloseSocket (fd : Z).

Abbreviation client_history := (list client_event) (only parsing).

Class ClientEnvironment := {
  cl_clock : client_history → (Z * Z) + Z;
  cl_poll : client_history → Z → Z → Z → option Z + Z;
  cl_send : client_history → Z → list Z → Z + Z;
  cl_receive : client_history → Z → Z → list Z + Z;
  cl_call : client_history → descriptor_call → Z + Z;
}.

(** ** Data *)

Definition FTAP_CLIENT_DEFAULT_TIMEOUT_MS : Z := 5000.
Definition FTAP_CLIENT_ERROR_TEXT_SIZE : Z := FTAP_ERROR_TEXT_MAX + 1.

Record ftap_client := FtapClient {
  cl_fd : Z;
  cl_state : ftap_connection_state;
  cl_next_request_id : Z;
  cl_timeout_ms : Z;
}.

Record ftap_client_error := ClientError {
  ce_status : ftap_status;
  ce_system_errno : Z;
  ce_protocol_error : Z;
  ce_retry_after_ms : Z;
  ce_server_error : bool;
  ce_outcome_unknown : bool;
  ce_text : list Z;
}.

Record ftap_terminal_context := TerminalContext {
  tc_user_id : list Z;
  tc_session_id : list Z;
  tc_login_name : list Z;
  tc_display_name : list Z;
  tc_legacy_name : list Z;
  tc_protocol : list Z;
  tc_auth_method : list Z;
  tc_auth_epoch : Z;
  tc_authz_revision : Z;
}.

(** [ftap_password_metadata_t] and [ftap_registration_metadata_t] have the same
    members. *)
Record ftap_metadata := Metadata {
  md_protocol : ptr;
  md_source_ip : ptr;
  md_tty_device : ptr;
  md_node_id : ptr;
}.

Record ftap_registration_context := RegistrationContext {
  rg_registration_id : list Z;
  rg_user_id : list Z;
  rg_login_name : list Z;
  rg_display_name : list Z;
  rg_legacy_name : list Z;
}.

Record ftap_received_frame := ReceivedFrame {
  rf_header : ftap_frame_header;
  rf_payload : list Z;
  rf_payload_length : Z;
}.

Definition set_cl_state v (c : ftap_client) : ftap_client :=
  FtapClient (cl_fd c) v (cl_next_request_id c) (cl_timeout_ms c).
Definition set_cl_fd v (c : ftap_client) : ftap_client :=
  FtapClient v (cl_state c) (cl_next_request_id c) (cl_timeout_ms c).
Definition set_cl_next_request_id v (c : ftap_client) : ftap_client :=
  FtapClient (cl_fd c) (cl_state c) v (cl_timeout_ms c).

(** [memset(..., 0, sizeof(...))] *)
Definition zero_client_error : ftap_client_error :=
  ClientError FTAP_STATUS_OK 0 0 0 false false (zeros FTAP_CLIENT_ERROR_TEXT_SIZE).
Definition zero_terminal_context : ftap_terminal_context :=
  TerminalContext (zeros FTAP_UUID_SIZE) (zeros FTAP_UUID_SIZE) (zeros (FTAP_LOGIN_NAME_MAX + 1))
    (zeros (FTAP_DISPLAY_NAME_MAX + 1)) (zeros (FTAP_LEGACY_NAME_MAX + 1))
    (zeros (FTAP_PROTOCOL_NAME_MAX + 1)) (zeros (FTAP_AUTH_METHOD_MAX + 1)) 0 0.
Definition zero_registration_context : ftap_registration_context :=
  RegistrationContext (zeros FTAP_UUID_SIZE) (zeros FTAP_UUID_SIZE) (zeros (FTAP_LOGIN_NAME_MAX + 1))
    (zeros (FTAP_DISPLAY_NAME_MAX + 1)) (zeros (FTAP_LEGACY_NAME_MAX + 1)).
Definition zero_frame : ftap_received_frame :=
  ReceivedFrame (FrameHeader 0 0 0 0 0 0) (zeros FTAP_MAX_PAYLOAD_SIZE) 0.

(** An error pointer may be null. *)
Abbreviation error_ptr := (option ftap_client_error) (only parsing).

Definition ftap_client_error_clear (error : error_ptr) : error_ptr := (λ _, zero_client_error) <$> error.

(** [snprintf] of a literal that fits into the array. *)
Definition string_array (size : Z) (text : list Z) : list Z := text ++ zeros (size - zlen text).

Definition set_local_error (error : error_ptr) (status : ftap_status) (system_errno : Z)
    (text : list Z) : error_ptr :=
  (λ _, ClientError status system_errno 0 0 false false (string_array FTAP_CLIENT_ERROR_TEXT_SIZE text))
    <$> error.

Definition ftap_client_init (timeout_ms : Z) : ftap_client :=
  FtapClient (-1) FTAP_STATE_CONNECTED FTAP_FIRST_CLIENT_REQUEST_ID
    (if timeout_ms =? 0 then FTAP_CLIENT_DEFAULT_TIMEOUT_MS else timeout_ms).

(** ** Input and output *)

Section client.
Context `{Inet} `{ClientEnvironment}.

(** How often a loop runs that the environment can prolong. *)
Context (fuel : nat).

Abbreviation client := (prog client_event ftap_client) (only parsing).

Definition clock_gettime : client ((Z * Z) + Z) := service cl_clock ReadClock.
Definition poll_socket (fd events timeout : Z) : client (option Z + Z) :=
  service (λ h, cl_poll h fd events timeout) (PollSocket fd events timeout).
Definition send_socket (fd : Z) (data : list Z) : client (Z + Z) :=
  service (λ h, cl_send h fd data) (SendBytes fd data).
Definition recv_socket (fd capacity : Z) : client (list Z + Z) :=
  service (λ h, cl_receive h fd capacity) (ReceiveBytes fd capacity).
Definition call_descriptor (call : descriptor_call) : client (Z + Z) :=
  service (λ h, cl_call h call) (CallDescriptor call).
Definition close_socket (fd : Z) : client unit := service (λ _, tt) (λ _, CloseSocket fd).

(** Functions that return -1 and set [errno] have the [errno] as their result. *)
Definition monotonic_milliseconds : client (Z + Z) :=
  let* now := clock_gettime in
  ret match now with
      | inl (tv_sec, tv_nsec) => inl (u64 (u64 (u64 tv_sec * 1000) + u64 tv_nsec / 1000000))
      | inr errno => inr errno
      end.

Definition deadline_after (timeout_ms : Z) : client (Z + Z) :=
  let* now := monotonic_milliseconds in
  ret match now with
      | inl now => inl (if UINT64_MAX - timeout_ms <? now then UINT64_MAX else now + timeout_ms)
      | inr errno => inr errno
      end.

Definition remaining_timeout (deadline_ms : Z) : client (Z + Z) :=
  let* now := monotonic_milliseconds in
  ret match now with
      | inl now =>
          inl (if deadline_ms <=? now then 0
               else if INT32_MAX <? deadline_ms - now then INT32_MAX else deadline_ms - now)
      | inr errno => inr errno
      end.

Definition has_event (revents mask : Z) : bool := negb (Z.land revents mask =? 0).

(** The loop body of [wait_for_socket]: [Some None] is success. *)
Definition wait_step (fd events deadline_ms : Z) : client (option (option Z)) :=
  let* timeout := remaining_timeout deadline_ms in
  match timeout with
  | inr errno => ret (Some (Some errno))
  | inl timeout =>
      if timeout =? 0 then ret (Some (Some Errno.ETIMEDOUT))
      else
        let* result := poll_socket fd events timeout in
        ret match result with
            | inl (Some revents) =>
                if has_event revents POLLNVAL then Some (Some Errno.EBADF)
                else if has_event revents events || has_event revents (Z.lor POLLHUP POLLERR)
                then Some None
                else None
            | inl None => Some (Some Errno.ETIMEDOUT)
            | inr errno => if errno =? Errno.EINTR then None else Some (Some errno)
            end
  end.

Definition wait_for_socket (fd events deadline_ms : Z) : client (option Z) :=
  repeat_ fuel (wait_step fd events deadline_ms).

Definition interrupted (errno : Z) : bool := (errno =? Errno.EINTR) || (errno =? Errno.EAGAIN).

(** The loop of [send_all] with its local [offset]. *)
Definition send_step (fd : Z) (buffer : list Z) (length deadline_ms offset : Z)
    : client (Z + option Z) :=
  if length <=? offset then ret (inr None)
  else
    let* waited := wait_for_socket fd POLLOUT deadline_ms in
    match waited with
    | Some errno => ret (inr (Some errno))
    | None =>
        let* data := lift (buf_read buffer offset (length - offset)) in
        let* sent := send_socket fd data in
        ret match sent with
            | inl n => if 0 <? n then inl (offset + n) else inr (Some Errno.EPIPE)
            | inr errno => if interrupted errno then inl offset else inr (Some errno)
            end
    end.

Definition send_all (fd : Z) (buffer : list Z) (length deadline_ms : Z) : client (option Z) :=
  iterate fuel (send_step fd buffer length deadline_ms) 0.

(** The loop of [receive_exact] with its local [offset] and the buffer. *)
Definition receive_step (fd length deadline_ms : Z) (l : Z * list Z)
    : client ((Z * list Z) + (option Z * list Z)) :=
  let (offset, buffer) := l in
  if length <=? offset then ret (inr (None, buffer))
  else
    let* waited := wait_for_socket fd POLLIN deadline_ms in
    match waited with
    | Some errno => ret (inr (Some errno, buffer))
    | None =>
        let* received := recv_socket fd (length - offset) in
        match received with
        | inl [] => ret (inr (Some Errno.ECONNRESET, buffer))
        | inl bytes =>
            let* buffer := lift (buf_write buffer offset bytes) in
            ret (inl (offset + zlen bytes, buffer))
        | inr errno =>
            ret (if interrupted errno then inl (offset, buffer) else inr (Some errno, buffer))
        end
    end.

Definition receive_exact (fd : Z) (buffer : list Z) (length deadline_ms : Z)
    : client (option Z * list Z) :=
  iterate fuel (receive_step fd length deadline_ms) (0, buffer).

Definition receive_frame (deadline_ms : Z) (error : error_ptr)
    : client (Z * ftap_received_frame * error_ptr) :=
  let* c := get in
  let* (failed, header_bytes) :=
    receive_exact (cl_fd c) (zeros FTAP_FRAME_HEADER_SIZE) FTAP_FRAME_HEADER_SIZE deadline_ms in
  match failed with
  | Some errno =>
      ret (-1, zero_frame, set_local_error error FTAP_STATUS_ERR_TRUNCATED errno
                             (lit "cannot read FTAP frame header"))
  | None =>
      let* (status, header) := lift (ftap_frame_header_decode (Some header_bytes) (zlen header_bytes)
        (Some (rf_header zero_frame))) in
      let* header := lift (deref header) in
      if negb (status_ok status) || (FTAP_MAX_PAYLOAD_SIZE <? hdr_payload_length header)
      then ret (-1, ReceivedFrame header (rf_payload zero_frame) 0,
                set_local_error error
                  (if status_ok status then FTAP_STATUS_ERR_LENGTH else status) Errno.EPROTO
                  (lit "invalid FTAP frame header"))
      else
        let payload_length := hdr_payload_length header in
        let* (failed, payload) :=
          if 0 <? payload_length
          then receive_exact (cl_fd c) (rf_payload zero_frame) payload_length deadline_ms
          else ret (None, rf_payload zero_frame) in
        let frame := ReceivedFrame header payload payload_length in
        match failed with
        | Some errno =>
            ret (-1, frame, set_local_error error FTAP_STATUS_ERR_TRUNCATED errno
                              (lit "cannot read FTAP frame payload"))
        | None =>
            let* (status, _) := lift (ftap_validate_message (cl_state c) (Some header) (Some payload)
              payload_length (Some (ValidationError FTAP_STATUS_OK 0 0))) in
            if negb (status_ok status)
            then ret (-1, frame, set_local_error error status Errno.EPROTO (lit "invalid FTAP response"))
            else ret (0, frame, error)
        end
  end.

Definition send_frame (message_type request_id : Z) (payload : ptr) (payload_length : Z)
    (error : error_ptr) : client (Z * error_ptr) :=
  let* c := get in
  if (cl_fd c <? 0) || is_null payload && negb (payload_length =? 0)
     || (FTAP_MAX_PAYLOAD_SIZE <? payload_length)
  then ret (-1, set_local_error error FTAP_STATUS_ERR_ARGUMENT Errno.EINVAL
                  (lit "invalid FTAP client argument"))
  else
    let header := FrameHeader FTAP_VERSION_MAJOR FTAP_VERSION_MINOR message_type 0
                    (u32 payload_length) request_id in
    let* (status, frame) := lift (ftap_frame_header_encode (Some (zeros FTAP_MAX_FRAME_SIZE)) (Some header)) in
    let* frame := lift (deref frame) in
    if negb (status_ok status)
    then ret (-1, set_local_error error status Errno.EPROTO (lit "cannot encode FTAP frame"))
    else
      let* frame :=
        if 0 <? payload_length then
          let* source := lift (deref payload) in
          let* data := lift (buf_read source 0 payload_length) in
          lift (buf_write frame FTAP_FRAME_HEADER_SIZE data)
        else ret frame in
      let* deadline := deadline_after (cl_timeout_ms c) in
      match deadline with
      | inr errno =>
          ret (-1, set_local_error error FTAP_STATUS_ERR_TRUNCATED errno (lit "cannot read monotonic clock"))
      | inl deadline_ms =>
          let* failed :=
            send_all (cl_fd c) frame (FTAP_FRAME_HEADER_SIZE + payload_length) deadline_ms in
          match failed with
          | Some errno =>
              ret (-1, set_local_error error FTAP_STATUS_ERR_TRUNCATED errno (lit "cannot send FTAP frame"))
          | None => ret (0, error)
          end
      end.

(** ** Responses *)

(** [copy_text_field] into an array whose size is that of the list. *)
Definition copy_text_field (field : ftap_tlv) (output : list Z) : run (option (list Z)) :=
  if (zlen output =? 0) || (zlen output <=? tlv_length field) then Some None
  else
    let! value := deref (tlv_value field) in
    let! data := buf_read value 0 (tlv_length field) in
    let! output := buf_write output 0 data in
    let! output := buf_set output (tlv_length field) 0 in
    Some (Some output).

Definition ce_set_protocol_error v (e : ftap_client_error) : ftap_client_error :=
  ClientError (ce_status e) (ce_system_errno e) v (ce_retry_after_ms e) (ce_server_error e)
    (ce_outcome_unknown e) (ce_text e).
Definition ce_set_retry_after_ms v (e : ftap_client_error) : ftap_client_error :=
  ClientError (ce_status e) (ce_system_errno e) (ce_protocol_error e) v (ce_server_error e)
    (ce_outcome_unknown e) (ce_text e).
Definition ce_set_text v (e : ftap_client_error) : ftap_client_error :=
  ClientError (ce_status e) (ce_system_errno e) (ce_protocol_error e) (ce_retry_after_ms e)
    (ce_server_error e) (ce_outcome_unknown e) v.
Definition ce_set_outcome_unknown (e : ftap_client_error) : ftap_client_error :=
  ClientError (ce_status e) (ce_system_errno e) (ce_protocol_error e) (ce_retry_after_ms e)
    (ce_server_error e) true (ce_text e).

(** The body of the loop of [parse_error_frame]. *)
Definition error_field (field : ftap_tlv) (error : error_ptr) : run (ctl error_ptr error_ptr) :=
  match error with
  | None => Some (Continue error)
  | Some e =>
      let fail status text := Return (set_local_error error status Errno.EPROTO text) in
      if tlv_type field =? FTAP_FIELD_ERROR_CODE then
        let! (status, value) := ftap_tlv_get_u32 (Some field) (Some (ce_protocol_error e)) in
        let! value := deref value in
        Some (if negb (status_ok status) then fail FTAP_STATUS_ERR_INVALID_VALUE (lit "invalid FTAP error code")
              else Continue (Some (ce_set_protocol_error value e)))
      else if tlv_type field =? FTAP_FIELD_RETRY_AFTER_MS then
        let! (status, value) := ftap_tlv_get_u32 (Some field) (Some (ce_retry_after_ms e)) in
        let! value := deref value in
        Some (if negb (status_ok status) then fail FTAP_STATUS_ERR_INVALID_VALUE (lit "invalid FTAP retry interval")
              else Continue (Some (ce_set_retry_after_ms value e)))
      else if tlv_type field =? FTAP_FIELD_ERROR_TEXT then
        let! text := copy_text_field field (ce_text e) in
        Some match text with
             | None => fail FTAP_STATUS_ERR_LENGTH (lit "invalid FTAP error text")
             | Some text => Continue (Some (ce_set_text text e))
             end
      else Some (Continue error)
  end.

(** It always returns -1. *)
Definition parse_error_frame (frame : ftap_received_frame) (error : error_ptr) : run error_ptr :=
  let error :=
    (λ _, ClientError FTAP_STATUS_ERR_INVALID_VALUE 0 0 0 true false (zeros FTAP_CLIENT_ERROR_TEXT_SIZE))
      <$> error in
  let (status, reader) := ftap_tlv_reader_init (Some (TlvReader None 0 0)) (Some (rf_payload frame))
                            (rf_payload_length frame) in
  if negb (status_ok status)
  then Some (set_local_error error status Errno.EPROTO (lit "invalid FTAP error payload"))
  else
    let! reader := deref reader in
    let! c := field_loop
      (λ status _, set_local_error error status Errno.EPROTO (lit "invalid FTAP error field"))
      error_field reader error in
    Some match c with Continue error | Break error | Return error => error end.

(** The loop body of [wait_for_response]. *)
Definition response_step (expected_message_type request_id deadline_ms : Z) (l : error_ptr)
    : client (error_ptr + (Z * ftap_received_frame * error_ptr)) :=
  let* (received, response, error) := receive_frame deadline_ms l in
  let header := rf_header response in
  if negb (received =? 0) then ret (inr (-1, response, error))
  else if negb (Z.land (hdr_flags header) FTAP_FRAME_FLAG_SERVER_PUSH =? 0) then
    if hdr_message_type header =? FTAP_MSG_SESSION_REVOKED then
      let error :=
        ce_set_protocol_error FTAP_ERR_SESSION_REVOKED <$>
          set_local_error error FTAP_STATUS_ERR_INVALID_STATE Errno.EACCES (lit "FTAP session was revoked") in
      do* modify (set_cl_state FTAP_STATE_CLOSING) in
      ret (inr (-1, response, error))
    else if hdr_message_type header =? FTAP_MSG_SESSION_AUTHZ_CHANGED then ret (inl error)
    else ret (inr (-1, response, set_local_error error FTAP_STATUS_ERR_INVALID_MESSAGE Errno.EPROTO
                                   (lit "unexpected FTAP server push")))
  else if negb (hdr_request_id header =? request_id)
  then ret (inr (-1, response, set_local_error error FTAP_STATUS_ERR_REQUEST_ID Errno.EPROTO
                                 (lit "unexpected FTAP response request ID")))
  else if hdr_message_type header =? FTAP_MSG_ERROR then
    let* error := lift (parse_error_frame response error) in
    ret (inr (-1, response, error))
  else if negb (hdr_message_type header =? expected_message_type)
  then ret (inr (-1, response, set_local_error error FTAP_STATUS_ERR_INVALID_MESSAGE Errno.EPROTO
                                 (lit "unexpected FTAP response type")))
  else ret (inr (0, response, error)).

Definition wait_for_response (expected_message_type request_id : Z) (error : error_ptr)
    : client (Z * ftap_received_frame * error_ptr) :=
  let* c := get in
  let* deadline := deadline_after (cl_timeout_ms c) in
  match deadline with
  | inr errno =>
      ret (-1, zero_frame, set_local_error error FTAP_STATUS_ERR_TRUNCATED errno
                             (lit "cannot read monotonic clock"))
  | inl deadline_ms =>
      iterate fuel (response_step expected_message_type request_id deadline_ms) error
  end.

Definition next_request_id : client Z :=
  let* c := get in
  let next := u64 (cl_next_request_id c + 1) in
  do* modify (set_cl_next_request_id
                (if next <? FTAP_FIRST_CLIENT_REQUEST_ID then FTAP_FIRST_CLIENT_REQUEST_ID else next)) in
  ret (cl_next_request_id c).

Definition enter_state (state : ftap_connection_state) : client unit := modify (set_cl_state state).

(** *** The identity in a response *)

Definition tc_set_user_id v (c : ftap_terminal_context) : ftap_terminal_context :=
  TerminalContext v (tc_session_id c) (tc_login_name c) (tc_display_name c) (tc_legacy_name c)
    (tc_protocol c) (tc_auth_method c) (tc_auth_epoch c) (tc_authz_revision c).
Definition tc_set_session_id v (c : ftap_terminal_context) : ftap_terminal_context :=
  TerminalContext (tc_user_id c) v (tc_login_name c) (tc_display_name c) (tc_legacy_name c)
    (tc_protocol c) (tc_auth_method c) (tc_auth_epoch c) (tc_authz_revision c).
Definition tc_set_login_name v (c : ftap_terminal_context) : ftap_terminal_context :=
  TerminalContext (tc_user_id c) (tc_session_id c) v (tc_display_name c) (tc_legacy_name c)
    (tc_protocol c) (tc_auth_method c) (tc_auth_epoch c) (tc_authz_revision c).
Definition tc_set_display_name v (c : ftap_terminal_context) : ftap_terminal_context :=
  TerminalContext (tc_user_id c) (tc_session_id c) (tc_login_name c) v (tc_legacy_name c)
    (tc_protocol c) (tc_auth_method c) (tc_auth_epoch c) (tc_authz_revision c).
Definition tc_set_legacy_name v (c : ftap_terminal_context) : ftap_terminal_context :=
  TerminalContext (tc_user_id c) (tc_session_id c) (tc_login_name c) (tc_display_name c) v
    (tc_protocol c) (tc_auth_method c) (tc_auth_epoch c) (tc_authz_revision c).
Definition tc_set_protocol v (c : ftap_terminal_context) : ftap_terminal_context :=
  TerminalContext (tc_user_id c) (tc_session_id c) (tc_login_name c) (tc_display_name c)
    (tc_legacy_name c) v (tc_auth_method c) (tc_auth_epoch c) (tc_authz_revision c).
Definition tc_set_auth_method v (c : ftap_terminal_context) : ftap_terminal_context :=
  TerminalContext (tc_user_id c) (tc_session_id c) (tc_login_name c) (tc_display_name c)
    (tc_legacy_name c) (tc_protocol c) v (tc_auth_epoch c) (tc_authz_revision c).
Definition tc_set_auth_epoch v (c : ftap_terminal_context) : ftap_terminal_context :=
  TerminalContext (tc_user_id c) (tc_session_id c) (tc_login_name c) (tc_display_name c)
    (tc_legacy_name c) (tc_protocol c) (tc_auth_method c) v (tc_authz_revision c).
Definition tc_set_authz_revision v (c : ftap_terminal_context) : ftap_terminal_context :=
  TerminalContext (tc_user_id c) (tc_session_id c) (tc_login_name c) (tc_display_name c)
    (tc_legacy_name c) (tc_protocol c) (tc_auth_method c) (tc_auth_epoch c) v.
Definition rg_set_registration_id v (r : ftap_registration_context) : ftap_registration_context :=
  RegistrationContext v (rg_user_id r) (rg_login_name r) (rg_display_name r) (rg_legacy_name r).
Definition rg_set_user_id v (r : ftap_registration_context) : ftap_registration_context :=
  RegistrationContext (rg_registration_id r) v (rg_login_name r) (rg_display_name r) (rg_legacy_name r).
Definition rg_set_login_name v (r : ftap_registration_context) : ftap_registration_context :=
  RegistrationContext (rg_registration_id r) (rg_user_id r) v (rg_display_name r) (rg_legacy_name r).
Definition rg_set_display_name v (r : ftap_registration_context) : ftap_registration_context :=
  RegistrationContext (rg_registration_id r) (rg_user_id r) (rg_login_name r) v (rg_legacy_name r).
Definition rg_set_legacy_name v (r : ftap_registration_context) : ftap_registration_context :=
  RegistrationContext (rg_registration_id r) (rg_user_id r) (rg_login_name r) (rg_display_name r) v.

(** [status = ftap_tlv_get_...(&field, member)], and what it stores. *)
Definition get_uuid {S} (field : ftap_tlv) (member : list Z) (store : list Z → S) (s : S)
    : run (ftap_status * S) :=
  let! (status, uuid) := ftap_tlv_get_uuid (Some field) (Some member) in
  let! uuid := deref uuid in
  Some (status, if status_ok status then store uuid else s).

Definition get_u64 {S} (field : ftap_tlv) (member : Z) (store : Z → S) (s : S)
    : run (ftap_status * S) :=
  let! (status, value) := ftap_tlv_get_u64 (Some field) (Some member) in
  let! value := deref value in
  Some (status, if status_ok status then store value else s).

(** [status = copy_text_field(...) ? FTAP_STATUS_OK : failure] *)
Definition get_text {S} (failure : ftap_status) (field : ftap_tlv) (member : list Z)
    (store : list Z → S) (s : S) : run (ftap_status * S) :=
  let! text := copy_text_field field member in
  Some match text with
       | Some text => (FTAP_STATUS_OK, store text)
       | None => (failure, s)
       end.

Definition field_text_equals (field : ftap_tlv) (expected : list Z) : run bool :=
  if negb (tlv_length field =? zlen expected) then Some false
  else
    let! value := deref (tlv_value field) in
    let! data := buf_read value 0 (zlen expected) in
    Some (bool_decide (data = expected)).

Definition require_equal {S} (field : ftap_tlv) (expected : list Z) (s : S) : run (ftap_status * S) :=
  let! equal := field_text_equals field expected in
  Some (if equal then FTAP_STATUS_OK else FTAP_STATUS_ERR_INVALID_VALUE, s).

(** One field of [parse_terminal_context]. *)
Definition terminal_field (include_transport : bool) (field : ftap_tlv) (c : ftap_terminal_context)
    : run (ftap_status * ftap_terminal_context) :=
  let type := tlv_type field in
  if type =? FTAP_FIELD_USER_ID then get_uuid field (tc_user_id c) (λ v, tc_set_user_id v c) c
  else if type =? FTAP_FIELD_SESSION_ID
  then get_uuid field (tc_session_id c) (λ v, tc_set_session_id v c) c
  else if type =? FTAP_FIELD_LOGIN_NAME
  then get_text FTAP_STATUS_ERR_LENGTH field (tc_login_name c) (λ v, tc_set_login_name v c) c
  else if type =? FTAP_FIELD_DISPLAY_NAME
  then get_text FTAP_STATUS_ERR_LENGTH field (tc_display_name c) (λ v, tc_set_display_name v c) c
  else if type =? FTAP_FIELD_LEGACY_NAME
  then get_text FTAP_STATUS_ERR_LENGTH field (tc_legacy_name c) (λ v, tc_set_legacy_name v c) c
  else if type =? FTAP_FIELD_PROTOCOL then
    if include_transport
    then get_text FTAP_STATUS_ERR_INVALID_MESSAGE field (tc_protocol c) (λ v, tc_set_protocol v c) c
    else Some (FTAP_STATUS_ERR_INVALID_MESSAGE, c)
  else if type =? FTAP_FIELD_AUTH_METHOD then
    if include_transport
    then get_text FTAP_STATUS_ERR_INVALID_MESSAGE field (tc_auth_method c) (λ v, tc_set_auth_method v c) c
    else Some (FTAP_STATUS_ERR_INVALID_MESSAGE, c)
  else if type =? FTAP_FIELD_AUTH_EPOCH
  then get_u64 field (tc_auth_epoch c) (λ v, tc_set_auth_epoch v c) c
  else if type =? FTAP_FIELD_AUTHZ_REVISION
  then get_u64 field (tc_authz_revision c) (λ v, tc_set_authz_revision v c) c
  else if type =? FTAP_FIELD_CAPABILITY then Some (FTAP_STATUS_OK, c)
  else Some (FTAP_STATUS_ERR_INVALID_MESSAGE, c).

(** The loop of the four parsers of a result: what they make of every field, and
    the texts of their errors. What a result argument contains after a failure is
    left out. *)
Definition parse_result {S} (frame : ftap_received_frame) (body : ftap_tlv → S → run (ftap_status * S))
    (zero : S) (init_text field_text value_text : list Z) (error : error_ptr)
    : run (option S * error_ptr) :=
  let (status, reader) := ftap_tlv_reader_init (Some (TlvReader None 0 0)) (Some (rf_payload frame))
                            (rf_payload_length frame) in
  if negb (status_ok status) then Some (None, set_local_error error status Errno.EPROTO init_text)
  else
    let! reader := deref reader in
    let! c := field_loop
      (λ status _, set_local_error error status Errno.EPROTO field_text)
      (λ field s,
        let! (status, s) := body field s in
        Some (if negb (status_ok status)
              then Return (set_local_error error status Errno.EPROTO value_text) else Continue s))
      reader zero in
    Some match c with
         | Continue s | Break s => (Some s, error)
         | Return error => (None, error)
         end.

Definition parse_terminal_context (frame : ftap_received_frame) (include_transport : bool)
    (error : error_ptr) : run (option ftap_terminal_context * error_ptr) :=
  parse_result frame (terminal_field include_transport) zero_terminal_context
    (lit "invalid FTAP session context") (lit "invalid FTAP session context field")
    (lit "invalid FTAP session context value") error.

(** A case of a [switch] that also records whether the field was seen. *)
Definition seeing {S} (index : nat) (seen : list bool) (value : run (ftap_status * S))
    : run (ftap_status * (S * list bool)) :=
  let! (status, s) := value in Some (status, (s, <[index := status_ok status]> seen)).

(** The loop over [seen] that follows the loop over the fields. *)
Definition require_seen {S} (incomplete : list Z) (result : run (option (S * list bool) * error_ptr))
    : run (option S * error_ptr) :=
  let! (parsed, error) := result in
  Some match parsed with
       | None => (None, error)
       | Some (s, seen) =>
           if forallb id seen then (Some s, error)
           else (None, set_local_error error FTAP_STATUS_ERR_MISSING_FIELD Errno.EPROTO incomplete)
       end.

Definition registration_begin_field (field : ftap_tlv) (s : ftap_registration_context * list bool)
    : run (ftap_status * (ftap_registration_context * list bool)) :=
  let (r, seen) := s in
  let type := tlv_type field in
  if type =? FTAP_FIELD_REGISTRATION_ID
  then seeing 0 seen (get_uuid field (rg_registration_id r) (λ v, rg_set_registration_id v r) r)
  else if type =? FTAP_FIELD_REGISTRATION_STATE
  then seeing 1 seen (require_equal field FTAP_REGISTRATION_STATE_PENDING_LEGACY r)
  else if type =? FTAP_FIELD_USER_ID
  then seeing 2 seen (get_uuid field (rg_user_id r) (λ v, rg_set_user_id v r) r)
  else if type =? FTAP_FIELD_LOGIN_NAME
  then seeing 3 seen (get_text FTAP_STATUS_ERR_LENGTH field (rg_login_name r) (λ v, rg_set_login_name v r) r)
  else if type =? FTAP_FIELD_DISPLAY_NAME
  then seeing 4 seen (get_text FTAP_STATUS_ERR_LENGTH field (rg_display_name r) (λ v, rg_set_display_name v r) r)
  else if type =? FTAP_FIELD_LEGACY_NAME
  then seeing 5 seen (get_text FTAP_STATUS_ERR_LENGTH field (rg_legacy_name r) (λ v, rg_set_legacy_name v r) r)
  else if type =? FTAP_FIELD_ACCOUNT_STATE
  then seeing 6 seen (require_equal field FTAP_ACCOUNT_STATE_PENDING r)
  else Some (FTAP_STATUS_ERR_INVALID_MESSAGE, s).

Definition parse_registration_begin_context (frame : ftap_received_frame) (error : error_ptr)
    : run (option ftap_registration_context * error_ptr) :=
  require_seen (lit "incomplete FTAP registration begin result")
    (parse_result frame registration_begin_field (zero_registration_context, replicate 7 false)
       (lit "invalid FTAP registration begin result") (lit "invalid FTAP registration begin field")
       (lit "invalid FTAP registration begin value") error).

(** [copy_text_field(...) && strcmp(member, expected) == 0] *)
Definition get_constant {S} (field : ftap_tlv) (expected member : list Z) (store : list Z → S) (s : S)
    : run (ftap_status * S) :=
  let! text := copy_text_field field member in
  Some match text with
       | Some text => (if bool_decide (cstr text = expected) then FTAP_STATUS_OK
                       else FTAP_STATUS_ERR_INVALID_VALUE, store text)
       | None => (FTAP_STATUS_ERR_INVALID_VALUE, s)
       end.

(** The locals of [parse_registration_commit_context]: the identifier and the
    context. *)
Definition registration_commit_field (field : ftap_tlv)
    (s : (list Z * ftap_terminal_context) * list bool)
    : run (ftap_status * ((list Z * ftap_terminal_context) * list bool)) :=
  let '(id, c, seen) := s in
  let type := tlv_type field in
  if type =? FTAP_FIELD_REGISTRATION_ID then seeing 0 seen (get_uuid field id (λ v, (v, c)) (id, c))
  else if type =? FTAP_FIELD_REGISTRATION_STATE
  then seeing 1 seen (require_equal field FTAP_REGISTRATION_STATE_COMPLETED (id, c))
  else if type =? FTAP_FIELD_USER_ID
  then seeing 2 seen (get_uuid field (tc_user_id c) (λ v, (id, tc_set_user_id v c)) (id, c))
  else if type =? FTAP_FIELD_SESSION_ID
  then seeing 3 seen (get_uuid field (tc_session_id c) (λ v, (id, tc_set_session_id v c)) (id, c))
  else if type =? FTAP_FIELD_LOGIN_NAME
  then seeing 4 seen (get_text FTAP_STATUS_ERR_LENGTH field (tc_login_name c)
                        (λ v, (id, tc_set_login_name v c)) (id, c))
  else if type =? FTAP_FIELD_DISPLAY_NAME
  then seeing 5 seen (get_text FTAP_STATUS_ERR_LENGTH field (tc_display_name c)
                        (λ v, (id, tc_set_display_name v c)) (id, c))
  else if type =? FTAP_FIELD_LEGACY_NAME
  then seeing 6 seen (get_text FTAP_STATUS_ERR_LENGTH field (tc_legacy_name c)
                        (λ v, (id, tc_set_legacy_name v c)) (id, c))
  else if type =? FTAP_FIELD_ACCOUNT_STATE
  then seeing 7 seen (require_equal field FTAP_ACCOUNT_STATE_ACTIVE (id, c))
  else if type =? FTAP_FIELD_PROTOCOL
  then seeing 8 seen (get_constant field FTAP_PROTOCOL_TELNET (tc_protocol c)
                        (λ v, (id, tc_set_protocol v c)) (id, c))
  else if type =? FTAP_FIELD_AUTH_METHOD
  then seeing 9 seen (get_constant field FTAP_AUTH_METHOD_PASSWORD (tc_auth_method c)
                        (λ v, (id, tc_set_auth_method v c)) (id, c))
  else if type =? FTAP_FIELD_AUTH_EPOCH
  then seeing 10 seen (get_u64 field (tc_auth_epoch c) (λ v, (id, tc_set_auth_epoch v c)) (id, c))
  else if type =? FTAP_FIELD_AUTHZ_REVISION
  then seeing 11 seen (get_u64 field (tc_authz_revision c) (λ v, (id, tc_set_authz_revision v c)) (id, c))
  else if type =? FTAP_FIELD_CAPABILITY then Some (FTAP_STATUS_OK, s)
  else Some (FTAP_STATUS_ERR_INVALID_MESSAGE, s).

Definition same_identity (registration : ftap_registration_context) (id : list Z)
    (c : ftap_terminal_context) : bool :=
  bool_decide (id = rg_registration_id registration)
  && bool_decide (tc_user_id c = rg_user_id registration)
  && bool_decide (cstr (tc_login_name c) = cstr (rg_login_name registration))
  && bool_decide (cstr (tc_display_name c) = cstr (rg_display_name registration))
  && bool_decide (cstr (tc_legacy_name c) = cstr (rg_legacy_name registration)).

Definition parse_registration_commit_context (frame : ftap_received_frame)
    (registration : ftap_registration_context) (error : error_ptr)
    : run (option ftap_terminal_context * error_ptr) :=
  let! (parsed, error) :=
    require_seen (lit "incomplete FTAP registration commit result")
      (parse_result frame registration_commit_field
         (zeros FTAP_UUID_SIZE, zero_terminal_context, replicate 12 false)
         (lit "invalid FTAP registration commit result") (lit "invalid FTAP registration commit field")
         (lit "invalid FTAP registration commit value") error) in
  Some match parsed with
       | None => (None, error)
       | Some (id, c) =>
           if same_identity registration id c then (Some c, error)
           else (None, set_local_error error FTAP_STATUS_ERR_INVALID_VALUE Errno.EPROTO
                         (lit "FTAP registration commit identity mismatch"))
       end.

Definition registration_abort_field (field : ftap_tlv) (s : (list Z * list Z) * list bool)
    : run (ftap_status * ((list Z * list Z) * list bool)) :=
  let '(id, user_id, seen) := s in
  let type := tlv_type field in
  if type =? FTAP_FIELD_REGISTRATION_ID
  then seeing 0 seen (get_uuid field id (λ v, (v, user_id)) (id, user_id))
  else if type =? FTAP_FIELD_REGISTRATION_STATE
  then seeing 1 seen (require_equal field FTAP_REGISTRATION_STATE_ABORTED (id, user_id))
  else if type =? FTAP_FIELD_USER_ID
  then seeing 2 seen (get_uuid field user_id (λ v, (id, v)) (id, user_id))
  else Some (FTAP_STATUS_ERR_INVALID_MESSAGE, s).

(** Whether the registration was aborted. *)
Definition parse_registration_abort_result (frame : ftap_received_frame)
    (registration : ftap_registration_context) (error : error_ptr) : run (bool * error_ptr) :=
  let! (parsed, error) :=
    require_seen (lit "incomplete FTAP registration abort result")
      (parse_result frame registration_abort_field
         (zeros FTAP_UUID_SIZE, zeros FTAP_UUID_SIZE, replicate 3 false)
         (lit "invalid FTAP registration abort result") (lit "invalid FTAP registration abort field")
         (lit "invalid FTAP registration abort value") error) in
  Some match parsed with
       | None => (false, error)
       | Some (id, user_id) =>
           if bool_decide (id = rg_registration_id registration)
              && bool_decide (user_id = rg_user_id registration)
           then (true, error)
           else (false, set_local_error error FTAP_STATUS_ERR_INVALID_VALUE Errno.EPROTO
                          (lit "FTAP registration abort identity mismatch"))
       end.

(** ** Requests *)

(** A writer on the local [payload] of this size. *)
Definition payload_writer (size : Z) : run (ftap_status * option ftap_tlv_writer) :=
  Some (ftap_tlv_writer_init (Some (TlvWriter None 0 0)) (Some (zeros size)) size).

Definition put_u16 (field value : Z) (writer : option ftap_tlv_writer) :=
  ftap_tlv_writer_put_u16 writer field 0 value.

(** [if (status == FTAP_STATUS_OK && text != NULL)] *)
Definition put_optional (field maximum : Z) (text : ptr) (writer : option ftap_tlv_writer) :=
  match text with
  | Some text => put_text field maximum text writer
  | None => Some (FTAP_STATUS_OK, writer)
  end.

(** A text that need not be terminated. *)
Definition put_bytes (field maximum : Z) (text : list Z) (length : Z) (writer : option ftap_tlv_writer) :=
  ftap_tlv_writer_put_text writer field 0 (Some text) length maximum.

(** The requests after the writer is on its buffer. *)
Definition hello_payload (client_name client_version : list Z) : run (ftap_status * option ftap_tlv_writer) :=
  payload_writer 256
  >>? put_text FTAP_FIELD_CLIENT_NAME FTAP_CLIENT_NAME_MAX client_name
  >>? put_text FTAP_FIELD_CLIENT_VERSION FTAP_CLIENT_VERSION_MAX client_version
  >>? put_u16 FTAP_FIELD_SUPPORTED_MAJOR FTAP_VERSION_MAJOR
  >>? put_u16 FTAP_FIELD_SUPPORTED_MINOR FTAP_VERSION_MINOR.

Definition password_payload (login_name password : list Z) (password_length : Z) (protocol : list Z)
    (metadata : ftap_metadata) : run (ftap_status * option ftap_tlv_writer) :=
  payload_writer FTAP_MAX_PAYLOAD_SIZE
  >>? put_text FTAP_FIELD_LOGIN_NAME FTAP_LOGIN_NAME_MAX login_name
  >>? put_bytes FTAP_FIELD_PASSWORD FTAP_PASSWORD_MAX password password_length
  >>? put_text FTAP_FIELD_PROTOCOL FTAP_PROTOCOL_NAME_MAX protocol
  >>? put_optional FTAP_FIELD_SOURCE_IP FTAP_IP_ADDRESS_MAX (md_source_ip metadata)
  >>? put_optional FTAP_FIELD_TTY_DEVICE FTAP_TTY_DEVICE_MAX (md_tty_device metadata)
  >>? put_optional FTAP_FIELD_NODE_ID FTAP_NODE_ID_MAX (md_node_id metadata)
  >>? put_text FTAP_FIELD_AUTH_METHOD FTAP_AUTH_METHOD_MAX FTAP_AUTH_METHOD_PASSWORD.

Definition begin_payload (login_name display_name password : list Z) (password_length : Z)
    (protocol source_ip : list Z) (metadata : ftap_metadata) : run (ftap_status * option ftap_tlv_writer) :=
  payload_writer FTAP_MAX_PAYLOAD_SIZE
  >>? put_text FTAP_FIELD_LOGIN_NAME FTAP_LOGIN_NAME_MAX login_name
  >>? put_text FTAP_FIELD_DISPLAY_NAME FTAP_DISPLAY_NAME_MAX display_name
  >>? put_bytes FTAP_FIELD_PASSWORD FTAP_PASSWORD_MAX password password_length
  >>? put_text FTAP_FIELD_PROTOCOL FTAP_PROTOCOL_NAME_MAX protocol
  >>? put_text FTAP_FIELD_SOURCE_IP FTAP_IP_ADDRESS_MAX source_ip
  >>? put_optional FTAP_FIELD_TTY_DEVICE FTAP_TTY_DEVICE_MAX (md_tty_device metadata)
  >>? put_optional FTAP_FIELD_NODE_ID FTAP_NODE_ID_MAX (md_node_id metadata)
  >>? put_text FTAP_FIELD_AUTH_METHOD FTAP_AUTH_METHOD_MAX FTAP_AUTH_METHOD_PASSWORD.

Definition commit_payload (registration : ftap_registration_context) : run (ftap_status * option ftap_tlv_writer) :=
  payload_writer (FTAP_TLV_HEADER_SIZE + FTAP_UUID_SIZE)
  >>? put_uuid FTAP_FIELD_REGISTRATION_ID (rg_registration_id registration).

Definition abort_payload (registration : ftap_registration_context) (reason : ptr)
    : run (ftap_status * option ftap_tlv_writer) :=
  payload_writer (FTAP_TLV_HEADER_SIZE + FTAP_UUID_SIZE + FTAP_TLV_HEADER_SIZE + FTAP_REGISTRATION_REASON_MAX)
  >>? put_uuid FTAP_FIELD_REGISTRATION_ID (rg_registration_id registration)
  >>? put_optional FTAP_FIELD_REGISTRATION_REASON FTAP_REGISTRATION_REASON_MAX reason.

Definition close_payload (ended_reason : ptr) : run (ftap_status * option ftap_tlv_writer) :=
  payload_writer (FTAP_TLV_HEADER_SIZE + FTAP_ENDED_REASON_MAX)
  >>? put_optional FTAP_FIELD_ENDED_REASON FTAP_ENDED_REASON_MAX ended_reason.

(** Build and send a request: [inr] is the identifier of a request that was sent;
    [inl] the error of one that could not be built ([false]) or sent ([true]). *)
Definition send_request (message_type : Z) (payload : run (ftap_status * option ftap_tlv_writer))
    (build_text : list Z) (error : error_ptr) : client ((bool * error_ptr) + (Z * error_ptr)) :=
  let* (status, writer) := lift payload in
  if negb (status_ok status)
  then ret (inl (false, set_local_error error status Errno.EINVAL build_text))
  else
    let* w := lift (deref writer) in
    let* request_id := next_request_id in
    let* (sent, error) := send_frame message_type request_id (w_buffer w) (w_length w) error in
    ret (if negb (sent =? 0) then inl (true, error) else inr (request_id, error)).

(** [client->state = FTAP_STATE_CLOSING; return -1;] *)
Definition abandon {A} (result : A) : client A := do* enter_state FTAP_STATE_CLOSING in ret result.

Definition state_is (c : ftap_client) (state : ftap_connection_state) : bool := bool_decide (cl_state c = state).

Definition ftap_client_hello (client_name client_version : ptr) (error : error_ptr)
    : client (Z * error_ptr) :=
  let* c := get in
  match client_name, client_version with
  | Some client_name, Some client_version =>
      if negb (state_is c FTAP_STATE_CONNECTED)
      then ret (-1, set_local_error error FTAP_STATUS_ERR_INVALID_STATE Errno.EINVAL
                      (lit "FTAP HELLO is not allowed now"))
      else
        let* sent := send_request FTAP_MSG_HELLO (hello_payload client_name client_version)
                       (lit "cannot build FTAP HELLO") error in
        match sent with
        | inl (false, error) => ret (-1, error)
        | inl (true, error) => abandon (-1, error)
        | inr (request_id, error) =>
            let* (received, _, error) := wait_for_response FTAP_MSG_HELLO_OK request_id error in
            if negb (received =? 0) then abandon (-1, error)
            else do* enter_state FTAP_STATE_HELLO_COMPLETE in ret (0, ftap_client_error_clear error)
        end
  | _, _ => ret (-1, set_local_error error FTAP_STATUS_ERR_INVALID_STATE Errno.EINVAL
                       (lit "FTAP HELLO is not allowed now"))
  end.

(** The result is [Some] exactly when the code returns 0. *)
Definition ftap_client_authenticate_password (login_name password : ptr) (password_length : Z)
    (metadata : option ftap_metadata) (error : error_ptr)
    : client (option ftap_terminal_context * error_ptr) :=
  let* c := get in
  let invalid := (None, set_local_error error FTAP_STATUS_ERR_ARGUMENT Errno.EINVAL
                          (lit "invalid password-login argument")) in
  match login_name, password, metadata with
  | Some login_name, Some password, Some metadata =>
      match md_protocol metadata with
      | None => ret invalid
      | Some protocol =>
          if negb (state_is c FTAP_STATE_HELLO_COMPLETE) || (password_length =? 0) then ret invalid
          else
            let* sent := send_request FTAP_MSG_AUTH_PASSWORD_REQUEST
              (password_payload login_name password password_length protocol metadata)
              (lit "cannot build FTAP password request") error in
            match sent with
            | inl (false, error) => ret (None, error)
            | inl (true, error) => abandon (None, error)
            | inr (request_id, error) =>
                do* enter_state FTAP_STATE_AUTHENTICATING in
                let* (received, response, error) :=
                  wait_for_response FTAP_MSG_AUTH_PASSWORD_RESULT request_id error in
                if negb (received =? 0) then abandon (None, error)
                else
                  let* (context, error) := lift (parse_terminal_context response false error) in
                  match context with
                  | None => abandon (None, error)
                  | Some context =>
                      do* enter_state FTAP_STATE_SESSION_BOUND in
                      ret (Some context, ftap_client_error_clear error)
                  end
            end
      end
  | _, _, _ => ret invalid
  end.

Definition ftap_client_registration_begin (login_name display_name password : ptr) (password_length : Z)
    (metadata : option ftap_metadata) (error : error_ptr)
    : client (option ftap_registration_context * error_ptr) :=
  let* c := get in
  let invalid := (None, set_local_error error FTAP_STATUS_ERR_ARGUMENT Errno.EINVAL
                          (lit "invalid FTAP registration begin argument")) in
  match login_name, display_name, password, metadata with
  | Some login_name, Some display_name, Some password, Some metadata =>
      match md_protocol metadata, md_source_ip metadata with
      | Some protocol, Some source_ip =>
          if negb (state_is c FTAP_STATE_HELLO_COMPLETE) || (password_length =? 0)
             || negb (bool_decide (cstr protocol = FTAP_PROTOCOL_TELNET))
          then ret invalid
          else
            let* sent := send_request FTAP_MSG_REGISTRATION_BEGIN_REQUEST
              (begin_payload login_name display_name password password_length protocol source_ip metadata)
              (lit "cannot build FTAP registration begin request") error in
            match sent with
            | inl (false, error) => ret (None, error)
            | inl (true, error) => abandon (None, error)
            | inr (request_id, error) =>
                do* enter_state FTAP_STATE_REGISTERING in
                let* (received, response, error) :=
                  wait_for_response FTAP_MSG_REGISTRATION_BEGIN_RESULT request_id error in
                if negb (received =? 0) then abandon (None, error)
                else
                  let* (registration, error) := lift (parse_registration_begin_context response error) in
                  match registration with
                  | None => abandon (None, error)
                  | Some registration => ret (Some registration, ftap_client_error_clear error)
                  end
            end
      | _, _ => ret invalid
      end
  | _, _, _, _ => ret invalid
  end.

(** [if (error == NULL || !error->server_error) mark_outcome_unknown(error);] is
    [mark_outcome_unknown(error)]. *)
Definition mark_outcome_unknown (error : error_ptr) : error_ptr :=
  (λ e, if negb (ce_server_error e) then ce_set_outcome_unknown e else e) <$> error.

Definition ftap_client_registration_commit (registration : option ftap_registration_context)
    (error : error_ptr) : client (option ftap_terminal_context * error_ptr) :=
  let* c := get in
  let invalid := (None, set_local_error error FTAP_STATUS_ERR_INVALID_STATE Errno.EINVAL
                          (lit "no pending FTAP registration to commit")) in
  match registration with
  | None => ret invalid
  | Some registration =>
      if negb (state_is c FTAP_STATE_REGISTERING) then ret invalid
      else
        let* sent := send_request FTAP_MSG_REGISTRATION_COMMIT_REQUEST (commit_payload registration)
                       (lit "cannot build FTAP registration commit request") error in
        match sent with
        | inl (false, error) => ret (None, error)
        | inl (true, error) => abandon (None, error)
        | inr (request_id, error) =>
            let* (received, response, error) :=
              wait_for_response FTAP_MSG_REGISTRATION_COMMIT_RESULT request_id error in
            if negb (received =? 0) then abandon (None, mark_outcome_unknown error)
            else
              let* (context, error) :=
                lift (parse_registration_commit_context response registration error) in
              match context with
              | None => abandon (None, mark_outcome_unknown error)
              | Some context =>
                  do* enter_state FTAP_STATE_SESSION_BOUND in
                  ret (Some context, ftap_client_error_clear error)
              end
        end
  end.

Definition registration_abort_reason_is_allowed (reason : ptr) : bool :=
  match reason with
  | None => true
  | Some reason =>
      bool_decide (cstr reason = FTAP_REGISTRATION_REASON_CLIENT_CANCELLED)
      || bool_decide (cstr reason = FTAP_REGISTRATION_REASON_LEGACY_WRITE_FAILED)
  end.

Definition ftap_client_registration_abort (registration : option ftap_registration_context)
    (reason : ptr) (error : error_ptr) : client (Z * error_ptr) :=
  let* c := get in
  let invalid := (-1, set_local_error error FTAP_STATUS_ERR_INVALID_STATE Errno.EINVAL
                        (lit "no pending FTAP registration to abort")) in
  match registration with
  | None => ret invalid
  | Some registration =>
      if negb (state_is c FTAP_STATE_REGISTERING) || negb (registration_abort_reason_is_allowed reason)
      then ret invalid
      else
        let* sent := send_request FTAP_MSG_REGISTRATION_ABORT_REQUEST (abort_payload registration reason)
                       (lit "cannot build FTAP registration abort request") error in
        match sent with
        | inl (false, error) => ret (-1, error)
        | inl (true, error) => abandon (-1, error)
        | inr (request_id, error) =>
            let* (received, response, error) :=
              wait_for_response FTAP_MSG_REGISTRATION_ABORT_RESULT request_id error in
            if negb (received =? 0) then abandon (-1, mark_outcome_unknown error)
            else
              let* (aborted, error) :=
                lift (parse_registration_abort_result response registration error) in
              if negb aborted then abandon (-1, mark_outcome_unknown error)
              else
                do* enter_state FTAP_STATE_HELLO_COMPLETE in
                ret (0, ftap_client_error_clear error)
        end
  end.

Definition ftap_client_session_context (error : error_ptr)
    : client (option ftap_terminal_context * error_ptr) :=
  let* c := get in
  if negb (state_is c FTAP_STATE_SESSION_BOUND)
  then ret (None, set_local_error error FTAP_STATUS_ERR_INVALID_STATE Errno.EINVAL
                    (lit "FTAP session context is not available"))
  else
    let* request_id := next_request_id in
    let* (sent, error) := send_frame FTAP_MSG_SESSION_CONTEXT_REQUEST request_id None 0 error in
    if negb (sent =? 0) then abandon (None, error)
    else
      let* (received, response, error) :=
        wait_for_response FTAP_MSG_SESSION_CONTEXT_RESULT request_id error in
      if negb (received =? 0) then abandon (None, error)
      else
        let* (context, error) := lift (parse_terminal_context response true error) in
        match context with
        | None => abandon (None, error)
        | Some context => ret (Some context, ftap_client_error_clear error)
        end.

Definition ftap_client_session_close (ended_reason : ptr) (error : error_ptr)
    : client (Z * error_ptr) :=
  let* c := get in
  if negb (state_is c FTAP_STATE_SESSION_BOUND)
  then ret (-1, set_local_error error FTAP_STATUS_ERR_INVALID_STATE Errno.EINVAL
                  (lit "no bound FTAP session to close"))
  else
    let* sent := send_request FTAP_MSG_SESSION_CLOSE (close_payload ended_reason)
                   (lit "cannot build FTAP session close") error in
    match sent with
    | inl (false, error) => ret (-1, error)
    | inl (true, error) => abandon (-1, error)
    | inr (_, error) => abandon (0, ftap_client_error_clear error)
    end.

(** ** Descriptors *)

Definition connect_failed (fd errno : Z) (error : error_ptr) : client (Z * error_ptr) :=
  do* close_socket fd in
  ret (-1, set_local_error error FTAP_STATUS_ERR_TRUNCATED errno (lit "cannot connect to fortytwo-authd")).

(** Waiting for a connection in progress: the [errno] of its failure. *)
Definition finish_connect (fd timeout_ms errno : Z) : client (option Z) :=
  if negb (errno =? Errno.EINPROGRESS) then ret (Some errno)
  else
    let* deadline := deadline_after timeout_ms in
    match deadline with
    | inr errno => ret (Some errno)
    | inl deadline_ms =>
        let* waited := wait_for_socket fd POLLOUT deadline_ms in
        match waited with
        | Some errno => ret (Some errno)
        | None =>
            let* result := call_descriptor (SocketError fd) in
            ret match result with
                | inr errno => Some errno
                | inl connect_error => if connect_error =? 0 then None else Some connect_error
                end
        end
    end.

Definition ftap_client_connect (socket_path : ptr) (error : error_ptr) : client (Z * error_ptr) :=
  let* c := get in
  let invalid := (-1, set_local_error error FTAP_STATUS_ERR_ARGUMENT Errno.EINVAL
                        (lit "invalid FTAP socket path")) in
  match socket_path with
  | None => ret invalid
  | Some path =>
      let* first := lift (buf_get path 0) in
      if (0 <=? cl_fd c) || negb (first =? chr "/") || (SUN_PATH_SIZE <=? strlen path) then ret invalid
      else
        let* created := call_descriptor CreateSocket in
        match created with
        | inr errno =>
            ret (-1, set_local_error error FTAP_STATUS_ERR_TRUNCATED errno (lit "cannot create FTAP socket"))
        | inl fd =>
            let* connected := call_descriptor (Connect fd (cstr path)) in
            let* failed := match connected with
                           | inl _ => ret None
                           | inr errno => finish_connect fd (cl_timeout_ms c) errno
                           end in
            match failed with
            | Some errno => connect_failed fd errno error
            | None =>
                do* modify (λ c, FtapClient fd FTAP_STATE_CONNECTED FTAP_FIRST_CLIENT_REQUEST_ID
                                   (cl_timeout_ms c)) in
                ret (0, ftap_client_error_clear error)
            end
        end
  end.

Definition ftap_client_adopt_bound_fd (fd timeout_ms : Z) (error : error_ptr) : client (Z * error_ptr) :=
  let* c := get in
  let fail status errno text := ret (-1, set_local_error error status errno text) in
  if (0 <=? cl_fd c) || (fd <? 0)
  then fail FTAP_STATUS_ERR_ARGUMENT Errno.EINVAL (lit "invalid inherited FTAP descriptor")
  else
    let* socket_type := call_descriptor (SocketType fd) in
    match socket_type with
    | inr errno => fail FTAP_STATUS_ERR_ARGUMENT errno (lit "inherited FTAP descriptor is not a socket")
    | inl socket_type =>
        if negb (socket_type =? SOCK_STREAM)
        then fail FTAP_STATUS_ERR_ARGUMENT Errno.ENOTSOCK
               (lit "inherited FTAP descriptor is not a stream socket")
        else
          let cannot errno := fail FTAP_STATUS_ERR_TRUNCATED errno
                                (lit "cannot make inherited FTAP descriptor nonblocking") in
          let* flags := call_descriptor (GetFileFlags fd) in
          match flags with
          | inr errno => cannot errno
          | inl flags =>
              let* changed := call_descriptor (SetFileFlags fd (Z.lor flags O_NONBLOCK)) in
              match changed with
              | inr errno => cannot errno
              | inl _ =>
                  do* modify (λ _, set_cl_state FTAP_STATE_SESSION_BOUND
                                     (set_cl_fd fd (ftap_client_init timeout_ms))) in
                  ret (0, ftap_client_error_clear error)
              end
          end
    end.

(** The last lines of [ftap_client_move_to_inherited_fd]. *)
Definition keep_across_exec (fd : Z) (error : error_ptr) : client (Z * error_ptr) :=
  let fail errno := ret (-1, set_local_error error FTAP_STATUS_ERR_TRUNCATED errno
                               (lit "cannot preserve FTAP session across exec")) in
  let* flags := call_descriptor (GetDescriptorFlags fd) in
  match flags with
  | inr errno => fail errno
  | inl flags =>
      let* changed := call_descriptor (SetDescriptorFlags fd (Z.ldiff flags FD_CLOEXEC)) in
      match changed with
      | inr errno => fail errno
      | inl _ => ret (0, ftap_client_error_clear error)
      end
  end.

Definition ftap_client_move_to_inherited_fd (error : error_ptr) : client (Z * error_ptr) :=
  let* c := get in
  if (cl_fd c <? 0) || negb (state_is c FTAP_STATE_SESSION_BOUND)
  then ret (-1, set_local_error error FTAP_STATUS_ERR_INVALID_STATE Errno.EINVAL
                  (lit "no bound FTAP session for descriptor handoff"))
  else if cl_fd c =? FTAP_INHERITED_SESSION_FD then keep_across_exec (cl_fd c) error
  else
    let* duplicated := call_descriptor (Duplicate (cl_fd c) FTAP_INHERITED_SESSION_FD) in
    match duplicated with
    | inr errno =>
        ret (-1, set_local_error error FTAP_STATUS_ERR_TRUNCATED errno
                   (lit "cannot move FTAP session to descriptor 3"))
    | inl _ =>
        do* close_socket (cl_fd c) in
        do* modify (set_cl_fd FTAP_INHERITED_SESSION_FD) in
        keep_across_exec FTAP_INHERITED_SESSION_FD error
    end.

Definition ftap_client_close : client unit :=
  let* c := get in
  do* (if 0 <=? cl_fd c then close_socket (cl_fd c) else ret tt) in
  modify (λ c, ftap_client_init (cl_timeout_ms c)).
End client.

(** ** Input and output *)

(** What is documented of [recv] and [send]. *)
Class ClientLaws `{ClientEnvironment} : Prop := {
  law_receive h fd capacity bytes :
    cl_receive h fd capacity = inl bytes → 0 <= capacity → zlen bytes <= capacity ∧ bytes_ok bytes;
  law_sent h fd data n : cl_send h fd data = inl n → 0 <= n <= zlen data;
}.

(** The bytes that arrived, and those that were accepted for delivery. *)
Fixpoint received (h : client_history) : list Z :=
  match h with
  | [] => []
  | ReceiveBytes _ _ (inl bytes) :: h => received h ++ bytes
  | _ :: h => received h
  end.

Fixpoint sent (h : client_history) : list Z :=
  match h with
  | [] => []
  | SendBytes _ data (inl n) :: h => sent h ++ take (Z.to_nat n) data
  | _ :: h => sent h
  end.

(** Steps without traffic. *)
Definition calm (h h' : client_history) : Prop := received h' = received h ∧ sent h' = sent h.

(** An error that is not an answer of the server. *)
Definition local_error (error error' : error_ptr) : Prop :=
  match error, error' with
  | None, None => True
  | Some _, Some e => ce_server_error e = false ∧ ce_outcome_unknown e = false
  | _, _ => False
  end.

Lemma set_local_error_local error status errno text :
  local_error error (set_local_error error status errno text).
Proof. by destruct error. Qed.

Lemma local_error_trans error error1 error2 :
  is_Some error ↔ is_Some error1 → local_error error1 error2 → local_error error error2.
Proof.
  unfold local_error. destruct error, error1, error2; try done; intros [H1 H2] H3.
  - destruct (H1 ltac:(by eexists)) as [x Hx]. done.
  - destruct (H2 ltac:(by eexists)) as [x Hx]. done.
Qed.

Section io.
Context `{Inet} `{ClientLaws}.
Context (fuel : nat).

(** Nothing is claimed of a run whose fuel has run out. *)
Definition unfinished (h : client_history) : Prop := True.

Notation holds := (wp unfinished).

Lemma calm_refl h : calm h h.
Proof. done. Qed.

Lemma calm_trans h h1 h2 : calm h h1 → calm h1 h2 → calm h h2.
Proof. unfold calm. intuition congruence. Qed.

Lemma clock_calm s h :
  holds monotonic_milliseconds (λ _ s' h', s' = s ∧ calm h h') s h.
Proof. done. Qed.

Lemma wait_for_socket_calm fd events deadline s h :
  holds (wait_for_socket fuel fd events deadline) (λ _ s' h', s' = s ∧ calm h h') s h.
Proof.
  apply (wp_repeat _ (λ s' h', s' = s ∧ calm h h')); [done|done|].
  intros s' h' [-> Hc]. unfold wait_step, remaining_timeout.
  wp_step. wp_step. eapply wp_mono; [apply clock_calm|]. intros now s1 h1 [-> Hc1]. wp_step.
  assert (calm h h1) by (by eapply calm_trans). clear Hc Hc1.
  destruct now as [now|errno]; [|by wp_step].
  destruct (_ =? 0); [by wp_step|]. wp_step. apply wp_service. intros r _. wp_step.
  destruct r as [[revents|]|errno]; [|done|by destruct (errno =? _)].
  destruct (has_event revents POLLNVAL); [done|]. by destruct (_ || _).
Qed.

Lemma deadline_after_calm timeout s h :
  holds (deadline_after timeout) (λ _ s' h', s' = s ∧ calm h h') s h.
Proof. done. Qed.

(** [send_all] sends a prefix of the buffer, and all of it if it succeeds. *)
Lemma send_all_spec fd buffer length deadline s h :
  0 <= length <= zlen buffer →
  holds (send_all fuel fd buffer length deadline)
    (λ r s' h', s' = s ∧ received h' = received h ∧
       ∃ n, 0 <= n <= length ∧ sent h' = sent h ++ take (Z.to_nat n) buffer ∧
         (r = None ↔ n = length)) s h.
Proof.
  intros Hlen. apply (wp_iterate _ (λ offset s' h', s' = s ∧ received h' = received h ∧
    0 <= offset <= length ∧ sent h' = sent h ++ take (Z.to_nat offset) buffer)).
  { split_and!; try done; try lia. by rewrite app_nil_r. }
  { done. }
  intros offset s' h' (-> & Hr & Ho & Hs). unfold send_step.
  destruct (Z.leb_spec length offset).
  { wp_step. split_and!; try done. exists offset. split_and!; try done; try lia. split; [lia|done]. }
  wp_step. eapply wp_mono; [apply wait_for_socket_calm|]. intros waited s1 h1 [-> [Hr1 Hs1]].
  destruct waited as [errno|].
  { wp_step. split_and!; [done|congruence|]. exists offset. split_and!; try lia; [congruence|].
    split; [done|lia]. }
  wp_step. eapply wp_lift.
  { rewrite buf_read_in by lia. reflexivity. }
  wp_step. apply wp_service. intros answer Hanswer. wp_step.
  set (data := take _ (drop _ _)) in *.
  assert (zlen data = length - offset) as Hdata.
  { unfold data, zlen in *. rewrite length_take, length_drop. lia. }
  destruct answer as [n|errno].
  - symmetry in Hanswer. apply law_sent in Hanswer. destruct (Z.ltb_spec 0 n).
    + cbn [received sent]. split_and!; try done; try lia; [congruence|].
      rewrite Hs1, Hs, <- app_assoc. f_equal. unfold data. rewrite take_take, Nat.min_l by lia.
      rewrite take_take_drop. f_equal. lia.
    + assert (n = 0) as -> by lia. cbn [received sent]. rewrite app_nil_r.
      split_and!; [done|congruence|]. exists offset. split_and!; try lia; [congruence|]. split; [done|lia].
  - destruct (interrupted errno); cbn [received sent].
    + split_and!; try done; try lia; congruence.
    + split_and!; [done|congruence|]. exists offset. split_and!; try lia; [congruence|]. split; [done|lia].
Qed.

(** [receive_exact] stores what arrives at the beginning of the buffer. *)
Lemma receive_exact_spec fd buffer length deadline s h :
  0 <= length <= zlen buffer →
  holds (receive_exact fuel fd buffer length deadline)
    (λ '(r, buffer') s' h', s' = s ∧ sent h' = sent h ∧ zlen buffer' = zlen buffer ∧
       ∃ data, received h' = received h ++ data ∧ bytes_ok data ∧
         match r with
         | None => zlen data = length ∧ buffer' = data ++ drop (Z.to_nat length) buffer
         | Some _ => zlen data < length
         end) s h.
Proof.
  intros Hlen. apply (wp_iterate _ (λ '(offset, b) s' h', s' = s ∧ sent h' = sent h ∧
    ∃ data, received h' = received h ++ data ∧ bytes_ok data ∧ zlen data = offset ∧
      offset <= length ∧ b = data ++ drop (Z.to_nat offset) buffer)).
  { split_and!; try done. exists []. rewrite app_nil_r. split_and!; try done; [constructor|lia]. }
  { done. }
  intros [offset b] s' h' (-> & Hs & data & Hr & Hok & Hd & Ho & ->). unfold receive_step.
  pose proof (zlen_nonneg data).
  assert (zlen (data ++ drop (Z.to_nat offset) buffer) = zlen buffer) as Hb.
  { rewrite zlen_app, zlen_drop. lia. }
  destruct (Z.leb_spec length offset).
  { wp_step. split_and!; try done. exists data. assert (offset = length) as -> by lia. done. }
  wp_step. eapply wp_mono; [apply wait_for_socket_calm|]. intros waited s1 h1 [-> [Hr1 Hs1]].
  destruct waited as [errno|].
  { wp_step. split_and!; [done|congruence|done|]. exists data. split_and!; [congruence|done|lia]. }
  wp_step. apply wp_service. intros answer Hanswer. destruct answer as [[|byte bytes]|errno].
  - wp_step. cbn [received sent]. rewrite app_nil_r. split_and!; [done|congruence|done|].
    exists data. split_and!; [congruence|done|lia].
  - symmetry in Hanswer. apply law_receive in Hanswer as [Hcap Hbytes]; [|lia].
    set (more := byte :: bytes) in *. wp_step. pose proof (zlen_nonneg more).
    eapply wp_lift.
    { rewrite buf_write_in by lia. reflexivity. }
    wp_step. cbn [received sent]. split_and!; [done|congruence|].
    exists (data ++ more). rewrite Hr1, Hr, <- app_assoc. split_and!; [done|by apply bytes_ok_app| | |].
    + rewrite zlen_app. lia.
    + lia.
    + rewrite take_app_length' by (unfold zlen in *; lia). rewrite <- app_assoc. do 2 f_equal.
      rewrite drop_app_ge by (unfold zlen in *; lia). rewrite drop_drop. f_equal.
      unfold zlen in *. lia.
  - wp_step. destruct (interrupted errno); cbn [received sent].
    + split_and!; [done|congruence|]. exists data. split_and!; try done; congruence.
    + split_and!; [done|congruence|done|]. exists data. split_and!; [congruence|done|lia].
Qed.
End io.
