(* ===== verification/ClientSpec.v ===== *)
(** * What the FTAP client sends and receives

    The parts of [FtapClient] against the bytes of the connection: a frame that is
    sent is sent as a whole or cut off; the frames that are read are messages that
    the schema accepts in the state of the client, a failure means that the bytes
    are not such a message; and the parsers of the results store what the response
    says. *)

From S2P Require Import Prelude Protocol Words Utf8 Codec Inet Schema Program Client Requests FtapClient.

(** The bytes of a message. *)
Definition frame_bytes (header : ftap_frame_header) (payload : list Z) : list Z :=
  header_bytes header ++ payload.

(** A request as [send_frame] builds it. *)
Definition request_bytes (message_type request_id : Z) (payload : list Z) : list Z :=
  frame_bytes (response_header message_type 0 request_id (zlen payload)) payload.

(** A pointer to memory that begins with these bytes, or to nothing. *)
Definition payload_at (payload : ptr) (data : list Z) : Prop :=
  payload = None ∧ data = [] ∨ ∃ tail, payload = Some (data ++ tail).

(** A pointer is null or not, before and after. *)
Definition same_nullity {A} (a b : option A) : Prop := is_Some a ↔ is_Some b.

Lemma frame_bytes_zlen h p : zlen (frame_bytes h p) = FTAP_FRAME_HEADER_SIZE + zlen p.
Proof. unfold frame_bytes. by rewrite zlen_app, header_bytes_zlen. Qed.

Lemma payload_of_ok fs : Forall wire_ok fs → bytes_ok (payload_of fs).
Proof.
  intros Hw. unfold payload_of. apply Forall_concat, Forall_fmap.
  eapply Forall_impl; [exact Hw|]. intros f [_ _ _ ?]. by apply tlv_bytes_ok.
Qed.

(** A frame is parsed in one way only. *)
Lemma frame_bytes_inj h h' p p' :
  header_ok h → header_ok h' → frame_bytes h p = frame_bytes h' p' → h = h' ∧ p = p'.
Proof.
  unfold frame_bytes. intros Hh Hh' Heq.
  pose proof (header_of_bytes_encoded h p Hh) as E. pose proof (header_of_bytes_encoded h' p' Hh') as E'.
  rewrite Heq in E. split; [congruence|].
  assert (length (header_bytes h) = length (header_bytes h')) as Hl by by rewrite !header_bytes_length.
  by apply app_inj_1 in Heq as [_ ?].
Qed.

Lemma header_of_bytes_ok l : bytes_ok l → header_ok (header_of_bytes l).
Proof.
  intros Hok.
  assert (∀ n k, fits (8 * Z.of_nat n) (be_val (take n (drop k l)))) as Hw.
  { intros n k. pose proof (be_val_bound (take n (drop k l)) ltac:(auto with cmodel)) as [H0 Hmax].
    split; [done|]. eapply Z.lt_le_trans; [exact Hmax|]. change 256 with (2 ^ 8).
    rewrite <- Z.pow_mul_r by (apply zlen_nonneg || lia). apply Z.pow_le_mono_r; [lia|].
    unfold zlen. rewrite length_take. lia. }
  split; cbn [header_of_bytes hdr_major hdr_minor hdr_message_type hdr_flags hdr_payload_length
    hdr_request_id]; [apply (Hw 2%nat)..|apply (Hw 4%nat)|apply (Hw 8%nat)].
Qed.

(** A header that the schema accepts is accepted by the decoder. *)
Lemma accepted_decode_status `{Inet} state h payload_length :
  header_accepted state h payload_length → decode_status h = FTAP_STATUS_OK.
Proof.
  intros [_ [Hmajor Hminor] [Hl Hmax] Hf Hr _]. apply expected_flags_push in Hf as [Hpush Hunknown].
  unfold decode_status, validate_header_common. rewrite Hunknown, Hpush, Hl.
  rewrite (proj2 (Z.ltb_ge _ _)) by done. cbn [andb].
  rewrite Hmajor, (proj2 (Z.ltb_ge FTAP_VERSION_MINOR _)) by done.
  destruct (bool_decide (hdr_flags h = _));
    [rewrite Hr, Z.eqb_refl|rewrite (proj2 (Z.ltb_ge _ _)) by done]; reflexivity.
Qed.

Section frames_apart.
Context `{Inet}.

(** These bytes do not begin with a message. *)
Definition no_frame (state : ftap_connection_state) (data : list Z) : Prop :=
  ∀ h p rest, header_ok h → message_ok state h p → data ≠ frame_bytes h p ++ rest.

(** A message is at the beginning of some bytes in one way only. *)
Lemma frame_bytes_prefix state h h' p p' rest rest' :
  header_ok h → header_ok h' → message_ok state h p → message_ok state h' p' →
  frame_bytes h p ++ rest = frame_bytes h' p' ++ rest' → h = h' ∧ p = p' ∧ rest = rest'.
Proof.
  unfold frame_bytes. intros Hh Hh' [Hm _] [Hm' _] Heq. rewrite <- !app_assoc in Heq.
  pose proof (header_of_bytes_encoded h (p ++ rest) Hh) as E.
  rewrite Heq, (header_of_bytes_encoded h' _ Hh') in E. subst h'. split; [done|].
  apply app_inv_head in Heq. apply app_inj_1; [|done].
  destruct (ha_length _ _ _ Hm) as [Hl _], (ha_length _ _ _ Hm') as [Hl' _]. unfold zlen in *. lia.
Qed.

(** The header of the frame that some bytes begin with is in the first 24. *)
Lemma frame_bytes_header h p rest data more :
  header_ok h → zlen data = FTAP_FRAME_HEADER_SIZE → data ++ more = frame_bytes h p ++ rest →
  data = header_bytes h ∧ more = p ++ rest.
Proof.
  unfold frame_bytes. intros Hh Hd Heq. rewrite <- app_assoc in Heq. apply app_inj_1 in Heq; [done|].
  rewrite header_bytes_length. unfold zlen, FTAP_FRAME_HEADER_SIZE in Hd. lia.
Qed.

Lemma no_frame_short state data : zlen data < FTAP_FRAME_HEADER_SIZE → no_frame state data.
Proof.
  intros Hl h p rest _ _ ->. revert Hl. unfold frame_bytes. rewrite !zlen_app, header_bytes_zlen.
  pose proof (zlen_nonneg p). pose proof (zlen_nonneg rest). lia.
Qed.

(** 24 bytes that the decoder refuses, or whose length is too large. *)
Lemma no_frame_refused state data old :
  zlen data = FTAP_FRAME_HEADER_SIZE →
  negb (status_ok (fst (decode_answer data (zlen data) old)))
    || (FTAP_MAX_PAYLOAD_SIZE <? hdr_payload_length (snd (decode_answer data (zlen data) old))) = true →
  no_frame state data.
Proof.
  intros Hd Hbad h p rest Hh [Hm _] Heq. rewrite <- (app_nil_r data) in Heq.
  apply frame_bytes_header in Heq as [-> _]; [|done..]. revert Hbad. unfold decode_answer.
  rewrite Hd, bool_decide_true by reflexivity. rewrite Z.ltb_irrefl. cbv iota. cbn [fst snd].
  rewrite <- (app_nil_r (header_bytes h)), (header_of_bytes_encoded h []) by done.
  rewrite (accepted_decode_status _ _ _ Hm). destruct (ha_length _ _ _ Hm) as [-> ?].
  by rewrite (proj2 (Z.ltb_ge _ _)) by done.
Qed.

(** A payload that is shorter than its header says, or that the schema refuses. *)
Lemma no_frame_payload state h more :
  header_ok h → zlen more <= hdr_payload_length h →
  (zlen more = hdr_payload_length h → ¬ message_ok state h more) →
  no_frame state (header_bytes h ++ more).
Proof.
  intros Hh Hl Hno h' p rest Hh' Hm Heq.
  pose proof (header_of_bytes_encoded h more Hh) as E. rewrite Heq in E. unfold frame_bytes in E, Heq.
  rewrite <- app_assoc in E, Heq. rewrite (header_of_bytes_encoded h' _ Hh') in E. subst h'.
  apply app_inv_head in Heq as ->. destruct (ha_length _ _ _ (proj1 Hm)) as [Hp _].
  rewrite zlen_app in Hl, Hno. pose proof (zlen_nonneg rest).
  assert (rest = []) as ->.
  { destruct rest; [done|]. rewrite zlen_cons in *. pose proof (zlen_nonneg rest). lia. }
  rewrite app_nil_r in Hno. by apply Hno; [change (zlen []) with 0; lia|].
Qed.
End frames_apart.

Section frames.
Context `{Inet} `{ClientLaws}.
Context (fuel : nat).

Notation holds := (wp unfinished).

(** [send_frame] sends the frame as a whole exactly when it returns 0. *)
Lemma send_frame_spec message_type request_id payload data error s h :
  payload_at payload data →
  holds (send_frame fuel message_type request_id payload (zlen data) error)
    (λ '(r, e) s' h', s' = s ∧ received h' = received h ∧
       ∃ n, sent h' = sent h ++ take n (request_bytes message_type request_id data) ∧
         (r = 0 ∧ e = error ∧ n = length (request_bytes message_type request_id data) ∨
          r = -1 ∧ local_error error e ∧
          (n < length (request_bytes message_type request_id data))%nat)) s h.
Proof.
  intros Hp. set (bytes := request_bytes message_type request_id data).
  assert (zlen bytes = FTAP_FRAME_HEADER_SIZE + zlen data) as Hbytes by apply frame_bytes_zlen.
  pose proof (zlen_nonneg data) as Hd.
  assert (∀ e h', local_error error e → received h' = received h → sent h' = sent h →
    s = s ∧ received h' = received h ∧ ∃ n, sent h' = sent h ++ take n bytes ∧
      (-1 = 0 ∧ e = error ∧ n = length bytes ∨ -1 = -1 ∧ local_error error e ∧ (n < length bytes)%nat))
    as Hfail.
  { intros e h' He Hr Hs. split; [done|]. split; [done|]. exists 0%nat. rewrite take_0, app_nil_r.
    split; [done|]. right. split; [done|]. split; [done|]. unfold zlen, FTAP_FRAME_HEADER_SIZE in *. lia. }
  unfold send_frame. wp_step. wp_step.
  destruct (_ || (FTAP_MAX_PAYLOAD_SIZE <? zlen data)) eqn:Hbad.
  { wp_step. apply Hfail; try done. apply set_local_error_local. }
  bools. unfold u32. rewrite wrap_fits by (unfold fits, FTAP_MAX_PAYLOAD_SIZE in *; lia).
  change (FrameHeader _ _ _ _ _ _) with (response_header message_type 0 request_id (zlen data)).
  set (header := response_header message_type 0 request_id (zlen data)) in *.
  destruct (status_ok (validate_header_common (Some header) true)) eqn:Hs.
  2:{ wp_step. eapply wp_lift; [by apply encode_refused|]. cbv beta iota. wp_step. eapply wp_lift; [reflexivity|].
      cbv beta iota. rewrite Hs. cbn [negb]. wp_step. apply Hfail; try done. apply set_local_error_local. }
  wp_step. eapply wp_lift.
  { apply header_encode_spec; [vm_compute; congruence|by apply status_ok_spec]. }
  cbv beta iota. wp_step. eapply wp_lift; [reflexivity|]. cbv beta iota.
  change (status_ok FTAP_STATUS_OK) with true. cbn [negb].
  wp_step. eapply wp_mono with (P := λ frame s' h', s' = s ∧ h' = h ∧ ∃ tail, frame = bytes ++ tail).
  { assert (zlen (drop 24 (zeros FTAP_MAX_FRAME_SIZE)) = FTAP_MAX_PAYLOAD_SIZE) as Hroom.
    { rewrite zlen_drop, zlen_zeros by (vm_compute; congruence). reflexivity. }
    destruct (Z.ltb_spec 0 (zlen data)) as [Hpos|Hnil].
    - destruct Hp as [[-> ->]|[tail ->]]; [change (zlen []) with 0 in Hpos; lia|].
      wp_step. eapply wp_lift; [reflexivity|]. wp_step. eapply wp_lift; [apply buf_read_prefix|].
      eapply wp_lift.
      { apply buf_write_next; [symmetry; apply header_bytes_zlen|rewrite Hroom; lia]. }
      split; [done|]. split; [done|]. by eexists.
    - destruct data as [|b data]; [|rewrite zlen_cons in Hnil; pose proof (zlen_nonneg data); lia].
      wp_step. split; [reflexivity|]. split; [reflexivity|].
      exists (drop 24 (zeros FTAP_MAX_FRAME_SIZE)). unfold bytes, request_bytes, frame_bytes.
      rewrite app_nil_r. reflexivity. }
  intros frame s' h' (-> & -> & tail & ->). wp_step.
  eapply wp_mono; [apply deadline_after_calm|]. intros deadline s' h' [-> [Hr Hse]].
  destruct deadline as [deadline|errno].
  2:{ wp_step. apply Hfail; try done. apply set_local_error_local. }
  wp_step. eapply wp_mono; [apply send_all_spec|].
  { rewrite zlen_app, Hbytes. pose proof (zlen_nonneg tail). unfold FTAP_FRAME_HEADER_SIZE in *. lia. }
  intros r s' h1 (-> & Hr1 & n & Hn & Hs1 & Hdone). rewrite <- Hbytes in Hn, Hdone.
  rewrite take_app_le in Hs1 by (unfold zlen in *; lia).
  destruct r as [errno|]; wp_step; (split; [done|]); (split; [congruence|]); exists (Z.to_nat n);
    (split; [congruence|]).
  - right. split; [done|]. split; [apply set_local_error_local|].
    assert (n ≠ zlen bytes) by (intros E; by apply Hdone in E). unfold zlen in *. lia.
  - left. split; [done|]. split; [done|].
    rewrite (proj1 Hdone eq_refl). unfold zlen. apply Nat2Z.id.
Qed.

(** [receive_frame] returns 0 exactly with a frame that the schema accepts, and has
    then consumed the bytes of that frame; if it fails, what it has consumed does
    not begin with such a frame. *)
Lemma receive_frame_spec deadline error s h :
  holds (receive_frame fuel deadline error)
    (λ '(r, frame, e) s' h', s' = s ∧ sent h' = sent h ∧
       ∃ data, received h' = received h ++ data ∧
         (r = 0 ∧ e = error ∧ header_ok (rf_header frame) ∧
            (∃ payload tail, data = frame_bytes (rf_header frame) payload ∧
               rf_payload frame = payload ++ tail ∧ bytes_ok (payload ++ tail) ∧
               rf_payload_length frame = zlen payload ∧
               message_ok (cl_state s) (rf_header frame) payload) ∨
          r = -1 ∧ local_error error e ∧ no_frame (cl_state s) data)) s h.
Proof.
  unfold receive_frame. wp_step. wp_step. wp_step.
  eapply wp_mono; [apply receive_exact_spec; vm_compute; split; congruence|].
  intros [failed bytes] s' h1 (-> & Hs1 & Hlen & data & Hr1 & Hok & Hdata).
  destruct failed as [errno|].
  { wp_step. split; [done|]. split; [done|]. exists data. split; [done|]. right. split; [done|].
    split; [apply set_local_error_local|by apply no_frame_short]. }
  destruct Hdata as [Hd Hb].
  assert (bytes = data) as ->.
  { rewrite Hb, drop_ge by (vm_compute; lia). apply app_nil_r. }
  wp_step. eapply wp_lift; [apply header_decode_spec; [done|lia]|]. cbv beta iota.
  wp_step. eapply wp_lift; [reflexivity|]. cbv beta iota.
  remember (decode_answer _ _ _) as answer eqn:Hans.
  destruct (_ || _) eqn:Hbad.
  { wp_step. split; [done|]. split; [done|]. exists data. split; [done|]. right. split; [done|].
    split; [apply set_local_error_local|]. subst answer. by eapply no_frame_refused. }
  bools. unfold decode_answer in Hans.
  rewrite (proj2 (Z.ltb_ge _ _)) in Hans by (unfold FTAP_FRAME_HEADER_SIZE in *; lia).
  destruct (bool_decide (take 4 data = lit "FTAP")) eqn:Hmagic; subst answer; cbn [fst snd] in *; [|done].
  bools.
  pose proof (header_of_bytes_ok data Hok) as Hheader.
  assert (header_bytes (header_of_bytes data) = data) as Hbytes.
  { rewrite header_bytes_decoded by (done || lia). apply take_ge. unfold FTAP_FRAME_HEADER_SIZE, zlen in Hd. lia. }
  set (header := header_of_bytes data) in *.
  pose proof (ok_payload_length _ Hheader) as [Hpos _].
  wp_step. eapply wp_mono with (P := λ '(failed, payload) s' h', s' = s ∧ sent h' = sent h1 ∧
    ∃ more, received h' = received h1 ++ more ∧ bytes_ok more ∧
      match failed with
      | None => zlen more = hdr_payload_length header ∧ ∃ tail, payload = more ++ tail ∧ bytes_ok tail
      | Some _ => zlen more < hdr_payload_length header
      end).
  { assert (array_ok FTAP_MAX_PAYLOAD_SIZE (zeros FTAP_MAX_PAYLOAD_SIZE)) as [Hzok Hzl]
      by (apply zeros_ok; vm_compute; congruence).
    destruct (Z.ltb_spec 0 (hdr_payload_length header)).
    - eapply wp_mono; [apply receive_exact_spec|].
      { cbn [rf_payload zero_frame]. rewrite Hzl. lia. }
      intros [failed payload] s' h2 (-> & Hs2 & _ & more & Hr2 & Hmore & Hdone).
      split; [done|]. split; [done|]. exists more. split; [done|]. split; [done|].
      destruct failed; [done|]. destruct Hdone as [Hml ->]. split; [done|]. eexists. split; [done|].
      by apply bytes_ok_drop.
    - wp_step. split; [done|]. split; [done|]. exists []. rewrite app_nil_r.
      split; [done|]. split; [constructor|]. split; [change (0 = hdr_payload_length header); lia|].
      exists (zeros FTAP_MAX_PAYLOAD_SIZE). split; [reflexivity|exact Hzok]. }
  intros [failed payload] s' h2 (-> & Hs2 & more & Hr2 & Hmore & Hdone).
  destruct failed as [errno|].
  { wp_step. split; [done|]. split; [congruence|]. exists (data ++ more). split; [by rewrite Hr2, Hr1, app_assoc|].
    right. split; [done|]. split; [apply set_local_error_local|]. rewrite <- Hbytes.
    apply no_frame_payload; [done|lia..]. }
  destruct Hdone as [Hl (tail & -> & Htail)]. rewrite <- Hl.
  assert (bytes_ok (more ++ tail)) as Hmt by by apply bytes_ok_app.
  destruct (validate_correct (cl_state s) header more tail (ValidationError FTAP_STATUS_OK 0 0) Hmt)
    as (status & ve & Hrun & _ & Hiff).
  wp_step. eapply wp_lift; [exact Hrun|]. cbv beta iota.
  destruct (status_ok status) eqn:Hst; cbn [negb]; wp_step; (split; [done|]); (split; [congruence|]);
    exists (data ++ more); (split; [by rewrite Hr2, Hr1, app_assoc|]).
  - left. apply status_ok_spec in Hst. split; [done|]. split; [done|]. split; [done|].
    exists more, tail. split_and!; try done; [|by apply Hiff]. unfold frame_bytes. cbn [rf_header].
    by rewrite Hbytes.
  - right. split; [done|]. split; [apply set_local_error_local|]. rewrite <- Hbytes.
    apply no_frame_payload; [done|lia|]. intros _ Hm%Hiff. by rewrite Hm in Hst.
Qed.
End frames.

(** ** Field loops that store or refuse *)

Section storing.
Context {S R : Type} (on_error : ftap_status → ftap_tlv → R) (err : ftap_status → Z → R).
Context (body : ftap_tlv → S → run (ctl S R)) (ok : field → bool) (store : field → S → S).
Context (refuse : field → S → R) (Inv : S → Prop).
Context (Hbody : ∀ t f s, Inv s → tlv_is t f → wire_ok f →
  body t s = Some (if ok f then Continue (store f s) else Return (refuse f s))).
Context (Hinv : ∀ f s, Inv s → wire_ok f → ok f = true → Inv (store f s)).
Context (Herr : ∀ st t, on_error st t = err st (tlv_type t)).

Lemma fold_refuse fs s :
  forallb ok fs = true →
  fold_fields (λ f s, if ok f then Continue (store f s) else Return (refuse f s)) fs s =
    Break (stored store fs s).
Proof.
  revert s. induction fs as [|f fs IH]; intros s; [done|]. cbn. destruct (ok f); [|done]. apply IH.
Qed.

Lemma fold_refused fs s :
  forallb ok fs = false →
  ∃ f s', fold_fields (λ f s, if ok f then Continue (store f s) else Return (refuse f s)) fs s
    = Return (refuse f s').
Proof.
  revert s. induction fs as [|f fs IH]; intros s; [done|]. cbn. destruct (ok f); [apply IH|].
  intros _. by exists f, s.
Qed.

(** The loop over a payload in memory. *)
Lemma loop_stored fs tail s :
  Inv s → Forall wire_ok fs → bytes_ok (payload_of fs ++ tail) →
  zlen (payload_of fs) <= FTAP_MAX_PAYLOAD_SIZE →
  ∃ r, ftap_tlv_reader_init (Some (TlvReader None 0 0)) (Some (payload_of fs ++ tail))
         (zlen (payload_of fs)) = (FTAP_STATUS_OK, Some r) ∧
    if forallb ok fs
    then field_loop on_error body r s = Some (Break (stored store fs s)) ∧ Inv (stored store fs s)
    else ∃ f s', field_loop on_error body r s = Some (Return (refuse f s')).
Proof.
  intros Hs Hw Hok Hmax. destruct (payload_reader (payload_of fs) tail Hok Hmax) as (Hi & Hr & Hu).
  eexists. split; [exact Hi|].
  rewrite (field_loop_spec (λ f s, if ok f then Continue (store f s) else Return (refuse f s)) err
             _ _ Inv); [|done| |done|done|done|done].
  2:{ intros f s1 s2 Hs1 Hf. destruct (ok f) eqn:E; [|done]. intros [= <-]. by apply Hinv. }
  rewrite Hu, walk_payload by (done || lia).
  destruct (forallb ok fs) eqn:E.
  - rewrite fold_refuse by done. split; [done|]. by apply (stored_inv ok store).
  - destruct (fold_refused fs s E) as (f & s' & ->). by exists f, s'.
Qed.
End storing.

(** ** Errors of the server *)

(** The error that a response reports. *)
Record error_of (fs : list field) (e : ftap_client_error) : Prop := {
  eo_status : ce_status e = FTAP_STATUS_ERR_INVALID_VALUE;
  eo_errno : ce_system_errno e = 0;
  eo_server : ce_server_error e = true;
  eo_known : ce_outcome_unknown e = false;
  eo_code : ce_protocol_error e = be_val (required_value FTAP_FIELD_ERROR_CODE fs);
  eo_retry : ce_retry_after_ms e = be_val (required_value FTAP_FIELD_RETRY_AFTER_MS fs);
  eo_text : holds FTAP_FIELD_ERROR_TEXT fs (ce_text e);
}.

Definition error_field_ok (f : field) : bool :=
  let case type := f_type f =? type in
  if case FTAP_FIELD_ERROR_CODE then zlen (f_value f) =? 4
  else if case FTAP_FIELD_RETRY_AFTER_MS then zlen (f_value f) =? 4
  else if case FTAP_FIELD_ERROR_TEXT then zlen (f_value f) <=? FTAP_ERROR_TEXT_MAX
  else true.

Definition store_error_field (f : field) (e : ftap_client_error) : ftap_client_error :=
  let case type := f_type f =? type in
  if case FTAP_FIELD_ERROR_CODE then ce_set_protocol_error (be_val (f_value f)) e
  else if case FTAP_FIELD_RETRY_AFTER_MS then ce_set_retry_after_ms (be_val (f_value f)) e
  else if case FTAP_FIELD_ERROR_TEXT then ce_set_text (put_string (f_value f) (ce_text e)) e
  else e.

Definition error_start : ftap_client_error :=
  ClientError FTAP_STATUS_ERR_INVALID_VALUE 0 0 0 true false (zeros FTAP_CLIENT_ERROR_TEXT_SIZE).

Lemma copy_text_field_same t array : copy_text_field t array = copy_field_text t array.
Proof. reflexivity. Qed.

Lemma get_word_value n read t f old :
  tlv_is t f → reads_be n read →
  tlv_get_word (Z.of_nat n) read (Some t) (Some old) =
    Some (if zlen (f_value f) =? Z.of_nat n
          then (FTAP_STATUS_OK, Some (be_val (f_value f)))
          else (FTAP_STATUS_ERR_LENGTH, Some old)).
Proof. intros. by apply get_word_spec. Qed.

Lemma required_snoc_same type fs f :
  f_type f = type → required_value type (fs ++ [f]) = f_value f.
Proof. intros E. unfold required_value. by rewrite value_of_snoc, E, Z.eqb_refl. Qed.

Lemma required_snoc_other type fs f :
  f_type f ≠ type → required_value type (fs ++ [f]) = required_value type fs.
Proof. intros E. unfold required_value. by rewrite value_of_other. Qed.

(** A member after another field has been stored. *)
Ltac solve_member :=
  first
    [ assumption
    | rewrite required_snoc_same by assumption; reflexivity
    | rewrite required_snoc_other by first [assumption | other_type]; assumption
    | apply holds_snoc_same; assumption
    | apply holds_other; [first [assumption | other_type]|assumption] ].

Lemma store_error_field_of fs e f :
  error_of fs e → error_of (fs ++ [f]) (store_error_field f e).
Proof.
  intros []. unfold store_error_field.
  repeat case_if; bools; split; cbn; solve_member.
Qed.

Lemma stored_error fs : error_of fs (stored store_error_field fs error_start).
Proof.
  induction fs as [|f fs IH] using rev_ind.
  { by split. }
  unfold stored. rewrite foldl_app. cbn [foldl]. by apply store_error_field_of.
Qed.

(** A field of a type that is not known has none of the types of a [switch]. *)
Ltac other_types f Hk :=
  let Hne := fresh in
  assert (∀ n, ftap_field_type_is_known n = true → f_type f ≠ n) as Hne by (intros n Hn <-; congruence);
  by rewrite !(proj2 (Z.eqb_neq _ _)) by by apply Hne.

Section error_frames.
Context `{Inet}.

(** What a malformed field makes of the error. *)
Definition refuse_error_field (f : field) (error : option ftap_client_error) : option ftap_client_error :=
  if f_type f =? FTAP_FIELD_ERROR_CODE
  then set_local_error error FTAP_STATUS_ERR_INVALID_VALUE Errno.EPROTO (lit "invalid FTAP error code")
  else if f_type f =? FTAP_FIELD_RETRY_AFTER_MS
  then set_local_error error FTAP_STATUS_ERR_INVALID_VALUE Errno.EPROTO (lit "invalid FTAP retry interval")
  else set_local_error error FTAP_STATUS_ERR_LENGTH Errno.EPROTO (lit "invalid FTAP error text").

Lemma error_field_spec t f e :
  tlv_is t f → wire_ok f → zlen (ce_text e) = FTAP_CLIENT_ERROR_TEXT_SIZE →
  error_field t (Some e) =
    Some (if error_field_ok f then Continue (Some (store_error_field f e))
          else Return (refuse_error_field f (Some e))).
Proof.
  intros Ht Hw Hlen. unfold error_field. pose proof Ht as (-> & _).
  unfold error_field_ok, store_error_field, refuse_error_field.
  unfold ftap_tlv_get_u32. change 4 with (Z.of_nat 4).
  field_case f FTAP_FIELD_ERROR_CODE; [|field_case f FTAP_FIELD_RETRY_AFTER_MS;
    [|field_case f FTAP_FIELD_ERROR_TEXT; [|done]]].
  - rewrite (get_word_value 4 _ t f) by (done || exact read_u32_be_spec). by case_if.
  - rewrite (get_word_value 4 _ t f) by (done || exact read_u32_be_spec). by case_if.
  - rewrite copy_text_field_same, (copy_field_text_spec t f Ht), (fits_array _ _ FTAP_ERROR_TEXT_MAX) by done.
    by case_if.
Qed.

Lemma store_error_field_size f e :
  zlen (ce_text e) = FTAP_CLIENT_ERROR_TEXT_SIZE → wire_ok f → error_field_ok f = true →
  zlen (ce_text (store_error_field f e)) = FTAP_CLIENT_ERROR_TEXT_SIZE.
Proof.
  intros Hl [_ _ _ Hv]. unfold error_field_ok, store_error_field. repeat case_if; try done.
  intros Hfit. bools. cbn [ce_text ce_set_text].
  unfold put_string. rewrite zlen_app, zlen_cons, zlen_drop.
  unfold FTAP_CLIENT_ERROR_TEXT_SIZE, FTAP_ERROR_TEXT_MAX, zlen in *. lia.
Qed.

Lemma validated_error_field fs f :
  fields_ok FTAP_MSG_ERROR error_rules fs → f ∈ fs → wire_ok f → error_field_ok f = true.
Proof.
  intros Hfs Hin Hw. destruct (ftap_field_type_is_known (f_type f)) eqn:Hk.
  - destruct (fields_known _ _ _ Hfs f Hin Hk) as [[(k & Hkind & Hv) _] (rule & Hr & Ht)].
    unfold error_rules in Hr. rewrite !elem_of_cons, elem_of_nil in Hr.
    unfold error_field_ok. rewrite <- Ht in *.
    repeat destruct Hr as [->|Hr]; try done; cbn [rule_type RULE_REQUIRED RULE_OPTIONAL] in *;
      injection Hkind as <-; cbn [kind_ok] in Hv; cbv beta iota zeta; apply Z.eqb_eq || apply Z.leb_le; apply Hv.
  - unfold error_field_ok. other_types f Hk.
Qed.

Lemma parse_error_frame_spec frame fs tail error :
  rf_payload frame = payload_of fs ++ tail → rf_payload_length frame = zlen (payload_of fs) →
  bytes_ok (payload_of fs ++ tail) → zlen (payload_of fs) <= FTAP_MAX_PAYLOAD_SIZE →
  Forall wire_ok fs → fields_ok FTAP_MSG_ERROR error_rules fs →
  ∃ error', parse_error_frame frame error = Some error' ∧
    match error, error' with
    | None, None => True
    | Some _, Some e => error_of fs e
    | _, _ => False
    end.
Proof.
  intros Hp Hl Hok Hmax Hw Hfs. unfold parse_error_frame. rewrite Hp, Hl.
  assert (forallb error_field_ok fs = true) as Hall.
  { apply forallb_Forall, Forall_forall. intros f Hin.
    apply (validated_error_field fs); [done|done|by eapply Forall_forall]. }
  destruct error as [e|]; cbn [fmap option_fmap option_map].
  - fold error_start.
    destruct (loop_stored
      (λ status _, set_local_error (Some error_start) status Errno.EPROTO (lit "invalid FTAP error field"))
      (λ status _, set_local_error (Some error_start) status Errno.EPROTO (lit "invalid FTAP error field"))
      error_field error_field_ok (λ f, fmap (store_error_field f)) refuse_error_field
      (λ error, ∃ e, error = Some e ∧ zlen (ce_text e) = FTAP_CLIENT_ERROR_TEXT_SIZE))
      with (fs := fs) (tail := tail) (s := Some error_start) as (r & -> & Hloop); try done.
    { intros t f error (e1 & -> & He1) Ht Hf. by apply error_field_spec. }
    { intros f error (e1 & -> & He1) Hf Hfok. eexists. split; [done|]. by apply store_error_field_size. }
    { by eexists. }
    rewrite Hall in Hloop. destruct Hloop as [Hloop _].
    change (negb (status_ok FTAP_STATUS_OK)) with false. cbv iota. unfold deref. run_simpl.
    rewrite Hloop. run_simpl.
    assert (stored (λ f, fmap (store_error_field f)) fs (Some error_start) =
      Some (stored store_error_field fs error_start)) as ->.
    { clear. generalize error_start. unfold stored. induction fs as [|f fs IH]; intros e; [done|apply IH]. }
    eexists. split; [done|]. apply stored_error.
  - destruct (loop_stored
      (λ status _, set_local_error None status Errno.EPROTO (lit "invalid FTAP error field"))
      (λ status _, set_local_error None status Errno.EPROTO (lit "invalid FTAP error field"))
      error_field (λ _, true) (λ _ e, e) (λ _ e, e) (λ error, error = None))
      with (fs := fs) (tail := tail) (s := @None ftap_client_error) as (r & -> & Hloop); try done.
    { by intros t f error -> Ht Hf. }
    assert (forallb (λ _ : field, true) fs = true) as E by by apply forallb_forall.
    rewrite E in Hloop. destruct Hloop as [Hloop Hnone].
    change (negb (status_ok FTAP_STATUS_OK)) with false. cbv iota. unfold deref. run_simpl.
    rewrite Hloop. run_simpl. rewrite Hnone. by eexists.
Qed.
End error_frames.

(** ** Responses *)

Section responses.
Context `{Inet} `{ClientLaws}.
Context (fuel : nat).

Notation holds := (wp unfinished).

(** Notifications of changed rights, which the client skips. *)
Definition notification (state : ftap_connection_state) (m : ftap_frame_header * list Z) : Prop :=
  header_ok m.1 ∧ message_ok state m.1 m.2 ∧ hdr_message_type m.1 = FTAP_MSG_SESSION_AUTHZ_CHANGED.

Definition frames_bytes (ms : list (ftap_frame_header * list Z)) : list Z :=
  concat (map (λ m, frame_bytes m.1 m.2) ms).

(** The bytes that arrived are notifications and then this message, which answers
    the request. *)
Record answers (state : ftap_connection_state) (message_type request_id : Z)
    (data : list Z) (header : ftap_frame_header) (payload : list Z) : Prop := {
  an_bytes : ∃ ms, Forall (notification state) ms ∧
    data = frames_bytes ms ++ frame_bytes header payload;
  an_header : header_ok header;
  an_valid : message_ok state header payload;
  an_type : hdr_message_type header = message_type;
  an_id : hdr_request_id header = request_id;
}.

(** A frame in the memory of the client. *)
Definition frame_holds (frame : ftap_received_frame) (payload : list Z) : Prop :=
  rf_payload_length frame = zlen payload ∧
  ∃ tail, rf_payload frame = payload ++ tail ∧ bytes_ok (payload ++ tail).

(** A response of this type, or an error of the server. *)
Definition response_type (message_type type : Z) : Prop := type = message_type ∨ type = FTAP_MSG_ERROR.

(** Nothing that arrived answers the request. *)
Definition unanswered (state : ftap_connection_state) (message_type request_id : Z) (data : list Z) : Prop :=
  ∀ type header payload, response_type message_type type →
    ¬ answers state type request_id data header payload.

(** The response of a request has the flags of one. *)
Definition is_response (message_type : Z) : Prop :=
  expected_flags message_type (Some 0) = (FTAP_STATUS_OK, Some FTAP_FRAME_FLAG_RESPONSE).

(** A failure is one of the client, which has no answer then, or the server
    reported it. *)
Definition failed (state : ftap_connection_state) (message_type request_id : Z) (data : list Z)
    (error error' : option ftap_client_error) : Prop :=
  local_error error error' ∧ unanswered state message_type request_id data ∨
  ∃ header fs, answers state FTAP_MSG_ERROR request_id data header (payload_of fs) ∧
    Forall wire_ok fs ∧
    match error, error' with
    | None, None => True
    | Some _, Some e => error_of fs e
    | _, _ => False
    end.

Lemma response_type_flags message_type type :
  is_response message_type → response_type message_type type →
  type ≠ FTAP_MSG_SESSION_AUTHZ_CHANGED ∧
  ∀ flags, expected_flags type (Some 0) = (FTAP_STATUS_OK, Some flags) →
    Z.land flags FTAP_FRAME_FLAG_SERVER_PUSH = 0.
Proof.
  intros Hr [->|Ht]; [|by subst type; split; [|intros flags [= <-]]]. split; [by intros ->|].
  intros flags. rewrite Hr. by intros [= <-].
Qed.

(** Notifications that have been skipped are at the beginning of every reading of
    the bytes. *)
Lemma notifications_skipped state ms ms' rest header payload :
  Forall (notification state) ms → Forall (notification state) ms' →
  header_ok header → message_ok state header payload →
  hdr_message_type header ≠ FTAP_MSG_SESSION_AUTHZ_CHANGED →
  frames_bytes ms ++ rest = frames_bytes ms' ++ frame_bytes header payload →
  ∃ more, Forall (notification state) more ∧ rest = frames_bytes more ++ frame_bytes header payload.
Proof.
  intros Hms. revert ms'. induction Hms as [|m ms (Hm & Hv & Ht) Hms IH]; intros ms' Hms' Hh Hvalid Htype Heq.
  { by exists ms'. }
  unfold frames_bytes in Heq. cbn [map concat] in Heq. rewrite <- app_assoc in Heq.
  destruct Hms' as [|m' ms' (Hm' & Hv' & _) Hms']; cbn [map concat app] in Heq.
  - rewrite <- (app_nil_r (frame_bytes header payload)) in Heq.
    apply (frame_bytes_prefix state) in Heq as [Heq _]; [congruence|done..].
  - rewrite <- app_assoc in Heq. apply (frame_bytes_prefix state) in Heq as (_ & _ & Heq); [|done..].
    by eapply IH.
Qed.

(** After notifications, bytes that do not begin with a message are no answer. *)
Lemma no_frame_unanswered state message_type request_id ms data :
  is_response message_type → Forall (notification state) ms → no_frame state data →
  unanswered state message_type request_id (frames_bytes ms ++ data).
Proof.
  intros Hr Hms Hno type header payload Htype [(ms' & Hms' & Heq) Hh Hvalid Ht _].
  destruct (response_type_flags _ _ Hr Htype) as [Hne _]. rewrite <- Ht in Hne.
  destruct (notifications_skipped _ _ _ _ _ _ Hms Hms' Hh Hvalid Hne Heq) as (more & Hmore & ->).
  destruct Hmore as [|m more (Hm & Hv & _) _]; unfold frames_bytes in Hno; cbn [map concat app] in Hno.
  - by apply (Hno header payload []); [done..|rewrite app_nil_r].
  - by apply (Hno m.1 m.2 (concat (map (λ m, frame_bytes m.1 m.2) more) ++ frame_bytes header payload));
      [done..|rewrite app_assoc].
Qed.

(** A message after notifications is an answer only if it is the one. *)
Lemma answers_last state type request_id ms header payload header' payload' :
  type ≠ FTAP_MSG_SESSION_AUTHZ_CHANGED → Forall (notification state) ms →
  header_ok header → message_ok state header payload →
  answers state type request_id (frames_bytes ms ++ frame_bytes header payload) header' payload' →
  header' = header ∧ payload' = payload ∧ hdr_message_type header = type ∧ hdr_request_id header = request_id.
Proof.
  intros Hne Hms Hh Hvalid [(ms' & Hms' & Heq) Hh' Hvalid' Ht Hid]. rewrite <- Ht in Hne.
  destruct (notifications_skipped _ _ _ _ _ _ Hms Hms' Hh' Hvalid' Hne Heq) as (more & Hmore & Heq').
  destruct Hmore as [|m more (Hm & Hv & Hmt) _].
  - apply frame_bytes_inj in Heq' as [<- <-]; by subst.
  - unfold frames_bytes in Heq'. cbn [map concat] in Heq'. rewrite <- (app_nil_r (frame_bytes header _)) in Heq'.
    rewrite <- app_assoc in Heq'. apply (frame_bytes_prefix state) in Heq' as (_ & _ & Heq'); [|done..].
    symmetry in Heq'. apply app_nil in Heq' as [_ Heq'].
    assert (zlen (frame_bytes header' payload') = 0) as Hl by by rewrite Heq'.
    rewrite frame_bytes_zlen in Hl. pose proof (zlen_nonneg payload'). unfold FTAP_FRAME_HEADER_SIZE in Hl. lia.
Qed.

(** Bytes answer a request in one way only. *)
Lemma answers_unique state type type' request_id data header payload header' payload' :
  type ≠ FTAP_MSG_SESSION_AUTHZ_CHANGED → type' ≠ FTAP_MSG_SESSION_AUTHZ_CHANGED →
  answers state type request_id data header payload →
  answers state type' request_id data header' payload' → type = type' ∧ payload = payload'.
Proof.
  intros Hne Hne' [(ms & Hms & ->) Hh Hvalid Ht _] Ha.
  destruct (answers_last _ _ _ _ _ _ _ _ Hne' Hms Hh Hvalid Ha) as (_ & <- & Ht' & _).
  split; [congruence|done].
Qed.

Lemma frames_bytes_snoc ms h p : frames_bytes (ms ++ [(h, p)]) = frames_bytes ms ++ frame_bytes h p.
Proof. unfold frames_bytes. rewrite map_app, concat_app. cbn. by rewrite app_nil_r. Qed.

Lemma set_protocol_error_local error code status errno text :
  local_error error (ce_set_protocol_error code <$> set_local_error error status errno text).
Proof. by destruct error. Qed.

Lemma wait_for_response_spec message_type request_id error s h :
  is_response message_type →
  holds (wait_for_response fuel message_type request_id error)
    (λ '(r, response, e) s' h', sent h' = sent h ∧ ∃ data, received h' = received h ++ data ∧
       (r = 0 ∧ s' = s ∧ e = error ∧ (∃ payload, frame_holds response payload ∧
          answers (cl_state s) message_type request_id data (rf_header response) payload) ∨
        r = -1 ∧ (s' = s ∨ s' = set_cl_state FTAP_STATE_CLOSING s) ∧
          failed (cl_state s) message_type request_id data error e)) s h.
Proof.
  intros Hresponse. unfold wait_for_response. wp_step. wp_step. wp_step.
  eapply wp_mono; [apply deadline_after_calm|]. intros deadline s' h1 [-> [Hr1 Hs1]].
  destruct deadline as [deadline|errno].
  2:{ wp_step. split; [done|]. exists []. rewrite app_nil_r. split; [done|]. right. split; [done|].
      split; [by left|]. left. split; [apply set_local_error_local|].
      apply (no_frame_unanswered _ _ _ [] []); [done|constructor|]. by apply no_frame_short. }
  apply (wp_iterate _ (λ l s' h', l = error ∧ s' = s ∧ sent h' = sent h ∧ ∃ ms,
    Forall (notification (cl_state s)) ms ∧ received h' = received h ++ frames_bytes ms)).
  { split_and!; try done. exists []. by rewrite app_nil_r. }
  { done. }
  clear h1 Hr1 Hs1. intros l s' h1 (-> & -> & Hs1 & ms & Hms & Hr1). unfold response_step. wp_step.
  eapply wp_mono; [apply receive_frame_spec|].
  intros [[r response] e] s' h2 (-> & Hs2 & data & Hr2 & Hcase).
  assert (received h2 = received h ++ frames_bytes ms ++ data) as Hr by by rewrite Hr2, Hr1, app_assoc.
  assert (sent h2 = sent h) as Hs by congruence. clear Hs1 Hs2 Hr1 Hr2.
  destruct Hcase as [(-> & -> & Hh & payload & tail & Hd & Hp & Hok & Hl & Hvalid)|(-> & He & Hno)].
  2:{ cbn [Z.eqb negb]. wp_step. split; [done|]. eexists. split; [exact Hr|]. right. split; [done|].
      split; [by left|]. left. split; [done|]. by apply no_frame_unanswered. }
  change (negb (0 =? 0)) with false. cbv iota.
  set (header := rf_header response) in *. rewrite Hd in Hr.
  assert (∀ e s1, local_error error e → (s1 = s ∨ s1 = set_cl_state FTAP_STATE_CLOSING s) →
    (∀ type, response_type message_type type →
       hdr_message_type header = type → hdr_request_id header = request_id → False) →
    sent h2 = sent h ∧ ∃ data, received h2 = received h ++ data ∧
    (-1 = 0 ∧ s1 = s ∧ e = error ∧ (∃ payload,
       frame_holds response payload ∧ answers (cl_state s) message_type request_id data header payload) ∨
     -1 = -1 ∧ (s1 = s ∨ s1 = set_cl_state FTAP_STATE_CLOSING s) ∧
       failed (cl_state s) message_type request_id data error e)) as Hfail.
  { intros e s1 He Hst Hother. split; [done|]. eexists. split; [exact Hr|]. right. split; [done|].
    split; [done|]. left. split; [done|]. intros type h' p' Htype Ha.
    destruct (response_type_flags _ _ Hresponse Htype) as [Hne _].
    eapply answers_last in Ha as (_ & _ & Ht & Hid); [by eapply Hother|done..]. }
  destruct (Z.eqb_spec (Z.land (hdr_flags header) FTAP_FRAME_FLAG_SERVER_PUSH) 0) as [_|Hpush]; cbn [negb].
  2:{ assert (∀ type, response_type message_type type →
        hdr_message_type header = type → hdr_request_id header = request_id → False) as Hother.
      { intros type Htype Ht _. apply Hpush. destruct (response_type_flags _ _ Hresponse Htype) as [_ Hf].
        apply Hf. rewrite <- Ht. apply Hvalid. }
      destruct (Z.eqb_spec (hdr_message_type header) FTAP_MSG_SESSION_REVOKED).
      { cbv zeta. do 3 wp_step. apply Hfail; [apply set_protocol_error_local|by right|done]. }
      destruct (Z.eqb_spec (hdr_message_type header) FTAP_MSG_SESSION_AUTHZ_CHANGED); wp_step.
      2:{ apply Hfail; [apply set_local_error_local|by left|done]. }
      split_and!; try done. exists (ms ++ [(header, payload)]). split.
      - apply Forall_app. split; [done|]. constructor; [|constructor]. by split.
      - by rewrite frames_bytes_snoc, Hr. }
  destruct (Z.eqb_spec (hdr_request_id header) request_id) as [Hid|]; cbn [negb].
  2:{ wp_step. apply Hfail; [apply set_local_error_local|by left|done]. }
  assert (∀ type, hdr_message_type header = type →
    answers (cl_state s) type request_id (frames_bytes ms ++ frame_bytes header payload) header payload) as Hanswer.
  { intros type Htype. split; try done. by exists ms. }
  destruct (Z.eqb_spec (hdr_message_type header) FTAP_MSG_ERROR) as [Herror|Hnot].
  - assert (message_ok (cl_state s) header payload) as [Hha (fs & -> & Hw & Hfs)] by done.
    rewrite Herror in Hfs. change (message_rules _ _) with error_rules in Hfs.
    destruct (parse_error_frame_spec response fs tail error Hp Hl Hok) as (e' & Hrun & He).
    { by apply Hha. } { done. } { done. }
    wp_step. eapply wp_lift; [exact Hrun|]. wp_step. split; [done|]. eexists. split; [exact Hr|].
    right. split; [done|]. split; [by left|]. right. exists header, fs. by split; [apply Hanswer|].
  - destruct (Z.eqb_spec (hdr_message_type header) message_type) as [Htype|]; cbn [negb]; wp_step.
    2:{ apply Hfail; [apply set_local_error_local|by left|]. intros type [->|Ht]; congruence. }
    split; [done|]. eexists. split; [exact Hr|]. left. split_and!; try done. exists payload.
    split; [|by apply Hanswer]. split; [done|]. by exists tail.
Qed.
End responses.

(** ** What the parsers of the results read *)

Section results.
Context `{Inet}.

(** A status, and what is stored with success. *)
Definition gives {S} (value : run (ftap_status * S)) (status : ftap_status) (s : S) : Prop :=
  ∃ s', value = Some (status, s') ∧ (status = FTAP_STATUS_OK → s' = s).

(** [parse_result] for a body that stores or refuses. *)
Lemma parse_result_spec {S} (body : ftap_tlv → S → run (ftap_status * S)) (status : field → ftap_status)
    (store : field → S → S) (Inv : S → Prop) frame fs zero t1 t2 t3 error :
  (∀ t f s, Inv s → tlv_is t f → wire_ok f →
     gives (body t s) (status f) (store f s)) →
  (∀ f s, Inv s → wire_ok f → status f = FTAP_STATUS_OK → Inv (store f s)) →
  Inv zero → Forall wire_ok fs → frame_holds frame (payload_of fs) →
  zlen (payload_of fs) <= FTAP_MAX_PAYLOAD_SIZE →
  ∃ e, local_error error e ∧
    parse_result frame body zero t1 t2 t3 error =
      Some (if forallb (λ f, status_ok (status f)) fs then (Some (stored store fs zero), error)
            else (None, e)).
Proof.
  intros Hbody Hinv Hz Hw [Hl (tail & Hp & Hok)] Hmax. unfold parse_result. rewrite Hp, Hl.
  destruct (loop_stored
    (λ status (_ : ftap_tlv), set_local_error error status Errno.EPROTO t2)
    (λ status _, set_local_error error status Errno.EPROTO t2)
    (λ field s, let! (status, s) := body field s in
       Some (if negb (status_ok status)
             then Return (set_local_error error status Errno.EPROTO t3) else Continue s))
    (λ f, status_ok (status f)) store
    (λ f _, set_local_error error (status f) Errno.EPROTO t3) Inv)
    with (fs := fs) (tail := tail) (s := zero) as (r & -> & Hloop); try done.
  { intros t f s Hs Ht Hf. destruct (Hbody t f s Hs Ht Hf) as (s' & -> & Hs'). run_simpl.
    destruct (status_ok (status f)) eqn:E; [|done]. apply status_ok_spec in E. by rewrite Hs'. }
  { intros f s Hs Hf E. apply Hinv; [done|done|]. by apply status_ok_spec. }
  change (negb (status_ok FTAP_STATUS_OK)) with false. cbv iota. unfold deref. run_simpl.
  destruct (forallb _ fs).
  - destruct Hloop as [-> _]. run_simpl. exists (set_local_error error FTAP_STATUS_OK 0 []).
    split; [apply set_local_error_local|done].
  - destruct Hloop as (f & s' & ->). run_simpl. eexists. split; [|done]. apply set_local_error_local.
Qed.

(** *** The bodies of the [switch] statements *)

Definition fixed_status (size : Z) (f : field) : ftap_status :=
  if zlen (f_value f) =? size then FTAP_STATUS_OK else FTAP_STATUS_ERR_LENGTH.

Definition text_fits (maximum : Z) (failure : ftap_status) (f : field) : ftap_status :=
  if zlen (f_value f) <=? maximum then FTAP_STATUS_OK else failure.

Definition equal_status (expected : list Z) (f : field) : ftap_status :=
  if bool_decide (f_value f = expected) then FTAP_STATUS_OK else FTAP_STATUS_ERR_INVALID_VALUE.

Definition constant_status (maximum : Z) (expected : list Z) (f : field) : ftap_status :=
  if zlen (f_value f) <=? maximum
  then if bool_decide (cstr (f_value f) = expected) then FTAP_STATUS_OK else FTAP_STATUS_ERR_INVALID_VALUE
  else FTAP_STATUS_ERR_INVALID_VALUE.

Section values.
Context {S : Type} (t : ftap_tlv) (f : field) (Ht : tlv_is t f) (s : S).

Lemma gives_uuid member (store : list Z → S) :
  zlen member = FTAP_UUID_SIZE →
  gives (get_uuid t member store s) (fixed_status FTAP_UUID_SIZE f) (store (f_value f)).
Proof.
  intros Hm. unfold get_uuid, fixed_status. rewrite (get_uuid_value t f) by done.
  case_if; run_simpl; by eexists.
Qed.

Lemma gives_u64 member (store : Z → S) :
  gives (get_u64 t member store s) (fixed_status 8 f) (store (be_val (f_value f))).
Proof.
  unfold get_u64, fixed_status, ftap_tlv_get_u64. change 8 with (Z.of_nat 8).
  rewrite (get_word_value 8 _ t f) by (done || exact read_u64_be_spec). case_if; run_simpl; by eexists.
Qed.

Lemma gives_text failure maximum member (store : list Z → S) :
  failure ≠ FTAP_STATUS_OK → zlen member = maximum + 1 →
  gives (get_text failure t member store s) (text_fits maximum failure f)
    (store (put_string (f_value f) member)).
Proof.
  intros Hne Hm. unfold get_text, text_fits. rewrite copy_text_field_same, (copy_field_text_spec t f Ht).
  rewrite (fits_array _ _ maximum) by done. case_if; run_simpl; by eexists.
Qed.

Lemma gives_equal expected : gives (require_equal t expected s) (equal_status expected f) s.
Proof.
  destruct Ht as (_ & _ & Hl & _ & tail & Hp & _).
  unfold require_equal, field_text_equals, equal_status. rewrite Hl, Hp.
  destruct (Z.eqb_spec (zlen (f_value f)) (zlen expected)) as [E|E]; cbn [negb].
  - unfold deref. run_simpl. rewrite <- E, buf_read_prefix. run_simpl. eexists. split; [|done].
    by case_bool_decide.
  - run_simpl. rewrite bool_decide_false; [by eexists|]. congruence.
Qed.

Lemma gives_constant maximum expected member (store : list Z → S) :
  zlen member = maximum + 1 →
  gives (get_constant t expected member store s) (constant_status maximum expected f)
    (store (put_string (f_value f) member)).
Proof.
  intros Hm. unfold get_constant, constant_status. rewrite copy_text_field_same, (copy_field_text_spec t f Ht).
  rewrite (fits_array _ _ maximum) by done. case_if; run_simpl; rewrite ?cstr_put_string; by eexists.
Qed.

Lemma gives_nothing status : status ≠ FTAP_STATUS_OK → ∀ s', gives (Some (status, s)) status s'.
Proof. intros Hne s'. by eexists. Qed.

Lemma gives_seeing index seen value status s' :
  gives value status s' → gives (@seeing S index seen value) status (s', <[index := true]> seen).
Proof.
  intros (s1 & -> & Hs1). unfold seeing. run_simpl. eexists. split; [done|]. intros ->. by rewrite Hs1.
Qed.
End values.
End results.

(** *** The context of a terminal session *)

(** A member that the code copies as it is, and one that it reads as a number. *)
Definition uuid_member (type : Z) (fs : list field) : list Z :=
  default (zeros FTAP_UUID_SIZE) (value_of type fs).
Definition word_member (type : Z) (fs : list field) : Z := be_val (required_value type fs).

(** What the context contains after the fields [fs]. *)
Record context_of (fs : list field) (c : ftap_terminal_context) : Prop := {
  xo_user : tc_user_id c = uuid_member FTAP_FIELD_USER_ID fs;
  xo_session : tc_session_id c = uuid_member FTAP_FIELD_SESSION_ID fs;
  xo_login : holds FTAP_FIELD_LOGIN_NAME fs (tc_login_name c);
  xo_display : holds FTAP_FIELD_DISPLAY_NAME fs (tc_display_name c);
  xo_legacy : holds FTAP_FIELD_LEGACY_NAME fs (tc_legacy_name c);
  xo_protocol : holds FTAP_FIELD_PROTOCOL fs (tc_protocol c);
  xo_method : holds FTAP_FIELD_AUTH_METHOD fs (tc_auth_method c);
  xo_epoch : tc_auth_epoch c = word_member FTAP_FIELD_AUTH_EPOCH fs;
  xo_revision : tc_authz_revision c = word_member FTAP_FIELD_AUTHZ_REVISION fs;
}.

Record context_sized (c : ftap_terminal_context) : Prop := {
  xs_user : zlen (tc_user_id c) = FTAP_UUID_SIZE;
  xs_session : zlen (tc_session_id c) = FTAP_UUID_SIZE;
  xs_login : zlen (tc_login_name c) = FTAP_LOGIN_NAME_MAX + 1;
  xs_display : zlen (tc_display_name c) = FTAP_DISPLAY_NAME_MAX + 1;
  xs_legacy : zlen (tc_legacy_name c) = FTAP_LEGACY_NAME_MAX + 1;
  xs_protocol : zlen (tc_protocol c) = FTAP_PROTOCOL_NAME_MAX + 1;
  xs_method : zlen (tc_auth_method c) = FTAP_AUTH_METHOD_MAX + 1;
}.

(** A field of the context, as [parse_terminal_context] and
    [parse_registration_commit_context] store it. *)
Definition store_terminal_field (f : field) (c : ftap_terminal_context) : ftap_terminal_context :=
  let v := f_value f in
  let case type := f_type f =? type in
  if case FTAP_FIELD_USER_ID then tc_set_user_id v c
  else if case FTAP_FIELD_SESSION_ID then tc_set_session_id v c
  else if case FTAP_FIELD_LOGIN_NAME then tc_set_login_name (put_string v (tc_login_name c)) c
  else if case FTAP_FIELD_DISPLAY_NAME then tc_set_display_name (put_string v (tc_display_name c)) c
  else if case FTAP_FIELD_LEGACY_NAME then tc_set_legacy_name (put_string v (tc_legacy_name c)) c
  else if case FTAP_FIELD_PROTOCOL then tc_set_protocol (put_string v (tc_protocol c)) c
  else if case FTAP_FIELD_AUTH_METHOD then tc_set_auth_method (put_string v (tc_auth_method c)) c
  else if case FTAP_FIELD_AUTH_EPOCH then tc_set_auth_epoch (be_val v) c
  else if case FTAP_FIELD_AUTHZ_REVISION then tc_set_authz_revision (be_val v) c
  else c.

Definition terminal_status (include_transport : bool) (f : field) : ftap_status :=
  let case type := f_type f =? type in
  if case FTAP_FIELD_USER_ID || case FTAP_FIELD_SESSION_ID then fixed_status FTAP_UUID_SIZE f
  else if case FTAP_FIELD_LOGIN_NAME then text_fits FTAP_LOGIN_NAME_MAX FTAP_STATUS_ERR_LENGTH f
  else if case FTAP_FIELD_DISPLAY_NAME then text_fits FTAP_DISPLAY_NAME_MAX FTAP_STATUS_ERR_LENGTH f
  else if case FTAP_FIELD_LEGACY_NAME then text_fits FTAP_LEGACY_NAME_MAX FTAP_STATUS_ERR_LENGTH f
  else if case FTAP_FIELD_PROTOCOL && include_transport
  then text_fits FTAP_PROTOCOL_NAME_MAX FTAP_STATUS_ERR_INVALID_MESSAGE f
  else if case FTAP_FIELD_AUTH_METHOD && include_transport
  then text_fits FTAP_AUTH_METHOD_MAX FTAP_STATUS_ERR_INVALID_MESSAGE f
  else if case FTAP_FIELD_AUTH_EPOCH || case FTAP_FIELD_AUTHZ_REVISION then fixed_status 8 f
  else if case FTAP_FIELD_CAPABILITY then FTAP_STATUS_OK
  else FTAP_STATUS_ERR_INVALID_MESSAGE.

Lemma uuid_member_same type fs f : f_type f = type → uuid_member type (fs ++ [f]) = f_value f.
Proof. intros E. unfold uuid_member. by rewrite value_of_snoc, E, Z.eqb_refl. Qed.

Lemma uuid_member_other type fs f :
  f_type f ≠ type → uuid_member type (fs ++ [f]) = uuid_member type fs.
Proof. intros E. unfold uuid_member. by rewrite value_of_other. Qed.

Lemma word_member_same type fs f : f_type f = type → word_member type (fs ++ [f]) = be_val (f_value f).
Proof. intros E. unfold word_member. by rewrite required_snoc_same. Qed.

Lemma word_member_other type fs f :
  f_type f ≠ type → word_member type (fs ++ [f]) = word_member type fs.
Proof. intros E. unfold word_member. by rewrite required_snoc_other. Qed.

Ltac solve_context :=
  first
    [ solve_member
    | rewrite uuid_member_same by assumption; reflexivity
    | rewrite uuid_member_other by first [assumption | other_type]; assumption
    | rewrite word_member_same by assumption; reflexivity
    | rewrite word_member_other by first [assumption | other_type]; assumption ].

Lemma store_terminal_field_of fs c f :
  context_of fs c → context_of (fs ++ [f]) (store_terminal_field f c).
Proof.
  intros []. unfold store_terminal_field. repeat case_if; bools; split; cbn; solve_context.
Qed.

Lemma stored_terminal fs : context_of fs (stored store_terminal_field fs zero_terminal_context).
Proof.
  induction fs as [|f fs IH] using rev_ind; [by split|].
  unfold stored. rewrite foldl_app. cbn [foldl]. by apply store_terminal_field_of.
Qed.

Section terminal.
Context `{Inet}.

Lemma terminal_field_spec include_transport t f c :
  context_sized c → tlv_is t f → wire_ok f →
  gives (terminal_field include_transport t c) (terminal_status include_transport f)
    (store_terminal_field f c).
Proof.
  intros [] Ht Hw. unfold terminal_field. pose proof Ht as (-> & _).
  unfold terminal_status, store_terminal_field.
  field_case f FTAP_FIELD_USER_ID; [by apply gives_uuid|].
  field_case f FTAP_FIELD_SESSION_ID; [by apply gives_uuid|]. cbn [orb].
  field_case f FTAP_FIELD_LOGIN_NAME; [by apply gives_text|].
  field_case f FTAP_FIELD_DISPLAY_NAME; [by apply gives_text|].
  field_case f FTAP_FIELD_LEGACY_NAME; [by apply gives_text|].
  field_case f FTAP_FIELD_PROTOCOL.
  { destruct include_transport; [by apply gives_text|]. rewrite E4. by apply gives_nothing. }
  cbn [andb]. field_case f FTAP_FIELD_AUTH_METHOD.
  { destruct include_transport; [by apply gives_text|]. rewrite E5. by apply gives_nothing. }
  cbn [andb]. field_case f FTAP_FIELD_AUTH_EPOCH; [by apply gives_u64|].
  field_case f FTAP_FIELD_AUTHZ_REVISION; [by apply gives_u64|]. cbn [orb].
  field_case f FTAP_FIELD_CAPABILITY; [by eexists|]. by apply gives_nothing.
Qed.
End terminal.

(** A text that fits keeps the size of the array. *)
Lemma put_string_size v array maximum :
  zlen array = maximum + 1 → zlen v <= maximum → zlen (put_string v array) = maximum + 1.
Proof.
  intros Ha Hv. unfold put_string. rewrite zlen_app, zlen_cons, zlen_drop. unfold zlen in *. lia.
Qed.

Lemma fixed_status_ok size f : fixed_status size f = FTAP_STATUS_OK ↔ zlen (f_value f) = size.
Proof. unfold fixed_status. case_if; bools; by split. Qed.

Lemma text_fits_ok maximum failure f :
  failure ≠ FTAP_STATUS_OK → text_fits maximum failure f = FTAP_STATUS_OK ↔ zlen (f_value f) <= maximum.
Proof. intros Hne. unfold text_fits. case_if; bools; split; try done; lia. Qed.

Section terminal_validated.
Context `{Inet}.

Lemma store_terminal_field_sized include_transport f c :
  context_sized c → terminal_status include_transport f = FTAP_STATUS_OK →
  context_sized (store_terminal_field f c).
Proof.
  intros Hc. unfold terminal_status, store_terminal_field.
  field_case f FTAP_FIELD_USER_ID; [|field_case f FTAP_FIELD_SESSION_ID;
    [|field_case f FTAP_FIELD_LOGIN_NAME; [|field_case f FTAP_FIELD_DISPLAY_NAME;
    [|field_case f FTAP_FIELD_LEGACY_NAME; [|field_case f FTAP_FIELD_PROTOCOL;
    [|field_case f FTAP_FIELD_AUTH_METHOD; [|field_case f FTAP_FIELD_AUTH_EPOCH;
    [|field_case f FTAP_FIELD_AUTHZ_REVISION; [|done]]]]]]]]]; cbn [orb andb]; destruct Hc;
    try (destruct include_transport; cbn [andb]); rewrite ?fixed_status_ok, ?text_fits_ok by done;
    intros Hst; try (rewrite E4 in Hst; done); try (rewrite E5 in Hst; done);
    split; cbn; try done; by apply put_string_size.
Qed.

(** What validation says about the length of a value. *)
Lemma validated_length message_type f k :
  wire_ok f → value_ok message_type f → field_kind (f_type f) = Some k →
  match k with
  | KText maximum | KEnum maximum _ | KName maximum _ _ => zlen (f_value f) <= maximum
  | KFixed size => zlen (f_value f) = size
  | _ => True
  end.
Proof.
  intros Hw Hv Hk. destruct k; try done.
  - by eapply (validated_text message_type f).
  - destruct Hv as [(k' & Hk' & Hv) _]. rewrite Hk in Hk'. by injection Hk' as <-.
  - by eapply (validated_text message_type f).
  - destruct Hv as [(k' & Hk' & Hv) _]. rewrite Hk in Hk'. injection Hk' as <-. apply Hv.
Qed.

Definition context_rules (include_transport : bool) : list ftap_field_rule :=
  if include_transport then session_context_result_rules else auth_password_result_rules.

Lemma terminal_status_validated message_type include_transport fs f :
  fields_ok message_type (context_rules include_transport) fs → Forall wire_ok fs → f ∈ fs →
  status_ok (terminal_status include_transport f) = ftap_field_type_is_known (f_type f).
Proof.
  intros Hfs Hw Hin. pose proof (proj1 (Forall_forall _ _) Hw f Hin) as Hf.
  destruct (ftap_field_type_is_known (f_type f)) eqn:Hk.
  - destruct (fields_known _ _ _ Hfs f Hin Hk) as [Hv (rule & Hr & Ht)].
    pose proof (λ k, validated_length message_type f k Hf Hv) as Hlen.
    apply status_ok_spec. unfold terminal_status. rewrite <- Ht in *.
    destruct include_transport; unfold context_rules, session_context_result_rules, auth_password_result_rules in Hr;
      rewrite !elem_of_cons, elem_of_nil in Hr;
      repeat destruct Hr as [->|Hr]; try done; cbv beta iota zeta; cbn [rule_type RULE_REQUIRED] in *;
      first [apply fixed_status_ok | apply text_fits_ok; [done|]]; exact (Hlen _ eq_refl).
  - unfold terminal_status. other_types f Hk.
Qed.

(** [parse_terminal_context] of a response that the schema accepted: it fails
    exactly on fields that the protocol does not know. *)
Lemma parse_terminal_context_spec message_type include_transport frame fs error :
  fields_ok message_type (context_rules include_transport) fs → Forall wire_ok fs →
  frame_holds frame (payload_of fs) → zlen (payload_of fs) <= FTAP_MAX_PAYLOAD_SIZE →
  ∃ c e, context_of fs c ∧ local_error error e ∧
    parse_terminal_context frame include_transport error =
      Some (if known_fields fs then (Some c, error) else (None, e)).
Proof.
  intros Hfs Hw Hframe Hmax. unfold parse_terminal_context.
  destruct (parse_result_spec (terminal_field include_transport) (terminal_status include_transport)
    store_terminal_field context_sized frame fs zero_terminal_context
    (lit "invalid FTAP session context") (lit "invalid FTAP session context field")
    (lit "invalid FTAP session context value") error) as (e & He & ->); try done.
  { intros t f s Hs Ht Hf. by apply terminal_field_spec. }
  { intros f s Hs _ Hst. by eapply store_terminal_field_sized. }
  exists (stored store_terminal_field fs zero_terminal_context), e.
  split; [apply stored_terminal|]. split; [done|]. do 2 f_equal. unfold known_fields.
  assert (forallb (λ f, status_ok (terminal_status include_transport f)) fs =
    forallb (λ f, ftap_field_type_is_known (f_type f)) fs) as ->; [|done].
  apply eq_true_iff_eq. rewrite !forallb_Forall, !Forall_forall.
  split; intros Hall f Hin; [rewrite <- (terminal_status_validated message_type include_transport fs)
    |rewrite (terminal_status_validated message_type include_transport fs)]; auto.
Qed.
End terminal_validated.

(** *** Results whose fields are counted *)

(** The array [seen] after a field: the position of its type is set. *)
Definition mark (types : list Z) (f : field) (seen : list bool) : list bool :=
  zip_with (λ type b, (f_type f =? type) || b) types seen.

Definition store_seen {S} (types : list Z) (store : field → S → S) (f : field) (s : S * list bool)
    : S * list bool := (store f s.1, mark types f s.2).

Lemma mark_length types f seen : length seen = length types → length (mark types f seen) = length types.
Proof. intros Hl. unfold mark. rewrite length_zip_with. lia. Qed.

Lemma mark_present types fs f :
  mark types f (map (λ type, present type fs) types) = map (λ type, present type (fs ++ [f])) types.
Proof.
  unfold mark. induction types as [|type types IH]; [done|]. cbn [map zip_with].
  by rewrite IH, present_snoc.
Qed.

Lemma stored_seen {S} types (store : field → S → S) fs s :
  stored (store_seen types store) fs (s, replicate (length types) false) =
    (stored store fs s, map (λ type, present type fs) types).
Proof.
  induction fs as [|f fs IH] using rev_ind.
  - cbn. f_equal. induction types as [|type types IH]; [done|]. cbn. by f_equal.
  - unfold stored in *. rewrite !foldl_app, IH. cbn [foldl]. unfold store_seen. cbn [fst snd].
    by rewrite mark_present.
Qed.

Section counted.
Context `{Inet} {S : Type} (types : list Z) (status : field → ftap_status) (store : field → S → S).
Context (sized : S → Prop) (body : ftap_tlv → S * list bool → run (ftap_status * (S * list bool))).
Context (Hbody : ∀ t f s, sized s.1 → length s.2 = length types → tlv_is t f → wire_ok f →
  gives (body t s) (status f) (store_seen types store f s)).
Context (Hsized : ∀ f s, sized s → status f = FTAP_STATUS_OK → sized (store f s)).

(** The parser of a response that the schema accepted. *)
Lemma parse_counted frame fs zero incomplete t1 t2 t3 error :
  sized zero → Forall wire_ok fs → frame_holds frame (payload_of fs) →
  zlen (payload_of fs) <= FTAP_MAX_PAYLOAD_SIZE →
  (∀ f, f ∈ fs → status_ok (status f) = ftap_field_type_is_known (f_type f)) →
  (∀ type, type ∈ types → present type fs = true) →
  ∃ e, local_error error e ∧
    require_seen incomplete
      (parse_result frame body (zero, replicate (length types) false) t1 t2 t3 error) =
      Some (if known_fields fs then (Some (stored store fs zero), error) else (None, e)).
Proof.
  intros Hz Hw Hframe Hmax Hknown Hpresent.
  destruct (parse_result_spec body status (store_seen types store)
    (λ s, sized s.1 ∧ length s.2 = length types) frame fs (zero, replicate (length types) false)
    t1 t2 t3 error) as (e & He & ->); try done.
  { intros t f s [Hs Hl] Ht Hf. by apply Hbody. }
  { intros f s [Hs Hl] _ Hst. split; [by apply Hsized|]. by apply mark_length. }
  { split; [done|]. apply length_replicate. }
  assert (forallb (λ f, status_ok (status f)) fs = known_fields fs) as ->.
  { unfold known_fields. apply eq_true_iff_eq. rewrite !forallb_Forall, !Forall_forall.
    split; intros Hall f Hin; [rewrite <- Hknown|rewrite Hknown]; auto. }
  exists e. split; [done|]. destruct (known_fields fs); [|done]. rewrite stored_seen.
  unfold require_seen. run_simpl.
  assert (forallb id (map (λ type, present type fs) types) = true) as ->; [|done].
  rewrite forallb_Forall, Forall_fmap, Forall_forall. exact Hpresent.
Qed.
End counted.

(** *** The context of a registration *)

Record registration_of (fs : list field) (r : ftap_registration_context) : Prop := {
  yo_id : rg_registration_id r = uuid_member FTAP_FIELD_REGISTRATION_ID fs;
  yo_user : rg_user_id r = uuid_member FTAP_FIELD_USER_ID fs;
  yo_login : holds FTAP_FIELD_LOGIN_NAME fs (rg_login_name r);
  yo_display : holds FTAP_FIELD_DISPLAY_NAME fs (rg_display_name r);
  yo_legacy : holds FTAP_FIELD_LEGACY_NAME fs (rg_legacy_name r);
}.

Record registration_sized (r : ftap_registration_context) : Prop := {
  ys_id : zlen (rg_registration_id r) = FTAP_UUID_SIZE;
  ys_user : zlen (rg_user_id r) = FTAP_UUID_SIZE;
  ys_login : zlen (rg_login_name r) = FTAP_LOGIN_NAME_MAX + 1;
  ys_display : zlen (rg_display_name r) = FTAP_DISPLAY_NAME_MAX + 1;
  ys_legacy : zlen (rg_legacy_name r) = FTAP_LEGACY_NAME_MAX + 1;
}.

Definition begin_types : list Z :=
  [FTAP_FIELD_REGISTRATION_ID; FTAP_FIELD_REGISTRATION_STATE; FTAP_FIELD_USER_ID;
   FTAP_FIELD_LOGIN_NAME; FTAP_FIELD_DISPLAY_NAME; FTAP_FIELD_LEGACY_NAME; FTAP_FIELD_ACCOUNT_STATE].

Definition store_begin_field (f : field) (r : ftap_registration_context) : ftap_registration_context :=
  let v := f_value f in
  let case type := f_type f =? type in
  if case FTAP_FIELD_REGISTRATION_ID then rg_set_registration_id v r
  else if case FTAP_FIELD_USER_ID then rg_set_user_id v r
  else if case FTAP_FIELD_LOGIN_NAME then rg_set_login_name (put_string v (rg_login_name r)) r
  else if case FTAP_FIELD_DISPLAY_NAME then rg_set_display_name (put_string v (rg_display_name r)) r
  else if case FTAP_FIELD_LEGACY_NAME then rg_set_legacy_name (put_string v (rg_legacy_name r)) r
  else r.

Definition begin_status (f : field) : ftap_status :=
  let case type := f_type f =? type in
  if case FTAP_FIELD_REGISTRATION_ID then fixed_status FTAP_UUID_SIZE f
  else if case FTAP_FIELD_REGISTRATION_STATE
  then equal_status FTAP_REGISTRATION_STATE_PENDING_LEGACY f
  else if case FTAP_FIELD_USER_ID then fixed_status FTAP_UUID_SIZE f
  else if case FTAP_FIELD_LOGIN_NAME then text_fits FTAP_LOGIN_NAME_MAX FTAP_STATUS_ERR_LENGTH f
  else if case FTAP_FIELD_DISPLAY_NAME then text_fits FTAP_DISPLAY_NAME_MAX FTAP_STATUS_ERR_LENGTH f
  else if case FTAP_FIELD_LEGACY_NAME then text_fits FTAP_LEGACY_NAME_MAX FTAP_STATUS_ERR_LENGTH f
  else if case FTAP_FIELD_ACCOUNT_STATE then equal_status FTAP_ACCOUNT_STATE_PENDING f
  else FTAP_STATUS_ERR_INVALID_MESSAGE.

Lemma stored_begin fs : registration_of fs (stored store_begin_field fs zero_registration_context).
Proof.
  induction fs as [|f fs IH] using rev_ind; [by split|].
  unfold stored in *. rewrite foldl_app. cbn [foldl]. destruct IH.
  unfold store_begin_field at 1. repeat case_if; bools; split; cbn; solve_context.
Qed.

Lemma gives_same {S} (value : run (ftap_status * S)) status s s' :
  gives value status s → s = s' → gives value status s'.
Proof. by intros ? <-. Qed.

(** A case of a [switch] that records that its field was seen. *)
Tactic Notation "seen_case" reference(types) reference(store) uconstr(lem) :=
  eapply gives_same;
  [ by apply gives_seeing, lem
  | lazymatch goal with
    | E : f_type _ = _ |- _ =>
        unfold store_seen, mark, types, store, store_terminal_field; cbn [fst snd zip_with];
        rewrite E; reflexivity
    end ].

Section begin.
Context `{Inet}.

Lemma registration_begin_field_spec t f s :
  registration_sized s.1 → length s.2 = length begin_types → tlv_is t f → wire_ok f →
  gives (registration_begin_field t s) (begin_status f) (store_seen begin_types store_begin_field f s).
Proof.
  destruct s as [r seen]. cbn [fst snd]. intros Hs Hl Ht Hw.
  do 7 (destruct seen as [|? seen]; [done|]). destruct seen; [|done].
  destruct Hs. unfold registration_begin_field. pose proof Ht as (-> & _).
  unfold begin_status.
  field_case f FTAP_FIELD_REGISTRATION_ID; [seen_case begin_types store_begin_field gives_uuid|].
  field_case f FTAP_FIELD_REGISTRATION_STATE; [seen_case begin_types store_begin_field gives_equal|].
  field_case f FTAP_FIELD_USER_ID; [seen_case begin_types store_begin_field gives_uuid|].
  field_case f FTAP_FIELD_LOGIN_NAME; [seen_case begin_types store_begin_field gives_text|].
  field_case f FTAP_FIELD_DISPLAY_NAME; [seen_case begin_types store_begin_field gives_text|].
  field_case f FTAP_FIELD_LEGACY_NAME; [seen_case begin_types store_begin_field gives_text|].
  field_case f FTAP_FIELD_ACCOUNT_STATE; [seen_case begin_types store_begin_field gives_equal|]. by apply gives_nothing.
Qed.

Lemma store_begin_field_sized f r :
  registration_sized r → begin_status f = FTAP_STATUS_OK → registration_sized (store_begin_field f r).
Proof.
  intros Hr. unfold begin_status, store_begin_field.
  field_case f FTAP_FIELD_REGISTRATION_ID; [|field_case f FTAP_FIELD_REGISTRATION_STATE;
    [rewrite E0; done|field_case f FTAP_FIELD_USER_ID; [|field_case f FTAP_FIELD_LOGIN_NAME;
    [|field_case f FTAP_FIELD_DISPLAY_NAME; [|field_case f FTAP_FIELD_LEGACY_NAME; [|done]]]]]];
    destruct Hr; rewrite ?fixed_status_ok, ?text_fits_ok by done; intros Hst;
    split; cbn; try done; by apply put_string_size.
Qed.

Lemma equal_status_ok expected f : equal_status expected f = FTAP_STATUS_OK ↔ f_value f = expected.
Proof. unfold equal_status. by case_bool_decide. Qed.

(** What validation says about a value that only one message has. *)
Lemma validated_restricted message_type f expected :
  value_ok message_type f → (message_type, f_type f, [expected]) ∈ restrictions →
  f_value f = expected.
Proof. intros (_ & _ & Hr) Hin. apply Hr in Hin. by apply list_elem_of_singleton in Hin. Qed.

Lemma begin_status_validated fs f :
  fields_ok FTAP_MSG_REGISTRATION_BEGIN_RESULT registration_begin_result_rules fs →
  Forall wire_ok fs → f ∈ fs →
  status_ok (begin_status f) = ftap_field_type_is_known (f_type f).
Proof.
  intros Hfs Hw Hin. pose proof (proj1 (Forall_forall _ _) Hw f Hin) as Hf.
  destruct (ftap_field_type_is_known (f_type f)) eqn:Hk.
  - destruct (fields_known _ _ _ Hfs f Hin Hk) as [Hv (rule & Hr & Ht)].
    pose proof (λ k, validated_length _ f k Hf Hv) as Hlen.
    pose proof (λ e, validated_restricted _ f e Hv) as Heq.
    apply status_ok_spec. unfold begin_status. rewrite <- Ht in *.
    unfold registration_begin_result_rules in Hr. rewrite !elem_of_cons, elem_of_nil in Hr.
    repeat destruct Hr as [->|Hr]; try done; cbv beta iota zeta; cbn [rule_type RULE_REQUIRED] in *;
      first [ apply fixed_status_ok; exact (Hlen _ eq_refl)
            | apply text_fits_ok; [done|]; exact (Hlen _ eq_refl)
            | apply equal_status_ok, Heq; apply (bool_decide_unpack _); vm_compute; exact I ].
  - unfold begin_status. other_types f Hk.
Qed.

Lemma parse_registration_begin_context_spec frame fs error :
  fields_ok FTAP_MSG_REGISTRATION_BEGIN_RESULT registration_begin_result_rules fs →
  Forall wire_ok fs → frame_holds frame (payload_of fs) →
  zlen (payload_of fs) <= FTAP_MAX_PAYLOAD_SIZE →
  ∃ r e, registration_of fs r ∧ local_error error e ∧
    parse_registration_begin_context frame error =
      Some (if known_fields fs then (Some r, error) else (None, e)).
Proof.
  intros Hfs Hw Hframe Hmax. unfold parse_registration_begin_context.
  destruct (parse_counted begin_types begin_status store_begin_field registration_sized
    registration_begin_field) with (frame := frame) (fs := fs) (zero := zero_registration_context)
    (incomplete := lit "incomplete FTAP registration begin result")
    (t1 := lit "invalid FTAP registration begin result")
    (t2 := lit "invalid FTAP registration begin field")
    (t3 := lit "invalid FTAP registration begin value") (error := error) as (e & He & Hrun); try done.
  { intros. by apply registration_begin_field_spec. }
  { apply store_begin_field_sized. }
  { intros. by eapply begin_status_validated. }
  { intros type Hin. eapply fields_ok_present; [exact Hfs|].
    unfold begin_types in Hin. rewrite !elem_of_cons, elem_of_nil in Hin.
    repeat destruct Hin as [->|Hin]; try done; by repeat constructor. }
  exists (stored store_begin_field fs zero_registration_context), e.
  split; [apply stored_begin|]. split; [done|]. exact Hrun.
Qed.
End begin.

(** *** The result of a commit *)

Definition commit_types : list Z :=
  [FTAP_FIELD_REGISTRATION_ID; FTAP_FIELD_REGISTRATION_STATE; FTAP_FIELD_USER_ID; FTAP_FIELD_SESSION_ID;
   FTAP_FIELD_LOGIN_NAME; FTAP_FIELD_DISPLAY_NAME; FTAP_FIELD_LEGACY_NAME; FTAP_FIELD_ACCOUNT_STATE;
   FTAP_FIELD_PROTOCOL; FTAP_FIELD_AUTH_METHOD; FTAP_FIELD_AUTH_EPOCH; FTAP_FIELD_AUTHZ_REVISION].

Definition store_commit_field (f : field) (s : list Z * ftap_terminal_context)
    : list Z * ftap_terminal_context :=
  (if f_type f =? FTAP_FIELD_REGISTRATION_ID then f_value f else s.1, store_terminal_field f s.2).

Definition commit_status (f : field) : ftap_status :=
  let case type := f_type f =? type in
  if case FTAP_FIELD_REGISTRATION_ID then fixed_status FTAP_UUID_SIZE f
  else if case FTAP_FIELD_REGISTRATION_STATE then equal_status FTAP_REGISTRATION_STATE_COMPLETED f
  else if case FTAP_FIELD_USER_ID then fixed_status FTAP_UUID_SIZE f
  else if case FTAP_FIELD_SESSION_ID then fixed_status FTAP_UUID_SIZE f
  else if case FTAP_FIELD_LOGIN_NAME then text_fits FTAP_LOGIN_NAME_MAX FTAP_STATUS_ERR_LENGTH f
  else if case FTAP_FIELD_DISPLAY_NAME then text_fits FTAP_DISPLAY_NAME_MAX FTAP_STATUS_ERR_LENGTH f
  else if case FTAP_FIELD_LEGACY_NAME then text_fits FTAP_LEGACY_NAME_MAX FTAP_STATUS_ERR_LENGTH f
  else if case FTAP_FIELD_ACCOUNT_STATE then equal_status FTAP_ACCOUNT_STATE_ACTIVE f
  else if case FTAP_FIELD_PROTOCOL then constant_status FTAP_PROTOCOL_NAME_MAX FTAP_PROTOCOL_TELNET f
  else if case FTAP_FIELD_AUTH_METHOD
  then constant_status FTAP_AUTH_METHOD_MAX FTAP_AUTH_METHOD_PASSWORD f
  else if case FTAP_FIELD_AUTH_EPOCH then fixed_status 8 f
  else if case FTAP_FIELD_AUTHZ_REVISION then fixed_status 8 f
  else if case FTAP_FIELD_CAPABILITY then FTAP_STATUS_OK
  else FTAP_STATUS_ERR_INVALID_MESSAGE.

Definition commit_sized (s : list Z * ftap_terminal_context) : Prop :=
  zlen s.1 = FTAP_UUID_SIZE ∧ context_sized s.2.

Lemma stored_commit fs id c :
  stored store_commit_field fs (id, c) =
    (default id (value_of FTAP_FIELD_REGISTRATION_ID fs), stored store_terminal_field fs c).
Proof.
  induction fs as [|f fs IH] using rev_ind; [done|].
  unfold stored in *. rewrite !foldl_app, IH. cbn [foldl]. unfold store_commit_field. cbn [fst snd].
  rewrite value_of_snoc. by case_if.
Qed.

Lemma constant_status_ok maximum expected f :
  zlen expected <= maximum → cstr expected = expected →
  f_value f = expected → constant_status maximum expected f = FTAP_STATUS_OK.
Proof.
  intros Hl Hc Hv. unfold constant_status. rewrite Hv, (proj2 (Z.leb_le _ _)) by done.
  rewrite Hc. by rewrite bool_decide_true.
Qed.

Lemma constant_status_fits maximum expected f :
  constant_status maximum expected f = FTAP_STATUS_OK → zlen (f_value f) <= maximum.
Proof. unfold constant_status. case_if; bools; [done|done]. Qed.

Section commit.
Context `{Inet}.

Lemma registration_commit_field_spec t f s :
  commit_sized s.1 → length s.2 = length commit_types → tlv_is t f → wire_ok f →
  gives (registration_commit_field t s) (commit_status f) (store_seen commit_types store_commit_field f s).
Proof.
  destruct s as [[id c] seen]. cbn [fst snd]. intros [Hid Hs] Hl Ht Hw. cbn [fst snd] in *.
  do 12 (destruct seen as [|? seen]; [done|]). destruct seen; [|done].
  destruct Hs. unfold registration_commit_field. pose proof Ht as (-> & _).
  unfold commit_status.
  field_case f FTAP_FIELD_REGISTRATION_ID; [seen_case commit_types store_commit_field gives_uuid|].
  field_case f FTAP_FIELD_REGISTRATION_STATE; [seen_case commit_types store_commit_field gives_equal|].
  field_case f FTAP_FIELD_USER_ID; [seen_case commit_types store_commit_field gives_uuid|].
  field_case f FTAP_FIELD_SESSION_ID; [seen_case commit_types store_commit_field gives_uuid|].
  field_case f FTAP_FIELD_LOGIN_NAME; [seen_case commit_types store_commit_field gives_text|].
  field_case f FTAP_FIELD_DISPLAY_NAME; [seen_case commit_types store_commit_field gives_text|].
  field_case f FTAP_FIELD_LEGACY_NAME; [seen_case commit_types store_commit_field gives_text|].
  field_case f FTAP_FIELD_ACCOUNT_STATE; [seen_case commit_types store_commit_field gives_equal|].
  field_case f FTAP_FIELD_PROTOCOL; [seen_case commit_types store_commit_field gives_constant|].
  field_case f FTAP_FIELD_AUTH_METHOD; [seen_case commit_types store_commit_field gives_constant|].
  field_case f FTAP_FIELD_AUTH_EPOCH; [seen_case commit_types store_commit_field gives_u64|].
  field_case f FTAP_FIELD_AUTHZ_REVISION; [seen_case commit_types store_commit_field gives_u64|].
  field_case f FTAP_FIELD_CAPABILITY; [|by apply gives_nothing].
  eexists. split; [done|]. intros _. unfold store_seen, mark, commit_types, store_commit_field.
  cbn [fst snd zip_with]. unfold store_terminal_field. rewrite E11. reflexivity.
Qed.

Lemma store_commit_field_sized f s :
  commit_sized s → commit_status f = FTAP_STATUS_OK → commit_sized (store_commit_field f s).
Proof.
  destruct s as [id c]. intros [Hid Hc] Hst. unfold store_commit_field. cbn [fst snd] in *.
  split; cbn [fst snd]; revert Hst; unfold commit_status.
  { field_case f FTAP_FIELD_REGISTRATION_ID; [|done]. apply fixed_status_ok. }
  assert (∀ n, f_type f = n → store_terminal_field (Field n (f_flags f) (f_value f)) c = c →
    context_sized (store_terminal_field f c)) as Hsame by (intros n E Hn; destruct f; cbn in *; subst; by rewrite Hn).
  assert (terminal_status true f = FTAP_STATUS_OK → context_sized (store_terminal_field f c)) as Hstored
    by (intros Ht; by eapply store_terminal_field_sized).
  unfold terminal_status in Hstored.
  field_case f FTAP_FIELD_REGISTRATION_ID; [intros _; by apply (Hsame _ E)|].
  field_case f FTAP_FIELD_REGISTRATION_STATE; [intros _; by apply (Hsame _ E0)|].
  field_case f FTAP_FIELD_USER_ID; [done|].
  field_case f FTAP_FIELD_SESSION_ID; [done|].
  field_case f FTAP_FIELD_LOGIN_NAME; [done|].
  field_case f FTAP_FIELD_DISPLAY_NAME; [done|].
  field_case f FTAP_FIELD_LEGACY_NAME; [done|].
  field_case f FTAP_FIELD_ACCOUNT_STATE; [intros _; by apply (Hsame _ E6)|].
  field_case f FTAP_FIELD_PROTOCOL.
  { intros Hst%constant_status_fits. apply Hstored. by apply text_fits_ok. }
  field_case f FTAP_FIELD_AUTH_METHOD.
  { intros Hst%constant_status_fits. apply Hstored. by apply text_fits_ok. }
  field_case f FTAP_FIELD_AUTH_EPOCH; [done|].
  field_case f FTAP_FIELD_AUTHZ_REVISION; [done|].
  field_case f FTAP_FIELD_CAPABILITY; done.
Qed.

Lemma commit_status_validated fs f :
  fields_ok FTAP_MSG_REGISTRATION_COMMIT_RESULT registration_commit_result_rules fs →
  Forall wire_ok fs → f ∈ fs →
  status_ok (commit_status f) = ftap_field_type_is_known (f_type f).
Proof.
  intros Hfs Hw Hin. pose proof (proj1 (Forall_forall _ _) Hw f Hin) as Hf.
  destruct (ftap_field_type_is_known (f_type f)) eqn:Hk.
  - destruct (fields_known _ _ _ Hfs f Hin Hk) as [Hv (rule & Hr & Ht)].
    pose proof (λ k, validated_length _ f k Hf Hv) as Hlen.
    pose proof (λ e, validated_restricted _ f e Hv) as Heq.
    assert (f_type f = FTAP_FIELD_AUTH_METHOD → f_value f = FTAP_AUTH_METHOD_PASSWORD) as Hmethod.
    { intros E. destruct Hv as [(k & Hkind & Hv) _]. rewrite E in Hkind. injection Hkind as <-.
      by apply list_elem_of_singleton in Hv. }
    apply status_ok_spec. unfold commit_status. rewrite <- Ht in *.
    unfold registration_commit_result_rules in Hr. rewrite !elem_of_cons, elem_of_nil in Hr.
    repeat destruct Hr as [->|Hr]; try done; cbv beta iota zeta; cbn [rule_type RULE_REQUIRED] in *;
      first [ apply fixed_status_ok; exact (Hlen _ eq_refl)
            | apply text_fits_ok; [done|]; exact (Hlen _ eq_refl)
            | apply equal_status_ok, Heq; apply (bool_decide_unpack _); vm_compute; exact I
            | apply constant_status_ok; [done|done|]; by apply Hmethod
            | apply constant_status_ok; [done|done|]; apply Heq;
              apply (bool_decide_unpack _); vm_compute; exact I ].
  - unfold commit_status. other_types f Hk.
Qed.

(** The result of a commit is about the registration. *)
Definition result_identity (registration : ftap_registration_context) (fs : list field) : bool :=
  let text type := cstr (required_value type fs) in
  bool_decide (uuid_member FTAP_FIELD_REGISTRATION_ID fs = rg_registration_id registration)
  && bool_decide (uuid_member FTAP_FIELD_USER_ID fs = rg_user_id registration)
  && bool_decide (text FTAP_FIELD_LOGIN_NAME = cstr (rg_login_name registration))
  && bool_decide (text FTAP_FIELD_DISPLAY_NAME = cstr (rg_display_name registration))
  && bool_decide (text FTAP_FIELD_LEGACY_NAME = cstr (rg_legacy_name registration)).

Lemma result_identity_of registration fs c :
  context_of fs c →
  same_identity registration (uuid_member FTAP_FIELD_REGISTRATION_ID fs) c = result_identity registration fs.
Proof.
  intros [Huser _ Hlogin Hdisplay Hlegacy _ _ _ _]. unfold same_identity, result_identity, holds in *.
  by rewrite Huser, Hlogin, Hdisplay, Hlegacy.
Qed.

Lemma parse_registration_commit_context_spec frame registration fs error :
  fields_ok FTAP_MSG_REGISTRATION_COMMIT_RESULT registration_commit_result_rules fs →
  Forall wire_ok fs → frame_holds frame (payload_of fs) →
  zlen (payload_of fs) <= FTAP_MAX_PAYLOAD_SIZE →
  ∃ c e, context_of fs c ∧ local_error error e ∧
    parse_registration_commit_context frame registration error =
      Some (if known_fields fs
               && result_identity registration fs
            then (Some c, error) else (None, e)).
Proof.
  intros Hfs Hw Hframe Hmax. unfold parse_registration_commit_context.
  destruct (parse_counted commit_types commit_status store_commit_field commit_sized
    registration_commit_field) with (frame := frame) (fs := fs)
    (zero := (zeros FTAP_UUID_SIZE, zero_terminal_context))
    (incomplete := lit "incomplete FTAP registration commit result")
    (t1 := lit "invalid FTAP registration commit result")
    (t2 := lit "invalid FTAP registration commit field")
    (t3 := lit "invalid FTAP registration commit value") (error := error) as (e & He & Hrun); try done.
  { intros. by apply registration_commit_field_spec. }
  { apply store_commit_field_sized. }
  { intros. by eapply commit_status_validated. }
  { intros type Hin. eapply fields_ok_present; [exact Hfs|].
    unfold commit_types in Hin. rewrite !elem_of_cons, elem_of_nil in Hin.
    repeat destruct Hin as [->|Hin]; try done; by repeat constructor. }
  change (replicate (length commit_types) false) with (replicate 12 false) in Hrun. rewrite Hrun.
  exists (stored store_terminal_field fs zero_terminal_context).
  destruct (known_fields fs); run_simpl.
  - rewrite stored_commit. eexists. split; [apply stored_terminal|].
    fold (uuid_member FTAP_FIELD_REGISTRATION_ID fs). cbn [andb].
    rewrite (result_identity_of _ _ (stored store_terminal_field fs zero_terminal_context)) by apply stored_terminal.
    split; [|by destruct (result_identity _ _)]. apply set_local_error_local.
  - exists e. split; [apply stored_terminal|]. by split.
Qed.
End commit.

(** *** The result of an abort *)

Definition abort_types : list Z :=
  [FTAP_FIELD_REGISTRATION_ID; FTAP_FIELD_REGISTRATION_STATE; FTAP_FIELD_USER_ID].

Definition store_abort_field (f : field) (s : list Z * list Z) : list Z * list Z :=
  (if f_type f =? FTAP_FIELD_REGISTRATION_ID then f_value f else s.1,
   if f_type f =? FTAP_FIELD_USER_ID then f_value f else s.2).

Definition abort_status (f : field) : ftap_status :=
  let case type := f_type f =? type in
  if case FTAP_FIELD_REGISTRATION_ID then fixed_status FTAP_UUID_SIZE f
  else if case FTAP_FIELD_REGISTRATION_STATE then equal_status FTAP_REGISTRATION_STATE_ABORTED f
  else if case FTAP_FIELD_USER_ID then fixed_status FTAP_UUID_SIZE f
  else FTAP_STATUS_ERR_INVALID_MESSAGE.

Definition abort_sized (s : list Z * list Z) : Prop :=
  zlen s.1 = FTAP_UUID_SIZE ∧ zlen s.2 = FTAP_UUID_SIZE.

Lemma stored_abort fs id user_id :
  stored store_abort_field fs (id, user_id) =
    (default id (value_of FTAP_FIELD_REGISTRATION_ID fs), default user_id (value_of FTAP_FIELD_USER_ID fs)).
Proof.
  induction fs as [|f fs IH] using rev_ind; [done|].
  unfold stored in *. rewrite !foldl_app, IH. cbn [foldl]. unfold store_abort_field. cbn [fst snd].
  rewrite !value_of_snoc. by repeat case_if.
Qed.

(** Whether the result is about this registration. *)
Definition same_registration (registration : ftap_registration_context) (fs : list field) : bool :=
  bool_decide (uuid_member FTAP_FIELD_REGISTRATION_ID fs = rg_registration_id registration)
  && bool_decide (uuid_member FTAP_FIELD_USER_ID fs = rg_user_id registration).

Section abort.
Context `{Inet}.

Lemma registration_abort_field_spec t f s :
  abort_sized s.1 → length s.2 = length abort_types → tlv_is t f → wire_ok f →
  gives (registration_abort_field t s) (abort_status f) (store_seen abort_types store_abort_field f s).
Proof.
  destruct s as [[id user_id] seen]. cbn [fst snd]. intros [Hid Huser] Hl Ht Hw. cbn [fst snd] in *.
  do 3 (destruct seen as [|? seen]; [done|]). destruct seen; [|done].
  unfold registration_abort_field. pose proof Ht as (-> & _). unfold abort_status.
  field_case f FTAP_FIELD_REGISTRATION_ID; [seen_case abort_types store_abort_field gives_uuid|].
  field_case f FTAP_FIELD_REGISTRATION_STATE; [seen_case abort_types store_abort_field gives_equal|].
  field_case f FTAP_FIELD_USER_ID; [seen_case abort_types store_abort_field gives_uuid|].
  by apply gives_nothing.
Qed.

Lemma store_abort_field_sized f s :
  abort_sized s → abort_status f = FTAP_STATUS_OK → abort_sized (store_abort_field f s).
Proof.
  destruct s as [id user_id]. intros [Hid Hu]. unfold abort_status, store_abort_field, abort_sized. cbn [fst snd] in *.
  field_case f FTAP_FIELD_REGISTRATION_ID; [rewrite E, fixed_status_ok; done|].
  field_case f FTAP_FIELD_REGISTRATION_STATE; [rewrite E0; done|].
  field_case f FTAP_FIELD_USER_ID; [rewrite fixed_status_ok|]; done.
Qed.

Lemma abort_status_validated fs f :
  fields_ok FTAP_MSG_REGISTRATION_ABORT_RESULT registration_abort_result_rules fs →
  Forall wire_ok fs → f ∈ fs →
  status_ok (abort_status f) = ftap_field_type_is_known (f_type f).
Proof.
  intros Hfs Hw Hin. pose proof (proj1 (Forall_forall _ _) Hw f Hin) as Hf.
  destruct (ftap_field_type_is_known (f_type f)) eqn:Hk.
  - destruct (fields_known _ _ _ Hfs f Hin Hk) as [Hv (rule & Hr & Ht)].
    pose proof (λ k, validated_length _ f k Hf Hv) as Hlen.
    pose proof (λ e, validated_restricted _ f e Hv) as Heq.
    apply status_ok_spec. unfold abort_status. rewrite <- Ht in *.
    unfold registration_abort_result_rules in Hr. rewrite !elem_of_cons, elem_of_nil in Hr.
    repeat destruct Hr as [->|Hr]; try done; cbv beta iota zeta; cbn [rule_type RULE_REQUIRED] in *;
      first [ apply fixed_status_ok; exact (Hlen _ eq_refl)
            | apply equal_status_ok, Heq; apply (bool_decide_unpack _); vm_compute; exact I ].
  - unfold abort_status. other_types f Hk.
Qed.

Lemma parse_registration_abort_result_spec frame registration fs error :
  fields_ok FTAP_MSG_REGISTRATION_ABORT_RESULT registration_abort_result_rules fs →
  Forall wire_ok fs → frame_holds frame (payload_of fs) →
  zlen (payload_of fs) <= FTAP_MAX_PAYLOAD_SIZE →
  ∃ e, local_error error e ∧
    parse_registration_abort_result frame registration error =
      Some (if known_fields fs && same_registration registration fs then (true, error) else (false, e)).
Proof.
  intros Hfs Hw Hframe Hmax. unfold parse_registration_abort_result.
  destruct (parse_counted abort_types abort_status store_abort_field abort_sized
    registration_abort_field) with (frame := frame) (fs := fs)
    (zero := (zeros FTAP_UUID_SIZE, zeros FTAP_UUID_SIZE))
    (incomplete := lit "incomplete FTAP registration abort result")
    (t1 := lit "invalid FTAP registration abort result")
    (t2 := lit "invalid FTAP registration abort field")
    (t3 := lit "invalid FTAP registration abort value") (error := error) as (e & He & Hrun); try done.
  { intros. by apply registration_abort_field_spec. }
  { apply store_abort_field_sized. }
  { intros. by eapply abort_status_validated. }
  { intros type Hin. eapply fields_ok_present; [exact Hfs|].
    unfold abort_types in Hin. rewrite !elem_of_cons, elem_of_nil in Hin.
    repeat destruct Hin as [->|Hin]; try done; by repeat constructor. }
  change (replicate (length abort_types) false) with (replicate 3 false) in Hrun. rewrite Hrun.
  destruct (known_fields fs); run_simpl.
  - rewrite stored_abort. eexists.
    fold (uuid_member FTAP_FIELD_REGISTRATION_ID fs) (uuid_member FTAP_FIELD_USER_ID fs).
    change (_ && _) with (same_registration registration fs). cbn [andb].
    split; [|by destruct (same_registration registration fs)]. apply set_local_error_local.
  - exists e. by split.
Qed.
End abort.
