(* ===== verification/ClientCalls.v ===== *)
(** * The calls of the FTAP client

    What a call sends for its arguments, and what it returns: a call has a result
    exactly if its request was sent and a response came that it accepts, and the
    result is what the response says. [call_post] states this once for the calls
    of [ftap_client.c]. *)

From S2P Require Import Prelude Protocol Words Utf8 Codec Inet Schema Program Client Requests FtapClient.
From S2P Require Import ClientSpec.

(** ** Requests *)

(** What a put contributes: its fields, or nothing if it refuses. *)
Definition offers (put : option ftap_tlv_writer → run (ftap_status * option ftap_tlv_writer))
    (fields : option (list field)) : Prop :=
  match fields with
  | Some [] => ∀ w, put (Some w) = Some (FTAP_STATUS_OK, Some w)
  | Some [f] => puts put f
  | Some _ => False
  | None => ∀ w, writer_ok w → ∃ s, status_ok s = false ∧ put (Some w) = Some (s, Some w)
  end.

(** A run of puts that was refused. *)
Definition refused (st : run (ftap_status * option ftap_tlv_writer)) : Prop :=
  ∃ s w, st = Some (s, Some w) ∧ status_ok s = false.

(** The fields of a sequence of puts, unless one of them refuses. *)
Fixpoint offered (fields : list (option (list field))) : option (list field) :=
  match fields with
  | [] => Some []
  | fs :: fields => fs ← fs; gs ← offered fields; Some (fs ++ gs)
  end.

Lemma refused_put st put : refused st → refused (st >>? put).
Proof.
  intros (s & w & -> & Hs). unfold and_put. run_simpl. rewrite Hs. by exists s, w.
Qed.

Lemma refused_fold st ps : refused st → refused (fold_left and_put ps st).
Proof. revert st. induction ps as [|p ps IH]; intros st Hs; [done|]. by apply IH, refused_put. Qed.

Lemma payload_zlen_app fs gs : zlen (payload_of (fs ++ gs)) = zlen (payload_of fs) + zlen (payload_of gs).
Proof. by rewrite payload_of_app, zlen_app. Qed.

Lemma refused_full capacity st fs p f :
  writes_in capacity st fs → puts p f → capacity < zlen (payload_of (fs ++ [f])) →
  refused (st >>? p).
Proof.
  intros (w & -> & Hw & Hcap & Hc) [_ Hput] Hover. unfold and_put. run_simpl.
  change (status_ok FTAP_STATUS_OK) with true. cbv iota. rewrite Hput by done.
  exists (put_status w f), (put_writer w f). split; [done|].
  revert Hover. rewrite payload_zlen_app, <- Hc, contents_zlen by done.
  change (payload_of [f]) with (tlv_bytes f ++ []). rewrite app_nil_r, <- Hcap.
  unfold put_status. intros Hover. case_if; [done|].
  by rewrite (proj2 (Z.ltb_lt _ _)) by done.
Qed.

(** Building a payload: all its fields if none is refused and they fit. *)
Lemma build_fold capacity st fs ps offers_ :
  writes_in capacity st fs → Forall2 offers ps offers_ → capacity <= FTAP_MAX_PAYLOAD_SIZE →
  match offered offers_ with
  | Some gs =>
      if zlen (payload_of (fs ++ gs)) <=? capacity
      then writes_in capacity (fold_left and_put ps st) (fs ++ gs)
      else refused (fold_left and_put ps st)
  | None => refused (fold_left and_put ps st)
  end.
Proof.
  intros Hst Hps Hmax. revert st fs Hst. induction Hps as [|p o ps os Hp Hps IH]; intros st fs Hst.
  - cbn. rewrite app_nil_r. destruct Hst as (w & -> & Hw & Hcap & Hc).
    pose proof (contents_zlen w Hw) as Hl. destruct Hw as (b & Hb & Hbl & Hlen).
    rewrite (proj2 (Z.leb_le _ _)) by (rewrite <- Hc, Hl; lia).
    exists w. split; [done|]. split; [by exists b|]. done.
  - cbn [fold_left offered]. destruct o as [[|f [|]]|]; cbn [mbind option_bind]; try done.
    + assert (writes_in capacity (st >>? p) fs) as Hst'.
      { destruct Hst as (w & -> & Hw). unfold and_put. run_simpl.
        change (status_ok FTAP_STATUS_OK) with true. cbv iota. rewrite Hp. by exists w. }
      specialize (IH _ _ Hst'). by destruct (offered os).
    + destruct (decide (zlen (payload_of (fs ++ [f])) <= capacity)) as [Hfit|Hover].
      * pose proof (writes_put capacity st fs p f Hst Hp (conj Hfit Hmax)) as Hst'.
        specialize (IH _ _ Hst'). destruct (offered os) as [gs|]; [|done].
        by rewrite <- app_assoc in IH.
      * assert (refused (fold_left and_put ps (st >>? p))) as Hr.
        { eapply refused_fold, refused_full; [done|done|lia]. }
        destruct (offered os) as [gs|]; [|done]. cbn [mbind option_bind].
        rewrite (proj2 (Z.leb_gt _ _)); [done|].
        rewrite app_assoc, payload_zlen_app.
        pose proof (zlen_nonneg (payload_of gs)). lia.
    + apply refused_fold. destruct Hst as (w & -> & Hw & _). unfold and_put. run_simpl.
      change (status_ok FTAP_STATUS_OK) with true. cbv iota. destruct (Hp w Hw) as (s & Hs & ->).
      by exists s, w.
Qed.

(** *** The puts of the requests *)

Definition text_offer (n maximum : Z) (v : list Z) : option (list field) :=
  if (zlen v <=? maximum) && utf8_ok v then Some [Field n 0 v] else None.

Definition optional_offer (n maximum : Z) (text : ptr) : option (list field) :=
  match text with
  | Some text => text_offer n maximum (cstr text)
  | None => Some []
  end.

(** A text argument may be null. *)
Definition text_ok (text : ptr) : Prop := ∀ l, text = Some l → bytes_ok l.

Lemma offers_bytes n maximum data tail :
  field_number n → bytes_ok (data ++ tail) → maximum <= UINT32_MAX →
  offers (put_bytes n maximum (data ++ tail) (zlen data)) (text_offer n maximum data).
Proof.
  intros Hn Hok Hmax. unfold text_offer.
  pose proof (λ w, put_data_cases n maximum data tail w Hn Hok Hmax) as Hput.
  destruct (_ && _) eqn:E.
  - assert (writer_ok (TlvWriter (Some []) 0 0)) as Hw by (exists []; split; [done|vm_compute; repeat split; congruence]).
    split; [by apply (Hput _ Hw)|]. intros w' Hw'. by apply (Hput w' Hw').
  - intros w Hw. apply (Hput w Hw).
Qed.

Lemma offers_text n maximum text :
  field_number n → bytes_ok text → maximum <= UINT32_MAX →
  offers (put_text n maximum text) (text_offer n maximum (cstr text)).
Proof.
  intros Hn Hok Hmax. destruct (cstr_split text) as [tail Ht].
  pose proof (offers_bytes n maximum (cstr text) tail Hn) as Ho. rewrite <- Ht in Ho. by apply Ho.
Qed.

Lemma offers_optional n maximum text :
  field_number n → text_ok text → maximum <= UINT32_MAX →
  offers (put_optional n maximum text) (optional_offer n maximum text).
Proof.
  intros Hn Hok Hmax. destruct text as [text|]; [|done]. apply offers_text; [done|by apply Hok|done].
Qed.

Lemma offers_uuid n uuid : field_number n → uuid_ok uuid → offers (put_uuid n uuid) (Some [Field n 0 uuid]).
Proof. intros Hn [Hok Hl]. by apply puts_uuid. Qed.

Lemma offers_u16 n v : field_number n → offers (put_u16 n v) (Some [Field n 0 (be_bytes 2 v)]).
Proof.
  intros Hn. eapply puts_word; [done|reflexivity|lia|]. intros w. unfold put_u16, ftap_tlv_writer_put_u16.
  rewrite write_u16_be_spec, (buf_write_in [0; 0]) by (vm_compute; done). run_simpl.
  cbn [length Nat.add drop take Z.to_nat]. rewrite be_bytes_length. done.
Qed.

Lemma payload_writer_start size :
  0 < size <= FTAP_MAX_PAYLOAD_SIZE → writes_in size (payload_writer size) [].
Proof.
  intros Hsize. unfold payload_writer, ftap_tlv_writer_init. cbn [is_null orb].
  eexists. split; [reflexivity|]. split; [|done].
  exists (zeros size). cbn. rewrite zlen_zeros by lia. split; [done|]. lia.
Qed.

(** What a payload contains that is not refused. *)
Definition built (capacity : Z) (st : run (ftap_status * option ftap_tlv_writer))
    (fields : option (list field)) : Prop :=
  match fields with
  | Some fs => if zlen (payload_of fs) <=? capacity then writes_in capacity st fs else refused st
  | None => refused st
  end.

Lemma built_payload size ps fields :
  0 < size <= FTAP_MAX_PAYLOAD_SIZE → Forall2 offers ps fields →
  built size (fold_left and_put ps (payload_writer size)) (offered fields).
Proof.
  intros Hsize Hps. pose proof (build_fold size (payload_writer size) [] ps fields
    (payload_writer_start size Hsize) Hps ltac:(lia)) as Hb.
  unfold built. by destruct (offered fields).
Qed.

Ltac by_built :=
  lazymatch goal with
  | |- built ?size ?st ?fields =>
      let l := chain_puts st
        (@nil (option ftap_tlv_writer → run (ftap_status * option ftap_tlv_writer))) in
      lazymatch l with
      | (?start, ?ps) =>
          change (built size (fold_left and_put ps start) fields);
          apply built_payload; [vm_compute; split; congruence|]
      end
  end.

Ltac solve_offers :=
  repeat (constructor;
    [first
      [ apply offers_text; [field_number | first [assumption | apply lit_bytes_ok] | vm_compute; congruence]
      | apply offers_bytes; [field_number | assumption | vm_compute; congruence]
      | apply offers_optional; [field_number | assumption | vm_compute; congruence]
      | apply offers_uuid; [field_number | assumption]
      | apply offers_u16; field_number ] |]); constructor.

Definition hello_offer (client_name client_version : list Z) : option (list field) :=
  offered
    [text_offer FTAP_FIELD_CLIENT_NAME FTAP_CLIENT_NAME_MAX (cstr client_name);
     text_offer FTAP_FIELD_CLIENT_VERSION FTAP_CLIENT_VERSION_MAX (cstr client_version);
     Some [Field FTAP_FIELD_SUPPORTED_MAJOR 0 (be_bytes 2 FTAP_VERSION_MAJOR)];
     Some [Field FTAP_FIELD_SUPPORTED_MINOR 0 (be_bytes 2 FTAP_VERSION_MINOR)]].

Definition password_offer (login_name password protocol : list Z) (metadata : ftap_metadata)
    : option (list field) :=
  offered
    [text_offer FTAP_FIELD_LOGIN_NAME FTAP_LOGIN_NAME_MAX (cstr login_name);
     text_offer FTAP_FIELD_PASSWORD FTAP_PASSWORD_MAX password;
     text_offer FTAP_FIELD_PROTOCOL FTAP_PROTOCOL_NAME_MAX (cstr protocol);
     optional_offer FTAP_FIELD_SOURCE_IP FTAP_IP_ADDRESS_MAX (md_source_ip metadata);
     optional_offer FTAP_FIELD_TTY_DEVICE FTAP_TTY_DEVICE_MAX (md_tty_device metadata);
     optional_offer FTAP_FIELD_NODE_ID FTAP_NODE_ID_MAX (md_node_id metadata);
     text_offer FTAP_FIELD_AUTH_METHOD FTAP_AUTH_METHOD_MAX (cstr FTAP_AUTH_METHOD_PASSWORD)].

Definition begin_offer (login_name display_name password protocol source_ip : list Z)
    (metadata : ftap_metadata) : option (list field) :=
  offered
    [text_offer FTAP_FIELD_LOGIN_NAME FTAP_LOGIN_NAME_MAX (cstr login_name);
     text_offer FTAP_FIELD_DISPLAY_NAME FTAP_DISPLAY_NAME_MAX (cstr display_name);
     text_offer FTAP_FIELD_PASSWORD FTAP_PASSWORD_MAX password;
     text_offer FTAP_FIELD_PROTOCOL FTAP_PROTOCOL_NAME_MAX (cstr protocol);
     text_offer FTAP_FIELD_SOURCE_IP FTAP_IP_ADDRESS_MAX (cstr source_ip);
     optional_offer FTAP_FIELD_TTY_DEVICE FTAP_TTY_DEVICE_MAX (md_tty_device metadata);
     optional_offer FTAP_FIELD_NODE_ID FTAP_NODE_ID_MAX (md_node_id metadata);
     text_offer FTAP_FIELD_AUTH_METHOD FTAP_AUTH_METHOD_MAX (cstr FTAP_AUTH_METHOD_PASSWORD)].

Definition commit_offer (registration : ftap_registration_context) : option (list field) :=
  offered [Some [Field FTAP_FIELD_REGISTRATION_ID 0 (rg_registration_id registration)]].

Definition abort_offer (registration : ftap_registration_context) (reason : ptr) : option (list field) :=
  offered
    [Some [Field FTAP_FIELD_REGISTRATION_ID 0 (rg_registration_id registration)];
     optional_offer FTAP_FIELD_REGISTRATION_REASON FTAP_REGISTRATION_REASON_MAX reason].

Definition close_offer (reason : ptr) : option (list field) :=
  offered [optional_offer FTAP_FIELD_ENDED_REASON FTAP_ENDED_REASON_MAX reason].

(** The texts of the metadata are bytes. *)
Record metadata_ok (metadata : ftap_metadata) : Prop := {
  mo_protocol : text_ok (md_protocol metadata);
  mo_source_ip : text_ok (md_source_ip metadata);
  mo_tty : text_ok (md_tty_device metadata);
  mo_node : text_ok (md_node_id metadata);
}.

Lemma hello_payload_built client_name client_version :
  bytes_ok client_name → bytes_ok client_version →
  built 256 (hello_payload client_name client_version) (hello_offer client_name client_version).
Proof. intros. unfold hello_payload, hello_offer. by_built. solve_offers. Qed.

Lemma password_payload_built login_name password tail protocol metadata :
  bytes_ok login_name → bytes_ok (password ++ tail) → bytes_ok protocol → metadata_ok metadata →
  built FTAP_MAX_PAYLOAD_SIZE
    (password_payload login_name (password ++ tail) (zlen password) protocol metadata)
    (password_offer login_name password protocol metadata).
Proof. intros ? ? ? []. unfold password_payload, password_offer. by_built. solve_offers. Qed.

Lemma begin_payload_built login_name display_name password tail protocol source_ip metadata :
  bytes_ok login_name → bytes_ok display_name → bytes_ok (password ++ tail) → bytes_ok protocol →
  bytes_ok source_ip → metadata_ok metadata →
  built FTAP_MAX_PAYLOAD_SIZE
    (begin_payload login_name display_name (password ++ tail) (zlen password) protocol source_ip metadata)
    (begin_offer login_name display_name password protocol source_ip metadata).
Proof. intros ? ? ? ? ? []. unfold begin_payload, begin_offer. by_built. solve_offers. Qed.

Lemma commit_payload_built registration :
  uuid_ok (rg_registration_id registration) →
  built (FTAP_TLV_HEADER_SIZE + FTAP_UUID_SIZE) (commit_payload registration) (commit_offer registration).
Proof. intros. unfold commit_payload, commit_offer. by_built. solve_offers. Qed.

Lemma abort_payload_built registration reason :
  uuid_ok (rg_registration_id registration) → text_ok reason →
  built (FTAP_TLV_HEADER_SIZE + FTAP_UUID_SIZE + FTAP_TLV_HEADER_SIZE + FTAP_REGISTRATION_REASON_MAX)
    (abort_payload registration reason) (abort_offer registration reason).
Proof. intros. unfold abort_payload, abort_offer. by_built. solve_offers. Qed.

Lemma close_payload_built reason :
  text_ok reason →
  built (FTAP_TLV_HEADER_SIZE + FTAP_ENDED_REASON_MAX) (close_payload reason) (close_offer reason).
Proof. intros. unfold close_payload, close_offer. by_built. solve_offers. Qed.

(** ** Calls *)

(** The client after it has used a request identifier. *)
Definition next_id (id : Z) : Z :=
  if u64 (id + 1) <? FTAP_FIRST_CLIENT_REQUEST_ID then FTAP_FIRST_CLIENT_REQUEST_ID else u64 (id + 1).

Definition used_id (s : ftap_client) : ftap_client := set_cl_next_request_id (next_id (cl_next_request_id s)) s.

(** Identifiers are never that of a notification. *)
Definition client_id_ok (s : ftap_client) : Prop :=
  FTAP_FIRST_CLIENT_REQUEST_ID <= cl_next_request_id s <= UINT64_MAX.

Lemma used_id_ok s : client_id_ok s → client_id_ok (used_id s).
Proof.
  unfold client_id_ok, used_id, next_id. cbn [cl_next_request_id set_cl_next_request_id].
  pose proof (fits_wrap 64 (cl_next_request_id s + 1) ltac:(lia)) as [H0 Hmax]. unfold u64.
  unfold UINT64_MAX. case_if; bools; unfold FTAP_FIRST_CLIENT_REQUEST_ID in *; change (2 ^ 64) with 18446744073709551616 in *; lia.
Qed.

(** The descriptor and the timeout of a client stay; identifiers stay valid. *)
Definition same_socket (s s' : ftap_client) : Prop :=
  cl_fd s' = cl_fd s ∧ cl_timeout_ms s' = cl_timeout_ms s ∧ (client_id_ok s → client_id_ok s').

Lemma same_socket_refl s : same_socket s s.
Proof. by split_and!. Qed.

Lemma same_socket_state s s' state : same_socket s s' → same_socket s (set_cl_state state s').
Proof. done. Qed.

Lemma same_socket_used s : same_socket s (used_id s).
Proof. split_and!; try done. apply used_id_ok. Qed.

Section calls.
Context `{Inet} `{ClientLaws}.
Context (fuel : nat).

Notation holds := (wp unfinished).

(** A call: where it is allowed, where its response is awaited and where it leads;
    whether its arguments are usable; its request, with the fields unless a put
    refuses one; its response and which responses it accepts; and how it reports
    that it has no such response. *)
Record call := Call {
  ca_before : ftap_connection_state;
  ca_waiting : ftap_connection_state;
  ca_after : ftap_connection_state;
  ca_usable : bool;
  ca_request : Z;
  ca_capacity : Z;
  ca_fields : option (list field);
  ca_result : Z;
  ca_accepts : list field → bool;
  ca_lost : option ftap_client_error → option ftap_client_error → Prop;
}.

(** The fields that are sent in a request of at most [capacity] bytes. *)
Definition sendable (capacity : Z) (fields : option (list field)) (fs : list field) : Prop :=
  fields = Some fs ∧ zlen (payload_of fs) <= capacity.

(** The call can be made, with a request of these fields. *)
Definition startable (c : call) (s : ftap_client) (fs : list field) : Prop :=
  ca_usable c = true ∧ cl_state s = ca_before c ∧ sendable (ca_capacity c) (ca_fields c) fs.

(** A request of this type with these fields has been sent. *)
Definition requested (s : ftap_client) (h h' : client_history) (message_type : Z) (fs : list field) : Prop :=
  sent h' = sent h ++ request_bytes message_type (cl_next_request_id s) (payload_of fs).

(** Only a part of it has been sent. *)
Definition cut_off (s : ftap_client) (h h' : client_history) (message_type : Z) (fs : list field)
    (error error' : option ftap_client_error) : Prop :=
  ∃ n, (n < length (request_bytes message_type (cl_next_request_id s) (payload_of fs)))%nat ∧
    sent h' = sent h ++ take n (request_bytes message_type (cl_next_request_id s) (payload_of fs)) ∧
    received h' = received h ∧ local_error error error'.

(** A response with these fields has been received. *)
Definition answered (s : ftap_client) (h h' : client_history) (state : ftap_connection_state)
    (message_type : Z) (rs : list field) : Prop :=
  ∃ data header, received h' = received h ++ data ∧ Forall wire_ok rs ∧
    answers state message_type (cl_next_request_id s) data header (payload_of rs).

(** The server reported an error. *)
Definition rejected (s : ftap_client) (h h' : client_history) (state : ftap_connection_state)
    (error error' : option ftap_client_error) : Prop :=
  ∃ rs, answered s h h' state FTAP_MSG_ERROR rs ∧
    match error, error' with
    | None, None => True
    | Some _, Some e => error_of rs e
    | _, _ => False
    end.

(** Nothing happened. *)
Definition untouched (s s' : ftap_client) (h h' : client_history)
    (error error' : option ftap_client_error) : Prop :=
  s' = s ∧ calm h h' ∧ local_error error error'.

(** How a call ends without a result once it has begun: its request was not sent as
    a whole, the server reported an error, or no response came that it accepts. *)
Inductive gave_up (c : call) (s : ftap_client) (h h' : client_history) (fs : list field)
    (error error' : option ftap_client_error) : Prop :=
| gave_up_sending : cut_off s h h' (ca_request c) fs error error' → gave_up c s h h' fs error error'
| gave_up_rejected :
    requested s h h' (ca_request c) fs → rejected s h h' (ca_waiting c) error error' →
    gave_up c s h h' fs error error'
| gave_up_lost :
    requested s h h' (ca_request c) fs → ca_lost c error error' →
    (∀ rs, ¬ answered s h h' (ca_waiting c) FTAP_MSG_ERROR rs) →
    (∀ rs, answered s h h' (ca_waiting c) (ca_result c) rs → ca_accepts c rs = false) →
    gave_up c s h h' fs error error'.

(** What a call does. It has a result exactly if its request was sent and a response
    came that it accepts, and the result is what the response says. *)
Definition call_post {A} (c : call) (value : list field → A → Prop)
    (error : option ftap_client_error) (s : ftap_client) (h : client_history)
    (answer : option A * option ftap_client_error) (s' : ftap_client) (h' : client_history) : Prop :=
  same_socket s s' ∧
  match answer with
  | (Some a, e) => ∃ fs rs, startable c s fs ∧ cl_state s' = ca_after c ∧
      e = ftap_client_error_clear error ∧ requested s h h' (ca_request c) fs ∧
      answered s h h' (ca_waiting c) (ca_result c) rs ∧ ca_accepts c rs = true ∧ value rs a
  | (None, e) =>
      (∀ fs, ¬ startable c s fs) ∧ untouched s s' h h' error e ∨
      ∃ fs, startable c s fs ∧ cl_state s' = FTAP_STATE_CLOSING ∧ gave_up c s h h' fs error e
  end.

(** A call that returns 0 or -1. *)
Definition coded (post : option unit * option ftap_client_error → ftap_client → client_history → Prop)
    (answer : Z * option ftap_client_error) (s' : ftap_client) (h' : client_history) : Prop :=
  (answer.1 = 0 ∨ answer.1 = -1) ∧ post (if answer.1 =? 0 then Some tt else None, answer.2) s' h'.

(** *** Sending and waiting *)

Lemma send_request_spec message_type capacity st fields text error s h :
  built capacity st fields →
  holds (send_request fuel message_type st text error)
    (λ r s' h', received h' = received h ∧
       match r with
       | inl (false, e) => (∀ fs, ¬ sendable capacity fields fs) ∧ s' = s ∧ sent h' = sent h ∧
           local_error error e
       | inl (true, e) => s' = used_id s ∧ local_error error e ∧ ∃ fs n, sendable capacity fields fs ∧
           sent h' = sent h ++ take n (request_bytes message_type (cl_next_request_id s) (payload_of fs)) ∧
           (n < length (request_bytes message_type (cl_next_request_id s) (payload_of fs)))%nat
       | inr (id, e) => s' = used_id s ∧ id = cl_next_request_id s ∧ e = error ∧
           ∃ fs, sendable capacity fields fs ∧
             sent h' = sent h ++ request_bytes message_type (cl_next_request_id s) (payload_of fs)
       end) s h.
Proof.
  intros Hb. unfold send_request. wp_step.
  assert ((refused st ∧ ∀ fs, ¬ sendable capacity fields fs) ∨
          (∃ fs, sendable capacity fields fs ∧ writes_in capacity st fs)) as Hcases.
  { unfold built in Hb. destruct fields as [fs|]; [|by left; split; [|intros fs [? _]]].
    destruct (Z.leb_spec (zlen (payload_of fs)) capacity) as [|Hover]; [by right; exists fs|].
    left. split; [done|]. intros fs' [[= <-] ?]. lia. }
  destruct Hcases as [[(status & w & -> & Hst) Hnone]|(fs & Hfs & w & -> & Hw & Hcap & Hc)].
  { eapply wp_lift; [reflexivity|].
    cbv beta iota. rewrite Hst. cbn [negb]. wp_step. split_and!; try done. apply set_local_error_local. }
  eapply wp_lift; [reflexivity|]. cbv beta iota. change (status_ok FTAP_STATUS_OK) with true. cbn [negb].
  wp_step. eapply wp_lift; [reflexivity|]. wp_step. unfold next_request_id.
  do 2 wp_step. wp_step. wp_step. wp_step. fold (next_id (cl_next_request_id s)). fold (used_id s).
  destruct (writer_payload w Hw) as [tail Htail].
  rewrite <- (contents_zlen w Hw), Hc. rewrite Hc in Htail.
  wp_step. eapply wp_mono; [apply send_frame_spec; right; by exists tail|].
  intros [r e] s' h' (-> & Hr & n & Hs & Hcase). wp_step.
  destruct Hcase as [(-> & -> & ->)|(-> & He & Hn)]; cbn [Z.eqb negb]; (split; [done|]).
  - split_and!; try done. exists fs. split; [done|]. rewrite Hs. by rewrite take_ge by lia.
  - split_and!; try done. by exists fs, n.
Qed.

(** What the schema guarantees of a response. *)
Lemma answered_fields s h h' state message_type rs :
  answered s h h' state message_type rs →
  fields_ok message_type (message_rules state message_type) rs ∧ Forall wire_ok rs ∧
  zlen (payload_of rs) <= FTAP_MAX_PAYLOAD_SIZE.
Proof.
  intros (data & header & _ & Hw & [_ _ [Hh (rs' & Hp & Hw' & Hfs)] Ht _]).
  apply payload_of_inj in Hp as <-; [|done..]. rewrite Ht in Hfs. split; [done|]. split; [done|]. apply Hh.
Qed.

(** There is one response at most. *)
Lemma answered_unique s h h' state type type' rs rs' :
  type ≠ FTAP_MSG_SESSION_AUTHZ_CHANGED → type' ≠ FTAP_MSG_SESSION_AUTHZ_CHANGED →
  answered s h h' state type rs → answered s h h' state type' rs' → type = type' ∧ rs = rs'.
Proof.
  intros Hne Hne' (data & header & Hr & Hw & Ha) (data' & header' & Hr' & Hw' & Ha').
  rewrite Hr in Hr'. apply app_inv_head in Hr' as <-.
  destruct (answers_unique _ _ _ _ _ _ _ _ _ Hne Hne' Ha Ha') as [-> Hp]. split; [done|].
  by apply payload_of_inj in Hp.
Qed.

(** The response to a request that was sent as a whole. *)
Lemma wait_spec message_type s0 h0 error s h :
  is_response message_type → received h = received h0 →
  holds (wait_for_response fuel message_type (cl_next_request_id s0) error)
    (λ '(r, response, e) s' h', sent h' = sent h ∧ (s' = s ∨ s' = set_cl_state FTAP_STATE_CLOSING s) ∧
       (r = 0 ∧ s' = s ∧ e = error ∧ (∃ rs, frame_holds response (payload_of rs) ∧
          answered s0 h0 h' (cl_state s) message_type rs) ∨
        r = -1 ∧ (rejected s0 h0 h' (cl_state s) error e ∨
          local_error error e ∧
          ∀ type, response_type message_type type → ∀ rs, ¬ answered s0 h0 h' (cl_state s) type rs))) s h.
Proof.
  intros Hresponse Hr. eapply wp_mono; [by apply wait_for_response_spec|].
  intros [[r response] e] s' h' (Hs & data & Hrd & Hcase). split; [done|]. rewrite Hr in Hrd.
  destruct Hcase as [(-> & -> & -> & payload & Hf & Ha)|(-> & Hst & Hf)].
  - split; [by left|]. left. split; [done|]. split; [done|]. split; [done|].
    assert (message_ok (cl_state s) (rf_header response) payload) as [_ (rs & -> & Hw & _)] by apply Ha.
    exists rs. split; [done|]. by exists data, (rf_header response).
  - split; [done|]. right. split; [done|]. destruct Hf as [[Hl Hno]|(header & rs & Ha & Hw & He)].
    + right. split; [done|]. intros type Htype rs (data' & header & Hr' & _ & Ha).
      rewrite Hrd in Hr'. apply app_inv_head in Hr' as <-. by eapply Hno.
    + left. exists rs. split; [|done]. by exists data, header.
Qed.

(** *** The outcomes of a call *)

Section outcomes.
Context {A : Type} (c : call) (value : list field → A → Prop).
Context (error : option ftap_client_error) (s : ftap_client) (h : client_history).

Abbreviation post := (call_post c value error s h) (only parsing).

(** A call that is refused before anything has happened. *)
Lemma call_unusable e h' :
  (∀ fs, ¬ startable c s fs) → calm h h' → local_error error e → post (None, e) s h'.
Proof. intros. split; [apply same_socket_refl|]. by left. Qed.

Lemma call_accepted fs rs a s' h1 h' :
  startable c s fs → requested s h h1 (ca_request c) fs → sent h' = sent h1 →
  answered s h h' (ca_waiting c) (ca_result c) rs → ca_accepts c rs = true → value rs a →
  same_socket s s' → cl_state s' = ca_after c →
  post (Some a, ftap_client_error_clear error) s' h'.
Proof.
  intros Hfs Hreq Hs Ha Hok Hv Hsame Hst. split; [done|]. exists fs, rs. split_and!; try done.
  unfold requested in *. congruence.
Qed.

Lemma call_refused fs rs e s' h1 h' :
  is_response (ca_result c) →
  startable c s fs → requested s h h1 (ca_request c) fs → sent h' = sent h1 →
  answered s h h' (ca_waiting c) (ca_result c) rs → ca_accepts c rs = false → ca_lost c error e →
  same_socket s s' → post (None, e) (set_cl_state FTAP_STATE_CLOSING s') h'.
Proof.
  intros Hresponse Hfs Hreq Hs Ha Hno Hlost Hsame. split; [by apply same_socket_state|].
  right. exists fs. split; [done|]. split; [done|].
  destruct (response_type_flags _ (ca_result c) Hresponse (or_introl eq_refl)) as [Hne _].
  apply gave_up_lost; [unfold requested in *; congruence|done| |].
  - assert (FTAP_MSG_ERROR ≠ FTAP_MSG_SESSION_AUTHZ_CHANGED) as Herr by done.
    intros rs' Ha'. destruct (answered_unique _ _ _ _ _ _ _ _ Hne Herr Ha Ha') as [Ht _].
    unfold is_response in Hresponse. by rewrite Ht in Hresponse.
  - intros rs' Ha'. by destruct (answered_unique _ _ _ _ _ _ _ _ Hne Hne Ha Ha') as [_ <-].
Qed.

Lemma call_unanswered fs e s' h1 h' :
  startable c s fs → requested s h h1 (ca_request c) fs → sent h' = sent h1 →
  rejected s h h' (ca_waiting c) error e ∨
    ca_lost c error e ∧ (∀ type, response_type (ca_result c) type →
      ∀ rs, ¬ answered s h h' (ca_waiting c) type rs) →
  same_socket s s' → post (None, e) (set_cl_state FTAP_STATE_CLOSING s') h'.
Proof.
  intros Hfs Hreq Hs Hcase Hsame. split; [by apply same_socket_state|].
  right. exists fs. split; [done|]. split; [done|].
  assert (requested s h h' (ca_request c) fs) by (unfold requested in *; congruence).
  destruct Hcase as [|[Hlost Hno]]; [by apply gave_up_rejected|]. apply gave_up_lost; [done|done| |].
  - intros rs. apply Hno. by right.
  - intros rs Ha. exfalso. eapply Hno; [by left|exact Ha].
Qed.

Lemma call_cut_off fs e n h' :
  startable c s fs → local_error error e → received h' = received h →
  sent h' = sent h ++ take n (request_bytes (ca_request c) (cl_next_request_id s) (payload_of fs)) →
  (n < length (request_bytes (ca_request c) (cl_next_request_id s) (payload_of fs)))%nat →
  post (None, e) (set_cl_state FTAP_STATE_CLOSING (used_id s)) h'.
Proof.
  intros Hfs He Hr Hs Hn. split; [apply same_socket_state, same_socket_used|]. right.
  exists fs. split; [done|]. split; [done|]. apply gave_up_sending. by exists n.
Qed.

(** *** The steps of a call *)

Context {B : Type} (fail : option ftap_client_error → B) (mark : option ftap_client_error → option ftap_client_error).
Context (Post : B → ftap_client → client_history → Prop).
Context (Hfail : ∀ e s' h', post (None, e) s' h' → Post (fail e) s' h').

Lemma request_wp payload text (W : Z → option ftap_client_error → prog client_event ftap_client B) :
  ca_usable c = true → cl_state s = ca_before c → built (ca_capacity c) payload (ca_fields c) →
  (∀ fs h1, startable c s fs → requested s h h1 (ca_request c) fs → received h1 = received h →
     holds (W (cl_next_request_id s) error) Post (used_id s) h1) →
  holds (let* sent := send_request fuel (ca_request c) payload text error in
         match sent with
         | inl (false, e) => ret (fail e)
         | inl (true, e) => abandon (fail e)
         | inr (id, e) => W id e
         end) Post s h.
Proof.
  intros Hu Hst Hb HW. wp_step. eapply wp_mono; [by apply send_request_spec|].
  intros [[[|] e]|[id e]] s' h1 (Hr & Hcase).
  - destruct Hcase as (-> & He & fs & n & Hfs & Hs & Hn). unfold abandon, enter_state.
    do 3 wp_step. apply Hfail. by eapply call_cut_off.
  - destruct Hcase as (Hno & -> & Hs & He). wp_step. apply Hfail, call_unusable; [|done..].
    intros fs (_ & _ & Hfs). by eapply Hno.
  - destruct Hcase as (-> & -> & -> & fs & Hfs & Hs). by eapply HW.
Qed.

Lemma response_wp fs s1 h1 (K : ftap_received_frame → option ftap_client_error → prog client_event ftap_client B) :
  is_response (ca_result c) →
  (∀ e, local_error error e → ca_lost c error (mark e)) →
  (∀ h' e, rejected s h h' (ca_waiting c) error e → rejected s h h' (ca_waiting c) error (mark e)) →
  startable c s fs → requested s h h1 (ca_request c) fs → received h1 = received h →
  same_socket s s1 → cl_state s1 = ca_waiting c →
  (∀ response rs h', frame_holds response (payload_of rs) →
     answered s h h' (ca_waiting c) (ca_result c) rs → sent h' = sent h1 →
     holds (K response error) Post s1 h') →
  holds (let* (r, response, e) := wait_for_response fuel (ca_result c) (cl_next_request_id s) error in
         if negb (r =? 0) then abandon (fail (mark e)) else K response e) Post s1 h1.
Proof.
  intros Hresponse Hlost Hrej Hfs Hreq Hr Hsame Hst HK. wp_step. eapply wp_mono; [by apply wait_spec|].
  intros [[r response] e] s' h' (Hs & Hs' & Hcase). rewrite Hst in Hcase.
  destruct Hcase as [(-> & -> & -> & rs & Hframe & Ha)|(-> & Hcase)]; cbn [Z.eqb negb]; [by eapply HK|].
  unfold abandon, enter_state. do 3 wp_step. apply Hfail.
  eapply call_unanswered; [exact Hfs|exact Hreq|done| |by destruct Hs' as [-> | ->]].
  destruct Hcase as [Hcase|[He Hno]]; [left; by apply Hrej|right; by auto].
Qed.
End outcomes.

(** *** The calls *)

Definition hello_call (client_name client_version : list Z) : call := {|
  ca_before := FTAP_STATE_CONNECTED; ca_waiting := FTAP_STATE_CONNECTED;
  ca_after := FTAP_STATE_HELLO_COMPLETE; ca_usable := true;
  ca_request := FTAP_MSG_HELLO; ca_capacity := 256; ca_fields := hello_offer client_name client_version;
  ca_result := FTAP_MSG_HELLO_OK; ca_accepts _ := true; ca_lost := local_error;
|}.

Definition login_call (login_name password : list Z) (metadata : ftap_metadata) : call := {|
  ca_before := FTAP_STATE_HELLO_COMPLETE; ca_waiting := FTAP_STATE_AUTHENTICATING;
  ca_after := FTAP_STATE_SESSION_BOUND;
  ca_usable := negb (is_null (md_protocol metadata)) && negb (zlen password =? 0);
  ca_request := FTAP_MSG_AUTH_PASSWORD_REQUEST; ca_capacity := FTAP_MAX_PAYLOAD_SIZE;
  ca_fields := password_offer login_name password (default [] (md_protocol metadata)) metadata;
  ca_result := FTAP_MSG_AUTH_PASSWORD_RESULT; ca_accepts := known_fields; ca_lost := local_error;
|}.

Definition begin_call (login_name display_name password : list Z) (metadata : ftap_metadata) : call := {|
  ca_before := FTAP_STATE_HELLO_COMPLETE; ca_waiting := FTAP_STATE_REGISTERING;
  ca_after := FTAP_STATE_REGISTERING;
  ca_usable := from_option (λ protocol, bool_decide (cstr protocol = FTAP_PROTOCOL_TELNET)) false
      (md_protocol metadata)
    && negb (is_null (md_source_ip metadata)) && negb (zlen password =? 0);
  ca_request := FTAP_MSG_REGISTRATION_BEGIN_REQUEST; ca_capacity := FTAP_MAX_PAYLOAD_SIZE;
  ca_fields := begin_offer login_name display_name password (default [] (md_protocol metadata))
    (default [] (md_source_ip metadata)) metadata;
  ca_result := FTAP_MSG_REGISTRATION_BEGIN_RESULT; ca_accepts := known_fields; ca_lost := local_error;
|}.

(** The caller cannot know whether the server acted on the request. *)
Definition uncertain (error error' : option ftap_client_error) : Prop :=
  match error, error' with
  | None, None => True
  | Some _, Some e => ce_server_error e = false ∧ ce_outcome_unknown e = true
  | _, _ => False
  end.

Definition commit_call (registration : ftap_registration_context) : call := {|
  ca_before := FTAP_STATE_REGISTERING; ca_waiting := FTAP_STATE_REGISTERING;
  ca_after := FTAP_STATE_SESSION_BOUND; ca_usable := true;
  ca_request := FTAP_MSG_REGISTRATION_COMMIT_REQUEST;
  ca_capacity := FTAP_TLV_HEADER_SIZE + FTAP_UUID_SIZE; ca_fields := commit_offer registration;
  ca_result := FTAP_MSG_REGISTRATION_COMMIT_RESULT;
  ca_accepts rs := known_fields rs && result_identity registration rs; ca_lost := uncertain;
|}.

Definition abort_call (registration : ftap_registration_context) (reason : ptr) : call := {|
  ca_before := FTAP_STATE_REGISTERING; ca_waiting := FTAP_STATE_REGISTERING;
  ca_after := FTAP_STATE_HELLO_COMPLETE; ca_usable := registration_abort_reason_is_allowed reason;
  ca_request := FTAP_MSG_REGISTRATION_ABORT_REQUEST;
  ca_capacity := FTAP_TLV_HEADER_SIZE + FTAP_UUID_SIZE + FTAP_TLV_HEADER_SIZE + FTAP_REGISTRATION_REASON_MAX;
  ca_fields := abort_offer registration reason;
  ca_result := FTAP_MSG_REGISTRATION_ABORT_RESULT;
  ca_accepts rs := known_fields rs && same_registration registration rs; ca_lost := uncertain;
|}.

Definition context_call : call := {|
  ca_before := FTAP_STATE_SESSION_BOUND; ca_waiting := FTAP_STATE_SESSION_BOUND;
  ca_after := FTAP_STATE_SESSION_BOUND; ca_usable := true;
  ca_request := FTAP_MSG_SESSION_CONTEXT_REQUEST; ca_capacity := 0; ca_fields := Some [];
  ca_result := FTAP_MSG_SESSION_CONTEXT_RESULT; ca_accepts := known_fields; ca_lost := local_error;
|}.

Lemma mark_local error e : local_error error e → uncertain error (mark_outcome_unknown e).
Proof. destruct error, e as [e|]; try done. cbn. intros [Hs _]. by rewrite Hs. Qed.

Lemma mark_rejected s h h' state error e :
  rejected s h h' state error e → rejected s h h' state error (mark_outcome_unknown e).
Proof.
  intros (rs & Ha & He). exists rs. split; [done|]. destruct error, e as [e|]; try done. cbn.
  by rewrite (eo_server _ _ He).
Qed.

(** The end of a call, when its parser has read the response. *)
Ltac answer_read Hrun :=
  wp_step; eapply wp_lift; [exact Hrun|];
  match goal with |- context [if ?b then _ else _] => destruct b eqn:? end;
  cbv beta iota; cbn [negb]; unfold abandon, enter_state; repeat wp_step;
  first [by eapply call_accepted | eapply call_refused].

Lemma ftap_client_authenticate_password_spec login_name password tail metadata error s h :
  bytes_ok login_name → bytes_ok (password ++ tail) → metadata_ok metadata →
  holds (ftap_client_authenticate_password fuel (Some login_name) (Some (password ++ tail))
           (zlen password) (Some metadata) error)
    (call_post (login_call login_name password metadata) context_of error s h) s h.
Proof.
  intros Hlogin Hpassword Hmetadata. set (c := login_call _ _ _).
  unfold ftap_client_authenticate_password. do 2 wp_step. cbv zeta.
  destruct (md_protocol metadata) as [protocol|] eqn:Hprotocol.
  2:{ wp_step. apply call_unusable; [|done|apply set_local_error_local].
      intros fs (Hu & _). cbn in Hu. by rewrite Hprotocol in Hu. }
  assert (bytes_ok protocol) as Hpr by by apply Hmetadata.
  destruct (_ || _) eqn:Hbad.
  { wp_step. apply call_unusable; [|done|apply set_local_error_local].
    intros fs (Hu & Hst & _). cbn in Hu, Hst. unfold state_is in Hbad. rewrite Hst in Hbad.
    rewrite bool_decide_true in Hbad by done. cbn in Hbad. by rewrite Hbad, andb_false_r in Hu. }
  bools. unfold state_is in *. bools.
  apply (request_wp c context_of error s h (λ e, (None, e))); [done| |done| |].
  { cbn. by rewrite Hprotocol, (proj2 (Z.eqb_neq _ _)). }
  { cbn. rewrite Hprotocol. by apply password_payload_built. }
  intros fs h1 Hfs Hreq Hr. unfold enter_state. do 2 wp_step.
  assert (same_socket s (set_cl_state FTAP_STATE_AUTHENTICATING (used_id s))) as Hsame
    by apply same_socket_state, same_socket_used.
  apply (response_wp c context_of error s h (λ e, (None, e)) id _ ltac:(done) fs); try done.
  intros response rs h' Hframe Ha Hs. pose proof (answered_fields _ _ _ _ _ _ Ha) as (Hrs & Hw & Hmax).
  destruct (parse_terminal_context_spec FTAP_MSG_AUTH_PASSWORD_RESULT false response rs error Hrs Hw Hframe Hmax)
    as (context & e & Hc & He & Hrun).
  by answer_read Hrun.
Qed.

Lemma ftap_client_registration_begin_spec login_name display_name password tail metadata error s h :
  bytes_ok login_name → bytes_ok display_name → bytes_ok (password ++ tail) → metadata_ok metadata →
  holds (ftap_client_registration_begin fuel (Some login_name) (Some display_name)
           (Some (password ++ tail)) (zlen password) (Some metadata) error)
    (call_post (begin_call login_name display_name password metadata) registration_of error s h) s h.
Proof.
  intros Hlogin Hdisplay Hpassword Hmetadata. set (c := begin_call _ _ _ _).
  unfold ftap_client_registration_begin. do 2 wp_step. cbv zeta. pose proof Hmetadata as [Hpr Hip _ _].
  destruct (md_protocol metadata) as [protocol|] eqn:Hprotocol.
  2:{ wp_step. apply call_unusable; [|done|apply set_local_error_local].
      intros fs (Hu & _). cbn in Hu. by rewrite Hprotocol in Hu. }
  destruct (md_source_ip metadata) as [source_ip|] eqn:Hsource.
  2:{ wp_step. apply call_unusable; [|done|apply set_local_error_local].
      intros fs (Hu & _). cbn in Hu. by rewrite Hsource, andb_false_r in Hu. }
  assert (bytes_ok protocol) by by apply Hpr. assert (bytes_ok source_ip) by by apply Hip.
  destruct (_ || _) eqn:Hbad.
  { wp_step. apply call_unusable; [|done|apply set_local_error_local].
    intros fs (Hu & Hst & _). unfold c, begin_call in Hu, Hst. cbn [ca_usable ca_before] in Hu, Hst.
    rewrite Hprotocol in Hu. cbn [from_option] in Hu. unfold state_is in Hbad.
    rewrite Hst, bool_decide_true in Hbad by done. cbn [negb orb] in Hbad. bools.
    destruct Hbad; bools; congruence. }
  bools. unfold state_is in *. bools.
  apply (request_wp c registration_of error s h (λ e, (None, e))); [done| |done| |].
  { unfold c, begin_call. cbn [ca_usable]. rewrite Hprotocol, Hsource. cbn [from_option is_null negb andb].
    by rewrite bool_decide_true, (proj2 (Z.eqb_neq _ _)). }
  { cbn. rewrite Hprotocol, Hsource. by apply begin_payload_built. }
  intros fs h1 Hfs Hreq Hr. unfold enter_state. do 2 wp_step.
  assert (same_socket s (set_cl_state FTAP_STATE_REGISTERING (used_id s))) as Hsame
    by apply same_socket_state, same_socket_used.
  apply (response_wp c registration_of error s h (λ e, (None, e)) id _ ltac:(done) fs); try done.
  intros response rs h' Hframe Ha Hs. pose proof (answered_fields _ _ _ _ _ _ Ha) as (Hrs & Hw & Hmax).
  destruct (parse_registration_begin_context_spec response rs error Hrs Hw Hframe Hmax)
    as (r & e & Hreg & He & Hrun).
  by answer_read Hrun.
Qed.

Lemma ftap_client_registration_commit_spec registration error s h :
  uuid_ok (rg_registration_id registration) →
  holds (ftap_client_registration_commit fuel (Some registration) error)
    (call_post (commit_call registration) context_of error s h) s h.
Proof.
  intros Hid. set (c := commit_call _).
  unfold ftap_client_registration_commit. do 2 wp_step. cbv zeta.
  destruct (state_is s FTAP_STATE_REGISTERING) eqn:Hstate; unfold state_is in Hstate; bools; cbn [negb].
  2:{ wp_step. apply call_unusable; [|done|apply set_local_error_local]. by intros fs (_ & Hst & _). }
  apply (request_wp c context_of error s h (λ e, (None, e))); [done|done|done|by apply commit_payload_built|].
  intros fs h1 Hfs Hreq Hr. pose proof (same_socket_used s) as Hsame.
  apply (response_wp c context_of error s h (λ e, (None, e)) mark_outcome_unknown _ ltac:(done) fs); try done.
  { apply mark_local. }
  { intros. by apply mark_rejected. }
  intros response rs h' Hframe Ha Hs. pose proof (answered_fields _ _ _ _ _ _ Ha) as (Hrs & Hw & Hmax).
  destruct (parse_registration_commit_context_spec response registration rs error Hrs Hw Hframe Hmax)
    as (context & e & Hc & He & Hrun).
  answer_read Hrun; try done. by apply mark_local.
Qed.

Lemma ftap_client_registration_abort_spec registration reason error s h :
  uuid_ok (rg_registration_id registration) → text_ok reason →
  holds (ftap_client_registration_abort fuel (Some registration) reason error)
    (coded (call_post (abort_call registration reason) (λ _ _, True) error s h)) s h.
Proof.
  intros Hid Hreason. set (c := abort_call _ _).
  unfold ftap_client_registration_abort. do 2 wp_step. cbv zeta.
  assert (∀ e s' h', call_post c (λ _ (_ : unit), True) error s h (None, e) s' h' →
    coded (call_post c (λ _ _, True) error s h) (-1, e) s' h') as Hcoded by (split; [by right|done]).
  destruct (_ || _) eqn:Hbad.
  { wp_step. apply Hcoded, call_unusable; [|done|apply set_local_error_local].
    intros fs (Hu & Hst & _). cbn in Hu, Hst. unfold state_is in Hbad.
    rewrite Hst, bool_decide_true in Hbad by done. cbn in Hbad. by rewrite Hu in Hbad. }
  bools. unfold state_is in *. bools.
  apply (request_wp c (λ _ (_ : unit), True) error s h (λ e, (-1, e))); [done|done|done|by apply abort_payload_built|].
  intros fs h1 Hfs Hreq Hr. pose proof (same_socket_used s) as Hsame.
  apply (response_wp c (λ _ (_ : unit), True) error s h (λ e, (-1, e)) mark_outcome_unknown _ Hcoded fs); try done.
  { apply mark_local. }
  { intros. by apply mark_rejected. }
  intros response rs h' Hframe Ha Hs. pose proof (answered_fields _ _ _ _ _ _ Ha) as (Hrs & Hw & Hmax).
  destruct (parse_registration_abort_result_spec response registration rs error Hrs Hw Hframe Hmax)
    as (e & He & Hrun).
  wp_step. eapply wp_lift; [exact Hrun|]. destruct (_ && _) eqn:Hk; cbv beta iota; cbn [negb];
    unfold abandon, enter_state; repeat wp_step.
  - split; [by left|]. eapply (call_accepted _ _ _ _ _ fs rs tt); try done.
  - apply Hcoded. eapply call_refused; try done. by apply mark_local.
Qed.

Lemma ftap_client_hello_spec client_name client_version error s h :
  bytes_ok client_name → bytes_ok client_version →
  holds (ftap_client_hello fuel (Some client_name) (Some client_version) error)
    (coded (call_post (hello_call client_name client_version) (λ _ _, True) error s h)) s h.
Proof.
  intros Hname Hversion. set (c := hello_call _ _). unfold ftap_client_hello. do 2 wp_step.
  assert (∀ e s' h', call_post c (λ _ (_ : unit), True) error s h (None, e) s' h' →
    coded (call_post c (λ _ _, True) error s h) (-1, e) s' h') as Hcoded by (split; [by right|done]).
  destruct (state_is s FTAP_STATE_CONNECTED) eqn:Hstate; unfold state_is in Hstate; bools; cbn [negb].
  2:{ wp_step. apply Hcoded, call_unusable; [|done|apply set_local_error_local]. by intros fs (_ & Hst & _). }
  apply (request_wp c (λ _ (_ : unit), True) error s h (λ e, (-1, e))); [done|done|done|by apply hello_payload_built|].
  intros fs h1 Hfs Hreq Hr. pose proof (same_socket_used s) as Hsame.
  apply (response_wp c (λ _ (_ : unit), True) error s h (λ e, (-1, e)) id _ Hcoded fs _ _
    (λ _ e, do* enter_state FTAP_STATE_HELLO_COMPLETE in ret (0, ftap_client_error_clear e))); try done.
  intros response rs h' Hframe Ha Hs. unfold enter_state. do 3 wp_step. split; [by left|].
  eapply (call_accepted _ _ _ _ _ fs rs tt); try done.
Qed.

(** The context of a bound session is asked for without changing the state. *)
Lemma ftap_client_session_context_spec error s h :
  holds (ftap_client_session_context fuel error) (call_post context_call context_of error s h) s h.
Proof.
  unfold ftap_client_session_context. do 2 wp_step.
  destruct (state_is s FTAP_STATE_SESSION_BOUND) eqn:Hstate; unfold state_is in Hstate; bools; cbn [negb].
  2:{ wp_step. apply call_unusable; [|done|apply set_local_error_local]. by intros fs (_ & Hst & _). }
  unfold next_request_id. do 3 wp_step. do 3 wp_step. fold (next_id (cl_next_request_id s)). fold (used_id s).
  assert (startable context_call s []) as Hfs by done.
  wp_step. eapply wp_mono; [apply (send_frame_spec fuel _ _ _ []); by left|].
  intros [r e] s' h1 (-> & Hr & n & Hs & Hcase). change (@nil Z) with (payload_of []) in Hs, Hcase.
  destruct Hcase as [(-> & -> & ->)|(-> & He & Hn)]; cbn [Z.eqb negb].
  2:{ unfold abandon, enter_state. do 3 wp_step. by eapply call_cut_off. }
  rewrite take_ge in Hs by done. pose proof (same_socket_used s) as Hsame.
  apply (response_wp context_call context_of error s h (λ e, (None, e)) id _ ltac:(done) []); try done.
  intros response rs h' Hframe Ha Hs'. pose proof (answered_fields _ _ _ _ _ _ Ha) as (Hrs & Hw & Hmax).
  destruct (parse_terminal_context_spec FTAP_MSG_SESSION_CONTEXT_RESULT true response rs error Hrs Hw Hframe Hmax)
    as (c & e & Hc & He & Hrun).
  by answer_read Hrun.
Qed.

(** Closing sends a request and waits for nothing. *)
Lemma ftap_client_session_close_spec reason error s h :
  text_ok reason →
  holds (ftap_client_session_close fuel reason error)
    (λ '(result, e) s' h', same_socket s s' ∧ received h' = received h ∧
       let fits fs := cl_state s = FTAP_STATE_SESSION_BOUND ∧
         sendable (FTAP_TLV_HEADER_SIZE + FTAP_ENDED_REASON_MAX) (close_offer reason) fs in
       (result = 0 ∧ e = ftap_client_error_clear error ∧ cl_state s' = FTAP_STATE_CLOSING ∧
          (∃ fs, fits fs ∧ requested s h h' FTAP_MSG_SESSION_CLOSE fs) ∨
        result = -1 ∧
          ((∀ fs, ¬ fits fs) ∧ untouched s s' h h' error e ∨
           cl_state s' = FTAP_STATE_CLOSING ∧
             ∃ fs, fits fs ∧ cut_off s h h' FTAP_MSG_SESSION_CLOSE fs error e))) s h.
Proof.
  intros Hreason. unfold ftap_client_session_close. do 2 wp_step.
  destruct (state_is s FTAP_STATE_SESSION_BOUND) eqn:Hstate; unfold state_is in Hstate; bools; cbn [negb].
  2:{ wp_step. split; [apply same_socket_refl|]. split; [done|]. right. split; [done|]. left.
      split; [by intros fs [? _]|]. split_and!; try done. apply set_local_error_local. }
  wp_step. eapply wp_mono; [apply send_request_spec; by apply close_payload_built|].
  intros [[[|] e]|[id e]] s' h' (Hr & Hcase).
  - destruct Hcase as (-> & He & fs & n & Hfs & Hs & Hn). unfold abandon, enter_state. do 3 wp_step.
    split; [apply same_socket_state, same_socket_used|]. split; [done|]. right. split; [done|]. right.
    split; [done|]. exists fs. split; [done|]. by exists n.
  - destruct Hcase as (Hno & -> & Hs & He). wp_step. split; [apply same_socket_refl|]. split; [done|].
    right. split; [done|]. left. split; [|done]. intros fs [_ Hfs]. by eapply Hno.
  - destruct Hcase as (-> & -> & -> & fs & Hfs & Hs). unfold abandon, enter_state. do 3 wp_step.
    split; [apply same_socket_state, same_socket_used|]. split; [done|]. left. split_and!; try done.
    by exists fs.
Qed.
End calls.
