(* ===== verification/ClientTiming.v ===== *)
(** * The calls of the FTAP client return

    Every loop of [ftap_client.c] waits for the socket until a deadline, so a call
    ends when the clock has passed it, whatever the peer does: it may stay silent,
    deliver one byte at a time, interrupt every system call or send notifications
    without end. The fuel of the model's loops is enough if it exceeds the number
    of readings that the clock allows before the deadline. *)

From S2P Require Import Prelude Protocol Words Utf8 Codec Inet Schema Program Client Requests FtapClient.
From S2P Require Import ClientSpec ClientCalls.

(** The time that [monotonic_milliseconds] computes. *)
Definition clock_ms (answer : (Z * Z) + Z) : Z + Z :=
  match answer with
  | inl (tv_sec, tv_nsec) => inl (u64 (u64 (u64 tv_sec * 1000) + u64 tv_nsec / 1000000))
  | inr errno => inr errno
  end.

Fixpoint readings (h : client_history) : nat :=
  match h with
  | [] => 0
  | ReadClock _ :: h => S (readings h)
  | _ :: h => readings h
  end.

(** A clock that does not go back, and that a process reads at most [pace] times
    within a millisecond. *)
Class PacedClock `{ClientEnvironment} (pace : nat) : Prop := {
  law_clock h l t t' :
    clock_ms (cl_clock h) = inl t → clock_ms (cl_clock (l ++ h)) = inl t' →
    Z.of_nat (readings l) <= Z.of_nat pace * (t' - t + 1);
}.

(** The readings that are possible until a timeout has passed. *)
Definition reading_limit (pace : nat) (timeout_ms : Z) : nat :=
  Z.to_nat (Z.of_nat pace * (timeout_ms + 1)).

Lemma readings_app l h : readings (l ++ h) = (readings l + readings h)%nat.
Proof. induction l as [|[] l IH]; cbn; lia. Qed.

(** Later in the same run. *)
Definition since (h h' : client_history) : Prop := ∃ l, h' = l ++ h.

Lemma since_refl h : since h h.
Proof. by exists []. Qed.

Lemma since_trans h h1 h2 : since h h1 → since h1 h2 → since h h2.
Proof. intros [l ->] [l' ->]. exists (l' ++ l). by rewrite app_assoc. Qed.

Lemma since_cons h h' e : since h h' → since h (e :: h').
Proof. intros [l ->]. by exists (e :: l). Qed.

Lemma since_readings h h' : since h h' → (readings h <= readings h')%nat.
Proof. intros [l ->]. rewrite readings_app. lia. Qed.

#[local] Hint Resolve since_refl since_cons : cmodel.

(** A result that needs no progress. *)
Ltac stopped := repeat ends_step; split_and!; auto with cmodel.

Section timing.
Context `{Inet} `{ClientEnvironment} (pace fuel : nat) `{!PacedClock pace}.

Section until.
(** A deadline that was computed at [h0]. *)
Context (h0 : client_history) (start timeout deadline : Z).
Context (Hstart : clock_ms (cl_clock h0) = inl start).
Context (Htimeout : 0 <= timeout) (Hdeadline : deadline <= start + timeout).
Context (Hfuel : (reading_limit pace timeout + 1 < fuel)%nat).

(** The clock has been read, the deadline not having passed before. *)
Definition in_time (h h' : client_history) : Prop :=
  (readings h < readings h')%nat ∧ (readings h <= readings h0 + reading_limit pace timeout)%nat.

(** What is left of the readings. *)
Definition readings_left (h : client_history) : nat :=
  readings h0 + reading_limit pace timeout + 1 - readings h.

Lemma readings_left_less h h' : in_time h h' → (readings_left h' < readings_left h)%nat.
Proof. unfold in_time, readings_left. lia. Qed.

Lemma readings_left_fuel h : since h0 h → (readings_left h < fuel)%nat.
Proof. intros Hs%since_readings. unfold readings_left. lia. Qed.

Lemma in_time_since h h1 h2 : since h h1 → in_time h1 h2 → in_time h h2.
Proof. intros Hs%since_readings. unfold in_time. lia. Qed.

Lemma in_time_later h h1 h2 : in_time h h1 → since h1 h2 → in_time h h2.
Proof. intros Ht Hs%since_readings. unfold in_time in *. lia. Qed.

Lemma before_deadline h now :
  since h0 h → clock_ms (cl_clock h) = inl now → now < deadline →
  (readings h <= readings h0 + reading_limit pace timeout)%nat.
Proof.
  intros [l ->] Hnow Hlt. rewrite readings_app. pose proof (law_clock _ _ _ _ Hstart Hnow) as Hl.
  unfold reading_limit. assert (Z.of_nat pace * (now - start + 1) <= Z.of_nat pace * (timeout + 1))
    by (apply Z.mul_le_mono_nonneg_l; lia). lia.
Qed.

Lemma wait_for_socket_ends fd events s h :
  since h0 h →
  ends (wait_for_socket fuel fd events deadline)
    (λ r s' h', s' = s ∧ since h h' ∧ (r = None → in_time h h')) s h.
Proof.
  intros Hh. apply (ends_repeat (λ s' h', s' = s ∧ since h h') readings_left);
    [by auto with cmodel|by apply readings_left_fuel|].
  intros s' h1 [-> Hh1]. unfold wait_step, remaining_timeout, monotonic_milliseconds, clock_gettime.
  do 4 ends_step. fold (clock_ms (cl_clock h1)). do 2 ends_step.
  destruct (clock_ms (cl_clock h1)) as [now|errno] eqn:Hnow; [|by stopped].
  destruct (Z.leb_spec deadline now) as [|Hlt]; [by stopped|].
  assert (since h0 h1) as Hh01 by by eapply since_trans.
  pose proof (before_deadline h1 now Hh01 Hnow Hlt) as Hlim.
  assert (∀ e, in_time h1 (e :: ReadClock (cl_clock h1) :: h1)) as Hin.
  { intros e. apply (in_time_later _ (ReadClock (cl_clock h1) :: h1)); [|by auto with cmodel].
    split; [cbn; lia|done]. }
  assert ((if INT32_MAX <? deadline - now then INT32_MAX else deadline - now) =? 0 = false) as ->.
  { apply Z.eqb_neq. unfold INT32_MAX. case_if; lia. }
  unfold poll_socket. ends_step. ends_step. ends_step.
  set (e := PollSocket _ _ _ _). assert (since h (e :: ReadClock (cl_clock h1) :: h1)) by auto with cmodel.
  destruct (cl_poll _ _ _ _) as [[revents|]|errno]; [|by split_and!|].
  - destruct (has_event revents POLLNVAL); [by split_and!|]. destruct (_ || _).
    + split_and!; try done. intros _. exact (in_time_since _ _ _ Hh1 (Hin e)).
    + split; [done|]. apply readings_left_less, Hin.
  - destruct (errno =? _); [|by split_and!]. split; [done|]. apply readings_left_less, Hin.
Qed.

Lemma send_all_ends fd buffer length s h :
  since h0 h → ends (send_all fuel fd buffer length deadline) (λ r s' h', s' = s ∧ since h h') s h.
Proof.
  intros Hh. apply (ends_iterate (λ _ s' h', s' = s ∧ since h h') readings_left);
    [by auto with cmodel|by apply readings_left_fuel|].
  intros offset s' h1 [-> Hh1]. unfold send_step. destruct (_ <=? _); [by ends_step|].
  ends_step. eapply ends_mono; [apply wait_for_socket_ends; by eapply since_trans|].
  intros [errno|] s' h2 (-> & Hh2 & Hin); [ends_step; split; [done|by eapply since_trans]|].
  assert (since h h2) by by eapply since_trans.
  ends_step. ends_step. unfold send_socket. ends_step. ends_step. ends_step.
  set (e := SendBytes _ _ _). assert (in_time h1 (e :: h2)) as Hprogress.
  { eapply in_time_later; [by apply Hin|by auto with cmodel]. }
  assert (since h (e :: h2)) by auto with cmodel.
  destruct (cl_send _ _ _) as [n|errno].
  - destruct (0 <? n); [|done]. split; [done|by apply readings_left_less].
  - destruct (interrupted errno); [|done]. split; [done|by apply readings_left_less].
Qed.

Lemma receive_exact_ends fd buffer length s h :
  since h0 h → 0 < length →
  ends (receive_exact fuel fd buffer length deadline)
    (λ '(r, _) s' h', s' = s ∧ since h h' ∧ (r = None → in_time h h')) s h.
Proof.
  intros Hh Hlength.
  apply (ends_iterate (λ '(offset, _) s' h', s' = s ∧ since h h' ∧ (offset <= 0 ∨ in_time h h')) readings_left);
    [by split_and!; [|apply since_refl|left]|by apply readings_left_fuel|].
  intros [offset buffer'] s' h1 (-> & Hh1 & Hoffset). unfold receive_step.
  destruct (Z.leb_spec length offset).
  { ends_step. split_and!; try done. intros _. destruct Hoffset; [lia|done]. }
  ends_step. eapply ends_mono; [apply wait_for_socket_ends; by eapply since_trans|].
  intros [errno|] s' h2 (-> & Hh2 & Hin); [ends_step; split_and!; [done|by eapply since_trans|done]|].
  assert (since h h2) by by eapply since_trans.
  ends_step. unfold recv_socket. ends_step.
  set (e := ReceiveBytes _ _ _). assert (in_time h1 (e :: h2)) as Hprogress.
  { eapply in_time_later; [by apply Hin|by auto with cmodel]. }
  assert (since h (e :: h2)) by auto with cmodel.
  assert (in_time h (e :: h2)) by exact (in_time_since _ _ _ Hh1 Hprogress).
  destruct (cl_receive _ _ _) as [[|byte bytes]|errno].
  - ends_step. by split_and!.
  - ends_step. ends_step. ends_step. split; [split_and!; auto|by apply readings_left_less].
  - ends_step. destruct (interrupted errno); [|by split_and!].
    split; [split_and!; auto|by apply readings_left_less].
Qed.

Lemma receive_frame_ends error s h :
  since h0 h →
  ends (receive_frame fuel deadline error)
    (λ '(r, _, _) s' h', s' = s ∧ since h h' ∧ (r = 0 → in_time h h')) s h.
Proof.
  intros Hh. unfold receive_frame. ends_step. ends_step. ends_step.
  eapply ends_mono; [by apply receive_exact_ends|].
  intros [failed header_bytes] s' h1 (-> & Hh1 & Hin). destruct failed; [by ends_step|].
  specialize (Hin eq_refl). ends_step. ends_step. destruct a as [status header]. ends_step. ends_step.
  destruct (_ || _); [by ends_step|]. cbv zeta. ends_step.
  assert (∀ v b, ends (if 0 <? hdr_payload_length v
      then receive_exact fuel (cl_fd s) b (hdr_payload_length v) deadline
      else ret (None, b)) (λ _ s' h', s' = s ∧ since h1 h') s h1) as Hpayload.
  { intros v b. destruct (Z.ltb_spec 0 (hdr_payload_length v)); [|by ends_step; auto with cmodel].
    eapply ends_mono; [apply receive_exact_ends; [by eapply since_trans|done]|].
    by intros [r b'] s' h' (? & ? & _). }
  eapply ends_mono; [apply Hpayload|]. intros [failed payload] s' h' [-> Hh'].
  assert (since h h') by by eapply since_trans.
  assert (in_time h h') by by eapply in_time_later.
  destruct failed; [by ends_step|]. ends_step. ends_step. destruct a0 as [status' verr].
  by destruct (negb _); ends_step.
Qed.

Lemma response_loop_ends message_type request_id error s h :
  since h0 h →
  ends (iterate fuel (response_step fuel message_type request_id deadline) error) (λ _ _ _, True) s h.
Proof.
  intros Hh. apply (ends_iterate (λ _ _ h', since h h') readings_left);
    [by apply since_refl|by apply readings_left_fuel|].
  intros e s1 h1 Hh1. unfold response_step. ends_step.
  eapply ends_mono; [apply receive_frame_ends; by eapply since_trans|].
  intros [[r response] e'] s2 h2 (-> & Hh2 & Hin). cbv zeta.
  destruct (Z.eqb_spec r 0) as [->|]; cbn [negb]; [|by ends_step].
  repeat case_match; by repeat (ends_step || split || (eapply since_trans; done) || apply readings_left_less, Hin).
Qed.
End until.
(** Enough fuel for the timeout of a client. *)
Definition patient (s : ftap_client) : Prop :=
  0 <= cl_timeout_ms s ∧ (reading_limit pace (cl_timeout_ms s) + 1 < fuel)%nat.

(** A deadline that is computed now. *)
Lemma deadline_after_ends {A} (k : Z + Z → prog client_event ftap_client A) Q s h :
  patient s →
  (∀ start deadline, clock_ms (cl_clock h) = inl start → deadline <= start + cl_timeout_ms s →
     ends (k (inl deadline)) Q s (ReadClock (cl_clock h) :: h)) →
  (∀ errno, ends (k (inr errno)) Q s (ReadClock (cl_clock h) :: h)) →
  ends (bind (deadline_after (cl_timeout_ms s)) k) Q s h.
Proof.
  intros _ Hk Herr. unfold deadline_after, monotonic_milliseconds, clock_gettime.
  do 4 ends_step. fold (clock_ms (cl_clock h)). do 2 ends_step.
  destruct (clock_ms (cl_clock h)) as [now|errno]; [|done].
  eapply Hk; [done|]. case_if; bools; lia.
Qed.

Lemma send_frame_ends message_type request_id payload payload_length error s h :
  patient s →
  ends (send_frame fuel message_type request_id payload payload_length error) (λ _ s' _, s' = s) s h.
Proof.
  intros Hs. unfold send_frame. do 2 ends_step. destruct (_ || _); [by ends_step|]. cbv zeta.
  ends_step. ends_step. destruct a as [status frame]. ends_step. ends_step.
  destruct (negb _); [by ends_step|]. ends_step.
  apply (ends_mono _ (λ _ s' _, s' = s)).
  { destruct (_ <? _); repeat ends_step; done. }
  intros data s' h1 ->. apply deadline_after_ends; [done| |by intros errno; ends_step].
  intros start deadline Hstart Hdeadline. destruct Hs as [Ht Hfuel]. ends_step.
  eapply ends_mono; [eapply send_all_ends; [exact Hstart|done..|by auto with cmodel]|].
  intros [errno|] s' h' [-> _]; by ends_step.
Qed.

Lemma wait_for_response_ends message_type request_id error s h :
  patient s → ends (wait_for_response fuel message_type request_id error) (λ _ _ _, True) s h.
Proof.
  intros Hs. unfold wait_for_response. do 2 ends_step.
  apply deadline_after_ends; [done| |by intros errno; ends_step].
  intros start deadline Hstart Hdeadline. destruct Hs as [Ht Hfuel].
  eapply response_loop_ends; [exact Hstart|done..|by auto with cmodel].
Qed.

Lemma send_request_ends message_type payload text error s h :
  patient s → ends (send_request fuel message_type payload text error) (λ _ s' _, patient s') s h.
Proof.
  intros Hs. unfold send_request. ends_step. ends_step. destruct a as [status writer].
  destruct (negb _); [by ends_step|]. unfold next_request_id.
  repeat first [ends_step | progress cbv zeta]. eapply ends_mono; [by apply send_frame_ends|].
  intros [r e] s' h' ->. by ends_step.
Qed.

(** A call: it builds and sends a request, and waits for the response at most once. *)
Ltac call_ends :=
  repeat first
    [ ends_step
    | progress cbv beta iota zeta
    | eapply ends_mono; [apply send_request_ends; assumption|intros [[[] ?]|[? ?]] ? ? ?]
    | eapply ends_mono; [apply send_frame_ends; assumption|intros [? ?] ? ? ->]
    | eapply ends_mono; [apply wait_for_response_ends; done|intros [[? ?] ?] ? ? _]
    | case_match
    | done ].

Lemma ftap_client_hello_ends client_name client_version error s h :
  patient s → ends (ftap_client_hello fuel client_name client_version error) (λ _ _ _, True) s h.
Proof. intros Hs. unfold ftap_client_hello, abandon, enter_state. call_ends. Qed.

Lemma ftap_client_authenticate_password_ends login_name password password_length metadata error s h :
  patient s → ends (ftap_client_authenticate_password fuel login_name password password_length metadata error) (λ _ _ _, True) s h.
Proof. intros Hs. unfold ftap_client_authenticate_password, abandon, enter_state. call_ends. Qed.

Lemma ftap_client_registration_begin_ends login_name display_name password password_length metadata error s h :
  patient s → ends (ftap_client_registration_begin fuel login_name display_name password password_length metadata error) (λ _ _ _, True) s h.
Proof. intros Hs. unfold ftap_client_registration_begin, abandon, enter_state. call_ends. Qed.

Lemma ftap_client_registration_commit_ends registration error s h :
  patient s → ends (ftap_client_registration_commit fuel registration error) (λ _ _ _, True) s h.
Proof. intros Hs. unfold ftap_client_registration_commit, abandon, enter_state. call_ends. Qed.

Lemma ftap_client_registration_abort_ends registration reason error s h :
  patient s → ends (ftap_client_registration_abort fuel registration reason error) (λ _ _ _, True) s h.
Proof. intros Hs. unfold ftap_client_registration_abort, abandon, enter_state. call_ends. Qed.

Lemma ftap_client_session_context_ends error s h :
  patient s → ends (ftap_client_session_context fuel error) (λ _ _ _, True) s h.
Proof. intros Hs. unfold ftap_client_session_context, abandon, enter_state, next_request_id. call_ends. Qed.

Lemma ftap_client_session_close_ends ended_reason error s h :
  patient s → ends (ftap_client_session_close fuel ended_reason error) (λ _ _ _, True) s h.
Proof. intros Hs. unfold ftap_client_session_close, abandon, enter_state. call_ends. Qed.

(** Connecting waits for the socket only while the connection is in progress. *)
Lemma finish_connect_ends fd errno s h :
  patient s → ends (finish_connect fuel fd (cl_timeout_ms s) errno) (λ _ s' _, s' = s) s h.
Proof.
  intros Hs. unfold finish_connect. destruct (negb _); [by ends_step|].
  apply deadline_after_ends; [done| |by intros e; ends_step].
  intros start deadline Hstart Hdeadline. destruct Hs as [Ht Hfuel]. ends_step.
  eapply ends_mono; [eapply wait_for_socket_ends; [exact Hstart|done..|by auto with cmodel]|].
  intros [e|] s' h' [-> _]; by repeat ends_step.
Qed.

Lemma ftap_client_connect_ends socket_path error s h :
  patient s → ends (ftap_client_connect fuel socket_path error) (λ _ _ _, True) s h.
Proof.
  intros Hs. unfold ftap_client_connect, connect_failed, call_descriptor, close_socket.
  do 2 ends_step. cbv zeta. destruct socket_path as [path|]; [|by ends_step].
  do 2 ends_step. destruct (_ || _); [by ends_step|]. do 2 ends_step.
  destruct (cl_call _ _) as [fd|errno]; [|by ends_step]. do 3 ends_step.
  apply (ends_mono _ (λ _ _ _, True)).
  - destruct (cl_call _ _); [by ends_step|].
    eapply ends_mono; [by apply finish_connect_ends|done].
  - intros [errno|] s' h' _; by repeat ends_step.
Qed.

End timing.

(** ** Total correctness *)

Section properties.
Context `{Inet} `{ClientLaws} (pace fuel : nat) `{!PacedClock pace}.

Notation returns := (wp (λ _, False)).

(** C10: A login returns, whatever the peer does. It has a result exactly if the
    client was ready for it and its arguments were usable, the request with these
    arguments was sent as a whole, and before the deadline a valid response to it
    arrived in which the client knows all fields, after any number of
    notifications; the result is then the identity in that response, and the
    session is bound. Otherwise nothing was sent because the call was not possible,
    or the connection is to be closed and the error says what failed: the request
    was cut off, the server reported an error, which is passed on with its code, or
    no such response came. *)
Theorem client_login_correct login_name password tail metadata error s h :
  bytes_ok login_name → bytes_ok (password ++ tail) → metadata_ok metadata → patient pace fuel s →
  returns (ftap_client_authenticate_password fuel (Some login_name) (Some (password ++ tail))
             (zlen password) (Some metadata) error)
    (call_post (login_call login_name password metadata) context_of error s h) s h.
Proof.
  intros. eapply ends_wp; [by apply ftap_client_authenticate_password_spec|].
  by apply (ftap_client_authenticate_password_ends pace fuel).
Qed.

(** C25: A registration is begun and aborted as a login is made, with the results and
    the state of a registration: it is begun only for a connection over telnet from
    a given address, and the client keeps what the server has reserved; it is
    aborted for an allowed reason only, and only the confirmation for this
    registration makes the client ready for another one. If the confirmation does
    not come, the error says that the outcome is unknown. *)
Theorem client_registration_correct login_name display_name password tail metadata registration reason error s h :
  bytes_ok login_name → bytes_ok display_name → bytes_ok (password ++ tail) → metadata_ok metadata →
  uuid_ok (rg_registration_id registration) → text_ok reason → patient pace fuel s →
  returns (ftap_client_registration_begin fuel (Some login_name) (Some display_name)
             (Some (password ++ tail)) (zlen password) (Some metadata) error)
    (call_post (begin_call login_name display_name password metadata) registration_of error s h) s h ∧
  returns (ftap_client_registration_abort fuel (Some registration) reason error)
    (coded (call_post (abort_call registration reason) (λ _ _, True) error s h)) s h.
Proof.
  intros. split; eapply ends_wp.
  - by apply ftap_client_registration_begin_spec.
  - by apply (ftap_client_registration_begin_ends pace fuel).
  - by apply ftap_client_registration_abort_spec.
  - by apply (ftap_client_registration_abort_ends pace fuel).
Qed.

(** C9: A commit returns, and succeeds exactly if its request was sent and a response
    came that confirms this registration: its identifier, its user and its three
    names. If it fails, the error tells the caller what it may assume: the outcome
    is marked as unknown exactly if the whole request was sent and neither such a
    response nor an error of the server came. *)
Theorem client_commit_correct registration error s h :
  uuid_ok (rg_registration_id registration) → patient pace fuel s →
  returns (ftap_client_registration_commit fuel (Some registration) error)
    (call_post (commit_call registration) context_of error s h) s h.
Proof.
  intros. eapply ends_wp; [by apply ftap_client_registration_commit_spec|].
  by apply (ftap_client_registration_commit_ends pace fuel).
Qed.
End properties.

(** *** A server that answers with a script *)

Definition scripted (script : list Z) : ClientEnvironment := {|
  cl_clock h :=
    let n := Z.of_nat (readings h) in
    if n <? 1000000 then inl (n / 1000, n mod 1000 * 1000000) else inr Errno.EINVAL;
  cl_poll _ _ events _ := inl (Some events);
  cl_send _ _ data := inl (zlen data);
  cl_receive h _ capacity := inl (take (Z.to_nat capacity) (drop (length (received h)) script));
  cl_call _ _ := inl 0;
|}.

Lemma scripted_laws script : bytes_ok script → @ClientLaws (scripted script).
Proof.
  intros Hok. split.
  - intros h fd capacity bytes [= <-] Hc. split; [unfold zlen; rewrite length_take; lia|].
    by apply bytes_ok_take, bytes_ok_drop.
  - intros h fd data n [= <-]. pose proof (zlen_nonneg data). lia.
Qed.

Lemma scripted_ms n : 0 <= n < 1000000 → clock_ms (inl (n / 1000, n mod 1000 * 1000000)) = inl n.
Proof.
  intros Hn. unfold clock_ms, u64. pose proof (Z.div_mod n 1000 ltac:(lia)).
  pose proof (Z.mod_pos_bound n 1000 ltac:(lia)).
  rewrite (wrap_fits _ (n / 1000)), (wrap_fits _ (n / 1000 * 1000)), (wrap_fits _ (n mod 1000 * 1000000)),
    Z.div_mul by (unfold fits; lia).
  rewrite wrap_fits by (unfold fits; lia). f_equal. lia.
Qed.

Lemma scripted_paced script : @PacedClock (scripted script) 1.
Proof.
  split. intros h l t t'. cbn [cl_clock scripted]. cbv zeta. rewrite readings_app.
  destruct (Z.ltb_spec (Z.of_nat (readings h)) 1000000); [|done].
  destruct (Z.ltb_spec (Z.of_nat (readings l + readings h)) 1000000); [|done].
  rewrite !scripted_ms by lia. intros [= <-] [= <-]. lia.
Qed.

(** The bytes that the daemon has queued. *)
Definition queued (queue : run (Z * authd_client)) : list Z :=
  match queue with
  | Some (_, c) => outgoing c
  | None => []
  end.

Definition example_metadata : ftap_metadata :=
  Metadata (Some (lit "telnet" ++ [0])) (Some (lit "192.0.2.10" ++ [0])) None (Some (lit "node 1" ++ [0])).

Lemma example_metadata_ok : metadata_ok example_metadata.
Proof. by split; intros l [= <-]; apply (bool_decide_unpack _); vm_compute. Qed.

Definition example_registration_context : ftap_registration_context :=
  RegistrationContext example_uuid example_uuid example_login_name example_display_name example_legacy_name.

Definition example_terminal (state : ftap_connection_state) : ftap_client := FtapClient 5 state 2 100.

Lemma example_patient state : patient 1 200 (example_terminal state).
Proof. split; [done|]. vm_compute. lia. Qed.

(** The run of a call has a result in this state. *)
Definition has_result {A} (state : ftap_connection_state)
    (r : run (outcome (event := client_event) ftap_client (option A * option ftap_client_error))) : bool :=
  match r with
  | Some (Done (Some _, _) s _) => bool_decide (cl_state s = state)
  | _ => false
  end.

Definition login_script : list Z :=
  queued (queue_authentication_result example_client 2 example_attempt example_session).
Definition begin_script : list Z := queued (queue_registration_begin_result zero_client 2 example_registration).
Definition abort_script : list Z := queued (queue_registration_abort_result zero_client 2 example_registration).
Definition commit_script : list Z := queued (queue_registration_commit_result zero_client 2 example_commit).

Lemma script_ok script : (if decide (bytes_ok script) then true else false) = true → bytes_ok script.
Proof. by case_decide. Qed.

Lemma client_login_correct_witness :
  let login := @ftap_client_authenticate_password dotted_quad (scripted login_script) 200
    (Some (lit "Neo.42" ++ [0])) (Some (lit "trinity" ++ [0])) (zlen (lit "trinity"))
    (Some example_metadata) (Some zero_client_error) in
  let s := example_terminal FTAP_STATE_HELLO_COMPLETE in
  has_result FTAP_STATE_SESSION_BOUND (login s []) = true ∧
  wp (λ _, False) login
    (@call_post dotted_quad _ (login_call (lit "Neo.42" ++ [0]) (lit "trinity") example_metadata) context_of
       (Some zero_client_error) s []) s [].
Proof.
  split; [vm_compute; reflexivity|].
  apply (@client_login_correct dotted_quad _ (scripted_laws login_script ltac:(apply script_ok; vm_compute; reflexivity))
    1 200 (scripted_paced _) (lit "Neo.42" ++ [0]) (lit "trinity") [0]).
  - apply script_ok. vm_compute. reflexivity.
  - apply script_ok. vm_compute. reflexivity.
  - apply example_metadata_ok.
  - apply example_patient.
Defined.

Lemma client_commit_correct_witness :
  let commit := @ftap_client_registration_commit dotted_quad (scripted commit_script) 200
    (Some example_registration_context) None in
  let s := example_terminal FTAP_STATE_REGISTERING in
  has_result FTAP_STATE_SESSION_BOUND (commit s []) = true ∧
  wp (λ _, False) commit
    (@call_post dotted_quad _ (commit_call example_registration_context) context_of None s []) s [].
Proof.
  split; [vm_compute; reflexivity|].
  apply (@client_commit_correct dotted_quad _ (scripted_laws commit_script ltac:(apply script_ok; vm_compute; reflexivity))
    1 200 (scripted_paced _)).
  - apply example_uuid_ok.
  - apply example_patient.
Defined.

Lemma client_registration_correct_witness :
  let begin := @ftap_client_registration_begin dotted_quad (scripted begin_script) 200
    (Some (lit "Neo.42" ++ [0])) (Some (lit "Neo 42" ++ [0])) (Some (lit "trinity" ++ [0]))
    (zlen (lit "trinity")) (Some example_metadata) None in
  let s := example_terminal FTAP_STATE_HELLO_COMPLETE in
  has_result FTAP_STATE_REGISTERING (begin s []) = true ∧
  wp (λ _, False) begin
    (@call_post dotted_quad _ (begin_call (lit "Neo.42" ++ [0]) (lit "Neo 42" ++ [0]) (lit "trinity")
       example_metadata) registration_of None s []) s [].
Proof.
  split; [vm_compute; reflexivity|].
  refine (proj1 (@client_registration_correct dotted_quad _ (scripted_laws begin_script ltac:(apply script_ok; vm_compute; reflexivity))
    1 200 (scripted_paced _) (lit "Neo.42" ++ [0]) (lit "Neo 42" ++ [0]) (lit "trinity") [0] example_metadata
    example_registration_context (Some (FTAP_REGISTRATION_REASON_CLIENT_CANCELLED ++ [0])) None
    (example_terminal FTAP_STATE_HELLO_COMPLETE) [] _ _ _ _ _ _ _)).
  - apply script_ok. vm_compute. reflexivity.
  - apply script_ok. vm_compute. reflexivity.
  - apply script_ok. vm_compute. reflexivity.
  - apply example_metadata_ok.
  - apply example_uuid_ok.
  - intros l [= <-]. apply script_ok. vm_compute. reflexivity.
  - apply example_patient.
Defined.

(** A pending registration is aborted. *)
Example abort_runs :
  match @ftap_client_registration_abort dotted_quad (scripted abort_script) 200 (Some example_registration_context)
      (Some (FTAP_REGISTRATION_REASON_LEGACY_WRITE_FAILED ++ [0])) None (example_terminal FTAP_STATE_REGISTERING) []
  with
  | Some (Done (result, _) s _) => result = 0 ∧ cl_state s = FTAP_STATE_HELLO_COMPLETE
  | _ => False
  end.
Proof. vm_compute. split; reflexivity. Qed.
