(* ===== verification/Interop.v ===== *)
(** * The client and the daemon understand each other

    The requests that [FtapClient] builds are messages that the schema accepts in
    the state of the daemon, and [Requests] reads from them what the caller of the
    client said. The responses that [Client] queues are read by the parsers of the
    client as what the daemon put into them. *)

From S2P Require Import Prelude Protocol Words Utf8 Codec Inet Schema Identity Throttle Limiter Program.
From S2P Require Import Services Client Requests FtapClient ClientSpec ClientCalls ClientTiming.

(** ** What the caller of the client has to provide *)

Section requests.
Context `{Inet}.

Definition optional_text (maximum : Z) (text : ptr) : Prop :=
  ∀ l, text = Some l → short_text maximum (cstr l).

Definition optional_fields (n : Z) (text : ptr) : list field :=
  match text with Some l => [Field n 0 (cstr l)] | None => [] end.

(** The arguments of a login. *)
Record login_arguments (login_name password tail protocol : list Z) (metadata : ftap_metadata) : Prop := {
  la_login_bytes : bytes_ok login_name;
  la_login_text : short_text FTAP_LOGIN_NAME_MAX (cstr login_name);
  la_password_bytes : bytes_ok (password ++ tail);
  la_password_text : short_text FTAP_PASSWORD_MAX password;
  la_metadata : metadata_ok metadata;
  la_protocol_given : md_protocol metadata = Some protocol;
  la_protocol_name : cstr protocol ∈ [FTAP_PROTOCOL_TELNET; FTAP_PROTOCOL_SSH; FTAP_PROTOCOL_LOCAL];
  la_source_address : ∀ l, md_source_ip metadata = Some l → canonical_address (cstr l);
  la_tty_text : optional_text FTAP_TTY_DEVICE_MAX (md_tty_device metadata);
  la_node_text : optional_text FTAP_NODE_ID_MAX (md_node_id metadata);
}.

Definition login_fields (login_name password protocol : list Z) (metadata : ftap_metadata) : list field :=
  [Field FTAP_FIELD_LOGIN_NAME 0 (cstr login_name);
   Field FTAP_FIELD_PASSWORD 0 password;
   Field FTAP_FIELD_PROTOCOL 0 (cstr protocol)]
  ++ optional_fields FTAP_FIELD_SOURCE_IP (md_source_ip metadata)
  ++ optional_fields FTAP_FIELD_TTY_DEVICE (md_tty_device metadata)
  ++ optional_fields FTAP_FIELD_NODE_ID (md_node_id metadata)
  ++ [Field FTAP_FIELD_AUTH_METHOD 0 FTAP_AUTH_METHOD_PASSWORD].

Lemma short_text_offer n maximum v :
  bytes_ok v → short_text maximum v → text_offer n maximum v = Some [Field n 0 v].
Proof.
  intros Hok (_ & Hl & Hu). unfold text_offer. rewrite (proj2 (Z.leb_le _ _)) by done.
  by rewrite (proj2 (utf8_ok_text v Hok)).
Qed.

Lemma optional_offer_fields n maximum text :
  text_ok text → optional_text maximum text → optional_offer n maximum text = Some (optional_fields n text).
Proof.
  intros Hok Ht. destruct text as [l|]; [|done]. apply short_text_offer; [|by apply Ht].
  by apply cstr_bytes_ok, Hok.
Qed.

Lemma address_text v : canonical_address v → short_text FTAP_IP_ADDRESS_MAX v.
Proof. intros (? & ? & ? & _). by split_and!. Qed.

Lemma enum_text maximum names v :
  Forall (λ name, zlen name <=? maximum = true ∧ utf8_ok name = true ∧ name ≠ []) names →
  v ∈ names → bytes_ok v → short_text maximum v.
Proof.
  intros Hnames Hin Hok. eapply Forall_forall in Hnames as (Hl & Hu & Hne); [|exact Hin]. bools.
  split_and!; [done|done|by apply utf8_ok_text].
Qed.

Lemma login_offer_fields login_name password tail protocol metadata :
  login_arguments login_name password tail protocol metadata →
  password_offer login_name password protocol metadata
    = Some (login_fields login_name password protocol metadata).
Proof.
  intros [Hlb Hlt Hpb Hpt Hm Hp Hpn Hip Htty Hnode]. destruct Hm as [Hmp Hmi Hmt Hmn].
  unfold password_offer. 
  rewrite (short_text_offer FTAP_FIELD_LOGIN_NAME) by (done || by apply cstr_bytes_ok).
  rewrite (short_text_offer FTAP_FIELD_PASSWORD) by (done || by apply bytes_ok_app in Hpb as [? _]).
  assert (bytes_ok (cstr protocol)) as Hpo by (apply cstr_bytes_ok; by apply Hmp).
  rewrite (short_text_offer FTAP_FIELD_PROTOCOL FTAP_PROTOCOL_NAME_MAX) by
    (first [done | eapply enum_text; [|exact Hpn|done]; repeat constructor; done]).
  rewrite (optional_offer_fields FTAP_FIELD_SOURCE_IP) by (done || intros l El; by apply address_text, Hip).
  rewrite (optional_offer_fields FTAP_FIELD_TTY_DEVICE) by done.
  rewrite (optional_offer_fields FTAP_FIELD_NODE_ID) by done.
  reflexivity.
Qed.

(** The parts of a validity argument that depend on the types only. *)
Lemma optional_forall (P : field → Prop) n text :
  (∀ l, text = Some l → P (Field n 0 (cstr l))) → Forall P (optional_fields n text).
Proof. intros HP. destruct text as [l|]; [|done]. constructor; [by apply HP|done]. Qed.

Lemma login_fields_value login_name password tail protocol metadata :
  login_arguments login_name password tail protocol metadata →
  Forall (value_ok FTAP_MSG_AUTH_PASSWORD_REQUEST) (login_fields login_name password protocol metadata).
Proof.
  intros [Hlb Hlt Hpb Hpt Hm Hp Hpn Hip Htty Hnode]. unfold login_fields.
  constructor; [by eapply value_ok_unrestricted|]. constructor; [by eapply value_ok_unrestricted|].
  constructor; [by eapply value_ok_unrestricted|].
  rewrite !Forall_app. split_and!; try (apply optional_forall; intros l El).
  - eapply value_ok_unrestricted; [done|done|]. by apply Hip.
  - eapply value_ok_unrestricted; [done|done|]. by apply Htty.
  - eapply value_ok_unrestricted; [done|done|]. by apply Hnode.
  - constructor; [|done]. eapply value_ok_unrestricted; [done|done|]. by left.
Qed.

Lemma text_wire n maximum v :
  field_number n → bytes_ok v → short_text maximum v → maximum <= UINT32_MAX → wire_ok (Field n 0 v).
Proof. intros Hn Hok (_ & Hl & _) Hmax. apply plain_wire_ok; [done|done|lia]. Qed.

Lemma optional_zlen n maximum text :
  0 <= maximum → optional_text maximum text → zlen (payload_of (optional_fields n text)) <= 8 + maximum.
Proof.
  intros Hmax Ht. destruct text as [l|]; [|change (0 <= 8 + maximum); lia]. destruct (Ht l eq_refl) as (_ & Hl & _).
  cbn [optional_fields]. rewrite payload_zlen_cons. cbn [f_value]. change (zlen (payload_of [])) with 0. lia.
Qed.

Lemma login_fields_wire login_name password tail protocol metadata :
  login_arguments login_name password tail protocol metadata →
  Forall wire_ok (login_fields login_name password protocol metadata) ∧
  zlen (payload_of (login_fields login_name password protocol metadata)) <= FTAP_MAX_PAYLOAD_SIZE.
Proof.
  intros [Hlb Hlt Hpb Hpt [Hmp Hmi Hmt Hmn] Hp Hpn Hip Htty Hnode].
  assert (bytes_ok (cstr protocol)) as Hpo by (apply cstr_bytes_ok; by apply Hmp).
  assert (short_text FTAP_PROTOCOL_NAME_MAX (cstr protocol)) as Hpt'
    by (eapply enum_text; [|exact Hpn|done]; repeat constructor; done).
  assert (optional_text FTAP_IP_ADDRESS_MAX (md_source_ip metadata)) as Hipt
    by (intros l El; by apply address_text, Hip).
  apply bytes_ok_app in Hpb as [Hpb _]. split.
  - unfold login_fields. constructor; [eapply text_wire; [field_number|by apply cstr_bytes_ok|done|done]|].
    constructor; [by eapply text_wire; [field_number|..]|].
    constructor; [by eapply text_wire; [field_number|..]|].
    rewrite !Forall_app. split_and!; try (apply optional_forall; intros l El;
      eapply text_wire; [field_number|by apply cstr_bytes_ok; auto|by auto|done]).
    constructor; [|done]. apply plain_wire_ok; [field_number|apply lit_bytes_ok|done].
  - unfold login_fields. cbn [app]. rewrite !payload_zlen_cons, !payload_zlen_app. cbn [f_value].
    pose proof (optional_zlen FTAP_FIELD_SOURCE_IP FTAP_IP_ADDRESS_MAX _ ltac:(vm_compute; congruence) Hipt).
    pose proof (optional_zlen FTAP_FIELD_TTY_DEVICE FTAP_TTY_DEVICE_MAX _ ltac:(vm_compute; congruence) Htty).
    pose proof (optional_zlen FTAP_FIELD_NODE_ID FTAP_NODE_ID_MAX _ ltac:(vm_compute; congruence) Hnode).
    destruct Hlt as (_ & ? & _), Hpt as (_ & ? & _), Hpt' as (_ & ? & _).
    rewrite payload_zlen_cons. change (zlen (payload_of [])) with 0. cbn [f_value].
    change (zlen FTAP_AUTH_METHOD_PASSWORD) with 8.
    unfold FTAP_LOGIN_NAME_MAX, FTAP_PASSWORD_MAX, FTAP_PROTOCOL_NAME_MAX, FTAP_IP_ADDRESS_MAX,
      FTAP_TTY_DEVICE_MAX, FTAP_NODE_ID_MAX, FTAP_MAX_PAYLOAD_SIZE in *. lia.
Qed.

(** A request with valid fields is a message. *)
Lemma request_ok state message_type id fs :
  Forall wire_ok fs → zlen (payload_of fs) <= FTAP_MAX_PAYLOAD_SIZE →
  FTAP_FIRST_CLIENT_REQUEST_ID <= id →
  ftap_message_type_is_known message_type = true →
  expected_flags message_type (Some 0) = (FTAP_STATUS_OK, Some 0) →
  state_allows_message state message_type = true →
  shape_ok (message_rules state message_type) (map f_type fs) = true →
  Forall (value_ok message_type) fs →
  message_ok state (response_header message_type 0 id (zlen (payload_of fs))) (payload_of fs).
Proof.
  intros Hw Hmax Hid Hknown Hflags Hstate Hshape Hvalue. split.
  - by split.
  - exists fs. split; [done|]. split; [done|]. by apply fields_ok_by_shape.
Qed.

Lemma login_fields_shape login_name password protocol metadata :
  shape_ok (message_rules FTAP_STATE_HELLO_COMPLETE FTAP_MSG_AUTH_PASSWORD_REQUEST)
    (map f_type (login_fields login_name password protocol metadata)) = true.
Proof.
  destruct metadata as [p [ip|] [tty|] [node|]]; vm_compute; reflexivity.
Qed.

Lemma login_fields_values login_name password protocol metadata :
  let fs := login_fields login_name password protocol metadata in
  required_value FTAP_FIELD_LOGIN_NAME fs = cstr login_name ∧
  required_value FTAP_FIELD_PASSWORD fs = password ∧
  required_value FTAP_FIELD_PROTOCOL fs = cstr protocol ∧
  value_of FTAP_FIELD_SOURCE_IP fs = cstr <$> md_source_ip metadata ∧
  value_of FTAP_FIELD_TTY_DEVICE fs = cstr <$> md_tty_device metadata ∧
  value_of FTAP_FIELD_NODE_ID fs = cstr <$> md_node_id metadata ∧
  known_fields fs = true.
Proof. destruct metadata as [p [ip|] [tty|] [node|]]; split_and!; reflexivity. Qed.

(** C22: A login that the client builds from usable arguments is a message that the
    daemon accepts, and [parse_password_request] reads from it the login name in
    lower case and the protocol, the address, the device, the node and the
    password as the caller of the client gave them. It fails only if the login
    name has other characters than the names of accounts. *)
Theorem login_request_understood login_name password tail protocol metadata id more :
  login_arguments login_name password tail protocol metadata →
  FTAP_FIRST_CLIENT_REQUEST_ID <= id → bytes_ok more →
  ∃ w, password_payload login_name (password ++ tail) (zlen password) protocol metadata
      = Some (FTAP_STATUS_OK, Some w) ∧
    message_ok FTAP_STATE_HELLO_COMPLETE
      (response_header FTAP_MSG_AUTH_PASSWORD_REQUEST 0 id (w_length w)) (contents w) ∧
    ∃ r, parse_password_request (Some (contents w ++ more)) (w_length w) = Some r ∧
      match r with
      | Some (a, buffer, length) =>
          cstr (la_login_name a) = map to_lower (cstr login_name) ∧
          cstr (la_protocol a) = cstr protocol ∧
          (if la_source_ip_set a then Some (cstr (la_source_ip a)) else None) = cstr <$> md_source_ip metadata ∧
          (if la_tty_device_set a then Some (cstr (la_tty_device a)) else None) = cstr <$> md_tty_device metadata ∧
          (if la_node_id_set a then Some (cstr (la_node_id a)) else None) = cstr <$> md_node_id metadata ∧
          buf_read buffer 0 length = Some password
      | None => login_text (cstr login_name) = false
      end.
Proof.
  intros Hargs Hid Hmore. pose proof Hargs as [Hlb _ Hpb _ Hm Hp _ _ _ _].
  destruct (login_fields_wire _ _ _ _ _ Hargs) as [Hw Hmax].
  assert (bytes_ok protocol) as Hpo by by apply Hm.
  pose proof (password_payload_built login_name password tail protocol metadata Hlb Hpb Hpo Hm) as Hb.
  rewrite (login_offer_fields _ _ tail) in Hb by done. unfold built in Hb.
  rewrite (proj2 (Z.leb_le _ _)) in Hb by done. destruct Hb as (w & -> & Hwok & _ & Hc).
  exists w. split; [done|]. rewrite <- (contents_zlen w Hwok), Hc.
  assert (message_ok FTAP_STATE_HELLO_COMPLETE (response_header FTAP_MSG_AUTH_PASSWORD_REQUEST 0 id
    (zlen (payload_of (login_fields login_name password protocol metadata))))
    (payload_of (login_fields login_name password protocol metadata))) as Hmsg.
  { apply request_ok; try done; [apply login_fields_shape|by eapply login_fields_value]. }
  split; [done|].
  destruct (parse_validated_password_request _ _ more Hmsg eq_refl Hw Hmore) as (r & Hr & Hres).
  exists r. split; [done|].
  destruct (login_fields_values login_name password protocol metadata) as (E1 & E2 & E3 & E4 & E5 & E6 & E7).
  destruct r as [[[a buffer] length]|].
  - destruct Hres as (H1 & _ & H3 & H4 & H5 & H6 & H7). by split_and!; congruence.
  - destruct Hres as [Hl|Hk]; congruence.
Qed.
End requests.

Section registration.
Context `{Inet}.

(** The arguments of a registration. *)
Record registration_arguments (login_name display_name_ password tail protocol source_ip : list Z)
    (metadata : ftap_metadata) : Prop := {
  ga_login_bytes : bytes_ok login_name;
  ga_login_text : short_text FTAP_LOGIN_NAME_MAX (cstr login_name);
  ga_display_bytes : bytes_ok display_name_;
  ga_display_text : short_text FTAP_DISPLAY_NAME_MAX (cstr display_name_) ∧ display_name (cstr display_name_);
  ga_password_bytes : bytes_ok (password ++ tail);
  ga_password_text : short_text FTAP_PASSWORD_MAX password;
  ga_metadata : metadata_ok metadata;
  ga_protocol_given : md_protocol metadata = Some protocol;
  ga_protocol_name : cstr protocol = FTAP_PROTOCOL_TELNET;
  ga_source_given : md_source_ip metadata = Some source_ip;
  ga_source_address : canonical_address (cstr source_ip);
  ga_tty_text : optional_text FTAP_TTY_DEVICE_MAX (md_tty_device metadata);
  ga_node_text : optional_text FTAP_NODE_ID_MAX (md_node_id metadata);
}.

Definition begin_fields (login_name display_name_ password protocol source_ip : list Z)
    (metadata : ftap_metadata) : list field :=
  [Field FTAP_FIELD_LOGIN_NAME 0 (cstr login_name);
   Field FTAP_FIELD_DISPLAY_NAME 0 (cstr display_name_);
   Field FTAP_FIELD_PASSWORD 0 password;
   Field FTAP_FIELD_PROTOCOL 0 (cstr protocol);
   Field FTAP_FIELD_SOURCE_IP 0 (cstr source_ip)]
  ++ optional_fields FTAP_FIELD_TTY_DEVICE (md_tty_device metadata)
  ++ optional_fields FTAP_FIELD_NODE_ID (md_node_id metadata)
  ++ [Field FTAP_FIELD_AUTH_METHOD 0 FTAP_AUTH_METHOD_PASSWORD].

Lemma telnet_text : short_text FTAP_PROTOCOL_NAME_MAX FTAP_PROTOCOL_TELNET.
Proof. split_and!; [done|done|]. apply utf8_ok_text; [apply lit_bytes_ok|reflexivity]. Qed.

Lemma begin_offer_fields login_name display_name_ password tail protocol source_ip metadata :
  registration_arguments login_name display_name_ password tail protocol source_ip metadata →
  begin_offer login_name display_name_ password protocol source_ip metadata
    = Some (begin_fields login_name display_name_ password protocol source_ip metadata).
Proof.
  intros [Hlb Hlt Hdb [Hdt _] Hpb Hpt [Hmp Hmi Hmt Hmn] Hp Hpn Hi Hip Htty Hnode]. unfold begin_offer.
  assert (bytes_ok (cstr source_ip)) as Hib by (apply cstr_bytes_ok; by apply Hmi).
  apply bytes_ok_app in Hpb as [Hpb _].
  rewrite (short_text_offer FTAP_FIELD_LOGIN_NAME) by (done || by apply cstr_bytes_ok).
  rewrite (short_text_offer FTAP_FIELD_DISPLAY_NAME) by (done || by apply cstr_bytes_ok).
  rewrite (short_text_offer FTAP_FIELD_PASSWORD) by done.
  rewrite Hpn, (short_text_offer FTAP_FIELD_PROTOCOL) by (apply telnet_text || apply lit_bytes_ok).
  rewrite (short_text_offer FTAP_FIELD_SOURCE_IP) by (done || by apply address_text).
  rewrite (optional_offer_fields FTAP_FIELD_TTY_DEVICE) by done.
  rewrite (optional_offer_fields FTAP_FIELD_NODE_ID) by done.
  unfold begin_fields. rewrite Hpn. reflexivity.
Qed.

(** A value of a registration request that has no further restriction. *)
Lemma value_ok_begin n v k :
  field_kind n = Some k → kind_ok k v → n ≠ FTAP_FIELD_DISPLAY_NAME → n ≠ FTAP_FIELD_PROTOCOL →
  value_ok FTAP_MSG_REGISTRATION_BEGIN_REQUEST (Field n 0 v).
Proof.
  intros Hk Hv Hd Hp. split; [by exists k|]. split; [done|]. cbn [f_type f_value].
  intros names Hin. unfold restrictions in Hin. rewrite !elem_of_cons, elem_of_nil in Hin.
  by repeat destruct Hin as [[= ? ?]|Hin].
Qed.

Lemma begin_fields_value login_name display_name_ password tail protocol source_ip metadata :
  registration_arguments login_name display_name_ password tail protocol source_ip metadata →
  Forall (value_ok FTAP_MSG_REGISTRATION_BEGIN_REQUEST)
    (begin_fields login_name display_name_ password protocol source_ip metadata).
Proof.
  intros [Hlb Hlt Hdb [Hdt Hdn] Hpb Hpt _ Hp Hpn Hi Hip Htty Hnode]. unfold begin_fields.
  constructor; [by eapply value_ok_begin|]. constructor.
  { split; [by eexists|]. split; [done|]. cbn [f_type f_value]. intros names Hin.
    unfold restrictions in Hin. rewrite !elem_of_cons, elem_of_nil in Hin. by repeat destruct Hin as [[= ?]|Hin]. }
  constructor; [by eapply value_ok_begin|]. constructor.
  { rewrite Hpn. apply value_ok_constant; [field_number|apply lit_bytes_ok|done|reflexivity]. }
  constructor; [by eapply value_ok_begin|].
  rewrite !Forall_app. split_and!; try (apply optional_forall; intros l El).
  - eapply value_ok_begin; [done| |done..]. by apply Htty.
  - eapply value_ok_begin; [done| |done..]. by apply Hnode.
  - constructor; [|done]. eapply value_ok_begin; [done| |done..]. by left.
Qed.

Lemma begin_fields_wire login_name display_name_ password tail protocol source_ip metadata :
  registration_arguments login_name display_name_ password tail protocol source_ip metadata →
  Forall wire_ok (begin_fields login_name display_name_ password protocol source_ip metadata) ∧
  zlen (payload_of (begin_fields login_name display_name_ password protocol source_ip metadata))
    <= FTAP_MAX_PAYLOAD_SIZE.
Proof.
  intros [Hlb Hlt Hdb [Hdt _] Hpb Hpt [Hmp Hmi Hmt Hmn] Hp Hpn Hi Hip Htty Hnode].
  assert (bytes_ok (cstr source_ip)) as Hib by (apply cstr_bytes_ok; by apply Hmi).
  pose proof (address_text _ Hip) as Hipt. apply bytes_ok_app in Hpb as [Hpb _]. split.
  - unfold begin_fields. rewrite Hpn.
    constructor; [by eapply text_wire; [field_number|apply cstr_bytes_ok|..]|].
    constructor; [by eapply text_wire; [field_number|apply cstr_bytes_ok|..]|].
    constructor; [by eapply text_wire; [field_number|..]|].
    constructor; [apply plain_wire_ok; [field_number|apply lit_bytes_ok|done]|].
    constructor; [by eapply text_wire; [field_number|..]|].
    rewrite !Forall_app. split_and!; try (apply optional_forall; intros l El;
      eapply text_wire; [field_number|by apply cstr_bytes_ok; auto|by auto|done]).
    constructor; [|done]. apply plain_wire_ok; [field_number|apply lit_bytes_ok|done].
  - unfold begin_fields. rewrite Hpn. cbn [app]. rewrite !payload_zlen_cons, !payload_zlen_app. cbn [f_value].
    pose proof (optional_zlen FTAP_FIELD_TTY_DEVICE FTAP_TTY_DEVICE_MAX _ ltac:(vm_compute; congruence) Htty).
    pose proof (optional_zlen FTAP_FIELD_NODE_ID FTAP_NODE_ID_MAX _ ltac:(vm_compute; congruence) Hnode).
    destruct Hlt as (_ & ? & _), Hpt as (_ & ? & _), Hdt as (_ & ? & _), Hipt as (_ & ? & _).
    rewrite payload_zlen_cons. change (zlen (payload_of [])) with 0. cbn [f_value].
    change (zlen FTAP_AUTH_METHOD_PASSWORD) with 8. change (zlen FTAP_PROTOCOL_TELNET) with 6.
    unfold FTAP_LOGIN_NAME_MAX, FTAP_PASSWORD_MAX, FTAP_DISPLAY_NAME_MAX, FTAP_IP_ADDRESS_MAX,
      FTAP_TTY_DEVICE_MAX, FTAP_NODE_ID_MAX, FTAP_MAX_PAYLOAD_SIZE in *. lia.
Qed.

Lemma begin_fields_shape login_name display_name_ password protocol source_ip metadata :
  shape_ok (message_rules FTAP_STATE_HELLO_COMPLETE FTAP_MSG_REGISTRATION_BEGIN_REQUEST)
    (map f_type (begin_fields login_name display_name_ password protocol source_ip metadata)) = true.
Proof. destruct metadata as [p ip [tty|] [node|]]; vm_compute; reflexivity. Qed.

Lemma optional_field_ok (ok : field → bool) n text :
  (∀ l, text = Some l → ok (Field n 0 (cstr l)) = true) → forallb ok (optional_fields n text) = true.
Proof. intros Hok. destruct text as [l|]; [|done]. cbn. by rewrite Hok. Qed.

(** The daemon can store every field, if the login name is one. *)
Lemma begin_fields_acceptable login_name display_name_ password tail protocol source_ip metadata :
  registration_arguments login_name display_name_ password tail protocol source_ip metadata →
  forallb registration_field_ok (begin_fields login_name display_name_ password protocol source_ip metadata)
    = login_text (cstr login_name).
Proof.
  intros [Hlb Hlt Hdb [Hdt _] Hpb Hpt _ Hp Hpn Hi Hip Htty Hnode].
  pose proof (address_text _ Hip) as (_ & Hipl & _). destruct Hpt as (_ & Hpl & _), Hdt as (_ & Hdl & _).
  apply Z.leb_le in Hpl, Hdl, Hipl. unfold begin_fields. rewrite !forallb_app. rewrite Hpn. cbn [forallb].
  rewrite (optional_field_ok _ FTAP_FIELD_TTY_DEVICE), (optional_field_ok _ FTAP_FIELD_NODE_ID).
  - assert (registration_field_ok (Field FTAP_FIELD_LOGIN_NAME 0 (cstr login_name))
      = login_text (cstr login_name)) as -> by reflexivity.
    assert (registration_field_ok (Field FTAP_FIELD_DISPLAY_NAME 0 (cstr display_name_)) = true)
      as -> by exact Hdl.
    assert (registration_field_ok (Field FTAP_FIELD_PASSWORD 0 password) = true) as -> by exact Hpl.
    assert (registration_field_ok (Field FTAP_FIELD_SOURCE_IP 0 (cstr source_ip)) = true)
      as -> by exact Hipl.
    change (registration_field_ok (Field FTAP_FIELD_PROTOCOL 0 FTAP_PROTOCOL_TELNET)) with true.
    change (registration_field_ok (Field FTAP_FIELD_AUTH_METHOD 0 FTAP_AUTH_METHOD_PASSWORD)) with true.
    cbn [andb]. by rewrite !andb_true_r.
  - intros l El. destruct (Hnode l El) as (_ & Hl & _). apply Z.leb_le in Hl. exact Hl.
  - intros l El. destruct (Htty l El) as (_ & Hl & _). apply Z.leb_le in Hl. exact Hl.
Qed.

Lemma begin_fields_values login_name display_name_ password protocol source_ip metadata :
  let fs := begin_fields login_name display_name_ password protocol source_ip metadata in
  value_of FTAP_FIELD_LOGIN_NAME fs = Some (cstr login_name) ∧
  value_of FTAP_FIELD_DISPLAY_NAME fs = Some (cstr display_name_) ∧
  value_of FTAP_FIELD_PASSWORD fs = Some password ∧
  value_of FTAP_FIELD_PROTOCOL fs = Some (cstr protocol) ∧
  value_of FTAP_FIELD_SOURCE_IP fs = Some (cstr source_ip) ∧
  value_of FTAP_FIELD_TTY_DEVICE fs = cstr <$> md_tty_device metadata ∧
  value_of FTAP_FIELD_NODE_ID fs = cstr <$> md_node_id metadata ∧
  forallb (λ type, present type fs) registration_fields = true.
Proof. destruct metadata as [p ip [tty|] [node|]]; split_and!; reflexivity. Qed.

(** An optional text in its array. *)
Lemma holds_optional type fs array text :
  holds type fs array → value_of type fs = cstr <$> text →
  (if present type fs then Some (cstr array) else None) = cstr <$> text.
Proof.
  unfold holds, present. intros Hh Hv. rewrite Hv in *. destruct text as [l|]; [|done]. cbn in *.
  by rewrite Hh, cstr_idemp.
Qed.

(** C26: A registration that the client builds from usable arguments is a message
    that the daemon accepts, and [parse_registration_begin_request] reads from it
    the login name in lower case and everything else as the caller of the client
    gave it. It fails only if the login name has other characters than the
    names of accounts. *)
Theorem registration_request_understood login_name display_name_ password tail protocol source_ip metadata
    id more :
  registration_arguments login_name display_name_ password tail protocol source_ip metadata →
  FTAP_FIRST_CLIENT_REQUEST_ID <= id → bytes_ok more →
  ∃ w, begin_payload login_name display_name_ (password ++ tail) (zlen password) protocol source_ip metadata
      = Some (FTAP_STATUS_OK, Some w) ∧
    message_ok FTAP_STATE_HELLO_COMPLETE
      (response_header FTAP_MSG_REGISTRATION_BEGIN_REQUEST 0 id (w_length w)) (contents w) ∧
    ∃ r, parse_registration_begin_request (Some (contents w ++ more)) (w_length w) = Some r ∧
      match r with
      | Some (a, buffer, length) =>
          cstr (ra_login_name a) = map to_lower (cstr login_name) ∧
          cstr (ra_display_name a) = cstr display_name_ ∧
          cstr (ra_protocol a) = cstr protocol ∧ cstr (ra_source_ip a) = cstr source_ip ∧
          (if ra_tty_device_set a then Some (cstr (ra_tty_device a)) else None) = cstr <$> md_tty_device metadata ∧
          (if ra_node_id_set a then Some (cstr (ra_node_id a)) else None) = cstr <$> md_node_id metadata ∧
          buf_read buffer 0 length = Some password
      | None => login_text (cstr login_name) = false
      end.
Proof.
  intros Hargs Hid Hmore. pose proof Hargs as [Hlb _ Hdb _ Hpb _ Hm Hp _ Hi _ _ _].
  destruct (begin_fields_wire _ _ _ _ _ _ _ Hargs) as [Hw Hmax].
  assert (bytes_ok protocol) as Hpo by by apply Hm. assert (bytes_ok source_ip) as Hio by by apply (mo_source_ip _ Hm).
  pose proof (begin_payload_built login_name display_name_ password tail protocol source_ip metadata
    Hlb Hdb Hpb Hpo Hio Hm) as Hb.
  rewrite (begin_offer_fields _ _ _ tail) in Hb by done. unfold built in Hb.
  rewrite (proj2 (Z.leb_le _ _)) in Hb by done. destruct Hb as (w & -> & Hwok & _ & Hc).
  exists w. split; [done|]. rewrite <- (contents_zlen w Hwok), Hc. split.
  { apply request_ok; try done; [apply begin_fields_shape|by eapply begin_fields_value]. }
  pose proof (begin_fields_acceptable _ _ _ _ _ _ _ Hargs) as Hok.
  set (fs := begin_fields _ _ _ _ _ _) in *.
  destruct (parse_registration_begin_request_spec (payload_of fs) more) as (r & Hr & Hres);
    [apply bytes_ok_app; split; [by apply payload_of_ok|done]|done|].
  exists r. split; [done|].
  destruct (begin_fields_values login_name display_name_ password protocol source_ip metadata)
    as (E1 & E2 & E3 & E4 & E5 & E6 & E7 & E8). fold fs in E1, E2, E3, E4, E5, E6, E7, E8.
  destruct r as [[[a buffer] length]|].
  - destruct Hres as (fs' & Hp' & Hw' & _ & _ & [H1 H2 H3 H4 H5 H6 H7 H8 H9 _ _ _ _ _ _] & _).
    apply payload_of_inj in Hp' as <-; [|done..]. cbn [rr_attempt rr_password rr_password_length] in *.
    rewrite H7, H8. unfold holds_login, holds_password in *. rewrite E1 in H1. rewrite E3 in H9.
    split_and!; [done| | | |by apply holds_optional|by apply holds_optional|done];
      unfold holds in H2, H3, H4.
    + rewrite H2, E2. apply cstr_idemp.
    + rewrite H3, E4. apply cstr_idemp.
    + rewrite H4, E5. apply cstr_idemp.
  - destruct (login_text (cstr login_name)); [|done].
    by rewrite (Hres fs eq_refl Hw Hok) in E8.
Qed.
End registration.

(** ** Responses *)

Section responses.
Context `{Inet}.

(** The counters of an account are 64-bit words. *)
Record words_ok (s : authd_terminal_session_result) : Prop := {
  wo_epoch : fits 64 (ts_auth_epoch s);
  wo_revision : fits 64 (ts_authz_revision s);
}.

(** The identity that the client hands to its caller is the one of the daemon. *)
Record same_session (s : authd_terminal_session_result) (login display legacy : list Z)
    (c : ftap_terminal_context) : Prop := {
  ss_user : tc_user_id c = ts_user_id s;
  ss_session : tc_session_id c = ts_session_id s;
  ss_login : cstr (tc_login_name c) = cstr login;
  ss_display : cstr (tc_display_name c) = cstr display;
  ss_legacy : cstr (tc_legacy_name c) = cstr legacy;
  ss_epoch : tc_auth_epoch c = ts_auth_epoch s;
  ss_revision : tc_authz_revision c = ts_authz_revision s;
}.

(** The frame that the daemon queued, in the memory of the client. *)
Definition received_from (c : authd_client) (frame : ftap_received_frame) : Prop :=
  ∃ header payload, outgoing c = frame_bytes header payload ∧ header_ok header ∧
    rf_header frame = header ∧ frame_holds frame payload.

Lemma delivered_response st c c' message_type flags request_id fs close_after :
  delivers st c c' message_type flags request_id fs close_after →
  fields_ok message_type (message_rules st message_type) fs ∧ Forall wire_ok fs ∧
  zlen (payload_of fs) <= FTAP_MAX_PAYLOAD_SIZE.
Proof.
  intros [_ [Hh (fs' & Hp & Hw' & Hfs)] Hw _]. apply payload_of_inj in Hp as <-; [|done..].
  split; [done|]. split; [done|]. apply Hh.
Qed.

Lemma delivered_frame st c c' message_type flags request_id fs close_after frame :
  fits 64 request_id → fits 16 message_type → fits 16 flags →
  delivers st c c' message_type flags request_id fs close_after →
  received_from c' frame → frame_holds frame (payload_of fs).
Proof.
  intros Hid Htype Hflags Hd (header & payload & Ho & Hh & Hf & Hframe).
  destruct (delivered_response _ _ _ _ _ _ _ _ Hd) as (_ & _ & Hmax).
  rewrite (deliver_bytes _ _ _ _ _ _ _ _ Hd) in Ho. apply frame_bytes_inj in Ho as [_ <-]; [done| |done].
  pose proof (zlen_nonneg (payload_of fs)). split; cbn; try done.
  unfold fits, FTAP_MAX_PAYLOAD_SIZE in *. lia.
Qed.

Lemma word_back fs type v :
  fits 64 v → required_value type fs = be_bytes 8 v → word_member type fs = v.
Proof. intros Hv Hr. unfold word_member. rewrite Hr. by apply be_val_bytes_fits. Qed.

Lemma same_session_of fs s login display legacy c :
  context_of fs c → words_ok s →
  uuid_member FTAP_FIELD_USER_ID fs = ts_user_id s →
  uuid_member FTAP_FIELD_SESSION_ID fs = ts_session_id s →
  value_of FTAP_FIELD_LOGIN_NAME fs = Some (cstr login) →
  value_of FTAP_FIELD_DISPLAY_NAME fs = Some (cstr display) →
  value_of FTAP_FIELD_LEGACY_NAME fs = Some (cstr legacy) →
  required_value FTAP_FIELD_AUTH_EPOCH fs = be_bytes 8 (ts_auth_epoch s) →
  required_value FTAP_FIELD_AUTHZ_REVISION fs = be_bytes 8 (ts_authz_revision s) →
  same_session s login display legacy c.
Proof.
  intros [X1 X2 X3 X4 X5 X6 X7 X8 X9] [He Hr] E1 E2 E3 E4 E5 E6 E7. unfold holds in *. rewrite E3, E4, E5 in *. cbn in *.
  split; rewrite ?cstr_idemp in *; try congruence.
  - rewrite X8. by apply word_back.
  - rewrite X9. by apply word_back.
Qed.

(** The state that the client of a login is in when the response arrives. *)
Lemma authentication_result_read c request_id attempt s frame error :
  output_ok c → drained c → session_ok s → words_ok s →
  names_ok (lr_login_name (la_record attempt)) (lr_display_name (la_record attempt))
    (lr_legacy_name (la_record attempt)) →
  fits 64 request_id → FTAP_FIRST_CLIENT_REQUEST_ID <= request_id →
  ∃ c', queue_authentication_result c request_id attempt s = Some (0, c') ∧
    (received_from c' frame →
     ∃ context, parse_terminal_context frame false error = Some (Some context, error) ∧
       same_session s (lr_login_name (la_record attempt)) (lr_display_name (la_record attempt))
         (lr_legacy_name (la_record attempt)) context).
Proof.
  intros Ho Hd Hs Hwords Hn Hfits Hid.
  destruct (queue_authentication_result_delivers c request_id attempt s FTAP_STATE_AUTHENTICATING)
    as (c' & Hrun & Hdel); try done.
  exists c'. split; [done|]. intros Hframe.
  assert (frame_holds frame _) as Hfr
    by (eapply (delivered_frame _ _ _ _ _ _ _ _ frame Hfits); [| |exact Hdel|done]; split; vm_compute; congruence).
  destruct (delivered_response _ _ _ _ _ _ _ _ Hdel) as (Hfs & Hw & Hmax).
  destruct (parse_terminal_context_spec FTAP_MSG_AUTH_PASSWORD_RESULT false frame _ error Hfs Hw Hfr Hmax)
    as (context & e & Hc & _ & Hparse).
  exists context. split; [exact Hparse|]. by eapply same_session_of.
Qed.

Lemma session_context_result_read c request_id frame error :
  output_ok c → drained c → session_open c = true → session_ok (session c) → words_ok (session c) →
  bound_names_ok (session_context c) →
  fits 64 request_id → FTAP_FIRST_CLIENT_REQUEST_ID <= request_id →
  ∃ c', queue_session_context_result c request_id = Some (0, c') ∧
    (received_from c' frame →
     ∃ context, parse_terminal_context frame true error = Some (Some context, error) ∧
       same_session (session c) (bs_login_name (session_context c)) (bs_display_name (session_context c))
         (bs_legacy_name (session_context c)) context ∧
       cstr (tc_protocol context) = cstr (bs_protocol (session_context c)) ∧
       cstr (tc_auth_method context) = cstr (bs_auth_method (session_context c))).
Proof.
  intros Ho Hd Hopen Hs Hwords Hn Hfits Hid.
  destruct (queue_session_context_result_delivers c request_id FTAP_STATE_SESSION_BOUND)
    as (c' & Hrun & Hdel); try done.
  exists c'. split; [done|]. intros Hframe.
  assert (frame_holds frame _) as Hfr
    by (eapply (delivered_frame _ _ _ _ _ _ _ _ frame Hfits); [| |exact Hdel|done]; split; vm_compute; congruence).
  destruct (delivered_response _ _ _ _ _ _ _ _ Hdel) as (Hfs & Hw & Hmax).
  destruct (parse_terminal_context_spec FTAP_MSG_SESSION_CONTEXT_RESULT true frame _ error Hfs Hw Hfr Hmax)
    as (context & e & Hc & _ & Hparse).
  exists context. split; [exact Hparse|]. split; [by eapply same_session_of|].
  destruct Hc as [_ _ _ _ _ X6 X7 _ _]. unfold holds in X6, X7. rewrite X6, X7. split; apply cstr_idemp.
Qed.

(** The registration that the client keeps is the one of the daemon. *)
Record same_pending (r : authd_registration_begin_result) (g : ftap_registration_context) : Prop := {
  sp_id : rg_registration_id g = rb_registration_id r;
  sp_user : rg_user_id g = rb_user_id r;
  sp_login : cstr (rg_login_name g) = cstr (rb_login_name r);
  sp_display : cstr (rg_display_name g) = cstr (rb_display_name r);
  sp_legacy : cstr (rg_legacy_name g) = cstr (rb_legacy_name r);
}.

Lemma registration_begin_result_read c request_id r frame error :
  output_ok c → drained c → registration_ok r →
  fits 64 request_id → FTAP_FIRST_CLIENT_REQUEST_ID <= request_id →
  ∃ c', queue_registration_begin_result c request_id r = Some (0, c') ∧
    (received_from c' frame →
     ∃ g, parse_registration_begin_context frame error = Some (Some g, error) ∧ same_pending r g).
Proof.
  intros Ho Hd Hr Hfits Hid.
  destruct (queue_registration_begin_result_delivers c request_id r FTAP_STATE_REGISTERING)
    as (c' & Hrun & Hdel); try done.
  exists c'. split; [done|]. intros Hframe.
  assert (frame_holds frame _) as Hfr
    by (eapply (delivered_frame _ _ _ _ _ _ _ _ frame Hfits); [| |exact Hdel|done]; split; vm_compute; congruence).
  destruct (delivered_response _ _ _ _ _ _ _ _ Hdel) as (Hfs & Hw & Hmax).
  destruct (parse_registration_begin_context_spec frame _ error Hfs Hw Hfr Hmax) as (g & e & Hg & _ & Hparse).
  exists g. split; [exact Hparse|]. destruct Hg as [X1 X2 X3 X4 X5]. unfold holds in X3, X4, X5.
  split; rewrite ?X1, ?X2, ?X3, ?X4, ?X5; try reflexivity; apply cstr_idemp.
Qed.

(** The result of a commit is read if it is about the registration that the client
    keeps. *)
Lemma registration_commit_result_read c request_id r g frame error :
  output_ok c → drained c → commit_ok r → words_ok (rc_session r) →
  fits 64 request_id → FTAP_FIRST_CLIENT_REQUEST_ID <= request_id →
  rg_registration_id g = rc_registration_id r → rg_user_id g = ts_user_id (rc_session r) →
  cstr (rg_login_name g) = cstr (rc_login_name r) → cstr (rg_display_name g) = cstr (rc_display_name r) →
  cstr (rg_legacy_name g) = cstr (rc_legacy_name r) →
  ∃ c', queue_registration_commit_result c request_id r = Some (0, c') ∧
    (received_from c' frame →
     ∃ context, parse_registration_commit_context frame g error = Some (Some context, error) ∧
       same_session (rc_session r) (rc_login_name r) (rc_display_name r) (rc_legacy_name r) context).
Proof.
  intros Ho Hd Hr Hwords Hfits Hid G1 G2 G3 G4 G5.
  destruct (queue_registration_commit_result_delivers c request_id r FTAP_STATE_REGISTERING)
    as (c' & Hrun & Hdel); try done.
  exists c'. split; [done|]. intros Hframe.
  assert (frame_holds frame _) as Hfr
    by (eapply (delivered_frame _ _ _ _ _ _ _ _ frame Hfits); [| |exact Hdel|done]; split; vm_compute; congruence).
  destruct (delivered_response _ _ _ _ _ _ _ _ Hdel) as (Hfs & Hw & Hmax).
  destruct (parse_registration_commit_context_spec frame g _ error Hfs Hw Hfr Hmax) as (context & e & Hc & _ & Hparse).
  assert (same_session (rc_session r) (rc_login_name r) (rc_display_name r) (rc_legacy_name r) context)
    as Hsame by by eapply same_session_of.
  exists context. split; [|done]. rewrite Hparse, <- (result_identity_of _ _ context) by done.
  destruct Hsame as [Y1 Y2 Y3 Y4 Y5 _ _].
  change (uuid_member FTAP_FIELD_REGISTRATION_ID _) with (rc_registration_id r).
  assert (same_identity g (rc_registration_id r) context = true) as ->; [|done].
  unfold same_identity. rewrite G1, G2, G3, G4, G5, Y1, Y3, Y4, Y5. by rewrite !bool_decide_true.
Qed.

Lemma registration_abort_result_read c request_id r g frame error :
  output_ok c → drained c → registration_ok r → same_pending r g →
  fits 64 request_id → FTAP_FIRST_CLIENT_REQUEST_ID <= request_id →
  ∃ c', queue_registration_abort_result c request_id r = Some (0, c') ∧
    (received_from c' frame → parse_registration_abort_result frame g error = Some (true, error)).
Proof.
  intros Ho Hd Hr [G1 G2 _ _ _] Hfits Hid.
  destruct (queue_registration_abort_result_delivers c request_id r FTAP_STATE_REGISTERING)
    as (c' & Hrun & Hdel); try done.
  exists c'. split; [done|]. intros Hframe.
  assert (frame_holds frame _) as Hfr
    by (eapply (delivered_frame _ _ _ _ _ _ _ _ frame Hfits); [| |exact Hdel|done]; split; vm_compute; congruence).
  destruct (delivered_response _ _ _ _ _ _ _ _ Hdel) as (Hfs & Hw & Hmax).
  destruct (parse_registration_abort_result_spec frame g _ error Hfs Hw Hfr Hmax) as (e & _ & Hparse).
  rewrite Hparse. unfold same_registration.
  change (uuid_member FTAP_FIELD_REGISTRATION_ID _) with (rb_registration_id r).
  change (uuid_member FTAP_FIELD_USER_ID _) with (rb_user_id r).
  by rewrite G1, G2, !bool_decide_true.
Qed.

(** C21: The responses of the daemon are read by the parsers of the client as what the
    daemon put into them: the identity of a login, a registration that has been
    begun, the identity of a committed registration if it is the one that the client
    keeps, and the confirmation that it has been aborted. *)
Theorem responses_understood c request_id frame error :
  output_ok c → drained c → fits 64 request_id → FTAP_FIRST_CLIENT_REQUEST_ID <= request_id →
  (∀ attempt s, session_ok s → words_ok s →
     names_ok (lr_login_name (la_record attempt)) (lr_display_name (la_record attempt))
       (lr_legacy_name (la_record attempt)) →
     ∃ c', queue_authentication_result c request_id attempt s = Some (0, c') ∧
       (received_from c' frame →
        ∃ context, parse_terminal_context frame false error = Some (Some context, error) ∧
          same_session s (lr_login_name (la_record attempt)) (lr_display_name (la_record attempt))
            (lr_legacy_name (la_record attempt)) context)) ∧
  (∀ r, registration_ok r →
     ∃ c', queue_registration_begin_result c request_id r = Some (0, c') ∧
       (received_from c' frame →
        ∃ g, parse_registration_begin_context frame error = Some (Some g, error) ∧ same_pending r g)) ∧
  (∀ r g, commit_ok r → words_ok (rc_session r) →
     same_pending (RegistrationBegin (rc_registration_id r) (ts_user_id (rc_session r)) (rc_login_name r)
                     (rc_display_name r) (rc_legacy_name r) 0 0) g →
     ∃ c', queue_registration_commit_result c request_id r = Some (0, c') ∧
       (received_from c' frame →
        ∃ context, parse_registration_commit_context frame g error = Some (Some context, error) ∧
          same_session (rc_session r) (rc_login_name r) (rc_display_name r) (rc_legacy_name r) context)) ∧
  (∀ r g, registration_ok r → same_pending r g →
     ∃ c', queue_registration_abort_result c request_id r = Some (0, c') ∧
       (received_from c' frame → parse_registration_abort_result frame g error = Some (true, error))).
Proof.
  intros Ho Hd Hfits Hid. split_and!.
  - intros. by apply authentication_result_read.
  - intros. by apply registration_begin_result_read.
  - intros r g Hr Hwords [G1 G2 G3 G4 G5]. by apply registration_commit_result_read.
  - intros. by apply registration_abort_result_read.
Qed.
End responses.

(** *** Examples *)

Definition frame_of (bytes : list Z) : ftap_received_frame :=
  ReceivedFrame (header_of_bytes bytes) (drop 24 bytes) (zlen bytes - 24).

Lemma received_example (queue : run (Z * authd_client)) c' :
  queue = Some (0, c') →
  (if decide (frame_bytes (header_of_bytes (queued queue)) (drop 24 (queued queue)) = queued queue
              ∧ bytes_ok (queued queue) ∧ 24 <= zlen (queued queue)) then true else false) = true →
  received_from c' (frame_of (queued queue)).
Proof.
  intros E. case_decide as Hd; [|done]. intros _. destruct Hd as (Hb & Hok & Hl).
  exists (header_of_bytes (queued queue)), (drop 24 (queued queue)). rewrite E in *. cbn [queued] in *.
  split; [done|]. split; [by apply header_of_bytes_ok|]. split; [done|]. split.
  - cbn [rf_payload_length frame_of]. unfold zlen in *. rewrite length_drop. lia.
  - exists []. rewrite app_nil_r. split; [done|]. by apply bytes_ok_drop.
Qed.

Lemma example_words_ok : words_ok example_session.
Proof. split; split; vm_compute; congruence. Qed.

Lemma responses_understood_witness :
  ∃ context, parse_registration_commit_context (frame_of commit_script) example_registration_context None
      = Some (Some context, None) ∧
    same_session (rc_session example_commit) (rc_login_name example_commit) (rc_display_name example_commit)
      (rc_legacy_name example_commit) context.
Proof.
  destruct (@responses_understood dotted_quad zero_client 2 (frame_of commit_script) None) as (_ & _ & H & _).
  - reflexivity.
  - reflexivity.
  - split; vm_compute; congruence.
  - vm_compute. congruence.
  - destruct (H example_commit example_registration_context) as (c' & Hq & Hread).
    + split; [apply example_uuid_ok|apply example_session_ok|apply example_names_ok].
    + apply example_words_ok.
    + split; reflexivity.
    + apply Hread. apply (received_example _ _ Hq). vm_compute. reflexivity.
Defined.

Lemma short_text_example maximum v :
  (if decide (v ≠ [] ∧ zlen v <= maximum ∧ bytes_ok v) then utf8_ok v else false) = true → short_text maximum v.
Proof.
  case_decide as Hd; [|done]. destruct Hd as (? & ? & ?). intros. split_and!; [done|done|by apply utf8_ok_text].
Qed.

Lemma example_source : @canonical_address dotted_quad (lit "192.0.2.10").
Proof.
  pose proof (short_text_example FTAP_IP_ADDRESS_MAX (lit "192.0.2.10") eq_refl) as (? & ? & ?).
  split_and!; [done|done|done|]. left. eexists _, _.
  split; [vm_compute; reflexivity|]. split; vm_compute; reflexivity.
Qed.

Lemma example_display : display_name (cstr (lit "Neo 42" ++ [0])).
Proof.
  change (cstr (lit "Neo 42" ++ [0])) with (lit "Neo 42").
  split; [vm_compute; congruence|]. exists (lit "Neo 42"). split_and!.
  - repeat constructor; unfold scalar; vm_compute; intuition congruence.
  - reflexivity.
  - repeat constructor; unfold visible; vm_compute; intuition congruence.
  - exists 78, 50. split_and!; vm_compute; congruence.
Qed.

Ltac example_argument :=
  first [ apply script_ok; vm_compute; reflexivity
        | apply short_text_example; vm_compute; reflexivity
        | intros ? [= <-]; apply example_source
        | intros ? [= <-]; apply short_text_example; vm_compute; reflexivity
        | intros ? [=]
        | apply example_metadata_ok
        | reflexivity ].

Lemma login_request_understood_witness :
  ∃ w, password_payload (lit "Neo.42" ++ [0]) (lit "trinity" ++ [0]) 7 (lit "telnet" ++ [0]) example_metadata
      = Some (FTAP_STATUS_OK, Some w) ∧
    ∃ a buffer length, parse_password_request (Some (contents w ++ [9])) (w_length w)
      = Some (Some (a, buffer, length)) ∧
      cstr (la_login_name a) = lit "neo.42" ∧ buf_read buffer 0 length = Some (lit "trinity").
Proof.
  destruct (@login_request_understood dotted_quad (lit "Neo.42" ++ [0]) (lit "trinity") [0] (lit "telnet" ++ [0])
    example_metadata 2 [9]) as (w & Hw & _ & r & Hr & Hres).
  - split; try example_argument. left.
  - vm_compute. congruence.
  - apply script_ok. vm_compute. reflexivity.
  - exists w. split; [exact Hw|]. destruct r as [[[a buffer] length]|].
    + destruct Hres as (Hl & _ & _ & _ & _ & Hp). exists a, buffer, length. split; [exact Hr|].
      split; [exact Hl|exact Hp].
    + vm_compute in Hres. discriminate.
Defined.

Lemma registration_request_understood_witness :
  ∃ w, begin_payload (lit "Neo.42" ++ [0]) (lit "Neo 42" ++ [0]) (lit "trinity" ++ [0]) 7 (lit "telnet" ++ [0])
      (lit "192.0.2.10" ++ [0]) example_metadata = Some (FTAP_STATUS_OK, Some w) ∧
    ∃ a buffer length, parse_registration_begin_request (Some (contents w ++ [9])) (w_length w)
      = Some (Some (a, buffer, length)) ∧
      cstr (ra_login_name a) = lit "neo.42" ∧ buf_read buffer 0 length = Some (lit "trinity").
Proof.
  destruct (@registration_request_understood dotted_quad (lit "Neo.42" ++ [0]) (lit "Neo 42" ++ [0]) (lit "trinity") [0]
    (lit "telnet" ++ [0]) (lit "192.0.2.10" ++ [0]) example_metadata 2 [9]) as (w & Hw & _ & r & Hr & Hres).
  - split; try example_argument; try apply example_source.
    split; [example_argument|apply example_display].
  - vm_compute. congruence.
  - apply script_ok. vm_compute. reflexivity.
  - exists w. split; [exact Hw|]. destruct r as [[[a buffer] length]|].
    + destruct Hres as (Hl & _ & _ & _ & _ & _ & Hp). exists a, buffer, length. split; [exact Hr|].
      split; [exact Hl|exact Hp].
    + vm_compute in Hres. discriminate.
Defined.
