(* ===== verification/LegacyUserdb.v ===== *)
(** * The legacy user database: names, identifiers and record fields

    [fortytwo-auth/src/legacy_userdb.c] and the data of its header. The BBS keeps its
    accounts in the file [users.data]: a header of 8 bytes and records of 598
    bytes, which are C structures ([lib/users.h], packed). A record is modelled as
    its bytes, and a member as the bytes at its offset. [UserdbScan] reads the file. *)

From S2P Require Import Prelude Utf8.

(** ** Constants *)

Definition LEGACY_USERDB_HEADER_SIZE : Z := 8.
Definition LEGACY_USERDB_RECORD_SIZE : Z := 598.
Definition LEGACY_USERDB_LEGACY_NAME_MAX : Z := 8.
Definition LEGACY_USERDB_DISPLAY_NAME_MAX : Z := 35.
Definition LEGACY_USERDB_PROTOCOL_MAX : Z := 20.
Definition LEGACY_USERDB_CHARSET_MAX : Z := 14.
Definition LEGACY_USERDB_UUID_SIZE : Z := 16.
Definition LEGACY_USERDB_UUID_TEXT_SIZE : Z := 37.
Definition LEGACY_USERDB_DEFAULT_MAX_RECORDS : Z := 65536.
Definition LEGACY_USERDB_NO_RECORD : Z := SIZE_MAX.
Definition LEGACY_USERDB_ERROR_TEXT_SIZE : Z := 160.
Definition LEGACY_USERDB_RECORD_MARKER_PREFIX : list Z := lit "FT42REG:".
Definition LEGACY_USERDB_EDITOR_LINE : Z := 0.
Definition LEGACY_USERDB_EDITOR_EXTERNAL : Z := 2.

Inductive legacy_userdb_status :=
| LEGACY_USERDB_OK
| LEGACY_USERDB_INVALID_ARGUMENT
| LEGACY_USERDB_OPEN_ROOT_FAILED
| LEGACY_USERDB_OPEN_ETC_FAILED
| LEGACY_USERDB_OPEN_FILE_FAILED
| LEGACY_USERDB_STAT_FAILED
| LEGACY_USERDB_NOT_REGULAR
| LEGACY_USERDB_OWNER_MISMATCH
| LEGACY_USERDB_GROUP_MISMATCH
| LEGACY_USERDB_MODE_MISMATCH
| LEGACY_USERDB_LINK_COUNT_MISMATCH
| LEGACY_USERDB_BUSY
| LEGACY_USERDB_LOCK_FAILED
| LEGACY_USERDB_HEADER_TRUNCATED
| LEGACY_USERDB_HEADER_MISMATCH
| LEGACY_USERDB_SIZE_MISMATCH
| LEGACY_USERDB_TOO_MANY_RECORDS
| LEGACY_USERDB_READ_FAILED
| LEGACY_USERDB_INVALID_RECORD
| LEGACY_USERDB_DUPLICATE_LEGACY_NAME
| LEGACY_USERDB_MEMORY_FAILED
| LEGACY_USERDB_CHANGED_DURING_SCAN
| LEGACY_USERDB_INVALID_REGISTRATION
| LEGACY_USERDB_ABI_MISMATCH
| LEGACY_USERDB_OPEN_RUNTIME_FAILED
| LEGACY_USERDB_RUNTIME_POLICY_MISMATCH
| LEGACY_USERDB_CREATE_LOCK_FAILED
| LEGACY_USERDB_GLOBAL_BUSY
| LEGACY_USERDB_OPEN_USERS_DIRECTORY_FAILED
| LEGACY_USERDB_USERS_DIRECTORY_POLICY_MISMATCH
| LEGACY_USERDB_NAME_COLLISION
| LEGACY_USERDB_REGISTRATION_EXISTS
| LEGACY_USERDB_TARGET_EXISTS
| LEGACY_USERDB_STAGING_EXISTS
| LEGACY_USERDB_CREATE_DIRECTORY_FAILED
| LEGACY_USERDB_CREATE_MARKER_FAILED
| LEGACY_USERDB_WRITE_MARKER_FAILED
| LEGACY_USERDB_WRITE_FAILED
| LEGACY_USERDB_SYNC_FAILED
| LEGACY_USERDB_VERIFY_FAILED
| LEGACY_USERDB_RENAME_FAILED
| LEGACY_USERDB_CONTEXT_INVALID
| LEGACY_USERDB_COMMIT_STATE_INVALID
| LEGACY_USERDB_FINALIZE_FAILED
| LEGACY_USERDB_ROLLBACK_UNSAFE
| LEGACY_USERDB_ROLLBACK_FAILED.

#[export] Instance legacy_userdb_status_eq_dec : EqDecision legacy_userdb_status.
Proof. solve_decision. Defined.

(** ** Data *)

(** [struct stat] *)
Record stat := Stat {
  st_dev : Z;
  st_ino : Z;
  st_size : Z;
  st_uid : Z;
  st_gid : Z;
  st_mode : Z;
  st_nlink : Z;
  st_mtim : Z * Z;
  st_ctim : Z * Z;
}.

Definition zero_stat : stat := Stat 0 0 0 0 0 0 0 (0, 0) (0, 0).

Record legacy_userdb_policy := UserdbPolicy {
  up_check_owner : bool;
  up_expected_uid : Z;
  up_check_group : bool;
  up_expected_gid : Z;
  up_check_mode : bool;
  up_expected_mode : Z;
  up_require_single_link : bool;
  up_max_records : Z;
}.

Record legacy_userdb_directory_policy := DirectoryPolicy {
  dp_check_owner : bool;
  dp_expected_uid : Z;
  dp_check_group : bool;
  dp_expected_gid : Z;
  dp_check_mode : bool;
  dp_expected_mode : Z;
}.

Record legacy_userdb_provision_policy := ProvisionPolicy {
  pp_database : legacy_userdb_policy;
  pp_users_directory : legacy_userdb_directory_policy;
  pp_runtime_directory : legacy_userdb_directory_policy;
}.

Record legacy_userdb_record_defaults := RecordDefaults {
  rd_security_level : Z;
  rd_security_flags : Z;
  rd_security_notflags : Z;
  rd_language : Z;
  rd_charset : Z;
  rd_message_editor : Z;
  rd_protocol : ptr;
  rd_email : bool;
  rd_mail_scan : bool;
  rd_new_file_scan : bool;
}.

Record legacy_userdb_registration := UserdbRegistration {
  ur_registration_id : list Z;
  ur_user_id : list Z;
  ur_legacy_name : ptr;
  ur_display_name : ptr;
  ur_registered_at : Z;
  ur_defaults : legacy_userdb_record_defaults;
}.

Record legacy_userdb_prepared_registration := PreparedRegistration {
  pr_prepared : bool;
  pr_commit_started : bool;
  pr_registration_id : list Z;
  pr_user_id : list Z;
  pr_legacy_name : list Z;
  pr_display_name : list Z;
  pr_record_number : Z;
  pr_original_size : Z;
  pr_database_device : Z;
  pr_database_inode : Z;
  pr_database_uid : Z;
  pr_database_gid : Z;
  pr_database_mode : Z;
  pr_database_links : Z;
  pr_users_directory_device : Z;
  pr_users_directory_inode : Z;
  pr_users_directory_uid : Z;
  pr_users_directory_gid : Z;
  pr_users_directory_mode : Z;
  pr_record_bytes : list Z;
}.

Record legacy_userdb_error := UserdbError {
  ue_status : legacy_userdb_status;
  ue_system_errno : Z;
  ue_record_number : Z;
  ue_repair_required : bool;
  ue_text : list Z;
}.

(** [memset(error, 0, sizeof( *error))] and the two assignments after it. *)
Definition cleared_error : legacy_userdb_error :=
  UserdbError LEGACY_USERDB_OK 0 LEGACY_USERDB_NO_RECORD false
    (replicate (Z.to_nat LEGACY_USERDB_ERROR_TEXT_SIZE) 0).

Definition legacy_userdb_error_clear (error : option legacy_userdb_error)
    : option legacy_userdb_error := (λ _, cleared_error) <$> error.

(** [p != NULL && p[0] == '/'] *)
Definition absolute (path : ptr) : run bool :=
  match path with
  | None => Some false
  | Some path => let! first := buf_get path 0 in Some (first =? chr "/")
  end.

(** ** Names *)

Definition ascii_fold (value : Z) : Z :=
  if Prelude.between (chr "A") (chr "Z") value then u8 (value - chr "A" + chr "a") else value.

(** The loop over both strings. *)
Fixpoint ascii_case_compare (left right : list Z) : run Z :=
  match left, right with
  | l :: left', r :: right' =>
      let left_value := ascii_fold l in
      let right_value := ascii_fold r in
      if negb (left_value =? right_value) then Some (if left_value <? right_value then -1 else 1)
      else if left_value =? 0 then Some 0
      else ascii_case_compare left' right'
  | _, _ => None
  end.

Definition legacy_name_letter (name : list Z) (index : Z) (s : unit) : run (ctl unit bool) :=
  let! value := buf_get name index in
  let alpha := Prelude.between (chr "a") (chr "z") value in
  let digit := Prelude.between (chr "0") (chr "9") value in
  let separator := (0 <? index) && ((value =? chr ".") || (value =? chr "_") || (value =? chr "-")) in
  Some (if negb alpha && negb digit && negb separator then Return false else Continue s).

Definition legacy_userdb_legacy_name_is_valid (legacy_name : ptr) : run bool :=
  match legacy_name with
  | None => Some false
  | Some name =>
      let! length := strnlen name (Z.to_nat (LEGACY_USERDB_LEGACY_NAME_MAX + 1)) in
      if (length =? 0) || (LEGACY_USERDB_LEGACY_NAME_MAX <? length) then Some false
      else
        let! c := for_range (Z.to_nat length) 0 (legacy_name_letter name) tt in
        Some match c with Return r => r | _ => true end
  end.

(** The length of a sequence and the bits of its first byte. *)
Definition utf8_lead (first : Z) : option (Z * Z) :=
  if Prelude.between 0xc2 0xdf first then Some (2, Z.land first 0x1f)
  else if Prelude.between 0xe0 0xef first then Some (3, Z.land first 0x0f)
  else if Prelude.between 0xf0 0xf4 first then Some (4, Z.land first 0x07)
  else None.

(** The loop over the continuation bytes. *)
Definition utf8_continuation (text : list Z) (index codepoint : Z) : run (ctl Z bool) :=
  let! continuation := buf_get text index in
  Some (if negb (Z.land continuation 0xc0 =? 0x80) then Return false
        else Continue (u32 (Z.lor (Z.shiftl codepoint 6) (Z.land continuation 0x3f)))).

(** [text] is the pointer to the sequence; the result and [*consumed]. *)
Definition utf8_sequence_is_valid (text : list Z) (length consumed : Z) : run (bool * Z) :=
  if length =? 0 then Some (false, consumed)
  else
    let! first := buf_get text 0 in
    if first <=? 0x7f then Some ((0x20 <=? first) && negb (first =? 0x7f), 1)
    else
      match utf8_lead first with
      | None => Some (false, consumed)
      | Some (sequence_length, codepoint) =>
          if length <? sequence_length then Some (false, consumed)
          else
            let! c := for_range (Z.to_nat (sequence_length - 1)) 1 (utf8_continuation text) codepoint in
            match c with
            | Return r => Some (r, consumed)
            | Continue codepoint | Break codepoint =>
                if (sequence_length =? 3) && (codepoint <? 0x800)
                   || (sequence_length =? 4) && (codepoint <? 0x10000)
                   || (0x10ffff <? codepoint)
                   || (0xd800 <=? codepoint) && (codepoint <=? 0xdfff)
                   || (0x80 <=? codepoint) && (codepoint <=? 0x9f)
                then Some (false, consumed)
                else Some (true, sequence_length)
            end
      end.

Definition display_name_sequence (bytes : list Z) (length offset : Z) : run (ctl Z bool) :=
  if offset <? length then
    let! text := buf_at bytes offset in
    let! (valid, consumed) := utf8_sequence_is_valid text (length - offset) 0 in
    Some (if negb valid then Return false else Continue (offset + consumed))
  else Some (Break offset).

(** At most one sequence per byte. *)
Definition legacy_userdb_display_name_is_compatible (display_name : ptr) : run bool :=
  match display_name with
  | None => Some false
  | Some bytes =>
      let! length := strnlen bytes (Z.to_nat (LEGACY_USERDB_DISPLAY_NAME_MAX + 1)) in
      if (length =? 0) || (LEGACY_USERDB_DISPLAY_NAME_MAX <? length) then Some false
      else
        let! first := buf_get bytes 0 in
        let! last := buf_get bytes (length - 1) in
        if (first =? chr " ") || (last =? chr " ") then Some false
        else
          let! c := loop (S (Z.to_nat length)) (display_name_sequence bytes length) 0 in
          Some match c with Return r => r | _ => true end
  end.

(** ** Record markers *)

Definition lower_hex_value (value : Z) : Z :=
  if Prelude.between (chr "0") (chr "9") value then value - chr "0"
  else if Prelude.between (chr "a") (chr "f") value then value - chr "a" + 10
  else -1.

Definition uuid_is_nonzero (value : list Z) : run bool :=
  let! c := for_range (Z.to_nat LEGACY_USERDB_UUID_SIZE) 0
    (λ index s, let! byte := buf_get value index in
                Some (if negb (byte =? 0) then Return true else Continue s)) tt in
  Some match c with Return r => r | _ => false end.

(** The loop over the digits of the identifier; it fails with -1. *)
Definition marker_digits (comment : list Z) (prefix_length index : Z) (registration_id : list Z)
    : run (ctl (list Z) (Z * list Z)) :=
  let! high := buf_get comment (prefix_length + index * 2) in
  let! low := buf_get comment (prefix_length + index * 2 + 1) in
  let high := lower_hex_value high in
  let low := lower_hex_value low in
  if (high <? 0) || (low <? 0) then Some (Return (-1, registration_id))
  else
    let! registration_id := buf_set registration_id index (u8 (u32 (u32 high * 16 + u32 low))) in
    Some (Continue registration_id).

(** The result, [*present] and the identifier. *)
Definition parse_record_registration_marker (comment : list Z) : run (Z * bool * list Z) :=
  let prefix_length := zlen LEGACY_USERDB_RECORD_MARKER_PREFIX in
  let registration_id := replicate (Z.to_nat LEGACY_USERDB_UUID_SIZE) 0 in
  let! prefixed := has_prefix comment LEGACY_USERDB_RECORD_MARKER_PREFIX in
  if negb prefixed then Some (0, false, registration_id)
  else if negb (strlen comment =? prefix_length + LEGACY_USERDB_UUID_SIZE * 2)
  then Some (-1, false, registration_id)
  else
    let! c := for_range (Z.to_nat LEGACY_USERDB_UUID_SIZE) 0 (marker_digits comment prefix_length)
                registration_id in
    match c with
    | Return (result, registration_id) => Some (result, false, registration_id)
    | Continue registration_id | Break registration_id =>
        let! nonzero := uuid_is_nonzero registration_id in
        Some (if nonzero then (0, true, registration_id)
              else (-1, false, replicate (Z.to_nat LEGACY_USERDB_UUID_SIZE) 0))
    end.

(** ** Records *)

(** A member of a structure at its offset. *)
Definition member (record : list Z) (offset size : Z) : list Z :=
  take (Z.to_nat size) (drop (Z.to_nat offset) record).

(** The offset and the size of the members of [struct userrec] that are used, and
    the byte and the bit of those that are one bit: the layout that the assertions
    of the code and its comparison after building demand. *)
Module userrec.
Definition sUserName : Z * Z := (0, 36).
Definition Name : Z * Z := (36, 9).
Definition xPassword : Z * Z := (45, 4).
Definition tFirstLoginDate : Z * Z := (252, 4).
Definition tLastLoginDate : Z * Z := (256, 4).
Definition Security : Z * Z := (260, 12).
Definition sComment : Z * Z := (272, 81).
Definition sExpiryDate : Z * Z := (353, 12).
Definition ExpirySec : Z * Z := (365, 12).
Definition sSex : Z * Z := (377, 8).
Definition iTimeLeft : Z * Z := (391, 4).
Definition tLastPwdChange : Z * Z := (407, 4).
Definition MsgEditor : Z * Z := (423, 4).
Definition iLastFileArea : Z * Z := (437, 4).
Definition sProtocol : Z * Z := (445, 21).
Definition iLastMsgArea : Z * Z := (494, 4).
Definition iLanguage : Z * Z := (506, 4).
Definition sHandle : Z * Z := (510, 36).
Definition Password : Z * Z := (563, 15).
Definition Charset : Z * Z := (578, 4).
Definition Deleted : Z * Z := (385, 3).
Definition LockedOut : Z * Z := (385, 6).
Definition HotKeys : Z * Z := (385, 1).
Definition GraphMode : Z * Z := (385, 2).
Definition Cls : Z * Z := (386, 0).
Definition More : Z * Z := (386, 1).
Definition MailScan : Z * Z := (386, 3).
Definition ieASCII8 : Z * Z := (562, 3).
Definition ieNEWS : Z * Z := (562, 4).
Definition ieFILE : Z * Z := (562, 5).
Definition Email : Z * Z := (562, 6).
End userrec.

Definition text_member (record : list Z) (m : Z * Z) : list Z := member record m.1 m.2.

(** [memchr(text, 0, capacity) != NULL] for a text that is an array of this size. *)
Definition fixed_text_is_terminated (text : list Z) (capacity : Z) : bool :=
  existsb (Z.eqb 0) (take (Z.to_nat capacity) text).
