(* ===== verification/FileSystem.v ===== *)
(** * Files

    The system calls that the programs for the legacy user database make, and the
    helpers that [fortytwo-auth/src/legacy_registration_marker.c] and
    [fortytwo-auth/src/legacy_userdb.c] share in their own copies: the checks of a
    [struct stat], the walk to a directory that follows no symbolic link, and
    the loops that read an exact number of bytes. What a call answers may be
    anything at any time, since other processes may change the files meanwhile. *)

From stdpp Require Import gmap.
From S2P Require Import Prelude Program LegacyUserdb.

(** ** System calls *)

Definition O_RDONLY : Z := 0.
Definition O_NONBLOCK : Z := 0x800.
Definition O_DIRECTORY : Z := 0x10000.
Definition O_NOFOLLOW : Z := 0x20000.
Definition O_CLOEXEC : Z := 0x80000.

(** The flags of the calls. *)
Definition open_directory : Z := Z.lor (Z.lor (Z.lor O_RDONLY O_DIRECTORY) O_CLOEXEC) O_NOFOLLOW.

(** A call and its answer, a value or [errno]. [OpenAt] without a directory is [open];
    names are C strings without their zero. [Read] is [read] and, with an offset,
    [pread]; [Lock] is [fcntl(fd, F_OFD_SETLK)] for a shared lock. [Calloc] is no
    system call, but it may fail at any time too. *)
Inductive file_event :=
| OpenAt (directory : option Z) (name : list Z) (flags : Z) (answer : Z + Z)
| Fstat (fd : Z) (answer : stat + Z)
| Read (fd : Z) (offset : option Z) (length : Z) (answer : list Z + Z)
| Lock (fd : Z) (answer : option Z)
| Close (fd : Z)
| Calloc (count size : Z) (answer : option Z).

Abbreviation file_history := (list file_event) (only parsing).

Class FileSystem := {
  fs_open : file_history → option Z → list Z → Z → Z + Z;
  fs_fstat : file_history → Z → stat + Z;
  fs_read : file_history → Z → option Z → Z → list Z + Z;
  fs_lock : file_history → Z → option Z;
  fs_calloc : file_history → Z → Z → option Z;
}.

(** The descriptors that have been opened here and are not closed. *)
Fixpoint open_fds (h : file_history) : gset Z :=
  match h with
  | [] => ∅
  | OpenAt _ _ _ (inl fd) :: h => {[fd]} ∪ open_fds h
  | Close fd :: h => open_fds h ∖ {[fd]}
  | _ :: h => open_fds h
  end.

(** Reads that a signal has interrupted. *)
Fixpoint interruptions (h : file_history) : nat :=
  match h with
  | [] => 0
  | Read _ _ _ (inr errno) :: h => (if errno =? Errno.EINTR then 1 else 0) + interruptions h
  | _ :: h => interruptions h
  end.

(** What the system promises: a new descriptor is not negative and not in use, and a
    read delivers no more than was asked for. *)
Class FileSystemLaws `{FileSystem} : Prop := {
  law_open h directory name flags fd :
    fs_open h directory name flags = inl fd → 0 <= fd ∧ fd ∉ open_fds h;
  law_read h fd offset length bytes :
    fs_read h fd offset length = inl bytes → bytes_ok bytes ∧ zlen bytes <= length;
}.

(** A system that interrupts at most so many reads. *)
Class Undisturbed `{FileSystem} (limit : nat) : Prop :=
  law_interruptions h fd offset length :
    fs_read h fd offset length = inr Errno.EINTR → (interruptions h < limit)%nat.

Section files.
Context `{FileSystem}.

Abbreviation files := (prog file_event unit) (only parsing).

Definition openat (directory : option Z) (name : list Z) (flags : Z) : files (Z + Z) :=
  service (λ h, fs_open h directory name flags) (OpenAt directory name flags).
Definition fstat (fd : Z) : files (stat + Z) := service (λ h, fs_fstat h fd) (Fstat fd).
Definition read (fd : Z) (offset : option Z) (length : Z) : files (list Z + Z) :=
  service (λ h, fs_read h fd offset length) (Read fd offset length).
Definition lock (fd : Z) : files (option Z) := service (λ h, fs_lock h fd) (Lock fd).
Definition calloc (count size : Z) : files (option Z) :=
  service (λ h, fs_calloc h count size) (Calloc count size).
Definition close (fd : Z) : files unit := service (λ _, tt) (λ _, Close fd).

(** ** Status *)

Definition S_ISREG (mode : Z) : bool := Z.land mode 0xf000 =? 0x8000.
Definition S_ISDIR (mode : Z) : bool := Z.land mode 0xf000 =? 0x4000.

Definition directory_policy_matches (status : stat) (policy : legacy_userdb_directory_policy) : bool :=
  S_ISDIR (st_mode status)
  && (negb (dp_check_owner policy) || (st_uid status =? dp_expected_uid policy))
  && (negb (dp_check_group policy) || (st_gid status =? dp_expected_gid policy))
  && (negb (dp_check_mode policy) || (Z.land (st_mode status) 0xfff =? dp_expected_mode policy)).

Definition same_timestamp (left right : Z * Z) : bool := (left.1 =? right.1) && (left.2 =? right.2).

(** ** The walk *)

Definition NAME_MAX : Z := 255.

(** [length == 0 || length > NAME_MAX || ...] *)
Definition component_refused (cursor : list Z) (length : Z) : run bool :=
  if (length =? 0) || (NAME_MAX <? length) then Some true
  else
    let! first := buf_get cursor 0 in
    if (length =? 1) && (first =? chr ".") then Some true
    else if length =? 2 then
      let! second := buf_get cursor 1 in Some ((first =? chr ".") && (second =? chr "."))
    else Some false.

(** The loop body: the descriptor of the directory that has been reached and the cursor. *)
Definition walk_step (s : Z * list Z) : files (Z * list Z + (Z + Z)) :=
  let (current_fd, cursor) := s in
  let* first := lift (buf_get cursor 0) in
  if first =? 0 then ret (inr (inl current_fd))
  else
    let* separator := lift (strchr cursor (chr "/")) in
    let length := match separator with None => strlen cursor | Some rest => zlen cursor - zlen rest end in
    let* refused := lift (component_refused cursor length) in
    if refused then do* close current_fd in ret (inr (inr Errno.EINVAL))
    else
      let* component := lift (buf_read cursor 0 length) in
      let* next_fd := openat (Some current_fd) component open_directory in
      match next_fd with
      | inr errno => do* close current_fd in ret (inr (inr errno))
      | inl next_fd =>
          do* close current_fd in
          match separator with
          | None => let* cursor := lift (buf_at cursor length) in ret (inl (next_fd, cursor))
          | Some separator =>
              let* cursor := lift (buf_at separator 1) in
              let* first := lift (buf_get cursor 0) in
              if first =? 0 then do* close next_fd in ret (inr (inr Errno.EINVAL))
              else ret (inl (next_fd, cursor))
          end
      end.

(** The descriptor, or [errno]; at most one round per character. *)
Definition open_absolute_directory_nofollow (path : ptr) : files (Z + Z) :=
  match path with
  | None => ret (inr Errno.EINVAL)
  | Some path =>
      let* first := lift (buf_get path 0) in
      if negb (first =? chr "/") then ret (inr Errno.EINVAL)
      else
        let* second := lift (buf_get path 1) in
        if second =? 0 then ret (inr Errno.EINVAL)
        else
          let* current_fd := openat None (lit "/") open_directory in
          match current_fd with
          | inr errno => ret (inr errno)
          | inl current_fd =>
              let* cursor := lift (buf_at path 1) in
              iterate (Datatypes.S (length path)) walk_step (current_fd, cursor)
          end
  end.

(** ** Reading *)

(** The loop body of [read_exact] and [read_exact_at], which differ in [offset]: the
    bytes completed and the buffer, or the result, 0 or [errno]. *)
Definition read_step (fd : Z) (length : Z) (offset : option Z) (s : Z * list Z)
    : files (Z * list Z + option Z * list Z) :=
  let (completed, buffer) := s in
  if completed <? length then
    let* received := read fd ((λ offset, offset + completed) <$> offset) (length - completed) in
    match received with
    | inl bytes =>
        if 0 <? zlen bytes then
          let* buffer := lift (buf_write buffer completed bytes) in
          ret (inl (completed + zlen bytes, buffer))
        else ret (inr (Some Errno.EIO, buffer))
    | inr errno => if errno =? Errno.EINTR then ret (inl s) else ret (inr (Some errno, buffer))
    end
  else ret (inr (None, buffer)).

Definition read_exact (fuel : nat) (fd : Z) (buffer : list Z) (length : Z) (offset : option Z)
    : files (option Z * list Z) :=
  iterate fuel (read_step fd length offset) (0, buffer).
End files.

(** ** Descriptors *)

Definition uses (e : file_event) : gset Z :=
  match e with
  | OpenAt None _ _ _ | Calloc _ _ _ => ∅
  | OpenAt (Some fd) _ _ _ | Fstat fd _ | Read fd _ _ _ | Lock fd _ | Close fd => {[fd]}
  end.

(** From [start] on, only descriptors are used that were opened since and not closed. *)
Inductive proper (start : file_history) : file_history → Prop :=
| proper_start : proper start start
| proper_event e h : proper start h → uses e ⊆ open_fds h ∖ open_fds start → proper start (e :: h).

(** These are the descriptors that are open now and were not before. *)
Record holding (start : file_history) (fds : gset Z) (h : file_history) : Prop := {
  hd_proper : proper start h;
  hd_open : open_fds h = fds ∪ open_fds start;
  hd_new : fds ## open_fds start;
}.

Lemma holding_start start : holding start ∅ start.
Proof. split; [constructor|set_solver|set_solver]. Qed.

Lemma holding_end start h : holding start ∅ h → proper start h ∧ open_fds h = open_fds start.
Proof. intros [Hp Ho _]. split; [done|]. rewrite Ho. set_solver. Qed.

Lemma holding_event start fds e h :
  holding start fds h → uses e ⊆ fds → open_fds (e :: h) = open_fds h → holding start fds (e :: h).
Proof.
  intros [Hp Ho Hn] Hu He. split; [|by rewrite He|done]. constructor; [done|]. rewrite Ho. set_solver.
Qed.

Section calls.
Context `{FileSystemLaws} (E : file_history → Prop) (start : file_history).

Lemma wp_openat fds directory name flags (Q : Z + Z → unit → file_history → Prop) s h :
  holding start fds h → (∀ fd, directory = Some fd → fd ∈ fds) →
  (∀ fd, fd ∉ fds → 0 <= fd → holding start ({[fd]} ∪ fds) (OpenAt directory name flags (inl fd) :: h) →
     Q (inl fd) s (OpenAt directory name flags (inl fd) :: h)) →
  (∀ errno, holding start fds (OpenAt directory name flags (inr errno) :: h) →
     Q (inr errno) s (OpenAt directory name flags (inr errno) :: h)) →
  wp E (openat directory name flags) Q s h.
Proof.
  intros Hold Hd Hok Hfail. apply wp_service. intros answer ->.
  assert (∀ answer, uses (OpenAt directory name flags answer) ⊆ fds) as Hu.
  { intros answer. destruct directory as [fd|]; cbn; [|set_solver]. pose proof (Hd fd eq_refl). set_solver. }
  destruct (fs_open h directory name flags) as [fd|errno] eqn:Ho.
  - destruct (law_open _ _ _ _ _ Ho) as [H0' Hnew]. destruct Hold as [Hp Hopen Hn]. rewrite Hopen in Hnew.
    apply Hok; [set_solver|done|]. split; [|cbn; rewrite Hopen; set_solver|set_solver].
    constructor; [done|]. rewrite Hopen. pose proof (Hu (inl fd)). set_solver.
  - apply Hfail. eapply holding_event; [done..|by destruct directory].
Qed.

Lemma wp_fstat fds fd (Q : stat + Z → unit → file_history → Prop) s h :
  holding start fds h → fd ∈ fds →
  (∀ answer, holding start fds (Fstat fd answer :: h) → Q answer s (Fstat fd answer :: h)) →
  wp E (fstat fd) Q s h.
Proof.
  intros Hold Hfd HQ. apply wp_service. intros answer ->. apply HQ. eapply holding_event; [done|cbn; set_solver|done].
Qed.

Lemma wp_lock fds fd (Q : option Z → unit → file_history → Prop) s h :
  holding start fds h → fd ∈ fds →
  (∀ answer, holding start fds (Lock fd answer :: h) → Q answer s (Lock fd answer :: h)) →
  wp E (lock fd) Q s h.
Proof.
  intros Hold Hfd HQ. apply wp_service. intros answer ->. apply HQ. eapply holding_event; [done|cbn; set_solver|done].
Qed.

Lemma wp_calloc fds count size (Q : option Z → unit → file_history → Prop) s h :
  holding start fds h →
  (∀ answer, holding start fds (Calloc count size answer :: h) → Q answer s (Calloc count size answer :: h)) →
  wp E (calloc count size) Q s h.
Proof.
  intros Hold HQ. apply wp_service. intros answer ->. apply HQ. eapply holding_event; [done|cbn; set_solver|done].
Qed.

Lemma wp_close fds fd (Q : unit → unit → file_history → Prop) s h :
  holding start fds h → fd ∈ fds →
  (holding start (fds ∖ {[fd]}) (Close fd :: h) → Q tt s (Close fd :: h)) →
  wp E (close fd) Q s h.
Proof.
  intros [Hp Ho Hn] Hfd HQ. apply wp_service. intros answer ->. apply HQ.
  split; [|cbn; rewrite Ho; set_solver|set_solver]. constructor; [done|]. rewrite Ho. cbn. set_solver.
Qed.
End calls.

(** ** Paths *)

(** [/c1/c2...] *)
Definition path_of (components : list (list Z)) : list Z := concat (map (λ c, chr "/" :: c) components).

Record component (c : list Z) : Prop := {
  cp_nonempty : c ≠ [];
  cp_length : zlen c <= NAME_MAX;
  cp_text : Forall (λ b, b ≠ 0 ∧ b ≠ chr "/") c;
  cp_here : c ≠ lit ".";
  cp_up : c ≠ lit "..";
}.

(** Every directory is opened in the one before, which is then closed. *)
Inductive walks : Z → list (list Z) → Z → file_history → Prop :=
| walks_here fd : walks fd [] fd []
| walks_down fd c next components to tr :
    walks next components to tr →
    walks fd (c :: components) to (tr ++ [Close fd; OpenAt (Some fd) c open_directory (inl next)]).

Lemma walks_trans fd cs mid tr cs' to tr' :
  walks fd cs mid tr → walks mid cs' to tr' → walks fd (cs ++ cs') to (tr' ++ tr).
Proof.
  intros H Hw. induction H as [|fd c next cs mid tr _ IH]; cbn [app]; [by rewrite app_nil_r|].
  rewrite app_assoc. constructor. by apply IH.
Qed.

(** The history without the descriptors closed last. *)
Fixpoint before_closing (h : file_history) : file_history :=
  match h with
  | Close _ :: h => before_closing h
  | _ => h
  end.

(** The walk failed: the path is not acceptable, or a directory could not be opened. *)
Definition walk_failed (errno : Z) (h : file_history) : Prop :=
  errno = Errno.EINVAL ∨ ∃ directory c h0, before_closing h = OpenAt directory c open_directory (inr errno) :: h0.

(** The cursor is at the beginning of a component or at the end. *)
Definition remaining (cursor : list Z) : list Z :=
  match cstr cursor with [] => [] | text => chr "/" :: text end.

(** A text is a first component, or the parts before and after the first slash. *)
Lemma first_component text :
  Forall (λ b, b ≠ 0) text →
  (Forall (λ b, b ≠ 0 ∧ b ≠ chr "/") text) ∨
  ∃ a b, text = a ++ chr "/" :: b ∧ Forall (λ b, b ≠ 0 ∧ b ≠ chr "/") a.
Proof.
  induction 1 as [|x text Hx _ [IH|(a & b & -> & Ha)]]; [by left| |].
  - destruct (decide (x = chr "/")) as [->|]; [right; by exists [], text|left; by constructor].
  - right. destruct (decide (x = chr "/")) as [->|]; [by exists [], (a ++ chr "/" :: b)|].
    exists (x :: a), b. split; [done|by constructor].
Qed.

Lemma component_refused_spec c after :
  Forall (λ b, b ≠ 0 ∧ b ≠ chr "/") c →
  ∃ r, component_refused (c ++ after) (zlen c) = Some r ∧ (r = false → component c).
Proof.
  intros Hc. unfold component_refused. destruct c as [|x c]; [by eexists|].
  rewrite (proj2 (Z.eqb_neq _ 0)) by (rewrite zlen_cons; pose proof (zlen_nonneg c); lia). cbn [orb].
  destruct (Z.ltb_spec NAME_MAX (zlen (x :: c))) as [Hl|Hl]; [by eexists|].
  change (buf_get ((x :: c) ++ after) 0) with (Some x). run_simpl.
  destruct c as [|y c].
  - destruct (Z.eqb_spec x (chr ".")) as [->|Hx]; [by eexists|]. eexists. split; [done|]. intros _.
    split; [done..| |done]. by intros [= ->].
  - rewrite (proj2 (Z.eqb_neq (zlen (x :: y :: c)) 1)) by (rewrite !zlen_cons; pose proof (zlen_nonneg c); lia). cbn [andb].
    change (buf_get ((x :: y :: c) ++ after) 1) with (Some y).
    destruct c as [|z c].
    + change (zlen [x; y] =? 2) with true. run_simpl. eexists. split; [done|].
      intros Hr. split; [done..|]. intros [= -> ->]. done.
    + rewrite (proj2 (Z.eqb_neq (zlen (x :: y :: z :: c)) 2)) by (rewrite !zlen_cons; pose proof (zlen_nonneg c); lia).
      eexists. split; [done|]. intros _. by split.
Qed.

Section walk.
Context `{FileSystemLaws} (E : file_history → Prop) (start : file_history).

Lemma walk_step_spec root done fd tr text rest tail s h0 :
  Forall (λ b, b ≠ 0) rest → text = path_of done ++ match rest with [] => [] | _ => chr "/" :: rest end →
  Forall component done → walks root done fd tr → 0 <= fd → holding start {[fd]} (tr ++ h0) →
  wp E (walk_step (fd, terminated rest tail))
    (λ r s' h', match r with
       | inl (fd', cursor') => ∃ done' tr' rest', cursor' = terminated rest' tail ∧ Forall (λ b, b ≠ 0) rest' ∧
           text = path_of done' ++ match rest' with [] => [] | _ => chr "/" :: rest' end ∧ Forall component done' ∧
           h' = tr' ++ h0 ∧ walks root done' fd' tr' ∧ 0 <= fd' ∧ holding start {[fd']} h' ∧ (length rest' < length rest)%nat
       | inr (inl fd') => fd' = fd ∧ rest = [] ∧ h' = tr ++ h0
       | inr (inr errno) => holding start ∅ h' ∧ walk_failed errno h'
       end) s (tr ++ h0).
Proof.
  intros Hnz Htext Hdone Hwalk Hfd Hold. unfold walk_step. wp_step.
  destruct rest as [|x rest]; [eapply wp_lift; [apply buf_get_head|]; cbn [Z.eqb]; by wp_step|].
  eapply wp_lift; [apply buf_get_head|]. pose proof (Forall_inv Hnz) as Hx.
  rewrite (proj2 (Z.eqb_neq x 0)) by done. set (rest' := x :: rest) in *.
  (** The component that comes next, and what follows it. *)
  assert (∃ c b sep, rest' = c ++ b ∧ Forall (λ b, b ≠ 0 ∧ b ≠ chr "/") c ∧
    strchr (terminated rest' tail) (chr "/") = Some sep ∧
    match sep with None => b = [] | Some p => ∃ b', b = chr "/" :: b' ∧ p = terminated b tail end)
    as (c & b & sep & Hsplit & Hc & Hsep & Hb).
  { destruct (first_component rest' Hnz) as [Hall|(a & b & Heq & Ha)].
    - exists rest', [], None. rewrite app_nil_r. split_and!; [done..| |done]. unfold terminated. by apply strchr_none.
    - exists a, (chr "/" :: b), (Some (terminated (chr "/" :: b) tail)). split_and!; [done..| |by exists b].
      rewrite Heq. unfold terminated. rewrite <- app_assoc. cbn [app]. by apply strchr_found. }
  wp_step. eapply wp_lift; [exact Hsep|]. cbv zeta.
  assert (match sep with None => strlen (terminated rest' tail) | Some p => zlen (terminated rest' tail) - zlen p end = zlen c) as ->.
  { destruct sep as [p|].
    - destruct Hb as (b' & _ & ->). rewrite Hsplit. unfold terminated. rewrite <- app_assoc, zlen_app. lia.
    - subst b. rewrite app_nil_r in Hsplit. unfold strlen, terminated. by rewrite cstr_app_zero, Hsplit. }
  assert (terminated rest' tail = c ++ terminated b tail) as Hmem.
  { rewrite Hsplit. unfold terminated. by rewrite <- app_assoc. }
  rewrite Hmem. destruct (component_refused_spec c (terminated b tail) Hc) as (refused & Hrefused & Hok).
  wp_step. eapply wp_lift; [exact Hrefused|]. destruct refused.
  { wp_step. eapply wp_close; [exact Hold|set_solver|]. intros Hclosed. wp_step.
    replace (∅ : gset Z) with ({[fd]} ∖ {[fd]} : gset Z) by set_solver. by split; [|left]. }
  specialize (Hok eq_refl). wp_step. eapply wp_lift; [apply buf_read_prefix|]. wp_step.
  eapply wp_openat; [exact Hold|intros ? [= <-]; set_solver| |].
  2: { intros errno Hfailed. wp_step. eapply wp_close; [exact Hfailed|set_solver|]. intros Hclosed. wp_step.
       replace (∅ : gset Z) with ({[fd]} ∖ {[fd]} : gset Z) by set_solver. split; [done|]. right. by eexists _, _, _. }
  intros next Hnew Hnext Hopened. wp_step. eapply wp_close; [exact Hopened|set_solver|]. intros Hclosed.
  replace (({[next]} ∪ {[fd]}) ∖ {[fd]} : gset Z) with ({[next]} : gset Z) in Hclosed by set_solver.
  assert (walks root (done ++ [c]) next ([Close fd; OpenAt (Some fd) c open_directory (inl next)] ++ tr)) as Hwalk'.
  { eapply walks_trans; [exact Hwalk|]. apply (walks_down fd c next [] next []). constructor. }
  assert (path_of (done ++ [c]) = path_of done ++ chr "/" :: c) as Hpath.
  { unfold path_of. rewrite map_app, concat_app. cbn [map concat]. by rewrite app_nil_r. }
  assert (Forall component (done ++ [c])) as Hdone' by (apply Forall_app; split; [done|by constructor]).
  destruct sep as [p|].
  - destruct Hb as (b' & -> & ->). wp_step. eapply wp_lift; [apply buf_at_tail|]. wp_step.
    destruct b' as [|y b'].
    + eapply wp_lift; [apply buf_get_head|]. cbn [Z.eqb]. wp_step. eapply wp_close; [exact Hclosed|set_solver|].
      intros Hend. wp_step. replace (∅ : gset Z) with ({[next]} ∖ {[next]} : gset Z) by set_solver. by split; [|left].
    + assert (Forall (λ b, b ≠ 0) (y :: b')) as Hnz'.
      { rewrite Hsplit in Hnz. apply Forall_app in Hnz as [_ Hnz]. by apply Forall_inv_tail in Hnz. }
      eapply wp_lift; [apply buf_get_head|]. rewrite (proj2 (Z.eqb_neq y 0)) by by apply Forall_inv in Hnz'.
      wp_step. exists (done ++ [c]), ([Close fd; OpenAt (Some fd) c open_directory (inl next)] ++ tr), (y :: b').
      split_and!; try done.
      * rewrite Htext, Hpath, Hsplit. by rewrite <- app_assoc.
      * rewrite Hsplit, length_app. cbn [length]. lia.
  - subst b. wp_step. eapply wp_lift; [apply buf_at_app|]. wp_step.
    exists (done ++ [c]), ([Close fd; OpenAt (Some fd) c open_directory (inl next)] ++ tr), [].
    split_and!; try done.
    + by rewrite Htext, Hpath, Hsplit, !app_nil_r.
    + unfold rest'. cbn. lia.
Qed.

Lemma open_absolute_directory_spec text tail s h :
  Forall (λ b, b ≠ 0) text → holding start ∅ h →
  wp E (open_absolute_directory_nofollow (Some (terminated text tail)))
    (λ r _ h', match r with
       | inl fd => ∃ components root tr,
           text = path_of components ∧ components ≠ [] ∧ Forall component components ∧ walks root components fd tr ∧
           h' = tr ++ OpenAt None (lit "/") open_directory (inl root) :: h ∧ 0 <= fd ∧ holding start {[fd]} h'
       | inr errno => holding start ∅ h' ∧ walk_failed errno h'
       end) s h.
Proof.
  intros Hnz Hold. unfold open_absolute_directory_nofollow. wp_step.
  destruct text as [|x text]; [eapply wp_lift; [apply buf_get_head|]; change (0 =? chr "/") with false; cbn [negb]; wp_step; by split; [|left]|].
  eapply wp_lift; [apply buf_get_head|]. destruct (Z.eqb_spec x (chr "/")) as [->|]; cbn [negb]; [|wp_step; by split; [|left]].
  pose proof (Forall_inv_tail Hnz) as Hnz'. wp_step.
  assert (buf_at (terminated (chr "/" :: text) tail) 1 = Some (terminated text tail)) as Hcursor by apply buf_at_tail.
  destruct text as [|y text]; [by eapply wp_lift; [done|]; cbn [Z.eqb]; wp_step; split; [|left]|].
  eapply wp_lift; [done|]. rewrite (proj2 (Z.eqb_neq y 0)) by by apply Forall_inv in Hnz'.
  wp_step. eapply wp_openat; [exact Hold|done| |intros errno Hfailed; wp_step; split; [done|]; right; by eexists _, _, _].
  intros root _ Hroot Hopened. replace ({[root]} ∪ ∅ : gset Z) with ({[root]} : gset Z) in Hopened by set_solver.
  wp_step. eapply wp_lift; [exact Hcursor|].
  set (h0 := OpenAt None (lit "/") open_directory (inl root) :: h) in *.
  eapply (wp_iterate_measure E (λ '(fd, cursor) _ h', ∃ done tr rest, cursor = terminated rest tail ∧ Forall (λ b, b ≠ 0) rest ∧
      chr "/" :: y :: text = path_of done ++ match rest with [] => [] | _ => chr "/" :: rest end ∧ Forall component done ∧
      h' = tr ++ h0 ∧ walks root done fd tr ∧ 0 <= fd ∧ holding start {[fd]} h') (λ '(fd, cursor), length (cstr cursor))).
  - exists [], [], (y :: text). split_and!; [done..|constructor|done|constructor|done|done].
  - unfold terminated. rewrite cstr_app_zero by done. rewrite length_app. cbn [length]. lia.
  - intros [fd cursor] s' h' (done & tr & rest & -> & Hrest & Htext & Hdone & -> & Hwalk & Hfd & Hhold).
    eapply wp_mono; [by apply (walk_step_spec root done fd tr (chr "/" :: y :: text) rest tail s' h0)|].
    cbv beta. intros [[fd' cursor']|[fd'|errno]] s'' h''; [| |done].
    + intros (done' & tr' & rest' & -> & Hrest' & Htext' & Hdone' & -> & Hwalk' & Hfd' & Hhold' & Hlt). split.
      * exists done', tr', rest'. done.
      * unfold terminated. by rewrite !cstr_app_zero.
    + intros (-> & -> & ->). rewrite app_nil_r in Htext. exists done, root, tr. split_and!; try done. by intros ->.
Qed.
End walk.

(** ** Reading *)

(** What the reads of a loop have delivered, the newest first. *)
Inductive delivered (fd length : Z) (offset : option Z) : list Z → file_history → Prop :=
| delivered_nothing : delivered fd length offset [] []
| delivered_bytes data bytes tr :
    delivered fd length offset data tr → bytes ≠ [] →
    delivered fd length offset (data ++ bytes)
      (Read fd ((λ offset, offset + zlen data) <$> offset) (length - zlen data) (inl bytes) :: tr)
| delivered_again data tr :
    delivered fd length offset data tr →
    delivered fd length offset data
      (Read fd ((λ offset, offset + zlen data) <$> offset) (length - zlen data) (inr Errno.EINTR) :: tr).

(** A read in the middle of a loop has failed, or the file has ended too early. *)
Definition unreadable (fd length : Z) (offset : option Z) (errno : Z) (h : file_history) : Prop :=
  ∃ data tr, delivered fd length offset data tr ∧ zlen data < length ∧
    let call answer := Read fd ((λ offset, offset + zlen data) <$> offset) (length - zlen data) answer in
    (errno ≠ Errno.EINTR ∧ h = call (inr errno) :: tr ∨ errno = Errno.EIO ∧ h = call (inl []) :: tr).

(** The reads that are still to be expected. *)
Definition read_patience (limit : nat) (length : Z) (h : file_history) : nat :=
  Z.to_nat length + (limit - interruptions h).

Lemma delivered_interruptions fd length offset data tr h :
  delivered fd length offset data tr → (interruptions h <= interruptions (tr ++ h))%nat.
Proof. induction 1; cbn; lia. Qed.

Lemma delivered_before_closing fd length offset data tr e h :
  delivered fd length offset data tr → before_closing (e :: h) = e :: h →
  before_closing (tr ++ e :: h) = tr ++ e :: h.
Proof. by destruct 1. Qed.

Section reading.
Context `{FileSystemLaws} (limit : nat) `{!Undisturbed limit} (start : file_history).

Lemma wp_read E fds fd offset length (Q : list Z + Z → unit → file_history → Prop) s h :
  holding start fds h → fd ∈ fds →
  (∀ answer, holding start fds (Read fd offset length answer :: h) →
     match answer with
     | inl bytes => bytes_ok bytes ∧ zlen bytes <= length
     | inr errno => errno = Errno.EINTR → (interruptions h < limit)%nat
     end → Q answer s (Read fd offset length answer :: h)) →
  wp E (read fd offset length) Q s h.
Proof.
  intros Hold Hfd HQ. apply wp_service. intros answer ->.
  apply HQ; [apply holding_event; [done|cbn; set_solver|done]|].
  destruct (fs_read h fd offset length) as [bytes|errno] eqn:Hr; [by eapply law_read|].
  intros ->. by eapply law_interruptions.
Qed.

(** The buffer is filled with what was read, or the loop fails. *)
Lemma read_exact_spec fuel fds fd buffer length offset s h :
  holding start fds h → fd ∈ fds → 0 <= length <= zlen buffer → (read_patience limit length h < fuel)%nat →
  wp (λ _, False) (read_exact fuel fd buffer length offset)
    (λ '(r, buffer') _ h', holding start fds h' ∧ zlen buffer' = zlen buffer ∧ (interruptions h <= interruptions h')%nat ∧
       match r with
       | None => ∃ data tr, h' = tr ++ h ∧ delivered fd length offset data tr ∧ zlen data = length ∧ bytes_ok data ∧
           buffer' = data ++ drop (Z.to_nat length) buffer
       | Some errno => ∃ tr, h' = tr ++ h ∧ unreadable fd length offset errno tr
       end) s h.
Proof.
  intros Hold Hfd Hlen Hfuel. unfold read_exact.
  eapply (wp_iterate_decreasing _ (λ '(completed, buffer') _ h', ∃ data tr,
      completed = zlen data ∧ completed <= length ∧ bytes_ok data ∧ buffer' = data ++ drop (List.length data) buffer ∧
      h' = tr ++ h ∧ delivered fd length offset data tr ∧ holding start fds h')
    (λ '(completed, _) _ h', read_patience limit (length - completed) h')).
  - exists [], []. split_and!; [done|lia|constructor|done|done|constructor|done].
  - by rewrite Z.sub_0_r.
  - intros [completed buffer'] s' h' (data & tr & -> & Hdata & Hbytes & -> & -> & Htr & Hhold). unfold read_step.
    pose proof (zlen_nonneg data).
    assert (zlen (data ++ drop (List.length data) buffer) = zlen buffer) as Hsize.
    { unfold zlen in *. rewrite length_app, length_drop. lia. }
    destruct (Z.ltb_spec (zlen data) length) as [Hlt|Hge].
    2: { wp_step. split_and!; [done|done|by eapply delivered_interruptions|]. exists data, tr.
         assert (zlen data = length) as Heq by lia. split_and!; try done. rewrite <- Heq. unfold zlen. by rewrite Nat2Z.id. }
    wp_step. eapply wp_read; [exact Hhold|done|]. intros [bytes|errno] Hhold' Hanswer.
    + destruct Hanswer as [Hok Hmax]. destruct (Z.ltb_spec 0 (zlen bytes)) as [Hmore|Hnone].
      2: { wp_step. split_and!; [done|done|cbn; by eapply delivered_interruptions|]. eexists (_ :: tr).
           split; [done|]. exists data, tr. do 2 (split; [done|]). right. split; [done|].
           destruct bytes; [done|]. rewrite zlen_cons in Hnone. pose proof (zlen_nonneg bytes). lia. }
      wp_step. eapply wp_lift; [apply buf_write_in; lia|]. wp_step. split.
      * exists (data ++ bytes), (Read fd ((λ offset, offset + zlen data) <$> offset) (length - zlen data) (inl bytes) :: tr).
        split_and!; [by rewrite zlen_app|lia|by apply Forall_app| |done| |done].
        -- replace (Z.to_nat (zlen data)) with (List.length data) by (unfold zlen; lia).
           rewrite take_app_length, length_app, <- app_assoc. do 2 f_equal.
           rewrite drop_app_ge by lia. rewrite drop_drop. f_equal. lia.
        -- constructor; [done|]. by intros ->.
      * unfold read_patience. cbn [interruptions]. lia.
    + destruct (Z.eqb_spec errno Errno.EINTR) as [->|Hother].
      * wp_step. split.
        -- exists data, (Read fd ((λ offset, offset + zlen data) <$> offset) (length - zlen data) (inr Errno.EINTR) :: tr).
           split_and!; try done. by constructor.
        -- specialize (Hanswer eq_refl). unfold read_patience. cbn [interruptions].
           rewrite Z.eqb_refl. lia.
      * wp_step. split_and!; [done|done| |eexists (_ :: tr); split; [done|]; exists data, tr; by auto].
        cbn. pose proof (delivered_interruptions _ _ _ _ _ h Htr). lia.
Qed.
End reading.

(** The walk reads nothing. *)
Lemma walks_interruptions fd components to tr h :
  walks fd components to tr → interruptions (tr ++ h) = interruptions h.
Proof.
  intros Hw. revert h. induction Hw as [|fd c next components to tr _ IH]; intros h; [done|].
  rewrite <- app_assoc. by rewrite IH.
Qed.
