(* ===== verification/LegacyNames.v ===== *)
(** * Names of the daemon and names of the user database

    A name passes the checks of FTAP and of the daemon ([Schema], [Identity])
    before it reaches the checks of the user database ([LegacyUserdb]). This file
    relates the two. *)

From S2P Require Import Prelude Protocol Utf8 Codec Inet Schema Identity LegacyUserdb.

(** ** The legacy name *)

(** The two loops test the same characters. *)
Lemma legacy_letters_agree name index s :
  0 <= index → legacy_name_letter name index s = legacy_name_character name index s.
Proof.
  intros Hi. unfold legacy_name_letter, legacy_name_character, is_ascii_digit.
  destruct (buf_get name index) as [c|]; [|done]. run_simpl. do 2 f_equal.
  destruct (Prelude.between (chr "a") (chr "z") c), (Prelude.between (chr "0") (chr "9") c),
    (Z.ltb_spec 0 index), (c =? chr "."), (c =? chr "_"), (c =? chr "-"); done.
Qed.

Lemma for_range_ext {S R} (f g : Z → S → run (ctl S R)) n i s :
  (∀ j t, i <= j → f j t = g j t) → for_range n i f s = for_range n i g s.
Proof.
  revert i s. induction n as [|n IH]; intros i s H; cbn [for_range]; [done|].
  rewrite H by lia. destruct (g i s) as [[]|]; run_simpl; [|done..]. apply IH. intros. apply H. lia.
Qed.

(** The characters of an accepted name. *)
Definition legacy_name (text : list Z) : bool :=
  (zlen text <=? LEGACY_USERDB_LEGACY_NAME_MAX)
  && name_ok is_legacy_name_first_character is_legacy_name_character text.

Lemma legacy_name_nonzero text : legacy_name text = true → Forall (λ b, b ≠ 0) text.
Proof.
  unfold legacy_name. intros [_ H]%andb_true_iff. apply name_ok_ascii in H; [|apply legacy_name_classes..].
  by apply utf8_ok_nonzero.
Qed.

Lemma legacy_name_chars text :
  legacy_name text = true → Forall (λ c, 45 <= c <= 57 ∨ 95 <= c <= 122) text.
Proof.
  unfold legacy_name. intros [_ H]%andb_true_iff. destruct text as [|c cs]; [constructor|].
  cbn [name_ok] in H. apply andb_true_iff in H as [Hc Hcs]. constructor.
  - revert Hc. unfold is_legacy_name_first_character. char_lia.
  - apply forallb_Forall in Hcs. apply (Forall_impl _ _ _ Hcs). intros b.
    unfold is_legacy_name_character, is_legacy_name_first_character. char_lia.
Qed.

Lemma authd_legacy_name_spec text tail :
  Forall (λ b, b ≠ 0) text →
  authd_legacy_name_is_valid (Some (terminated text tail)) = Some (legacy_name text).
Proof.
  intros Hnz. unfold authd_legacy_name_is_valid, legacy_name, strlen, terminated.
  rewrite cstr_app_zero by done.
  change FTAP_LEGACY_NAME_MAX with 8. change LEGACY_USERDB_LEGACY_NAME_MAX with 8.
  destruct text as [|c cs]; [done|]. rewrite (proj2 (Z.eqb_neq _ 0)) by (rewrite zlen_cons; pose proof (zlen_nonneg cs); lia).
  cbn [orb]. rewrite Z.ltb_antisym. destruct (zlen (c :: cs) <=? 8); [|done]. cbn [negb andb].
  replace (Z.to_nat (zlen (c :: cs))) with (length (c :: cs)) by (unfold zlen; lia).
  pose proof (legacy_loop (c :: cs) [] (0 :: tail) Hnz) as Hloop. cbn [app] in Hloop.
  change (zlen []) with 0 in Hloop. cbn [app]. rewrite Hloop. run_simpl. rewrite decide_True by done.
  cbn [name_ok]. by destruct (_ && _).
Qed.

Lemma legacy_userdb_legacy_name_spec text tail :
  Forall (λ b, b ≠ 0) text →
  legacy_userdb_legacy_name_is_valid (Some (terminated text tail)) = Some (legacy_name text).
Proof.
  intros Hnz. rewrite <- (authd_legacy_name_spec text tail) by done.
  unfold legacy_userdb_legacy_name_is_valid, authd_legacy_name_is_valid, strlen.
  rewrite strnlen_spec by done. run_simpl. unfold terminated. rewrite cstr_app_zero by done.
  change (Z.of_nat (Z.to_nat (LEGACY_USERDB_LEGACY_NAME_MAX + 1))) with 9.
  change FTAP_LEGACY_NAME_MAX with 8. change LEGACY_USERDB_LEGACY_NAME_MAX with 8.
  pose proof (zlen_nonneg text). destruct (Z.leb_spec (zlen text) 8) as [Hle|Hgt].
  - rewrite Z.min_l by lia. destruct (_ || _); [done|].
    rewrite (for_range_ext (legacy_name_letter _) (legacy_name_character (text ++ 0 :: tail)))
      by (intros; by apply legacy_letters_agree).
    by destruct (for_range _ _ _ _) as [[]|].
  - rewrite Z.min_r by lia. rewrite (proj2 (Z.ltb_lt 8 (zlen text))), orb_true_r by lia. by rewrite orb_true_r.
Qed.

(** ** The display name *)

(** Facts about all bytes. *)
Lemma all_bytes (P : Z → bool) :
  forallb (λ n, P (Z.of_nat n)) (seq 0 256) = true → ∀ b, byte_ok b → P b = true.
Proof.
  intros H b [H0 H1]. change (2 ^ 8) with 256 in H1. rewrite forallb_forall in H.
  rewrite <- (Z2Nat.id b) by done. apply H, in_seq. lia.
Qed.

Lemma continuation_byte b : byte_ok b → (Z.land b 0xc0 =? 0x80) = cont b.
Proof.
  intros Hb. apply eqb_prop, (all_bytes (λ b, Bool.eqb (Z.land b 0xc0 =? 0x80) (cont b))); [|done].
  vm_compute. reflexivity.
Qed.

Lemma utf8_continuation_spec text index codepoint b :
  byte_ok b → buf_get text index = Some b → 0 <= codepoint < 2 ^ 26 →
  utf8_continuation text index codepoint =
    Some (if cont b then Continue (codepoint * 64 + (b - 0x80)) else Return false).
Proof.
  intros Hb Hget Hcp. unfold utf8_continuation. rewrite Hget. run_simpl. rewrite continuation_byte by done.
  destruct (cont b) eqn:Hc; [|done]. cbn [negb]. do 2 f_equal.
  apply between_spec in Hc. change 0x3f with (Z.ones 6). rewrite Z.land_ones by done.
  change (2 ^ 6) with 64.
  replace (b mod 64) with (b - 0x80)
    by (apply (Z.mod_unique b 64 2); lia).
  rewrite lor_shiftl_add by lia. change (2 ^ 6) with 64. change (2 ^ 26) with 67108864 in Hcp.
  apply wrap_fits. split; [lia|]. change (2 ^ 32) with 4294967296. lia.
Qed.

(** What a lead byte contributes. *)
Lemma utf8_lead_spec c :
  byte_ok c →
  utf8_lead c =
    if between 0xc2 0xdf c then Some (2, c - 0xc0)
    else if between 0xe0 0xef c then Some (3, c - 0xe0)
    else if between 0xf0 0xf4 c then Some (4, c - 0xf0)
    else None.
Proof.
  intros Hc. unfold utf8_lead.
  destruct (between 0xc2 0xdf c) eqn:E2; [|destruct (between 0xe0 0xef c) eqn:E3;
    [|destruct (between 0xf0 0xf4 c) eqn:E4; [|done]]].
  all: do 2 f_equal.
  - change 0x1f with (Z.ones 5). rewrite Z.land_ones by done. change (2 ^ 5) with 32.
    apply between_spec in E2. symmetry. apply (Z.mod_unique c 32 6); lia.
  - change 0x0f with (Z.ones 4). rewrite Z.land_ones by done. change (2 ^ 4) with 16.
    apply between_spec in E3. symmetry. apply (Z.mod_unique c 16 14); lia.
  - change 0x07 with (Z.ones 3). rewrite Z.land_ones by done. change (2 ^ 3) with 8.
    apply between_spec in E4. symmetry. apply (Z.mod_unique c 8 30); lia.
Qed.

(** The loop over the continuation bytes. *)
Lemma continuations_spec text bs pre tail codepoint :
  text = pre ++ bs ++ tail → bytes_ok bs → 0 <= codepoint → (codepoint + 1) * 64 ^ zlen bs <= 2 ^ 26 →
  for_range (length bs) (zlen pre) (utf8_continuation text) codepoint =
    Some (if forallb cont bs then Break (foldl (λ cp b, cp * 64 + (b - 0x80)) codepoint bs) else Return false).
Proof.
  intros -> Hbs. revert pre codepoint. induction Hbs as [|b bs Hb _ IH]; intros pre cp H0 Hlt; [done|].
  cbn [length for_range forallb foldl]. rewrite zlen_cons in Hlt. pose proof (zlen_nonneg bs).
  rewrite Z.pow_add_r in Hlt by lia. change (64 ^ 1) with 64 in Hlt.
  assert (0 < 64 ^ zlen bs) by (by apply Z.pow_pos_nonneg).
  rewrite (utf8_continuation_spec _ _ _ b); [|done| |nia].
  2:{ rewrite <- (Z.add_0_r (zlen pre)). by rewrite buf_get_app_r. }
  run_simpl. destruct (cont b) eqn:Hc; [|done]. cbn [andb].
  specialize (IH (pre ++ [b]) (cp * 64 + (b - 0x80))). rewrite zlen_app, <- app_assoc in IH.
  apply between_spec in Hc. apply IH; [lia|nia].
Qed.

(** The code points that both checks let through. *)
Definition shown (cp : Z) : bool := (0x20 <=? cp) && outside 0x7f 0x9f cp.

(** The first sequence of [s] is [cp], or [s] is no UTF-8 text. *)
Definition sequence_result (s : list Z) (r : run (bool * Z)) : Prop :=
  (∃ cp s' consumed, scalar cp ∧ s = utf8_encode cp ++ s' ∧ r = Some (shown cp, consumed) ∧
     (shown cp = true → consumed = zlen (utf8_encode cp))) ∨
  utf8_ok s = false ∧ ∃ consumed, r = Some (false, consumed).

Definition wrong_codepoint (n cp : Z) : bool :=
  (n =? 3) && (cp <? 0x800) || (n =? 4) && (cp <? 0x10000) || (0x10ffff <? cp)
  || (0xd800 <=? cp) && (cp <=? 0xdfff).

(** What follows the loop. *)
Lemma sequence_of_codepoint s cp bs s' n consumed :
  s = bs ++ s' → zlen bs = n →
  (if wrong_codepoint n cp then utf8_ok s = false
   else 0x80 <= cp ∧ scalar cp ∧ utf8_encode cp = bs) →
  sequence_result s
    (if wrong_codepoint n cp || (0x80 <=? cp) && (cp <=? 0x9f)
     then Some (false, consumed) else Some (true, n)).
Proof.
  intros -> Hlen H. destruct (wrong_codepoint n cp) eqn:E; cbn [orb].
  { right. split; [done|]. by eexists. }
  destruct H as (H80 & Hs & He). left. exists cp, s', (if shown cp then n else consumed).
  assert (shown cp = negb ((0x80 <=? cp) && (cp <=? 0x9f))) as Hshown.
  { unfold shown, outside. apply eq_true_iff_eq. char_lia. }
  split; [done|]. split; [by rewrite He|]. rewrite Hshown, He.
  split; [by destruct ((0x80 <=? cp) && (cp <=? 0x9f))|]. by intros ->.
Qed.

(** A lead byte [c] of a sequence of [n] bytes, followed by [bs]. *)
Lemma long_sequence c n lead bs l after :
  zlen bs = n - 1 → bytes_ok bs → 0 <= lead → (lead + 1) * 64 ^ zlen bs <= 2 ^ 26 →
  let cp := foldl (λ cp b, cp * 64 + (b - 0x80)) lead bs in
  (if forallb cont bs then
     if wrong_codepoint n cp then utf8_ok (c :: bs ++ l) = false
     else 0x80 <= cp ∧ scalar cp ∧ utf8_encode cp = c :: bs
   else utf8_ok (c :: bs ++ l) = false) →
  sequence_result (c :: bs ++ l)
    (let! r := for_range (Z.to_nat (n - 1)) 1 (utf8_continuation ((c :: bs ++ l) ++ after)) lead in
     match r with
     | Return r => Some (r, 0)
     | Continue cp | Break cp =>
         if wrong_codepoint n cp || (0x80 <=? cp) && (cp <=? 0x9f) then Some (false, 0) else Some (true, n)
     end).
Proof.
  intros Hlen Hok H0 Hbound cp H. rewrite <- Hlen.
  replace (Z.to_nat (zlen bs)) with (length bs) by (unfold zlen; lia).
  change 1 with (zlen [c]).
  rewrite (continuations_spec _ bs [c] (l ++ after)); [|cbn; by rewrite <- app_assoc|done..].
  destruct (forallb cont bs); run_simpl; [|right; eauto].
  apply (sequence_of_codepoint _ _ (c :: bs) l); [done|rewrite zlen_cons; lia|done].
Qed.

(** [utf8_ok] at a lead byte of two, three or four bytes. *)
Lemma utf8_ok_lead c l :
  0x80 <= c →
  utf8_ok (c :: l) =
    if between 0xc2 0xdf c then match l with b1 :: l => cont b1 && utf8_ok l | _ => false end
    else if between 0xe0 0xef c then
      match l with
      | b1 :: b2 :: l =>
          between (if c =? 0xe0 then 0xa0 else 0x80) (if c =? 0xed then 0x9f else 0xbf) b1
          && cont b2 && utf8_ok l
      | _ => false
      end
    else if between 0xf0 0xf4 c then
      match l with
      | b1 :: b2 :: b3 :: l =>
          between (if c =? 0xf0 then 0x90 else 0x80) (if c =? 0xf4 then 0x8f else 0xbf) b1
          && cont b2 && cont b3 && utf8_ok l
      | _ => false
      end
    else false.
Proof.
  intros Hc. cbn [utf8_ok]. rewrite (proj2 (Z.eqb_neq c 0)), (proj2 (Z.leb_gt c 0x7f)) by lia. done.
Qed.

(** A code point outside the range of its length, for both forms. *)
Ltac codepoint_cases :=
  match goal with
  | |- context [wrong_codepoint ?n ?cp] =>
      let E := fresh "E" in destruct (wrong_codepoint n cp) eqn:E;
      unfold wrong_codepoint in E; cbn [Z.eqb Pos.eqb andb orb] in E
  end.

(** The premises of [long_sequence] for explicit bytes. *)
Ltac sequence_bytes :=
  first
  [ solve [repeat first [apply Forall_nil_2|assumption|apply Forall_cons_2]]
  | match goal with
    | |- _ * ?p <= ?q =>
        let p' := eval vm_compute in p in let q' := eval vm_compute in q in
        change p with p'; change q with q'; lia
    end
  | lia ].

Lemma utf8_sequence_spec c l after :
  bytes_ok (c :: l) → c ≠ 0 →
  sequence_result (c :: l) (utf8_sequence_is_valid ((c :: l) ++ after) (zlen (c :: l)) 0).
Proof.
  intros [Hc Hl]%Forall_cons_1 Hne. unfold utf8_sequence_is_valid.
  pose proof (zlen_nonneg l). rewrite zlen_cons, (proj2 (Z.eqb_neq _ 0)) by lia.
  change (buf_get ((c :: l) ++ after) 0) with (Some c). run_simpl.
  pose proof Hc as [Hc0 _]. destruct (Z.leb_spec c 0x7f) as [Hascii|Hlead].
  { left. exists c, l, 1. unfold scalar, utf8_encode, shown, outside.
    rewrite (proj2 (Z.ltb_lt c 0x80)) by lia. split; [lia|]. split; [done|]. split; [|done].
    do 2 f_equal. apply eq_true_iff_eq. char_lia. }
  rewrite utf8_lead_spec by done.
  pose proof (λ l, utf8_ok_lead c l ltac:(lia)) as Hlook.
  destruct (between 0xc2 0xdf c) eqn:E2;
    [|destruct (between 0xe0 0xef c) eqn:E3; [|destruct (between 0xf0 0xf4 c) eqn:E4]].
  4:{ right. rewrite Hlook. split; [done|by eexists]. }
  all: match goal with H : between _ _ _ = true |- _ => apply between_spec in H end.
  - destruct l as [|b1 l]; [right; rewrite Hlook; split; [done|by eexists]|].
    apply Forall_cons_1 in Hl as [Hb1 _]. pose proof (zlen_nonneg l).
    rewrite zlen_cons, (proj2 (Z.ltb_ge _ 2)) by lia.
    refine (long_sequence c 2 _ [b1] l after eq_refl _ _ _ _); [sequence_bytes..|].
    cbn [app foldl forallb]. rewrite Hlook, andb_true_r. destruct (cont b1) eqn:H1; [|done].
    apply between_spec in H1. codepoint_cases; [exfalso; char_lia|]. split; [lia|].
    by apply utf8_encode_2.
  - destruct l as [|b1 [|b2 l]]; [right; rewrite Hlook; split; [done|by eexists]..|].
    apply Forall_cons_1 in Hl as [Hb1 [Hb2 _]%Forall_cons_1]. pose proof (zlen_nonneg l).
    rewrite !zlen_cons, (proj2 (Z.ltb_ge _ 3)) by lia.
    refine (long_sequence c 3 _ [b1; b2] l after eq_refl _ _ _ _); [sequence_bytes..|].
    cbn [app foldl forallb]. rewrite Hlook, andb_true_r.
    assert (∀ lo hi, 0x80 <= lo → hi <= 0xbf → between lo hi b1 = true → cont b1 = true) as Hfirst.
    { unfold cont. intros lo hi ??. rewrite !between_spec. lia. }
    destruct (cont b2) eqn:H2; [|by rewrite !andb_false_r]. apply between_spec in H2.
    destruct (cont b1) eqn:H1.
    2:{ rewrite (proj1 (not_true_iff_false (between _ _ b1))); [done|]. intros H1'. apply Hfirst in H1'; [done|case_if; lia..]. }
    apply between_spec in H1. clear Hfirst. cbn [andb].
    codepoint_cases.
    { rewrite (proj1 (not_true_iff_false (between _ _ b1))); [done|]. rewrite between_spec. repeat case_if; char_lia. }
    split; [char_lia|]. replace (((c - 224) * 64 + (b1 - 128)) * 64 + (b2 - 128))
      with ((c - 0xe0) * 4096 + (b1 - 0x80) * 64 + (b2 - 0x80)) by lia.
    apply utf8_encode_3; [done| |done]. repeat case_if; char_lia.
  - destruct l as [|b1 [|b2 [|b3 l]]]; [right; rewrite Hlook; split; [done|by eexists]..|].
    apply Forall_cons_1 in Hl as [Hb1 [Hb2 [Hb3 _]%Forall_cons_1]%Forall_cons_1]. pose proof (zlen_nonneg l).
    rewrite !zlen_cons, (proj2 (Z.ltb_ge _ 4)) by lia.
    refine (long_sequence c 4 _ [b1; b2; b3] l after eq_refl _ _ _ _); [sequence_bytes..|].
    cbn [app foldl forallb]. rewrite Hlook, andb_true_r.
    assert (∀ lo hi, 0x80 <= lo → hi <= 0xbf → between lo hi b1 = true → cont b1 = true) as Hfirst.
    { unfold cont. intros lo hi ??. rewrite !between_spec. lia. }
    destruct (cont b2) eqn:H2; [|by rewrite !andb_false_r]. apply between_spec in H2.
    destruct (cont b3) eqn:H3; [|by rewrite !andb_false_r]. apply between_spec in H3.
    destruct (cont b1) eqn:H1.
    2:{ rewrite (proj1 (not_true_iff_false (between _ _ b1))); [done|].
        intros H1'. apply Hfirst in H1'; [done|case_if; lia..]. }
    apply between_spec in H1. clear Hfirst. cbn [andb].
    codepoint_cases.
    { rewrite (proj1 (not_true_iff_false (between _ _ b1))); [done|]. rewrite between_spec.
      repeat case_if; char_lia. }
    split; [char_lia|]. replace ((((c - 240) * 64 + (b1 - 128)) * 64 + (b2 - 128)) * 64 + (b3 - 128))
      with ((c - 0xf0) * 262144 + (b1 - 0x80) * 4096 + (b2 - 0x80) * 64 + (b3 - 0x80)) by lia.
    apply utf8_encode_4; [done| |done..]. repeat case_if; char_lia.
Qed.

(** ** The loop over the sequences *)

(** From every offset at which a sequence begins, the loop tests the rest. *)
Lemma display_name_loop text pre s tail fuel :
  text = pre ++ s ++ tail → bytes_ok s → Forall (λ b, b ≠ 0) s → (length s < fuel)%nat →
  ∃ c, loop fuel (display_name_sequence text (zlen pre + zlen s)) (zlen pre) = Some c ∧
    match c with
    | Return r => r = false ∧ utf8_ok s && printable s = false
    | _ => utf8_ok s && printable s = true
    end.
Proof.
  revert pre s. induction fuel as [|fuel IH]; intros pre s -> Hok Hnz Hfuel; [lia|].
  cbn [loop]. unfold display_name_sequence at 1. pose proof (zlen_nonneg pre).
  destruct s as [|c l].
  { change (zlen []) with 0. rewrite Z.add_0_r, Z.ltb_irrefl. run_simpl. by eexists. }
  pose proof (zlen_nonneg l). rewrite (proj2 (Z.ltb_lt _ _)) by (rewrite zlen_cons; lia).
  rewrite buf_at_in by (rewrite zlen_app; pose proof (zlen_nonneg ((c :: l) ++ tail)); lia). run_simpl.
  rewrite drop_app_length' by (unfold zlen; lia).
  replace (zlen pre + zlen (c :: l) - zlen pre) with (zlen (c :: l)) by lia.
  pose proof (Forall_inv Hnz) as Hc.
  destruct (utf8_sequence_spec c l tail Hok Hc) as [(cp & s' & consumed & Hcp & Heq & -> & Hlen)|[Hbad [consumed ->]]];
    run_simpl; [|exists (Return false); by rewrite Hbad].
  rewrite Heq, utf8_ok_encode, printable_encode by done. fold (shown cp).
  destruct (shown cp); run_simpl; [|exists (Return false); split; [done|]; by rewrite andb_false_r].
  rewrite Hlen by done. cbn [negb andb]. rewrite Heq in Hok, Hnz, Hfuel.
  apply bytes_ok_app in Hok as [_ Hok]. apply Forall_app in Hnz as [_ Hnz].
  specialize (IH (pre ++ utf8_encode cp) s'). rewrite Heq, !zlen_app in IH. rewrite !zlen_app.
  rewrite Z.add_assoc. apply IH; [by rewrite <- !app_assoc|done..|].
  rewrite length_app in Hfuel. pose proof (utf8_encode_nonempty cp).
  destruct (utf8_encode cp); [done|]. cbn [length] in Hfuel. lia.
Qed.

(** The display names of the user database. *)
Definition legacy_display_name (text : list Z) : bool :=
  (zlen text <=? LEGACY_USERDB_DISPLAY_NAME_MAX) && status_ok (display_status text).

Lemma legacy_userdb_display_name_spec text tail :
  bytes_ok text → Forall (λ b, b ≠ 0) text →
  legacy_userdb_display_name_is_compatible (Some (terminated text tail)) = Some (legacy_display_name text).
Proof.
  intros Hok Hnz. unfold legacy_userdb_display_name_is_compatible, legacy_display_name.
  rewrite strnlen_spec by done. run_simpl.
  change (Z.of_nat (Z.to_nat (LEGACY_USERDB_DISPLAY_NAME_MAX + 1))) with 36.
  change LEGACY_USERDB_DISPLAY_NAME_MAX with 35. pose proof (zlen_nonneg text).
  destruct (Z.leb_spec (zlen text) 35) as [Hle|Hgt].
  2:{ rewrite Z.min_r by lia. done. }
  rewrite Z.min_l by lia. rewrite (proj2 (Z.ltb_ge 35 _)), orb_false_r by lia.
  assert (status_ok (display_status text) =
    negb (zlen text =? 0)
    && negb (bool_decide (text !! 0%nat = Some (chr " "))
             || bool_decide (text !! (length text - 1)%nat = Some (chr " ")))
    && (utf8_ok text && printable text)) as ->.
  { unfold display_status, text_status. change FTAP_DISPLAY_NAME_MAX with 64. rewrite (proj2 (Z.ltb_ge 64 _)) by lia.
    destruct (utf8_ok text), (zlen text =? 0), (bool_decide _), (bool_decide _), (printable text); done. }
  destruct (Z.eqb_spec (zlen text) 0) as [H0|H0]; [done|]. cbn [negb andb].
  destruct text as [|c l]; [done|]. unfold terminated. cbn [app].
  change (buf_get (c :: l ++ 0 :: tail) 0) with (Some c). run_simpl.
  destruct (lookup_lt_is_Some_2 (c :: l) (length (c :: l) - 1)) as [d Hd]; [cbn; lia|].
  assert (buf_get (c :: l ++ 0 :: tail) (zlen (c :: l) - 1) = Some d) as ->.
  { unfold buf_get. rewrite (proj2 (Z.leb_le _ _)) by lia. rewrite app_comm_cons.
    apply lookup_app_l_Some. rewrite <- Hd. f_equal. unfold zlen. lia. }
  run_simpl. rewrite Hd. cbn [lookup list_lookup].
  assert (∀ x, bool_decide (Some x = Some (chr " ")) = (x =? chr " ")) as Hspace.
  { intros x. apply eq_true_iff_eq. rewrite bool_decide_eq_true, Z.eqb_eq. split; congruence. }
  rewrite !Hspace. destruct (_ || _); [done|]. cbn [negb andb].
  pose proof (display_name_loop (c :: l ++ 0 :: tail) [] (c :: l) (0 :: tail)
                (S (Z.to_nat (zlen (c :: l)))) eq_refl Hok Hnz ltac:(unfold zlen; lia)) as (r & Hr & Hres).
  change (zlen []) with 0 in Hr. rewrite Z.add_0_l in Hr. rewrite Hr. run_simpl.
  destruct r as [?|?|r]; [by rewrite Hres..|]. by destruct Hres as [-> ->].
Qed.

Lemma legacy_display_name_spec text :
  bytes_ok text →
  legacy_display_name text = true ↔ display_name text ∧ zlen text <= LEGACY_USERDB_DISPLAY_NAME_MAX.
Proof.
  intros Hok. unfold legacy_display_name.
  rewrite andb_true_iff, Z.leb_le, status_ok_spec, display_status_ok by done. tauto.
Qed.

(** C37: the checks of the user database and those of the daemon agree. A legacy
    name passes both or neither, and the display names that the user database takes
    are those that a registration request may carry, if they have at most 35 bytes:
    UTF-8 without control characters that neither begins nor ends with a space. No
    check reads behind the end of the string. *)
Theorem legacy_names_agree text tail :
  bytes_ok text → Forall (λ b, b ≠ 0) text →
  (∃ valid, legacy_userdb_legacy_name_is_valid (Some (terminated text tail)) = Some valid ∧
     authd_legacy_name_is_valid (Some (terminated text tail)) = Some valid) ∧
  (∃ compatible, legacy_userdb_display_name_is_compatible (Some (terminated text tail)) = Some compatible ∧
     (compatible = true ↔ display_name text ∧ zlen text <= LEGACY_USERDB_DISPLAY_NAME_MAX)).
Proof.
  intros Hok Hnz. split.
  - exists (legacy_name text). by rewrite legacy_userdb_legacy_name_spec, authd_legacy_name_spec.
  - exists (legacy_display_name text). by rewrite legacy_userdb_display_name_spec, legacy_display_name_spec.
Qed.

(** A surrogate in the middle is refused, an umlaut is not. *)
Lemma legacy_names_agree_witness :
  let accepted := lit "J" ++ [0xc3; 0xbc] ++ lit "rgen" in
  (∃ valid, legacy_userdb_legacy_name_is_valid (Some (terminated accepted [7])) = Some valid ∧
     authd_legacy_name_is_valid (Some (terminated accepted [7])) = Some valid) ∧
  (∃ compatible, legacy_userdb_display_name_is_compatible (Some (terminated accepted [7])) = Some compatible ∧
     (compatible = true ↔ display_name accepted ∧ zlen accepted <= LEGACY_USERDB_DISPLAY_NAME_MAX)) ∧
  legacy_userdb_display_name_is_compatible (Some (terminated accepted [])) = Some true ∧
  legacy_userdb_display_name_is_compatible (Some (terminated ([0xed; 0xa0; 0x80]) [])) = Some false.
Proof.
  cbv zeta. split; [|split; [|split; vm_compute; reflexivity]].
  - refine (proj1 (legacy_names_agree (lit "J" ++ [0xc3; 0xbc] ++ lit "rgen") [7] _ _));
      apply (bool_decide_unpack _); vm_compute; exact I.
  - refine (proj2 (legacy_names_agree (lit "J" ++ [0xc3; 0xbc] ++ lit "rgen") [7] _ _));
      apply (bool_decide_unpack _); vm_compute; exact I.
Defined.
