(* ===== verification/LegacyProvision.v ===== *)
(** * Legacy registrations: records, names and markers

    The part of [fortytwo-auth/src/legacy_userdb_provision.c] that computes without
    system calls: the check of a registration, the record that is appended to
    [users.data] for it, the text of its marker file, and the proof that is kept
    of both until the registration has been committed. *)

From S2P Require Import Prelude Utf8 LegacyUserdb LegacyNames.

(** ** Constants *)

Definition LEGACY_USERDB_STAGING_PREFIX : list Z := lit ".ft42reg-".
Definition LEGACY_MARKER_BUFFER_SIZE : Z := 320.
Definition LEGACY_MARKER_STATE_PREPARED : list Z := lit "prepared".
Definition LEGACY_MARKER_STATE_COMMITTED : list Z := lit "committed".
Definition LEGACY_PRIMARY_OPTION_BITS_OFFSET : Z := 385.
Definition LEGACY_SECONDARY_OPTION_BITS_OFFSET : Z := 386.
Definition LEGACY_IEMSI_OPTION_BITS_OFFSET : Z := 562.
Definition INT32_MAX : Z := 2147483647.
Definition UCHAR_MAX : Z := 255.

(** ** Checks *)

(** [(mode & ~(mode_t)07777) == 0], for a [mode_t] of 32 bits. *)
Definition mode_value_is_valid (mode : Z) : bool := Z.land mode (u32 (Z.lnot 0xfff)) =? 0.

Definition provision_policy_is_valid (policy : option legacy_userdb_provision_policy) : bool :=
  match policy with
  | None => false
  | Some policy =>
      let directory p := negb (dp_check_mode p) || mode_value_is_valid (dp_expected_mode p) in
      (0 <? up_max_records (pp_database policy))
      && (up_max_records (pp_database policy) <=? LEGACY_USERDB_DEFAULT_MAX_RECORDS)
      && (negb (up_check_mode (pp_database policy)) || mode_value_is_valid (up_expected_mode (pp_database policy)))
      && directory (pp_users_directory policy) && directory (pp_runtime_directory policy)
  end.

(** The loop that combines the bytes. *)
Definition uuid_is_nonzero (uuid : list Z) : run bool :=
  let! c := for_range (R := unit) (Z.to_nat LEGACY_USERDB_UUID_SIZE) 0
    (λ index combined, let! byte := buf_get uuid index in Some (Continue (Z.lor combined byte))) 0 in
  Some match c with Continue combined | Break combined => negb (combined =? 0) | Return _ => false end.

Definition protocol_is_valid (protocol : ptr) : run bool :=
  match protocol with
  | None => Some false
  | Some protocol =>
      let! length := strnlen protocol (Z.to_nat (LEGACY_USERDB_PROTOCOL_MAX + 1)) in
      if (length =? 0) || (LEGACY_USERDB_PROTOCOL_MAX <? length) then Some false
      else
        let! c := for_range (Z.to_nat length) 0
          (λ index s, let! value := buf_get protocol index in
                      Some (if outside 0x20 0x7e value then Return false else Continue s)) tt in
        Some match c with Return r => r | _ => true end
  end.

(** [a && b] where [b] may read memory. *)
Definition run_and (a b : run bool) : run bool := let! x := a in if x then b else Some false.
Notation "a '&&!' b" := (run_and a b) (at level 40, left associativity) : cmodel_scope.

Definition registration_is_valid (registration : option legacy_userdb_registration) : run bool :=
  match registration with
  | None => Some false
  | Some r =>
      let d := ur_defaults r in
      uuid_is_nonzero (ur_registration_id r) &&! uuid_is_nonzero (ur_user_id r)
      &&! legacy_userdb_legacy_name_is_valid (ur_legacy_name r)
      &&! legacy_userdb_display_name_is_compatible (ur_display_name r)
      &&! Some ((0 <? ur_registered_at r) && (ur_registered_at r <=? INT32_MAX)
                && (0 <? rd_language d) && (rd_language d <=? UCHAR_MAX)
                && (0 <=? rd_charset d) && (rd_charset d <=? LEGACY_USERDB_CHARSET_MAX)
                && (LEGACY_USERDB_EDITOR_LINE <=? rd_message_editor d)
                && (rd_message_editor d <=? LEGACY_USERDB_EDITOR_EXTERNAL))
      &&! protocol_is_valid (rd_protocol d)
  end.

(** ** Identifiers as text *)

Definition digits : list Z := lit "0123456789abcdef".

(** The loop writes two digits for every byte; the result is the string. *)
Fixpoint hex_digits (uuid : list Z) : run (list Z) :=
  match uuid with
  | [] => Some []
  | byte :: uuid =>
      let! high := buf_get digits (Z.shiftr byte 4) in
      let! low := buf_get digits (Z.land byte 0x0f) in
      let! hex := hex_digits uuid in
      Some (high :: low :: hex)
  end.

Definition format_uuid_hex (uuid : list Z) : run (list Z) :=
  let! uuid := buf_read uuid 0 LEGACY_USERDB_UUID_SIZE in hex_digits uuid.

(** [snprintf] with ["%.8s-%.4s-%.4s-%.4s-%.12s"]; the text fits into its array. *)
Definition format_uuid_text (uuid : list Z) : run (list Z) :=
  let! hex := format_uuid_hex uuid in
  let part offset size := member hex offset size in
  Some (part 0 8 ++ lit "-" ++ part 8 4 ++ lit "-" ++ part 12 4 ++ lit "-" ++ part 16 4 ++ lit "-" ++ part 20 12).

(** The staging directory and the comment of the record. *)
Definition build_names (registration_id : list Z) : run (list Z * list Z) :=
  let! hex := format_uuid_hex registration_id in
  Some (LEGACY_USERDB_STAGING_PREFIX ++ hex, LEGACY_USERDB_RECORD_MARKER_PREFIX ++ hex).

Definition newline : list Z := [10].

(** The result is the text of the marker and [None] where the code returns -1. *)
Definition build_marker (prepared : legacy_userdb_prepared_registration) (state : list Z)
    : run (option (list Z)) :=
  if negb (bool_decide (state = LEGACY_MARKER_STATE_PREPARED))
     && negb (bool_decide (state = LEGACY_MARKER_STATE_COMMITTED))
  then Some None
  else
    let! registration_text := format_uuid_text (pr_registration_id prepared) in
    let! user_text := format_uuid_text (pr_user_id prepared) in
    let line key value := key ++ lit "=" ++ value ++ newline in
    let marker :=
      line (lit "format_version") (lit "1")
      ++ line (lit "registration_id") registration_text
      ++ line (lit "user_id") user_text
      ++ line (lit "legacy_name") (cstr (pr_legacy_name prepared))
      ++ line (lit "record_number") (decimal (pr_record_number prepared))
      ++ line (lit "state") state in
    Some (if LEGACY_MARKER_BUFFER_SIZE <=? zlen marker then None else Some marker).

(** ** The record *)

(** Assignments in a row. *)
Notation "r '|>' f" := (f r) (at level 50, left associativity, only parsing) : cmodel_scope.

(** [memcpy] to a member, which the data must fit into. *)
Definition put_member (m : Z * Z) (data : list Z) (record : run (list Z)) : run (list Z) :=
  let! record := record in
  if zlen data <=? m.2 then buf_write record m.1 data else None.

(** The little-endian bytes of an [int] or [unsigned int]. *)
Definition le_word (v : Z) : list Z :=
  let v := u32 v in [v mod 256; v / 256 mod 256; v / 65536 mod 256; v / 16777216].

Definition put_word (m : Z * Z) (v : Z) (record : run (list Z)) : run (list Z) :=
  put_member m (le_word v) record.

(** Assignment to a member of one bit. *)
Definition put_bit (m : Z * Z) (v : bool) (record : run (list Z)) : run (list Z) :=
  let! record := record in
  let! byte := buf_get record m.1 in
  buf_set record m.1 (if v then Z.setbit byte m.2 else Z.clearbit byte m.2).

Definition put_security (m : Z * Z) (d : legacy_userdb_record_defaults) (record : run (list Z)) : run (list Z) :=
  put_member m (le_word (rd_security_level d) ++ le_word (rd_security_flags d) ++ le_word (rd_security_notflags d))
    record.

(** [memcpy(member, text, strlen(text) + 1)] *)
Definition put_text (m : Z * Z) (text : list Z) (record : run (list Z)) : run (list Z) :=
  put_member m (cstr text ++ [0]) record.

Definition is_zero_array (l : list Z) : bool := forallb (Z.eqb 0) l.

(** The record, or [None] where the code returns -1. *)
Definition build_record (r : legacy_userdb_registration) : run (option (list Z)) :=
  let d := ur_defaults r in
  let! display_name := deref (ur_display_name r) in
  let! legacy_name := deref (ur_legacy_name r) in
  let! protocol := deref (rd_protocol d) in
  let! (_, record_marker) := build_names (ur_registration_id r) in
  let! record :=
    Some (replicate (Z.to_nat LEGACY_USERDB_RECORD_SIZE) 0)
    |> put_text userrec.sUserName display_name
    |> put_text userrec.Name legacy_name
    |> put_text userrec.sComment record_marker
    |> put_text userrec.sExpiryDate (lit "00-00-0000")
    |> put_text userrec.sSex (lit "Unknown")
    |> put_text userrec.sProtocol protocol
    |> put_word userrec.xPassword 0
    |> put_word userrec.tFirstLoginDate (ur_registered_at r)
    |> put_word userrec.tLastLoginDate 0
    |> put_security userrec.Security d
    |> put_security userrec.ExpirySec d
    |> put_bit userrec.GraphMode true
    |> put_bit userrec.HotKeys true
    |> put_bit userrec.Cls true
    |> put_bit userrec.More true
    |> put_bit userrec.MailScan (rd_mail_scan d)
    |> put_bit userrec.ieFILE (rd_new_file_scan d)
    |> put_bit userrec.ieNEWS true
    |> put_bit userrec.ieASCII8 true
    |> put_bit userrec.Email (rd_email d)
    |> put_word userrec.iTimeLeft 20
    |> put_word userrec.tLastPwdChange (ur_registered_at r)
    |> put_word userrec.MsgEditor (rd_message_editor d)
    |> put_word userrec.iLastFileArea 1
    |> put_word userrec.iLastMsgArea 1
    |> put_word userrec.iLanguage (rd_language d)
    |> put_word userrec.Charset (rd_charset d) in
  let! primary := buf_get record LEGACY_PRIMARY_OPTION_BITS_OFFSET in
  let! secondary := buf_get record LEGACY_SECONDARY_OPTION_BITS_OFFSET in
  let! iemsi := buf_get record LEGACY_IEMSI_OPTION_BITS_OFFSET in
  let secondary_bits := u8 (Z.lor 0x03 (if rd_mail_scan d then 0x08 else 0)) in
  let iemsi_bits :=
    u8 (Z.lor (Z.lor 0x18 (if rd_new_file_scan d then 0x20 else 0)) (if rd_email d then 0x40 else 0)) in
  Some (if negb (primary =? 0x06) || negb (secondary =? secondary_bits) || negb (iemsi =? iemsi_bits)
           || negb (is_zero_array (text_member record userrec.xPassword))
           || negb (is_zero_array (text_member record userrec.Password))
        then None else Some record).

(** ** The proof that is kept *)

(** [memset] and the two assignments after it. *)
Definition cleared_registration : legacy_userdb_prepared_registration :=
  let zeros n := replicate (Z.to_nat n) 0 in
  PreparedRegistration false false (zeros LEGACY_USERDB_UUID_SIZE) (zeros LEGACY_USERDB_UUID_SIZE)
    (zeros (LEGACY_USERDB_LEGACY_NAME_MAX + 1)) (zeros (LEGACY_USERDB_DISPLAY_NAME_MAX + 1))
    LEGACY_USERDB_NO_RECORD (-1) 0 0 0 0 0 0 0 0 0 0 0 (zeros LEGACY_USERDB_RECORD_SIZE).

(** The proof that [legacy_userdb_prepare_registration] fills in before it creates
    anything: [record_count], the record and what [fstat] said of the database and of
    the directory of the users. *)
Definition prepare_context (r : legacy_userdb_registration) (record_count : Z)
    (database_status users_directory_status : stat) (record : list Z)
    : run legacy_userdb_prepared_registration :=
  let! legacy_name := deref (ur_legacy_name r) in
  let! display_name := deref (ur_display_name r) in
  let context := cleared_registration in
  Some (PreparedRegistration true (pr_commit_started context) (ur_registration_id r) (ur_user_id r)
          (snprintf_s (pr_legacy_name context) legacy_name) (snprintf_s (pr_display_name context) display_name)
          record_count (st_size database_status) (st_dev database_status) (st_ino database_status)
          (st_uid database_status) (st_gid database_status) (Z.land (st_mode database_status) 0xfff)
          (st_nlink database_status) (st_dev users_directory_status) (st_ino users_directory_status)
          (st_uid users_directory_status) (st_gid users_directory_status)
          (Z.land (st_mode users_directory_status) 0xfff) record).

Definition provision_set_error (error : option legacy_userdb_error) (status : legacy_userdb_status)
    (system_errno record_number : Z) (repair_required : bool) (text : list Z) : option legacy_userdb_error :=
  (λ _, UserdbError status system_errno record_number repair_required
          (text ++ replicate (Z.to_nat (LEGACY_USERDB_ERROR_TEXT_SIZE - zlen text)) 0)) <$> error.

Definition prepared_context_is_valid (prepared : option legacy_userdb_prepared_registration) : run bool :=
  match prepared with
  | None => Some false
  | Some p =>
      let record := pr_record_bytes p in
      Some (pr_prepared p) &&! uuid_is_nonzero (pr_registration_id p) &&! uuid_is_nonzero (pr_user_id p)
      &&! legacy_userdb_legacy_name_is_valid (Some (pr_legacy_name p))
      &&! legacy_userdb_display_name_is_compatible (Some (pr_display_name p))
      &&! Some (negb (pr_record_number p =? LEGACY_USERDB_NO_RECORD)
                && (pr_record_number p <? LEGACY_USERDB_DEFAULT_MAX_RECORDS)
                && mode_value_is_valid (pr_database_mode p)
                && mode_value_is_valid (pr_users_directory_mode p)
                && negb (pr_database_links p =? 0)
                && (pr_original_size p
                      =? LEGACY_USERDB_HEADER_SIZE + u64 (pr_record_number p * LEGACY_USERDB_RECORD_SIZE)))
      &&! (let! (_, expected_record_marker) := build_names (pr_registration_id p) in
           let text m := text_member record m in
           let terminated m := fixed_text_is_terminated (text m) m.2 in
           Some (terminated userrec.Name && terminated userrec.sUserName
                 && terminated userrec.sComment && terminated userrec.Password
                 && streq (text userrec.Name) (pr_legacy_name p)
                 && streq (text userrec.sUserName) (pr_display_name p)
                 && streq (text userrec.sComment) expected_record_marker
                 && is_zero_array (text userrec.xPassword)
                 && is_zero_array (text userrec.Password)))
  end.

(** [prepared->commit_started = true] *)
Definition set_pr_commit_started (p : legacy_userdb_prepared_registration) : legacy_userdb_prepared_registration :=
  PreparedRegistration (pr_prepared p) true (pr_registration_id p) (pr_user_id p) (pr_legacy_name p)
    (pr_display_name p) (pr_record_number p) (pr_original_size p) (pr_database_device p) (pr_database_inode p)
    (pr_database_uid p) (pr_database_gid p) (pr_database_mode p) (pr_database_links p)
    (pr_users_directory_device p) (pr_users_directory_inode p) (pr_users_directory_uid p)
    (pr_users_directory_gid p) (pr_users_directory_mode p) (pr_record_bytes p).

(** The result, [*prepared] and [*error]. *)
Definition legacy_userdb_mark_commit_started (prepared : option legacy_userdb_prepared_registration)
    (error : option legacy_userdb_error)
    : run (Z * option legacy_userdb_prepared_registration * option legacy_userdb_error) :=
  let error := legacy_userdb_error_clear error in
  let! valid := prepared_context_is_valid prepared in
  if negb valid then
    Some (-1, prepared,
          provision_set_error error LEGACY_USERDB_CONTEXT_INVALID Errno.EINVAL LEGACY_USERDB_NO_RECORD
            (from_option pr_prepared false prepared) (lit "invalid legacy commit-boundary context"))
  else
    let! p := deref prepared in
    Some (0, Some (set_pr_commit_started p), error).

(** ** Digits *)

Definition hex_char (n : Z) : Z := if n <? 10 then chr "0" + n else chr "a" + (n - 10).

Lemma digits_get n : 0 <= n < 16 → buf_get digits n = Some (hex_char n).
Proof.
  intros Hn. assert (n ∈ map Z.of_nat (seq 0 16)) as Hin.
  { apply list_elem_of_In, in_map_iff. exists (Z.to_nat n). split; [lia|]. apply in_seq. lia. }
  revert Hin. cbn [map seq]. rewrite !elem_of_cons, elem_of_nil.
  intros Hin. repeat destruct Hin as [->|Hin]; try done; reflexivity.
Qed.

Lemma lower_hex_char n : 0 <= n < 16 → lower_hex_value (hex_char n) = n.
Proof.
  intros Hn. unfold hex_char, lower_hex_value. destruct (Z.ltb_spec n 10).
  - assert (Prelude.between (chr "0") (chr "9") (chr "0" + n) = true) as ->; [|lia].
    apply between_spec. change (chr "0") with 48. change (chr "9") with 57. lia.
  - assert (Prelude.between (chr "0") (chr "9") (chr "a" + (n - 10)) = false) as ->.
    { apply not_true_iff_false. rewrite between_spec. change (chr "9") with 57. change (chr "a") with 97. lia. }
    assert (Prelude.between (chr "a") (chr "f") (chr "a" + (n - 10)) = true) as ->; [|lia].
    apply between_spec. change (chr "a") with 97. change (chr "f") with 102. lia.
Qed.

(** The two digits of a byte. *)
Definition byte_hex (b : Z) : list Z := [hex_char (b / 16); hex_char (b mod 16)].

Lemma byte_nibbles b : byte_ok b → 0 <= b / 16 < 16 ∧ 0 <= b mod 16 < 16 ∧ b / 16 * 16 + b mod 16 = b.
Proof.
  intros [H0 H1]. change (2 ^ 8) with 256 in H1. pose proof (Z.div_mod b 16 ltac:(lia)).
  pose proof (Z.mod_pos_bound b 16 ltac:(lia)). lia.
Qed.

Lemma hex_char_nonzero n : 0 <= n < 16 → hex_char n ≠ 0.
Proof. unfold hex_char. intros. case_if; char_lia. Qed.

(** Two digits make a byte. *)
Lemma hex_byte high low :
  0 <= high < 16 → 0 <= low < 16 →
  u8 (u32 (u32 high * 16 + u32 low)) = high * 16 + low ∧
  byte_ok (high * 16 + low) ∧ byte_hex (high * 16 + low) = [hex_char high; hex_char low].
Proof.
  intros Hh Hl. assert (∀ w, 8 <= w → ∀ z, 0 <= z < 256 → wrap w z = z) as Hw.
  { intros w Hw z Hz. apply wrap_fits. split; [lia|].
    assert (2 ^ 8 <= 2 ^ w) by (apply Z.pow_le_mono_r; lia). change (2 ^ 8) with 256 in *. lia. }
  unfold u8, u32.
  rewrite (Hw 32 ltac:(lia) high), (Hw 32 ltac:(lia) low), (Hw 32 ltac:(lia)), Hw by lia. split; [done|].
  split; [split; change (2 ^ 8) with 256; lia|]. unfold byte_hex. do 2 f_equal; [|do 2 f_equal].
  - symmetry. apply (Z.div_unique_pos _ 16 _ low); lia.
  - symmetry. apply (Z.mod_unique_pos _ 16 high); lia.
Qed.

Lemma hex_digits_spec uuid : bytes_ok uuid → hex_digits uuid = Some (concat (map byte_hex uuid)).
Proof.
  induction 1 as [|b uuid Hb _ IH]; [done|]. cbn [hex_digits map concat].
  destruct (byte_nibbles b Hb) as (Hh & Hl & _).
  rewrite Z.shiftr_div_pow2 by done. change (2 ^ 4) with 16.
  change 0x0f with (Z.ones 4). rewrite Z.land_ones by done. change (2 ^ 4) with 16.
  rewrite !digits_get by done. run_simpl. rewrite IH. done.
Qed.

(** ** Identifiers *)

(** An identifier as it is kept: 16 bytes, not all of them zero. *)
Record identifier (uuid : list Z) : Prop := {
  id_bytes : bytes_ok uuid;
  id_length : length uuid = 16%nat;
  id_nonzero : ∃ b, b ∈ uuid ∧ b ≠ 0;
}.

Lemma format_uuid_hex_spec uuid :
  bytes_ok uuid → length uuid = 16%nat → format_uuid_hex uuid = Some (concat (map byte_hex uuid)).
Proof.
  intros Hok Hl. unfold format_uuid_hex, LEGACY_USERDB_UUID_SIZE.
  rewrite buf_read_in by (unfold zlen; lia). run_simpl. cbn [Z.to_nat drop].
  rewrite take_ge by (change (Z.to_nat 16) with 16%nat; rewrite ?drop_0; lia). by apply hex_digits_spec.
Qed.

Lemma exists_nonzero (l : list Z) : (∃ b, b ∈ l ∧ b ≠ 0) ↔ forallb (Z.eqb 0) l = false.
Proof.
  rewrite <- not_true_iff_false, forallb_Forall, Forall_forall. split.
  - intros (b & Hin & Hb) H. specialize (H b Hin). bools. lia.
  - intros H. induction l as [|b l IH]; [exfalso; apply H; intros x Hx; by apply elem_of_nil in Hx|].
    destruct (decide (b = 0)) as [->|Hb]; [|exists b; split; [apply elem_of_cons; by left|done]].
    destruct IH as (x & Hx & Hne); [|exists x; split; [apply elem_of_cons; by right|done]].
    intros Hl. apply H. intros x [->|Hx]%elem_of_cons; [done|by apply Hl].
Qed.

Lemma scan_nonzero (l : list Z) pre :
  for_range (length l) (zlen pre)
    (λ index s, let! byte := buf_get (pre ++ l) index in
                Some (if negb (byte =? 0) then Return true else Continue s)) tt
  = Some (if forallb (Z.eqb 0) l then Break tt else Return true).
Proof.
  apply (for_range_forallb (Z.eqb 0)). intros k x Hk.
  rewrite buf_get_app_r by lia. unfold buf_get.
  rewrite (proj2 (Z.leb_le _ _)), Nat2Z.id, Hk by lia. run_simpl. rewrite (Z.eqb_sym x 0). by destruct (0 =? x).
Qed.

Lemma uuid_is_nonzero_spec uuid :
  length uuid = 16%nat → LegacyUserdb.uuid_is_nonzero uuid = Some (negb (forallb (Z.eqb 0) uuid)).
Proof.
  intros Hl. unfold LegacyUserdb.uuid_is_nonzero. change (Z.to_nat LEGACY_USERDB_UUID_SIZE) with 16%nat.
  rewrite <- Hl. pose proof (scan_nonzero uuid []) as Hs. cbn [app] in Hs. change (zlen []) with 0 in Hs.
  rewrite Hs. run_simpl. by destruct (forallb _ _).
Qed.

Lemma combine_bytes (l : list Z) pre acc :
  0 <= acc → bytes_ok l →
  ∃ r, for_range (R := unit) (length l) (zlen pre)
    (λ index combined, let! byte := buf_get (pre ++ l) index in Some (Continue (Z.lor combined byte))) acc
    = Some (Break r) ∧ 0 <= r ∧ (r = 0 ↔ acc = 0 ∧ forallb (Z.eqb 0) l = true).
Proof.
  intros Hacc Hl. revert pre acc Hacc. induction Hl as [|b l Hb Hl IH]; intros pre acc Hacc.
  { exists acc. split; [done|]. split; [done|]. cbn. intuition. }
  cbn [for_range length]. rewrite <- (Z.add_0_r (zlen pre)), buf_get_app_r by done.
  change (buf_get (b :: l) 0) with (Some b). run_simpl. rewrite Z.add_0_r. destruct Hb as [Hb _].
  destruct (IH (pre ++ [b]) (Z.lor acc b)) as (r & Hr & H0 & Hiff); [by apply Z.lor_nonneg|].
  rewrite zlen_app in Hr. change (zlen [b]) with 1 in Hr. rewrite <- app_assoc in Hr. cbn [app] in Hr.
  exists r. split; [exact Hr|]. split; [done|]. cbn [forallb]. rewrite Hiff, Z.lor_eq_0_iff, andb_true_iff, Z.eqb_eq. intuition.
Qed.

Lemma provision_uuid_is_nonzero_spec uuid :
  bytes_ok uuid → length uuid = 16%nat →
  uuid_is_nonzero uuid = Some (negb (forallb (Z.eqb 0) uuid)).
Proof.
  intros Hok Hl. unfold uuid_is_nonzero. change (Z.to_nat LEGACY_USERDB_UUID_SIZE) with 16%nat.
  rewrite <- Hl. destruct (combine_bytes uuid [] 0 ltac:(lia) Hok) as (r & Hr & _ & Hiff).
  cbn [app] in Hr. change (zlen []) with 0 in Hr. rewrite Hr. run_simpl. f_equal. f_equal.
  apply eq_true_iff_eq. rewrite Z.eqb_eq, Hiff. intuition.
Qed.

(** ** Members of a record *)

(** Two members that share no byte. *)
Definition apart (m m' : Z * Z) : Prop := m.1 + m.2 <= m'.1 ∨ m'.1 + m'.2 <= m.1.

Definition inside (record : list Z) (m : Z * Z) : Prop := 0 <= m.1 ∧ 0 <= m.2 ∧ m.1 + m.2 <= zlen record.

(** What an assignment to a member does. *)
Lemma put_member_spec m data record :
  inside record m → zlen data <= m.2 →
  ∃ record', put_member m data (Some record) = Some record' ∧ zlen record' = zlen record ∧
    text_member record' m = data ++ drop (length data) (text_member record m) ∧
    (∀ m', inside record m' → apart m m' → text_member record' m' = text_member record m').
Proof.
  intros (H1 & H2 & H3) Hd. unfold put_member. rewrite (proj2 (Z.leb_le _ _)) by done.
  rewrite buf_write_in by lia. eexists. split; [reflexivity|].
  pose proof (zlen_nonneg data). unfold zlen in *. split; [|split].
  - rewrite !length_app, length_take, length_drop. lia.
  - unfold text_member, member. rewrite drop_app_length' by (rewrite length_take; lia).
    rewrite take_app. rewrite take_ge by lia. f_equal.
    by rewrite skipn_firstn_comm, drop_drop.
  - intros m' (H1' & H2' & H3') Hapart. unfold text_member, member. unfold zlen in *.
    destruct Hapart as [Ha|Ha].
    + rewrite drop_app_ge by (rewrite length_take; lia). rewrite length_take.
      rewrite drop_app_ge by lia. rewrite drop_drop. do 2 f_equal. lia.
    + rewrite drop_app_le by (rewrite length_take; lia).
      rewrite take_app_le by (rewrite length_drop, length_take; lia).
      rewrite skipn_firstn_comm, take_take. f_equal. lia.
Qed.

(** What is known of the members of a record: they have these bytes. *)
Abbreviation facts := (list ((Z * Z) * list Z)) (only parsing).

Definition insideb (m : Z * Z) : bool :=
  (0 <=? m.1) && (0 <=? m.2) && (m.1 + m.2 <=? LEGACY_USERDB_RECORD_SIZE).

Definition apartb (m m' : Z * Z) : bool := (m.1 + m.2 <=? m'.1) || (m'.1 + m'.2 <=? m.1).

Definition known (record : list Z) (fs : facts) : Prop :=
  zlen record = LEGACY_USERDB_RECORD_SIZE ∧ Forall (λ fact, insideb fact.1 = true ∧ text_member record fact.1 = fact.2) fs.

(** The facts that an assignment to [m] leaves. *)
Definition forget (m : Z * Z) (fs : facts) : facts := filter (λ fact, apartb m fact.1 = true) fs.

Fixpoint lookup_fact (m : Z * Z) (fs : facts) : option (list Z) :=
  match fs with
  | [] => None
  | (m', data) :: fs => if (m.1 =? m'.1) && (m.2 =? m'.2) then Some data else lookup_fact m fs
  end.

Lemma known_fact record fs m data :
  known record fs → lookup_fact m fs = Some data → text_member record m = data.
Proof.
  intros [_ H]. induction H as [|[m' data'] fs [_ Hb] _ IH]; [done|]. cbn [lookup_fact].
  destruct ((m.1 =? m'.1) && (m.2 =? m'.2)) eqn:E; [|done]. intros [= <-]. bools.
  destruct m, m'. cbn in *. by subst.
Qed.

Lemma insideb_spec record m : zlen record = LEGACY_USERDB_RECORD_SIZE → insideb m = true → inside record m.
Proof. unfold insideb, inside. intros ->. intros. bools. lia. Qed.

Lemma known_forget record record' fs m :
  known record fs → zlen record' = zlen record →
  (∀ m', inside record m' → apart m m' → text_member record' m' = text_member record m') →
  known record' (forget m fs).
Proof.
  intros [Hlen Hfs] Hlen' Hkeep. split; [congruence|]. apply Forall_forall. intros [m' data] Hin.
  unfold forget in Hin. apply list_elem_of_filter in Hin as [Ha Hin].
  rewrite Forall_forall in Hfs. destruct (Hfs _ Hin) as [Hins Ht]. cbn [fst snd] in *. split; [done|].
  rewrite Hkeep; [done|by apply insideb_spec|].
  unfold apartb in Ha. unfold apart. bools. destruct Ha; bools; auto.
Qed.

Lemma put_member_known m data old record fs :
  known record fs → insideb m = true → lookup_fact m fs = Some old → zlen data <= m.2 →
  ∃ record', put_member m data (Some record) = Some record' ∧
    known record' ((m, data ++ drop (length data) old) :: forget m fs).
Proof.
  intros Hk Hin Hold Hd. pose proof Hk as [Hlen _]. pose proof (known_fact _ _ _ _ Hk Hold) as Hm.
  destruct (put_member_spec m data record) as (record' & Hput & Hlen' & Hnew & Hkeep); [by apply insideb_spec|done|].
  exists record'. split; [done|]. destruct (known_forget record record' fs m Hk Hlen' Hkeep) as [Hl Hf].
  split; [done|]. constructor; [|done]. split; [done|]. cbn [fst snd]. congruence.
Qed.

(** A byte of a member. *)
Lemma member_nth record m data k :
  text_member record m = data → 0 <= m.1 → m.1 <= k < m.1 + m.2 →
  nth (Z.to_nat k) record 0 = nth (Z.to_nat (k - m.1)) data 0.
Proof.
  intros <- H0 Hk. unfold text_member, member. rewrite !nth_lookup, lookup_take_lt by lia.
  rewrite lookup_drop. do 2 f_equal. lia.
Qed.

Lemma member_get record k b :
  0 <= k → text_member record (k, 1) = [b] → buf_get record k = Some b.
Proof.
  unfold text_member, member, buf_get. cbn [fst snd]. intros Hk H. rewrite (proj2 (Z.leb_le _ _)) by done.
  change (Z.to_nat 1) with 1%nat in H.
  rewrite <- (Nat.add_0_r (Z.to_nat k)), <- lookup_drop. destruct (drop (Z.to_nat k) record); [done|].
  cbn in *. congruence.
Qed.

(** A member of one bit. *)
Lemma put_bit_known m v record fs b :
  known record fs → insideb (m.1, 1) = true → lookup_fact (m.1, 1) fs = Some [b] →
  ∃ record', put_bit m v (Some record) = Some record' ∧
    known record' (((m.1, 1), [if v then Z.setbit b m.2 else Z.clearbit b m.2]) :: forget (m.1, 1) fs).
Proof.
  intros Hk Hin Hb. pose proof (known_fact _ _ _ _ Hk Hb) as Hm.
  pose proof Hk as [Hlen _]. destruct (insideb_spec _ _ Hlen Hin) as (H0 & _ & H1). cbn [fst snd] in *.
  unfold put_bit. rewrite (member_get _ _ _ H0 Hm). run_simpl.
  set (v' := if v then _ else _).
  destruct (put_member_known (m.1, 1) [v'] [b] record fs Hk Hin Hb) as (record' & Hput & Hk'); [done|].
  exists record'. split; [|done]. rewrite <- Hput. unfold put_member. cbn [fst snd]. change (zlen [v'] <=? 1) with true.
  run_simpl. rewrite buf_write_in by (done || (change (zlen [v']) with 1; lia)).
  rewrite buf_set_in by lia. f_equal. unfold zlen in H1.
  rewrite insert_take_drop by lia. cbn [length app]. do 3 f_equal. lia.
Qed.

(** ** Registrations that are valid *)

Lemma legacy_name_valid_inv p :
  legacy_userdb_legacy_name_is_valid p = Some true →
  ∃ text tail, p = Some (terminated text tail) ∧ legacy_name text = true.
Proof.
  destruct p as [name|]; [|done]. intros H. pose proof H as H'. unfold legacy_userdb_legacy_name_is_valid in H'.
  destruct (strnlen _ _) as [n|] eqn:En; [|done]. revert H'. run_simpl.
  destruct (_ || _) eqn:Hn; [done|]. intros _. bools.
  destruct (strnlen_inv _ _ _ En) as (text & tail & -> & Hnz & ->).
  { change LEGACY_USERDB_LEGACY_NAME_MAX with 8 in *. cbn. lia. }
  exists text, tail. split; [done|]. rewrite legacy_userdb_legacy_name_spec in H by done. congruence.
Qed.

Lemma display_name_valid_inv name :
  bytes_ok name → legacy_userdb_display_name_is_compatible (Some name) = Some true →
  ∃ text tail, name = terminated text tail ∧ legacy_display_name text = true ∧ Forall (λ b, b ≠ 0) text ∧
    bytes_ok text.
Proof.
  intros Hok H. pose proof H as H'. unfold legacy_userdb_display_name_is_compatible in H'.
  destruct (strnlen _ _) as [n|] eqn:En; [|done]. revert H'. run_simpl.
  destruct (_ || _) eqn:Hn; [done|]. intros _. bools.
  destruct (strnlen_inv _ _ _ En) as (text & tail & -> & Hnz & ->).
  { change LEGACY_USERDB_DISPLAY_NAME_MAX with 35 in *. cbn. lia. }
  exists text, tail. split; [done|]. apply bytes_ok_app in Hok as [Hok _].
  rewrite legacy_userdb_display_name_spec in H by done. by split; [congruence|].
Qed.

Lemma protocol_valid_inv p :
  protocol_is_valid p = Some true →
  ∃ text tail, p = Some (terminated text tail) ∧ Forall (λ b, b ≠ 0) text ∧ zlen text <= LEGACY_USERDB_PROTOCOL_MAX.
Proof.
  destruct p as [protocol|]; [|done]. unfold protocol_is_valid.
  destruct (strnlen _ _) as [n|] eqn:En; [|done]. run_simpl. destruct (_ || _) eqn:Hn; [done|]. intros _. bools.
  destruct (strnlen_inv _ _ _ En) as (text & tail & -> & Hnz & ->).
  { change LEGACY_USERDB_PROTOCOL_MAX with 20 in *. cbn. lia. }
  by exists text, tail.
Qed.

(** [&&] of checks. *)
Lemma run_and_true a b : run_and a b = Some true ↔ a = Some true ∧ b = Some true.
Proof. unfold run_and. destruct a as [[]|]; naive_solver. Qed.

(** The pointers of a registration lead to bytes, and its identifiers are arrays of 16 bytes. *)
Record registration_memory (r : legacy_userdb_registration) : Prop := {
  rm_registration_id : bytes_ok (ur_registration_id r) ∧ length (ur_registration_id r) = 16%nat;
  rm_user_id : bytes_ok (ur_user_id r) ∧ length (ur_user_id r) = 16%nat;
  rm_display_name : ∀ name, ur_display_name r = Some name → bytes_ok name;
}.

(** What the check of a registration leaves. *)
Record registration_parts (r : legacy_userdb_registration) (name display protocol : list Z) : Prop := {
  rp_registration_id : identifier (ur_registration_id r);
  rp_user_id : identifier (ur_user_id r);
  rp_legacy_name : (∃ tail, ur_legacy_name r = Some (terminated name tail)) ∧ legacy_name name = true;
  rp_display_name : (∃ tail, ur_display_name r = Some (terminated display tail)) ∧
    legacy_display_name display = true ∧ Forall (λ b, b ≠ 0) display ∧ bytes_ok display;
  rp_protocol : (∃ tail, rd_protocol (ur_defaults r) = Some (terminated protocol tail)) ∧
    Forall (λ b, b ≠ 0) protocol ∧ zlen protocol <= LEGACY_USERDB_PROTOCOL_MAX;
  rp_numbers : Forall (fits 32) [ur_registered_at r; rd_language (ur_defaults r); rd_charset (ur_defaults r);
    rd_message_editor (ur_defaults r)];
}.

Lemma provision_identifier uuid :
  bytes_ok uuid → length uuid = 16%nat → uuid_is_nonzero uuid = Some true ↔ identifier uuid.
Proof.
  intros Hok Hl. rewrite provision_uuid_is_nonzero_spec by done. split.
  - intros [= H]. split; [done..|]. apply exists_nonzero. by apply negb_true_iff.
  - intros [_ _ H]. apply exists_nonzero in H. by rewrite H.
Qed.

Lemma registration_is_valid_inv r :
  registration_memory r → registration_is_valid (Some r) = Some true →
  ∃ name display protocol, registration_parts r name display protocol.
Proof.
  intros [[Hrb Hrl] [Hub Hul] Hd] H. unfold registration_is_valid in H. cbv zeta in H.
  rewrite !run_and_true in H. destruct H as (((((Hr & Hu) & Hname) & Hdisplay) & [= Hnumbers]) & Hprotocol).
  apply legacy_name_valid_inv in Hname as (name & ntail & Hn & Hname).
  destruct (ur_display_name r) as [dn|] eqn:Edn; [|done].
  apply display_name_valid_inv in Hdisplay as (display & dtail & Hd' & Hdisplay & Hdnz & Hdb); [|by apply Hd].
  apply protocol_valid_inv in Hprotocol as (protocol & ptail & Hp & Hpnz & Hpl).
  exists name, display, protocol.
  split; [by apply provision_identifier..| | | |]; rewrite ?Hn, ?Edn, ?Hd', ?Hp; eauto 12.
  bools. unfold INT32_MAX, UCHAR_MAX, LEGACY_USERDB_CHARSET_MAX, LEGACY_USERDB_EDITOR_LINE,
    LEGACY_USERDB_EDITOR_EXTERNAL in *.
  repeat constructor; unfold fits; change (2 ^ 32) with 4294967296; lia.
Qed.

(** ** The record that is built *)

(** Data that fit into a member. *)
Ltac record_fits :=
  first
  [ apply Z.leb_le; reflexivity
  | rewrite ?zlen_app; change (zlen [0]) with 1;
    match goal with |- _ <= ?k => let n := eval vm_compute in k in change k with n end; lia ].

(** The next assignment of the chain, with what is known after it. *)
Ltac record_step :=
  match goal with
  | H : known ?rec ?fs |- context [put_member ?m ?data (Some ?rec)] =>
      let rec' := fresh "record" in
      destruct (put_member_known m data _ rec fs H eq_refl eq_refl) as (rec' & -> & ?);
        [record_fits|clear H]
  | H : known ?rec ?fs |- context [put_bit ?m ?v (Some ?rec)] =>
      let rec' := fresh "record" in
      destruct (put_bit_known m v rec fs _ H eq_refl eq_refl) as (rec' & -> & ?); clear H
  end.

(** The marker of a record. *)
Definition record_marker (id : list Z) : list Z := LEGACY_USERDB_RECORD_MARKER_PREFIX ++ concat (map byte_hex id).

(** A text in a member, with zeros after it. *)
Definition padded (m : Z * Z) (text : list Z) : list Z := text ++ replicate (Z.to_nat (m.2 - zlen text)) 0.

(** The number in a member, its lowest byte first. *)
Definition le_number (bytes : list Z) : Z := foldr (λ b n, b + 256 * n) 0 bytes.
Definition number (record : list Z) (m : Z * Z) : Z := le_number (text_member record m).

Definition option_bit (record : list Z) (m : Z * Z) : bool := Z.testbit (nth (Z.to_nat m.1) record 0) m.2.

(** The options that a new user has. *)
Definition option_set (d : legacy_userdb_record_defaults) (m : Z * Z) : bool :=
  bool_decide (m ∈ [userrec.HotKeys; userrec.GraphMode; userrec.Cls; userrec.More; userrec.ieASCII8;
                    userrec.ieNEWS])
  || bool_decide (m = userrec.MailScan) && rd_mail_scan d
  || bool_decide (m = userrec.ieFILE) && rd_new_file_scan d
  || bool_decide (m = userrec.Email) && rd_email d.

(** The bytes with options, and the other members that are not zero in a new record. *)
Definition option_bytes : list Z := [385; 386; 562].
Definition record_members : list (Z * Z) :=
  [userrec.sUserName; userrec.Name; userrec.tFirstLoginDate; userrec.Security; userrec.sComment;
   userrec.sExpiryDate; userrec.ExpirySec; userrec.sSex; userrec.iTimeLeft; userrec.tLastPwdChange;
   userrec.MsgEditor; userrec.iLastFileArea; userrec.sProtocol; userrec.iLastMsgArea; userrec.iLanguage;
   userrec.Charset].

(** The three numbers of a security level. *)
Definition security_numbers (record : list Z) (m : Z * Z) : Z * Z * Z :=
  (number record (m.1, 4), number record (m.1 + 4, 4), number record (m.1 + 8, 4)).

(** The record of a registration with these texts, every byte of it. *)
Record record_says (record : list Z) (r : legacy_userdb_registration) (name display protocol : list Z) : Prop := {
  rs_size : zlen record = LEGACY_USERDB_RECORD_SIZE;
  rs_display : text_member record userrec.sUserName = padded userrec.sUserName display;
  rs_name : text_member record userrec.Name = padded userrec.Name name;
  rs_comment : text_member record userrec.sComment =
    padded userrec.sComment (record_marker (ur_registration_id r));
  rs_protocol : text_member record userrec.sProtocol = padded userrec.sProtocol protocol;
  rs_expiry : text_member record userrec.sExpiryDate = padded userrec.sExpiryDate (lit "00-00-0000");
  rs_sex : text_member record userrec.sSex = padded userrec.sSex (lit "Unknown");
  rs_dates : number record userrec.tFirstLoginDate = ur_registered_at r ∧
    number record userrec.tLastPwdChange = ur_registered_at r;
  rs_security : ∀ m, m ∈ [userrec.Security; userrec.ExpirySec] →
    security_numbers record m =
      (u32 (rd_security_level (ur_defaults r)), u32 (rd_security_flags (ur_defaults r)),
       u32 (rd_security_notflags (ur_defaults r)));
  rs_language : number record userrec.iLanguage = rd_language (ur_defaults r);
  rs_charset : number record userrec.Charset = rd_charset (ur_defaults r);
  rs_editor : number record userrec.MsgEditor = rd_message_editor (ur_defaults r);
  rs_start : number record userrec.iTimeLeft = 20 ∧ number record userrec.iLastFileArea = 1 ∧
    number record userrec.iLastMsgArea = 1;
  rs_options : ∀ k bit, k ∈ option_bytes → 0 <= bit < 8 →
    option_bit record (k, bit) = option_set (ur_defaults r) (k, bit);
  rs_xpassword : text_member record userrec.xPassword = replicate 4 0;
  rs_password : text_member record userrec.Password = replicate 15 0;
  rs_rest : ∀ k, 0 <= k < LEGACY_USERDB_RECORD_SIZE → k ∉ option_bytes →
    Forall (λ m, k < m.1 ∨ m.1 + m.2 <= k) record_members → nth (Z.to_nat k) record 0 = 0;
}.

(** The pieces of a record: the assigned members, and what is between them. *)
Definition record_gaps : list (Z * Z) :=
  [(45, 4); (49, 203); (256, 4); (387, 4); (395, 12); (411, 12); (427, 10); (441, 4); (466, 28); (498, 8);
   (510, 52); (563, 15); (582, 16)].
Definition record_pieces : list (Z * Z) := record_members ++ [(385, 1); (386, 1); (562, 1)] ++ record_gaps.

Definition zero_facts : facts :=
  Eval cbv [record_pieces record_members record_gaps app map] in
  map (λ m, (m, replicate (Z.to_nat m.2) 0)) record_pieces.

Lemma zero_record_known : known (replicate (Z.to_nat LEGACY_USERDB_RECORD_SIZE) 0) zero_facts.
Proof.
  split; [done|]. unfold zero_facts.
  repeat (apply Forall_cons_2 || apply Forall_nil_2); (split; [done|]); vm_compute; reflexivity.
Qed.

Lemma uncovered_gap k :
  0 <= k < LEGACY_USERDB_RECORD_SIZE → k ∉ option_bytes →
  Forall (λ m, k < m.1 ∨ m.1 + m.2 <= k) record_members →
  ∃ m, m ∈ record_gaps ∧ m.1 <= k < m.1 + m.2.
Proof.
  intros Hk Hno Hout.
  assert (existsb (λ m : Z * Z, (m.1 <=? k) && (k <? m.1 + m.2)) record_gaps = true) as Hgap.
  2:{ apply existsb_exists in Hgap as (m & Hm & Hb). exists m. split; [by apply list_elem_of_In|]. bools. lia. }
  revert Hno Hout. replace k with (Z.of_nat (Z.to_nat k)) by lia.
  assert (Z.to_nat k < 598)%nat as Hn by (change LEGACY_USERDB_RECORD_SIZE with 598 in Hk; lia).
  revert Hn. generalize (Z.to_nat k) as n. clear k Hk. intros n Hn Hno Hout.
  assert (forallb (λ n, let k := Z.of_nat n in
      bool_decide (k ∈ option_bytes)
      || existsb (λ m : Z * Z, (m.1 <=? k) && (k <? m.1 + m.2)) (record_members ++ record_gaps))
    (seq 0 598) = true) as Hall by (vm_compute; reflexivity).
  rewrite forallb_forall in Hall. specialize (Hall n ltac:(apply in_seq; lia)). cbv zeta in Hall.
  rewrite bool_decide_eq_false_2, existsb_app in Hall by done. cbn [orb] in Hall.
  apply orb_true_iff in Hall as [Hin|]; [|done]. apply existsb_exists in Hin as (m & Hm & Hb).
  rewrite Forall_forall in Hout. specialize (Hout m ltac:(by apply list_elem_of_In)). bools. lia.
Qed.

Lemma le_number_word v : le_number (le_word v) = u32 v.
Proof.
  unfold le_number, le_word. cbn [foldr]. destruct (fits_wrap 32 v ltac:(done)) as [H0 H1].
  fold (u32 v) in H0, H1. change (2 ^ 32) with 4294967296 in H1. Z.to_euclidean_division_equations. lia.
Qed.

Lemma padded_text m text :
  zlen text < m.2 →
  (text ++ [0]) ++ drop (length (text ++ [0])) (replicate (Z.to_nat m.2) 0) = padded m text.
Proof.
  intros Hlen. unfold padded, zlen in *. rewrite drop_replicate, <- app_assoc, length_app. cbn [length app].
  f_equal. replace (Z.to_nat (m.2 - _)) with (S (Z.to_nat m.2 - (length text + 1))) by lia. done.
Qed.

Lemma padded_terminated m text : zlen text < m.2 → ∃ tail, padded m text = terminated text tail.
Proof.
  intros Hlen. unfold padded, terminated.
  replace (Z.to_nat (m.2 - zlen text)) with (S (Z.to_nat (m.2 - zlen text - 1))) by lia. by eexists.
Qed.

Lemma build_names_spec id :
  bytes_ok id → length id = 16%nat →
  build_names id = Some (LEGACY_USERDB_STAGING_PREFIX ++ concat (map byte_hex id), record_marker id).
Proof. intros Hb Hl. unfold build_names. by rewrite format_uuid_hex_spec. Qed.

Lemma concat_hex_length id : zlen (concat (map byte_hex id)) = 2 * zlen id.
Proof.
  induction id as [|b id IH]; [done|]. cbn [map concat]. rewrite zlen_app, IH, zlen_cons.
  change (zlen (byte_hex b)) with 2. lia.
Qed.

Lemma concat_hex_nonzero id : bytes_ok id → Forall (λ b, b ≠ 0) (concat (map byte_hex id)).
Proof.
  induction 1 as [|b id Hb _ IH]; [constructor|]. destruct (byte_nibbles b Hb) as (Hh & Hl & _).
  cbn [map concat byte_hex app]. constructor; [by apply hex_char_nonzero|].
  constructor; [by apply hex_char_nonzero|done].
Qed.

Lemma record_marker_text id :
  bytes_ok id → length id = 16%nat → Forall (λ b, b ≠ 0) (record_marker id) ∧ zlen (record_marker id) = 40.
Proof.
  intros Hb Hl. unfold record_marker. split.
  - apply Forall_app. split; [apply (bool_decide_unpack _); vm_compute; exact I|by apply concat_hex_nonzero].
  - rewrite zlen_app, concat_hex_length. change (zlen LEGACY_USERDB_RECORD_MARKER_PREFIX) with 8. unfold zlen. lia.
Qed.

(** The options of the record are those of the registration. *)
Lemma option_bits record d k b bit :
  text_member record (k, 1) = [b] → k ∈ option_bytes → 0 <= bit < 8 →
  (k, b) ∈ [(385, 6); (386, if rd_mail_scan d then 11 else 3);
            (562, 24 + (if rd_new_file_scan d then 32 else 0) + (if rd_email d then 64 else 0))] →
  option_bit record (k, bit) = option_set d (k, bit).
Proof.
  intros Hm Hk Hbit Hb. assert (0 <= k) as H0 by (unfold option_bytes in Hk; rewrite !elem_of_cons, elem_of_nil in Hk; lia).
  unfold option_bit. cbn [fst snd]. rewrite (member_nth record (k, 1) [b] k) by (cbn; done || lia).
  cbn [fst snd]. rewrite Z.sub_diag. cbn [Z.to_nat nth].
  assert (bit = 0 ∨ bit = 1 ∨ bit = 2 ∨ bit = 3 ∨ bit = 4 ∨ bit = 5 ∨ bit = 6 ∨ bit = 7) as Hbits by lia.
  clear Hbit Hm Hk H0. unfold option_set. rewrite !elem_of_cons, elem_of_nil in Hb.
  destruct (rd_mail_scan d), (rd_new_file_scan d), (rd_email d);
    destruct Hb as [[= -> ->]|[[= -> ->]|[[= -> ->]|[]]]];
    repeat (destruct Hbits as [->|Hbits]; [vm_compute; reflexivity|]); subst; vm_compute; reflexivity.
Qed.

Lemma zero_gap record m k :
  text_member record m = replicate (Z.to_nat m.2) 0 → 0 <= m.1 → m.1 <= k < m.1 + m.2 →
  nth (Z.to_nat k) record 0 = 0.
Proof. intros Hm H0 Hk. rewrite (member_nth _ _ _ _ Hm H0 Hk). rewrite nth_lookup.
  rewrite lookup_replicate_2 by lia. done. Qed.

(** A part of a member. *)
Lemma member_part record m data k n :
  text_member record m = data → 0 <= m.1 → 0 <= k → 0 <= n → k + n <= m.2 →
  text_member record (m.1 + k, n) = take (Z.to_nat n) (drop (Z.to_nat k) data).
Proof.
  intros <- H0 Hk Hn Hm. unfold text_member, member. cbn [fst snd].
  rewrite skipn_firstn_comm, take_take, drop_drop. f_equal; [lia|f_equal; lia].
Qed.

Lemma word_number record m v :
  text_member record m = le_word v → fits 32 v → number record m = v.
Proof. intros Hm Hv. unfold number. rewrite Hm, le_number_word. by apply wrap_fits. Qed.

Lemma security_words record m a b c :
  text_member record m = le_word a ++ le_word b ++ le_word c → 0 <= m.1 → m.2 = 12 →
  security_numbers record m = (u32 a, u32 b, u32 c).
Proof.
  intros Hm H0 H12. unfold security_numbers, number.
  pose proof (member_part record m _ 0 4 Hm H0 ltac:(lia) ltac:(lia) ltac:(lia)) as Ha.
  rewrite Z.add_0_r in Ha.
  rewrite Ha, (member_part record m _ 4 4 Hm H0), (member_part record m _ 8 4 Hm H0) by lia.
  repeat (apply f_equal2 || idtac); apply le_number_word.
Qed.

Lemma build_record_spec r name display protocol :
  registration_parts r name display protocol →
  ∃ record, build_record r = Some (Some record) ∧ record_says record r name display protocol.
Proof.
  intros [[Hrb Hrl _] _ [[ntail Hn] Hname] [[dtail Hd] (Hdisplay & Hdnz & _)] [[ptail Hp] [Hpnz Hpl]] Hnumbers].
  pose proof (legacy_name_nonzero _ Hname) as Hnnz.
  unfold legacy_name in Hname. unfold legacy_display_name in Hdisplay.
  apply andb_true_iff in Hname as [Hnl _]. apply andb_true_iff in Hdisplay as [Hdl _]. bools.
  change LEGACY_USERDB_LEGACY_NAME_MAX with 8 in Hnl. change LEGACY_USERDB_DISPLAY_NAME_MAX with 35 in Hdl.
  change LEGACY_USERDB_PROTOCOL_MAX with 20 in Hpl.
  unfold build_record. rewrite Hn, Hd, Hp. unfold deref. run_simpl. rewrite build_names_spec by done. run_simpl.
  unfold put_text, put_word, put_security, terminated. rewrite !cstr_app_zero by done.
  destruct (record_marker_text _ Hrb Hrl) as [Hmnz Hmlen]. rewrite (cstr_id (record_marker _)) by done.
  pose proof zero_record_known as Hknown. revert Hknown.
  generalize (replicate (Z.to_nat LEGACY_USERDB_RECORD_SIZE) 0) as record. intros record Hknown.
  unfold zero_facts in Hknown.
  do 27 record_step. run_simpl.
  match goal with H : known ?rec _ |- _ => rename H into Hk; set (final := rec) in * end.
  pose proof (λ m data H, known_fact _ _ m data Hk H) as Hfact.
  pose proof (proj1 Hk) as Hsize. clear Hk.
  assert (text_member final (385, 1) = [6]) as H1 by exact (Hfact (385, 1) _ eq_refl).
  assert (text_member final (386, 1) = [if rd_mail_scan (ur_defaults r) then 11 else 3]) as H2
    by (rewrite (Hfact (386, 1) _ eq_refl); by destruct (rd_mail_scan _)).
  assert (text_member final (562, 1) = [24 + (if rd_new_file_scan (ur_defaults r) then 32 else 0)
      + (if rd_email (ur_defaults r) then 64 else 0)]) as H3
    by (rewrite (Hfact (562, 1) _ eq_refl); by destruct (rd_new_file_scan _), (rd_email _)).
  assert (text_member final userrec.xPassword = replicate 4 0) as Hx by exact (Hfact userrec.xPassword _ eq_refl).
  assert (text_member final userrec.Password = replicate 15 0) as Hpw by exact (Hfact userrec.Password _ eq_refl).
  assert (∀ m, m ∈ record_gaps → text_member final m = replicate (Z.to_nat m.2) 0) as Hgaps.
  { intros m Hm. unfold record_gaps in Hm.
    repeat (apply elem_of_cons in Hm; destruct Hm as [->|Hm]; [apply Hfact; reflexivity|]).
    by apply elem_of_nil in Hm. }
  exists final. split.
  { rewrite (member_get _ LEGACY_PRIMARY_OPTION_BITS_OFFSET _ ltac:(done) H1),
      (member_get _ LEGACY_SECONDARY_OPTION_BITS_OFFSET _ ltac:(done) H2),
      (member_get _ LEGACY_IEMSI_OPTION_BITS_OFFSET _ ltac:(done) H3).
    run_simpl. rewrite Hx, Hpw. destruct (rd_mail_scan _), (rd_new_file_scan _), (rd_email _); reflexivity. }
  inversion_clear Hnumbers as [|? ? Hdate Hrest]. inversion_clear Hrest as [|? ? Hlang Hrest1].
  inversion_clear Hrest1 as [|? ? Hcharset Hrest2]. inversion_clear Hrest2 as [|? ? Heditor _].
  split; try done.
  - etrans; [exact (Hfact userrec.sUserName _ eq_refl)|apply padded_text; change (userrec.sUserName.2) with 36; lia].
  - etrans; [exact (Hfact userrec.Name _ eq_refl)|apply padded_text; change (userrec.Name.2) with 9; lia].
  - etrans; [exact (Hfact userrec.sComment _ eq_refl)|apply padded_text; change (userrec.sComment.2) with 81; lia].
  - etrans; [exact (Hfact userrec.sProtocol _ eq_refl)|apply padded_text; change (userrec.sProtocol.2) with 21; lia].
  - exact (Hfact userrec.sExpiryDate _ eq_refl).
  - exact (Hfact userrec.sSex _ eq_refl).
  - split; (apply word_number; [|done]);
      [exact (Hfact userrec.tFirstLoginDate _ eq_refl)|exact (Hfact userrec.tLastPwdChange _ eq_refl)].
  - intros m Hm. rewrite !elem_of_cons, elem_of_nil in Hm. destruct Hm as [->|[->|[]]];
      (apply security_words; [|done..]);
      [exact (Hfact userrec.Security _ eq_refl)|exact (Hfact userrec.ExpirySec _ eq_refl)].
  - apply word_number; [exact (Hfact userrec.iLanguage _ eq_refl)|done].
  - apply word_number; [exact (Hfact userrec.Charset _ eq_refl)|done].
  - apply word_number; [exact (Hfact userrec.MsgEditor _ eq_refl)|done].
  - split_and!; (apply word_number; [|done]); [exact (Hfact userrec.iTimeLeft _ eq_refl)
      |exact (Hfact userrec.iLastFileArea _ eq_refl)|exact (Hfact userrec.iLastMsgArea _ eq_refl)].
  - intros k bit Hk Hbit. pose proof Hk as Hk'. unfold option_bytes in Hk'.
    rewrite !elem_of_cons, elem_of_nil in Hk'.
    destruct Hk' as [->|[->|[->|[]]]]; (eapply option_bits; [eassumption|done..|]); rewrite !elem_of_cons; auto.
  - intros k Hk Hno Hout. destruct (uncovered_gap k Hk Hno Hout) as (m & Hm & Hin).
    apply (zero_gap final m k); [by apply Hgaps| |done].
    clear -Hm. unfold record_gaps in Hm.
    repeat (apply elem_of_cons in Hm; destruct Hm as [->|Hm]; [done|]). by apply elem_of_nil in Hm.
Qed.

(** ** The record marker is read back *)

Lemma has_prefix_app prefix rest : has_prefix (prefix ++ rest) prefix = Some true.
Proof. induction prefix as [|b prefix IH]; cbn; [done|]. by rewrite Z.eqb_refl. Qed.

Lemma marker_digits_loop pre bs rest out zeros prefix_length :
  bytes_ok bs → zlen pre = prefix_length + zlen out * 2 → 0 <= prefix_length → length zeros = length bs →
  for_range (length bs) (zlen out)
    (marker_digits (pre ++ concat (map byte_hex bs) ++ rest) prefix_length) (out ++ zeros)
  = Some (Break (out ++ bs)).
Proof.
  intros Hbs. revert pre out zeros. induction Hbs as [|b bs Hb _ IH]; intros pre out zeros Hpre H0 Hz; [by destruct zeros|].
  destruct zeros as [|z zeros]; [done|]. cbn [for_range length map concat].
  destruct (byte_nibbles b Hb) as (Hh & Hl & Heq). pose proof (zlen_nonneg out).
  unfold marker_digits at 1. rewrite <- Hpre. rewrite buf_get_app_r by done.
  replace (buf_get (pre ++ (byte_hex b ++ concat (map byte_hex bs)) ++ rest) (zlen pre)) with (Some (hex_char (b / 16)))
    by (rewrite <- (Z.add_0_r (zlen pre)); by rewrite buf_get_app_r).
  change (buf_get ((byte_hex b ++ concat (map byte_hex bs)) ++ rest) 1) with (Some (hex_char (b mod 16))).
  run_simpl. rewrite !lower_hex_char by done. rewrite (proj2 (Z.ltb_ge _ 0)), (proj2 (Z.ltb_ge (b mod 16) 0)) by lia.
  cbn [orb]. destruct (hex_byte _ _ Hh Hl) as (-> & _ & _). rewrite Heq.
  rewrite buf_set_in by (rewrite zlen_app, zlen_cons; pose proof (zlen_nonneg zeros); lia). run_simpl.
  unfold zlen at 2. rewrite Nat2Z.id, insert_app_r_alt, Nat.sub_diag by lia. cbn [insert list_insert].
  specialize (IH (pre ++ byte_hex b) (out ++ [b]) zeros). rewrite !zlen_app, <- !app_assoc in IH.
  change (zlen [b]) with 1 in IH. change (zlen (byte_hex b)) with 2 in IH. cbn [app] in IH.
  rewrite <- app_assoc. apply IH; [lia|done|cbn in Hz; lia].
Qed.

Lemma parse_record_marker_spec id tail :
  identifier id →
  parse_record_registration_marker (terminated (record_marker id) tail) = Some (0, true, id).
Proof.
  intros [Hb Hl Hnz]. destruct (record_marker_text id Hb Hl) as [Hmnz Hml].
  unfold parse_record_registration_marker, terminated. cbv zeta. unfold strlen.
  rewrite cstr_app_zero, Hml by done. unfold record_marker. rewrite <- app_assoc, has_prefix_app. run_simpl.
  change (zlen LEGACY_USERDB_RECORD_MARKER_PREFIX + LEGACY_USERDB_UUID_SIZE * 2) with 40. cbn [negb Z.eqb Pos.eqb].
  pose proof (marker_digits_loop LEGACY_USERDB_RECORD_MARKER_PREFIX id (0 :: tail) [] (replicate 16 0)
                (zlen LEGACY_USERDB_RECORD_MARKER_PREFIX) Hb ltac:(done) ltac:(done) ltac:(by rewrite Hl)) as Hloop.
  rewrite Hl in Hloop. cbn [app] in Hloop. change (zlen []) with 0 in Hloop.
  change (Z.to_nat LEGACY_USERDB_UUID_SIZE) with 16%nat. rewrite Hloop. run_simpl.
  rewrite uuid_is_nonzero_spec by done. run_simpl. apply exists_nonzero in Hnz. by rewrite Hnz.
Qed.

(** ** The proof that is kept *)

(** What [fstat] has said of a database of [record_count] records, and of what is checked. *)
Record storage_ok (record_count : Z) (database_status : stat) : Prop := {
  so_count : 0 <= record_count < LEGACY_USERDB_DEFAULT_MAX_RECORDS;
  so_size : st_size database_status = LEGACY_USERDB_HEADER_SIZE + record_count * LEGACY_USERDB_RECORD_SIZE;
  so_links : st_nlink database_status ≠ 0;
}.

Lemma masked_mode mode : mode_value_is_valid (Z.land mode 0xfff) = true.
Proof.
  unfold mode_value_is_valid. rewrite <- Z.land_assoc. change (Z.land 0xfff (u32 (Z.lnot 0xfff))) with 0.
  by rewrite Z.land_0_r.
Qed.

Lemma prefix_terminated text tail capacity :
  zlen text < capacity → fixed_text_is_terminated (terminated text tail) capacity = true.
Proof.
  intros Hlen. unfold fixed_text_is_terminated. apply existsb_exists. exists 0. split; [|done].
  apply list_elem_of_In, list_elem_of_lookup. exists (length text). unfold zlen in Hlen.
  rewrite lookup_take_lt by lia. by apply list_lookup_middle.
Qed.

Lemma cstr_terminated text tail : Forall (λ b, b ≠ 0) text → cstr (terminated text tail) = text.
Proof. apply cstr_app_zero. Qed.

Lemma snprintf_fits n text tail :
  Forall (λ b, b ≠ 0) text → zlen text <= n →
  ∃ rest, snprintf_s (replicate (Z.to_nat (n + 1)) 0) (terminated text tail) = terminated text rest.
Proof.
  intros Hnz Hlen. unfold zlen in Hlen. unfold snprintf_s. rewrite length_replicate.
  replace (Z.to_nat (n + 1)) with (S (Z.to_nat n)) by lia. rewrite cstr_terminated by done.
  rewrite take_ge by lia. unfold terminated. eauto.
Qed.

Lemma prepare_context_valid r name display protocol record record_count database users_directory :
  registration_parts r name display protocol → record_says record r name display protocol →
  storage_ok record_count database →
  ∃ context, prepare_context r record_count database users_directory record = Some context ∧
    prepared_context_is_valid (Some context) = Some true ∧
    pr_commit_started context = false ∧ pr_registration_id context = ur_registration_id r ∧
    pr_user_id context = ur_user_id r ∧ cstr (pr_legacy_name context) = name ∧
    cstr (pr_display_name context) = display ∧ pr_record_number context = record_count ∧
    pr_record_bytes context = record.
Proof.
  intros [Hr Hu [[ntail Hn] Hname] [[dtail Hd] (Hdisplay & Hdnz & Hdb)] _ _] Hsays [Hc Hs Hlinks].
  destruct Hsays as [_ H1 H2 H3 _ _ _ _ _ _ _ _ _ _ Hx Hpw _].
  pose proof (legacy_name_nonzero _ Hname) as Hnnz. destruct (record_marker_text _ (id_bytes _ Hr) (id_length _ Hr)) as [Hmnz Hml].
  assert (zlen name <= 8 ∧ zlen display <= 35) as [Hnl Hdl].
  { unfold legacy_name in Hname. unfold legacy_display_name in Hdisplay.
    apply andb_true_iff in Hname as [? _]. apply andb_true_iff in Hdisplay as [? _]. by bools. }
  destruct (padded_terminated userrec.sUserName display ltac:(change (userrec.sUserName.2) with 36; lia)) as [t1 E1]. rewrite E1 in H1.
  destruct (padded_terminated userrec.Name name ltac:(change (userrec.Name.2) with 9; lia)) as [t2 E2]. rewrite E2 in H2.
  destruct (padded_terminated userrec.sComment (record_marker (ur_registration_id r))
    ltac:(change (userrec.sComment.2) with 81; lia)) as [t3 E3].
  rewrite E3 in H3.
  unfold prepare_context. rewrite Hn, Hd. unfold deref. run_simpl. eexists. split; [reflexivity|].
  cbn [pr_commit_started pr_registration_id pr_user_id pr_legacy_name pr_display_name pr_record_number pr_record_bytes cleared_registration].
  destruct (snprintf_fits LEGACY_USERDB_LEGACY_NAME_MAX name ntail Hnnz Hnl) as [nrest ->].
  destruct (snprintf_fits LEGACY_USERDB_DISPLAY_NAME_MAX display dtail Hdnz Hdl) as [drest ->].
  rewrite !cstr_terminated by done. split; [|done].
  unfold prepared_context_is_valid. cbv zeta.
  cbn [pr_prepared pr_registration_id pr_user_id pr_legacy_name pr_display_name pr_record_number pr_original_size
    pr_database_mode pr_database_links pr_users_directory_mode pr_record_bytes].
  rewrite !run_and_true. rewrite !provision_identifier by (apply Hr || apply Hu).
  rewrite legacy_userdb_legacy_name_spec, legacy_userdb_display_name_spec by done. rewrite Hname, Hdisplay.
  rewrite build_names_spec by apply Hr. run_simpl. rewrite H1, H2, H3, Hx, Hpw.
  split_and!; try done; f_equal.
  - rewrite !masked_mode, !andb_true_r. rewrite Hs.
    change LEGACY_USERDB_DEFAULT_MAX_RECORDS with 65536 in *. change LEGACY_USERDB_HEADER_SIZE with 8.
    change LEGACY_USERDB_RECORD_SIZE with 598.
    assert (u64 (record_count * 598) = record_count * 598) as ->.
    { apply wrap_fits. split; [lia|]. change (2 ^ 64) with 18446744073709551616. lia. }
    change LEGACY_USERDB_NO_RECORD with 18446744073709551615.
    rewrite Z.eqb_refl, (proj2 (Z.eqb_neq record_count _)), (proj2 (Z.ltb_lt _ _)), (proj2 (Z.eqb_neq (st_nlink _) 0)) by lia.
    done.
  - rewrite !prefix_terminated by (change (userrec.Name).2 with 9; change (userrec.sUserName).2 with 36;
      change (userrec.sComment).2 with 81; lia).
    unfold streq. rewrite !cstr_terminated by done. rewrite (cstr_id (record_marker _)) by done.
    by rewrite !bool_decide_true.
Qed.

(** C18: a registration that passes the check gets a record of 598 bytes of which
    every byte is determined by the registration: both names, the protocol, the
    dates, the security levels, the defaults and the options are those of the
    registration, a new user has the usual start values, no password is in either
    password member, everything else is zero, and from the comment the readers of
    the user data base get the identifier of the registration back. Stored with
    what [fstat] says of a database of [record_count] records, the record is the
    proof that every later step demands: the step to the commit accepts it and only
    marks it, and it remains acceptable. *)
Theorem prepared_record_correct r record_count database users_directory :
  registration_memory r → registration_is_valid (Some r) = Some true → storage_ok record_count database →
  ∃ name display protocol record context,
    (∃ tail, ur_legacy_name r = Some (terminated name tail)) ∧
    (∃ tail, ur_display_name r = Some (terminated display tail)) ∧
    (∃ tail, rd_protocol (ur_defaults r) = Some (terminated protocol tail)) ∧
    build_record r = Some (Some record) ∧ record_says record r name display protocol ∧
    parse_record_registration_marker (text_member record userrec.sComment) = Some (0, true, ur_registration_id r) ∧
    prepare_context r record_count database users_directory record = Some context ∧
    ∃ started, legacy_userdb_mark_commit_started (Some context) None = Some (0, Some started, None) ∧
      prepared_context_is_valid (Some started) = Some true ∧
      pr_commit_started context = false ∧ pr_commit_started started = true ∧
      pr_registration_id started = ur_registration_id r ∧ pr_user_id started = ur_user_id r ∧
      cstr (pr_legacy_name started) = name ∧ pr_record_number started = record_count ∧
      pr_record_bytes started = record.
Proof.
  intros Hmem Hvalid Hstorage. destruct (registration_is_valid_inv r Hmem Hvalid) as (name & display & protocol & Hparts).
  destruct (build_record_spec r name display protocol Hparts) as (record & Hbuild & Hsays).
  destruct (prepare_context_valid r name display protocol record record_count database users_directory Hparts Hsays Hstorage)
    as (context & Hcontext & Hok & Hns & Hrid & Huid & Hname & _ & Hcount & Hbytes).
  pose proof (rp_registration_id _ _ _ _ Hparts) as Hid.
  assert (∃ tail, text_member record userrec.sComment = terminated (record_marker (ur_registration_id r)) tail)
    as [ctail Hcomment].
  { rewrite (rs_comment _ _ _ _ _ Hsays). apply padded_terminated.
    destruct (record_marker_text _ (id_bytes _ Hid) (id_length _ Hid)) as [_ ->]. done. }
  exists name, display, protocol, record, context. split; [apply (rp_legacy_name _ _ _ _ Hparts)|].
  split; [apply (rp_display_name _ _ _ _ Hparts)|]. split; [apply (rp_protocol _ _ _ _ Hparts)|].
  split; [done|]. split; [done|].
  split; [rewrite Hcomment; by apply parse_record_marker_spec|]. split; [done|].
  unfold legacy_userdb_mark_commit_started. rewrite Hok. run_simpl. cbn [negb deref]. eexists. split; [reflexivity|].
  split; [exact Hok|]. by cbn.
Qed.

(** A registration in a database of seven records. *)
Definition example_userdb_registration : legacy_userdb_registration :=
  UserdbRegistration (replicate 15 0 ++ [1]) (map Z.of_nat (seq 16 16)) (Some (lit "alice" ++ [0]))
    (Some (lit "Alice" ++ [0])) 1700000000 (RecordDefaults 20 0 0 1 0 0 (Some (lit "ZModem" ++ [0])) true false true).

Definition example_database_status : stat := Stat 1 2 (8 + 7 * 598) 1000 100 0x81a0 1 (0, 0) (0, 0).

Lemma prepared_record_correct_witness :
  let r := example_userdb_registration in
  let database := example_database_status in
  ∃ name display protocol record context,
    (∃ tail, ur_legacy_name r = Some (terminated name tail)) ∧
    (∃ tail, ur_display_name r = Some (terminated display tail)) ∧
    (∃ tail, rd_protocol (ur_defaults r) = Some (terminated protocol tail)) ∧
    build_record r = Some (Some record) ∧ record_says record r name display protocol ∧
    parse_record_registration_marker (text_member record userrec.sComment) = Some (0, true, ur_registration_id r) ∧
    prepare_context r 7 database database record = Some context ∧
    ∃ started, legacy_userdb_mark_commit_started (Some context) None = Some (0, Some started, None) ∧
      prepared_context_is_valid (Some started) = Some true ∧
      pr_commit_started context = false ∧ pr_commit_started started = true ∧
      pr_registration_id started = ur_registration_id r ∧ pr_user_id started = ur_user_id r ∧
      cstr (pr_legacy_name started) = name ∧ pr_record_number started = 7 ∧
      pr_record_bytes started = record.
Proof.
  cbv zeta. refine (prepared_record_correct example_userdb_registration 7 example_database_status
                      example_database_status _ _ _).
  - split; [split; [apply (bool_decide_unpack _); vm_compute; exact I|done]..|].
    intros name [= <-]. apply (bool_decide_unpack _). vm_compute. exact I.
  - vm_compute. reflexivity.
  - split; [done|reflexivity|done].
Defined.
