(* ===== verification/LegacyMarker.v ===== *)
(** * Registration markers

    [fortytwo-auth/src/legacy_registration_marker.c]: the strict reader of the file
    that marks the home directory of a user as created by a registration. The
    parser works in place: it ends the lines, keys and values of the text by
    writing zeros into it. [MarkerFile] has the reader of the file itself. *)

From S2P Require Import Prelude Utf8 Program LegacyUserdb LegacyNames LegacyProvision.

(** ** Data *)

Definition LEGACY_REGISTRATION_MARKER_FORMAT_VERSION : Z := 1.
Definition LEGACY_REGISTRATION_MARKER_MAX_SIZE : Z := 320.
Definition LEGACY_REGISTRATION_MARKER_ERROR_TEXT_SIZE : Z := 160.
Definition MARKER_REQUIRED_KEYS : Z := 6.

Inductive legacy_registration_marker_state :=
| LEGACY_REGISTRATION_MARKER_STATE_INVALID
| LEGACY_REGISTRATION_MARKER_PREPARED
| LEGACY_REGISTRATION_MARKER_COMMITTED.

Inductive legacy_registration_marker_status :=
| LEGACY_REGISTRATION_MARKER_OK
| LEGACY_REGISTRATION_MARKER_INVALID_ARGUMENT
| LEGACY_REGISTRATION_MARKER_OPEN_BASE_FAILED
| LEGACY_REGISTRATION_MARKER_BASE_POLICY_MISMATCH
| LEGACY_REGISTRATION_MARKER_OPEN_USER_DIRECTORY_FAILED
| LEGACY_REGISTRATION_MARKER_USER_DIRECTORY_POLICY_MISMATCH
| LEGACY_REGISTRATION_MARKER_OPEN_FILE_FAILED
| LEGACY_REGISTRATION_MARKER_STAT_FAILED
| LEGACY_REGISTRATION_MARKER_NOT_REGULAR
| LEGACY_REGISTRATION_MARKER_OWNER_MISMATCH
| LEGACY_REGISTRATION_MARKER_GROUP_MISMATCH
| LEGACY_REGISTRATION_MARKER_MODE_MISMATCH
| LEGACY_REGISTRATION_MARKER_LINK_COUNT_MISMATCH
| LEGACY_REGISTRATION_MARKER_SIZE_INVALID
| LEGACY_REGISTRATION_MARKER_READ_FAILED
| LEGACY_REGISTRATION_MARKER_CHANGED_DURING_READ
| LEGACY_REGISTRATION_MARKER_INVALID_FORMAT
| LEGACY_REGISTRATION_MARKER_UNKNOWN_KEY
| LEGACY_REGISTRATION_MARKER_DUPLICATE_KEY
| LEGACY_REGISTRATION_MARKER_MISSING_KEY
| LEGACY_REGISTRATION_MARKER_INVALID_UUID
| LEGACY_REGISTRATION_MARKER_INVALID_LEGACY_NAME
| LEGACY_REGISTRATION_MARKER_LEGACY_NAME_MISMATCH
| LEGACY_REGISTRATION_MARKER_INVALID_RECORD_NUMBER
| LEGACY_REGISTRATION_MARKER_INVALID_STATE.

#[export] Instance legacy_registration_marker_state_eq_dec : EqDecision legacy_registration_marker_state.
Proof. solve_decision. Defined.
#[export] Instance legacy_registration_marker_status_eq_dec : EqDecision legacy_registration_marker_status.
Proof. solve_decision. Defined.

Record legacy_registration_marker_policy := MarkerPolicy {
  mp_base_directory : legacy_userdb_directory_policy;
  mp_user_directory : legacy_userdb_directory_policy;
  mp_check_marker_owner : bool;
  mp_expected_marker_uid : Z;
  mp_check_marker_group : bool;
  mp_expected_marker_gid : Z;
  mp_check_marker_mode : bool;
  mp_expected_marker_mode : Z;
  mp_require_single_link : bool;
  mp_max_size : Z;
}.

(** What the text of a marker says; [legacy_registration_marker_t] also has the
    three [struct stat] of the file and its directories. *)
Record marker_text := MarkerText {
  mt_format_version : Z;
  mt_registration_id : list Z;
  mt_user_id : list Z;
  mt_legacy_name : list Z;
  mt_record_number : Z;
  mt_state : legacy_registration_marker_state;
}.

Record legacy_registration_marker_error := MarkerError {
  me_status : legacy_registration_marker_status;
  me_system_errno : Z;
  me_text : list Z;
}.

Definition cleared_marker : marker_text :=
  let zeros n := replicate (Z.to_nat n) 0 in
  MarkerText 0 (zeros LEGACY_USERDB_UUID_SIZE) (zeros LEGACY_USERDB_UUID_SIZE)
    (zeros (LEGACY_USERDB_LEGACY_NAME_MAX + 1)) 0 LEGACY_REGISTRATION_MARKER_STATE_INVALID.

Definition marker_error (status : legacy_registration_marker_status) (system_errno : Z) (text : list Z)
    : legacy_registration_marker_error :=
  MarkerError status system_errno
    (text ++ replicate (Z.to_nat (LEGACY_REGISTRATION_MARKER_ERROR_TEXT_SIZE - zlen text)) 0).

Definition set_error (error : option legacy_registration_marker_error)
    (status : legacy_registration_marker_status) (system_errno : Z) (text : list Z)
    : option legacy_registration_marker_error := (λ _, marker_error status system_errno text) <$> error.

Definition legacy_registration_marker_error_clear (error : option legacy_registration_marker_error)
    : option legacy_registration_marker_error :=
  (λ _, marker_error LEGACY_REGISTRATION_MARKER_OK 0 []) <$> error.

(** ** Values *)

Definition hyphen_positions : list Z := [8; 13; 18; 23].

Record uuid_scan := UuidScan {
  us_input_index : Z;
  us_output_index : Z;
  us_hyphen_index : Z;
  us_output : list Z;
}.

(** The loop body of [parse_uuid]. *)
Definition uuid_step (text : list Z) (s : uuid_scan) : run (ctl uuid_scan (option (list Z))) :=
  let input_index := us_input_index s in
  if input_index <? LEGACY_USERDB_UUID_TEXT_SIZE - 1 then
    let! at_hyphen :=
      if us_hyphen_index s <? zlen hyphen_positions
      then let! position := arr_get hyphen_positions (us_hyphen_index s) in Some (input_index =? position)
      else Some false in
    if at_hyphen then
      let! c := buf_get text input_index in
      Some (if negb (c =? chr "-") then Return None
            else Continue (UuidScan (input_index + 1) (us_output_index s) (us_hyphen_index s + 1) (us_output s)))
    else if (LEGACY_USERDB_UUID_TEXT_SIZE - 1 <=? input_index + 1)
            || (LEGACY_USERDB_UUID_SIZE <=? us_output_index s)
    then Some (Return None)
    else
      let! high := buf_get text input_index in
      let! low := buf_get text (input_index + 1) in
      let high := lower_hex_value high in
      let low := lower_hex_value low in
      if (high <? 0) || (low <? 0) then Some (Return None)
      else
        let! output := buf_set (us_output s) (us_output_index s) (u8 (u32 (u32 high * 16 + u32 low))) in
        Some (Continue (UuidScan (input_index + 2) (us_output_index s + 1) (us_hyphen_index s) output))
  else Some (Break s).

(** The identifier, or [None] where the code returns -1. *)
Definition parse_uuid (text : list Z) : run (option (list Z)) :=
  if negb (strlen text =? LEGACY_USERDB_UUID_TEXT_SIZE - 1) then Some None
  else
    let! c := loop (Z.to_nat LEGACY_USERDB_UUID_TEXT_SIZE) (uuid_step text)
                (UuidScan 0 0 0 (replicate (Z.to_nat LEGACY_USERDB_UUID_SIZE) 0)) in
    match c with
    | Return r => Some r
    | Continue s | Break s =>
        if us_output_index s =? LEGACY_USERDB_UUID_SIZE then
          let! nonzero := LegacyUserdb.uuid_is_nonzero (us_output s) in
          Some (if nonzero then Some (us_output s) else None)
        else Some None
    end.

Definition record_number_digit (text : list Z) (index value : Z) : run (ctl Z (option Z)) :=
  let! byte := buf_get text index in
  if outside (chr "0") (chr "9") byte then Some (Return None)
  else
    let value := u32 (value * 10 + (byte - chr "0")) in
    Some (if 65535 <? value then Return None else Continue value).

Definition parse_record_number (text : list Z) : run (option Z) :=
  let length := strlen text in
  let! leading_zero :=
    if length =? 0 then Some true
    else if 1 <? length then let! first := buf_get text 0 in Some (first =? chr "0")
    else Some false in
  if leading_zero then Some None
  else
    let! c := for_range (Z.to_nat length) 0 (record_number_digit text) 0 in
    Some match c with Return r => r | Continue value | Break value => Some value end.

(** ** The text *)

Inductive marker_key_index :=
| MARKER_KEY_FORMAT_VERSION
| MARKER_KEY_REGISTRATION_ID
| MARKER_KEY_USER_ID
| MARKER_KEY_LEGACY_NAME
| MARKER_KEY_RECORD_NUMBER
| MARKER_KEY_STATE.

Definition key_number (key : marker_key_index) : nat :=
  match key with
  | MARKER_KEY_FORMAT_VERSION => 0
  | MARKER_KEY_REGISTRATION_ID => 1
  | MARKER_KEY_USER_ID => 2
  | MARKER_KEY_LEGACY_NAME => 3
  | MARKER_KEY_RECORD_NUMBER => 4
  | MARKER_KEY_STATE => 5
  end.

Definition key_of (key : list Z) : option marker_key_index :=
  if streq key (lit "format_version") then Some MARKER_KEY_FORMAT_VERSION
  else if streq key (lit "registration_id") then Some MARKER_KEY_REGISTRATION_ID
  else if streq key (lit "user_id") then Some MARKER_KEY_USER_ID
  else if streq key (lit "legacy_name") then Some MARKER_KEY_LEGACY_NAME
  else if streq key (lit "record_number") then Some MARKER_KEY_RECORD_NUMBER
  else if streq key (lit "state") then Some MARKER_KEY_STATE
  else None.

(** A value is stored, or it is an error with this status and text. *)
Abbreviation value_result :=
  (marker_text + (legacy_registration_marker_status * list Z))%type (only parsing).

Definition store_value (key : marker_key_index) (value expected_legacy_name : list Z) (m : marker_text)
    : run value_result :=
  let fail status text := inr (status, text) in
  match key with
  | MARKER_KEY_FORMAT_VERSION =>
      Some (if negb (streq value (lit "1"))
            then fail LEGACY_REGISTRATION_MARKER_INVALID_FORMAT
                   (lit "registration marker format version is unsupported")
            else inl (MarkerText LEGACY_REGISTRATION_MARKER_FORMAT_VERSION (mt_registration_id m) (mt_user_id m)
                        (mt_legacy_name m) (mt_record_number m) (mt_state m)))
  | MARKER_KEY_REGISTRATION_ID =>
      let! uuid := parse_uuid value in
      Some match uuid with
           | None => fail LEGACY_REGISTRATION_MARKER_INVALID_UUID
                       (lit "registration marker registration_id is invalid")
           | Some uuid => inl (MarkerText (mt_format_version m) uuid (mt_user_id m) (mt_legacy_name m)
                                 (mt_record_number m) (mt_state m))
           end
  | MARKER_KEY_USER_ID =>
      let! uuid := parse_uuid value in
      Some match uuid with
           | None => fail LEGACY_REGISTRATION_MARKER_INVALID_UUID (lit "registration marker user_id is invalid")
           | Some uuid => inl (MarkerText (mt_format_version m) (mt_registration_id m) uuid (mt_legacy_name m)
                                 (mt_record_number m) (mt_state m))
           end
  | MARKER_KEY_LEGACY_NAME =>
      let! valid := legacy_userdb_legacy_name_is_valid (Some value) in
      Some (if negb valid
            then fail LEGACY_REGISTRATION_MARKER_INVALID_LEGACY_NAME
                   (lit "registration marker legacy_name is invalid")
            else if negb (streq value expected_legacy_name)
            then fail LEGACY_REGISTRATION_MARKER_LEGACY_NAME_MISMATCH
                   (lit "registration marker legacy_name does not match directory")
            else inl (MarkerText (mt_format_version m) (mt_registration_id m) (mt_user_id m)
                        (snprintf_s (mt_legacy_name m) value) (mt_record_number m) (mt_state m)))
  | MARKER_KEY_RECORD_NUMBER =>
      let! number := parse_record_number value in
      Some match number with
           | None => fail LEGACY_REGISTRATION_MARKER_INVALID_RECORD_NUMBER
                       (lit "registration marker record_number is invalid")
           | Some number => inl (MarkerText (mt_format_version m) (mt_registration_id m) (mt_user_id m)
                                   (mt_legacy_name m) number (mt_state m))
           end
  | MARKER_KEY_STATE =>
      let state v := inl (MarkerText (mt_format_version m) (mt_registration_id m) (mt_user_id m)
                            (mt_legacy_name m) (mt_record_number m) v) in
      Some (if streq value (lit "prepared") then state LEGACY_REGISTRATION_MARKER_PREPARED
            else if streq value (lit "committed") then state LEGACY_REGISTRATION_MARKER_COMMITTED
            else fail LEGACY_REGISTRATION_MARKER_INVALID_STATE (lit "registration marker state is invalid"))
  end.

(** Where [strchr(text + index, c)] points to. *)
Definition find_char (text : list Z) (index c : Z) : run (option Z) :=
  let! from := buf_at text index in
  let! found := strchr from c in
  Some ((λ rest, zlen text - zlen rest) <$> found).

Record marker_scan := MarkerScan {
  ms_text : list Z;
  ms_cursor : Z;
  ms_seen : list bool;
  ms_seen_count : Z;
  ms_marker : marker_text;
}.

(** The canonical separator of the line at [cursor]. *)
Definition find_separator (text : list Z) (cursor : Z) : run (option Z) :=
  let! separator := find_char text cursor (chr "=") in
  match separator with
  | None => Some None
  | Some separator =>
      if separator =? cursor then Some None
      else
        let! second := find_char text (separator + 1) (chr "=") in
        Some (if is_null second then Some separator else None)
  end.

(** The loop body of [parse_marker_text] from the end of the line on, which ends at [newline]. *)
Definition marker_key_value (expected_legacy_name : list Z) (error : option legacy_registration_marker_error)
    (s : marker_scan) (newline : Z)
    : run (ctl marker_scan (option marker_text * option legacy_registration_marker_error)) :=
  let fail status text := Some (Return (None, set_error error status 0 text)) in
  let cursor := ms_cursor s in
  let! text := buf_set (ms_text s) newline 0 in
  let! canonical := find_separator text cursor in
  match canonical with
  | None => fail LEGACY_REGISTRATION_MARKER_INVALID_FORMAT
              (lit "registration marker line is not canonical key=value")
  | Some separator =>
      let! text := buf_set text separator 0 in
      let! key := buf_at text cursor in
      let! value := buf_at text (separator + 1) in
      match key_of key with
      | None => fail LEGACY_REGISTRATION_MARKER_UNKNOWN_KEY
                  (lit "registration marker contains an unknown key")
      | Some key =>
          let! already := ms_seen s !! key_number key in
          if already : bool
          then fail LEGACY_REGISTRATION_MARKER_DUPLICATE_KEY
                 (lit "registration marker contains a duplicate key")
          else
            let! stored := store_value key value expected_legacy_name (ms_marker s) in
            match stored with
            | inr (status, text) => fail status text
            | inl marker =>
                Some (Continue (MarkerScan text (newline + 1) (<[key_number key := true]> (ms_seen s))
                                  (ms_seen_count s + 1) marker))
            end
      end
  end.

(** The loop body of [parse_marker_text]. *)
Definition marker_line (expected_legacy_name : list Z) (error : option legacy_registration_marker_error)
    (s : marker_scan) : run (ctl marker_scan (option marker_text * option legacy_registration_marker_error)) :=
  let cursor := ms_cursor s in
  let! first := buf_get (ms_text s) cursor in
  if first =? 0 then Some (Break s)
  else
    let! found := find_char (ms_text s) cursor 10 in
    match found with
    | Some newline =>
        if newline =? cursor
        then Some (Return (None, set_error error LEGACY_REGISTRATION_MARKER_INVALID_FORMAT 0
                                   (lit "registration marker contains an incomplete or empty line")))
        else marker_key_value expected_legacy_name error s newline
    | None => Some (Return (None, set_error error LEGACY_REGISTRATION_MARKER_INVALID_FORMAT 0
                                    (lit "registration marker contains an incomplete or empty line")))
    end.

(** The marker where the code returns 0. *)
Definition parse_marker_text (text expected_legacy_name : list Z) (marker : marker_text)
    (error : option legacy_registration_marker_error)
    : run (option marker_text * option legacy_registration_marker_error) :=
  let! first := buf_get text 0 in
  let! complete :=
    if first =? 0 then Some false
    else let! last := buf_get text (strlen text - 1) in Some (last =? 10) in
  if negb complete
  then Some (None, set_error error LEGACY_REGISTRATION_MARKER_INVALID_FORMAT 0
                     (lit "registration marker must end with one complete line"))
  else
    let! c := loop (S (length text)) (marker_line expected_legacy_name error)
                (MarkerScan text 0 (replicate (Z.to_nat MARKER_REQUIRED_KEYS) false) 0 marker) in
    Some match c with
         | Return r => r
         | Continue s | Break s =>
             if negb (ms_seen_count s =? MARKER_REQUIRED_KEYS)
             then (None, set_error error LEGACY_REGISTRATION_MARKER_MISSING_KEY 0
                           (lit "registration marker is missing a required key"))
             else (Some (ms_marker s), error)
         end.

(** ** Identifiers *)

(** The parts of an identifier as text: two digits ([true]) or a hyphen. *)
Definition uuid_tokens : list bool :=
  [true; true; true; true; false; true; true; false; true; true; false; true; true; false;
   true; true; true; true; true; true].

Fixpoint render (tokens : list bool) (bytes : list Z) : list Z :=
  match tokens, bytes with
  | true :: tokens, b :: bytes => byte_hex b ++ render tokens bytes
  | false :: tokens, _ => chr "-" :: render tokens bytes
  | _, _ => []
  end.

(** The text of an identifier. *)
Definition uuid_text (uuid : list Z) : list Z := render uuid_tokens uuid.

Lemma format_uuid_text_spec uuid :
  bytes_ok uuid → length uuid = 16%nat → format_uuid_text uuid = Some (uuid_text uuid).
Proof.
  intros Hok Hl. unfold format_uuid_text. rewrite format_uuid_hex_spec by done. run_simpl.
  do 16 (destruct uuid as [|? uuid]; [done|]). destruct uuid; [|done]. reflexivity.
Qed.

(** A digit that is accepted is the character of its value. *)
Lemma lower_hex_inv c : 0 <= lower_hex_value c → 0 <= lower_hex_value c < 16 ∧ c = hex_char (lower_hex_value c).
Proof.
  unfold lower_hex_value, hex_char. intros H. repeat case_if; char_lia.
Qed.

(** What the scan of the tokens finds in a text. *)
Fixpoint scan_tokens (tokens : list bool) (v : list Z) : option (list Z) :=
  match tokens with
  | [] => Some []
  | true :: tokens =>
      match v with
      | h :: l :: v =>
          if (lower_hex_value h <? 0) || (lower_hex_value l <? 0) then None
          else cons (lower_hex_value h * 16 + lower_hex_value l) <$> scan_tokens tokens v
      | _ => None
      end
  | false :: tokens =>
      match v with
      | c :: v => if negb (c =? chr "-") then None else scan_tokens tokens v
      | [] => None
      end
  end.

Fixpoint count_true (tokens : list bool) : nat :=
  match tokens with [] => 0 | true :: tokens => S (count_true tokens) | false :: tokens => count_true tokens end.

Definition width (tokens : list bool) : nat := length tokens + count_true tokens.

Lemma scan_render tokens v bytes :
  length v = width tokens →
  scan_tokens tokens v = Some bytes ↔
    bytes_ok bytes ∧ length bytes = count_true tokens ∧ v = render tokens bytes.
Proof.
  unfold width. revert v bytes. induction tokens as [|[] tokens IH]; intros v bytes Hlen; cbn [length count_true scan_tokens] in *.
  - destruct v; [|done]. split; [intros [= <-]; by split; [apply Forall_nil_2|]|]. by destruct bytes; intros (_ & ? & _).
  - destruct v as [|h [|l v]]; [cbn in Hlen; lia..|]. cbn [length] in Hlen.
    specialize (IH v). destruct ((lower_hex_value h <? 0) || (lower_hex_value l <? 0)) eqn:E.
    + split; [done|]. intros (Hok & Hl & Hv). exfalso. destruct bytes as [|b bytes]; [done|].
      apply Forall_cons_1 in Hok as [Hb _]. destruct (byte_nibbles b Hb) as (Hbh & Hbl & _).
      cbn in Hv. injection Hv as -> -> _. rewrite !lower_hex_char in E by done. bools. destruct E; bools; lia.
    + bools. destruct (lower_hex_inv h) as [Hh Eh]; [done|]. destruct (lower_hex_inv l) as [Hl El]; [done|].
      destruct (hex_byte _ _ Hh Hl) as (_ & Hok & Hhex).
      split.
      * intros (bs & Hbs & ->)%fmap_Some. apply IH in Hbs as (Hbs & Hn & ->); [|lia].
        split; [by constructor|]. split; [cbn; by f_equal|]. cbn [render]. rewrite Hhex. cbn. congruence.
      * intros (Hbs & Hn & Hv). destruct bytes as [|b bytes]; [done|]. apply Forall_cons_1 in Hbs as [Hb Hbs].
        cbn in Hv, Hn. injection Hv as Eh' El' ->. destruct (byte_nibbles b Hb) as (Hbh & Hbl & Hb').
        rewrite Eh', El', !lower_hex_char by done. rewrite Hb'.
        rewrite (proj2 (IH bytes ltac:(lia))); [done|]. split; [done|]. split; [lia|done].
  - destruct v as [|c v]; [cbn in Hlen; lia|]. cbn [length] in Hlen. destruct (Z.eqb_spec c (chr "-")) as [->|Hc]; cbn [negb].
    + rewrite IH by lia. cbn [render]. split; intros (? & ? & Hv); (split; [done|]); (split; [done|]); [by rewrite Hv|congruence].
    + split; [done|]. cbn [render]. intros (_ & _ & Hv). congruence.
Qed.

(** The table of the hyphens says the same as the tokens. *)
Definition hyphen_at (i h : Z) : bool :=
  if h <? 4 then match arr_get hyphen_positions h with Some p => i =? p | None => false end else false.

Definition token_table (k : nat) : bool :=
  let pre := take k uuid_tokens in
  let i := Z.of_nat (width pre) in
  let o := Z.of_nat (count_true pre) in
  let h := Z.of_nat (length pre - count_true pre) in
  (i <? 36) &&
  match uuid_tokens !! k with
  | Some true => negb (hyphen_at i h) && (i + 1 <? 36) && (o <? 16)
  | _ => hyphen_at i h
  end.

Lemma token_facts pre t ts :
  uuid_tokens = pre ++ t :: ts →
  let i := Z.of_nat (width pre) in
  i < 36 ∧ hyphen_at i (Z.of_nat (length pre - count_true pre)) = negb t ∧
  (t = true → i + 1 < 36 ∧ Z.of_nat (count_true pre) < 16).
Proof.
  intros E i. assert (token_table (length pre) = true) as H.
  { assert (forallb token_table (seq 0 20) = true) as Hall by (vm_compute; reflexivity).
    rewrite forallb_forall in Hall. apply Hall, in_seq.
    apply (f_equal length) in E. rewrite length_app in E. cbn in E. lia. }
  unfold token_table in H. rewrite E, take_app_length, list_lookup_middle in H by done.
  fold i in H. destruct t; bools; (split; [done|]); (split; [done|]); [by intros _|done].
Qed.

Lemma token_step pre t ts text out :
  uuid_tokens = pre ++ t :: ts →
  let i := Z.of_nat (width pre) in
  let o := Z.of_nat (count_true pre) in
  let h := Z.of_nat (length pre - count_true pre) in
  uuid_step text (UuidScan i o h out) =
    if t then
      let! high := buf_get text i in
      let! low := buf_get text (i + 1) in
      if (lower_hex_value high <? 0) || (lower_hex_value low <? 0) then Some (Return None)
      else
        let! output := buf_set out o (u8 (u32 (u32 (lower_hex_value high) * 16 + u32 (lower_hex_value low)))) in
        Some (Continue (UuidScan (i + 2) (o + 1) h output))
    else
      let! c := buf_get text i in
      Some (if negb (c =? chr "-") then Return None else Continue (UuidScan (i + 1) o (h + 1) out)).
Proof.
  intros E i o h. destruct (token_facts _ _ _ E) as (Hi & Hh & Ht). fold i o h in Hi, Hh, Ht.
  unfold uuid_step. cbn [us_input_index us_hyphen_index us_output_index us_output].
  change (LEGACY_USERDB_UUID_TEXT_SIZE - 1) with 36. rewrite (proj2 (Z.ltb_lt _ _)) by done.
  change (zlen hyphen_positions) with 4.
  assert (0 <= h < 4 ∨ 4 <= h) as Hcases by lia.
  assert ((if h <? 4 then let! position := arr_get hyphen_positions h in Some (i =? position) else Some false)
          = Some (hyphen_at i h)) as ->.
  { unfold hyphen_at. destruct (Z.ltb_spec h 4); [|done].
    destruct (arr_get hyphen_positions h) as [p|] eqn:Ep; [done|]. exfalso. revert Ep.
    unfold arr_get. rewrite (proj2 (Z.leb_le _ _)) by lia. intros Ep. apply lookup_ge_None in Ep.
    cbn in Ep. lia. }
  run_simpl. rewrite Hh. destruct t; [|done]. cbn [negb].
  destruct (Ht eq_refl) as [Hi1 Ho]. rewrite (proj2 (Z.leb_gt _ _)) by done.
  change LEGACY_USERDB_UUID_SIZE with 16. rewrite (proj2 (Z.leb_gt 16 _)) by done. done.
Qed.

Lemma width_app a b : width (a ++ b) = (width a + width b)%nat.
Proof.
  unfold width. rewrite length_app. enough (count_true (a ++ b) = (count_true a + count_true b)%nat) by lia.
  induction a as [|[] a IH]; cbn; lia.
Qed.

Lemma count_true_app a b : count_true (a ++ b) = (count_true a + count_true b)%nat.
Proof. induction a as [|[] a IH]; cbn; lia. Qed.

Lemma count_true_le l : (count_true l <= length l)%nat.
Proof. induction l as [|[] l IH]; cbn; lia. Qed.

Lemma uuid_loop text pre ts vpre vs tail bytes zeros fuel :
  uuid_tokens = pre ++ ts → text = vpre ++ vs ++ tail → length vpre = width pre → length vs = width ts →
  length bytes = count_true pre → length zeros = count_true ts → (length ts < fuel)%nat →
  loop fuel (uuid_step text)
    (UuidScan (Z.of_nat (width pre)) (Z.of_nat (count_true pre)) (Z.of_nat (length pre - count_true pre)) (bytes ++ zeros))
  = Some match scan_tokens ts vs with
         | Some bs => Break (UuidScan 36 16 4 (bytes ++ bs))
         | None => Return None
         end.
Proof.
  revert pre vpre vs bytes zeros fuel. induction ts as [|t ts IH]; intros pre vpre vs bytes zeros fuel Hpre Htext Hvpre Hvs Hbytes Hzeros Hfuel.
  { rewrite app_nil_r in Hpre. subst pre. destruct fuel as [|fuel]; [cbn in Hfuel; lia|].
    destruct zeros; [|done]. cbn [scan_tokens]. rewrite app_nil_r. reflexivity. }
  destruct fuel as [|fuel]; [lia|]. cbn [loop]. rewrite (token_step _ _ _ _ _ Hpre).
  assert (∀ (k : nat), (k < length vs)%nat → buf_get text (Z.of_nat (width pre) + Z.of_nat k) = vs !! k) as Hget.
  { intros k Hk. rewrite Htext. replace (Z.of_nat (width pre)) with (zlen vpre) by (unfold zlen; lia).
    rewrite buf_get_app_r by lia. unfold buf_get. rewrite (proj2 (Z.leb_le _ _)) by lia.
    by rewrite Nat2Z.id, lookup_app_l. }
  pose proof (Hget 0%nat) as H0. pose proof (Hget 1%nat) as H1. rewrite Z.add_0_r in H0.
  pose proof (count_true_le pre) as Hle. rewrite cons_middle, app_assoc in Hpre.
  destruct t; cbn [scan_tokens]; unfold width in Hvs; cbn [length count_true] in Hvs.
  - destruct vs as [|high [|low vs]]; [cbn in Hvs; lia..|]. change (Z.of_nat 1) with 1 in H1.
    rewrite H0, H1 by (cbn; lia). run_simpl. cbn [lookup list_lookup].
    destruct ((lower_hex_value high <? 0) || (lower_hex_value low <? 0)) eqn:E; [done|]. bools.
    destruct (lower_hex_inv high) as [Hh _]; [done|]. destruct (lower_hex_inv low) as [Hl _]; [done|].
    destruct (hex_byte _ _ Hh Hl) as (-> & _ & _). destruct zeros as [|z zeros]; [done|].
    rewrite buf_set_in by (unfold zlen; rewrite length_app; cbn; lia). run_simpl.
    rewrite Nat2Z.id, <- Hbytes, insert_app_r_alt, Nat.sub_diag by lia. cbn [insert list_insert].
    specialize (IH (pre ++ [true]) (vpre ++ [high; low]) vs
      (bytes ++ [lower_hex_value high * 16 + lower_hex_value low]) zeros fuel Hpre).
    rewrite !width_app, !count_true_app, !(length_app pre), <- !app_assoc in IH.
    change (width [true]) with 2%nat in IH. change (count_true [true]) with 1%nat in IH.
    change (length [true]) with 1%nat in IH. cbn [app] in IH.
    replace (UuidScan _ _ _ _) with (UuidScan (Z.of_nat (width pre + 2)) (Z.of_nat (count_true pre + 1))
      (Z.of_nat (length pre + 1 - (count_true pre + 1))) (bytes ++ lower_hex_value high * 16 + lower_hex_value low :: zeros))
      by (rewrite Hbytes; f_equal; lia).
    rewrite IH; [|done|rewrite length_app; cbn; lia|cbn in Hvs; unfold width; lia
      |rewrite length_app; cbn; lia|cbn in Hzeros; lia|cbn in Hfuel; lia].
    destruct (scan_tokens ts vs); cbn [fmap option_fmap option_map]; [by rewrite <- app_assoc|done].
  - destruct vs as [|c vs]; [cbn in Hvs; lia|]. rewrite H0 by (cbn; lia). run_simpl.
    cbn [lookup list_lookup]. destruct (negb (c =? chr "-")) eqn:Ec; [done|].
    specialize (IH (pre ++ [false]) (vpre ++ [c]) vs bytes zeros fuel Hpre).
    rewrite !width_app, !count_true_app, !(length_app pre), <- !app_assoc in IH.
    change (width [false]) with 1%nat in IH. change (count_true [false]) with 0%nat in IH.
    change (length [false]) with 1%nat in IH. cbn [app] in IH. rewrite !Nat.add_0_r in IH.
    replace (UuidScan _ _ _ _) with (UuidScan (Z.of_nat (width pre + 1)) (Z.of_nat (count_true pre))
      (Z.of_nat (length pre + 1 - count_true pre)) (bytes ++ zeros)) by (f_equal; lia).
    apply IH; [done|rewrite length_app; cbn; lia|unfold width in *; cbn in Hvs; lia
      |done|done|cbn in Hfuel; lia].
Qed.

(** [parse_uuid] accepts exactly the texts of the identifiers. *)
Lemma parse_uuid_spec v tail :
  Forall (λ b, b ≠ 0) v →
  ∃ r, parse_uuid (terminated v tail) = Some r ∧ ∀ uuid, r = Some uuid ↔ identifier uuid ∧ v = uuid_text uuid.
Proof.
  intros Hnz. unfold parse_uuid, strlen, terminated. rewrite cstr_app_zero by done.
  change (LEGACY_USERDB_UUID_TEXT_SIZE - 1) with 36.
  assert (∀ uuid, length uuid = 16%nat → length (uuid_text uuid) = 36%nat) as Htext.
  { intros uuid Hl. do 16 (destruct uuid as [|? uuid]; [done|]). by destruct uuid. }
  destruct (Z.eqb_spec (zlen v) 36) as [Hlen|Hlen]; cbn [negb].
  2:{ exists None. split; [done|]. intros uuid. split; [done|]. intros [[_ Hl _] ->].
      unfold zlen in Hlen. rewrite Htext in Hlen by done. lia. }
  assert (length v = width uuid_tokens) as Hw by (unfold zlen in Hlen; change (width uuid_tokens) with 36%nat; lia).
  pose proof (uuid_loop (v ++ 0 :: tail) [] uuid_tokens [] v (0 :: tail) [] (replicate 16 0)
    (Z.to_nat LEGACY_USERDB_UUID_TEXT_SIZE) eq_refl eq_refl eq_refl Hw eq_refl eq_refl ltac:(vm_compute; lia)) as Hloop.
  cbn [app] in Hloop. change (Z.to_nat LEGACY_USERDB_UUID_SIZE) with 16%nat.
  change (Z.of_nat (width [])) with 0 in Hloop. change (Z.of_nat (count_true [])) with 0 in Hloop.
  change (Z.of_nat (length (@nil bool) - count_true [])) with 0 in Hloop. rewrite Hloop.
  pose proof (scan_render uuid_tokens v) as Hscan.
  destruct (scan_tokens uuid_tokens v) as [bs|] eqn:Es; run_simpl; cbn [us_output_index us_output].
  2:{ exists None. split; [done|]. intros uuid. split; [done|]. intros [[Hok Hl _] ->].
      exfalso. assert (None = Some uuid) by (by apply Hscan). done. }
  destruct (proj1 (Hscan bs Hw) eq_refl) as (Hok & Hl & ->). change (count_true uuid_tokens) with 16%nat in Hl.
  change (16 =? LEGACY_USERDB_UUID_SIZE) with true. rewrite uuid_is_nonzero_spec by done. run_simpl.
  eexists. split; [reflexivity|]. intros uuid.
  assert (negb (forallb (Z.eqb 0) bs) = true ↔ ∃ b, b ∈ bs ∧ b ≠ 0) as Hnonzero
    by (rewrite exists_nonzero; by destruct (forallb _ _)).
  split.
  - destruct (negb _); [|done]. intros [= <-]. split; [|done]. split; [done..|by apply Hnonzero].
  - intros [[Hok' Hl' Hex] Heq]. assert (Some bs = Some uuid) as [= <-] by (by apply Hscan).
    by rewrite (proj2 Hnonzero).
Qed.

(** ** Record numbers *)

Definition is_digit (c : Z) : bool := between (chr "0") (chr "9") c.

Definition digits_value (acc : Z) (ds : list Z) : Z := foldl (λ v d, v * 10 + (d - chr "0")) acc ds.

Lemma digits_value_app acc a b : digits_value acc (a ++ b) = digits_value (digits_value acc a) b.
Proof. apply foldl_app. Qed.

Lemma digits_value_mono acc ds : 0 <= acc → forallb is_digit ds = true → acc <= digits_value acc ds.
Proof.
  revert acc. induction ds as [|d ds IH]; intros acc H0 Hds; [done|]. cbn in Hds.
  apply andb_true_iff in Hds as [Hd Hds]. apply between_spec in Hd.
  change (acc <= digits_value (acc * 10 + (d - chr "0")) ds).
  change (chr "0") with 48 in *. specialize (IH (acc * 10 + (d - 48)) ltac:(lia) Hds). lia.
Qed.

Lemma digits_value_length acc ds :
  0 <= acc → forallb is_digit ds = true → acc * 10 ^ zlen ds <= digits_value acc ds.
Proof.
  revert acc. induction ds as [|d ds IH]; intros acc H0 Hds; [change (10 ^ zlen []) with 1; cbn; lia|].
  cbn in Hds. apply andb_true_iff in Hds as [Hd Hds]. apply between_spec in Hd.
  change (digits_value acc (d :: ds)) with (digits_value (acc * 10 + (d - chr "0")) ds).
  change (chr "0") with 48 in *. specialize (IH (acc * 10 + (d - 48)) ltac:(lia) Hds).
  pose proof (zlen_nonneg ds). rewrite zlen_cons, Z.pow_add_r by lia. change (10 ^ 1) with 10.
  assert (0 < 10 ^ zlen ds) by (by apply Z.pow_pos_nonneg). nia.
Qed.

(** The loop ends with the value, if it fits. *)
Lemma record_number_loop pre ds tail acc :
  0 <= acc <= 65535 →
  for_range (length ds) (zlen pre) (record_number_digit (pre ++ ds ++ tail)) acc =
    Some (if forallb is_digit ds && (digits_value acc ds <=? 65535)
          then Break (digits_value acc ds) else Return None).
Proof.
  revert pre acc. induction ds as [|d ds IH]; intros pre acc Hacc; cbn [length for_range forallb].
  { cbn. by rewrite (proj2 (Z.leb_le _ _)) by lia. }
  unfold record_number_digit at 1. rewrite <- (Z.add_0_r (zlen pre)), buf_get_app_r by done.
  change (buf_get ((d :: ds) ++ tail) 0) with (Some d). run_simpl. rewrite outside_between.
  fold (is_digit d). destruct (is_digit d) eqn:Hd; [|done]. cbn [negb andb]. apply between_spec in Hd.
  change (chr "0") with 48 in *. change (chr "9") with 57 in *.
  unfold u32. rewrite wrap_fits by (split; [lia|change (2 ^ 32) with 4294967296; lia]).
  change (digits_value acc (d :: ds)) with (digits_value (acc * 10 + (d - 48)) ds).
  destruct (Z.ltb_spec 65535 (acc * 10 + (d - 48))).
  { destruct (forallb is_digit ds) eqn:Hds; [|done].
    pose proof (digits_value_mono (acc * 10 + (d - 48)) ds ltac:(lia) Hds).
    by rewrite (proj2 (Z.leb_gt _ _)) by lia. }
  specialize (IH (pre ++ [d]) (acc * 10 + (d - 48)) ltac:(lia)).
  rewrite zlen_app, <- app_assoc in IH. rewrite Z.add_0_r. exact IH.
Qed.

(** No leading zero. *)
Definition canonical_digits (ds : list Z) : bool :=
  match ds with [] => false | d :: ds => negb (d =? chr "0") || bool_decide (ds = []) end && forallb is_digit ds.

Lemma is_digit_of n : 0 <= n < 10 → is_digit (chr "0" + n) = true.
Proof. intros. apply between_spec. change (chr "0") with 48. change (chr "9") with 57. lia. Qed.

Lemma canonical_snoc ds d :
  canonical_digits ds = true → 0 < digits_value 0 ds → is_digit d = true → canonical_digits (ds ++ [d]) = true.
Proof.
  destruct ds as [|c ds]; [done|]. unfold canonical_digits. cbn [app]. intros Hc Hv Hd.
  apply andb_true_iff in Hc as [Hc Hds].
  apply andb_true_iff. split; [|by rewrite app_comm_cons, forallb_app, Hds; cbn; rewrite Hd].
  destruct (Z.eqb_spec c (chr "0")) as [->|]; [|done]. cbn in Hc. bools. subst ds. cbn in Hv. lia.
Qed.

(** The decimal digits have the value and no leading zero. *)
Lemma decimal_digits_spec fuel n :
  0 <= n < 10 ^ Z.of_nat (S fuel) →
  canonical_digits (decimal_digits (S fuel) n) = true ∧ digits_value 0 (decimal_digits (S fuel) n) = n.
Proof.
  revert n. induction fuel as [|fuel IH]; intros n Hn; cbn [decimal_digits];
    (destruct (Z.ltb_spec n 10) as [Hlt|Hge];
     [split; [unfold canonical_digits; cbn [forallb]; by rewrite is_digit_of, bool_decide_true, orb_true_r by (done || lia)|cbn; lia]|]).
  { change (10 ^ Z.of_nat 1) with 10 in Hn. lia. }
  rewrite (Nat2Z.inj_succ (S fuel)), Z.pow_succ_r in Hn by lia.
  pose proof (Z.div_mod n 10 ltac:(lia)). pose proof (Z.mod_pos_bound n 10 ltac:(lia)).
  destruct (IH (n / 10)) as [Hc Hv]; [lia|]. cbn [decimal_digits] in Hc, Hv.
  split; [apply canonical_snoc; [done|lia|by apply is_digit_of]|].
  rewrite digits_value_app, Hv. cbn. change (chr "0") with 48. lia.
Qed.

(** They are the only such digits. *)
Lemma canonical_digits_unique fuel ds :
  canonical_digits ds = true → (length ds <= fuel)%nat → decimal_digits fuel (digits_value 0 ds) = ds.
Proof.
  revert ds. induction fuel as [|fuel IH]; intros ds Hc Hlen; [destruct ds; [done|cbn in Hlen; lia]|].
  destruct ds as [|d ds _] using rev_ind; [done|]. rewrite digits_value_app. cbn [digits_value foldl].
  rewrite length_app in Hlen. cbn in Hlen.
  assert (is_digit d = true) as Hd.
  { unfold canonical_digits in Hc. apply andb_true_iff in Hc as [_ Hc]. rewrite forallb_app in Hc.
    apply andb_true_iff in Hc as [_ Hc]. cbn in Hc. by rewrite andb_true_r in Hc. }
  apply between_spec in Hd. change (chr "0") with 48 in Hd. change (chr "9") with 57 in Hd.
  destruct ds as [|c ds].
  { cbn [app decimal_digits]. change (digits_value 0 []) with 0. change (chr "0") with 48.
    rewrite (proj2 (Z.ltb_lt _ _)) by lia. f_equal. lia. }
  assert (canonical_digits (c :: ds) = true ∧ 1 <= digits_value 0 (c :: ds)) as [Hc' Hv].
  { unfold canonical_digits in Hc. rewrite <- app_comm_cons in Hc.
    apply andb_true_iff in Hc as [Hc Hall]. rewrite app_comm_cons, forallb_app in Hall.
    apply andb_true_iff in Hall as [Hall _]. rewrite (bool_decide_false (ds ++ [d] = [])), orb_false_r in Hc
      by (by destruct ds).
    unfold canonical_digits. rewrite Hc, Hall. split; [done|]. cbn in Hall.
    apply andb_true_iff in Hall as [Hcd Hall]. apply between_spec in Hcd.
    change (digits_value 0 (c :: ds)) with (digits_value (c - chr "0") ds).
    change (chr "0") with 48 in *. bools.
    pose proof (digits_value_mono (c - 48) ds ltac:(lia) Hall). lia. }
  cbn [decimal_digits]. change (chr "0") with 48.
  rewrite (proj2 (Z.ltb_ge _ _)) by lia.
  rewrite <- (Z.div_unique _ 10 (digits_value 0 (c :: ds)) (d - 48)) by lia.
  rewrite <- (Z.mod_unique _ 10 (digits_value 0 (c :: ds)) (d - 48)) by lia.
  rewrite IH by (done || lia). do 2 f_equal. lia.
Qed.

Lemma canonical_nonempty ds : canonical_digits ds = true → 0 < zlen ds.
Proof. destruct ds; [done|]. intros _. rewrite zlen_cons. pose proof (zlen_nonneg ds). lia. Qed.

Lemma decimal_spec n : 0 <= n < 10 ^ 20 → canonical_digits (decimal n) = true ∧ digits_value 0 (decimal n) = n.
Proof. intros. by apply (decimal_digits_spec 19). Qed.

Lemma digits_nonzero ds : forallb is_digit ds = true → Forall (λ b, b ≠ 0) ds.
Proof.
  rewrite forallb_Forall. intros H. apply (Forall_impl _ _ _ H). intros d Hd%between_spec. change (chr "0") with 48 in Hd. lia.
Qed.

(** [parse_record_number] accepts exactly the decimal numbers up to 65535. *)
Lemma parse_record_number_spec v tail :
  Forall (λ b, b ≠ 0) v →
  ∃ r, parse_record_number (terminated v tail) = Some r ∧ ∀ n, r = Some n ↔ 0 <= n <= 65535 ∧ v = decimal n.
Proof.
  intros Hnz. unfold parse_record_number, strlen, terminated. rewrite cstr_app_zero by done.
  assert (∀ n, 0 <= n <= 65535 → canonical_digits (decimal n) = true ∧ digits_value 0 (decimal n) = n) as Hdec.
  { intros n Hn. apply decimal_spec. change (10 ^ 20) with 100000000000000000000. lia. }
  destruct v as [|c v].
  { exists None. split; [done|]. intros n. split; [done|]. intros [Hn Hv]. exfalso.
    destruct (Hdec n Hn) as [Hc _]. by rewrite <- Hv in Hc. }
  pose proof (zlen_nonneg v). rewrite zlen_cons, (proj2 (Z.eqb_neq _ 0)) by lia.
  change (buf_get ((c :: v) ++ 0 :: tail) 0) with (Some c). cbv beta iota.
  set (leading := if 1 <? 1 + zlen v then Some (c =? chr "0") else Some false).
  assert (leading = Some (negb (match c :: v with [] => false | d :: ds => negb (d =? chr "0") || bool_decide (ds = []) end))) as ->.
  { subst leading. destruct v as [|d v]; [by rewrite orb_true_r|]. rewrite zlen_cons.
    pose proof (zlen_nonneg v). rewrite (proj2 (Z.ltb_lt _ _)) by lia. rewrite bool_decide_false by done.
    by rewrite orb_false_r, negb_involutive. }
  run_simpl.
  destruct (negb (c =? chr "0") || bool_decide (v = [])) eqn:Hlead; cbn [negb].
  2:{ exists None. split; [done|]. intros n. split; [done|]. intros [Hn Hv]. exfalso.
      destruct (Hdec n Hn) as [Hc _]. rewrite <- Hv in Hc. unfold canonical_digits in Hc. by rewrite Hlead in Hc. }
  pose proof (record_number_loop [] (c :: v) (0 :: tail) 0 ltac:(lia)) as Hloop. cbn [app] in Hloop.
  change (zlen []) with 0 in Hloop. rewrite <- (zlen_cons c v). unfold zlen. rewrite Nat2Z.id. cbn [app].
  rewrite Hloop. run_simpl. eexists. split; [reflexivity|]. intros n.
  assert (canonical_digits (c :: v) = forallb is_digit (c :: v)) as Hcan
    by (unfold canonical_digits; by rewrite Hlead).
  destruct (forallb is_digit (c :: v)) eqn:Hds; cbn [andb].
  2:{ split; [done|]. intros [Hn Hv]. destruct (Hdec n Hn) as [Hc _]. rewrite <- Hv in Hc. congruence. }
  pose proof (digits_value_mono 0 (c :: v) ltac:(lia) Hds).
  destruct (Z.leb_spec (digits_value 0 (c :: v)) 65535) as [Hle|Hgt].
  - split.
    + intros E. assert (n = digits_value 0 (c :: v)) as -> by congruence.
      split; [lia|]. symmetry. unfold decimal. apply canonical_digits_unique; [done|].
      destruct v as [|d v]; [cbn; lia|]. rewrite bool_decide_false, orb_false_r in Hlead by done. bools.
      cbn [forallb] in Hds. apply andb_true_iff in Hds as [Hc Hds]. apply between_spec in Hc.
      change (digits_value 0 (c :: d :: v)) with (digits_value (c - chr "0") (d :: v)) in Hle.
      change (chr "0") with 48 in *.
      pose proof (digits_value_length (c - 48) (d :: v) ltac:(lia) Hds).
      destruct (decide (length (c :: d :: v) <= 20)%nat) as [|Hlong]; [done|]. exfalso.
      assert (10 ^ 20 <= 10 ^ zlen (d :: v)) by (apply Z.pow_le_mono_r; [lia|unfold zlen; cbn in *; lia]).
      change (10 ^ 20) with 100000000000000000000 in *. nia.
    + intros [Hn Hv]. destruct (Hdec n Hn) as [_ Hval]. rewrite <- Hv in Hval. by rewrite Hval.
  - split; [done|]. intros [Hn Hv]. destruct (Hdec n Hn) as [_ Hval]. rewrite <- Hv in Hval. lia.
Qed.

(** ** The grammar of a marker *)

Definition key_text (key : marker_key_index) : list Z :=
  match key with
  | MARKER_KEY_FORMAT_VERSION => lit "format_version"
  | MARKER_KEY_REGISTRATION_ID => lit "registration_id"
  | MARKER_KEY_USER_ID => lit "user_id"
  | MARKER_KEY_LEGACY_NAME => lit "legacy_name"
  | MARKER_KEY_RECORD_NUMBER => lit "record_number"
  | MARKER_KEY_STATE => lit "state"
  end.

Definition all_keys : list marker_key_index :=
  [MARKER_KEY_FORMAT_VERSION; MARKER_KEY_REGISTRATION_ID; MARKER_KEY_USER_ID;
   MARKER_KEY_LEGACY_NAME; MARKER_KEY_RECORD_NUMBER; MARKER_KEY_STATE].

#[export] Instance marker_key_index_eq_dec : EqDecision marker_key_index.
Proof. solve_decision. Defined.

Definition state_text (state : legacy_registration_marker_state) : list Z :=
  match state with
  | LEGACY_REGISTRATION_MARKER_STATE_INVALID => []
  | LEGACY_REGISTRATION_MARKER_PREPARED => lit "prepared"
  | LEGACY_REGISTRATION_MARKER_COMMITTED => lit "committed"
  end.

(** The values of a key, and what they store. *)
Inductive value_of (expected : list Z) (m : marker_text) : marker_key_index → list Z → marker_text → Prop :=
| value_version :
    value_of expected m MARKER_KEY_FORMAT_VERSION (lit "1")
      (MarkerText 1 (mt_registration_id m) (mt_user_id m) (mt_legacy_name m) (mt_record_number m) (mt_state m))
| value_registration_id uuid :
    identifier uuid →
    value_of expected m MARKER_KEY_REGISTRATION_ID (uuid_text uuid)
      (MarkerText (mt_format_version m) uuid (mt_user_id m) (mt_legacy_name m) (mt_record_number m) (mt_state m))
| value_user_id uuid :
    identifier uuid →
    value_of expected m MARKER_KEY_USER_ID (uuid_text uuid)
      (MarkerText (mt_format_version m) (mt_registration_id m) uuid (mt_legacy_name m) (mt_record_number m) (mt_state m))
| value_legacy_name :
    legacy_name expected = true →
    value_of expected m MARKER_KEY_LEGACY_NAME expected
      (MarkerText (mt_format_version m) (mt_registration_id m) (mt_user_id m)
         (snprintf_s (mt_legacy_name m) expected) (mt_record_number m) (mt_state m))
| value_record_number n :
    0 <= n <= 65535 →
    value_of expected m MARKER_KEY_RECORD_NUMBER (decimal n)
      (MarkerText (mt_format_version m) (mt_registration_id m) (mt_user_id m) (mt_legacy_name m) n (mt_state m))
| value_state state :
    state ≠ LEGACY_REGISTRATION_MARKER_STATE_INVALID →
    value_of expected m MARKER_KEY_STATE (state_text state)
      (MarkerText (mt_format_version m) (mt_registration_id m) (mt_user_id m) (mt_legacy_name m)
         (mt_record_number m) state).

(** A text of lines with these keys, which are different and not among [seen]. *)
Inductive parsed (expected : list Z) :
    list marker_key_index → list Z → list marker_key_index → marker_text → marker_text → Prop :=
| parsed_end seen m : parsed expected seen [] [] m m
| parsed_line seen key value s keys m m1 m2 :
    key ∉ seen → value_of expected m key value m1 → parsed expected (key :: seen) s keys m1 m2 →
    parsed expected seen (key_text key ++ chr "=" :: value ++ 10 :: s) (key :: keys) m m2.

(** Characters that end a part of a line. *)
Definition plain (s : list Z) : Prop := Forall (λ b, b ≠ 0 ∧ b ≠ 10 ∧ b ≠ chr "=") s.

Lemma streq_terminated k tail l :
  Forall (λ b, b ≠ 0) k → Forall (λ b, b ≠ 0) l → streq (terminated k tail) l = bool_decide (k = l).
Proof. intros Hk Hl. unfold streq, terminated. by rewrite cstr_app_zero, (cstr_id l). Qed.

Lemma snprintf_terminated dst s tail :
  Forall (λ b, b ≠ 0) s → snprintf_s dst (terminated s tail) = snprintf_s dst s.
Proof. intros Hs. unfold snprintf_s, terminated. by rewrite cstr_app_zero, cstr_id. Qed.

(** Literals. *)
Ltac literal := apply (bool_decide_unpack _); vm_compute; exact I.

Lemma key_text_plain key : plain (key_text key).
Proof. destruct key; literal. Qed.

Lemma plain_nonzero s : plain s → Forall (λ b, b ≠ 0) s.
Proof. intros H. apply (Forall_impl _ _ _ H). by intros b [? _]. Qed.

Lemma key_of_spec k tail key :
  Forall (λ b, b ≠ 0) k → key_of (terminated k tail) = Some key ↔ k = key_text key.
Proof.
  intros Hk. split.
  - unfold key_of. rewrite !streq_terminated by (done || literal).
    repeat case_if; intros [= <-]; bools; done.
  - intros ->. destruct key; vm_compute; reflexivity.
Qed.

(** What the code stores is what the values say. *)
Lemma store_value_spec key v tail expected etail m :
  Forall (λ b, b ≠ 0) v → Forall (λ b, b ≠ 0) expected →
  ∃ r, store_value key (terminated v tail) (terminated expected etail) m = Some r ∧
    match r with
    | inl m' => value_of expected m key v m'
    | inr (status, _) => status ≠ LEGACY_REGISTRATION_MARKER_OK ∧ ∀ m', ¬ value_of expected m key v m'
    end.
Proof.
  intros Hv He. destruct key; cbn [store_value].
  - rewrite streq_terminated by (done || literal). eexists. split; [reflexivity|].
    case_if; bools.
    + split; [done|]. intros m' H. inversion H; subst. done.
    + subst v. constructor.
  - destruct (parse_uuid_spec v tail Hv) as (r & -> & Hr). run_simpl. eexists. split; [reflexivity|].
    destruct r as [uuid|].
    + destruct (proj1 (Hr uuid) eq_refl) as [Hid ->]. by constructor.
    + split; [done|]. intros m' H. inversion H; subst. assert (None = Some uuid) by (by apply Hr). done.
  - destruct (parse_uuid_spec v tail Hv) as (r & -> & Hr). run_simpl. eexists. split; [reflexivity|].
    destruct r as [uuid|].
    + destruct (proj1 (Hr uuid) eq_refl) as [Hid ->]. by constructor.
    + split; [done|]. intros m' H. inversion H; subst. assert (None = Some uuid) by (by apply Hr). done.
  - rewrite legacy_userdb_legacy_name_spec by done. run_simpl. eexists. split; [reflexivity|].
    assert (streq (terminated v tail) (terminated expected etail) = bool_decide (v = expected)) as ->.
    { unfold streq, terminated. by rewrite !cstr_app_zero. }
    destruct (legacy_name v) eqn:Hn; cbn [negb].
    + case_if; bools.
      * split; [done|]. intros m' H. by inversion H; subst.
      * subst v. rewrite snprintf_terminated by done. by constructor.
    + split; [done|]. intros m' H. inversion H; subst. congruence.
  - destruct (parse_record_number_spec v tail Hv) as (r & -> & Hr). run_simpl. eexists. split; [reflexivity|].
    destruct r as [n|].
    + destruct (proj1 (Hr n) eq_refl) as [Hn ->]. by constructor.
    + split; [done|]. intros m' H. inversion H; subst. assert (None = Some n) by (by apply Hr). done.
  - rewrite !streq_terminated by (done || literal). eexists. split; [reflexivity|].
    case_if; [|case_if]; bools.
    + subst v. by apply (value_state expected m LEGACY_REGISTRATION_MARKER_PREPARED).
    + subst v. by apply (value_state expected m LEGACY_REGISTRATION_MARKER_COMMITTED).
    + split; [done|]. intros m' H. inversion H as [| | | | |state Hs]; subst. by destruct state.
Qed.

(** ** Lines *)

Lemma find_char_found pre a c rest :
  Forall (λ b, b ≠ 0 ∧ b ≠ c) a →
  find_char (pre ++ a ++ c :: rest) (zlen pre) c = Some (Some (zlen pre + zlen a)).
Proof.
  intros Ha. unfold find_char. rewrite buf_at_app. run_simpl. rewrite strchr_found by done. run_simpl.
  cbn. do 2 f_equal. rewrite !zlen_app. lia.
Qed.

Lemma find_char_none pre a c rest :
  c ≠ 0 → Forall (λ b, b ≠ 0 ∧ b ≠ c) a → find_char (pre ++ a ++ 0 :: rest) (zlen pre) c = Some None.
Proof. intros Hc Ha. unfold find_char. rewrite buf_at_app. run_simpl. by rewrite strchr_none. Qed.

Lemma split_unique {A} (x : A) a b a' b' :
  a ++ x :: b = a' ++ x :: b' → x ∉ a → x ∉ a' → a = a' ∧ b = b'.
Proof.
  revert a'. induction a as [|y a IH]; intros [|y' a'] H Ha Ha'; cbn in H.
  - by injection H.
  - injection H as -> _. by rewrite elem_of_cons in Ha'; destruct Ha'; left.
  - injection H as <- _. by rewrite elem_of_cons in Ha; destruct Ha; left.
  - injection H as <- H. rewrite elem_of_cons in Ha, Ha'.
    destruct (IH a' H) as [-> ->]; [naive_solver..|done].
Qed.

Lemma without (x : Z) s : Forall (λ b, b ≠ 0) s → x ∉ s → Forall (λ b, b ≠ 0 ∧ b ≠ x) s.
Proof.
  rewrite !Forall_forall. intros H Hx b Hb. split; [by apply H|]. by intros ->.
Qed.

(** ** Values hold no separators *)

Lemma plain_not_in s : plain s ↔ Forall (λ b, b ≠ 0) s ∧ 10 ∉ s ∧ chr "=" ∉ s.
Proof.
  unfold plain. rewrite !Forall_forall. split.
  - intros H. split; [intros b Hb; by apply H|]. split; intros Hin; by destruct (H _ Hin) as (_ & ? & ?).
  - intros (H0 & H1 & H2) b Hb. split; [by apply H0|]. split; by intros ->.
Qed.

Lemma hex_char_plain n : 0 <= n < 16 → hex_char n ≠ 0 ∧ hex_char n ≠ 10 ∧ hex_char n ≠ chr "=".
Proof. unfold hex_char. intros. case_if; char_lia. Qed.

Lemma render_plain tokens bytes : bytes_ok bytes → plain (render tokens bytes).
Proof.
  intros Hb. revert bytes Hb. induction tokens as [|[] tokens IH]; intros bytes Hb; [constructor|..].
  - destruct Hb as [|b bytes Hb Hbs]; [constructor|]. destruct (byte_nibbles b Hb) as (Hh & Hl & _).
    cbn [render byte_hex app]. constructor; [by apply hex_char_plain|]. constructor; [by apply hex_char_plain|].
    by apply IH.
  - cbn [render]. constructor; [by vm_compute|]. destruct bytes; by apply IH.
Qed.

Lemma digits_plain ds : forallb is_digit ds = true → plain ds.
Proof.
  rewrite forallb_Forall. intros H. apply (Forall_impl _ _ _ H). intros d Hd%between_spec. char_lia.
Qed.

Lemma decimal_plain n : 0 <= n <= 65535 → plain (decimal n).
Proof.
  intros Hn. apply digits_plain. destruct (decimal_spec n) as [Hc _].
  { change (10 ^ 20) with 100000000000000000000. lia. }
  unfold canonical_digits in Hc. by apply andb_true_iff in Hc as [_ ?].
Qed.

Lemma legacy_name_plain s : legacy_name s = true → plain s.
Proof. intros H%legacy_name_chars. apply (Forall_impl _ _ _ H). intros b. char_lia. Qed.

Lemma value_plain expected m key v m' : value_of expected m key v m' → plain v.
Proof.
  destruct 1 as [|uuid [? _ _]|uuid [? _ _]| | |state]; [literal|by apply render_plain..|by apply legacy_name_plain
    |by apply decimal_plain|destruct state; literal].
Qed.

(** ** The parser accepts the grammar *)

(** The table of the keys that have been seen. *)
Definition seen_of (keys : list marker_key_index) : list bool := map (λ k, bool_decide (k ∈ keys)) all_keys.

Lemma seen_of_lookup keys key : seen_of keys !! key_number key = Some (bool_decide (key ∈ keys)).
Proof. by destruct key. Qed.

Lemma seen_of_insert keys key : <[key_number key := true]> (seen_of keys) = seen_of (key :: keys).
Proof.
  assert (∀ k, bool_decide (k ∈ key :: keys) = bool_decide (k = key) || bool_decide (k ∈ keys)) as H.
  { intros k. rewrite <- bool_decide_or. apply bool_decide_ext, elem_of_cons. }
  unfold seen_of, all_keys. cbn [map]. rewrite !H. by destruct key.
Qed.

(** An error has been reported to a caller that asks for it. *)
Definition marker_reported (error error' : option legacy_registration_marker_error) : Prop :=
  match error with
  | None => error' = None
  | Some _ => ∃ e, error' = Some e ∧ me_status e ≠ LEGACY_REGISTRATION_MARKER_OK
  end.

Lemma set_error_reported error status errno text :
  status ≠ LEGACY_REGISTRATION_MARKER_OK → marker_reported error (set_error error status errno text).
Proof. intros Hs. destruct error; cbn; [by eexists|done]. Qed.

(** The first line of a text that is accepted. *)
Lemma parsed_inv expected seen line s keys m m2 :
  parsed expected seen (line ++ 10 :: s) keys m m2 → 10 ∉ line →
  ∃ key value keys' m1, line = key_text key ++ chr "=" :: value ∧ key ∉ seen ∧ plain value ∧
    keys = key :: keys' ∧ value_of expected m key value m1 ∧ parsed expected (key :: seen) s keys' m1 m2.
Proof.
  intros H Hline. inversion H as [? ? Hseen Hs|? key value s' keys' ? m1 ? Hkey Hval Hrest Hseen Hs]; subst; [by destruct line|].
  pose proof (value_plain _ _ _ _ _ Hval) as Hplain.
  assert (10 ∉ key_text key ++ chr "=" :: value) as Hnl.
  { rewrite elem_of_app, elem_of_cons. pose proof (key_text_plain key) as Hk. apply plain_not_in in Hk, Hplain.
    intros [Hin|[[=]|Hin]]; naive_solver. }
  rewrite app_comm_cons, app_assoc in Hs.
  destruct (split_unique _ _ _ _ _ Hs Hnl Hline) as [<- <-]. exists key, value, keys', m1. done.
Qed.

(** The part of a line behind the first separator. *)
Lemma key_value_inv key value k v :
  key_text key ++ chr "=" :: value = k ++ chr "=" :: v → chr "=" ∉ k → k = key_text key ∧ v = value.
Proof.
  intros H Hk. pose proof (key_text_plain key) as Hp. apply plain_not_in in Hp as (_ & _ & Hp).
  by destruct (split_unique _ _ _ _ _ H Hp Hk) as [-> ->].
Qed.

(** A value stores one thing. *)
Lemma value_of_functional expected m key v m1 m2 :
  value_of expected m key v m1 → value_of expected m key v m2 → m1 = m2.
Proof.
  assert (∀ u u', identifier u → identifier u' → uuid_text u = uuid_text u' → u = u') as Huuid.
  { intros u u' Hu Hu' Heq. destruct (parse_uuid_spec (uuid_text u) []) as (r & _ & Hr).
    - apply plain_nonzero, render_plain, Hu.
    - assert (r = Some u) by (by apply Hr). assert (r = Some u') by (by apply Hr). congruence. }
  assert (∀ n n', 0 <= n <= 65535 → 0 <= n' <= 65535 → decimal n = decimal n' → n = n') as Hdec.
  { intros n n' Hn Hn' Heq. destruct (parse_record_number_spec (decimal n) []) as (r & _ & Hr).
    - by apply plain_nonzero, decimal_plain.
    - assert (r = Some n) by (by apply Hr). assert (r = Some n') by (by apply Hr). congruence. }
  intros H1 H2. destruct H1; inversion H2 as [|u Hu Hv|u Hu Hv| |k Hk Hv|st Hst Hv]; subst.
  - done.
  - by rewrite (Huuid u uuid).
  - by rewrite (Huuid u uuid).
  - done.
  - by rewrite (Hdec k n).
  - f_equal. by destruct st, state.
Qed.

Section parser.
Context (expected etail : list Z) (error : option legacy_registration_marker_error).
Hypothesis Hexpected : Forall (λ b, b ≠ 0) expected.

(** What a line does to the scan of a text of which [s] is left. *)
Definition line_result (pre s tail : list Z) (keys : list marker_key_index) (count : Z) (m : marker_text)
    (c : ctl marker_scan (option marker_text * option legacy_registration_marker_error)) : Prop :=
  match c with
  | Break st => s = [] ∧ st = MarkerScan (pre ++ s ++ 0 :: tail) (zlen pre) (seen_of keys) count m
  | Return (r, error') =>
      r = None ∧ marker_reported error error' ∧ ∀ more m2, ¬ parsed expected keys s more m m2
  | Continue st =>
      ∃ key value s' m1 pre',
        s = key_text key ++ chr "=" :: value ++ 10 :: s' ∧ key ∉ keys ∧ value_of expected m key value m1 ∧
        st = MarkerScan (pre' ++ s' ++ 0 :: tail) (zlen pre') (seen_of (key :: keys)) (count + 1) m1
  end.

Lemma line_refused pre s tail keys count m status text :
  status ≠ LEGACY_REGISTRATION_MARKER_OK → (∀ more m2, ¬ parsed expected keys s more m m2) →
  ∃ c, Some (Return (None, set_error error status 0 text)) = Some c ∧ line_result pre s tail keys count m c.
Proof. intros Hs Hp. eexists. split; [done|]. split; [done|]. split; [by apply set_error_reported|done]. Qed.

(** The separator of a line is found where it is, or the line has no key and value. *)
Lemma find_separator_spec pre line tail :
  Forall (λ b, b ≠ 0) line →
  ∃ r, find_separator (pre ++ line ++ 0 :: tail) (zlen pre) = Some r ∧
    match r with
    | Some separator => ∃ k v, line = k ++ chr "=" :: v ∧ k ≠ [] ∧ chr "=" ∉ k ∧ separator = zlen pre + zlen k
    | None => ∀ key value, plain value → line ≠ key_text key ++ chr "=" :: value
    end.
Proof.
  intros Hnz. unfold find_separator. destruct (decide (chr "=" ∈ line)) as [Hin|Hin].
  2:{ rewrite find_char_none by (done || by apply without). run_simpl. eexists. split; [done|].
      intros key value _ ->. apply Hin. rewrite elem_of_app, elem_of_cons. naive_solver. }
  apply list_elem_of_split_l in Hin as (k & v & -> & Hk).
  apply Forall_app in Hnz as [Hknz [_ Hvnz]%Forall_cons_1]. rewrite <- app_assoc, <- app_comm_cons.
  rewrite find_char_found by (by apply without). run_simpl. pose proof (zlen_nonneg k).
  destruct k as [|k0 k1].
  { change (zlen []) with 0. rewrite Z.add_0_r, Z.eqb_refl. eexists. split; [done|].
    intros key value _ H'. by destruct key. }
  remember (k0 :: k1) as k eqn:Ek. assert (k ≠ [] ∧ 0 < zlen k) as [Hkne Hkpos].
  { rewrite Ek, zlen_cons. pose proof (zlen_nonneg k1). split; [done|lia]. }
  rewrite (proj2 (Z.eqb_neq _ (zlen pre))) by lia. clear Ek.
  replace (pre ++ k ++ chr "=" :: v ++ 0 :: tail) with ((pre ++ k ++ [chr "="]) ++ v ++ 0 :: tail)
    by (by rewrite <- !app_assoc).
  replace (zlen pre + zlen k + 1) with (zlen (pre ++ k ++ [chr "="])) by (rewrite !zlen_app; change (zlen [_]) with 1; lia).
  destruct (decide (chr "=" ∈ v)) as [Hv|Hv].
  - apply list_elem_of_split_l in Hv as (v1 & v2 & -> & Hv1). apply Forall_app in Hvnz as [Hv1nz _].
    rewrite <- (app_assoc v1), <- app_comm_cons, find_char_found by (by apply without). run_simpl.
    eexists. split; [done|]. intros key value Hplain Heq. symmetry in Heq.
    apply key_value_inv in Heq as [-> <-]; [|done]. apply plain_not_in in Hplain as (_ & _ & Hp).
    apply Hp. rewrite elem_of_app, elem_of_cons. naive_solver.
  - rewrite find_char_none by (done || by apply without). run_simpl. eexists. split; [done|]. by exists k, v.
Qed.

(** A line that is ended by its newline. *)
Lemma marker_key_value_spec pre line s tail keys count m :
  Forall (λ b, b ≠ 0) line → 10 ∉ line →
  ∃ c, marker_key_value (terminated expected etail) error
         (MarkerScan (pre ++ line ++ 10 :: s ++ 0 :: tail) (zlen pre) (seen_of keys) count m)
         (zlen pre + zlen line) = Some c ∧
    line_result pre (line ++ 10 :: s) tail keys count m c.
Proof.
  intros Hnz Hline. unfold marker_key_value. cbn [ms_cursor ms_text ms_seen ms_seen_count ms_marker].
  rewrite <- zlen_app, app_assoc, buf_set_app. run_simpl. rewrite <- app_assoc.
  destruct (find_separator_spec pre line (s ++ 0 :: tail) Hnz) as ([separator|] & -> & Hr); run_simpl.
  2:{ apply line_refused; [done|]. intros more m2 H. apply parsed_inv in H as (key & value & ? & m1 & Heq & _ & Hp & _); [|done].
      by eapply Hr. }
  destruct Hr as (k & v & -> & _ & Hk & ->). apply Forall_app in Hnz as [Hknz [_ Hvnz]%Forall_cons_1].
  rewrite elem_of_app, elem_of_cons in Hline.
  rewrite <- (app_assoc k), <- app_comm_cons, <- (zlen_app pre k), (app_assoc pre k), buf_set_app. run_simpl.
  rewrite <- app_assoc, buf_at_app. run_simpl.
  replace (pre ++ k ++ 0 :: v ++ 0 :: s ++ 0 :: tail) with ((pre ++ k ++ [0]) ++ v ++ 0 :: s ++ 0 :: tail)
    by (by rewrite <- !app_assoc).
  replace (zlen (pre ++ k) + 1) with (zlen (pre ++ k ++ [0])) by (rewrite !zlen_app; change (zlen [0]) with 1; lia).
  rewrite buf_at_app. run_simpl.
  change (k ++ 0 :: v ++ 0 :: s ++ 0 :: tail) with (terminated k (v ++ 0 :: s ++ 0 :: tail)).
  change (v ++ 0 :: s ++ 0 :: tail) with (terminated v (s ++ 0 :: tail)) at 2.
  destruct (key_of (terminated k _)) as [key|] eqn:Ekey.
  2:{ apply line_refused; [done|]. intros more m2 H.
      apply parsed_inv in H as (key & value & ? & m1 & Heq & _); [|rewrite elem_of_app, elem_of_cons; naive_solver].
      symmetry in Heq. apply key_value_inv in Heq as [-> _]; [|done].
      by rewrite (proj2 (key_of_spec _ _ key Hknz) eq_refl) in Ekey. }
  apply key_of_spec in Ekey as ->; [|done]. rewrite seen_of_lookup. run_simpl.
  assert (∀ more m2, parsed expected keys ((key_text key ++ chr "=" :: v) ++ 10 :: s) more m m2 →
    key ∉ keys ∧ ∃ m1, value_of expected m key v m1) as Hinv.
  { intros more m2 H. apply parsed_inv in H as (key' & value & ? & m1 & Heq & Hnew & _ & _ & Hval & _);
      [|rewrite elem_of_app, elem_of_cons; naive_solver].
    pose proof Heq as Heq'. symmetry in Heq. apply key_value_inv in Heq as [Ekt ->]; [|done].
    assert (key = key') as -> by (by destruct key, key'). eauto. }
  destruct (bool_decide (key ∈ keys)) eqn:Edup; bools.
  { apply line_refused; [done|]. intros more m2 H. by destruct (Hinv more m2 H). }
  destruct (store_value_spec key v (s ++ 0 :: tail) expected etail m Hvnz Hexpected) as (r & -> & Hr). run_simpl.
  destruct r as [m1|[status text]].
  2:{ destruct Hr as [Hs Hr]. apply line_refused; [done|]. intros more m2 H. destruct (Hinv more m2 H) as [_ [m1 Hm1]].
      by eapply Hr. }
  eexists. split; [reflexivity|].
  exists key, v, s, m1, (pre ++ key_text key ++ 0 :: v ++ [0]).
  split; [by rewrite <- app_assoc|]. split; [done|]. split; [done|]. rewrite seen_of_insert.
  f_equal; [by repeat (rewrite <- !app_assoc; cbn [app])|].
  rewrite !zlen_app, !zlen_cons, zlen_app. change (zlen [0]) with 1. lia.
Qed.

Lemma marker_line_spec pre s tail keys count m :
  Forall (λ b, b ≠ 0) s →
  ∃ c, marker_line (terminated expected etail) error
         (MarkerScan (pre ++ s ++ 0 :: tail) (zlen pre) (seen_of keys) count m) = Some c ∧
    line_result pre s tail keys count m c.
Proof.
  intros Hnz. unfold marker_line. cbn [ms_cursor ms_text ms_seen ms_seen_count ms_marker].
  destruct s as [|b s0].
  { cbn [app]. rewrite buf_get_app_first. run_simpl. by eexists. }
  assert (buf_get (pre ++ (b :: s0) ++ 0 :: tail) (zlen pre) = Some b) as -> by apply buf_get_app_first.
  run_simpl.
  rewrite (proj2 (Z.eqb_neq b 0)) by (by apply Forall_inv in Hnz).
  remember (b :: s0) as s eqn:Hs. assert (s ≠ []) as Hne by (by rewrite Hs). clear Hs.
  destruct (decide (10 ∈ s)) as [Hin|Hin].
  2:{ rewrite find_char_none by (done || by apply without). run_simpl.
      apply line_refused; [done|]. intros more m2 H. destruct H as [|? key value s']; [done|].
      apply Hin. rewrite elem_of_app, elem_of_cons, elem_of_app, elem_of_cons. naive_solver. }
  apply list_elem_of_split_l in Hin as (line & rest & -> & Hline).
  apply Forall_app in Hnz as [Hlnz Hrnz]. rewrite <- app_assoc, <- app_comm_cons.
  rewrite find_char_found by (by apply without). run_simpl.
  destruct line as [|l0 line0].
  { change (zlen []) with 0. rewrite Z.add_0_r, Z.eqb_refl. apply line_refused; [done|].
    intros more m2 H. apply (parsed_inv _ _ []) in H as (key & value & ? & m1 & Heq & _); [|done]. by destruct key. }
  remember (l0 :: line0) as line eqn:Hl. assert (line ≠ [] ∧ 0 < zlen line) as [Hlne Hlpos].
  { rewrite Hl, zlen_cons. pose proof (zlen_nonneg line0). split; [done|lia]. }
  clear Hl. rewrite (proj2 (Z.eqb_neq _ (zlen pre))) by lia. by apply marker_key_value_spec.
Qed.

Lemma parsed_line_inv seen key value s keys m m1 m2 :
  value_of expected m key value m1 →
  parsed expected seen (key_text key ++ chr "=" :: value ++ 10 :: s) keys m m2 →
  ∃ keys', keys = key :: keys' ∧ parsed expected (key :: seen) s keys' m1 m2.
Proof.
  intros Hval H. pose proof (value_plain _ _ _ _ _ Hval) as Hplain. pose proof (key_text_plain key) as Hk.
  apply plain_not_in in Hplain as (_ & Hnl & Heq), Hk as (_ & Hknl & Hkeq).
  rewrite app_comm_cons, app_assoc in H. apply parsed_inv in H as (key' & value' & keys' & m1' & Hline & _ & _ & -> & Hval' & H).
  2:{ rewrite elem_of_app, elem_of_cons. intros [?|[[=]|?]]; done. }
  symmetry in Hline. apply key_value_inv in Hline as [Ekey ->]; [|done].
  assert (key = key') as -> by (by destruct key, key').
  rewrite (value_of_functional _ _ _ _ _ _ Hval Hval'). eauto.
Qed.

(** The loop parses the rest of the text. *)
Lemma marker_lines_spec s pre tail keys count m fuel :
  Forall (λ b, b ≠ 0) s → (length s < fuel)%nat →
  ∃ c, loop fuel (marker_line (terminated expected etail) error)
         (MarkerScan (pre ++ s ++ 0 :: tail) (zlen pre) (seen_of keys) count m) = Some c ∧
    match c with
    | Return (r, error') => r = None ∧ marker_reported error error' ∧ ∀ more m2, ¬ parsed expected keys s more m m2
    | Break st | Continue st =>
        ∃ more, parsed expected keys s more m (ms_marker st) ∧ ms_seen_count st = count + zlen more ∧
          ∀ more' m2, parsed expected keys s more' m m2 → more' = more ∧ m2 = ms_marker st
    end.
Proof.
  revert s pre keys count m. induction fuel as [|fuel IH]; intros s pre keys count m Hnz Hfuel; [lia|].
  cbn [loop]. destruct (marker_line_spec pre s tail keys count m Hnz) as (c & -> & Hc). run_simpl.
  destruct c as [st|st|[r error']].
  - destruct Hc as (key & value & s' & m1 & pre' & -> & Hkey & Hval & ->).
    apply Forall_app in Hnz as [_ [_ Hnz]%Forall_cons_1]. apply Forall_app in Hnz as [_ [_ Hnz]%Forall_cons_1].
    destruct (IH s' pre' (key :: keys) (count + 1) m1 Hnz) as (c & -> & Hc).
    { rewrite !length_app in Hfuel. cbn [length] in Hfuel. rewrite length_app in Hfuel. cbn [length] in Hfuel. lia. }
    eexists. split; [reflexivity|].
    pose proof (λ more' m2, parsed_line_inv keys key value s' more' m m1 m2 Hval) as Hinv.
    destruct c as [st|st|[r error']].
    1, 2: destruct Hc as (more & Hp & Hn & Hu); exists (key :: more); split; [by eapply parsed_line|];
      split; [rewrite zlen_cons; lia|]; intros more' m2 (more'' & -> & H)%Hinv; by destruct (Hu _ _ H) as [-> ->].
    destruct Hc as (-> & He & Hp). split; [done|]. split; [done|]. intros more' m2 (more'' & -> & H)%Hinv.
    by eapply Hp.
  - destruct Hc as [-> ->]. eexists. split; [reflexivity|]. exists []. split; [constructor|].
    split; [cbn [ms_seen_count]; change (zlen []) with 0; lia|]. intros more' m2 H.
    inversion H; subst; [done|]. by match goal with E : key_text ?k ++ _ = [] |- _ => destruct k end.
  - eexists. by split.
Qed.
End parser.

(** ** What an accepted marker says *)

Lemma parsed_nodup expected seen s keys m m2 :
  parsed expected seen s keys m m2 → NoDup keys ∧ Forall (λ key, key ∉ seen) keys.
Proof.
  induction 1 as [|seen key value s keys m m1 m2 Hkey _ _ [Hnd Hout]]; [split; constructor|].
  split; constructor; [|done..|].
  - intros Hin. rewrite Forall_forall in Hout. apply (Hout key Hin). by left.
  - apply (Forall_impl _ _ _ Hout). intros k. rewrite elem_of_cons. naive_solver.
Qed.

Lemma parsed_all_keys expected s keys m m2 :
  parsed expected [] s keys m m2 → zlen keys = MARKER_REQUIRED_KEYS ↔ keys ≡ₚ all_keys.
Proof.
  intros [Hnd _]%parsed_nodup. change MARKER_REQUIRED_KEYS with 6. unfold zlen. split.
  - intros Hlen. apply submseteq_length_Permutation; [|cbn; lia].
    apply NoDup_submseteq; [done|]. intros key _. destruct key; literal.
  - intros ->. reflexivity.
Qed.

(** A text that is not empty ends with a line. *)
Lemma parsed_last expected seen s keys m m2 :
  parsed expected seen s keys m m2 → s = [] ∨ ∃ a, s = a ++ [10].
Proof.
  induction 1 as [|seen key value s keys m m1 m2 _ _ _ IH]; [by left|]. right.
  destruct IH as [->|[a ->]].
  - exists (key_text key ++ chr "=" :: value). by rewrite <- app_assoc.
  - exists (key_text key ++ chr "=" :: value ++ 10 :: a). by rewrite <- app_assoc; cbn; rewrite <- app_assoc.
Qed.

(** What a key has stored. *)
Definition field_ok (expected : list Z) (key : marker_key_index) (m : marker_text) : Prop :=
  match key with
  | MARKER_KEY_FORMAT_VERSION => mt_format_version m = LEGACY_REGISTRATION_MARKER_FORMAT_VERSION
  | MARKER_KEY_REGISTRATION_ID => identifier (mt_registration_id m)
  | MARKER_KEY_USER_ID => identifier (mt_user_id m)
  | MARKER_KEY_LEGACY_NAME => legacy_name expected = true ∧ cstr (mt_legacy_name m) = expected
  | MARKER_KEY_RECORD_NUMBER => 0 <= mt_record_number m <= 65535
  | MARKER_KEY_STATE => mt_state m ≠ LEGACY_REGISTRATION_MARKER_STATE_INVALID
  end.

Lemma value_of_field expected key v m m1 :
  zlen (mt_legacy_name m) = LEGACY_USERDB_LEGACY_NAME_MAX + 1 → value_of expected m key v m1 →
  zlen (mt_legacy_name m1) = LEGACY_USERDB_LEGACY_NAME_MAX + 1 ∧ field_ok expected key m1 ∧
  ∀ key', key' ≠ key → field_ok expected key' m → field_ok expected key' m1.
Proof.
  intros Hlen H. destruct H as [| | |Hname| |]; cbn [mt_legacy_name field_ok mt_format_version
    mt_registration_id mt_user_id mt_record_number mt_state].
  4: rewrite snprintf_length.
  all: split; [done|].
  4: { split; [split; [done|]|by intros []].
       pose proof (legacy_name_nonzero _ Hname) as Hnz. rewrite cstr_snprintf; [by apply cstr_id|].
       unfold strlen. rewrite cstr_id by done. unfold legacy_name in Hname.
       apply andb_true_iff in Hname as [Hl _]. bools. lia. }
  all: split; [done|by intros []].
Qed.

Lemma parsed_fields expected seen s keys m m2 :
  parsed expected seen s keys m m2 →
  zlen (mt_legacy_name m) = LEGACY_USERDB_LEGACY_NAME_MAX + 1 →
  (∀ key, key ∈ seen → field_ok expected key m) → ∀ key, key ∈ seen ∨ key ∈ keys → field_ok expected key m2.
Proof.
  induction 1 as [|seen key value s keys m m1 m2 Hkey Hval _ IH]; intros Hlen Hseen key' Hin.
  - destruct Hin as [?|[]%elem_of_nil]. by apply Hseen.
  - destruct (value_of_field _ _ _ _ _ Hlen Hval) as (Hlen1 & Hok & Hkeep). apply IH; [done| |].
    + intros k [->|Hk]%elem_of_cons; [done|]. apply Hkeep; [by intros ->|by apply Hseen].
    + rewrite !elem_of_cons in *. tauto.
Qed.

(** A marker whose fields are what the code promises to its callers. *)
Definition marker_ok (expected : list Z) (m : marker_text) : Prop := ∀ key, field_ok expected key m.

(** A text with all keys leaves no member as it was. *)
Lemma parsed_marker_ok expected s keys m m2 :
  zlen (mt_legacy_name m) = LEGACY_USERDB_LEGACY_NAME_MAX + 1 → keys ≡ₚ all_keys → parsed expected [] s keys m m2 →
  marker_ok expected m2.
Proof.
  intros Hlen Hkeys Hp key. apply (parsed_fields _ _ _ _ _ _ Hp Hlen); [by intros k Hk%elem_of_nil|]. right.
  rewrite Hkeys. destruct key; literal.
Qed.

(** ** The text as a whole *)

Lemma parse_marker_text_spec s tail expected etail m error :
  Forall (λ b, b ≠ 0) s → Forall (λ b, b ≠ 0) expected →
  ∃ r error', parse_marker_text (terminated s tail) (terminated expected etail) m error = Some (r, error') ∧
    (∀ m2, r = Some m2 ↔ ∃ keys, keys ≡ₚ all_keys ∧ parsed expected [] s keys m m2) ∧
    (if r then error' = error else marker_reported error error').
Proof.
  intros Hnz He. unfold parse_marker_text.
  destruct s as [|b s0].
  { eexists _, _. split; [reflexivity|]. split; [|by apply set_error_reported].
    intros m2. split; [done|]. intros (keys & Hkeys & Hp). inversion Hp; subst.
    - by apply Permutation_nil_l in Hkeys.
    - by match goal with E : key_text ?k ++ _ = [] |- _ => destruct k end. }
  change (buf_get (terminated (b :: s0) tail) 0) with (Some b). run_simpl.
  rewrite (proj2 (Z.eqb_neq b 0)) by (by apply Forall_inv in Hnz).
  remember (b :: s0) as s eqn:Hs. assert (s ≠ []) as Hne by (by rewrite Hs). clear Hs.
  destruct s as [|last s' _] using rev_ind; [done|].
  assert (buf_get (terminated (s' ++ [last]) tail) (strlen (terminated (s' ++ [last]) tail) - 1) = Some last) as ->.
  { unfold strlen, terminated. rewrite cstr_app_zero by done. rewrite zlen_app, <- app_assoc.
    change (zlen [last]) with 1. rewrite Z.add_simpl_r. apply buf_get_app_first. }
  run_simpl. destruct (Z.eqb_spec last 10) as [->|Hlast]; cbn [negb].
  2:{ eexists _, _. split; [reflexivity|]. split; [|by apply set_error_reported].
      intros m2. split; [done|]. intros (keys & _ & [Hnil|[a Ha]]%parsed_last); [by destruct s'|].
      apply app_inj_tail in Ha as [_ ?]. done. }
  destruct (marker_lines_spec expected etail error He (s' ++ [10]) [] tail [] 0 m
              (S (length (terminated (s' ++ [10]) tail)))) as (c & Hc & Hres); [done|unfold terminated; rewrite !length_app; cbn; lia|].
  change (zlen []) with 0 in Hc. unfold terminated in *. cbn [app] in Hc.
  change (seen_of []) with (replicate (Z.to_nat MARKER_REQUIRED_KEYS) false) in Hc. rewrite Hc. run_simpl.
  destruct c as [st|st|[r error']].
  1, 2: destruct Hres as (more & Hp & -> & Hu); rewrite Z.add_0_l;
    (destruct (Z.eqb_spec (zlen more) MARKER_REQUIRED_KEYS) as [Hn|Hn]; cbn [negb]; eexists _, _;
      (split; [reflexivity|]); (split; [|first [done|by apply set_error_reported]]); intros m2; split;
      [intros [= <-]; exists more; split; [by eapply parsed_all_keys|done]
      |intros (keys & _ & H); destruct (Hu _ _ H) as [_ ->]; done
      |done
      |intros (keys & Hk & H); destruct (Hu _ _ H) as [-> ->]; by apply (parsed_all_keys _ _ _ _ _ Hp) in Hk]).
  destruct Hres as (-> & He' & Hnone). eexists _, _. split; [reflexivity|]. split; [|done].
  intros m2. split; [done|]. intros (keys & _ & H). by apply Hnone in H.
Qed.

(** C19: the reader of a marker accepts exactly the texts of six lines [key=value]
    with the six keys in any order and no other; it then says what the lines say,
    with a name that is the one of the directory, identifiers that are not zero, a
    record number of 16 bits and a state; every other text is refused with an
    error. It never reads or writes outside the text. *)
Theorem marker_parse_correct s tail expected etail m error :
  Forall (λ b, b ≠ 0) s → Forall (λ b, b ≠ 0) expected →
  zlen (mt_legacy_name m) = LEGACY_USERDB_LEGACY_NAME_MAX + 1 →
  ∃ r error', parse_marker_text (terminated s tail) (terminated expected etail) m error = Some (r, error') ∧
    (∀ m2, r = Some m2 ↔ ∃ keys, keys ≡ₚ all_keys ∧ parsed expected [] s keys m m2) ∧
    match r with
    | Some m2 => error' = error ∧ marker_ok expected m2
    | None => marker_reported error error'
    end.
Proof.
  intros Hnz He Hlen. destruct (parse_marker_text_spec s tail expected etail m error Hnz He) as (r & error' & -> & Hr & Herr).
  exists r, error'. split; [done|]. split; [done|]. destruct r as [m2|]; [|done]. split; [done|].
  destruct (proj1 (Hr m2) eq_refl) as (keys & Hkeys & Hp). by eapply parsed_marker_ok.
Qed.

(** The lines of a marker in the order of the writer. *)
Definition canonical_marker (registration_id user_id name : list Z) (n : Z)
    (state : legacy_registration_marker_state) : list Z :=
  let line key value := key ++ lit "=" ++ value ++ newline in
  line (lit "format_version") (lit "1") ++ line (lit "registration_id") (uuid_text registration_id)
  ++ line (lit "user_id") (uuid_text user_id) ++ line (lit "legacy_name") name
  ++ line (lit "record_number") (decimal n) ++ line (lit "state") (state_text state).

Lemma canonical_marker_parsed registration_id user_id name n state m :
  identifier registration_id → identifier user_id → legacy_name name = true → 0 <= n <= 65535 →
  state ≠ LEGACY_REGISTRATION_MARKER_STATE_INVALID →
  parsed name [] (canonical_marker registration_id user_id name n state) all_keys m
    (MarkerText 1 registration_id user_id (snprintf_s (mt_legacy_name m) name) n state).
Proof.
  intros Hr Hu Hname Hn Hstate. unfold canonical_marker. cbv zeta beta. rewrite <- !app_assoc. cbn [app newline].
  eapply (parsed_line _ _ MARKER_KEY_FORMAT_VERSION (lit "1")); [literal|constructor|].
  eapply (parsed_line _ _ MARKER_KEY_REGISTRATION_ID (uuid_text _)); [literal|by constructor|].
  eapply (parsed_line _ _ MARKER_KEY_USER_ID (uuid_text _)); [literal|by constructor|].
  eapply (parsed_line _ _ MARKER_KEY_LEGACY_NAME name); [literal|by constructor|].
  eapply (parsed_line _ _ MARKER_KEY_RECORD_NUMBER (decimal n)); [literal|by constructor|].
  eapply (parsed_line _ _ MARKER_KEY_STATE (state_text state)); [literal|by constructor|].
  constructor.
Qed.

Lemma decimal_digits_length fuel n : (length (decimal_digits fuel n) <= fuel)%nat.
Proof.
  revert n. induction fuel as [|fuel IH]; intros n; cbn [decimal_digits]; [cbn; lia|].
  case_if; [cbn; lia|]. rewrite length_app. specialize (IH (n / 10)). cbn. lia.
Qed.

Lemma uuid_text_length uuid : length uuid = 16%nat → zlen (uuid_text uuid) = 36.
Proof. intros Hl. do 16 (destruct uuid as [|? uuid]; [done|]). by destruct uuid. Qed.

(** The writer fits the text into its buffer. *)
Lemma canonical_marker_length registration_id user_id name n state :
  identifier registration_id → identifier user_id → legacy_name name = true →
  zlen (canonical_marker registration_id user_id name n state) < 320.
Proof.
  intros [_ Hr _] [_ Hu _] Hname. unfold canonical_marker. cbv zeta beta.
  rewrite !zlen_app, !uuid_text_length by done. pose proof (decimal_digits_length 20 n).
  unfold legacy_name in Hname. apply andb_true_iff in Hname as [Hn _]. bools.
  change LEGACY_USERDB_LEGACY_NAME_MAX with 8 in Hn.
  assert (zlen (decimal n) <= 20) by (unfold zlen, decimal; lia).
  assert (zlen (state_text state) <= 9) by (by destruct state).
  change (zlen newline) with 1. change (zlen (lit "=")) with 1. change (zlen (lit "format_version")) with 14.
  change (zlen (lit "1")) with 1. change (zlen (lit "registration_id")) with 15.
  change (zlen (lit "user_id")) with 7. change (zlen (lit "legacy_name")) with 11.
  change (zlen (lit "record_number")) with 13. change (zlen (lit "state")) with 5. lia.
Qed.

Lemma build_marker_spec prepared state :
  identifier (pr_registration_id prepared) → identifier (pr_user_id prepared) →
  legacy_name (cstr (pr_legacy_name prepared)) = true → state ≠ LEGACY_REGISTRATION_MARKER_STATE_INVALID →
  build_marker prepared (state_text state) =
    Some (Some (canonical_marker (pr_registration_id prepared) (pr_user_id prepared)
                  (cstr (pr_legacy_name prepared)) (pr_record_number prepared) state)).
Proof.
  intros Hr Hu Hname Hstate. unfold build_marker.
  assert (negb (bool_decide (state_text state = LEGACY_MARKER_STATE_PREPARED))
     && negb (bool_decide (state_text state = LEGACY_MARKER_STATE_COMMITTED)) = false) as -> by (by destruct state).
  rewrite !format_uuid_text_spec by (apply Hr || apply Hu). run_simpl. cbv zeta.
  match goal with |- Some (if _ <=? zlen ?t then _ else _) = _ =>
    change t with (canonical_marker (pr_registration_id prepared) (pr_user_id prepared)
                     (cstr (pr_legacy_name prepared)) (pr_record_number prepared) state) end.
  change LEGACY_MARKER_BUFFER_SIZE with 320.
  by rewrite (proj2 (Z.leb_gt _ _)) by (by apply canonical_marker_length).
Qed.

Lemma parsed_nonzero expected seen s keys m m2 :
  parsed expected seen s keys m m2 → Forall (λ b, b ≠ 0) s.
Proof.
  induction 1 as [|seen key value s keys m m1 m2 _ Hval _ IH]; [constructor|].
  apply Forall_app. split; [apply plain_nonzero, key_text_plain|]. constructor; [by vm_compute|].
  apply Forall_app. split; [by eapply plain_nonzero, value_plain|]. by constructor.
Qed.

(** C36: what [build_marker] writes for a prepared registration, the reader of
    markers reads back: both identifiers, the name, the record number and the
    state. The text fits into the buffers of both programs, and the reader finds it
    whatever lies behind the text in its buffer. *)
Theorem marker_roundtrip prepared state tail etail m error :
  identifier (pr_registration_id prepared) → identifier (pr_user_id prepared) →
  legacy_name (cstr (pr_legacy_name prepared)) = true → 0 <= pr_record_number prepared <= 65535 →
  state ≠ LEGACY_REGISTRATION_MARKER_STATE_INVALID →
  ∃ text, build_marker prepared (state_text state) = Some (Some text) ∧
    zlen text < LEGACY_REGISTRATION_MARKER_MAX_SIZE ∧
    parse_marker_text (terminated text tail) (terminated (cstr (pr_legacy_name prepared)) etail) m error =
      Some (Some (MarkerText LEGACY_REGISTRATION_MARKER_FORMAT_VERSION (pr_registration_id prepared)
                    (pr_user_id prepared) (snprintf_s (mt_legacy_name m) (cstr (pr_legacy_name prepared)))
                    (pr_record_number prepared) state), error).
Proof.
  intros Hr Hu Hname Hn Hstate.
  pose proof (canonical_marker_parsed _ _ _ _ _ m Hr Hu Hname Hn Hstate) as Hp.
  eexists. split; [by apply build_marker_spec|]. split; [by apply canonical_marker_length|].
  destruct (parse_marker_text_spec _ tail _ etail m error (parsed_nonzero _ _ _ _ _ _ Hp) 
    (cstr_nonzero (pr_legacy_name prepared))) as (r & error' & -> & Hres & Herr).
  rewrite (proj2 (Hres _) (ex_intro _ all_keys (conj (reflexivity all_keys) Hp))) in Herr |- *. by subst.
Qed.

Definition example_prepared : legacy_userdb_prepared_registration :=
  PreparedRegistration true false (replicate 15 0 ++ [1]) (map Z.of_nat (seq 16 16)) (lit "alice" ++ [0; 0; 0; 0])
    (lit "Alice" ++ replicate 31 0) 7 0 0 0 0 0 0 1 0 0 0 0 0 [].

(** The marker of a registration that is committed; the reader of another directory
    refuses it. *)
Lemma marker_roundtrip_witness :
  (∃ text, build_marker example_prepared (state_text LEGACY_REGISTRATION_MARKER_COMMITTED) = Some (Some text) ∧
    zlen text < LEGACY_REGISTRATION_MARKER_MAX_SIZE ∧
    parse_marker_text (terminated text []) (terminated (cstr (pr_legacy_name example_prepared)) [])
      cleared_marker None =
      Some (Some (MarkerText LEGACY_REGISTRATION_MARKER_FORMAT_VERSION (pr_registration_id example_prepared)
                    (pr_user_id example_prepared)
                    (snprintf_s (mt_legacy_name cleared_marker) (cstr (pr_legacy_name example_prepared)))
                    (pr_record_number example_prepared) LEGACY_REGISTRATION_MARKER_COMMITTED), None)) ∧
  (let! text := build_marker example_prepared (state_text LEGACY_REGISTRATION_MARKER_COMMITTED) in
   let! text := text in
   let! result := parse_marker_text (terminated text []) (terminated (lit "bob") []) cleared_marker None in
   Some result.1) = Some None.
Proof.
  split; [|vm_compute; reflexivity].
  refine (marker_roundtrip example_prepared LEGACY_REGISTRATION_MARKER_COMMITTED [] [] cleared_marker None
            _ _ _ _ _); [split; [literal|done|]..|done|cbn; lia|done].
  - exists 1. split; literal.
  - exists 16. split; literal.
Defined.

Lemma marker_parse_correct_witness :
  let text := lit "state=prepared" ++ newline in
  (∃ r error', parse_marker_text (terminated text []) (terminated (lit "alice") []) cleared_marker
                 (Some (marker_error LEGACY_REGISTRATION_MARKER_OK 0 [])) = Some (r, error') ∧
    (∀ m2, r = Some m2 ↔ ∃ keys, keys ≡ₚ all_keys ∧ parsed (lit "alice") [] text keys cleared_marker m2) ∧
    match r with
    | Some m2 => error' = Some (marker_error LEGACY_REGISTRATION_MARKER_OK 0 []) ∧ marker_ok (lit "alice") m2
    | None => marker_reported (Some (marker_error LEGACY_REGISTRATION_MARKER_OK 0 [])) error'
    end) ∧
  (let! (r, error') := parse_marker_text (terminated text []) (terminated (lit "alice") []) cleared_marker
                         (Some (marker_error LEGACY_REGISTRATION_MARKER_OK 0 [])) in
   Some (is_null r, me_status <$> error')) = Some (true, Some LEGACY_REGISTRATION_MARKER_MISSING_KEY).
Proof.
  cbv zeta. split; [|vm_compute; reflexivity].
  refine (marker_parse_correct (lit "state=prepared" ++ newline) [] (lit "alice") [] cleared_marker
            (Some (marker_error LEGACY_REGISTRATION_MARKER_OK 0 [])) _ _ _); [literal..|done].
Defined.
