(* ===== verification/MarkerFile.v ===== *)
(** * Reading a registration marker

    The rest of [fortytwo-auth/src/legacy_registration_marker.c]: the file of the
    marker is opened without following links, its directories, its type, owner and
    size are checked, it is read as a whole and parsed, and the read counts only
    if nothing has changed meanwhile. *)

From stdpp Require Import gmap.
From S2P Require Import Prelude Utf8 Program LegacyUserdb FileSystem LegacyNames LegacyProvision LegacyMarker.

(** ** Data *)

Definition LEGACY_USERDB_MARKER_FILE : list Z := lit ".fortytwo-registration".

Record legacy_registration_marker := RegistrationMarker {
  rm_text : marker_text;
  rm_base_directory_status : stat;
  rm_user_directory_status : stat;
  rm_file_status : stat;
}.

Definition zero_marker : legacy_registration_marker := RegistrationMarker cleared_marker zero_stat zero_stat zero_stat.

Definition legacy_registration_marker_clear (marker : option legacy_registration_marker)
    : option legacy_registration_marker := (λ _, zero_marker) <$> marker.

(** ** Checks *)

Definition directory_policy_is_valid (policy : legacy_userdb_directory_policy) : bool :=
  negb (dp_check_mode policy) || mode_value_is_valid (dp_expected_mode policy).

Definition policy_is_valid (policy : option legacy_registration_marker_policy) : bool :=
  match policy with
  | None => false
  | Some p =>
      directory_policy_is_valid (mp_base_directory p) && directory_policy_is_valid (mp_user_directory p)
      && (negb (mp_check_marker_mode p) || mode_value_is_valid (mp_expected_marker_mode p))
      && (0 <? mp_max_size p) && (mp_max_size p <=? LEGACY_REGISTRATION_MARKER_MAX_SIZE)
  end.

Definition file_snapshot_is_unchanged (before after : stat) : bool :=
  (st_dev before =? st_dev after) && (st_ino before =? st_ino after) && (st_size before =? st_size after)
  && (st_uid before =? st_uid after) && (st_gid before =? st_gid after) && (st_mode before =? st_mode after)
  && (st_nlink before =? st_nlink after) && same_timestamp (st_mtim before) (st_mtim after)
  && same_timestamp (st_ctim before) (st_ctim after).

(** The tests of the status of the file in their order: the first that refuses it. *)
Definition marker_file_refusal (policy : legacy_registration_marker_policy) (before : stat)
    : option (legacy_registration_marker_status * list Z) :=
  if negb (S_ISREG (st_mode before)) then
    Some (LEGACY_REGISTRATION_MARKER_NOT_REGULAR, lit "registration marker is not a regular file")
  else if mp_check_marker_owner policy && negb (st_uid before =? mp_expected_marker_uid policy) then
    Some (LEGACY_REGISTRATION_MARKER_OWNER_MISMATCH, lit "registration marker owner does not match policy")
  else if mp_check_marker_group policy && negb (st_gid before =? mp_expected_marker_gid policy) then
    Some (LEGACY_REGISTRATION_MARKER_GROUP_MISMATCH, lit "registration marker group does not match policy")
  else if mp_check_marker_mode policy && negb (Z.land (st_mode before) 0xfff =? mp_expected_marker_mode policy) then
    Some (LEGACY_REGISTRATION_MARKER_MODE_MISMATCH, lit "registration marker mode does not match policy")
  else if mp_require_single_link policy && negb (st_nlink before =? 1) then
    Some (LEGACY_REGISTRATION_MARKER_LINK_COUNT_MISMATCH, lit "registration marker has an unexpected link count")
  else if (st_size before <=? 0) || (mp_max_size policy <? st_size before) then
    Some (LEGACY_REGISTRATION_MARKER_SIZE_INVALID, lit "registration marker size is invalid")
  else None.

Section reader.
Context `{FileSystem} (fuel : nat).

Abbreviation files := (prog file_event unit) (only parsing).
Abbreviation error_pointer := (option legacy_registration_marker_error) (only parsing).

(** The candidate, unless it has failed, and [*error]. *)
Abbreviation candidate := (option legacy_registration_marker * error_pointer)%type (only parsing).

Context (legacy_name : list Z) (policy : legacy_registration_marker_policy) (error : error_pointer).

Definition failed (status : legacy_registration_marker_status) (system_errno : Z) (text : list Z) : files candidate :=
  ret (None, set_error error status system_errno text).

(** The files have been read: is everything as it was, and what does the text say? *)
Definition check_and_parse (base_fd user_fd marker_fd : Z) (base_status user_status before : stat) (buffer : list Z)
    : files candidate :=
  let recheck_failed errno :=
    failed LEGACY_REGISTRATION_MARKER_STAT_FAILED errno (lit "cannot recheck registration marker path") in
  let* after := fstat marker_fd in
  match after with
  | inr errno => recheck_failed errno
  | inl after =>
      let* user_after := fstat user_fd in
      match user_after with
      | inr errno => recheck_failed errno
      | inl user_after =>
          let* base_after := fstat base_fd in
          match base_after with
          | inr errno => recheck_failed errno
          | inl base_after =>
              if negb (file_snapshot_is_unchanged before after)
                 || negb (file_snapshot_is_unchanged user_status user_after)
                 || negb (file_snapshot_is_unchanged base_status base_after)
              then failed LEGACY_REGISTRATION_MARKER_CHANGED_DURING_READ 0
                     (lit "registration marker path changed during read")
              else
                let* (parsed, error) := lift (parse_marker_text buffer legacy_name cleared_marker error) in
                match parsed with
                | None => ret (None, error)
                | Some text => ret (Some (RegistrationMarker text base_status user_status before), error)
                end
          end
      end
  end.

Definition read_marker_file (base_fd user_fd marker_fd : Z) (base_status user_status : stat) : files candidate :=
  let* before := fstat marker_fd in
  match before with
  | inr errno => failed LEGACY_REGISTRATION_MARKER_STAT_FAILED errno (lit "cannot inspect registration marker")
  | inl before =>
      match marker_file_refusal policy before with
      | Some (status, text) => failed status 0 text
      | None =>
          let size := st_size before in
          let* (result, buffer) :=
            read_exact fuel marker_fd (replicate (Z.to_nat (LEGACY_REGISTRATION_MARKER_MAX_SIZE + 1)) 0) size None in
          match result with
          | Some errno => failed LEGACY_REGISTRATION_MARKER_READ_FAILED errno (lit "cannot read registration marker")
          | None =>
              let* text := lift (buf_read buffer 0 size) in
              if existsb (Z.eqb 0) text then
                failed LEGACY_REGISTRATION_MARKER_INVALID_FORMAT 0 (lit "registration marker contains a NUL byte")
              else
                let* buffer := lift (buf_set buffer size 0) in
                check_and_parse base_fd user_fd marker_fd base_status user_status before buffer
          end
      end
  end.

Definition read_in_user_directory (base_fd user_fd : Z) (base_status : stat) : files candidate :=
  let* user_status := fstat user_fd in
  match user_status with
  | inr errno => failed LEGACY_REGISTRATION_MARKER_OPEN_USER_DIRECTORY_FAILED errno
                   (lit "cannot inspect legacy user directory")
  | inl user_status =>
      if negb (directory_policy_matches user_status (mp_user_directory policy)) then
        failed LEGACY_REGISTRATION_MARKER_USER_DIRECTORY_POLICY_MISMATCH 0
          (lit "legacy user directory violates policy")
      else
        let* marker_fd :=
          openat (Some user_fd) LEGACY_USERDB_MARKER_FILE
            (Z.lor (Z.lor (Z.lor O_RDONLY O_NONBLOCK) O_CLOEXEC) O_NOFOLLOW) in
        match marker_fd with
        | inr errno => failed LEGACY_REGISTRATION_MARKER_OPEN_FILE_FAILED errno
                         (lit "cannot open registration marker")
        | inl marker_fd =>
            let* r := read_marker_file base_fd user_fd marker_fd base_status user_status in
            do* close marker_fd in ret r
        end
  end.

Definition read_in_base_directory (base_fd : Z) : files candidate :=
  let* base_status := fstat base_fd in
  match base_status with
  | inr errno => failed LEGACY_REGISTRATION_MARKER_OPEN_BASE_FAILED errno
                   (lit "cannot inspect legacy users base directory")
  | inl base_status =>
      if negb (directory_policy_matches base_status (mp_base_directory policy)) then
        failed LEGACY_REGISTRATION_MARKER_BASE_POLICY_MISMATCH 0
          (lit "legacy users base directory violates policy")
      else
        let* user_fd := openat (Some base_fd) (cstr legacy_name) open_directory in
        match user_fd with
        | inr errno => failed LEGACY_REGISTRATION_MARKER_OPEN_USER_DIRECTORY_FAILED errno
                         (lit "cannot open legacy user directory")
        | inl user_fd =>
            let* r := read_in_user_directory base_fd user_fd base_status in
            do* close user_fd in ret r
        end
  end.
End reader.

(** The result, [*marker] and [*error]. *)
Definition legacy_registration_marker_read `{FileSystem} (fuel : nat) (bbs_users_directory legacy_name : ptr)
    (policy : option legacy_registration_marker_policy) (marker : option legacy_registration_marker)
    (error : option legacy_registration_marker_error)
    : prog file_event unit (Z * option legacy_registration_marker * option legacy_registration_marker_error) :=
  let marker := legacy_registration_marker_clear marker in
  let error := legacy_registration_marker_error_clear error in
  let* valid :=
    lift (absolute bbs_users_directory &&! legacy_userdb_legacy_name_is_valid legacy_name
          &&! Some (policy_is_valid policy && negb (is_null marker))) in
  if negb valid then
    ret (-1, marker, set_error error LEGACY_REGISTRATION_MARKER_INVALID_ARGUMENT Errno.EINVAL
                       (lit "invalid registration marker argument"))
  else
    let* legacy_name := lift (deref legacy_name) in
    let* policy := lift (deref policy) in
    let* base_fd := open_absolute_directory_nofollow bbs_users_directory in
    match base_fd with
    | inr errno =>
        ret (-1, marker, set_error error LEGACY_REGISTRATION_MARKER_OPEN_BASE_FAILED errno
                           (lit "cannot open legacy users base directory"))
    | inl base_fd =>
        let* (candidate, error) := read_in_base_directory fuel legacy_name policy error base_fd in
        do* close base_fd in
        match candidate with
        | None => ret (-1, marker, error)
        | Some candidate => ret (0, Some candidate, legacy_registration_marker_error_clear error)
        end
    end.

(** ** What an accepted marker is *)

(** A status that a policy for a directory admits. *)
Record directory_as_wanted (policy : legacy_userdb_directory_policy) (status : stat) : Prop := {
  dw_type : S_ISDIR (st_mode status) = true;
  dw_owner : dp_check_owner policy = true → st_uid status = dp_expected_uid policy;
  dw_group : dp_check_group policy = true → st_gid status = dp_expected_gid policy;
  dw_mode : dp_check_mode policy = true → Z.land (st_mode status) 0xfff = dp_expected_mode policy;
}.

(** A status that the policy admits for the file of a marker. *)
Record file_as_wanted (policy : legacy_registration_marker_policy) (status : stat) : Prop := {
  fw_type : S_ISREG (st_mode status) = true;
  fw_owner : mp_check_marker_owner policy = true → st_uid status = mp_expected_marker_uid policy;
  fw_group : mp_check_marker_group policy = true → st_gid status = mp_expected_marker_gid policy;
  fw_mode : mp_check_marker_mode policy = true → Z.land (st_mode status) 0xfff = mp_expected_marker_mode policy;
  fw_links : mp_require_single_link policy = true → st_nlink status = 1;
  fw_size : 0 < st_size status <= mp_max_size policy;
}.

Lemma directory_policy_matches_spec status policy :
  reflect (directory_as_wanted policy status) (directory_policy_matches status policy).
Proof.
  apply iff_reflect. unfold directory_policy_matches. rewrite !andb_true_iff, !orb_true_iff, !negb_true_iff, !Z.eqb_eq.
  split.
  - intros [? Ho Hg Hm]. split_and!; [done|destruct (dp_check_owner policy)|destruct (dp_check_group policy)
      |destruct (dp_check_mode policy)]; auto.
  - intros [[[? Ho] Hg] Hm]. split; [done|intros Hc; rewrite Hc in *; by intuition congruence..].
Qed.

Lemma marker_file_refusal_spec policy status :
  marker_file_refusal policy status = None ↔ file_as_wanted policy status.
Proof.
  unfold marker_file_refusal. split.
  - repeat (case_match; try done). intros _. bools. split; [done| | | | |lia]; intros Hc;
      repeat match goal with H : _ ∨ _ |- _ => destruct H end; bools; congruence.
  - intros [Ht Ho Hg Hm Hl Hs]. rewrite Ht. cbn [negb].
    destruct (mp_check_marker_owner policy); [rewrite Ho, Z.eqb_refl by done|]; cbn [negb andb];
    (destruct (mp_check_marker_group policy); [rewrite Hg, Z.eqb_refl by done|]; cbn [negb andb]);
    (destruct (mp_check_marker_mode policy); [rewrite Hm, Z.eqb_refl by done|]; cbn [negb andb]);
    (destruct (mp_require_single_link policy); [rewrite Hl by done|]; cbn [negb andb Z.eqb Pos.eqb]);
    by rewrite (proj2 (Z.leb_gt _ _)), (proj2 (Z.ltb_ge _ _)) by lia.
Qed.

(** Everything that is looked at. *)
Lemma file_snapshot_is_unchanged_spec before after :
  reflect (after = before) (file_snapshot_is_unchanged before after).
Proof.
  apply iff_reflect. unfold file_snapshot_is_unchanged, same_timestamp. rewrite !andb_true_iff, !Z.eqb_eq.
  destruct before as [? ? ? ? ? ? ? [] []], after as [? ? ? ? ? ? ? [] []]. cbn. split.
  - intros [= -> -> -> -> -> -> -> -> -> -> ->]. by split_and!.
  - intros H. by repeat match goal with H : _ ∧ _ |- _ => destruct H | _ => subst end.
Qed.

(** The flags of the file. *)
Definition open_marker : Z := Z.lor (Z.lor (Z.lor O_RDONLY O_NONBLOCK) O_CLOEXEC) O_NOFOLLOW.

(** The marker of [name] has been read from [fd]: it was as the policy wants it, its
    bytes are six lines that say what the record holds, and nothing of the path had
    changed when all had been read. *)
Inductive marker_read (name : list Z) (policy : legacy_registration_marker_policy)
    (base user fd : Z) : legacy_registration_marker → file_history → Prop :=
| marker_was_read base_status user_status status data tr keys m :
    directory_as_wanted (mp_base_directory policy) base_status →
    directory_as_wanted (mp_user_directory policy) user_status →
    file_as_wanted policy status →
    delivered fd (st_size status) None data tr → zlen data = st_size status → Forall (λ b, b ≠ 0) data →
    keys ≡ₚ all_keys → parsed name [] data keys cleared_marker m →
    marker_read name policy base user fd (RegistrationMarker m base_status user_status status)
      ([Fstat base (inl base_status); Fstat user (inl user_status); Fstat fd (inl status)] ++ tr ++
       [Fstat fd (inl status); OpenAt (Some user) LEGACY_USERDB_MARKER_FILE open_marker (inl fd);
        Fstat user (inl user_status); OpenAt (Some base) name open_directory (inl user);
        Fstat base (inl base_status)]).

(** Why there is no marker: the status, [errno] and what happened last before the
    descriptors were closed. *)
Inductive refused (name : list Z) (policy : legacy_registration_marker_policy)
    : legacy_registration_marker_status → Z → file_history → Prop :=
| refused_path h : refused name policy LEGACY_REGISTRATION_MARKER_OPEN_BASE_FAILED Errno.EINVAL h
| refused_open_base directory c errno h :
    refused name policy LEGACY_REGISTRATION_MARKER_OPEN_BASE_FAILED errno (OpenAt directory c open_directory (inr errno) :: h)
| refused_base_status base errno h :
    refused name policy LEGACY_REGISTRATION_MARKER_OPEN_BASE_FAILED errno (Fstat base (inr errno) :: h)
| refused_base base status h :
    ¬ directory_as_wanted (mp_base_directory policy) status →
    refused name policy LEGACY_REGISTRATION_MARKER_BASE_POLICY_MISMATCH 0 (Fstat base (inl status) :: h)
| refused_open_user base errno h :
    refused name policy LEGACY_REGISTRATION_MARKER_OPEN_USER_DIRECTORY_FAILED errno
      (OpenAt (Some base) name open_directory (inr errno) :: h)
| refused_user_status user errno h :
    refused name policy LEGACY_REGISTRATION_MARKER_OPEN_USER_DIRECTORY_FAILED errno (Fstat user (inr errno) :: h)
| refused_user user status h :
    ¬ directory_as_wanted (mp_user_directory policy) status →
    refused name policy LEGACY_REGISTRATION_MARKER_USER_DIRECTORY_POLICY_MISMATCH 0 (Fstat user (inl status) :: h)
| refused_open_file user errno h :
    refused name policy LEGACY_REGISTRATION_MARKER_OPEN_FILE_FAILED errno
      (OpenAt (Some user) LEGACY_USERDB_MARKER_FILE open_marker (inr errno) :: h)
| refused_status fd errno h :
    refused name policy LEGACY_REGISTRATION_MARKER_STAT_FAILED errno (Fstat fd (inr errno) :: h)
| refused_file fd before status text h :
    marker_file_refusal policy before = Some (status, text) → ¬ file_as_wanted policy before →
    refused name policy status 0 (Fstat fd (inl before) :: h)
| refused_read fd offset n errno h :
    errno ≠ Errno.EINTR →
    refused name policy LEGACY_REGISTRATION_MARKER_READ_FAILED errno (Read fd offset n (inr errno) :: h)
| refused_short fd offset n h :
    refused name policy LEGACY_REGISTRATION_MARKER_READ_FAILED Errno.EIO (Read fd offset n (inl []) :: h)
| refused_nul fd before data tr h :
    delivered fd (st_size before) None data tr → 0 ∈ data →
    refused name policy LEGACY_REGISTRATION_MARKER_INVALID_FORMAT 0 (tr ++ Fstat fd (inl before) :: h)
| refused_changed fd before after recent h :
    Fstat fd (inl before) ∈ h → after ≠ before →
    refused name policy LEGACY_REGISTRATION_MARKER_CHANGED_DURING_READ 0 (recent ++ Fstat fd (inl after) :: h)
| refused_text fd before data tr recent status errno h :
    delivered fd (st_size before) None data tr → zlen data = st_size before →
    (¬ ∃ keys m, keys ≡ₚ all_keys ∧ parsed name [] data keys cleared_marker m) →
    refused name policy status errno (recent ++ tr ++ Fstat fd (inl before) :: h).

(** An error is reported, with a reason, to a caller that asks for it. *)
Definition reported (name : list Z) (policy : legacy_registration_marker_policy)
    (error error' : option legacy_registration_marker_error) (h : file_history) : Prop :=
  ∃ status errno, status ≠ LEGACY_REGISTRATION_MARKER_OK ∧ refused name policy status errno (before_closing h) ∧
    match error with
    | None => error' = None
    | Some _ => ∃ text, error' = Some (MarkerError status errno text)
    end.

Section reader_proofs.
Context `{FileSystemLaws} (limit : nat) `{!Undisturbed limit} (start : file_history).
Context (fuel : nat) (name etail : list Z) (policy : legacy_registration_marker_policy)
  (error : option legacy_registration_marker_error).
Context (Hfuel : (Z.to_nat LEGACY_REGISTRATION_MARKER_MAX_SIZE + limit < fuel)%nat)
  (Hname : Forall (λ b, b ≠ 0) name) (Hpolicy : policy_is_valid (Some policy) = true).

(** A marker, or an error that says why there is none. *)
Definition marker_answer (fds : gset Z) (Q : legacy_registration_marker → file_history → Prop)
    (r : option legacy_registration_marker * option legacy_registration_marker_error) (_ : unit) (h : file_history) : Prop :=
  holding start fds h ∧
  match r with
  | (Some m, error') => error' = error ∧ Q m h
  | (None, error') => reported name policy error error' h
  end.

Lemma wp_failed fds Q status errno text s h :
  holding start fds h → status ≠ LEGACY_REGISTRATION_MARKER_OK → refused name policy status errno (before_closing h) →
  wp (λ _, False) (failed error status errno text) (marker_answer fds Q) s h.
Proof.
  intros Hh Hs Hr. unfold failed. wp_step. split; [done|]. exists status, errno. split; [done|]. split; [done|].
  destruct error; [by eexists|done].
Qed.

(** A step and the closing of a descriptor after it. *)
Lemma wp_closing fds fd (m : prog file_event unit (option legacy_registration_marker * option legacy_registration_marker_error))
    (P Q : legacy_registration_marker → file_history → Prop) s h :
  fd ∉ fds → (∀ x h, P x h → Q x (Close fd :: h)) →
  wp (λ _, False) m (marker_answer ({[fd]} ∪ fds) P) s h →
  wp (λ _, False) (let* r := m in do* close fd in ret r) (marker_answer fds Q) s h.
Proof.
  intros Hnew HQ Hm. wp_step. eapply wp_mono; [exact Hm|]. intros [r error'] s' h' [Hh Hanswer]. wp_step.
  eapply wp_close; [exact Hh|set_solver|]. replace (({[fd]} ∪ fds) ∖ {[fd]}) with fds by set_solver. intros Hh'.
  wp_step. split; [done|]. destruct r as [x|]; [|done]. destruct Hanswer as [-> HP]. split; [done|]. by apply HQ.
Qed.

Ltac fails := apply wp_failed; [done|done|by econstructor].

Lemma check_and_parse_spec fds base user fd base_status user_status before data tail tr s h :
  holding start fds (tr ++ Fstat fd (inl before) :: h) → {[base; user; fd]} ⊆ fds →
  delivered fd (st_size before) None data tr → zlen data = st_size before → Forall (λ b, b ≠ 0) data →
  Fstat user (inl user_status) ∈ h → Fstat base (inl base_status) ∈ h →
  wp (λ _, False) (check_and_parse (terminated name etail) error base user fd base_status user_status before (terminated data tail))
    (marker_answer fds (λ m h', ∃ keys t,
       m = RegistrationMarker t base_status user_status before ∧
       h' = [Fstat base (inl base_status); Fstat user (inl user_status); Fstat fd (inl before)] ++ tr ++ Fstat fd (inl before) :: h ∧
       keys ≡ₚ all_keys ∧ parsed name [] data keys cleared_marker t)) s (tr ++ Fstat fd (inl before) :: h).
Proof.
  intros Hh Hfds Htr Hlen Hdata Huser Hbase. unfold check_and_parse.
  wp_step. eapply wp_fstat; [exact Hh|set_solver|]. intros [after|errno] Hh1; [|fails].
  wp_step. eapply wp_fstat; [exact Hh1|set_solver|]. intros [user_after|errno] Hh2; [|fails].
  wp_step. eapply wp_fstat; [exact Hh2|set_solver|]. intros [base_after|errno] Hh3; [|fails].
  destruct (file_snapshot_is_unchanged_spec before after) as [->|Hb]; cbn [negb orb].
  2: { apply wp_failed; [done..|].
       apply (refused_changed name policy fd before after [Fstat base (inl base_after); Fstat user (inl user_after)]); [|done].
       set_solver. }
  destruct (file_snapshot_is_unchanged_spec user_status user_after) as [->|Hu]; cbn [negb orb].
  2: { apply wp_failed; [done..|].
       apply (refused_changed name policy user user_status user_after [Fstat base (inl base_after)]); [|done]. set_solver. }
  destruct (file_snapshot_is_unchanged_spec base_status base_after) as [->|Ha]; cbn [negb orb].
  2: { apply wp_failed; [done..|].
       apply (refused_changed name policy base base_status base_after []); [|done]. set_solver. }
  destruct (parse_marker_text_spec data tail name etail cleared_marker error Hdata Hname) as (r & error' & Hp & Hr & Herr).
  wp_step. eapply wp_lift; [exact Hp|]. cbv beta iota. destruct r as [t|]; wp_step; (split; [done|]).
  - destruct (proj1 (Hr t) eq_refl) as (keys & Hkeys & Hparsed).
    split; [done|]. by exists keys, t.
  - assert (∀ status errno, refused name policy status errno
      ([Fstat base (inl base_status); Fstat user (inl user_status); Fstat fd (inl before)] ++ tr ++ Fstat fd (inl before) :: h)) as Href.
    { intros status errno. eapply refused_text; [done..|]. intros (keys & t & Ht).
      assert (None = Some t) by (apply Hr; by exists keys). done. }
    unfold reported. unfold marker_reported in Herr. destruct error as [e0|].
    + destruct Herr as ([status errno text] & -> & Hs). exists status, errno. split; [done|]. split; [apply Href|by exists text].
    + exists LEGACY_REGISTRATION_MARKER_INVALID_FORMAT, 0. split; [done|]. split; [apply Href|done].
Qed.

Lemma refusal_reported before status text :
  marker_file_refusal policy before = Some (status, text) → status ≠ LEGACY_REGISTRATION_MARKER_OK.
Proof. unfold marker_file_refusal. repeat (case_match; try by intros [= <- <-]). Qed.

Lemma refusal_size before :
  file_as_wanted policy before → 0 < st_size before <= LEGACY_REGISTRATION_MARKER_MAX_SIZE.
Proof. intros Hw. pose proof (fw_size _ _ Hw). unfold policy_is_valid in Hpolicy. bools. lia. Qed.

Lemma nul_free data : existsb (Z.eqb 0) data = false ↔ Forall (λ b, b ≠ 0) data.
Proof.
  induction data as [|b data IH]; [by split; [constructor|]|]. cbn [existsb]. rewrite orb_false_iff, IH, Forall_cons.
  rewrite Z.eqb_neq. split; intros [? ?]; by split; [apply not_eq_sym|].
Qed.

Lemma nul_found data : existsb (Z.eqb 0) data = true → 0 ∈ data.
Proof. intros (b & Hb & ->%Z.eqb_eq)%existsb_exists. by apply list_elem_of_In. Qed.

Lemma read_marker_file_spec fds base user fd base_status user_status s h :
  holding start fds h → {[base; user; fd]} ⊆ fds → Fstat user (inl user_status) ∈ h → Fstat base (inl base_status) ∈ h →
  wp (λ _, False) (read_marker_file fuel (terminated name etail) policy error base user fd base_status user_status)
    (marker_answer fds (λ m h', ∃ before data tr keys t,
       m = RegistrationMarker t base_status user_status before ∧
       h' = [Fstat base (inl base_status); Fstat user (inl user_status); Fstat fd (inl before)] ++ tr ++
            Fstat fd (inl before) :: h ∧
       file_as_wanted policy before ∧
       delivered fd (st_size before) None data tr ∧ zlen data = st_size before ∧ Forall (λ b, b ≠ 0) data ∧
       keys ≡ₚ all_keys ∧ parsed name [] data keys cleared_marker t)) s h.
Proof.
  intros Hh Hfds Huser Hbase. unfold read_marker_file.
  wp_step. eapply wp_fstat; [exact Hh|set_solver|]. intros [before|errno] Hh1; [|fails].
  destruct (marker_file_refusal policy before) as [[status text]|] eqn:Href.
  { apply wp_failed; [done|by eapply refusal_reported|]. econstructor; [done|].
    rewrite <- marker_file_refusal_spec. congruence. }
  apply marker_file_refusal_spec in Href. pose proof (refusal_size before Href) as Hsize. change LEGACY_REGISTRATION_MARKER_MAX_SIZE with 320 in *.
  wp_step. set (buffer := replicate _ 0).
  assert (zlen buffer = 321) as Hbuffer by (unfold buffer, zlen; by rewrite length_replicate).
  eapply wp_mono.
  { apply (read_exact_spec limit start fuel fds fd buffer (st_size before) None); [done|set_solver|lia|].
    unfold read_patience. lia. }
  cbv beta. intros [[errno|] buffer'] s2 h2 (Hh2 & Hlen & _ & Hread).
  { destruct Hread as (tr & -> & data & tr0 & _ & _ & [[Hother ->]|[-> ->]]); fails. }
  destruct Hread as (data & tr & -> & Htr & Hdata & _ & ->).
  wp_step. eapply wp_lift; [rewrite <- Hdata; apply buf_read_prefix|].
  destruct (existsb (Z.eqb 0) data) eqn:Hnul.
  { apply wp_failed; [done..|]. erewrite delivered_before_closing by done. econstructor; [done|by apply nul_found]. }
  apply nul_free in Hnul. destruct (drop (Z.to_nat (st_size before)) buffer) as [|x rest] eqn:Hrest.
  { apply (f_equal (@length Z)) in Hrest. rewrite length_drop in Hrest. unfold zlen in Hbuffer. cbn in Hrest. lia. }
  wp_step. eapply wp_lift; [rewrite <- Hdata; apply buf_set_app|].
  eapply wp_mono; [by apply (check_and_parse_spec fds base user fd base_status user_status before data rest tr s2 h)|].
  intros [[m|] error'] s3 h3 [Hh3 Hanswer]; (split; [done|]); [|done].
  destruct Hanswer as [-> (keys & t & -> & -> & Hkeys & Hparsed)].
  split; [done|]. exists before, data, tr, keys, t. do 5 (split; [done|]). by split_and!.
Qed.

Lemma read_in_user_directory_spec fds base user base_status s h :
  holding start fds h → {[base; user]} ⊆ fds → Fstat base (inl base_status) ∈ h →
  directory_as_wanted (mp_base_directory policy) base_status →
  wp (λ _, False) (read_in_user_directory fuel (terminated name etail) policy error base user base_status)
    (marker_answer fds (λ m h', ∃ fd tr,
       h' = Close fd :: tr ++ h ∧
       marker_read name policy base user fd m
         (tr ++ [OpenAt (Some base) name open_directory (inl user); Fstat base (inl base_status)]))) s h.
Proof.
  intros Hh Hfds Hin Hbase. unfold read_in_user_directory.
  wp_step. eapply wp_fstat; [exact Hh|set_solver|]. intros [user_status|errno] Hh1; [|fails].
  destruct (directory_policy_matches_spec user_status (mp_user_directory policy)) as [Huser|Huser]; cbn [negb]; [|fails].
  wp_step. eapply wp_openat; [exact Hh1|intros ? [= <-]; set_solver| |intros errno Hh2; fails].
  intros fd Hnew _ Hh2. eapply wp_closing; [exact Hnew| |apply (read_marker_file_spec _ base user fd base_status user_status); [exact Hh2|set_solver|set_solver|set_solver]].
  intros m h3 (before & data & tr & keys & t & -> & -> & Hm).
  eexists fd, ([Fstat base (inl base_status); Fstat user (inl user_status); Fstat fd (inl before)] ++ tr ++
    [Fstat fd (inl before); OpenAt (Some user) LEGACY_USERDB_MARKER_FILE open_marker (inl fd); Fstat user (inl user_status)]).
  split; [by rewrite <- !app_assoc|]. rewrite <- !app_assoc. cbn [app].
  destruct Hm as (? & ? & ? & ? & ? & ?). by econstructor.
Qed.

Lemma read_in_base_directory_spec fds base s h :
  holding start fds h → {[base]} ⊆ fds →
  wp (λ _, False) (read_in_base_directory fuel (terminated name etail) policy error base)
    (marker_answer fds (λ m h', ∃ user fd tr,
       h' = Close user :: Close fd :: tr ++ h ∧ marker_read name policy base user fd m tr)) s h.
Proof.
  intros Hh Hfds. unfold read_in_base_directory.
  wp_step. eapply wp_fstat; [exact Hh|set_solver|]. intros [base_status|errno] Hh1; [|fails].
  destruct (directory_policy_matches_spec base_status (mp_base_directory policy)) as [Hbase|Hbase]; cbn [negb]; [|fails].
  assert (cstr (terminated name etail) = name) as -> by (unfold terminated; by apply cstr_app_zero).
  wp_step. eapply wp_openat; [exact Hh1|intros ? [= <-]; set_solver| |intros errno Hh2; fails].
  intros user Hnew _ Hh2. eapply wp_closing; [exact Hnew| |apply (read_in_user_directory_spec _ base user base_status); [exact Hh2|set_solver|set_solver|done]].
  intros m h3 (fd & tr & -> & Hm).
  exists user, fd, (tr ++ [OpenAt (Some base) name open_directory (inl user); Fstat base (inl base_status)]).
  split; [|done]. by rewrite <- app_assoc.
Qed.
End reader_proofs.

(** The marker has been read and every descriptor been closed. *)
Definition marker_found (directory name : list Z) (policy : legacy_registration_marker_policy)
    (m : legacy_registration_marker) (h h' : file_history) : Prop :=
  ∃ components root walk base user fd tr,
    directory = path_of components ∧ components ≠ [] ∧ Forall component components ∧ walks root components base walk ∧
    marker_read name policy base user fd m tr ∧
    h' = [Close base; Close user; Close fd] ++ tr ++ walk ++ OpenAt None (lit "/") open_directory (inl root) :: h.

Definition arguments_valid (directory name : list Z) (policy : option legacy_registration_marker_policy)
    (marker : option legacy_registration_marker) : bool :=
  bool_decide (directory !! 0%nat = Some (chr "/")) && legacy_name name && policy_is_valid policy && negb (is_null marker).

(** The result, [*marker], [*error] and the history of a call. *)
Inductive read_outcome (directory name : list Z) (marker : option legacy_registration_marker)
    (error : option legacy_registration_marker_error) (h : file_history)
    : option legacy_registration_marker_policy →
      Z * option legacy_registration_marker * option legacy_registration_marker_error → file_history → Prop :=
| read_invalid policy :
    arguments_valid directory name policy marker = false →
    read_outcome directory name marker error h policy
      (-1, legacy_registration_marker_clear marker,
       set_error error LEGACY_REGISTRATION_MARKER_INVALID_ARGUMENT Errno.EINVAL (lit "invalid registration marker argument")) h
| read_refused policy error' h' :
    arguments_valid directory name (Some policy) marker = true → reported name policy error error' h' →
    read_outcome directory name marker error h (Some policy) (-1, legacy_registration_marker_clear marker, error') h'
| read_found policy m h' :
    arguments_valid directory name (Some policy) marker = true →
    marker_found directory name policy m h h' → marker_ok name (rm_text m) →
    read_outcome directory name marker error h (Some policy) (0, Some m, legacy_registration_marker_error_clear error) h'.

(** C11: the reader of a marker ends whatever the file system answers; it opens the
    directory of the legacy users component by component, then the directory of the
    user, then the marker, each in the one before and without following links, uses
    only descriptors that it has opened and closes each of them. It succeeds only
    with a marker that was as the policy wants it in directories as the policy wants
    them, that was read as a whole, whose text says what the result holds, and
    none of whose inodes had changed in between; otherwise it leaves no marker and
    reports the check or the call that failed. *)
Theorem marker_read_correct `{FileSystemLaws} (limit : nat) `{!Undisturbed limit} (fuel : nat)
    directory dtail name ntail policy marker error h :
  Forall (λ b, b ≠ 0) directory → Forall (λ b, b ≠ 0) name →
  (Z.to_nat LEGACY_REGISTRATION_MARKER_MAX_SIZE + limit < fuel)%nat →
  wp (λ _, False)
    (legacy_registration_marker_read fuel (Some (terminated directory dtail)) (Some (terminated name ntail)) policy marker error)
    (λ r _ h', proper h h' ∧ open_fds h' = open_fds h ∧ read_outcome directory name marker error h policy r h') tt h.
Proof.
  intros Hdir Hname Hfuel. unfold legacy_registration_marker_read. cbv zeta.
  set (error0 := legacy_registration_marker_error_clear error).
  assert (set_error error0 = set_error error) as Hset by by destruct error.
  assert (∀ p error' h', reported name p error0 error' h' → reported name p error error' h') as Hrep by by destruct error.
  wp_step. eapply (wp_lift _ _ (arguments_valid directory name policy marker)).
  { unfold arguments_valid. rewrite legacy_userdb_legacy_name_spec by done. unfold absolute, terminated.
    destruct directory as [|x directory]; [done|]. cbn [app]. rewrite buf_get_head. run_simpl. cbn [lookup list_lookup].
    destruct (Z.eqb_spec x (chr "/")) as [->|Hx]; [rewrite bool_decide_true by done|rewrite bool_decide_false by congruence; done].
    run_simpl. cbn [andb]. destruct (legacy_name name); [|done]. by destruct policy, marker. }
  destruct (arguments_valid _ _ _ _) eqn:Hvalid; cbn [negb].
  2: { wp_step. split; [constructor|]. split; [done|]. rewrite Hset. by constructor. }
  assert (∃ p, policy = Some p) as [p ->].
  { destruct policy; [by eexists|]. unfold arguments_valid in Hvalid. bools. done. }
  assert (policy_is_valid (Some p) = true) as Hpolicy by (unfold arguments_valid in Hvalid; bools; done).
  wp_step. eapply wp_lift; [reflexivity|]. wp_step. eapply wp_lift; [reflexivity|].
  wp_step. eapply wp_mono; [apply (open_absolute_directory_spec _ h); [done|apply holding_start]|].
  intros [base|errno] s1 h1.
  2: { intros [[Hproper Hopen]%holding_end Hfailed]. wp_step. split; [done|]. split; [done|]. constructor; [done|].
       rewrite Hset. exists LEGACY_REGISTRATION_MARKER_OPEN_BASE_FAILED, errno. split; [done|]. split.
       - destruct Hfailed as [->|(dir & c & h0 & ->)]; constructor.
       - destruct error; [by eexists|done]. }
  intros (components & root & walk & -> & Hne & Hcomponents & Hwalk & -> & _ & Hh). 
  wp_step. eapply wp_mono.
  { eapply (read_in_base_directory_spec limit h fuel name ntail p error0 Hfuel Hname Hpolicy {[base]} base);
      [exact Hh|done]. }
  intros [r error'] s2 h2 [Hh2 Hanswer]. wp_step. eapply wp_close; [exact Hh2|set_solver|].
  replace ({[base]} ∖ {[base]} : gset Z) with (∅ : gset Z) by set_solver. intros [Hproper Hopen]%holding_end.
  destruct r as [m|]; wp_step; (split; [done|]; split; [done|]).
  - destruct Hanswer as [-> (user & fd & tr & -> & Hm)].
    assert (legacy_registration_marker_error_clear error0 = legacy_registration_marker_error_clear error) as -> by by destruct error.
    constructor; [done| |].
    + exists components, root, walk, base, user, fd, tr. do 5 (split; [done|]). done.
    + inversion Hm; subst. eapply parsed_marker_ok; [|done|done]. literal.
  - constructor; [done|]. by apply Hrep.
Qed.

(** ** An example *)

Definition example_text : list Z :=
  match build_marker example_prepared (state_text LEGACY_REGISTRATION_MARKER_PREPARED) with
  | Some (Some text) => text
  | _ => []
  end.

Definition example_status (is_file : bool) (change : Z) : stat :=
  if is_file then Stat 1 3 (zlen example_text) 1000 100 0x8180 1 (101, 0) (101, change)
  else Stat 1 2 4096 1000 100 0x41ed 3 (100, 0) (100, 0).

(** The name that a descriptor has been opened with. *)
Fixpoint opened_name (h : file_history) (fd : Z) : list Z :=
  match h with
  | [] => []
  | OpenAt _ name _ (inl fd') :: h => if fd =? fd' then name else opened_name h fd
  | _ :: h => opened_name h fd
  end.

Fixpoint bytes_read (h : file_history) (fd : Z) : nat :=
  match h with
  | [] => 0
  | Read fd' _ _ (inl bytes) :: h => if fd =? fd' then length bytes + bytes_read h fd else bytes_read h fd
  | _ :: h => bytes_read h fd
  end.

(** A system with the marker [/users/alice/.fortytwo-registration], which is delivered
    in parts of at most 100 bytes; with [touched] another process changes it when all
    has been read. *)
Definition example_system (touched : bool) : FileSystem := {|
  fs_open h directory name flags :=
    if bool_decide (name = lit "bob") then inr 2
    else inl (Z.of_nat (fresh (set_map Z.to_nat (open_fds h) : gset nat)));
  fs_fstat h fd :=
    let is_file := bool_decide (opened_name h fd = LEGACY_USERDB_MARKER_FILE) in
    inl (example_status is_file (if touched then Z.of_nat (bytes_read h fd) else 0));
  fs_read h fd offset n :=
    if n <? 0 then inr Errno.EINVAL
    else inl (take (Z.to_nat (Z.min n 100)) (drop (bytes_read h fd) example_text));
  fs_lock h fd := None;
  fs_calloc h count size := None;
|}.

Lemma example_text_ok : bytes_ok example_text.
Proof. literal. Qed.

#[export] Instance example_system_laws touched : @FileSystemLaws (example_system touched).
Proof.
  split.
  - cbn. intros h directory name flags fd. case_bool_decide; [done|]. intros [= <-]. split; [lia|]. intros Hin.
    destruct (is_fresh (set_map Z.to_nat (open_fds h) : gset nat)). apply elem_of_map. eexists. split; [|exact Hin]. lia.
  - cbn. intros h fd offset n bytes. destruct (Z.ltb_spec n 0); [done|]. intros [= <-]. split.
    + apply Forall_take, Forall_drop, example_text_ok.
    + unfold zlen. rewrite length_take. lia.
Qed.

#[export] Instance example_system_undisturbed touched : @Undisturbed (example_system touched) 0.
Proof. intros h fd offset n. cbn. by destruct (n <? 0). Qed.

Definition example_directory_policy : legacy_userdb_directory_policy := DirectoryPolicy true 1000 false 0 true 0x1ed.
Definition example_policy : legacy_registration_marker_policy :=
  MarkerPolicy example_directory_policy example_directory_policy true 1000 true 100 true 0x180 true 320.

Definition example_read (touched : bool) (name : list Z) :=
  @legacy_registration_marker_read (example_system touched) 321 (Some (terminated (lit "/users") []))
    (Some (terminated name [])) (Some example_policy) (Some zero_marker) None.

(** The code, the record number and the statuses that were read, and the events. *)
Definition example_result (touched : bool) (name : list Z) : option (Z * Z * nat) :=
  let! o := example_read touched name tt [] in
  match o with
  | Done (code, marker, _) _ h => let! m := marker in Some (code, mt_record_number (rm_text m), length h)
  | Exhausted _ => None
  end.

(** The marker of alice is found, that of bob is not; a marker that is changed
    meanwhile is refused. *)
Lemma marker_read_correct_witness :
  wp (λ _, False) (example_read false (lit "alice"))
    (λ r _ h', proper [] h' ∧ open_fds h' = ∅ ∧
       read_outcome (lit "/users") (lit "alice") (Some zero_marker) None [] (Some example_policy) r h') tt [] ∧
  example_result false (lit "alice") = Some (0, 7, 16%nat) ∧
  example_result false (lit "bob") = Some (-1, 0, 6%nat) ∧
  example_result true (lit "alice") = Some (-1, 0, 16%nat).
Proof.
  split_and!; [|vm_compute; reflexivity..].
  refine (@marker_read_correct (example_system false) _ 0 _ 321 (lit "/users") [] (lit "alice") [] (Some example_policy)
            (Some zero_marker) None [] _ _ _); [literal|literal|change (Z.to_nat _) with 320%nat; lia].
Defined.
