(* ===== verification/UserdbScan.v ===== *)
(** * Reading the legacy user database

    The rest of [fortytwo-auth/src/legacy_userdb.c]: the file [users.data] is opened
    without following links, checked and locked, its header is compared with the
    layout of this build, and its records are read one after the other, to look for
    names or to make a snapshot for an audit. *)

From Stdlib Require Import Sorted.
From stdpp Require Import gmap lexico.
From S2P Require Import Prelude Utf8 Program LegacyUserdb FileSystem LegacyNames LegacyProvision LegacyMarker.

(** ** Data *)

Definition LEGACY_USERDB_HANDLE_MAX : Z := 35.

Record legacy_userdb_query := UserdbQuery {
  uq_legacy_name : ptr;
  uq_display_name : ptr;
}.

Record legacy_userdb_scan_result := ScanResult {
  sr_record_count : Z;
  sr_legacy_name_exists : bool;
  sr_legacy_name_record : Z;
  sr_display_name_exists : bool;
  sr_display_name_record : Z;
  sr_handle_exists : bool;
  sr_handle_record : Z;
}.

Record legacy_userdb_audit_record := AuditRecord {
  ar_record_number : Z;
  ar_legacy_name : list Z;
  ar_display_name : list Z;
  ar_handle : list Z;
  ar_empty : bool;
  ar_deleted : bool;
  ar_locked_out : bool;
  ar_registration_marker_present : bool;
  ar_registration_id : list Z;
}.

Record legacy_userdb_audit_snapshot := AuditSnapshot {
  as_records : option (list legacy_userdb_audit_record);
  as_record_count : Z;
  as_file_status : stat;
  as_header_size : Z;
  as_record_size : Z;
}.

Record legacy_name_entry := NameEntry {
  ne_name : list Z;
  ne_record_number : Z;
}.

Definition cleared_snapshot : legacy_userdb_audit_snapshot := AuditSnapshot None 0 zero_stat 0 0.
Definition zero_audit_record : legacy_userdb_audit_record :=
  AuditRecord 0 (zeros (LEGACY_USERDB_LEGACY_NAME_MAX + 1)) (zeros (LEGACY_USERDB_DISPLAY_NAME_MAX + 1))
    (zeros (LEGACY_USERDB_HANDLE_MAX + 1)) false false false false (zeros LEGACY_USERDB_UUID_SIZE).
Definition zero_entry : legacy_name_entry := NameEntry (zeros (LEGACY_USERDB_LEGACY_NAME_MAX + 1)) 0.

Definition legacy_userdb_audit_snapshot_clear (snapshot : option legacy_userdb_audit_snapshot)
    : option legacy_userdb_audit_snapshot := (λ _, cleared_snapshot) <$> snapshot.

(** [geteuid] and [getegid] are those of the process. *)
Definition legacy_userdb_policy_defaults (geteuid getegid : Z) (policy : option legacy_userdb_policy)
    : option legacy_userdb_policy :=
  (λ _, UserdbPolicy true geteuid true getegid true 0x1b0 true LEGACY_USERDB_DEFAULT_MAX_RECORDS) <$> policy.

(** The sizes of the two structures in bytes. *)
Definition sizeof_name_entry : Z := 24.
Definition sizeof_audit_record : Z := 112.

(** The result without findings. *)
Definition cleared_scan (record_count : Z) : legacy_userdb_scan_result :=
  ScanResult record_count false LEGACY_USERDB_NO_RECORD false LEGACY_USERDB_NO_RECORD false LEGACY_USERDB_NO_RECORD.

Definition set_sr_record_count v (r : legacy_userdb_scan_result) : legacy_userdb_scan_result :=
  ScanResult v (sr_legacy_name_exists r) (sr_legacy_name_record r) (sr_display_name_exists r)
    (sr_display_name_record r) (sr_handle_exists r) (sr_handle_record r).
Definition set_sr_legacy_name v (r : legacy_userdb_scan_result) : legacy_userdb_scan_result :=
  ScanResult (sr_record_count r) true v (sr_display_name_exists r) (sr_display_name_record r)
    (sr_handle_exists r) (sr_handle_record r).
Definition set_sr_display_name v (r : legacy_userdb_scan_result) : legacy_userdb_scan_result :=
  ScanResult (sr_record_count r) (sr_legacy_name_exists r) (sr_legacy_name_record r) true v
    (sr_handle_exists r) (sr_handle_record r).
Definition set_sr_handle v (r : legacy_userdb_scan_result) : legacy_userdb_scan_result :=
  ScanResult (sr_record_count r) (sr_legacy_name_exists r) (sr_legacy_name_record r)
    (sr_display_name_exists r) (sr_display_name_record r) true v.

(** ** Helpers *)

Definition set_error (error : option legacy_userdb_error) (status : legacy_userdb_status)
    (system_errno record_number : Z) (text : list Z) : option legacy_userdb_error :=
  (λ _, UserdbError status system_errno record_number false
          (text ++ zeros (LEGACY_USERDB_ERROR_TEXT_SIZE - zlen text))) <$> error.

Definition file_snapshot_is_unchanged (before after : stat) : bool :=
  (st_dev before =? st_dev after) && (st_ino before =? st_ino after) && (st_size before =? st_size after)
  && same_timestamp (st_mtim before) (st_mtim after) && same_timestamp (st_ctim before) (st_ctim after).

Definition policy_is_valid (policy : option legacy_userdb_policy) : bool :=
  match policy with
  | None => false
  | Some p =>
      (0 <? up_max_records p) && (up_max_records p <=? LEGACY_USERDB_DEFAULT_MAX_RECORDS)
      && (negb (up_check_mode p) || (Z.land (up_expected_mode p) (u32 (Z.lnot 0xfff)) =? 0))
  end.

Definition query_is_valid (query : option legacy_userdb_query) : run bool :=
  match query with
  | None => Some true
  | Some q =>
      let! legacy_name :=
        if is_null (uq_legacy_name q) then Some true else legacy_userdb_legacy_name_is_valid (uq_legacy_name q) in
      if negb legacy_name then Some false
      else
        let! display_name :=
          if is_null (uq_display_name q) then Some true
          else legacy_userdb_display_name_is_compatible (uq_display_name q) in
        if negb display_name then Some false
        else Some (negb (is_null (uq_legacy_name q)) || negb (is_null (uq_display_name q)))
  end.

(** The members of [struct userhdr], and [int]s of this machine. *)
Definition hdrsize : Z * Z := (0, 4).
Definition recsize : Z * Z := (4, 4).

Definition read_int (bytes : list Z) (m : Z * Z) : run Z :=
  let! b0 := buf_get bytes m.1 in
  let! b1 := buf_get bytes (m.1 + 1) in
  let! b2 := buf_get bytes (m.1 + 2) in
  let! b3 := buf_get bytes (m.1 + 3) in
  let v := b0 + 256 * (b1 + 256 * (b2 + 256 * b3)) in
  Some (if v <? 2 ^ 31 then v else v - 2 ^ 32).

(** A member of one bit. *)
Definition get_bit (record : list Z) (m : Z * Z) : run bool :=
  let! byte := buf_get record m.1 in Some (Z.testbit byte m.2).

(** ** Names *)

Definition legacy_name_entry_compare (left right : legacy_name_entry) : run Z :=
  let! comparison := ascii_case_compare (ne_name left) (ne_name right) in
  Some (if negb (comparison =? 0) then comparison
        else if ne_record_number left <? ne_record_number right then -1
        else if ne_record_number right <? ne_record_number left then 1
        else 0).

(** [qsort]; the comparison determines the result. *)
Fixpoint sorted_insert (e : legacy_name_entry) (l : list legacy_name_entry) : run (list legacy_name_entry) :=
  match l with
  | [] => Some [e]
  | e' :: l' =>
      let! comparison := legacy_name_entry_compare e e' in
      if comparison <=? 0 then Some (e :: l) else let! l' := sorted_insert e l' in Some (e' :: l')
  end.

Fixpoint qsort (l : list legacy_name_entry) : run (list legacy_name_entry) :=
  match l with
  | [] => Some []
  | e :: l => let! l := qsort l in sorted_insert e l
  end.

(** The loop over the sorted entries: the number of a record with the name of another. *)
Fixpoint find_duplicate (previous : legacy_name_entry) (l : list legacy_name_entry) : run (option Z) :=
  match l with
  | [] => Some None
  | e :: l =>
      let! comparison := ascii_case_compare (ne_name previous) (ne_name e) in
      if comparison =? 0 then Some (Some (ne_record_number e)) else find_duplicate e l
  end.

(** ** The file *)

Section reader.
Context `{FileSystem} (fuel : nat).

Abbreviation files := (prog file_event unit) (only parsing).
Abbreviation error_pointer := (option legacy_userdb_error) (only parsing).

(** A value, or [*error] after a failure. *)
Definition failed {A} (error : error_pointer) (status : legacy_userdb_status) (system_errno record_number : Z)
    (text : list Z) : files (A + error_pointer) :=
  ret (inr (set_error error status system_errno record_number text)).

(** The tests of the status of the file in their order: the first that refuses it. *)
Definition users_file_refusal (policy : legacy_userdb_policy) (file_status : stat)
    : option (legacy_userdb_status * list Z) :=
  if negb (S_ISREG (st_mode file_status)) then
    Some (LEGACY_USERDB_NOT_REGULAR, lit "legacy users database is not a regular file")
  else if up_check_owner policy && negb (st_uid file_status =? up_expected_uid policy) then
    Some (LEGACY_USERDB_OWNER_MISMATCH, lit "legacy users database owner does not match policy")
  else if up_check_group policy && negb (st_gid file_status =? up_expected_gid policy) then
    Some (LEGACY_USERDB_GROUP_MISMATCH, lit "legacy users database group does not match policy")
  else if up_check_mode policy && negb (Z.land (st_mode file_status) 0xfff =? up_expected_mode policy) then
    Some (LEGACY_USERDB_MODE_MISMATCH, lit "legacy users database mode does not match policy")
  else if up_require_single_link policy && negb (st_nlink file_status =? 1) then
    Some (LEGACY_USERDB_LINK_COUNT_MISMATCH, lit "legacy users database has an unexpected link count")
  else None.

(** The status of the file when it has been checked and locked. *)
Definition check_users_file (policy : legacy_userdb_policy) (users_fd : Z) (error : error_pointer)
    : files (stat + error_pointer) :=
  let* file_status := fstat users_fd in
  match file_status with
  | inr errno => failed error LEGACY_USERDB_STAT_FAILED errno LEGACY_USERDB_NO_RECORD
                   (lit "cannot inspect legacy users database")
  | inl file_status =>
      match users_file_refusal policy file_status with
      | Some (status, text) => failed error status 0 LEGACY_USERDB_NO_RECORD text
      | None =>
          let* locked := lock users_fd in
          match locked with
          | Some errno =>
              if (errno =? Errno.EACCES) || (errno =? Errno.EAGAIN)
              then failed error LEGACY_USERDB_BUSY errno LEGACY_USERDB_NO_RECORD
                     (lit "legacy users database is locked")
              else failed error LEGACY_USERDB_LOCK_FAILED errno LEGACY_USERDB_NO_RECORD
                     (lit "cannot lock legacy users database")
          | None => ret (inl file_status)
          end
      end
  end.

(** From [openat(etc_fd, ...)] on; the file is closed after a failure. *)
Definition open_in_etc (policy : legacy_userdb_policy) (etc_fd : Z) (error : error_pointer)
    : files (Z * stat + error_pointer) :=
  let* users_fd :=
    openat (Some etc_fd) (lit "users.data") (Z.lor (Z.lor O_RDONLY O_CLOEXEC) O_NOFOLLOW) in
  match users_fd with
  | inr errno => failed error LEGACY_USERDB_OPEN_FILE_FAILED errno LEGACY_USERDB_NO_RECORD
                   (lit "cannot open legacy users database")
  | inl users_fd =>
      let* r := check_users_file policy users_fd error in
      match r with
      | inl file_status => ret (inl (users_fd, file_status))
      | inr error => do* close users_fd in ret (inr error)
      end
  end.

(** The descriptor and [*snapshot]. *)
Definition open_users_file (mbse_root : list Z) (policy : legacy_userdb_policy) (error : error_pointer)
    : files (Z * stat + error_pointer) :=
  let* root_fd := openat None (cstr mbse_root) open_directory in
  match root_fd with
  | inr errno => failed error LEGACY_USERDB_OPEN_ROOT_FAILED errno LEGACY_USERDB_NO_RECORD
                   (lit "cannot open MBSE root directory")
  | inl root_fd =>
      let* etc_fd := openat (Some root_fd) (lit "etc") open_directory in
      match etc_fd with
      | inr errno =>
          let error := set_error error LEGACY_USERDB_OPEN_ETC_FAILED errno LEGACY_USERDB_NO_RECORD
                         (lit "cannot open MBSE etc directory") in
          do* close root_fd in ret (inr error)
      | inl etc_fd =>
          let* r := open_in_etc policy etc_fd error in
          do* close etc_fd in
          do* close root_fd in
          ret r
      end
  end.

(** ** Records *)

(** What the loop changes: the entries used so far, [*result] and the audit records. *)
Record scan := Scan {
  sc_names : list legacy_name_entry;
  sc_result : legacy_userdb_scan_result;
  sc_audits : option (list legacy_userdb_audit_record);
}.

Definition record_is_terminated (record : list Z) : bool :=
  let terminated m := fixed_text_is_terminated (text_member record m) m.2 in
  terminated userrec.Name && terminated userrec.sUserName && terminated userrec.sHandle
  && terminated userrec.sComment && terminated userrec.Password.

(** The audit record, and whether the marker in the comment is valid. *)
Definition audit_of (record : list Z) (record_number : Z) : run (legacy_userdb_audit_record * bool) :=
  let zero := zero_audit_record in
  let! name_first := buf_get (text_member record userrec.Name) 0 in
  let! deleted := get_bit record userrec.Deleted in
  let! locked_out := get_bit record userrec.LockedOut in
  let! (parsed, present, registration_id) :=
    parse_record_registration_marker (text_member record userrec.sComment) in
  Some (AuditRecord record_number (snprintf_s (ar_legacy_name zero) (text_member record userrec.Name))
          (snprintf_s (ar_display_name zero) (text_member record userrec.sUserName))
          (snprintf_s (ar_handle zero) (text_member record userrec.sHandle))
          (name_first =? 0) deleted locked_out present registration_id, parsed =? 0).

(** [ascii_case_compare(text, name) == 0], if there is a name. *)
Definition matches (text : list Z) (name : ptr) : run bool :=
  match name with
  | None => Some false
  | Some name => let! comparison := ascii_case_compare text name in Some (comparison =? 0)
  end.

(** The entry of the record and its comparison with the query. *)
Definition match_record (query : option legacy_userdb_query) (record_number : Z) (record : list Z) (s : scan)
    : run scan :=
  let name := text_member record userrec.Name in
  let handle := text_member record userrec.sHandle in
  let legacy_name := let! q := query in uq_legacy_name q in
  let display_name := let! q := query in uq_display_name q in
  let! name_first := buf_get name 0 in
  let names :=
    if negb (name_first =? 0) then sc_names s ++ [NameEntry (snprintf_s (ne_name zero_entry) name) record_number]
    else sc_names s in
  let result := sc_result s in
  let! legacy_name_matches := matches name legacy_name in
  let result :=
    if legacy_name_matches && negb (sr_legacy_name_exists result) then set_sr_legacy_name record_number result
    else result in
  let! display_name_matches := matches (text_member record userrec.sUserName) display_name in
  let result :=
    if display_name_matches && negb (sr_display_name_exists result) then set_sr_display_name record_number result
    else result in
  let! handle_first := buf_get handle 0 in
  let! handle_matches := if handle_first =? 0 then Some false else matches handle display_name in
  let result :=
    if handle_matches && negb (sr_handle_exists result) then set_sr_handle record_number result else result in
  Some (Scan names result (sc_audits s)).

(** The loop body. *)
Definition scan_record (fd : Z) (query : option legacy_userdb_query) (error : error_pointer) (record_number : Z)
    (s : scan) : files (scan + scan * error_pointer) :=
  let fail s status errno text := ret (inr (s, set_error error status errno record_number text)) in
  let offset := LEGACY_USERDB_HEADER_SIZE + record_number * LEGACY_USERDB_RECORD_SIZE in
  let* (failure, record) :=
    read_exact fuel fd (zeros LEGACY_USERDB_RECORD_SIZE) LEGACY_USERDB_RECORD_SIZE (Some offset) in
  match failure with
  | Some errno => fail s LEGACY_USERDB_READ_FAILED errno (lit "cannot read legacy user record")
  | None =>
      if negb (record_is_terminated record) then
        fail s LEGACY_USERDB_INVALID_RECORD 0 (lit "legacy user record contains unterminated text")
      else
        let* (audits, valid) :=
          lift match sc_audits s with
               | None => Some (None, true)
               | Some audits =>
                   let! (audit, valid) := audit_of record record_number in
                   let! audits := arr_set audits record_number audit in
                   Some (Some audits, valid)
               end in
        let s := Scan (sc_names s) (sc_result s) audits in
        if negb valid then
          fail s LEGACY_USERDB_INVALID_RECORD 0 (lit "legacy user record has an invalid registration marker")
        else
          let* s := lift (match_record query record_number record s) in
          ret (inl s)
  end.

Fixpoint scan_loop (n : nat) (fd : Z) (query : option legacy_userdb_query) (error : error_pointer)
    (record_number : Z) (s : scan) : files (scan + scan * error_pointer) :=
  match n with
  | O => ret (inl s)
  | S n =>
      let* r := scan_record fd query error record_number s in
      match r with
      | inl s => scan_loop n fd query error (record_number + 1) s
      | inr e => ret (inr e)
      end
  end.

(** [*result] and the audit records, and [*error] after a failure. *)
Definition scan_records (fd record_count : Z) (query : option legacy_userdb_query)
    (result : legacy_userdb_scan_result) (audit_records : option (list legacy_userdb_audit_record))
    (error : error_pointer)
    : files (option error_pointer * legacy_userdb_scan_result * option (list legacy_userdb_audit_record)) :=
  let* allocated := if 0 <? record_count then calloc record_count sizeof_name_entry else ret None in
  match allocated with
  | Some errno =>
      ret (Some (set_error error LEGACY_USERDB_MEMORY_FAILED errno LEGACY_USERDB_NO_RECORD
                   (lit "cannot allocate legacy-name scan table")), result, audit_records)
  | None =>
      let* r := scan_loop (Z.to_nat record_count) fd query error 0 (Scan [] result audit_records) in
      match r with
      | inr (s, error) => ret (Some error, sc_result s, sc_audits s)
      | inl s =>
          let* duplicate :=
            lift (if 1 <? zlen (sc_names s) then
                    let! names := qsort (sc_names s) in
                    match names with
                    | [] => Some None
                    | first :: names => find_duplicate first names
                    end
                  else Some None) in
          match duplicate with
          | Some record_number =>
              ret (Some (set_error error LEGACY_USERDB_DUPLICATE_LEGACY_NAME 0 record_number
                           (lit "legacy users database contains duplicate names")), sc_result s, sc_audits s)
          | None => ret (None, sc_result s, sc_audits s)
          end
      end
  end.

(** ** The database *)

(** The header and the size of an open file: its two members and the number of records. *)
Definition read_header (fd : Z) (policy : legacy_userdb_policy) (before : stat) (error : error_pointer)
    : files (Z * Z * Z + error_pointer) :=
  let fail status errno text := failed error status errno LEGACY_USERDB_NO_RECORD text in
  if st_size before <? LEGACY_USERDB_HEADER_SIZE then
    fail LEGACY_USERDB_HEADER_TRUNCATED 0 (lit "legacy users database header is truncated")
  else
    let* (failure, header) :=
      read_exact fuel fd (zeros LEGACY_USERDB_HEADER_SIZE) LEGACY_USERDB_HEADER_SIZE (Some 0) in
    match failure with
    | Some errno => fail LEGACY_USERDB_READ_FAILED errno (lit "cannot read legacy users database header")
    | None =>
        let* header_size := lift (read_int header hdrsize) in
        let* record_size := lift (read_int header recsize) in
        if negb (header_size =? LEGACY_USERDB_HEADER_SIZE) || negb (record_size =? LEGACY_USERDB_RECORD_SIZE) then
          fail LEGACY_USERDB_HEADER_MISMATCH 0 (lit "legacy users database layout does not match this build")
        else
          let payload_size := st_size before - LEGACY_USERDB_HEADER_SIZE in
          if (payload_size <? 0) || negb (Z.rem payload_size LEGACY_USERDB_RECORD_SIZE =? 0) then
            fail LEGACY_USERDB_SIZE_MISMATCH 0 (lit "legacy users database ends with a partial record")
          else
            let record_count := payload_size ÷ LEGACY_USERDB_RECORD_SIZE in
            if up_max_records policy <? record_count then
              fail LEGACY_USERDB_TOO_MANY_RECORDS 0 (lit "legacy users database exceeds the configured limit")
            else ret (inl (header_size, record_size, record_count))
    end.

(** Is the file as it was? *)
Definition recheck (fd : Z) (before : stat) (error : error_pointer) (changed : list Z)
    : files (unit + error_pointer) :=
  let* after := fstat fd in
  match after with
  | inr errno => failed error LEGACY_USERDB_STAT_FAILED errno LEGACY_USERDB_NO_RECORD
                   (lit "cannot recheck legacy users database")
  | inl after =>
      if negb (file_snapshot_is_unchanged before after) then
        failed error LEGACY_USERDB_CHANGED_DURING_SCAN 0 LEGACY_USERDB_NO_RECORD changed
      else ret (inl tt)
  end.

(** What [legacy_userdb_inspect] does with the open file: [*result], and [*error] after
    a failure. *)
Definition inspect_file (fd : Z) (policy : legacy_userdb_policy) (query : option legacy_userdb_query) (before : stat)
    (result : legacy_userdb_scan_result) (error : error_pointer)
    : files (option error_pointer * legacy_userdb_scan_result) :=
  let* header := read_header fd policy before error in
  match header with
  | inr error => ret (Some error, result)
  | inl (_, _, record_count) =>
      let result := set_sr_record_count record_count result in
      let* (failure, result, _) := scan_records fd record_count query result None error in
      match failure with
      | Some error => ret (Some error, result)
      | None =>
          let* unchanged := recheck fd before error (lit "legacy users database changed during scan") in
          match unchanged with
          | inr error => ret (Some error, result)
          | inl _ => ret (None, result)
          end
      end
  end.

(** What [legacy_userdb_read_audit_snapshot] does with the open file. *)
Definition audit_file (fd : Z) (policy : legacy_userdb_policy) (before : stat) (error : error_pointer)
    : files (legacy_userdb_audit_snapshot + error_pointer) :=
  let* header := read_header fd policy before error in
  match header with
  | inr error => ret (inr error)
  | inl (header_size, record_size, record_count) =>
      let* allocated := if 0 <? record_count then calloc record_count sizeof_audit_record else ret None in
      match allocated with
      | Some errno => failed error LEGACY_USERDB_MEMORY_FAILED errno LEGACY_USERDB_NO_RECORD
                        (lit "cannot allocate sanitized legacy audit snapshot")
      | None =>
          let* (failure, _, records) :=
            scan_records fd record_count None (cleared_scan record_count)
              (if 0 <? record_count then Some (replicate (Z.to_nat record_count) zero_audit_record) else None) error in
          match failure with
          | Some error => ret (inr error)
          | None =>
              let* unchanged := recheck fd before error (lit "legacy users database changed during audit scan") in
              match unchanged with
              | inr error => ret (inr error)
              | inl _ => ret (inl (AuditSnapshot records record_count before header_size record_size))
              end
          end
      end
  end.
End reader.

(** The result, [*result] and [*error]. *)
Definition legacy_userdb_inspect `{FileSystem} (fuel : nat) (mbse_root : ptr) (policy : option legacy_userdb_policy)
    (query : option legacy_userdb_query) (result : option legacy_userdb_scan_result)
    (error : option legacy_userdb_error)
    : prog file_event unit (Z * option legacy_userdb_scan_result * option legacy_userdb_error) :=
  let result := (λ _, cleared_scan 0) <$> result in
  let error := legacy_userdb_error_clear error in
  let* valid := lift (absolute mbse_root &&! Some (policy_is_valid policy) &&! query_is_valid query
                      &&! Some (negb (is_null result))) in
  if negb valid then
    ret (-1, result, set_error error LEGACY_USERDB_INVALID_ARGUMENT Errno.EINVAL LEGACY_USERDB_NO_RECORD
                       (lit "invalid legacy users database argument"))
  else
    let* mbse_root := lift (deref mbse_root) in
    let* policy := lift (deref policy) in
    let* scan := lift (deref result) in
    let* opened := open_users_file mbse_root policy error in
    match opened with
    | inr error => ret (-1, result, error)
    | inl (fd, before) =>
        let* (failure, scan) := inspect_file fuel fd policy query before scan error in
        do* close fd in
        match failure with
        | Some error => ret (-1, Some scan, error)
        | None => ret (0, Some scan, legacy_userdb_error_clear error)
        end
    end.

(** The result, [*snapshot] and [*error]. *)
Definition legacy_userdb_read_audit_snapshot `{FileSystem} (fuel : nat) (mbse_root : ptr)
    (policy : option legacy_userdb_policy) (snapshot : option legacy_userdb_audit_snapshot)
    (error : option legacy_userdb_error)
    : prog file_event unit (Z * option legacy_userdb_audit_snapshot * option legacy_userdb_error) :=
  let error := legacy_userdb_error_clear error in
  let* valid :=
    lift (absolute mbse_root &&! Some (policy_is_valid policy
            && match snapshot with Some s => is_null (as_records s) && (as_record_count s =? 0) | None => false end)) in
  if negb valid then
    ret (-1, snapshot, set_error error LEGACY_USERDB_INVALID_ARGUMENT Errno.EINVAL LEGACY_USERDB_NO_RECORD
                         (lit "invalid legacy audit snapshot argument"))
  else
    let* mbse_root := lift (deref mbse_root) in
    let* policy := lift (deref policy) in
    let* opened := open_users_file mbse_root policy error in
    match opened with
    | inr error => ret (-1, snapshot, error)
    | inl (fd, before) =>
        let* r := audit_file fuel fd policy before error in
        do* close fd in
        match r with
        | inr error => ret (-1, snapshot, error)
        | inl candidate => ret (0, Some candidate, legacy_userdb_error_clear error)
        end
    end.

(** ** Names without regard to case *)

Definition folded (text : list Z) : list Z := map ascii_fold text.

(** The characters of a text. *)
Definition chars (text : list Z) : Prop := Forall (λ c, 0 < c < 256) text.

(** What a comparison says of two keys. *)
Definition compared (c : Z) (a b : list Z) : Prop :=
  (c = 0 ∧ a = b) ∨ (c = -1 ∧ lexico a b) ∨ (c = 1 ∧ lexico b a).

Lemma ascii_fold_positive c : 0 < c → 0 < ascii_fold c.
Proof.
  intros Hc. unfold ascii_fold. destruct (Prelude.between _ _ c) eqn:H; [|done]. apply between_spec in H.
  revert H. change (chr "A") with 65. change (chr "Z") with 90. change (chr "a") with 97.
  intros H. unfold u8, wrap. rewrite Z.mod_small; lia.
Qed.

Lemma chars_nonzero text : chars text → Forall (λ c, c ≠ 0) text.
Proof. intros H. eapply Forall_impl; [exact H|]. cbv beta. lia. Qed.

Lemma lexico_cons (x y : Z) (a b : list Z) :
  lexico (x :: a) (y :: b) ↔ x < y ∨ x = y ∧ lexico a b.
Proof. done. Qed.

Lemma compared_cons c x a b : compared c a b → compared c (x :: a) (x :: b).
Proof.
  unfold compared. rewrite !lexico_cons. intros [[-> ->]|[[-> H]|[-> H]]]; [by left|right; left|right; right]; auto.
Qed.

Lemma ascii_case_compare_spec a x b y :
  chars a → chars b →
  ∃ c, ascii_case_compare (terminated a x) (terminated b y) = Some c ∧ compared c (folded a) (folded b).
Proof.
  intros Ha. revert b. unfold terminated. induction Ha as [|u a Hu _ IH]; intros b Hb.
  - destruct Hb as [|v b Hv Hb]; cbn [app ascii_case_compare].
    + exists 0. split; [done|by left].
    + pose proof (ascii_fold_positive v ltac:(lia)). change (ascii_fold 0) with 0.
      rewrite (proj2 (Z.eqb_neq 0 _)) by lia. cbn [negb]. rewrite (proj2 (Z.ltb_lt 0 _)) by done.
      eexists. split; [done|]. right. by left.
  - pose proof (ascii_fold_positive u ltac:(lia)) as Hpos. destruct Hb as [|v b Hv Hb]; cbn [app ascii_case_compare].
    + change (ascii_fold 0) with 0. rewrite (proj2 (Z.eqb_neq _ 0)) by lia. cbn [negb].
      rewrite (proj2 (Z.ltb_ge _ 0)) by lia. eexists. split; [done|]. right. by right.
    + destruct (Z.eqb_spec (ascii_fold u) (ascii_fold v)) as [Heq|Hne]; cbn [negb].
      * rewrite (proj2 (Z.eqb_neq _ 0)) by lia. destruct (IH b Hb) as (c & -> & Hc). exists c. split; [done|].
        cbn [folded map]. rewrite Heq. by apply compared_cons.
      * eexists. split; [done|]. cbn [folded map]. unfold compared. rewrite !lexico_cons.
        destruct (Z.ltb_spec (ascii_fold u) (ascii_fold v)); [right; left|right; right]; (split; [done|left; lia]).
Qed.

(** ** Sorting *)

Definition entry_key (e : legacy_name_entry) : list Z := folded (cstr (ne_name e)).

Definition entry_ok (e : legacy_name_entry) : Prop := ∃ text tail, ne_name e = terminated text tail ∧ chars text.

Definition entry_le (e e' : legacy_name_entry) : Prop :=
  lexico (entry_key e) (entry_key e') ∨
  entry_key e = entry_key e' ∧ ne_record_number e <= ne_record_number e'.

Lemma entry_compare_spec e e' :
  entry_ok e → entry_ok e' →
  ∃ c, ascii_case_compare (ne_name e) (ne_name e') = Some c ∧ compared c (entry_key e) (entry_key e').
Proof.
  intros (a & x & Ha & Hca) (b & y & Hb & Hcb). unfold entry_key. rewrite Ha, Hb.
  unfold terminated at 3 4. rewrite !cstr_app_zero by by apply chars_nonzero. by apply ascii_case_compare_spec.
Qed.

Lemma legacy_name_entry_compare_spec e e' :
  entry_ok e → entry_ok e' →
  ∃ c, legacy_name_entry_compare e e' = Some c ∧ (if c <=? 0 then entry_le e e' else entry_le e' e).
Proof.
  intros He He'. destruct (entry_compare_spec e e' He He') as (c & Hc & Hcmp).
  unfold legacy_name_entry_compare. rewrite Hc. run_simpl. eexists. split; [done|].
  unfold entry_le. destruct Hcmp as [[-> Heq]|[[-> Hlt]|[-> Hgt]]]; cbn [negb Z.eqb Z.leb Z.compare]; [|by left..].
  destruct (Z.ltb_spec (ne_record_number e) (ne_record_number e')); [right; split; [done|lia]|].
  destruct (Z.ltb_spec (ne_record_number e') (ne_record_number e)); right; split; (done || lia).
Qed.

#[export] Instance entry_le_trans : Transitive entry_le.
Proof.
  intros a b c [Hab|[Hab Hn]] [Hbc|[Hbc Hm]]; unfold entry_le.
  - left. by etrans.
  - left. by rewrite <- Hbc.
  - left. by rewrite Hab.
  - right. split; [by rewrite Hab|lia].
Qed.

Lemma sorted_insert_spec e l :
  entry_ok e → Forall entry_ok l → StronglySorted entry_le l →
  ∃ l', sorted_insert e l = Some l' ∧ l' ≡ₚ e :: l ∧ StronglySorted entry_le l'.
Proof.
  intros He Hl Hs. induction Hs as [|e' l Hs IH Hall]; cbn [sorted_insert]; [eexists; split_and!; [done..|by repeat constructor]|].
  apply Forall_cons in Hl as [He' Hl]. destruct (legacy_name_entry_compare_spec e e' He He') as (c & -> & Hc). run_simpl.
  destruct (c <=? 0).
  - eexists. split_and!; [done..|]. constructor; [by constructor|]. constructor; [done|].
    eapply Forall_impl; [exact Hall|]. intros x. by etrans.
  - destruct (IH Hl) as (l' & -> & Hp & Hs'). run_simpl. eexists. split_and!; [done|rewrite Hp; constructor|].
    constructor; [done|]. rewrite Hp. by constructor.
Qed.

Lemma qsort_spec l :
  Forall entry_ok l → ∃ l', qsort l = Some l' ∧ l' ≡ₚ l ∧ StronglySorted entry_le l'.
Proof.
  induction 1 as [|e l He Hl (l' & IH & Hp & Hs)]; cbn [qsort]; [by exists []; repeat constructor|].
  rewrite IH. run_simpl. destruct (sorted_insert_spec e l' He) as (l2 & -> & Hp2 & Hs2); [by rewrite Hp|done|].
  exists l2. split_and!; [done|by rewrite Hp2, Hp|done].
Qed.

(** Without equal neighbours, all keys differ. *)
Lemma find_duplicate_spec previous l :
  Forall entry_ok (previous :: l) → StronglySorted entry_le (previous :: l) →
  ∃ r, find_duplicate previous l = Some r ∧
    match r with
    | None => StronglySorted (λ e e', lexico (entry_key e) (entry_key e')) (previous :: l)
    | Some n => ∃ e e', sublist [e; e'] (previous :: l) ∧ entry_key e = entry_key e' ∧ ne_record_number e' = n ∧
                        ne_record_number e <= n
    end.
Proof.
  revert previous. induction l as [|e l IH]; intros previous Hok Hs; [by eexists; split; [done|]; repeat constructor|].
  pose proof (Forall_inv Hok) as Hp. pose proof (Forall_inv (Forall_inv_tail Hok)) as He.
  apply StronglySorted_inv in Hs as [Hs Hall]. cbn [find_duplicate].
  destruct (entry_compare_spec previous e Hp He) as (c & -> & Hc). run_simpl. destruct (Z.eqb_spec c 0) as [->|Hne].
  - eexists. split; [done|]. exists previous, e. apply Forall_inv in Hall.
    assert (entry_key previous = entry_key e) as Heq by (by destruct Hc as [[_ ?]|[[? _]|[? _]]]).
    split_and!; [|done|done|]. { repeat apply sublist_skip. apply sublist_nil_l. }
    destruct Hall as [Hlt|[_ Hle]]; [|done]. rewrite Heq in Hlt. by apply (irreflexivity lexico) in Hlt.
  - destruct (IH e (Forall_inv_tail Hok) Hs) as (r & -> & Hr). exists r. split; [done|]. destruct r as [n|].
    + destruct Hr as (a & b & Hsub & Heq & Hn & Hle). exists a, b. split_and!; try done. by constructor.
    + constructor; [done|].
      assert (lexico (entry_key previous) (entry_key e)) as Hlt.
      { destruct Hc as [[? _]|[[_ ?]|[-> Hgt]]]; [done..|]. apply Forall_inv in Hall as [?|[Heq _]]; [done|].
        rewrite Heq in Hgt. by apply (irreflexivity lexico) in Hgt. }
      constructor; [done|]. apply StronglySorted_inv in Hr as [_ Hr]. eapply Forall_impl; [exact Hr|].
      cbv beta. intros x. by etrans.
Qed.

Lemma sorted_keys_distinct l :
  StronglySorted (λ e e', lexico (entry_key e) (entry_key e')) l → NoDup (map entry_key l).
Proof.
  induction 1 as [|e l _ IH Hall]; cbn [map]; constructor; [|done].
  intros (e' & Heq & Hin)%list_elem_of_fmap. rewrite Forall_forall in Hall. apply Hall in Hin. rewrite <- Heq in Hin.
  by apply (irreflexivity lexico) in Hin.
Qed.

(** ** Records *)

Definition record_text (m : Z * Z) (record : list Z) : list Z := cstr (text_member record m).

(** The bytes of a record whose texts end within their arrays. *)
Record record_ok (record : list Z) : Prop := {
  ro_bytes : bytes_ok record;
  ro_length : zlen record = LEGACY_USERDB_RECORD_SIZE;
  ro_terminated : record_is_terminated record = true;
}.

Lemma terminated_array l :
  bytes_ok l → existsb (Z.eqb 0) l = true → (∃ tail, l = terminated (cstr l) tail) ∧ chars (cstr l).
Proof.
  induction 1 as [|c l Hc _ IH]; [done|]. cbn [existsb cstr]. destruct (Z.eqb_spec c 0) as [->|Hne].
  - intros _. split; [by exists l|constructor].
  - rewrite (proj2 (Z.eqb_neq 0 c)) by done. intros H. destruct (IH H) as [[tail Htail] Hchars]. split.
    + exists tail. unfold terminated in *. cbn [app]. by f_equal.
    + constructor; [unfold byte_ok, fits in Hc; lia|done].
Qed.

Lemma text_member_length record m :
  zlen record = LEGACY_USERDB_RECORD_SIZE → 0 <= m.1 → 0 <= m.2 → m.1 + m.2 <= LEGACY_USERDB_RECORD_SIZE →
  zlen (text_member record m) = m.2.
Proof.
  unfold text_member, member, zlen. intros Hlen H1 H2 H3. rewrite length_take, length_drop. lia.
Qed.

Lemma record_text_spec record m :
  record_ok record → m ∈ [userrec.Name; userrec.sUserName; userrec.sHandle; userrec.sComment] →
  (∃ tail, text_member record m = terminated (record_text m record) tail) ∧ chars (record_text m record) ∧
  zlen (record_text m record) < m.2.
Proof.
  intros [Hb Hl Ht] Hm. unfold record_is_terminated in Ht. bools.
  assert (fixed_text_is_terminated (text_member record m) m.2 = true) as Hterm.
  { repeat (apply elem_of_cons in Hm as [->|Hm]; [done|]). by apply elem_of_nil in Hm. }
  assert (zlen (text_member record m) = m.2) as Hlen.
  { apply text_member_length; [done|..];
      repeat (apply elem_of_cons in Hm as [->|Hm]; [done|]); by apply elem_of_nil in Hm. }
  unfold fixed_text_is_terminated in Hterm.
  rewrite take_ge in Hterm by (unfold zlen in Hlen; lia).
  destruct (terminated_array (text_member record m)) as [[tail Htail] Hchars]; [|done|].
  { by apply Forall_take, Forall_drop. }
  split; [by exists tail|]. split; [done|]. rewrite <- Hlen. unfold record_text. rewrite Htail at 2.
  unfold terminated. rewrite zlen_app, zlen_cons. pose proof (zlen_nonneg tail). lia.
Qed.

(** *** What a query looks for *)

Definition wanted (name : option (list Z)) (text : list Z) : bool :=
  match name with Some name => bool_decide (folded text = folded name) | None => false end.

Definition points_to (p : ptr) (text : option (list Z)) : Prop :=
  match text with
  | None => p = None
  | Some text => chars text ∧ ∃ tail, p = Some (terminated text tail)
  end.

(** The legacy name and the display name of a query. *)
Definition query_names (query : option legacy_userdb_query) (legacy_name display_name : option (list Z)) : Prop :=
  match query with
  | None => legacy_name = None ∧ display_name = None
  | Some q => points_to (uq_legacy_name q) legacy_name ∧ points_to (uq_display_name q) display_name
  end.

Lemma matches_spec p name text tail :
  points_to p name → chars text → matches (terminated text tail) p = Some (wanted name text).
Proof.
  intros Hp Ht. destruct name as [name|]; [|by rewrite Hp]. destruct Hp as [Hn [ntail ->]]. cbn [matches wanted].
  destruct (ascii_case_compare_spec text tail name ntail Ht Hn) as (c & -> & Hc). run_simpl. f_equal.
  destruct Hc as [[-> ->]|[[-> Hlt]|[-> Hlt]]]; [by rewrite bool_decide_true|..];
    (rewrite bool_decide_false; [done|]; intros Heq; rewrite Heq in Hlt; by apply (irreflexivity lexico) in Hlt).
Qed.

(** The number of the first record, counted from [k], that is looked for. *)
Fixpoint first_index (p : list Z → bool) (k : Z) (records : list (list Z)) : option Z :=
  match records with
  | [] => None
  | record :: records => if p record then Some k else first_index p (k + 1) records
  end.

Lemma first_index_snoc p k records record :
  first_index p k (records ++ [record]) =
  match first_index p k records with
  | Some i => Some i
  | None => if p record then Some (k + zlen records) else None
  end.
Proof.
  revert k. induction records as [|r records IH]; intros k; cbn [app first_index].
  - by rewrite Z.add_0_r.
  - destruct (p r); [done|]. rewrite IH, zlen_cons. by replace (k + 1 + zlen records) with (k + (1 + zlen records)) by lia.
Qed.

Definition finds_name (name : option (list Z)) (record : list Z) : bool := wanted name (record_text userrec.Name record).
Definition finds_display_name (name : option (list Z)) (record : list Z) : bool :=
  wanted name (record_text userrec.sUserName record).
Definition finds_handle (name : option (list Z)) (record : list Z) : bool :=
  bool_decide (record_text userrec.sHandle record ≠ []) && wanted name (record_text userrec.sHandle record).

(** What a scan of the records says. *)
Definition scanned_result (count : Z) (legacy_name display_name : option (list Z)) (records : list (list Z))
    : legacy_userdb_scan_result :=
  let first p := first_index p 0 records in
  let number i := default LEGACY_USERDB_NO_RECORD i in
  let name := first (finds_name legacy_name) in
  let display := first (finds_display_name display_name) in
  let handle := first (finds_handle display_name) in
  ScanResult count (negb (is_null name)) (number name) (negb (is_null display)) (number display)
    (negb (is_null handle)) (number handle).

(** The entries of the records that are in use, counted from [k]. *)
Fixpoint entries_from (k : Z) (records : list (list Z)) : list legacy_name_entry :=
  match records with
  | [] => []
  | record :: records =>
      (if bool_decide (record_text userrec.Name record = []) then []
       else [NameEntry (snprintf_s (ne_name zero_entry) (text_member record userrec.Name)) k])
      ++ entries_from (k + 1) records
  end.

Lemma entries_from_snoc k records record :
  entries_from k (records ++ [record]) = entries_from k records ++ entries_from (k + zlen records) [record].
Proof.
  revert k. induction records as [|r records IH]; intros k; cbn [app entries_from].
  - by rewrite Z.add_0_r.
  - rewrite IH, zlen_cons, <- app_assoc. by replace (k + 1 + zlen records) with (k + (1 + zlen records)) by lia.
Qed.

Lemma first_character record m tail :
  text_member record m = terminated (record_text m record) tail → chars (record_text m record) →
  ∃ c, buf_get (text_member record m) 0 = Some c ∧ (c =? 0) = bool_decide (record_text m record = []).
Proof.
  intros -> Hc. destruct Hc as [|c text Hc _]; unfold terminated; cbn [app]; rewrite buf_get_head.
  - by exists 0.
  - exists c. split; [done|]. rewrite bool_decide_false by done. apply Z.eqb_neq. lia.
Qed.

Lemma match_record_spec query legacy_name display_name count records record audits :
  query_names query legacy_name display_name → record_ok record →
  match_record query (zlen records) record
    (Scan (entries_from 0 records) (scanned_result count legacy_name display_name records) audits) =
  Some (Scan (entries_from 0 (records ++ [record]))
          (scanned_result count legacy_name display_name (records ++ [record])) audits).
Proof.
  intros Hq Hr. unfold match_record. cbv zeta. cbn [sc_names sc_result sc_audits].
  destruct (record_text_spec record userrec.Name Hr) as ([nt Hname] & Hnc & _); [set_solver|].
  destruct (record_text_spec record userrec.sUserName Hr) as ([ut Huser] & Huc & _); [set_solver|].
  destruct (record_text_spec record userrec.sHandle Hr) as ([ht Hhandle] & Hhc & _); [set_solver|].
  destruct (first_character _ _ _ Hname Hnc) as (c & Hc & Hcz). rewrite Hc. run_simpl.
  destruct (first_character _ _ _ Hhandle Hhc) as (d & Hd & Hdz). rewrite Hd.
  assert (points_to (let! q := query in uq_legacy_name q) legacy_name) as Hpl by (destruct query; [apply Hq|by destruct Hq as [-> _]]).
  assert (points_to (let! q := query in uq_display_name q) display_name) as Hpd by (destruct query; [apply Hq|by destruct Hq as [_ ->]]).
  assert (matches (text_member record userrec.Name) (let! q := query in uq_legacy_name q) = Some (finds_name legacy_name record)) as ->
    by (rewrite Hname; by apply matches_spec).
  run_simpl.
  assert (matches (text_member record userrec.sUserName) (let! q := query in uq_display_name q)
          = Some (finds_display_name display_name record)) as -> by (rewrite Huser; by apply matches_spec).
  run_simpl.
  assert ((if d =? 0 then Some false else matches (text_member record userrec.sHandle) (let! q := query in uq_display_name q))
          = Some (finds_handle display_name record)) as ->.
  { rewrite Hdz. unfold finds_handle. destruct (decide (record_text userrec.sHandle record = [])) as [He|He].
    - rewrite bool_decide_true by done. by rewrite bool_decide_false by (intros H; by apply H).
    - rewrite bool_decide_false by done. rewrite bool_decide_true by done. rewrite Hhandle at 1. by apply matches_spec. }
  run_simpl. f_equal. f_equal.
  - rewrite entries_from_snoc, Hcz. cbn [entries_from]. rewrite app_nil_r.
    destruct (bool_decide _); cbn [negb]; [by rewrite app_nil_r|done].
  - unfold scanned_result. cbv zeta. rewrite !first_index_snoc.
    destruct (first_index (finds_name legacy_name) 0 records), (first_index (finds_display_name display_name) 0 records),
      (first_index (finds_handle display_name) 0 records), (finds_name legacy_name record),
      (finds_display_name display_name record), (finds_handle display_name record); reflexivity.
Qed.

(** *** The marker in the comment *)

Lemma marker_digits_scan pre v tail out zs prefix_length :
  length v = (2 * length zs)%nat → zlen pre = prefix_length + zlen out * 2 → 0 <= prefix_length →
  ∃ c, for_range (length zs) (zlen out) (marker_digits (pre ++ terminated v tail) prefix_length) (out ++ zs) = Some c ∧
    ((∃ bs, bytes_ok bs ∧ length bs = length zs ∧ v = concat (map byte_hex bs) ∧ c = Break (out ++ bs)) ∨
     ((∃ id, c = Return (-1, id)) ∧ ¬ ∃ bs, bytes_ok bs ∧ v = concat (map byte_hex bs))).
Proof.
  intros Hv Hpre H0. revert pre out zs Hv Hpre.
  induction v as [v IH] using (induction_ltof1 _ (@length Z)); unfold ltof in IH; intros pre out zs Hv Hpre.
  destruct zs as [|z zs]; cbn [for_range length].
  - destruct v; [|done]. eexists. split; [done|]. left. exists []. split_and!; [constructor|done..].
  - destruct v as [|high [|low v]]; [done|cbn in Hv; lia|]. pose proof (zlen_nonneg out).
    unfold marker_digits at 1. rewrite <- Hpre. rewrite buf_get_app_r by done.
    replace (buf_get (pre ++ terminated (high :: low :: v) tail) (zlen pre)) with (Some high)
      by (rewrite <- (Z.add_0_r (zlen pre)); by rewrite buf_get_app_r).
    change (buf_get (terminated (high :: low :: v) tail) 1) with (Some low). run_simpl.
    assert (∀ bs, bytes_ok bs → high :: low :: v = concat (map byte_hex bs) →
      0 <= lower_hex_value high ∧ 0 <= lower_hex_value low ∧ ∃ bs', bytes_ok bs' ∧ v = concat (map byte_hex bs')) as Hinv.
    { intros [|b bs] Hbs Heq; [done|]. apply Forall_cons in Hbs as [Hb Hbs]. destruct (byte_nibbles b Hb) as (Hh & Hl & _).
      cbn [map concat byte_hex app] in Heq. injection Heq as -> -> ->. rewrite !lower_hex_char by done.
      split_and!; [lia..|by exists bs]. }
    destruct (Z.ltb_spec (lower_hex_value high) 0) as [Hbad|Hh]; cbn [orb].
    { eexists. split; [done|]. right. split; [by eexists|]. intros (bs & Hbs & Heq). apply Hinv in Heq; [lia|done]. }
    destruct (Z.ltb_spec (lower_hex_value low) 0) as [Hbad|Hl].
    { eexists. split; [done|]. right. split; [by eexists|]. intros (bs & Hbs & Heq). apply Hinv in Heq; [lia|done]. }
    apply lower_hex_inv in Hh as [Hh Hhigh]. apply lower_hex_inv in Hl as [Hl Hlow].
    destruct (hex_byte _ _ Hh Hl) as (-> & Hb & Hhex). set (b := lower_hex_value high * 16 + lower_hex_value low) in *.
    rewrite buf_set_in by (rewrite zlen_app, zlen_cons; pose proof (zlen_nonneg zs); lia). run_simpl.
    unfold zlen at 2. rewrite Nat2Z.id, insert_app_r_alt, Nat.sub_diag by lia. cbn [insert list_insert].
    destruct (IH v ltac:(cbn; lia) (pre ++ [high; low]) (out ++ [b]) zs) as (c & Hc & Hcase).
    { cbn in Hv |- *. lia. } { rewrite !zlen_app. change (zlen [high; low]) with 2. change (zlen [b]) with 1. lia. }
    exists c. split.
    { rewrite <- Hc. rewrite zlen_app. change (zlen [b]) with 1. rewrite <- !app_assoc. reflexivity. }
    destruct Hcase as [(bs & Hbs & Hlen & -> & ->)|[Hret Hnone]].
    + left. exists (b :: bs). split_and!; [by constructor|cbn; by rewrite Hlen| |by rewrite <- app_assoc].
      cbn [map concat]. rewrite Hhex. cbn [app]. by rewrite <- Hhigh, <- Hlow.
    + right. split; [done|]. intros (bs & Hbs & Heq). apply Hinv in Heq as (_ & _ & Hv'); done.
Qed.

Lemma hex_inj bs bs' :
  bytes_ok bs → bytes_ok bs' → concat (map byte_hex bs) = concat (map byte_hex bs') → bs = bs'.
Proof.
  intros Hbs. revert bs'. induction Hbs as [|b bs Hb _ IH]; intros [|b' bs'] Hbs' Heq; [done..|].
  apply Forall_cons in Hbs' as [Hb' Hbs']. destruct (byte_nibbles b Hb) as (Hh & Hl & Hv), (byte_nibbles b' Hb') as (Hh' & Hl' & Hv').
  cbn [map concat byte_hex app] in Heq. injection Heq as Hhigh Hlow Heq. f_equal; [|by apply IH].
  apply (f_equal lower_hex_value) in Hhigh, Hlow. rewrite !lower_hex_char in Hhigh, Hlow by done. lia.
Qed.

(** What a comment says of the registration that the record belongs to. *)
Definition comment_says (comment : list Z) (present : bool) (id : list Z) : Prop :=
  if present then identifier id ∧ comment = record_marker id
  else id = zeros LEGACY_USERDB_UUID_SIZE ∧ ¬ LEGACY_USERDB_RECORD_MARKER_PREFIX `prefix_of` comment.

(** A comment that begins like a marker and is none. *)
Definition comment_invalid (comment : list Z) : Prop :=
  LEGACY_USERDB_RECORD_MARKER_PREFIX `prefix_of` comment ∧ ¬ ∃ id, identifier id ∧ comment = record_marker id.

Lemma parse_record_marker_complete comment tail :
  chars comment →
  ∃ r present id, parse_record_registration_marker (terminated comment tail) = Some (r, present, id) ∧
    (if r =? 0 then comment_says comment present id else comment_invalid comment).
Proof.
  intros Hc. pose proof (chars_nonzero _ Hc) as Hnz. unfold parse_record_registration_marker. cbv zeta.
  rewrite has_prefix_terminated by literal. run_simpl.
  destruct (decide (LEGACY_USERDB_RECORD_MARKER_PREFIX `prefix_of` comment)) as [Hp|Hp].
  2: { rewrite bool_decide_false by done. cbn [negb]. eexists _, _, _. split; [done|]. cbn [Z.eqb]. done. }
  rewrite bool_decide_true by done. cbn [negb]. unfold strlen. unfold terminated at 1. rewrite cstr_app_zero by done.
  change (zlen LEGACY_USERDB_RECORD_MARKER_PREFIX + LEGACY_USERDB_UUID_SIZE * 2) with 40.
  destruct (Z.eqb_spec (zlen comment) 40) as [Hlen|Hlen]; cbn [negb].
  2: { eexists _, _, _. split; [done|]. cbn [Z.eqb]. split; [done|]. intros (id & [Hb Hl _] & ->). apply Hlen.
       by apply record_marker_text. }
  pose proof Hp as [v ->].
  assert (length v = 32%nat) as Hv.
  { rewrite zlen_app in Hlen. change (zlen LEGACY_USERDB_RECORD_MARKER_PREFIX) with 8 in Hlen. unfold zlen in Hlen. lia. }
  destruct (marker_digits_scan LEGACY_USERDB_RECORD_MARKER_PREFIX v tail [] (replicate 16 0) 8) as (c & Hloop & Hcase);
    [by rewrite length_replicate|done|done|].
  rewrite length_replicate in Hloop. change (zlen []) with 0 in Hloop. cbn [app] in Hloop.
  change (zlen LEGACY_USERDB_RECORD_MARKER_PREFIX) with 8.
  change (Z.to_nat LEGACY_USERDB_UUID_SIZE) with 16%nat.
  assert (terminated (LEGACY_USERDB_RECORD_MARKER_PREFIX ++ v) tail = LEGACY_USERDB_RECORD_MARKER_PREFIX ++ terminated v tail) as ->
    by (unfold terminated; by rewrite <- app_assoc).
  rewrite Hloop. run_simpl. destruct Hcase as [(bs & Hbs & Hl & -> & ->)|[[id ->] Hnone]].
  - rewrite length_replicate in Hl. cbn [app]. rewrite uuid_is_nonzero_spec by done. run_simpl.
    destruct (forallb (Z.eqb 0) bs) eqn:Hz; cbn [negb]; eexists _, _, _; (split; [done|]); cbn [Z.eqb].
    + split; [done|]. intros (id & [Hb Hli [b [Hin Hnz']]] & Heq). unfold record_marker in Heq. apply app_inj_1 in Heq as [_ Heq]; [|done].
      assert (bs = id) as -> by (eapply hex_inj; [exact Hbs|exact Hb|exact Heq]).
      rewrite forallb_Forall, Forall_forall in Hz. specialize (Hz b Hin). bools. lia.
    + split; [|done]. split; [done|done|]. by apply exists_nonzero.
  - eexists _, _, _. split; [done|]. cbn [Z.eqb]. split; [done|]. intros (id' & [Hb _ _] & Heq). apply Hnone. exists id'.
    split; [done|]. unfold record_marker in Heq. by apply app_inj_1 in Heq as [_ ?].
Qed.

(** *** Audit records *)

Definition record_flag (m : Z * Z) (record : list Z) : bool := Z.testbit (nth (Z.to_nat m.1) record 0) m.2.

(** An audit record says what the record with this number says. *)
Record describes (number : Z) (record : list Z) (a : legacy_userdb_audit_record) : Prop := {
  ds_number : ar_record_number a = number;
  ds_legacy_name : cstr (ar_legacy_name a) = record_text userrec.Name record;
  ds_display_name : cstr (ar_display_name a) = record_text userrec.sUserName record;
  ds_handle : cstr (ar_handle a) = record_text userrec.sHandle record;
  ds_empty : ar_empty a = bool_decide (record_text userrec.Name record = []);
  ds_deleted : ar_deleted a = record_flag userrec.Deleted record;
  ds_locked_out : ar_locked_out a = record_flag userrec.LockedOut record;
  ds_marker : comment_says (record_text userrec.sComment record) (ar_registration_marker_present a)
    (ar_registration_id a);
}.

Lemma get_bit_spec record m :
  0 <= m.1 < zlen record → get_bit record m = Some (record_flag m record).
Proof.
  intros Hm. unfold get_bit, record_flag. destruct (buf_get_in record m.1 Hm) as [b Hb]. rewrite Hb. run_simpl.
  apply buf_get_Some in Hb as [_ Hb]. by rewrite (nth_lookup_Some _ _ _ _ Hb).
Qed.

Lemma audit_of_spec record number :
  record_ok record →
  ∃ a valid, audit_of record number = Some (a, valid) ∧
    (if valid : bool then describes number record a else comment_invalid (record_text userrec.sComment record)).
Proof.
  intros Hr. unfold audit_of. cbv zeta.
  destruct (record_text_spec record userrec.Name Hr) as ([nt Hname] & Hnc & Hnl); [set_solver|].
  destruct (record_text_spec record userrec.sUserName Hr) as ([ut Huser] & Huc & Hul); [set_solver|].
  destruct (record_text_spec record userrec.sHandle Hr) as ([ht Hhandle] & Hhc & Hhl); [set_solver|].
  destruct (record_text_spec record userrec.sComment Hr) as ([ct Hcomment] & Hcc & _); [set_solver|].
  destruct (first_character _ _ _ Hname Hnc) as (c & -> & ->). run_simpl.
  pose proof (ro_length _ Hr) as Hlen.
  rewrite !get_bit_spec by (rewrite Hlen; done). run_simpl.
  rewrite Hcomment. destruct (parse_record_marker_complete _ ct Hcc) as (r & present & id & -> & Hp). run_simpl.
  eexists _, _. split; [done|]. destruct (r =? 0); [|done].
  assert (∀ dst m, zlen (record_text m record) < zlen dst → cstr (snprintf_s dst (text_member record m)) = record_text m record) as Hcopy
    by (intros dst m Hlt; by apply cstr_snprintf).
  split; cbn [ar_record_number ar_legacy_name ar_display_name ar_handle ar_empty ar_deleted ar_locked_out
    ar_registration_marker_present ar_registration_id zero_audit_record]; try done; by apply Hcopy.
Qed.

(** *** What a scan reads *)

(** The records have been read one after the other. *)
Inductive scanned (fd : Z) : list (list Z) → file_history → Prop :=
| scanned_nothing : scanned fd [] []
| scanned_record records record tr tr' :
    scanned fd records tr →
    delivered fd LEGACY_USERDB_RECORD_SIZE
      (Some (LEGACY_USERDB_HEADER_SIZE + zlen records * LEGACY_USERDB_RECORD_SIZE)) record tr' →
    record_ok record →
    scanned fd (records ++ [record]) (tr' ++ tr).

(** No two records that are in use have the same name. *)
Definition names_distinct (records : list (list Z)) : Prop :=
  ∀ i j record record', records !! i = Some record → records !! j = Some record' → i ≠ j →
    record_text userrec.Name record ≠ [] →
    folded (record_text userrec.Name record) ≠ folded (record_text userrec.Name record').

(** The records of an audit have been described. *)
Definition audited (count : Z) (records : list (list Z)) (audits : list legacy_userdb_audit_record) : Prop :=
  zlen audits = count ∧
  ∀ i record, records !! i = Some record → ∃ a, audits !! i = Some a ∧ describes (Z.of_nat i) record a.

(** *** The entries of the names *)

Lemma elem_of_entries e k records :
  e ∈ entries_from k records ↔
  ∃ i record, records !! i = Some record ∧ record_text userrec.Name record ≠ [] ∧
    e = NameEntry (snprintf_s (ne_name zero_entry) (text_member record userrec.Name)) (k + Z.of_nat i).
Proof.
  revert k. induction records as [|r records IH]; intros k; cbn [entries_from].
  - rewrite elem_of_nil. split; [done|]. by intros (i & record & Hi & _).
  - rewrite elem_of_app, IH. split.
    + intros [He|(i & record & Hi & Hne & ->)].
      * destruct (bool_decide_reflect (record_text userrec.Name r = [])) as [|Hne]; [by apply elem_of_nil in He|].
        apply list_elem_of_singleton in He as ->. exists 0%nat, r. split_and!; [done..|]. by rewrite Z.add_0_r.
      * exists (S i), record. split_and!; [done..|]. f_equal. lia.
    + intros ([|i] & record & Hi & Hne & ->).
      * cbn in Hi. injection Hi as ->. left. rewrite bool_decide_false by done. rewrite Z.add_0_r. by apply list_elem_of_singleton.
      * right. exists i, record. split_and!; [done..|]. f_equal. lia.
Qed.

Lemma entries_nodup k records : NoDup (entries_from k records).
Proof.
  revert k. induction records as [|r records IH]; intros k; cbn [entries_from]; [constructor|].
  apply NoDup_app. split_and!; [case_bool_decide; [constructor|apply NoDup_singleton]| |done].
  intros e He (i & record & _ & _ & ->)%elem_of_entries.
  case_bool_decide; [by apply elem_of_nil in He|]. apply list_elem_of_singleton in He. injection He as _ He. lia.
Qed.

Lemma entry_of_record record number :
  record_ok record →
  let e := NameEntry (snprintf_s (ne_name zero_entry) (text_member record userrec.Name)) number in
  entry_ok e ∧ entry_key e = folded (record_text userrec.Name record).
Proof.
  intros Hr e. destruct (record_text_spec record userrec.Name Hr) as ([nt Hname] & Hnc & Hnl); [set_solver|].
  assert (cstr (ne_name e) = record_text userrec.Name record) as Hcstr by by apply cstr_snprintf.
  split; [|exact (f_equal folded Hcstr)].
  exists (record_text userrec.Name record).
  unfold e. cbn [ne_name zero_entry]. rewrite Hname.
  assert (zlen (record_text userrec.Name record) < 9) as Hlt by exact Hnl.
  unfold snprintf_s at 1. change (length (zeros (LEGACY_USERDB_LEGACY_NAME_MAX + 1))) with 9%nat.
  unfold terminated at 1. rewrite cstr_app_zero by by apply chars_nonzero. unfold zlen in Hlt.
  rewrite take_ge by lia. by eexists.
Qed.

Lemma entries_ok k records : Forall record_ok records → Forall entry_ok (entries_from k records).
Proof.
  intros Hr. apply Forall_forall. intros e (i & record & Hi & _ & ->)%elem_of_entries.
  apply entry_of_record. rewrite Forall_forall in Hr. by apply Hr, list_elem_of_lookup; exists i.
Qed.

(** Two records have the same name, the second one is the number [n]. *)
Definition duplicated (records : list (list Z)) (n : Z) : Prop :=
  ∃ i j record record', records !! i = Some record ∧ records !! j = Some record' ∧ (i < j)%nat ∧ n = Z.of_nat j ∧
    record_text userrec.Name record ≠ [] ∧
    folded (record_text userrec.Name record) = folded (record_text userrec.Name record').

Lemma same_key_same_entry l e e' :
  NoDup (map entry_key l) → e ∈ l → e' ∈ l → entry_key e = entry_key e' → e = e'.
Proof.
  induction l as [|x l IH]; cbn [map]; [by intros _ ?%elem_of_nil|]. intros [Hx Hl]%NoDup_cons.
  assert (∀ y, y ∈ l → entry_key y ≠ entry_key x) as Hne.
  { intros y Hy Heq. apply Hx. rewrite <- Heq. by apply list_elem_of_fmap_2. }
  intros [->|He]%elem_of_cons [->|He']%elem_of_cons Heq; [done| | |by apply IH].
  - by destruct (Hne e' He').
  - by destruct (Hne e He).
Qed.

Lemma distinct_keys_names records :
  Forall record_ok records →
  (∀ e e', e ∈ entries_from 0 records → e' ∈ entries_from 0 records → entry_key e = entry_key e' → e = e') →
  names_distinct records.
Proof.
  intros Hr Hinj i j record record' Hi Hj Hij Hne Heq.
  assert (record_text userrec.Name record' ≠ []) as Hne'.
  { intros H. rewrite H in Heq. unfold folded in Heq. cbn in Heq. by apply map_eq_nil in Heq. }
  rewrite Forall_forall in Hr.
  destruct (entry_of_record record (0 + Z.of_nat i)) as [_ Hk]; [apply Hr, list_elem_of_lookup; by exists i|].
  destruct (entry_of_record record' (0 + Z.of_nat j)) as [_ Hk']; [apply Hr, list_elem_of_lookup; by exists j|].
  specialize (Hinj _ _ (proj2 (elem_of_entries _ _ _) (ex_intro _ i (ex_intro _ record (conj Hi (conj Hne eq_refl)))))
    (proj2 (elem_of_entries _ _ _) (ex_intro _ j (ex_intro _ record' (conj Hj (conj Hne' eq_refl)))))
    ltac:(by rewrite Hk, Hk')).
  injection Hinj as _ Hn. lia.
Qed.

Lemma duplicate_search_spec records :
  Forall record_ok records →
  ∃ r, (if 1 <? zlen (entries_from 0 records) then
          let! names := qsort (entries_from 0 records) in
          match names with [] => Some None | first :: names => find_duplicate first names end
        else Some None) = Some r ∧
    match r with None => names_distinct records | Some n => duplicated records n end.
Proof.
  intros Hr. pose proof (entries_ok 0 records Hr) as Hok. pose proof (entries_nodup 0 records) as Hnd.
  destruct (Z.ltb_spec 1 (zlen (entries_from 0 records))) as [Hmany|Hfew].
  2: { eexists. split; [done|]. apply distinct_keys_names; [done|]. intros e e'.
       destruct (entries_from 0 records) as [|x [|y l]]; [by intros ?%elem_of_nil| |rewrite !zlen_cons in Hfew; pose proof (zlen_nonneg l); lia].
       by intros ->%list_elem_of_singleton ->%list_elem_of_singleton. }
  destruct (qsort_spec _ Hok) as (l & -> & Hperm & Hsorted). run_simpl.
  destruct l as [|first l]; [apply Permutation_nil_l in Hperm; by rewrite <- Hperm in Hmany|].
  destruct (find_duplicate_spec first l) as (r & -> & Hcase); [by rewrite Hperm|done|].
  exists r. split; [done|]. destruct r as [n|].
  - destruct Hcase as (e & e' & Hsub & Heq & Hn & Hle).
    assert (NoDup [e; e']) as Hne by (eapply sublist_NoDup; [|exact Hsub]; by rewrite Hperm).
    apply NoDup_cons in Hne as [Hne _].
    assert (e ∈ entries_from 0 records ∧ e' ∈ entries_from 0 records) as [He He'].
    { split; rewrite <- Hperm; (eapply elem_of_sublist; [|exact Hsub]; set_solver). }
    apply elem_of_entries in He as (i & record & Hi & Hin & ->), He' as (j & record' & Hj & Hjn & ->).
    cbn [ne_record_number] in Hn, Hle. exists i, j, record, record'. rewrite Forall_forall in Hr.
    destruct (entry_of_record record (0 + Z.of_nat i)) as [_ Hk]; [apply Hr, list_elem_of_lookup; by exists i|].
    destruct (entry_of_record record' (0 + Z.of_nat j)) as [_ Hk']; [apply Hr, list_elem_of_lookup; by exists j|].
    split_and!; [done|done| |lia|done|by rewrite <- Hk, <- Hk', Heq].
    destruct (decide (i = j)) as [->|]; [|lia]. exfalso. apply Hne. rewrite Hi in Hj. injection Hj as ->. set_solver.
  - apply distinct_keys_names; [done|]. intros e e' He He'. apply (same_key_same_entry (first :: l)); [|by rewrite Hperm..].
    by apply sorted_keys_distinct.
Qed.

(** ** What a read of the database is *)

Definition open_users_data : Z := Z.lor (Z.lor O_RDONLY O_CLOEXEC) O_NOFOLLOW.

(** A status that the policy admits for the file. *)
Record users_file_as_wanted (policy : legacy_userdb_policy) (status : stat) : Prop := {
  uw_type : S_ISREG (st_mode status) = true;
  uw_owner : up_check_owner policy = true → st_uid status = up_expected_uid policy;
  uw_group : up_check_group policy = true → st_gid status = up_expected_gid policy;
  uw_mode : up_check_mode policy = true → Z.land (st_mode status) 0xfff = up_expected_mode policy;
  uw_links : up_require_single_link policy = true → st_nlink status = 1;
}.

(** The first demand that the file does not meet, and the status that says so. *)
Inductive users_file_unwanted (policy : legacy_userdb_policy) (status : stat) : legacy_userdb_status → Prop :=
| unwanted_type :
    S_ISREG (st_mode status) = false → users_file_unwanted policy status LEGACY_USERDB_NOT_REGULAR
| unwanted_owner :
    S_ISREG (st_mode status) = true →
    up_check_owner policy = true → st_uid status ≠ up_expected_uid policy →
    users_file_unwanted policy status LEGACY_USERDB_OWNER_MISMATCH
| unwanted_group :
    S_ISREG (st_mode status) = true →
    (up_check_owner policy = true → st_uid status = up_expected_uid policy) →
    up_check_group policy = true → st_gid status ≠ up_expected_gid policy →
    users_file_unwanted policy status LEGACY_USERDB_GROUP_MISMATCH
| unwanted_mode :
    S_ISREG (st_mode status) = true →
    (up_check_owner policy = true → st_uid status = up_expected_uid policy) →
    (up_check_group policy = true → st_gid status = up_expected_gid policy) →
    up_check_mode policy = true → Z.land (st_mode status) 0xfff ≠ up_expected_mode policy →
    users_file_unwanted policy status LEGACY_USERDB_MODE_MISMATCH
| unwanted_links :
    S_ISREG (st_mode status) = true →
    (up_check_owner policy = true → st_uid status = up_expected_uid policy) →
    (up_check_group policy = true → st_gid status = up_expected_gid policy) →
    (up_check_mode policy = true → Z.land (st_mode status) 0xfff = up_expected_mode policy) →
    up_require_single_link policy = true → st_nlink status ≠ 1 →
    users_file_unwanted policy status LEGACY_USERDB_LINK_COUNT_MISMATCH.

Lemma admitted_by check (a b : Z) : check && negb (a =? b) = false → check = true → a = b.
Proof. intros H ->. cbn in H. apply negb_false_iff in H. by apply Z.eqb_eq. Qed.

Lemma refused_by check (a b : Z) : check && negb (a =? b) = true → check = true ∧ a ≠ b.
Proof. intros [-> H]%andb_true_iff. split; [done|]. apply negb_true_iff in H. by apply Z.eqb_neq. Qed.

Lemma users_file_refusal_names policy status code text :
  users_file_refusal policy status = Some (code, text) → users_file_unwanted policy status code.
Proof.
  unfold users_file_refusal. destruct (negb (S_ISREG _)) eqn:E1.
  { intros [= <- _]. apply unwanted_type. by apply negb_true_iff. }
  apply negb_false_iff in E1.
  destruct (up_check_owner policy && _) eqn:E2.
  { intros [= <- _]. apply refused_by in E2 as []. by apply unwanted_owner. }
  destruct (up_check_group policy && _) eqn:E3.
  { intros [= <- _]. apply refused_by in E3 as []. apply unwanted_group; [done|by apply admitted_by|done..]. }
  destruct (up_check_mode policy && _) eqn:E4.
  { intros [= <- _]. apply refused_by in E4 as []. apply unwanted_mode; [done|by apply admitted_by..|done|done]. }
  destruct (up_require_single_link policy && _) eqn:E5; [|done].
  intros [= <- _]. apply refused_by in E5 as []. apply unwanted_links; [done|by apply admitted_by..|done|done].
Qed.

Lemma users_file_refusal_spec policy status :
  users_file_refusal policy status = None ↔ users_file_as_wanted policy status.
Proof.
  unfold users_file_refusal. split.
  - repeat (case_match; try done). intros _. bools. split; [done|..]; intros Hc;
      repeat match goal with H : _ ∨ _ |- _ => destruct H end; bools; congruence.
  - intros [Ht Ho Hg Hm Hl]. rewrite Ht. cbn [negb].
    destruct (up_check_owner policy); [rewrite Ho, Z.eqb_refl by done|]; cbn [negb andb];
    (destruct (up_check_group policy); [rewrite Hg, Z.eqb_refl by done|]; cbn [negb andb]);
    (destruct (up_check_mode policy); [rewrite Hm, Z.eqb_refl by done|]; cbn [negb andb]);
    (destruct (up_require_single_link policy); [rewrite Hl by done|]; cbn [negb andb Z.eqb Pos.eqb]); done.
Qed.

(** The file is the one that it was, and has not been changed. *)
Record same_file (before after : stat) : Prop := {
  sf_device : st_dev before = st_dev after;
  sf_inode : st_ino before = st_ino after;
  sf_size : st_size before = st_size after;
  sf_mtim : st_mtim before = st_mtim after;
  sf_ctim : st_ctim before = st_ctim after;
}.

Lemma userdb_snapshot_spec before after :
  reflect (same_file before after) (file_snapshot_is_unchanged before after).
Proof.
  apply iff_reflect. unfold file_snapshot_is_unchanged, same_timestamp. rewrite !andb_true_iff, !Z.eqb_eq. split.
  - intros [-> -> -> -> ->]. done.
  - intros [[[[? ?] ?] [? ?]] [? ?]]. by split; [..|apply injective_projections|apply injective_projections].
Qed.

(** The header of this build: 8 and 598 as little-endian [int]s. *)
Definition expected_header : list Z := [8; 0; 0; 0; 86; 2; 0; 0].

Lemma read_int_spec header :
  bytes_ok header → zlen header = LEGACY_USERDB_HEADER_SIZE →
  ∃ a b, read_int header hdrsize = Some a ∧ read_int header recsize = Some b ∧
    (header = expected_header ↔ a = LEGACY_USERDB_HEADER_SIZE ∧ b = LEGACY_USERDB_RECORD_SIZE).
Proof.
  intros Hb Hl. change LEGACY_USERDB_HEADER_SIZE with 8 in *. change LEGACY_USERDB_RECORD_SIZE with 598.
  apply (f_equal Z.to_nat) in Hl. unfold zlen in Hl. rewrite Nat2Z.id in Hl. change (Z.to_nat 8) with 8%nat in Hl.
  do 8 (destruct header as [|? header]; [done|]). destruct header as [|? header]; [|done].
  unfold bytes_ok in Hb.
  repeat match goal with H : Forall byte_ok (_ :: _) |- _ => apply Forall_cons in H as [[? ?] H] end.
  change (2 ^ 8) with 256 in *.
  assert (∀ b0 b1 b2 b3 n, 0 <= b0 < 256 → 0 <= b1 < 256 → 0 <= b2 < 256 → 0 <= b3 < 256 → 0 <= n < 65536 →
    (let v := b0 + 256 * (b1 + 256 * (b2 + 256 * b3)) in if v <? 2 ^ 31 then v else v - 2 ^ 32) = n ↔
    b0 = n mod 256 ∧ b1 = n / 256 ∧ b2 = 0 ∧ b3 = 0) as Hint.
  { intros b0 b1 b2 b3 n ? ? ? ? ?. cbv zeta. change (2 ^ 31) with 2147483648. change (2 ^ 32) with 4294967296.
    pose proof (Z.div_mod n 256 ltac:(lia)). pose proof (Z.mod_pos_bound n 256 ltac:(lia)).
    destruct (Z.ltb_spec (b0 + 256 * (b1 + 256 * (b2 + 256 * b3))) 2147483648); lia. }
  eexists _, _. split; [reflexivity|]. split; [reflexivity|].
  rewrite !Hint by lia. unfold expected_header. split.
  - by intros [= -> -> -> -> -> -> -> ->].
  - intros [(-> & -> & -> & ->) (-> & -> & -> & ->)]. done.
Qed.

(** The file has been opened below [root], checked and locked, and its header read. *)
Inductive users_file_opened (root : list Z) (policy : legacy_userdb_policy) (fd : Z) (status : stat)
    : file_history → Prop :=
| file_was_opened root_fd etc_fd :
    users_file_as_wanted policy status →
    users_file_opened root policy fd status
      [Close root_fd; Close etc_fd; Lock fd None; Fstat fd (inl status);
       OpenAt (Some etc_fd) (lit "users.data") open_users_data (inl fd);
       OpenAt (Some root_fd) (lit "etc") open_directory (inl etc_fd); OpenAt None root open_directory (inl root_fd)].

(** Why the database has not been read: the status, [errno], the number of the record
    and what has happened before the descriptors were closed. *)
Inductive userdb_refused (root : list Z) (policy : legacy_userdb_policy)
    : legacy_userdb_status → Z → Z → file_history → Prop :=
| ud_open_root errno h :
    userdb_refused root policy LEGACY_USERDB_OPEN_ROOT_FAILED errno LEGACY_USERDB_NO_RECORD
      (OpenAt None root open_directory (inr errno) :: h)
| ud_open_etc root_fd errno h :
    userdb_refused root policy LEGACY_USERDB_OPEN_ETC_FAILED errno LEGACY_USERDB_NO_RECORD
      (OpenAt (Some root_fd) (lit "etc") open_directory (inr errno) :: h)
| ud_open_file etc_fd errno h :
    userdb_refused root policy LEGACY_USERDB_OPEN_FILE_FAILED errno LEGACY_USERDB_NO_RECORD
      (OpenAt (Some etc_fd) (lit "users.data") open_users_data (inr errno) :: h)
| ud_status fd errno h :
    userdb_refused root policy LEGACY_USERDB_STAT_FAILED errno LEGACY_USERDB_NO_RECORD (Fstat fd (inr errno) :: h)
| ud_file fd file_status status h :
    users_file_unwanted policy file_status status →
    userdb_refused root policy status 0 LEGACY_USERDB_NO_RECORD (Fstat fd (inl file_status) :: h)
| ud_locked fd errno h :
    userdb_refused root policy
      (if bool_decide (errno = Errno.EACCES ∨ errno = Errno.EAGAIN) then LEGACY_USERDB_BUSY
       else LEGACY_USERDB_LOCK_FAILED) errno LEGACY_USERDB_NO_RECORD (Lock fd (Some errno) :: h)
| ud_truncated fd status h :
    Fstat fd (inl status) ∈ h → st_size status < LEGACY_USERDB_HEADER_SIZE →
    userdb_refused root policy LEGACY_USERDB_HEADER_TRUNCATED 0 LEGACY_USERDB_NO_RECORD h
| ud_read_header fd errno tr h :
    unreadable fd LEGACY_USERDB_HEADER_SIZE (Some 0) errno tr →
    userdb_refused root policy LEGACY_USERDB_READ_FAILED errno LEGACY_USERDB_NO_RECORD (tr ++ h)
| ud_read_record fd records errno tr tr' h :
    scanned fd records tr →
    unreadable fd LEGACY_USERDB_RECORD_SIZE
      (Some (LEGACY_USERDB_HEADER_SIZE + zlen records * LEGACY_USERDB_RECORD_SIZE)) errno tr' →
    userdb_refused root policy LEGACY_USERDB_READ_FAILED errno (zlen records) (tr' ++ tr ++ h)
| ud_header fd header tr h :
    delivered fd LEGACY_USERDB_HEADER_SIZE (Some 0) header tr → zlen header = LEGACY_USERDB_HEADER_SIZE →
    header ≠ expected_header →
    userdb_refused root policy LEGACY_USERDB_HEADER_MISMATCH 0 LEGACY_USERDB_NO_RECORD (tr ++ h)
| ud_size fd status h :
    Fstat fd (inl status) ∈ h →
    (¬ ∃ count, 0 <= count ∧ st_size status = LEGACY_USERDB_HEADER_SIZE + count * LEGACY_USERDB_RECORD_SIZE) →
    userdb_refused root policy LEGACY_USERDB_SIZE_MISMATCH 0 LEGACY_USERDB_NO_RECORD h
| ud_too_many fd status count h :
    Fstat fd (inl status) ∈ h → st_size status = LEGACY_USERDB_HEADER_SIZE + count * LEGACY_USERDB_RECORD_SIZE →
    up_max_records policy < count →
    userdb_refused root policy LEGACY_USERDB_TOO_MANY_RECORDS 0 LEGACY_USERDB_NO_RECORD h
| ud_memory count size errno h :
    userdb_refused root policy LEGACY_USERDB_MEMORY_FAILED errno LEGACY_USERDB_NO_RECORD (Calloc count size (Some errno) :: h)
| ud_record fd records record tr tr' h :
    scanned fd records tr →
    delivered fd LEGACY_USERDB_RECORD_SIZE
      (Some (LEGACY_USERDB_HEADER_SIZE + zlen records * LEGACY_USERDB_RECORD_SIZE)) record tr' →
    zlen record = LEGACY_USERDB_RECORD_SIZE →
    ¬ record_ok record ∨ comment_invalid (record_text userrec.sComment record) →
    userdb_refused root policy LEGACY_USERDB_INVALID_RECORD 0 (zlen records) (tr' ++ tr ++ h)
| ud_duplicate fd records number tr h :
    scanned fd records tr → duplicated records number →
    userdb_refused root policy LEGACY_USERDB_DUPLICATE_LEGACY_NAME 0 number (tr ++ h)
| ud_changed fd before after h :
    Fstat fd (inl before) ∈ h → ¬ same_file before after →
    userdb_refused root policy LEGACY_USERDB_CHANGED_DURING_SCAN 0 LEGACY_USERDB_NO_RECORD (Fstat fd (inl after) :: h).

(** An error is reported, with a reason, to a caller that asks for it. *)
Definition userdb_reported (root : list Z) (policy : legacy_userdb_policy) (error error' : option legacy_userdb_error)
    (h : file_history) : Prop :=
  ∃ status errno number, status ≠ LEGACY_USERDB_OK ∧
    userdb_refused root policy status errno number (before_closing h) ∧
    match error with
    | None => error' = None
    | Some _ => ∃ text, error' = Some (UserdbError status errno number false text)
    end.

Lemma in_before_closing e h : e ∈ h → (∀ fd, e ≠ Close fd) → e ∈ before_closing h.
Proof.
  intros Hin Hne. induction h as [|e' h IH]; [done|]. destruct e'; try exact Hin.
  cbn. apply elem_of_cons in Hin as [->|Hin]; [by destruct (Hne fd)|by apply IH].
Qed.

Lemma delivered_more fd length offset data tr h :
  delivered fd length offset data tr → data ≠ [] → before_closing (tr ++ h) = tr ++ h.
Proof. by destruct 1. Qed.

Lemma unreadable_last fd length offset errno tr h :
  unreadable fd length offset errno tr → before_closing (tr ++ h) = tr ++ h.
Proof. by intros (data & tr0 & _ & _ & [[_ ->]|[_ ->]]). Qed.

Section database.
Context `{FileSystemLaws} (limit : nat) `{!Undisturbed limit} (start : file_history).
Context (fuel : nat) (Hfuel : (Z.to_nat LEGACY_USERDB_RECORD_SIZE + limit < fuel)%nat).
Context (root rtail : list Z) (policy : legacy_userdb_policy) (error : option legacy_userdb_error).

(** A value, or an error and only these descriptors. *)
Definition db_answer {A} (fds : gset Z) (Q : A → file_history → Prop)
    (r : A + option legacy_userdb_error) (_ : unit) (h : file_history) : Prop :=
  match r with
  | inl a => Q a h
  | inr error' => holding start fds h ∧ userdb_reported root policy error error' h
  end.

Lemma report_error status errno number text h :
  status ≠ LEGACY_USERDB_OK → userdb_refused root policy status errno number (before_closing h) →
  userdb_reported root policy error (set_error error status errno number text) h.
Proof.
  intros Hs Hr. exists status, errno, number. split; [done|]. split; [done|]. destruct error; [by eexists|done].
Qed.

Lemma wp_db_failed {A} fds (Q : A → file_history → Prop) status errno number text s h :
  holding start fds h → status ≠ LEGACY_USERDB_OK → userdb_refused root policy status errno number (before_closing h) →
  wp (λ _, False) (failed error status errno number text) (db_answer fds Q) s h.
Proof. intros Hh Hs Hr. unfold failed. wp_step. split; [done|]. by apply report_error. Qed.

Lemma check_users_file_spec fds fd s h :
  holding start fds h → fd ∈ fds →
  wp (λ _, False) (check_users_file policy fd error)
    (db_answer fds (λ status h', holding start fds h' ∧ users_file_as_wanted policy status ∧
       h' = Lock fd None :: Fstat fd (inl status) :: h)) s h.
Proof.
  intros Hh Hfd. unfold check_users_file.
  wp_step. eapply wp_fstat; [exact Hh|done|]. intros [status|errno] Hh1; [|apply wp_db_failed; [done..|constructor]].
  destruct (users_file_refusal policy status) as [[code text]|] eqn:Href.
  { apply wp_db_failed; [done| |].
    - clear -Href. unfold users_file_refusal in Href. repeat (case_match; try by injection Href as <- <-). done.
    - constructor. by eapply users_file_refusal_names. }
  apply users_file_refusal_spec in Href.
  wp_step. eapply wp_lock; [exact Hh1|done|]. intros [errno|] Hh2; [|by wp_step].
  destruct ((errno =? Errno.EACCES) || (errno =? Errno.EAGAIN)) eqn:He.
  - apply wp_db_failed; [done..|].
    pose proof (ud_locked root policy fd errno (Fstat fd (inl status) :: h)) as Hr.
    rewrite bool_decide_true in Hr; [exact Hr|]. bools. destruct He; bools; auto.
  - apply wp_db_failed; [done..|].
    pose proof (ud_locked root policy fd errno (Fstat fd (inl status) :: h)) as Hr.
    rewrite bool_decide_false in Hr; [exact Hr|]. bools. by intros [|].
Qed.

Lemma open_users_file_spec s h :
  holding start ∅ h → Forall (λ b, b ≠ 0) root →
  wp (λ _, False) (open_users_file (terminated root rtail) policy error)
    (db_answer ∅ (λ '(fd, status) h', holding start {[fd]} h' ∧
       ∃ tr, users_file_opened root policy fd status tr ∧ h' = tr ++ h)) s h.
Proof.
  intros Hh Hroot. unfold open_users_file.
  assert (cstr (terminated root rtail) = root) as -> by (unfold terminated; by apply cstr_app_zero).
  wp_step. eapply wp_openat; [exact Hh|done| |intros errno Hh1; apply wp_db_failed; [done..|constructor]].
  intros root_fd _ _ Hh1. wp_step.
  eapply wp_openat; [exact Hh1|intros ? [= <-]; set_solver| |].
  2: { intros errno Hh2. wp_step. eapply wp_close; [exact Hh2|set_solver|]. intros Hh3. wp_step.
       replace (({[root_fd]} ∪ ∅) ∖ {[root_fd]} : gset Z) with (∅ : gset Z) in Hh3 by set_solver.
       split; [done|]. apply report_error; [done|]. constructor. }
  intros etc_fd Hetc _ Hh2. wp_step. unfold open_in_etc. wp_step.
  eapply wp_openat; [exact Hh2|intros ? [= <-]; set_solver| |].
  2: { intros errno Hh3. unfold failed. do 2 wp_step. eapply wp_close; [exact Hh3|set_solver|]. intros Hh4.
       wp_step. eapply wp_close; [exact Hh4|set_solver|]. intros Hh5. wp_step.
       split; [|apply report_error; [done|constructor]].
       by replace (∅ : gset Z) with (({[etc_fd]} ∪ ({[root_fd]} ∪ ∅)) ∖ {[etc_fd]} ∖ {[root_fd]} : gset Z) by set_solver. }
  intros fd Hfd _ Hh3. wp_step.
  eapply wp_mono; [apply (check_users_file_spec ({[fd]} ∪ ({[etc_fd]} ∪ ({[root_fd]} ∪ ∅))) fd); [exact Hh3|set_solver]|].
  intros [status|error'] s4 h4.
  - intros (Hh4 & Hwanted & ->). wp_step. wp_step. eapply wp_close; [exact Hh4|set_solver|]. intros Hh5.
    wp_step. eapply wp_close; [exact Hh5|set_solver|]. intros Hh6. wp_step. split.
    + by replace ({[fd]} : gset Z) with (({[fd]} ∪ ({[etc_fd]} ∪ ({[root_fd]} ∪ ∅))) ∖ {[etc_fd]} ∖ {[root_fd]} : gset Z) by set_solver.
    + eexists. split; [by constructor|done].
  - intros [Hh4 Hrep]. wp_step. eapply wp_close; [exact Hh4|set_solver|]. intros Hh5. wp_step. wp_step.
    eapply wp_close; [exact Hh5|set_solver|]. intros Hh6. wp_step. eapply wp_close; [exact Hh6|set_solver|].
    intros Hh7. wp_step. split; [|exact Hrep].
    by replace (∅ : gset Z) with (({[fd]} ∪ ({[etc_fd]} ∪ ({[root_fd]} ∪ ∅))) ∖ {[fd]} ∖ {[etc_fd]} ∖ {[root_fd]} : gset Z) by set_solver.
Qed.

(** *** The records *)

Context (query : option legacy_userdb_query) (legacy_name display_name : option (list Z)).
Context (Hquery : query_names query legacy_name display_name).

(** The state after these records; an array of audit records has [count] elements. *)
Definition audits_ok (count : Z) (records : list (list Z)) (audits : option (list legacy_userdb_audit_record)) : Prop :=
  match audits with Some audits => audited count records audits | None => True end.

Lemma audited_snoc count records record audits a :
  audited count records audits → zlen records < count → describes (zlen records) record a →
  audited count (records ++ [record]) (<[length records := a]> audits).
Proof.
  intros [Hlen Ha] Hlt Hd. split; [unfold zlen in *; by rewrite length_insert|].
  assert (length records < length audits)%nat as Hin by (unfold zlen in *; lia).
  intros i r [Hi|[-> [= <-]]]%lookup_snoc_Some.
  - destruct Hi as [Hi Hr]. rewrite list_lookup_insert_ne by lia. by apply Ha.
  - rewrite list_lookup_insert_eq by done. by exists a.
Qed.

Lemma scan_record_spec fds fd count records audits tr0 s h :
  holding start fds (tr0 ++ h) → fd ∈ fds → zlen records < count → audits_ok count records audits →
  scanned fd records tr0 →
  let before := Scan (entries_from 0 records) (scanned_result count legacy_name display_name records) audits in
  wp (λ _, False) (scan_record fuel fd query error (zlen records) before)
    (λ r _ h', holding start fds h' ∧
       match r with
       | inl after => ∃ record tr audits',
           after = Scan (entries_from 0 (records ++ [record]))
                     (scanned_result count legacy_name display_name (records ++ [record])) audits' ∧
           record_ok record ∧ audits_ok count (records ++ [record]) audits' ∧ (is_Some audits ↔ is_Some audits') ∧
           h' = tr ++ tr0 ++ h ∧
           delivered fd LEGACY_USERDB_RECORD_SIZE
             (Some (LEGACY_USERDB_HEADER_SIZE + zlen records * LEGACY_USERDB_RECORD_SIZE)) record tr
       | inr (_, error') => userdb_reported root policy error error' h'
       end) s (tr0 ++ h).
Proof.
  intros Hh Hfd Hcount Haudits Htr0 before. unfold scan_record. cbv zeta. wp_step. eapply wp_mono.
  { apply (read_exact_spec limit start fuel fds fd (zeros LEGACY_USERDB_RECORD_SIZE) LEGACY_USERDB_RECORD_SIZE); [done..| |].
    - rewrite zlen_zeros by done. done.
    - unfold read_patience. lia. }
  cbv beta. intros [[errno|] record] s1 h1 (Hh1 & Hlen & _ & Hread).
  { wp_step. split; [done|]. apply report_error; [done|].
    destruct Hread as (tr & -> & Hread). rewrite (unreadable_last _ _ _ _ _ _ Hread).
    by apply (ud_read_record _ _ fd). }
  destruct Hread as (data & tr & -> & Htr & Hdata & Hbytes & ->).
  rewrite drop_ge, app_nil_r in * by (rewrite length_zeros; lia).
  assert (data ≠ []) as Hne by by intros ->.
  destruct (record_is_terminated data) eqn:Hterm; cbn [negb].
  2: { wp_step. split; [done|]. apply report_error; [done|]. erewrite delivered_more by done.
       eapply ud_record; [done..|]. left. intros [_ _ Hok]. congruence. }
  assert (record_ok data) as Hok by done.
  destruct (audit_of_spec data (zlen records) Hok) as (a & valid & Ha & Hvalid).
  assert (∃ audits', match audits with
               | None => Some (None, true)
               | Some audits =>
                   let! (audit, valid) := audit_of data (zlen records) in
                   let! audits := arr_set audits (zlen records) audit in
                   Some (Some audits, valid)
               end = Some (audits', if audits then valid else true) ∧ (is_Some audits ↔ is_Some audits') ∧
          ((if audits then valid else true) = true → audits_ok count (records ++ [data]) audits'))
    as (audits' & Hstored & Hsome & Hdescribed).
  { destruct audits as [audits|]; [|by exists None]. rewrite Ha. run_simpl.
    assert (length records < length audits)%nat as Hin by (destruct Haudits as [Hl _]; unfold zlen in *; lia).
    unfold zlen at 1. rewrite arr_set_nat by done. run_simpl. eexists. split; [done|]. split; [done|].
    intros ->. by apply audited_snoc. }
  wp_step. eapply wp_lift; [exact Hstored|]. cbv beta iota.
  destruct (if audits then valid else true) eqn:Hv; cbn [negb].
  - unfold before. cbn [sc_names sc_result]. wp_step.
    eapply wp_lift; [by apply match_record_spec|]. wp_step. split; [done|]. exists data, tr, audits'.
    split; [done|]. split; [done|]. split; [by apply Hdescribed|done].
  - wp_step. split; [done|]. apply report_error; [done|]. erewrite delivered_more by done.
    eapply ud_record; [done..|]. right. destruct audits; [|done]. by rewrite Hv in Hvalid.
Qed.

Lemma scan_loop_spec fds fd count n records audits tr0 s h :
  holding start fds (tr0 ++ h) → fd ∈ fds → zlen records + Z.of_nat n = count → audits_ok count records audits →
  scanned fd records tr0 →
  let before := Scan (entries_from 0 records) (scanned_result count legacy_name display_name records) audits in
  wp (λ _, False) (scan_loop fuel n fd query error (zlen records) before)
    (λ r _ h', holding start fds h' ∧
       match r with
       | inl after => ∃ records' tr audits',
           after = Scan (entries_from 0 records') (scanned_result count legacy_name display_name records') audits' ∧
           zlen records' = count ∧ audits_ok count records' audits' ∧ (is_Some audits ↔ is_Some audits') ∧
           h' = tr ++ h ∧ scanned fd records' tr
       | inr (_, error') => userdb_reported root policy error error' h'
       end) s (tr0 ++ h).
Proof.
  revert records audits tr0 s. induction n as [|n IH]; intros records audits tr0 s Hh Hfd Hcount Haudits Htr before; cbn [scan_loop].
  - wp_step. split; [done|]. exists records, tr0, audits. split_and!; try done. lia.
  - wp_step. eapply wp_mono; [apply (scan_record_spec fds fd count records audits tr0); [done|done|lia|done|done]|].
    intros [after|[after error']] s1 h1 [Hh1 Hcase]; [|by wp_step].
    destruct Hcase as (record & tr & audits' & -> & Hok & Haudits' & Hsome & -> & Hdelivered).
    rewrite app_assoc in Hh1 |- *. replace (zlen records + 1) with (zlen (records ++ [record])) by by rewrite zlen_app.
    eapply wp_mono; [apply IH; [done|done| |done|by constructor]|].
    { rewrite zlen_app. change (zlen [record]) with 1. lia. }
    intros [after|[after error']] s2 h2 [Hh2 Hcase]; (split; [done|]); [|done].
    destruct Hcase as (records' & tr' & audits2 & -> & ? & ? & Hsome' & -> & ?). exists records', tr', audits2.
    do 3 (split; [done|]). split; [by rewrite Hsome|done].
Qed.

(** The allocation of an array that is not empty. *)
Definition allocated (count size : Z) : file_history := if 0 <? count then [Calloc count size None] else [].

Lemma allocate_spec fds count size s h :
  holding start fds h →
  wp (λ _, False) (if 0 <? count then calloc count size else ret None)
    (λ r _ h', holding start fds h' ∧
       match r with None => h' = allocated count size ++ h | Some errno => h' = Calloc count size (Some errno) :: h end) s h.
Proof.
  intros Hh. unfold allocated. destruct (0 <? count); [|by wp_step].
  eapply wp_calloc; [exact Hh|]. intros [errno|] Hh1; done.
Qed.

Lemma scan_records_spec fds fd count audits s h :
  holding start fds h → fd ∈ fds → 0 <= count → audits_ok count [] audits →
  wp (λ _, False) (scan_records fuel fd count query (cleared_scan count) audits error)
    (λ '(failure, result, audits') _ h', holding start fds h' ∧
       match failure with
       | None => ∃ records tr,
           result = scanned_result count legacy_name display_name records ∧ zlen records = count ∧
           audits_ok count records audits' ∧ (is_Some audits ↔ is_Some audits') ∧ names_distinct records ∧
           scanned fd records tr ∧ h' = tr ++ allocated count sizeof_name_entry ++ h
       | Some error' => userdb_reported root policy error error' h'
       end) s h.
Proof.
  intros Hh Hfd Hcount Haudits. unfold scan_records. wp_step.
  eapply wp_mono; [by apply allocate_spec|]. intros [errno|] s1 h1 [Hh1 ->].
  { wp_step. split; [done|]. apply report_error; [done|]. constructor. }
  wp_step. eapply wp_mono.
  { apply (scan_loop_spec fds fd count (Z.to_nat count) [] audits [] s1 (allocated count sizeof_name_entry ++ h));
      [done|done|change (zlen []) with 0; lia|done|constructor]. }
  intros [after|[after error']] s2 h2 [Hh2 Hcase]; [|by wp_step].
  destruct Hcase as (records & tr & audits' & -> & Hlen & Haudits' & Hsome & -> & Htr). cbn [sc_names sc_result sc_audits].
  assert (Forall record_ok records) as Hok.
  { clear -Htr. induction Htr as [|records record tr tr' _ IH _ Hr]; [constructor|]. apply Forall_app. split; [done|by constructor]. }
  destruct (duplicate_search_spec records Hok) as (r & Hr & Hcase).
  wp_step. eapply wp_lift; [exact Hr|]. destruct r as [number|]; wp_step; (split; [done|]).
  - apply report_error; [done|].
    assert (before_closing (tr ++ allocated count sizeof_name_entry ++ h) = tr ++ allocated count sizeof_name_entry ++ h) as ->.
    { destruct Htr as [|records record tr tr' Htr Hd Hrok]; [by destruct Hcase as (i & j & ? & ? & Hi & _)|].
      rewrite <- app_assoc. eapply delivered_more; [exact Hd|]. destruct Hrok as [_ Hl _]. by intros ->. }
    by eapply ud_duplicate.
  - exists records, tr. do 6 (split; [done|]). done.
Qed.

Lemma st_size_records status :
  LEGACY_USERDB_HEADER_SIZE <= st_size status →
  let payload_size := st_size status - LEGACY_USERDB_HEADER_SIZE in
  let count := payload_size ÷ LEGACY_USERDB_RECORD_SIZE in
  (payload_size <? 0) = false ∧ 0 <= count ∧
  (Z.rem payload_size LEGACY_USERDB_RECORD_SIZE = 0 ↔
   st_size status = LEGACY_USERDB_HEADER_SIZE + count * LEGACY_USERDB_RECORD_SIZE) ∧
  (∀ n, st_size status = LEGACY_USERDB_HEADER_SIZE + n * LEGACY_USERDB_RECORD_SIZE → n = count).
Proof.
  change LEGACY_USERDB_HEADER_SIZE with 8. change LEGACY_USERDB_RECORD_SIZE with 598. intros Hsize. cbv zeta.
  pose proof (Z.quot_rem (st_size status - 8) 598 ltac:(lia)) as Heq.
  pose proof (Z.rem_bound_pos (st_size status - 8) 598 ltac:(lia) ltac:(lia)).
  split_and!; [apply Z.ltb_ge; lia|apply Z.quot_pos; lia|lia|]. intros n Hn.
  replace (st_size status - 8) with (n * 598) by lia. by rewrite Z.quot_mul.
Qed.

Lemma read_header_spec fds fd before s h :
  holding start fds h → fd ∈ fds → Fstat fd (inl before) ∈ h →
  wp (λ _, False) (read_header fuel fd policy before error)
    (db_answer fds (λ '(header_size, record_size, count) h', holding start fds h' ∧
       header_size = LEGACY_USERDB_HEADER_SIZE ∧ record_size = LEGACY_USERDB_RECORD_SIZE ∧
       0 <= count <= up_max_records policy ∧
       st_size before = LEGACY_USERDB_HEADER_SIZE + count * LEGACY_USERDB_RECORD_SIZE ∧
       ∃ tr, delivered fd LEGACY_USERDB_HEADER_SIZE (Some 0) expected_header tr ∧ h' = tr ++ h)) s h.
Proof.
  intros Hh Hfd Hin. unfold read_header. cbv zeta.
  destruct (Z.ltb_spec (st_size before) LEGACY_USERDB_HEADER_SIZE) as [Hsmall|Hsize].
  { apply wp_db_failed; [done..|]. eapply ud_truncated; [|done]. by apply in_before_closing. }
  wp_step. eapply wp_mono.
  { apply (read_exact_spec limit start fuel fds fd (zeros LEGACY_USERDB_HEADER_SIZE) LEGACY_USERDB_HEADER_SIZE); [done..| |].
    - rewrite zlen_zeros by done. done.
    - unfold read_patience. change (Z.to_nat LEGACY_USERDB_HEADER_SIZE) with 8%nat.
      change (Z.to_nat LEGACY_USERDB_RECORD_SIZE) with 598%nat in Hfuel. lia. }
  cbv beta. intros [[errno|] header] s1 h1 (Hh1 & _ & _ & Hread).
  { apply wp_db_failed; [done..|]. destruct Hread as (tr & -> & Hread).
    rewrite (unreadable_last _ _ _ _ _ _ Hread). by apply (ud_read_header _ _ fd). }
  destruct Hread as (data & tr & -> & Htr & Hdata & Hbytes & ->).
  rewrite drop_ge, app_nil_r by (rewrite length_zeros; lia).
  assert (data ≠ []) as Hne by by intros ->.
  destruct (read_int_spec data Hbytes Hdata) as (a & b & Ha & Hb & Hheader).
  wp_step. eapply wp_lift; [exact Ha|]. wp_step. eapply wp_lift; [exact Hb|].
  destruct (Z.eqb_spec a LEGACY_USERDB_HEADER_SIZE) as [->|Hbad]; cbn [negb orb].
  2: { apply wp_db_failed; [done..|]. erewrite delivered_more by done. eapply ud_header; [done..|].
       rewrite Hheader. by intros []. }
  destruct (Z.eqb_spec b LEGACY_USERDB_RECORD_SIZE) as [->|Hbad]; cbn [negb].
  2: { apply wp_db_failed; [done..|]. erewrite delivered_more by done. eapply ud_header; [done..|].
       rewrite Hheader. by intros []. }
  assert (data = expected_header) as -> by by apply Hheader.
  assert (Fstat fd (inl before) ∈ before_closing (tr ++ h)) as Hin'.
  { apply in_before_closing; [|done]. apply elem_of_app. by right. }
  destruct (st_size_records before Hsize) as (-> & Hpos & Hrem & Hunique). cbn [orb].
  destruct (Z.eqb_spec (Z.rem (st_size before - LEGACY_USERDB_HEADER_SIZE) LEGACY_USERDB_RECORD_SIZE) 0) as [Hz|Hz]; cbn [negb].
  2: { apply wp_db_failed; [done..|]. eapply ud_size; [exact Hin'|]. intros (n & _ & Hn). apply Hz, Hrem.
       by rewrite <- (Hunique n Hn). }
  apply Hrem in Hz.
  destruct (Z.ltb_spec (up_max_records policy) ((st_size before - LEGACY_USERDB_HEADER_SIZE) ÷ LEGACY_USERDB_RECORD_SIZE)) as [Hmany|Hfew].
  { apply wp_db_failed; [done..|]. by eapply ud_too_many. }
  wp_step. split; [done|]. do 2 (split; [done|]). split; [lia|]. split; [done|]. by exists tr.
Qed.

Lemma recheck_spec fds fd before changed s h :
  holding start fds h → fd ∈ fds → Fstat fd (inl before) ∈ h →
  wp (λ _, False) (recheck fd before error changed)
    (db_answer fds (λ _ h', holding start fds h' ∧ ∃ after, same_file before after ∧ h' = Fstat fd (inl after) :: h)) s h.
Proof.
  intros Hh Hfd Hin. unfold recheck. wp_step. eapply wp_fstat; [exact Hh|done|].
  intros [after|errno] Hh1; [|apply wp_db_failed; [done..|constructor]].
  destruct (userdb_snapshot_spec before after) as [Hsame|Hother]; cbn [negb].
  - wp_step. split; [done|]. by exists after.
  - apply wp_db_failed; [done..|]. by eapply ud_changed.
Qed.

(** *** The whole file *)

(** An open file with this status has been read: these are its records, no name occurs
    twice, and the file is still the same. [extra] happened after the header had been
    read. *)
Inductive database_read (fd : Z) (status : stat) (extra : file_history) (records : list (list Z)) : file_history → Prop :=
| database_was_read header_tr tr after :
    delivered fd LEGACY_USERDB_HEADER_SIZE (Some 0) expected_header header_tr →
    st_size status = LEGACY_USERDB_HEADER_SIZE + zlen records * LEGACY_USERDB_RECORD_SIZE →
    zlen records <= up_max_records policy →
    scanned fd records tr → names_distinct records → same_file status after →
    database_read fd status extra records
      (Fstat fd (inl after) :: tr ++ allocated (zlen records) sizeof_name_entry ++ extra ++ header_tr).

Lemma inspect_file_spec fds fd before s h :
  holding start fds h → fd ∈ fds → Fstat fd (inl before) ∈ h →
  wp (λ _, False) (inspect_file fuel fd policy query before (cleared_scan 0) error)
    (λ '(failure, result) _ h', holding start fds h' ∧
       match failure with
       | None => ∃ records tr, result = scanned_result (zlen records) legacy_name display_name records ∧
           database_read fd before [] records tr ∧ h' = tr ++ h
       | Some error' => userdb_reported root policy error error' h'
       end) s h.
Proof.
  intros Hh Hfd Hin. unfold inspect_file. wp_step. eapply wp_mono; [by apply (read_header_spec fds fd before)|].
  intros [[[header_size record_size] count]|error'] s1 h1; [|intros [? ?]; by wp_step].
  intros (Hh1 & -> & -> & Hcount & Hsize & header_tr & Hheader & ->). cbv zeta.
  change (set_sr_record_count count (cleared_scan 0)) with (cleared_scan count).
  wp_step. eapply wp_mono; [apply (scan_records_spec fds fd count None); [done|done|lia|done]|].
  intros [[[error'|] result] audits'] s2 h2 [Hh2 Hcase]; [by wp_step|].
  destruct Hcase as (records & tr & -> & <- & _ & _ & Hdistinct & Htr & ->).
  wp_step. eapply wp_mono; [apply (recheck_spec fds fd before); [done|done|]|].
  { rewrite !elem_of_app. by repeat right. }
  intros [u|error'] s3 h3; [|intros [? ?]; by wp_step]. intros (Hh3 & after & Hsame & ->). wp_step. split; [done|].
  exists records, (Fstat fd (inl after) :: tr ++ allocated (zlen records) sizeof_name_entry ++ [] ++ header_tr).
  split; [done|]. split; [econstructor; (done || lia)|]. cbn [app]. by rewrite <- !app_assoc.
Qed.
End database.

(** The snapshot that an audit makes of a database. *)
Definition snapshot_of (status : stat) (records : list (list Z)) (snapshot : legacy_userdb_audit_snapshot) : Prop :=
  as_record_count snapshot = zlen records ∧ as_file_status snapshot = status ∧
  as_header_size snapshot = LEGACY_USERDB_HEADER_SIZE ∧ as_record_size snapshot = LEGACY_USERDB_RECORD_SIZE ∧
  match as_records snapshot with
  | Some audits => records ≠ [] ∧ audited (zlen records) records audits
  | None => records = []
  end.

Lemma audit_file_spec `{FileSystemLaws} (limit : nat) `{!Undisturbed limit} (start : file_history) (fuel : nat)
    (root : list Z) (policy : legacy_userdb_policy) (error : option legacy_userdb_error) fds fd before s h :
  (Z.to_nat LEGACY_USERDB_RECORD_SIZE + limit < fuel)%nat →
  holding start fds h → fd ∈ fds → Fstat fd (inl before) ∈ h →
  wp (λ _, False) (audit_file fuel fd policy before error)
    (db_answer start root policy error fds (λ snapshot h', holding start fds h' ∧ ∃ records tr,
       snapshot_of before records snapshot ∧
       database_read policy fd before (allocated (zlen records) sizeof_audit_record) records tr ∧ h' = tr ++ h)) s h.
Proof.
  intros Hfuel Hh Hfd Hin. unfold audit_file. wp_step.
  eapply wp_mono; [by apply (read_header_spec limit start fuel Hfuel root policy error fds fd before)|].
  intros [[[header_size record_size] count]|error'] s1 h1; [|intros [? ?]; by wp_step].
  intros (Hh1 & -> & -> & Hcount & Hsize & header_tr & Hheader & ->).
  wp_step. eapply wp_mono; [by apply allocate_spec|]. intros [errno|] s2 h2 [Hh2 ->].
  { apply wp_db_failed; [done..|constructor]. }
  set (audits := if 0 <? count then _ else _).
  assert (audits_ok count [] audits) as Haudits.
  { unfold audits. destruct (Z.ltb_spec 0 count); [|done]. split; [unfold zlen; rewrite length_replicate; lia|].
    intros i r Hi. done. }
  wp_step. eapply wp_mono.
  { apply (scan_records_spec limit start fuel Hfuel root policy error None None None ltac:(done) fds fd count audits); [done|done|lia|done]. }
  intros [[[error'|] result] audits'] s3 h3 [Hh3 Hcase]; [by wp_step|].
  destruct Hcase as (records & tr & _ & Hlen & Haudits' & Hsome & Hdistinct & Htr & ->).
  wp_step. eapply wp_mono; [apply (recheck_spec start root policy error fds fd before); [done|done|]|].
  { rewrite !elem_of_app. by repeat right. }
  intros [u|error'] s4 h4; [|intros [? ?]; by wp_step]. intros (Hh4 & after & Hsame & ->). wp_step. split; [done|].
  exists records, (Fstat fd (inl after) :: tr ++ allocated (zlen records) sizeof_name_entry
    ++ allocated (zlen records) sizeof_audit_record ++ header_tr).
  split; [|split; [econstructor; (done || lia)|rewrite Hlen; cbn [app]; by rewrite <- !app_assoc]].
  split; [done|]. do 3 (split; [done|]). cbn [as_records]. destruct audits' as [audits'|].
  - split; [|by rewrite Hlen]. intros ->. change (zlen []) with 0 in Hlen. subst count.
    assert (is_Some audits) as [? Hnone] by by apply Hsome. done.
  - assert (¬ is_Some audits) as Hnone by (rewrite Hsome; by intros []). unfold audits in Hnone.
    destruct (Z.ltb_spec 0 count); [by destruct Hnone|]. assert (zlen records = 0) as Hz by lia.
    unfold zlen in Hz. by apply length_zero_iff_nil; lia.
Qed.

(** ** The calls *)

(** A query that may be made: names of the right form, and at least one. *)
Definition query_acceptable (query : option legacy_userdb_query) (legacy_name_ display_name_ : option (list Z)) : bool :=
  match query with
  | None => true
  | Some _ =>
      match legacy_name_ with Some name => legacy_name name | None => true end
      && match display_name_ with Some name => legacy_display_name name | None => true end
      && (negb (is_null legacy_name_) || negb (is_null display_name_))
  end.

Lemma chars_bytes text : chars text → bytes_ok text.
Proof. intros H. eapply Forall_impl; [exact H|]. intros c Hc. cbv beta in Hc. split; [lia|]. change (2 ^ 8) with 256. lia. Qed.

Lemma query_is_valid_spec query legacy_name_ display_name_ :
  query_names query legacy_name_ display_name_ →
  query_is_valid query = Some (query_acceptable query legacy_name_ display_name_).
Proof.
  destruct query as [q|]; [|done]. intros [Hl Hd]. unfold query_is_valid, query_acceptable.
  assert ((if is_null (uq_legacy_name q) then Some true else legacy_userdb_legacy_name_is_valid (uq_legacy_name q)) =
          Some match legacy_name_ with Some name => legacy_name name | None => true end) as ->.
  { destruct legacy_name_ as [name|]; [|by rewrite Hl]. destruct Hl as [Hc [tail ->]]. cbn [is_null].
    by apply legacy_userdb_legacy_name_spec, chars_nonzero. }
  run_simpl.
  assert ((if is_null (uq_display_name q) then Some true else legacy_userdb_display_name_is_compatible (uq_display_name q)) =
          Some match display_name_ with Some name => legacy_display_name name | None => true end) as ->.
  { destruct display_name_ as [name|]; [|by rewrite Hd]. destruct Hd as [Hc [tail ->]]. cbn [is_null].
    apply legacy_userdb_display_name_spec; [by apply chars_bytes|by apply chars_nonzero]. }
  run_simpl.
  assert (is_null (uq_legacy_name q) = is_null legacy_name_ ∧ is_null (uq_display_name q) = is_null display_name_) as [-> ->].
  { split; [destruct legacy_name_; [by destruct Hl as [_ [? ->]]|by rewrite Hl]
           |destruct display_name_; [by destruct Hd as [_ [? ->]]|by rewrite Hd]]. }
  destruct (match legacy_name_ with Some _ => _ | None => _ end), (match display_name_ with Some _ => _ | None => _ end); done.
Qed.

Definition absolute_path (root : list Z) : bool := bool_decide (root !! 0%nat = Some (chr "/")).

Lemma absolute_spec root tail : absolute (Some (terminated root tail)) = Some (absolute_path root).
Proof.
  unfold absolute, absolute_path, terminated. destruct root as [|c root]; cbn [app]; rewrite buf_get_head; run_simpl; [done|].
  f_equal. apply eq_true_iff_eq. rewrite Z.eqb_eq, bool_decide_eq_true. cbn. split; [by intros ->|by intros [= ->]].
Qed.

(** The result, [*result] and [*error] of an inspection, and its history. *)
Inductive inspect_outcome (root : list Z) (query : option legacy_userdb_query)
    (legacy_name_ display_name_ : option (list Z)) (error : option legacy_userdb_error) (h : file_history)
    : option legacy_userdb_policy → option legacy_userdb_scan_result →
      Z * option legacy_userdb_scan_result * option legacy_userdb_error → file_history → Prop :=
| inspect_invalid policy result :
    absolute_path root && policy_is_valid policy && query_acceptable query legacy_name_ display_name_
      && negb (is_null result) = false →
    inspect_outcome root query legacy_name_ display_name_ error h policy result
      (-1, (λ _, cleared_scan 0) <$> result,
       set_error error LEGACY_USERDB_INVALID_ARGUMENT Errno.EINVAL LEGACY_USERDB_NO_RECORD
         (lit "invalid legacy users database argument")) h
| inspect_failed policy result partial error' h' :
    absolute_path root && policy_is_valid (Some policy) && query_acceptable query legacy_name_ display_name_ = true →
    userdb_reported root policy error error' h' →
    inspect_outcome root query legacy_name_ display_name_ error h (Some policy) (Some result) (-1, Some partial, error') h'
| inspect_done policy result fd status records opened tr :
    absolute_path root && policy_is_valid (Some policy) && query_acceptable query legacy_name_ display_name_ = true →
    users_file_opened root policy fd status opened → database_read policy fd status [] records tr →
    inspect_outcome root query legacy_name_ display_name_ error h (Some policy) (Some result)
      (0, Some (scanned_result (zlen records) legacy_name_ display_name_ records), legacy_userdb_error_clear error)
      (Close fd :: tr ++ opened ++ h).

(** C12: an inspection of the user database ends whatever the file system answers, with
    every descriptor that it has opened closed again and no other one touched. It
    succeeds only if the file has the status that the policy demands, was locked
    before anything was read, has the header of this build and a whole number of
    records, not more than the policy allows, whose texts all end within their
    arrays, if no two records in use have the same name without regard to case, and
    the file was the same at the end. The result then says, of the records that were
    read, how many there are and which one is the first with the legacy name, with
    the display name and with the handle that the query asks for, without regard to
    case, if there is one. Otherwise the error says which check or call failed, with
    its [errno], and at which record: for a record that could not be read or is not
    valid that is the number of those read before it, for a name that occurs twice
    the number of its second record. *)
Theorem inspect_correct `{FileSystemLaws} (limit : nat) `{!Undisturbed limit} (fuel : nat) root rtail policy query
    legacy_name_ display_name_ result error h :
  Forall (λ b, b ≠ 0) root → query_names query legacy_name_ display_name_ →
  (Z.to_nat LEGACY_USERDB_RECORD_SIZE + limit < fuel)%nat →
  wp (λ _, False) (legacy_userdb_inspect fuel (Some (terminated root rtail)) policy query result error)
    (λ r _ h', proper h h' ∧ open_fds h' = open_fds h ∧
       inspect_outcome root query legacy_name_ display_name_ error h policy result r h') tt h.
Proof.
  intros Hroot Hquery Hfuel. unfold legacy_userdb_inspect. cbv zeta.
  set (error0 := legacy_userdb_error_clear error).
  assert (set_error error0 = set_error error) as Hset by by destruct error.
  assert (∀ p error' h', userdb_reported root p error0 error' h' → userdb_reported root p error error' h') as Hrep by by destruct error.
  assert (legacy_userdb_error_clear error0 = legacy_userdb_error_clear error) as Hclear by by destruct error.
  wp_step. eapply (wp_lift _ _ (absolute_path root && policy_is_valid policy && query_acceptable query legacy_name_ display_name_
                                && negb (is_null result))).
  { rewrite absolute_spec, (query_is_valid_spec query legacy_name_ display_name_) by done. run_simpl.
    destruct (absolute_path root), (policy_is_valid policy), (query_acceptable _ _ _), result; done. }
  destruct (_ && _ && _ && _) eqn:Hvalid; cbn [negb].
  2: { wp_step. split; [constructor|]. split; [done|]. rewrite Hset. by constructor. }
  apply andb_true_iff in Hvalid as [Hvalid Hresult]. destruct result as [result|]; [|done].
  assert (∃ p, policy = Some p) as [p ->] by (destruct policy; [by eexists|by bools]).
  wp_step. eapply wp_lift; [reflexivity|]. wp_step. eapply wp_lift; [reflexivity|]. wp_step. eapply wp_lift; [reflexivity|].
  wp_step. eapply wp_mono; [apply (open_users_file_spec limit h fuel Hfuel root rtail p error0); [apply holding_start|done]|].
  intros [[fd status]|error'] s1 h1.
  2: { intros [[Hproper Hopen]%holding_end Hfailed]. wp_step. split; [done|]. split; [done|]. constructor; [done|by apply Hrep]. }
  intros (Hh & opened & Hopened & ->). wp_step.
  eapply wp_mono.
  { apply (inspect_file_spec limit h fuel Hfuel root p error0 query legacy_name_ display_name_ Hquery {[fd]} fd status);
      [exact Hh|set_solver|]. destruct Hopened. set_solver. }
  intros [failure scan] s2 h2 [Hh2 Hcase]. wp_step. eapply wp_close; [exact Hh2|set_solver|].
  replace ({[fd]} ∖ {[fd]} : gset Z) with (∅ : gset Z) by set_solver. intros [Hproper Hopen]%holding_end.
  destruct failure as [error'|]; wp_step; (split; [done|]; split; [done|]).
  - constructor; [done|]. apply Hrep. exact Hcase.
  - destruct Hcase as (records & tr & -> & Hread & ->). rewrite Hclear. by eapply inspect_done.
Qed.

(** The result, [*snapshot] and [*error] of an audit, and its history. *)
Inductive audit_outcome (root : list Z) (error : option legacy_userdb_error) (h : file_history)
    : option legacy_userdb_policy → option legacy_userdb_audit_snapshot →
      Z * option legacy_userdb_audit_snapshot * option legacy_userdb_error → file_history → Prop :=
| audit_invalid policy snapshot :
    absolute_path root && policy_is_valid policy
      && match snapshot with Some s => is_null (as_records s) && (as_record_count s =? 0) | None => false end = false →
    audit_outcome root error h policy snapshot
      (-1, snapshot,
       set_error error LEGACY_USERDB_INVALID_ARGUMENT Errno.EINVAL LEGACY_USERDB_NO_RECORD
         (lit "invalid legacy audit snapshot argument")) h
| audit_failed policy snapshot error' h' :
    absolute_path root && policy_is_valid (Some policy) = true → userdb_reported root policy error error' h' →
    audit_outcome root error h (Some policy) snapshot (-1, snapshot, error') h'
| audit_done policy snapshot fd status records opened tr snapshot' :
    absolute_path root && policy_is_valid (Some policy) = true →
    users_file_opened root policy fd status opened →
    database_read policy fd status (allocated (zlen records) sizeof_audit_record) records tr →
    snapshot_of status records snapshot' →
    audit_outcome root error h (Some policy) snapshot (0, Some snapshot', legacy_userdb_error_clear error)
      (Close fd :: tr ++ opened ++ h).

(** C20: an audit of the user database ends, closes what it has opened, and changes the
    snapshot only if it succeeds, under the conditions of an inspection. The snapshot
    then describes every record that was read: its names and its handle, whether it
    is empty, deleted or locked, and the registration that its comment names, if the
    comment is exactly a marker; a comment that only begins like a marker makes the
    audit fail at that record. *)
Theorem audit_snapshot_correct `{FileSystemLaws} (limit : nat) `{!Undisturbed limit} (fuel : nat) root rtail policy
    snapshot error h :
  Forall (λ b, b ≠ 0) root → (Z.to_nat LEGACY_USERDB_RECORD_SIZE + limit < fuel)%nat →
  wp (λ _, False) (legacy_userdb_read_audit_snapshot fuel (Some (terminated root rtail)) policy snapshot error)
    (λ r _ h', proper h h' ∧ open_fds h' = open_fds h ∧ audit_outcome root error h policy snapshot r h') tt h.
Proof.
  intros Hroot Hfuel. unfold legacy_userdb_read_audit_snapshot. cbv zeta.
  set (error0 := legacy_userdb_error_clear error).
  assert (set_error error0 = set_error error) as Hset by by destruct error.
  assert (∀ p error' h', userdb_reported root p error0 error' h' → userdb_reported root p error error' h') as Hrep by by destruct error.
  assert (legacy_userdb_error_clear error0 = legacy_userdb_error_clear error) as Hclear by by destruct error.
  set (cleared := match snapshot with Some s => _ | None => _ end).
  wp_step. eapply (wp_lift _ _ (absolute_path root && policy_is_valid policy && cleared)).
  { rewrite absolute_spec. run_simpl. by destruct (absolute_path root), (policy_is_valid policy), cleared. }
  destruct (_ && _ && _) eqn:Hvalid; cbn [negb].
  2: { wp_step. split; [constructor|]. split; [done|]. rewrite Hset. by constructor. }
  apply andb_true_iff in Hvalid as [Hvalid _].
  assert (∃ p, policy = Some p) as [p ->] by (destruct policy; [by eexists|by bools]).
  wp_step. eapply wp_lift; [reflexivity|]. wp_step. eapply wp_lift; [reflexivity|].
  wp_step. eapply wp_mono; [apply (open_users_file_spec limit h fuel Hfuel root rtail p error0); [apply holding_start|done]|].
  intros [[fd status]|error'] s1 h1.
  2: { intros [[Hproper Hopen]%holding_end Hfailed]. wp_step. split; [done|]. split; [done|]. constructor; [done|by apply Hrep]. }
  intros (Hh & opened & Hopened & ->). wp_step.
  eapply wp_mono.
  { apply (audit_file_spec limit h fuel root p error0 {[fd]} fd status); [done|exact Hh|set_solver|]. destruct Hopened. set_solver. }
  intros [snapshot'|error'] s2 h2.
  - intros (Hh2 & records & tr & Hsnapshot & Hread & ->). wp_step. eapply wp_close; [exact Hh2|set_solver|].
    replace ({[fd]} ∖ {[fd]} : gset Z) with (∅ : gset Z) by set_solver. intros [Hproper Hopen]%holding_end.
    wp_step. split; [done|]. split; [done|]. rewrite Hclear. by eapply audit_done.
  - intros [Hh2 Hfailed]. wp_step. eapply wp_close; [exact Hh2|set_solver|].
    replace ({[fd]} ∖ {[fd]} : gset Z) with (∅ : gset Z) by set_solver. intros [Hproper Hopen]%holding_end.
    wp_step. split; [done|]. split; [done|]. constructor; [done|]. apply Hrep. exact Hfailed.
Qed.

(** ** An example *)

(** The record of a registration, a record that is not in use, and one with this name. *)
Definition example_records (name : list Z) : list (list Z) :=
  [default [] (default None (build_record example_userdb_registration)); zeros LEGACY_USERDB_RECORD_SIZE;
   default [] (Some (zeros LEGACY_USERDB_RECORD_SIZE) |> put_text userrec.Name (name ++ [0])
                 |> put_text userrec.sUserName (lit "Somebody" ++ [0]) |> put_bit userrec.LockedOut true)].

Definition example_database (name : list Z) : list Z := expected_header ++ concat (example_records name).

(** A system with this database, which is delivered in parts of at most 200 bytes. *)
Definition database_system (data : list Z) : FileSystem := {|
  fs_open h directory name flags := inl (Z.of_nat (fresh (set_map Z.to_nat (open_fds h) : gset nat)));
  fs_fstat h fd := inl (Stat 1 2 (zlen data) 1000 100 0x81b0 1 (100, 0) (100, 0));
  fs_read h fd offset n :=
    if n <? 0 then inr Errno.EINVAL
    else inl (take (Z.to_nat (Z.min n 200)) (drop (Z.to_nat (default 0 offset)) (map u8 data)));
  fs_lock h fd := None;
  fs_calloc h count size := None;
|}.

#[export] Instance database_system_laws data : @FileSystemLaws (database_system data).
Proof.
  split.
  - cbn. intros h directory name flags fd [= <-]. split; [lia|]. intros Hin.
    destruct (is_fresh (set_map Z.to_nat (open_fds h) : gset nat)). apply elem_of_map. eexists. split; [|exact Hin]. lia.
  - cbn. intros h fd offset n bytes. destruct (Z.ltb_spec n 0); [done|]. intros [= <-]. split.
    + apply Forall_take, Forall_drop, Forall_forall. intros b (x & -> & _)%list_elem_of_fmap. apply u8_byte.
    + unfold zlen. rewrite length_take. lia.
Qed.

#[export] Instance database_system_undisturbed data : @Undisturbed (database_system data) 0.
Proof. intros h fd offset n. cbn. by destruct (n <? 0). Qed.

Definition example_userdb_policy : legacy_userdb_policy := UserdbPolicy true 1000 true 100 true 0x1b0 true 16.

Definition example_query : legacy_userdb_query :=
  UserdbQuery (Some (terminated (lit "bob") [])) (Some (terminated (lit "ALICE") [])).

Definition example_inspect (name : list Z) :=
  @legacy_userdb_inspect (database_system (example_database name)) 600 (Some (terminated (lit "/opt/mbse") []))
    (Some example_userdb_policy) (Some example_query) (Some (cleared_scan 0)) (Some cleared_error).

Definition example_audit (name : list Z) :=
  @legacy_userdb_read_audit_snapshot (database_system (example_database name)) 600
    (Some (terminated (lit "/opt/mbse") [])) (Some example_userdb_policy) (Some cleared_snapshot) None.

(** The code, the result and the number of the record that the error names. *)
Definition inspected (name : list Z) : option (Z * legacy_userdb_scan_result * Z) :=
  let! o := example_inspect name tt [] in
  match o with
  | Done (code, result, error) _ _ =>
      let! result := result in let! error := error in Some (code, result, ue_record_number error)
  | Exhausted _ => None
  end.

(** A name in capital letters is found; a database in which it occurs twice is refused. *)
Lemma inspect_correct_witness :
  wp (λ _, False) (example_inspect (lit "BOB"))
    (λ r _ h', proper [] h' ∧ open_fds h' = ∅ ∧
       inspect_outcome (lit "/opt/mbse") (Some example_query) (Some (lit "bob")) (Some (lit "ALICE"))
         (Some cleared_error) [] (Some example_userdb_policy) (Some (cleared_scan 0)) r h') tt [] ∧
  inspected (lit "BOB") =
    Some (0, ScanResult 3 true 2 true 0 false LEGACY_USERDB_NO_RECORD, LEGACY_USERDB_NO_RECORD) ∧
  inspected (lit "Alice") =
    Some (-1, ScanResult 3 false LEGACY_USERDB_NO_RECORD true 0 false LEGACY_USERDB_NO_RECORD, 2).
Proof.
  split_and!; [|vm_compute; reflexivity..].
  refine (@inspect_correct (database_system (example_database (lit "BOB"))) _ 0 _ 600 (lit "/opt/mbse") []
            (Some example_userdb_policy) (Some example_query) (Some (lit "bob")) (Some (lit "ALICE"))
            (Some (cleared_scan 0)) (Some cleared_error) [] _ _ _);
    [literal|split; (split; [literal|by eexists])|change (Z.to_nat _) with 598%nat; lia].
Defined.

(** What the audit says of the records: whether they are empty, locked and marked. *)
Definition audited_flags (name : list Z) : option (Z * list (bool * bool * bool)) :=
  let! o := example_audit name tt [] in
  match o with
  | Done (code, snapshot, _) _ _ =>
      let! snapshot := snapshot in let! records := as_records snapshot in
      Some (code, map (λ a, (ar_empty a, ar_locked_out a, ar_registration_marker_present a)) records)
  | Exhausted _ => None
  end.

Lemma audit_snapshot_correct_witness :
  wp (λ _, False) (example_audit (lit "BOB"))
    (λ r _ h', proper [] h' ∧ open_fds h' = ∅ ∧
       audit_outcome (lit "/opt/mbse") None [] (Some example_userdb_policy) (Some cleared_snapshot) r h') tt [] ∧
  audited_flags (lit "BOB") =
    Some (0, [(false, false, true); (true, false, false); (false, true, false)]).
Proof.
  split; [|vm_compute; reflexivity].
  refine (@audit_snapshot_correct (database_system (example_database (lit "BOB"))) _ 0 _ 600 (lit "/opt/mbse") []
            (Some example_userdb_policy) (Some cleared_snapshot) None [] _ _);
    [literal|change (Z.to_nat _) with 598%nat; lia].
Defined.
