(* ===== verification/Coordinator.v ===== *)
(** * The registration coordinator

    [fortytwo-auth/src/registration_coordinator.c]: a registration is begun with the
    daemon, prepared in the user database of the BBS, and committed with the daemon.
    Before the commit is requested everything can be taken back, afterwards nothing
    is. The FTAP calls are those of [FtapClient]. The writers of the user database
    are an environment that may answer anything; the step to the commit is the one
    of [LegacyProvision]. *)

From S2P Require Import Prelude Protocol Words Utf8 Codec Inet Schema Program Client Requests FtapClient.
From S2P Require Import ClientSpec ClientCalls ClientTiming LegacyUserdb LegacyNames LegacyProvision.

(** ** Data *)

Definition FORTYTWO_REGISTRATION_ERROR_TEXT_SIZE : Z := 192.

Inductive fortytwo_registration_status :=
| FORTYTWO_REGISTRATION_OK
| FORTYTWO_REGISTRATION_INVALID_ARGUMENT
| FORTYTWO_REGISTRATION_BEGIN_FAILED
| FORTYTWO_REGISTRATION_LEGACY_PREPARE_FAILED
| FORTYTWO_REGISTRATION_LEGACY_ROLLBACK_FAILED
| FORTYTWO_REGISTRATION_ABORT_FAILED
| FORTYTWO_REGISTRATION_COMMIT_GUARD_FAILED
| FORTYTWO_REGISTRATION_COMMIT_FAILED
| FORTYTWO_REGISTRATION_COMMIT_OUTCOME_UNKNOWN.

(** [rq_client] says whether the pointer to the client is not null; the client itself
    is the state of the program. *)
Record fortytwo_registration_request := RegistrationRequest {
  rq_client : bool;
  rq_mbse_root : ptr;
  rq_bbs_users_directory : ptr;
  rq_login_name : ptr;
  rq_display_name : ptr;
  rq_password : ptr;
  rq_password_length : Z;
  rq_metadata : option ftap_metadata;
  rq_registered_at : Z;
  rq_legacy_defaults : option legacy_userdb_record_defaults;
  rq_legacy_policy : option legacy_userdb_provision_policy;
}.

Record fortytwo_registration_result := RegistrationResult {
  rr_committed : bool;
  rr_marker_pending : bool;
  rr_repair_required : bool;
  rr_commit_outcome_unknown : bool;
  rr_registration : ftap_registration_context;
  rr_terminal : ftap_terminal_context;
  rr_legacy : legacy_userdb_prepared_registration;
  rr_finalize_error : legacy_userdb_error;
}.

Record fortytwo_registration_error := RegistrationError {
  re_status : fortytwo_registration_status;
  re_repair_required : bool;
  re_outcome_unknown : bool;
  re_abort_outcome_unknown : bool;
  re_ftap : ftap_client_error;
  re_legacy : legacy_userdb_error;
  re_rollback : legacy_userdb_error;
  re_text : list Z;
}.

Definition set_rr_registration v (r : fortytwo_registration_result) :=
  RegistrationResult (rr_committed r) (rr_marker_pending r) (rr_repair_required r)
    (rr_commit_outcome_unknown r) v (rr_terminal r) (rr_legacy r) (rr_finalize_error r).
Definition set_rr_commit_outcome_unknown v (r : fortytwo_registration_result) :=
  RegistrationResult (rr_committed r) (rr_marker_pending r) (rr_repair_required r) v (rr_registration r)
    (rr_terminal r) (rr_legacy r) (rr_finalize_error r).
Definition set_rr_committed (terminal : ftap_terminal_context) (r : fortytwo_registration_result) :=
  RegistrationResult true (rr_marker_pending r) (rr_repair_required r)
    (rr_commit_outcome_unknown r) (rr_registration r) terminal (rr_legacy r) (rr_finalize_error r).
(** [result->legacy], [marker_pending] and [repair_required] *)
Definition set_rr_pending (legacy : legacy_userdb_prepared_registration) (r : fortytwo_registration_result) :=
  RegistrationResult (rr_committed r) true true (rr_commit_outcome_unknown r) (rr_registration r)
    (rr_terminal r) legacy (rr_finalize_error r).
Definition set_rr_finalize_error v (r : fortytwo_registration_result) :=
  RegistrationResult (rr_committed r) (rr_marker_pending r) (rr_repair_required r)
    (rr_commit_outcome_unknown r) (rr_registration r) (rr_terminal r) (rr_legacy r) v.

Definition cleared_result : fortytwo_registration_result :=
  RegistrationResult false false false false zero_registration_context zero_terminal_context
    cleared_registration cleared_error.

Definition cleared_registration_error : fortytwo_registration_error :=
  RegistrationError FORTYTWO_REGISTRATION_OK false false false zero_client_error cleared_error cleared_error
    (zeros FORTYTWO_REGISTRATION_ERROR_TEXT_SIZE).

Abbreviation error_pointer := (option fortytwo_registration_error) (only parsing).

Definition fortytwo_registration_result_clear (result : option fortytwo_registration_result)
    : option fortytwo_registration_result := (λ _, cleared_result) <$> result.

Definition fortytwo_registration_error_clear (error : error_pointer) : error_pointer :=
  (λ _, cleared_registration_error) <$> error.

Definition set_error (error : error_pointer) (status : fortytwo_registration_status) (text : list Z)
    : error_pointer :=
  (λ e, RegistrationError status (re_repair_required e) (re_outcome_unknown e) (re_abort_outcome_unknown e)
          (re_ftap e) (re_legacy e) (re_rollback e) (snprintf_s (re_text e) text)) <$> error.

(** Assignments to members of [*error]. *)
Definition set_re_ftap (ftap : ftap_client_error) (outcome_unknown : bool) (e : fortytwo_registration_error) :=
  RegistrationError (re_status e) (re_repair_required e) outcome_unknown (re_abort_outcome_unknown e) ftap
    (re_legacy e) (re_rollback e) (re_text e).
Definition set_re_abort_outcome_unknown v (e : fortytwo_registration_error) :=
  RegistrationError (re_status e) (re_repair_required e) (re_outcome_unknown e) v (re_ftap e) (re_legacy e)
    (re_rollback e) (re_text e).
Definition set_re_repair_required v (e : fortytwo_registration_error) :=
  RegistrationError (re_status e) v (re_outcome_unknown e) (re_abort_outcome_unknown e) (re_ftap e)
    (re_legacy e) (re_rollback e) (re_text e).
Definition set_re_legacy v (e : fortytwo_registration_error) :=
  RegistrationError (re_status e) (re_repair_required e) (re_outcome_unknown e) (re_abort_outcome_unknown e)
    (re_ftap e) v (re_rollback e) (re_text e).
Definition set_re_rollback v (e : fortytwo_registration_error) :=
  RegistrationError (re_status e) (re_repair_required e) (re_outcome_unknown e) (re_abort_outcome_unknown e)
    (re_ftap e) (re_legacy e) v (re_text e).
(** [error->ftap.status] and [error->ftap.system_errno] *)
Definition set_re_ftap_argument (e : fortytwo_registration_error) :=
  let f := re_ftap e in
  set_re_ftap (ClientError FTAP_STATUS_ERR_ARGUMENT Errno.EINVAL (ce_protocol_error f) (ce_retry_after_ms f)
                 (ce_server_error f) (ce_outcome_unknown f) (ce_text f)) (re_outcome_unknown e) e.

(** ** What the coordinator calls *)

Inductive registration_call := BeginCall | CommitCall | AbortCall.

(** A call of the FTAP client, with the history of its system calls after it, and
    the calls of the writers of the user database with their results. *)
Inductive coordinator_event :=
| FtapCall (call : registration_call) (after : client_history)
| LegacyPrepare (registration : legacy_userdb_registration) (result : Z)
    (prepared : legacy_userdb_prepared_registration)
| LegacyRollback (prepared : legacy_userdb_prepared_registration) (result : Z)
| LegacyFinalize (prepared : legacy_userdb_prepared_registration) (result : Z).

Abbreviation coordinator_history := (list coordinator_event) (only parsing).

(** The functions of [legacy_userdb_provision.c] that change files: their result,
    the prepared registration that they leave, and their error. *)
Class LegacyStorage := {
  legacy_userdb_prepare_registration :
    coordinator_history → fortytwo_registration_request → legacy_userdb_registration →
    Z * legacy_userdb_prepared_registration * legacy_userdb_error;
  legacy_userdb_rollback_precommit :
    coordinator_history → fortytwo_registration_request → legacy_userdb_prepared_registration →
    Z * legacy_userdb_prepared_registration * legacy_userdb_error;
  legacy_userdb_finalize_committed :
    coordinator_history → fortytwo_registration_request → legacy_userdb_prepared_registration →
    Z * legacy_userdb_prepared_registration * legacy_userdb_error;
}.

Section coordinator.
Context `{Inet} `{ClientEnvironment} `{LegacyStorage}.

(** What the client has done before, and the fuel of its loops. *)
Context (before : client_history) (fuel : nat).

Abbreviation coordinator := (prog coordinator_event ftap_client) (only parsing).

(** What the client has done so far. *)
Fixpoint client_history_of (h : coordinator_history) : client_history :=
  match h with
  | [] => before
  | FtapCall _ after :: _ => after
  | _ :: h => client_history_of h
  end.

(** A call of the client. *)
Definition ftap {A} (call : registration_call) (m : prog client_event ftap_client A) : coordinator A :=
  λ s h,
    let! o := m s (client_history_of h) in
    Some match o with
         | Done a s after => Done a s (FtapCall call after :: h)
         | Exhausted after => Exhausted (FtapCall call after :: h)
         end.

Definition prepare_registration (request : fortytwo_registration_request)
    (registration : legacy_userdb_registration)
    : coordinator (Z * legacy_userdb_prepared_registration * legacy_userdb_error) :=
  service (λ h, legacy_userdb_prepare_registration h request registration)
    (λ '(result, prepared, _), LegacyPrepare registration result prepared).

Definition rollback_precommit (request : fortytwo_registration_request)
    (prepared : legacy_userdb_prepared_registration)
    : coordinator (Z * legacy_userdb_prepared_registration * legacy_userdb_error) :=
  service (λ h, legacy_userdb_rollback_precommit h request prepared)
    (λ '(result, _, _), LegacyRollback prepared result).

Definition finalize_committed (request : fortytwo_registration_request)
    (prepared : legacy_userdb_prepared_registration)
    : coordinator (Z * legacy_userdb_prepared_registration * legacy_userdb_error) :=
  service (λ h, legacy_userdb_finalize_committed h request prepared)
    (λ '(result, _, _), LegacyFinalize prepared result).

(** ** The code *)

Definition request_is_valid (request : option fortytwo_registration_request)
    (result : option fortytwo_registration_result) (client : ftap_client) : run bool :=
  match request with
  | None => Some false
  | Some r =>
      Some (negb (is_null result) && rq_client r && bool_decide (cl_state client = FTAP_STATE_HELLO_COMPLETE))
      &&! absolute (rq_mbse_root r) &&! absolute (rq_bbs_users_directory r)
      &&! Some (negb (is_null (rq_login_name r)) && negb (is_null (rq_display_name r))
                && negb (is_null (rq_password r)) && (0 <? rq_password_length r)
                && negb (is_null (rq_metadata r)) && (0 <? rq_registered_at r)
                && negb (is_null (rq_legacy_defaults r)) && negb (is_null (rq_legacy_policy r)))
  end.

Definition copy_prepared_result (result : fortytwo_registration_result)
    (prepared : legacy_userdb_prepared_registration) : fortytwo_registration_result :=
  if pr_prepared prepared then set_rr_pending prepared result else result.

(** The results are [-1], [*result] and [*error]. *)
Definition abort_after_local_failure (request : fortytwo_registration_request)
    (registration : ftap_registration_context) (prepared : legacy_userdb_prepared_registration)
    (primary_legacy_error : legacy_userdb_error) (primary_status : fortytwo_registration_status)
    (result : fortytwo_registration_result) (error : error_pointer)
    : coordinator (Z * fortytwo_registration_result * error_pointer) :=
  let error := set_re_legacy primary_legacy_error <$> error in
  let* (rollback_failed, result, error) :=
    if pr_prepared prepared then
      let* (rolled_back, prepared, rollback_error) := rollback_precommit request prepared in
      if negb (rolled_back =? 0)
      then ret (true, copy_prepared_result result prepared,
                (λ e, set_re_repair_required true (set_re_rollback rollback_error e)) <$> error)
      else ret (false, result, error)
    else ret (false, result, error) in
  let* (aborted, abort_error) :=
    ftap AbortCall (ftap_client_registration_abort fuel (Some registration)
                      (Some (FTAP_REGISTRATION_REASON_LEGACY_WRITE_FAILED ++ [0])) (Some zero_client_error)) in
  let* abort_error := lift (deref abort_error) in
  let abort_failed := negb (aborted =? 0) in
  let error :=
    if abort_failed
    then (λ e, set_re_abort_outcome_unknown (ce_outcome_unknown abort_error)
                 (set_re_ftap abort_error (ce_outcome_unknown abort_error) e)) <$> error
    else error in
  ret (-1, result,
       if rollback_failed then
         set_error error FORTYTWO_REGISTRATION_LEGACY_ROLLBACK_FAILED
           (lit "local registration cleanup failed; reconciliation required")
       else if abort_failed then
         set_error error FORTYTWO_REGISTRATION_ABORT_FAILED (lit "FTAP registration abort was not confirmed")
       else set_error error primary_status (lit "local legacy registration could not be prepared")).

(** The two names are pointers into the context of the registration. *)
Definition legacy_registration_of (request : fortytwo_registration_request)
    (defaults : legacy_userdb_record_defaults) (registration : ftap_registration_context)
    : legacy_userdb_registration :=
  UserdbRegistration (rg_registration_id registration) (rg_user_id registration)
    (Some (rg_legacy_name registration)) (Some (rg_display_name registration)) (rq_registered_at request) defaults.

(** The part of [fortytwo_registration_coordinate] from the commit on. *)
Definition commit_registration (request : fortytwo_registration_request)
    (registration : ftap_registration_context) (prepared : legacy_userdb_prepared_registration)
    (result : fortytwo_registration_result) (error : error_pointer)
    : coordinator (Z * fortytwo_registration_result * error_pointer) :=
  let* (terminal, ftap_error) :=
    ftap CommitCall (ftap_client_registration_commit fuel (Some registration) (Some zero_client_error)) in
  let* ftap_error := lift (deref ftap_error) in
  match terminal with
  | None =>
      let unknown := ce_outcome_unknown ftap_error in
      let error := (λ e, set_re_repair_required true (set_re_ftap ftap_error unknown e)) <$> error in
      ret (-1, set_rr_commit_outcome_unknown unknown (copy_prepared_result result prepared),
           set_error error
             (if unknown then FORTYTWO_REGISTRATION_COMMIT_OUTCOME_UNKNOWN else FORTYTWO_REGISTRATION_COMMIT_FAILED)
             (if unknown then lit "FTAP commit outcome is unknown; local data retained"
              else lit "FTAP commit failed; local data retained for reconciliation"))
  | Some terminal =>
      let result := set_rr_committed terminal result in
      let* (finalized, prepared, legacy_error) := finalize_committed request prepared in
      let result :=
        if negb (finalized =? 0) then set_rr_finalize_error legacy_error (set_rr_pending prepared result)
        else result in
      ret (0, result, fortytwo_registration_error_clear error)
  end.

Definition fortytwo_registration_coordinate (request : option fortytwo_registration_request)
    (result : option fortytwo_registration_result) (error : error_pointer)
    : coordinator (Z * option fortytwo_registration_result * error_pointer) :=
  let result := fortytwo_registration_result_clear result in
  let error := fortytwo_registration_error_clear error in
  let* client := get in
  let* valid := lift (request_is_valid request result client) in
  if negb valid then
    ret (-1, result,
         set_re_ftap_argument <$>
           set_error error FORTYTWO_REGISTRATION_INVALID_ARGUMENT
             (lit "invalid registration coordinator request"))
  else
    let* request := lift (deref request) in
    let* result := lift (deref result) in
    let* defaults := lift (deref (rq_legacy_defaults request)) in
    let* (begun, ftap_error) :=
      ftap BeginCall (ftap_client_registration_begin fuel (rq_login_name request) (rq_display_name request)
                        (rq_password request) (rq_password_length request) (rq_metadata request)
                        (Some zero_client_error)) in
    let* ftap_error := lift (deref ftap_error) in
    match begun with
    | None =>
        let error := set_re_ftap ftap_error (ce_outcome_unknown ftap_error) <$> error in
        ret (-1, Some result,
             set_error error FORTYTWO_REGISTRATION_BEGIN_FAILED (lit "FTAP registration begin failed"))
    | Some registration =>
        let result := set_rr_registration registration result in
        let* (prepare_result, prepared, legacy_error) :=
          prepare_registration request (legacy_registration_of request defaults registration) in
        let* (code, result, error) :=
          if negb (prepare_result =? 0)
          then abort_after_local_failure request registration prepared legacy_error
                 FORTYTWO_REGISTRATION_LEGACY_PREPARE_FAILED result error
          else
            let* (marked, prepared, legacy_error) :=
              lift (legacy_userdb_mark_commit_started (Some prepared) (Some legacy_error)) in
            let* prepared := lift (deref prepared) in
            let* legacy_error := lift (deref legacy_error) in
            if negb (marked =? 0)
            then abort_after_local_failure request registration prepared legacy_error
                   FORTYTWO_REGISTRATION_COMMIT_GUARD_FAILED result error
            else commit_registration request registration prepared result error in
        ret (code, Some result, error)
    end.
End coordinator.

(** ** What is assumed *)

(** The arrays of a prepared registration. *)
Record prepared_memory (p : legacy_userdb_prepared_registration) : Prop := {
  pm_registration_id : bytes_ok (pr_registration_id p) ∧ length (pr_registration_id p) = 16%nat;
  pm_user_id : bytes_ok (pr_user_id p) ∧ length (pr_user_id p) = 16%nat;
  pm_legacy_name : zlen (pr_legacy_name p) = LEGACY_USERDB_LEGACY_NAME_MAX + 1;
  pm_display_name : bytes_ok (pr_display_name p) ∧ zlen (pr_display_name p) = LEGACY_USERDB_DISPLAY_NAME_MAX + 1;
}.

(** The writers of the user database leave a structure whose members are arrays of
    their size, whatever they report. *)
Class LegacyStorageLaws `{LegacyStorage} : Prop := {
  law_prepare h request registration result prepared error :
    legacy_userdb_prepare_registration h request registration = (result, prepared, error) →
    prepared_memory prepared;
}.

Lemma strnlen_total s maximum : (maximum <= length s)%nat → ∃ n, strnlen s maximum = Some n ∧ 0 <= n <= Z.of_nat maximum.
Proof.
  revert s. induction maximum as [|maximum IH]; intros s Hs; [by exists 0|].
  destruct s as [|b s]; [cbn in Hs; lia|]. cbn [strnlen]. destruct (b =? 0); [exists 0; split; [done|lia]|].
  destruct (IH s) as (n & -> & Hn); [cbn in Hs; lia|]. exists (1 + n). split; [done|lia].
Qed.

Lemma legacy_name_check_total name :
  zlen name = LEGACY_USERDB_LEGACY_NAME_MAX + 1 → is_Some (legacy_userdb_legacy_name_is_valid (Some name)).
Proof.
  intros Hlen. unfold legacy_userdb_legacy_name_is_valid.
  destruct (strnlen_total name (Z.to_nat (LEGACY_USERDB_LEGACY_NAME_MAX + 1))) as (n & Hn & _); [unfold zlen in Hlen; lia|].
  destruct (Z.leb_spec n LEGACY_USERDB_LEGACY_NAME_MAX) as [Hle|Hgt].
  - destruct (strnlen_inv _ _ _ Hn) as (text & tail & -> & Hnz & ->); [cbn in *; lia|].
    pose proof (legacy_userdb_legacy_name_spec text tail Hnz) as Hs. unfold legacy_userdb_legacy_name_is_valid in Hs.
    rewrite Hs. by eexists.
  - rewrite Hn. run_simpl. rewrite (proj2 (Z.ltb_lt LEGACY_USERDB_LEGACY_NAME_MAX n)), orb_true_r by done. by eexists.
Qed.

Lemma display_name_check_total name :
  bytes_ok name → zlen name = LEGACY_USERDB_DISPLAY_NAME_MAX + 1 →
  is_Some (legacy_userdb_display_name_is_compatible (Some name)).
Proof.
  intros Hok Hlen. unfold legacy_userdb_display_name_is_compatible.
  destruct (strnlen_total name (Z.to_nat (LEGACY_USERDB_DISPLAY_NAME_MAX + 1))) as (n & Hn & _); [unfold zlen in Hlen; lia|].
  destruct (Z.leb_spec n LEGACY_USERDB_DISPLAY_NAME_MAX) as [Hle|Hgt].
  - destruct (strnlen_inv _ _ _ Hn) as (text & tail & -> & Hnz & ->); [cbn in *; lia|].
    apply bytes_ok_app in Hok as [Hok _].
    pose proof (legacy_userdb_display_name_spec text tail Hok Hnz) as Hs.
    unfold legacy_userdb_display_name_is_compatible in Hs. rewrite Hs. by eexists.
  - rewrite Hn. run_simpl. rewrite (proj2 (Z.ltb_lt LEGACY_USERDB_DISPLAY_NAME_MAX n)), orb_true_r by done. by eexists.
Qed.

Lemma run_and_total a b : is_Some a → is_Some b → is_Some (run_and a b).
Proof. intros [[] ->] [y ->]; by eexists. Qed.

(** The step to the commit never leaves the structure. *)
Lemma prepared_check_total p : prepared_memory p → is_Some (prepared_context_is_valid (Some p)).
Proof.
  intros [[Hrb Hrl] [Hub Hul] Hname [Hdb Hdl]]. unfold prepared_context_is_valid.
  repeat apply run_and_total; try (by eexists).
  - rewrite provision_uuid_is_nonzero_spec by done. by eexists.
  - rewrite provision_uuid_is_nonzero_spec by done. by eexists.
  - by apply legacy_name_check_total.
  - by apply display_name_check_total.
  - rewrite build_names_spec by done. run_simpl. by eexists.
Qed.

(** ** Outcomes *)

Section outcomes.
Context `{Inet} `{ClientLaws} `{LegacyStorageLaws}.
Context (before : client_history) (pace fuel : nat) `{!PacedClock pace}.

Notation returns := (wp (λ _, False)).
Notation client_history_of := (client_history_of before).

(** A call of the client that ends. *)
Lemma ftap_returns {A} call (m : prog client_event ftap_client A) Q s h :
  returns m (λ a s after, Q a s (FtapCall call after :: h)) s (client_history_of h) →
  returns (ftap before call m) Q s h.
Proof. unfold wp, ftap. by destruct (m s (client_history_of h)) as [[]|]. Qed.

(** The two results of the step to the commit. *)
Lemma mark_cases p error :
  prepared_memory p →
  (prepared_context_is_valid (Some p) = Some true ∧
   legacy_userdb_mark_commit_started (Some p) (Some error) = Some (0, Some (set_pr_commit_started p), Some cleared_error)) ∨
  (prepared_context_is_valid (Some p) = Some false ∧
   ∃ e, legacy_userdb_mark_commit_started (Some p) (Some error) = Some (-1, Some p, Some e) ∧
     ue_status e = LEGACY_USERDB_CONTEXT_INVALID).
Proof.
  intros Hp. destruct (prepared_check_total p Hp) as [[|] Hv]; [left|right]; (split; [done|]);
    unfold legacy_userdb_mark_commit_started; rewrite Hv; run_simpl; cbn [negb deref]; [done|by eexists].
Qed.

(** What the error says, if the caller asks for it. *)
Definition error_says (error error' : error_pointer) (P : fortytwo_registration_error → Prop) : Prop :=
  match error, error' with
  | Some _, Some e => P e
  | None, None => True
  | _, _ => False
  end.

(** A request with all its parts. *)
Record request_parts (request : fortytwo_registration_request) (s : ftap_client)
    (login display password : list Z) (metadata : ftap_metadata) (defaults : legacy_userdb_record_defaults) : Prop := {
  qp_state : cl_state s = FTAP_STATE_HELLO_COMPLETE;
  qp_login : rq_login_name request = Some login ∧ bytes_ok login;
  qp_display : rq_display_name request = Some display ∧ bytes_ok display;
  qp_password : (∃ tail, rq_password request = Some (password ++ tail) ∧ bytes_ok (password ++ tail)) ∧
    rq_password_length request = zlen password ∧ 0 < zlen password;
  qp_metadata : rq_metadata request = Some metadata ∧ metadata_ok metadata;
  qp_defaults : rq_legacy_defaults request = Some defaults;
}.

Section outcome.
Context (request : fortytwo_registration_request) (login display password : list Z) (metadata : ftap_metadata)
  (defaults : legacy_userdb_record_defaults).

(** The registration is begun, with this outcome. *)
Definition begun (s : ftap_client) (h : coordinator_history) (registration : option ftap_registration_context)
    (e : ftap_client_error) (s1 : ftap_client) (h1 : client_history) : Prop :=
  call_post (begin_call login display password metadata) registration_of (Some zero_client_error) s
    (client_history_of h) (registration, Some e) s1 h1.

(** It is prepared in the user database after [FtapCall BeginCall h1]. *)
Definition prepared_with (h : coordinator_history) (registration : ftap_registration_context)
    (answer : Z * legacy_userdb_prepared_registration * legacy_userdb_error) : Prop :=
  legacy_userdb_prepare_registration h request (legacy_registration_of request defaults registration) = answer.

(** Why the registration is taken back, and the error of the user database. *)
Inductive local_failure (prepare_result : Z) (prepared : legacy_userdb_prepared_registration)
    (prepare_error : legacy_userdb_error) : fortytwo_registration_status → legacy_userdb_error → Prop :=
| not_prepared :
    prepare_result ≠ 0 →
    local_failure prepare_result prepared prepare_error FORTYTWO_REGISTRATION_LEGACY_PREPARE_FAILED prepare_error
| not_committable e :
    prepare_result = 0 → prepared_context_is_valid (Some prepared) = Some false →
    ue_status e = LEGACY_USERDB_CONTEXT_INVALID →
    local_failure prepare_result prepared prepare_error FORTYTWO_REGISTRATION_COMMIT_GUARD_FAILED e.

(** The rollback, if there is anything to roll back: whether it failed and what remains. *)
Inductive rolled_back (h : coordinator_history) (prepared : legacy_userdb_prepared_registration) :
    bool → option legacy_userdb_prepared_registration → coordinator_history → Prop :=
| nothing_prepared : pr_prepared prepared = false → rolled_back h prepared false None h
| removed prepared' e :
    pr_prepared prepared = true → legacy_userdb_rollback_precommit h request prepared = (0, prepared', e) →
    rolled_back h prepared false None (LegacyRollback prepared 0 :: h)
| not_removed code prepared' e :
    pr_prepared prepared = true → code ≠ 0 →
    legacy_userdb_rollback_precommit h request prepared = (code, prepared', e) →
    rolled_back h prepared true (if pr_prepared prepared' then Some prepared' else None)
      (LegacyRollback prepared code :: h).

(** What is left in the user database and must be repaired. *)
Definition left_behind (remains : option legacy_userdb_prepared_registration) (result : fortytwo_registration_result) : Prop :=
  match remains with
  | Some p => rr_marker_pending result = true ∧ rr_repair_required result = true ∧ rr_legacy result = p
  | None => rr_marker_pending result = false ∧ rr_repair_required result = false
  end.

Inductive coordinated (error : error_pointer) (s : ftap_client) (h : coordinator_history) :
    Z → fortytwo_registration_result → error_pointer → ftap_client → coordinator_history → Prop :=
| coordinated_not_begun e h1 s' error' :
    begun s h None e s' h1 →
    error_says error error' (λ e', re_status e' = FORTYTWO_REGISTRATION_BEGIN_FAILED ∧ re_ftap e' = e ∧
      re_repair_required e' = false) →
    coordinated error s h (-1) cleared_result error' s' (FtapCall BeginCall h1 :: h)
| coordinated_taken_back registration e1 s1 h1 code prepared le status primary failed remains h2 aborted e3 h3 s' result error' :
    begun s h (Some registration) e1 s1 h1 →
    let hb := FtapCall BeginCall h1 :: h in
    prepared_with hb registration (code, prepared, le) → local_failure code prepared le status primary →
    rolled_back (LegacyPrepare (legacy_registration_of request defaults registration) code prepared :: hb)
      prepared failed remains h2 →
    coded (call_post (abort_call registration (Some (FTAP_REGISTRATION_REASON_LEGACY_WRITE_FAILED ++ [0])))
      (λ _ _, True) (Some zero_client_error) s1 h1) (aborted, Some e3) s' h3 →
    rr_committed result = false → rr_registration result = registration → left_behind remains result →
    error_says error error' (λ e', re_legacy e' = primary ∧ re_repair_required e' = failed ∧
      re_status e' = (if failed then FORTYTWO_REGISTRATION_LEGACY_ROLLBACK_FAILED
                      else if aborted =? 0 then status else FORTYTWO_REGISTRATION_ABORT_FAILED) ∧
      re_abort_outcome_unknown e' = (if aborted =? 0 then false else ce_outcome_unknown e3)) →
    coordinated error s h (-1) result error' s' (FtapCall AbortCall h3 :: h2)
| coordinated_not_committed registration e1 s1 h1 prepared le e2 h2 s' result error' :
    begun s h (Some registration) e1 s1 h1 →
    let hb := FtapCall BeginCall h1 :: h in
    prepared_with hb registration (0, prepared, le) → prepared_context_is_valid (Some prepared) = Some true →
    call_post (commit_call registration) context_of (Some zero_client_error) s1 h1 (None, Some e2) s' h2 →
    rr_committed result = false → rr_registration result = registration →
    left_behind (Some (set_pr_commit_started prepared)) result →
    rr_commit_outcome_unknown result = ce_outcome_unknown e2 →
    error_says error error' (λ e', re_ftap e' = e2 ∧ re_repair_required e' = true ∧
      re_outcome_unknown e' = ce_outcome_unknown e2 ∧
      re_status e' = (if ce_outcome_unknown e2 then FORTYTWO_REGISTRATION_COMMIT_OUTCOME_UNKNOWN
                      else FORTYTWO_REGISTRATION_COMMIT_FAILED)) →
    coordinated error s h (-1) result error' s'
      (FtapCall CommitCall h2 :: LegacyPrepare (legacy_registration_of request defaults registration) 0 prepared :: hb)
| coordinated_committed registration e1 s1 h1 prepared le terminal e2 h2 s' code prepared' e3 result :
    begun s h (Some registration) e1 s1 h1 →
    let hb := FtapCall BeginCall h1 :: h in
    prepared_with hb registration (0, prepared, le) → prepared_context_is_valid (Some prepared) = Some true →
    call_post (commit_call registration) context_of (Some zero_client_error) s1 h1 (Some terminal, Some e2) s' h2 →
    let hc := FtapCall CommitCall h2 :: LegacyPrepare (legacy_registration_of request defaults registration) 0 prepared :: hb in
    legacy_userdb_finalize_committed hc request (set_pr_commit_started prepared) = (code, prepared', e3) →
    rr_committed result = true → rr_registration result = registration → rr_terminal result = terminal →
    left_behind (if code =? 0 then None else Some prepared') result →
    (code ≠ 0 → rr_finalize_error result = e3) →
    coordinated error s h 0 result (fortytwo_registration_error_clear error) s'
      (LegacyFinalize (set_pr_commit_started prepared) code :: hc).
End outcome.

(** The identifiers of a registration that was begun are arrays of their size. *)
Lemma uuid_member_ok message_type state type fs :
  fields_ok message_type (message_rules state message_type) fs → Forall wire_ok fs →
  ftap_field_type_is_known type = true → field_kind type = Some (KFixed FTAP_UUID_SIZE) →
  uuid_ok (uuid_member type fs).
Proof.
  intros Hfs Hw Hknown Hkind. unfold uuid_member. destruct (value_of type fs) as [v|] eqn:Ev; cbn [default from_option].
  2:{ split; [apply Forall_replicate; by vm_compute|done]. }
  apply value_of_in in Ev as (f & Hf & <- & <-). rewrite Forall_forall in Hw.
  destruct (fields_known _ _ _ Hfs f Hf Hknown) as [[(k & Hk & Hok) _] _]. rewrite Hkind in Hk.
  injection Hk as <-. split; [apply (Hw f Hf)|done].
Qed.

Lemma begun_ids login display password metadata s h registration e s1 h1 :
  begun login display password metadata s h (Some registration) e s1 h1 →
  cl_state s1 = FTAP_STATE_REGISTERING ∧ cl_timeout_ms s1 = cl_timeout_ms s ∧
  uuid_ok (rg_registration_id registration) ∧ uuid_ok (rg_user_id registration).
Proof.
  intros ((_ & Ht & _) & fs & rs & _ & Hstate & _ & _ & Ha & _ & Hr).
  destruct (answered_fields _ _ _ _ _ _ Ha) as (Hfs & Hw & _). split; [done|]. split; [done|].
  rewrite (yo_id _ _ Hr), (yo_user _ _ Hr). split; by eapply uuid_member_ok.
Qed.

(** ** Proofs *)

Section proofs.
Context (request : fortytwo_registration_request) (login display password : list Z) (metadata : ftap_metadata)
  (defaults : legacy_userdb_record_defaults).

(** A call reports an error exactly if it was given a place for one. *)
Lemma call_error {A} (c : call) (value : list field → A → Prop) e0 s h a e s' h' :
  (∀ e e', ca_lost c e e' → is_Some e → is_Some e') →
  call_post c value (Some e0) s h (a, e) s' h' → is_Some e.
Proof.
  intros Hlost [_ Hpost]. destruct a as [a|].
  - destruct Hpost as (fs & rs & _ & _ & -> & _). by eexists.
  - destruct Hpost as [(_ & _ & _ & Hl)|(fs & _ & _ & Hg)].
    + destruct e; [by eexists|done].
    + destruct Hg as [(n & _ & _ & _ & Hl)|_ (rs & _ & Hl)|_ Hl _ _].
      * destruct e; [by eexists|done].
      * destruct e; [by eexists|done].
      * by eapply Hlost.
Qed.

Lemma local_some e e' : local_error e e' → is_Some e → is_Some e'.
Proof. intros He [x ->]. destruct e'; [by eexists|done]. Qed.

Lemma uncertain_some e e' : uncertain e e' → is_Some e → is_Some e'.
Proof. intros He [x ->]. destruct e'; [by eexists|done]. Qed.

Lemma patient_same s s' : cl_timeout_ms s' = cl_timeout_ms s → patient pace fuel s → patient pace fuel s'.
Proof. unfold patient. by intros ->. Qed.

Lemma reason_ok : text_ok (Some (FTAP_REGISTRATION_REASON_LEGACY_WRITE_FAILED ++ [0])).
Proof. intros l [= <-]. apply (bool_decide_unpack _). vm_compute. exact I. Qed.

(** The registration is taken back. *)
Lemma abort_after_local_failure_spec registration prepared primary status result error s h h1 :
  patient pace fuel s → uuid_ok (rg_registration_id registration) → client_history_of h = h1 →
  rr_marker_pending result = false → rr_repair_required result = false →
  returns (abort_after_local_failure before fuel request registration prepared primary status result error)
    (λ '(code, result', error') s' h', code = -1 ∧ ∃ failed remains h2 aborted e3 h3,
       h' = FtapCall AbortCall h3 :: h2 ∧ rolled_back request h prepared failed remains h2 ∧
       coded (call_post (abort_call registration (Some (FTAP_REGISTRATION_REASON_LEGACY_WRITE_FAILED ++ [0])))
         (λ _ _, True) (Some zero_client_error) s h1) (aborted, Some e3) s' h3 ∧
       rr_committed result' = rr_committed result ∧ rr_registration result' = rr_registration result ∧
       left_behind remains result' ∧
       error_says error error' (λ e', re_legacy e' = primary ∧
         re_repair_required e' = (if failed then true else from_option re_repair_required false error) ∧
         re_status e' = (if failed then FORTYTWO_REGISTRATION_LEGACY_ROLLBACK_FAILED
                         else if aborted =? 0 then status else FORTYTWO_REGISTRATION_ABORT_FAILED) ∧
         re_abort_outcome_unknown e' = (if aborted =? 0 then from_option re_abort_outcome_unknown false error
                                        else ce_outcome_unknown e3))) s h.
Proof.
  intros Hpatient Hid Hh1 Hpending Hrepair. unfold abort_after_local_failure. cbv zeta. wp_step.
  apply (wp_mono _ _ (λ '(failed, result', error') s' h2, s' = s ∧ ∃ remains,
    rolled_back request h prepared failed remains h2 ∧ client_history_of h2 = h1 ∧
    rr_committed result' = rr_committed result ∧ rr_registration result' = rr_registration result ∧
    left_behind remains result' ∧
    error_says error error' (λ e', re_legacy e' = primary ∧
      re_repair_required e' = (if failed then true else from_option re_repair_required false error) ∧
      re_abort_outcome_unknown e' = from_option re_abort_outcome_unknown false error))).
  { destruct (pr_prepared prepared) eqn:Hp.
    2:{ wp_step. split; [done|]. exists None. split; [by constructor|]. split_and!; try done. by destruct error. }
    wp_step. unfold rollback_precommit. apply wp_service. intros [[code prepared'] e] Ha. symmetry in Ha.
    cbv beta iota. destruct (Z.eqb_spec code 0) as [->|Hcode]; cbn [negb]; wp_step; (split; [done|]).
    - exists None. split; [by eapply removed|]. split_and!; try done. by destruct error.
    - eexists. split; [by eapply not_removed|]. split; [done|]. unfold copy_prepared_result.
      destruct (pr_prepared prepared'); split_and!; try done; by destruct error. }
  intros [[failed result'] error'] s' h2 (-> & remains & Hback & Hh2 & Hc & Hr & Hleft & He). cbv beta iota.
  wp_step. apply ftap_returns. rewrite Hh2.
  eapply wp_mono.
  { eapply ends_wp; [by apply ftap_client_registration_abort_spec; [|apply reason_ok]|].
    by apply (ftap_client_registration_abort_ends pace fuel). }
  intros [aborted e] s' h3 Hpost. cbv beta iota.
  assert (is_Some e) as [e3 ->].
  { destruct Hpost as [_ Hpost]. cbn [fst snd] in Hpost. eapply call_error; [|exact Hpost]. apply uncertain_some. }
  wp_step. eapply wp_lift; [reflexivity|]. wp_step. split; [done|].
  exists failed, remains, h2, aborted, e3, h3. split; [done|]. split; [done|]. split; [done|].
  split; [done|]. split; [done|]. split; [done|].
  destruct error as [e|], error' as [e'|]; try done; [|by destruct failed, (aborted =? 0)].
  destruct He as (He1 & He2 & He3). destruct failed, (aborted =? 0); cbn; split_and!; done.
Qed.

(** From the commit on. *)
Lemma coordinator_commit_spec registration prepared result error s h h1 :
  patient pace fuel s → uuid_ok (rg_registration_id registration) → client_history_of h = h1 →
  rr_committed result = false → rr_marker_pending result = false → rr_repair_required result = false →
  pr_prepared prepared = true →
  returns (commit_registration before fuel request registration prepared result error)
    (λ '(code, result', error') s' h', ∃ answer e2 h2,
       call_post (commit_call registration) context_of (Some zero_client_error) s h1 (answer, Some e2) s' h2 ∧
       rr_registration result' = rr_registration result ∧
       match answer with
       | None => code = -1 ∧ h' = FtapCall CommitCall h2 :: h ∧ rr_committed result' = false ∧
           left_behind (Some prepared) result' ∧ rr_commit_outcome_unknown result' = ce_outcome_unknown e2 ∧
           error_says error error' (λ e', re_ftap e' = e2 ∧ re_repair_required e' = true ∧
             re_outcome_unknown e' = ce_outcome_unknown e2 ∧
             re_status e' = (if ce_outcome_unknown e2 then FORTYTWO_REGISTRATION_COMMIT_OUTCOME_UNKNOWN
                             else FORTYTWO_REGISTRATION_COMMIT_FAILED))
       | Some terminal => code = 0 ∧ ∃ finalized prepared' e3,
           h' = LegacyFinalize prepared finalized :: FtapCall CommitCall h2 :: h ∧
           legacy_userdb_finalize_committed (FtapCall CommitCall h2 :: h) request prepared = (finalized, prepared', e3) ∧
           rr_committed result' = true ∧ rr_terminal result' = terminal ∧
           left_behind (if finalized =? 0 then None else Some prepared') result' ∧
           (finalized ≠ 0 → rr_finalize_error result' = e3) ∧ error' = fortytwo_registration_error_clear error
       end) s h.
Proof.
  intros Hpatient Hid Hh1 Hcommitted Hpending Hrepair Hprepared. unfold commit_registration. wp_step.
  apply ftap_returns. rewrite Hh1.
  eapply wp_mono.
  { eapply ends_wp; [by apply ftap_client_registration_commit_spec|].
    by apply (ftap_client_registration_commit_ends pace fuel). }
  intros [answer e] s' h2 Hpost. cbv beta iota.
  assert (is_Some e) as [e2 ->].
  { eapply call_error; [|exact Hpost]. apply uncertain_some. }
  wp_step. eapply wp_lift; [reflexivity|]. destruct answer as [terminal|].
  - wp_step. unfold finalize_committed. apply wp_service. intros [[finalized prepared'] e3] Ha. symmetry in Ha.
    cbv beta iota. wp_step. exists (Some terminal), e2, h2. split; [done|].
    assert (∀ r, rr_registration (if negb (finalized =? 0) then set_rr_finalize_error e3 (set_rr_pending prepared' r) else r)
      = rr_registration r) as Hreg by (by intros r; destruct (negb _)).
    split; [by rewrite Hreg|]. split; [done|]. exists finalized, prepared', e3. split; [done|]. split; [done|].
    destruct (Z.eqb_spec finalized 0) as [->|Hf]; cbn [negb]; by split_and!.
  - wp_step. exists None, e2, h2. split; [done|]. unfold copy_prepared_result. rewrite Hprepared.
    split; [done|]. split; [done|]. split; [done|]. split; [done|]. split; [done|]. split; [done|].
    by destruct error.
Qed.

Lemma valid_prepared prepared : prepared_context_is_valid (Some prepared) = Some true → pr_prepared prepared = true.
Proof.
  unfold prepared_context_is_valid. cbv zeta. rewrite !run_and_true. intros [[[[[[Hp _] _] _] _] _] _]. by injection Hp.
Qed.

(** A registration that cannot be committed. *)
Lemma taken_back registration e1 s h s1 h1 code prepared le status primary error :
  patient pace fuel s1 → begun login display password metadata s h (Some registration) e1 s1 h1 →
  let hb := FtapCall BeginCall h1 :: h in
  prepared_with request defaults hb registration (code, prepared, le) → local_failure code prepared le status primary →
  returns (abort_after_local_failure before fuel request registration prepared primary status
             (set_rr_registration registration cleared_result) (fortytwo_registration_error_clear error))
    (λ '(code, result, error') s' h',
       coordinated request login display password metadata defaults error s h code result error' s' h')
    s1 (LegacyPrepare (legacy_registration_of request defaults registration) code prepared :: hb).
Proof.
  intros Hpatient Hbegun hb Hprepare Hfailure. destruct (begun_ids _ _ _ _ _ _ _ _ _ _ Hbegun) as (_ & _ & Hid & _).
  eapply wp_mono; [eapply abort_after_local_failure_spec; [exact Hpatient|exact Hid|reflexivity|done|done]|].
  intros [[c r] error'] s' h' (-> & failed & remains & h2 & aborted & e3 & h3 & -> & Hback & Habort & Hc & Hr & Hleft & He).
  eapply coordinated_taken_back; [exact Hbegun|exact Hprepare|exact Hfailure|exact Hback|exact Habort|done|done|done|].
  destruct error; cbn in He |- *; [|by destruct error']. destruct error'; [|done].
  destruct He as (? & ? & ? & ?). by destruct failed, (aborted =? 0).
Qed.

(** A request with all its parts is carried out. *)
Lemma coordinate_spec result error s h :
  request_parts request s login display password metadata defaults →
  request_is_valid (Some request) (Some result) s = Some true → patient pace fuel s →
  returns (fortytwo_registration_coordinate before fuel (Some request) (Some result) error)
    (λ '(code, result', error') s' h', ∃ r, result' = Some r ∧
       coordinated request login display password metadata defaults error s h code r error' s' h') s h.
Proof.
  intros [Hstate [Hlogin Hlok] [Hdisplay Hdok] [(tail & Hpassword & Hpok) [Hplen Hppos]] [Hmetadata Hmok] Hdefaults]
    Hvalid Hpatient.
  unfold fortytwo_registration_coordinate. cbv zeta. do 2 wp_step.
  assert (request_is_valid (Some request) (fortytwo_registration_result_clear (Some result)) s = Some true) as Hvalid'
    by exact Hvalid.
  wp_step. eapply wp_lift; [exact Hvalid'|]. cbn [negb].
  wp_step. eapply wp_lift; [reflexivity|]. wp_step. eapply wp_lift; [reflexivity|].
  wp_step. eapply wp_lift; [exact Hdefaults|]. rewrite Hlogin, Hdisplay, Hpassword, Hplen, Hmetadata.
  wp_step. apply ftap_returns. eapply wp_mono.
  { eapply ends_wp; [by apply ftap_client_registration_begin_spec|].
    by apply (ftap_client_registration_begin_ends pace fuel). }
  intros [begun_registration e] s1 h1 Hpost. cbv beta iota.
  assert (is_Some e) as [e1 ->].
  { eapply call_error; [|exact Hpost]. apply local_some. }
  wp_step. eapply wp_lift; [reflexivity|]. destruct begun_registration as [registration|].
  2:{ wp_step. eexists. split; [reflexivity|]. eapply coordinated_not_begun; [exact Hpost|]. by destruct error. }
  destruct (begun_ids _ _ _ _ _ _ _ _ _ _ Hpost) as (Hs1 & Ht1 & Hid & _).
  pose proof (patient_same _ _ Ht1 Hpatient) as Hpatient1.
  wp_step. unfold prepare_registration. apply wp_service. intros [[code prepared] le] Ha. symmetry in Ha. cbv beta iota.
  wp_step. destruct (Z.eqb_spec code 0) as [->|Hcode]; cbn [negb].
  2:{ eapply wp_mono; [eapply taken_back; [exact Hpatient1|exact Hpost|exact Ha|by constructor]|].
      intros [[c r] error'] s' h' Hend. wp_step. by exists r. }
  destruct (mark_cases prepared le (law_prepare _ _ _ _ _ _ Ha)) as [[Hv Hmark]|(Hv & e & Hmark & Hes)];
    wp_step; (eapply wp_lift; [exact Hmark|]); cbv beta iota; do 2 (wp_step; eapply wp_lift; [reflexivity|]); cbn [negb Z.eqb].
  2:{ eapply wp_mono; [eapply taken_back; [exact Hpatient1|exact Hpost|exact Ha|by apply not_committable]|].
      intros [[c r] error'] s' h' Hend. wp_step. by exists r. }
  eapply wp_mono; [eapply coordinator_commit_spec; [exact Hpatient1|exact Hid|reflexivity|done..|by apply valid_prepared in Hv]|].
  intros [[c r] error'] s' h' (answer & e2 & h2 & Hcommit & Hr & Hcases). wp_step. exists r. split; [done|].
  destruct answer as [terminal|].
  - destruct Hcases as (-> & finalized & prepared' & e3 & -> & Hf & Hc & Hterm & Hleft & Hfe & ->).
    replace (fortytwo_registration_error_clear (fortytwo_registration_error_clear error))
      with (fortytwo_registration_error_clear error) by (by destruct error).
    by eapply coordinated_committed.
  - destruct Hcases as (-> & -> & Hc & Hleft & Hu & He).
    eapply coordinated_not_committed; [exact Hpost|exact Ha|done|exact Hcommit|done..|]. by destruct error.
Qed.
End proofs.

(** ** The protocol *)

(** What a registration has come to. *)
Inductive phase := Idle | Begun | Prepared | Failed | Aborted | CommitRequested | Finalized.

#[export] Instance phase_eq_dec : EqDecision phase.
Proof. solve_decision. Defined.

(** The steps that are allowed: a prepared registration is either taken back or
    committed, and nothing is taken back after the commit has been requested. *)
Inductive next : phase → coordinator_event → phase → Prop :=
| next_begin after : next Idle (FtapCall BeginCall after) Begun
| next_prepared registration prepared : next Begun (LegacyPrepare registration 0 prepared) Prepared
| next_not_prepared registration code prepared :
    code ≠ 0 → next Begun (LegacyPrepare registration code prepared) Failed
| next_rollback from prepared code : from = Prepared ∨ from = Failed → next from (LegacyRollback prepared code) Failed
| next_abort from after : from = Prepared ∨ from = Failed → next from (FtapCall AbortCall after) Aborted
| next_commit after : next Prepared (FtapCall CommitCall after) CommitRequested
| next_finalize prepared code : next CommitRequested (LegacyFinalize prepared code) Finalized.

(** The history leads from one phase to another; its newest event is the first. *)
Inductive protocol (start : phase) : coordinator_history → phase → Prop :=
| protocol_start : protocol start [] start
| protocol_step h from e to : protocol start h from → next from e to → protocol start (e :: h) to.

Definition requests_commit (e : coordinator_event) : Prop := ∃ after, e = FtapCall CommitCall after.
Definition takes_back (e : coordinator_event) : Prop :=
  (∃ prepared code, e = LegacyRollback prepared code) ∨ ∃ after, e = FtapCall AbortCall after.

(** In no run of the protocol a commit and a rollback meet. *)
Lemma protocol_safe h to :
  protocol Idle h to →
  (to = CommitRequested ∨ to = Finalized → Forall (λ e, ¬ takes_back e) h) ∧
  (to ≠ CommitRequested → to ≠ Finalized → Forall (λ e, ¬ requests_commit e) h) ∧
  (to = Prepared ∨ to = Begun ∨ to = Idle → Forall (λ e, ¬ takes_back e) h).
Proof.
  induction 1 as [|h from e to _ (IHc & IHn & IHp) Hnext]; [by split_and!|].
  assert (∀ e', takes_back e' → (∃ p c, e' = LegacyRollback p c) ∨ ∃ a, e' = FtapCall AbortCall a) as Htb by done.
  destruct Hnext as [after|registration prepared|registration code prepared Hcode|from prepared code Hfrom
    |from after Hfrom|after|prepared code].
  all: split_and!.
  all: try (intros [Hx|Hx]; discriminate Hx).
  all: try (intros Hx Hy; congruence).
  all: intros; constructor; try (by intros [(? & ? & [=])|(? & [=])]); try (by intros (? & [=])).
  all: try (apply IHn; [by destruct Hfrom as [-> | ->]|by destruct Hfrom as [-> | ->]]).
  all: first [apply IHp; tauto|apply IHc; tauto|apply IHn; congruence|naive_solver].
Qed.

(** Every outcome is a run of the protocol. *)
Lemma coordinated_protocol request login display password metadata defaults error s h code result error' s' h' :
  coordinated request login display password metadata defaults error s h code result error' s' h' →
  ∃ steps to, h' = steps ++ h ∧ protocol Idle steps to ∧ (code = 0 ∨ code = -1) ∧
    (code = 0 ↔ rr_committed result = true) ∧ (rr_committed result = true ↔ to = Finalized) ∧
    (to = CommitRequested → rr_marker_pending result = true ∧ rr_repair_required result = true ∧
       pr_commit_started (rr_legacy result) = true).
Proof.
  destruct 1 as [e h1 s' error' Hb He
    |registration e1 s1 h1 code prepared le status primary failed remains h2 aborted e3 h3 s' result error' Hb hb Hp Hl Hback Ha Hc Hr Hleft He
    |registration e1 s1 h1 prepared le e2 h2 s' result error' Hb hb Hp Hv Hcommit Hc Hr Hleft Hu He
    |registration e1 s1 h1 prepared le terminal e2 h2 s' code prepared' e3 result Hb hb Hp Hv Hcommit hc Hf Hc Hr Ht Hleft Hfe].
  - exists [FtapCall BeginCall h1], Begun. split; [done|]. split; [by repeat econstructor|]. by split_and!; [right|..].
  - set (prep := LegacyPrepare _ code prepared) in *.
    assert (∃ from, next Begun prep from ∧ (from = Prepared ∨ from = Failed)) as (from & Hnext & Hfrom).
    { destruct (decide (code = 0)) as [->|Hcode]; [exists Prepared|exists Failed]; split; [constructor|auto|by constructor|auto]. }
    assert (protocol Idle [prep; FtapCall BeginCall h1] from) as Hprot.
    { eapply protocol_step; [|exact Hnext]. eapply protocol_step; [constructor|constructor]. }
    assert (∃ more to, h2 = more ++ h ∧ protocol Idle more to ∧ (to = Prepared ∨ to = Failed)) as (more & to & -> & Hmore & Hto).
    { destruct Hback as [_|p' e _ _|c p' e _ _ _].
      - exists [prep; FtapCall BeginCall h1], from. done.
      - exists [LegacyRollback prepared 0; prep; FtapCall BeginCall h1], Failed.
        split; [done|]. split; [eapply protocol_step; [exact Hprot|by constructor]|by right].
      - exists [LegacyRollback prepared c; prep; FtapCall BeginCall h1], Failed.
        split; [done|]. split; [eapply protocol_step; [exact Hprot|by constructor]|by right]. }
    exists (FtapCall AbortCall h3 :: more), Aborted. split; [done|].
    split; [eapply protocol_step; [exact Hmore|by constructor]|]. rewrite Hc. by split_and!; [right|..].
  - eexists [_; _; _], CommitRequested. split; [reflexivity|].
    split; [eapply protocol_step; [eapply protocol_step; [eapply protocol_step; [constructor|constructor]|constructor]|constructor]|].
    destruct Hleft as (Hpend & Hrep & Hleg). rewrite Hc, Hpend, Hrep, Hleg. split; [by right|]. split; [done|]. split; [done|].
    by intros _.
  - eexists [_; _; _; _], Finalized. split; [reflexivity|].
    split; [eapply protocol_step; [eapply protocol_step; [eapply protocol_step; [eapply protocol_step; [constructor|constructor]|constructor]|constructor]|constructor]|].
    rewrite Hc. by split_and!; [left|..].
Qed.

(** ** Properties *)

Section properties.
Context (request : fortytwo_registration_request) (login display password : list Z) (metadata : ftap_metadata)
  (defaults : legacy_userdb_record_defaults).

(** C4: the coordinator returns, whatever the daemon, the network and the user
    database do, and never leaves the objects that it was given. A request that is
    not usable touches nothing. Otherwise a registration that cannot be begun ends
    there; one that is begun but cannot be prepared, or must not be committed, is
    rolled back where anything had been prepared, and then aborted; one that was
    prepared is committed, and success means that the daemon has confirmed this very
    registration. The result and the error say which of these happened, what is left
    in the user database, and whether the outcome of the commit is known. *)
Theorem coordinate_correct valid result error s h :
  request_is_valid (Some request) (Some result) s = Some valid →
  request_parts request s login display password metadata defaults → patient pace fuel s →
  returns (fortytwo_registration_coordinate before fuel (Some request) (Some result) error)
    (λ '(code, result', error') s' h', ∃ r, result' = Some r ∧
       if valid then coordinated request login display password metadata defaults error s h code r error' s' h'
       else code = -1 ∧ r = cleared_result ∧ s' = s ∧ h' = h ∧
         error_says error error' (λ e, re_status e = FORTYTWO_REGISTRATION_INVALID_ARGUMENT ∧
           ce_status (re_ftap e) = FTAP_STATUS_ERR_ARGUMENT)) s h.
Proof.
  intros Hvalid Hparts Hpatient. destruct valid; [by apply coordinate_spec|].
  unfold fortytwo_registration_coordinate. cbv zeta. do 2 wp_step.
  assert (request_is_valid (Some request) (fortytwo_registration_result_clear (Some result)) s = Some false) as Hvalid'
    by exact Hvalid.
  wp_step. eapply wp_lift; [exact Hvalid'|]. cbn [negb]. wp_step. eexists. split; [reflexivity|].
  split_and!; try done. by destruct error.
Qed.

(** C3: what the coordinator does is a run of the protocol in which a registration
    is prepared, and then either committed or taken back: no rollback and no abort
    happens once the commit has been requested, no commit is requested for what has
    not been prepared, and the result is success exactly if the commit was confirmed.
    If it was requested and not confirmed, the prepared data stay in the user
    database, marked so that no later rollback accepts them, and the caller is told
    to have them repaired. *)
Theorem coordinate_protocol result error s h :
  request_is_valid (Some request) (Some result) s = Some true →
  request_parts request s login display password metadata defaults → patient pace fuel s →
  returns (fortytwo_registration_coordinate before fuel (Some request) (Some result) error)
    (λ '(code, result', error') s' h', ∃ r steps to, result' = Some r ∧ h' = steps ++ h ∧ protocol Idle steps to ∧
       (code = 0 ∨ code = -1) ∧ (code = 0 ↔ rr_committed r = true) ∧ (rr_committed r = true ↔ to = Finalized) ∧
       (Exists requests_commit steps → Forall (λ e, ¬ takes_back e) steps) ∧
       (rr_committed r = false → Exists requests_commit steps →
          rr_marker_pending r = true ∧ rr_repair_required r = true ∧ pr_commit_started (rr_legacy r) = true)) s h.
Proof.
  intros Hvalid Hparts Hpatient. eapply wp_mono; [by apply coordinate_spec|].
  intros [[code result'] error'] s' h' (r & -> & Hend).
  destruct (coordinated_protocol _ _ _ _ _ _ _ _ _ _ _ _ _ _ Hend) as (steps & to & -> & Hp & Hcode & Hc0 & Hct & Hleft).
  destruct (protocol_safe _ _ Hp) as (Hcommit & Hnone & _).
  assert (Exists requests_commit steps → to = CommitRequested ∨ to = Finalized) as Hto.
  { intros Hex. destruct (decide (to = CommitRequested)) as [|H1']; [by left|].
    destruct (decide (to = Finalized)) as [|H2']; [by right|]. exfalso.
    apply Exists_exists in Hex as (e & He & Hreq). specialize (Hnone H1' H2'). rewrite Forall_forall in Hnone.
    by apply (Hnone e). }
  exists r, steps, to. split_and!; try done; [intros Hex; by apply Hcommit, Hto|]. intros Hnc Hex.
  destruct (Hto Hex) as [Hto'|Hto']; [by apply Hleft|]. apply Hct in Hto'. congruence.
Qed.
End properties.
End outcomes.

(** *** A storage that prepares one registration *)

Definition example_defaults : legacy_userdb_record_defaults :=
  RecordDefaults 20 0 0 1 0 0 (Some (lit "ZModem" ++ [0])) true false true.

(** Whether a list holds as many bytes as asked for. *)
Definition script_fits (bytes : list Z) (n : nat) : bool :=
  (if decide (bytes_ok bytes) then true else false) && (length bytes =? n)%nat.

Lemma script_fits_ok bytes n : script_fits bytes n = true → bytes_ok bytes ∧ length bytes = n.
Proof. intros [H1 H2]%andb_true_iff. split; [by apply script_ok|by apply Nat.eqb_eq]. Qed.

Definition example_context : legacy_userdb_prepared_registration :=
  default cleared_registration
    (let! record := build_record (UserdbRegistration example_uuid example_uuid (Some example_legacy_name)
                                    (Some example_display_name) 1700000000 example_defaults) in
     let! record := record in
     prepare_context (UserdbRegistration example_uuid example_uuid (Some example_legacy_name)
                        (Some example_display_name) 1700000000 example_defaults)
       7 example_database_status example_database_status record).

Lemma example_context_memory : prepared_memory example_context.
Proof.
  assert (script_fits (pr_registration_id example_context) 16 && script_fits (pr_user_id example_context) 16 &&
    (zlen (pr_legacy_name example_context) =? 9) && script_fits (pr_display_name example_context) 36 = true) as Hc
    by (vm_compute; reflexivity).
  apply andb_true_iff in Hc as [Hc H4]. apply andb_true_iff in Hc as [Hc H3]. apply andb_true_iff in Hc as [H1 H2].
  split; [by apply script_fits_ok in H1|by apply script_fits_ok in H2|by apply Z.eqb_eq|].
  apply script_fits_ok in H4 as [? Hl]. split; [done|]. unfold zlen. rewrite Hl. reflexivity.
Qed.

(** It can be finalized unless [broken]. *)
Definition example_storage (broken : bool) : LegacyStorage := {|
  legacy_userdb_prepare_registration _ _ _ := (0, example_context, cleared_error);
  legacy_userdb_rollback_precommit _ _ _ := (0, cleared_registration, cleared_error);
  legacy_userdb_finalize_committed _ _ p := if broken then (-1, p, cleared_error) else (0, cleared_registration, cleared_error);
|}.

Lemma example_storage_laws broken : @LegacyStorageLaws (example_storage broken).
Proof.
  split. intros h request registration result prepared error Heq.
  rewrite <- (f_equal (λ outcome, outcome.1.2) Heq : example_context = prepared). apply example_context_memory.
Qed.

Definition example_request : fortytwo_registration_request := {|
  rq_client := true;
  rq_mbse_root := Some (lit "/opt/mbse" ++ [0]);
  rq_bbs_users_directory := Some (lit "/opt/mbse/home" ++ [0]);
  rq_login_name := Some (lit "Neo.42" ++ [0]);
  rq_display_name := Some (lit "Neo 42" ++ [0]);
  rq_password := Some (lit "trinity" ++ [0]);
  rq_password_length := zlen (lit "trinity");
  rq_metadata := Some example_metadata;
  rq_registered_at := 1700000000;
  rq_legacy_defaults := Some example_defaults;
  rq_legacy_policy := Some (ProvisionPolicy (UserdbPolicy false 0 false 0 false 0 false 65536)
    (DirectoryPolicy false 0 false 0 false 0) (DirectoryPolicy false 0 false 0 false 0));
|}.

Lemma example_request_parts :
  request_parts example_request (example_terminal FTAP_STATE_HELLO_COMPLETE) (lit "Neo.42" ++ [0]) (lit "Neo 42" ++ [0])
    (lit "trinity") example_metadata example_defaults.
Proof.
  split; [done|split; [done|apply script_ok; vm_compute; reflexivity]..| |split; [done|apply example_metadata_ok]|done].
  split; [exists [0]; split; [done|apply script_ok; vm_compute; reflexivity]|]. split; [done|vm_compute; reflexivity].
Qed.

(** The daemon begins the registration and confirms the commit. *)
Definition registration_script : list Z :=
  begin_script ++ queued (queue_registration_commit_result zero_client 3 example_commit).

Definition example_coordinate (script : list Z) (broken : bool) :=
  @fortytwo_registration_coordinate dotted_quad (scripted script) (example_storage broken) [] 200
    (Some example_request) (Some cleared_result) (Some cleared_registration_error)
    (example_terminal FTAP_STATE_HELLO_COMPLETE) [].

(** How a run ended: its code, whether the registration is committed, whether the
    marker is left in the user database, the errors, and the number of events. *)
Definition coordinate_ending (script : list Z) (broken : bool) :=
  match example_coordinate script broken with
  | Some (Done (code, Some r, Some e) s h) =>
      Some (code, rr_committed r, rr_marker_pending r, cl_state s, re_status e, length h)
  | _ => None
  end.

Lemma coordinate_correct_witness :
  (** The database cannot be finalized: the commit stands, and the marker is left. *)
  coordinate_ending registration_script true =
    Some (0, true, true, FTAP_STATE_SESSION_BOUND, FORTYTWO_REGISTRATION_OK, 4%nat) ∧
  wp (λ _, False) (@fortytwo_registration_coordinate dotted_quad (scripted registration_script) (example_storage true) [] 200
      (Some example_request) (Some cleared_result) (Some cleared_registration_error))
    (λ '(code, result', error') s' h', ∃ r, result' = Some r ∧
       @coordinated dotted_quad (example_storage true) []
         example_request (lit "Neo.42" ++ [0]) (lit "Neo 42" ++ [0]) (lit "trinity") example_metadata example_defaults
         (Some cleared_registration_error) (example_terminal FTAP_STATE_HELLO_COMPLETE) [] code r error' s' h')
    (example_terminal FTAP_STATE_HELLO_COMPLETE) [].
Proof.
  split; [vm_compute; reflexivity|].
  refine (@coordinate_correct dotted_quad _
    (scripted_laws registration_script ltac:(apply script_ok; vm_compute; reflexivity))
    _ (example_storage_laws true) [] 1 200 (scripted_paced _) example_request (lit "Neo.42" ++ [0])
    (lit "Neo 42" ++ [0]) (lit "trinity") example_metadata example_defaults true cleared_result
    (Some cleared_registration_error) (example_terminal FTAP_STATE_HELLO_COMPLETE) [] _ _ _).
  - vm_compute. reflexivity.
  - apply example_request_parts.
  - apply example_patient.
Defined.

Lemma coordinate_protocol_witness :
  (** The daemon answers the begin, and is gone before the commit. *)
  coordinate_ending begin_script false =
    Some (-1, false, true, FTAP_STATE_CLOSING, FORTYTWO_REGISTRATION_COMMIT_OUTCOME_UNKNOWN, 3%nat) ∧
  wp (λ _, False) (@fortytwo_registration_coordinate dotted_quad (scripted begin_script) (example_storage false) [] 200
      (Some example_request) (Some cleared_result) (Some cleared_registration_error))
    (λ '(code, result', error') s' h', ∃ r steps to, result' = Some r ∧ h' = steps ++ [] ∧ protocol Idle steps to ∧
       (code = 0 ∨ code = -1) ∧ (code = 0 ↔ rr_committed r = true) ∧ (rr_committed r = true ↔ to = Finalized) ∧
       (Exists requests_commit steps → Forall (λ e, ¬ takes_back e) steps) ∧
       (rr_committed r = false → Exists requests_commit steps →
          rr_marker_pending r = true ∧ rr_repair_required r = true ∧ pr_commit_started (rr_legacy r) = true))
    (example_terminal FTAP_STATE_HELLO_COMPLETE) [].
Proof.
  split; [vm_compute; reflexivity|].
  refine (@coordinate_protocol dotted_quad _
    (scripted_laws begin_script ltac:(apply script_ok; vm_compute; reflexivity))
    _ (example_storage_laws false) [] 1 200 (scripted_paced _) example_request (lit "Neo.42" ++ [0])
    (lit "Neo 42" ++ [0]) (lit "trinity") example_metadata example_defaults cleared_result
    (Some cleared_registration_error) (example_terminal FTAP_STATE_HELLO_COMPLETE) [] _ _ _).
  - vm_compute. reflexivity.
  - apply example_request_parts.
  - apply example_patient.
Defined.
